(* ===== verification/_CoqProject ===== *)
-Q . S2P
Prelude.v
Bytes.v
Buffer.v
ByteArray.v
Codec.v
Wire.v
TimerWheel.v
Agenda.v
WheelRuns.v
TimerManager.v
FiberSched.v
FiberMutex.v
FiberSemphore.v
WPRWMutex.v
Stream.v
ZlibStream.v
Protocol.v
Rock.v
WebSocket.v
Strings.v
Fiber.v
Scheduler.v
IOManager.v
FdManager.v
Hook.v
AsyncStream.v
HttpMap.v
Http.v
HttpSession.v
Servlet.v
HttpServer.v
Address.v
ObjPool.v
Worker.v
WorkerManager.v
Log.v
Config.v
Ikcp.v
IkcpRcv.v
IkcpSnd.v
IkcpFlush.v
IkcpSafe.v
IkcpNet.v
KcpMessage.v
KcpSession.v
KcpNet.v
KcpListener.v
KcpServer.v
FoxThread.v
