(* ===== verification/Prelude.v ===== *)
(** * Xten: a verification library for the coroutine server framework

    Xten (src/src) runs servers on fibers.  Threads take fibers and callbacks
    from a scheduler; a fiber that has to wait for a descriptor, a timer or
    another fiber gives its thread back.  System calls are hooked so that
    ordinary code waits this way.  On top stand byte arrays, streams, message
    protocols, HTTP, web sockets and asynchronous connections.  This library
    models that core and proves what it promises.

    ** Reading guide

    A component is one file (two or three where it is large).  State is a
    Record with the fields of the class, operations are Definitions under the
    names of the methods, programs run in the monad [M S A] of this file: they
    return [Ok], let an exception out ([Throw]), fail an XTEN_ASSERT
    ([AssertFail]) or run into undefined behaviour ([Undef]).  Integers are [Z]
    and wrap where the code can leave their width.  A loop that is not
    structural takes fuel; [NoFuel] is the model's own value, and the theorems
    prove that it does not occur for the fuel they name (usually the length of
    what is left, plus one).  Concurrency is a machine whose steps are the
    parts of a method between two points where another thread can come in
    (the critical sections of its locks); theorems quantify over all
    interleavings of these steps.

    - Prelude, Bytes: machine integers, the monad, slices, byte order,
      C strings.
    - Buffer, ByteArray (bytearray.cpp): the chain of nodes, reading, writing,
      positions and scatter/gather buffers, against one flat sequence of bytes
      ([Write_refines], [Read_behaviour]).  Codec, Wire: integers, zigzag and
      variable-length coding, floats and strings on top of them
      ([ByteArray_roundtrip], [varint_roundtrip], [string_roundtrip]).
    - TimerWheel, Agenda, WheelRuns (timer.cpp, TimerWheelManager): the
      five-level wheel refines an agenda of due ticks ([wheel_refines]), a timer
      fires in its tick ([AddTimer_fires]) unless its slot is one the shift
      never visits ([lost_timer_never_fires]).  TimerManager (timer.cpp): the
      ordered timer set, expiry and the wake-up protocol.
    - FiberSched, FiberMutex, FiberSemphore (mutex.cpp), WPRWMutex (mutex.h):
      the fiber lock, condition variable, semaphore and read-write lock:
      exclusion, fairness, no forgotten fiber, no lost wake-up.
    - Fiber (fiber.cpp), Scheduler (scheduler.cpp): the status machine of a
      fiber with its switches, and the run loops of all threads over one
      queue ([scheduler_safe], [wakeup_lost]).
    - IOManager (iomanager.cpp): descriptors' events as a table of waiting
      handlers ([events_implement_table]).  FdManager (fdmanager.cpp) and Hook
      (hook.cpp): the socket contexts and the hooked calls over the event
      machine ([hooks_hide_nonblocking], [do_io_safe], [timeout_lost]).
    - Stream (stream.cpp, socket_stream.cpp, socket.cpp): the class [Stream],
      what it promises ([StreamLaws]), the socket stream as its instance, and
      the fixed-size transfers proved against the promise.  ZlibStream
      (zlib_stream.cpp): compression through fixed-size blocks.
    - Protocol (protocol.cpp), Rock (rock_protocol.cpp): messages and the
      coder that frames them; AsyncStream (async_socket_stream.cpp,
      rock_stream.cpp): requests over one connection with reader, writer,
      timers, closing and reconnection interleaved ([requests_answered]).
    - WebSocket (ws_session.cpp): frames, sessions and the sender fiber.
    - Strings (util.cpp): paths, URL and base64 coding, replacing, splitting.
    - HttpMap, Http (http.cpp): the case-insensitive map, messages, URIs,
      forms and cookies.  HttpSession (http_session.cpp, http_parser.cpp):
      receiving a request through any cut of the stream
      ([request_received], [RecvRequest_total]).  Servlet (servlet.cpp): the
      dispatcher ([dispatch_exact]).  HttpServer (http_server.cpp): the loop of
      a connection over both ([connection_served]).
    - Address (address.cpp): socket addresses, their masks ([subnet_addresses]),
      order, texts and look-ups ([Lookup_toString]) and the interfaces of the
      host ([interface_addresses]).
    - ObjPool (objpool.cpp): the pool the fibers' memory comes from
      ([pool_safe]).  Worker (worker.cpp): groups that bound how many tasks run
      at once, over the fiber semaphore ([group_correct],
      [bulk_schedule_deadlock]); WorkerManager (worker.cpp): the named groups of
      schedulers ([Init_Stop]).
    - Log (log.cpp): the pattern language ([pattern_formats], [Formatter_total]),
      what loggers and sinkers deliver ([log_delivers]) and what a configuration
      makes of them ([config_applied], [define_text]).  Config (config.h,
      config.cpp): variables with listeners under overlapping calls
      ([listeners_told]), the registry and the loading of documents and
      directories ([LoadFromYaml_exact]).
    - Ikcp (ikcp.c): the reliable transport under kcp sessions.  IkcpRcv, IkcpSnd
      and IkcpFlush prove what its parts do to the queues and what a flush puts
      out; IkcpSafe runs a control block against any calls and any datagrams
      ([ikcp_safe]); IkcpNet joins two of them by a network that loses, duplicates
      and reorders, where every message arrives whole, once and in order
      ([kcp_reliable]).  KcpMessage (kcp_protocol.h, kcp_util.hpp): what the sessions
      carry.  KcpSession (kcp_session.cpp, KcpServer::handleClient): a session with
      its two fibers; KcpNet runs it against any datagrams ([session_safe],
      [session_races]) and against a client over Ikcp's network
      ([session_conversation]).  KcpListener (kcp_listener.cpp): sockets, tables and
      the accepting fiber ([listener_safe]).  KcpServer (kcp_server.h): the table of
      connected sessions ([connections_found]).
    - FoxThread (db/fox_thread.cpp): the threads the database clients run on,
      the pools of them and the table of names ([tasks_in_order],
      [thread_pool_safe], [thread_pool_runs_everything]).

    ** Interfaces

    [Machine] (Buffer) is what fresh memory holds and the room on the stack; [Kernel] and
    [KernelLaws] (Stream) are the transfer calls of the operating system;
    [Stream] and [StreamLaws] are what every protocol above relies on, proved
    of the socket stream for every kernel that keeps its laws.  epoll, zlib and
    the socket table of the kernel are classes of the same kind (IOManager,
    ZlibStream, FdManager), so are the resolver and the interface table
    ([NetDb], [NetDbLaws], Address), and so is the HTTP state machine that ragel
    generates ([HttpFsm], [HttpFsmLaws], HttpSession).  Every class of laws has a concrete instance, and
    the witnesses run the theorems on it.

    ** Groups of theorems

    Refinement: the byte array and a flat sequence, the wheel and its agenda,
    the event table, the header map.  Round trips: codecs, strings, URL and
    base64, compression, messages, frames, forms, URIs, addresses.  Bounds and
    types: subnets for every prefix length, the address classes.  Safety and invariants
    under all interleavings: fiber locks, semaphore, read-write lock,
    scheduler, events, hooks, asynchronous requests.  Liveness: firing of
    timers, fairness, wake-ups.  Errors and closed runs: what goes wrong where
    the code does not do what it means to.

    ** Not modelled

    Code whose effect is a system call or a library call with no logic of its
    own (Mutex, Semaphore and Thread over pthread, files, daemon, environment,
    dynamic libraries, the XML of orm); log lines in the models of other
    components, which none depends on; the database clients (drivers
    of libmysqlclient and hiredis); generated and vendored code (protobuf,
    libco, fcontext); the servers that only
    wire components together.  The manifest lists each with its reason. *)
From Stdlib Require Export ZArith Lia.
From stdpp Require Export base tactics list list_numbers option.

#[global] Open Scope Z_scope.

(** ** Machine integers

    A [w]-bit unsigned integer is a [Z]; every place where the code can leave
    the range goes through [uwrap] (unsigned) or [swrap] (two's complement). *)
Definition uwrap (w z : Z) : Z := z mod 2 ^ w.
Definition swrap (w z : Z) : Z := (z + 2 ^ (w - 1)) mod 2 ^ w - 2 ^ (w - 1).

Abbreviation u8 := (uwrap 8).
Abbreviation u16 := (uwrap 16).
Abbreviation u32 := (uwrap 32).
Abbreviation u64 := (uwrap 64).
Abbreviation s8 := (swrap 8).
Abbreviation s16 := (swrap 16).
Abbreviation s32 := (swrap 32).
Abbreviation s64 := (swrap 64).

(** The range predicates of the fixed-width types. *)
Definition in_u (w z : Z) : Prop := 0 <= z < 2 ^ w.
Definition in_s (w z : Z) : Prop := - 2 ^ (w - 1) <= z < 2 ^ (w - 1).

(** Sizes are [Z] in the code ([size_t]); list lengths are [nat]. *)
Abbreviation zlen l := (Z.of_nat (length l)).

(** [lia] after turning divisions and remainders into equations. *)
Ltac zlia := Z.to_euclidean_division_equations; lia.
Ltac znia := Z.to_euclidean_division_equations; nia.

(** A decidable statement about concrete values. *)
Ltac by_computation := match goal with |- ?P => apply (bool_decide_unpack P); vm_compute; exact I end.

Create HintDb xten discriminated.

Lemma pow2_pos w : 0 <= w -> 0 < 2 ^ w.
Proof. intros. apply Z.pow_pos_nonneg; lia. Qed.

Lemma pow2_double w : 0 < w -> 2 ^ w = 2 * 2 ^ (w - 1).
Proof. intros. rewrite <- Z.pow_succ_r by lia. f_equal. lia. Qed.

Lemma uwrap_range w z : 0 <= w -> in_u w (uwrap w z).
Proof. intros. apply Z.mod_pos_bound, pow2_pos. lia. Qed.

Lemma uwrap_id w z : in_u w z -> uwrap w z = z.
Proof. apply Z.mod_small. Qed.

Lemma uwrap_uwrap w z : uwrap w (uwrap w z) = uwrap w z.
Proof. unfold uwrap. apply Zmod_mod. Qed.

Lemma swrap_range w z : 0 < w -> in_s w (swrap w z).
Proof.
  intros. unfold in_s, swrap.
  pose proof (Z.mod_pos_bound (z + 2 ^ (w - 1)) (2 ^ w) (pow2_pos w ltac:(lia))).
  pose proof (pow2_double w ltac:(lia)). lia.
Qed.

Lemma swrap_id w z : 0 < w -> in_s w z -> swrap w z = z.
Proof.
  intros Hw Hz. unfold in_s in Hz. unfold swrap.
  pose proof (pow2_double w Hw).
  rewrite Z.mod_small by lia. lia.
Qed.

(** Reading a two's complement pattern back as a signed value. *)
Lemma swrap_uwrap w z : 0 < w -> in_s w z -> swrap w (uwrap w z) = z.
Proof.
  intros Hw Hz. rewrite <- (swrap_id w z) at 2 by done.
  unfold swrap, uwrap. by rewrite Zplus_mod_idemp_l.
Qed.

Lemma uwrap_swrap w z : 0 < w -> uwrap w (swrap w z) = uwrap w z.
Proof.
  intros Hw. unfold uwrap, swrap.
  rewrite Zminus_mod_idemp_l. f_equal. lia.
Qed.

(** ** Bit operations as arithmetic *)
Lemma lor_shiftl_add a b i : 0 <= i -> 0 <= a < 2 ^ i -> Z.lor a (Z.shiftl b i) = a + b * 2 ^ i.
Proof.
  intros Hi Ha. rewrite <- Z.shiftl_mul_pow2 by lia.
  assert (Z.land a (Z.shiftl b i) = 0) as Hland.
  { apply Z.bits_inj'. intros n Hn. rewrite Z.land_spec, Z.bits_0, Z.shiftl_spec by lia.
    destruct (Z.lt_ge_cases n i).
    - rewrite (Z.testbit_neg_r b) by lia. apply andb_false_r.
    - rewrite <- (Z.mod_small a (2 ^ i)), Z.mod_pow2_bits_high by lia. done. }
  rewrite <- Z.lxor_lor by done. symmetry. by apply Z.add_nocarry_lxor.
Qed.

Lemma lor_pow2_add a i : 0 <= i -> 0 <= a < 2 ^ i -> Z.lor a (2 ^ i) = a + 2 ^ i.
Proof.
  intros Hi Ha. pose proof (lor_shiftl_add a 1 i Hi Ha) as H.
  rewrite Z.shiftl_1_l in H. lia.
Qed.

(** Flipping the low [w] bits. *)
Lemma lxor_ones x w : 0 <= w -> 0 <= x < 2 ^ w -> Z.lxor x (2 ^ w - 1) = 2 ^ w - 1 - x.
Proof.
  intros Hw Hx. replace (2 ^ w - 1) with (Z.ones w) by (rewrite Z.ones_equiv; lia).
  assert (forall n, w <= n -> Z.testbit x n = false) as Hhigh.
  { intros n Hn. rewrite <- (Z.mod_small x (2 ^ w)) by lia. apply Z.mod_pow2_bits_high. lia. }
  rewrite Z.sub_nocarry_ldiff.
  - apply Z.bits_inj'. intros n Hn. rewrite Z.lxor_spec, Z.ldiff_spec.
    destruct (Z.lt_ge_cases n w).
    + rewrite Z.ones_spec_low by lia. by destruct (Z.testbit x n).
    + rewrite Z.ones_spec_high, Hhigh by lia. done.
  - apply Z.bits_inj'. intros n Hn. rewrite Z.ldiff_spec, Z.bits_0.
    destruct (Z.lt_ge_cases n w).
    + rewrite Z.ones_spec_low by lia. apply andb_false_r.
    + by rewrite Hhigh.
Qed.

(** ** Outcomes

    What one call of a C++ function can do: return, let an exception out,
    trip an [XTEN_ASSERT], or run into undefined behaviour.  [NoFuel] is the
    model's own value for an iteration bound that was too small; every
    component proves that it is never produced. *)
Inductive exn := OutOfRange | LogicError | BadAlloc.
Inductive undefined :=
  | NullDeref          (* a null node pointer is dereferenced *)
  | OutOfBounds        (* a memory access leaves its object *)
  | ShiftWidth         (* a shift by the width of the type or more *)
  | DivByZero
  | SignedOverflow
  | UseAfterFree
  | StackOverflow      (* a variable-length array larger than the stack *)
  | Uninit             (* an indeterminate value is read *)
  | Relock.            (* a spin lock is taken by its holder *)

Inductive outcome (A : Type) :=
  | Ok (a : A)
  | Throw (e : exn)
  | AssertFail
  | Undef (u : undefined)
  | NoFuel.
Arguments Ok {A} _.
Arguments Throw {A} _.
Arguments AssertFail {A}.
Arguments Undef {A} _.
Arguments NoFuel {A}.

(** Programs over a state [S]: the state survives every outcome, as the
    objects of the program do when an exception is caught. *)
Definition M (S A : Type) := S -> outcome A * S.

Section monad.
Context {S : Type}.

#[global] Instance M_ret : MRet (M S) := fun A a s => (Ok a, s).
#[global] Instance M_bind : MBind (M S) := fun A B f m s =>
  match m s with
  | (Ok a, s') => f a s'
  | (Throw e, s') => (Throw e, s')
  | (AssertFail, s') => (AssertFail, s')
  | (Undef u, s') => (Undef u, s')
  | (NoFuel, s') => (NoFuel, s')
  end.

Definition get : M S S := fun s => (Ok s, s).
Definition put (s : S) : M S unit := fun _ => (Ok tt, s).
Definition modify (f : S -> S) : M S unit := fun s => (Ok tt, f s).
Definition throw {A} (e : exn) : M S A := fun s => (Throw e, s).
Definition undef {A} (u : undefined) : M S A := fun s => (Undef u, s).
Definition nofuel {A} : M S A := fun s => (NoFuel, s).
Definition assert (b : bool) : M S unit := fun s => (if b then Ok tt else AssertFail, s).
(** [catch (...)]: an exception becomes the handler's run. *)
Definition catch {A} (m : M S A) (h : M S A) : M S A := fun s =>
  match m s with (Throw _, s') => h s' | r => r end.

Lemma bind_ok {A B} (m : M S A) (f : A -> M S B) s a s' :
  m s = (Ok a, s') -> (m ≫= f) s = f a s'.
Proof. intros H. unfold mbind, M_bind. by rewrite H. Qed.

Lemma bind_inv {A B} (m : M S A) (f : A -> M S B) s b s2 :
  (m ≫= f) s = (Ok b, s2) -> exists a s1, m s = (Ok a, s1) /\ f a s1 = (Ok b, s2).
Proof. unfold mbind, M_bind. destruct (m s) as [[a|e| |u|] s1]; try done. by exists a, s1. Qed.

Lemma assert_true b s : b = true -> assert b s = (Ok tt, s).
Proof. by intros ->. Qed.

Lemma bind_throw {A B} (m : M S A) (f : A -> M S B) s e s' :
  m s = (Throw e, s') -> (m ≫= f) s = (Throw e, s').
Proof. intros H. unfold mbind, M_bind. by rewrite H. Qed.

Lemma bind_ext {A B} (m : M S A) (f g : A -> M S B) s :
  (forall a s', f a s' = g a s') -> (m ≫= f) s = (m ≫= g) s.
Proof. intros H. unfold mbind, M_bind. by destruct (m s) as [[a|e| |u|] s']. Qed.

Lemma bind_assoc {A B C} (m : M S A) (f : A -> M S B) (g : B -> M S C) s :
  ((m ≫= f) ≫= g) s = (m ≫= fun a => f a ≫= g) s.
Proof. unfold mbind, M_bind. by destruct (m s) as [[a|e| |u|] s']. Qed.

Lemma bind_undef {A B} (m : M S A) (f : A -> M S B) s u s' :
  m s = (Undef u, s') -> (m ≫= f) s = (Undef u, s').
Proof. intros H. unfold mbind, M_bind. by rewrite H. Qed.
End monad.

(** One command of a program, by what it is known to do. *)
Ltac step H := rewrite (bind_ok _ _ _ _ _ H); cbn beta iota.

(** A program on the first of two objects. *)
Definition on_fst {S T A} (m : M S A) : M (S * T) A := fun '(s, t) =>
  let '(o, s') := m s in (o, (s', t)).

Lemma on_fst_ok {S T A} (m : M S A) s (t : T) a s' :
  m s = (Ok a, s') -> on_fst m (s, t) = (Ok a, (s', t)).
Proof. intros H. cbn. by rewrite H. Qed.

(** ** Slices and in-place updates of byte sequences *)
Definition slice {A} (l : list A) (p n : Z) : list A :=
  take (Z.to_nat n) (drop (Z.to_nat p) l).

(** [memcpy] of [bs] to offset [p] of [l], inside its bounds. *)
Definition splice {A} (l : list A) (p : Z) (bs : list A) : list A :=
  take (Z.to_nat p) l ++ bs ++ drop (Z.to_nat p + length bs) l.

Section slices.
Context {A : Type}.
Implicit Types l bs : list A.

Lemma splice_length l p bs :
  0 <= p -> p + zlen bs <= zlen l -> length (splice l p bs) = length l.
Proof. intros. unfold splice. rewrite !length_app, length_take, length_drop. lia. Qed.

Lemma splice_nil l p : 0 <= p -> splice l p [] = l.
Proof. intros. unfold splice. simpl. by rewrite Nat.add_0_r, take_drop. Qed.

(** Two writes side by side are one write. *)
Lemma splice_splice l p bs1 bs2 :
  0 <= p <= zlen l ->
  splice (splice l p bs1) (p + zlen bs1) bs2 = splice l p (bs1 ++ bs2).
Proof.
  intros Hp. unfold splice.
  replace (Z.to_nat (p + zlen bs1)) with (length (take (Z.to_nat p) l ++ bs1))
    by (rewrite length_app, length_take; lia).
  rewrite (app_assoc (take _ l)), take_app_length.
  rewrite <- !app_assoc, !length_app. do 3 f_equal.
  rewrite (app_assoc (take _ l)), <- length_app.
  rewrite <- drop_drop, drop_app_length, drop_drop. f_equal. lia.
Qed.

Lemma splice_app_r l1 l2 p bs :
  zlen l1 <= p -> splice (l1 ++ l2) p bs = l1 ++ splice l2 (p - zlen l1) bs.
Proof.
  intros Hp. unfold splice.
  rewrite take_app_ge by lia.
  rewrite drop_app_ge by lia. rewrite <- app_assoc.
  do 2 f_equal; [f_equal; lia |]. do 2 f_equal. lia.
Qed.

Lemma splice_app_l l1 l2 p bs :
  0 <= p -> p + zlen bs <= zlen l1 -> splice (l1 ++ l2) p bs = splice l1 p bs ++ l2.
Proof.
  intros Hp Hl. unfold splice.
  rewrite take_app_le by lia. rewrite drop_app_le by lia.
  by rewrite <- !app_assoc.
Qed.

(** Appending at the end of the data. *)
Lemma splice_end l bs : splice l (zlen l) bs = l ++ bs.
Proof.
  unfold splice. rewrite Nat2Z.id, firstn_all, drop_ge by lia. by rewrite app_nil_r.
Qed.

Lemma slice_length l p n :
  0 <= p -> 0 <= n -> p + n <= zlen l -> length (slice l p n) = Z.to_nat n.
Proof. intros. unfold slice. rewrite length_take, length_drop. lia. Qed.

Lemma slice_0 l p : slice l p 0 = [].
Proof. unfold slice. by rewrite take_0. Qed.

Lemma slice_app l p n m :
  0 <= p -> 0 <= n -> 0 <= m ->
  slice l p n ++ slice l (p + n) m = slice l p (n + m).
Proof.
  intros. unfold slice. rewrite !Z2Nat.inj_add by lia.
  rewrite <- drop_drop, take_take_drop. done.
Qed.

Lemma slice_split l p q n m k :
  0 <= p -> 0 <= n -> 0 <= m -> q = p + n -> k = n + m ->
  slice l p k = slice l p n ++ slice l q m.
Proof. intros ??? -> ->. by rewrite slice_app. Qed.

Lemma slice_app_r l1 l2 p n :
  zlen l1 <= p -> slice (l1 ++ l2) p n = slice l2 (p - zlen l1) n.
Proof.
  intros Hp. unfold slice. rewrite drop_app_ge by lia. do 2 f_equal. lia.
Qed.

Lemma slice_app_l l1 l2 p n :
  0 <= p -> 0 <= n -> p + n <= zlen l1 -> slice (l1 ++ l2) p n = slice l1 p n.
Proof.
  intros. unfold slice. rewrite drop_app_le by lia.
  rewrite take_app_le; [done |]. rewrite length_drop. lia.
Qed.

Lemma slice_take l p n k :
  0 <= p -> 0 <= n -> p + n <= Z.of_nat k -> slice (take k l) p n = slice l p n.
Proof.
  intros. unfold slice. rewrite skipn_firstn_comm, take_take. f_equal. lia.
Qed.

Lemma take_splice l p bs k :
  0 <= p -> p + zlen bs <= zlen l -> Z.of_nat k = p + zlen bs ->
  take k (splice l p bs) = take (Z.to_nat p) l ++ bs.
Proof.
  intros. unfold splice. rewrite app_assoc.
  rewrite take_app_le by (rewrite length_app, length_take; lia).
  apply firstn_all2. rewrite length_app, length_take. lia.
Qed.
End slices.

(** ** Finite ranges

    A property of all values of a small field, by computation. *)
Lemma field_cases (P : Z -> bool) n x : forallb P (seqZ 0 n) = true -> 0 <= x < n -> P x = true.
Proof. intros HP Hx. rewrite forallb_forall in HP. apply HP. apply list_elem_of_In, elem_of_seqZ. lia. Qed.

(** ** Filters *)
Lemma filter_iff_in {A} (P Q : A -> Prop) `{!forall x, Decision (P x)} `{!forall x, Decision (Q x)} (l : list A) :
  (forall x, x ∈ l -> P x <-> Q x) -> filter P l = filter Q l.
Proof.
  induction l as [|x l IH]; intros HPQ; [done|]. rewrite !filter_cons.
  rewrite IH by (intros; apply HPQ; by right).
  specialize (HPQ x ltac:(by left)). repeat case_decide; tauto || done.
Qed.

Lemma filter_all {A} (P : A -> Prop) `{!forall x, Decision (P x)} (l : list A) :
  (forall x, x ∈ l -> P x) -> filter P l = l.
Proof.
  induction l as [|x l IH]; intros HP; [done|]. rewrite filter_cons, decide_True by (apply HP; by left).
  by rewrite IH by (intros; apply HP; by right).
Qed.

Lemma filter_none {A} (P : A -> Prop) `{!forall x, Decision (P x)} (l : list A) :
  (forall x, x ∈ l -> ~ P x) -> filter P l = [].
Proof.
  induction l as [|x l IH]; intros HP; [done|]. rewrite filter_cons, decide_False by (apply HP; by left).
  apply IH. intros; apply HP; by right.
Qed.

(** A list that starts with what satisfies [P] and goes on with what does not. *)
Lemma filter_split {A} (P : A -> Prop) `{!forall x, Decision (P x)} (l1 l2 : list A) :
  (forall x, x ∈ l1 -> P x) -> (forall x, x ∈ l2 -> ~ P x) ->
  filter P (l1 ++ l2) = l1 /\ filter (fun x => ~ P x) (l1 ++ l2) = l2.
Proof.
  intros H1 H2. rewrite !list.filter_app, (filter_all P l1), (filter_none P l2) by done.
  rewrite (filter_none (fun x => ~ P x) l1) by auto. rewrite (filter_all (fun x => ~ P x) l2) by done.
  by rewrite app_nil_r.
Qed.

(** ** Appending one element *)
Lemma nodup_snoc {A} (l : list A) x : NoDup l -> x ∉ l -> NoDup (l ++ [x]).
Proof.
  intros Hl Hx. apply list.NoDup_app. split_and!; [done| |apply list.NoDup_singleton].
  intros y Hy Hin%list_elem_of_singleton. by subst.
Qed.

Lemma elem_snoc {A} (l : list A) x y : y ∈ l ++ [x] <-> y ∈ l \/ y = x.
Proof. by rewrite elem_of_app, list_elem_of_singleton. Qed.
