(* ===== verification/Bytes.v ===== *)
(** Bytes, byte order and C strings: the memory images of the fixed-width
    integers, the byte swaps of <arpa/inet.h> and <endian.h>, and
    [std::string] built from a NUL-terminated buffer. *)
From Stdlib Require Import List.
From S2P Require Import Prelude.

Definition is_byte (b : Z) : Prop := 0 <= b < 256.

#[export] Instance is_byte_dec b : Decision (is_byte b).
Proof. unfold is_byte. apply _. Defined.

(** The little-endian memory image of the low [8 * n] bits of [z]. *)
Fixpoint le_bytes (n : nat) (z : Z) : list Z :=
  match n with
  | O => []
  | S n => z mod 256 :: le_bytes n (z / 256)
  end.

Fixpoint le_value (bs : list Z) : Z :=
  match bs with
  | [] => 0
  | b :: bs => b + 256 * le_value bs
  end.

(** [htons], [htonl], [htobe64] and their inverses on a little-endian host. *)
Definition bswap (n : nat) (z : Z) : Z := le_value (rev (le_bytes n z)).

(** [std::string(buf)]: up to the first NUL. *)
Fixpoint cstr (bs : list Z) : list Z :=
  match bs with
  | [] => []
  | b :: bs => if b =? 0 then [] else b :: cstr bs
  end.

Lemma le_bytes_length n z : length (le_bytes n z) = n.
Proof. revert z. induction n; intros; simpl; auto. Qed.

Lemma le_bytes_range n z : Forall is_byte (le_bytes n z).
Proof.
  revert z. induction n; intros; constructor; auto.
  apply Z.mod_pos_bound. lia.
Qed.

Lemma pow256 n : 2 ^ (8 * Z.of_nat (S n)) = 256 * 2 ^ (8 * Z.of_nat n).
Proof. rewrite Nat2Z.inj_succ, Z.mul_succ_r, Z.pow_add_r by lia. lia. Qed.

Lemma le_value_bytes n z : in_u (8 * Z.of_nat n) z -> le_value (le_bytes n z) = z.
Proof.
  revert z. induction n as [|n IH]; intros z [Hz1 Hz2].
  - simpl in *. lia.
  - rewrite pow256 in Hz2. cbn [le_bytes le_value].
    rewrite IH by (split; [apply Z.div_pos | apply Z.div_lt_upper_bound]; lia).
    pose proof (Z.div_mod z 256 ltac:(lia)). lia.
Qed.

Lemma le_value_range bs : Forall is_byte bs -> in_u (8 * zlen bs) (le_value bs).
Proof.
  induction 1 as [|b bs Hb _ [IH1 IH2]]; [split; simpl; lia|].
  unfold in_u. cbn [length le_value]. rewrite pow256. unfold is_byte in Hb. lia.
Qed.

Lemma le_bytes_value bs : Forall is_byte bs -> le_bytes (length bs) (le_value bs) = bs.
Proof.
  induction 1 as [|b bs Hb _ IH]; [done|]. unfold is_byte in Hb. cbn [length le_bytes le_value].
  replace ((b + 256 * le_value bs) mod 256) with b
    by (rewrite Z.mul_comm, Z_mod_plus_full, Z.mod_small; lia).
  replace ((b + 256 * le_value bs) / 256) with (le_value bs)
    by (rewrite Z.mul_comm, Z.div_add, Z.div_small; lia).
  by rewrite IH.
Qed.

Lemma bswap_range n z : in_u (8 * Z.of_nat n) (bswap n z).
Proof.
  unfold bswap. rewrite <- (le_bytes_length n z) at 1. rewrite <- length_rev.
  apply le_value_range. apply Forall_rev, le_bytes_range.
Qed.

Lemma le_bytes_bswap n z : le_bytes n (bswap n z) = rev (le_bytes n z).
Proof.
  unfold bswap. rewrite <- (le_bytes_length n z) at 1. rewrite <- length_rev.
  apply le_bytes_value. apply Forall_rev, le_bytes_range.
Qed.

(** Converting to network order and back is the identity. *)
Lemma bswap_bswap n z : in_u (8 * Z.of_nat n) z -> bswap n (bswap n z) = z.
Proof.
  intros Hz. unfold bswap at 1. rewrite le_bytes_bswap, rev_involutive.
  by apply le_value_bytes.
Qed.

(** A string without NUL survives [c_str()]. *)
Lemma cstr_id bs : 0 ∉ bs -> cstr bs = bs.
Proof.
  induction bs as [|b bs IH]; [done|]. rewrite not_elem_of_cons. intros [H1 H2].
  simpl. destruct (Z.eqb_spec b 0); [congruence|]. by rewrite IH.
Qed.

Lemma cstr_no_nul bs : 0 ∉ cstr bs.
Proof.
  induction bs as [|b bs IH]; simpl; [apply not_elem_of_nil|].
  destruct (Z.eqb_spec b 0); [apply not_elem_of_nil|].
  apply not_elem_of_cons. auto.
Qed.

Lemma cstr_app_nul bs rest : 0 ∉ bs -> cstr (bs ++ 0 :: rest) = bs.
Proof.
  induction bs as [|b bs IH]; [done|]. rewrite not_elem_of_cons. intros [H1 H2].
  simpl. destruct (Z.eqb_spec b 0); [congruence|]. by rewrite IH.
Qed.

#[export] Hint Resolve le_bytes_range le_bytes_length bswap_range : xten.
#[export] Hint Rewrite le_bytes_length @length_rev : xten.
