(* ===== verification/Buffer.v ===== *)
(** The interface between the byte array and the protocols above it.

    [ByteBuffer] has the two operations every codec of bytearray.cpp is built
    from ([Write] and [Read]) and the byte order; [ByteBufferLaws] is what they
    promise in terms of the abstract view: the valid data [0, _size) and the
    position.  ByteArray.v implements the class; the codecs and the messages
    are proved against it. *)
From S2P Require Import Prelude Bytes.

Inductive Endian := XTEN_LITTLE_ENDIAN | XTEN_BIG_ENDIAN.

#[export] Instance Endian_eq_dec : EqDecision Endian.
Proof. solve_decision. Defined.

(** The host is little-endian (the #else branch of bytearray.h). *)
Definition XTEN_BYTE_ORDER : Endian := XTEN_LITTLE_ENDIAN.

(** What the program does not control: the value a byte of uninitialised
    memory happens to hold, and the stack left for variable-length arrays
    (fibers run on a stack of 128 KB by default). *)
Class Machine := { fresh_byte : Z; stack_room : Z }.

(** ** The abstract state *)
Record view := View { vdata : list Z; vpos : Z }.

Definition view_write (bs : list Z) (v : view) : view :=
  View (splice (vdata v) (vpos v) bs) (vpos v + zlen bs).

Definition view_skip (n : Z) (v : view) : view := View (vdata v) (vpos v + n).

(** The unread bytes. *)
Definition vrest (v : view) : list Z := drop (Z.to_nat (vpos v)) (vdata v).

Class ByteBuffer (B : Type) := {
  bwrite : list Z -> M B unit;
  bread : Z -> M B (list Z);
  bendian : B -> Endian;
}.

Class ByteBufferLaws (B : Type) `{ByteBuffer B} := {
  bview : B -> view;
  bok : B -> Prop;
  (** allocated bytes, and the number of bytes the array may still grow by *)
  bcap : B -> Z;
  broom : B -> Z -> Prop;
  bview_bounds b : bok b ->
    0 <= vpos (bview b) <= zlen (vdata (bview b)) /\ zlen (vdata (bview b)) <= bcap b;
  broom_mono b k m : 0 <= m -> broom b (k + m) -> broom b k;
  bwrite_ok b bs : bok b -> broom b (zlen bs) ->
    exists b', bwrite bs b = (Ok tt, b') /\ bok b' /\
      bview b' = view_write bs (bview b) /\ bendian b' = bendian b /\
      (forall k, 0 <= k -> broom b (zlen bs + k) -> broom b' k);
  bread_ok b n : bok b -> 0 <= n <= zlen (vdata (bview b)) - vpos (bview b) ->
    vpos (bview b) < bcap b ->
    exists b', bread n b = (Ok (slice (vdata (bview b)) (vpos (bview b)) n), b') /\
      bok b' /\ bview b' = view_skip n (bview b) /\ bendian b' = bendian b /\
      bcap b' = bcap b;
  bread_short b n : bok b -> zlen (vdata (bview b)) - vpos (bview b) < n ->
    bread n b = (Throw OutOfRange, b);
  (** the quirk of the code: with the position at the very end of the
      allocated nodes there is no current node, and even an empty read
      dereferences it *)
  bread_dead b : bok b -> vpos (bview b) = bcap b -> bread 0 b = (Undef NullDeref, b);
}.

Lemma view_write_end bs v :
  vpos v = zlen (vdata v) -> view_write bs v = View (vdata v ++ bs) (zlen (vdata v ++ bs)).
Proof.
  intros Hv. unfold view_write. rewrite Hv, splice_end. f_equal. rewrite length_app. lia.
Qed.

Lemma view_write_app bs1 bs2 v :
  0 <= vpos v -> vpos v = zlen (vdata v) ->
  view_write bs2 (view_write bs1 v) = view_write (bs1 ++ bs2) v.
Proof.
  intros Hp Hv. rewrite (view_write_end bs1), (view_write_end (bs1 ++ bs2)) by done.
  rewrite view_write_end by done. cbn [vdata]. by rewrite <- app_assoc.
Qed.

(** ** Reading and writing specifications

    [writes m bs]: at the end of the data, [m] appends [bs].
    [reads m bs a]: with [bs] next in the data, [m] consumes it and returns [a].
    [reads_in] asks in addition that the item does not end at the end of the
    allocated nodes, which empty strings need. *)
Section specs.
Context {B : Type} {BB : ByteBuffer B} {BL : ByteBufferLaws B}.

Definition writes_ret {A} (e : Endian) (m : M B A) (a : A) (bs : list Z) : Prop :=
  forall b, bok b -> bendian b = e -> vpos (bview b) = zlen (vdata (bview b)) ->
    broom b (zlen bs) ->
    exists b', m b = (Ok a, b') /\ bok b' /\ bendian b' = e /\
      bview b' = view_write bs (bview b) /\
      (forall k, 0 <= k -> broom b (zlen bs + k) -> broom b' k).

Definition writes (e : Endian) (m : M B unit) (bs : list Z) : Prop := writes_ret e m tt bs.

Definition reads_to {A} (e : Endian) (m : M B A) (b : B) (bs : list Z) (a : A) : Prop :=
  exists b', m b = (Ok a, b') /\ bok b' /\ bendian b' = e /\ bcap b' = bcap b /\
    bview b' = view_skip (zlen bs) (bview b).

Definition reads {A} (e : Endian) (m : M B A) (bs : list Z) (a : A) : Prop :=
  forall b rest, bok b -> bendian b = e -> vrest (bview b) = bs ++ rest ->
    reads_to e m b bs a.

Definition reads_in {A} (e : Endian) (m : M B A) (bs : list Z) (a : A) : Prop :=
  forall b rest, bok b -> bendian b = e -> vrest (bview b) = bs ++ rest ->
    vpos (bview b) + zlen bs < bcap b -> reads_to e m b bs a.

Lemma reads_reads_in {A} e (m : M B A) bs a : reads e m bs a -> reads_in e m bs a.
Proof. intros H b rest ????. by eapply H. Qed.

Lemma vrest_length b bs rest : bok b -> vrest (bview b) = bs ++ rest ->
  vpos (bview b) + zlen bs + zlen rest = zlen (vdata (bview b)).
Proof.
  intros Hb Hr. pose proof (bview_bounds b Hb).
  apply (f_equal length) in Hr. unfold vrest in Hr.
  rewrite length_drop, length_app in Hr. lia.
Qed.

Lemma vrest_skip b bs rest : bok b -> vrest (bview b) = bs ++ rest ->
  vrest (view_skip (zlen bs) (bview b)) = rest.
Proof.
  intros Hb Hr. pose proof (bview_bounds b Hb).
  unfold vrest, view_skip in *. cbn [vpos vdata].
  rewrite Z2Nat.inj_add, Nat2Z.id, <- drop_drop, Hr by lia. apply drop_app_length.
Qed.

Lemma view_skip_skip n1 n2 v : view_skip n2 (view_skip n1 v) = view_skip (n1 + n2) v.
Proof. unfold view_skip. cbn. f_equal. lia. Qed.

Lemma reads_to_ret {A} e b (a : A) :
  bok b -> bendian b = e -> reads_to e (mret a) b [] a.
Proof.
  intros. exists b. split_and!; try done. unfold view_skip.
  destruct (bview b). simpl. by rewrite Z.add_0_r.
Qed.

Lemma reads_ret {A} e (a : A) : reads e (mret a) [] a.
Proof. intros b rest ???. by apply reads_to_ret. Qed.

Lemma reads_to_bind {A A'} e (m : M B A) (f : A -> M B A') b bs1 bs2 rest a a' :
  reads_to e m b bs1 a -> bok b -> vrest (bview b) = bs1 ++ bs2 ++ rest ->
  (forall b', bok b' -> bendian b' = e -> bcap b' = bcap b ->
    vpos (bview b') = vpos (bview b) + zlen bs1 ->
    vrest (bview b') = bs2 ++ rest -> reads_to e (f a) b' bs2 a') ->
  reads_to e (m ≫= f) b (bs1 ++ bs2) a'.
Proof.
  intros (b1 & E1 & Hok & He & Hc & Hv) Hb Hr Hf.
  destruct (Hf b1) as (b2 & E2 & Hok2 & He2 & Hc2 & Hv2); try done.
  { rewrite Hv. done. }
  { rewrite Hv. by apply vrest_skip. }
  exists b2. rewrite (bind_ok _ _ _ _ _ E1). split_and!; try done; [congruence|].
  rewrite Hv2, Hv, view_skip_skip. f_equal. rewrite length_app. lia.
Qed.

Lemma reads_bind {A A'} e (m : M B A) (f : A -> M B A') bs1 bs2 a a' :
  reads e m bs1 a -> reads e (f a) bs2 a' -> reads e (m ≫= f) (bs1 ++ bs2) a'.
Proof.
  intros H1 H2 b rest Hb He Hr. rewrite <- app_assoc in Hr.
  eapply reads_to_bind; eauto.
Qed.

Lemma reads_in_bind {A A'} e (m : M B A) (f : A -> M B A') bs1 bs2 a a' :
  reads_in e m bs1 a -> reads_in e (f a) bs2 a' -> reads_in e (m ≫= f) (bs1 ++ bs2) a'.
Proof.
  intros H1 H2 b rest Hb He Hr Hc. rewrite <- app_assoc in Hr.
  rewrite length_app in Hc.
  eapply reads_to_bind; eauto; [eapply H1; eauto; lia|].
  intros b' ??? Hp ?. eapply H2; eauto; lia.
Qed.

(** An item followed by a non-empty one does not end at the end of the nodes. *)
Lemma reads_in_bind_tail {A A'} e (m : M B A) (f : A -> M B A') bs1 bs2 a a' :
  bs2 <> [] ->
  reads_in e m bs1 a -> reads e (f a) bs2 a' -> reads e (m ≫= f) (bs1 ++ bs2) a'.
Proof.
  intros Hne H1 H2 b rest Hb He Hr. rewrite <- app_assoc in Hr.
  pose proof (vrest_length _ _ _ Hb Hr) as Hl. pose proof (bview_bounds b Hb).
  rewrite length_app in Hl. destruct bs2; [done|]. simpl in Hl.
  eapply reads_to_bind; eauto. eapply H1; eauto; lia.
Qed.

Lemma reads_ext {A} e (m m' : M B A) bs a :
  (forall b, bendian b = e -> m b = m' b) -> reads e m bs a -> reads e m' bs a.
Proof.
  intros Hm H b rest Hb He Hr. destruct (H b rest) as (b' & E & ?); try done.
  exists b'. rewrite <- Hm; done.
Qed.

Lemma writes_ret_nil {A} e (a : A) : writes_ret e (mret a) a [].
Proof.
  intros b Hb He Hv Hr. exists b. split_and!; try done.
  unfold view_write. rewrite Hv, splice_end, app_nil_r. simpl. rewrite Z.add_0_r, <- Hv.
  by destruct (bview b).
Qed.

Lemma writes_nil e : writes e (mret tt) [].
Proof. apply writes_ret_nil. Qed.

Lemma writes_ret_bind {A A'} e (m1 : M B A) (f : A -> M B A') bs1 bs2 a a' :
  writes_ret e m1 a bs1 -> writes_ret e (f a) a' bs2 -> writes_ret e (m1 ≫= f) a' (bs1 ++ bs2).
Proof.
  intros H1 H2 b Hb He Hv Hr. rewrite length_app, Nat2Z.inj_add in Hr.
  destruct (H1 b) as (b1 & E1 & Hok1 & He1 & Hv1 & Hr1); try done.
  { by eapply broom_mono; [|done]; lia. }
  pose proof (bview_bounds b Hb).
  destruct (H2 b1) as (b2 & E2 & Hok2 & He2 & Hv2 & Hr2); try done.
  { rewrite Hv1, view_write_end by done. done. }
  { apply Hr1; [lia|done]. }
  exists b2. rewrite (bind_ok _ _ _ _ _ E1). split_and!; try done.
  - rewrite Hv2, Hv1. apply view_write_app; lia || done.
  - intros k Hk Hrk. rewrite length_app, Nat2Z.inj_add, <- Z.add_assoc in Hrk.
    apply Hr2; [done|]. apply Hr1; [lia|done].
Qed.

Lemma writes_bind e (m1 : M B unit) (m2 : M B unit) bs1 bs2 :
  writes e m1 bs1 -> writes e m2 bs2 -> writes e (m1 ≫= fun _ => m2) (bs1 ++ bs2).
Proof. intros H1 H2. exact (writes_ret_bind e m1 (fun _ => m2) bs1 bs2 tt tt H1 H2). Qed.

Lemma writes_bwrite e bs : writes e (bwrite bs) bs.
Proof.
  intros b Hb He Hv Hr. destruct (bwrite_ok b bs Hb Hr) as (b' & E & ? & ? & ? & ?).
  exists b'. split_and!; try done. congruence.
Qed.

Lemma reads_in_bread e n bs : n = zlen bs -> reads_in e (bread n) bs bs.
Proof.
  intros -> b rest Hb He Hr Hc.
  pose proof (vrest_length _ _ _ Hb Hr). pose proof (bview_bounds b Hb).
  destruct (bread_ok b (zlen bs) Hb) as (b' & E & ? & ? & ? & ?); [lia..|].
  exists b'. split_and!; try done; [|congruence].
  rewrite E. do 2 f_equal. unfold slice. unfold vrest in Hr. rewrite Hr, Nat2Z.id.
  apply take_app_length.
Qed.

Lemma reads_bread e n bs : n = zlen bs -> bs <> [] -> reads e (bread n) bs bs.
Proof.
  intros -> Hne b rest Hb He Hr.
  pose proof (vrest_length _ _ _ Hb Hr). pose proof (bview_bounds b Hb).
  assert (0 < zlen bs) by (destruct bs; [done|simpl; lia]).
  destruct (bread_ok b (zlen bs) Hb) as (b' & E & ? & ? & ? & ?); [lia..|].
  exists b'. split_and!; try done; [|congruence].
  rewrite E. do 2 f_equal. unfold slice. unfold vrest in Hr. rewrite Hr, Nat2Z.id.
  apply take_app_length.
Qed.
End specs.
