(* ===== verification/ByteArray.v ===== *)
(** bytearray.cpp: the byte array as a chain of equally sized nodes.

    The chain hanging off [_root] is the list [_nodes]; a [Node *] is an index
    into it, [nullptr] is [None], and [_cur->next] is the next index if there is
    one.  Dereferencing [nullptr] and leaving a node's memory are [Undef]. *)
From S2P Require Import Prelude Bytes Buffer.

Record ByteArray := mkByteArray {
  _nodeSize : Z;
  _capacity : Z;
  _size : Z;
  _position : Z;
  _endian : Endian;
  _nodes : list (list Z);   (* memory of each node; its length is Node::size *)
  _cur : option nat;
}.

(** Field updates. *)
Definition set_nodes (ns : list (list Z)) (ba : ByteArray) : ByteArray :=
  mkByteArray (_nodeSize ba) (_capacity ba) (_size ba) (_position ba) (_endian ba) ns (_cur ba).
Definition set_cur (c : option nat) (ba : ByteArray) : ByteArray :=
  mkByteArray (_nodeSize ba) (_capacity ba) (_size ba) (_position ba) (_endian ba) (_nodes ba) c.
Definition set_pos (p : Z) (ba : ByteArray) : ByteArray :=
  mkByteArray (_nodeSize ba) (_capacity ba) (_size ba) p (_endian ba) (_nodes ba) (_cur ba).
Definition set_size (s : Z) (ba : ByteArray) : ByteArray :=
  mkByteArray (_nodeSize ba) (_capacity ba) s (_position ba) (_endian ba) (_nodes ba) (_cur ba).
Definition set_capacity (c : Z) (ba : ByteArray) : ByteArray :=
  mkByteArray (_nodeSize ba) c (_size ba) (_position ba) (_endian ba) (_nodes ba) (_cur ba).

(** [node->next] *)
Definition node_next (ba : ByteArray) (i : nat) : option nat :=
  if decide (S i < length (_nodes ba))%nat then Some (S i) else None.

(** [*_cur]: the node the cursor points to. *)
Definition cur_node : M ByteArray (nat * list Z) :=
  ba ← get;
  match _cur ba with
  | None => undef NullDeref
  | Some i => match _nodes ba !! i with
              | Some nd => mret (i, nd)
              | None => undef OutOfBounds
              end
  end.

(** [_cur = _cur->next] *)
Definition advance (i : nat) : M ByteArray unit :=
  modify (fun ba => set_cur (node_next ba i) ba).

Definition add_position (n : Z) : M ByteArray unit :=
  modify (fun ba => set_pos (_position ba + n) ba).

(** [memcpy(node->memory + npos, bs, n)] *)
Definition memcpy_to (i : nat) (npos : Z) (bs : list Z) : M ByteArray unit :=
  ba ← get;
  match _nodes ba !! i with
  | Some nd => if decide (0 <= npos /\ npos + zlen bs <= zlen nd)
               then put (set_nodes (<[i := splice nd npos bs]> (_nodes ba)) ba)
               else undef OutOfBounds
  | None => undef OutOfBounds
  end.

(** [memcpy(buf, node->memory + npos, n)] *)
Definition memcpy_from (nd : list Z) (npos n : Z) : outcome (list Z) :=
  if decide (0 <= npos /\ npos + n <= zlen nd) then Ok (slice nd npos n) else Undef OutOfBounds.

Definition lift {S A} (o : outcome A) : M S A := fun s => (o, s).

(** [pos % _nodeSize] *)
Definition node_offset (ns pos : Z) : outcome Z :=
  if ns =? 0 then Undef DivByZero else Ok (pos mod ns).

Definition IsLittleEndian (ba : ByteArray) : bool :=
  bool_decide (_endian ba = XTEN_LITTLE_ENDIAN).

Definition SetLittleEndian (val : bool) (ba : ByteArray) : ByteArray :=
  mkByteArray (_nodeSize ba) (_capacity ba) (_size ba) (_position ba)
    (if val then XTEN_LITTLE_ENDIAN else XTEN_BIG_ENDIAN) (_nodes ba) (_cur ba).

Definition getFreeCapacity (ba : ByteArray) : Z := u64 (_capacity ba - _position ba).

Definition GetReadSize (ba : ByteArray) : Z := u64 (_size ba - _position ba).

Section operations.
Context {Mach : Machine}.

(** [new Node(sz)] *)
Definition Node_new (sz : Z) : list Z := replicate (Z.to_nat sz) fresh_byte.

Definition ByteArray_new (node_size : Z) : ByteArray :=
  mkByteArray node_size node_size 0 0 XTEN_BIG_ENDIAN [Node_new node_size] (Some 0%nat).

(** The loop that appends [count] nodes at the tail. *)
Fixpoint append_nodes (count : nat) (ba : ByteArray) : ByteArray :=
  match count with
  | O => ba
  | S count => append_nodes count
      (set_capacity (_capacity ba + _nodeSize ba)
         (set_nodes (_nodes ba ++ [Node_new (_nodeSize ba)]) ba))
  end.

(** [ceil((1.0 * size) / _nodeSize)]: exact for sizes below 2^53, the range
    in which the conversion to [double] is. *)
Definition node_count (size ns : Z) : Z := (size + ns - 1) / ns.

Definition addFreeCapacity (size : Z) : M ByteArray unit :=
  ba ← get;
  let old_cap := getFreeCapacity ba in
  if size <=? old_cap then mret tt else
  if _nodeSize ba =? 0 then undef DivByZero else
  let count := node_count (size - old_cap) (_nodeSize ba) in
  let first := if 0 <? count then Some (length (_nodes ba)) else None in
  modify (append_nodes (Z.to_nat count));;
  if old_cap =? 0 then modify (set_cur first) else mret tt.

(** The copy loop of [Write]; [buf] is what is left of the source from
    [cp_pos] on, so its length is [size]. *)
Fixpoint Write_loop (fuel : nat) (buf : list Z) (npos ncap : Z) : M ByteArray unit :=
  match fuel with
  | O => nofuel
  | S fuel =>
    if zlen buf =? 0 then mret tt else
    '(i, _) ← cur_node;
    if zlen buf <=? ncap then
      memcpy_to i npos buf;;
      (if ncap =? zlen buf then advance i else mret tt);;
      add_position (zlen buf)
    else
      memcpy_to i npos (take (Z.to_nat ncap) buf);;
      advance i;;
      add_position ncap;;
      '(_, nd) ← cur_node;
      Write_loop fuel (drop (Z.to_nat ncap) buf) 0 (zlen nd)
  end.

Definition Write (buf : list Z) : M ByteArray unit :=
  if zlen buf =? 0 then mret tt else
  addFreeCapacity (zlen buf);;
  ba ← get;
  npos ← lift (node_offset (_nodeSize ba) (_position ba));
  '(_, nd) ← cur_node;
  Write_loop (S (length (_nodes ba))) buf npos (u64 (zlen nd - npos));;
  modify (fun ba => if _size ba <? _position ba then set_size (_position ba) ba else ba).
End operations.

(** The copy loop of [Read]; [buf] is what has been copied out so far. *)
Fixpoint Read_loop (fuel : nat) (size npos ncap : Z) (buf : list Z) : M ByteArray (list Z) :=
  match fuel with
  | O => nofuel
  | S fuel =>
    if size =? 0 then mret buf else
    '(i, nd) ← cur_node;
    if size <=? ncap then
      bs ← lift (memcpy_from nd npos size);
      (if size =? ncap then advance i else mret tt);;
      add_position size;;
      mret (buf ++ bs)
    else
      bs ← lift (memcpy_from nd npos ncap);
      add_position ncap;;
      advance i;;
      '(_, nd') ← cur_node;
      Read_loop fuel (size - ncap) 0 (zlen nd') (buf ++ bs)
  end.

Definition Read (size : Z) : M ByteArray (list Z) :=
  ba ← get;
  if GetReadSize ba <? size then throw OutOfRange else
  npos ← lift (node_offset (_nodeSize ba) (_position ba));
  '(_, nd) ← cur_node;
  Read_loop (S (length (_nodes ba))) size npos (u64 (zlen nd - npos)) [].

(** [cur = cur->next], [count] times, from a local pointer. *)
Fixpoint walk (ba : ByteArray) (count : nat) (cur : option nat) : outcome (option nat) :=
  match count with
  | O => Ok cur
  | S count => match cur with
               | None => Undef NullDeref
               | Some i => walk ba count (node_next ba i)
               end
  end.

Definition deref (ba : ByteArray) (cur : option nat) : outcome (nat * list Z) :=
  match cur with
  | None => Undef NullDeref
  | Some i => match _nodes ba !! i with Some nd => Ok (i, nd) | None => Undef OutOfBounds end
  end.

Definition obind {A B} (o : outcome A) (f : A -> outcome B) : outcome B :=
  match o with
  | Ok a => f a
  | Throw e => Throw e
  | AssertFail => AssertFail
  | Undef u => Undef u
  | NoFuel => NoFuel
  end.

(** A buffer handed to [readv]/[writev]: a range of one node's memory. *)
Record iovec := mkIovec { iov_node : nat; iov_off : Z; iov_len : Z }.

(** The common shape of the two loops over a local cursor: it collects the
    ranges that [len] bytes from offset [npos] of the cursor's node cover.
    [last_len] is the length given to the last range. *)
Fixpoint chunks (last_len : Z -> Z -> Z) (ba : ByteArray) (fuel : nat)
    (cur : option nat) (npos ncap len : Z) (acc : list iovec) : outcome (list iovec) :=
  match fuel with
  | O => NoFuel
  | S fuel =>
    if len =? 0 then Ok acc else
    obind (deref ba cur) (fun '(i, _) =>
      if len <=? ncap then Ok (acc ++ [mkIovec i npos (last_len len ncap)])
      else
        obind (deref ba (node_next ba i)) (fun '(_, nd') =>
          chunks last_len ba fuel (node_next ba i) 0 (zlen nd') (len - ncap)
            (acc ++ [mkIovec i npos ncap])))
  end.

(** The bytes a list of ranges covers. *)
Definition iov_bytes (ba : ByteArray) (v : iovec) : list Z :=
  match _nodes ba !! iov_node v with Some nd => slice nd (iov_off v) (iov_len v) | None => [] end.
Definition iovs_bytes (ba : ByteArray) (vs : list iovec) : list Z := vs ≫= iov_bytes ba.
(** What [readv]/[writev] take as the total size. *)
Definition iovs_len (vs : list iovec) : Z := foldr (fun v n => iov_len v + n) 0 vs.

(** The cursor at [position], found by walking from [_root]. *)
Definition locate (ba : ByteArray) (position : Z) : outcome (option nat) :=
  if _nodeSize ba =? 0 then Undef DivByZero else
  walk ba (Z.to_nat (s64 (position / _nodeSize ba))) (Some 0%nat).

(** [Read(buf, size, position)]: a copy from a given position that leaves the
    object alone. *)
Fixpoint Read_at_loop (ba : ByteArray) (fuel : nat) (cur : option nat)
    (size npos ncap : Z) (buf : list Z) : outcome (list Z) :=
  match fuel with
  | O => NoFuel
  | S fuel =>
    if size =? 0 then Ok buf else
    obind (deref ba cur) (fun '(i, nd) =>
      if size <=? ncap then
        obind (memcpy_from nd npos size) (fun bs => Ok (buf ++ bs))
      else
        obind (memcpy_from nd npos ncap) (fun bs =>
        obind (deref ba (node_next ba i)) (fun '(_, nd') =>
          Read_at_loop ba fuel (node_next ba i) (size - ncap) 0 (zlen nd') (buf ++ bs))))
  end.

Definition Read_at (ba : ByteArray) (size position : Z) : outcome (list Z) :=
  if u64 (_size ba - position) <? size then Throw OutOfRange else
  obind (locate ba position) (fun cur =>
  obind (node_offset (_nodeSize ba) position) (fun npos =>
  obind (deref ba cur) (fun '(_, nd) =>
    Read_at_loop ba (S (length (_nodes ba))) cur size npos (u64 (zlen nd - npos)) []))).

(** Finding the node of a new position: it stops in the node in which [pos]
    falls, or right after the node it ends. *)
Fixpoint SetPosition_loop (fuel : nat) (pos : Z) : M ByteArray unit :=
  match fuel with
  | O => nofuel
  | S fuel =>
    '(i, nd) ← cur_node;
    if zlen nd <? pos then advance i;; SetPosition_loop fuel (pos - zlen nd)
    else if pos =? zlen nd then advance i else mret tt
  end.

Definition SetPosition (pos : Z) : M ByteArray unit :=
  ba ← get;
  if _capacity ba <? pos then throw OutOfRange else
  modify (set_pos pos);;
  modify (fun ba => if _size ba <? _position ba then set_size (_position ba) ba else ba);;
  modify (set_cur (Some 0%nat));;
  SetPosition_loop (S (length (_nodes ba))) pos.

(** Only the first node is kept. *)
Definition Clear (ba : ByteArray) : ByteArray :=
  mkByteArray (_nodeSize ba) (_nodeSize ba) 0 0 (_endian ba) (take 1 (_nodes ba)) (Some 0%nat).

Definition GetReadBuffers (ba : ByteArray) (len : Z) : outcome (Z * list iovec) :=
  let len := if len <? GetReadSize ba then len else GetReadSize ba in
  if len =? 0 then Ok (0, []) else
  obind (node_offset (_nodeSize ba) (_position ba)) (fun npos =>
  obind (deref ba (_cur ba)) (fun '(_, nd) =>
  obind (chunks (fun len _ => len) ba (S (length (_nodes ba))) (_cur ba) npos
           (u64 (zlen nd - npos)) len []) (fun vs => Ok (len, vs)))).

Definition GetReadBuffers_at (ba : ByteArray) (len pos : Z) : outcome (Z * list iovec) :=
  let can_read := u64 (_size ba - pos) in
  let len := if len <? can_read then len else can_read in
  if len =? 0 then Ok (0, []) else
  obind (locate ba pos) (fun cur =>
  obind (node_offset (_nodeSize ba) pos) (fun npos =>
  obind (deref ba cur) (fun '(_, nd) =>
  obind (chunks (fun len _ => len) ba (S (length (_nodes ba))) cur npos
           (u64 (zlen nd - npos)) len []) (fun vs => Ok (len, vs))))).

(** The last range gets all of its node, [iov_len = ncap], not just the
    [len] bytes that were asked for. *)
Definition GetWriteBuffers {Mach : Machine} (len : Z) : M ByteArray (Z * list iovec) :=
  if len =? 0 then mret (0, []) else
  addFreeCapacity len;;
  ba ← get;
  npos ← lift (node_offset (_nodeSize ba) (_position ba));
  '(_, nd) ← cur_node;
  vs ← lift (chunks (fun _ ncap => ncap) ba (S (length (_nodes ba))) (_cur ba) npos
               (u64 (zlen nd - npos)) len []);
  mret (len, vs).

Definition ToString (ba : ByteArray) : outcome (list Z) :=
  if GetReadSize ba =? 0 then Ok [] else Read_at ba (GetReadSize ba) (_position ba).

(** Two lowercase hex digits and a blank per byte, 32 bytes a line. *)
Definition hex_digit (d : Z) : Z := if d <? 10 then 48 + d else 87 + d.

Fixpoint hex_dump (i : Z) (bs : list Z) : list Z :=
  match bs with
  | [] => []
  | b :: bs =>
    (if (0 <? i) && (i mod 32 =? 0) then [10] else []) ++
    [hex_digit (b / 16); hex_digit (b mod 16); 32] ++ hex_dump (i + 1) bs
  end.

Definition ToHexString (ba : ByteArray) : outcome (list Z) :=
  obind (ToString ba) (fun str => Ok (hex_dump 0 str)).

(** ** The class invariant *)

(** All of the allocated memory, in order. *)
Definition flat (ba : ByteArray) : list Z := concat (_nodes ba).

(** The cursor a position stands for. *)
Definition cur_at (ba : ByteArray) (pos : Z) : option nat :=
  if pos <? _capacity ba then Some (Z.to_nat (pos / _nodeSize ba)) else None.

Record chain (ba : ByteArray) : Prop := {
  chain_nodeSize : 0 < _nodeSize ba;
  chain_nodes : Forall (fun nd => zlen nd = _nodeSize ba) (_nodes ba);
  chain_root : (0 < length (_nodes ba))%nat;
  chain_capacity : _capacity ba = _nodeSize ba * zlen (_nodes ba);
  chain_fits : _capacity ba < 2 ^ 63;
}.

Record wf (ba : ByteArray) : Prop := {
  wf_chain : chain ba;
  wf_position : 0 <= _position ba <= _size ba;
  wf_size : _size ba <= _capacity ba;
  wf_cur : _cur ba = cur_at ba (_position ba);
}.

(** ** Geometry of the chain *)
Section geometry.
Context (ns : Z).
Implicit Types nodes : list (list Z).

Lemma concat_zlen nodes :
  Forall (fun nd => zlen nd = ns) nodes -> zlen (concat nodes) = ns * zlen nodes.
Proof.
  induction 1 as [|nd nodes Hnd _ IH]; [simpl; lia|].
  cbn [concat length]. rewrite length_app. lia.
Qed.

Lemma node_split nodes i nd :
  Forall (fun nd => zlen nd = ns) nodes -> nodes !! i = Some nd ->
  concat nodes = concat (take i nodes) ++ nd ++ concat (drop (S i) nodes) /\
  zlen (concat (take i nodes)) = ns * Z.of_nat i /\ zlen nd = ns.
Proof.
  intros Hall Hi. split_and!.
  - rewrite <- (take_drop_middle nodes i nd) at 1 by done.
    by rewrite concat_app.
  - rewrite concat_zlen by by apply Forall_take.
    apply lookup_lt_Some in Hi. rewrite length_take. lia.
  - by eapply Forall_lookup_1 in Hall.
Qed.

(** A range of a node is a range of the whole memory. *)
Lemma node_slice nodes i nd o n :
  Forall (fun nd => zlen nd = ns) nodes -> nodes !! i = Some nd ->
  0 <= o -> 0 <= n -> o + n <= ns ->
  slice nd o n = slice (concat nodes) (ns * Z.of_nat i + o) n.
Proof.
  intros Hall Hi Ho Hn Hon. destruct (node_split _ _ _ Hall Hi) as (-> & Hl & Hnd).
  rewrite slice_app_r by lia. rewrite slice_app_l by lia. f_equal. lia.
Qed.

(** A write into a node is a write into the whole memory. *)
Lemma node_splice nodes i nd o bs :
  Forall (fun nd => zlen nd = ns) nodes -> nodes !! i = Some nd ->
  0 <= o -> o + zlen bs <= ns ->
  concat (<[i := splice nd o bs]> nodes) = splice (concat nodes) (ns * Z.of_nat i + o) bs.
Proof.
  intros Hall Hi Ho Hon. destruct (node_split _ _ _ Hall Hi) as (-> & Hl & Hnd).
  rewrite splice_app_r by lia. rewrite splice_app_l by lia.
  rewrite insert_take_drop by by eapply lookup_lt_Some.
  rewrite concat_app. cbn [concat]. do 3 f_equal. lia.
Qed.

Lemma Forall_splice nodes i nd o bs :
  Forall (fun nd => zlen nd = ns) nodes -> nodes !! i = Some nd ->
  0 <= o -> o + zlen bs <= ns ->
  Forall (fun nd => zlen nd = ns) (<[i := splice nd o bs]> nodes).
Proof.
  intros Hall Hi Ho Hon. apply Forall_insert; [done|].
  eapply Forall_lookup_1 in Hall; [|done]. simpl in Hall. rewrite splice_length; lia.
Qed.
End geometry.

Section chain_facts.
Context (ba : ByteArray) (Hc : chain ba).

Lemma chain_flat : zlen (flat ba) = _capacity ba.
Proof.
  unfold flat. rewrite (concat_zlen (_nodeSize ba)) by apply Hc.
  by rewrite (chain_capacity _ Hc).
Qed.

Lemma chain_lookup i : (i < length (_nodes ba))%nat ->
  exists nd, _nodes ba !! i = Some nd /\ zlen nd = _nodeSize ba.
Proof.
  intros [nd Hi]%lookup_lt_is_Some. exists nd. split; [done|].
  by eapply Forall_lookup_1 in Hi; [|apply Hc].
Qed.

Lemma cur_at_node i o :
  (i < length (_nodes ba))%nat -> 0 <= o < _nodeSize ba ->
  cur_at ba (_nodeSize ba * Z.of_nat i + o) = Some i.
Proof.
  intros Hi Ho. unfold cur_at. rewrite (chain_capacity _ Hc).
  rewrite (proj2 (Z.ltb_lt _ _)) by nia.
  rewrite Z.mul_comm, Z.div_add_l, Z.div_small by lia. f_equal. lia.
Qed.

Lemma cur_at_next i :
  (i < length (_nodes ba))%nat ->
  cur_at ba (_nodeSize ba * Z.of_nat (S i)) = node_next ba i.
Proof.
  intros Hi. unfold node_next. pose proof (chain_nodeSize _ Hc). case_decide.
  - rewrite <- (Z.add_0_r (_nodeSize ba * _)). apply cur_at_node; lia.
  - unfold cur_at. rewrite (chain_capacity _ Hc).
    rewrite (proj2 (Z.ltb_ge _ _)) by nia. done.
Qed.

(** Every position below the capacity is an offset in some node. *)
Lemma position_split pos : 0 <= pos < _capacity ba ->
  exists i o, pos = _nodeSize ba * Z.of_nat i + o /\ (i < length (_nodes ba))%nat /\
    0 <= o < _nodeSize ba /\ pos mod _nodeSize ba = o /\
    pos / _nodeSize ba = Z.of_nat i /\ cur_at ba pos = Some i.
Proof.
  intros Hp. pose proof (chain_nodeSize _ Hc) as Hns.
  pose proof (Z.mod_pos_bound pos _ Hns). pose proof (Z.div_pos pos _ ltac:(lia) Hns).
  pose proof (Z.div_mod pos (_nodeSize ba) ltac:(lia)) as Hdm.
  rewrite (chain_capacity _ Hc) in Hp.
  exists (Z.to_nat (pos / _nodeSize ba)), (pos mod _nodeSize ba).
  rewrite Z2Nat.id by lia. split_and!; try lia; [nia|].
  rewrite Hdm at 1. rewrite <- (Z2Nat.id (pos / _nodeSize ba)) at 1 by lia.
  apply cur_at_node; [nia|lia].
Qed.
End chain_facts.

Lemma cur_node_ok ba i nd :
  _cur ba = Some i -> _nodes ba !! i = Some nd -> cur_node ba = (Ok (i, nd), ba).
Proof. intros Hcur Hi. unfold cur_node, get, mbind, M_bind. by rewrite Hcur, Hi. Qed.

Lemma cur_node_null ba : _cur ba = None -> cur_node ba = (Undef NullDeref, ba).
Proof. intros Hcur. unfold cur_node, get, mbind, M_bind. by rewrite Hcur. Qed.

Lemma memcpy_to_ok ba i nd npos bs :
  _nodes ba !! i = Some nd -> 0 <= npos -> npos + zlen bs <= zlen nd ->
  memcpy_to i npos bs ba = (Ok tt, set_nodes (<[i := splice nd npos bs]> (_nodes ba)) ba).
Proof.
  intros Hi H1 H2. unfold memcpy_to, get, mbind, M_bind. rewrite Hi.
  by rewrite decide_True.
Qed.

Lemma memcpy_from_ok nd npos n :
  0 <= npos -> npos + n <= zlen nd -> memcpy_from nd npos n = Ok (slice nd npos n).
Proof. intros. unfold memcpy_from. by rewrite decide_True. Qed.

Lemma node_offset_ok ns pos : 0 < ns -> node_offset ns pos = Ok (pos mod ns).
Proof. intros. unfold node_offset. by rewrite (proj2 (Z.eqb_neq _ _)) by lia. Qed.

Lemma u64_id z : 0 <= z < 2 ^ 64 -> u64 z = z.
Proof. apply uwrap_id. Qed.

(** ** Write *)

(** The state after [bs] has been written at [pos]. *)
Record written (ba : ByteArray) (pos : Z) (bs : list Z) (ba' : ByteArray) : Prop := {
  wr_nodeSize : _nodeSize ba' = _nodeSize ba;
  wr_capacity : _capacity ba' = _capacity ba;
  wr_size : _size ba' = _size ba;
  wr_endian : _endian ba' = _endian ba;
  wr_length : length (_nodes ba') = length (_nodes ba);
  wr_nodes : Forall (fun nd => zlen nd = _nodeSize ba) (_nodes ba');
  wr_flat : flat ba' = splice (flat ba) pos bs;
  wr_position : _position ba' = pos + zlen bs;
  wr_cur : _cur ba' = cur_at ba (pos + zlen bs);
}.

Lemma chain_ext ba ba' :
  chain ba -> _nodeSize ba' = _nodeSize ba -> _capacity ba' = _capacity ba ->
  length (_nodes ba') = length (_nodes ba) ->
  Forall (fun nd => zlen nd = _nodeSize ba) (_nodes ba') -> chain ba'.
Proof.
  intros Hc Hn Hcap Hl Hall. split; rewrite ?Hn, ?Hcap, ?Hl; try apply Hc. done.
Qed.

(** The state after the first of two adjacent pieces. *)
Lemma written_trans ba ba1 ba2 pos bs1 bs2 :
  0 <= pos -> pos + zlen bs1 + zlen bs2 <= zlen (flat ba) ->
  written ba pos bs1 ba1 -> written ba1 (pos + zlen bs1) bs2 ba2 ->
  written ba pos (bs1 ++ bs2) ba2.
Proof.
  intros Hp Hl [] []. split; try congruence.
  - by rewrite <- wr_nodeSize0.
  - rewrite wr_flat1, wr_flat0. apply splice_splice. lia.
  - rewrite length_app. lia.
  - rewrite wr_cur1. unfold cur_at. rewrite length_app, wr_capacity0, wr_nodeSize0.
    by replace (pos + zlen bs1 + zlen bs2) with (pos + Z.of_nat (length bs1 + length bs2)) by lia.
Qed.

(** Writing a piece into the node under the cursor. *)
Lemma written_node ba i nd o bs c :
  chain ba -> _nodes ba !! i = Some nd -> 0 <= o -> o + zlen bs <= _nodeSize ba ->
  _position ba = _nodeSize ba * Z.of_nat i + o ->
  c = cur_at ba (_position ba + zlen bs) ->
  written ba (_position ba) bs
    (set_pos (_position ba + zlen bs) (set_cur c
       (set_nodes (<[i := splice nd o bs]> (_nodes ba)) ba))).
Proof.
  intros Hc Hi Ho Hl Hp ->. pose proof (chain_nodes _ Hc) as Hall.
  split; cbn; try done; [apply length_insert|eapply Forall_splice; eauto|].
  unfold flat. cbn. by rewrite (node_splice (_nodeSize ba)), Hp.
Qed.

(** The last piece: what is left fits into the node under the cursor. *)
Lemma Write_loop_fits fuel ba buf i o :
  chain ba -> _cur ba = Some i -> (i < length (_nodes ba))%nat ->
  0 <= o < _nodeSize ba -> _position ba = _nodeSize ba * Z.of_nat i + o ->
  0 < zlen buf <= _nodeSize ba - o ->
  exists ba', Write_loop (S fuel) buf o (_nodeSize ba - o) ba = (Ok tt, ba') /\
    written ba (_position ba) buf ba'.
Proof.
  intros Hc Hcur Hi Ho Hp Hb. destruct (chain_lookup _ Hc i Hi) as (nd & Hnd & Hlen).
  cbn [Write_loop]. rewrite (proj2 (Z.eqb_neq _ _)), (proj2 (Z.leb_le _ _)) by lia.
  step (cur_node_ok ba i nd Hcur Hnd).
  step (memcpy_to_ok ba i nd o buf Hnd ltac:(lia) ltac:(lia)).
  pose (c := if _nodeSize ba - o =? zlen buf then node_next ba i else Some i).
  assert (c = cur_at ba (_position ba + zlen buf)) as Hcc.
  { subst c. destruct (Z.eqb_spec (_nodeSize ba - o) (zlen buf)).
    - rewrite <- cur_at_next by done. f_equal. lia.
    - rewrite Hp, <- Z.add_assoc. symmetry. apply cur_at_node; lia || done. }
  eexists. split; [|by eapply (written_node ba i nd o buf c); eauto; lia].
  subst c. destruct (_nodeSize ba - o =? zlen buf);
    unfold advance, add_position, modify, mbind, M_bind, mret, M_ret; cbn;
    unfold set_nodes, set_cur, set_pos, node_next; cbn; rewrite ?length_insert, <- ?Hcur; done.
Qed.

(** A piece that fills the node under the cursor and moves on to the next. *)
Lemma Write_loop_spills fuel ba buf i o :
  chain ba -> _cur ba = Some i -> (S i < length (_nodes ba))%nat ->
  0 <= o < _nodeSize ba -> _position ba = _nodeSize ba * Z.of_nat i + o ->
  _nodeSize ba - o < zlen buf ->
  exists ba1, written ba (_position ba) (take (Z.to_nat (_nodeSize ba - o)) buf) ba1 /\
    _cur ba1 = Some (S i) /\ _position ba1 = _nodeSize ba1 * Z.of_nat (S i) + 0 /\
    Write_loop (S fuel) buf o (_nodeSize ba - o) ba =
    Write_loop fuel (drop (Z.to_nat (_nodeSize ba - o)) buf) 0 (_nodeSize ba1 - 0) ba1.
Proof.
  intros Hc Hcur Hi Ho Hp Hb.
  destruct (chain_lookup _ Hc i ltac:(lia)) as (nd & Hnd & Hlen).
  pose (bs1 := take (Z.to_nat (_nodeSize ba - o)) buf).
  assert (zlen bs1 = _nodeSize ba - o) as Hbs1 by (subst bs1; rewrite length_take; lia).
  assert (cur_at ba (_position ba + zlen bs1) = Some (S i)) as Hcur1.
  { rewrite Hp, Hbs1. replace (_ + o + _) with (_nodeSize ba * Z.of_nat (S i) + 0) by lia.
    apply cur_at_node; lia || done. }
  pose proof (written_node ba i nd o bs1 _ Hc Hnd ltac:(lia) ltac:(lia) Hp (eq_sym Hcur1)) as W.
  set (ba1 := set_pos _ _) in W. exists ba1.
  assert (chain ba1) as Hc1 by (eapply chain_ext; eauto; apply W).
  destruct (chain_lookup _ Hc1 (S i)) as (nd1 & Hnd1 & Hlen1); [by rewrite (wr_length _ _ _ _ W)|].
  split_and!; [done|done|cbn; lia|].
  cbn [Write_loop]. rewrite (proj2 (Z.eqb_neq _ _)), (proj2 (Z.leb_gt _ _)) by lia.
  step (cur_node_ok ba i nd Hcur Hnd).
  step (memcpy_to_ok ba i nd o bs1 Hnd ltac:(lia) ltac:(lia)).
  assert (advance i (set_nodes (<[i := splice nd o bs1]> (_nodes ba)) ba) =
          (Ok tt, set_cur (Some (S i)) (set_nodes (<[i := splice nd o bs1]> (_nodes ba)) ba))) as E.
  { unfold advance, modify, node_next. cbn. by rewrite length_insert, decide_True. }
  step E. rewrite <- Hbs1. step (eq_refl : add_position (zlen bs1) _ = (Ok tt, ba1)).
  step (cur_node_ok ba1 (S i) nd1 eq_refl Hnd1). by rewrite Hlen1, Z.sub_0_r.
Qed.

Lemma Write_loop_ok fuel : forall ba buf i o,
  chain ba -> _cur ba = Some i -> (i < length (_nodes ba))%nat ->
  0 <= o < _nodeSize ba -> _position ba = _nodeSize ba * Z.of_nat i + o ->
  0 < zlen buf -> _position ba + zlen buf <= _capacity ba ->
  (length (_nodes ba) <= i + fuel)%nat ->
  exists ba', Write_loop fuel buf o (_nodeSize ba - o) ba = (Ok tt, ba') /\
    written ba (_position ba) buf ba'.
Proof.
  induction fuel as [|fuel IH]; intros ba buf i o Hc Hcur Hi Ho Hp Hb Hcap Hf; [lia|].
  pose proof (chain_capacity _ Hc) as Hcc.
  destruct (Z.le_gt_cases (zlen buf) (_nodeSize ba - o)); [by eapply Write_loop_fits|].
  assert (S i < length (_nodes ba))%nat as HSi by nia.
  destruct (Write_loop_spills fuel ba buf i o) as (ba1 & W & Hcur1 & Hp1 & E); [done..|].
  assert (chain ba1) as Hc1 by (eapply chain_ext; eauto; apply W).
  pose proof (wr_nodeSize _ _ _ _ W) as Hns. pose proof (wr_length _ _ _ _ W) as Hlen.
  pose proof (wr_position _ _ _ _ W) as Hpos. rewrite length_take in Hpos.
  destruct (IH ba1 (drop (Z.to_nat (_nodeSize ba - o)) buf) (S i) 0) as (ba2 & E2 & W2);
    rewrite ?length_drop, ?(wr_capacity _ _ _ _ W); try done; try lia.
  exists ba2. rewrite E. split; [done|].
  rewrite <- (take_drop (Z.to_nat (_nodeSize ba - o)) buf).
  eapply written_trans; [nia| |done|].
  - rewrite chain_flat, length_take, length_drop by done. lia.
  - by rewrite (wr_position _ _ _ _ W) in W2.
Qed.

(** ** Growing the chain *)
Section growth.
Context {Mach : Machine}.

(** The array may still take [k] bytes: the sizes stay in the range in which
    [addFreeCapacity]'s computation in [double] is exact. *)
Definition room (ba : ByteArray) (k : Z) : Prop :=
  _position ba + k + _nodeSize ba <= 2 ^ 53.

Record grown (ba : ByteArray) (n : Z) (ba' : ByteArray) : Prop := {
  gr_chain : chain ba';
  gr_nodeSize : _nodeSize ba' = _nodeSize ba;
  gr_size : _size ba' = _size ba;
  gr_position : _position ba' = _position ba;
  gr_endian : _endian ba' = _endian ba;
  gr_capacity : _capacity ba <= _capacity ba';
  gr_enough : _position ba + n <= _capacity ba';
  gr_flat : flat ba' = flat ba ++ replicate (Z.to_nat (_capacity ba' - _capacity ba)) fresh_byte;
  gr_cur : _cur ba' = cur_at ba' (_position ba);
}.

Lemma append_nodes_eq n ba :
  append_nodes n ba =
  set_capacity (_capacity ba + Z.of_nat n * _nodeSize ba)
    (set_nodes (_nodes ba ++ replicate n (Node_new (_nodeSize ba))) ba).
Proof.
  revert ba. induction n as [|n IH]; intros ba; cbn [append_nodes replicate].
  - rewrite app_nil_r, Z.add_0_r. by destruct ba.
  - rewrite IH. unfold set_capacity, set_nodes. cbn.
    rewrite <- app_assoc. f_equal; try done. lia.
Qed.

Lemma concat_replicate_node n ns : 0 <= ns ->
  concat (replicate n (Node_new ns)) = replicate (Z.to_nat (Z.of_nat n * ns)) fresh_byte.
Proof.
  intros Hns. unfold Node_new. induction n as [|n IH]; [done|].
  cbn [replicate concat]. rewrite IH, <- replicate_add. f_equal. lia.
Qed.

Lemma append_nodes_chain n ba :
  chain ba -> _capacity ba + Z.of_nat n * _nodeSize ba < 2 ^ 63 -> chain (append_nodes n ba).
Proof.
  intros Hc Hfit. rewrite append_nodes_eq. pose proof (chain_nodeSize _ Hc).
  split; cbn; [done| | | |done].
  - apply Forall_app. split; [apply Hc|]. apply Forall_replicate.
    unfold Node_new. rewrite length_replicate. lia.
  - rewrite length_app. pose proof (chain_root _ Hc). lia.
  - rewrite length_app, length_replicate, (chain_capacity _ Hc). lia.
Qed.

Lemma node_count_bounds size ns : 0 < ns -> 0 < size ->
  0 < node_count size ns /\ size <= node_count size ns * ns < size + ns.
Proof.
  intros Hns Hs. unfold node_count.
  pose proof (Z.div_mod (size + ns - 1) ns ltac:(lia)).
  pose proof (Z.mod_pos_bound (size + ns - 1) ns Hns). nia.
Qed.

(** Appending [cnt] nodes and, when the chain was full, moving the cursor
    onto the first of them. *)
Lemma append_nodes_grown cnt ba n :
  chain ba -> 0 <= _position ba <= _capacity ba -> _cur ba = cur_at ba (_position ba) ->
  (0 < cnt)%nat -> _capacity ba + Z.of_nat cnt * _nodeSize ba < 2 ^ 63 ->
  _position ba + n <= _capacity ba + Z.of_nat cnt * _nodeSize ba ->
  let ba1 := append_nodes cnt ba in
  grown ba n (if _capacity ba - _position ba =? 0
              then set_cur (Some (length (_nodes ba))) ba1 else ba1).
Proof.
  intros Hc Hp Hcur Hn Hfit Henough ba1. pose proof (chain_nodeSize _ Hc) as Hns.
  assert (chain ba1) as Hc1 by by apply append_nodes_chain.
  pose proof (append_nodes_eq cnt ba) as E1. fold ba1 in E1. clearbody ba1.
  assert (_capacity ba1 = _capacity ba + Z.of_nat cnt * _nodeSize ba) as Hcap1 by by rewrite E1.
  assert (flat ba1 = flat ba ++ replicate (Z.to_nat (_capacity ba1 - _capacity ba)) fresh_byte)
    as Hflat1.
  { unfold flat. rewrite Hcap1, E1. cbn. rewrite concat_app, concat_replicate_node by lia.
    do 2 f_equal. lia. }
  assert (_nodeSize ba1 = _nodeSize ba /\ _size ba1 = _size ba /\
          _position ba1 = _position ba /\ _endian ba1 = _endian ba /\ _cur ba1 = _cur ba)
    as (? & ? & ? & ? & Hcur1) by (rewrite E1; done).
  destruct (Z.eqb_spec (_capacity ba - _position ba) 0) as [Hz|Hz];
    split; cbn [_nodeSize _size _position _endian _capacity _cur set_cur]; try done; try lia.
  - destruct Hc1. by split.
  - change (cur_at (set_cur _ ba1) (_position ba)) with (cur_at ba1 (_position ba)).
    replace (_position ba) with (_nodeSize ba1 * zlen (_nodes ba) + 0)
      by (rewrite (chain_capacity _ Hc) in *; lia).
    symmetry. apply (cur_at_node _ Hc1); [|lia].
    rewrite E1. cbn. rewrite length_app, length_replicate. lia.
  - rewrite Hcur1, Hcur. unfold cur_at. rewrite !(proj2 (Z.ltb_lt _ _)) by lia. congruence.
Qed.

Lemma addFreeCapacity_ok ba n :
  chain ba -> 0 <= _position ba <= _capacity ba -> _cur ba = cur_at ba (_position ba) ->
  0 < n -> room ba n ->
  exists ba', addFreeCapacity n ba = (Ok tt, ba') /\ grown ba n ba'.
Proof.
  intros Hc Hp Hcur Hn Hroom. unfold room in Hroom.
  pose proof (chain_nodeSize _ Hc) as Hns. pose proof (chain_fits _ Hc).
  assert (getFreeCapacity ba = _capacity ba - _position ba) as Hfree by (apply u64_id; lia).
  unfold addFreeCapacity. step (eq_refl : get ba = (Ok ba, ba)). rewrite Hfree.
  destruct (Z.leb_spec n (_capacity ba - _position ba)).
  { exists ba. split; [done|]. split; try done; try lia.
    by rewrite Z.sub_diag, app_nil_r. }
  rewrite (proj2 (Z.eqb_neq _ _)) by lia.
  destruct (node_count_bounds (n - (_capacity ba - _position ba)) (_nodeSize ba)) as [H1 H2];
    [lia..|].
  rewrite (proj2 (Z.ltb_lt _ _)) by lia.
  eexists. split; [|apply (append_nodes_grown (Z.to_nat (node_count
      (n - (_capacity ba - _position ba)) (_nodeSize ba)))); done || lia].
  step (eq_refl : modify (append_nodes (Z.to_nat (node_count
    (n - (_capacity ba - _position ba)) (_nodeSize ba)))) ba = (Ok tt, _)).
  by destruct (_ =? 0).
Qed.
End growth.

(** ** The abstract view *)

(** The valid data: the first [_size] bytes of the chain. *)
Definition data (ba : ByteArray) : list Z := take (Z.to_nat (_size ba)) (flat ba).
Definition ba_view (ba : ByteArray) : view := View (data ba) (_position ba).

Lemma data_zlen ba : wf ba -> zlen (data ba) = _size ba.
Proof.
  intros Hwf. pose proof (chain_flat ba (wf_chain _ Hwf)).
  pose proof (wf_size _ Hwf). pose proof (wf_position _ Hwf).
  unfold data. rewrite length_take. lia.
Qed.

Lemma take_splice_grow (l bs : list Z) p s :
  0 <= p <= s -> s <= zlen l -> p + zlen bs <= zlen l ->
  take (Z.to_nat (Z.max s (p + zlen bs))) (splice l p bs) = splice (take (Z.to_nat s) l) p bs.
Proof.
  intros Hp Hs Hl. unfold splice. rewrite take_take, Nat.min_l by lia.
  rewrite skipn_firstn_comm.
  rewrite take_app_ge by (rewrite length_take; lia).
  rewrite take_app_ge by (rewrite length_take; lia).
  rewrite length_take. do 3 f_equal. lia.
Qed.

(** Setting the position and enlarging [_size] up to it. *)
Definition bump_size (ba : ByteArray) : ByteArray :=
  if _size ba <? _position ba then set_size (_position ba) ba else ba.

Lemma bump_size_eq ba : bump_size ba = set_size (Z.max (_size ba) (_position ba)) ba.
Proof.
  unfold bump_size. destruct (Z.ltb_spec (_size ba) (_position ba)).
  - by rewrite Z.max_r by lia.
  - rewrite Z.max_l by lia. by destruct ba.
Qed.

Section write_spec.
Context {Mach : Machine}.

Lemma Write_run ba buf :
  wf ba -> 0 < zlen buf -> room ba (zlen buf) ->
  exists ba1 ba2, grown ba (zlen buf) ba1 /\ written ba1 (_position ba) buf ba2 /\
    Write buf ba = (Ok tt, bump_size ba2).
Proof.
  intros Hwf Hb Hroom. pose proof (wf_chain _ Hwf) as Hc.
  pose proof (wf_position _ Hwf). pose proof (wf_size _ Hwf).
  destruct (addFreeCapacity_ok ba (zlen buf)) as (ba1 & E1 & G);
    try done; [lia|apply Hwf|].
  exists ba1. pose proof (gr_chain _ _ _ G) as Hc1. pose proof (gr_enough _ _ _ G).
  destruct (position_split ba1 Hc1 (_position ba)) as (i & o & Hp & Hi & Ho & Hmod & _ & Hcur);
    [lia|].
  destruct (chain_lookup _ Hc1 i Hi) as (nd & Hnd & Hlen).
  rewrite <- (gr_cur _ _ _ G) in Hcur.
  destruct (Write_loop_ok (S (length (_nodes ba1))) ba1 buf i o) as (ba2 & E2 & W);
    rewrite ?(gr_position _ _ _ G); try done; [lia|].
  rewrite (gr_position _ _ _ G) in W.
  exists ba2. split_and!; [done|done|].
  unfold Write. rewrite (proj2 (Z.eqb_neq _ _)) by lia.
  step E1. step (eq_refl : get ba1 = (Ok ba1, ba1)).
  rewrite (gr_position _ _ _ G).
  rewrite node_offset_ok by apply Hc1. rewrite Hmod.
  step (eq_refl : lift (Ok o) ba1 = (Ok o, ba1)).
  step (cur_node_ok ba1 i nd Hcur Hnd).
  pose proof (chain_fits _ Hc1). pose proof (chain_capacity _ Hc1).
  rewrite Hlen, u64_id by nia. step E2. done.
Qed.

(** [Write] overwrites from the position on, extending the data when it runs
    past its end. *)
Lemma Write_ok ba buf :
  wf ba -> room ba (zlen buf) ->
  exists ba', Write buf ba = (Ok tt, ba') /\ wf ba' /\
    ba_view ba' = view_write buf (ba_view ba) /\ _endian ba' = _endian ba /\
    _nodeSize ba' = _nodeSize ba.
Proof.
  intros Hwf Hroom. destruct (decide (buf = [])) as [->|Hne].
  { exists ba. split_and!; try done. unfold view_write. cbn.
    rewrite splice_nil by apply Hwf. by rewrite Z.add_0_r. }
  assert (0 < zlen buf) as Hb by (destruct buf; [done|simpl; lia]).
  destruct (Write_run ba buf) as (ba1 & ba2 & G & W & E); try done.
  pose proof (wf_position _ Hwf). pose proof (wf_size _ Hwf).
  pose proof (chain_flat ba (wf_chain _ Hwf)) as Hf.
  pose proof (gr_enough _ _ _ G). pose proof (gr_capacity _ _ _ G).
  assert (chain ba2) as Hc2 by (eapply chain_ext; eauto using gr_chain; apply W).
  rewrite bump_size_eq in E. eexists. split; [done|]. destruct W, G. split_and!.
  - split; [by destruct Hc2| | |]; cbn; rewrite ?wr_position0, ?wr_size0, ?gr_size0; try lia.
    rewrite wr_cur0. unfold cur_at. cbn. by rewrite wr_capacity0, wr_nodeSize0.
  - unfold ba_view, view_write. cbn [vdata vpos _position set_size]. f_equal; [|done].
    unfold data, set_size, flat at 1. cbn. fold (flat ba2).
    rewrite wr_position0, wr_size0, gr_size0, wr_flat0, take_splice_grow, gr_flat0; try lia.
    + f_equal. rewrite take_app_le by lia. done.
    + rewrite (chain_flat ba1) by done. lia.
    + rewrite (chain_flat ba1) by done. lia.
  - cbn. congruence.
  - cbn. congruence.
Qed.
End write_spec.

(** ** Read *)

(** The object with the position moved to [p]. *)
Definition moved (ba : ByteArray) (p : Z) : ByteArray := set_cur (cur_at ba p) (set_pos p ba).

Lemma moved_self ba : _cur ba = cur_at ba (_position ba) -> moved ba (_position ba) = ba.
Proof. intros H. unfold moved. rewrite <- H. by destruct ba. Qed.

Lemma moved_moved ba p q : moved (moved ba p) q = moved ba q.
Proof. done. Qed.

Lemma moved_chain ba p : chain ba -> chain (moved ba p).
Proof. intros []. by split. Qed.

Lemma moved_wf ba p : wf ba -> 0 <= p <= _size ba -> wf (moved ba p).
Proof. intros [] Hp. split; [by apply moved_chain|done|done|done]. Qed.

(** The tail of the two branches of the copy loop, from the node [i] on. *)
Lemma advance_moved ba i o n :
  chain ba -> (i < length (_nodes ba))%nat -> 0 <= o < _nodeSize ba -> 0 < n <= _nodeSize ba - o ->
  _cur ba = Some i -> _position ba = _nodeSize ba * Z.of_nat i + o ->
  ((if n =? _nodeSize ba - o then advance i else mret tt);; add_position n) ba =
  (Ok tt, moved ba (_position ba + n)).
Proof.
  intros Hc Hi Ho Hn Hcur Hp.
  assert ((if n =? _nodeSize ba - o then node_next ba i else Some i) =
          cur_at ba (_position ba + n)) as Hcur1.
  { destruct (Z.eqb_spec n (_nodeSize ba - o)).
    - rewrite <- cur_at_next by done. f_equal. lia.
    - rewrite Hp, <- Z.add_assoc. symmetry. apply cur_at_node; done || lia. }
  unfold moved. rewrite <- Hcur1.
  destruct (n =? _nodeSize ba - o);
    unfold advance, add_position, modify, mbind, M_bind, mret, M_ret; cbn; [done|].
  unfold set_cur, set_pos. cbn. by rewrite <- Hcur.
Qed.

Lemma Read_loop_fits fuel ba size i o buf :
  chain ba -> _cur ba = Some i -> (i < length (_nodes ba))%nat ->
  0 <= o < _nodeSize ba -> _position ba = _nodeSize ba * Z.of_nat i + o ->
  0 < size <= _nodeSize ba - o ->
  Read_loop (S fuel) size o (_nodeSize ba - o) buf ba =
  (Ok (buf ++ slice (flat ba) (_position ba) size), moved ba (_position ba + size)).
Proof.
  intros Hc Hcur Hi Ho Hp Hs. destruct (chain_lookup _ Hc i Hi) as (nd & Hnd & Hlen).
  cbn [Read_loop]. rewrite (proj2 (Z.eqb_neq _ _)), (proj2 (Z.leb_le _ _)) by lia.
  step (cur_node_ok ba i nd Hcur Hnd).
  rewrite memcpy_from_ok by lia. step (eq_refl : lift (Ok (slice nd o size)) ba = (Ok _, ba)).
  rewrite (node_slice (_nodeSize ba) (_nodes ba) i) by (apply Hc || done || lia). rewrite <- Hp.
  transitivity ((((if size =? _nodeSize ba - o then advance i else mret tt);; add_position size);;
    mret (buf ++ slice (concat (_nodes ba)) (_position ba) size)) ba).
  { by destruct (size =? _nodeSize ba - o). }
  by step (advance_moved ba i o size Hc Hi Ho ltac:(lia) Hcur Hp).
Qed.

Lemma Read_loop_spills fuel ba size i o buf :
  chain ba -> _cur ba = Some i -> (S i < length (_nodes ba))%nat ->
  0 <= o < _nodeSize ba -> _position ba = _nodeSize ba * Z.of_nat i + o ->
  _nodeSize ba - o < size ->
  cur_at ba (_position ba + (_nodeSize ba - o)) = Some (S i) /\
  Read_loop (S fuel) size o (_nodeSize ba - o) buf ba =
  Read_loop fuel (size - (_nodeSize ba - o)) 0 (_nodeSize ba - 0)
    (buf ++ slice (flat ba) (_position ba) (_nodeSize ba - o))
    (moved ba (_position ba + (_nodeSize ba - o))).
Proof.
  intros Hc Hcur Hi Ho Hp Hs. destruct (chain_lookup _ Hc i ltac:(lia)) as (nd & Hnd & Hlen).
  destruct (chain_lookup _ Hc (S i) Hi) as (nd1 & Hnd1 & Hlen1).
  pose (ba1 := moved ba (_position ba + (_nodeSize ba - o))). fold ba1.
  assert (cur_at ba (_position ba + (_nodeSize ba - o)) = Some (S i)) as Hcur1.
  { rewrite Hp. replace (_ + o + _) with (_nodeSize ba * Z.of_nat (S i) + 0) by lia.
    apply cur_at_node; done || lia. }
  split; [done|].
  cbn [Read_loop]. rewrite (proj2 (Z.eqb_neq _ _)), (proj2 (Z.leb_gt _ _)) by lia.
  step (cur_node_ok ba i nd Hcur Hnd). rewrite memcpy_from_ok by lia.
  step (eq_refl : lift (Ok (slice nd o (_nodeSize ba - o))) ba = (Ok _, ba)).
  step (eq_refl : add_position (_nodeSize ba - o) ba = (Ok tt, set_pos (_position ba + (_nodeSize ba - o)) ba)).
  assert (advance i (set_pos (_position ba + (_nodeSize ba - o)) ba) = (Ok tt, ba1)) as E1.
  { unfold advance, modify, node_next, ba1, moved. cbn. by rewrite Hcur1, decide_True. }
  step E1. step (cur_node_ok ba1 (S i) nd1 Hcur1 Hnd1). rewrite Hlen1, Z.sub_0_r, Hp.
  by rewrite (node_slice (_nodeSize ba) (_nodes ba) i) by (apply Hc || done || lia).
Qed.

Lemma Read_loop_ok fuel : forall ba size i o buf,
  chain ba -> _cur ba = Some i -> (i < length (_nodes ba))%nat ->
  0 <= o < _nodeSize ba -> _position ba = _nodeSize ba * Z.of_nat i + o ->
  0 <= size -> _position ba + size <= _capacity ba -> (length (_nodes ba) <= i + fuel)%nat ->
  Read_loop fuel size o (_nodeSize ba - o) buf ba =
  (Ok (buf ++ slice (flat ba) (_position ba) size), moved ba (_position ba + size)).
Proof.
  induction fuel as [|fuel IH]; intros ba size i o buf Hc Hcur Hi Ho Hp Hs Hcap Hf; [lia|].
  pose proof (chain_capacity _ Hc) as Hcc.
  destruct (Z.eq_dec size 0) as [->|Hs0].
  { cbn [Read_loop]. rewrite slice_0, app_nil_r, Z.add_0_r, moved_self; [done|].
    rewrite Hcur, Hp. symmetry. by apply cur_at_node. }
  destruct (Z.le_gt_cases size (_nodeSize ba - o)).
  { eapply Read_loop_fits; eauto; lia. }
  assert (S i < length (_nodes ba))%nat as HSi by nia.
  destruct (Read_loop_spills fuel ba size i o buf) as [Hcur1 E]; [done..|].
  rewrite E. change (_nodeSize ba - 0) with (_nodeSize (moved ba (_position ba + (_nodeSize ba - o))) - 0).
  rewrite (IH (moved ba _) _ (S i) 0); try done; try (cbn; lia); [|by apply moved_chain].
  rewrite moved_moved, <- app_assoc. cbn [_position moved set_cur set_pos].
  change (flat (moved _ _)) with (flat ba). rewrite slice_app by nia.
  f_equal; [do 3 f_equal; lia|f_equal; lia].
Qed.

Lemma Read_run ba size :
  wf ba -> 0 <= size <= _size ba - _position ba -> _position ba < _capacity ba ->
  Read size ba = (Ok (slice (flat ba) (_position ba) size), moved ba (_position ba + size)).
Proof.
  intros Hwf Hs Hp. pose proof (wf_chain _ Hwf) as Hc. pose proof (chain_fits _ Hc).
  pose proof (wf_size _ Hwf). pose proof (wf_position _ Hwf).
  destruct (position_split ba Hc (_position ba)) as (i & o & Hpo & Hi & Ho & Hmod & _ & Hcur); [lia|].
  rewrite <- (wf_cur _ Hwf) in Hcur. destruct (chain_lookup _ Hc i Hi) as (nd & Hnd & Hlen).
  unfold Read. step (eq_refl : get ba = (Ok ba, ba)).
  unfold GetReadSize. rewrite u64_id, (proj2 (Z.ltb_ge _ _)) by lia.
  rewrite node_offset_ok, Hmod by apply Hc. step (eq_refl : lift (Ok o) ba = (Ok o, ba)).
  step (cur_node_ok ba i nd Hcur Hnd). pose proof (chain_capacity _ Hc).
  rewrite Hlen, u64_id by nia.
  by apply (Read_loop_ok _ ba size i o []); try done; lia.
Qed.

(** ** SetPosition *)

Lemma SetPosition_loop_ok fuel : forall ba i p,
  chain ba -> _cur ba = Some i -> (i < length (_nodes ba))%nat ->
  0 <= p -> _nodeSize ba * Z.of_nat i + p <= _capacity ba -> (length (_nodes ba) <= i + fuel)%nat ->
  SetPosition_loop fuel p ba = (Ok tt, set_cur (cur_at ba (_nodeSize ba * Z.of_nat i + p)) ba).
Proof.
  induction fuel as [|fuel IH]; intros ba i p Hc Hcur Hi Hp Hcap Hf; [lia|].
  pose proof (chain_capacity _ Hc) as Hcc. pose proof (chain_nodeSize _ Hc).
  destruct (chain_lookup _ Hc i Hi) as (nd & Hnd & Hlen).
  cbn [SetPosition_loop]. step (cur_node_ok ba i nd Hcur Hnd). rewrite Hlen.
  destruct (Z.ltb_spec (_nodeSize ba) p).
  - assert (S i < length (_nodes ba))%nat as HSi by nia.
    step (eq_refl : advance i ba = (Ok tt, set_cur (node_next ba i) ba)).
    unfold node_next. rewrite decide_True by done.
    rewrite (IH (set_cur (Some (S i)) ba) (S i)); try done; try (cbn; lia).
    + replace (_ + (p - _)) with (_nodeSize ba * Z.of_nat i + p) by (cbn; lia). done.
    + destruct Hc. by split.
  - destruct (Z.eqb_spec p (_nodeSize ba)) as [->|Hne].
    + rewrite <- Z.mul_succ_r, <- Nat2Z.inj_succ, cur_at_next; done.
    + rewrite cur_at_node, <- Hcur by (done || lia). by destruct ba.
Qed.

Lemma SetPosition_run ba pos :
  chain ba -> 0 <= pos <= _capacity ba ->
  SetPosition pos ba = (Ok tt, set_size (Z.max (_size ba) pos) (moved ba pos)).
Proof.
  intros Hc Hp. pose proof (chain_root _ Hc).
  unfold SetPosition. step (eq_refl : get ba = (Ok ba, ba)).
  rewrite (proj2 (Z.ltb_ge _ _)) by lia.
  step (eq_refl : modify (set_pos pos) ba = (Ok tt, set_pos pos ba)).
  step (eq_refl : modify bump_size (set_pos pos ba) = (Ok tt, bump_size (set_pos pos ba))).
  rewrite bump_size_eq. cbn [_size _position set_pos].
  set (ba1 := set_cur (Some 0%nat) (set_size (Z.max (_size ba) pos) (set_pos pos ba))).
  step (eq_refl : modify (set_cur (Some 0%nat)) (set_size (Z.max (_size ba) pos) (set_pos pos ba)) = (Ok tt, ba1)).
  rewrite (SetPosition_loop_ok _ ba1 0 pos); try done; try (cbn; lia).
  - f_equal. by rewrite Z.mul_0_r, Z.add_0_l.
  - destruct Hc. by split.
Qed.

Lemma SetPosition_wf ba pos :
  wf ba -> 0 <= pos <= _capacity ba -> wf (set_size (Z.max (_size ba) pos) (moved ba pos)).
Proof.
  intros Hwf Hp. pose proof (wf_size _ Hwf). pose proof (wf_position _ Hwf).
  split; cbn; [|lia|lia|done]. destruct (wf_chain _ Hwf). by split.
Qed.

(** ** Cursor walks *)
Lemma walk_ok n : forall ba i,
  chain ba -> (i < length (_nodes ba))%nat -> (i + n <= length (_nodes ba))%nat ->
  walk ba n (Some i) = Ok (cur_at ba (_nodeSize ba * Z.of_nat (i + n))).
Proof.
  induction n as [|n IH]; intros ba i Hc Hi Hn; cbn [walk].
  - rewrite Nat.add_0_r, <- (Z.add_0_r (_ * _)), cur_at_node; try done.
    pose proof (chain_nodeSize _ Hc). lia.
  - unfold node_next. case_decide.
    + rewrite IH by (done || lia). by rewrite Nat.add_succ_comm.
    + destruct n; [|lia]. cbn [walk]. unfold cur_at. rewrite (chain_capacity _ Hc).
      pose proof (chain_nodeSize _ Hc). rewrite (proj2 (Z.ltb_ge _ _)) by nia. done.
Qed.

Lemma locate_ok ba pos :
  chain ba -> 0 <= pos <= _capacity ba -> locate ba pos = Ok (cur_at ba pos).
Proof.
  intros Hc Hp. pose proof (chain_nodeSize _ Hc). pose proof (chain_fits _ Hc).
  pose proof (chain_root _ Hc). pose proof (chain_capacity _ Hc) as Hcap.
  unfold locate. rewrite (proj2 (Z.eqb_neq _ _)) by lia.
  assert (0 <= pos / _nodeSize ba <= zlen (_nodes ba)) as Hq.
  { split; [apply Z.div_pos; lia|]. apply Z.div_le_upper_bound; lia. }
  assert (pos / _nodeSize ba <= pos) by (apply Z.div_le_upper_bound; nia).
  rewrite swrap_id by (unfold in_s; lia).
  rewrite walk_ok by (done || lia). rewrite Nat.add_0_l, Z2Nat.id by lia. f_equal.
  destruct (Z.eq_dec pos (_capacity ba)) as [->|Hne].
  - rewrite Hcap, (Z.mul_comm (_nodeSize ba) (zlen _)), Z.div_mul by lia.
    by rewrite (Z.mul_comm (zlen _)).
  - destruct (position_split ba Hc pos) as (i & o & Hpo & Hi & Ho & _ & Hdiv & ->); [lia|].
    rewrite Hdiv, <- (Z.add_0_r (_ * _)). apply cur_at_node; done || lia.
Qed.

Lemma deref_ok ba i nd : _nodes ba !! i = Some nd -> deref ba (Some i) = Ok (i, nd).
Proof. intros Hi. cbn. by rewrite Hi. Qed.

(** [Read(buf, size, position)] sees the same bytes as [Read] and, being a
    function of the object only, leaves it alone. *)
Lemma Read_at_loop_ok fuel : forall ba i o size buf,
  chain ba -> (i < length (_nodes ba))%nat -> 0 <= o < _nodeSize ba -> 0 <= size ->
  _nodeSize ba * Z.of_nat i + o + size <= _capacity ba -> (length (_nodes ba) <= i + fuel)%nat ->
  Read_at_loop ba fuel (Some i) size o (_nodeSize ba - o) buf =
  Ok (buf ++ slice (flat ba) (_nodeSize ba * Z.of_nat i + o) size).
Proof.
  induction fuel as [|fuel IH]; intros ba i o size buf Hc Hi Ho Hs Hcap Hf; [lia|].
  pose proof (chain_capacity _ Hc) as Hcc. cbn [Read_at_loop].
  destruct (Z.eqb_spec size 0) as [->|Hs0]; [by rewrite slice_0, app_nil_r|].
  destruct (chain_lookup _ Hc i Hi) as (nd & Hnd & Hlen). rewrite (deref_ok _ _ _ Hnd).
  cbn [obind]. destruct (Z.leb_spec size (_nodeSize ba - o)).
  - rewrite memcpy_from_ok by lia. cbn [obind].
    by rewrite (node_slice (_nodeSize ba) (_nodes ba) i) by (apply Hc || done || lia).
  - assert (S i < length (_nodes ba))%nat as HSi by nia.
    destruct (chain_lookup _ Hc (S i) HSi) as (nd1 & Hnd1 & Hlen1).
    rewrite memcpy_from_ok by lia. cbn [obind]. unfold node_next. rewrite decide_True by done.
    rewrite (deref_ok _ _ _ Hnd1). cbn [obind]. rewrite Hlen1.
    pose proof (IH ba (S i) 0 (size - (_nodeSize ba - o)) (buf ++ slice nd o (_nodeSize ba - o))) as E.
    rewrite Z.sub_0_r in E. rewrite E by (done || lia).
    rewrite (node_slice (_nodeSize ba) (_nodes ba) i), <- app_assoc by (apply Hc || done || lia).
    do 2 f_equal. symmetry. apply slice_split; nia.
Qed.

(** Once past the size check, the copy takes whatever the nodes hold. *)
Lemma Read_at_unchecked ba size position :
  chain ba -> 0 <= size <= u64 (_size ba - position) -> 0 <= position ->
  position + size <= _capacity ba -> position < _capacity ba ->
  Read_at ba size position = Ok (slice (flat ba) position size).
Proof.
  intros Hc Hs Hp Hps Hcap. pose proof (chain_fits _ Hc). pose proof (chain_capacity _ Hc).
  destruct (position_split ba Hc position) as (i & o & Hpo & Hi & Ho & Hmod & _ & Hcur); [lia|].
  destruct (chain_lookup _ Hc i Hi) as (nd & Hnd & Hlen).
  unfold Read_at. rewrite (proj2 (Z.ltb_ge _ _)) by lia.
  rewrite locate_ok, Hcur by (done || lia). cbn [obind].
  rewrite node_offset_ok, Hmod by apply Hc. cbn [obind].
  rewrite (deref_ok _ _ _ Hnd). cbn [obind]. rewrite Hlen, u64_id by nia.
  rewrite Read_at_loop_ok by (done || lia). by rewrite <- Hpo.
Qed.

Lemma Read_at_ok ba size position :
  wf ba -> 0 <= size -> 0 <= position -> position + size <= _size ba -> position < _capacity ba ->
  Read_at ba size position = Ok (slice (flat ba) position size).
Proof.
  intros Hwf Hs Hp Hps Hcap. pose proof (wf_size _ Hwf). pose proof (chain_fits _ (wf_chain _ Hwf)).
  apply Read_at_unchecked; try lia; [apply Hwf|]. rewrite u64_id; lia.
Qed.

(** ** Scatter/gather ranges *)

(** The ranges cover the memory from the cursor on, without gaps; all but the
    last run to the end of their node, and only the last one's length depends
    on the flavour of the loop. *)
Lemma chunks_ok f fuel : forall ba i o len acc,
  chain ba -> (i < length (_nodes ba))%nat -> 0 <= o < _nodeSize ba -> 0 < len ->
  _nodeSize ba * Z.of_nat i + o + len <= _capacity ba -> (length (_nodes ba) <= i + fuel)%nat ->
  exists vs n, chunks f ba fuel (Some i) o (_nodeSize ba - o) len acc = Ok (acc ++ vs) /\
    0 < n <= len /\ exists c, n <= c <= _nodeSize ba /\ iovs_len vs = len - n + f n c /\
    (_nodeSize ba * Z.of_nat i + o + len - n + c) mod _nodeSize ba = 0 /\
    (0 <= f n c <= c ->
       iovs_bytes ba vs = slice (flat ba) (_nodeSize ba * Z.of_nat i + o) (len - n + f n c)).
Proof.
  induction fuel as [|fuel IH]; intros ba i o len acc Hc Hi Ho Hs Hcap Hf; [lia|].
  pose proof (chain_capacity _ Hc) as Hcc. cbn [chunks]. rewrite (proj2 (Z.eqb_neq _ _)) by lia.
  destruct (chain_lookup _ Hc i Hi) as (nd & Hnd & Hlen). rewrite (deref_ok _ _ _ Hnd).
  cbn [obind]. destruct (Z.leb_spec len (_nodeSize ba - o)) as [Hle|Hlt].
  - exists [mkIovec i o (f len (_nodeSize ba - o))], len. split_and!; [done|lia|lia|].
    exists (_nodeSize ba - o). split_and!; [lia|lia|cbn; lia| |].
    + replace (_ + len - len + _) with (Z.of_nat (S i) * _nodeSize ba) by lia.
      apply Z_mod_mult.
    + intros Hfn. unfold iovs_bytes. cbn. unfold iov_bytes. cbn. rewrite Hnd, app_nil_r.
      rewrite (node_slice (_nodeSize ba) (_nodes ba) i) by (apply Hc || done || lia).
      unfold flat. f_equal. lia.
  - assert (S i < length (_nodes ba))%nat as HSi by nia.
    destruct (chain_lookup _ Hc (S i) HSi) as (nd1 & Hnd1 & Hlen1).
    unfold node_next. rewrite decide_True by done. rewrite (deref_ok _ _ _ Hnd1).
    cbn [obind]. rewrite Hlen1.
    destruct (IH ba (S i) 0 (len - (_nodeSize ba - o)) (acc ++ [mkIovec i o (_nodeSize ba - o)]))
      as (vs & n & E & Hn & c & Hcn & Hsum & Hmod & Hbytes); [done|done|lia|lia|lia|lia|].
    rewrite Z.sub_0_r in E. rewrite E.
    exists (mkIovec i o (_nodeSize ba - o) :: vs), n. rewrite <- app_assoc.
    split_and!; [done|lia|lia|]. exists c. split_and!; [lia|lia|unfold iovs_len in *; cbn [foldr iov_len]; lia| |].
    + rewrite <- Hmod. f_equal. lia.
    + intros Hfn. unfold iovs_bytes. cbn [mbind list_bind]. fold (iovs_bytes ba vs).
      rewrite Hbytes by done. unfold iov_bytes. cbn. rewrite Hnd.
      rewrite (node_slice (_nodeSize ba) (_nodes ba) i) by (apply Hc || done || lia).
      symmetry. apply slice_split; nia.
Qed.

(** A fresh array is well formed, empty, and in the chosen byte order. *)
Lemma ByteArray_new_wf {Mach : Machine} ns le :
  0 < ns < 2 ^ 63 -> wf (SetLittleEndian le (ByteArray_new ns)).
Proof.
  intros Hns.
  assert (zlen (Node_new ns) = ns) as Hl by (unfold Node_new; rewrite length_replicate; lia).
  split; cbn; [|lia|lia|].
  - split; cbn; [lia|by repeat constructor|lia|lia|lia].
  - unfold cur_at. cbn. by rewrite (proj2 (Z.ltb_lt _ _)) by lia.
Qed.

(** Well-formedness is decidable, so concrete states are checked by computation. *)
Lemma chain_iff ba :
  chain ba <-> 0 < _nodeSize ba /\ Forall (fun nd => zlen nd = _nodeSize ba) (_nodes ba) /\
    (0 < length (_nodes ba))%nat /\ _capacity ba = _nodeSize ba * zlen (_nodes ba) /\
    _capacity ba < 2 ^ 63.
Proof. split; [by intros []|]. intros (? & ? & ? & ? & ?). by split. Qed.

Lemma wf_iff ba :
  wf ba <-> chain ba /\ 0 <= _position ba <= _size ba /\ _size ba <= _capacity ba /\
    _cur ba = cur_at ba (_position ba).
Proof. split; [by intros []|]. intros (? & ? & ? & ?). by split. Qed.

#[export] Instance chain_dec ba : Decision (chain ba).
Proof.
  refine (cast_if (decide (0 < _nodeSize ba /\
    Forall (fun nd => zlen nd = _nodeSize ba) (_nodes ba) /\ (0 < length (_nodes ba))%nat /\
    _capacity ba = _nodeSize ba * zlen (_nodes ba) /\ _capacity ba < 2 ^ 63)));
    by rewrite chain_iff.
Defined.

#[export] Instance wf_dec ba : Decision (wf ba).
Proof.
  refine (cast_if (decide (chain ba /\ 0 <= _position ba <= _size ba /\
    _size ba <= _capacity ba /\ _cur ba = cur_at ba (_position ba)))); by rewrite wf_iff.
Defined.

(** ** The operations against the view *)

Lemma slice_data ba pos n :
  wf ba -> 0 <= pos -> 0 <= n -> pos + n <= _size ba -> slice (data ba) pos n = slice (flat ba) pos n.
Proof. intros Hwf ???. pose proof (wf_size _ Hwf). apply slice_take; lia. Qed.

(** What is left to read. *)
Definition avail (ba : ByteArray) : Z := zlen (data ba) - _position ba.

Lemma GetReadSize_avail ba : wf ba -> GetReadSize ba = avail ba.
Proof.
  intros Hwf. unfold avail. rewrite data_zlen by done. apply u64_id.
  pose proof (wf_position _ Hwf). pose proof (wf_size _ Hwf). pose proof (chain_fits _ (wf_chain _ Hwf)). lia.
Qed.

Lemma avail_bounds ba : wf ba -> 0 <= avail ba /\ _position ba + avail ba = _size ba.
Proof. intros Hwf. unfold avail. rewrite data_zlen by done. pose proof (wf_position _ Hwf). lia. Qed.

Lemma ba_view_moved ba n : ba_view (moved ba (_position ba + n)) = view_skip n (ba_view ba).
Proof. done. Qed.

Lemma Read_short ba n : wf ba -> avail ba < n -> Read n ba = (Throw OutOfRange, ba).
Proof.
  intros Hwf Hn. unfold Read. step (eq_refl : get ba = (Ok ba, ba)).
  by rewrite GetReadSize_avail, (proj2 (Z.ltb_lt _ _)).
Qed.

Lemma Read_dead ba n :
  wf ba -> 0 <= n <= avail ba -> _position ba = _capacity ba -> Read n ba = (Undef NullDeref, ba).
Proof.
  intros Hwf Hn Hp. unfold Read. step (eq_refl : get ba = (Ok ba, ba)).
  rewrite GetReadSize_avail, (proj2 (Z.ltb_ge _ _)) by (done || lia).
  rewrite node_offset_ok by apply Hwf.
  step (eq_refl : lift (Ok (_position ba mod _nodeSize ba)) ba = (Ok _, ba)).
  rewrite (bind_undef _ _ _ NullDeref ba); [done|]. apply cur_node_null.
  rewrite (wf_cur _ Hwf). unfold cur_at. by rewrite (proj2 (Z.ltb_ge _ _)) by lia.
Qed.

(** ** The interface is implemented *)
Section instances.
Context {Mach : Machine}.

#[export] Instance ByteArray_buffer : ByteBuffer ByteArray := {|
  bwrite := Write; bread := Read; bendian := _endian
|}.

#[export, refine] Instance ByteArray_laws : ByteBufferLaws ByteArray := {|
  bview := ba_view; bok := wf; bcap := _capacity; broom := room
|}.
Proof.
  - intros ba Hwf. cbn. rewrite data_zlen by done.
    pose proof (wf_position _ Hwf). pose proof (wf_size _ Hwf). lia.
  - intros ba k m Hm. unfold room. lia.
  - intros ba bs Hwf Hroom. destruct (Write_ok ba bs Hwf Hroom) as (ba' & E & Hwf' & Hv & He & Hn).
    exists ba'. split_and!; try done. intros k Hk. unfold room. rewrite Hn.
    apply (f_equal vpos) in Hv. cbn in Hv. lia.
  - intros ba n Hwf Hn Hp. cbn in *. rewrite data_zlen in Hn by done.
    eexists. rewrite Read_run, slice_data by (done || lia || (pose proof (wf_position _ Hwf); lia)).
    split_and!; try done. apply moved_wf; [done|]. pose proof (wf_position _ Hwf). lia.
  - intros ba n Hwf Hn. by apply Read_short.
  - intros ba Hwf Hp. cbn in Hp. apply Read_dead; [done| |done].
    pose proof (avail_bounds _ Hwf). lia.
Defined.
End instances.

(** ** What the byte array guarantees *)
Section properties.
Context {Mach : Machine}.

(** The readable ranges. *)
Lemma GetReadBuffers_total ba len :
  wf ba -> 0 <= len ->
  let n := Z.min len (avail ba) in
  exists vs, GetReadBuffers ba len = Ok (n, vs) /\
    iovs_bytes ba vs = slice (data ba) (_position ba) n /\ iovs_len vs = n.
Proof.
  intros Hwf Hlen n. pose proof (avail_bounds _ Hwf). pose proof (wf_position _ Hwf).
  pose proof (wf_size _ Hwf). pose proof (wf_chain _ Hwf) as Hc.
  unfold GetReadBuffers. rewrite GetReadSize_avail by done.
  replace (if len <? avail ba then len else avail ba) with n
    by (subst n; destruct (Z.ltb_spec len (avail ba)); lia).
  destruct (Z.eqb_spec n 0) as [->|Hn]; [by exists []; rewrite slice_0|].
  destruct (position_split ba Hc (_position ba)) as (i & o & Hpo & Hi & Ho & Hmod & _ & Hcur); [lia|].
  destruct (chain_lookup _ Hc i Hi) as (nd & Hnd & Hl). pose proof (chain_capacity _ Hc).
  pose proof (chain_fits _ Hc).
  rewrite node_offset_ok, Hmod by apply Hc. cbn [obind].
  rewrite (wf_cur _ Hwf), Hcur, (deref_ok _ _ _ Hnd). cbn [obind]. rewrite Hl, u64_id by nia.
  destruct (chunks_ok (fun len _ => len) (S (length (_nodes ba))) ba i o n [])
    as (vs & m & E & Hm & c & Hcm & Hsum & _ & Hbytes); try done; try lia.
  exists vs. rewrite E. split_and!; [done| |lia].
  rewrite Hbytes, <- Hpo, slice_data by (done || lia). f_equal. lia.
Qed.

(** A run of [GetWriteBuffers]: the ranges it collects from the node [i] and
    the offset [o] of the position on. *)
Lemma GetWriteBuffers_run ba len :
  wf ba -> 0 < len -> room ba len ->
  exists ba1 vs i o, GetWriteBuffers len ba = (Ok (len, vs), ba1) /\ grown ba len ba1 /\
    _position ba = _nodeSize ba * Z.of_nat i + o /\ (i < length (_nodes ba1))%nat /\
    0 <= o < _nodeSize ba /\
    chunks (fun _ ncap => ncap) ba1 (S (length (_nodes ba1))) (Some i) o (_nodeSize ba - o) len [] = Ok vs /\
    len <= iovs_len vs < len + _nodeSize ba /\
    (_position ba + iovs_len vs) mod _nodeSize ba = 0 /\
    iovs_bytes ba1 vs = slice (flat ba1) (_position ba) (iovs_len vs).
Proof.
  intros Hwf Hlen Hroom. pose proof (wf_position _ Hwf). pose proof (wf_size _ Hwf).
  destruct (addFreeCapacity_ok ba len) as (ba1 & E1 & G); try done; [apply Hwf|lia|apply Hwf|].
  pose proof (gr_chain _ _ _ G) as Hc1. pose proof (gr_enough _ _ _ G).
  destruct (position_split ba1 Hc1 (_position ba)) as (i & o & Hpo & Hi & Ho & Hmod & _ & Hcur); [lia|].
  destruct (chain_lookup _ Hc1 i Hi) as (nd & Hnd & Hl). pose proof (chain_capacity _ Hc1).
  pose proof (chain_fits _ Hc1). rewrite <- (gr_cur _ _ _ G) in Hcur.
  destruct (chunks_ok (fun _ ncap => ncap) (S (length (_nodes ba1))) ba1 i o len [])
    as (vs & m & E & Hm & c & Hcm & Hsum & Hend & Hbytes); try done; try lia.
  exists ba1, vs, i, o. rewrite (gr_nodeSize _ _ _ G) in *. split_and!; try done; try lia.
  - unfold GetWriteBuffers. rewrite (proj2 (Z.eqb_neq _ _)) by lia.
    step E1. step (eq_refl : get ba1 = (Ok ba1, ba1)).
    rewrite (gr_position _ _ _ G), (gr_nodeSize _ _ _ G), node_offset_ok, Hmod by (apply Hwf).
    step (eq_refl : lift (Ok o) ba1 = (Ok o, ba1)). step (cur_node_ok ba1 i nd Hcur Hnd).
    rewrite Hl, u64_id, Hcur, E by nia. done.
  - rewrite <- Hend. f_equal. lia.
  - rewrite Hbytes, <- Hpo by lia. f_equal. lia.
Qed.

(** C1: [Write] is total on a well-formed array with room, keeps it
    well-formed, and is exactly the overwrite-and-extend of the abstract
    buffer: the chain of nodes is invisible. *)
Theorem Write_refines ba buf :
  wf ba -> room ba (zlen buf) ->
  exists ba', Write buf ba = (Ok tt, ba') /\ wf ba' /\
    ba_view ba' = view_write buf (ba_view ba) /\ _endian ba' = _endian ba.
Proof.
  intros Hwf Hroom. destruct (Write_ok ba buf Hwf Hroom) as (ba' & ? & ? & ? & ? & ?).
  by exists ba'.
Qed.

(** C2: every branch of [Read]: too little data throws and changes nothing;
    otherwise the next bytes come back and the position moves past them,
    unless the position is at the very end of the allocated nodes, where
    even an empty read dereferences the null cursor. *)
Theorem Read_behaviour ba n :
  wf ba -> 0 <= n ->
  Read n ba =
    (if avail ba <? n then (Throw OutOfRange, ba)
     else if _position ba <? _capacity ba
     then (Ok (slice (data ba) (_position ba) n), moved ba (_position ba + n))
     else (Undef NullDeref, ba)) /\
  (n <= avail ba -> wf (moved ba (_position ba + n)) /\
     ba_view (moved ba (_position ba + n)) = view_skip n (ba_view ba)).
Proof.
  intros Hwf Hn. pose proof (avail_bounds _ Hwf). pose proof (wf_position _ Hwf).
  pose proof (wf_size _ Hwf). split.
  - destruct (Z.ltb_spec (avail ba) n); [by apply Read_short|].
    destruct (Z.ltb_spec (_position ba) (_capacity ba)).
    + rewrite slice_data by (done || lia). apply Read_run; done || lia.
    + apply Read_dead; done || lia.
  - intros Ha. split; [|done]. apply moved_wf; done || lia.
Qed.

(** [SetPosition] rejects positions past the capacity and otherwise
    moves there, keeping the data and declaring every byte below the new
    position valid. *)
Theorem SetPosition_behaviour ba pos :
  wf ba -> 0 <= pos ->
  (_capacity ba < pos -> SetPosition pos ba = (Throw OutOfRange, ba)) /\
  (pos <= _capacity ba -> exists ba', SetPosition pos ba = (Ok tt, ba') /\ wf ba' /\
     _position ba' = pos /\ _size ba' = Z.max (_size ba) pos /\
     take (length (data ba)) (data ba') = data ba /\ flat ba' = flat ba).
Proof.
  intros Hwf Hp. split.
  - intros Hlt. unfold SetPosition. step (eq_refl : get ba = (Ok ba, ba)).
    by rewrite (proj2 (Z.ltb_lt _ _)) by lia.
  - intros Hle. eexists. split; [by apply SetPosition_run; [apply Hwf|]|].
    split_and!; [by apply SetPosition_wf|done|done| |done].
    pose proof (data_zlen _ Hwf). pose proof (wf_position _ Hwf).
    unfold data at 2. cbn. rewrite take_take, Nat.min_l by lia.
    unfold data at 2. f_equal. lia.
Qed.

(** [ToString] returns exactly the unread bytes, in every well-formed
    state, including at the end of the nodes. *)
Theorem ToString_total ba : wf ba -> ToString ba = Ok (vrest (ba_view ba)).
Proof.
  intros Hwf. pose proof (avail_bounds _ Hwf). pose proof (wf_position _ Hwf).
  pose proof (wf_size _ Hwf). pose proof (data_zlen _ Hwf).
  unfold ToString, vrest. cbn [vdata vpos ba_view]. rewrite GetReadSize_avail by done.
  destruct (Z.eqb_spec (avail ba) 0).
  - rewrite drop_ge by lia. done.
  - rewrite Read_at_ok, <- slice_data by (done || lia). f_equal. unfold slice.
    apply firstn_all2. rewrite length_drop. lia.
Qed.

(** The size check of the positional [Read] underflows when the position
    lies past the data: instead of throwing, it hands out the bytes of the
    nodes that were never written. *)
Theorem Read_at_past_size ba size position :
  wf ba -> _size ba < position < _capacity ba -> 0 <= size -> position + size <= _capacity ba ->
  Read_at ba size position = Ok (slice (flat ba) position size).
Proof.
  intros Hwf Hp Hs Hcap. pose proof (wf_position _ Hwf). pose proof (chain_fits _ (wf_chain _ Hwf)).
  apply Read_at_unchecked; try lia; [apply Hwf|]. split; [done|].
  unfold uwrap. replace (_size ba - position) with (2 ^ 64 + (_size ba - position) + -1 * 2 ^ 64) by lia.
  rewrite Z_mod_plus_full, Z.mod_small; lia.
Qed.

(** The ranges of [GetReadBuffers] hold exactly the next
    [min len (unread)] bytes, in order, and their sizes add up to it. *)
Theorem GetReadBuffers_cover ba len :
  wf ba -> 0 <= len ->
  let n := Z.min len (avail ba) in
  exists vs, GetReadBuffers ba len = Ok (n, vs) /\
    iovs_bytes ba vs = slice (data ba) (_position ba) n /\ iovs_len vs = n.
Proof. intros Hwf Hlen n. by apply GetReadBuffers_total. Qed.

(** [GetWriteBuffers] asks for [len] bytes but its last range always runs
    to the end of its node: the buffers hold exactly [len] bytes only when
    the request happens to end on a node boundary. *)
Theorem GetWriteBuffers_overshoot ba len :
  wf ba -> 0 < len -> room ba len ->
  exists ba' vs, GetWriteBuffers len ba = (Ok (len, vs), ba') /\
    len <= iovs_len vs < len + _nodeSize ba /\
    (_position ba + iovs_len vs) mod _nodeSize ba = 0 /\
    iovs_bytes ba' vs = slice (flat ba') (_position ba) (iovs_len vs).
Proof.
  intros Hwf Hlen Hroom.
  destruct (GetWriteBuffers_run ba len) as (ba1 & vs & i & o & E & _ & _ & _ & _ & _ & ? & ? & ?);
    [done..|]. by exists ba1, vs.
Qed.
End properties.

(** ** The theorems at concrete states *)

Definition demo_machine : Machine := {| fresh_byte := 205; stack_room := 131072 |}.

(** Nodes of four bytes, six bytes written, two of them read again. *)
Definition demo : ByteArray :=
  snd ((Write (Mach:=demo_machine) [1;2;3;4;5;6];; SetPosition 1;; Read 2)
         (ByteArray_new (Mach:=demo_machine) 4)).

Lemma Write_refines_witness :
  exists ba', Write (Mach:=demo_machine) [7;8;9;10;11;12] demo = (Ok tt, ba') /\ wf ba' /\
    ba_view ba' = view_write [7;8;9;10;11;12] (ba_view demo) /\ _endian ba' = _endian demo.
Proof. apply (Write_refines (Mach:=demo_machine) demo); unfold room; by_computation. Defined.

Lemma Read_behaviour_witness :
  Read 3 demo = (Ok [4;5;6], moved demo 6) /\ Read 4 demo = (Throw OutOfRange, demo).
Proof.
  split; [apply (Read_behaviour demo 3)|apply (Read_behaviour demo 4)]; by_computation.
Defined.

Lemma SetPosition_behaviour_witness :
  SetPosition 9 demo = (Throw OutOfRange, demo).
Proof. apply (SetPosition_behaviour demo 9); by_computation. Defined.

Lemma ToString_total_witness : ToString demo = Ok [4;5;6].
Proof. apply (ToString_total demo); by_computation. Defined.

Lemma Read_at_past_size_witness : Read_at demo 1 7 = Ok [205].
Proof. apply (Read_at_past_size demo 1 7); by_computation. Defined.

Lemma GetReadBuffers_cover_witness :
  exists vs, GetReadBuffers demo 10 = Ok (3, vs) /\ iovs_bytes demo vs = [4;5;6] /\ iovs_len vs = 3.
Proof. apply (GetReadBuffers_cover demo 10); by_computation. Defined.

Lemma GetWriteBuffers_overshoot_witness :
  exists ba' vs, GetWriteBuffers (Mach:=demo_machine) 3 demo = (Ok (3, vs), ba') /\
    3 <= iovs_len vs < 3 + 4 /\ (3 + iovs_len vs) mod 4 = 0 /\
    iovs_bytes ba' vs = slice (flat ba') 3 (iovs_len vs).
Proof. apply (GetWriteBuffers_overshoot (Mach:=demo_machine) demo 3); unfold room; by_computation. Defined.
