(* ===== verification/Codec.v ===== *)
(** bytearray.cpp: the integer, varint and string codecs on top of [Write]
    and [Read], over any implementation of the [ByteBuffer] interface. *)
From S2P Require Import Prelude Bytes Buffer.

(** <arpa/inet.h> and <endian.h> on the little-endian host. *)
Definition htons : Z -> Z := bswap 2.
Definition ntohs : Z -> Z := bswap 2.
Definition htonl : Z -> Z := bswap 4.
Definition ntohl : Z -> Z := bswap 4.
Definition htobe64 : Z -> Z := bswap 8.
Definition be64toh : Z -> Z := bswap 8.

(** [EncodeZigzag32(val)].  The arithmetic is that of a two's complement
    machine: [-val] overflows for the smallest value and [val * 2] from 2^30 on,
    which the C++ standard leaves undefined and compilers wrap. *)
Definition EncodeZigzag32 (val : Z) : Z :=
  if val <? 0 then u32 (u32 (s32 (- val)) * 2 - 1) else u32 (s32 (val * 2)).

Definition EncodeZigzag64 (val : Z) : Z :=
  if val <? 0 then u64 (u64 (s64 (- val)) * 2 - 1) else u64 (s64 (val * 2)).

(** [(val >> 1) ^ -(val & 1)], converted to the signed type. *)
Definition DecodeZigzag32 (val : Z) : Z :=
  s32 (Z.lxor (Z.shiftr val 1) (u32 (- Z.land val 1))).

Definition DecodeZigzag64 (val : Z) : Z :=
  s64 (Z.lxor (Z.shiftr val 1) (u64 (- Z.land val 1))).

Section codec.
Context {B : Type} {BB : ByteBuffer B} {Mach : Machine}.

(** [_endian != XTEN_BYTE_ORDER] *)
Definition swaps : M B bool :=
  b ← get; mret (bool_decide (bendian b <> XTEN_BYTE_ORDER)).

(** ** Fixed-length integers: [Write(&val, sizeof(val))] stores the memory
    image of the (possibly byte-swapped) value. *)
Definition WriteFint8 (val : Z) : M B unit := bwrite (le_bytes 1 (u8 val)).
Definition WriteFUint8 (val : Z) : M B unit := bwrite (le_bytes 1 val).

Definition WriteFint16 (val : Z) : M B unit :=
  sw ← swaps;
  let val := if sw : bool then s16 (htons (u16 val)) else val in
  bwrite (le_bytes 2 (u16 val)).

Definition WriteFUint16 (val : Z) : M B unit :=
  sw ← swaps;
  let val := if sw : bool then htons val else val in
  bwrite (le_bytes 2 val).

Definition WriteFint32 (val : Z) : M B unit :=
  sw ← swaps;
  let val := if sw : bool then s32 (htonl (u32 val)) else val in
  bwrite (le_bytes 4 (u32 val)).

Definition WriteFUint32 (val : Z) : M B unit :=
  sw ← swaps;
  let val := if sw : bool then htonl val else val in
  bwrite (le_bytes 4 val).

Definition WriteFint64 (val : Z) : M B unit :=
  sw ← swaps;
  let val := if sw : bool then s64 (htobe64 (u64 val)) else val in
  bwrite (le_bytes 8 (u64 val)).

Definition WriteFUint64 (val : Z) : M B unit :=
  sw ← swaps;
  let val := if sw : bool then htobe64 val else val in
  bwrite (le_bytes 8 val).

Definition ReadFint8 : M B Z := bs ← bread 1; mret (s8 (le_value bs)).
Definition ReadFUint8 : M B Z := bs ← bread 1; mret (le_value bs).

Definition ReadFint16 : M B Z :=
  bs ← bread 2;
  let tmp := s16 (le_value bs) in
  sw ← swaps;
  mret (if sw : bool then s16 (ntohs (u16 tmp)) else tmp).

Definition ReadFUint16 : M B Z :=
  bs ← bread 2;
  sw ← swaps;
  mret (if sw : bool then ntohs (le_value bs) else le_value bs).

Definition ReadFint32 : M B Z :=
  bs ← bread 4;
  let tmp := s32 (le_value bs) in
  sw ← swaps;
  mret (if sw : bool then s32 (ntohl (u32 tmp)) else tmp).

Definition ReadFUint32 : M B Z :=
  bs ← bread 4;
  sw ← swaps;
  mret (if sw : bool then ntohl (le_value bs) else le_value bs).

Definition ReadFint64 : M B Z :=
  bs ← bread 8;
  let tmp := s64 (le_value bs) in
  sw ← swaps;
  mret (if sw : bool then s64 (be64toh (u64 tmp)) else tmp).

Definition ReadFUint64 : M B Z :=
  bs ← bread 8;
  sw ← swaps;
  mret (if sw : bool then be64toh (le_value bs) else le_value bs).

(** [float] and [double] travel as their bit patterns. *)
Definition WriteFloat (bits : Z) : M B unit := WriteFUint32 bits.
Definition WriteDouble (bits : Z) : M B unit := WriteFUint64 bits.
Definition ReadFloat : M B Z := ReadFUint32.
Definition ReadDouble : M B Z := ReadFUint64.

(** ** Varints *)

(** [while (val >= 0x80) { tmp[i++] = (val & 0x7F) | 0x80; val >>= 7; }
    tmp[i++] = val;] with [uint8_t tmp[n]]. *)
Fixpoint varint_fill (fuel : nat) (n : Z) (val : Z) (tmp : list Z) : M B (list Z) :=
  match fuel with
  | O => nofuel
  | S fuel =>
    if zlen tmp <? n then
      if 128 <=? val
      then varint_fill fuel n (Z.shiftr val 7) (tmp ++ [u8 (Z.lor (Z.land val 127) 128)])
      else mret (tmp ++ [u8 val])
    else undef OutOfBounds
  end.

Definition WriteVarUint32 (val : Z) : M B unit :=
  tmp ← varint_fill 6 5 val []; bwrite tmp.

Definition WriteVarUint64 (val : Z) : M B unit :=
  tmp ← varint_fill 11 10 val []; bwrite tmp.

Definition WriteVarint32 (val : Z) : M B unit := WriteVarUint32 (EncodeZigzag32 val).
Definition WriteVarint64 (val : Z) : M B unit := WriteVarUint64 (EncodeZigzag64 val).

(** [((uintW_t)tmp) << i], undefined from the width on. *)
Definition shl_w (w tmp i : Z) : M B Z :=
  if i <? w then mret (uwrap w (Z.shiftl tmp i)) else undef ShiftWidth.

Fixpoint ReadVar_loop (fuel : nat) (w val i : Z) : M B Z :=
  match fuel with
  | O => nofuel
  | S fuel =>
    tmp ← ReadFUint8;
    if tmp <? 128
    then x ← shl_w w tmp i; mret (Z.lor val x)
    else x ← shl_w w (Z.land tmp 127) i; ReadVar_loop fuel w (Z.lor val x) (i + 7)
  end.

Definition ReadVarUint32 : M B Z := ReadVar_loop 6 32 0 0.
Definition ReadVarUint64 : M B Z := ReadVar_loop 11 64 0 0.
Definition ReadVarint32 : M B Z := tmp ← ReadVarUint32; mret (DecodeZigzag32 tmp).
Definition ReadVarint64 : M B Z := tmp ← ReadVarUint64; mret (DecodeZigzag64 tmp).

(** ** Strings: a length and the bytes *)
Definition WriteStringF16 (str : list Z) : M B unit :=
  WriteFUint16 (u16 (zlen str));; bwrite str.
Definition WriteStringF32 (str : list Z) : M B unit :=
  WriteFUint32 (u32 (zlen str));; bwrite str.
(** The length goes out as 32 bits here. *)
Definition WriteStringF64 (str : list Z) : M B unit :=
  WriteFUint32 (u32 (zlen str));; bwrite str.
Definition WriteStringVar64 (str : list Z) : M B unit :=
  WriteVarUint64 (u64 (zlen str));; bwrite str.

(** [char buf[len + 1]; buf[len] = 0; Read(buf, len); return std::string(buf);]
    where [room] is the value of [len + 1] in the type of [len]. *)
Definition read_cstring (len room : Z) : M B (list Z) :=
  if stack_room <? room then undef StackOverflow else
  if room <=? len then undef OutOfBounds else
  buf ← bread len;
  mret (cstr (buf ++ [0])).

Definition ReadStringF16 : M B (list Z) := len ← ReadFUint16; read_cstring len (len + 1).
Definition ReadStringF32 : M B (list Z) := len ← ReadFUint32; read_cstring len (u32 (len + 1)).
Definition ReadStringF64 : M B (list Z) := len ← ReadFUint64; read_cstring len (u64 (len + 1)).
Definition ReadStringVar64 : M B (list Z) := len ← ReadVarUint64; read_cstring len (u64 (len + 1)).
End codec.

(** ** The wire format *)

(** [n] bytes of [z] in the given byte order. *)
Definition wire (n : nat) (e : Endian) (z : Z) : list Z :=
  match e with
  | XTEN_LITTLE_ENDIAN => le_bytes n z
  | XTEN_BIG_ENDIAN => rev (le_bytes n z)
  end.

(** Groups of seven bits, least significant first, the high bit set on all
    but the last. *)
Fixpoint varint (groups : nat) (z : Z) : list Z :=
  match groups with
  | O => [z]
  | S groups => if z <? 128 then [z] else (z mod 128 + 128) :: varint groups (z / 128)
  end.

Lemma wire_length n e z : length (wire n e z) = n.
Proof. destruct e; cbn; autorewrite with xten; done. Qed.

Lemma wire_ne n e z : wire (S n) e z <> [].
Proof. intros H%(f_equal length). by rewrite wire_length in H. Qed.

Lemma wire_bytes n e z : Forall is_byte (wire n e z).
Proof. destruct e; cbn; auto using Forall_rev with xten. Qed.

Lemma le_value_wire_le n z : in_u (8 * Z.of_nat n) z -> le_value (wire n XTEN_LITTLE_ENDIAN z) = z.
Proof. apply le_value_bytes. Qed.

Lemma bswap_wire_be n z : in_u (8 * Z.of_nat n) z -> bswap n (le_value (wire n XTEN_BIG_ENDIAN z)) = z.
Proof. intros Hz. by apply bswap_bswap. Qed.

Lemma wire_be_range n z : in_u (8 * Z.of_nat n) (le_value (wire n XTEN_BIG_ENDIAN z)).
Proof.
  rewrite <- (wire_length n XTEN_BIG_ENDIAN z) at 1. apply le_value_range, wire_bytes.
Qed.

Lemma bswap_s n w z : w = 8 * Z.of_nat n -> 0 < w ->
  le_bytes n (uwrap w (swrap w (bswap n z))) = wire n XTEN_BIG_ENDIAN z.
Proof.
  intros -> Hw. rewrite uwrap_swrap, uwrap_id by auto with xten. apply le_bytes_bswap.
Qed.

(** ** Reading back what was written *)
Section codec_specs.
Context {B : Type} {BB : ByteBuffer B} {BL : ByteBufferLaws B} {Mach : Machine}.

Lemma swaps_run (b : B) : swaps b = (Ok (bool_decide (bendian b <> XTEN_BYTE_ORDER)), b).
Proof. done. Qed.

Lemma writes_swapped e (f : bool -> list Z) bs :
  f (bool_decide (e <> XTEN_BYTE_ORDER)) = bs ->
  writes e (sw ← swaps; bwrite (f sw)) bs.
Proof.
  intros <- b Hb He Hv Hr. rewrite (bind_ok _ _ _ _ _ (swaps_run b)), He.
  by apply writes_bwrite.
Qed.

Lemma reads_swapped {A} e n bs (g : list Z -> bool -> A) a :
  n = zlen bs -> bs <> [] -> g bs (bool_decide (e <> XTEN_BYTE_ORDER)) = a ->
  reads e (bs ← bread n; sw ← swaps; mret (g bs sw)) bs a.
Proof.
  intros Hn Hne <-. rewrite <- (app_nil_r bs) at 1.
  eapply reads_bind; [by apply reads_bread|].
  intros b rest Hb He Hr. eapply reads_to_ret in Hb as (b' & E & H); [|done].
  exists b'. rewrite (bind_ok _ _ _ _ _ (swaps_run b)), He. done.
Qed.

(** [w] writes [a] in the form that [r] reads, whatever surrounds it. *)
Definition roundtrip {A} (e : Endian) (w : M B unit) (r : M B A) (bs : list Z) (a : A) : Prop :=
  writes e w bs /\ reads e r bs a.

Lemma rt_FUint8 e v : in_u 8 v -> roundtrip e (WriteFUint8 v) ReadFUint8 (le_bytes 1 v) v.
Proof.
  intros Hv. split; [apply writes_bwrite|].
  rewrite <- (app_nil_r (le_bytes 1 v)). eapply reads_bind; [by apply reads_bread|].
  rewrite le_value_bytes by done. apply reads_ret.
Qed.

Lemma rt_Fint8 e v : in_s 8 v -> roundtrip e (WriteFint8 v) ReadFint8 (le_bytes 1 (u8 v)) v.
Proof.
  intros Hv. split; [apply writes_bwrite|].
  rewrite <- (app_nil_r (le_bytes 1 (u8 v))). eapply reads_bind; [by apply reads_bread|].
  rewrite le_value_bytes, swrap_uwrap by (done || by apply uwrap_range). apply reads_ret.
Qed.

(** The unsigned and the signed codecs, for each width. *)
Ltac rt_unsigned :=
  intros Hv; split;
  [ eapply writes_swapped; destruct_decide_e
  | apply reads_swapped; [by rewrite wire_length|apply wire_ne|]; destruct_decide_e ]
with destruct_decide_e :=
  match goal with e : Endian |- _ => destruct e end; cbn [bool_decide decide decide_rel];
  first [ done | by apply le_bytes_bswap | by apply bswap_wire_be | by apply le_value_wire_le ].

Lemma rt_FUint16 e v : in_u 16 v -> roundtrip e (WriteFUint16 v) ReadFUint16 (wire 2 e v) v.
Proof. rt_unsigned. Qed.
Lemma rt_FUint32 e v : in_u 32 v -> roundtrip e (WriteFUint32 v) ReadFUint32 (wire 4 e v) v.
Proof. rt_unsigned. Qed.
Lemma rt_FUint64 e v : in_u 64 v -> roundtrip e (WriteFUint64 v) ReadFUint64 (wire 8 e v) v.
Proof. rt_unsigned. Qed.

Lemma signed_read w n e v :
  w = 8 * Z.of_nat n -> 0 < w -> in_s w v ->
  let tmp := swrap w (le_value (wire n e (uwrap w v))) in
  (if bool_decide (e <> XTEN_BYTE_ORDER) then swrap w (bswap n (uwrap w tmp)) else tmp) = v.
Proof.
  intros Hn Hw Hv tmp. subst w. destruct e; subst tmp.
  - change (bool_decide _) with false. cbn match.
    rewrite le_value_wire_le by (apply uwrap_range; lia). by apply swrap_uwrap.
  - change (bool_decide _) with true. cbn match. rewrite uwrap_swrap, (uwrap_id _ (le_value _)) by (done || apply wire_be_range).
    rewrite bswap_wire_be by (apply uwrap_range; lia). by apply swrap_uwrap.
Qed.

Ltac rt_signed n :=
  intros Hv; split;
  [ eapply writes_swapped; match goal with e : Endian |- _ => destruct e end;
    cbn [bool_decide decide decide_rel]; first [ done | by apply (bswap_s n) ]
  | apply reads_swapped; [by rewrite wire_length|apply wire_ne|by apply (signed_read _ n)] ].

Lemma rt_Fint16 e v : in_s 16 v -> roundtrip e (WriteFint16 v) ReadFint16 (wire 2 e (u16 v)) v.
Proof. rt_signed 2%nat. Qed.
Lemma rt_Fint32 e v : in_s 32 v -> roundtrip e (WriteFint32 v) ReadFint32 (wire 4 e (u32 v)) v.
Proof. rt_signed 4%nat. Qed.
Lemma rt_Fint64 e v : in_s 64 v -> roundtrip e (WriteFint64 v) ReadFint64 (wire 8 e (u64 v)) v.
Proof. rt_signed 8%nat. Qed.

(** ** Varints *)

Lemma varint_length k z : (1 <= length (varint k z) <= S k)%nat.
Proof. revert z. induction k as [|k IH]; intros z; cbn; [lia|]. destruct (z <? 128); cbn; [lia|]. specialize (IH (z / 128)). lia. Qed.

Lemma varint_ne k z : varint k z <> [].
Proof. intros H. pose proof (varint_length k z). rewrite H in *. simpl in *. lia. Qed.

Lemma pow128 k : 2 ^ (7 * Z.of_nat (S k)) = 128 * 2 ^ (7 * Z.of_nat k).
Proof. rewrite Nat2Z.inj_succ, Z.mul_succ_r, Z.pow_add_r by lia. lia. Qed.

Lemma varint_fill_ok k : forall fuel n val tmp (b : B),
  0 <= val < 2 ^ (7 * Z.of_nat (S k)) -> zlen tmp + Z.of_nat k < n -> (k < fuel)%nat ->
  varint_fill fuel n val tmp b = (Ok (tmp ++ varint k val), b).
Proof.
  induction k as [|k IH]; intros [|fuel] n val tmp b Hv Hn Hf; try lia; rewrite pow128 in Hv;
    cbn [varint_fill varint]; rewrite (proj2 (Z.ltb_lt _ n)) by lia.
  - simpl Z.pow in Hv. rewrite (proj2 (Z.leb_gt _ _)), uwrap_id by (unfold in_u; lia). done.
  - destruct (Z.leb_spec 128 val) as [Hge|Hlt].
    + rewrite (proj2 (Z.ltb_ge _ _)) by lia.
      change 127 with (Z.ones 7). rewrite Z.land_ones by lia. change (2 ^ 7) with 128.
      pose proof (Z.mod_pos_bound val 128 ltac:(lia)).
      change 128 with (2 ^ 7) at 2. rewrite lor_pow2_add by lia. change (2 ^ 7) with 128.
      rewrite uwrap_id by (unfold in_u; lia).
      rewrite Z.shiftr_div_pow2 by lia. change (2 ^ 7) with 128.
      rewrite IH, <- app_assoc; [done| |rewrite length_app; cbn; lia|lia].
      split; [apply Z.div_pos; lia|apply Z.div_lt_upper_bound; lia].
    + rewrite (proj2 (Z.ltb_lt _ _)), uwrap_id by (unfold in_u; lia). done.
Qed.

Lemma writes_varint e n fuel k v :
  0 <= v < 2 ^ (7 * Z.of_nat (S k)) -> Z.of_nat k < n -> (k < fuel)%nat ->
  writes e (tmp ← varint_fill fuel n v []; bwrite tmp) (varint k v).
Proof.
  intros Hv Hn Hf b Hb He Hvp Hr.
  rewrite (bind_ok _ _ _ _ _ (varint_fill_ok k fuel n v [] b Hv ltac:(cbn; lia) Hf)).
  by apply writes_bwrite.
Qed.

Lemma reads_byte e v : is_byte v -> reads e ReadFUint8 [v] v.
Proof.
  intros Hv. destruct (rt_FUint8 e v Hv) as [_ H].
  by rewrite (eq_refl : le_bytes 1 v = [v mod 256]), Z.mod_small in H.
Qed.

(** One group: [val |= (tmp << i)] with nothing shifted out. *)
Lemma shl_or acc g i w (b : B) :
  0 <= i < w -> 0 <= acc < 2 ^ i -> 0 <= g -> g * 2 ^ i < 2 ^ w ->
  shl_w w g i b = (Ok (Z.shiftl g i), b) /\ Z.lor acc (Z.shiftl g i) = acc + g * 2 ^ i.
Proof.
  intros Hi Hacc Hg Hw. split; [|apply lor_shiftl_add; lia].
  unfold shl_w. rewrite (proj2 (Z.ltb_lt _ _)), uwrap_id; [done| |lia].
  rewrite Z.shiftl_mul_pow2 by lia. unfold in_u. nia.
Qed.

Lemma reads_last_group fuel e w acc val i :
  0 <= i < w -> 0 <= acc < 2 ^ i -> 0 <= val < 128 -> val * 2 ^ i < 2 ^ w ->
  reads e (ReadVar_loop (S fuel) w acc i) [val] (acc + val * 2 ^ i).
Proof.
  intros Hi Hacc Hv Hvw. cbn [ReadVar_loop]. rewrite <- (app_nil_r [val]). eapply reads_bind.
  { apply reads_byte. unfold is_byte. lia. }
  rewrite (proj2 (Z.ltb_lt _ _)) by lia.
  intros b rest Hb He Hr. destruct (shl_or acc val i w b) as [E1 <-]; try lia.
  exists b. rewrite (bind_ok _ _ _ _ _ E1).
  destruct (reads_to_ret e b tt Hb He) as (b' & [= <-] & H). done.
Qed.

Lemma reads_more_group fuel e w acc g i bs v :
  0 <= i < w -> 0 <= acc < 2 ^ i -> 0 <= g < 128 -> g * 2 ^ i < 2 ^ w ->
  reads e (ReadVar_loop fuel w (acc + g * 2 ^ i) (i + 7)) bs v ->
  reads e (ReadVar_loop (S fuel) w acc i) ((g + 128) :: bs) v.
Proof.
  intros Hi Hacc Hg Hgw Hloop. cbn [ReadVar_loop].
  change (g + 128 :: bs) with ([g + 128] ++ bs). eapply reads_bind.
  { apply reads_byte. unfold is_byte. lia. }
  rewrite (proj2 (Z.ltb_ge _ _)) by lia.
  replace (Z.land (g + 128) 127) with g.
  - intros b rest Hb He Hr. destruct (shl_or acc g i w b) as [E1 E2]; try lia.
    unfold reads_to. rewrite (bind_ok _ _ _ _ _ E1), E2. by eapply Hloop.
  - change 127 with (Z.ones 7). rewrite Z.land_ones by lia. change (2 ^ 7) with 128.
    replace (g + 128) with (g + 1 * 128) by lia. rewrite Z_mod_plus_full, Z.mod_small; lia.
Qed.

Lemma reads_var_loop k : forall fuel e w acc val i,
  0 <= i -> i + 7 * Z.of_nat k < w -> 0 <= acc < 2 ^ i ->
  0 <= val < 2 ^ (7 * Z.of_nat (S k)) -> val * 2 ^ i < 2 ^ w -> (k < fuel)%nat ->
  reads e (ReadVar_loop fuel w acc i) (varint k val) (acc + val * 2 ^ i).
Proof.
  induction k as [|k IH]; intros [|fuel] e w acc val i Hi Hw Hacc Hv Hvw Hf; try lia;
    rewrite pow128 in Hv; cbn [varint].
  { simpl Z.pow in Hv. apply reads_last_group; lia. }
  destruct (Z.ltb_spec val 128); [apply reads_last_group; lia|].
  pose proof (Z.mod_pos_bound val 128 ltac:(lia)).
  pose proof (Z.div_mod val 128 ltac:(lia)) as Hdm.
  assert (0 <= val / 128) by (apply Z.div_pos; lia). assert (0 < 2 ^ i) by (apply pow2_pos; lia).
  assert (2 ^ (i + 7) = 128 * 2 ^ i) as H7 by (rewrite Z.pow_add_r by lia; lia).
  replace (acc + val * 2 ^ i) with ((acc + val mod 128 * 2 ^ i) + val / 128 * 2 ^ (i + 7)) by nia.
  apply reads_more_group; [lia|done|done|nia|].
  apply IH; [lia|lia|nia| |nia|lia].
  split; [done|]. apply Z.div_lt_upper_bound; lia.
Qed.

Lemma rt_VarUint32 e v : in_u 32 v -> roundtrip e (WriteVarUint32 v) ReadVarUint32 (varint 4 v) v.
Proof.
  unfold in_u. intros Hv. split; [apply writes_varint; lia|].
  pose proof (reads_var_loop 4 6 e 32 0 v 0) as H.
  rewrite Z.mul_1_r, Z.add_0_l in H. apply H; lia.
Qed.

Lemma rt_VarUint64 e v : in_u 64 v -> roundtrip e (WriteVarUint64 v) ReadVarUint64 (varint 9 v) v.
Proof.
  unfold in_u. intros Hv. split; [apply writes_varint; lia|].
  pose proof (reads_var_loop 9 11 e 64 0 v 0) as H.
  rewrite Z.mul_1_r, Z.add_0_l in H. apply H; lia.
Qed.
End codec_specs.

(** ** Zigzag *)

Section zigzag.
Context (w : Z) (Hw : 1 < w).

Lemma encode_zigzag v : in_s w v ->
  (if v <? 0 then uwrap w (uwrap w (swrap w (- v)) * 2 - 1) else uwrap w (swrap w (v * 2))) =
  if v <? 0 then - 2 * v - 1 else 2 * v.
Proof.
  intros Hv. unfold in_s in Hv. pose proof (pow2_double w ltac:(lia)) as Hd.
  destruct (Z.ltb_spec v 0).
  - replace (uwrap w (swrap w (- v))) with (- v).
    { rewrite uwrap_id; unfold in_u; lia. }
    rewrite uwrap_swrap by lia. symmetry. apply uwrap_id. unfold in_u. lia.
  - rewrite uwrap_swrap by lia. rewrite uwrap_id; unfold in_u; lia.
Qed.

Lemma decode_zigzag v : in_s w v ->
  let z := if v <? 0 then - 2 * v - 1 else 2 * v in
  swrap w (Z.lxor (Z.shiftr z 1) (uwrap w (- Z.land z 1))) = v.
Proof.
  intros Hv z. unfold in_s in Hv. pose proof (pow2_double w ltac:(lia)) as Hd.
  pose proof (pow2_pos (w - 1) ltac:(lia)).
  change (Z.land z 1) with (Z.land z (Z.ones 1)).
  rewrite Z.shiftr_div_pow2, Z.land_ones by lia. change (2 ^ 1) with 2. subst z.
  destruct (Z.ltb_spec v 0).
  - replace ((-2 * v - 1) / 2) with (- v - 1) by zlia.
    replace ((-2 * v - 1) mod 2) with 1 by zlia.
    replace (uwrap w (- (1))) with (2 ^ w - 1).
    { rewrite lxor_ones by lia. unfold swrap.
      replace (2 ^ w - 1 - (- v - 1) + 2 ^ (w - 1)) with (v + 2 ^ (w - 1) + 1 * 2 ^ w) by lia.
      rewrite Z_mod_plus_full, Z.mod_small by lia. lia. }
    unfold uwrap. replace (- (1)) with (2 ^ w - 1 + -1 * 2 ^ w) by lia.
    rewrite Z_mod_plus_full, Z.mod_small; lia.
  - replace (2 * v / 2) with v by zlia. replace ((2 * v) mod 2) with 0 by zlia.
    change (- 0) with 0. rewrite uwrap_id by (unfold in_u; lia).
    rewrite Z.lxor_0_r. apply swrap_id; unfold in_s; lia.
Qed.
End zigzag.

Lemma EncodeZigzag32_eq v : in_s 32 v -> EncodeZigzag32 v = if v <? 0 then - 2 * v - 1 else 2 * v.
Proof. apply (encode_zigzag 32). lia. Qed.

Lemma EncodeZigzag64_eq v : in_s 64 v -> EncodeZigzag64 v = if v <? 0 then - 2 * v - 1 else 2 * v.
Proof. apply (encode_zigzag 64). lia. Qed.

Lemma EncodeZigzag32_range v : in_s 32 v -> in_u 32 (EncodeZigzag32 v).
Proof. intros Hv. rewrite EncodeZigzag32_eq by done. unfold in_s, in_u in *. destruct (Z.ltb_spec v 0); lia. Qed.

Lemma EncodeZigzag64_range v : in_s 64 v -> in_u 64 (EncodeZigzag64 v).
Proof. intros Hv. rewrite EncodeZigzag64_eq by done. unfold in_s, in_u in *. destruct (Z.ltb_spec v 0); lia. Qed.

Lemma cstr_nul_end bs : cstr (bs ++ [0]) = cstr bs.
Proof. induction bs as [|b bs IH]; [done|]. simpl. rewrite IH. by destruct (b =? 0). Qed.

Section strings.
Context {B : Type} {BB : ByteBuffer B} {BL : ByteBufferLaws B} {Mach : Machine}.

Lemma rt_Varint32 e v : in_s 32 v ->
  roundtrip e (WriteVarint32 v) ReadVarint32 (varint 4 (EncodeZigzag32 v)) v.
Proof.
  intros Hv. destruct (rt_VarUint32 e _ (EncodeZigzag32_range v Hv)) as [Hw Hr].
  split; [done|]. rewrite <- (app_nil_r (varint _ _)). eapply reads_bind; [done|].
  rewrite EncodeZigzag32_eq by done. unfold DecodeZigzag32.
  rewrite (decode_zigzag 32 ltac:(lia) v Hv). apply reads_ret.
Qed.

Lemma rt_Varint64 e v : in_s 64 v ->
  roundtrip e (WriteVarint64 v) ReadVarint64 (varint 9 (EncodeZigzag64 v)) v.
Proof.
  intros Hv. destruct (rt_VarUint64 e _ (EncodeZigzag64_range v Hv)) as [Hw Hr].
  split; [done|]. rewrite <- (app_nil_r (varint _ _)). eapply reads_bind; [done|].
  rewrite EncodeZigzag64_eq by done. unfold DecodeZigzag64.
  rewrite (decode_zigzag 64 ltac:(lia) v Hv). apply reads_ret.
Qed.

(** The body of a string: empty ones need a live cursor. *)
Lemma read_cstring_in e s len room :
  len = zlen s -> len < room <= stack_room -> reads_in e (read_cstring len room) s (cstr s).
Proof.
  intros -> Hroom. unfold read_cstring.
  rewrite (proj2 (Z.ltb_ge _ _)), (proj2 (Z.leb_gt _ _)) by lia.
  rewrite <- (app_nil_r s) at 2. eapply reads_in_bind; [by apply reads_in_bread|].
  rewrite cstr_nul_end. apply reads_reads_in, reads_ret.
Qed.

Lemma read_cstring_ne e s len room :
  s <> [] -> len = zlen s -> len < room <= stack_room -> reads e (read_cstring len room) s (cstr s).
Proof.
  intros Hne -> Hroom. unfold read_cstring.
  rewrite (proj2 (Z.ltb_ge _ _)), (proj2 (Z.leb_gt _ _)) by lia.
  rewrite <- (app_nil_r s) at 2. eapply reads_bind; [by apply reads_bread|].
  rewrite cstr_nul_end. apply reads_ret.
Qed.

Lemma reads_string {e lenw} {rd : M B Z} room s :
  reads e rd lenw (zlen s) -> zlen s < room (zlen s) <= stack_room ->
  reads_in e (len ← rd; read_cstring len (room len)) (lenw ++ s) (cstr s).
Proof.
  intros Hrd Hroom. eapply reads_in_bind; [by apply reads_reads_in|].
  by apply read_cstring_in.
Qed.

Lemma reads_string_ne {e lenw} {rd : M B Z} room s :
  s <> [] -> reads e rd lenw (zlen s) -> zlen s < room (zlen s) <= stack_room ->
  reads e (len ← rd; read_cstring len (room len)) (lenw ++ s) (cstr s).
Proof.
  intros Hne Hrd Hroom. eapply reads_bind; [done|]. by apply read_cstring_ne.
Qed.

Lemma u_len w (s : list Z) : zlen s < 2 ^ w -> uwrap w (zlen s) = zlen s.
Proof. intros. apply uwrap_id. unfold in_u. lia. Qed.

Lemma writes_StringF16 e s : zlen s < 2 ^ 16 -> writes e (WriteStringF16 s) (wire 2 e (zlen s) ++ s).
Proof.
  intros Hs. unfold WriteStringF16. rewrite u_len by done.
  apply writes_bind; [|apply writes_bwrite]. apply rt_FUint16. unfold in_u. lia.
Qed.

Lemma writes_StringF32 e s : zlen s < 2 ^ 32 -> writes e (WriteStringF32 s) (wire 4 e (zlen s) ++ s).
Proof.
  intros Hs. unfold WriteStringF32. rewrite u_len by done.
  apply writes_bind; [|apply writes_bwrite]. apply rt_FUint32. unfold in_u. lia.
Qed.

Lemma writes_StringVar64 e s : zlen s < 2 ^ 64 -> writes e (WriteStringVar64 s) (varint 9 (zlen s) ++ s).
Proof.
  intros Hs. unfold WriteStringVar64. rewrite u_len by done.
  apply writes_bind; [|apply writes_bwrite]. apply rt_VarUint64. unfold in_u. lia.
Qed.

Lemma room_u32 (s : list Z) : zlen s < 2 ^ 32 - 1 -> u32 (zlen s + 1) = zlen s + 1.
Proof. intros. apply uwrap_id. unfold in_u. lia. Qed.
Lemma room_u64 (s : list Z) : zlen s < 2 ^ 64 - 1 -> u64 (zlen s + 1) = zlen s + 1.
Proof. intros. apply uwrap_id. unfold in_u. lia. Qed.

Lemma reads_StringF16 e s : zlen s < 2 ^ 16 -> zlen s < stack_room ->
  reads_in e ReadStringF16 (wire 2 e (zlen s) ++ s) (cstr s).
Proof.
  intros Hs Hroom. apply (reads_string (fun len => len + 1)); [|lia].
  apply rt_FUint16. unfold in_u. lia.
Qed.

Lemma reads_StringF32 e s : zlen s < 2 ^ 32 - 1 -> zlen s < stack_room ->
  reads_in e ReadStringF32 (wire 4 e (zlen s) ++ s) (cstr s).
Proof.
  intros Hs Hroom. apply (reads_string (fun len => u32 (len + 1))); [|rewrite room_u32; lia].
  apply rt_FUint32. unfold in_u. lia.
Qed.

Lemma reads_StringF32_ne e s : s <> [] -> zlen s < 2 ^ 32 - 1 -> zlen s < stack_room ->
  reads e ReadStringF32 (wire 4 e (zlen s) ++ s) (cstr s).
Proof.
  intros Hne Hs Hroom.
  apply (reads_string_ne (fun len => u32 (len + 1))); [done| |rewrite room_u32; lia].
  apply rt_FUint32. unfold in_u. lia.
Qed.

Lemma reads_StringVar64 e s : zlen s < 2 ^ 64 - 1 -> zlen s < stack_room ->
  reads_in e ReadStringVar64 (varint 9 (zlen s) ++ s) (cstr s).
Proof.
  intros Hs Hroom. apply (reads_string (fun len => u64 (len + 1))); [|rewrite room_u64; lia].
  apply rt_VarUint64. unfold in_u. lia.
Qed.
End strings.

#[export] Hint Resolve reads_reads_in reads_ret writes_bwrite : xten.
