(* ===== verification/Wire.v ===== *)
(** The codecs run on the byte array itself: the round trips from a fresh
    array, the limits of the varint reader, and the two ways in which the
    string codecs fall short. *)
From S2P Require Import Prelude Bytes Buffer ByteArray Codec.

Lemma le_value_app bs1 bs2 :
  le_value (bs1 ++ bs2) = le_value bs1 + 256 ^ zlen bs1 * le_value bs2.
Proof.
  induction bs1 as [|b bs1 IH]; [cbn; lia|].
  cbn [app le_value length]. rewrite IH, Nat2Z.inj_succ, Z.pow_succ_r by lia. lia.
Qed.

Lemma le_value_nonneg bs : Forall is_byte bs -> 0 <= le_value bs.
Proof. intros H. pose proof (le_value_range bs H). unfold in_u in *. lia. Qed.

Definition order (le : bool) : Endian := if le then XTEN_LITTLE_ENDIAN else XTEN_BIG_ENDIAN.

(** Writing from scratch and rewinding leaves exactly the written bytes to read. *)
Lemma write_rewind {Mach : Machine} ns le (w : M ByteArray unit) bs :
  0 < ns -> ns + zlen bs <= 2 ^ 53 -> writes (order le) w bs ->
  exists ba, (w;; SetPosition 0) (SetLittleEndian le (ByteArray_new ns)) = (Ok tt, ba) /\
    wf ba /\ _endian ba = order le /\ vrest (ba_view ba) = bs /\ _position ba = 0.
Proof.
  intros Hns Hroom Hw. pose proof (ByteArray_new_wf ns le ltac:(lia)) as Hwf0.
  destruct (Hw (SetLittleEndian le (ByteArray_new ns))) as (ba1 & E1 & Hwf1 & He1 & Hv1 & _).
  { done. } { by destruct le. } { done. } { cbn. unfold room. cbn. lia. }
  cbn in Hwf1, He1, Hv1. pose proof (wf_position _ Hwf1). pose proof (wf_size _ Hwf1).
  rewrite (bind_ok _ _ _ _ _ E1), SetPosition_run by (apply Hwf1 || lia).
  eexists. split; [done|]. split_and!; [by apply SetPosition_wf; [|lia]|done| |done].
  rewrite Z.max_l by lia. unfold vrest. cbn [vdata vpos ba_view]. rewrite drop_0.
  change (data (set_size _ (moved ba1 0))) with (data ba1).
  apply (f_equal vdata) in Hv1. cbn [vdata ba_view] in Hv1. rewrite Hv1.
  unfold view_write, splice. cbn [vdata vpos ba_view].
  change (data (SetLittleEndian _ _)) with (@nil Z). by rewrite drop_nil, app_nil_r.
Qed.

(** ** Overlong varints *)
Section overlong.
Context {B : Type} {BB : ByteBuffer B} {BL : ByteBufferLaws B} {Mach : Machine}.

Lemma ReadVar_overlong gs : forall fuel w acc i b g rest,
  bok b -> vrest (bview b) = gs ++ g :: rest ->
  Forall (fun g => 128 <= g < 256) gs -> is_byte g ->
  w <= i + 7 * zlen gs ->
  (length gs < fuel)%nat ->
  fst (ReadVar_loop fuel w acc i b) = Undef ShiftWidth.
Proof.
  induction gs as [|g0 gs IH]; intros [|fuel] w acc i b g rest Hb Hr Hgs Hg Hiw Hf;
    try (cbn in Hf; lia); cbn [ReadVar_loop].
  - cbn [length] in Hiw.
    destruct (reads_byte (bendian b) g Hg b rest Hb eq_refl Hr) as (b' & E & _).
    rewrite (bind_ok _ _ _ _ _ E). unfold shl_w.
    rewrite (proj2 (Z.ltb_ge i w)) by lia. by destruct (g <? 128).
  - apply Forall_cons_1 in Hgs as [Hg0 Hgs].
    destruct (reads_byte (bendian b) g0 ltac:(unfold is_byte; lia) b (gs ++ g :: rest) Hb eq_refl Hr)
      as (b' & E & Hb' & He' & Hc' & Hv').
    rewrite (bind_ok _ _ _ _ _ E), (proj2 (Z.ltb_ge g0 128)) by lia.
    unfold shl_w. destruct (i <? w); [|done].
    eapply (IH _ _ _ _ _ g rest); try done; try (cbn [length] in *; lia).
    rewrite Hv'. by apply (vrest_skip b [g0]).
Qed.
End overlong.

(** ** Properties *)
Section properties.
Context {B : Type} {BB : ByteBuffer B} {BL : ByteBufferLaws B} {Mach : Machine}.

(** In either byte order every fixed-length integer codec gives back the
    value it was given, for the whole range of its type. *)
Theorem fixed_roundtrip e :
  (forall v, in_s 8 v -> roundtrip e (WriteFint8 v) ReadFint8 (le_bytes 1 (u8 v)) v) /\
  (forall v, in_u 8 v -> roundtrip e (WriteFUint8 v) ReadFUint8 (le_bytes 1 v) v) /\
  (forall v, in_s 16 v -> roundtrip e (WriteFint16 v) ReadFint16 (wire 2 e (u16 v)) v) /\
  (forall v, in_u 16 v -> roundtrip e (WriteFUint16 v) ReadFUint16 (wire 2 e v) v) /\
  (forall v, in_s 32 v -> roundtrip e (WriteFint32 v) ReadFint32 (wire 4 e (u32 v)) v) /\
  (forall v, in_u 32 v -> roundtrip e (WriteFUint32 v) ReadFUint32 (wire 4 e v) v) /\
  (forall v, in_s 64 v -> roundtrip e (WriteFint64 v) ReadFint64 (wire 8 e (u64 v)) v) /\
  (forall v, in_u 64 v -> roundtrip e (WriteFUint64 v) ReadFUint64 (wire 8 e v) v) /\
  (forall v, in_u 32 v -> roundtrip e (WriteFloat v) ReadFloat (wire 4 e v) v) /\
  (forall v, in_u 64 v -> roundtrip e (WriteDouble v) ReadDouble (wire 8 e v) v).
Proof.
  split_and!; intros; [by apply rt_Fint8|by apply rt_FUint8|by apply rt_Fint16|
    by apply rt_FUint16|by apply rt_Fint32|by apply rt_FUint32|by apply rt_Fint64|
    by apply rt_FUint64|by apply rt_FUint32|by apply rt_FUint64].
Qed.

(** C8: the varint codecs give back every value of their type, signed ones
    through zigzag, in at most five respectively ten bytes; the local arrays
    never overflow. *)
Theorem varint_roundtrip e :
  (forall v, in_u 32 v -> (1 <= length (varint 4 v) <= 5)%nat /\
     roundtrip e (WriteVarUint32 v) ReadVarUint32 (varint 4 v) v) /\
  (forall v, in_s 32 v ->
     roundtrip e (WriteVarint32 v) ReadVarint32 (varint 4 (EncodeZigzag32 v)) v) /\
  (forall v, in_u 64 v -> (1 <= length (varint 9 v) <= 10)%nat /\
     roundtrip e (WriteVarUint64 v) ReadVarUint64 (varint 9 v) v) /\
  (forall v, in_s 64 v ->
     roundtrip e (WriteVarint64 v) ReadVarint64 (varint 9 (EncodeZigzag64 v)) v).
Proof.
  split_and!; intros v Hv; [split; [apply varint_length|by apply rt_VarUint32]|
    by apply rt_Varint32|split; [apply varint_length|by apply rt_VarUint64]|by apply rt_Varint64].
Qed.

(** The varint readers do not limit the number of continuation bytes:
    after five (ten) of them the next byte is shifted by the width of the
    type or more. *)
Theorem varint_overlong b gs g rest :
  bok b -> vrest (bview b) = gs ++ g :: rest ->
  Forall (fun g => 128 <= g < 256) gs -> is_byte g ->
  (length gs = 5%nat -> fst (ReadVarUint32 b) = Undef ShiftWidth) /\
  (length gs = 10%nat -> fst (ReadVarUint64 b) = Undef ShiftWidth).
Proof.
  intros Hb Hr Hgs Hg. split; intros Hl; eapply ReadVar_overlong; eauto; rewrite ?Hl; cbn; lia.
Qed.

(** A string that fits its length field and the stack is written as
    length and bytes and read back up to its first NUL byte, so NUL-free
    strings survive unchanged; the reads need the item not to end exactly at
    the end of the allocated nodes. *)
Theorem string_roundtrip e s :
  zlen s < stack_room ->
  (zlen s < 2 ^ 16 -> writes e (WriteStringF16 s) (wire 2 e (zlen s) ++ s) /\
     reads_in e ReadStringF16 (wire 2 e (zlen s) ++ s) (cstr s)) /\
  (zlen s < 2 ^ 32 - 1 -> writes e (WriteStringF32 s) (wire 4 e (zlen s) ++ s) /\
     reads_in e ReadStringF32 (wire 4 e (zlen s) ++ s) (cstr s)) /\
  (zlen s < 2 ^ 64 - 1 -> writes e (WriteStringVar64 s) (varint 9 (zlen s) ++ s) /\
     reads_in e ReadStringVar64 (varint 9 (zlen s) ++ s) (cstr s)) /\
  (0 ∉ s -> cstr s = s).
Proof.
  intros Hroom. split_and!.
  - intros Hs. split; [by apply writes_StringF16|by apply reads_StringF16].
  - intros Hs. split; [apply writes_StringF32; lia|by apply reads_StringF32].
  - intros Hs. split; [apply writes_StringVar64; lia|by apply reads_StringVar64].
  - apply cstr_id.
Qed.

(** The eight bytes [ReadStringF64] takes for the length. *)
Lemma F64_length e (L : Z) t :
  in_u 32 L -> Forall is_byte t -> length t = 4%nat ->
  L <= (if bool_decide (e <> XTEN_BYTE_ORDER)
        then be64toh (le_value (wire 4 e L ++ t)) else le_value (wire 4 e L ++ t)).
Proof.
  intros HL Ht Hlen. unfold in_u in HL. destruct e.
  - change (bool_decide _) with false. cbn match.
    rewrite le_value_app, le_value_wire_le by (unfold in_u; done || lia).
    pose proof (le_value_nonneg t Ht). rewrite wire_length. nia.
  - change (bool_decide _) with true. cbn match. unfold be64toh, bswap.
    assert (length (wire 4 XTEN_BIG_ENDIAN L ++ t) = 8%nat) as H8
      by (rewrite length_app, wire_length; lia).
    rewrite <- H8 at 1. rewrite le_bytes_value.
    + rewrite rev_app_distr, le_value_app. cbn [wire]. rewrite rev_involutive.
      rewrite le_value_bytes, length_rev by (unfold in_u; done || lia).
      pose proof (le_value_nonneg (rev t) (Forall_rev Ht)). rewrite Hlen. nia.
    + apply Forall_app. split; [apply wire_bytes|done].
Qed.

(** [WriteStringF64] writes a 32-bit length where [ReadStringF64] reads a
    64-bit one: no string at the end of the data is ever read back. *)
Theorem StringF64_mismatch e s b :
  zlen s < 2 ^ 32 -> Forall is_byte s -> bok b -> bendian b = e ->
  vrest (bview b) = wire 4 e (zlen s) ++ s ->
  writes e (WriteStringF64 s) (wire 4 e (zlen s) ++ s) /\
  forall r b', ReadStringF64 b <> (Ok r, b').
Proof.
  intros Hs Hbytes Hb He Hr. split; [by apply writes_StringF32|]. intros r b'.
  pose proof (vrest_length b (wire 4 e (zlen s) ++ s) [] Hb) as Hl.
  rewrite app_nil_r in Hl. specialize (Hl Hr). cbn [length] in Hl.
  rewrite length_app, wire_length in Hl. pose proof (bview_bounds b Hb).
  unfold ReadStringF64, ReadFUint64.
  destruct (Z.lt_ge_cases (zlen s) 4).
  { rewrite (bind_throw _ _ _ OutOfRange b); [done|].
    by rewrite (bind_throw _ _ _ OutOfRange b) by (apply bread_short; [done|lia]). }
  assert (reads e (ReadFUint64 (B:=B)) (wire 4 e (zlen s) ++ take 4 s)
    (if bool_decide (e <> XTEN_BYTE_ORDER)
     then be64toh (le_value (wire 4 e (zlen s) ++ take 4 s))
     else le_value (wire 4 e (zlen s) ++ take 4 s))) as Hlen.
  { apply (reads_swapped e 8 _ (fun bs (sw : bool) => if sw then be64toh (le_value bs) else le_value bs)).
    - rewrite length_app, wire_length, length_take. lia.
    - intros Hnil%(f_equal length). rewrite length_app, wire_length in Hnil. cbn in Hnil. lia.
    - done. }
  pose proof (F64_length e (zlen s) (take 4 s) ltac:(unfold in_u; lia)
    ltac:(by apply Forall_take) ltac:(rewrite length_take; lia)) as HL.
  set (len := if bool_decide _ then _ else _) in *.
  destruct (Hlen b (drop 4 s) Hb He) as (b1 & E1 & Hb1 & He1 & Hc1 & Hv1).
  { by rewrite <- app_assoc, take_drop. }
  unfold ReadFUint64 in E1. rewrite (bind_ok _ _ _ _ _ E1). unfold read_cstring.
  destruct (stack_room <? _); [done|]. destruct (_ <=? len); [done|].
  rewrite (bind_throw _ _ _ OutOfRange b1); [done|]. apply bread_short; [done|].
  rewrite Hv1. cbn. rewrite length_app, wire_length, length_take. lia.
Qed.
End properties.

Section bytearray_properties.
Context {Mach : Machine}.

(** End to end on the real byte array: whatever a codec writes into a
    fresh array of any node size, rewinding and reading gives it back. *)
Theorem ByteArray_roundtrip {A} ns le (w : M ByteArray unit) (r : M ByteArray A) bs a :
  0 < ns -> ns + zlen bs <= 2 ^ 53 -> roundtrip (order le) w r bs a ->
  exists ba, (w;; SetPosition 0;; r) (SetLittleEndian le (ByteArray_new ns)) = (Ok a, ba) /\ wf ba.
Proof.
  intros Hns Hroom [Hw Hr].
  destruct (write_rewind ns le w bs Hns Hroom Hw) as (ba & E & Hwf & He & Hrest & Hpos).
  destruct (Hr ba [] Hwf He) as (ba' & E' & Hwf' & _); [by rewrite app_nil_r|].
  exists ba'. split; [|done]. rewrite <- E'.
  transitivity (((w;; SetPosition 0);; r) (SetLittleEndian le (ByteArray_new ns))).
  - unfold mbind, M_bind. by destruct (w _) as [[] ?].
  - by rewrite (bind_ok _ _ _ _ _ E).
Qed.

(** An empty string that ends exactly at the end of the allocated nodes
    cannot be read: its length is read, and the read of its zero bytes
    dereferences the null cursor. *)
Theorem empty_string_at_node_end ba :
  wf ba -> 0 < stack_room -> vrest (ba_view ba) = wire 4 (_endian ba) 0 ->
  _size ba = _capacity ba -> fst (ReadStringF32 ba) = Undef NullDeref.
Proof.
  intros Hwf Hroom Hr Hsz.
  destruct (rt_FUint32 (BL:=ByteArray_laws) (_endian ba) 0 ltac:(unfold in_u; lia)) as [_ Hread].
  destruct (Hread ba [] Hwf eq_refl) as (ba' & E & Hwf' & _ & Hc & Hv); [by rewrite app_nil_r|].
  unfold ReadStringF32. rewrite (bind_ok _ _ _ _ _ E). unfold read_cstring.
  change (u32 (0 + 1)) with 1. rewrite (proj2 (Z.ltb_ge stack_room 1)), (proj2 (Z.leb_gt 1 0)) by lia.
  cbn in Hwf', Hc, Hv. rewrite (bind_undef _ _ _ NullDeref ba'); [done|].
  apply Read_dead; [done|pose proof (avail_bounds _ Hwf'); lia|].
  pose proof (vrest_length ba (wire 4 (_endian ba) 0) [] Hwf) as Hl. rewrite app_nil_r in Hl.
  specialize (Hl Hr). cbn in Hl. rewrite data_zlen in Hl by done.
  apply (f_equal vpos) in Hv. cbn in Hv. rewrite wire_length in *. lia.
Qed.
End bytearray_properties.

(** ** The theorems at concrete inputs *)

#[local] Existing Instance demo_machine.

(** An array of four-byte nodes holding [bs], rewound. *)
Definition loaded (le : bool) (bs : list Z) : ByteArray :=
  snd ((Write bs;; SetPosition 0) (SetLittleEndian le (ByteArray_new 4))).

Ltac in_range := unfold in_s, in_u; lia.

Lemma fixed_roundtrip_witness :
  roundtrip (B:=ByteArray) XTEN_BIG_ENDIAN (WriteFint32 (-2)) ReadFint32 [255;255;255;254] (-2).
Proof.
  destruct (fixed_roundtrip (B:=ByteArray) XTEN_BIG_ENDIAN) as (_ & _ & _ & _ & H & _).
  exact (H (-2) ltac:(in_range)).
Defined.

Lemma varint_roundtrip_witness :
  roundtrip (B:=ByteArray) XTEN_BIG_ENDIAN (WriteVarint32 (-150)) ReadVarint32 [171; 2] (-150).
Proof.
  destruct (varint_roundtrip (B:=ByteArray) XTEN_BIG_ENDIAN) as (_ & H & _).
  exact (H (-150) ltac:(in_range)).
Defined.

(** The state and the unread bytes of a loaded array, by computation. *)
Ltac loaded_ok := match goal with |- bok ?b => change (wf b); by_computation end.

Lemma varint_overlong_witness :
  fst (ReadVarUint32 (loaded true [255;255;255;255;255;1])) = Undef ShiftWidth.
Proof.
  refine (proj1 (varint_overlong (loaded true [255;255;255;255;255;1]) [255;255;255;255;255] 1 []
    _ _ _ _) eq_refl); [loaded_ok|vm_compute; reflexivity|by_computation|by_computation].
Defined.

Lemma string_roundtrip_witness :
  writes (B:=ByteArray) XTEN_BIG_ENDIAN (WriteStringF32 [88;116;101;110]) [0;0;0;4;88;116;101;110] /\
  reads_in (B:=ByteArray) XTEN_BIG_ENDIAN ReadStringF32 [0;0;0;4;88;116;101;110] [88;116;101;110].
Proof.
  assert (zlen [88;116;101;110] < stack_room) as Hroom by (vm_compute; reflexivity).
  destruct (string_roundtrip (B:=ByteArray) XTEN_BIG_ENDIAN [88;116;101;110] Hroom) as (_ & H & _).
  exact (H ltac:(vm_compute; reflexivity)).
Defined.

Lemma StringF64_mismatch_witness :
  writes XTEN_BIG_ENDIAN (WriteStringF64 (B:=ByteArray) [88;116]) [0;0;0;2;88;116] /\
  forall r b', ReadStringF64 (loaded false [0;0;0;2;88;116]) <> (Ok r, b').
Proof.
  refine (StringF64_mismatch XTEN_BIG_ENDIAN [88;116] (loaded false [0;0;0;2;88;116])
    _ _ _ _ _); [vm_compute; reflexivity|by_computation|loaded_ok|reflexivity|vm_compute; reflexivity].
Defined.

Lemma ByteArray_roundtrip_witness :
  exists ba, (WriteVarint32 (-150);; SetPosition 0;; ReadVarint32)
    (SetLittleEndian true (ByteArray_new 1)) = (Ok (-150), ba) /\ wf ba.
Proof.
  refine (ByteArray_roundtrip 1 true (WriteVarint32 (-150)) ReadVarint32 [171;2] (-150) _ _
    (rt_Varint32 XTEN_LITTLE_ENDIAN (-150) ltac:(in_range))); vm_compute; [reflexivity|discriminate].
Defined.

Lemma empty_string_at_node_end_witness :
  fst (ReadStringF32 (loaded false [0;0;0;0])) = Undef NullDeref.
Proof.
  refine (empty_string_at_node_end (loaded false [0;0;0;0]) _ _ _ _);
    [by_computation|vm_compute; reflexivity|vm_compute; reflexivity|vm_compute; reflexivity].
Defined.
