(* ===== verification/TimerWheel.v ===== *)
(** timer.cpp and timer.h: the timing wheel ([TimerWheelManager], [TimerW]).

    A [TimerW::ptr] is a number naming an entry of [heap]: the flag that
    [Cancel] sets is seen through every copy of the pointer.  A callback is a
    value of an arbitrary type [C]; running it is being listed in the output.
    [uint32_t] ticks are [Z] with the wrap-around written out. *)
From stdpp Require Import gmap.
From S2P Require Import Prelude.

Abbreviation TIME_NEAR_SHIFT := 8.
Abbreviation TIME_NEAR := 256.
Abbreviation TIME_LEVEL_SHIFT := 6.
Abbreviation TIME_LEVEL := 64.
Abbreviation TIME_NEAR_MASK := 255.
Abbreviation TIME_LEVEL_MASK := 63.

Record TimerW (C : Type) := mkTimerW {
  _recurring : bool;
  _expire : Z;       (* uint32_t: the tick it is due *)
  _callback : C;
  _cancel : bool;
  _sub_time : Z;     (* uint32_t: its interval in ticks *)
}.
Arguments mkTimerW {C} _ _ _ _ _.
Arguments _recurring {C} _.
Arguments _expire {C} _.
Arguments _callback {C} _.
Arguments _cancel {C} _.
Arguments _sub_time {C} _.

Record wheel (C : Type) := mkWheel {
  heap : gmap nat (TimerW C);
  next_id : nat;
  _near : list (list nat);
  _t : list (list (list nat));
  _time : Z;
  _current : Z;
  _current_point : Z;
}.
Arguments mkWheel {C} _ _ _ _ _ _ _.
Arguments heap {C} _.
Arguments next_id {C} _.
Arguments _near {C} _.
Arguments _t {C} _.
Arguments _time {C} _.
Arguments _current {C} _.
Arguments _current_point {C} _.

(** A list of the wheel: [_near[j]] or [_t[i][j]]. *)
Inductive slot := Near (j : nat) | Lev (i j : nat).

#[export] Instance slot_eq_dec : EqDecision slot.
Proof. solve_decision. Defined.

Section wheel.
Context {C : Type}.
Implicit Types (w : wheel C) (id : nat).

Definition at_slot w (s : slot) : list nat :=
  match s with
  | Near j => default [] (_near w !! j)
  | Lev i j => default [] (_t w !! i ≫= fun lv => lv !! j)
  end.

(** An update of one list in place. *)
Definition upd (s : slot) (f : list nat -> list nat) w : wheel C :=
  match s with
  | Near j => mkWheel (heap w) (next_id w) (alter f j (_near w)) (_t w)
                (_time w) (_current w) (_current_point w)
  | Lev i j => mkWheel (heap w) (next_id w) (_near w) (alter (alter f j) i (_t w))
                 (_time w) (_current w) (_current_point w)
  end.

Definition push_back (s : slot) id : M (wheel C) unit := modify (upd s (fun l => l ++ [id])).

Definition set_time (t : Z) w : wheel C :=
  mkWheel (heap w) (next_id w) (_near w) (_t w) t (_current w) (_current_point w).
Definition set_heap (h : gmap nat (TimerW C)) w : wheel C :=
  mkWheel h (next_id w) (_near w) (_t w) (_time w) (_current w) (_current_point w).

(** [*timer] *)
Definition deref id : M (wheel C) (TimerW C) :=
  w ← get; match heap w !! id with Some tm => mret tm | None => undef NullDeref end.

(** [protected_make_shared<TimerW>(expire, sub, func, recurring, this)] *)
Definition make_timer (expire sub : Z) (func : C) (recurring : bool) : M (wheel C) nat :=
  w ← get;
  put (mkWheel (<[next_id w := mkTimerW recurring (u32 expire) func false (u32 sub)]> (heap w))
         (S (next_id w)) (_near w) (_t w) (_time w) (_current w) (_current_point w));;
  mret (next_id w).

Definition add_node id : M (wheel C) unit :=
  timer ← deref id;
  w ← get;
  let time := _expire timer in
  let current_time := _time w in
  let msec := u32 (time - current_time) in
  if msec <? TIME_NEAR then
    push_back (Near (Z.to_nat (Z.land time TIME_NEAR_MASK))) id
  else if msec <? Z.shiftl 1 (TIME_NEAR_SHIFT + TIME_LEVEL_SHIFT) then
    push_back (Lev 0 (Z.to_nat (Z.land (Z.shiftr time TIME_NEAR_SHIFT) TIME_LEVEL_MASK))) id
  else if msec <? Z.shiftl 1 (TIME_NEAR_SHIFT + 2 * TIME_LEVEL_SHIFT) then
    push_back (Lev 1 (Z.to_nat (Z.land
      (Z.shiftr time (TIME_NEAR_SHIFT + TIME_LEVEL_SHIFT)) TIME_LEVEL_MASK))) id
  else if msec <? Z.shiftl 1 (TIME_NEAR_SHIFT + 3 * TIME_LEVEL_SHIFT) then
    push_back (Lev 2 (Z.to_nat (Z.land
      (Z.shiftr time (TIME_NEAR_SHIFT + 2 * TIME_LEVEL_SHIFT)) TIME_LEVEL_MASK))) id
  else
    push_back (Lev 3 (Z.to_nat (Z.land
      (Z.shiftr time (TIME_NEAR_SHIFT + 3 * TIME_LEVEL_SHIFT)) TIME_LEVEL_MASK))) id.

(** The range-for of [move_list] reads the list it walks over anew at every
    step: [add_node] may append to it. *)
Fixpoint move_loop (fuel : nat) (s : slot) (k : nat) : M (wheel C) unit :=
  match fuel with
  | O => nofuel
  | S fuel =>
    w ← get;
    match at_slot w s !! k with
    | None => mret tt
    | Some task => add_node task;; move_loop fuel s (S k)
    end
  end.

Definition move_list (i idx : nat) : M (wheel C) unit :=
  w ← get;
  move_loop (S (length (at_slot w (Lev i idx)))) (Lev i idx) 0;;
  modify (upd (Lev i idx) (fun _ => [])).

(** The loop of [timer_execute] takes the front of [_near[idx]] until the list
    is empty. *)
Fixpoint execute_loop (fuel : nat) (idx : nat) (tasks : list C) : M (wheel C) (list C) :=
  match fuel with
  | O => nofuel
  | S fuel =>
    w ← get;
    match at_slot w (Near idx) with
    | [] => mret tasks
    | id :: _ =>
      timer ← deref id;
      (if _cancel timer then mret tt
       else if _recurring timer then
         recu_timer ← make_timer (_time w + _sub_time timer) (_sub_time timer) (_callback timer) true;
         add_node recu_timer
       else mret tt);;
      modify (upd (Near idx) tail);;
      execute_loop fuel idx (if _cancel timer then tasks else tasks ++ [_callback timer])
    end
  end.

Definition timer_execute (tasks : list C) : M (wheel C) (list C) :=
  w ← get;
  let idx := Z.to_nat (Z.land (_time w) TIME_NEAR_MASK) in
  execute_loop (S (length (at_slot w (Near idx)))) idx tasks.

Fixpoint shift_loop (fuel : nat) (ct mask time : Z) (i : nat) : M (wheel C) unit :=
  match fuel with
  | O => nofuel
  | S fuel =>
    if Z.land ct (mask - 1) =? 0 then
      let idx := Z.land time TIME_LEVEL_MASK in
      if negb (idx =? 0) then move_list i (Z.to_nat idx)
      else shift_loop fuel ct (Z.shiftl mask TIME_LEVEL_SHIFT) (Z.shiftr time TIME_LEVEL_SHIFT) (S i)
    else mret tt
  end.

Definition timer_shift : M (wheel C) unit :=
  w ← get;
  let ct := u32 (_time w + 1) in
  put (set_time ct w);;
  if ct =? 0 then move_list 3 0
  else shift_loop 5 ct TIME_NEAR (Z.shiftr ct TIME_NEAR_SHIFT) 0.

(** One tick; the result is the callbacks that are handed to the worker. *)
Definition timer_update : M (wheel C) (list C) :=
  tasks ← timer_execute [];
  timer_shift;;
  timer_execute tasks.

(** The handle is null when the callback ran at once; the timer object made
    for it is gone when the call returns. *)
Definition AddTimer (time_ms : Z) (func : C) (recurring : bool) : M (wheel C) (option nat * list C) :=
  let time_ms := Z.quot time_ms 10 in
  w ← get;
  if time_ms <=? 0 then mret (None, [func]) else
  timer ← make_timer (_time w + time_ms) time_ms func recurring;
  add_node timer;;
  mret (Some timer, []).

(** [TimerW::Cancel] and [DelTimer]. *)
Definition Cancel id : M (wheel C) unit :=
  timer ← deref id;
  modify (fun w => set_heap (<[id := mkTimerW (_recurring timer) (_expire timer)
    (_callback timer) true (_sub_time timer)]> (heap w)) w).

Definition Refresh id : M (wheel C) (option nat * list C) :=
  Cancel id;;
  timer ← deref id;
  AddTimer (s32 (_sub_time timer * 10)) (_callback timer) (_recurring timer).

Definition ClearTimer : M (wheel C) unit :=
  modify (fun w => mkWheel (heap w) (next_id w) ((fun _ : list nat => @nil nat) <$> _near w)
    ((fun lv : list (list nat) => (fun _ : list nat => @nil nat) <$> lv) <$> _t w) (_time w) (_current w) (_current_point w)).

Fixpoint updates (n : nat) : M (wheel C) (list C) :=
  match n with
  | O => mret []
  | S n => tasks ← timer_update; rest ← updates n; mret (tasks ++ rest)
  end.

(** [cp] is what [gettime] returns. *)
Definition ExpireTimer (cp : Z) : M (wheel C) (list C) :=
  w ← get;
  if negb (cp =? _current_point w) then
    let diff := u32 (cp - _current_point w) in
    put (mkWheel (heap w) (next_id w) (_near w) (_t w) (_time w) (u64 (_current w + diff)) cp);;
    updates (Z.to_nat diff)
  else mret [].

(** [TimerWheelManager()], with the first [gettime]. *)
Definition TimerWheelManager_new (cp : Z) : wheel C :=
  mkWheel ∅ 0 (replicate 256 []) (replicate 4 (replicate 64 [])) 0 0 cp.
End wheel.

(** ** Where a timer sits *)

(** The span of one slot of level [i]. *)
Definition U (i : nat) : Z := 2 ^ (8 + 6 * Z.of_nat i).

(** The ticks from [T] until [e]. *)
Definition dist (T e : Z) : Z := u32 (e - T).

Definition lev_slot (i : nat) (e : Z) : slot := Lev i (Z.to_nat ((e / U i) mod 64)).

Definition place (T e : Z) : slot :=
  let d := dist T e in
  if d <? 256 then Near (Z.to_nat (e mod 256))
  else if d <? U 1 then lev_slot 0 e
  else if d <? U 2 then lev_slot 1 e
  else if d <? U 3 then lev_slot 2 e
  else lev_slot 3 e.

(** The slots that [timer_shift] never moves. *)
Definition stuck (s : slot) : Prop := match s with Lev i 0 => (i < 3)%nat | _ => False end.

#[export] Instance stuck_dec s : Decision (stuck s).
Proof. destruct s as [|i [|j]]; simpl; apply _. Defined.

(** [e] belongs in [s] at tick [T]; [kn] and [kl] are the least number of
    ticks it still has to wait, in [_near] until it is due and in a level
    until the level's slot comes up. *)
Definition ok_slot (kn kl T : Z) (s : slot) (e : Z) : Prop :=
  match s with
  | Near j => j = Z.to_nat (e mod 256) /\ kn <= dist T e < 256
  | Lev i j => (i < 4)%nat /\ s = lev_slot i e /\ e mod U i + kl <= dist T e < U (S i)
  end.

Definition in_shape (s : slot) : Prop :=
  match s with Near j => (j < 256)%nat | Lev i j => (i < 4)%nat /\ (j < 64)%nat end.

(** The list that the shift to tick [ct] moves. *)
Definition cascade (ct : Z) : option (nat * nat) :=
  if ct =? 0 then Some (3, 0)%nat
  else if negb (ct mod U 0 =? 0) then None
  else if negb ((ct / U 0) mod 64 =? 0) then Some (0%nat, Z.to_nat ((ct / U 0) mod 64))
  else if negb ((ct / U 1) mod 64 =? 0) then Some (1%nat, Z.to_nat ((ct / U 1) mod 64))
  else if negb ((ct / U 2) mod 64 =? 0) then Some (2%nat, Z.to_nat ((ct / U 2) mod 64))
  else Some (3%nat, Z.to_nat ((ct / U 3) mod 64)).

(** Constants for [lia]. *)
Ltac ticks :=
  unfold ok_slot, lev_slot, place, dist, uwrap, in_u in *;
  change (U 0) with 256 in *; change (U 1) with 16384 in *; change (U 2) with 1048576 in *;
  change (U 3) with 67108864 in *; change (U 4) with 4294967296 in *;
  change (2 ^ 32) with 4294967296 in *.

Lemma dist_range T e : in_u 32 (dist T e).
Proof. apply uwrap_range. lia. Qed.

Lemma dist_tick T e : 0 < dist T e -> dist (u32 (T + 1)) e = dist T e - 1.
Proof. ticks. intros. zlia. Qed.

Lemma dist_add T n : in_u 32 n -> dist T (u32 (T + n)) = n.
Proof. ticks. intros. zlia. Qed.

Lemma place_cases T e :
  (place T e = Near (Z.to_nat (e mod 256)) /\ dist T e < 256) \/
  (exists k, (k < 4)%nat /\ place T e = lev_slot k e /\ U k <= dist T e < U (S k)).
Proof.
  pose proof (dist_range T e) as Hd. unfold place, in_u in *.
  destruct (Z.ltb_spec (dist T e) 256); [by left|right].
  destruct (Z.ltb_spec (dist T e) (U 1)); [by exists 0%nat; split_and!; [lia|..]|].
  destruct (Z.ltb_spec (dist T e) (U 2)); [by exists 1%nat; split_and!; [lia|..]|].
  destruct (Z.ltb_spec (dist T e) (U 3)); [by exists 2%nat; split_and!; [lia|..]|].
  exists 3%nat. split_and!; [lia|done|done|apply Hd].
Qed.

Lemma U_mono k i : (k <= i)%nat -> U k <= U i.
Proof. intros. apply Z.pow_le_mono_r; lia. Qed.

Lemma U_pos i : 0 < U i.
Proof. apply pow2_pos. lia. Qed.

Lemma lev_not_stuck k e : (e / U k) mod 64 <> 0 -> ~ stuck (lev_slot k e).
Proof.
  intros Hm. pose proof (Z.mod_pos_bound (e / U k) 64 ltac:(lia)). cbn.
  destruct (Z.to_nat _) eqn:E; [lia|tauto].
Qed.

Lemma place_in_shape T e : in_u 32 e -> in_shape (place T e).
Proof.
  intros He. ticks.
  repeat case_match; cbn; split_and?; try lia;
    match goal with |- (Z.to_nat (?a mod ?b) < _)%nat => pose proof (Z.mod_pos_bound a b); lia end.
Qed.

Lemma place_ok kn T e : kn <= dist T e -> ok_slot kn 1 T (place T e) e.
Proof.
  intros Hd. destruct (place_cases T e) as [[-> ?]|(k & Hk & -> & ?)]; [done|].
  pose proof (Z.mod_pos_bound e (U k) (U_pos k)). cbn. split_and!; [done|done|lia|lia].
Qed.

(** Time moves on: everything is one tick closer. *)
Lemma ok_tick T s e : ok_slot 1 1 T s e -> ok_slot 0 0 (u32 (T + 1)) s e.
Proof.
  destruct s as [j|i j]; intros H.
  - destruct H. split; [done|]. rewrite dist_tick; lia.
  - destruct H as (? & ? & ?). split_and!; try done.
    + pose proof (Z.mod_pos_bound e (U i) ltac:(unfold U; lia)). rewrite dist_tick; lia.
    + pose proof (Z.mod_pos_bound e (U i) ltac:(unfold U; lia)). rewrite dist_tick; lia.
Qed.

Lemma level_cases i : (i < 4)%nat -> i = 0%nat \/ i = 1%nat \/ i = 2%nat \/ i = 3%nat.
Proof. lia. Qed.

Ltac by_level i Hi :=
  let E := fresh in destruct (level_cases i Hi) as [E|[E|[E|E]]]; subst i.

Lemma at_boundary ct e i :
  (i < 4)%nat -> in_u 32 ct -> in_u 32 e -> dist ct e = e mod U i -> ct = e / U i * U i.
Proof.
  intros Hi Hct He. by_level i Hi; ticks; intros; zlia.
Qed.

Ltac eqb_cases :=
  repeat match goal with
  | |- context [?a =? 0] => destruct (Z.eqb_spec a 0); cbn [negb]; try (exfalso; zlia)
  end.

Ltac z_cases :=
  repeat match goal with
  | |- context [?a =? ?b] => destruct (Z.eqb_spec a b); try lia
  | |- context [?a <=? ?b] => destruct (Z.leb_spec a b); try lia
  | |- context [?a <? ?b] => destruct (Z.ltb_spec a b); try lia
  end.

Lemma cascade_boundary i q :
  (i < 4)%nat -> 0 <= q * U i < 2 ^ 32 -> ((i < 3)%nat -> q mod 64 <> 0) ->
  cascade (q * U i) = Some (i, Z.to_nat (q mod 64)).
Proof.
  intros Hi Hq Hnz. unfold cascade.
  by_level i Hi; ticks;
    try specialize (Hnz ltac:(lia)); eqb_cases; do 2 f_equal; zlia.
Qed.

(** A level slot is shifted exactly when the time reaches its boundary. *)
Lemma cascade_hits ct e i :
  (i < 4)%nat -> in_u 32 ct -> in_u 32 e -> dist ct e = e mod U i ->
  ~ stuck (lev_slot i e) -> cascade ct = Some (i, Z.to_nat ((e / U i) mod 64)).
Proof.
  intros Hi Hct He Hd Hs. pose proof (at_boundary ct e i Hi Hct He Hd) as Hb.
  rewrite Hb. apply cascade_boundary; [done|rewrite <- Hb; exact Hct|].
  intros Hi3 Hz. apply Hs. unfold lev_slot. rewrite Hz. done.
Qed.

Lemma cascade_level ct i j :
  in_u 32 ct -> cascade ct = Some (i, j) ->
  (i < 4)%nat /\ ct mod U i = 0 /\ j = Z.to_nat ((ct / U i) mod 64) /\ ~ stuck (Lev i j).
Proof.
  intros Hct. unfold cascade. ticks.
  repeat match goal with
  | |- context [?a =? 0] => destruct (Z.eqb_spec a 0); cbn [negb]
  end; intros [= <- <-]; ticks; split_and!; try lia; try zlia.
  all: intros Hs; cbn in Hs; try case_match; zlia.
Qed.

(** Everything in the list that is moved has reached its boundary. *)
Lemma cascade_all ct e i j :
  in_u 32 ct -> in_u 32 e -> cascade ct = Some (i, j) -> ok_slot 0 0 ct (Lev i j) e ->
  dist ct e = e mod U i.
Proof.
  intros Hct He Hc (Hi & Hj & Hd). destruct (cascade_level _ _ _ Hct Hc) as (_ & Hz & -> & _).
  injection Hj as Hj. apply Z2Nat.inj in Hj; [|apply Z.mod_pos_bound; lia..].
  by_level i Hi; ticks; zlia.
Qed.

(** It moves down, to where it is not stuck. *)
Lemma cascade_place ct e i :
  (i < 4)%nat -> in_u 32 e -> dist ct e = e mod U i ->
  ~ stuck (place ct e) /\ forall j, place ct e <> Lev i j.
Proof.
  intros Hi He Hd. pose proof (Z.mod_pos_bound e (U i) (U_pos i)).
  destruct (place_cases ct e) as [[-> ?]|(k & Hk & -> & ?)]; [by split; [intros []|]|].
  assert (k < i)%nat as Hki.
  { destruct (decide (k < i)%nat); [done|]. pose proof (U_mono i k ltac:(lia)). lia. }
  split; [|unfold lev_slot; intros j Hj; assert (k = i) by congruence; lia]. apply lev_not_stuck.
  by_level i Hi; by_level k Hk; try lia; ticks; zlia.
Qed.

(** ** The lists *)
Section state.
Context {C : Type}.
Implicit Types (w : wheel C) (id : nat) (s : slot).

Definition shape w : Prop :=
  length (_near w) = 256%nat /\ length (_t w) = 4%nat /\ Forall (fun lv => length lv = 64%nat) (_t w).

Lemma at_slot_upd w s s' f :
  shape w -> in_shape s -> at_slot (upd s f w) s' = if decide (s' = s) then f (at_slot w s) else at_slot w s'.
Proof.
  intros (Hn & Ht & Hl) Hs. destruct s as [j|i j], s' as [j'|i' j']; cbn in *;
    try (rewrite decide_False by done; done).
  - destruct (decide (Near j' = Near j)) as [[= ->]|Hne].
    + rewrite list_lookup_alter, decide_True by done.
      destruct (lookup_lt_is_Some_2 (_near w) j ltac:(lia)) as [l ->]. done.
    + rewrite list_lookup_alter, decide_False by congruence. done.
  - destruct Hs as [Hi Hj]. destruct (lookup_lt_is_Some_2 (_t w) i ltac:(lia)) as [lv Hlv].
    pose proof (Forall_lookup_1 _ _ _ _ Hl Hlv) as Hlen. cbn in Hlen.
    destruct (lookup_lt_is_Some_2 lv j ltac:(lia)) as [l Hjl].
    rewrite list_lookup_alter. destruct (decide (i' = i)) as [->|].
    + rewrite decide_True, Hlv by done. cbn. rewrite list_lookup_alter.
      destruct (decide (j' = j)) as [->|].
      * rewrite !decide_True, Hjl by done. done.
      * rewrite !decide_False by congruence. done.
    + rewrite !decide_False by congruence. done.
Qed.

Lemma at_slot_out w s id : shape w -> id ∈ at_slot w s -> in_shape s.
Proof.
  intros (Hn & Ht & Hl). destruct s as [j|i j]; cbn.
  - destruct (_near w !! j) eqn:E; [|by intros ?%not_elem_of_nil].
    apply lookup_lt_Some in E. lia.
  - destruct (_t w !! i) as [lv|] eqn:E; cbn; [|by intros ?%not_elem_of_nil].
    pose proof (Forall_lookup_1 _ _ _ _ Hl E) as Hlen. cbn in Hlen. apply lookup_lt_Some in E.
    destruct (lv !! j) eqn:E'; [|by intros ?%not_elem_of_nil].
    apply lookup_lt_Some in E'. lia.
Qed.

Lemma shape_upd w s f : shape w -> shape (upd s f w).
Proof.
  intros (Hn & Ht & Hl). destruct s as [j|i j]; split_and!; cbn; rewrite ?length_alter; try done.
  apply Forall_alter; [done|]. intros. by rewrite length_alter.
Qed.

Lemma upd_heap s f w : heap (upd s f w) = heap w.
Proof. by destruct s. Qed.
Lemma upd_next s f w : next_id (upd s f w) = next_id w.
Proof. by destruct s. Qed.
Lemma upd_time s f w : _time (upd s f w) = _time w.
Proof. by destruct s. Qed.

Lemma deref_timer_ok w id tm : heap w !! id = Some tm -> deref id w = (Ok tm, w).
Proof. intros H. unfold deref, mbind, M_bind. cbn. by rewrite H. Qed.

(** [add_node] is a push to the slot that the remaining time selects. *)
Lemma add_node_eq w id tm :
  heap w !! id = Some tm ->
  add_node id w = (Ok tt, upd (place (_time w) (_expire tm)) (fun l => l ++ [id]) w).
Proof.
  intros H. unfold add_node. rewrite (bind_ok _ _ _ _ _ (deref_timer_ok _ _ _ H)).
  rewrite (bind_ok _ _ _ _ _ (eq_refl : get w = (Ok w, w))).
  assert (forall a, Z.land a 255 = a mod 256) as L8 by (intros; by apply (Z.land_ones a 8)).
  assert (forall a, Z.land a 63 = a mod 64) as L6 by (intros; by apply (Z.land_ones a 6)).
  rewrite L8, !L6, !Z.shiftr_div_pow2 by lia. unfold place, dist, lev_slot, push_back.
  change (Z.shiftl 1 (8 + 6)) with (U 1). change (Z.shiftl 1 (8 + 2 * 6)) with (U 2).
  change (Z.shiftl 1 (8 + 3 * 6)) with (U 3). change (2 ^ 8) with (U 0).
  change (2 ^ (8 + 6)) with (U 1). change (2 ^ (8 + 2 * 6)) with (U 2).
  change (2 ^ (8 + 3 * 6)) with (U 3). by repeat case_match.
Qed.

(** The search of [timer_shift] ends within the four levels. *)
Lemma shift_loop_eq ct w :
  in_u 32 ct -> ct <> 0 ->
  shift_loop 5 ct TIME_NEAR (Z.shiftr ct TIME_NEAR_SHIFT) 0 w =
  match cascade ct with Some (i, j) => move_list i j w | None => (Ok tt, w) end.
Proof.
  intros Hct Hnz. unfold shift_loop, cascade.
  assert (forall a, Z.land a 63 = a mod 64) as L6 by (intros; by apply (Z.land_ones a 6)).
  rewrite !Z.shiftr_shiftr, !L6, !Z.shiftr_div_pow2 by lia.
  change (Z.land ct (256 - 1)) with (Z.land ct (Z.ones 8)).
  change (Z.land ct (Z.shiftl 256 6 - 1)) with (Z.land ct (Z.ones 14)).
  change (Z.land ct (Z.shiftl (Z.shiftl 256 6) 6 - 1)) with (Z.land ct (Z.ones 20)).
  change (Z.land ct (Z.shiftl (Z.shiftl (Z.shiftl 256 6) 6) 6 - 1)) with (Z.land ct (Z.ones 26)).
  change (Z.land ct (Z.shiftl (Z.shiftl (Z.shiftl (Z.shiftl 256 6) 6) 6) 6 - 1)) with (Z.land ct (Z.ones 32)).
  rewrite !Z.land_ones by lia.
  ticks. change (2 ^ 8) with 256. change (2 ^ (8 + 6)) with 16384. change (2 ^ 14) with 16384.
  change (2 ^ (8 + 6 + 6)) with 1048576. change (2 ^ 20) with 1048576.
  change (2 ^ (8 + 6 + 6 + 6)) with 67108864. change (2 ^ 26) with 67108864.
  repeat match goal with
  | |- context [?a =? 0] => destruct (Z.eqb_spec a 0); cbn [negb]; try (exfalso; zlia); try done
  end.
Qed.
End state.
