(* ===== verification/Agenda.v ===== *)
(** The timing wheel implements an agenda: the specification, the invariant of
    the wheel and the simulation between the two, tick by tick. *)
From stdpp Require Import gmap.
From S2P Require Import Prelude TimerWheel.

Section agenda.
Context {C : Type}.
Implicit Types (w : wheel C) (id : nat) (s : slot).

(** ** The specification: an agenda

    A set of pending timers, each due at one tick.  It has no levels; what it
    shares with the wheel is that some timers are lost when they are added. *)
Record agenda := mkAgenda {
  ag_heap : gmap nat (TimerW C);
  ag_next : nat;
  ag_time : Z;
  ag_pending : gset nat;
}.

(** A timer of [n] ticks set at tick [T] is lost when it is due in the first
    slot of a lower level that it does not fit in. *)
Definition lost (T n : Z) : bool :=
  existsb (fun i => (U i <=? n) && (n <? U (S i)) && ((u32 (T + n) / U i) mod 64 =? 0)) [0;1;2]%nat.

Definition schedule (n : Z) (func : C) (recurring : bool) (ag : agenda) : agenda :=
  mkAgenda (<[ag_next ag := mkTimerW recurring (u32 (ag_time ag + n)) func false n]> (ag_heap ag))
    (S (ag_next ag)) (ag_time ag)
    (if lost (ag_time ag) n then ag_pending ag else {[ag_next ag]} ∪ ag_pending ag).

(** One due timer: it leaves the agenda; unless it was cancelled its callback
    runs and a recurring one is set again. *)
Definition fire_one (id : nat) (ag : agenda) : list C * agenda :=
  match ag_heap ag !! id with
  | None => ([], ag)
  | Some tm =>
    let ag1 := mkAgenda (ag_heap ag) (ag_next ag) (ag_time ag) (ag_pending ag ∖ {[id]}) in
    if _cancel tm then ([], ag1)
    else ([_callback tm],
          if _recurring tm then schedule (_sub_time tm) (_callback tm) true ag1 else ag1)
  end.

Fixpoint fire (due : list nat) (ag : agenda) : list C * agenda :=
  match due with
  | [] => ([], ag)
  | id :: due =>
    let '(cs, ag1) := fire_one id ag in
    let '(cs', ag2) := fire due ag1 in (cs ++ cs', ag2)
  end.

Definition ag_tick (ag : agenda) : agenda :=
  mkAgenda (ag_heap ag) (ag_next ag) (u32 (ag_time ag + 1)) (ag_pending ag).

Definition is_due (ag : agenda) (id : nat) : Prop :=
  id ∈ ag_pending ag /\ exists tm, ag_heap ag !! id = Some tm /\ _expire tm = ag_time ag.

(** A tick fires, in some order, exactly the timers that are due at it. *)
Definition tick_spec (ag : agenda) (tasks : list C) (ag' : agenda) : Prop :=
  exists due, NoDup due /\ (forall id, id ∈ due <-> is_due (ag_tick ag) id) /\
    fire due (ag_tick ag) = (tasks, ag').

(** ** Invariant *)
Record inv (kn kl : Z) w : Prop := {
  inv_shape : shape w;
  inv_time : in_u 32 (_time w);
  inv_heap : forall id tm, heap w !! id = Some tm ->
    (id < next_id w)%nat /\ in_u 32 (_expire tm) /\ 1 <= _sub_time tm <= 214748364;
  inv_slot : forall s id, id ∈ at_slot w s ->
    exists tm, heap w !! id = Some tm /\ (stuck s \/ ok_slot kn kl (_time w) s (_expire tm));
  inv_uniq : forall s s' id, id ∈ at_slot w s -> id ∈ at_slot w s' -> s = s';
  inv_nodup : forall s, NoDup (at_slot w s);
}.

Definition live w id : Prop := exists s, ~ stuck s /\ id ∈ at_slot w s.

Record refines w (ag : agenda) : Prop := {
  ref_heap : ag_heap ag = heap w;
  ref_next : ag_next ag = next_id w;
  ref_time : ag_time ag = _time w;
  ref_pending : forall id, id ∈ ag_pending ag <-> live w id;
}.

Lemma inv_fresh kn kl w s : inv kn kl w -> next_id w ∉ at_slot w s.
Proof.
  intros Hw Hin. destruct (inv_slot _ _ _ Hw _ _ Hin) as (tm & Htm & _).
  apply (inv_heap _ _ _ Hw) in Htm. lia.
Qed.

Lemma lost_place T n :
  in_u 32 n -> lost T n = bool_decide (stuck (place T (u32 (T + n)))).
Proof.
  intros Hn. pose proof (dist_add T n Hn) as Hd. set (e := u32 (T + n)) in *. unfold lost. fold e.
  destruct (place_cases T e) as [[-> Hs]|(k & Hk & -> & Hr)]; rewrite Hd in *.
  - rewrite bool_decide_false by tauto. cbn. rewrite !(proj2 (Z.leb_gt _ n)) by (ticks; lia). done.
  - destruct (decide ((e / U k) mod 64 = 0)) as [Hz|Hz].
    + assert (stuck (lev_slot k e) <-> (k < 3)%nat) as Hst by (unfold lev_slot; by rewrite Hz).
      rewrite (bool_decide_ext _ _ Hst).
      by_level k Hk; first [rewrite bool_decide_true by lia|rewrite bool_decide_false by lia];
        cbn [existsb]; ticks; destruct Hr; z_cases; done || lia.
    + rewrite bool_decide_false by by apply lev_not_stuck.
      by_level k Hk; cbn [existsb]; ticks; destruct Hr; z_cases; done || lia.
Qed.

(** *** Setting a timer *)
Definition grow w (n : Z) (func : C) (recurring : bool) : wheel C :=
  mkWheel (<[next_id w := mkTimerW recurring (u32 (_time w + n)) func false n]> (heap w))
    (S (next_id w)) (_near w) (_t w) (_time w) (_current w) (_current_point w).

(** The wheel after [make_timer] and [add_node]. *)
Definition grown w (n : Z) (func : C) (recurring : bool) : wheel C :=
  upd (place (_time w) (u32 (_time w + n))) (fun l => l ++ [next_id w]) (grow w n func recurring).

Definition interval (n : Z) : Prop := 1 <= n <= 214748364.

Lemma make_timer_eq w n func recurring :
  interval n -> make_timer (_time w + n) n func recurring w = (Ok (next_id w), grow w n func recurring).
Proof.
  intros Hn. unfold interval in Hn. unfold make_timer, mbind, M_bind, grow. cbn.
  by rewrite (uwrap_id 32 n) by (unfold in_u; lia).
Qed.

Lemma add_grown w n func recurring :
  add_node (next_id w) (grow w n func recurring) = (Ok tt, grown w n func recurring).
Proof. erewrite add_node_eq by apply lookup_insert_eq. done. Qed.

Lemma grown_heap w n func recurring : heap (grown w n func recurring) =
  <[next_id w := mkTimerW recurring (u32 (_time w + n)) func false n]> (heap w).
Proof. unfold grown. by rewrite upd_heap. Qed.
Lemma grown_time w n func recurring : _time (grown w n func recurring) = _time w.
Proof. unfold grown. by rewrite upd_time. Qed.
Lemma grown_next w n func recurring : next_id (grown w n func recurring) = S (next_id w).
Proof. unfold grown. by rewrite upd_next. Qed.

Lemma at_slot_grown w n func recurring s :
  shape w -> at_slot (grown w n func recurring) s =
    if decide (s = place (_time w) (u32 (_time w + n))) then at_slot w s ++ [next_id w] else at_slot w s.
Proof.
  intros Hs. unfold grown. rewrite at_slot_upd; [|done|apply place_in_shape, uwrap_range; lia].
  case_decide; [by subst|done].
Qed.

Lemma elem_at_grown w n func recurring s id :
  shape w -> id ∈ at_slot (grown w n func recurring) s <->
    id ∈ at_slot w s \/ s = place (_time w) (u32 (_time w + n)) /\ id = next_id w.
Proof.
  intros Hs. rewrite at_slot_grown by done. case_decide; [|naive_solver].
  rewrite elem_of_app, list_elem_of_singleton. naive_solver.
Qed.

Lemma grown_inv kn w n func recurring :
  inv kn 1 w -> kn <= 1 -> interval n -> inv kn 1 (grown w n func recurring).
Proof.
  intros Hw Hkn Hn. pose proof (inv_shape _ _ _ Hw) as Hs. pose proof (fun s => inv_fresh _ _ w s Hw) as Hfr.
  assert (in_u 32 n) as Hn32 by (unfold in_u, interval in *; lia).
  split.
  - by apply shape_upd.
  - rewrite grown_time. apply Hw.
  - rewrite grown_heap, grown_next. intros id tm.
    destruct (decide (id = next_id w)) as [->|].
    + rewrite lookup_insert_eq. intros [= <-]. split; [lia|]. split; [apply uwrap_range; lia|apply Hn].
    + rewrite lookup_insert_ne by done. intros (?&?&?)%(inv_heap _ _ _ Hw). split; [lia|done].
  - intros s id. rewrite elem_at_grown by done. rewrite grown_heap, grown_time.
    intros [Hin|[-> ->]].
    + pose proof (inv_slot _ _ _ Hw _ _ Hin) as (tm & Htm & Hok). exists tm.
      split; [|done]. rewrite lookup_insert_ne; [done|]. intros <-. by apply (Hfr s).
    + eexists. split; [apply lookup_insert_eq|]. right. cbn. apply place_ok.
      rewrite dist_add by done. unfold interval in Hn. lia.
  - intros s s' id. rewrite !elem_at_grown by done.
    intros [Hin|[? ?]] [Hin'|[? ?]]; subst;
      [by eapply inv_uniq|by apply Hfr in Hin|by apply Hfr in Hin'|done].
  - intros s. rewrite at_slot_grown by done. pose proof (inv_nodup _ _ _ Hw s).
    case_decide; [|done]. apply list.NoDup_app. split_and!; [done| |apply list.NoDup_singleton].
    intros id Hin Hid%list_elem_of_singleton. subst id. by apply (Hfr s).
Qed.

Lemma grown_refines kn kl w ag n func recurring :
  inv kn kl w -> interval n -> refines w ag ->
  refines (grown w n func recurring) (schedule n func recurring ag).
Proof.
  intros Hw Hn [Hh Hx Ht Hp]. pose proof (inv_shape _ _ _ Hw) as Hs.
  assert (in_u 32 n) as Hn32 by (unfold in_u, interval in *; lia).
  unfold schedule. split; cbn [ag_heap ag_next ag_time ag_pending]; rewrite ?Hh, ?Hx, ?Ht, ?grown_heap, ?grown_next, ?grown_time; try done.
  intros id. rewrite lost_place by done.
  unfold live. setoid_rewrite elem_at_grown; [|done].
  case_bool_decide as Hst.
  - rewrite Hp. unfold live. naive_solver.
  - rewrite elem_of_union, elem_of_singleton, Hp. unfold live. naive_solver.
Qed.

(** *** Taking timers out *)
Lemma remove_inv kn kl w s f :
  inv kn kl w -> in_shape s -> sublist (f (at_slot w s)) (at_slot w s) -> inv kn kl (upd s f w).
Proof.
  intros Hw Hs Hf. pose proof (inv_shape _ _ _ Hw) as Hsh.
  assert (forall s' id, id ∈ at_slot (upd s f w) s' -> id ∈ at_slot w s') as Hsub.
  { intros s' id. rewrite at_slot_upd by done. case_decide as Heq; [subst|done].
    intros Hin. by eapply elem_of_submseteq, sublist_submseteq. }
  split; rewrite ?upd_heap, ?upd_next, ?upd_time; try apply Hw.
  - by apply shape_upd.
  - intros s' id Hin%Hsub. by apply (inv_slot _ _ _ Hw).
  - intros s1 s2 id H1%Hsub H2%Hsub. by apply (inv_uniq _ _ _ Hw s1 s2 id).
  - intros s'. rewrite at_slot_upd by done. pose proof (inv_nodup _ _ _ Hw).
    case_decide as Heq; [subst|done]. by eapply sublist_NoDup.
Qed.

Lemma elem_head_removed kn kl w s id l id' s' :
  inv kn kl w -> in_shape s -> at_slot w s = id :: l ->
  id' ∈ at_slot (upd s tail w) s' <-> id' ∈ at_slot w s' /\ id' <> id.
Proof.
  intros Hw Hs Hl. rewrite at_slot_upd by (apply Hw || done).
  pose proof (inv_nodup _ _ _ Hw s) as Hnd. rewrite Hl in Hnd. apply list.NoDup_cons in Hnd as [Hnid _].
  case_decide as Heq; [subst s'|].
  - rewrite Hl. cbn. rewrite elem_of_cons. split; [intros Hin|naive_solver].
    split; [by right|]. by intros ->.
  - split; [|tauto]. intros Hin. split; [done|]. intros ->. apply Heq.
    apply (inv_uniq _ _ _ Hw s' s id Hin). rewrite Hl. by left.
Qed.

Lemma refines_ext w ag1 ag2 :
  refines w ag1 -> ag_heap ag1 = ag_heap ag2 -> ag_next ag1 = ag_next ag2 ->
  ag_time ag1 = ag_time ag2 -> (forall id, id ∈ ag_pending ag2 <-> id ∈ ag_pending ag1) ->
  refines w ag2.
Proof.
  intros [Hh Hn Ht Hp] Eh En Et Ep. split; [congruence..|]. intros id. by rewrite Ep.
Qed.

Definition ag_drop (id : nat) (ag : agenda) : agenda :=
  mkAgenda (ag_heap ag) (ag_next ag) (ag_time ag) (ag_pending ag ∖ {[id]}).

Lemma head_removed_refines kn kl w s id l ag :
  inv kn kl w -> in_shape s -> at_slot w s = id :: l -> refines w ag ->
  refines (upd s tail w) (ag_drop id ag).
Proof.
  intros Hw Hs Hl [Hh Hn Ht Hp]. split; rewrite ?upd_heap, ?upd_next, ?upd_time; try done.
  intros id'. cbn. rewrite elem_of_difference, elem_of_singleton, Hp. unfold live.
  setoid_rewrite (elem_head_removed _ _ _ _ _ _ id' _ Hw Hs Hl). naive_solver.
Qed.

(** Nothing that a tick does takes a timer out of a stuck slot. *)
Definition keeps_stuck w w' : Prop :=
  forall s id, stuck s -> id ∈ at_slot w s -> id ∈ at_slot w' s.

#[export] Instance keeps_stuck_preorder : PreOrder keeps_stuck.
Proof. split; [by intros w s id|]. intros w1 w2 w3 H1 H2 s id Hs Hin. by apply H2, H1. Qed.

Lemma grown_keeps w n func recurring : shape w -> keeps_stuck w (grown w n func recurring).
Proof. intros Hw s id _ Hin. rewrite elem_at_grown by done. by left. Qed.

Lemma upd_keeps w s f : shape w -> in_shape s -> ~ stuck s -> keeps_stuck w (upd s f w).
Proof.
  intros Hw Hs Hns s' id Hst Hin. rewrite at_slot_upd by done. rewrite decide_False; [done|]. by intros ->.
Qed.

(** *** [timer_execute] *)

(** The list of the current tick. *)
Definition now w : slot := Near (Z.to_nat (_time w mod 256)).

Lemma now_in_shape w : in_shape (now w).
Proof. cbn. pose proof (Z.mod_pos_bound (_time w) 256). lia. Qed.

Lemma place_not_now w n : interval n -> place (_time w) (u32 (_time w + n)) <> now w.
Proof.
  intros Hn. unfold interval in Hn. pose proof (dist_add (_time w) n ltac:(unfold in_u; lia)) as Hd.
  destruct (place_cases (_time w) (u32 (_time w + n))) as [[-> Hlt]|(k & _ & -> & _)]; [|done].
  rewrite Hd in Hlt. unfold now. intros [= Heq]. ticks. zlia.
Qed.

Lemma execute_step kn w ag id l fuel tasks :
  inv kn 1 w -> kn <= 1 -> refines w ag -> at_slot w (now w) = id :: l ->
  exists w', execute_loop (S fuel) (Z.to_nat (_time w mod 256)) tasks w =
      execute_loop fuel (Z.to_nat (_time w' mod 256)) (tasks ++ fst (fire_one id ag)) w' /\
    inv kn 1 w' /\ refines w' (snd (fire_one id ag)) /\ _time w' = _time w /\
    at_slot w' (now w') = l /\ keeps_stuck w w'.
Proof.
  intros Hw Hkn Hr Hl. pose proof (now_in_shape w) as Hs.
  destruct (inv_slot _ _ _ Hw (now w) id) as (tm & Htm & _); [rewrite Hl; by left|].
  destruct (inv_heap _ _ _ Hw _ _ Htm) as (Hid & _ & Hsub). fold (interval (_sub_time tm)) in Hsub.
  set (w1 := if _cancel tm then w else
             if _recurring tm then grown w (_sub_time tm) (_callback tm) true else w).
  assert (inv kn 1 w1) as Hw1.
  { subst w1. destruct (_cancel tm); [done|]. destruct (_recurring tm); [|done]. by apply grown_inv. }
  assert (_time w1 = _time w) as Ht1.
  { subst w1. by repeat case_match; rewrite ?grown_time. }
  assert (at_slot w1 (now w) = id :: l) as Hl1.
  { subst w1. repeat case_match; try done. rewrite at_slot_grown, decide_False; [done| |apply Hw].
    by apply not_eq_sym, place_not_now. }
  exists (upd (now w) tail w1). split_and!.
  - cbn [execute_loop]. rewrite (bind_ok _ _ _ _ _ (eq_refl : get w = (Ok w, w))).
    fold (now w). rewrite Hl, (bind_ok _ _ _ _ _ (deref_timer_ok _ _ _ Htm)).
    rewrite upd_time, Ht1. unfold fire_one. rewrite (ref_heap _ _ Hr), Htm.
    assert (((if _cancel tm then mret tt else if _recurring tm then
      recu_timer ← make_timer (_time w + _sub_time tm) (_sub_time tm) (_callback tm) true; add_node recu_timer
      else mret tt) : M (wheel C) unit) w = (Ok tt, w1)) as E.
    { subst w1. destruct (_cancel tm); [done|]. destruct (_recurring tm); [|done].
      rewrite (bind_ok _ _ _ _ _ (make_timer_eq _ _ _ _ Hsub)). apply add_grown. }
    rewrite (bind_ok _ _ _ _ _ E).
    rewrite (bind_ok _ _ _ _ _ (eq_refl : modify (upd (now w) tail) w1 = (Ok tt, upd (now w) tail w1))).
    destruct (_cancel tm); cbn [fst]; [by rewrite app_nil_r|done].
  - apply remove_inv; [done|done|]. rewrite Hl1. by apply sublist_cons.
  - subst w1. unfold fire_one. rewrite (ref_heap _ _ Hr), Htm.
    rewrite <- (ref_heap _ _ Hr). fold (ag_drop id ag).
    destruct (_cancel tm); [by eapply head_removed_refines|].
    destruct (_recurring tm); cbn [snd]; [|by eapply head_removed_refines].
    eapply refines_ext; [eapply head_removed_refines; [done..|eapply grown_refines; done]|done..|].
    intros id'. cbn. rewrite (ref_next _ _ Hr). case_match; set_solver by lia.
  - by rewrite upd_time.
  - assert (now (upd (now w) tail w1) = now w) as -> by (unfold now; by rewrite upd_time, Ht1).
    rewrite at_slot_upd by (apply Hw1 || done). by rewrite decide_True, Hl1.
  - transitivity w1; [|by apply upd_keeps; [apply Hw1| |intros []]].
    subst w1. repeat case_match; try done. by apply grown_keeps, Hw.
Qed.

Lemma execute_loop_ok l : forall fuel kn w ag tasks,
  inv kn 1 w -> kn <= 1 -> refines w ag -> at_slot w (now w) = l -> (length l < fuel)%nat ->
  exists w', execute_loop fuel (Z.to_nat (_time w mod 256)) tasks w = (Ok (tasks ++ fst (fire l ag)), w') /\
    inv kn 1 w' /\ refines w' (snd (fire l ag)) /\ _time w' = _time w /\
    at_slot w' (now w') = [] /\ keeps_stuck w w'.
Proof.
  induction l as [|id l IH]; intros [|fuel] kn w ag tasks Hw Hkn Hr Hl Hf; try (cbn in Hf; lia).
  - exists w. split_and!; try done. cbn [execute_loop].
    rewrite (bind_ok _ _ _ _ _ (eq_refl : get w = (Ok w, w))). fold (now w). rewrite Hl.
    cbn. by rewrite app_nil_r.
  - destruct (execute_step kn w ag id l fuel tasks Hw Hkn Hr Hl) as (w1 & E & Hw1 & Hr1 & Ht1 & Hl1 & Hk1).
    destruct (IH fuel kn w1 (snd (fire_one id ag)) (tasks ++ fst (fire_one id ag)) Hw1 Hkn Hr1 Hl1)
      as (w2 & E2 & Hw2 & Hr2 & Ht2 & Hl2 & Hk2); [cbn in Hf; lia|].
    exists w2. rewrite E, E2. cbn [fire]. destruct (fire_one id ag) as [cs ag1]. cbn [fst snd] in *.
    destruct (fire l ag1) as [cs' ag2]. cbn [fst snd] in *. rewrite app_assoc.
    split_and!; try done; [congruence|by transitivity w1].
Qed.

Lemma execute_ok kn w ag tasks :
  inv kn 1 w -> kn <= 1 -> refines w ag ->
  exists w', timer_execute tasks w = (Ok (tasks ++ fst (fire (at_slot w (now w)) ag)), w') /\
    inv kn 1 w' /\ refines w' (snd (fire (at_slot w (now w)) ag)) /\ _time w' = _time w /\
    at_slot w' (now w') = [] /\ keeps_stuck w w'.
Proof.
  intros Hw Hkn Hr. unfold timer_execute. rewrite (bind_ok _ _ _ _ _ (eq_refl : get w = (Ok w, w))).
  assert (Z.land (_time w) 255 = _time w mod 256) as -> by (by apply (Z.land_ones _ 8)).
  fold (now w). apply execute_loop_ok; try done. lia.
Qed.

(** Between ticks the list of the current tick is empty. *)
Lemma now_empty w : inv 1 1 w -> at_slot w (now w) = [].
Proof.
  intros Hw. destruct (at_slot w (now w)) as [|id l] eqn:Hl; [done|].
  destruct (inv_slot _ _ _ Hw (now w) id) as (tm & Htm & [[]|[Hj Hd]]); [rewrite Hl; by left|].
  destruct (inv_heap _ _ _ Hw _ _ Htm) as (_ & He & _). pose proof (inv_time _ _ _ Hw).
  exfalso. ticks. zlia.
Qed.

(** Once that list is done, everything left waits for a later tick. *)
Lemma inv_settle w : inv 0 1 w -> at_slot w (now w) = [] -> inv 1 1 w.
Proof.
  intros Hw Hnow. split; try apply Hw. intros s id Hin.
  destruct (inv_slot _ _ _ Hw s id Hin) as (tm & Htm & Hok). exists tm. split; [done|].
  destruct Hok as [|Hok]; [by left|right]. destruct s as [j|i j]; [|done].
  destruct Hok as [-> Hd]. split; [done|].
  destruct (inv_heap _ _ _ Hw _ _ Htm) as (_ & He & _). pose proof (inv_time _ _ _ Hw).
  destruct (decide (dist (_time w) (_expire tm) = 0)) as [Hz|]; [|lia].
  exfalso. assert (_expire tm mod 256 = _time w mod 256) as Heq by (ticks; zlia).
  rewrite Heq in Hin. fold (now w) in Hin. rewrite Hnow in Hin. by apply not_elem_of_nil in Hin.
Qed.

(** *** [move_list] *)

Definition target w id : slot :=
  match heap w !! id with Some tm => place (_time w) (_expire tm) | None => Near 0 end.

Fixpoint pushes (l : list nat) w : wheel C :=
  match l with
  | [] => w
  | id :: l => pushes l (upd (target w id) (fun l => l ++ [id]) w)
  end.

Lemma pushes_fields l : forall w,
  heap (pushes l w) = heap w /\ next_id (pushes l w) = next_id w /\ _time (pushes l w) = _time w.
Proof.
  induction l as [|id l IH]; intros w; [done|]. cbn.
  destruct (IH (upd (target w id) (fun l => l ++ [id]) w)) as (-> & -> & ->).
  by rewrite upd_heap, upd_next, upd_time.
Qed.

Lemma shape_pushes l : forall w, shape w -> shape (pushes l w).
Proof. induction l; intros w Hw; [done|]. cbn. by apply IHl, shape_upd. Qed.

Lemma target_upd w s f id : target (upd s f w) id = target w id.
Proof. unfold target. by rewrite upd_heap, upd_time. Qed.

Lemma at_slot_pushes l : forall w s,
  shape w -> Forall (fun id => in_shape (target w id)) l ->
  at_slot (pushes l w) s = at_slot w s ++ filter (fun id => target w id = s) l.
Proof.
  induction l as [|id l IH]; intros w s Hw Hl; [by rewrite app_nil_r|].
  apply Forall_cons_1 in Hl as [Hid Hl]. cbn [pushes].
  rewrite IH; [|by apply shape_upd|].
  - rewrite at_slot_upd by done. rewrite filter_cons.
    rewrite (list_filter_iff _ (fun id0 => target w id0 = s)) by (intros; by rewrite target_upd).
    destruct (decide (s = target w id)) as [->|].
    + by rewrite decide_True, <- app_assoc.
    + by rewrite decide_False by congruence.
  - eapply Forall_impl; [|done]. intros x. cbn. by rewrite target_upd.
Qed.

Lemma move_loop_ok s l : forall fuel k w,
  shape w -> at_slot w s = l -> in_shape s ->
  Forall (fun id => is_Some (heap w !! id) /\ in_shape (target w id) /\ target w id <> s) l ->
  (length l - k < fuel)%nat -> move_loop fuel s k w = (Ok tt, pushes (drop k l) w).
Proof.
  induction fuel as [|fuel IH]; intros k w Hw Hl Hs Hall Hf; [lia|]. cbn [move_loop].
  rewrite (bind_ok _ _ _ _ _ (eq_refl : get w = (Ok w, w))), Hl.
  destruct (l !! k) as [id|] eqn:Hk.
  - pose proof (Forall_lookup_1 _ _ _ _ Hall Hk) as ([tm Htm] & Hin & Hne).
    rewrite (drop_S _ _ _ Hk). cbn [pushes]. apply lookup_lt_Some in Hk.
    rewrite (bind_ok _ _ _ _ _ (add_node_eq _ _ _ Htm)).
    assert (place (_time w) (_expire tm) = target w id) as -> by (unfold target; by rewrite Htm).
    apply IH; [by apply shape_upd| |done| |lia].
    + by rewrite at_slot_upd, decide_False by (congruence || done).
    + eapply Forall_impl; [|done]. intros x. cbn. by rewrite upd_heap, target_upd.
  - apply lookup_ge_None in Hk. by rewrite drop_ge.
Qed.

Definition cascaded (i j : nat) w : wheel C :=
  upd (Lev i j) (fun _ => []) (pushes (at_slot w (Lev i j)) w).

Section cascaded.
Context (w : wheel C) (i j : nat).
Hypothesis Hw : inv 0 0 w.
Hypothesis Hc : cascade (_time w) = Some (i, j).
Let l := at_slot w (Lev i j).
Let Hlev := cascade_level _ _ _ (inv_time _ _ _ Hw) Hc.

(** Where the members of the moved list go. *)
Lemma cascaded_target id :
  id ∈ l -> is_Some (heap w !! id) /\ in_shape (target w id) /\ target w id <> Lev i j /\
    ~ stuck (target w id) /\ exists tm, heap w !! id = Some tm /\
    ok_slot 0 1 (_time w) (target w id) (_expire tm).
Proof.
  intros Hin. destruct Hlev as (Hi & _ & _ & Hst).
  destruct (inv_slot _ _ _ Hw _ _ Hin) as (tm & Htm & [?|Hok]); [done|].
  destruct (inv_heap _ _ _ Hw _ _ Htm) as (_ & He & _). pose proof (inv_time _ _ _ Hw) as Ht.
  pose proof (cascade_all _ _ _ _ Ht He Hc Hok) as Hd.
  destruct (cascade_place _ _ _ Hi He Hd) as [Hns Hne].
  unfold target. rewrite Htm. split_and!; [done|by apply place_in_shape|apply Hne|done|].
  exists tm. split; [done|]. apply place_ok. apply dist_range.
Qed.

Lemma cascaded_in_shape : in_shape (Lev i j).
Proof.
  destruct Hlev as (Hi & _ & -> & _). split; [done|].
  pose proof (Z.mod_pos_bound (_time w / U i) 64). lia.
Qed.

Lemma at_slot_cascaded s :
  at_slot (cascaded i j w) s =
    if decide (s = Lev i j) then [] else at_slot w s ++ filter (fun id => target w id = s) l.
Proof.
  assert (Forall (fun id => in_shape (target w id)) l) as Hall
    by (apply list.Forall_forall; intros id Hin; by apply cascaded_target).
  unfold cascaded. rewrite at_slot_upd; [|apply shape_pushes, Hw|apply cascaded_in_shape].
  case_decide; [done|]. by apply at_slot_pushes; [apply Hw|].
Qed.

Lemma elem_at_cascaded s id :
  id ∈ at_slot (cascaded i j w) s <->
    s <> Lev i j /\ (id ∈ at_slot w s \/ target w id = s /\ id ∈ l).
Proof.
  rewrite at_slot_cascaded. case_decide.
  - split; [by intros ?%not_elem_of_nil|tauto].
  - rewrite elem_of_app, list_elem_of_filter. tauto.
Qed.

Lemma move_list_ok : move_list i j w = (Ok tt, cascaded i j w).
Proof.
  unfold move_list. rewrite (bind_ok _ _ _ _ _ (eq_refl : get w = (Ok w, w))).
  erewrite bind_ok; [|apply (move_loop_ok (Lev i j) l _ 0 w); [apply Hw|done|apply cascaded_in_shape| |]].
  - done.
  - apply list.Forall_forall. intros id Hin. destruct (cascaded_target id Hin) as (?&?&?&_). done.
  - fold l. lia.
Qed.

(** What was not moved waits at a later boundary. *)
Lemma uncascaded_ok s id tm :
  id ∈ at_slot w s -> heap w !! id = Some tm -> s <> Lev i j ->
  stuck s \/ ok_slot 0 0 (_time w) s (_expire tm) ->
  stuck s \/ ok_slot 0 1 (_time w) s (_expire tm).
Proof.
  intros Hin Htm Hne [|Hok]; [by left|]. destruct s as [j'|i' j']; [by right|].
  destruct (decide (stuck (Lev i' j'))) as [|Hns]; [by left|right].
  destruct (inv_heap _ _ _ Hw _ _ Htm) as (_ & He & _). destruct Hok as (Hi & Hs & Hd).
  split_and!; [done|done| |lia].
  destruct (decide (dist (_time w) (_expire tm) = _expire tm mod U i')) as [Heq|]; [|lia].
  rewrite Hs in Hns. pose proof (cascade_hits _ _ _ Hi (inv_time _ _ _ Hw) He Heq Hns) as Hc'.
  exfalso. apply Hne. rewrite Hs. unfold lev_slot. congruence.
Qed.

Lemma cascaded_fields :
  heap (cascaded i j w) = heap w /\ next_id (cascaded i j w) = next_id w /\
  _time (cascaded i j w) = _time w.
Proof.
  destruct (pushes_fields l w) as (Eh & En & Et). unfold cascaded.
  by rewrite upd_heap, upd_next, upd_time.
Qed.

Lemma cascaded_inv : inv 0 1 (cascaded i j w).
Proof.
  destruct cascaded_fields as (Eh & En & Et). pose proof (inv_uniq _ _ _ Hw) as Hu.
  split; rewrite ?Eh, ?En, ?Et; try apply Hw.
  - apply shape_upd, shape_pushes, Hw.
  - intros s id (Hne & [Hin|[<- Hin]])%elem_at_cascaded.
    + destruct (inv_slot _ _ _ Hw _ _ Hin) as (tm & Htm & Hok). exists tm. split; [done|].
      by eapply uncascaded_ok.
    + destruct (cascaded_target id Hin) as (_ & _ & _ & _ & tm & Htm & Hok). exists tm. auto.
  - intros s s' id (Hne & Hin)%elem_at_cascaded (Hne' & Hin')%elem_at_cascaded.
    destruct Hin as [Hin|[<- Hin]], Hin' as [Hin'|[<- Hin']]; [by eapply Hu| | |done];
      exfalso; naive_solver.
  - intros s. rewrite at_slot_cascaded. case_decide; [constructor|].
    apply list.NoDup_app. split_and!; [apply Hw| |apply list.NoDup_filter, Hw].
    intros id Hin [_ Hin']%list_elem_of_filter. naive_solver.
Qed.

Lemma cascaded_keeps : keeps_stuck w (cascaded i j w).
Proof.
  intros s id Hs Hin. apply elem_at_cascaded. split; [|by left].
  intros ->. by destruct Hlev as (_ & _ & _ & ?).
Qed.

Lemma cascaded_refines ag : refines w ag -> refines (cascaded i j w) ag.
Proof.
  intros [Hh Hn Ht Hp]. destruct cascaded_fields as (Eh & En & Et).
  split; try congruence. intros id. rewrite Hp. unfold live. setoid_rewrite elem_at_cascaded.
  destruct Hlev as (_ & _ & _ & Hst). split.
  - intros (s & Hs & Hin). destruct (decide (s = Lev i j)) as [->|]; [|by exists s; auto].
    destruct (cascaded_target id Hin) as (_ & _ & ? & ? & _). exists (target w id). auto.
  - intros (s & Hs & _ & [Hin|[_ Hin]]); [by exists s|by exists (Lev i j)].
Qed.
End cascaded.

(** *** A tick *)

Lemma set_time_inv w : inv 1 1 w -> inv 0 0 (set_time (u32 (_time w + 1)) w).
Proof.
  intros Hw. split; cbn [_time heap next_id set_time]; try apply Hw.
  - apply uwrap_range. lia.
  - intros s id Hin. destruct (inv_slot _ _ _ Hw s id Hin) as (tm & Htm & Hok). exists tm.
    split; [done|]. destruct Hok; [by left|right]. by apply ok_tick.
Qed.

Lemma uncascaded_inv w : inv 0 0 w -> cascade (_time w) = None -> inv 0 1 w.
Proof.
  intros Hw Hc. split; try apply Hw. intros s id Hin.
  destruct (inv_slot _ _ _ Hw s id Hin) as (tm & Htm & Hok). exists tm. split; [done|].
  destruct Hok as [|Hok]; [by left|]. destruct s as [j'|i' j']; [by right|].
  destruct (decide (stuck (Lev i' j'))) as [|Hns]; [by left|right].
  destruct (inv_heap _ _ _ Hw _ _ Htm) as (_ & He & _). destruct Hok as (Hi & Hs & Hd).
  split_and!; [done|done| |lia].
  destruct (decide (dist (_time w) (_expire tm) = _expire tm mod U i')) as [Heq|]; [|lia].
  rewrite Hs in Hns. by rewrite (cascade_hits _ _ _ Hi (inv_time _ _ _ Hw) He Heq Hns) in Hc.
Qed.

Lemma timer_shift_ok w ag :
  inv 1 1 w -> refines w ag ->
  exists w', timer_shift w = (Ok tt, w') /\ inv 0 1 w' /\ refines w' (ag_tick ag) /\
    _time w' = u32 (_time w + 1) /\ keeps_stuck w w'.
Proof.
  intros Hw [Hh Hn Ht Hp]. set (ct := u32 (_time w + 1)). set (w1 := set_time ct w).
  assert (inv 0 0 w1) as Hw1 by by apply set_time_inv.
  assert (refines w1 (ag_tick ag)) as Hr1 by (split; cbn; subst ct; congruence || done).
  assert (timer_shift w = match cascade ct with Some (i, j) => move_list i j w1 | None => (Ok tt, w1) end) as E.
  { unfold timer_shift. rewrite (bind_ok _ _ _ _ _ (eq_refl : get w = (Ok w, w))). fold ct.
    rewrite (bind_ok _ _ _ _ _ (eq_refl : put (set_time ct w) w = (Ok tt, w1))).
    destruct (Z.eqb_spec ct 0) as [->|]; [done|]. apply shift_loop_eq; [|done]. apply uwrap_range. lia. }
  change ct with (_time w1) in E. destruct (cascade (_time w1)) as [[i j]|] eqn:Hc.
  - rewrite (move_list_ok w1 i j Hw1 Hc) in E. exists (cascaded i j w1).
    split_and!; [done|by apply cascaded_inv|by apply cascaded_refines| |by apply (cascaded_keeps w1 i j Hw1 Hc)].
    unfold cascaded. rewrite upd_time. by destruct (pushes_fields (at_slot w1 (Lev i j)) w1) as (_ & _ & ->).
  - exists w1. split_and!; [done|by apply uncascaded_inv|done|done|by intros s id].
Qed.

(** The members of the current list are exactly the due timers. *)
Lemma now_due w ag id : inv 0 1 w -> refines w ag -> id ∈ at_slot w (now w) <-> is_due ag id.
Proof.
  intros Hw Hr. unfold is_due. rewrite (ref_pending _ _ Hr), (ref_heap _ _ Hr), (ref_time _ _ Hr).
  pose proof (inv_time _ _ _ Hw) as Ht. split.
  - intros Hin. split; [by exists (now w); split; [intros []|]|].
    destruct (inv_slot _ _ _ Hw _ _ Hin) as (tm & Htm & [[]|[Hj Hd]]). exists tm. split; [done|].
    destruct (inv_heap _ _ _ Hw _ _ Htm) as (_ & He & _). ticks. zlia.
  - intros ((s & Hs & Hin) & tm & Htm & Heq).
    destruct (inv_slot _ _ _ Hw _ _ Hin) as (tm' & Htm' & [?|Hok]); [done|].
    assert (tm' = tm) as -> by congruence. assert (dist (_time w) (_expire tm) = 0) as Hd.
    { rewrite Heq. unfold dist. by rewrite Z.sub_diag. }
    destruct s as [j|i j]; cbn in Hok.
    + destruct Hok as [-> _]. rewrite Heq in Hin. done.
    + pose proof (Z.mod_pos_bound (_expire tm) (U i) (U_pos i)). lia.
Qed.

Lemma tick_sim w ag :
  inv 1 1 w -> refines w ag ->
  exists tasks w' ag', timer_update w = (Ok tasks, w') /\ tick_spec ag tasks ag' /\
    inv 1 1 w' /\ refines w' ag' /\ _time w' = u32 (_time w + 1) /\ keeps_stuck w w'.
Proof.
  intros Hw Hr. unfold timer_update.
  destruct (execute_ok 1 w ag [] Hw ltac:(lia) Hr) as (w1 & E1 & Hw1 & Hr1 & Ht1 & _ & Hk1).
  rewrite now_empty in E1, Hr1 by done. cbn [fire fst snd app] in E1, Hr1.
  destruct (timer_shift_ok w1 ag Hw1 Hr1) as (w2 & E2 & Hw2 & Hr2 & Ht2 & Hk2).
  destruct (execute_ok 0 w2 (ag_tick ag) [] Hw2 ltac:(lia) Hr2) as (w3 & E3 & Hw3 & Hr3 & Ht3 & Hl3 & Hk3).
  rewrite (bind_ok _ _ _ _ _ E1), (bind_ok _ _ _ _ _ E2), E3.
  eexists _, w3, _. split; [done|]. split_and!; [|by apply inv_settle|exact Hr3|congruence|by rewrite Hk1, Hk2].
  exists (at_slot w2 (now w2)). split_and!; [apply Hw2| |by destruct (fire _ _)].
  intros id. by apply now_due.
Qed.
End agenda.
