(* ===== verification/WheelRuns.v ===== *)
(** Histories of the timing wheel: every sequence of additions, cancellations,
    refreshes, clearings and ticks, seen through the agenda. *)
From stdpp Require Import gmap.
From S2P Require Import Prelude TimerWheel Agenda.

Inductive op (C : Type) :=
  | OAdd (time_ms : Z) (func : C) (recurring : bool)
  | OCancel (id : nat)
  | ORefresh (id : nat)
  | OClear
  | OTick.
Arguments OAdd {C} _ _ _.
Arguments OCancel {C} _.
Arguments ORefresh {C} _.
Arguments OClear {C}.
Arguments OTick {C}.

Section runs.
Context {C : Type}.
Implicit Types (w : wheel C) (ag : agenda (C:=C)) (o : op C) (id : nat).

(** The callbacks an operation runs or hands to the worker. *)
Definition wheel_op o : M (wheel C) (list C) :=
  match o with
  | OAdd ms f r => '(_, out) ← AddTimer ms f r; mret out
  | OCancel id => Cancel id;; mret []
  | ORefresh id => '(_, out) ← Refresh id; mret out
  | OClear => ClearTimer;; mret []
  | OTick => timer_update
  end.

Fixpoint run (ops : list (op C)) : M (wheel C) (list (list C)) :=
  match ops with
  | [] => mret []
  | o :: ops => out ← wheel_op o; outs ← run ops; mret (out :: outs)
  end.

(** Handles come from [AddTimer]; an interval is an [int]. *)
Definition op_ok w o : Prop :=
  match o with
  | OAdd ms _ _ => in_s 32 ms
  | OCancel id | ORefresh id => is_Some (heap w !! id)
  | _ => True
  end.

#[export] Instance op_ok_dec w o : Decision (op_ok w o).
Proof. destruct o; cbn; unfold in_s; apply _. Defined.

Fixpoint ops_ok (ops : list (op C)) w : Prop :=
  match ops with
  | [] => True
  | o :: ops => op_ok w o /\ ops_ok ops (snd (wheel_op o w))
  end.

#[export] Instance ops_ok_dec ops : forall w, Decision (ops_ok ops w).
Proof. induction ops; intros w; cbn; apply _. Defined.

(** ** What an operation does to the agenda *)
Definition set_cancelled (tm : TimerW C) : TimerW C :=
  mkTimerW (_recurring tm) (_expire tm) (_callback tm) true (_sub_time tm).

Definition ag_cancel id (tm : TimerW C) ag : agenda :=
  mkAgenda (<[id := set_cancelled tm]> (ag_heap ag)) (ag_next ag) (ag_time ag) (ag_pending ag).

Inductive ag_op ag : op C -> list C -> agenda (C:=C) -> Prop :=
  | ag_add_now ms f r : Z.quot ms 10 <= 0 -> ag_op ag (OAdd ms f r) [f] ag
  | ag_add ms f r : 0 < Z.quot ms 10 -> ag_op ag (OAdd ms f r) [] (schedule (Z.quot ms 10) f r ag)
  | ag_cancels id tm : ag_heap ag !! id = Some tm -> ag_op ag (OCancel id) [] (ag_cancel id tm ag)
  | ag_refresh id tm : ag_heap ag !! id = Some tm ->
      ag_op ag (ORefresh id) []
        (schedule (_sub_time tm) (_callback tm) (_recurring tm) (ag_cancel id tm ag))
  | ag_clear : ag_op ag OClear [] (mkAgenda (ag_heap ag) (ag_next ag) (ag_time ag) ∅)
  | ag_ticks tasks ag' : tick_spec ag tasks ag' -> ag_op ag OTick tasks ag'.

Inductive ag_run : agenda (C:=C) -> list (op C) -> list (list C) -> agenda (C:=C) -> Prop :=
  | ag_run_nil ag : ag_run ag [] [] ag
  | ag_run_cons ag o out ag1 ops outs ag2 :
      ag_op ag o out ag1 -> ag_run ag1 ops outs ag2 -> ag_run ag (o :: ops) (out :: outs) ag2.

Definition agenda_new : agenda (C:=C) := mkAgenda ∅ 0 0 ∅.

(** ** Each operation refines its specification *)

Lemma quot_interval ms : in_s 32 ms -> 0 < Z.quot ms 10 -> interval (Z.quot ms 10).
Proof. unfold in_s, interval. change (2 ^ (32 - 1)) with 2147483648. intros. zlia. Qed.

Lemma AddTimer_eq w ms f r :
  in_s 32 ms ->
  AddTimer ms f r w =
    if Z.quot ms 10 <=? 0 then (Ok (None, [f]), w)
    else (Ok (Some (next_id w), []), grown w (Z.quot ms 10) f r).
Proof.
  intros Hms. unfold AddTimer. rewrite (bind_ok _ _ _ _ _ (eq_refl : get w = (Ok w, w))).
  destruct (Z.leb_spec (Z.quot ms 10) 0); [done|].
  rewrite (bind_ok _ _ _ _ _ (make_timer_eq w _ f r (quot_interval _ Hms ltac:(done)))).
  by rewrite (bind_ok _ _ _ _ _ (add_grown w _ f r)).
Qed.

Definition cancelled id (tm : TimerW C) w : wheel C := set_heap (<[id := set_cancelled tm]> (heap w)) w.

Lemma Cancel_eq w id tm : heap w !! id = Some tm -> Cancel id w = (Ok tt, cancelled id tm w).
Proof. intros Htm. unfold Cancel. by rewrite (bind_ok _ _ _ _ _ (deref_timer_ok _ _ _ Htm)). Qed.

Lemma cancelled_inv kn kl w id tm :
  inv kn kl w -> heap w !! id = Some tm -> inv kn kl (cancelled id tm w).
Proof.
  intros Hw Htm. split; try apply Hw; cbn.
  - intros id' tm'. destruct (decide (id' = id)) as [->|].
    + rewrite lookup_insert_eq. intros [= <-]. exact (inv_heap _ _ _ Hw _ _ Htm).
    + rewrite lookup_insert_ne by done. apply Hw.
  - intros s id' Hin. destruct (inv_slot _ _ _ Hw s id' Hin) as (tm' & Htm' & Hok).
    destruct (decide (id' = id)) as [->|].
    + rewrite lookup_insert_eq. exists (set_cancelled tm). split; [done|].
      by assert (tm' = tm) as -> by congruence.
    + rewrite lookup_insert_ne by done. by exists tm'.
Qed.

Lemma cancelled_refines w ag id tm :
  refines w ag -> refines (cancelled id tm w) (ag_cancel id tm ag).
Proof. intros [Hh Hn Ht Hp]. split; cbn; try done. by rewrite Hh. Qed.

Lemma Refresh_eq kn kl w id tm :
  inv kn kl w -> heap w !! id = Some tm ->
  Refresh id w = (Ok (Some (next_id w), []),
    grown (cancelled id tm w) (_sub_time tm) (_callback tm) (_recurring tm)).
Proof.
  intros Hw Htm. destruct (inv_heap _ _ _ Hw _ _ Htm) as (_ & _ & Hsub).
  unfold Refresh. rewrite (bind_ok _ _ _ _ _ (Cancel_eq _ _ _ Htm)).
  assert (heap (cancelled id tm w) !! id = Some (set_cancelled tm)) as H' by apply lookup_insert_eq.
  rewrite (bind_ok _ _ _ _ _ (deref_timer_ok _ _ _ H')). cbn [_sub_time set_cancelled _callback _recurring].
  assert (in_s 32 (_sub_time tm * 10)) as Hs
    by (unfold in_s; change (2 ^ (32 - 1)) with 2147483648; lia).
  rewrite (swrap_id 32) by (done || lia). rewrite AddTimer_eq by done.
  rewrite Z.quot_mul by lia. by rewrite (proj2 (Z.leb_gt _ 0)) by lia.
Qed.

Lemma at_slot_cleared w s : at_slot (snd (ClearTimer w)) s = [].
Proof.
  destruct s as [j|i j]; cbn; rewrite list_lookup_fmap.
  - by destruct (_near w !! j).
  - destruct (_t w !! i) as [lv|]; [|done]. cbn. rewrite list_lookup_fmap. by destruct (lv !! j).
Qed.

Lemma ClearTimer_inv kn kl w : inv kn kl w -> inv kn kl (snd (ClearTimer w)).
Proof.
  intros Hw. destruct (inv_shape _ _ _ Hw) as (Hn & Ht & Hl). split; try apply Hw.
  - split_and!; cbn; rewrite ?length_fmap; try done. apply Forall_fmap.
    eapply Forall_impl; [|done]. intros lv Hlv. cbn in *. by rewrite length_fmap.
  - intros s id. rewrite at_slot_cleared. by intros ?%not_elem_of_nil.
  - intros s s' id. rewrite at_slot_cleared. by intros ?%not_elem_of_nil.
  - intros s. rewrite at_slot_cleared. constructor.
Qed.

Lemma op_sim w ag o :
  inv 1 1 w -> refines w ag -> op_ok w o ->
  exists out w' ag', wheel_op o w = (Ok out, w') /\ ag_op ag o out ag' /\ inv 1 1 w' /\
    refines w' ag' /\ (o <> OClear -> keeps_stuck w w').
Proof.
  intros Hw Hr Hok. destruct o as [ms f r|id|id| |]; cbn [wheel_op].
  - pose proof (AddTimer_eq w ms f r Hok) as E. destruct (Z.leb_spec (Z.quot ms 10) 0).
    + exists [f], w, ag. rewrite (bind_ok _ _ _ _ _ E). split_and!; try done. by constructor.
    + eexists [], _, _. rewrite (bind_ok _ _ _ _ _ E). pose proof (quot_interval ms Hok ltac:(done)).
      split; [done|]. split_and!; [by apply ag_add|by apply grown_inv|by eapply grown_refines|].
      intros _. apply grown_keeps, Hw.
  - destruct Hok as [tm Htm]. eexists [], _, _.
    rewrite (bind_ok _ _ _ _ _ (Cancel_eq _ _ _ Htm)). split; [done|]. split_and!;
      [apply ag_cancels; by rewrite (ref_heap _ _ Hr)|by apply cancelled_inv|by apply cancelled_refines|by intros _ s id'].
  - destruct Hok as [tm Htm]. eexists [], _, _. rewrite (bind_ok _ _ _ _ _ (Refresh_eq _ _ _ _ _ Hw Htm)).
    pose proof (cancelled_inv _ _ _ _ _ Hw Htm) as Hw'.
    destruct (inv_heap _ _ _ Hw _ _ Htm) as (_ & _ & Hsub). fold (interval (_sub_time tm)) in Hsub.
    split; [done|]. split_and!; [apply ag_refresh; by rewrite (ref_heap _ _ Hr)|by apply grown_inv| |].
    + eapply grown_refines; [done..|]. by apply cancelled_refines.
    + intros _ s id' Hs Hin. apply grown_keeps; [apply Hw'|done|done].
  - eexists [], (snd (ClearTimer w)), _. split; [done|]. split_and!; [apply ag_clear|by apply ClearTimer_inv| |done].
    destruct Hr as [Hh Hn Ht Hp]. split; try done. intros id. cbn [ag_pending].
    rewrite elem_of_empty. split; [done|]. intros (s & _ & Hin). rewrite at_slot_cleared in Hin.
    by apply not_elem_of_nil in Hin.
  - destruct (tick_sim w ag Hw Hr) as (tasks & w' & ag' & E & Ht & Hw' & Hr' & _ & Hk).
    exists tasks, w', ag'. split_and!; try done. by constructor.
Qed.

Lemma run_sim ops : forall w ag,
  inv 1 1 w -> refines w ag -> ops_ok ops w ->
  exists outs w' ag', run ops w = (Ok outs, w') /\ ag_run ag ops outs ag' /\ inv 1 1 w' /\
    refines w' ag' /\ (OClear ∉ ops -> keeps_stuck w w').
Proof.
  induction ops as [|o ops IH]; intros w ag Hw Hr Hok.
  - exists [], w, ag. split_and!; try done. constructor.
  - destruct Hok as [Ho Hok].
    destruct (op_sim w ag o Hw Hr Ho) as (out & w1 & ag1 & E & Hag & Hw1 & Hr1 & Hk1).
    rewrite E in Hok. destruct (IH w1 ag1 Hw1 Hr1 Hok) as (outs & w2 & ag2 & E2 & Hrun & Hw2 & Hr2 & Hk2).
    exists (out :: outs), w2, ag2. cbn [run].
    rewrite (bind_ok _ _ _ _ _ E), (bind_ok _ _ _ _ _ E2). split_and!; try done; [by econstructor|].
    rewrite not_elem_of_cons. intros [Hne Hni]. transitivity w1; [apply Hk1; congruence|auto].
Qed.

Lemma at_slot_new cp s : at_slot (TimerWheelManager_new (C:=C) cp) s = [].
Proof.
  destruct s as [j|i j]; unfold at_slot, TimerWheelManager_new; cbn [_near _t].
  - destruct (replicate 256 (@nil nat) !! j) eqn:E; [|done]. by apply lookup_replicate in E as [-> _].
  - destruct (replicate 4 (replicate 64 (@nil nat)) !! i) as [lv|] eqn:E; [|done].
    apply lookup_replicate in E as [-> _]. cbn [mbind option_bind].
    destruct (replicate 64 (@nil nat) !! j) eqn:E'; [|done]. by apply lookup_replicate in E' as [-> _].
Qed.

Lemma new_inv cp : inv 1 1 (TimerWheelManager_new (C:=C) cp).
Proof.
  split.
  - split_and!; [done|done|]. by repeat constructor.
  - split; cbn; lia.
  - intros id tm. cbn. by rewrite lookup_empty.
  - intros s id. rewrite at_slot_new. by intros ?%not_elem_of_nil.
  - intros s s' id. rewrite at_slot_new. by intros ?%not_elem_of_nil.
  - intros s. rewrite at_slot_new. constructor.
Qed.

Lemma new_refines cp : refines (TimerWheelManager_new (C:=C) cp) agenda_new.
Proof.
  split; try done. intros id. cbn. rewrite elem_of_empty. split; [done|].
  intros (s & _ & Hin). rewrite at_slot_new in Hin. by apply not_elem_of_nil in Hin.
Qed.

(** ** A pending timer through a history *)
Section pending.
Context (id : nat) (tm : TimerW C).

(** [id] is a pending timer that will run when due. *)
Definition armed ag : Prop :=
  id ∈ ag_pending ag /\ ag_heap ag !! id = Some tm /\ (id < ag_next ag)%nat.

Lemma schedule_armed ag n f r : armed ag -> armed (schedule n f r ag).
Proof.
  intros (Hp & Hh & Hn). split_and!; cbn [ag_pending ag_heap ag_next schedule].
  - case_match; set_solver.
  - rewrite lookup_insert_ne by lia. done.
  - lia.
Qed.

Lemma schedule_gone ag n f r :
  id ∉ ag_pending ag -> (id < ag_next ag)%nat ->
  id ∉ ag_pending (schedule n f r ag) /\ (id < ag_next (schedule n f r ag))%nat.
Proof. intros Hp Hn. cbn [ag_pending ag_next schedule]. case_match; set_solver by lia. Qed.

Lemma fire_one_armed ag id' : id <> id' -> armed ag -> armed (snd (fire_one id' ag)).
Proof.
  intros Hne (Hp & Hh & Hn). unfold fire_one.
  destruct (ag_heap ag !! id') as [tm'|] eqn:E; [|done].
  assert (armed (mkAgenda (ag_heap ag) (ag_next ag) (ag_time ag) (ag_pending ag ∖ {[id']}))) as H.
  { split_and!; cbn; [set_solver|done|done]. }
  destruct (_cancel tm'); [done|]. destruct (_recurring tm'); [by apply schedule_armed|done].
Qed.

Lemma fire_one_gone ag id' :
  id ∉ ag_pending ag -> (id < ag_next ag)%nat ->
  id ∉ ag_pending (snd (fire_one id' ag)) /\ (id < ag_next (snd (fire_one id' ag)))%nat.
Proof.
  intros Hp Hn. unfold fire_one. destruct (ag_heap ag !! id') as [tm'|]; [|done].
  repeat case_match; cbn [snd]; [| apply schedule_gone|]; cbn; try done; set_solver.
Qed.

Lemma fire_armed due : forall ag, id ∉ due -> armed ag -> armed (snd (fire due ag)).
Proof.
  induction due as [|id' due IH]; intros ag Hni Ha; [done|]. cbn [fire].
  apply not_elem_of_cons in Hni as [Hne Hni].
  pose proof (fire_one_armed ag id' Hne Ha) as Ha1. destruct (fire_one id' ag) as [cs ag1].
  specialize (IH ag1 Hni Ha1). by destruct (fire due ag1).
Qed.

Lemma fire_gone due : forall ag,
  id ∉ ag_pending ag -> (id < ag_next ag)%nat -> id ∉ ag_pending (snd (fire due ag)).
Proof.
  induction due as [|id' due IH]; intros ag Hp Hn; [done|]. cbn [fire].
  destruct (fire_one_gone ag id' Hp Hn) as [Hp1 Hn1]. destruct (fire_one id' ag) as [cs ag1].
  specialize (IH ag1 Hp1 Hn1). by destruct (fire due ag1).
Qed.

Lemma fire_time due : forall ag, ag_time (snd (fire due ag)) = ag_time ag.
Proof.
  induction due as [|id' due IH]; intros ag; [done|]. cbn [fire].
  assert (ag_time (snd (fire_one id' ag)) = ag_time ag) as E
    by (unfold fire_one; by repeat case_match).
  destruct (fire_one id' ag) as [cs ag1]. specialize (IH ag1).
  destruct (fire due ag1). cbn in *. congruence.
Qed.

(** When its turn comes the callback runs, once, and the timer is gone. *)
Lemma fire_due due : forall ag,
  NoDup due -> id ∈ due -> armed ag -> _cancel tm = false ->
  _callback tm ∈ fst (fire due ag) /\ id ∉ ag_pending (snd (fire due ag)).
Proof.
  induction due as [|id' due IH]; intros ag Hnd Hin Ha Hc; [by apply not_elem_of_nil in Hin|].
  apply list.NoDup_cons in Hnd as [Hni Hnd]. cbn [fire].
  destruct (decide (id = id')) as [<-|Hne].
  - destruct Ha as (Hp & Hh & Hn). unfold fire_one. rewrite Hh, Hc.
    set (ag1 := if _recurring tm then _ else _).
    assert (id ∉ ag_pending ag1 /\ (id < ag_next ag1)%nat) as [Hp1 Hn1].
    { subst ag1. case_match; [apply schedule_gone|]; cbn; try done; set_solver. }
    pose proof (fire_gone due ag1 Hp1 Hn1). destruct (fire due ag1) as [cs ag2]. cbn in *.
    split; [by left|done].
  - apply elem_of_cons in Hin as [|Hin]; [done|].
    pose proof (fire_one_armed ag id' Hne Ha) as Ha1. destruct (fire_one id' ag) as [cs ag1].
    destruct (IH ag1 Hnd Hin Ha1 Hc) as [Hcb Hp]. destruct (fire due ag1) as [cs' ag2]. cbn in *.
    split; [|done]. apply elem_of_app. by right.
Qed.

(** Operations that leave [id] alone. *)
Definition spares o : Prop :=
  match o with OCancel id' | ORefresh id' => id' <> id | OClear => False | _ => True end.

#[export] Instance spares_dec o : Decision (spares o).
Proof. destruct o; cbn; apply _. Defined.

Fixpoint tick_count (ops : list (op C)) : Z :=
  match ops with
  | [] => 0
  | OTick :: ops => 1 + tick_count ops
  | _ :: ops => tick_count ops
  end.

Lemma tick_count_nonneg ops : 0 <= tick_count ops.
Proof. induction ops as [|[] ops IH]; cbn; lia. Qed.

Lemma ag_op_armed ag o out ag' :
  ag_op ag o out ag' -> armed ag -> spares o ->
  (o = OTick -> _expire tm <> u32 (ag_time ag + 1)) ->
  armed ag' /\ ag_time ag' = match o with OTick => u32 (ag_time ag + 1) | _ => ag_time ag end.
Proof.
  intros Hop Ha Hs Ht.
  assert (forall id' tm', id' <> id -> armed (ag_cancel id' tm' ag)) as Hcancel.
  { intros id' tm' Hne. destruct Ha as (Hp & Hh & Hn). split_and!; cbn; try done.
    by rewrite lookup_insert_ne. }
  destruct Hop as [| | | | |tasks ag' (due & Hnd & Hdue & Hf)]; cbn in Hs; try done.
  - split; [by apply schedule_armed|done].
  - split; [by apply Hcancel|done].
  - split; [by apply schedule_armed, Hcancel|done].
  - assert (id ∉ due) as Hni.
    { rewrite Hdue. intros (_ & tm' & Htm' & He). destruct Ha as (_ & Hh & _). cbn in Htm'.
      apply Ht; [done|]. assert (tm' = tm) as <- by congruence. exact He. }
    replace ag' with (snd (fire due (ag_tick ag))) by (by rewrite Hf).
    split; [|by rewrite fire_time]. apply fire_armed; [done|]. by destruct Ha as (?&?&?).
Qed.

Lemma ag_run_armed ag ops outs ag' :
  ag_run ag ops outs ag' -> armed ag -> Forall spares ops ->
  tick_count ops < dist (ag_time ag) (_expire tm) ->
  armed ag' /\ dist (ag_time ag') (_expire tm) = dist (ag_time ag) (_expire tm) - tick_count ops.
Proof.
  induction 1 as [ag|ag o out ag1 ops outs ag2 Hop Hrun IH]; intros Ha Hs Hlt.
  - split; [done|]. cbn. lia.
  - apply Forall_cons_1 in Hs as [Ho Hs]. pose proof (tick_count_nonneg ops).
    assert (0 < dist (ag_time ag) (_expire tm)) as Hpos by (destruct o; cbn in Hlt; lia).
    destruct (ag_op_armed _ _ _ _ Hop Ha Ho) as [Ha1 Ht].
    { intros -> Heq. cbn in Hlt. rewrite Heq, dist_add in * by (unfold in_u; lia). lia. }
    pose proof (dist_tick _ _ Hpos) as Htick.
    destruct o; cbn [tick_count] in *; rewrite Ht in IH; try by apply IH.
    rewrite Htick in IH. destruct (IH Ha1 Hs) as [Ha2 Hd2]; [lia|]. split; [done|]. lia.
Qed.
End pending.

(** ** What the timing wheel guarantees *)

(** A wheel in use: some history of valid operations led to it. *)
Definition reached cp (ops : list (op C)) w : Prop :=
  ops_ok ops (TimerWheelManager_new cp) /\ exists outs, run ops (TimerWheelManager_new cp) = (Ok outs, w).

Lemma reached_inv cp ops w : reached cp ops w -> inv 1 1 w /\ exists ag, refines w ag.
Proof.
  intros (Hok & outs & E).
  destruct (run_sim ops _ _ (new_inv cp) (new_refines cp) Hok) as (outs' & w' & ag' & E' & _ & Hw & Hr & _).
  rewrite E in E'. injection E' as _ <-. split; [done|by exists ag'].
Qed.

(** C3: every valid history of the wheel runs to its end (no iteration limit
    of the model is hit, no list is accessed out of range, no loop over a list
    that grows under it) and produces what the agenda allows: each tick runs
    the callbacks of exactly the timers due at it, cancelled ones excepted. *)
Theorem wheel_refines cp ops :
  ops_ok ops (TimerWheelManager_new cp) ->
  exists outs w ag, run ops (TimerWheelManager_new cp) = (Ok outs, w) /\
    ag_run agenda_new ops outs ag /\ refines w ag.
Proof.
  intros Hok.
  destruct (run_sim ops _ _ (new_inv cp) (new_refines cp) Hok) as (outs & w & ag & E & Hrun & _ & Hr & _).
  by exists outs, w, ag.
Qed.

(** C7: a timer of [ms] milliseconds that is not lost when it is added stays
    in the wheel for [ms / 10 - 1] ticks, whatever else is added, cancelled or
    refreshed meanwhile, and its callback runs in the tick after them. *)
Theorem AddTimer_fires cp ops0 w ms f r :
  reached cp ops0 w -> 10 <= ms -> in_s 32 ms -> lost (_time w) (ms / 10) = false ->
  exists id w1, AddTimer ms f r w = (Ok (Some id, []), w1) /\
    forall ops, ops_ok ops w1 -> Forall (spares id) ops -> tick_count ops < ms / 10 ->
    exists outs w2, run ops w1 = (Ok outs, w2) /\ live w2 id /\
      (tick_count ops = ms / 10 - 1 ->
       exists tasks w3, timer_update w2 = (Ok tasks, w3) /\ f ∈ tasks /\ ~ live w3 id).
Proof.
  intros Hreach Hms Hms32 Hlost. destruct (reached_inv _ _ _ Hreach) as (Hw & ag & Hr).
  rewrite <- (Z.quot_div_nonneg ms 10) in * by lia. set (n := Z.quot ms 10) in *.
  assert (0 < n) as Hn0 by (subst n; zlia). pose proof (quot_interval ms Hms32 Hn0) as Hn. fold n in Hn.
  exists (next_id w), (grown w n f r). split.
  { rewrite AddTimer_eq by done. fold n. by rewrite (proj2 (Z.leb_gt n 0)) by lia. }
  intros ops Hops Hsp Hcount. set (tm := mkTimerW r (u32 (_time w + n)) f false n).
  assert (armed (next_id w) tm (schedule n f r ag)) as Ha.
  { unfold armed. cbn [ag_pending ag_heap ag_next schedule].
    rewrite (ref_time _ _ Hr), (ref_next _ _ Hr), Hlost.
    split_and!; [set_solver|by rewrite lookup_insert_eq|lia]. }
  assert (dist (ag_time (schedule n f r ag)) (_expire tm) = n) as Hd.
  { cbn [ag_time schedule _expire tm]. rewrite (ref_time _ _ Hr).
    apply dist_add. unfold interval, in_u in *. lia. }
  destruct (run_sim ops (grown w n f r) (schedule n f r ag)) as (outs & w2 & ag2 & E & Hrun & Hw2 & Hr2 & _);
    [by apply grown_inv|by eapply grown_refines|done|].
  destruct (ag_run_armed _ _ _ _ _ _ Hrun Ha Hsp) as [Ha2 Hd2]; [by rewrite Hd|]. rewrite Hd in Hd2.
  exists outs, w2. split_and!; [done|by apply (ref_pending _ _ Hr2), Ha2|]. intros Hlast.
  destruct (tick_sim w2 ag2 Hw2 Hr2) as (tasks & w3 & ag3 & E3 & (due & Hnd & Hdue & Hf) & _ & Hr3 & _).
  exists tasks, w3. split; [done|].
  assert (next_id w ∈ due) as Hin.
  { apply Hdue. destruct Ha2 as (Hp & Hh & _). split; [done|]. exists tm. split; [done|].
    cbn [ag_tick ag_time]. assert (in_u 32 (_expire tm)) as He by (apply uwrap_range; lia).
    pose proof (inv_time _ _ _ Hw2) as Ht. rewrite <- (ref_time _ _ Hr2) in Ht.
    set (e := _expire tm) in *. clearbody e. ticks. zlia. }
  destruct (fire_due (next_id w) tm due (ag_tick ag2) Hnd Hin) as [Hcb Hgone];
    [by destruct Ha2 as (?&?&?)|done|]. rewrite Hf in Hcb, Hgone. cbn [fst snd] in *.
  split; [done|]. by rewrite <- (ref_pending _ _ Hr3).
Qed.

(** A lost timer never runs: from its addition on, through every history
    without [ClearTimer], it sits in slot 0 of one of the three lower levels,
    which [timer_shift] never moves. *)
Theorem lost_timer_never_fires cp ops0 w ms f r :
  reached cp ops0 w -> 10 <= ms -> in_s 32 ms -> lost (_time w) (ms / 10) = true ->
  exists id w1, AddTimer ms f r w = (Ok (Some id, []), w1) /\
    forall ops, ops_ok ops w1 -> OClear ∉ ops ->
    exists outs w2, run ops w1 = (Ok outs, w2) /\ ~ live w2 id /\
      exists i, (i < 3)%nat /\ id ∈ at_slot w2 (Lev i 0).
Proof.
  intros Hreach Hms Hms32 Hlost. destruct (reached_inv _ _ _ Hreach) as (Hw & ag & Hr).
  rewrite <- (Z.quot_div_nonneg ms 10) in * by lia. set (n := Z.quot ms 10) in *.
  assert (0 < n) as Hn0 by (subst n; zlia). pose proof (quot_interval ms Hms32 Hn0) as Hn. fold n in Hn.
  exists (next_id w), (grown w n f r). split.
  { rewrite AddTimer_eq by done. fold n. by rewrite (proj2 (Z.leb_gt n 0)) by lia. }
  intros ops Hops Hcl.
  destruct (run_sim ops (grown w n f r) (schedule n f r ag)) as (outs & w2 & ag2 & E & _ & Hw2 & _ & Hk);
    [by apply grown_inv|by eapply grown_refines|done|].
  rewrite lost_place in Hlost by (unfold interval, in_u in *; lia).
  apply bool_decide_eq_true_1 in Hlost.
  assert (next_id w ∈ at_slot w2 (place (_time w) (u32 (_time w + n)))) as Hin.
  { apply Hk; [done|done|]. apply elem_at_grown; [apply Hw|]. by right. }
  exists outs, w2. split_and!; [done| |].
  - intros (s & Hs & Hin'). rewrite (inv_uniq _ _ _ Hw2 _ _ _ Hin' Hin) in Hs. done.
  - destruct (place _ _) as [j|i [|j]]; cbn in Hlost; try done. by exists i.
Qed.

(** A call of [ExpireTimer] catches up: it performs as many ticks as
    ten-millisecond units have passed since the last one (modulo 2^32), in
    order, and hands over everything that came due in them. *)
Theorem ExpireTimer_catches_up cp ops0 w now :
  reached cp ops0 w -> now <> _current_point w ->
  exists outs w', ExpireTimer now w = (Ok (concat outs), w') /\
    exists w0, run (replicate (Z.to_nat (u32 (now - _current_point w))) OTick) w0 = (Ok outs, w') /\
      heap w0 = heap w /\ _near w0 = _near w /\ _t w0 = _t w /\ _time w0 = _time w /\
      _current_point w0 = now.
Proof.
  intros Hreach Hne. destruct (reached_inv _ _ _ Hreach) as (Hw & ag & Hr).
  set (n := Z.to_nat (u32 (now - _current_point w))).
  set (w0 := mkWheel (heap w) (next_id w) (_near w) (_t w) (_time w)
    (u64 (_current w + u32 (now - _current_point w))) now).
  assert (inv 1 1 w0) as Hw0 by (split; apply Hw).
  assert (refines w0 ag) as Hr0 by (split; apply Hr).
  assert (forall k w1 ag1, inv 1 1 w1 -> refines w1 ag1 ->
    exists outs w', run (replicate k OTick) w1 = (Ok outs, w') /\ updates k w1 = (Ok (concat outs), w')) as Hup.
  { induction k as [|k IH]; intros w1 ag1 Hw1 Hr1; [by exists [], w1|].
    destruct (tick_sim w1 ag1 Hw1 Hr1) as (tasks & w2 & ag2 & E & _ & Hw2 & Hr2 & _).
    destruct (IH w2 ag2 Hw2 Hr2) as (outs & w3 & E3 & E4). exists (tasks :: outs), w3.
    cbn [replicate run updates wheel_op].
    by rewrite !(bind_ok _ _ _ _ _ E), (bind_ok _ _ _ _ _ E3), (bind_ok _ _ _ _ _ E4). }
  destruct (Hup n w0 ag Hw0 Hr0) as (outs & w' & E & E').
  exists outs, w'. split; [|by exists w0].
  unfold ExpireTimer. rewrite (bind_ok _ _ _ _ _ (eq_refl : get w = (Ok w, w))).
  rewrite (proj2 (Z.eqb_neq now (_current_point w)) Hne). cbn [negb].
  rewrite (bind_ok _ _ _ _ _ (eq_refl : put w0 w = (Ok tt, w0))). exact E'.
Qed.
End runs.

(** ** The theorems on concrete histories *)
Definition demo_ops : list (op nat) :=
  replicate 100 OTick ++ [OAdd 3000 1%nat true; OCancel 0; OAdd 30 2%nat false; OAdd 0 3%nat false].

Lemma wheel_refines_witness :
  exists outs w ag, run (demo_ops ++ replicate 4 OTick) (TimerWheelManager_new 7) = (Ok outs, w) /\
    ag_run agenda_new (demo_ops ++ replicate 4 OTick) outs ag /\ refines w ag.
Proof.
  apply (wheel_refines 7 (demo_ops ++ replicate 4 OTick)). apply (bool_decide_unpack _). vm_compute. exact I.
Defined.

(** After 100 ticks: 400 ms wait in a level, 163340 ms in the one slot that
    is never moved. *)
Definition demo_wheel : wheel nat := snd (run demo_ops (TimerWheelManager_new 7)).

Lemma demo_reached : reached 7 demo_ops demo_wheel.
Proof.
  split; [apply (bool_decide_unpack _); vm_compute; exact I|].
  exists (match fst (run demo_ops (TimerWheelManager_new 7)) with Ok outs => outs | _ => [] end).
  vm_compute. reflexivity.
Qed.

Lemma AddTimer_fires_witness :
  exists id w1, AddTimer 4000 9%nat false demo_wheel = (Ok (Some id, []), w1) /\
    forall ops, ops_ok ops w1 -> Forall (spares id) ops -> tick_count ops < 4000 / 10 ->
    exists outs w2, run ops w1 = (Ok outs, w2) /\ live w2 id /\
      (tick_count ops = 4000 / 10 - 1 ->
       exists tasks w3, timer_update w2 = (Ok tasks, w3) /\ 9%nat ∈ tasks /\ ~ live w3 id).
Proof.
  apply (AddTimer_fires 7 demo_ops demo_wheel 4000 9%nat false demo_reached);
    [lia|unfold in_s; lia|vm_compute; reflexivity].
Defined.

Lemma lost_timer_never_fires_witness :
  exists id w1, AddTimer 163340 9%nat false demo_wheel = (Ok (Some id, []), w1) /\
    forall ops, ops_ok ops w1 -> OClear ∉ ops ->
    exists outs w2, run ops w1 = (Ok outs, w2) /\ ~ live w2 id /\
      exists i, (i < 3)%nat /\ id ∈ at_slot w2 (Lev i 0).
Proof.
  apply (lost_timer_never_fires 7 demo_ops demo_wheel 163340 9%nat false demo_reached);
    [lia|unfold in_s; lia|vm_compute; reflexivity].
Defined.

Lemma ExpireTimer_catches_up_witness :
  exists outs w', ExpireTimer 9 demo_wheel = (Ok (concat outs), w') /\
    exists w0, run (replicate 2 OTick) w0 = (Ok outs, w') /\
      heap w0 = heap demo_wheel /\ _near w0 = _near demo_wheel /\ _t w0 = _t demo_wheel /\
      _time w0 = _time demo_wheel /\ _current_point w0 = 9.
Proof.
  refine (ExpireTimer_catches_up 7 demo_ops demo_wheel 9 demo_reached _).
  vm_compute. discriminate.
Defined.
