(* ===== verification/TimerManager.v ===== *)
(** timer.cpp and timer.h: the ordered timer set ([Timer], [TimerManager]).

    A [Timer::ptr] is the address of an entry of [timers]; the set is the list
    of its elements in the order of [Timer::Comparator], which reads the
    current due times.  The time of the call and the address of a new object
    are arguments.  An empty [std::function] is [None]. *)
From stdpp Require Import gmap sorting.
From S2P Require Import Prelude.

Record Timer (C : Type) := mkTimer {
  m_recurring : bool;
  m_ms : Z;
  m_next : Z;
  m_cb : option C;
}.
Arguments mkTimer {C} _ _ _ _.
Arguments m_recurring {C} _.
Arguments m_ms {C} _.
Arguments m_next {C} _.
Arguments m_cb {C} _.

Record TimerManager (C : Type) := mkTimerManager {
  timers : gmap nat (Timer C);
  m_timers : list nat;
  m_tickled : bool;
  m_previouseTime : Z;
}.
Arguments mkTimerManager {C} _ _ _ _.
Arguments timers {C} _.
Arguments m_timers {C} _.
Arguments m_tickled {C} _.
Arguments m_previouseTime {C} _.

Section manager.
Context {C : Type}.
Implicit Types (h : gmap nat (Timer C)) (m : TimerManager C) (p : nat) (l : list nat).

(** [Timer::Comparator] *)
Definition Comparator h (lhs rhs : option nat) : bool :=
  match lhs, rhs with
  | None, None => false
  | None, _ => true
  | _, None => false
  | Some a, Some b =>
    match h !! a, h !! b with
    | Some ta, Some tb =>
      if m_next ta <? m_next tb then true
      else if m_next tb <? m_next ta then false
      else (a <? b)%nat
    | _, _ => false
    end
  end.

Abbreviation less h a b := (Comparator h (Some a) (Some b)).

(** [std::set] on its sorted sequence. *)
Fixpoint lower_bound h p l : nat :=
  match l with
  | [] => 0
  | e :: l => if less h e p then S (lower_bound h p l) else 0
  end.

Definition set_find h p l : option nat :=
  let k := lower_bound h p l in
  match l !! k with
  | Some e => if less h p e then None else Some k
  | None => None
  end.

Definition set_insert h p l : list nat * nat :=
  let k := lower_bound h p l in
  match l !! k with
  | Some e => if less h p e then (take k l ++ p :: drop k l, k) else (l, k)
  | None => (l ++ [p], k)
  end.

Definition set_timers l m : TimerManager C :=
  mkTimerManager (timers m) l (m_tickled m) (m_previouseTime m).
Definition store p (t : Timer C) m : TimerManager C :=
  mkTimerManager (<[p := t]> (timers m)) (m_timers m) (m_tickled m) (m_previouseTime m).
Definition set_tickled b m : TimerManager C :=
  mkTimerManager (timers m) (m_timers m) b (m_previouseTime m).

Definition deref p : M (TimerManager C) (Timer C) :=
  m ← get; match timers m !! p with Some t => mret t | None => undef NullDeref end.

(** [TimerManager::addTimer(val, lock)]; the result says whether
    [onTimerInsertedAtFront] was called. *)
Definition addTimer_ptr p : M (TimerManager C) bool :=
  m ← get;
  let '(l, it) := set_insert (timers m) p (m_timers m) in
  put (set_timers l m);;
  let at_front := Nat.eqb it 0 && negb (m_tickled m) in
  (if at_front then modify (set_tickled true) else mret tt);;
  mret at_front.

(** [addTimer(ms, cb, recurring)] at time [now], with the new object at [p]. *)
Definition addTimer (now : Z) p (ms : Z) (cb : option C) (recurring : bool) : M (TimerManager C) bool :=
  modify (store p (mkTimer recurring ms (u64 (now + ms)) cb));;
  addTimer_ptr p.

Definition cancel p : M (TimerManager C) bool :=
  t ← deref p;
  match m_cb t with
  | None => mret false
  | Some _ =>
    modify (store p (mkTimer (m_recurring t) (m_ms t) (m_next t) None));;
    m ← get;
    match set_find (timers m) p (m_timers m) with
    | Some it => put (set_timers (delete it (m_timers m)) m);; mret true
    | None => undef OutOfBounds    (* erase(end()) *)
    end
  end.

Definition refresh (now : Z) p : M (TimerManager C) bool :=
  t ← deref p;
  match m_cb t with
  | None => mret false
  | Some _ =>
    m ← get;
    match set_find (timers m) p (m_timers m) with
    | None => mret false
    | Some it =>
      put (set_timers (delete it (m_timers m)) m);;
      modify (store p (mkTimer (m_recurring t) (m_ms t) (u64 (now + m_ms t)) (m_cb t)));;
      m ← get;
      put (set_timers (fst (set_insert (timers m) p (m_timers m))) m);;
      mret true
    end
  end.

(** The second component is whether the front was announced. *)
Definition reset (now : Z) p (ms : Z) (from_now : bool) : M (TimerManager C) (bool * bool) :=
  t ← deref p;
  if (ms =? m_ms t) && negb from_now then mret (true, false) else
  match m_cb t with
  | None => mret (false, false)
  | Some _ =>
    m ← get;
    match set_find (timers m) p (m_timers m) with
    | None => mret (false, false)
    | Some it =>
      put (set_timers (delete it (m_timers m)) m);;
      let start := if from_now then now else u64 (m_next t - m_ms t) in
      modify (store p (mkTimer (m_recurring t) ms (u64 (start + ms)) (m_cb t)));;
      at_front ← addTimer_ptr p;
      mret (true, at_front)
    end
  end.

(** [~0ull] when there is no timer. *)
Definition getNextTimer (now : Z) : M (TimerManager C) Z :=
  modify (set_tickled false);;
  m ← get;
  match m_timers m with
  | [] => mret (2 ^ 64 - 1)
  | p :: _ =>
    next ← deref p;
    if m_next next <=? now then mret 0 else mret (u64 (m_next next - now))
  end.

Definition detectClockRollover (now : Z) : M (TimerManager C) bool :=
  m ← get;
  put (mkTimerManager (timers m) (m_timers m) (m_tickled m) now);;
  mret ((now <? m_previouseTime m) && (now <? u64 (m_previouseTime m - 60 * 60 * 1000))).

(** [while (it != end() && ( *it)->m_next == now_ms) ++it]: the steps taken. *)
Fixpoint skip_equal h (now : Z) l : nat :=
  match l with
  | [] => 0
  | p :: l => match h !! p with
              | Some t => if m_next t =? now then S (skip_equal h now l) else 0
              | None => 0
              end
  end.

(** The loop over the expired timers. *)
Fixpoint expire_all (now : Z) (expired : list nat) : M (TimerManager C) (list (option C)) :=
  match expired with
  | [] => mret []
  | p :: expired =>
    t ← deref p;
    (if m_recurring t then
       modify (store p (mkTimer true (m_ms t) (u64 (now + m_ms t)) (m_cb t)));;
       m ← get;
       put (set_timers (fst (set_insert (timers m) p (m_timers m))) m)
     else modify (store p (mkTimer false (m_ms t) (m_next t) None)));;
    cbs ← expire_all now expired;
    mret (m_cb t :: cbs)
  end.

(** [q] is the address of the temporary [now_timer]. *)
Definition listExpiredCb (now : Z) (q : nat) : M (TimerManager C) (list (option C)) :=
  m ← get;
  match m_timers m with
  | [] => mret []
  | p :: _ =>
    rollover ← detectClockRollover now;
    first ← deref p;
    if negb rollover && (now <? m_next first) then mret [] else
    let h := <[q := mkTimer false 0 now None]> (timers m) in
    let it0 := if rollover then length (m_timers m) else lower_bound h q (m_timers m) in
    let it := (it0 + skip_equal (timers m) now (drop it0 (m_timers m)))%nat in
    let expired := take it (m_timers m) in
    modify (fun m => set_timers (drop it (m_timers m)) m);;
    expire_all now expired
  end.

Definition hasTimer m : bool := match m_timers m with [] => false | _ => true end.

Definition TimerManager_new (now : Z) : TimerManager C := mkTimerManager ∅ [] false now.

(** ** The order of the set *)

Definition nxt h p : Z := match h !! p with Some t => m_next t | None => 0 end.

(** Earlier due time first, then the lower address. *)
Definition before h (a b : nat) : Prop := nxt h a < nxt h b \/ nxt h a = nxt h b /\ (a < b)%nat.

#[export] Instance before_dec h a b : Decision (before h a b).
Proof. unfold before. apply _. Defined.

Lemma less_before h a b :
  is_Some (h !! a) -> is_Some (h !! b) -> less h a b = bool_decide (before h a b).
Proof.
  intros [ta Ha] [tb Hb].
  assert (nxt h a = m_next ta) as Na by (unfold nxt; by rewrite Ha).
  assert (nxt h b = m_next tb) as Nb by (unfold nxt; by rewrite Hb).
  unfold Comparator. rewrite Ha, Hb, <- Na, <- Nb.
  destruct (Z.ltb_spec (nxt h a) (nxt h b)); [by rewrite bool_decide_true by (unfold before; lia)|].
  destruct (Z.ltb_spec (nxt h b) (nxt h a)); [by rewrite bool_decide_false by (unfold before; lia)|].
  destruct (Nat.ltb_spec a b);
    [by rewrite bool_decide_true by (unfold before; lia)|by rewrite bool_decide_false by (unfold before; lia)].
Qed.

Definition known h l : Prop := forall p, p ∈ l -> is_Some (h !! p).
Definition sorted h l : Prop := StronglySorted (before h) l.

Lemma sorted_nodup h l : sorted h l -> NoDup l.
Proof.
  induction 1 as [|p l Hl IH Hp]; constructor; [|done]. intros Hin.
  rewrite list.Forall_forall in Hp. specialize (Hp p Hin). unfold before in Hp. lia.
Qed.

Lemma sorted_cons h p l : sorted h (p :: l) <-> (forall e, e ∈ l -> before h p e) /\ sorted h l.
Proof.
  split.
  - inversion 1 as [|? ? Hl Hp]; subst. split; [by apply list.Forall_forall|done].
  - intros [Hp Hl]. constructor; [done|by apply list.Forall_forall].
Qed.

Lemma sorted_app h l1 l2 :
  sorted h (l1 ++ l2) <->
    sorted h l1 /\ sorted h l2 /\ forall a b, a ∈ l1 -> b ∈ l2 -> before h a b.
Proof.
  induction l1 as [|p l1 IH]; cbn.
  - split; [intros H; split_and!; [constructor|done|]|by intros (_ & ? & _)].
    intros a b Ha. by apply not_elem_of_nil in Ha.
  - rewrite !sorted_cons, IH. setoid_rewrite elem_of_app. setoid_rewrite elem_of_cons. naive_solver.
Qed.

(** Other objects do not matter. *)
Lemma sorted_store h p t l : p ∉ l -> sorted h l -> sorted (<[p := t]> h) l.
Proof.
  intros Hp. induction l as [|e l IH]; [constructor|]. rewrite !sorted_cons.
  apply not_elem_of_cons in Hp as [Hne Hp]. intros [He Hl]. split; [|by apply IH].
  intros e' Hin. specialize (He e' Hin). unfold before, nxt in *.
  rewrite !lookup_insert_ne by (intros ->; done). done.
Qed.

Lemma known_store h p t l : known h l -> known (<[p := t]> h) l.
Proof.
  intros Hl e He. destruct (decide (e = p)) as [->|]; [rewrite lookup_insert_eq; eauto|].
  rewrite lookup_insert_ne by done. by apply Hl.
Qed.

Lemma known_cons h p l : known h (p :: l) <-> is_Some (h !! p) /\ known h l.
Proof. unfold known. setoid_rewrite elem_of_cons. naive_solver. Qed.

Lemma known_app h l1 l2 : known h (l1 ++ l2) <-> known h l1 /\ known h l2.
Proof. unfold known. setoid_rewrite elem_of_app. naive_solver. Qed.

(** [lower_bound] splits the sequence. *)
Lemma lower_bound_split h p l :
  known h l -> is_Some (h !! p) -> sorted h l ->
  exists l1 l2, l = l1 ++ l2 /\ lower_bound h p l = length l1 /\
    (forall e, e ∈ l1 -> before h e p) /\ (forall e, e ∈ l2 -> ~ before h e p).
Proof.
  intros Hk Hp. induction l as [|e l IH]; intros Hs.
  - exists [], []. split_and!; try done; intros e He; by apply not_elem_of_nil in He.
  - apply known_cons in Hk as [He Hk]. apply sorted_cons in Hs as [Hel Hs].
    cbn [lower_bound]. rewrite less_before by done. case_bool_decide as Hb.
    + destruct (IH Hk Hs) as (l1 & l2 & -> & -> & H1 & H2). exists (e :: l1), l2.
      split_and!; try done. intros e' [->|Hin]%elem_of_cons; auto.
    + exists [], (e :: l). split_and!; try done; [intros e' He'; by apply not_elem_of_nil in He'|].
      intros e' [->|Hin]%elem_of_cons; [done|]. specialize (Hel e' Hin). unfold before in *. lia.
Qed.

Lemma before_total h a b : a <> b -> before h a b \/ before h b a.
Proof. unfold before. lia. Qed.

Lemma set_insert_ok h p l :
  known h l -> is_Some (h !! p) -> sorted h l -> p ∉ l ->
  exists l1 l2, l = l1 ++ l2 /\ set_insert h p l = (l1 ++ p :: l2, length l1) /\
    sorted h (l1 ++ p :: l2).
Proof.
  intros Hk Hp Hs Hni. destruct (lower_bound_split h p l Hk Hp Hs) as (l1 & l2 & -> & Hlb & H1 & H2).
  exists l1, l2. split_and!; [done| |].
  - unfold set_insert. rewrite Hlb. destruct l2 as [|e l2].
    + rewrite app_nil_r. by rewrite lookup_ge_None_2 by lia.
    + rewrite list_lookup_middle by done. rewrite less_before by (done || apply Hk; set_solver).
      rewrite bool_decide_true; [by rewrite take_app_length, drop_app_length|].
      destruct (before_total h p e) as [|Hb]; [set_solver|done|]. exfalso. apply (H2 e); [set_solver|done].
  - apply sorted_app in Hs as (Hs1 & Hs2 & H12). apply sorted_app. rewrite sorted_cons. split_and!; try done.
    + intros e He. destruct (before_total h p e) as [|Hb]; [set_solver|done|]. by apply H2 in Hb.
    + intros a b Ha [->|Hb]%elem_of_cons; auto.
Qed.

Lemma set_find_ok h p l :
  known h l -> sorted h l -> p ∈ l ->
  exists l1 l2, l = l1 ++ p :: l2 /\ set_find h p l = Some (length l1).
Proof.
  intros Hk Hs Hin. pose proof (Hk p Hin) as Hp. pose proof (sorted_nodup _ _ Hs) as Hnd.
  destruct (lower_bound_split h p l Hk Hp Hs) as (l1 & l2 & -> & Hlb & H1 & H2).
  assert (p ∈ l2) as Hin2.
  { apply elem_of_app in Hin as [Hin|]; [|done]. specialize (H1 p Hin). unfold before in H1. lia. }
  destruct l2 as [|e l2]; [by apply not_elem_of_nil in Hin2|].
  assert (e = p) as ->.
  { apply elem_of_cons in Hin2 as [|Hin2]; [done|]. apply sorted_app in Hs as (_ & Hs & _).
    apply sorted_cons in Hs as [He _]. specialize (He p Hin2). exfalso. apply (H2 e); [by left|done]. }
  exists l1, l2. split; [done|]. unfold set_find. rewrite Hlb, list_lookup_middle by done.
  rewrite less_before, bool_decide_false by (done || unfold before; lia). done.
Qed.

(** ** Invariant *)
Record mok m : Prop := {
  mok_known : known (timers m) (m_timers m);
  mok_sorted : sorted (timers m) (m_timers m);
  mok_armed : forall p t, timers m !! p = Some t -> m_cb t <> None -> p ∈ m_timers m;
}.

Lemma sorted_ext h h' l : (forall p, p ∈ l -> nxt h p = nxt h' p) -> sorted h l -> sorted h' l.
Proof.
  induction l as [|e l IH]; [constructor|]. intros Hn. rewrite !sorted_cons. intros [He Hl].
  split; [|apply IH; [|done]; intros; apply Hn; by right].
  intros e' Hin. specialize (He e' Hin). unfold before in *.
  rewrite <- !Hn by (by left || by right). done.
Qed.

Lemma nxt_store_ne h p t e : e <> p -> nxt (<[p := t]> h) e = nxt h e.
Proof. intros. unfold nxt. by rewrite lookup_insert_ne. Qed.

Lemma nxt_lookup h p t : h !! p = Some t -> nxt h p = m_next t.
Proof. intros H. unfold nxt. by rewrite H. Qed.

(** A set without [p] does not mind what happens to [p]. *)
Lemma sorted_without h p t l : p ∉ l -> sorted h l -> sorted (<[p := t]> h) l.
Proof.
  intros Hp. apply sorted_ext. intros e He. symmetry. apply nxt_store_ne. by intros ->.
Qed.

Lemma sorted_removed h l1 p l2 : sorted h (l1 ++ p :: l2) -> sorted h (l1 ++ l2) /\ p ∉ l1 ++ l2.
Proof.
  intros Hs. pose proof (sorted_nodup _ _ Hs) as Hnd.
  apply sorted_app in Hs as (Hs1 & [Hp Hs2]%sorted_cons & H12). split.
  - apply sorted_app. split_and!; try done. intros a b Ha Hb. apply H12; [done|by right].
  - apply list.NoDup_app in Hnd as (_ & Hd & [Hn2 _]%list.NoDup_cons).
    rewrite elem_of_app. intros [Ha|]; [|done]. apply (Hd p Ha). by left.
Qed.

Lemma delete_mid {A} (l1 l2 : list A) x : delete (length l1) (l1 ++ x :: l2) = l1 ++ l2.
Proof. by rewrite delete_middle. Qed.

Lemma timer_deref_ok m p t : timers m !! p = Some t -> deref p m = (Ok t, m).
Proof. intros H. unfold deref, mbind, M_bind. cbn. by rewrite H. Qed.

Definition with_set l b m : TimerManager C :=
  mkTimerManager (timers m) l b (m_previouseTime m).

Lemma addTimer_ptr_ok m p :
  known (timers m) (m_timers m) -> is_Some (timers m !! p) -> sorted (timers m) (m_timers m) ->
  p ∉ m_timers m ->
  exists l1 l2, m_timers m = l1 ++ l2 /\ sorted (timers m) (l1 ++ p :: l2) /\
    let front := Nat.eqb (length l1) 0 && negb (m_tickled m) in
    addTimer_ptr p m = (Ok front, with_set (l1 ++ p :: l2) (front || m_tickled m) m).
Proof.
  intros Hk Hp Hs Hni. destruct (set_insert_ok _ _ _ Hk Hp Hs Hni) as (l1 & l2 & El & Ei & Hs').
  exists l1, l2. split_and!; [done|done|]. cbn zeta. unfold addTimer_ptr.
  rewrite (bind_ok _ _ _ _ _ (eq_refl : get m = (Ok m, m))), Ei.
  rewrite (bind_ok _ _ _ _ _ (eq_refl : put (set_timers (l1 ++ p :: l2) m) m = (Ok tt, _))).
  by destruct (Nat.eqb (length l1) 0 && negb (m_tickled m)).
Qed.

(** Taking an armed timer out of the set and changing it. *)
Lemma find_armed m p t :
  mok m -> timers m !! p = Some t -> m_cb t <> None ->
  exists l1 l2, m_timers m = l1 ++ p :: l2 /\
    set_find (timers m) p (m_timers m) = Some (length l1) /\
    delete (length l1) (m_timers m) = l1 ++ l2 /\
    known (timers m) (l1 ++ l2) /\ sorted (timers m) (l1 ++ l2) /\ p ∉ l1 ++ l2.
Proof.
  intros Hm Hp Hcb. pose proof (mok_armed _ Hm _ _ Hp Hcb) as Hin.
  pose proof (mok_known _ Hm) as Hk. pose proof (mok_sorted _ Hm) as Hs.
  destruct (set_find_ok _ _ _ Hk Hs Hin) as (l1 & l2 & El & Ef). exists l1, l2.
  rewrite El in Hs, Hk. destruct (sorted_removed _ _ _ _ Hs) as [Hs' Hni].
  apply known_app in Hk as [Hk1 [_ Hk2]%known_cons].
  split_and!; try done; [by rewrite El, delete_mid|by apply known_app].
Qed.

(** ** The expiry loop *)
Definition cb_of h p : option C := h !! p ≫= m_cb.

Definition is_recurring h p : Prop :=
  match h !! p with Some t => m_recurring t = true | None => False end.

#[export] Instance is_recurring_dec h p : Decision (is_recurring h p).
Proof. unfold is_recurring. destruct (h !! p); apply _. Defined.

Definition fired (now : Z) (t : Timer C) : Timer C :=
  if m_recurring t then mkTimer true (m_ms t) (u64 (now + m_ms t)) (m_cb t)
  else mkTimer false (m_ms t) (m_next t) None.

Definition after_fire now (ps : list nat) h p : option (Timer C) :=
  if decide (p ∈ ps) then fired now <$> h !! p else h !! p.

Lemma expire_all_ok now ps : forall m,
  known (timers m) (m_timers m) -> sorted (timers m) (m_timers m) -> known (timers m) ps -> NoDup ps ->
  (forall p, p ∈ ps -> p ∉ m_timers m) ->
  exists m', expire_all now ps m = (Ok (cb_of (timers m) <$> ps), m') /\
    known (timers m') (m_timers m') /\ sorted (timers m') (m_timers m') /\
    m_timers m' ≡ₚ m_timers m ++ filter (is_recurring (timers m)) ps /\
    (forall p, timers m' !! p = after_fire now ps (timers m) p) /\
    m_tickled m' = m_tickled m /\ m_previouseTime m' = m_previouseTime m.
Proof.
  induction ps as [|p ps IH]; intros m Hk Hs Hps Hnd Hd.
  { exists m. cbn. rewrite app_nil_r. split_and!; try done. }
  apply known_cons in Hps as [[t Ht] Hps]. apply list.NoDup_cons in Hnd as [Hni Hnd].
  assert (p ∉ m_timers m) as Hpm by (apply Hd; by left).
  set (h1 := <[p := fired now t]> (timers m)).
  assert (exists l, (if m_recurring t then
       modify (store p (mkTimer true (m_ms t) (u64 (now + m_ms t)) (m_cb t)));;
       m ← get;
       put (set_timers (fst (set_insert (timers m) p (m_timers m))) m)
     else modify (store p (mkTimer false (m_ms t) (m_next t) None))) m =
       (Ok tt, mkTimerManager h1 l (m_tickled m) (m_previouseTime m)) /\
     known h1 l /\ sorted h1 l /\ l ≡ₚ m_timers m ++ (if m_recurring t then [p] else [])) as (l & E & Hkl & Hsl & Hl).
  { pose proof (known_store _ p (fired now t) _ Hk) as Hk1. pose proof (sorted_without _ p (fired now t) _ Hpm Hs) as Hs1.
    subst h1. unfold fired in *. destruct (m_recurring t).
    - destruct (set_insert_ok _ p _ Hk1 ltac:(rewrite lookup_insert_eq; eauto) Hs1 Hpm) as (l1 & l2 & El & Ei & Hsi).
      exists (l1 ++ p :: l2). split_and!.
      + unfold mbind, M_bind, modify, get, put. cbn. by rewrite Ei.
      + rewrite El in Hk1. apply known_app in Hk1 as [? ?]. apply known_app. split; [done|].
        apply known_cons. by rewrite lookup_insert_eq.
      + done.
      + rewrite El. solve_Permutation.
    - exists (m_timers m). rewrite app_nil_r. by split_and!. }
  destruct (IH (mkTimerManager h1 l (m_tickled m) (m_previouseTime m)))
    as (m' & E' & Hk' & Hs' & Hl' & Hh' & Htk & Hpv); cbn [timers m_timers] in *; [done|done|by apply known_store|done| |].
  { intros e He. rewrite Hl. rewrite elem_of_app. intros [Hin|Hin].
    - by apply (Hd e); [right|].
    - destruct (m_recurring t); [|by apply not_elem_of_nil in Hin].
      apply list_elem_of_singleton in Hin. by subst. }
  exists m'. split_and!; try done.
  - cbn [expire_all]. rewrite (bind_ok _ _ _ _ _ (timer_deref_ok _ _ _ Ht)), (bind_ok _ _ _ _ _ E).
    rewrite (bind_ok _ _ _ _ _ E'). cbn. unfold mret, M_ret. do 2 f_equal. f_equal.
    + unfold cb_of. by rewrite Ht.
    + apply list_fmap_ext. intros i e He. unfold cb_of, h1. rewrite lookup_insert_ne; [done|].
      intros <-. apply Hni. by eapply list_elem_of_lookup_2.
  - rewrite Hl', Hl, filter_cons.
    rewrite (filter_iff_in (is_recurring h1) (is_recurring (timers m))).
    + destruct (decide (is_recurring (timers m) p)) as [Hr|Hr]; unfold is_recurring in Hr; rewrite Ht in Hr.
      * rewrite Hr. by rewrite <- app_assoc.
      * destruct (m_recurring t); [done|]. by rewrite app_nil_r.
    + intros e He. unfold is_recurring, h1. by rewrite lookup_insert_ne by (intros <-; done).
  - intros e. rewrite Hh'. unfold after_fire, h1. destruct (decide (e = p)) as [->|Hne].
    + rewrite decide_False, decide_True, lookup_insert_eq, Ht by (done || by left). done.
    + rewrite lookup_insert_ne by done. destruct (decide (e ∈ ps)).
      * by rewrite decide_True by by right.
      * rewrite decide_False; [done|]. by intros [|]%elem_of_cons.
Qed.

(** ** [listExpiredCb] *)

(** The clock was set back by more than an hour, or so it looks: within the
    first hour of the clock the subtraction wraps around. *)
Definition rolled_back (now : Z) m : bool :=
  (now <? m_previouseTime m) && (now <? u64 (m_previouseTime m - 60 * 60 * 1000)).

Definition due_at (now : Z) m : list nat :=
  if rolled_back now m then m_timers m
  else filter (fun p => nxt (timers m) p <= now) (m_timers m).

Lemma skip_equal_split now h l :
  known h l -> exists l1 l2, l = l1 ++ l2 /\ skip_equal h now l = length l1 /\
    (forall p, p ∈ l1 -> nxt h p = now) /\ (forall p l3, l2 = p :: l3 -> nxt h p <> now).
Proof.
  induction l as [|p l IH]; intros Hk.
  - exists [], []. split_and!; try done. intros p Hp. by apply not_elem_of_nil in Hp.
  - apply known_cons in Hk as [[t Ht] Hk]. cbn [skip_equal]. rewrite Ht.
    rewrite <- (nxt_lookup _ _ _ Ht). destruct (Z.eqb_spec (nxt h p) now) as [Heq|Hne].
    + destruct (IH Hk) as (l1 & l2 & -> & -> & H1 & H2). exists (p :: l1), l2.
      split_and!; try done. intros e [->|He]%elem_of_cons; auto.
    + exists [], (p :: l). split_and!; try done; [intros e He; by apply not_elem_of_nil in He|].
      by intros e l3 [= -> _].
Qed.

(** The end of the expired range: everything due lies before it. *)
Lemma expired_range now q m :
  mok m -> timers m !! q = None ->
  let h := <[q := mkTimer false 0 now None]> (timers m) in
  let it0 := lower_bound h q (m_timers m) in
  let it := (it0 + skip_equal (timers m) now (drop it0 (m_timers m)))%nat in
  take it (m_timers m) = filter (fun p => nxt (timers m) p <= now) (m_timers m) /\
  drop it (m_timers m) = filter (fun p => ~ nxt (timers m) p <= now) (m_timers m).
Proof.
  intros Hm Hq h it0 it. pose proof (mok_known _ Hm) as Hk. pose proof (mok_sorted _ Hm) as Hs.
  assert (q ∉ m_timers m) as Hqm by (intros Hin; destruct (Hk q Hin); congruence).
  assert (nxt h q = now) as Nq by (unfold nxt, h; by rewrite lookup_insert_eq).
  assert (forall e, e ∈ m_timers m -> nxt h e = nxt (timers m) e) as Ne.
  { intros e He. apply nxt_store_ne. by intros ->. }
  destruct (lower_bound_split h q (m_timers m)) as (l1 & l2 & El & Elb & H1 & H2);
    [by apply known_store|unfold h; rewrite lookup_insert_eq; eauto|by apply sorted_without|].
  assert (it0 = length l1) as Ei0 by done. subst it. rewrite Ei0, El, drop_app_length.
  rewrite El in Hk, Hs. apply known_app in Hk as [Hk1 Hk2]. apply sorted_app in Hs as (_ & Hs2 & _).
  destruct (skip_equal_split now _ _ Hk2) as (l3 & l4 & E34 & -> & H3 & H4). subst l2.
  assert (forall p, p ∈ l1 ++ l3 -> nxt (timers m) p <= now) as Hle.
  { intros p [Hp|Hp]%elem_of_app; [|rewrite (H3 p Hp); lia].
    specialize (H1 p Hp). unfold before in H1. rewrite Nq, Ne in H1 by (rewrite El; set_solver). lia. }
  assert (forall p, p ∈ l4 -> ~ nxt (timers m) p <= now) as Hgt.
  { destruct l4 as [|p l4]; [by intros p Hp%not_elem_of_nil|].
    apply sorted_app in Hs2 as (_ & [Hp _]%sorted_cons & _). specialize (H4 p l4 eq_refl).
    pose proof (H2 p ltac:(set_solver)) as Hb. unfold before in Hb.
    rewrite Nq, Ne in Hb by (rewrite El; set_solver).
    intros e [->|He]%elem_of_cons; [lia|]. specialize (Hp e He). unfold before in Hp. lia. }
  rewrite app_assoc. destruct (filter_split (fun p => nxt (timers m) p <= now) (l1 ++ l3) l4 Hle Hgt) as [-> ->].
  by rewrite <- length_app, take_app_length, drop_app_length.
Qed.

Definition left_at (now : Z) m : list nat :=
  if rolled_back now m then []
  else filter (fun p => ~ nxt (timers m) p <= now) (m_timers m).

Lemma due_or_left now m p : p ∈ m_timers m -> p ∈ due_at now m \/ p ∈ left_at now m.
Proof.
  unfold due_at, left_at. intros Hp. destruct (rolled_back now m); [by left|].
  rewrite !list_elem_of_filter. destruct (decide (nxt (timers m) p <= now)); auto.
Qed.

(** Removing the expired range and running the loop over it. *)
Lemma expire_range_ok now m it :
  mok m -> take it (m_timers m) = due_at now m -> drop it (m_timers m) = left_at now m ->
  forall tick prev,
  exists m', expire_all now (due_at now m) (mkTimerManager (timers m) (left_at now m) tick prev) =
      (Ok (cb_of (timers m) <$> due_at now m), m') /\ mok m' /\
    m_timers m' ≡ₚ left_at now m ++ filter (is_recurring (timers m)) (due_at now m) /\
    (forall p, timers m' !! p = after_fire now (due_at now m) (timers m) p) /\
    m_tickled m' = tick /\ m_previouseTime m' = prev.
Proof.
  intros Hm Ht Hd tick prev. pose proof (mok_known _ Hm) as Hk. pose proof (mok_sorted _ Hm) as Hs.
  pose proof (sorted_nodup _ _ Hs) as Hnd.
  rewrite <- (take_drop it (m_timers m)), Ht, Hd in Hk, Hs, Hnd.
  apply known_app in Hk as [Hk1 Hk2]. apply sorted_app in Hs as (_ & Hs2 & _).
  apply list.NoDup_app in Hnd as (Hnd & Hdis & _).
  destruct (expire_all_ok now (due_at now m) (mkTimerManager (timers m) (left_at now m) tick prev))
    as (m' & E & Hk' & Hs' & Hl' & Hh' & Htk & Hpv); try done. cbn [m_timers timers] in *.
  exists m'. split_and!; try done. split; [done|done|].
  intros p t Hp Hcb. rewrite Hl'. rewrite Hh' in Hp. unfold after_fire in Hp.
  rewrite elem_of_app, list_elem_of_filter. case_decide as Hdue.
  - right. split; [|done]. unfold is_recurring. destruct (timers m !! p) as [t0|]; [|done].
    cbn in Hp. injection Hp as <-. unfold fired in Hcb. by destruct (m_recurring t0).
  - left. destruct (due_or_left now m p); [by eapply mok_armed|done|done].
Qed.

Lemma nothing_due now m p t l :
  mok m -> rolled_back now m = false -> m_timers m = p :: l -> timers m !! p = Some t ->
  now < m_next t -> due_at now m = [] /\ left_at now m = m_timers m.
Proof.
  intros Hm Hr El Ht Hlt. unfold due_at, left_at. rewrite Hr.
  assert (forall e, e ∈ m_timers m -> ~ nxt (timers m) e <= now) as Hall.
  { pose proof (mok_sorted _ Hm) as Hs. rewrite El in *. apply sorted_cons in Hs as [Hb _].
    pose proof (nxt_lookup _ _ _ Ht). intros e [->|He]%elem_of_cons; [lia|].
    specialize (Hb e He). unfold before in Hb. lia. }
  split; [by apply filter_none|by apply filter_all].
Qed.

Lemma listExpiredCb_run now q m :
  mok m -> timers m !! q = None ->
  exists m', listExpiredCb now q m = (Ok (cb_of (timers m) <$> due_at now m), m') /\ mok m' /\
    m_timers m' ≡ₚ left_at now m ++ filter (is_recurring (timers m)) (due_at now m) /\
    (forall p, timers m' !! p = after_fire now (due_at now m) (timers m) p) /\
    m_tickled m' = m_tickled m /\
    m_previouseTime m' = match m_timers m with [] => m_previouseTime m | _ => now end.
Proof.
  intros Hm Hq. unfold listExpiredCb. rewrite (bind_ok _ _ _ _ _ (eq_refl : get m = (Ok m, m))).
  destruct (m_timers m) as [|p l] eqn:El.
  { assert (due_at now m = []) as -> by (unfold due_at; rewrite El; by destruct (rolled_back now m)).
    assert (left_at now m = []) as -> by (unfold left_at; rewrite El; by destruct (rolled_back now m)).
    exists m. rewrite El. by split_and!. }
  set (m1 := mkTimerManager (timers m) (m_timers m) (m_tickled m) now).
  assert (detectClockRollover now m = (Ok (rolled_back now m), m1)) as Er by done.
  rewrite (bind_ok _ _ _ _ _ Er).
  destruct (mok_known _ Hm p) as [t Ht]; [rewrite El; by left|].
  rewrite (bind_ok _ _ _ _ _ (timer_deref_ok m1 p t Ht)).
  destruct (expired_range now q m Hm Hq) as [Etake Edrop].
  destruct (negb (rolled_back now m) && (now <? m_next t)) eqn:Eearly.
  - apply andb_true_iff in Eearly as [Hr Hlt]. apply negb_true_iff in Hr. apply Z.ltb_lt in Hlt.
    destruct (nothing_due now m p t l Hm Hr El Ht Hlt) as [Hdue Hleft].
    destruct (expire_range_ok now m 0 Hm) with (tick := m_tickled m) (prev := now)
      as (m' & E & H); [by rewrite Hdue|by rewrite Hleft|].
    exists m'. split; [|exact H]. rewrite Hdue, Hleft in *. injection E as <-. done.
  - rewrite <- El. set (it := (_ + skip_equal _ _ _)%nat).
    assert (take it (m_timers m) = due_at now m /\ drop it (m_timers m) = left_at now m) as [Hdue Hleft].
    { subst it. unfold due_at, left_at. destruct (rolled_back now m); [|by split].
      rewrite drop_ge by lia. cbn. rewrite Nat.add_0_r, take_ge, drop_ge by lia. done. }
    rewrite Hdue.
    rewrite (bind_ok (modify _) _ m1 tt (mkTimerManager (timers m) (left_at now m) (m_tickled m) now))
      by (unfold modify, set_timers; cbn; by rewrite Hleft).
    by apply (expire_range_ok now m it).
Qed.

(** ** Histories, and what the sleeping thread was told

    A thread sleeps for what [getNextTimer] returned and is woken early by
    [onTimerInsertedAtFront].  [watch] records, beside the manager, the clock,
    when the last [getNextTimer] was made, until when it let its caller sleep
    ([None]: for ever), and whether the front was announced since. *)
Inductive top :=
  | TAdd (p : nat) (ms : Z) (cb : option C) (recurring : bool)
  | TCancel (p : nat)
  | TRefresh (p : nat)
  | TReset (p : nat) (ms : Z) (from_now : bool)
  | TPoll
  | TExpire (q : nat).

Inductive tout := TDone (announced : bool) | TNext (r : Z) | TExpired (cbs : list (option C)).

Definition tstep (now : Z) (o : top) : M (TimerManager C) tout :=
  match o with
  | TAdd p ms cb r => b ← addTimer now p ms cb r; mret (TDone b)
  | TCancel p => _ ← cancel p; mret (TDone false)
  | TRefresh p => _ ← refresh now p; mret (TDone false)
  | TReset p ms from_now => '(_, b) ← reset now p ms from_now; mret (TDone b)
  | TPoll => r ← getNextTimer now; mret (TNext r)
  | TExpire q => cbs ← listExpiredCb now q; mret (TExpired cbs)
  end.

Record watch := mkWatch {
  w_m : TimerManager C;
  w_clock : Z;
  w_asked : Z;
  w_told : option Z;
  w_woken : bool;
}.
Implicit Types (w : watch) (o : top) (now : Z).

Definition observe now (out : tout) m' w : watch :=
  match out with
  | TDone b => mkWatch m' now (w_asked w) (w_told w) (w_woken w || b)
  | TNext r => mkWatch m' now now (if r =? 2 ^ 64 - 1 then None else Some (now + r)) false
  | TExpired _ => mkWatch m' now (w_asked w) (w_told w) (w_woken w)
  end.

Definition watch_step now o w : outcome watch :=
  match tstep now o (w_m w) with
  | (Ok out, m') => Ok (observe now out m' w)
  | (Throw e, _) => Throw e
  | (AssertFail, _) => AssertFail
  | (Undef u, _) => Undef u
  | (NoFuel, _) => NoFuel
  end.

(** Times and intervals below 2^63, a clock that does not run backwards, new
    objects at unused addresses, and handles that came from [addTimer]. *)
Definition top_ok w now o : Prop :=
  w_clock w <= now < 2 ^ 63 /\
  match o with
  | TAdd p ms _ _ => timers (w_m w) !! p = None /\ 0 <= ms < 2 ^ 63
  | TCancel p | TRefresh p => is_Some (timers (w_m w) !! p)
  | TReset p ms _ => is_Some (timers (w_m w) !! p) /\ 0 <= ms < 2 ^ 63
  | TPoll => True
  | TExpire q => timers (w_m w) !! q = None
  end.

Definition timely (clock : Z) (t : Timer C) : Prop :=
  0 <= m_ms t < 2 ^ 63 /\ 0 <= m_next t - m_ms t <= clock.

Definition promised (told : option Z) (asked n : Z) : Prop :=
  match told with None => False | Some d => d <= Z.max n asked end.

Record winv w : Prop := {
  wi_ok : mok (w_m w);
  wi_time : forall p t, timers (w_m w) !! p = Some t -> timely (w_clock w) t;
  wi_clock : 0 <= w_clock w < 2 ^ 63;
  wi_prev : m_previouseTime (w_m w) <= w_clock w;
  wi_woken : m_tickled (w_m w) = w_woken w;
  wi_asked : w_asked w <= w_clock w;
  wi_quiet : w_woken w = true \/
    forall p, p ∈ m_timers (w_m w) -> promised (w_told w) (w_asked w) (nxt (timers (w_m w)) p);
}.

Lemma promised_mono told asked n n' : promised told asked n -> n <= n' -> promised told asked n'.
Proof. destruct told; cbn; [lia|done]. Qed.

Lemma timely_mono c c' t : timely c t -> c <= c' -> timely c' t.
Proof. unfold timely. lia. Qed.

(** The wake-up state after an insertion by [addTimer]. *)
Lemma insert_quiet h l1 p l2 told asked b :
  sorted h (l1 ++ p :: l2) ->
  b = true \/ (forall e, e ∈ l1 ++ l2 -> promised told asked (nxt h e)) ->
  (b || (Nat.eqb (length l1) 0 && negb b)) = true \/
  (forall e, e ∈ l1 ++ p :: l2 -> promised told asked (nxt h e)).
Proof.
  intros Hs [->|Hq]; [by left|]. destruct b; [by left|]. destruct l1 as [|e0 l1]; [by left|right].
  cbn [app] in Hs. apply sorted_cons in Hs as [He0 _].
  intros e He. destruct (decide (e = p)) as [->|]; [|apply Hq; set_solver].
  eapply promised_mono; [apply (Hq e0); set_solver|].
  specialize (He0 p ltac:(set_solver)). unfold before in He0. lia.
Qed.

Lemma known_mid h l1 p l2 : known h (l1 ++ l2) -> is_Some (h !! p) -> known h (l1 ++ p :: l2).
Proof. intros [H1 H2]%known_app Hp. apply known_app. split; [done|]. by apply known_cons. Qed.

(** [addTimer(val, lock)] of an object that is not in the set. *)
Lemma addTimer_ptr_winv w now p t l :
  known (timers (w_m w)) l -> sorted (timers (w_m w)) l -> p ∉ l ->
  (forall e t', timers (w_m w) !! e = Some t' -> m_cb t' <> None -> e <> p -> e ∈ l) ->
  (forall e, e ∈ l -> e ∈ m_timers (w_m w)) ->
  winv w -> w_clock w <= now < 2 ^ 63 -> timely now t ->
  exists b m', addTimer_ptr p (store p t (set_timers l (w_m w))) = (Ok b, m') /\
    winv (observe now (TDone b) m' w).
Proof.
  intros Hk Hs Hni Harm Hsub Hw Hnow Ht. set (h := <[p := t]> (timers (w_m w))).
  destruct (addTimer_ptr_ok (store p t (set_timers l (w_m w))) p) as (l1 & l2 & El & Hs' & E);
    [by apply known_store|cbn; rewrite lookup_insert_eq; eauto|by apply sorted_without|done|].
  cbn [store set_timers m_timers timers m_tickled] in *. fold h in Hs', E. subst l.
  eexists _, _. split; [exact E|]. split; cbn.
  - split; cbn.
    + apply known_mid; [by apply known_store|unfold h; rewrite lookup_insert_eq; eauto].
    + done.
    + intros e t' He Hcb. destruct (decide (e = p)) as [->|]; [set_solver|].
      unfold h in He. rewrite lookup_insert_ne in He by done.
      specialize (Harm e t' He Hcb ltac:(done)). set_solver.
  - intros e t' He. destruct (decide (e = p)) as [->|].
    + unfold h in He. rewrite lookup_insert_eq in He. by injection He as <-.
    + unfold h in He. rewrite lookup_insert_ne in He by done.
      eapply timely_mono; [by eapply wi_time|lia].
  - pose proof (wi_clock _ Hw). lia.
  - pose proof (wi_prev _ Hw). lia.
  - rewrite (wi_woken _ Hw). apply orb_comm.
  - pose proof (wi_asked _ Hw). lia.
  - rewrite (wi_woken _ Hw). apply (insert_quiet h); [done|].
    destruct (wi_quiet _ Hw) as [|Hq]; [by left|right].
    intros e He. unfold h. rewrite nxt_store_ne by (intros ->; done). auto.
Qed.

(** One lemma per operation: it returns, and the invariant holds after it. *)
Definition step_ok w now o : Prop := exists w', watch_step now o w = Ok w' /\ winv w'.

Lemma step_intro w now o out m' :
  tstep now o (w_m w) = (Ok out, m') -> winv (observe now out m' w) -> step_ok w now o.
Proof. intros E Hw. exists (observe now out m' w). unfold watch_step. by rewrite E. Qed.

Lemma idle_winv w now : winv w -> w_clock w <= now < 2 ^ 63 -> winv (observe now (TDone false) (w_m w) w).
Proof.
  intros [] Hnow. split; cbn; try done; try lia.
  - intros p t Hp. eapply timely_mono; [eauto|lia].
  - by rewrite orb_false_r.
  - by rewrite orb_false_r.
Qed.

Lemma timely_next now t : timely now t -> now < 2 ^ 63 -> in_u 64 (m_next t).
Proof. unfold timely, in_u. lia. Qed.

Lemma TAdd_ok w now p ms cb r : winv w -> top_ok w now (TAdd p ms cb r) -> step_ok w now (TAdd p ms cb r).
Proof.
  intros Hw (Hnow & Hp & Hms). pose proof (wi_ok _ Hw) as Hm. pose proof (wi_clock _ Hw).
  destruct (addTimer_ptr_winv w now p (mkTimer r ms (u64 (now + ms)) cb) (m_timers (w_m w)))
    as (b & m' & E & Hw'); try done; try apply Hm.
  - intros Hin. destruct (mok_known _ Hm p Hin). congruence.
  - intros e t' He Hcb _. by eapply mok_armed.
  - rewrite (uwrap_id 64) by (unfold in_u; lia). unfold timely. cbn. lia.
  - eapply step_intro; [|exact Hw']. cbn [tstep].
    rewrite (bind_ok (addTimer now p ms cb r) _ _ b m'); [done|]. unfold addTimer.
    by rewrite (bind_ok _ _ _ tt (store p (mkTimer r ms (u64 (now + ms)) cb) (w_m w))).
Qed.

Lemma TCancel_ok w now p : winv w -> top_ok w now (TCancel p) -> step_ok w now (TCancel p).
Proof.
  intros Hw (Hnow & [t Ht]). pose proof (wi_ok _ Hw) as Hm. pose proof (wi_clock _ Hw).
  destruct (m_cb t) as [f|] eqn:Hcb.
  - destruct (find_armed _ p t Hm Ht) as (l1 & l2 & El & Ef & Ed & Hk & Hs & Hni); [congruence|].
    set (t0 := mkTimer (m_recurring t) (m_ms t) (m_next t) (@None C)).
    set (m' := set_timers (l1 ++ l2) (store p t0 (w_m w))).
    assert (tstep now (TCancel p) (w_m w) = (Ok (TDone false), m')) as E.
    { cbn [tstep]. unfold cancel. rewrite (bind_ok _ _ _ true m'); [done|].
      rewrite (bind_ok _ _ _ _ _ (timer_deref_ok _ _ _ Ht)), Hcb.
      rewrite (bind_ok _ _ _ tt (store p t0 (w_m w))) by done.
      rewrite (bind_ok _ _ _ _ _ (eq_refl : get (store p t0 (w_m w)) = (Ok _, _))).
      cbn [timers store m_timers].
      destruct (set_find_ok (<[p:=t0]> (timers (w_m w))) p (m_timers (w_m w))) as (k1 & k2 & Ek & ->).
      - apply known_store, Hm.
      - eapply sorted_ext; [|apply Hm]. intros e _. destruct (decide (e = p)) as [->|].
        + rewrite (nxt_lookup _ _ _ Ht). unfold nxt. by rewrite lookup_insert_eq.
        + by rewrite nxt_store_ne.
      - rewrite El. set_solver.
      - rewrite Ek, delete_mid. assert (k1 ++ k2 = l1 ++ l2) as ->; [|done].
        rewrite El in Ek. pose proof (sorted_nodup _ _ (mok_sorted _ Hm)) as Hnd. rewrite El in Hnd.
        rewrite <- (delete_mid k1 k2 p), <- (delete_mid l1 l2 p), Ek. f_equal.
        apply (NoDup_lookup (l1 ++ p :: l2) _ _ p Hnd); [rewrite Ek|]; by rewrite list_lookup_middle. }
    eapply step_intro; [exact E|]. split; cbn; try (rewrite orb_false_r); try lia.
    + split; cbn; [by apply known_store|by apply sorted_without|].
      intros e t' He Hcb'. destruct (decide (e = p)) as [->|].
      * rewrite lookup_insert_eq in He. by injection He as <-.
      * rewrite lookup_insert_ne in He by done. pose proof (mok_armed _ Hm e t' He Hcb').
        rewrite El in *. set_solver.
    + intros e t'. destruct (decide (e = p)) as [->|].
      * rewrite lookup_insert_eq. intros [= <-].
        pose proof (wi_time _ Hw p t Ht) as Htm. unfold timely in *. cbn. lia.
      * rewrite lookup_insert_ne by done. intros He. eapply timely_mono; [by eapply wi_time|lia].
    + pose proof (wi_prev _ Hw). lia.
    + apply Hw.
    + pose proof (wi_asked _ Hw). lia.
    + destruct (wi_quiet _ Hw) as [|Hq]; [by left|right]. intros e He.
      rewrite nxt_store_ne by (by intros ->). apply Hq. rewrite El. set_solver.
  - eapply step_intro; [|by apply idle_winv]. cbn [tstep]. unfold cancel.
    rewrite (bind_ok _ _ _ false (w_m w)); [done|].
    by rewrite (bind_ok _ _ _ _ _ (timer_deref_ok _ _ _ Ht)), Hcb.
Qed.

(** [refresh] postpones: its silent insertion cannot move the front forward. *)
Lemma TRefresh_ok w now p : winv w -> top_ok w now (TRefresh p) -> step_ok w now (TRefresh p).
Proof.
  intros Hw (Hnow & [t Ht]). pose proof (wi_ok _ Hw) as Hm. pose proof (wi_clock _ Hw).
  pose proof (wi_time _ Hw p t Ht) as Htm.
  destruct (m_cb t) as [f|] eqn:Hcb.
  - destruct (find_armed _ p t Hm Ht) as (l1 & l2 & El & Ef & Ed & Hk & Hs & Hni); [congruence|].
    set (t0 := mkTimer (m_recurring t) (m_ms t) (u64 (now + m_ms t)) (Some f)).
    assert (m_next t0 = now + m_ms t) as Hn0 by (cbn; apply uwrap_id; unfold timely, in_u in *; lia).
    set (h := <[p := t0]> (timers (w_m w))).
    destruct (set_insert_ok h p (l1 ++ l2)) as (k1 & k2 & Ek & Ei & Hs');
      [by apply known_store|unfold h; rewrite lookup_insert_eq; eauto|by apply sorted_without|done|].
    set (m' := mkTimerManager h (k1 ++ p :: k2) (m_tickled (w_m w)) (m_previouseTime (w_m w))).
    assert (tstep now (TRefresh p) (w_m w) = (Ok (TDone false), m')) as E.
    { cbn [tstep]. rewrite (bind_ok (refresh now p) _ _ true m'); [done|].
      unfold refresh. rewrite (bind_ok _ _ _ _ _ (timer_deref_ok _ _ _ Ht)), Hcb.
      rewrite (bind_ok _ _ _ _ _ (eq_refl : get (w_m w) = (Ok _, _))), Ef.
      unfold mbind, M_bind. cbn. rewrite Ed. fold t0 h. by rewrite Ei. }
    eapply step_intro; [exact E|]. split; cbn; try (rewrite orb_false_r); try lia.
    + split; cbn; [| done|].
      * apply known_mid; [rewrite <- Ek; by apply known_store|unfold h; rewrite lookup_insert_eq; eauto].
      * intros e t' He Hcb'. destruct (decide (e = p)) as [->|]; [set_solver|].
        unfold h in He. rewrite lookup_insert_ne in He by done.
        pose proof (mok_armed _ Hm e t' He Hcb') as Hin.
        assert (e ∈ l1 ++ l2) as Hin' by (rewrite El in Hin; set_solver). rewrite Ek in Hin'. set_solver.
    + intros e t'. unfold h. destruct (decide (e = p)) as [->|].
      * rewrite lookup_insert_eq. intros [= <-]. unfold timely in *. rewrite Hn0. cbn. lia.
      * rewrite lookup_insert_ne by done. intros He. eapply timely_mono; [by eapply wi_time|lia].
    + pose proof (wi_prev _ Hw). lia.
    + apply Hw.
    + pose proof (wi_asked _ Hw). lia.
    + destruct (wi_quiet _ Hw) as [|Hq]; [by left|right].
      intros e He. unfold h. destruct (decide (e = p)) as [->|Hne].
      * eapply promised_mono; [apply (Hq p); rewrite El; set_solver|].
        rewrite (nxt_lookup _ _ _ Ht). unfold nxt. rewrite lookup_insert_eq, Hn0. unfold timely in Htm. lia.
      * rewrite nxt_store_ne by done. apply Hq. rewrite El.
        assert (e ∈ k1 ++ k2) as Hin by set_solver. rewrite <- Ek in Hin. set_solver.
  - eapply step_intro; [|by apply idle_winv]. cbn [tstep]. unfold refresh.
    rewrite (bind_ok _ _ _ false (w_m w)); [done|].
    by rewrite (bind_ok _ _ _ _ _ (timer_deref_ok _ _ _ Ht)), Hcb.
Qed.

Lemma TReset_ok w now p ms b : winv w -> top_ok w now (TReset p ms b) -> step_ok w now (TReset p ms b).
Proof.
  intros Hw (Hnow & [t Ht] & Hms). pose proof (wi_ok _ Hw) as Hm. pose proof (wi_clock _ Hw).
  pose proof (wi_time _ Hw p t Ht) as Htm. unfold step_ok.
  assert (forall r, reset now p ms b (w_m w) = (Ok (r, false), w_m w) -> step_ok w now (TReset p ms b)) as Hidle.
  { intros r E. eapply step_intro; [|by apply idle_winv]. cbn [tstep]. by rewrite (bind_ok _ _ _ _ _ E). }
  destruct ((ms =? m_ms t) && negb b) eqn:Hsame.
  { apply (Hidle true). unfold reset. by rewrite (bind_ok _ _ _ _ _ (timer_deref_ok _ _ _ Ht)), Hsame. }
  destruct (m_cb t) as [f|] eqn:Hcb.
  2: { apply (Hidle false). unfold reset. by rewrite (bind_ok _ _ _ _ _ (timer_deref_ok _ _ _ Ht)), Hsame, Hcb. }
  destruct (find_armed _ p t Hm Ht) as (l1 & l2 & El & Ef & Ed & Hk & Hs & Hni); [congruence|].
  set (start := if b then now else u64 (m_next t - m_ms t)).
  assert (0 <= start <= now) as Hstart.
  { subst start. unfold timely in Htm. destruct b; [lia|]. rewrite (uwrap_id 64) by (unfold in_u; lia). lia. }
  set (t0 := mkTimer (m_recurring t) ms (u64 (start + ms)) (Some f)).
  destruct (addTimer_ptr_winv w now p t0 (l1 ++ l2)) as (fr & m' & E & Hw'); try done.
  - intros e t' He Hcb' Hne. pose proof (mok_armed _ Hm e t' He Hcb') as Hin. rewrite El in Hin. set_solver.
  - intros e He. rewrite El. set_solver.
  - subst t0. unfold timely. cbn. rewrite (uwrap_id 64) by (unfold in_u; lia). lia.
  - eapply step_intro; [|exact Hw']. cbn [tstep].
    rewrite (bind_ok (reset now p ms b) _ _ (true, fr) m'); [done|].
    unfold reset. rewrite (bind_ok _ _ _ _ _ (timer_deref_ok _ _ _ Ht)), Hsame, Hcb.
    rewrite (bind_ok _ _ _ _ _ (eq_refl : get (w_m w) = (Ok _, _))), Ef, Ed. fold start t0.
    rewrite (bind_ok _ _ _ tt (set_timers (l1 ++ l2) (w_m w))) by done.
    rewrite (bind_ok _ _ _ tt (store p t0 (set_timers (l1 ++ l2) (w_m w)))) by done.
    by rewrite (bind_ok _ _ _ _ _ E).
Qed.

(** The value of [getNextTimer]. *)
Definition next_wait now m : Z :=
  match m_timers m with
  | [] => 2 ^ 64 - 1
  | p :: _ => Z.max 0 (nxt (timers m) p - now)
  end.

Lemma getNextTimer_eq now m :
  mok m -> 0 <= now -> (forall p t, timers m !! p = Some t -> in_u 64 (m_next t)) ->
  getNextTimer now m = (Ok (next_wait now m), set_tickled false m).
Proof.
  intros Hm Hnow Hu. unfold getNextTimer, next_wait.
  rewrite (bind_ok _ _ _ tt (set_tickled false m)) by done.
  rewrite (bind_ok _ _ _ _ _ (eq_refl : get (set_tickled false m) = (Ok _, _))). cbn [m_timers set_tickled].
  destruct (m_timers m) as [|p l] eqn:El; [done|].
  destruct (mok_known _ Hm p) as [t Ht]; [rewrite El; by left|].
  rewrite (bind_ok _ _ _ _ _ (timer_deref_ok (set_tickled false m) p t Ht)), (nxt_lookup _ _ _ Ht).
  specialize (Hu p t Ht). unfold in_u in Hu.
  destruct (Z.leb_spec (m_next t) now).
  - rewrite Z.max_l by lia. done.
  - rewrite Z.max_r by lia. rewrite (uwrap_id 64) by (unfold in_u; lia). done.
Qed.

Lemma TPoll_ok w now : winv w -> top_ok w now TPoll -> step_ok w now TPoll.
Proof.
  intros Hw (Hnow & _). pose proof (wi_ok _ Hw) as Hm. pose proof (wi_clock _ Hw).
  assert (forall p t, timers (w_m w) !! p = Some t -> in_u 64 (m_next t)) as Hu.
  { intros p t Hp. pose proof (wi_time _ Hw p t Hp). unfold timely, in_u in *. lia. }
  eapply step_intro; [cbn [tstep]; by rewrite (bind_ok _ _ _ _ _ (getNextTimer_eq now _ Hm ltac:(lia) Hu))|].
  split; cbn; try done; try lia; try apply Hm.
  - split; apply Hm.
  - intros p t Hp. eapply timely_mono; [by eapply wi_time|lia].
  - pose proof (wi_prev _ Hw). lia.
  - right. unfold next_wait. pose proof (mok_sorted _ Hm) as Hs.
    destruct (m_timers (w_m w)) as [|p l] eqn:El; [by intros p Hp%not_elem_of_nil|].
    destruct (mok_known _ Hm p) as [t Ht]; [rewrite El; by left|].
    pose proof (nxt_lookup _ _ _ Ht) as Hn. pose proof (wi_time _ Hw p t Ht) as Htm. unfold timely in Htm.
    rewrite (proj2 (Z.eqb_neq _ _)) by lia. cbn [promised].
    apply sorted_cons in Hs as [Hb _]. intros e [->|He]%elem_of_cons; [lia|].
    specialize (Hb e He). unfold before in Hb. lia.
Qed.

Lemma TExpire_ok w now q : winv w -> top_ok w now (TExpire q) -> step_ok w now (TExpire q).
Proof.
  intros Hw (Hnow & Hq). pose proof (wi_ok _ Hw) as Hm. pose proof (wi_clock _ Hw).
  pose proof (wi_prev _ Hw).
  destruct (listExpiredCb_run now q _ Hm Hq) as (m' & E & Hm' & Hl' & Hh' & Htk & Hpv).
  assert (rolled_back now (w_m w) = false) as Hr.
  { unfold rolled_back. by rewrite (proj2 (Z.ltb_ge _ _)) by lia. }
  eapply step_intro; [cbn [tstep]; by rewrite (bind_ok _ _ _ _ _ E)|].
  split; cbn; try done; try lia.
  - intros p t. rewrite Hh'. unfold after_fire. case_decide as Hdue.
    + destruct (timers (w_m w) !! p) as [t0|] eqn:Hp; [|done]. cbn. intros [= <-].
      pose proof (wi_time _ Hw p t0 Hp) as Htm. unfold timely, fired in *.
      destruct (m_recurring t0); cbn; [|lia]. rewrite (uwrap_id 64) by (unfold in_u; lia). lia.
    + intros Hp. eapply timely_mono; [by eapply wi_time|lia].
  - rewrite Hpv. destruct (m_timers (w_m w)); lia.
  - rewrite Htk. apply Hw.
  - pose proof (wi_asked _ Hw). lia.
  - destruct (wi_quiet _ Hw) as [|Hquiet]; [by left|right].
    intros p Hp. rewrite Hl' in Hp. apply elem_of_app in Hp as [Hp|[Hrec Hp]%list_elem_of_filter].
    + unfold left_at in Hp. rewrite Hr in Hp. apply list_elem_of_filter in Hp as [Hn Hp].
      unfold nxt. rewrite Hh'. unfold after_fire. rewrite decide_False; [by apply Hquiet|].
      unfold due_at. rewrite Hr, list_elem_of_filter. tauto.
    + unfold nxt. rewrite Hh'. unfold after_fire. rewrite decide_True by done.
      unfold due_at in Hp. rewrite Hr in Hp. apply list_elem_of_filter in Hp as [Hn Hp].
      specialize (Hquiet p Hp). eapply promised_mono; [exact Hquiet|].
      unfold is_recurring in Hrec. destruct (timers (w_m w) !! p) as [t|] eqn:Ht; [|done].
      pose proof (wi_time _ Hw p t Ht) as Htm. cbn. unfold fired. rewrite Hrec. cbn.
      rewrite (nxt_lookup _ _ _ Ht) in Hn. rewrite (nxt_lookup _ _ _ Ht).
      unfold timely in Htm. rewrite (uwrap_id 64) by (unfold in_u; lia). lia.
Qed.

Lemma step_winv w now o : winv w -> top_ok w now o -> step_ok w now o.
Proof.
  intros. destruct o; eauto using TAdd_ok, TCancel_ok, TRefresh_ok, TReset_ok, TPoll_ok, TExpire_ok.
Qed.

Fixpoint watch_run (evs : list (Z * top)) w : outcome watch :=
  match evs with
  | [] => Ok w
  | (now, o) :: evs =>
    match watch_step now o w with Ok w => watch_run evs w | r => r end
  end.

Fixpoint tops_ok (evs : list (Z * top)) w : Prop :=
  match evs with
  | [] => True
  | (now, o) :: evs => top_ok w now o /\
    match watch_step now o w with Ok w => tops_ok evs w | _ => True end
  end.

#[export] Instance top_ok_dec w now o : Decision (top_ok w now o).
Proof. destruct o; apply _. Defined.

#[export] Instance tops_ok_dec evs : forall w, Decision (tops_ok evs w).
Proof.
  induction evs as [|[now o] evs IH]; intros w; cbn; [apply _|].
  destruct (watch_step now o w); apply _.
Defined.

Definition watch_new now : watch := mkWatch (TimerManager_new now) now now None false.

Lemma watch_new_inv now : 0 <= now < 2 ^ 63 -> winv (watch_new now).
Proof.
  intros. split; cbn; try done; try lia.
  - split; cbn; [by intros p Hp%not_elem_of_nil|constructor|].
    intros p t. by rewrite lookup_empty.
  - right. by intros p Hp%not_elem_of_nil.
Qed.

(** ** What the timer set guarantees *)

(** C10: [listExpiredCb] returns the callbacks of exactly the timers that are
    due, earliest first ([m_timers] is sorted by due time), and leaves exactly
    the others and the recurring ones, which are due again one period from
    now; the others are disarmed.  After the clock was set back by more than
    an hour every timer counts as due. *)
Theorem listExpiredCb_exact now q m :
  mok m -> timers m !! q = None ->
  exists m', listExpiredCb now q m = (Ok (cb_of (timers m) <$> due_at now m), m') /\ mok m' /\
    m_timers m' ≡ₚ left_at now m ++ filter (is_recurring (timers m)) (due_at now m) /\
    (forall p, timers m' !! p =
      if decide (p ∈ due_at now m) then fired now <$> timers m !! p else timers m !! p).
Proof.
  intros Hm Hq. destruct (listExpiredCb_run now q m Hm Hq) as (m' & E & Hm' & Hl & Hh & _).
  by exists m'.
Qed.

(** Every valid history of the timer set runs without undefined behaviour
    ([cancel] always finds the timer it erases) and keeps the set sorted with
    every armed timer in it; and no wake-up is missed: unless the sleeping
    thread was notified since it last asked, no timer is due before the time
    until which [getNextTimer] let it sleep. *)
Theorem no_missed_wakeup start evs :
  0 <= start < 2 ^ 63 -> tops_ok evs (watch_new start) ->
  exists w, watch_run evs (watch_new start) = Ok w /\ mok (w_m w) /\
    (w_woken w = true \/
     forall p, p ∈ m_timers (w_m w) -> promised (w_told w) (w_asked w) (nxt (timers (w_m w)) p)).
Proof.
  intros Hs. generalize (watch_new_inv start Hs). generalize (watch_new start). clear.
  induction evs as [|[now o] evs IH]; intros w Hw Hok.
  - exists w. split_and!; [done|by apply wi_ok|by apply wi_quiet].
  - destruct Hok as [Ho Hok]. cbn [watch_run]. destruct (step_winv w now o Hw Ho) as (w' & E & Hw').
    rewrite E in *. by apply IH.
Qed.

(** [getNextTimer] returns the time to the earliest timer: until then
    nothing is due, at that time something is, and without timers it returns
    the largest value of its type. *)
Theorem getNextTimer_exact now m :
  mok m -> 0 <= now -> (forall p t, timers m !! p = Some t -> in_u 64 (m_next t)) ->
  exists r, getNextTimer now m = (Ok r, set_tickled false m) /\
    (m_timers m = [] -> r = 2 ^ 64 - 1) /\
    (m_timers m <> [] ->
      (forall p, p ∈ m_timers m -> r = 0 \/ now + r <= nxt (timers m) p) /\
      exists p, p ∈ m_timers m /\ nxt (timers m) p <= now + r).
Proof.
  intros Hm Hnow Hu. exists (next_wait now m). split; [by apply getNextTimer_eq|].
  unfold next_wait. pose proof (mok_sorted _ Hm) as Hs. destruct (m_timers m) as [|p l] eqn:El; [by split|].
  split; [done|]. intros _. apply sorted_cons in Hs as [Hb _]. split.
  - intros e He. assert (nxt (timers m) p <= nxt (timers m) e) as Hle.
    { apply elem_of_cons in He as [->|He]; [lia|]. specialize (Hb e He). unfold before in Hb. lia. }
    destruct (decide (nxt (timers m) p <= now)); [left; lia|right; lia].
  - exists p. split; [by left|lia].
Qed.

(** The roll-back test: true exactly for a time before the previous one by
    more than an hour, and, because the subtraction is unsigned, for every
    time before the previous one as long as that lies in the first hour. *)
Theorem detectClockRollover_exact now m :
  in_u 64 (m_previouseTime m) -> 0 <= now ->
  detectClockRollover now m =
    (Ok (bool_decide (now < m_previouseTime m /\
           (m_previouseTime m < 3600000 \/ now < m_previouseTime m - 3600000))),
     mkTimerManager (timers m) (m_timers m) (m_tickled m) now).
Proof.
  unfold in_u. intros Hp Hn.
  assert (detectClockRollover now m = (Ok (rolled_back now m),
    mkTimerManager (timers m) (m_timers m) (m_tickled m) now)) as -> by done.
  do 2 f_equal. unfold rolled_back, uwrap. apply eq_bool_prop_intro.
  rewrite andb_True, !Is_true_true, Z.ltb_lt, Z.ltb_lt, bool_decide_eq_true.
  destruct (Z.lt_ge_cases (m_previouseTime m) 3600000).
  - replace (m_previouseTime m - 60 * 60 * 1000)
      with (2 ^ 64 + (m_previouseTime m - 3600000) + (-1) * 2 ^ 64) by lia.
    rewrite Z_mod_plus_full, Z.mod_small by lia. lia.
  - rewrite Z.mod_small by lia. lia.
Qed.
End manager.

(** ** The theorems on concrete sets *)
Definition demo_timers : TimerManager nat :=
  snd ((addTimer 1000 10 50 (Some 1%nat) false;; addTimer 1000 7 20 (Some 2%nat) true;;
        addTimer 1005 9 45 (Some 3%nat) false) (TimerManager_new 1000)).

Lemma demo_timers_ok : mok demo_timers.
Proof.
  split.
  - intros p. vm_compute. intros Hp. repeat (apply elem_of_cons in Hp as [->|Hp]; [eauto|]).
    by apply not_elem_of_nil in Hp.
  - change (StronglySorted (before (timers demo_timers)) [7;9;10]%nat).
    repeat constructor; apply (bool_decide_unpack _); vm_compute; exact I.
  - intros p t Hp _. change (p ∈ [7;9;10]%nat).
    assert (p ∈ dom (timers demo_timers)) as Hd by (apply elem_of_dom; eauto).
    assert (dom (timers demo_timers) = {[7;9;10]}%nat) as E by (vm_compute; reflexivity).
    rewrite E in Hd. set_solver.
Qed.

Lemma listExpiredCb_exact_witness :
  exists m', listExpiredCb 1050 20 demo_timers = (Ok [Some 2; Some 3; Some 1]%nat, m') /\ mok m' /\
    m_timers m' ≡ₚ [7]%nat /\
    (forall p, timers m' !! p =
      if decide (p ∈ [7;9;10]%nat) then fired 1050 <$> timers demo_timers !! p else timers demo_timers !! p).
Proof.
  exact (listExpiredCb_exact 1050 20 demo_timers demo_timers_ok ltac:(vm_compute; reflexivity)).
Defined.

Lemma no_missed_wakeup_witness :
  let evs := [(1000, TPoll); (1000, TAdd 10 50 (Some 1%nat) false); (1010, TPoll);
              (1020, TAdd 7 100 (Some 2%nat) true); (1030, TReset 7 5 false); (1030, TCancel 10)] in
  exists w, watch_run evs (watch_new 1000) = Ok w /\ mok (w_m w) /\
    (w_woken w = true \/
     forall p, p ∈ m_timers (w_m w) -> promised (w_told w) (w_asked w) (nxt (timers (w_m w)) p)).
Proof.
  apply no_missed_wakeup; [lia|]. apply (bool_decide_unpack _). vm_compute. exact I.
Defined.

Lemma getNextTimer_exact_witness :
  exists r, getNextTimer 1012 demo_timers = (Ok r, set_tickled false demo_timers) /\
    (m_timers demo_timers = [] -> r = 2 ^ 64 - 1) /\
    (m_timers demo_timers <> [] ->
      (forall p, p ∈ m_timers demo_timers -> r = 0 \/ 1012 + r <= nxt (timers demo_timers) p) /\
      exists p, p ∈ m_timers demo_timers /\ nxt (timers demo_timers) p <= 1012 + r).
Proof.
  apply (getNextTimer_exact 1012 demo_timers demo_timers_ok); [lia|].
  intros p t Hp. assert (map_Forall (fun _ t => in_u 64 (m_next t)) (timers demo_timers)) as H.
  { apply (bool_decide_unpack _). unfold in_u. vm_compute. exact I. }
  exact (H p t Hp).
Defined.

Lemma detectClockRollover_exact_witness :
  detectClockRollover 5 (TimerManager_new (C:=nat) 10) =
    (Ok true, mkTimerManager ∅ [] false 5).
Proof.
  rewrite (detectClockRollover_exact 5 (TimerManager_new 10)); [|unfold in_u; cbn; lia|lia].
  vm_compute. reflexivity.
Defined.
