(* ===== verification/FiberSched.v ===== *)
(** What the fiber primitives of mutex.cpp need from fibers and schedulers.

    A fiber is a number.  A blocking call first queues the fiber under the
    primitive's thread lock and only then calls [Fiber::YieldToHold], so a
    wake-up ([Scheduler::Schedule]) may come before the fiber has yielded; the
    scheduler resumes a scheduled fiber once it is on hold. *)
From stdpp Require Import gmap functions.
From S2P Require Import Prelude.

Inductive fiber_state :=
  | EXEC                     (* running *)
  | YIELDING                 (* queued, about to call [YieldToHold] *)
  | HOLD                     (* suspended *)
  | SIGNALLING (next : nat). (* between the two critical sections of [signal] *)

#[export] Instance fiber_state_eq_dec : EqDecision fiber_state.
Proof. solve_decision. Defined.

(** Fibers that are not in the map run and have never blocked. *)
Abbreviation states := (gmap nat fiber_state).
Definition state_of (st : states) (f : nat) : fiber_state := default EXEC (st !! f).

Definition parked (st : states) (f : nat) : Prop :=
  state_of st f = YIELDING \/ state_of st f = HOLD.

#[export] Instance parked_dec st f : Decision (parked st f).
Proof. unfold parked. apply _. Defined.

(** [Fiber::YieldToHold] *)
Definition YieldToHold (f : nat) (st : states) : states := <[f := HOLD]> st.

Lemma state_of_insert st f s g : state_of (<[f := s]> st) g = if decide (g = f) then s else state_of st g.
Proof.
  unfold state_of. case_decide as Hg; [subst; by rewrite lookup_insert_eq|by rewrite lookup_insert_ne].
Qed.

Lemma parked_insert st f s g :
  parked (<[f := s]> st) g <-> if decide (g = f) then s = YIELDING \/ s = HOLD else parked st g.
Proof. unfold parked. rewrite state_of_insert. by case_decide. Qed.

(** Case analysis on the fiber that moved, for functions from fibers to the
    place they are in, and the equations between places that remain. *)
Ltac move_case g f :=
  destruct (decide (g = f)) as [?|?]; [subst|];
  rewrite ?fn_lookup_insert in *; rewrite ?fn_lookup_insert_ne in * by done.

Ltac places := try done; intuition congruence.
