(* ===== verification/FiberMutex.v ===== *)
(** mutex.cpp: [FiberMutex] and [FiberCondition].

    Every method body runs under the thread lock [m_mutex] and is one step;
    [signal] has two critical sections and is two steps.  The waiting queues
    hold fibers: the scheduler of each queued pair is the fiber's own.
    [ready] is the list of fibers that were handed to [Schedule] and have not
    been resumed yet. *)
From stdpp Require Import gmap functions.
From S2P Require Import Prelude FiberSched.

Record FiberMutex := mkFiberMutex {
  m_owner : option nat;
  m_waiters : list nat;          (* FiberMutex::m_waiters *)
  c_waiters : list nat;          (* FiberCondition::m_waiters *)
  fibers : states;
  ready : list nat;
}.

Definition FiberMutex_new : FiberMutex := mkFiberMutex None [] [] ∅ [].

Section mutex.
(** [Scheduler::GetThis()] is not null. *)
Context (in_scheduler : nat -> bool).
Implicit Types (s : FiberMutex) (f g : nat).

Definition set_fiber f (x : fiber_state) s : FiberMutex :=
  mkFiberMutex (m_owner s) (m_waiters s) (c_waiters s) (<[f := x]> (fibers s)) (ready s).
Definition set_owner (o : option nat) s : FiberMutex :=
  mkFiberMutex o (m_waiters s) (c_waiters s) (fibers s) (ready s).
Definition set_waiters (q : list nat) s : FiberMutex :=
  mkFiberMutex (m_owner s) q (c_waiters s) (fibers s) (ready s).
Definition set_cwaiters (q : list nat) s : FiberMutex :=
  mkFiberMutex (m_owner s) (m_waiters s) q (fibers s) (ready s).

(** [next.first->Schedule(next.second)] *)
Definition Schedule f : M FiberMutex unit :=
  modify (fun s => mkFiberMutex (m_owner s) (m_waiters s) (c_waiters s) (fibers s) (ready s ++ [f])).

Definition lock f : M FiberMutex unit :=
  assert (in_scheduler f);;
  s ← get;
  assert (bool_decide (m_owner s <> Some f));;
  assert (bool_decide (f ∉ m_waiters s));;
  match m_owner s with
  | None => put (set_owner (Some f) s)
  | Some _ => put (set_fiber f YIELDING (set_waiters (m_waiters s ++ [f]) s))
  end.

Definition unlockNoLock f : M FiberMutex unit :=
  s ← get;
  assert (bool_decide (m_owner s = Some f));;
  put (set_owner None s);;
  match m_waiters s with
  | [] => mret tt
  | next :: q =>
    modify (set_waiters q);;
    modify (set_owner (Some next));;
    Schedule next
  end.

Definition unlock f : M FiberMutex unit := unlockNoLock f.

Definition unlockIfNotUnique f : M FiberMutex bool :=
  s ← get;
  assert (bool_decide (m_owner s = Some f));;
  match m_waiters s with
  | [] => mret false
  | _ => unlockNoLock f;; mret true
  end.

(** [FiberCondition::wait] up to its [YieldToHold]. *)
Definition wait f : M FiberMutex unit :=
  assert (in_scheduler f);;
  s ← get;
  assert (bool_decide (m_owner s = Some f));;
  put (set_cwaiters (c_waiters s ++ [f]) s);;
  unlockNoLock f;;
  modify (set_fiber f YIELDING).

(** A woken waiter takes the lock or queues for it. *)
Definition grant next : M FiberMutex unit :=
  s ← get;
  assert (bool_decide (m_owner s <> Some next));;
  assert (bool_decide (next ∉ m_waiters s));;
  match m_owner s with
  | None => put (set_owner (Some next) s);; Schedule next
  | Some _ => put (set_waiters (m_waiters s ++ [next]) s)
  end.

(** The first critical section of [signal], by fiber [f]. *)
Definition signal f : M FiberMutex unit :=
  s ← get;
  match c_waiters s with
  | [] => mret tt
  | next :: q => put (set_fiber f (SIGNALLING next) (set_cwaiters q s))
  end.

(** The second one. *)
Definition signal_grant f next : M FiberMutex unit :=
  grant next;; modify (set_fiber f EXEC).

Fixpoint broadcast_loop (q : list nat) : M FiberMutex unit :=
  match q with
  | [] => mret tt
  | next :: q => grant next;; broadcast_loop q
  end.

Definition broadcast : M FiberMutex unit :=
  s ← get;
  match c_waiters s with
  | [] => mret tt
  | q => broadcast_loop q;; modify (set_cwaiters [])
  end.

(** [YieldToHold] of a queued fiber, and the scheduler resuming a ready one. *)
Definition yield f : M FiberMutex unit := modify (set_fiber f HOLD).
Definition resume f : M FiberMutex unit :=
  modify (fun s => mkFiberMutex (m_owner s) (m_waiters s) (c_waiters s) (<[f := EXEC]> (fibers s))
    (filter (fun g => g <> f) (ready s))).

(** ** Steps *)
Inductive action :=
  | ALock (f : nat) | AUnlock (f : nat) | AUnlockIfNotUnique (f : nat)
  | AWait (f : nat) | ASignal (f : nat) | AGrant (f next : nat) | ABroadcast (f : nat)
  | AYield (f : nat) | AResume (f : nat).

Definition perform (a : action) : M FiberMutex unit :=
  match a with
  | ALock f => lock f
  | AUnlock f => unlock f
  | AUnlockIfNotUnique f => _ ← unlockIfNotUnique f; mret tt
  | AWait f => wait f
  | ASignal f => signal f
  | AGrant f next => signal_grant f next
  | ABroadcast f => broadcast
  | AYield f => yield f
  | AResume f => resume f
  end.

(** What can happen next, callers respecting the documented preconditions: a
    fiber calls while it runs, locks what it does not own, and unlocks and
    waits on what it owns. *)
Definition enabled (a : action) s : Prop :=
  match a with
  | ALock f => state_of (fibers s) f = EXEC /\ in_scheduler f = true /\ m_owner s <> Some f
  | AUnlock f | AUnlockIfNotUnique f => state_of (fibers s) f = EXEC /\ m_owner s = Some f
  | AWait f => state_of (fibers s) f = EXEC /\ in_scheduler f = true /\ m_owner s = Some f
  | ASignal f | ABroadcast f => state_of (fibers s) f = EXEC
  | AGrant f next => state_of (fibers s) f = SIGNALLING next
  | AYield f => state_of (fibers s) f = YIELDING
  | AResume f => state_of (fibers s) f = HOLD /\ f ∈ ready s
  end.

#[export] Instance enabled_dec a s : Decision (enabled a s).
Proof. destruct a; cbn; apply _. Defined.

Fixpoint steps (acts : list action) : M FiberMutex unit :=
  match acts with
  | [] => mret tt
  | a :: acts => perform a;; steps acts
  end.

Fixpoint all_enabled (acts : list action) s : Prop :=
  match acts with
  | [] => True
  | a :: acts => enabled a s /\ all_enabled acts (snd (perform a s))
  end.

#[export] Instance all_enabled_dec acts : forall s, Decision (all_enabled acts s).
Proof. induction acts; intros s; cbn; apply _. Defined.

(** ** Invariant *)

(** Fibers whose wake-up is in the hands of a [signal] in progress. *)
Definition in_flight s f : Prop := exists g, state_of (fibers s) g = SIGNALLING f.

(** Where a suspended fiber is: in the queue of the lock, in the queue of the
    condition, in a [signal] in progress, in the ready list, or, in the middle
    of a step, in the hand of the code. *)
Inductive place := Running | InLock | InCondition | InSignal | IsReady | InHand.

#[local] Instance place_eq_dec : EqDecision place.
Proof. solve_decision. Defined.

Record placed (pl : nat -> place) s : Prop := {
  pl_lock : forall f, f ∈ m_waiters s <-> pl f = InLock;
  pl_condition : forall f, f ∈ c_waiters s <-> pl f = InCondition;
  pl_signal : forall f, in_flight s f <-> pl f = InSignal;
  pl_ready : forall f, f ∈ ready s <-> pl f = IsReady;
  pl_parked : forall f, parked (fibers s) f <-> pl f <> Running;
  pl_nodup : NoDup (m_waiters s) /\ NoDup (c_waiters s);
  pl_signal1 : forall f g g', state_of (fibers s) g = SIGNALLING f ->
    state_of (fibers s) g' = SIGNALLING f -> g = g';
  pl_owner : forall f, m_owner s = Some f -> pl f = Running \/ pl f = IsReady;
  pl_handoff : forall f, pl f = IsReady -> m_owner s = Some f;
  pl_free : m_owner s = None -> m_waiters s = [];
}.

Definition minv s : Prop := exists pl, placed pl s /\ forall f, pl f <> InHand.

Lemma exec_running pl s f : placed pl s -> ~ parked (fibers s) f -> pl f = Running.
Proof.
  intros Hs Hp. destruct (decide (pl f = Running)) as [|Hn]; [done|].
  exfalso. by apply Hp, (pl_parked _ _ Hs).
Qed.

Lemma exec_not_parked st f : state_of st f = EXEC -> ~ parked st f.
Proof. unfold parked. intros ->. by intros [|]. Qed.

(** What [grant] does when its assertions hold. *)
Definition granted next s : FiberMutex :=
  match m_owner s with
  | None => mkFiberMutex (Some next) (m_waiters s) (c_waiters s) (fibers s) (ready s ++ [next])
  | Some _ => set_waiters (m_waiters s ++ [next]) s
  end.

Lemma grant_eq next s :
  m_owner s <> Some next -> next ∉ m_waiters s -> grant next s = (Ok tt, granted next s).
Proof.
  intros Ho Hq. unfold grant, granted, mbind, M_bind, get, assert. cbn.
  rewrite !bool_decide_true by done. by destruct (m_owner s).
Qed.

Lemma hand_grant pl next s : placed pl s -> pl next = InHand -> grant next s = (Ok tt, granted next s).
Proof.
  intros Hs Hn. apply grant_eq.
  - intros Ho. destruct (pl_owner _ _ Hs _ Ho); congruence.
  - rewrite (pl_lock _ _ Hs). congruence.
Qed.

Lemma granted_placed pl next s :
  placed pl s -> pl next = InHand ->
  placed (<[next := match m_owner s with Some _ => InLock | None => IsReady end]> pl) (granted next s).
Proof.
  intros Hs Hn. unfold granted. destruct (m_owner s) as [o|] eqn:Ho; destruct Hs; split; cbn [m_waiters
    c_waiters ready fibers m_owner set_waiters].
  - intros g. rewrite elem_snoc, pl_lock0. move_case g next; places.
  - intros g. rewrite pl_condition0. move_case g next; places.
  - intros g. change (in_flight (set_waiters (m_waiters s ++ [next]) s) g) with (in_flight s g).
    rewrite pl_signal0. move_case g next; places.
  - intros g. rewrite pl_ready0. move_case g next; places.
  - intros g. rewrite pl_parked0. move_case g next; places.
  - split; [apply nodup_snoc; [apply pl_nodup0|]|apply pl_nodup0]. rewrite pl_lock0. congruence.
  - done.
  - intros g Hg. specialize (pl_owner0 g Hg). move_case g next; [|done]. destruct pl_owner0; congruence.
  - intros g. move_case g next; [done|]. apply pl_handoff0.
  - intros Hc. congruence.
  - intros g. rewrite pl_lock0. move_case g next; places.
  - intros g. rewrite pl_condition0. move_case g next; places.
  - intros g. unfold in_flight in *. cbn. rewrite pl_signal0. move_case g next; places.
  - intros g. rewrite elem_snoc, pl_ready0. move_case g next; places.
  - intros g. rewrite pl_parked0. move_case g next; places.
  - done.
  - done.
  - intros g [= <-]. rewrite fn_lookup_insert. by right.
  - intros g. move_case g next; [done|]. intros Hg%pl_handoff0. congruence.
  - done.
Qed.

Definition not_signalling (x : fiber_state) : Prop := forall y, x <> SIGNALLING y.

(** A change of state that has nothing to do with [signal]. *)
Lemma in_flight_set s s' f x g :
  fibers s' = <[f := x]> (fibers s) -> not_signalling (state_of (fibers s) f) -> not_signalling x ->
  in_flight s' g <-> in_flight s g.
Proof.
  intros E Hf Hx. unfold in_flight. rewrite E. split; intros (h & Hh).
  - rewrite state_of_insert in Hh. case_decide; [by apply Hx in Hh|by exists h].
  - exists h. rewrite state_of_insert. case_decide; [subst; by apply Hf in Hh|done].
Qed.

Lemma signal1_set s s' f x :
  fibers s' = <[f := x]> (fibers s) -> not_signalling x ->
  (forall h g g', state_of (fibers s) g = SIGNALLING h -> state_of (fibers s) g' = SIGNALLING h -> g = g') ->
  forall h g g', state_of (fibers s') g = SIGNALLING h -> state_of (fibers s') g' = SIGNALLING h -> g = g'.
Proof.
  intros E Hx H h g g'. rewrite E, !state_of_insert. repeat case_decide; subst; try done; intros Hg Hg';
    try (by apply Hx in Hg); try (by apply Hx in Hg'). by eapply H.
Qed.

(** A running fiber queues for the lock. *)
Lemma park_lock pl s f o :
  placed pl s -> pl f = Running -> not_signalling (state_of (fibers s) f) ->
  m_owner s = Some o -> o <> f ->
  placed (<[f := InLock]> pl) (set_fiber f YIELDING (set_waiters (m_waiters s ++ [f]) s)).
Proof.
  intros Hs Hf Hst Ho Hne. pose proof (in_flight_set s
    (set_fiber f YIELDING (set_waiters (m_waiters s ++ [f]) s)) f YIELDING) as Hfl.
  destruct Hs; split; cbn [m_waiters c_waiters ready m_owner set_waiters set_fiber].
  - intros g. rewrite elem_snoc, pl_lock0. move_case g f; places.
  - intros g. rewrite pl_condition0. move_case g f; places.
  - intros g. rewrite Hfl, pl_signal0 by done. move_case g f; places.
  - intros g. rewrite pl_ready0. move_case g f; places.
  - intros g. cbn [fibers set_fiber set_waiters set_cwaiters]. rewrite parked_insert. case_decide; rewrite ?pl_parked0; move_case g f; places.
  - split; [apply nodup_snoc; [apply pl_nodup0|]|apply pl_nodup0]. rewrite pl_lock0. congruence.
  - by apply (signal1_set s _ f YIELDING).
  - intros g Hg. specialize (pl_owner0 g Hg). move_case g f; places.
  - intros g. specialize (pl_handoff0 g). move_case g f; places.
  - congruence.
Qed.

(** A running fiber queues on the condition. *)
Lemma park_condition pl s f :
  placed pl s -> pl f = Running -> not_signalling (state_of (fibers s) f) -> m_owner s <> Some f ->
  placed (<[f := InCondition]> pl) (set_fiber f YIELDING (set_cwaiters (c_waiters s ++ [f]) s)).
Proof.
  intros Hs Hf Hst Ho. pose proof (in_flight_set s
    (set_fiber f YIELDING (set_cwaiters (c_waiters s ++ [f]) s)) f YIELDING) as Hfl.
  destruct Hs; split; cbn [m_waiters c_waiters ready m_owner set_cwaiters set_fiber].
  - intros g. rewrite pl_lock0. move_case g f; places.
  - intros g. rewrite elem_snoc, pl_condition0. move_case g f; places.
  - intros g. rewrite Hfl, pl_signal0 by done. move_case g f; places.
  - intros g. rewrite pl_ready0. move_case g f; places.
  - intros g. cbn [fibers set_fiber set_waiters set_cwaiters]. rewrite parked_insert. case_decide; rewrite ?pl_parked0; move_case g f; places.
  - split; [apply pl_nodup0|apply nodup_snoc; [apply pl_nodup0|]]. rewrite pl_condition0. congruence.
  - by apply (signal1_set s _ f YIELDING).
  - intros g Hg. specialize (pl_owner0 g Hg). move_case g f; places.
  - intros g. specialize (pl_handoff0 g). move_case g f; places.
  - done.
Qed.

(** The effect of [unlockNoLock]. *)
Definition unlocked s : FiberMutex :=
  match m_waiters s with
  | [] => set_owner None s
  | next :: q => mkFiberMutex (Some next) q (c_waiters s) (fibers s) (ready s ++ [next])
  end.

Lemma unlockNoLock_eq f s : m_owner s = Some f -> unlockNoLock f s = (Ok tt, unlocked s).
Proof.
  intros Ho. unfold unlockNoLock, unlocked, mbind, M_bind, get, assert, put. cbn.
  rewrite bool_decide_true by done. by destruct (m_waiters s).
Qed.

Definition after_unlock pl s : nat -> place :=
  match m_waiters s with [] => pl | next :: _ => <[next := IsReady]> pl end.

Lemma unlocked_placed pl s f :
  placed pl s -> m_owner s = Some f -> pl f = Running -> placed (after_unlock pl s) (unlocked s).
Proof.
  intros Hs Ho Hf. unfold unlocked, after_unlock. destruct (m_waiters s) as [|next q] eqn:Hq.
  - destruct Hs; split; cbn [m_waiters c_waiters ready m_owner set_owner fibers]; try done.
    + intros g Hg. apply pl_handoff0 in Hg as Hg'. rewrite Ho in Hg'. places.
  - assert (pl next = InLock) as Hn by (apply (pl_lock _ _ Hs); rewrite Hq; by left).
    assert (forall g, pl g <> IsReady) as Hnr.
    { intros g Hg. pose proof (pl_handoff _ _ Hs g Hg). places. }
    pose proof (pl_nodup _ _ Hs) as [Hnd _]. rewrite Hq in Hnd. apply list.NoDup_cons in Hnd as [Hni Hnd].
    pose proof (pl_lock _ _ Hs) as Hlock. rewrite Hq in Hlock. setoid_rewrite elem_of_cons in Hlock.
    destruct Hs; split; cbn [m_waiters c_waiters ready m_owner fibers].
    + intros g. specialize (Hlock g). move_case g next; [places|]. rewrite <- Hlock. places.
    + intros g. rewrite pl_condition0. move_case g next; places.
    + intros g. unfold in_flight in *. cbn. rewrite pl_signal0. move_case g next; places.
    + intros g. rewrite elem_snoc, pl_ready0. move_case g next; places.
    + intros g. rewrite pl_parked0. move_case g next; places.
    + split; [done|apply pl_nodup0].
    + done.
    + intros g [= <-]. rewrite fn_lookup_insert. by right.
    + intros g. specialize (Hnr g). move_case g next; places.
    + done.
Qed.

(** The front of the condition's queue is taken. *)
Lemma pop_condition pl s next q :
  placed pl s -> c_waiters s = next :: q ->
  placed (<[next := InHand]> pl) (set_cwaiters q s) /\ pl next = InCondition.
Proof.
  intros Hs Hq. pose proof (pl_condition _ _ Hs) as Hcond. rewrite Hq in Hcond.
  assert (pl next = InCondition) as Hn by (apply Hcond; by left). split; [|done].
  pose proof (pl_nodup _ _ Hs) as [_ Hnd]. rewrite Hq in Hnd. apply list.NoDup_cons in Hnd as [Hni Hnd].
  setoid_rewrite elem_of_cons in Hcond.
  destruct Hs; split; cbn [m_waiters c_waiters ready m_owner fibers set_cwaiters].
  - intros g. rewrite pl_lock0. move_case g next; places.
  - intros g. specialize (Hcond g). move_case g next; [places|]. rewrite <- Hcond. places.
  - intros g. change (in_flight (set_cwaiters q s) g) with (in_flight s g). rewrite pl_signal0.
    move_case g next; places.
  - intros g. rewrite pl_ready0. move_case g next; places.
  - intros g. rewrite pl_parked0. move_case g next; places.
  - split; [apply pl_nodup0|done].
  - done.
  - intros g Hg. specialize (pl_owner0 g Hg). move_case g next; places.
  - intros g. specialize (pl_handoff0 g). move_case g next; places.
  - done.
Qed.

(** [signal] keeps the popped fiber in a local variable. *)
Lemma start_signal pl s f next :
  placed pl s -> pl next = InHand -> state_of (fibers s) f = EXEC ->
  placed (<[next := InSignal]> pl) (set_fiber f (SIGNALLING next) s).
Proof.
  intros Hs Hn Hf. assert (pl f = Running) as Hrun by (eapply exec_running, exec_not_parked; done).
  assert (f <> next) as Hne by places.
  assert (forall g, in_flight (set_fiber f (SIGNALLING next) s) g <-> in_flight s g \/ g = next) as Hfl.
  { intros g. unfold in_flight. cbn [fibers set_fiber]. setoid_rewrite state_of_insert. split.
    - intros (h & Hh). case_decide; [right; congruence|left; by exists h].
    - intros [(h & Hh)| ->]; [|exists f; by rewrite decide_True].
      exists h. rewrite decide_False; [done|]. intros ->. congruence. }
  assert (~ in_flight s next) as Hnf by (rewrite (pl_signal _ _ Hs); congruence).
  destruct Hs; split; cbn [m_waiters c_waiters ready m_owner set_fiber].
  - intros g. rewrite pl_lock0. move_case g next; places.
  - intros g. rewrite pl_condition0. move_case g next; places.
  - intros g. rewrite Hfl, pl_signal0. move_case g next; places.
  - intros g. rewrite pl_ready0. move_case g next; places.
  - intros g. cbn [fibers set_fiber set_waiters set_cwaiters]. rewrite parked_insert. case_decide; rewrite ?pl_parked0; move_case g next; subst; places.
  - done.
  - intros h g g'. cbn [fibers set_fiber]. rewrite !state_of_insert. repeat case_decide; subst; try done; intros Hg Hg'.
    + exfalso. apply Hnf. exists g'. congruence.
    + exfalso. apply Hnf. exists g. congruence.
    + by eapply pl_signal2.
  - intros g Hg. specialize (pl_owner0 g Hg). move_case g next; places.
  - intros g. specialize (pl_handoff0 g). move_case g next; places.
  - done.
Qed.

(** The signaller takes it up again. *)
Lemma finish_signal pl s f next :
  placed pl s -> state_of (fibers s) f = SIGNALLING next ->
  placed (<[next := InHand]> pl) (set_fiber f EXEC s).
Proof.
  intros Hs Hf. assert (pl next = InSignal) as Hn by (apply (pl_signal _ _ Hs); by exists f).
  assert (pl f = Running) as Hrun.
  { eapply exec_running; [done|]. unfold parked. rewrite Hf. by intros [|]. }
  assert (f <> next) as Hne by places.
  assert (forall g, in_flight (set_fiber f EXEC s) g <-> in_flight s g /\ g <> next) as Hfl.
  { intros g. unfold in_flight. cbn [fibers set_fiber]. setoid_rewrite state_of_insert. split.
    - intros (h & Hh). case_decide; [done|]. split; [by exists h|]. intros ->.
      apply H. by apply (pl_signal1 _ _ Hs next).
    - intros ((h & Hh) & Hgn). exists h. rewrite decide_False; [done|]. intros ->. congruence. }
  destruct Hs; split; cbn [m_waiters c_waiters ready m_owner set_fiber].
  - intros g. rewrite pl_lock0. move_case g next; places.
  - intros g. rewrite pl_condition0. move_case g next; places.
  - intros g. rewrite Hfl, pl_signal0. move_case g next; places.
  - intros g. rewrite pl_ready0. move_case g next; places.
  - intros g. cbn [fibers set_fiber set_waiters set_cwaiters]. rewrite parked_insert. case_decide; rewrite ?pl_parked0; move_case g next; subst; places.
  - done.
  - by apply (signal1_set s _ f EXEC).
  - intros g Hg. specialize (pl_owner0 g Hg). move_case g next; places.
  - intros g. specialize (pl_handoff0 g). move_case g next; places.
  - done.
Qed.

(** ** Every step *)

Definition step_ok (a : action) s : Prop := exists s', perform a s = (Ok tt, s') /\ minv s'.

Lemma lock_ok f s : minv s -> enabled (ALock f) s -> step_ok (ALock f) s.
Proof.
  intros (pl & Hs & Hh) (Hf & Hsch & Ho). pose proof (exec_not_parked _ _ Hf) as Hp.
  pose proof (exec_running _ _ _ Hs Hp) as Hrun.
  assert (f ∉ m_waiters s) as Hq by (rewrite (pl_lock _ _ Hs); congruence).
  unfold step_ok. cbn [perform]. unfold lock.
  rewrite (bind_ok _ _ _ _ _ (assert_true _ s Hsch)), (bind_ok _ _ _ _ _ (eq_refl : get s = (Ok s, s))).
  rewrite (bind_ok _ _ _ _ _ (assert_true _ s (bool_decide_eq_true_2 _ Ho))).
  rewrite (bind_ok _ _ _ _ _ (assert_true _ s (bool_decide_eq_true_2 _ Hq))).
  destruct (m_owner s) as [o|] eqn:Eo; eexists; (split; [done|]).
  - exists (<[f := InLock]> pl). split.
    + apply (park_lock pl s f o); try done; [unfold not_signalling; by rewrite Hf|congruence].
    + intros g. specialize (Hh g). move_case g f; done.
  - exists pl. split; [|done]. destruct Hs; split; cbn [m_waiters c_waiters ready m_owner fibers set_owner]; try done.
    + intros g [= <-]. by left.
    + intros g Hg%pl_handoff0. congruence.
Qed.

Lemma after_unlock_hand pl s : (forall f, pl f <> InHand) -> forall f, after_unlock pl s f <> InHand.
Proof.
  intros Hh g. unfold after_unlock. destruct (m_waiters s) as [|next q]; [done|].
  specialize (Hh g). move_case g next; done.
Qed.

Lemma unlock_ok f s : minv s -> enabled (AUnlock f) s -> step_ok (AUnlock f) s.
Proof.
  intros (pl & Hs & Hh) (Hf & Ho). exists (unlocked s). split; [by apply unlockNoLock_eq|].
  exists (after_unlock pl s). split; [|by apply after_unlock_hand].
  eapply unlocked_placed; [done..|]. by eapply exec_running, exec_not_parked.
Qed.

Lemma unlockIfNotUnique_ok f s :
  minv s -> enabled (AUnlockIfNotUnique f) s -> step_ok (AUnlockIfNotUnique f) s.
Proof.
  intros Hs (Hf & Ho). unfold step_ok. cbn [perform]. unfold unlockIfNotUnique.
  destruct (m_waiters s) as [|next q] eqn:Hq.
  - exists s. split; [|done]. rewrite (bind_ok _ _ _ false s); [done|].
    rewrite (bind_ok _ _ _ _ _ (eq_refl : get s = (Ok s, s))), Hq.
    by rewrite (bind_ok _ _ _ _ _ (assert_true _ s (bool_decide_eq_true_2 _ Ho))).
  - destruct (unlock_ok f s Hs (conj Hf Ho)) as (s' & E & Hs'). exists s'. split; [|done].
    rewrite (bind_ok _ _ _ true s'); [done|].
    rewrite (bind_ok _ _ _ _ _ (eq_refl : get s = (Ok s, s))), Hq.
    rewrite (bind_ok _ _ _ _ _ (assert_true _ s (bool_decide_eq_true_2 _ Ho))).
    by rewrite (bind_ok _ _ _ _ _ (E : unlockNoLock f s = _)).
Qed.

Lemma wait_ok f s : minv s -> enabled (AWait f) s -> step_ok (AWait f) s.
Proof.
  intros (pl & Hs & Hh) (Hf & Hsch & Ho). pose proof (exec_not_parked _ _ Hf) as Hp.
  pose proof (exec_running _ _ _ Hs Hp) as Hrun.
  set (s1 := unlocked s). set (s2 := set_fiber f YIELDING (set_cwaiters (c_waiters s1 ++ [f]) s1)).
  exists s2. split.
  - cbn [perform]. unfold wait.
    rewrite (bind_ok _ _ _ _ _ (assert_true _ s Hsch)), (bind_ok _ _ _ _ _ (eq_refl : get s = (Ok s, s))).
    rewrite (bind_ok _ _ _ _ _ (assert_true _ s (bool_decide_eq_true_2 _ Ho))).
    rewrite (bind_ok _ _ _ tt (set_cwaiters (c_waiters s ++ [f]) s)) by done.
    rewrite (bind_ok _ _ _ tt (set_cwaiters (c_waiters s1 ++ [f]) s1)); [done|].
    rewrite unlockNoLock_eq by done. do 2 f_equal. subst s1. unfold unlocked. cbn.
    by destruct (m_waiters s).
  - assert (after_unlock pl s f = Running) as Hrun1.
    { unfold after_unlock. destruct (m_waiters s) as [|next q] eqn:Hq; [done|].
      assert (pl next = InLock) by (apply (pl_lock _ _ Hs); rewrite Hq; by left).
      move_case f next; places. }
    assert (fibers s1 = fibers s) as Hfib by (subst s1; unfold unlocked; by destruct (m_waiters s)).
    assert (m_owner s1 <> Some f) as Ho1.
    { subst s1. unfold unlocked. destruct (m_waiters s) as [|next q] eqn:Hq; [done|]. cbn. intros [= ->].
      assert (pl f = InLock) by (apply (pl_lock _ _ Hs); rewrite Hq; by left). congruence. }
    exists (<[f := InCondition]> (after_unlock pl s)). split.
    + apply park_condition; try done; [by eapply unlocked_placed|].
      rewrite Hfib. unfold not_signalling. by rewrite Hf.
    + intros g. pose proof (after_unlock_hand pl s Hh g). move_case g f; done.
Qed.

Lemma signal_ok f s : minv s -> enabled (ASignal f) s -> step_ok (ASignal f) s.
Proof.
  intros (pl & Hs & Hh) Hf. unfold step_ok. cbn [perform]. unfold signal.
  rewrite (bind_ok _ _ _ _ _ (eq_refl : get s = (Ok s, s))).
  destruct (c_waiters s) as [|next q] eqn:Hq; [exists s; split; [done|by exists pl]|].
  eexists; split; [done|]. destruct (pop_condition pl s next q Hs Hq) as [Hs1 Hn].
  eexists. split; [apply start_signal; [exact Hs1|apply fn_lookup_insert|done]|].
  intros g. specialize (Hh g). move_case g next; done.
Qed.

Lemma grant_minv pl s next :
  placed pl s -> pl next = InHand -> (forall g, g <> next -> pl g <> InHand) -> minv (granted next s).
Proof.
  intros Hs Hn Hh. eexists. split; [by apply granted_placed|].
  intros g. specialize (Hh g). destruct (m_owner s); move_case g next; auto.
Qed.

Lemma signal_grant_ok f next s : minv s -> enabled (AGrant f next) s -> step_ok (AGrant f next) s.
Proof.
  intros (pl & Hs & Hh) Hf. pose proof (finish_signal pl s f next Hs Hf) as Hs1.
  exists (granted next (set_fiber f EXEC s)). split.
  - cbn [perform]. unfold signal_grant.
    pose proof (hand_grant _ next _ Hs1 (fn_lookup_insert _ _ _)) as E.
    assert (grant next s = (Ok tt, granted next s)) as E1.
    { assert (pl next = InSignal) by (apply (pl_signal _ _ Hs); by exists f).
      apply grant_eq; [intros Ho; destruct (pl_owner _ _ Hs _ Ho); congruence|].
      rewrite (pl_lock _ _ Hs). congruence. }
    rewrite (bind_ok _ _ _ _ _ E1). unfold granted. cbn. by destruct (m_owner s).
  - eapply grant_minv; [exact Hs1|apply fn_lookup_insert|].
    intros g Hg. rewrite fn_lookup_insert_ne by done. apply Hh.
Qed.

(** The loop of [broadcast] works on the fibers that are still queued. *)
Lemma broadcast_loop_ok q : forall s, minv (set_cwaiters q s) ->
  exists s', broadcast_loop q s = (Ok tt, s') /\ minv (set_cwaiters [] s').
Proof.
  induction q as [|next q IH]; intros s (pl & Hs & Hh); [by exists s; split; [|exists pl]|].
  destruct (pop_condition pl _ next q Hs eq_refl) as [Hs1 Hn].
  change (set_cwaiters q (set_cwaiters (next :: q) s)) with (set_cwaiters q s) in Hs1.
  pose proof (hand_grant _ next _ Hs1 (fn_lookup_insert _ _ _)) as E.
  assert (grant next s = (Ok tt, granted next s)) as E1.
  { apply grant_eq; [intros Ho; destruct (pl_owner _ _ Hs _ Ho); congruence|].
    pose proof (pl_lock _ _ Hs next) as Hl. cbn in Hl. rewrite Hl. congruence. }
  destruct (IH (granted next s)) as (s' & E2 & Hs').
  { replace (set_cwaiters q (granted next s)) with (granted next (set_cwaiters q s))
      by (unfold granted; cbn; by destruct (m_owner s)).
    eapply grant_minv; [exact Hs1|apply fn_lookup_insert|].
    intros g Hg. rewrite fn_lookup_insert_ne by done. apply Hh. }
  exists s'. split; [|done]. cbn [broadcast_loop]. by rewrite (bind_ok _ _ _ _ _ E1).
Qed.

Lemma broadcast_ok f s : minv s -> enabled (ABroadcast f) s -> step_ok (ABroadcast f) s.
Proof.
  intros Hs _. unfold step_ok. cbn [perform]. unfold broadcast.
  rewrite (bind_ok _ _ _ _ _ (eq_refl : get s = (Ok s, s))).
  destruct (c_waiters s) as [|next q] eqn:Hq; [by exists s|]. rewrite <- Hq.
  destruct (broadcast_loop_ok (c_waiters s) s) as (s' & E & Hs').
  { destruct s; exact Hs. }
  exists (set_cwaiters [] s'). split; [|done]. by rewrite (bind_ok _ _ _ _ _ E).
Qed.

Lemma yield_ok f s : minv s -> enabled (AYield f) s -> step_ok (AYield f) s.
Proof.
  intros (pl & Hs & Hh) Hf. eexists; split; [done|]. exists pl. split; [|done].
  assert (not_signalling (state_of (fibers s) f)) as Hst by (cbn in Hf; unfold not_signalling; by rewrite Hf).
  pose proof (in_flight_set s (set_fiber f HOLD s) f HOLD) as Hfl.
  assert (parked (fibers s) f) as Hp by by left.
  destruct Hs; split; cbn [m_waiters c_waiters ready m_owner set_fiber]; try done.
  - intros g. by rewrite Hfl.
  - intros g. cbn [fibers set_fiber]. rewrite parked_insert. case_decide; [subst|done].
    rewrite <- pl_parked0. split; [done|by right].
  - by apply (signal1_set s _ f HOLD).
Qed.

Lemma resume_ok f s : minv s -> enabled (AResume f) s ->
  exists s', perform (AResume f) s = (Ok tt, s') /\ minv s' /\ m_owner s' = Some f.
Proof.
  intros (pl & Hs & Hh) [Hf Hr]. eexists; split; [done|]. set (s' := mkFiberMutex _ _ _ _ _).
  assert (not_signalling (state_of (fibers s) f)) as Hst by (unfold not_signalling; by rewrite Hf).
  pose proof (in_flight_set s s' f EXEC) as Hfl.
  assert (pl f = IsReady) as Hpl by by apply (pl_ready _ _ Hs).
  pose proof (pl_handoff _ _ Hs _ Hpl) as Ho. split; [|done].
  exists (<[f := Running]> pl). split.
  - destruct Hs; split; cbn [m_waiters c_waiters ready m_owner s']; try done.
    + intros g. rewrite pl_lock0. move_case g f; places.
    + intros g. rewrite pl_condition0. move_case g f; places.
    + intros g. rewrite Hfl, pl_signal0 by done. move_case g f; places.
    + intros g. rewrite list_elem_of_filter, pl_ready0. move_case g f; places.
    + intros g. cbn [fibers s']. rewrite parked_insert. case_decide; rewrite ?pl_parked0; move_case g f; places.
    + by apply (signal1_set s _ f EXEC).
    + intros g Hg. specialize (pl_owner0 g Hg). move_case g f; places.
    + intros g. specialize (pl_handoff0 g). move_case g f; places.
  - intros g. specialize (Hh g). move_case g f; done.
Qed.

Lemma perform_ok a s : minv s -> enabled a s -> step_ok a s.
Proof.
  intros Hs Ha. destruct a; eauto using lock_ok, unlock_ok, unlockIfNotUnique_ok, wait_ok, signal_ok,
    signal_grant_ok, broadcast_ok, yield_ok.
  destruct (resume_ok f s Hs Ha) as (s' & ? & ? & _). by exists s'.
Qed.

Lemma steps_ok acts : forall s, minv s -> all_enabled acts s ->
  exists s', steps acts s = (Ok tt, s') /\ minv s'.
Proof.
  induction acts as [|a acts IH]; intros s Hs Hen; [by exists s|].
  destruct Hen as [Ha Hen]. destruct (perform_ok a s Hs Ha) as (s1 & E & Hs1). rewrite E in Hen.
  destruct (IH s1 Hs1 Hen) as (s2 & E2 & Hs2). exists s2. split; [|done].
  cbn [steps]. by rewrite (bind_ok _ _ _ _ _ E).
Qed.

Lemma new_minv : minv FiberMutex_new.
Proof.
  exists (fun _ => Running). split; [|done].
  assert (forall f, state_of ∅ f = EXEC) as He by (intros f; unfold state_of; by rewrite lookup_empty).
  split; cbn; try done.
  - intros f. split; [by intros ?%not_elem_of_nil|done].
  - intros f. split; [by intros ?%not_elem_of_nil|done].
  - intros f. split; [intros (g & Hg); cbn in Hg; by rewrite He in Hg|done].
  - intros f. split; [by intros ?%not_elem_of_nil|done].
  - intros f. unfold parked. rewrite He. split; [by intros [|]|done].
  - by split; constructor.
Qed.

(** ** First come, first served *)

(** The front of the lock's queue, if the step takes it out. *)
Definition handed (a : action) s : list nat :=
  match m_waiters s with
  | [] => []
  | next :: _ => if decide (next ∈ m_waiters (snd (perform a s))) then [] else [next]
  end.

Fixpoint grants (acts : list action) s : list nat :=
  match acts with
  | [] => []
  | a :: acts => handed a s ++ grants acts (snd (perform a s))
  end.

(** A step leaves the queue alone, appends to it, or gives the lock to its
    front. *)
Lemma queue_grows a s l :
  m_waiters (snd (perform a s)) = m_waiters s ++ l ->
  m_waiters s ++ l = handed a s ++ m_waiters (snd (perform a s)) /\ handed a s = [].
Proof.
  intros E. unfold handed. rewrite E. destruct (m_waiters s) as [|next q]; [done|].
  rewrite decide_True; [done|]. by left.
Qed.

Definition fair (a : action) s : Prop :=
  (exists l, m_waiters s ++ l = handed a s ++ m_waiters (snd (perform a s))) /\
  forall next, next ∈ handed a s -> m_owner (snd (perform a s)) = Some next.

Lemma grow_fair a s l : m_waiters (snd (perform a s)) = m_waiters s ++ l -> fair a s.
Proof.
  intros E. destruct (queue_grows a s l E) as [E1 E2]. split; [by exists l|].
  rewrite E2. by intros next ?%not_elem_of_nil.
Qed.

Lemma same_fair a s : m_waiters (snd (perform a s)) = m_waiters s -> fair a s.
Proof. intros E. apply (grow_fair a s []). by rewrite app_nil_r. Qed.

Lemma unlock_fair a s s' :
  minv s -> perform a s = (Ok tt, s') -> m_waiters s' = m_waiters (unlocked s) ->
  m_owner s' = m_owner (unlocked s) -> fair a s.
Proof.
  intros (pl & Hs & _) E Ew Eo. destruct (m_waiters s) as [|next q] eqn:Hq.
  - apply same_fair. rewrite E. cbn. rewrite Ew. unfold unlocked. by rewrite Hq.
  - unfold fair, handed. rewrite E, Hq. cbn [snd]. unfold unlocked in *. rewrite Hq in *. cbn in *.
    pose proof (pl_nodup _ _ Hs) as [Hnd _]. rewrite Hq in Hnd. apply list.NoDup_cons in Hnd as [Hni _].
    rewrite Ew, decide_False by done. split; [exists []; by rewrite app_nil_r|].
    intros g Hg%list_elem_of_singleton. by subst.
Qed.

Lemma granted_waiters next s : exists l, m_waiters (granted next s) = m_waiters s ++ l.
Proof. unfold granted. destruct (m_owner s); [by exists [next]|exists []; by rewrite app_nil_r]. Qed.

Lemma broadcast_loop_waiters q : forall s s',
  broadcast_loop q s = (Ok tt, s') -> exists l, m_waiters s' = m_waiters s ++ l.
Proof.
  induction q as [|next q IH]; intros s s' E; [injection E as <-; exists []; by rewrite app_nil_r|].
  cbn [broadcast_loop] in E. destruct (decide (m_owner s <> Some next /\ next ∉ m_waiters s)) as [[Ho Hq]|Hn].
  - rewrite (bind_ok _ _ _ _ _ (grant_eq next s Ho Hq)) in E. apply IH in E as [l2 ->].
    destruct (granted_waiters next s) as [l1 ->]. exists (l1 ++ l2). by rewrite app_assoc.
  - exfalso. revert E. unfold grant, mbind, M_bind, get, assert. cbn.
    repeat case_bool_decide; cbn; try done. tauto.
Qed.

Lemma perform_fair a s : minv s -> enabled a s -> fair a s.
Proof.
  intros Hs Ha. destruct (perform_ok a s Hs Ha) as (s' & E & _).
  destruct a as [f|f|f|f|f|f next|f|f|f]; cbn [enabled] in Ha.
  - destruct Hs as (pl & Hs & _). destruct Ha as (Hf & Hsch & Ho).
    assert (f ∉ m_waiters s) as Hq by (rewrite (pl_lock _ _ Hs);
      rewrite (exec_running _ _ _ Hs (exec_not_parked _ _ Hf)); done).
    revert E. cbn [perform]. unfold lock, mbind, M_bind, get, assert. cbn. rewrite Hsch.
    rewrite !bool_decide_true by done. intros E.
    destruct (m_owner s) eqn:Eo; [apply (grow_fair _ _ [f])|apply same_fair]; cbn [perform];
      unfold lock, mbind, M_bind, get, assert; cbn; rewrite Hsch, !bool_decide_true by (done || congruence);
      by rewrite Eo.
  - destruct Ha as [Hf Ho]. eapply unlock_fair; [done|by apply unlockNoLock_eq|done..].
  - destruct Ha as [Hf Ho]. destruct (m_waiters s) as [|next q] eqn:Hq.
    + apply same_fair. rewrite E. cbn. revert E. cbn [perform]. unfold unlockIfNotUnique, mbind, M_bind, get, assert.
      cbn. rewrite bool_decide_true, Hq by done. cbn. by intros [= <-].
    + eapply unlock_fair; [done|exact E|..]; revert E; cbn [perform]; unfold unlockIfNotUnique, mbind, M_bind, get, assert;
        cbn; rewrite bool_decide_true, Hq by done; rewrite unlockNoLock_eq by done; by intros [= <-].
  - destruct Ha as (Hf & Hsch & Ho).
    eapply unlock_fair; [done|exact E|..]; revert E; cbn [perform]; unfold wait, mbind, M_bind, get, assert, put;
      cbn; rewrite Hsch, bool_decide_true by done; rewrite unlockNoLock_eq by done; intros [= <-];
      unfold unlocked; cbn; by destruct (m_waiters s).
  - apply same_fair. cbn [perform]. unfold signal, mbind, M_bind, get. cbn. by destruct (c_waiters s).
  - destruct Hs as (pl & Hs & Hh).
    assert (pl next = InSignal) as Hn by (apply (pl_signal _ _ Hs); by exists f).
    assert (grant next s = (Ok tt, granted next s)) as E1.
    { apply grant_eq; [intros Ho; destruct (pl_owner _ _ Hs _ Ho); congruence|].
      rewrite (pl_lock _ _ Hs). congruence. }
    destruct (granted_waiters next s) as [l Hl]. apply (grow_fair _ _ l). cbn [perform].
    unfold signal_grant. rewrite (bind_ok _ _ _ _ _ E1). exact Hl.
  - cbn [perform] in E. unfold broadcast in E. destruct (c_waiters s) as [|next q] eqn:Hq.
    + apply same_fair. cbn [perform]. unfold broadcast, mbind, M_bind, get. cbn. by rewrite Hq.
    + rewrite (bind_ok _ _ _ _ _ (eq_refl : get s = (Ok s, s))), Hq in E.
      destruct (broadcast_loop (next :: q) s) as [[[]| | | |] s1] eqn:E1; unfold mbind, M_bind in E;
        rewrite E1 in E; try discriminate.
      destruct (broadcast_loop_waiters _ _ _ E1) as [l Hl]. apply (grow_fair _ _ l). cbn [perform].
      unfold broadcast. rewrite (bind_ok _ _ _ _ _ (eq_refl : get s = (Ok s, s))), Hq.
      rewrite (bind_ok _ _ _ _ _ E1). exact Hl.
  - by apply same_fair.
  - by apply same_fair.
Qed.

(** ** What the lock and the condition guarantee *)

(** C11: whatever fibers do with a lock and its condition, under the documented
    preconditions and in any interleaving, no assertion of the two classes
    fails, no iteration stops short, and nobody is forgotten: a suspended
    fiber is in the lock's queue, in the condition's queue, in the hands of a
    [signal], or already scheduled; a scheduled fiber owns the lock; and a
    free lock has no queue. *)
Theorem fiber_sync_safe acts :
  all_enabled acts FiberMutex_new ->
  exists s, steps acts FiberMutex_new = (Ok tt, s) /\
    (forall f, parked (fibers s) f <->
      f ∈ m_waiters s \/ f ∈ c_waiters s \/ in_flight s f \/ f ∈ ready s) /\
    (forall f, f ∈ ready s -> m_owner s = Some f) /\
    (forall f, m_owner s = Some f -> f ∉ m_waiters s /\ f ∉ c_waiters s /\ ~ in_flight s f) /\
    (m_owner s = None -> m_waiters s = []).
Proof.
  intros Hen. destruct (steps_ok acts _ new_minv Hen) as (s & E & pl & Hs & Hh).
  exists s. split; [done|]. split_and!.
  - intros f. rewrite (pl_parked _ _ Hs), (pl_lock _ _ Hs), (pl_condition _ _ Hs), (pl_signal _ _ Hs),
      (pl_ready _ _ Hs). specialize (Hh f). destruct (pl f); intuition congruence.
  - intros f Hf. by apply (pl_handoff _ _ Hs), (pl_ready _ _ Hs).
  - intros f Ho. rewrite (pl_lock _ _ Hs), (pl_condition _ _ Hs), (pl_signal _ _ Hs).
    destruct (pl_owner _ _ Hs _ Ho); intuition congruence.
  - apply Hs.
Qed.

(** Mutual exclusion and the postcondition of [lock] and [wait]: a fiber
    that comes back from a blocking call owns the lock, and while a fiber owns
    it no other fiber can be resumed from [lock] or [wait]. *)
Theorem resume_owns acts s f :
  all_enabled acts FiberMutex_new -> steps acts FiberMutex_new = (Ok tt, s) ->
  enabled (AResume f) s ->
  (exists s', perform (AResume f) s = (Ok tt, s') /\ m_owner s' = Some f /\
     state_of (fibers s') f = EXEC) /\
  forall g, enabled (AResume g) s -> g = f.
Proof.
  intros Hen E Hf. destruct (steps_ok acts _ new_minv Hen) as (s0 & E0 & Hs).
  rewrite E in E0. injection E0 as <-. split.
  - destruct (resume_ok f s Hs Hf) as (s' & E' & _ & Ho). exists s'. split_and!; [done|done|].
    injection E' as <-. cbn. by rewrite state_of_insert, decide_True.
  - destruct Hs as (pl & Hs & _). intros g [_ Hg]. destruct Hf as [_ Hf].
    apply (pl_ready _ _ Hs), (pl_handoff _ _ Hs) in Hf, Hg. congruence.
Qed.

(** The lock is strictly first come, first served: the fibers that queue
    for it, whether in [lock] or after a [signal] or [broadcast], get it in the
    order in which they queued, each becoming the owner as it leaves the
    queue. *)
Theorem lock_is_fifo acts0 acts s :
  all_enabled acts0 FiberMutex_new -> steps acts0 FiberMutex_new = (Ok tt, s) -> all_enabled acts s ->
  exists s' queued, steps acts s = (Ok tt, s') /\ m_waiters s ++ queued = grants acts s ++ m_waiters s' /\
    forall a, enabled a s -> forall next, next ∈ handed a s -> m_owner (snd (perform a s)) = Some next.
Proof.
  intros Hen0 E0 Hen. destruct (steps_ok acts0 _ new_minv Hen0) as (s0 & E0' & Hs).
  rewrite E0 in E0'. injection E0' as <-. clear E0 Hen0.
  assert (forall a, enabled a s -> forall next, next ∈ handed a s -> m_owner (snd (perform a s)) = Some next) as Hh.
  { intros a Ha. by apply perform_fair. }
  assert (exists s' queued, steps acts s = (Ok tt, s') /\ m_waiters s ++ queued = grants acts s ++ m_waiters s')
    as (s' & l & E & El); [|by exists s', l]. clear Hh.
  revert s Hs Hen. induction acts as [|a acts IH]; intros s Hs Hen.
  - exists s, []. by rewrite app_nil_r.
  - destruct Hen as [Ha Hen]. destruct (perform_ok a s Hs Ha) as (s1 & E & Hs1).
    destruct (perform_fair a s Hs Ha) as [[l1 E1] _]. cbn [grants]. rewrite E in *. cbn [snd] in *.
    destruct (IH s1 Hs1 Hen) as (s2 & l2 & E2 & El2). exists s2, (l1 ++ l2). split.
    + cbn [steps]. by rewrite (bind_ok _ _ _ _ _ E).
    + by rewrite app_assoc, E1, <- !app_assoc, El2.
Qed.
End mutex.

(** ** The theorems on concrete histories *)

(** Three fibers: 1 locks and waits, 2 locks, 3 queues, 2 signals and unlocks. *)
Definition demo_actions : list action :=
  [ALock 1; AWait 1; ALock 2; ALock 3; ASignal 2; AYield 1; AGrant 2 1; AUnlock 2; AYield 3].

Abbreviation everywhere := (fun _ : nat => true).

Ltac decided := apply (bool_decide_unpack _); vm_compute; exact I.

Lemma fiber_sync_safe_witness :
  exists s, steps everywhere demo_actions FiberMutex_new = (Ok tt, s) /\
    (forall f, parked (fibers s) f <->
      f ∈ m_waiters s \/ f ∈ c_waiters s \/ in_flight s f \/ f ∈ ready s) /\
    (forall f, f ∈ ready s -> m_owner s = Some f) /\
    (forall f, m_owner s = Some f -> f ∉ m_waiters s /\ f ∉ c_waiters s /\ ~ in_flight s f) /\
    (m_owner s = None -> m_waiters s = []).
Proof. apply (fiber_sync_safe everywhere demo_actions). decided. Defined.

Definition demo_state : FiberMutex := snd (steps everywhere demo_actions FiberMutex_new).

Lemma resume_owns_witness :
  (exists s', perform everywhere (AResume 3) demo_state = (Ok tt, s') /\ m_owner s' = Some 3%nat /\
     state_of (fibers s') 3 = EXEC) /\
  forall g, enabled everywhere (AResume g) demo_state -> g = 3%nat.
Proof.
  apply (resume_owns everywhere demo_actions demo_state 3); [decided|vm_compute; reflexivity|decided].
Defined.

Lemma lock_is_fifo_witness :
  exists s' queued, steps everywhere [AResume 3; AUnlock 3] demo_state = (Ok tt, s') /\
    m_waiters demo_state ++ queued = grants everywhere [AResume 3; AUnlock 3] demo_state ++ m_waiters s' /\
    forall a, enabled everywhere a demo_state -> forall next, next ∈ handed everywhere a demo_state ->
      m_owner (snd (perform everywhere a demo_state)) = Some next.
Proof.
  apply (lock_is_fifo everywhere demo_actions [AResume 3; AUnlock 3] demo_state);
    [decided|vm_compute; reflexivity|decided].
Defined.
