(* ===== verification/FiberSemphore.v ===== *)
(** mutex.cpp: [FiberSemphore], the counting semaphore of fibers.

    As in FiberMutex.v a method body under the spin lock is one step, a queued
    fiber yields afterwards, and [ready] holds the fibers given to [Schedule]. *)
From stdpp Require Import gmap functions.
From S2P Require Import Prelude FiberSched.

Record FiberSemphore := mkFiberSemphore {
  _concurrency : Z;              (* size_t *)
  _waitQueue : list nat;
  fibers : states;
  ready : list nat;
}.

Section semaphore.
(** [Scheduler::GetThis()] is not null. *)
Context (in_scheduler : nat -> bool).
Implicit Types (s : FiberSemphore) (f g : nat).

Definition FiberSemphore_new (initial_concurrency : Z) : FiberSemphore :=
  mkFiberSemphore initial_concurrency [] ∅ [].

Definition set_concurrency (c : Z) s : FiberSemphore :=
  mkFiberSemphore c (_waitQueue s) (fibers s) (ready s).

Definition trywait f : M FiberSemphore bool :=
  assert (in_scheduler f);;
  s ← get;
  if 0 <? _concurrency s then put (set_concurrency (u64 (_concurrency s - 1)) s);; mret true
  else mret false.

(** Up to [YieldToHold]; the result tells whether the permit was free. *)
Definition wait f : M FiberSemphore bool :=
  assert (in_scheduler f);;
  s ← get;
  if 0 <? _concurrency s then put (set_concurrency (u64 (_concurrency s - 1)) s);; mret true
  else
    put (mkFiberSemphore (_concurrency s) (_waitQueue s ++ [f]) (<[f := YIELDING]> (fibers s)) (ready s));;
    mret false.

Definition post f : M FiberSemphore unit :=
  assert (in_scheduler f);;
  s ← get;
  match _waitQueue s with
  | fiber :: q => put (mkFiberSemphore (_concurrency s) q (fibers s) (ready s ++ [fiber]))
  | [] => put (set_concurrency (u64 (_concurrency s + 1)) s)
  end.

Definition notifyAll : M FiberSemphore unit :=
  modify (fun s => mkFiberSemphore (_concurrency s) [] (fibers s) (ready s ++ _waitQueue s)).

Definition yield f : M FiberSemphore unit :=
  modify (fun s => mkFiberSemphore (_concurrency s) (_waitQueue s) (YieldToHold f (fibers s)) (ready s)).

Definition resume f : M FiberSemphore unit :=
  modify (fun s => mkFiberSemphore (_concurrency s) (_waitQueue s) (<[f := EXEC]> (fibers s))
    (filter (fun g => g <> f) (ready s))).

(** The assertion of the destructor. *)
Definition destroy : M FiberSemphore unit :=
  s ← get; assert (bool_decide (_waitQueue s = [])).

Inductive action :=
  | ATryWait (f : nat) | AWait (f : nat) | APost (f : nat) | ANotifyAll
  | AYield (f : nat) | AResume (f : nat).

Definition perform (a : action) : M FiberSemphore unit :=
  match a with
  | ATryWait f => _ ← trywait f; mret tt
  | AWait f => _ ← wait f; mret tt
  | APost f => post f
  | ANotifyAll => notifyAll
  | AYield f => yield f
  | AResume f => resume f
  end.

Definition enabled (a : action) s : Prop :=
  match a with
  | ATryWait f | AWait f => state_of (fibers s) f = EXEC /\ in_scheduler f = true
  | APost f => in_scheduler f = true /\ _concurrency s < 2 ^ 64 - 1
  | ANotifyAll => True
  | AYield f => state_of (fibers s) f = YIELDING
  | AResume f => state_of (fibers s) f = HOLD /\ f ∈ ready s
  end.

#[export] Instance sem_enabled_dec a s : Decision (enabled a s).
Proof. destruct a; cbn; apply _. Defined.

Fixpoint steps (acts : list action) : M FiberSemphore unit :=
  match acts with
  | [] => mret tt
  | a :: acts => perform a;; steps acts
  end.

Fixpoint all_enabled (acts : list action) s : Prop :=
  match acts with
  | [] => True
  | a :: acts => enabled a s /\ all_enabled acts (snd (perform a s))
  end.

#[export] Instance sem_all_enabled_dec acts : forall s, Decision (all_enabled acts s).
Proof. induction acts; intros s; cbn; apply _. Defined.

(** ** Invariant *)
Inductive place := Running | InQueue | IsReady.

Record placed (pl : nat -> place) s : Prop := {
  pl_queue : forall f, f ∈ _waitQueue s <-> pl f = InQueue;
  pl_ready : forall f, f ∈ ready s <-> pl f = IsReady;
  pl_parked : forall f, parked (fibers s) f <-> pl f <> Running;
  pl_nodup : NoDup (_waitQueue s) /\ NoDup (ready s);
  pl_count : 0 <= _concurrency s < 2 ^ 64;
  pl_free : 0 < _concurrency s -> _waitQueue s = [];
}.

#[local] Instance sem_place_eq_dec : EqDecision place.
Proof. solve_decision. Defined.

Lemma sem_running pl s f : placed pl s -> state_of (fibers s) f = EXEC -> pl f = Running.
Proof.
  intros Hs Hf. destruct (decide (pl f = Running)) as [|Hn]; [done|].
  apply (pl_parked _ _ Hs) in Hn. unfold parked in Hn. rewrite Hf in Hn. by destruct Hn.
Qed.

(** ** Accounting

    What a step hands in and takes out: a permit is taken by a successful
    [trywait], by a [wait] that finds one free and by a wake-up. *)
Definition posted (a : action) s : Z := match a with APost _ => 1 | _ => 0 end.

Definition taken (a : action) s : Z :=
  match a with
  | ATryWait _ | AWait _ => if 0 <? _concurrency s then 1 else 0
  | APost _ => match _waitQueue s with [] => 0 | _ => 1 end
  | _ => 0
  end.

(** The fibers a step wakes. *)
Definition woken (a : action) s : list nat :=
  match a with
  | APost _ => take 1 (_waitQueue s)
  | ANotifyAll => _waitQueue s
  | _ => []
  end.

Definition queued (a : action) s : list nat :=
  match a with AWait f => if 0 <? _concurrency s then [] else [f] | _ => [] end.

Definition step_ok (a : action) s : Prop :=
  exists s', perform a s = (Ok tt, s') /\ (exists pl, placed pl s') /\
    _concurrency s' = _concurrency s + posted a s - taken a s /\
    _waitQueue s ++ queued a s = woken a s ++ _waitQueue s'.

Lemma placed_take pl s : placed pl s -> 0 < _concurrency s ->
  placed pl (set_concurrency (u64 (_concurrency s - 1)) s) /\
  u64 (_concurrency s - 1) = _concurrency s - 1.
Proof.
  intros [] Hc. assert (u64 (_concurrency s - 1) = _concurrency s - 1) as E
    by (apply uwrap_id; unfold in_u; lia).
  split; [|done]. rewrite E. split; cbn; try done; try lia. intros _. by apply pl_free0.
Qed.

Lemma sem_perform_ok a s : (exists pl, placed pl s) -> enabled a s -> step_ok a s.
Proof.
  intros [pl Hs] Ha. unfold step_ok. destruct a as [f|f|f| |f|f]; cbn [enabled] in Ha.
  - destruct Ha as [Hf Hsch]. cbn [perform posted taken queued woken].
    unfold trywait, mbind, M_bind, assert, get, put. cbn. rewrite Hsch.
    destruct (Z.ltb_spec 0 (_concurrency s)) as [Hc|Hc]; cbn.
    + destruct (placed_take pl s Hs Hc) as [Hs' E]. eexists; split; [done|]. split_and!; [by exists pl|cbn; lia|by rewrite app_nil_r].
    + exists s. split_and!; [done|by exists pl|lia|by rewrite app_nil_r].
  - destruct Ha as [Hf Hsch]. cbn [perform posted taken queued woken].
    unfold wait, mbind, M_bind, assert, get, put. cbn. rewrite Hsch.
    destruct (Z.ltb_spec 0 (_concurrency s)) as [Hc|Hc]; cbn.
    + destruct (placed_take pl s Hs Hc) as [Hs' E]. eexists; split; [done|]. split_and!; [by exists pl|cbn; lia|by rewrite app_nil_r].
    + eexists; split; [done|]. split_and!; [|cbn; lia|done].
      pose proof (sem_running _ _ _ Hs Hf) as Hrun. exists (<[f := InQueue]> pl).
      destruct Hs; split; cbn [_concurrency _waitQueue fibers ready]; try done.
      * intros g. rewrite elem_snoc, pl_queue0. move_case g f; places.
      * intros g. rewrite pl_ready0. move_case g f; places.
      * intros g. rewrite parked_insert. case_decide; rewrite ?pl_parked0; move_case g f; places.
      * split; [apply nodup_snoc; [apply pl_nodup0|]|apply pl_nodup0]. rewrite pl_queue0. congruence.
      * lia.
  - destruct Ha as [Hsch Hc]. cbn [perform posted taken queued woken].
    unfold post, mbind, M_bind, assert, get, put. cbn. rewrite Hsch.
    destruct (_waitQueue s) as [|g q] eqn:Hq; (eexists; split; [done|]).
    + pose proof (pl_count _ _ Hs). assert (u64 (_concurrency s + 1) = _concurrency s + 1) as E
        by (apply uwrap_id; unfold in_u; lia).
      unfold set_concurrency. rewrite E. split_and!; [|cbn; lia|cbn; by rewrite Hq].
      exists pl. destruct Hs; split; cbn; try done; lia.
    + split_and!; [|cbn; lia|cbn; by rewrite app_nil_r].
      pose proof (pl_queue _ _ Hs) as Hque. rewrite Hq in Hque. setoid_rewrite elem_of_cons in Hque.
      assert (pl g = InQueue) as Hg by (apply Hque; by left).
      pose proof (pl_nodup _ _ Hs) as [Hnd Hnr]. rewrite Hq in Hnd. apply list.NoDup_cons in Hnd as [Hni Hnd].
      exists (<[g := IsReady]> pl). destruct Hs; split; cbn [_concurrency _waitQueue fibers ready]; try done.
      * intros h. specialize (Hque h). move_case h g; [places|]. rewrite <- Hque. places.
      * intros h. rewrite elem_snoc, pl_ready0. move_case h g; places.
      * intros h. rewrite pl_parked0. move_case h g; places.
      * split; [done|]. apply nodup_snoc; [done|]. rewrite pl_ready0. congruence.
      * intros Hpos. specialize (pl_free0 Hpos). congruence.
  - eexists; split; [done|]. split_and!; [|cbn; lia|cbn; by rewrite !app_nil_r].
    exists (fun g => match pl g with InQueue => IsReady | x => x end).
    destruct Hs; split; cbn [_concurrency _waitQueue fibers ready]; try done.
    + intros g. split; [by intros ?%not_elem_of_nil|]. by destruct (pl g).
    + intros g. rewrite elem_of_app, pl_ready0, pl_queue0. destruct (pl g); places.
    + intros g. rewrite pl_parked0. by destruct (pl g).
    + split; [constructor|]. apply list.NoDup_app. split_and!; [apply pl_nodup0| |apply pl_nodup0].
      intros g. rewrite pl_ready0, pl_queue0. congruence.
  - eexists; split; [done|]. split_and!; [|cbn; lia|cbn; by rewrite !app_nil_r].
    assert (parked (fibers s) f) as Hp by by left.
    exists pl. destruct Hs; split; cbn [_concurrency _waitQueue fibers ready]; try done.
    intros g. unfold YieldToHold. rewrite parked_insert. case_decide; [subst|done].
    rewrite <- pl_parked0. split; [done|by right].
  - destruct Ha as [Hf Hr]. eexists; split; [done|]. split_and!; [|cbn; lia|cbn; by rewrite !app_nil_r].
    assert (pl f = IsReady) as Hpl by by apply (pl_ready _ _ Hs).
    exists (<[f := Running]> pl). destruct Hs; split; cbn [_concurrency _waitQueue fibers ready]; try done.
    + intros g. rewrite pl_queue0. move_case g f; places.
    + intros g. rewrite list_elem_of_filter, pl_ready0. move_case g f; places.
    + intros g. rewrite parked_insert. case_decide; rewrite ?pl_parked0; move_case g f; places.
    + split; [apply pl_nodup0|apply list.NoDup_filter, pl_nodup0].
Qed.

(** Sums over a history. *)
Fixpoint total (n : action -> FiberSemphore -> Z) (acts : list action) s : Z :=
  match acts with [] => 0 | a :: acts => n a s + total n acts (snd (perform a s)) end.
Fixpoint gather (l : action -> FiberSemphore -> list nat) (acts : list action) s : list nat :=
  match acts with [] => [] | a :: acts => l a s ++ gather l acts (snd (perform a s)) end.

Lemma sem_steps acts : forall s, (exists pl, placed pl s) -> all_enabled acts s ->
  exists s', steps acts s = (Ok tt, s') /\ (exists pl, placed pl s') /\
    _concurrency s' = _concurrency s + total posted acts s - total taken acts s /\
    _waitQueue s ++ gather queued acts s = gather woken acts s ++ _waitQueue s'.
Proof.
  induction acts as [|a acts IH]; intros s Hs Hen.
  { exists s. cbn. rewrite app_nil_r. split_and!; try done. lia. }
  destruct Hen as [Ha Hen]. destruct (sem_perform_ok a s Hs Ha) as (s1 & E & Hs1 & Ec & Eq).
  cbn [total gather]. rewrite E in *. cbn [snd] in *.
  destruct (IH s1 Hs1 Hen) as (s2 & E2 & Hs2 & Ec2 & Eq2). exists s2. split_and!; [|done|lia|].
  - cbn [steps]. by rewrite (bind_ok _ _ _ _ _ E).
  - by rewrite app_assoc, Eq, <- !app_assoc, Eq2.
Qed.

Lemma sem_new c : 0 <= c < 2 ^ 64 -> placed (fun _ => Running) (FiberSemphore_new c).
Proof.
  intros Hc. split; cbn; try done.
  - intros f. split; [by intros ?%not_elem_of_nil|done].
  - intros f. split; [by intros ?%not_elem_of_nil|done].
  - intros f. unfold parked, state_of. rewrite lookup_empty. cbn. split; [by intros [|]|done].
  - split; constructor.
Qed.

(** ** What the semaphore guarantees *)

(** C19: in every interleaving, starting from [c] permits: the counter is the
    permits handed in minus those taken out and never wraps; fibers are woken
    in the order in which they queued; every suspended fiber is queued or
    scheduled; and there is no queue while a permit is free. *)
Theorem semaphore_correct c acts :
  0 <= c < 2 ^ 64 -> all_enabled acts (FiberSemphore_new c) ->
  exists s, steps acts (FiberSemphore_new c) = (Ok tt, s) /\
    _concurrency s = c + total posted acts (FiberSemphore_new c) - total taken acts (FiberSemphore_new c) /\
    0 <= _concurrency s < 2 ^ 64 /\
    gather queued acts (FiberSemphore_new c) = gather woken acts (FiberSemphore_new c) ++ _waitQueue s /\
    (forall f, parked (fibers s) f <-> f ∈ _waitQueue s \/ f ∈ ready s) /\
    (0 < _concurrency s -> _waitQueue s = []).
Proof.
  intros Hc Hen.
  destruct (sem_steps acts (FiberSemphore_new c) (ex_intro _ _ (sem_new c Hc)) Hen)
    as (s & E & (pl & Hs) & Ec & Eq).
  exists s. split_and!; [done|done|apply Hs|apply Hs|done| |apply Hs].
  intros f. rewrite (pl_parked _ _ Hs), (pl_queue _ _ Hs), (pl_ready _ _ Hs).
  destruct (pl f); intuition congruence.
Qed.
End semaphore.

(** One permit, three waiting fibers, two posts. *)
Definition demo_sem_actions : list action :=
  [AWait 1; AWait 2; AYield 2; AWait 3; ATryWait 4; APost 1; AYield 3; AWait 5; AResume 2; APost 2; ANotifyAll].

Lemma semaphore_correct_witness :
  let acts := demo_sem_actions in
  exists s, steps (fun _ => true) acts (FiberSemphore_new 1) = (Ok tt, s) /\
    _concurrency s = 1 + total (fun _ => true) posted acts (FiberSemphore_new 1)
                       - total (fun _ => true) taken acts (FiberSemphore_new 1) /\
    0 <= _concurrency s < 2 ^ 64 /\
    gather (fun _ => true) queued acts (FiberSemphore_new 1) =
      gather (fun _ => true) woken acts (FiberSemphore_new 1) ++ _waitQueue s /\
    (forall f, parked (fibers s) f <-> f ∈ _waitQueue s \/ f ∈ ready s) /\
    (0 < _concurrency s -> _waitQueue s = []).
Proof.
  apply (semaphore_correct (fun _ => true) 1 demo_sem_actions); [lia|].
  apply (bool_decide_unpack _). vm_compute. exact I.
Defined.
