(* ===== verification/WPRWMutex.v ===== *)
(** mutex.h: the writer-preferring read-write lock [WPRWMutex], a monitor of a
    mutex and two condition variables, and the scoped guards of the file.

    A critical section of the monitor, from acquiring [_mutex] to releasing it
    or to sleeping on a condition variable, is one step.  [pcs] says where each
    thread is; a notified or spuriously woken thread re-checks its condition. *)
From stdpp Require Import functions.
From S2P Require Import Prelude.

Inductive pc := Idle | RdWait | RdWoken | Reading | WrWait | WrWoken | Writing.

#[export] Instance pc_eq_dec : EqDecision pc.
Proof. solve_decision. Defined.

Record WPRWMutex := mkWPRWMutex {
  _activeReader : Z;
  _activeWriter : bool;
  _waitWriter : Z;
  pcs : nat -> pc;
}.

Definition WPRWMutex_new : WPRWMutex := mkWPRWMutex 0 false 0 (fun _ => Idle).

Section monitor.
Implicit Types (s : WPRWMutex) (t : nat).

Definition go t (p : pc) s : WPRWMutex :=
  mkWPRWMutex (_activeReader s) (_activeWriter s) (_waitWriter s) (<[t := p]> (pcs s)).

(** The loop test of [rdlock] and what follows it. *)
Definition rd_check t s : WPRWMutex :=
  if _activeWriter s || negb (_waitWriter s =? 0) then go t RdWait s
  else go t Reading (mkWPRWMutex (_activeReader s + 1) (_activeWriter s) (_waitWriter s) (pcs s)).

Definition rdlock t s : WPRWMutex := rd_check t s.

Definition wr_check t s : WPRWMutex :=
  if negb (_activeReader s =? 0) || _activeWriter s then go t WrWait s
  else go t Writing (mkWPRWMutex (_activeReader s) true (_waitWriter s - 1) (pcs s)).

Definition wrlock t s : WPRWMutex :=
  wr_check t (mkWPRWMutex (_activeReader s) (_activeWriter s) (_waitWriter s + 1) (pcs s)).

(** [_readCv.notify_all()] *)
Definition notify_readers s : WPRWMutex :=
  mkWPRWMutex (_activeReader s) (_activeWriter s) (_waitWriter s)
    (fun t => match pcs s t with RdWait => RdWoken | p => p end).

(** [_writeCv.notify_one()], where [w] is the thread it picks, if any waits. *)
Definition notify_writer (w : option nat) s : WPRWMutex :=
  match w with Some x => go x WrWoken s | None => s end.

Definition wrUnlock t (w : option nat) s : WPRWMutex :=
  let s := go t Idle (mkWPRWMutex (_activeReader s) false (_waitWriter s) (pcs s)) in
  if negb (_waitWriter s =? 0) then notify_writer w s else notify_readers s.

Definition rdUnlock t (w : option nat) s : WPRWMutex :=
  let s := go t Idle (mkWPRWMutex (_activeReader s - 1) (_activeWriter s) (_waitWriter s) (pcs s)) in
  if negb (_waitWriter s =? 0) && (_activeReader s =? 0) then notify_writer w s else notify_readers s.

(** ** Steps *)
Inductive action :=
  | ARdLock (t : nat) | ARdCheck (t : nat) | AWrLock (t : nat) | AWrCheck (t : nat)
  | ARdUnlock (t : nat) (w : option nat) | AWrUnlock (t : nat) (w : option nat)
  | ASpurious (t : nat).

Definition perform (a : action) s : WPRWMutex :=
  match a with
  | ARdLock t => rdlock t s
  | ARdCheck t => rd_check t s
  | AWrLock t => wrlock t s
  | AWrCheck t => wr_check t s
  | ARdUnlock t w => rdUnlock t w s
  | AWrUnlock t w => wrUnlock t w s
  | ASpurious t => go t (match pcs s t with RdWait => RdWoken | _ => WrWoken end) s
  end.

(** The threads of the program. *)
Context (threads : list nat).

(** [notify_one] picks a waiting thread if there is one. *)
Definition picks (w : option nat) s : Prop :=
  match w with
  | Some x => x ∈ threads /\ pcs s x = WrWait
  | None => Forall (fun x => pcs s x <> WrWait) threads
  end.

Definition enabled (a : action) s : Prop :=
  match a with
  | ARdLock t | AWrLock t => t ∈ threads /\ pcs s t = Idle
  | ARdCheck t => t ∈ threads /\ pcs s t = RdWoken
  | AWrCheck t => t ∈ threads /\ pcs s t = WrWoken
  | ARdUnlock t w => t ∈ threads /\ pcs s t = Reading /\ picks w s
  | AWrUnlock t w => t ∈ threads /\ pcs s t = Writing /\ picks w s
  | ASpurious t => t ∈ threads /\ (pcs s t = RdWait \/ pcs s t = WrWait)
  end.

#[export] Instance rw_enabled_dec a s : Decision (enabled a s).
Proof. destruct a as [| | | |? []|? []|]; cbn; apply _. Defined.

Fixpoint steps (acts : list action) s : WPRWMutex :=
  match acts with [] => s | a :: acts => steps acts (perform a s) end.

Fixpoint all_enabled (acts : list action) s : Prop :=
  match acts with [] => True | a :: acts => enabled a s /\ all_enabled acts (perform a s) end.

#[export] Instance rw_all_enabled_dec acts : forall s, Decision (all_enabled acts s).
Proof. induction acts; intros s; cbn; apply _. Defined.

(** ** Counting threads *)
Definition count (P : pc -> Prop) `{!forall p, Decision (P p)} (f : nat -> pc) : Z :=
  zlen (filter (fun t => P (f t)) threads).

Hypothesis distinct : NoDup threads.

Lemma count_nonneg P `{!forall p, Decision (P p)} f : 0 <= count P f.
Proof. unfold count. lia. Qed.

Lemma count_insert P `{!forall p, Decision (P p)} f t p :
  t ∈ threads ->
  count P (<[t := p]> f) =
    count P f - (if decide (P (f t)) then 1 else 0) + (if decide (P p) then 1 else 0).
Proof.
  unfold count. clear -distinct. induction threads as [|u l IH]; [by intros ?%not_elem_of_nil|].
  apply list.NoDup_cons in distinct as [Hni Hnd]. rewrite !filter_cons.
  destruct (decide (t = u)) as [->|Hne].
  - intros _. rewrite fn_lookup_insert.
    rewrite (filter_iff_in (fun t => P (<[u := p]> f t)) (fun t => P (f t)) l).
    + destruct (decide (P p)), (decide (P (f u))); cbn [length]; lia.
    + intros x Hx. rewrite fn_lookup_insert_ne; [done|]. by intros ->.
  - intros [|Ht]%elem_of_cons; [done|]. rewrite fn_lookup_insert_ne by done.
    specialize (IH Hnd Ht). destruct (decide (P (f u))); cbn [length]; lia.
Qed.

Lemma count_ext P `{!forall p, Decision (P p)} f g :
  (forall t, t ∈ threads -> P (f t) <-> P (g t)) -> count P f = count P g.
Proof. intros Hfg. unfold count. by rewrite (filter_iff_in _ (fun t => P (g t))). Qed.

Lemma count_pos P `{!forall p, Decision (P p)} f :
  0 < count P f <-> exists t, t ∈ threads /\ P (f t).
Proof.
  unfold count. split.
  - destruct (filter _ threads) as [|t l] eqn:E; cbn; [lia|]. intros _. exists t.
    assert (t ∈ filter (fun t => P (f t)) threads) as Hin by (rewrite E; by left).
    apply list_elem_of_filter in Hin. tauto.
  - intros (t & Ht & HP). destruct (filter _ threads) as [|u l] eqn:E; cbn; [|lia].
    assert (t ∈ filter (fun t => P (f t)) threads) as Hin by by apply list_elem_of_filter.
    rewrite E in Hin. by apply not_elem_of_nil in Hin.
Qed.

Abbreviation reading := (fun p : pc => p = Reading).
Abbreviation writing := (fun p : pc => p = Writing).
Abbreviation waiting_writer := (fun p : pc => p = WrWait \/ p = WrWoken).

(** ** Invariant *)
Record inv s : Prop := {
  inv_readers : _activeReader s = count reading (pcs s);
  inv_writer : count writing (pcs s) = if _activeWriter s then 1 else 0;
  inv_waiting : _waitWriter s = count waiting_writer (pcs s);
  inv_exclusive : _activeWriter s = true -> _activeReader s = 0;
  (* a free lock with waiting writers has woken one of them *)
  inv_wake_writer : _activeWriter s = false -> _activeReader s = 0 -> _waitWriter s <> 0 ->
    exists t, t ∈ threads /\ pcs s t = WrWoken;
  (* a sleeping reader sleeps for a writer *)
  inv_wake_reader : forall t, t ∈ threads -> pcs s t = RdWait ->
    _activeWriter s = true \/ _waitWriter s <> 0;
}.

Ltac decides :=
  repeat first [rewrite decide_True by (done || (by left) || (by right))
               |rewrite decide_False by (done || (by intros [|]))].

Lemma rd_check_inv s t :
  inv s -> t ∈ threads -> pcs s t = Idle \/ pcs s t = RdWoken -> inv (rd_check t s).
Proof.
  intros [Hr Hw Hq Hx Hww Hwr] Ht Hpc. unfold rd_check.
  assert (pcs s t <> Reading /\ pcs s t <> Writing /\ ~ waiting_writer (pcs s t) /\ pcs s t <> WrWoken)
    as (N1 & N2 & N3 & N4) by (destruct Hpc as [-> | ->]; split_and!; try done; by intros [|]).
  destruct (_activeWriter s) eqn:Ea; [|destruct (Z.eqb_spec (_waitWriter s) 0) as [Ez|Ez]];
    cbn [orb negb]; split; cbn [_activeReader _activeWriter _waitWriter pcs go]; rewrite ?Ea;
    rewrite ?count_insert by done; rewrite ?(decide_False N1), ?(decide_False N2), ?(decide_False N3);
    decides; try done; try lia.
  - intros u Hu. destruct (decide (u = t)) as [->|]; [by rewrite fn_lookup_insert|].
    rewrite fn_lookup_insert_ne by done. intros Hw'. by destruct (Hwr u Hu Hw').
  - intros H1 H2 H3. destruct (Hww H1 H2 H3) as (u & Hu & Hu'). exists u. split; [done|].
    rewrite fn_lookup_insert_ne; [done|]. intros <-. congruence.
Qed.

(** [wr_check], entered from [wrlock] ([d = 1], the thread is not yet counted
    among the waiting) or by a woken thread ([d = 0]). *)
Lemma wr_check_inv s t d :
  t ∈ threads -> (pcs s t = Idle /\ d = 1 \/ pcs s t = WrWoken /\ d = 0) ->
  inv (mkWPRWMutex (_activeReader s) (_activeWriter s) (_waitWriter s - d) (pcs s)) ->
  inv (wr_check t s).
Proof.
  intros Ht Hpc [Hr Hw Hq Hx Hww Hwr]. cbn in *. unfold wr_check.
  pose proof (count_nonneg waiting_writer (pcs s)).
  destruct (Z.eqb_spec (_activeReader s) 0) as [Ez|Ez]; [destruct (_activeWriter s) eqn:Ea|];
    cbn [orb negb]; split; cbn [_activeReader _activeWriter _waitWriter pcs go]; rewrite ?Ea;
    rewrite ?count_insert by done; destruct Hpc as [[Hpc ->]|[Hpc ->]]; rewrite ?Hpc; decides; try done; try lia.
  all: try by (intros; congruence).
  all: intros u Hu Hu'.
  all: try (by left).
  all: destruct (decide (u = t)) as [->|]; [by rewrite fn_lookup_insert in Hu'|].
  all: rewrite fn_lookup_insert_ne in Hu' by done; destruct (Hwr u Hu Hu'); [by left|right; lia].
Qed.

Lemma notify_writer_inv s w :
  picks w s ->
  inv s \/ (_activeReader s = count reading (pcs s) /\
    count writing (pcs s) = (if _activeWriter s then 1 else 0) /\
    _waitWriter s = count waiting_writer (pcs s) /\ (_activeWriter s = true -> _activeReader s = 0)) ->
  _waitWriter s <> 0 -> inv (notify_writer w s).
Proof.
  intros Hw Hs Hne.
  assert (_activeReader s = count reading (pcs s) /\
    count writing (pcs s) = (if _activeWriter s then 1 else 0) /\
    _waitWriter s = count waiting_writer (pcs s) /\ (_activeWriter s = true -> _activeReader s = 0))
    as (Hr & Hwr & Hq & Hx) by (destruct Hs as [[]|]; auto). clear Hs.
  destruct w as [x|]; cbn in *.
  - destruct Hw as [Hx1 Hx2]. split; cbn [_activeReader _activeWriter _waitWriter pcs go notify_writer];
      rewrite ?count_insert by done; rewrite ?Hx2; decides; try done; try lia.
    intros _ _ _. exists x. by rewrite fn_lookup_insert.
  - split; try done.
    + intros _ _ _. assert (0 < count waiting_writer (pcs s)) as Hpos
        by (pose proof (count_nonneg waiting_writer (pcs s)); lia).
      apply count_pos in Hpos as (u & Hu & [Hu'|Hu']); [|by exists u].
      rewrite list.Forall_forall in Hw. by apply Hw in Hu'.
    + intros u Hu _. by right.
Qed.

Lemma notify_readers_inv s :
  _activeReader s = count reading (pcs s) ->
  count writing (pcs s) = (if _activeWriter s then 1 else 0) ->
  _waitWriter s = count waiting_writer (pcs s) -> (_activeWriter s = true -> _activeReader s = 0) ->
  (_waitWriter s <> 0 -> _activeReader s <> 0) -> inv (notify_readers s).
Proof.
  intros Hr Hw Hq Hx Hd.
  split; cbn [_activeReader _activeWriter _waitWriter pcs notify_readers].
  - rewrite Hr. apply count_ext. intros u _. by destruct (pcs s u).
  - rewrite <- Hw. apply count_ext. intros u _. by destruct (pcs s u).
  - rewrite Hq. apply count_ext. intros u _. destruct (pcs s u); intuition congruence.
  - done.
  - intros _ H0 Hne. by apply Hd in Hne.
  - intros u _. by destruct (pcs s u).
Qed.

Lemma spurious_inv s t p q :
  inv s -> t ∈ threads -> pcs s t = p -> p = RdWait /\ q = RdWoken \/ p = WrWait /\ q = WrWoken ->
  inv (go t q s).
Proof.
  intros [Hr Hw Hq Hx Hww Hwr] Ht Hpc Hcase.
  destruct Hcase as [[-> ->]|[-> ->]]; split; cbn [_activeReader _activeWriter _waitWriter pcs go];
    rewrite ?count_insert by done; rewrite ?Hpc; decides; try done; try lia.
  - intros H1 H2 H3. destruct (Hww H1 H2 H3) as (u & Hu & Hu'). exists u. split; [done|].
    rewrite fn_lookup_insert_ne; [done|]. intros <-. congruence.
  - intros u Hu. destruct (decide (u = t)) as [->|]; [by rewrite fn_lookup_insert|].
    rewrite fn_lookup_insert_ne by done. exact (Hwr u Hu).
  - intros _ _ _. exists t. by rewrite fn_lookup_insert.
  - intros u Hu. destruct (decide (u = t)) as [->|]; [by rewrite fn_lookup_insert|].
    rewrite fn_lookup_insert_ne by done. exact (Hwr u Hu).
Qed.

Lemma picks_go t w s b r q :
  pcs s t <> WrWait -> picks w s -> picks w (go t Idle (mkWPRWMutex r b q (pcs s))).
Proof.
  intros Hpc. destruct w as [x|]; cbn.
  - intros [Hx Hx']. split; [done|]. rewrite fn_lookup_insert_ne; [done|]. by intros <-.
  - rewrite !list.Forall_forall. intros Hall u Hu. destruct (decide (u = t)) as [->|];
      [by rewrite fn_lookup_insert|]. rewrite fn_lookup_insert_ne by done. auto.
Qed.

Lemma perform_inv a s : inv s -> enabled a s -> inv (perform a s).
Proof.
  intros Hs Ha. destruct a as [t|t|t|t|t w|t w|t]; cbn [enabled perform] in *.
  - destruct Ha. apply rd_check_inv; auto.
  - destruct Ha. apply rd_check_inv; auto.
  - destruct Ha. unfold wrlock. apply (wr_check_inv _ t 1); cbn; [done|by left|].
    by replace (_waitWriter s + 1 - 1) with (_waitWriter s) by lia; destruct s.
  - destruct Ha. apply (wr_check_inv _ t 0); cbn; [done|by right|].
    by replace (_waitWriter s - 0) with (_waitWriter s) by lia; destruct s.
  - destruct Ha as (Ht & Hpc & Hw). destruct Hs as [Hr Hwr Hq Hx _ _]. unfold rdUnlock.
    assert (0 < count reading (pcs s)) as Hpos by (apply count_pos; by exists t).
    assert (_activeWriter s = false) as Ea by (destruct (_activeWriter s); [specialize (Hx eq_refl); lia|done]).
    set (s1 := go t Idle _).
    assert (_activeReader s1 = count reading (pcs s1) /\
      count writing (pcs s1) = (if _activeWriter s1 then 1 else 0) /\
      _waitWriter s1 = count waiting_writer (pcs s1) /\ (_activeWriter s1 = true -> _activeReader s1 = 0))
      as (H1 & H2 & H3 & H4).
    { subst s1. cbn [_activeReader _activeWriter _waitWriter pcs go]. rewrite Ea in *.
      rewrite !count_insert, Hpc by done. decides. split_and!; done || lia. }
    destruct (Z.eqb_spec (_waitWriter s1) 0), (Z.eqb_spec (_activeReader s1) 0); cbn [negb andb].
    + by apply notify_readers_inv.
    + by apply notify_readers_inv.
    + apply notify_writer_inv; [apply picks_go; [congruence|done]|by right|done].
    + by apply notify_readers_inv.
  - destruct Ha as (Ht & Hpc & Hw). destruct Hs as [Hr Hwr Hq Hx _ _]. unfold wrUnlock.
    assert (0 < count writing (pcs s)) as Hpos by (apply count_pos; by exists t).
    assert (_activeWriter s = true) as Ea by (destruct (_activeWriter s); [done|lia]).
    set (s1 := go t Idle _).
    assert (_activeReader s1 = count reading (pcs s1) /\
      count writing (pcs s1) = (if _activeWriter s1 then 1 else 0) /\
      _waitWriter s1 = count waiting_writer (pcs s1) /\ (_activeWriter s1 = true -> _activeReader s1 = 0))
      as (H1 & H2 & H3 & H4).
    { subst s1. cbn [_activeReader _activeWriter _waitWriter pcs go]. rewrite Ea in *.
      rewrite !count_insert, Hpc by done. decides. split_and!; done || lia. }
    destruct (Z.eqb_spec (_waitWriter s1) 0); cbn [negb].
    + by apply notify_readers_inv.
    + apply notify_writer_inv; [apply picks_go; [congruence|done]|by right|done].
  - destruct Ha as [Ht [Hpc|Hpc]]; rewrite Hpc; eapply spurious_inv; eauto.
Qed.

Lemma rw_steps_inv acts : forall s, inv s -> all_enabled acts s -> inv (steps acts s).
Proof.
  induction acts as [|a acts IH]; intros s Hs Hen; [done|].
  destruct Hen as [Ha Hen]. by apply IH; [apply perform_inv|].
Qed.

Lemma rw_new_inv : inv WPRWMutex_new.
Proof.
  assert (forall P `{!forall p, Decision (P p)}, ~ P Idle -> count P (fun _ => Idle) = 0) as Hz.
  { intros P HP Hn. unfold count. by rewrite filter_none. }
  split; cbn; rewrite ?Hz; try done. by intros [|].
Qed.

(** ** What the lock guarantees *)

(** C20: mutual exclusion in every interleaving, spurious wake-ups included: a
    writing thread is alone, and the three counters are the numbers of reading,
    writing and waiting threads. *)
Theorem rw_exclusion acts :
  all_enabled acts WPRWMutex_new ->
  let s := steps acts WPRWMutex_new in
  (forall t u, t ∈ threads -> u ∈ threads -> pcs s t = Writing -> pcs s u = Reading -> False) /\
  (forall t u, t ∈ threads -> u ∈ threads -> pcs s t = Writing -> pcs s u = Writing -> t = u) /\
  _activeReader s = count reading (pcs s) /\
  count writing (pcs s) = (if _activeWriter s then 1 else 0) /\
  _waitWriter s = count waiting_writer (pcs s).
Proof.
  intros Hen s. destruct (rw_steps_inv acts _ rw_new_inv Hen) as [Hr Hw Hq Hx _ _]. fold s in Hr, Hw, Hq, Hx.
  assert (forall t, t ∈ threads -> pcs s t = Writing -> _activeWriter s = true) as Haw.
  { intros t Ht Hp. assert (0 < count writing (pcs s)) by (apply count_pos; by exists t).
    destruct (_activeWriter s); [done|lia]. }
  split_and!; try done.
  - intros t u Ht Hu Hpt Hpu. specialize (Hx (Haw t Ht Hpt)).
    assert (0 < count reading (pcs s)) by (apply count_pos; by exists u). lia.
  - intros t u Ht Hu Hpt Hpu. destruct (decide (t = u)) as [|Hne]; [done|exfalso].
    pose proof (count_insert writing (pcs s) t Idle Ht) as Hc. rewrite Hpt in Hc.
    rewrite (Haw t Ht Hpt) in Hw. revert Hc. decides. intros Hc.
    assert (0 < count writing (<[t := Idle]> (pcs s))); [|lia].
    apply count_pos. exists u. split; [done|]. by rewrite fn_lookup_insert_ne.
Qed.

(** No wake-up is lost: whenever the lock is free and threads wait for it,
    a thread that has been woken and is about to test its condition will get
    it. *)
Theorem rw_no_lost_wakeup acts :
  all_enabled acts WPRWMutex_new ->
  let s := steps acts WPRWMutex_new in
  (forall t, t ∈ threads -> pcs s t <> Reading /\ pcs s t <> Writing) ->
  (exists t, t ∈ threads /\ pcs s t <> Idle) ->
  exists t, t ∈ threads /\
    (pcs s t = WrWoken /\ pcs (wr_check t s) t = Writing \/
     pcs s t = RdWoken /\ pcs (rd_check t s) t = Reading).
Proof.
  intros Hen s Hfree (t & Ht & Hpc). destruct (rw_steps_inv acts _ rw_new_inv Hen) as [Hr Hw Hq Hx Hww Hwr].
  fold s in Hr, Hw, Hq, Hx, Hww, Hwr.
  assert (_activeReader s = 0) as Er.
  { rewrite Hr. pose proof (count_nonneg reading (pcs s)).
    destruct (decide (0 < count reading (pcs s))) as [(u & Hu & Hu')%count_pos|]; [|lia].
    by destruct (Hfree u Hu). }
  assert (_activeWriter s = false) as Ew.
  { destruct (_activeWriter s); [|done].
    assert (0 < count writing (pcs s)) as (u & Hu & Hu')%count_pos by lia. by destruct (Hfree u Hu). }
  destruct (decide (_waitWriter s = 0)) as [Ez|Ez].
  - exists t. split; [done|right]. destruct (Hfree t Ht) as [N1 N2].
    assert (~ waiting_writer (pcs s t)) as N3.
    { intros Hwait. assert (0 < count waiting_writer (pcs s)) by (apply count_pos; by exists t). lia. }
    assert (pcs s t = RdWoken) as Hwk.
    { destruct (pcs s t) eqn:E; try done; [|exfalso; by apply N3; left|exfalso; by apply N3; right].
      destruct (Hwr t Ht E); congruence. }
    split; [done|]. unfold rd_check. rewrite Ew, Ez. cbn. by rewrite fn_lookup_insert.
  - destruct (Hww Ew Er Ez) as (u & Hu & Hu'). exists u. split; [done|left]. split; [done|].
    unfold wr_check. rewrite Er, Ew. cbn. by rewrite fn_lookup_insert.
Qed.

(** Writers come first: as long as some thread waits to write, no thread
    starts to read. *)
Theorem writers_first acts a :
  all_enabled acts WPRWMutex_new ->
  let s := steps acts WPRWMutex_new in
  enabled a s -> (exists t, t ∈ threads /\ (pcs s t = WrWait \/ pcs s t = WrWoken)) ->
  forall u, u ∈ threads -> pcs (perform a s) u = Reading -> pcs s u = Reading.
Proof.
  intros Hen s Ha Hwait u Hu. destruct (rw_steps_inv acts _ rw_new_inv Hen) as [Hr Hw Hq Hx _ _].
  fold s in Hq. apply (count_pos waiting_writer) in Hwait. rewrite <- Hq in Hwait.
  assert (forall t p s', p <> Reading -> pcs s' = pcs s ->
    pcs (go t p s') u = Reading -> pcs s u = Reading) as Hgo.
  { intros t p s' Hp E. cbn. rewrite E. destruct (decide (u = t)) as [->|]; [by rewrite fn_lookup_insert|].
    by rewrite fn_lookup_insert_ne. }
  assert (forall s', (pcs s' u = Reading -> pcs s u = Reading) -> pcs (notify_readers s') u = Reading ->
    pcs s u = Reading) as Hnr by (intros s' Hs'; cbn; destruct (pcs s' u); done || auto).
  assert (forall w s', (pcs s' u = Reading -> pcs s u = Reading) -> pcs (notify_writer w s') u = Reading ->
    pcs s u = Reading) as Hnw.
  { intros [x|] s' Hs'; cbn; [|done]. destruct (decide (u = x)) as [->|]; [by rewrite fn_lookup_insert|].
    by rewrite fn_lookup_insert_ne. }
  assert (forall t, pcs (rd_check t s) u = Reading -> pcs s u = Reading) as Hrd.
  { intros t. unfold rd_check. rewrite (proj2 (Z.eqb_neq _ 0)), orb_true_r by lia.
    by apply Hgo. }
  destruct a as [t|t|t|t|t w|t w|t]; cbn [perform]; [apply Hrd|apply Hrd|..].
  - unfold wrlock, wr_check. destruct (negb _ || _); by apply Hgo.
  - unfold wr_check. destruct (negb _ || _); by apply Hgo.
  - unfold rdUnlock. destruct (negb _ && _); [apply Hnw|apply Hnr]; by apply Hgo.
  - unfold wrUnlock. destruct (negb _); [apply Hnw|apply Hnr]; by apply Hgo.
  - apply Hgo; [by destruct (pcs s t)|done].
Qed.
End monitor.

(** ** The scoped guards

    [XtenLockguard], its read and write variants and those of [WPRWMutex]
    differ only in the two functions they call on the mutex. *)
Inductive call := Acquire | Release.

Record Lockguard := mkLockguard { _b_lock : bool; calls : list call }.

Definition Lockguard_new : Lockguard := mkLockguard true [Acquire].
Definition guard_lock (g : Lockguard) : Lockguard :=
  if negb (_b_lock g) then mkLockguard true (calls g ++ [Acquire]) else g.
Definition guard_unlock (g : Lockguard) : Lockguard :=
  if _b_lock g then mkLockguard false (calls g ++ [Release]) else g.
Definition Lockguard_destroy (g : Lockguard) : Lockguard := guard_unlock g.

Definition guard_ops (ops : list bool) (g : Lockguard) : Lockguard :=
  fold_left (fun g (o : bool) => if o then guard_lock g else guard_unlock g) ops g.

Fixpoint pairs (n : nat) : list call :=
  match n with O => [] | S n => [Acquire; Release] ++ pairs n end.

Lemma pairs_snoc n : pairs n ++ [Acquire; Release] = pairs (S n).
Proof. induction n as [|n IH]; [done|]. cbn [pairs]. rewrite <- app_assoc, IH. done. Qed.

(** A guard acquires and releases in turn and is released when it goes out
    of scope, however [lock] and [unlock] are called in between. *)
Theorem guard_balanced ops :
  exists n, calls (Lockguard_destroy (guard_ops ops Lockguard_new)) = pairs (S n).
Proof.
  assert (forall ops g n, calls g = (if _b_lock g then pairs n ++ [Acquire] else pairs (S n)) ->
    exists m, calls (Lockguard_destroy (guard_ops ops g)) = pairs (S m)) as H.
  { clear. intros ops. unfold guard_ops.
    induction ops as [|o ops IH]; intros [[] cs] n E; cbn in E; cbn [fold_left].
    - exists n. unfold Lockguard_destroy, guard_unlock. cbn. rewrite E, <- app_assoc. apply pairs_snoc.
    - by exists n.
    - destruct o; [by apply (IH _ n)|]. apply (IH _ n). cbn. rewrite E, <- app_assoc. apply pairs_snoc.
    - destruct o; [|by apply (IH _ n)]. apply (IH _ (S n)). cbn. by rewrite E. }
  by apply (H ops Lockguard_new 0%nat).
Qed.

(** ** The theorems on a concrete history *)

(** Thread 1 reads, 2 waits to write, 3 has to wait behind it, 1 leaves. *)
Definition demo_rw : list action :=
  [ARdLock 1; AWrLock 2; ARdLock 3; ASpurious 3; ARdCheck 3; ARdUnlock 1 (Some 2%nat)].
Definition demo_threads : list nat := [1;2;3]%nat.

Lemma demo_distinct : NoDup demo_threads.
Proof. apply (bool_decide_unpack _). vm_compute. exact I. Qed.

Lemma rw_exclusion_witness :
  let s := steps (demo_rw ++ [AWrCheck 2]) WPRWMutex_new in
  (forall t u, t ∈ demo_threads -> u ∈ demo_threads -> pcs s t = Writing -> pcs s u = Reading -> False) /\
  (forall t u, t ∈ demo_threads -> u ∈ demo_threads -> pcs s t = Writing -> pcs s u = Writing -> t = u) /\
  _activeReader s = count demo_threads (fun p => p = Reading) (pcs s) /\
  count demo_threads (fun p => p = Writing) (pcs s) = (if _activeWriter s then 1 else 0) /\
  _waitWriter s = count demo_threads (fun p => p = WrWait \/ p = WrWoken) (pcs s).
Proof.
  apply (rw_exclusion demo_threads demo_distinct (demo_rw ++ [AWrCheck 2])).
  apply (bool_decide_unpack _). vm_compute. exact I.
Defined.

Lemma rw_no_lost_wakeup_witness :
  let s := steps demo_rw WPRWMutex_new in
  exists t, t ∈ demo_threads /\
    (pcs s t = WrWoken /\ pcs (wr_check t s) t = Writing \/
     pcs s t = RdWoken /\ pcs (rd_check t s) t = Reading).
Proof.
  apply (rw_no_lost_wakeup demo_threads demo_distinct demo_rw).
  - apply (bool_decide_unpack _). vm_compute. exact I.
  - apply list.Forall_forall. apply (bool_decide_unpack _). vm_compute. exact I.
  - exists 2%nat. split; [by right; left|]. vm_compute. discriminate.
Defined.

Lemma writers_first_witness :
  _waitWriter (steps (take 5 demo_rw) WPRWMutex_new) = 1 /\
  forall u, u ∈ demo_threads ->
    pcs (perform (ASpurious 3) (steps (take 5 demo_rw) WPRWMutex_new)) u = Reading ->
    pcs (steps (take 5 demo_rw) WPRWMutex_new) u = Reading.
Proof.
  split; [reflexivity|].
  apply (writers_first demo_threads demo_distinct (take 5 demo_rw) (ASpurious 3)).
  - apply (bool_decide_unpack _). vm_compute. exact I.
  - apply (bool_decide_unpack _). vm_compute. exact I.
  - exists 2%nat. split; [by right; left|]. by left.
Defined.
