(* ===== verification/Stream.v ===== *)
(** streams/socket_stream.cpp, socket.cpp (the transfer calls) and stream.cpp:
    a connected socket as a stream, and the loops that move a fixed number of
    bytes through it.

    The operating system is the class [Kernel]; [KernelLaws] is what
    recv(2), recvmsg(2), send(2) and sendmsg(2) document for a blocking stream
    socket (the hook makes the fibre wait, so a call never reports EAGAIN).
    [Stream] is the program's abstract class, [SocketStream] its instance. *)
From S2P Require Import Prelude Bytes Buffer ByteArray.

(** ** The operating system *)

(** [krecv n]: at most [n] bytes are asked for; the result and the bytes the
    kernel stored.  [ksend bs]: the result of offering [bs]. *)
Class Kernel (K : Type) := {
  krecv : Z -> K -> (Z * list Z) * K;
  ksend : list Z -> K -> Z * K;
}.

(** [kin]: what the peer still delivers before the end of the stream or an
    error; [kout]: what has been accepted for sending so far; [kspace]: how many
    bytes more the connection accepts before it fails. *)
Class KernelLaws (K : Type) `{Kernel K} := {
  kin : K -> list Z;
  kout : K -> list Z;
  kspace : K -> Z;
  krecv_data n k : 0 < n -> kin k <> [] ->
    exists bs k', krecv n k = ((zlen bs, bs), k') /\ 0 < zlen bs <= n /\
      kin k = bs ++ kin k' /\ kout k' = kout k /\ kspace k' = kspace k;
  krecv_end n k : 0 < n -> kin k = [] ->
    exists r k', krecv n k = ((r, []), k') /\ r <= 0 /\
      kin k' = [] /\ kout k' = kout k /\ kspace k' = kspace k;
  ksend_some bs k : 0 < zlen bs -> 0 < kspace k ->
    exists m k', ksend bs k = (m, k') /\ 0 < m <= zlen bs /\ m <= kspace k /\
      kout k' = kout k ++ take (Z.to_nat m) bs /\ kin k' = kin k /\
      kspace k' = kspace k - m;
  ksend_fail bs k : 0 < zlen bs -> kspace k <= 0 ->
    exists r k', ksend bs k = (r, k') /\ r <= 0 /\
      kout k' = kout k /\ kin k' = kin k /\ kspace k' = kspace k;
}.

(** ** Scattered memory *)

(** The kernel fills the ranges of an iovec array in order. *)
Fixpoint store_iovs (vs : list iovec) (bs : list Z) : M ByteArray unit :=
  match vs with
  | [] => mret tt
  | v :: vs =>
    memcpy_to (iov_node v) (iov_off v) (take (Z.to_nat (iov_len v)) bs);;
    store_iovs vs (drop (Z.to_nat (iov_len v)) bs)
  end.

(** ** Sockets and socket streams *)
Section socket.
Context {K : Type} {KK : Kernel K} {Mach : Machine}.

(** [_sockfd] is the kernel's connection, or -1 ([None]). *)
Record Socket := mkSocket { _isConnect : bool; _sockfd : option K }.

Definition Recv (len : Z) : M Socket (Z * list Z) := fun s =>
  if negb (_isConnect s) then (Ok (-1, []), s) else
  match _sockfd s with
  | None => (Ok (-1, []), s)
  | Some k => let '(r, k') := krecv len k in (Ok r, mkSocket (_isConnect s) (Some k'))
  end.

(** [recvmsg] into the ranges [vs] of [ba]. *)
Definition RecvV (vs : list iovec) : M (ByteArray * Socket) Z := fun '(ba, s) =>
  if negb (_isConnect s) then (Ok (-1), (ba, s)) else
  match _sockfd s with
  | None => (Ok (-1), (ba, s))
  | Some k =>
    let '((r, bs), k') := krecv (iovs_len vs) k in
    let '(o, ba') := store_iovs vs bs ba in
    (obind o (fun _ => Ok r), (ba', mkSocket (_isConnect s) (Some k')))
  end.

Definition Send (msg : list Z) : M Socket Z := fun s =>
  if _isConnect s then
    match _sockfd s with
    | None => (Ok (-1), s)
    | Some k => let '(r, k') := ksend msg k in (Ok r, mkSocket (_isConnect s) (Some k'))
    end
  else (Ok (-1), s).

Definition SendV (vs : list iovec) : M (ByteArray * Socket) Z := fun '(ba, s) =>
  let '(o, s') := Send (iovs_bytes ba vs) s in (o, (ba, s')).

Definition Socket_Close (s : Socket) : bool * Socket :=
  if negb (_isConnect s) && bool_decide (is_Some (_sockfd s) -> False) then (true, s)
  else (true, mkSocket false None).

Record SocketStream := mkSocketStream { _socket : option Socket; _owner : bool }.

Definition IsConnected (st : SocketStream) : bool :=
  match _socket st with Some s => _isConnect s | None => false end.

(** A call on [*_socket]. *)
Definition on_socket {A} (m : M Socket A) : M SocketStream A := fun st =>
  match _socket st with
  | None => (Undef NullDeref, st)
  | Some s => let '(o, s') := m s in (o, mkSocketStream (Some s') (_owner st))
  end.

Definition on_socket_ba {A} (m : M (ByteArray * Socket) A) : M (ByteArray * SocketStream) A :=
  fun '(ba, st) =>
  match _socket st with
  | None => (Undef NullDeref, (ba, st))
  | Some s => let '(o, (ba', s')) := m (ba, s) in (o, (ba', mkSocketStream (Some s') (_owner st)))
  end.

Definition SocketStream_Close (st : SocketStream) : SocketStream :=
  match _socket st with
  | Some s => mkSocketStream (Some (snd (Socket_Close s))) (_owner st)
  | None => st
  end.

(** The destructor closes only an owned socket. *)
Definition SocketStream_destroy (st : SocketStream) : SocketStream :=
  if _owner st then SocketStream_Close st else st.

Definition SocketStream_Read (len : Z) : M SocketStream (Z * list Z) :=
  st ← get;
  if negb (IsConnected st) then mret (-1, []) else on_socket (Recv len).

Definition SocketStream_Read_ba (len : Z) : M (ByteArray * SocketStream) Z :=
  '(_, st) ← get;
  if negb (IsConnected st) then mret (-1) else
  '(_, iovs) ← on_fst (GetWriteBuffers len);
  ret ← on_socket_ba (RecvV iovs);
  (if 0 <? ret then '(ba, _) ← get; on_fst (SetPosition (u64 (_position ba + ret))) else mret tt);;
  mret ret.

Definition SocketStream_Write (buf : list Z) : M SocketStream Z :=
  st ← get;
  if negb (IsConnected st) then mret (-1) else on_socket (Send buf).

Definition SocketStream_Write_ba (len : Z) : M (ByteArray * SocketStream) Z :=
  '(ba, st) ← get;
  if negb (IsConnected st) then mret (-1) else
  '(_, iovs) ← lift (GetReadBuffers ba len);
  ret ← on_socket_ba (SendV iovs);
  (if 0 <? ret then '(ba, _) ← get; on_fst (SetPosition (u64 (_position ba + ret))) else mret tt);;
  mret ret.
End socket.
Arguments Socket K : clear implicits.
Arguments SocketStream K : clear implicits.

(** ** The abstract class Stream *)
Class Stream (St : Type) := {
  s_read : Z -> M St (Z * list Z);
  s_read_ba : Z -> M (ByteArray * St) Z;
  s_write : list Z -> M St Z;
  s_write_ba : Z -> M (ByteArray * St) Z;
  s_close : St -> St;
}.

Section fixsize.
Context {St : Type} {SS : Stream St}.
(** [s_bufferSize], after the conversion to [size_t] *)
Context (s_bufferSize : Z).

(** [ReadFixSize(buffer, len)]: the bytes stored so far are [buffer]. *)
Fixpoint ReadFix_loop (fuel : nat) (len left : Z) (buffer : list Z) : M St (Z * list Z) :=
  match fuel with
  | O => nofuel
  | S fuel =>
    if 0 <? left then
      '(tmp, bs) ← s_read (Z.min left s_bufferSize);
      if tmp <=? 0 then mret (tmp, buffer ++ bs)
      else ReadFix_loop fuel len (u64 (left - tmp)) (buffer ++ bs)
    else mret (s64 len, buffer)
  end.

Definition ReadFixSize (fuel : nat) (len : Z) : M St (Z * list Z) := ReadFix_loop fuel len len [].

Fixpoint ReadFix_ba_loop (fuel : nat) (len left : Z) : M (ByteArray * St) Z :=
  match fuel with
  | O => nofuel
  | S fuel =>
    if 0 <? left then
      tmp ← s_read_ba (Z.min left s_bufferSize);
      if tmp <=? 0 then mret tmp else ReadFix_ba_loop fuel len (u64 (left - tmp))
    else mret (s64 len)
  end.

Definition ReadFixSize_ba (fuel : nat) (len : Z) : M (ByteArray * St) Z := ReadFix_ba_loop fuel len len.

(** [WriteFixSize(buffer, len)]: [buf] is what lies at [buffer + offset]. *)
Fixpoint WriteFix_loop (fuel : nat) (len left : Z) (buf : list Z) : M St Z :=
  match fuel with
  | O => nofuel
  | S fuel =>
    if 0 <? left then
      tmp ← s_write (take (Z.to_nat (Z.min left s_bufferSize)) buf);
      if tmp <=? 0 then mret tmp
      else WriteFix_loop fuel len (u64 (left - tmp)) (drop (Z.to_nat tmp) buf)
    else mret (s64 len)
  end.

Definition WriteFixSize (fuel : nat) (buf : list Z) : M St Z :=
  WriteFix_loop fuel (zlen buf) (zlen buf) buf.

Fixpoint WriteFix_ba_loop (fuel : nat) (len left : Z) : M (ByteArray * St) Z :=
  match fuel with
  | O => nofuel
  | S fuel =>
    if 0 <? left then
      tmp ← s_write_ba (Z.min left s_bufferSize);
      if tmp <=? 0 then mret tmp else WriteFix_ba_loop fuel len (u64 (left - tmp))
    else mret (s64 len)
  end.

Definition WriteFixSize_ba (fuel : nat) (len : Z) : M (ByteArray * St) Z := WriteFix_ba_loop fuel len len.
End fixsize.

(** ** Storing into scattered memory *)

(** The ranges cover consecutive positions from [p] on. *)
Fixpoint contiguous (ba : ByteArray) (p : Z) (vs : list iovec) : Prop :=
  match vs with
  | [] => True
  | v :: vs =>
    _nodeSize ba * Z.of_nat (iov_node v) + iov_off v = p /\ 0 <= iov_off v /\ 0 <= iov_len v /\
    iov_off v + iov_len v <= _nodeSize ba /\ (iov_node v < length (_nodes ba))%nat /\
    contiguous ba (p + iov_len v) vs
  end.

Lemma contiguous_ext ba ba' vs : forall p,
  _nodeSize ba' = _nodeSize ba -> length (_nodes ba') = length (_nodes ba) ->
  contiguous ba p vs -> contiguous ba' p vs.
Proof.
  induction vs as [|v vs IH]; intros p Hn Hl; [done|]. cbn [contiguous]. rewrite Hn, Hl.
  intros (? & ? & ? & ? & ? & ?). split_and!; auto.
Qed.

Lemma contiguous_app ba vs ws : forall p,
  contiguous ba p (vs ++ ws) <-> contiguous ba p vs /\ contiguous ba (p + iovs_len vs) ws.
Proof.
  induction vs as [|v vs IH]; intros p; cbn [app contiguous].
  - change (iovs_len []) with 0. rewrite Z.add_0_r. tauto.
  - rewrite IH. change (iovs_len (v :: vs)) with (iov_len v + iovs_len vs).
    rewrite Z.add_assoc. tauto.
Qed.

Lemma iovs_len_app vs ws : iovs_len (vs ++ ws) = iovs_len vs + iovs_len ws.
Proof. unfold iovs_len. induction vs; cbn [app foldr]; lia. Qed.

Lemma chunks_contiguous f fuel : forall ba i o len p acc vs,
  chain ba -> (i < length (_nodes ba))%nat -> 0 <= o < _nodeSize ba -> 0 < len ->
  (forall n c, 0 < n <= c -> 0 <= f n c <= c) ->
  contiguous ba p acc -> p + iovs_len acc = _nodeSize ba * Z.of_nat i + o ->
  chunks f ba fuel (Some i) o (_nodeSize ba - o) len acc = Ok vs -> contiguous ba p vs.
Proof.
  induction fuel as [|fuel IH]; intros ba i o len p acc vs Hc Hi Ho Hs Hf Hacc Hp E; [done|].
  cbn [chunks] in E. rewrite (proj2 (Z.eqb_neq _ _)) in E by lia.
  destruct (chain_lookup _ Hc i Hi) as (nd & Hnd & Hlen). rewrite (deref_ok _ _ _ Hnd) in E.
  cbn [obind] in E. destruct (Z.leb_spec len (_nodeSize ba - o)) as [Hle|Hlt].
  - injection E as <-. specialize (Hf len (_nodeSize ba - o)).
    apply contiguous_app. split; [done|]. cbn. split_and!; try done; lia.
  - destruct (decide (S i < length (_nodes ba))%nat) as [HSi|HSi].
    2: { unfold node_next in E. by rewrite decide_False in E. }
    destruct (chain_lookup _ Hc (S i) HSi) as (nd1 & Hnd1 & Hlen1).
    unfold node_next in E. rewrite decide_True in E by done. rewrite (deref_ok _ _ _ Hnd1) in E.
    cbn [obind] in E. rewrite Hlen1, <- (Z.sub_0_r (_nodeSize ba)) in E at 1.
    eapply IH in E; eauto; try lia.
    + apply contiguous_app. split; [done|]. cbn. split_and!; try done; lia.
    + rewrite iovs_len_app. change (iovs_len [_]) with (_nodeSize ba - o + 0). lia.
Qed.

Lemma contiguous_nonneg ba vs : forall p, contiguous ba p vs -> 0 <= iovs_len vs.
Proof.
  induction vs as [|v vs IH]; intros p Hv; [done|].
  destruct Hv as (_ & _ & Hl & _ & _ & Hv%IH).
  change (iovs_len (v :: vs)) with (iov_len v + iovs_len vs). lia.
Qed.

Lemma contiguous_bound ba vs : forall p,
  chain ba -> contiguous ba p vs -> p <= _capacity ba -> p + iovs_len vs <= _capacity ba.
Proof.
  induction vs as [|v vs IH]; intros p Hc Hv Hp.
  - change (iovs_len []) with 0. lia.
  - destruct Hv as (Hpos & Ho & Hl & Hfit & Hi & Hv).
    change (iovs_len (v :: vs)) with (iov_len v + iovs_len vs).
    rewrite Z.add_assoc. apply IH; [done|done|]. rewrite (chain_capacity _ Hc). nia.
Qed.

(** Filling consecutive ranges is one write into the whole memory. *)
Lemma store_iovs_ok vs : forall ba p bs,
  chain ba -> 0 <= p -> contiguous ba p vs -> zlen bs <= iovs_len vs ->
  exists nds, store_iovs vs bs ba = (Ok tt, set_nodes nds ba) /\
    chain (set_nodes nds ba) /\ concat nds = splice (flat ba) p bs.
Proof.
  induction vs as [|v vs IH]; intros ba p bs Hc Hp Hv Hb; cbn [store_iovs].
  - exists (_nodes ba). assert (set_nodes (_nodes ba) ba = ba) as -> by by destruct ba.
    destruct bs; [|cbn in Hb; lia]. split_and!; [done|done|]. by rewrite splice_nil.
  - destruct Hv as (Hpos & Ho & Hl & Hfit & Hi & Hv).
    change (iovs_len (v :: vs)) with (iov_len v + iovs_len vs) in Hb.
    destruct (chain_lookup _ Hc _ Hi) as (nd & Hnd & Hlen).
    set (b1 := take (Z.to_nat (iov_len v)) bs). set (b2 := drop (Z.to_nat (iov_len v)) bs).
    assert (zlen b1 = Z.min (iov_len v) (zlen bs)) as Hb1 by (unfold b1; rewrite length_take; lia).
    assert (zlen b2 = zlen bs - zlen b1) as Hb2 by (unfold b2; rewrite length_drop; lia).
    step (memcpy_to_ok ba (iov_node v) nd (iov_off v) b1 Hnd ltac:(lia) ltac:(lia)).
    set (ba1 := set_nodes _ ba).
    assert (chain ba1) as Hc1.
    { eapply chain_ext; try done; [by cbn; rewrite length_insert|].
      eapply Forall_splice; [apply Hc|done|lia|lia]. }
    assert (flat ba1 = splice (flat ba) p b1) as Hf1.
    { unfold flat. cbn. rewrite (node_splice (_nodeSize ba)); [by rewrite Hpos|apply Hc|done|lia|lia]. }
    pose proof (contiguous_nonneg _ _ _ Hv).
    destruct (IH ba1 (p + iov_len v) b2) as (nds & E & Hc2 & Hf2); [done|lia| |lia|].
    { eapply contiguous_ext; [| |done]; [done|]. cbn. by rewrite length_insert. }
    exists nds. split_and!; [done|done|]. rewrite Hf2, Hf1.
    pose proof (chain_flat _ Hc) as Hfl. pose proof (chain_capacity _ Hc).
    destruct (Z.le_gt_cases (zlen bs) (iov_len v)).
    + assert (b2 = []) as -> by (apply length_zero_iff_nil; lia).
      rewrite splice_nil by lia. f_equal. apply firstn_all2. lia.
    + replace (iov_len v) with (zlen b1) by lia.
      rewrite splice_splice by nia. unfold b1, b2. by rewrite take_drop.
Qed.

Lemma store_iovs_nil vs ba : forall p,
  chain ba -> contiguous ba p vs -> store_iovs vs [] ba = (Ok tt, ba).
Proof.
  induction vs as [|v vs IH]; intros p Hc Hv; [done|].
  destruct Hv as (_ & Ho & Hl & Hfit & Hi & Hv). cbn [store_iovs].
  destruct (chain_lookup _ Hc _ Hi) as (nd & Hnd & Hlen). rewrite take_nil, drop_nil.
  step (memcpy_to_ok ba (iov_node v) nd (iov_off v) [] Hnd ltac:(lia) ltac:(cbn; lia)).
  rewrite splice_nil, list_insert_id by done.
  assert (set_nodes (_nodes ba) ba = ba) as -> by by destruct ba. by eapply IH.
Qed.

(** ** Receiving into and sending from a byte array *)
Section transfers.
Context {Mach : Machine}.

(** The writable ranges start at the position and follow each other. *)
Lemma GetWriteBuffers_ok ba len :
  wf ba -> 0 < len -> room ba len ->
  exists ba' vs, GetWriteBuffers len ba = (Ok (len, vs), ba') /\ grown ba len ba' /\
    contiguous ba' (_position ba) vs /\ len <= iovs_len vs < len + _nodeSize ba.
Proof.
  intros Hwf Hlen Hroom.
  destruct (GetWriteBuffers_run ba len) as (ba1 & vs & i & o & E & G & Hpo & Hi & Ho & Ec & ? & _ & _);
    [done..|].
  exists ba1, vs. split_and!; [done|done| |lia|lia]. pose proof (gr_nodeSize _ _ _ G) as Hns.
  rewrite <- Hns in Ec. eapply chunks_contiguous in Ec; try done; try lia; try apply G.
  all: try change (iovs_len []) with 0; rewrite ?Hns; lia.
Qed.

(** The state after [bs] has been received at the position. *)
Record received (ba : ByteArray) (bs : list Z) (ba' : ByteArray) : Prop := {
  rc_wf : wf ba';
  rc_view : ba_view ba' = view_write bs (ba_view ba);
  rc_endian : _endian ba' = _endian ba;
  rc_nodeSize : _nodeSize ba' = _nodeSize ba;
}.

Lemma received_nil ba : wf ba -> received ba [] ba.
Proof.
  intros Hwf. split; try done. unfold view_write. rewrite splice_nil by apply Hwf. cbn.
  by rewrite Z.add_0_r.
Qed.

(** Growing alone leaves the view as it was. *)
Lemma grown_received ba n ba1 : wf ba -> grown ba n ba1 -> received ba [] ba1.
Proof.
  intros Hwf G. pose proof (wf_position _ Hwf). pose proof (wf_size _ Hwf).
  pose proof (chain_flat _ (wf_chain _ Hwf)). destruct G. split; try done.
  - split; [done|lia|lia|congruence].
  - unfold view_write. rewrite splice_nil by (cbn; lia). unfold ba_view. cbn.
    rewrite Z.add_0_r, gr_position. f_equal.
    unfold data. rewrite gr_size, gr_flat. by rewrite take_app_le by lia.
Qed.

(** Storing received bytes into the ranges and moving the position past them. *)
Lemma store_received ba n ba1 vs bs :
  wf ba -> grown ba n ba1 -> contiguous ba1 (_position ba) vs -> zlen bs <= iovs_len vs ->
  exists ba2, store_iovs vs bs ba1 = (Ok tt, ba2) /\
    _position ba2 = _position ba /\ chain ba2 /\
    exists ba3, SetPosition (_position ba + zlen bs) ba2 = (Ok tt, ba3) /\ received ba bs ba3.
Proof.
  intros Hwf G Hv Hb. pose proof (wf_position _ Hwf). pose proof (wf_size _ Hwf).
  pose proof (chain_flat _ (wf_chain _ Hwf)) as Hfl. pose proof (gr_capacity _ _ _ G).
  pose proof (contiguous_bound _ _ _ (gr_chain _ _ _ G) Hv ltac:(lia)).
  pose proof (chain_flat _ (gr_chain _ _ _ G)) as Hfl1.
  destruct (store_iovs_ok vs ba1 (_position ba) bs) as (nds & E & Hc2 & Hf2);
    [apply G|lia|done|done|].
  exists (set_nodes nds ba1). split_and!; [done|apply G|done|].
  eexists. split; [apply SetPosition_run; [done|cbn; lia]|]. destruct G.
  assert (wf (set_nodes nds ba1)) as Hwf2.
  { split; cbn; [done|lia|lia|]. by rewrite gr_cur, gr_position. }
  split; [apply SetPosition_wf; [done|cbn; lia]| |cbn; congruence|cbn; congruence].
  unfold ba_view, view_write. cbn [vdata vpos _position set_size moved set_cur set_pos]. f_equal.
  unfold data at 1. cbn [_size set_size set_nodes]. unfold flat at 1. cbn [_nodes set_size moved set_cur set_pos set_nodes].
  rewrite Hf2, gr_size, take_splice_grow by lia. f_equal.
  unfold data. rewrite gr_flat. by rewrite take_app_le by lia.
Qed.
End transfers.

(** ** What a stream promises *)
Class StreamLaws (St : Type) `{Stream St} {Mach : Machine} := {
  sin : St -> list Z;
  sout : St -> list Z;
  sspace : St -> Z;
  s_read_data n s : 0 < n -> sin s <> [] ->
    exists bs s', s_read n s = (Ok (zlen bs, bs), s') /\ 0 < zlen bs <= n /\
      sin s = bs ++ sin s' /\ sout s' = sout s /\ sspace s' = sspace s;
  s_read_end n s : 0 < n -> sin s = [] ->
    exists r s', s_read n s = (Ok (r, []), s') /\ r <= 0 /\
      sin s' = [] /\ sout s' = sout s /\ sspace s' = sspace s;
  (** a read into a byte array may store more than the [n] bytes asked for *)
  s_read_ba_data n ba s : 0 < n -> wf ba -> room ba n -> sin s <> [] ->
    exists bs ba' s', s_read_ba n (ba, s) = (Ok (zlen bs), (ba', s')) /\
      0 < zlen bs < n + _nodeSize ba /\ sin s = bs ++ sin s' /\ received ba bs ba' /\
      sout s' = sout s /\ sspace s' = sspace s;
  s_read_ba_end n ba s : 0 < n -> wf ba -> room ba n -> sin s = [] ->
    exists r ba' s', s_read_ba n (ba, s) = (Ok r, (ba', s')) /\ r <= 0 /\
      sin s' = [] /\ received ba [] ba' /\ sout s' = sout s /\ sspace s' = sspace s;
  s_write_some bs s : 0 < zlen bs -> 0 < sspace s ->
    exists m s', s_write bs s = (Ok m, s') /\ 0 < m <= zlen bs /\ m <= sspace s /\
      sout s' = sout s ++ take (Z.to_nat m) bs /\ sin s' = sin s /\ sspace s' = sspace s - m;
  s_write_fail bs s : 0 < zlen bs -> sspace s <= 0 ->
    exists r s', s_write bs s = (Ok r, s') /\ r <= 0 /\
      sout s' = sout s /\ sin s' = sin s /\ sspace s' = sspace s;
  s_write_ba_some n ba s : wf ba -> 0 < n <= avail ba -> 0 < sspace s ->
    exists m s', s_write_ba n (ba, s) = (Ok m, (moved ba (_position ba + m), s')) /\
      0 < m <= n /\ m <= sspace s /\
      sout s' = sout s ++ slice (data ba) (_position ba) m /\ sin s' = sin s /\
      sspace s' = sspace s - m;
  s_write_ba_fail n ba s : wf ba -> 0 < n <= avail ba -> sspace s <= 0 ->
    exists r s', s_write_ba n (ba, s) = (Ok r, (ba, s')) /\ r <= 0 /\
      sout s' = sout s /\ sin s' = sin s /\ sspace s' = sspace s;
  s_close_ok s : sin (s_close s) = [] /\ sspace (s_close s) = 0;
}.

(** ** A socket stream keeps the promise *)
Section socket_stream.
Context {K : Type} {KK : Kernel K} {KL : KernelLaws K} {Mach : Machine}.

#[export] Instance SocketStream_stream : Stream (SocketStream K) := {|
  s_read := SocketStream_Read; s_read_ba := SocketStream_Read_ba;
  s_write := SocketStream_Write; s_write_ba := SocketStream_Write_ba;
  s_close := SocketStream_Close;
|}.

(** The kernel connection of a stream that is connected. *)
Definition live (st : SocketStream K) : option K :=
  match _socket st with
  | Some s => if _isConnect s then _sockfd s else None
  | None => None
  end.

Definition live_sin (st : SocketStream K) : list Z := from_option kin [] (live st).
Definition live_sout (st : SocketStream K) : list Z := from_option kout [] (live st).
Definition live_space (st : SocketStream K) : Z := from_option kspace 0 (live st).

(** The stream around a connection. *)
Definition open_stream (o : bool) (k : K) : SocketStream K := mkSocketStream (Some (mkSocket true (Some k))) o.

Lemma live_open st k : live st = Some k -> st = open_stream (_owner st) k.
Proof.
  unfold live. destruct st as [[[[] fd]|] o]; cbn; intros H; try done. by rewrite H.
Qed.

(** Without a connection every transfer reports -1 and does nothing. *)
Lemma dead_read n st : live st = None -> SocketStream_Read n st = (Ok (-1, []), st).
Proof. unfold live. destruct st as [[[[] [k|]]|] o]; cbn; intros H; done. Qed.

Lemma dead_write bs st : live st = None -> SocketStream_Write bs st = (Ok (-1), st).
Proof. unfold live. destruct st as [[[[] [k|]]|] o]; cbn; intros H; done. Qed.

Lemma dead_read_ba n ba st : live st = None -> 0 < n -> wf ba -> room ba n ->
  exists ba', SocketStream_Read_ba n (ba, st) = (Ok (-1), (ba', st)) /\ received ba [] ba'.
Proof.
  intros Hl Hn Hwf Hr.
  pose proof (received_nil ba Hwf).
  unfold SocketStream_Read_ba. step (eq_refl : get (ba, st) = (Ok (ba, st), (ba, st))).
  destruct (IsConnected st) eqn:Hc; [|by exists ba].
  destruct (GetWriteBuffers_ok ba n Hwf Hn Hr) as (ba1 & vs & E & G & _).
  exists ba1. split; [|by eapply grown_received].
  cbn [negb]. unfold IsConnected, live in *.
  destruct st as [[[[] [k|]]|] o]; cbn in Hc, Hl; try done.
  assert (on_fst (GetWriteBuffers n) (ba, mkSocketStream (Some (mkSocket true None)) o) =
    (Ok (n, vs), (ba1, mkSocketStream (Some (mkSocket true (@None K))) o))) as E1 by (cbn; by rewrite E).
  step E1. done.
Qed.

Lemma dead_write_ba n ba st : live st = None -> wf ba -> 0 <= n ->
  SocketStream_Write_ba n (ba, st) = (Ok (-1), (ba, st)).
Proof.
  intros Hl Hwf Hn. unfold SocketStream_Write_ba.
  step (eq_refl : get (ba, st) = (Ok (ba, st), (ba, st))).
  destruct (IsConnected st) eqn:Hc; [|done].
  destruct (GetReadBuffers_total ba n Hwf Hn) as (vs & E & _). rewrite E. cbn [negb].
  step (eq_refl : lift (Ok (Z.min n (avail ba), vs)) (ba, st) = (Ok _, (ba, st))).
  unfold IsConnected, live in *. by destruct st as [[[[] [k|]]|] o]; cbn in Hc, Hl.
Qed.

(** With one, they are the kernel's. *)
Lemma open_read n o k : SocketStream_Read n (open_stream o k) =
  (Ok (fst (krecv n k)), open_stream o (snd (krecv n k))).
Proof. cbv -[krecv]. by destruct (krecv n k). Qed.

Lemma open_write bs o k : SocketStream_Write bs (open_stream o k) =
  (Ok (fst (ksend bs k)), open_stream o (snd (ksend bs k))).
Proof. cbv -[ksend]. by destruct (ksend bs k). Qed.

Lemma open_recvv vs ba ba' bs r o k k' :
  krecv (iovs_len vs) k = ((r, bs), k') -> store_iovs vs bs ba = (Ok tt, ba') ->
  on_socket_ba (RecvV vs) (ba, open_stream o k) = (Ok r, (ba', open_stream o k')).
Proof.
  intros E1 E2. unfold on_socket_ba, RecvV, open_stream. cbn [_socket _isConnect _sockfd negb].
  by rewrite E1, E2.
Qed.

Lemma open_read_ba n ba o k :
  0 < n -> wf ba -> room ba n ->
  exists c, n <= c < n + _nodeSize ba /\
    forall r bs k', krecv c k = ((r, bs), k') -> zlen bs <= c ->
      r = zlen bs \/ (r <= 0 /\ bs = []) ->
      exists ba', SocketStream_Read_ba n (ba, open_stream o k) = (Ok r, (ba', open_stream o k')) /\
        received ba bs ba'.
Proof.
  intros Hn Hwf Hr. destruct (GetWriteBuffers_ok ba n Hwf Hn Hr) as (ba1 & vs & E & G & Hv & Hlen).
  exists (iovs_len vs). split; [done|]. intros r bs k' Ek Hbs Hcase.
  destruct (store_received ba n ba1 vs bs Hwf G Hv Hbs) as (ba2 & E2 & Hp2 & Hc2 & ba3 & E3 & HR).
  assert (SocketStream_Read_ba n (ba, open_stream o k) =
    ((if 0 <? r then '(ba, _) ← get; on_fst (SetPosition (u64 (_position ba + r))) else mret tt);;
     mret r) (ba2, open_stream o k')) as Hrun.
  { unfold SocketStream_Read_ba. step (eq_refl : get (ba, open_stream o k) = (Ok _, (ba, open_stream o k))).
    change (negb (IsConnected (open_stream o k))) with false. cbn match.
    assert (on_fst (GetWriteBuffers n) (ba, open_stream o k) = (Ok (n, vs), (ba1, open_stream o k))) as E1
      by (cbn; by rewrite E).
    step E1. by step (open_recvv vs ba1 ba2 bs r o k k' Ek E2). }
  rewrite Hrun. destruct (Z.ltb_spec 0 r).
  - destruct Hcase as [->|[? _]]; [|lia]. exists ba3. split; [|done].
    pose proof (wf_position _ Hwf). pose proof (rc_wf _ _ _ HR) as Hwf3.
    pose proof (wf_position _ Hwf3). pose proof (wf_size _ Hwf3). pose proof (chain_fits _ (wf_chain _ Hwf3)).
    pose proof (f_equal vpos (rc_view _ _ _ HR)) as Hp3. cbn in Hp3.
    assert (on_fst (SetPosition (u64 (_position ba2 + zlen bs))) (ba2, open_stream o k') =
      (Ok tt, (ba3, open_stream o k'))) as E4.
    { unfold on_fst. by rewrite Hp2, u64_id, E3 by lia. }
    unfold mbind at 1, M_bind. step (eq_refl : get (ba2, open_stream o k') = (Ok _, (ba2, open_stream o k'))).
    by rewrite E4.
  - assert (bs = []) as -> by (destruct Hcase as [->|[_ ?]]; [destruct bs; cbn in *; [done|lia]|done]).
    rewrite (store_iovs_nil vs ba1 _ (gr_chain _ _ _ G) Hv) in E2. injection E2 as <-.
    exists ba1. split; [done|]. by eapply grown_received.
Qed.
Lemma SetPosition_inside ba p :
  wf ba -> 0 <= p <= _size ba -> SetPosition p ba = (Ok tt, moved ba p).
Proof.
  intros Hwf Hp. pose proof (wf_size _ Hwf). rewrite SetPosition_run by (apply Hwf || lia).
  by rewrite Z.max_l by lia.
Qed.

Lemma open_write_ba n ba o k m k' :
  wf ba -> 0 < n <= avail ba -> ksend (slice (data ba) (_position ba) n) k = (m, k') -> m <= n ->
  SocketStream_Write_ba n (ba, open_stream o k) =
    (Ok m, (if 0 <? m then moved ba (_position ba + m) else ba, open_stream o k')).
Proof.
  intros Hwf Hn Ek Hm. destruct (GetReadBuffers_total ba n Hwf ltac:(lia)) as (vs & E & Hb & _).
  rewrite Z.min_l in * by lia. unfold SocketStream_Write_ba.
  step (eq_refl : get (ba, open_stream o k) = (Ok _, (ba, open_stream o k))).
  change (negb (IsConnected (open_stream o k))) with false. cbn match. rewrite E.
  step (eq_refl : lift (Ok (n, vs)) (ba, open_stream o k) = (Ok (n, vs), (ba, open_stream o k))).
  assert (on_socket_ba (SendV vs) (ba, open_stream o k) = (Ok m, (ba, open_stream o k'))) as E1.
  { unfold on_socket_ba, SendV, Send, open_stream. cbn [_socket _isConnect _sockfd].
    by rewrite Hb, Ek. }
  step E1. destruct (Z.ltb_spec 0 m); [|done].
  pose proof (avail_bounds _ Hwf). pose proof (wf_position _ Hwf). pose proof (wf_size _ Hwf).
  pose proof (chain_fits _ (wf_chain _ Hwf)).
  unfold mbind at 1, M_bind. step (eq_refl : get (ba, open_stream o k') = (Ok _, (ba, open_stream o k'))).
  unfold on_fst. by rewrite u64_id, SetPosition_inside by (done || lia).
Qed.

Lemma slice_avail ba n : wf ba -> 0 < n <= avail ba ->
  zlen (slice (data ba) (_position ba) n) = n /\
  forall m, 0 <= m <= n -> take (Z.to_nat m) (slice (data ba) (_position ba) n) = slice (data ba) (_position ba) m.
Proof.
  intros Hwf Hn. pose proof (wf_position _ Hwf). unfold avail in Hn. split.
  - rewrite slice_length by lia. lia.
  - intros m Hm. unfold slice. rewrite take_take. f_equal. lia.
Qed.

Ltac by_live st k :=
  destruct (live st) as [k|] eqn:?;
  [ match goal with H : live st = Some _ |- _ => rewrite (live_open st k H) in *; clear H end | ].

#[export, refine] Instance SocketStream_laws : StreamLaws (SocketStream K) := {|
  sin := live_sin; sout := live_sout; sspace := live_space
|}.
Proof.
  all: unfold live_sin, live_sout, live_space; cbn [s_read s_read_ba s_write s_write_ba s_close SocketStream_stream].
  - intros n st Hn Hin. by_live st k; [|done]. change (kin k <> []) in Hin.
    destruct (krecv_data n k Hn Hin) as (bs & k' & E & ?).
    exists bs, (open_stream (_owner st) k'). by rewrite open_read, E.
  - intros n st Hn Hin. by_live st k.
    + change (kin k = []) in Hin. destruct (krecv_end n k Hn Hin) as (r & k' & E & ?).
      exists r, (open_stream (_owner st) k'). by rewrite open_read, E.
    + exists (-1), st. rewrite dead_read, Heqo by done. split_and!; [done|lia|done..].
  - intros n ba st Hn Hwf Hr Hin. by_live st k; [|done]. change (kin k <> []) in Hin.
    destruct (open_read_ba n ba (_owner st) k Hn Hwf Hr) as (c & Hc & Hrun).
    destruct (krecv_data c k ltac:(lia) Hin) as (bs & k' & E & ? & ?).
    destruct (Hrun _ _ _ E) as (ba' & E' & HR); [lia|by left|].
    exists bs, ba', (open_stream (_owner st) k'). rewrite E'. split_and!; try done; lia || apply H0.
  - intros n ba st Hn Hwf Hr Hin. by_live st k.
    + change (kin k = []) in Hin.
      destruct (open_read_ba n ba (_owner st) k Hn Hwf Hr) as (c & Hc & Hrun).
      destruct (krecv_end c k ltac:(lia) Hin) as (r & k' & E & ? & ?).
      destruct (Hrun _ _ _ E) as (ba' & E' & HR); [cbn; lia|by right|].
      exists r, ba', (open_stream (_owner st) k'). rewrite E'. split_and!; try done; apply H0.
    + destruct (dead_read_ba n ba st) as (ba' & E & HR); try done.
      exists (-1), ba', st. rewrite E, Heqo. split_and!; try done; lia.
  - intros bs st Hb Hs. by_live st k; [|cbn in Hs; lia]. change (0 < kspace k) in Hs.
    destruct (ksend_some bs k Hb Hs) as (m & k' & E & ?).
    exists m, (open_stream (_owner st) k'). by rewrite open_write, E.
  - intros bs st Hb Hs. by_live st k.
    + change (kspace k <= 0) in Hs. destruct (ksend_fail bs k Hb Hs) as (r & k' & E & ?).
      exists r, (open_stream (_owner st) k'). by rewrite open_write, E.
    + exists (-1), st. rewrite dead_write, Heqo by done. split_and!; try done; lia.
  - intros n ba st Hwf Hn Hs. by_live st k; [|cbn in Hs; lia]. change (0 < kspace k) in Hs.
    destruct (slice_avail ba n Hwf Hn) as [Hl Htake].
    destruct (ksend_some (slice (data ba) (_position ba) n) k) as (m & k' & E & Hm & Hms & Ho & Hi & Hk);
      [lia|done|].
    exists m, (open_stream (_owner st) k').
    rewrite (open_write_ba n ba _ k m k'), (proj2 (Z.ltb_lt 0 m)) by (done || lia).
    split_and!; try done; try lia. change (kout k' = kout k ++ slice (data ba) (_position ba) m).
    by rewrite Ho, Htake by lia.
  - intros n ba st Hwf Hn Hs. by_live st k.
    + change (kspace k <= 0) in Hs. destruct (slice_avail ba n Hwf Hn) as [Hl _].
      destruct (ksend_fail (slice (data ba) (_position ba) n) k) as (r & k' & E & Hr & ?); [lia|done|].
      exists r, (open_stream (_owner st) k').
      by rewrite (open_write_ba n ba _ k r k'), (proj2 (Z.ltb_ge 0 r)) by (done || lia).
    + exists (-1), st. rewrite dead_write_ba, Heqo by (done || lia). split_and!; try done; lia.
  - intros [[[[] [k|]]|] o]; done.
Defined.
End socket_stream.

(** ** Moving a fixed number of bytes *)
Section fixsize_facts.
Context {St : Type} {SS : Stream St} {Mach : Machine} {SL : StreamLaws St}.
Context (bufsz : Z) (Hbuf : 0 < bufsz).

Lemma received_trans ba ba1 ba2 bs1 bs2 :
  wf ba -> received ba bs1 ba1 -> received ba1 bs2 ba2 -> received ba (bs1 ++ bs2) ba2.
Proof.
  intros Hwf [H1 V1 ? ?] [H2 V2 ? ?]. split; [done| |congruence|congruence].
  rewrite V2, V1. unfold view_write. cbn [vdata vpos ba_view].
  pose proof (wf_position _ Hwf). pose proof (data_zlen _ Hwf).
  rewrite splice_splice, length_app by lia. f_equal. lia.
Qed.

Lemma received_room ba bs ba' k : received ba bs ba' -> room ba (zlen bs + k) -> room ba' k.
Proof.
  intros [? Hv ? Hn]. apply (f_equal vpos) in Hv. cbn in Hv. unfold room. rewrite Hn. lia.
Qed.

Lemma u64_wrapped z : - 2 ^ 63 <= z < 0 -> u64 z = 2 ^ 64 + z.
Proof.
  intros Hz. unfold uwrap. replace z with (2 ^ 64 + z + -1 * 2 ^ 64) at 1 by lia.
  rewrite Z_mod_plus_full, Z.mod_small; lia.
Qed.

Lemma ReadFix_loop_ok n : forall len left acc s,
  0 <= left < 2 ^ 64 -> left < Z.of_nat n ->
  let k := Z.to_nat left in
  exists r s', (forall fuel, (n <= fuel)%nat ->
      ReadFix_loop bufsz fuel len left acc s = (Ok (r, acc ++ take k (sin s)), s')) /\
    sout s' = sout s /\ sspace s' = sspace s /\ sin s' = drop k (sin s) /\
    (if left <=? zlen (sin s) then r = s64 len else r <= 0).
Proof.
  induction n as [|n IH]; intros len left acc s Hl Hf k; [lia|].
  destruct (Z.ltb_spec 0 left) as [Hpos|Hpos]; pose proof Hpos as Hltb.
  2: { apply Z.ltb_ge in Hltb. exists (s64 len), s. replace k with 0%nat by lia.
       rewrite take_0, drop_0, app_nil_r, (proj2 (Z.leb_le _ _)) by lia. split_and!; try done.
       intros [|fuel] Hfuel; [lia|]. cbn [ReadFix_loop]. by rewrite Hltb. }
  apply Z.ltb_lt in Hltb. destruct (decide (sin s = [])) as [Hin|Hin].
  - destruct (s_read_end (Z.min left bufsz) s) as (r & s' & E & Hr & Hin' & ? & ?); [lia|done|].
    exists r, s'. rewrite Hin, Hin', take_nil, drop_nil, (proj2 (Z.leb_gt _ _)) by (cbn; lia).
    split_and!; try done. intros [|fuel] Hfuel; [lia|]. cbn [ReadFix_loop]. rewrite Hltb.
    step E. by rewrite (proj2 (Z.leb_le _ _)).
  - destruct (s_read_data (Z.min left bufsz) s) as (bs & s1 & E & Hb & Hin1 & Ho1 & Hs1); [lia|done|].
    destruct (IH len (left - zlen bs) (acc ++ bs) s1) as (r & s' & E' & Ho & Hs & Hin' & Hr); [lia|lia|].
    exists r, s'. rewrite Hin1. replace k with (length bs + Z.to_nat (left - zlen bs))%nat by lia.
    rewrite take_app_add, drop_app_add, length_app. split_and!; try congruence.
    + intros [|fuel] Hfuel; [lia|]. cbn [ReadFix_loop]. rewrite Hltb. step E.
      rewrite (proj2 (Z.leb_gt _ _)), u64_id, E', app_assoc by lia. done.
    + destruct (Z.leb_spec (left - zlen bs) (zlen (sin s1)));
        destruct (Z.leb_spec left (Z.of_nat (length bs + length (sin s1)))); lia || done.
Qed.

(** What a fixed-size read into an array does: [got] is what it stored. *)
Lemma ReadFix_ba_loop_ok n : forall len left ba s,
  0 <= left < 2 ^ 64 -> wf ba -> room ba (zlen (sin s) + bufsz) ->
  (length (sin s) < n)%nat ->
  exists r ba' s' got, (forall fuel, (n <= fuel)%nat ->
      ReadFix_ba_loop bufsz fuel len left (ba, s) = (Ok r, (ba', s'))) /\
    sin s = got ++ sin s' /\ received ba got ba' /\ sout s' = sout s /\ sspace s' = sspace s /\
    ((r = s64 len /\ zlen got = left) \/ (r <= 0 /\ sin s' = [] /\ zlen (sin s) <> left)).
Proof.
  induction n as [|n IH]; intros len left ba s Hl Hwf Hroom Hf; [lia|].
  destruct (Z.ltb_spec 0 left) as [Hpos|Hpos]; pose proof Hpos as Hltb.
  2: { apply Z.ltb_ge in Hltb. exists (s64 len), ba, s, []. split_and!; try done; [|by apply received_nil|].
       - intros [|fuel] Hfuel; [lia|]. cbn [ReadFix_ba_loop]. by rewrite Hltb.
       - left. split; [done|]. cbn. lia. }
  apply Z.ltb_lt in Hltb. assert (room ba (Z.min left bufsz)) as Hr1 by (unfold room in *; lia).
  destruct (decide (sin s = [])) as [Hin|Hin].
  - destruct (s_read_ba_end (Z.min left bufsz) ba s) as (r & ba' & s' & E & Hr & Hin' & Hrec & ? & ?);
      [lia|done|done|done|].
    exists r, ba', s', []. rewrite Hin, Hin'. split_and!; try done.
    + intros [|fuel] Hfuel; [lia|]. cbn [ReadFix_ba_loop]. rewrite Hltb. step E. by rewrite (proj2 (Z.leb_le _ _)).
    + right. split_and!; try done. cbn. lia.
  - destruct (s_read_ba_data (Z.min left bufsz) ba s) as (bs & ba1 & s1 & E & Hb & Hin1 & Hrec & Ho1 & Hs1);
      [lia|done|done|done|].
    pose proof (f_equal length Hin1) as Hl1. rewrite length_app in Hl1.
    pose proof (wf_position _ Hwf). pose proof (chain_nodeSize _ (wf_chain _ Hwf)). unfold room in Hroom.
    destruct (IH len (u64 (left - zlen bs)) ba1 s1) as (r & ba' & s' & got & E' & Hin' & Hrec' & ? & ? & Hcase).
    { apply uwrap_range. lia. } { apply Hrec. }
    { eapply received_room; [done|]. unfold room. lia. } { lia. }
    exists r, ba', s', (bs ++ got).
    split_and!; [|by rewrite Hin1, Hin', app_assoc|by eapply received_trans|congruence..|].
    { intros [|fuel] Hfuel; [lia|]. cbn [ReadFix_ba_loop]. rewrite Hltb. step E.
      rewrite (proj2 (Z.leb_gt _ _)) by lia. apply E'. lia. }
    apply (f_equal length) in Hin'. rewrite length_app in Hin'. rewrite length_app.
    destruct (Z.le_gt_cases (zlen bs) left) as [Hle|Hgt].
    + rewrite u64_id in Hcase by lia. destruct Hcase as [[-> ?]|(? & ? & ?)]; [left|right].
      * split; [done|lia].
      * split_and!; try done. lia.
    + right. rewrite u64_wrapped in Hcase by lia.
      destruct Hcase as [[-> ?]|(? & ? & ?)]; [lia|]. split_and!; try done. lia.
Qed.

Lemma WriteFix_loop_ok fuel : forall len left buf s,
  left = zlen buf -> left < 2 ^ 64 -> left < Z.of_nat fuel -> 0 <= sspace s ->
  let n := Z.min left (sspace s) in
  exists r s', WriteFix_loop bufsz fuel len left buf s = (Ok r, s') /\
    sout s' = sout s ++ take (Z.to_nat n) buf /\ sin s' = sin s /\ sspace s' = sspace s - n /\
    (if left <=? sspace s then r = s64 len else r <= 0).
Proof.
  induction fuel as [|fuel IH]; intros len left buf s Hl Hl64 Hf Hsp n; [lia|]. cbn [WriteFix_loop].
  destruct (Z.ltb_spec 0 left).
  2: { exists (s64 len), s. replace n with 0 by lia. rewrite take_0, app_nil_r.
       rewrite (proj2 (Z.leb_le _ _)) by lia. split_and!; try done. lia. }
  set (b1 := take (Z.to_nat (Z.min left bufsz)) buf).
  assert (zlen b1 = Z.min left bufsz) as Hb1 by (unfold b1; rewrite length_take; lia).
  destruct (Z.le_gt_cases (sspace s) 0) as [Hz|Hz].
  - destruct (s_write_fail b1 s) as (r & s' & E & Hr & ? & ? & ?); [lia|lia|].
    exists r, s'. replace n with 0 by lia. rewrite take_0, app_nil_r.
    rewrite (proj2 (Z.leb_gt _ _)) by lia. step E. rewrite (proj2 (Z.leb_le _ _)) by done.
    split_and!; try done. lia.
  - destruct (s_write_some b1 s) as (m & s1 & E & Hm & Hms & Ho1 & Hi1 & Hs1); [lia|lia|].
    destruct (IH len (left - m) (drop (Z.to_nat m) buf) s1) as (r & s' & E' & Ho & Hi & Hs & Hr);
      [rewrite length_drop; lia|lia|lia|lia|].
    exists r, s'. step E. rewrite (proj2 (Z.leb_gt _ _)), u64_id by lia. split_and!; [done| |congruence|lia|].
    + rewrite Ho, Ho1, <- app_assoc. f_equal. unfold b1. rewrite take_take, Nat.min_l by lia.
      rewrite take_take_drop. f_equal. lia.
    + destruct (Z.leb_spec (left - m) (sspace s1)); destruct (Z.leb_spec left (sspace s)); lia || done.
Qed.

Lemma WriteFix_ba_loop_ok fuel : forall len left ba s,
  wf ba -> 0 <= left <= avail ba -> left < Z.of_nat fuel -> 0 <= sspace s ->
  let n := Z.min left (sspace s) in
  exists r s', WriteFix_ba_loop bufsz fuel len left (ba, s) = (Ok r, (moved ba (_position ba + n), s')) /\
    sout s' = sout s ++ slice (data ba) (_position ba) n /\ sin s' = sin s /\ sspace s' = sspace s - n /\
    (if left <=? sspace s then r = s64 len else r <= 0).
Proof.
  induction fuel as [|fuel IH]; intros len left ba s Hwf Hl Hf Hsp n; [lia|]. cbn [WriteFix_ba_loop].
  pose proof (avail_bounds _ Hwf) as [_ Hav]. pose proof (wf_position _ Hwf) as Hpos.
  pose proof (wf_size _ Hwf). pose proof (chain_fits _ (wf_chain _ Hwf)).
  destruct (Z.ltb_spec 0 left).
  2: { exists (s64 len), s. replace n with 0 by lia. rewrite slice_0, app_nil_r, Z.add_0_r.
       rewrite (proj2 (Z.leb_le _ _)), moved_self by (apply Hwf || lia). split_and!; try done. lia. }
  destruct (Z.le_gt_cases (sspace s) 0) as [Hz|Hz].
  - destruct (s_write_ba_fail (Z.min left bufsz) ba s) as (r & s' & E & Hr & ? & ? & ?); [done|lia|lia|].
    exists r, s'. replace n with 0 by lia. rewrite slice_0, app_nil_r, Z.add_0_r.
    rewrite moved_self by apply Hwf.
    rewrite (proj2 (Z.leb_gt _ _)) by lia. step E. rewrite (proj2 (Z.leb_le _ _)) by done.
    split_and!; try done. lia.
  - destruct (s_write_ba_some (Z.min left bufsz) ba s) as (m & s1 & E & Hm & Hms & Ho1 & Hi1 & Hs1); [done|lia|lia|].
    assert (wf (moved ba (_position ba + m))) as Hwf1 by (apply moved_wf; [done|lia]).
    pose proof (avail_bounds _ Hwf1) as [_ Hav1]. cbn in Hav1.
    destruct (IH len (left - m) (moved ba (_position ba + m)) s1) as (r & s' & E' & Ho & Hi & Hs & Hr);
      [done|lia|lia|lia|].
    exists r, s'. step E. rewrite (proj2 (Z.leb_gt _ _)), u64_id by lia. cbn [_position moved set_cur set_pos] in E', Ho.
    rewrite moved_moved in E'. rewrite Hs1 in *. replace n with (m + Z.min (left - m) (sspace s - m)) by lia.
    rewrite Z.add_assoc. split_and!; [done| |congruence|lia|].
    + rewrite Ho, Ho1, <- app_assoc. f_equal. apply slice_app; lia.
    + destruct (Z.leb_spec (left - m) (sspace s - m)); destruct (Z.leb_spec left (sspace s)); lia || done.
Qed.
(** The usual cases: the bytes are there, and the connection takes them. *)
Lemma ReadFixSize_ok fuel s bs rest :
  zlen bs < 2 ^ 63 -> (length bs < fuel)%nat -> sin s = bs ++ rest ->
  exists s', ReadFixSize bufsz fuel (zlen bs) s = (Ok (zlen bs, bs), s') /\
    sin s' = rest /\ sout s' = sout s /\ sspace s' = sspace s.
Proof.
  intros Hl Hf Hin. destruct (ReadFix_loop_ok fuel (zlen bs) (zlen bs) [] s)
    as (r & s' & E & Ho & Hs & Hi & Hr); [lia|lia|].
  rewrite Hin, length_app, (proj2 (Z.leb_le _ _)), swrap_id in Hr by (unfold in_s; lia). subst r.
  rewrite Hin, Nat2Z.id, take_app_length in E. rewrite Hin, Nat2Z.id, drop_app_length in Hi.
  exists s'. split_and!; try done. by apply E.
Qed.

(** Fewer bytes than asked for: a failure, and nothing is left. *)
Lemma ReadFixSize_short fuel s n :
  zlen (sin s) < n < 2 ^ 63 -> n < Z.of_nat fuel ->
  exists r s', ReadFixSize bufsz fuel n s = (Ok (r, sin s), s') /\ r <= 0 /\
    sin s' = [] /\ sout s' = sout s /\ sspace s' = sspace s.
Proof.
  intros Hl Hf. destruct (ReadFix_loop_ok fuel n n [] s) as (r & s' & E & Ho & Hs & Hi & Hr); [lia|lia|].
  rewrite (proj2 (Z.leb_gt _ _)) in Hr by lia. rewrite firstn_all2 in E by lia. rewrite drop_ge in Hi by lia.
  exists r, s'. split_and!; try done. by apply E.
Qed.

Lemma WriteFixSize_ok fuel s bs :
  zlen bs < 2 ^ 63 -> (length bs < fuel)%nat -> zlen bs <= sspace s ->
  exists s', WriteFixSize bufsz fuel bs s = (Ok (zlen bs), s') /\
    sout s' = sout s ++ bs /\ sin s' = sin s /\ sspace s' = sspace s - zlen bs.
Proof.
  intros Hl Hf Hsp. destruct (WriteFix_loop_ok fuel (zlen bs) (zlen bs) bs s)
    as (r & s' & E & Ho & Hi & Hs & Hr); [done|lia|lia|lia|].
  rewrite Z.min_l, Nat2Z.id, firstn_all in Ho by lia. rewrite Z.min_l in Hs by lia.
  rewrite (proj2 (Z.leb_le _ _)), swrap_id in Hr by (unfold in_s; lia). subst r. by exists s'.
Qed.

End fixsize_facts.

(** ** Conversations

    [transfers m a ins outs]: with [ins] next on the stream and space for
    [outs], [m] consumes [ins], sends [outs] and returns [a]. *)
Section transfers_facts.
Context {St : Type} {SS : Stream St} {Mach : Machine} {SL : StreamLaws St}.

Definition transfers {A} (m : M St A) (a : A) (ins outs : list Z) : Prop :=
  forall s rest, sin s = ins ++ rest -> zlen outs <= sspace s ->
    exists s', m s = (Ok a, s') /\ sin s' = rest /\ sout s' = sout s ++ outs /\
      sspace s' = sspace s - zlen outs.

Lemma transfers_ret {A} (a : A) : transfers (mret a) a [] [].
Proof. intros s rest Hin _. exists s. rewrite app_nil_r, Z.sub_0_r. by split_and!. Qed.

Lemma transfers_bind {A B} (m : M St A) (f : A -> M St B) a b i1 i2 o1 o2 :
  transfers m a i1 o1 -> transfers (f a) b i2 o2 -> transfers (m ≫= f) b (i1 ++ i2) (o1 ++ o2).
Proof.
  intros H1 H2 s rest Hin Hsp. rewrite length_app in Hsp. rewrite <- app_assoc in Hin.
  destruct (H1 s _ Hin) as (s1 & E1 & Hi1 & Ho1 & Hs1); [lia|].
  destruct (H2 s1 _ Hi1) as (s2 & E2 & Hi2 & Ho2 & Hs2); [lia|].
  exists s2. rewrite (bind_ok _ _ _ _ _ E1). split_and!; try done.
  - by rewrite Ho2, Ho1, app_assoc.
  - rewrite length_app. lia.
Qed.

(** Continuing with something that does not communicate. *)
Lemma transfers_pure {A B} (m : M St A) (f : A -> M St B) a b i o :
  transfers m a i o -> (forall s, f a s = (Ok b, s)) -> transfers (m ≫= f) b i o.
Proof.
  intros H Hf. rewrite <- (app_nil_r i), <- (app_nil_r o). eapply transfers_bind; [done|].
  intros s rest Hin Hsp. destruct (transfers_ret b s rest Hin Hsp) as (s' & [= <-] & ?).
  exists s. by rewrite Hf.
Qed.

Lemma transfers_ext {A} (m m' : M St A) a i o :
  (forall s, m s = m' s) -> transfers m a i o -> transfers m' a i o.
Proof.
  intros E H s rest Hin Hsp. destruct (H s rest Hin Hsp) as (s' & Hs & ?).
  exists s'. by rewrite <- E.
Qed.

Lemma transfers_read bufsz fuel n bs :
  0 < bufsz -> zlen bs < 2 ^ 63 -> (length bs < fuel)%nat -> n = zlen bs ->
  transfers (ReadFixSize bufsz fuel n) (n, bs) bs [].
Proof.
  intros Hb Hl Hf -> s rest Hin _. rewrite app_nil_r, Z.sub_0_r.
  destruct (ReadFixSize_ok bufsz Hb fuel s bs rest Hl Hf Hin) as (s' & ?). by exists s'.
Qed.

Lemma transfers_write bufsz fuel bs :
  0 < bufsz -> zlen bs < 2 ^ 63 -> (length bs < fuel)%nat ->
  transfers (WriteFixSize bufsz fuel bs) (zlen bs) [] bs.
Proof.
  intros Hb Hl Hf s rest Hin Hsp.
  destruct (WriteFixSize_ok bufsz Hb fuel s bs Hl Hf Hsp) as (s' & E & Ho & Hi & Hs).
  exists s'. split_and!; try done. by rewrite Hi.
Qed.
End transfers_facts.

(** ** Properties *)
Section properties.
Context {St : Type} {SS : Stream St} {Mach : Machine} {SL : StreamLaws St}.
Context (bufsz : Z).

(** [ReadFixSize] into a buffer: whatever pieces the stream delivers, it
    returns [len] exactly when the stream still holds [len] bytes, and then
    the buffer holds those and no byte more has been taken; otherwise it
    reports the failure after the stream's last byte. *)
Theorem ReadFixSize_exact fuel len s :
  0 < bufsz -> 0 <= len < 2 ^ 63 -> len < Z.of_nat fuel ->
  exists r s', ReadFixSize bufsz fuel len s = (Ok (r, take (Z.to_nat len) (sin s)), s') /\
    sin s' = drop (Z.to_nat len) (sin s) /\ sout s' = sout s /\
    (if len <=? zlen (sin s) then r = len else r <= 0).
Proof.
  intros Hb Hl Hf. destruct (ReadFix_loop_ok bufsz Hb fuel len len [] s)
    as (r & s' & E & Ho & _ & Hi & Hr); [lia|lia|].
  exists r, s'. split_and!; [by apply E|done|done|]. by rewrite swrap_id in Hr by (unfold in_s; lia).
Qed.

(** [ReadFixSize] into a byte array never stops half way and never
    returns the wrong bytes: it returns [len] only after storing exactly
    [len] bytes at the position; any other run has drained the stream to its
    end, storing all of it, and reports failure.  A stream that ends with the
    message always succeeds. *)
Theorem ReadFixSize_ba_exact fuel len ba s :
  0 < bufsz -> 0 <= len < 2 ^ 63 -> wf ba -> room ba (zlen (sin s) + bufsz) ->
  (length (sin s) < fuel)%nat ->
  exists r ba' s' got, ReadFixSize_ba bufsz fuel len (ba, s) = (Ok r, (ba', s')) /\
    sin s = got ++ sin s' /\ wf ba' /\ ba_view ba' = view_write got (ba_view ba) /\
    ((r = len /\ zlen got = len) \/ (r <= 0 /\ sin s' = [] /\ zlen (sin s) <> len)).
Proof.
  intros Hb Hl Hwf Hroom Hf.
  destruct (ReadFix_ba_loop_ok bufsz Hb fuel len len ba s)
    as (r & ba' & s' & got & E & Hi & [] & _ & _ & Hcase); try done; [lia|].
  rewrite swrap_id in Hcase by (unfold in_s; lia). exists r, ba', s', got. split; [by apply E|done].
Qed.

(** A message is lost when the next one has already arrived: if the read
    into the array stores more than the [len] bytes asked for (the write
    buffers run to the end of the node), the unsigned count of what is left
    underflows, the loop drains the stream to its end, and the call reports
    failure. *)
Theorem pipelined_read_fails fuel len ba s m ba1 s1 :
  0 < bufsz -> 0 < len < 2 ^ 63 -> wf ba -> room ba (zlen (sin s) + bufsz) ->
  (length (sin s) < fuel)%nat ->
  s_read_ba (Z.min len bufsz) (ba, s) = (Ok m, (ba1, s1)) -> len < m ->
  exists r ba' s', ReadFixSize_ba bufsz fuel len (ba, s) = (Ok r, (ba', s')) /\
    r <= 0 /\ sin s' = [] /\ len < zlen (sin s).
Proof.
  intros Hb Hl Hwf Hroom Hf E Hm. unfold room in Hroom.
  destruct (decide (sin s = [])) as [Hin|Hin].
  { destruct (s_read_ba_end (Z.min len bufsz) ba s) as (r & ? & ? & E' & ? & _);
      [lia|done|unfold room; lia|done|]. rewrite E in E'. injection E'. lia. }
  destruct (s_read_ba_data (Z.min len bufsz) ba s) as (bs & ? & ? & E' & Hbs & Hin1 & Hrec & _);
    [lia|done|unfold room; lia|done|]. rewrite E in E'. injection E' as -> <- <-.
  pose proof (f_equal length Hin1) as Hl1. rewrite length_app in Hl1.
  pose proof (wf_position _ Hwf). pose proof (chain_nodeSize _ (wf_chain _ Hwf)).
  assert (u64 (len - zlen bs) = 2 ^ 64 + (len - zlen bs)) as Hu by (apply u64_wrapped; lia).
  destruct fuel as [|fuel]; [lia|].
  destruct (ReadFix_ba_loop_ok bufsz Hb fuel len (u64 (len - zlen bs)) ba1 s1)
    as (r & ba' & s' & got & E' & Hi & _ & _ & _ & Hcase); [lia|apply Hrec| |lia|].
  { eapply received_room; [done|]. unfold room. lia. }
  exists r, ba', s'. unfold ReadFixSize_ba. cbn [ReadFix_ba_loop].
  rewrite (proj2 (Z.ltb_lt _ _)) by lia. step E. rewrite (proj2 (Z.leb_gt _ _)) by lia.
  split; [by apply E'|]. apply (f_equal length) in Hi. rewrite length_app in Hi.
  destruct Hcase as [[_ ?]|(? & ? & _)]; [lia|]. split_and!; try done. lia.
Qed.

(** [WriteFixSize], from a buffer and from a byte array: through any
    sequence of partial writes the bytes leave in order, all of them with the
    result [len] when the connection takes them, otherwise a prefix and a
    failure; the array's position moves past what was sent. *)
Theorem WriteFixSize_exact fuel :
  0 < bufsz ->
  (forall buf s, zlen buf < 2 ^ 63 -> (length buf < fuel)%nat -> 0 <= sspace s ->
    let n := Z.min (zlen buf) (sspace s) in
    exists r s', WriteFixSize bufsz fuel buf s = (Ok r, s') /\
      sout s' = sout s ++ take (Z.to_nat n) buf /\ sin s' = sin s /\
      (if zlen buf <=? sspace s then r = zlen buf else r <= 0)) /\
  (forall len ba s, wf ba -> 0 <= len <= avail ba -> len < Z.of_nat fuel -> 0 <= sspace s ->
    let n := Z.min len (sspace s) in
    exists r s', WriteFixSize_ba bufsz fuel len (ba, s) = (Ok r, (moved ba (_position ba + n), s')) /\
      sout s' = sout s ++ slice (data ba) (_position ba) n /\ sin s' = sin s /\
      (if len <=? sspace s then r = len else r <= 0)).
Proof.
  intros Hb. split.
  - intros buf s Hl Hf Hs n. destruct (WriteFix_loop_ok bufsz Hb fuel (zlen buf) (zlen buf) buf s)
      as (r & s' & E & Ho & Hi & _ & Hr); [done|lia|lia|done|].
    exists r, s'. rewrite swrap_id in Hr by (unfold in_s; lia). done.
  - intros len ba s Hwf Hl Hf Hs n. destruct (WriteFix_ba_loop_ok bufsz Hb fuel len len ba s)
      as (r & s' & E & Ho & Hi & _ & Hr); [done|done|done|done|].
    pose proof (avail_bounds _ Hwf). pose proof (wf_position _ Hwf). pose proof (wf_size _ Hwf).
    pose proof (chain_fits _ (wf_chain _ Hwf)).
    exists r, s'. rewrite swrap_id in Hr by (unfold in_s; lia). done.
Qed.
End properties.

(** ** A concrete connection: at most five bytes per call *)
Record pipe := mkPipe { p_in : list Z; p_out : list Z; p_space : Z }.

#[export] Instance pipe_kernel : Kernel pipe := {|
  krecv n p := let bs := take (Z.to_nat (Z.min n 5)) (p_in p) in
    ((zlen bs, bs), mkPipe (drop (Z.to_nat (Z.min n 5)) (p_in p)) (p_out p) (p_space p));
  ksend bs p := let m := Z.min (Z.min (zlen bs) 5) (Z.max 0 (p_space p)) in
    (m, mkPipe (p_in p) (p_out p ++ take (Z.to_nat m) bs) (p_space p - m));
|}.

#[export, refine] Instance pipe_laws : KernelLaws pipe := {|
  kin := p_in; kout := p_out; kspace := p_space
|}.
Proof.
  - intros n [i o sp] Hn Hi. cbn in *. do 2 eexists. split_and!; try done; cbn;
      rewrite ?length_take, ?take_drop; try done; destruct i; cbn [length] in *; try done; lia.
  - intros n [i o sp] Hn Hi. cbn in *. subst i. rewrite take_nil, drop_nil. by do 2 eexists.
  - intros bs [i o sp] Hb Hs. cbn in *. do 2 eexists. split_and!; try done; lia.
  - intros bs [i o sp] Hb Hs. cbn in *. replace (Z.min _ _) with 0 by lia.
    do 2 eexists. split_and!; try done; cbn; [by rewrite app_nil_r|lia].
Defined.

Definition demo_stream : SocketStream pipe := open_stream true (mkPipe [1;2;3;4;5;6;7;8] [] 100).
Definition demo_array : ByteArray := ByteArray_new (Mach:=demo_machine) 8.

#[local] Existing Instance demo_machine.

Lemma ReadFixSize_exact_witness :
  exists r s', ReadFixSize 3 8 7 demo_stream = (Ok (r, [1;2;3;4;5;6;7]), s') /\
    sin s' = [8] /\ sout s' = [] /\ r = 7.
Proof.
  destruct (ReadFixSize_exact 3 8 7 demo_stream) as (r & s' & E & Hi & Ho & Hr); [by_computation..|].
  exists r, s'. split_and!; [exact E|exact Hi|exact Ho|exact Hr].
Defined.

Lemma ReadFixSize_ba_exact_witness :
  exists r ba' s' got, ReadFixSize_ba 3 9 8 (demo_array, demo_stream) = (Ok r, (ba', s')) /\
    sin demo_stream = got ++ sin s' /\ wf ba' /\ ba_view ba' = view_write got (ba_view demo_array) /\
    ((r = 8 /\ zlen got = 8) \/ (r <= 0 /\ sin s' = [] /\ zlen (sin demo_stream) <> 8)).
Proof.
  apply (ReadFixSize_ba_exact 3 9 8 demo_array demo_stream); try by_computation; unfold room; by_computation.
Defined.

(** Two messages of two and six bytes in flight, nodes of eight bytes. *)
Lemma pipelined_read_fails_witness :
  exists r ba' s', ReadFixSize_ba 16384 9 2 (demo_array, demo_stream) = (Ok r, (ba', s')) /\
    r <= 0 /\ sin s' = [] /\ 2 < zlen (sin demo_stream).
Proof.
  eapply (pipelined_read_fails 16384 9 2 demo_array demo_stream 5);
    try by_computation; [unfold room; by_computation|vm_compute; reflexivity].
Defined.

Lemma WriteFixSize_exact_witness :
  exists r s', WriteFixSize 3 5 [1;2;3;4] demo_stream = (Ok r, s') /\
    sout s' = [1;2;3;4] /\ sin s' = [1;2;3;4;5;6;7;8] /\ r = 4.
Proof.
  destruct (proj1 (WriteFixSize_exact 3 5 eq_refl) [1;2;3;4] demo_stream)
    as (r & s' & E & Ho & Hi & Hr); [by_computation..|].
  exists r, s'. split_and!; [exact E|exact Ho|exact Hi|exact Hr].
Defined.
