(* ===== verification/ZlibStream.v ===== *)
(** streams/zlib_stream.cpp: compression and decompression through a chain of
    fixed-size output blocks.

    zlib itself is the class [Zlib]; [ZlibLaws] states the behaviour its manual
    documents for deflate and inflate.  [zcall] is what one call of either
    returns: the code, the bytes put at next_out, what is left of the input. *)
From S2P Require Import Prelude Bytes Buffer ByteArray Codec Wire Stream.

Definition Z_OK : Z := 0.
Definition Z_STREAM_ERROR : Z := -2.

Record zcall (Zs : Type) := mkZcall { z_ret : Z; z_out : list Z; z_rest : list Z; z_next : Zs }.
Arguments mkZcall {Zs} _ _ _ _.
Arguments z_ret {Zs} _. Arguments z_out {Zs} _. Arguments z_rest {Zs} _. Arguments z_next {Zs} _.

(** [deflate flush input avail_out]; [flush] is Z_FINISH (true) or Z_NO_FLUSH. *)
Class Zlib (Zs : Type) := {
  z_zero : Zs;                                             (* memset to 0 *)
  deflateInit2 : Z -> Z -> Z -> Z -> Zs -> Z * Zs;         (* level, bits, memlevel, strategy *)
  inflateInit2 : Z -> Zs -> Z * Zs;                        (* bits *)
  deflate : bool -> list Z -> Z -> Zs -> zcall Zs;
  inflate : bool -> list Z -> Z -> Zs -> zcall Zs;
  deflateEnd : Zs -> Zs;
  inflateEnd : Zs -> Zs;
}.

Inductive ZLIB_Type := ZLIB | GZIP | DEFLATE.

Section zlib_stream.
Context {Zs : Type} {ZZ : Zlib Zs} {Mach : Machine}.

(** A block of [_outBuffer] is the list of its used bytes; its memory has
    [_iovSize] bytes. *)
Record ZlibStream := mkZlibStream {
  _isEncode : bool;
  _iovSize : Z;
  _zstream : Zs;
  _outBuffer : list (list Z);
}.

Definition set_zstream (z : Zs) (s : ZlibStream) : ZlibStream :=
  mkZlibStream (_isEncode s) (_iovSize s) z (_outBuffer s).

Definition window (type : ZLIB_Type) (bits : Z) : Z :=
  match type with DEFLATE => - bits | GZIP => bits + 16 | ZLIB => bits end.

Definition Init (type : ZLIB_Type) (strategy level window_bits memlevel : Z) : M ZlibStream Z :=
  assert (((0 <=? level) && (level <=? 9)) || (level =? -1));;
  assert ((8 <=? window_bits) && (window_bits <=? 15));;
  assert ((1 <=? memlevel) && (memlevel <=? 9));;
  modify (set_zstream z_zero);;
  s ← get;
  let '(ret, z) := if _isEncode s
    then deflateInit2 level (window type window_bits) memlevel strategy (_zstream s)
    else inflateInit2 (window type window_bits) (_zstream s) in
  modify (set_zstream z);;
  mret ret.

(** [Create] and its shorthands ignore the result of [Init]. *)
Definition Create (encode : bool) (buff_size : Z) (type : ZLIB_Type)
    (level window_bits memlevel strategy : Z) : outcome ZlibStream :=
  let '(o, s) := Init type strategy level window_bits memlevel (mkZlibStream encode buff_size z_zero []) in
  obind o (fun _ => Ok s).

Definition CreateZlib (encode : bool) (iovSize : Z) : outcome ZlibStream := Create encode iovSize ZLIB (-1) 15 8 0.
Definition Creategzip (encode : bool) (iovSize : Z) : outcome ZlibStream := Create encode iovSize GZIP (-1) 15 8 0.
Definition CreateDeflate (encode : bool) (iovSize : Z) : outcome ZlibStream := Create encode iovSize DEFLATE (-1) 15 8 0.

(** The block to fill: the last one if it has room, else a new one. *)
Definition out_block (s : ZlibStream) : list (list Z) * list Z :=
  match list.last (_outBuffer s) with
  | Some b => if zlen b <? _iovSize s then (removelast (_outBuffer s), b) else (_outBuffer s, [])
  | None => (_outBuffer s, [])
  end.

Definition coder (s : ZlibStream) : bool -> list Z -> Z -> Zs -> zcall Zs :=
  if _isEncode s then deflate else inflate.

(** The do-while loop of [encode] and [decode] over one input range: [None]
    when the coder reported Z_STREAM_ERROR. *)
Fixpoint code_range (fuel : nat) (flush : bool) (input : list Z) : M ZlibStream (option Z) :=
  match fuel with
  | O => nofuel
  | S fuel =>
    s ← get;
    let '(full, out) := out_block s in
    let avail_out := _iovSize s - zlen out in
    let call := coder s flush input avail_out (_zstream s) in
    if z_ret call =? Z_STREAM_ERROR then
      put (mkZlibStream (_isEncode s) (_iovSize s) (z_next call) (full ++ [out]));;
      mret (Some Z_STREAM_ERROR)
    else
      put (mkZlibStream (_isEncode s) (_iovSize s) (z_next call) (full ++ [out ++ z_out call]));;
      if avail_out - zlen (z_out call) =? 0 then code_range fuel flush (z_rest call) else mret None
  end.

Fixpoint code_ranges (fuel : nat) (finish : bool) (iovs : list (list Z)) : M ZlibStream (option Z) :=
  match iovs with
  | [] => mret None
  | iov :: iovs =>
    r ← code_range fuel (finish && bool_decide (iovs = [])) iov;
    match r with Some e => mret (Some e) | None => code_ranges fuel finish iovs end
  end.

Definition z_end (s : ZlibStream) : ZlibStream :=
  set_zstream (if _isEncode s then deflateEnd (_zstream s) else inflateEnd (_zstream s)) s.

(** [encode] and [decode] differ only in the coder they call. *)
Definition code (fuel : nat) (iovs : list (list Z)) (finish : bool) : M ZlibStream Z :=
  r ← code_ranges fuel finish iovs;
  match r with
  | Some e => mret e
  | None => (if finish && negb (bool_decide (iovs = [])) then modify z_end else mret tt);; mret Z_OK
  end.

Definition ZWrite (fuel : nat) (buffer : list Z) : M ZlibStream Z := code fuel [buffer] false.

Definition ZWrite_ba (fuel : nat) (len : Z) (ba : ByteArray) : M ZlibStream Z :=
  '(_, iovs) ← lift (GetReadBuffers ba len);
  code fuel (map (iov_bytes ba) iovs) false.

Definition Flush (fuel : nat) : M ZlibStream Z := code fuel [[]] true.

(** [Read] asserts that it is never called. *)
Definition ZRead (len : Z) : M ZlibStream Z := assert false;; mret 0.

Definition GetResult (s : ZlibStream) : list Z := concat (_outBuffer s).

Fixpoint write_blocks (bs : list (list Z)) : M ByteArray unit :=
  match bs with [] => mret tt | b :: bs => Write b;; write_blocks bs end.

(** [ns] is the default node size of a byte array. *)
Definition GetByteArray (ns : Z) (s : ZlibStream) : outcome ByteArray :=
  let '(o, ba) := (write_blocks (_outBuffer s);; SetPosition 0) (ByteArray_new ns) in
  obind o (fun _ => Ok ba).

Definition ZClose (fuel : nat) : M ZlibStream unit := Flush fuel;; mret tt.
End zlib_stream.
Arguments ZlibStream Zs : clear implicits.

(** ** What zlib documents *)

(** One direction of the library.  From an open state a call stops when the
    input is used up or the output is full; if the output is full it has to be
    called again, with the same flush mode; with room left after a finishing
    call, the output so far is the whole result.  [good] says which inputs the
    coder accepts, [result] what a complete input turns into; [ctodo] bounds
    the output still to come.  [copen z b i o]: finishing has begun ([b]), [i]
    has been consumed and [o] produced. *)
Record CoderLaws {Zs} (run : bool -> list Z -> Z -> Zs -> zcall Zs)
    (good : list Z -> Prop) (result : list Z -> list Z -> Prop) := {
  copen : Zs -> bool -> list Z -> list Z -> Prop;
  ctodo : Zs -> list Z -> bool -> nat;
  ccall z b i o fin input n :
    copen z b i o -> (b = true -> fin = true) -> good (i ++ input) -> 0 < n ->
    let c := run fin input n z in
    z_ret c <> Z_STREAM_ERROR /\ zlen (z_out c) <= n /\
    (zlen (z_out c) = n -> (ctodo (z_next c) (z_rest c) fin < ctodo z input fin)%nat /\
       exists used, input = used ++ z_rest c /\ copen (z_next c) fin (i ++ used) (o ++ z_out c)) /\
    (zlen (z_out c) < n -> z_rest c = [] /\
       (fin = false -> copen (z_next c) false (i ++ input) (o ++ z_out c)) /\
       (fin = true -> forall y, result (i ++ input) y -> o ++ z_out c = y));
}.
Arguments copen {Zs run good result} _ _ _ _ _.
Arguments ctodo {Zs run good result} _ _ _ _.
Arguments ccall {Zs run good result} _ _ _ _ _ _ _ _.

Class ZlibLaws (Zs : Type) `{Zlib Zs} := {
  (** the compressed form, for given parameters *)
  zcompress : Z -> list Z -> list Z;
  deflate_laws bits : CoderLaws deflate (fun _ => True) (fun x y => y = zcompress bits x);
  inflate_laws bits : CoderLaws inflate (fun y => exists x, y `prefix_of` zcompress bits x)
                        (fun y x => y = zcompress bits x);
  deflateInit2_ok level bits mem strat z : copen (deflate_laws bits) (snd (deflateInit2 level bits mem strat z)) false [] [];
  inflateInit2_ok bits z : copen (inflate_laws bits) (snd (inflateInit2 bits z)) false [] [];
}.

(** ** The blocks hold the coder's output *)
Section code_facts.
Context {Zs : Type} {ZZ : Zlib Zs}.
Context (good : list Z -> Prop) (result : list Z -> list Z -> Prop).

(** No block is larger than its memory; only the last may have room. *)
Record blocks_ok (s : ZlibStream Zs) : Prop := {
  bo_size : 0 < _iovSize s;
  bo_blocks : Forall (fun b => zlen b <= _iovSize s) (_outBuffer s);
  bo_full : Forall (fun b => zlen b = _iovSize s) (removelast (_outBuffer s));
}.

Lemma out_block_ok s full out :
  blocks_ok s -> out_block s = (full, out) ->
  concat full ++ out = concat (_outBuffer s) /\ zlen out < _iovSize s /\
  Forall (fun b => zlen b = _iovSize s) full.
Proof.
  intros [Hs Hb Hf]. unfold out_block. destruct (_outBuffer s) as [|b0 l] eqn:E using rev_ind.
  - intros [= <- <-]. split_and!; [done|cbn; lia|done].
  - rewrite last_snoc. rewrite removelast_last in *. destruct (Z.ltb_spec (zlen b0) (_iovSize s)).
    + intros [= <- <-]. split_and!; [|done|done]. rewrite concat_app. cbn. by rewrite app_nil_r.
    + intros [= <- <-]. split_and!; [by rewrite app_nil_r|cbn; lia|].
      apply Forall_app. split; [done|]. apply Forall_app in Hb as [_ [Hb _]%Forall_cons_1].
      constructor; [lia|done].
Qed.

(** Storing what a call produced. *)
Definition stored (s : ZlibStream Zs) (full : list (list Z)) (b : list Z) (z : Zs) : ZlibStream Zs :=
  mkZlibStream (_isEncode s) (_iovSize s) z (full ++ [b]).

Lemma stored_ok s full out bs z :
  blocks_ok s -> out_block s = (full, out) -> zlen out + zlen bs <= _iovSize s ->
  blocks_ok (stored s full (out ++ bs) z) /\
  concat (_outBuffer (stored s full (out ++ bs) z)) = concat (_outBuffer s) ++ bs.
Proof.
  intros Hok Hb Hl. destruct (out_block_ok s full out Hok Hb) as (Hcat & Hlt & Hfull). split.
  - split; cbn; [apply Hok| |by rewrite removelast_last].
    apply Forall_app. split.
    + eapply Forall_impl; [|exact Hfull]. intros b Hb'. cbn in Hb'. lia.
    + constructor; [|done]. rewrite length_app. lia.
  - cbn. rewrite concat_app. cbn. rewrite app_nil_r, app_assoc, Hcat. done.
Qed.
End code_facts.

(** ** One direction of the stream against the documented coder *)
Section coding.
Context {Zs : Type} {ZZ : Zlib Zs} {Mach : Machine}.
Context (enc : bool) (good : list Z -> Prop) (result : list Z -> list Z -> Prop).
Context (CL : CoderLaws (if enc then deflate else inflate) good result).
Context (good_prefix : forall i1 i2, good (i1 ++ i2) -> good i1).

(** The stream is open: [i] consumed, [o] produced, all of it in the blocks. *)
Record coding (s : ZlibStream Zs) (i : list Z) : Prop := {
  cd_enc : _isEncode s = enc;
  cd_blocks : blocks_ok s;
  cd_open : copen CL (_zstream s) false i (concat (_outBuffer s));
}.

Lemma coder_enc s : _isEncode s = enc -> coder s = if enc then deflate else inflate.
Proof. intros <-. done. Qed.

(** One range: the loop ends, having consumed all of it. *)
Lemma code_range_ok n : forall s b i fin input,
  (ctodo CL (_zstream s) input fin < n)%nat ->
  _isEncode s = enc -> blocks_ok s -> copen CL (_zstream s) b i (concat (_outBuffer s)) ->
  (b = true -> fin = true) -> good (i ++ input) ->
  exists s', (forall fuel, (n <= fuel)%nat -> code_range fuel fin input s = (Ok None, s')) /\
    _isEncode s' = enc /\ blocks_ok s' /\ _iovSize s' = _iovSize s /\
    (fin = false -> coding s' (i ++ input)) /\
    (fin = true -> forall y, result (i ++ input) y -> concat (_outBuffer s') = y).
Proof.
  induction n as [|n IH]; intros s b i fin input Hn He Hok Hop Hb Hgood; [lia|].
  destruct (out_block s) as [full out] eqn:Eb.
  destruct (out_block_ok s full out Hok Eb) as (Hcat & Hlt & Hfull).
  destruct (ccall CL (_zstream s) b i _ fin input (_iovSize s - zlen out) Hop Hb Hgood ltac:(lia))
    as (Hret & Hlen & Hfulled & Hroom).
  set (c := (if enc then deflate else inflate) fin input _ _) in *.
  destruct (stored_ok s full out (z_out c) (z_next c) Hok Eb ltac:(lia)) as [Hok1 Hcat1].
  set (s1 := stored s _ _ _) in *. rewrite <- Hcat1 in Hfulled, Hroom.
  assert (forall fuel, code_range (S fuel) fin input s =
    (if _iovSize s - zlen out - zlen (z_out c) =? 0 then code_range fuel fin (z_rest c) else mret None) s1) as Hrun.
  { intros fuel. cbn [code_range]. step (eq_refl : get s = (Ok s, s)). rewrite Eb, (coder_enc s He).
    fold c. by rewrite (proj2 (Z.eqb_neq _ _)) by done. }
  destruct (Z.eqb_spec (_iovSize s - zlen out - zlen (z_out c)) 0) as [Hz|Hz].
  - destruct Hfulled as (Hlt' & used & Hin & Hop'); [lia|]. rewrite Hin in Hgood. rewrite app_assoc in Hgood.
    destruct (IH s1 fin (i ++ used) fin (z_rest c)) as (s' & E & ? & ? & ? & Hc & Hr); try done.
    { change (_zstream s1) with (z_next c). lia. }
    rewrite <- app_assoc, <- Hin in Hc, Hr. exists s'. split_and!; try done.
    intros [|fuel] Hfuel; [lia|]. rewrite Hrun. apply E. lia.
  - destruct Hroom as (Hrest & Hc & Hr); [lia|]. exists s1. split_and!; try done.
    + intros [|fuel] Hfuel; [lia|]. by rewrite Hrun.
    + intros Hfin. split; auto.
Qed.

Lemma code_range_total s i fin input :
  coding s i -> good (i ++ input) ->
  exists N s', (forall fuel, (N <= fuel)%nat -> code_range fuel fin input s = (Ok None, s')) /\
    blocks_ok s' /\ _iovSize s' = _iovSize s /\ (fin = false -> coding s' (i ++ input)) /\
    (fin = true -> forall y, result (i ++ input) y -> concat (_outBuffer s') = y).
Proof.
  intros [] Hg. destruct (code_range_ok _ s false i fin input (Nat.lt_succ_diag_r _))
    as (s' & E & _ & ?); try done. by eexists _, s'.
Qed.

(** Several ranges, not finishing. *)
Lemma code_ranges_ok iovs : forall s i,
  coding s i -> good (i ++ concat iovs) ->
  exists N s', (forall fuel, (N <= fuel)%nat -> code_ranges fuel false iovs s = (Ok None, s')) /\
    coding s' (i ++ concat iovs) /\ _iovSize s' = _iovSize s.
Proof.
  induction iovs as [|iov iovs IH]; intros s i Hc Hg.
  - exists 0%nat, s. cbn. by rewrite app_nil_r.
  - cbn [concat] in Hg. rewrite app_assoc in Hg.
    destruct (code_range_total s i false iov Hc ltac:(by eapply good_prefix))
      as (N1 & s1 & E1 & _ & Hs1 & Hc1 & _).
    destruct (IH s1 (i ++ iov) (Hc1 eq_refl) Hg) as (N & s' & E & Hc' & Hs').
    exists (N1 + N)%nat, s'. cbn [concat]. rewrite app_assoc. split_and!; [|done|congruence].
    intros fuel Hf. cbn [code_ranges andb]. step (E1 fuel ltac:(lia)). apply E. lia.
Qed.

Lemma code_ok iovs s i :
  coding s i -> good (i ++ concat iovs) ->
  exists N s', (forall fuel, (N <= fuel)%nat -> code fuel iovs false s = (Ok Z_OK, s')) /\
    coding s' (i ++ concat iovs) /\ _iovSize s' = _iovSize s.
Proof.
  intros Hc Hg. destruct (code_ranges_ok iovs s i Hc Hg) as (N & s' & E & ? & ?).
  exists N, s'. split_and!; try done. intros fuel Hf. unfold code. by step (E fuel Hf).
Qed.

Lemma Flush_ok s i :
  coding s i -> good i ->
  exists N s', (forall fuel, (N <= fuel)%nat -> Flush fuel s = (Ok Z_OK, s')) /\
    blocks_ok s' /\ _iovSize s' = _iovSize s /\ forall y, result i y -> GetResult s' = y.
Proof.
  intros Hc Hg.
  destruct (code_range_total s i true [] Hc ltac:(by rewrite app_nil_r)) as (N & s1 & E1 & Hok & Hs1 & _ & Hr).
  exists N, (z_end s1). split_and!; [|by destruct Hok|done|].
  - intros fuel Hf. unfold Flush, code.
    assert (code_ranges fuel true [[]] s = (Ok None, s1)) as E.
    { cbn [code_ranges andb]. rewrite bool_decide_eq_true_2 by done. by step (E1 fuel Hf). }
    by step E.
  - rewrite app_nil_r in Hr. by apply Hr.
Qed.
End coding.

(** ** The two directions *)
Section directions.
Context {Zs : Type} {ZZ : Zlib Zs} {ZL : ZlibLaws Zs} {Mach : Machine}.

Lemma prefix_good bits i1 i2 :
  (exists x : list Z, i1 ++ i2 `prefix_of` zcompress bits x) -> exists x, i1 `prefix_of` zcompress bits x.
Proof. intros (x & Hx). exists x. etrans; [|done]. by eexists. Qed.

Lemma Create_enc size ty s : 0 < size -> Create true size ty (-1) 15 8 0 = Ok s ->
  coding true _ _ (deflate_laws (window ty 15)) s [] /\ _iovSize s = size.
Proof.
  intros Hs. unfold Create, Init, assert, modify, get, mbind, M_bind, mret, M_ret. cbn.
  destruct (deflateInit2 (-1) (window ty 15) 8 0 z_zero) as [r z] eqn:E. cbn. intros [= <-].
  split; [|done]. split; [done|split; cbn; done|]. cbn.
  pose proof (deflateInit2_ok (-1) (window ty 15) 8 0 z_zero) as H. by rewrite E in H.
Qed.

Lemma Create_dec size ty s : 0 < size -> Create false size ty (-1) 15 8 0 = Ok s ->
  coding false _ _ (inflate_laws (window ty 15)) s [] /\ _iovSize s = size.
Proof.
  intros Hs. unfold Create, Init, assert, modify, get, mbind, M_bind, mret, M_ret. cbn.
  destruct (inflateInit2 (window ty 15) z_zero) as [r z] eqn:E. cbn. intros [= <-].
  split; [|done]. split; [done|split; cbn; done|]. cbn.
  pose proof (inflateInit2_ok (window ty 15) z_zero) as H. by rewrite E in H.
Qed.

(** A client's session: several writes, then the flush. *)
Fixpoint feed (fuel : nat) (pieces : list (list Z)) : M (ZlibStream Zs) Z :=
  match pieces with
  | [] => Flush fuel
  | p :: ps => ret ← ZWrite fuel p; if ret =? Z_OK then feed fuel ps else mret ret
  end.

Lemma feed_ok (enc : bool) (good : list Z -> Prop) (result : list Z -> list Z -> Prop) (CL : CoderLaws (if enc then deflate else inflate) good result)
    (good_prefix : forall i1 i2, good (i1 ++ i2) -> good i1) ps : forall s i,
  coding enc good result CL s i -> good (i ++ concat ps) ->
  exists N s', (forall fuel, (N <= fuel)%nat -> feed fuel ps s = (Ok Z_OK, s')) /\
    blocks_ok s' /\ _iovSize s' = _iovSize s /\
    forall y, result (i ++ concat ps) y -> GetResult s' = y.
Proof.
  induction ps as [|p ps IH]; intros s i Hc Hg.
  - cbn in *. rewrite app_nil_r in *. by eapply Flush_ok.
  - cbn [concat] in Hg. rewrite app_assoc in Hg.
    destruct (code_ok enc good result CL good_prefix [p] s i) as (N1 & s1 & E1 & Hc1 & Hs1);
      [done|cbn; rewrite app_nil_r; by eapply good_prefix|].
    cbn in Hc1. rewrite app_nil_r in Hc1.
    destruct (IH s1 (i ++ p) Hc1 Hg) as (N & s' & E & ? & ? & Hr).
    exists (N1 + N)%nat, s'. cbn [concat]. rewrite app_assoc. split_and!; try done; [|congruence].
    intros fuel Hf. cbn [feed]. step (E1 fuel ltac:(lia)). rewrite Z.eqb_refl. apply E. lia.
Qed.

Lemma write_blocks_writes e bs : writes e (write_blocks bs) (concat bs).
Proof.
  induction bs as [|b bs IH]; [apply writes_nil|].
  apply (writes_bind e (Write b) (write_blocks bs) b (concat bs)); [exact (writes_bwrite (B:=ByteArray) e b)|done].
Qed.

(** The result as a byte array, rewound. *)
Lemma GetByteArray_ok ns s :
  0 < ns -> ns + zlen (GetResult s) <= 2 ^ 53 ->
  exists ba, GetByteArray (Zs:=Zs) ns s = Ok ba /\ wf ba /\ _position ba = 0 /\ _endian ba = XTEN_BIG_ENDIAN /\
    data ba = GetResult s.
Proof.
  intros Hns Hroom. destruct (write_rewind ns false (write_blocks (_outBuffer s)) (GetResult s))
    as (ba & E & Hwf & He & Hv & Hp); [done|done|apply write_blocks_writes|].
  exists ba. unfold GetByteArray. change (SetLittleEndian false (ByteArray_new ns)) with (ByteArray_new ns) in E.
  rewrite E. split_and!; try done. unfold vrest in Hv. cbn in Hv. by rewrite Hp, drop_0 in Hv.
Qed.

Lemma iovs_bytes_concat ba vs : concat (map (iov_bytes ba) vs) = iovs_bytes ba vs.
Proof. induction vs as [|v vs IH]; [done|]. cbn. by rewrite IH. Qed.

Lemma ZWrite_ba_ok (enc : bool) (good : list Z -> Prop) (result : list Z -> list Z -> Prop) (CL : CoderLaws (if enc then deflate else inflate) good result)
    (good_prefix : forall i1 i2, good (i1 ++ i2) -> good i1) s i ba len :
  coding enc good result CL s i -> wf ba -> 0 <= len ->
  let bs := slice (data ba) (_position ba) (Z.min len (avail ba)) in
  good (i ++ bs) ->
  exists N s', (forall fuel, (N <= fuel)%nat -> ZWrite_ba fuel len ba s = (Ok Z_OK, s')) /\
    coding enc good result CL s' (i ++ bs) /\ _iovSize s' = _iovSize s.
Proof.
  intros Hc Hwf Hlen bs Hg. destruct (GetReadBuffers_total ba len Hwf Hlen) as (vs & E & Hb & _).
  rewrite <- iovs_bytes_concat in Hb. subst bs. rewrite <- Hb in Hg |- *.
  destruct (code_ok enc good result CL good_prefix (map (iov_bytes ba) vs) s i Hc Hg) as (N & s' & E' & ?).
  exists N, s'. split; [|done]. intros fuel Hf. unfold ZWrite_ba. rewrite E.
  step (eq_refl : lift (Ok (Z.min len (avail ba), vs)) s = (Ok _, s)). by apply E'.
Qed.

(** ** Properties *)


(** The loop treats Z_STREAM_ERROR as the only error.  Any other
    report from the coder, Z_DATA_ERROR for a corrupt stream among them, that
    leaves room in the output ends the call with Z_OK, and the input that was
    not consumed is dropped. *)
Theorem decode_ignores_errors fuel input s full out :
  out_block s = (full, out) ->
  let call := coder s false input (_iovSize s - zlen out) (_zstream s) in
  z_ret call <> Z_STREAM_ERROR -> zlen (z_out call) < _iovSize s - zlen out ->
  exists s', ZWrite (S fuel) input s = (Ok Z_OK, s') /\
    GetResult s' = concat full ++ out ++ z_out call.
Proof.
  intros Eb call Hret Hlen.
  exists (mkZlibStream (_isEncode s) (_iovSize s) (z_next call) (full ++ [out ++ z_out call])).
  split; [|unfold GetResult; cbn; rewrite concat_app; cbn; by rewrite app_nil_r].
  assert (code_range (S fuel) false input s = (Ok None,
    mkZlibStream (_isEncode s) (_iovSize s) (z_next call) (full ++ [out ++ z_out call]))) as E.
  { cbn [code_range]. step (eq_refl : get s = (Ok s, s)). rewrite Eb. fold call.
    rewrite (proj2 (Z.eqb_neq (z_ret call) _)) by done.
    step (eq_refl : put (mkZlibStream (_isEncode s) (_iovSize s) (z_next call) (full ++ [out ++ z_out call])) s = (Ok tt, _)).
    by rewrite (proj2 (Z.eqb_neq _ _)) by lia. }
  assert (code_ranges (S fuel) false [input] s = (Ok None,
    mkZlibStream (_isEncode s) (_iovSize s) (z_next call) (full ++ [out ++ z_out call]))) as E1.
  { cbn [code_ranges andb]. by step E. }
  unfold ZWrite, code. by step E1.
Qed.
End directions.

(** ** A concrete coder: the identity, which stores its input *)
Definition store (fin : bool) (input : list Z) (n : Z) (z : unit) : zcall unit :=
  mkZcall 0 (take (Z.to_nat n) input) (drop (Z.to_nat n) input) tt.

#[export] Instance store_zlib : Zlib unit := {|
  z_zero := tt;
  deflateInit2 _ _ _ _ z := (0, z); inflateInit2 _ z := (0, z);
  deflate := store; inflate := store; deflateEnd z := z; inflateEnd z := z;
|}.

Lemma store_laws good (result : list Z -> list Z -> Prop) :
  (forall x y, result x y -> x = y) -> CoderLaws store good result.
Proof.
  intros Hr. refine (Build_CoderLaws _ _ _ _ (fun _ _ i o => i = o) (fun _ input _ => length input) _).
  intros z b i o fin input n -> _ _ Hn. cbn. split_and!; [done|rewrite length_take; lia| |].
  - rewrite length_take. intros Hl. split; [rewrite length_drop; lia|].
    exists (take (Z.to_nat n) input). by rewrite take_drop.
  - rewrite length_take. intros Hl. rewrite firstn_all2, drop_ge by lia. split_and!; try done.
    intros _ y Hy. by apply Hr.
Defined.

#[export, refine] Instance store_zlib_laws : ZlibLaws unit := {|
  zcompress _ x := x;
  deflate_laws _ := store_laws (fun _ => True) (fun x y => y = x) (fun x y H => eq_sym H);
  inflate_laws _ := store_laws (fun y => exists x, y `prefix_of` x) (fun y x => y = x) (fun x y H => H);
|}.
Proof. all: done. Defined.

Definition demo_coder (enc : bool) (size : Z) : ZlibStream unit := mkZlibStream enc size tt [].


(** A decoder that meets a corrupt stream: Z_DATA_ERROR, nothing produced. *)
Definition corrupt (fin : bool) (input : list Z) (n : Z) (z : unit) : zcall unit := mkZcall (-3) [] input z.

Definition corrupt_zlib : Zlib unit := {|
  z_zero := tt;
  deflateInit2 _ _ _ _ z := (0, z); inflateInit2 _ z := (0, z);
  deflate := store; inflate := corrupt; deflateEnd z := z; inflateEnd z := z;
|}.

Lemma decode_ignores_errors_witness :
  exists s', ZWrite (ZZ:=corrupt_zlib) 1 [1;2;3] (demo_coder false 4) = (Ok Z_OK, s') /\ GetResult s' = [].
Proof.
  apply (decode_ignores_errors (ZZ:=corrupt_zlib) 0 [1;2;3] (demo_coder false 4) [] [] eq_refl);
    [discriminate|reflexivity].
Defined.
