(* ===== verification/Protocol.v ===== *)
(** protocol.cpp and the messages of rock/rock_protocol.cpp: requests,
    responses and notifications, their bodies, and their wire format.

    The messages are written against the interface [ByteBuffer].  Parsing
    assigns field by field, so a parser is a program on the buffer and the
    object: an exception leaves the fields read so far in the object.  The
    byte array a message is handed is never null. *)
From Stdlib Require Import String Ascii.
From S2P Require Import Prelude Bytes Buffer ByteArray Codec Wire.

(** The characters of a literal. *)
Definition chars (s : string) : list Z :=
  map (fun c => Z.of_nat (nat_of_ascii c)) (list_ascii_of_string s).

(** Message::MessageType *)
Definition REQUEST : Z := 1.
Definition RESPONSE : Z := 2.
Definition NOTIFY : Z := 3.

(** Assigning to fields of the object. *)
Definition set_obj {B O} (f : O -> O) : M (B * O) unit := modify (fun '(b, o) => (b, f o)).

(** A member function of a part of the object. *)
Definition on_part {B O P A} (g : O -> P) (put_part : P -> O -> O) (m : M (B * P) A) : M (B * O) A :=
  fun '(b, o) => let '(r, (b', p')) := m (b, g o) in (r, (b', put_part p' o)).

Module Request.
Section req.
Context {B : Type} {BB : ByteBuffer B}.
Record Request := mkRequest { _sn : Z; _cmd : Z; _time : Z }.
(** [now] is GetCurrentUS(). *)
Definition new (now : Z) : Request := mkRequest 0 0 now.
Definition SerializeToByteArray (type : Z) (r : Request) : M B bool :=
  WriteFUint8 type;; WriteFUint32 (_sn r);; WriteFUint32 (_cmd r);; mret true.
Definition ParseFromByteArray : M (B * Request) bool :=
  sn ← on_fst ReadFUint32; set_obj (fun r => mkRequest sn (_cmd r) (_time r));;
  cmd ← on_fst ReadFUint32; set_obj (fun r => mkRequest (_sn r) cmd (_time r));;
  mret true.
End req.
End Request.

Module Response.
Section rsp.
Context {B : Type} {BB : ByteBuffer B} {Mach : Machine}.
Record Response := mkResponse { _sn : Z; _cmd : Z; _result : Z; _resultString : list Z }.
Definition new : Response := mkResponse 0 0 404 (chars "unhandle").
Definition SerializeToByteArray (type : Z) (r : Response) : M B bool :=
  WriteFUint8 type;; WriteFUint32 (_sn r);; WriteFUint32 (_cmd r);; WriteFUint32 (_result r);;
  WriteStringF32 (_resultString r);; mret true.
Definition ParseFromByteArray : M (B * Response) bool :=
  sn ← on_fst ReadFUint32; set_obj (fun r => mkResponse sn (_cmd r) (_result r) (_resultString r));;
  cmd ← on_fst ReadFUint32; set_obj (fun r => mkResponse (_sn r) cmd (_result r) (_resultString r));;
  result ← on_fst ReadFUint32; set_obj (fun r => mkResponse (_sn r) (_cmd r) result (_resultString r));;
  str ← on_fst ReadStringF32; set_obj (fun r => mkResponse (_sn r) (_cmd r) (_result r) str);;
  mret true.
End rsp.
End Response.

Module Notify.
Section ntf.
Context {B : Type} {BB : ByteBuffer B}.
Record Notify := mkNotify { _notify : Z }.
Definition new : Notify := mkNotify 0.
Definition SerializeToByteArray (type : Z) (n : Notify) : M B bool :=
  WriteFUint8 type;; WriteFUint32 (_notify n);; mret true.
Definition ParseFromByteArray : M (B * Notify) bool :=
  v ← on_fst ReadFUint32; set_obj (fun _ => mkNotify v);; mret true.
End ntf.
End Notify.

(** ** Rock messages: a message and a body *)
Section rock.
Context {B : Type} {BB : ByteBuffer B} {Mach : Machine}.

(** RockBody: [_data] *)
Definition RockBody_SerializeToByteArray (data : list Z) : M B bool := WriteStringF32 data;; mret true.
Definition RockBody_ParseFromByteArray : M (B * list Z) bool :=
  s ← on_fst ReadStringF32; set_obj (fun _ => s);; mret true.

Record Rock (Msg : Type) := mkRock { rk_msg : Msg; rk_data : list Z }.
Arguments mkRock {Msg} _ _. Arguments rk_msg {Msg} _. Arguments rk_data {Msg} _.

Abbreviation RockRequest := (Rock Request.Request).
Abbreviation RockResponse := (Rock Response.Response).
Abbreviation RockNotify := (Rock Notify.Notify).

(** [ret = true; try { ret = first; ret &= second; } catch (...) {} return ret;] *)
Definition try_both {S} (first second : M S bool) : M S bool :=
  catch (ret ← first; catch (ret2 ← second; mret (ret && ret2)) (mret ret)) (mret true).

Definition msg_part {Msg A} : M (B * Msg) A -> M (B * Rock Msg) A :=
  on_part rk_msg (fun m r => mkRock m (rk_data r)).
Definition body_part {Msg A} : M (B * list Z) A -> M (B * Rock Msg) A :=
  on_part rk_data (fun d r => mkRock (rk_msg r) d).

Definition RockRequest_SerializeToByteArray (r : RockRequest) : M B bool :=
  try_both (Request.SerializeToByteArray REQUEST (rk_msg r)) (RockBody_SerializeToByteArray (rk_data r)).
Definition RockRequest_ParseFromByteArray : M (B * RockRequest) bool :=
  try_both (msg_part Request.ParseFromByteArray) (body_part RockBody_ParseFromByteArray).

Definition RockResponse_SerializeToByteArray (r : RockResponse) : M B bool :=
  try_both (Response.SerializeToByteArray RESPONSE (rk_msg r)) (RockBody_SerializeToByteArray (rk_data r)).
Definition RockResponse_ParseFromByteArray : M (B * RockResponse) bool :=
  try_both (msg_part Response.ParseFromByteArray) (body_part RockBody_ParseFromByteArray).

Definition RockNotify_SerializeToByteArray (r : RockNotify) : M B bool :=
  try_both (Notify.SerializeToByteArray NOTIFY (rk_msg r)) (RockBody_SerializeToByteArray (rk_data r)).
Definition RockNotify_ParseFromByteArray : M (B * RockNotify) bool :=
  try_both (msg_part Notify.ParseFromByteArray) (body_part RockBody_ParseFromByteArray).

(** The response to a request: same command and sequence number. *)
Definition CreateResponse (r : RockRequest) : RockResponse :=
  let rsp := Response.new in
  mkRock (Response.mkResponse (Request._sn (rk_msg r)) (Request._cmd (rk_msg r))
            (Response._result rsp) (Response._resultString rsp)) [].

Inductive Message :=
  | MRequest (r : RockRequest)
  | MResponse (r : RockResponse)
  | MNotify (r : RockNotify).

Definition GetMessageType (m : Message) : Z :=
  match m with MRequest _ => REQUEST | MResponse _ => RESPONSE | MNotify _ => NOTIFY end.

Definition SerializeToByteArray (m : Message) : M B bool :=
  match m with
  | MRequest r => RockRequest_SerializeToByteArray r
  | MResponse r => RockResponse_SerializeToByteArray r
  | MNotify r => RockNotify_SerializeToByteArray r
  end.

(** The wire format. *)
Definition encode_str (e : Endian) (s : list Z) : list Z := wire 4 e (zlen s) ++ s.

Definition encode_fields (e : Endian) (m : Message) : list Z :=
  match m with
  | MRequest r => wire 4 e (Request._sn (rk_msg r)) ++ wire 4 e (Request._cmd (rk_msg r)) ++
                  encode_str e (rk_data r)
  | MResponse r => wire 4 e (Response._sn (rk_msg r)) ++ wire 4 e (Response._cmd (rk_msg r)) ++
                   wire 4 e (Response._result (rk_msg r)) ++
                   encode_str e (Response._resultString (rk_msg r)) ++ encode_str e (rk_data r)
  | MNotify r => wire 4 e (Notify._notify (rk_msg r)) ++ encode_str e (rk_data r)
  end.

Definition encode (e : Endian) (m : Message) : list Z := GetMessageType m :: encode_fields e m.

(** Field values are of their C++ types and the strings fit their length. *)
Definition msg_ok (m : Message) : Prop :=
  match m with
  | MRequest r => in_u 32 (Request._sn (rk_msg r)) /\ in_u 32 (Request._cmd (rk_msg r)) /\
                  zlen (rk_data r) < 2 ^ 32 - 1
  | MResponse r => in_u 32 (Response._sn (rk_msg r)) /\ in_u 32 (Response._cmd (rk_msg r)) /\
                   in_u 32 (Response._result (rk_msg r)) /\
                   zlen (Response._resultString (rk_msg r)) < 2 ^ 32 - 1 /\ zlen (rk_data r) < 2 ^ 32 - 1
  | MNotify r => in_u 32 (Notify._notify (rk_msg r)) /\ zlen (rk_data r) < 2 ^ 32 - 1
  end.

Definition body (m : Message) : list Z :=
  match m with MRequest r => rk_data r | MResponse r => rk_data r | MNotify r => rk_data r end.

(** The strings a parser puts on the stack. *)
Definition msg_fits (m : Message) : Prop :=
  zlen (body m) < stack_room /\
  match m with MResponse r => zlen (Response._resultString (rk_msg r)) < stack_room | _ => True end.

(** What a receiver gets: strings are cut at their first NUL. *)
Definition received_msg (now : Z) (m : Message) : Message :=
  match m with
  | MRequest r => MRequest (mkRock (Request.mkRequest (Request._sn (rk_msg r)) (Request._cmd (rk_msg r)) now)
                              (cstr (rk_data r)))
  | MResponse r => MResponse (mkRock (Response.mkResponse (Response._sn (rk_msg r)) (Response._cmd (rk_msg r))
                              (Response._result (rk_msg r)) (cstr (Response._resultString (rk_msg r))))
                              (cstr (rk_data r)))
  | MNotify r => MNotify (mkRock (rk_msg r) (cstr (rk_data r)))
  end.

(** The body of ParseFromStream after the type byte: a fresh object of that
    type, parsed; [None] for an unknown type. *)
Definition parse_message (now type : Z) : M B (option Message) := fun b =>
  let wrap {O} (m : M (B * O) bool) (o : O) (k : O -> Message) :=
    let '(r, (b', o')) := m (b, o) in
    (match r with
     | Ok true => Ok (Some (k o'))
     | Ok false => Ok None
     | Throw e => Throw e | AssertFail => AssertFail | Undef u => Undef u | NoFuel => NoFuel
     end, b') in
  if type =? REQUEST then wrap RockRequest_ParseFromByteArray (mkRock (Request.new now) []) MRequest
  else if type =? RESPONSE then wrap RockResponse_ParseFromByteArray (mkRock Response.new []) MResponse
  else if type =? NOTIFY then wrap RockNotify_ParseFromByteArray (mkRock Notify.new []) MNotify
  else (Ok None, b).
End rock.
Arguments mkRock {Msg} _ _. Arguments rk_msg {Msg} _. Arguments rk_data {Msg} _.

(** ** Parsers on a buffer and an object *)
Section parses.
Context {B : Type} {BB : ByteBuffer B} {BL : ByteBufferLaws B} {Mach : Machine}.

Definition parses_to {O A} (e : Endian) (m : M (B * O) A) (b : B) (o : O) (bs : list Z) (a : A) (o' : O) : Prop :=
  exists b', m (b, o) = (Ok a, (b', o')) /\ bok b' /\ bendian b' = e /\ bcap b' = bcap b /\
    bview b' = view_skip (zlen bs) (bview b).

(** [strict]: the item must not end at the end of the allocated nodes. *)
Definition parses {O A} (strict : bool) (e : Endian) (m : M (B * O) A) (o : O) (bs : list Z) (a : A) (o' : O) : Prop :=
  forall b rest, bok b -> bendian b = e -> vrest (bview b) = bs ++ rest ->
    (strict = true -> vpos (bview b) + zlen bs < bcap b) -> parses_to e m b o bs a o'.

Lemma parses_read {O A} (strict : bool) e (m : M B A) (o : O) bs a :
  (if strict then reads_in e m bs a else reads e m bs a) -> parses strict e (on_fst m) o bs a o.
Proof.
  intros H b rest Hb He Hr Hs.
  assert (reads_to e m b bs a) as (b' & E & ?) by (destruct strict; by eapply H; eauto).
  exists b'. by rewrite (on_fst_ok m b o a b' E).
Qed.

Lemma parses_ret {O A} strict e (o : O) (a : A) : parses strict e (mret a) o [] a o.
Proof.
  intros b rest Hb He Hr _. destruct (reads_to_ret e b a Hb He) as (b' & [= <-] & ?). by exists b.
Qed.

Lemma parses_set {O A} strict e (f : O -> O) (m : M (B * O) A) o bs a o' :
  parses strict e m (f o) bs a o' -> parses strict e (set_obj f;; m) o bs a o'.
Proof. intros H b rest Hb He Hr Hs. exact (H b rest Hb He Hr Hs). Qed.

(** An item that is not the last: the rest is not empty. *)
Lemma parses_bind {O A A'} strict1 strict2 e (m : M (B * O) A) (f : A -> M (B * O) A') o bs1 bs2 a a' o1 o2 :
  (strict1 = true -> strict2 = true \/ bs2 <> []) ->
  parses strict1 e m o bs1 a o1 -> parses strict2 e (f a) o1 bs2 a' o2 ->
  parses strict2 e (m ≫= f) o (bs1 ++ bs2) a' o2.
Proof.
  intros Hst H1 H2 b rest Hb He Hr Hs. rewrite <- app_assoc in Hr.
  pose proof (vrest_length _ _ _ Hb Hr) as Hl. pose proof (bview_bounds b Hb).
  rewrite length_app in Hl, Hs.
  destruct (H1 b (bs2 ++ rest)) as (b1 & E1 & Hok1 & He1 & Hc1 & Hv1); try done.
  { intros Hs1. destruct (Hst Hs1) as [Hs2|Hne]; [specialize (Hs Hs2); lia|].
    destruct bs2; [done|]. cbn [length] in *. lia. }
  destruct (H2 b1 rest) as (b2 & E2 & Hok2 & He2 & Hc2 & Hv2); try done.
  { rewrite Hv1. by apply vrest_skip. }
  { intros Hs2. specialize (Hs Hs2). rewrite Hv1, Hc1. cbn. lia. }
  exists b2. rewrite (bind_ok _ _ _ _ _ E1). split_and!; try done; [congruence|].
  rewrite Hv2, Hv1, view_skip_skip, length_app. f_equal. lia.
Qed.

(** A part of the object. *)
Lemma parses_part {O P A} strict e (g : O -> P) pp (m : M (B * P) A) o bs a p' :
  parses strict e m (g o) bs a p' -> parses strict e (on_part g pp m) o bs a (pp p' o).
Proof.
  intros H b rest Hb He Hr Hs. destruct (H b rest Hb He Hr Hs) as (b' & E & ?).
  exists b'. unfold on_part. by rewrite E.
Qed.

Lemma parses_try {O} strict1 strict e (m1 m2 : M (B * O) bool) o bs1 bs2 o1 o2 :
  bs2 <> [] -> parses strict1 e m1 o bs1 true o1 -> parses strict e m2 o1 bs2 true o2 ->
  parses strict e (try_both m1 m2) o (bs1 ++ bs2) true o2.
Proof.
  intros Hne H1 H2.
  assert (parses strict e (m1 ≫= fun ret => m2 ≫= fun ret2 => mret (ret && ret2)) o ((bs1 ++ bs2) ++ []) true o2) as H.
  { rewrite <- app_assoc. eapply (parses_bind strict1); [intros _; right; by destruct bs2|done|].
    eapply (parses_bind strict); [by left|done|apply parses_ret]. }
  intros b rest Hb He Hr Hs. rewrite app_nil_r in H.
  destruct (H b rest Hb He Hr Hs) as (b' & E & ?). exists b'. split; [|done].
  unfold try_both, catch. revert E. unfold mbind, M_bind, mret, M_ret.
  destruct (m1 (b, o)) as [[] [? ?]]; try done. by destruct (m2 _) as [[] [? ?]].
Qed.

Lemma writes_try e (m1 m2 : M B bool) bs1 bs2 :
  writes_ret e m1 true bs1 -> writes_ret e m2 true bs2 -> writes_ret e (try_both m1 m2) true (bs1 ++ bs2).
Proof.
  intros H1 H2.
  assert (writes_ret e (m1 ≫= fun ret => m2 ≫= fun ret2 => mret (ret && ret2)) true (bs1 ++ bs2 ++ [])) as H.
  { eapply writes_ret_bind; [done|]. eapply writes_ret_bind; [done|apply writes_ret_nil]. }
  rewrite app_nil_r in H. intros b Hb He Hv Hr. destruct (H b Hb He Hv Hr) as (b' & E & ?).
  exists b'. split; [|done]. unfold try_both, catch. revert E. unfold mbind, M_bind, mret, M_ret.
  destruct (m1 b) as [[] ?]; try done. by destruct (m2 _) as [[] ?].
Qed.

(** One field: read it and assign it. *)
Lemma parses_field {O A} {strict e} {rd : M B Z} {v w} (f : Z -> O -> O) (k : Z -> M (B * O) A) o bs a o' :
  reads e rd w v -> parses strict e (k v) (f v o) bs a o' ->
  parses strict e (x ← on_fst rd; set_obj (f x);; k x) o (w ++ bs) a o'.
Proof.
  intros Hrd Hk. eapply (parses_bind false); [done|by apply (parses_read false)|]. by apply parses_set.
Qed.

Lemma parses_last_string {O} strict e s (f : list Z -> O -> O) o :
  zlen s < 2 ^ 32 - 1 -> zlen s < stack_room -> (strict = false -> s <> []) ->
  parses strict e (x ← on_fst ReadStringF32; set_obj (f x);; mret true) o (encode_str e s) true (f (cstr s) o).
Proof.
  intros Hs Hroom Hne. rewrite <- (app_nil_r (encode_str e s)).
  eapply (parses_bind strict strict); [tauto| |apply parses_set, parses_ret].
  apply parses_read. destruct strict.
  - by apply reads_StringF32.
  - apply reads_StringF32_ne; auto.
Qed.
End parses.

(** ** The messages *)
Section messages.
Context {B : Type} {BB : ByteBuffer B} {BL : ByteBufferLaws B} {Mach : Machine}.

Lemma reads_FUint32 e v : in_u 32 v -> reads e ReadFUint32 (wire 4 e v) v.
Proof. apply rt_FUint32. Qed.
Lemma writes_FUint32 e v : in_u 32 v -> writes e (WriteFUint32 v) (wire 4 e v).
Proof. apply rt_FUint32. Qed.

Lemma encode_str_ne e s : encode_str e s <> [].
Proof. unfold encode_str. by destruct e. Qed.

Lemma parses_body {Msg} strict e (r : Rock Msg) s :
  zlen s < 2 ^ 32 - 1 -> zlen s < stack_room -> (strict = false -> s <> []) ->
  parses strict e (body_part RockBody_ParseFromByteArray) r (encode_str e s) true (mkRock (rk_msg r) (cstr s)).
Proof.
  intros. apply (parses_part strict e rk_data (fun d r => mkRock (rk_msg r) d)).
  by apply (parses_last_string strict e s (fun s _ => s)).
Qed.

(** Any message parser after its message part: the body and the end. *)
Lemma parses_rock {Msg} strict1 strict e (p : M (B * Msg) bool) (o o' : Msg) d bs s :
  parses strict1 e p o bs true o' ->
  zlen s < 2 ^ 32 - 1 -> zlen s < stack_room -> (strict = false -> s <> []) ->
  parses strict e (try_both (msg_part p) (body_part RockBody_ParseFromByteArray)) (mkRock o d)
    (bs ++ encode_str e s) true (mkRock o' (cstr s)).
Proof.
  intros Hp ???. eapply parses_try; [apply encode_str_ne| |].
  - by apply (parses_part strict1 e rk_msg (fun m r => mkRock m (rk_data r))).
  - by apply parses_body.
Qed.

Lemma parses_Request e now sn cmd : in_u 32 sn -> in_u 32 cmd ->
  parses false e Request.ParseFromByteArray (Request.new now) (wire 4 e sn ++ wire 4 e cmd) true
    (Request.mkRequest sn cmd now).
Proof.
  intros H1 H2. rewrite <- (app_nil_r (wire 4 e cmd)).
  eapply (parses_field (fun sn r => Request.mkRequest sn (Request._cmd r) (Request._time r)));
    [by apply reads_FUint32|].
  eapply (parses_field (fun cmd r => Request.mkRequest (Request._sn r) cmd (Request._time r)));
    [by apply reads_FUint32|apply parses_ret].
Qed.

Lemma parses_Response e sn cmd res s : in_u 32 sn -> in_u 32 cmd -> in_u 32 res ->
  zlen s < 2 ^ 32 - 1 -> zlen s < stack_room ->
  parses true e Response.ParseFromByteArray Response.new
    (wire 4 e sn ++ wire 4 e cmd ++ wire 4 e res ++ encode_str e s) true
    (Response.mkResponse sn cmd res (cstr s)).
Proof.
  intros H1 H2 H3 ??.
  eapply (parses_field (fun sn r => Response.mkResponse sn (Response._cmd r) (Response._result r) (Response._resultString r)));
    [by apply reads_FUint32|].
  eapply (parses_field (fun cmd r => Response.mkResponse (Response._sn r) cmd (Response._result r) (Response._resultString r)));
    [by apply reads_FUint32|].
  eapply (parses_field (fun res r => Response.mkResponse (Response._sn r) (Response._cmd r) res (Response._resultString r)));
    [by apply reads_FUint32|].
  by apply (parses_last_string true e s
    (fun str r => Response.mkResponse (Response._sn r) (Response._cmd r) (Response._result r) str)).
Qed.

Lemma writes_cast {A} e (m : M B A) a bs bs' : bs' = bs -> writes_ret e m a bs -> writes_ret e m a bs'.
Proof. by intros ->. Qed.

Lemma writes_Serialize e m : msg_ok m -> writes_ret e (SerializeToByteArray m) true (encode e m).
Proof.
  assert (forall s, zlen s < 2 ^ 32 - 1 -> writes_ret e (RockBody_SerializeToByteArray s) true (encode_str e s)) as Hbody.
  { intros s Hs. rewrite <- (app_nil_r (encode_str e s)). eapply writes_ret_bind; [|apply writes_ret_nil].
    apply writes_StringF32. lia. }
  assert (forall {A} t (m : M B A) a bs, is_byte t -> writes_ret e m a bs ->
    writes_ret e (WriteFUint8 t;; m) a (t :: bs)) as Htype.
  { intros A t m' a bs Ht Hm. change (t :: bs) with ([t] ++ bs). eapply writes_ret_bind; [|done].
    replace [t] with (le_bytes 1 t) by (cbn; by rewrite Z.mod_small). apply (rt_FUint8 e t Ht). }
  assert (forall {A} v (m : M B A) a bs, in_u 32 v -> writes_ret e m a bs ->
    writes_ret e (WriteFUint32 v;; m) a (wire 4 e v ++ bs)) as Hfield.
  { intros A v m' a bs Hv Hm. eapply writes_ret_bind; [by apply writes_FUint32|done]. }
  destruct m as [r|r|r]; cbn [msg_ok SerializeToByteArray encode encode_fields GetMessageType].
  - intros (H1 & H2 & H3). 
    apply (writes_cast e _ _ ((REQUEST :: wire 4 e (Request._sn (rk_msg r)) ++
      wire 4 e (Request._cmd (rk_msg r))) ++ encode_str e (rk_data r))); [cbn; by rewrite <- app_assoc|].
    apply writes_try; [|by apply Hbody]. apply Htype; [done|]. apply Hfield; [done|].
    rewrite <- (app_nil_r (wire 4 e _)). apply Hfield; [done|apply writes_ret_nil].
  - intros (H1 & H2 & H3 & H4 & H5). 
    apply (writes_cast e _ _ ((RESPONSE :: wire 4 e (Response._sn (rk_msg r)) ++
      wire 4 e (Response._cmd (rk_msg r)) ++ wire 4 e (Response._result (rk_msg r)) ++
      encode_str e (Response._resultString (rk_msg r))) ++ encode_str e (rk_data r)));
      [cbn; by rewrite <- !app_assoc|].
    apply writes_try; [|by apply Hbody]. apply Htype; [done|].
    apply Hfield; [done|]. apply Hfield; [done|]. apply Hfield; [done|].
    rewrite <- (app_nil_r (encode_str e (Response._resultString _))).
    eapply writes_ret_bind; [|apply writes_ret_nil]. apply writes_StringF32. lia.
  - intros (H1 & H2). eapply writes_cast; [apply app_comm_cons|]. apply writes_try; [|by apply Hbody].
    apply Htype; [done|]. rewrite <- (app_nil_r (wire 4 e _)). apply Hfield; [done|apply writes_ret_nil].
Qed.

(** Reading the fields back gives the message as received. *)
Lemma parse_message_ok strict e now m b rest :
  msg_ok m -> msg_fits m -> (strict = false -> body m <> []) ->
  bok b -> bendian b = e -> vrest (bview b) = encode_fields e m ++ rest ->
  (strict = true -> vpos (bview b) + zlen (encode_fields e m) < bcap b) ->
  reads_to e (parse_message now (GetMessageType m)) b (encode_fields e m) (Some (received_msg now m)).
Proof.
  intros Hm Hfit Hne Hb He Hr Hs. unfold reads_to, parse_message.
  destruct m as [r|r|r]; cbn [msg_ok msg_fits body encode_fields received_msg GetMessageType] in *;
    cbn [Z.eqb Pos.eqb REQUEST RESPONSE NOTIFY].
  - destruct Hm as (H1 & H2 & H3). rewrite app_assoc in Hr, Hs |- *.
    destruct (parses_rock false strict e Request.ParseFromByteArray (Request.new now)
      (Request.mkRequest (Request._sn (rk_msg r)) (Request._cmd (rk_msg r)) now) [] _ (rk_data r)
      (parses_Request e now _ _ H1 H2) H3 (proj1 Hfit) Hne b rest Hb He Hr Hs) as (b' & E & ?).
    exists b'. by rewrite (E : RockRequest_ParseFromByteArray (b, mkRock (Request.new now) []) = _).
  - destruct Hm as (H1 & H2 & H3 & H4 & H5).
    replace (wire 4 e _ ++ wire 4 e _ ++ wire 4 e _ ++ encode_str e _ ++ encode_str e (rk_data r)) with
      ((wire 4 e (Response._sn (rk_msg r)) ++ wire 4 e (Response._cmd (rk_msg r)) ++
        wire 4 e (Response._result (rk_msg r)) ++ encode_str e (Response._resultString (rk_msg r))) ++
        encode_str e (rk_data r)) in Hr, Hs |- * by by rewrite <- !app_assoc.
    destruct (parses_rock true strict e Response.ParseFromByteArray Response.new
      (Response.mkResponse (Response._sn (rk_msg r)) (Response._cmd (rk_msg r)) (Response._result (rk_msg r))
        (cstr (Response._resultString (rk_msg r)))) [] _ (rk_data r)
      (parses_Response e _ _ _ _ H1 H2 H3 H4 (proj2 Hfit)) H5 (proj1 Hfit) Hne b rest Hb He Hr Hs) as (b' & E & ?).
    exists b'. by rewrite (E : RockResponse_ParseFromByteArray (b, mkRock (Response.new) []) = _).
  - destruct Hm as (H1 & H2).
    assert (parses false e (B:=B) Notify.ParseFromByteArray Notify.new (wire 4 e (Notify._notify (rk_msg r)))
      true (rk_msg r)) as Hp.
    { rewrite <- (app_nil_r (wire 4 e _)). destruct (rk_msg r) as [v].
      eapply (parses_field (fun v _ => Notify.mkNotify v)); [by apply reads_FUint32|apply parses_ret]. }
    destruct (parses_rock false strict e Notify.ParseFromByteArray Notify.new (rk_msg r) [] _ (rk_data r)
      Hp H2 (proj1 Hfit) Hne b rest Hb He Hr Hs) as (b' & E & ?).
    exists b'. by rewrite (E : RockNotify_ParseFromByteArray (b, mkRock (Notify.new) []) = _).
Qed.
End messages.

(** ** Properties *)
Section properties.
Context {B : Type} {BB : ByteBuffer B} {BL : ByteBufferLaws B} {Mach : Machine}.

(** Never a refusal: neither [false] nor an exception. *)
Definition accepts {A} (o : outcome A) (good : A -> Prop) : Prop :=
  match o with Ok a => good a | Throw _ => False | _ => True end.

Lemma try_both_accepts {S} (m1 m2 : M S bool) s :
  (forall s, accepts (fst (m1 s)) (fun r => r = true) \/ exists e, fst (m1 s) = Throw e) ->
  (forall s, accepts (fst (m2 s)) (fun r => r = true) \/ exists e, fst (m2 s) = Throw e) ->
  accepts (fst (try_both m1 m2 s)) (fun r => r = true).
Proof.
  intros H1 H2. unfold try_both, catch, mbind, M_bind, mret, M_ret.
  specialize (H1 s). destruct (m1 s) as [[r| | | |] s1]; cbn in *; try done.
  specialize (H2 s1). destruct (m2 s1) as [[r2| | | |] s2]; cbn in *; try done.
  - destruct H1 as [->|[? ?]]; [|done]. by destruct H2 as [->|[? ?]].
  - by destruct H1 as [->|[? ?]].
Qed.

(** Both kinds of program never return [false]. *)
Definition returns_true {S} (m : M S bool) : Prop :=
  forall s, accepts (fst (m s)) (fun r => r = true) \/ exists e, fst (m s) = Throw e.

Lemma returns_true_ret {S} : returns_true (S:=S) (mret true).
Proof. by left. Qed.

Lemma returns_true_bind {S A} (m : M S A) f : (forall a, returns_true (f a)) -> returns_true (m ≫= f).
Proof.
  intros Hf s. unfold mbind, M_bind. destruct (m s) as [[a|e| | |] s1]; try (by left); [apply Hf|].
  right. by exists e.
Qed.

Lemma returns_true_part {P O} (g : O -> P) pp (m : M (B * P) bool) :
  returns_true m -> returns_true (on_part g pp m).
Proof. intros Hm [b o]. cbn. specialize (Hm (b, g o)). by destruct (m (b, g o)) as [? [? ?]]. Qed.

Ltac returns := repeat first [apply returns_true_ret | apply returns_true_bind; intros | apply returns_true_part].

Lemma parse_message_accepts now type b :
  type = REQUEST \/ type = RESPONSE \/ type = NOTIFY ->
  accepts (fst (parse_message now type b)) (fun r => r <> None).
Proof.
  assert (forall {O} (m : M (B * O) bool) o (k : O -> Message),
    accepts (fst (m (b, o))) (fun r => r = true) ->
    accepts (fst (let '(r, (b', o')) := m (b, o) in
      (match r with Ok true => Ok (Some (k o')) | Ok false => Ok None | Throw e => Throw e
       | AssertFail => AssertFail | Undef u => Undef u | NoFuel => NoFuel end, b'))) (fun r => r <> None)) as Hw.
  { intros O m o k. destruct (m (b, o)) as [[[]| | | |] [? ?]]; done. }
  assert (forall {Msg} (p : M (B * Msg) bool) o, returns_true p ->
    accepts (fst (try_both (msg_part p) (body_part RockBody_ParseFromByteArray) (b, o))) (fun r => r = true)) as Ht.
  { intros Msg p o Hp. apply try_both_accepts; [by apply returns_true_part|].
    apply returns_true_part. unfold RockBody_ParseFromByteArray. returns. }
  intros [->|[->| ->]]; unfold parse_message; cbn [Z.eqb Pos.eqb REQUEST RESPONSE NOTIFY];
    apply Hw, Ht; [unfold Request.ParseFromByteArray|unfold Response.ParseFromByteArray|unfold Notify.ParseFromByteArray]; returns.
Qed.

(** A message whose fields and strings are of their types is serialised
    into its wire format, and parsing it into a fresh object gives back every
    field, the strings up to their first NUL byte: unchanged when they have
    none.  A message with an empty body must not end at the end of the
    allocated nodes. *)
Theorem message_roundtrip e now m :
  msg_ok m -> msg_fits m ->
  writes_ret e (SerializeToByteArray m) true (encode e m) /\
  reads_in e (t ← ReadFUint8; parse_message now t) (encode e m) (Some (received_msg now m)) /\
  (body m <> [] -> reads e (t ← ReadFUint8; parse_message now t) (encode e m) (Some (received_msg now m))).
Proof.
  intros Hm Hfit. split; [by apply writes_Serialize|].
  assert (is_byte (GetMessageType m)) as Ht by by destruct m.
  change (encode e m) with ([GetMessageType m] ++ encode_fields e m). split.
  - eapply reads_in_bind; [by apply reads_reads_in, reads_byte|].
    intros b rest Hb He Hr Hc. by eapply (parse_message_ok true).
  - intros Hne. eapply reads_bind; [by apply reads_byte|].
    intros b rest Hb He Hr. by eapply (parse_message_ok false).
Qed.

(** No input is ever refused: the handlers swallow the exception with the
    result still [true], so for a known type byte the parser returns a message
    for every buffer, however short (unless it runs into undefined behaviour);
    from fewer than four bytes it returns the default one. *)
Theorem truncated_messages_accepted now type b :
  type = REQUEST \/ type = RESPONSE \/ type = NOTIFY ->
  (forall e, fst (parse_message now type b) <> Throw e) /\ fst (parse_message now type b) <> Ok None /\
  (bok b -> zlen (vdata (bview b)) - vpos (bview b) < 4 ->
    fst (parse_message now type b) = Ok (Some (
      if type =? REQUEST then MRequest (mkRock (Request.new now) [])
      else if type =? RESPONSE then MResponse (mkRock Response.new []) else MNotify (mkRock Notify.new [])))).
Proof.
  intros Htype. pose proof (parse_message_accepts now type b Htype) as H. split_and!.
  - intros e E. by rewrite E in H.
  - intros E. rewrite E in H. by apply H.
  - intros Hb Hs.
    assert (ReadFUint32 b = (Throw OutOfRange, b)) as E.
    { unfold ReadFUint32. by rewrite (bind_throw _ _ _ OutOfRange b) by by apply bread_short. }
    assert (forall {O A} (o : O) (f : Z -> M (B * O) A), (on_fst ReadFUint32 ≫= f) (b, o) = (Throw OutOfRange, (b, o))) as E1.
    { intros O A o f. apply bind_throw. cbn. by rewrite E. }
    clear H. destruct Htype as [->|[->| ->]]; unfold parse_message; cbn [Z.eqb Pos.eqb REQUEST RESPONSE NOTIFY];
      unfold RockRequest_ParseFromByteArray, RockResponse_ParseFromByteArray, RockNotify_ParseFromByteArray,
        try_both, catch, msg_part, on_part; unfold mbind at 1, M_bind; cbn [rk_msg];
      [unfold Request.ParseFromByteArray|unfold Response.ParseFromByteArray|unfold Notify.ParseFromByteArray];
      by rewrite E1.
Qed.
End properties.

(** ** The theorems at concrete messages *)
#[local] Existing Instance demo_machine.

Definition demo_request : Message := MRequest (mkRock (Request.mkRequest 7 100 0) (chars "hello")).

Lemma message_roundtrip_witness :
  writes_ret (B:=ByteArray) XTEN_BIG_ENDIAN (SerializeToByteArray demo_request) true
    [1; 0;0;0;7; 0;0;0;100; 0;0;0;5; 104;101;108;108;111] /\
  reads (B:=ByteArray) XTEN_BIG_ENDIAN (t ← ReadFUint8; parse_message 0 t)
    [1; 0;0;0;7; 0;0;0;100; 0;0;0;5; 104;101;108;108;111] (Some demo_request).
Proof.
  destruct (message_roundtrip (B:=ByteArray) XTEN_BIG_ENDIAN 0 demo_request) as (Hw & _ & Hr).
  - repeat split; vm_compute; congruence.
  - repeat split; vm_compute; congruence.
  - split; [exact Hw|exact (Hr ltac:(discriminate))].
Defined.

Lemma truncated_messages_accepted_witness :
  fst (parse_message 0 REQUEST (loaded false [9;9])) = Ok (Some (MRequest (mkRock (Request.new 0) []))).
Proof.
  destruct (truncated_messages_accepted 0 REQUEST (loaded false [9;9]) (or_introl eq_refl)) as (_ & _ & H).
  apply H; [change (wf (loaded false [9;9])); by_computation|by_computation].
Defined.
