(* ===== verification/Rock.v ===== *)
(** rock/rock_protocol.cpp, [RockMessageDecoder]: a message as a frame of eight
    header bytes and a body, compressed from a configured length on, sent
    through and read from a stream. *)
From Stdlib Require Import String.
From S2P Require Import Prelude Bytes Buffer ByteArray Codec Wire Stream ZlibStream Protocol.

(** [s_magic] *)
Definition s_magic : list Z := [18; 33].

Record RockMsgHead := mkHead { magic : list Z; version : Z; flag : Z; length_ : Z }.
Definition RockMsgHead_new : RockMsgHead := mkHead s_magic 1 0 0.

(** The memory of the packed struct. *)
Definition head_bytes (h : RockMsgHead) : list Z :=
  magic h ++ [version h; flag h] ++ le_bytes 4 (length_ h).
Definition head_of (bs : list Z) : RockMsgHead :=
  mkHead (take 2 bs) (nth 2 bs 0) (nth 3 bs 0) (le_value (take 4 (drop 4 bs))).
Definition sizeof_head : Z := 8.

(** htobe32 and be32toh on a little-endian host *)
Definition htobe32 : Z -> Z := bswap 4.
Definition be32toh : Z -> Z := bswap 4.

(** The configuration: node size of a new byte array, the block size of a
    zlib stream, [stream_buffer.size], and the two limits. *)
Record config := mkConfig {
  c_node : Z; c_block : Z; c_buffer : Z;
  s_rock_protocol_min_gzip_body_length : Z;
  s_rock_protocol_max_body_length : Z;
}.

Section decoder.
Context {St : Type} {SS : Stream St} {Zs : Type} {ZZ : Zlib Zs} {Mach : Machine}.
Context (cfg : config) (fuel : nat).

(** A program on a local byte array and the stream. *)
Definition with_ba {A} (ba : ByteArray) (m : M (ByteArray * St) A) : M St (A * ByteArray) := fun st =>
  let '(o, (ba', st')) := m (ba, st) in (obind o (fun a => Ok (a, ba')), st').

(** Message::ToByteArray *)
Definition ToByteArray (m : Message) : outcome (option ByteArray) :=
  let '(o, ba) := SerializeToByteArray m (ByteArray_new (c_node cfg)) in
  obind o (fun ok => Ok (if ok : bool then Some ba else None)).

(** A coder on [ba]: [Write], then [Flush], then the result. *)
Definition gzip (encode : bool) (len : Z) (ba : ByteArray) : outcome (Z + ByteArray) :=
  obind (Creategzip (Zs:=Zs) encode (c_block cfg)) (fun zs =>
    let '(o1, zs1) := ZWrite_ba fuel len ba zs in
    obind o1 (fun ret => if negb (ret =? Z_OK) then Ok (inl (-2)) else
      let '(o2, zs2) := Flush fuel zs1 in
      obind o2 (fun ret => if negb (ret =? Z_OK) then Ok (inl (-3)) else
        obind (GetByteArray (c_node cfg) zs2) (fun ba => Ok (inr ba))))).

(** The flag, the body and its length, compressed above the limit. *)
Definition prepare (ba : ByteArray) : outcome (Z + Z * ByteArray * Z) :=
  let length := u32 (_size ba) in
  if s_rock_protocol_min_gzip_body_length cfg <? length
  then obind (gzip true length ba)
         (fun r => Ok (match r with inl e => inl e | inr ba => inr (1, ba, u32 (_size ba)) end))
  else Ok (inr (0, ba, length)).

Definition SerializeToStream (msg : Message) : M St Z :=
  o ← lift (ToByteArray msg);
  match o with
  | None => mret (-1)
  | Some ba =>
    let '(o, ba) := SetPosition 0 ba in
    lift o;;
    z ← lift (prepare ba);
    match z with
    | inl e => mret e
    | inr (flag, ba, length) =>
      let head := mkHead s_magic 1 flag (htobe32 length) in
      r ← WriteFixSize (c_buffer cfg) fuel (head_bytes head);
      if r <=? 0 then mret (-4) else
      '(r, ba) ← with_ba ba (WriteFixSize_ba (c_buffer cfg) fuel (GetReadSize ba));
      if r <=? 0 then mret (-5) else mret (s32 (sizeof_head + _size ba))
    end
  end.

(** The body of a received frame, decompressed if the flag says so. *)
Definition decode_body (flag : Z) (ba : ByteArray) : outcome (Z + ByteArray) :=
  if Z.land flag 1 =? 0 then Ok (inr ba) else gzip false (GetReadSize ba) ba.

Definition ParseFromStream (now : Z) : M St (option Message) :=
  '(r, bs) ← ReadFixSize (c_buffer cfg) fuel sizeof_head;
  let head := head_of bs in
  if r <=? 0 then mret None else
  if negb (bool_decide (magic head = s_magic)) then mret None else
  if negb (version head =? 1) then mret None else
  let length := be32toh (length_ head) in
  if s_rock_protocol_max_body_length cfg <? length then mret None else
  '(r, ba) ← with_ba (ByteArray_new (c_node cfg)) (ReadFixSize_ba (c_buffer cfg) fuel length);
  if r <=? 0 then mret None else
  let '(o, ba) := SetPosition 0 ba in
  lift o;;
  z ← lift (decode_body (flag head) ba);
  match z with
  | inl _ => mret None
  | inr ba =>
    let '(o, ba) := ReadFUint8 ba in
    type ← lift o;
    lift (fst (parse_message now type ba))
  end.
End decoder.

(** ** The frame *)
Section frames.
Context {St : Type} {SS : Stream St} {Zs : Type} {ZZ : Zlib Zs} {ZL : ZlibLaws Zs} {Mach : Machine}
  {SL : StreamLaws St}.
Context (cfg : config).

Abbreviation limit := (s_rock_protocol_min_gzip_body_length cfg).

(** gzip: window bits 15 + 16 *)
Definition payload (m : Message) : list Z :=
  if limit <? zlen (encode XTEN_BIG_ENDIAN m) then zcompress 31 (encode XTEN_BIG_ENDIAN m)
  else encode XTEN_BIG_ENDIAN m.

Definition header (m : Message) : list Z :=
  s_magic ++ [1; if limit <? zlen (encode XTEN_BIG_ENDIAN m) then 1 else 0] ++
  wire 4 XTEN_BIG_ENDIAN (zlen (payload m)).

Definition frame (m : Message) : list Z := header m ++ payload m.

(** The message and what it is compressed to fit the sizes in the code: the
    32-bit length and result, the exact range of the array's arithmetic, the
    receiver's stack and limit. *)
Record sendable (m : Message) : Prop := {
  sd_node : 0 < c_node cfg;
  sd_block : 0 < c_block cfg;
  sd_buffer : 0 < c_buffer cfg < 2 ^ 31;
  sd_small : c_node cfg < 2 ^ 40;
  sd_ok : msg_ok m;
  sd_fits : msg_fits m;
  sd_body : body m <> [];
  sd_encode : zlen (encode XTEN_BIG_ENDIAN m) < 2 ^ 31;
  sd_payload : 0 < zlen (payload m) < 2 ^ 31 - 8;
  sd_max : zlen (payload m) <= s_rock_protocol_max_body_length cfg;
}.

(** A rewound array with given contents. *)
Record holds (ba : ByteArray) (bs : list Z) : Prop := {
  ho_wf : wf ba;
  ho_data : data ba = bs;
  ho_position : _position ba = 0;
  ho_endian : _endian ba = XTEN_BIG_ENDIAN;
}.

Lemma rewind_holds ba bs : wf ba -> data ba = bs -> _endian ba = XTEN_BIG_ENDIAN ->
  SetPosition 0 ba = (Ok tt, moved ba 0) /\ holds (moved ba 0) bs.
Proof.
  intros Hwf Hd He. pose proof (wf_position _ Hwf). split; [apply SetPosition_inside; [done|lia]|].
  split; [apply moved_wf; [done|lia]|done..].
Qed.

Lemma holds_avail ba bs : holds ba bs -> avail ba = zlen bs /\ _size ba = zlen bs /\ GetReadSize ba = zlen bs.
Proof.
  intros []. rewrite GetReadSize_avail by done. unfold avail. rewrite ho_data0, ho_position0.
  pose proof (data_zlen _ ho_wf0) as H. rewrite ho_data0 in H. lia.
Qed.

Lemma holds_slice ba bs : holds ba bs -> slice (data ba) (_position ba) (zlen bs) = bs.
Proof. intros []. rewrite ho_data0, ho_position0. unfold slice. rewrite drop_0, Nat2Z.id. apply firstn_all. Qed.

Lemma Creategzip_ok enc size : exists zs, Creategzip (Zs:=Zs) enc size = Ok zs.
Proof.
  unfold Creategzip, Create, Init, assert, modify, get, mbind, M_bind, mret, M_ret. cbn.
  destruct enc; cbn; [destruct (deflateInit2 _ _ _ _ _)|destruct (inflateInit2 _ _)]; cbn; eauto.
Qed.

(** Running one direction of zlib over a whole array. *)
Lemma gzip_ok (enc : bool) (good : list Z -> Prop) (result : list Z -> list Z -> Prop)
    (CL : CoderLaws (if enc then deflate else inflate) good result)
    (good_prefix : forall i1 i2, good (i1 ++ i2) -> good i1) ba bs out :
  (forall zs, Creategzip enc (c_block cfg) = Ok zs -> coding enc good result CL zs []) ->
  0 < c_node cfg -> c_node cfg + zlen out <= 2 ^ 53 ->
  holds ba bs -> good bs -> result bs out ->
  exists N ba', holds ba' out /\
    forall fuel, (N <= fuel)%nat -> gzip (Zs:=Zs) cfg fuel enc (zlen bs) ba = Ok (inr ba').
Proof.
  intros Hinit Hns Hroom Hh Hg Hr. destruct (Creategzip_ok enc (c_block cfg)) as [zs Ez].
  destruct (holds_avail _ _ Hh) as (Hav & _ & _). pose proof (holds_slice _ _ Hh) as Hsl.
  destruct (ZWrite_ba_ok enc good result CL good_prefix zs [] ba (zlen bs)) as (N1 & z1 & E1 & Hc1 & _);
    [by apply Hinit|apply Hh|lia| |]; rewrite Hav, Z.min_id, Hsl in *; [done|].
  destruct (Flush_ok enc good result CL z1 bs Hc1 Hg) as (N2 & z2 & E2 & _ & _ & Hres).
  rewrite <- (Hres out Hr) in *.
  destruct (GetByteArray_ok (c_node cfg) z2 Hns Hroom) as (ba' & E3 & ? & ? & ? & ?).
  exists (N1 + N2)%nat, ba'. split; [by split|]. intros fuel Hf. unfold gzip. rewrite Ez. cbn [obind].
  rewrite E1 by lia. cbn [obind]. rewrite E2 by lia. cbn [obind Z.eqb negb Z_OK]. by rewrite E3.
Qed.

Lemma gzip_encode ba bs :
  0 < c_node cfg -> 0 < c_block cfg -> c_node cfg + zlen (zcompress 31 bs) <= 2 ^ 53 -> holds ba bs ->
  exists N ba', holds ba' (zcompress 31 bs) /\
    forall fuel, (N <= fuel)%nat -> gzip (Zs:=Zs) cfg fuel true (zlen bs) ba = Ok (inr ba').
Proof.
  intros Hn Hb Hroom Hh.
  apply (gzip_ok true _ _ (deflate_laws 31) (fun _ _ _ => I) ba bs); try done.
  intros zs Ez. apply (Create_enc (c_block cfg) GZIP); done.
Qed.

Lemma gzip_decode ba bs :
  0 < c_node cfg -> 0 < c_block cfg -> c_node cfg + zlen bs <= 2 ^ 53 -> holds ba (zcompress 31 bs) ->
  exists N ba', holds ba' bs /\
    forall fuel, (N <= fuel)%nat -> gzip (Zs:=Zs) cfg fuel false (zlen (zcompress 31 bs)) ba = Ok (inr ba').
Proof.
  intros Hn Hb Hroom Hh.
  apply (gzip_ok false _ _ (inflate_laws 31) (prefix_good 31) ba (zcompress 31 bs)); try done.
  - intros zs Ez. apply (Create_dec (c_block cfg) GZIP); done.
  - by exists bs.
Qed.

Lemma ToByteArray_ok m :
  msg_ok m -> 0 < c_node cfg < 2 ^ 63 -> c_node cfg + zlen (encode XTEN_BIG_ENDIAN m) <= 2 ^ 53 ->
  exists ba, ToByteArray cfg m = Ok (Some ba) /\ wf ba /\ data ba = encode XTEN_BIG_ENDIAN m /\
    _endian ba = XTEN_BIG_ENDIAN.
Proof.
  intros Hm Hn Hroom. pose proof (ByteArray_new_wf (c_node cfg) false Hn) as Hwf0.
  destruct (writes_Serialize (B:=ByteArray) XTEN_BIG_ENDIAN m Hm (ByteArray_new (c_node cfg)))
    as (ba & E & Hwf & He & Hv & _); try done.
  { change (0 + zlen (encode XTEN_BIG_ENDIAN m) + c_node cfg <= 2 ^ 53). lia. }
  exists ba. unfold ToByteArray. rewrite E. split_and!; try done.
  apply (f_equal vdata) in Hv. change (data ba = splice [] 0 (encode XTEN_BIG_ENDIAN m)) in Hv.
  rewrite Hv. unfold splice. by rewrite drop_nil, app_nil_r.
Qed.

Lemma prepare_ok m ba :
  sendable m -> holds ba (encode XTEN_BIG_ENDIAN m) ->
  exists N ba', holds ba' (payload m) /\ forall fuel, (N <= fuel)%nat ->
    prepare (Zs:=Zs) cfg fuel ba = Ok (inr (if limit <? zlen (encode XTEN_BIG_ENDIAN m) then 1 else 0, ba', zlen (payload m))).
Proof.
  intros Hs Hh. destruct (holds_avail _ _ Hh) as (_ & Hsz & _). unfold prepare.
  pose proof (sd_payload _ Hs) as Hp. pose proof (sd_encode _ Hs). pose proof (sd_node _ Hs).
  pose proof (sd_block _ Hs). pose proof (sd_small _ Hs).
  rewrite Hsz, u_len by lia. unfold payload in Hp |- *. revert Hp. destruct (Z.ltb_spec limit (zlen (encode XTEN_BIG_ENDIAN m))); intros Hp.
  - destruct (gzip_encode ba (encode XTEN_BIG_ENDIAN m)) as (N & ba' & Hh' & E); [done|done|lia|done|].
    exists N, ba'. split; [done|]. intros fuel Hf. rewrite E by done. cbn [obind].
    destruct (holds_avail _ _ Hh') as (_ & -> & _). by rewrite u_len by lia.
  - by exists 0%nat, ba.
Qed.

Lemma head_bytes_header m :
  head_bytes (mkHead s_magic 1 (if limit <? zlen (encode XTEN_BIG_ENDIAN m) then 1 else 0)
    (htobe32 (zlen (payload m)))) = header m.
Proof. unfold head_bytes, header, htobe32. cbn [magic version flag length_]. by rewrite le_bytes_bswap. Qed.

Lemma header_length m : length (header m) = 8%nat.
Proof. unfold header. by rewrite !length_app, wire_length. Qed.

(** The receiver's view of a header. *)
Lemma head_of_header m : in_u 32 (zlen (payload m)) ->
  head_of (header m) = mkHead s_magic 1 (if limit <? zlen (encode XTEN_BIG_ENDIAN m) then 1 else 0)
    (htobe32 (zlen (payload m))) /\ be32toh (length_ (head_of (header m))) = zlen (payload m).
Proof.
  intros Hl. assert (length_ (head_of (header m)) = le_value (wire 4 XTEN_BIG_ENDIAN (zlen (payload m)))) as E by done.
  split; [|rewrite E; by apply (bswap_wire_be 4)].
  destruct (head_of (header m)) as [mg v f l] eqn:Eh. cbn in E. subst l.
  unfold head_of, header in Eh. injection Eh as <- <- <-. f_equal.
Qed.

Lemma payload_size m : sendable m -> zlen (frame m) = 8 + zlen (payload m).
Proof. intros _. unfold frame. rewrite length_app, header_length. lia. Qed.

(** Sending puts exactly the frame into the stream. *)
Lemma send_ok m s :
  sendable m -> zlen (frame m) <= sspace s ->
  exists N, forall fuel, (N <= fuel)%nat -> exists s',
    SerializeToStream (Zs:=Zs) cfg fuel m s = (Ok (zlen (frame m)), s') /\
    sout s' = sout s ++ frame m /\ sin s' = sin s.
Proof.
  intros Hs Hsp. rewrite payload_size in * by done.
  pose proof (sd_payload _ Hs). pose proof (sd_buffer _ Hs). pose proof (sd_encode _ Hs).
  pose proof (sd_node _ Hs). pose proof (sd_small _ Hs).
  destruct (ToByteArray_ok m) as (ba0 & E0 & Hwf0 & Hd0 & He0); [apply Hs|lia|lia|].
  destruct (rewind_holds ba0 _ Hwf0 Hd0 He0) as [E1 Hh1].
  destruct (prepare_ok m _ Hs Hh1) as (N & ba' & Hh & E2).
  exists (N + 9 + length (payload m))%nat. intros fuel Hf.
  destruct (holds_avail _ _ Hh) as (Hav & Hsz & Hrs). pose proof (holds_slice _ _ Hh) as Hsl.
  destruct (WriteFix_loop_ok (c_buffer cfg) ltac:(lia) fuel 8 8 (header m) s)
    as (r1 & s1 & W1 & Ho1 & Hi1 & Hs1 & Hr1); [by rewrite header_length|lia|lia|lia|].
  rewrite Z.min_l, (proj2 (Z.leb_le 8 _)), (swrap_id 64) in * by (unfold in_s; lia). subst r1.
  rewrite firstn_all2 in Ho1 by (rewrite header_length; lia).
  destruct (WriteFix_ba_loop_ok (c_buffer cfg) ltac:(lia) fuel (zlen (payload m)) (zlen (payload m)) ba' s1)
    as (r2 & s2 & W2 & Ho2 & Hi2 & Hs2 & Hr2); [apply Hh|lia|lia|lia|].
  rewrite Z.min_l, (proj2 (Z.leb_le (zlen (payload m)) _)), (swrap_id 64) in * by (unfold in_s; lia). subst r2.
  exists s2. split_and!; [|by rewrite Ho2, Ho1, Hsl, <- app_assoc|congruence].
  unfold SerializeToStream. rewrite E0. step (eq_refl : lift (Ok (Some ba0)) s = (Ok (Some ba0), s)).
  rewrite E1. step (eq_refl : lift (Ok tt) s = (Ok tt, s)). rewrite E2 by lia.
  set (fl := if limit <? _ then 1 else 0).
  step (eq_refl : lift (Ok (@inr Z _ (fl, ba', zlen (payload m)))) s = (Ok _, s)).
  unfold fl. rewrite head_bytes_header. unfold WriteFixSize. rewrite header_length.
  step W1. change (8 <=? 0) with false. cbn match. rewrite Hrs.
  assert (forall st, with_ba ba' (WriteFixSize_ba (c_buffer cfg) fuel (zlen (payload m))) st =
    (let '(o, (b, st')) := WriteFix_ba_loop (c_buffer cfg) fuel (zlen (payload m)) (zlen (payload m)) (ba', st) in
     (obind o (fun a => Ok (a, b)), st'))) as Ew by done.
  specialize (Ew s1). rewrite W2 in Ew. step Ew. rewrite (proj2 (Z.leb_gt _ _)) by lia.
  cbn [moved set_cur set_pos _size]. rewrite Hsz, swrap_id by (unfold in_s, sizeof_head; lia). done.
Qed.

(** The array a body is received into. *)
Lemma receive_body s bs :
  0 < c_node cfg < 2 ^ 40 -> 0 < c_buffer cfg < 2 ^ 31 -> 0 < zlen bs < 2 ^ 31 -> sin s = bs ->
  exists ba s', (forall fuel, (S (length bs) <= fuel)%nat ->
      with_ba (ByteArray_new (c_node cfg)) (ReadFixSize_ba (c_buffer cfg) fuel (zlen bs)) s =
        (Ok (zlen bs, ba), s')) /\ sin s' = [] /\ sout s' = sout s /\
    SetPosition 0 ba = (Ok tt, moved ba 0) /\ holds (moved ba 0) bs.
Proof.
  intros Hn Hb Hl Hin. pose proof (ByteArray_new_wf (c_node cfg) false ltac:(lia)) as Hwf0.
  destruct (ReadFix_ba_loop_ok (c_buffer cfg) ltac:(lia) (S (length bs)) (zlen bs) (zlen bs)
    (ByteArray_new (c_node cfg)) s) as (r & ba & s' & got & E & Hg & Hrec & Ho & _ & Hcase);
    [lia|done| |rewrite Hin; lia|].
  { change (0 + (zlen (sin s) + c_buffer cfg) + c_node cfg <= 2 ^ 53). rewrite Hin. lia. }
  rewrite Hin in Hg, Hcase. destruct Hcase as [[-> Hlen]|(_ & _ & ?)]; [|done].
  rewrite swrap_id in E by (unfold in_s; lia).
  assert (sin s' = [] /\ got = bs) as [Hs' ->].
  { pose proof (f_equal length Hg) as Hgl. rewrite length_app in Hgl.
    assert (sin s' = []) as Hs' by (apply length_zero_iff_nil; lia). split; [done|].
    by rewrite Hg, Hs', app_nil_r. }
  destruct (rewind_holds ba bs) as [E1 Hh]; [apply Hrec| |apply Hrec|].
  { pose proof (rc_view _ _ _ Hrec) as Hv. apply (f_equal vdata) in Hv.
    change (data ba = splice [] 0 bs) in Hv. rewrite Hv. unfold splice. by rewrite drop_nil, app_nil_r. }
  exists ba, s'. split_and!; try done. intros fuel Hf. unfold with_ba, ReadFixSize_ba. by rewrite E.
Qed.

(** Parsing the body. *)
Lemma parse_body {S} (s : S) now m ba :
  msg_ok m -> msg_fits m -> body m <> [] -> holds ba (encode XTEN_BIG_ENDIAN m) ->
  (let '(o, ba) := ReadFUint8 ba in type ← lift o; lift (fst (parse_message now type ba))) s =
    (Ok (Some (received_msg now m)), s).
Proof.
  intros Hm Hfit Hne [Hwf Hd Hp He].
  assert (vrest (bview ba) = [GetMessageType m] ++ encode_fields XTEN_BIG_ENDIAN m) as Hr.
  { unfold vrest. change (drop (Z.to_nat (_position ba)) (data ba) = encode XTEN_BIG_ENDIAN m).
    by rewrite Hp, drop_0. }
  destruct (reads_byte XTEN_BIG_ENDIAN (GetMessageType m) ltac:(by destruct m) ba _ Hwf He Hr)
    as (ba1 & E1 & Hok1 & He1 & Hc1 & Hv1). rewrite E1.
  destruct (parse_message_ok false XTEN_BIG_ENDIAN now m ba1 [] Hm Hfit (fun _ => Hne) Hok1 He1)
    as (ba2 & E2 & _); [|done|].
  { rewrite Hv1, app_nil_r. change 1%nat with (length [GetMessageType m]). by apply vrest_skip. }
  unfold lift, mbind, M_bind. cbn. by rewrite E2.
Qed.

Lemma decode_body_ok m ba :
  sendable m -> holds ba (payload m) ->
  exists N ba', holds ba' (encode XTEN_BIG_ENDIAN m) /\ forall fuel, (N <= fuel)%nat ->
    decode_body (Zs:=Zs) cfg fuel (if limit <? zlen (encode XTEN_BIG_ENDIAN m) then 1 else 0) ba = Ok (inr ba').
Proof.
  intros Hs Hh. pose proof (sd_encode _ Hs). pose proof (sd_node _ Hs).
  pose proof (sd_block _ Hs). pose proof (sd_small _ Hs).
  destruct (holds_avail _ _ Hh) as (_ & _ & Hrs). unfold decode_body. rewrite Hrs.
  unfold payload in *. destruct (Z.ltb_spec limit (zlen (encode XTEN_BIG_ENDIAN m))).
  - destruct (gzip_decode ba (encode XTEN_BIG_ENDIAN m)) as (N & ba' & Hh' & E); [done|done|lia|done|].
    exists N, ba'. split; [done|]. intros fuel Hf. by rewrite E.
  - by exists 0%nat, ba.
Qed.

Lemma recv_ok now m s :
  sendable m -> sin s = frame m ->
  exists N s', sin s' = [] /\ sout s' = sout s /\ forall fuel, (N <= fuel)%nat ->
    ParseFromStream (Zs:=Zs) cfg fuel now s = (Ok (Some (received_msg now m)), s').
Proof.
  intros Hs Hin. pose proof (sd_payload _ Hs) as Hp. pose proof (sd_buffer _ Hs) as Hb.
  pose proof (sd_max _ Hs). pose proof (sd_node _ Hs). pose proof (sd_small _ Hs).
  destruct (ReadFix_loop_ok (c_buffer cfg) ltac:(lia) 9 8 8 [] s)
    as (r & s1 & E1 & Ho1 & _ & Hi1 & Hr); [lia|lia|].
  pose proof (payload_size m Hs) as Hsz. rewrite Hin, (proj2 (Z.leb_le 8 _)), swrap_id in Hr by (unfold in_s; lia).
  subst r. rewrite Hin in E1, Hi1. unfold frame in E1, Hi1. change (Z.to_nat 8) with 8%nat in *.
  rewrite <- (header_length m) in Hi1. rewrite drop_app_length in Hi1.
  destruct (receive_body s1 (payload m)) as (ba & s2 & E2 & Hi2 & Ho2 & E3 & Hh); [lia|lia|lia|done|].
  destruct (decode_body_ok m _ Hs Hh) as (N & ba' & Hh' & E4).
  exists (9 + S (length (payload m)) + N)%nat, s2. split_and!; [done|congruence|]. intros fuel Hf.
  unfold ParseFromStream, ReadFixSize. change sizeof_head with 8. step (E1 fuel ltac:(lia)).
  rewrite app_nil_l. replace (take 8 (header m ++ payload m)) with (header m)
    by (rewrite <- (header_length m), take_app_length; done).
  change (8 <=? 0) with false. cbn match.
  destruct (head_of_header m) as [Eh El]; [unfold in_u; lia|]. rewrite El, Eh. cbn [magic version flag].
  rewrite bool_decide_eq_true_2 by done. cbn [negb Z.eqb Pos.eqb].
  rewrite (proj2 (Z.ltb_ge _ _)) by lia. step (E2 fuel ltac:(lia)).
  rewrite (proj2 (Z.leb_gt _ _)) by lia. rewrite E3. step (eq_refl : lift (Ok tt) s2 = (Ok tt, s2)).
  rewrite E4 by lia. step (eq_refl : lift (Ok (@inr Z _ ba')) s2 = (Ok (inr ba'), s2)).
  apply parse_body; [apply Hs|apply Hs|apply Hs|done].
Qed.
End frames.

(** ** Properties *)
Section properties.
Context {Zs : Type} {ZZ : Zlib Zs} {ZL : ZlibLaws Zs} {Mach : Machine}.
Context {St : Type} {SS : Stream St} {SL : StreamLaws St}.
Context {St2 : Type} {SS2 : Stream St2} {SL2 : StreamLaws St2}.
Context (cfg : config).


(** A frame whose header has the wrong magic bytes or version, or
    announces a body above the limit, is refused after its eight header bytes;
    the body is not read. *)
Theorem bad_header_refused now (s : St) hd rest :
  0 < c_buffer cfg -> sin s = hd ++ rest -> length hd = 8%nat ->
  magic (head_of hd) <> s_magic \/ version (head_of hd) <> 1 \/
    s_rock_protocol_max_body_length cfg < be32toh (length_ (head_of hd)) ->
  exists s', sin s' = rest /\ sout s' = sout s /\ forall fuel, (9 <= fuel)%nat ->
    ParseFromStream (Zs:=Zs) cfg fuel now s = (Ok None, s').
Proof.
  intros Hb Hin Hl Hbad.
  destruct (ReadFix_loop_ok (c_buffer cfg) Hb 9 8 8 [] s) as (r & s' & E & Ho & _ & Hi & Hr); [lia|lia|].
  rewrite Hin, length_app, (proj2 (Z.leb_le 8 _)), swrap_id in Hr by (unfold in_s; lia). subst r.
  rewrite Hin in E, Hi. change (Z.to_nat 8) with 8%nat in *. rewrite <- Hl in Hi. rewrite drop_app_length in Hi.
  exists s'. split_and!; [done|done|]. intros fuel Hf. unfold ParseFromStream, ReadFixSize.
  change sizeof_head with 8. step (E fuel Hf). rewrite app_nil_l.
  replace (take 8 (hd ++ rest)) with hd by (rewrite <- Hl, take_app_length; done).
  change (8 <=? 0) with false. cbn match.
  destruct (bool_decide (magic (head_of hd) = s_magic)) eqn:Em; [|done]. apply bool_decide_eq_true_1 in Em.
  destruct (Z.eqb_spec (version (head_of hd)) 1); [|done]. cbn [negb].
  destruct (Z.ltb_spec (s_rock_protocol_max_body_length cfg) (be32toh (length_ (head_of hd)))); [done|].
  destruct Hbad as [?|[?|?]]; [done|done|lia].
Qed.
End properties.

(** ** The theorems at concrete messages *)
#[local] Existing Instance demo_machine.

(** Nodes of 16 bytes, blocks of 4, messages above 20 bytes are compressed. *)
Definition demo_config : config := mkConfig 16 4 16384 20 (64 * 1024 * 1024).

Definition demo_notify : Message := MNotify (mkRock (Notify.mkNotify 9) (chars "a body of some length")).

Lemma demo_sendable : sendable (Zs:=unit) demo_config demo_notify.
Proof. split; try (repeat split; vm_compute; congruence). Qed.


Lemma bad_header_refused_witness :
  exists s', sin s' = [5;6] /\ sout s' = [] /\ forall fuel, (9 <= fuel)%nat ->
    ParseFromStream (Zs:=unit) demo_config fuel 0 (open_stream true (mkPipe [171;205;1;0;0;0;0;2;5;6] [] 0)) =
      (Ok None, s').
Proof.
  destruct (bad_header_refused (Zs:=unit) demo_config 0 (open_stream true (mkPipe [171;205;1;0;0;0;0;2;5;6] [] 0))
    [171;205;1;0;0;0;0;2] [5;6]) as (s' & Hi & Ho & E); [reflexivity..|left; vm_compute; discriminate|].
  exists s'. split_and!; [exact Hi|exact Ho|exact E].
Defined.

(** Two notifications in flight: the first is not delivered and the second is
    swallowed with it. *)
Example pipelined_frames_lost :
  let small := MNotify (mkRock (Notify.mkNotify 9) (chars "ab")) in
  let two := frame (Zs:=unit) demo_config small ++ frame (Zs:=unit) demo_config small in
  ParseFromStream (Zs:=unit) demo_config 100 0 (open_stream true (mkPipe two [] 0)) =
    (Ok None, open_stream true (mkPipe [] [] 0)).
Proof. vm_compute. reflexivity. Qed.
