(* ===== verification/WebSocket.v ===== *)
(** websocket/ws_session.cpp: websocket frames over a stream, and the sender
    that drains a session's queue.

    A session writes and reads through the class [Stream]; sizes that the code
    keeps in [int] or [uint32_t] are wrapped where it converts them.  The
    values of [rand()] are arguments. *)
From Stdlib Require Import String.
From S2P Require Import Prelude Bytes Buffer ByteArray Codec Stream.

(** ** The frame header: two bytes of bit fields, low bits first *)
Module OPCODE.
Definition CONTINUE : Z := 0.
Definition TEXT_FRAME : Z := 1.
Definition BIN_FRAME : Z := 2.
Definition CLOSE : Z := 8.
Definition PING : Z := 9.
Definition PONG : Z := 10.
End OPCODE.

Record WSFrameHead := mkWSFrameHead {
  opcode : Z; rsv3 : bool; rsv2 : bool; rsv1 : bool; fin : bool; pay : Z; mask : bool
}.

Definition bit (b : bool) (i : Z) : Z := if b then 2 ^ i else 0.

Definition wshead_bytes (h : WSFrameHead) : list Z :=
  [opcode h mod 16 + bit (rsv3 h) 4 + bit (rsv2 h) 5 + bit (rsv1 h) 6 + bit (fin h) 7;
   pay h mod 128 + bit (mask h) 7].

Definition wshead_of (bs : list Z) : WSFrameHead :=
  let b0 := nth 0 bs 0 in let b1 := nth 1 bs 0 in
  mkWSFrameHead (b0 mod 16) (Z.testbit b0 4) (Z.testbit b0 5) (Z.testbit b0 6) (Z.testbit b0 7)
    (b1 mod 128) (Z.testbit b1 7).

Definition sizeof_wshead : Z := 2.

Record WSFrameMessage := mkMessage { _opcode : Z; _data : list Z }.

(** [data[i] ^ mask[i % 4]] *)
Fixpoint xor_mask (i : nat) (mk : list Z) (bs : list Z) : list Z :=
  match bs with
  | [] => []
  | b :: bs => Z.lxor b (nth (i mod 4) mk 0) :: xor_mask (S i) mk bs
  end.

Section ws.
Context {St : Type} {SS : Stream St}.
(** [stream_buffer.size] and [websocket.message.max_size]; [fuel] bounds the
    loops of the fixed-size transfers. *)
Context (bufsz s_websocket_message_max_size : Z) (fuel : nat).

Abbreviation read_fix len := (ReadFixSize bufsz fuel len).
Abbreviation write_fix bs := (WriteFixSize bufsz fuel bs).

(** [stream->Close(); return -1;] *)
Definition ws_fail : M St Z := modify s_close;; mret (-1).

(** The payload field and the extended length. *)
Definition payload_field (payloadlen : Z) : Z :=
  if payloadlen <? 126 then payloadlen else if payloadlen <? 65535 then 126 else 127.

Definition extended_length (field payloadlen : Z) : list Z :=
  if field =? 126 then le_bytes 2 (htons (u16 payloadlen))
  else if field =? 127 then le_bytes 8 (htobe64 (u64 payloadlen)) else [].

(** A close frame starts with the status code 1000. *)
Definition close_data (op : Z) (data : list Z) : list Z :=
  if op =? OPCODE.CLOSE then le_bytes 2 (htons 1000) ++ data else data.

Definition WSSendMessage (msg : WSFrameMessage) (client fin : bool) (rand_val : Z) : M St Z :=
  let data := close_data (_opcode msg) (_data msg) in
  let payloadlen := s32 (zlen data) in
  let head := mkWSFrameHead (_opcode msg mod 16) false false false fin
                (payload_field payloadlen mod 128) client in
  r ← write_fix (wshead_bytes head);
  if r <=? 0 then ws_fail else
  r ← (if (pay head =? 126) || (pay head =? 127)
       then write_fix (extended_length (pay head) payloadlen) else mret 1);
  if r <=? 0 then ws_fail else
  let mk := le_bytes 4 rand_val in
  let data := if client then xor_mask 0 mk data else data in
  r ← (if client then write_fix mk else mret 1);
  if r <=? 0 then ws_fail else
  if negb (payloadlen =? zlen data) then undef OutOfBounds else
  r ← write_fix data;
  if r <=? 0 then ws_fail else mret (s32 (payloadlen + sizeof_wshead)).

(** A frame that is only a header. *)
Definition WSControl (op : Z) : M St Z :=
  r ← write_fix (wshead_bytes (mkWSFrameHead op false false false true 0 false));
  if r <=? 0 then ws_fail else mret sizeof_wshead.

Definition WSPing : M St Z := WSControl OPCODE.PING.
Definition WSPong : M St Z := WSControl OPCODE.PONG.

(** The length of a data frame: [None] when a read failed.  For 127 the
    comparison is inside the argument, [sizeof(real_len) <= 0], so no byte is
    read and [real_len] stays 0. *)
Definition read_length (field : Z) : M St (option Z) :=
  if field =? 126 then
    '(r, bs) ← read_fix 2;
    mret (if r <=? 0 then None else Some (ntohs (le_value bs)))
  else if field =? 127 then
    '(r, _) ← read_fix (if 8 <=? 0 then 1 else 0);
    mret (if negb (r =? 0) then None else Some (be64toh 0))
  else mret (Some field).

(** One data frame after its header: the bytes it adds, unmasked; [None] for
    the [break]s. *)
Definition recv_data (client : bool) (head : WSFrameHead) (cur_len : Z) : M St (option (list Z)) :=
  if negb client && negb (mask head) then mret None else
  l ← read_length (pay head);
  match l with
  | None => mret None
  | Some len =>
    if s_websocket_message_max_size <=? u32 (cur_len + u32 len) then mret None else
    '(r, mk) ← (if mask head then read_fix 4 else mret (1, []));
    if r <=? 0 then mret None else
    '(r, bs) ← read_fix len;
    if r <=? 0 then mret None else
    mret (Some (if mask head then xor_mask 0 mk bs else bs))
  end.

(** What the loop does with a header; [again] is its next round.  The test of
    the third branch, [opcode == TEXT_FRAME || BIN_FRAME || CONTINUE], is true
    for every opcode. *)
Definition recv_frame (client : bool) (again : Z -> list Z -> M St (option WSFrameMessage))
    (op : Z) (data : list Z) (head : WSFrameHead) : M St (option WSFrameMessage) :=
  if opcode head =? OPCODE.PING then
    r ← WSPong;
    if r <=? 0 then modify s_close;; mret None else again op data
  else if opcode head =? OPCODE.PONG then again op data
  else if (opcode head =? OPCODE.TEXT_FRAME) || negb (OPCODE.BIN_FRAME =? 0) || negb (OPCODE.CONTINUE =? 0) then
    d ← recv_data client head (zlen data);
    match d with
    | None => modify s_close;; mret None
    | Some bs =>
      let data := data ++ bs in
      let op := if (op =? 0) && negb (opcode head =? OPCODE.CONTINUE) then opcode head else op in
      if fin head then mret (Some (mkMessage op data)) else again op data
    end
  else modify s_close;; mret None.

Fixpoint recv_loop (n : nat) (client : bool) (op : Z) (data : list Z) : M St (option WSFrameMessage) :=
  match n with
  | O => nofuel
  | S n =>
    '(r, hb) ← read_fix sizeof_wshead;
    if r <=? 0 then modify s_close;; mret None else
    recv_frame client (recv_loop n client) op data (wshead_of hb)
  end.

Definition WSRecvMessage (n : nat) (client : bool) : M St (option WSFrameMessage) := recv_loop n client 0 [].

(** ** The sender of a session: its queue and what it does with a batch *)

(** Entries: a message with its [fin] flag; [None] forces the connection shut. *)
Definition entry : Type := option WSFrameMessage * bool.

(** The queue, and whether the sender sleeps on the condition variable; [push_back]
    and [signal] of pushMessage, which wakes the sender if it sleeps. *)
Record Session := mkSession { _sendQueue : list entry; asleep : bool }.

Definition pushMessage (msg : option WSFrameMessage) (f : bool) (s : Session) : Session :=
  mkSession (_sendQueue s ++ [(msg, f)]) false.
Definition SendMessage (data : list Z) (op : Z) (f : bool) (s : Session) : Session :=
  pushMessage (Some (mkMessage op data)) f s.
Definition ForceClose (s : Session) : Session := pushMessage None true s.
Definition Ping (s : Session) : Session := pushMessage (Some (mkMessage OPCODE.PING [])) true s.
Definition Pong (s : Session) : Session := pushMessage (Some (mkMessage OPCODE.PONG [])) true s.

(** The for loop over the swapped-out queue; true means [b_force_stop]. *)
Fixpoint send_batch (tmp : list entry) : M St bool :=
  match tmp with
  | [] => mret false
  | (None, _) :: _ => mret true
  | (Some m, f) :: tmp =>
    r ← (if _opcode m =? OPCODE.PING then WSPing
         else if _opcode m =? OPCODE.PONG then WSPong
         else WSSendMessage m false f 0);
    if r <? 0 then mret true else send_batch tmp
  end.

(** What happens to a session: someone pushes an entry, or the scheduler lets
    the sender run up to its next wait. *)
Inductive ws_event := Push (e : entry) | Turn.

(** The locked part of the loop: wait while there is nothing to send on a live
    connection, else swap the queue out. *)
Definition next_batch (connected : bool) (s : Session) : option (list entry) * Session :=
  if bool_decide (_sendQueue s = []) && connected then (None, mkSession [] true)
  else (Some (_sendQueue s), mkSession [] false).

(** The sender; [connected] is IsConnected().  When its loop ends it closes the
    stream; what is pushed later stays in the queue. *)
Fixpoint doSend (connected : St -> bool) (evs : list ws_event) (s : Session) : M St Session :=
  match evs with
  | [] => mret s
  | Push (m, f) :: evs => doSend connected evs (pushMessage m f s)
  | Turn :: evs =>
    if asleep s then doSend connected evs s else
    st ← get;
    match next_batch (connected st) s with
    | (None, s) => doSend connected evs s
    | (Some tmp, s) =>
      stop ← send_batch tmp;
      st ← get;
      if stop || negb (connected st) then modify s_close;; mret s else doSend connected evs s
    end
  end.
End ws.

(** ** The sender forgets nothing *)
Section sender.
Context {St : Type} {SS : Stream St}.
Context (bufsz : Z) (fuel : nat).

Definition pushes (evs : list ws_event) : list entry := evs ≫= fun e => match e with Push e => [e] | Turn => [] end.

(** The sender only sleeps on an empty queue. *)
Definition session_ok (s : Session) : Prop := asleep s = true -> _sendQueue s = [].

Lemma pushMessage_ok m f s : session_ok (pushMessage m f s).
Proof. done. Qed.

Lemma next_batch_ok c s b s' : next_batch c s = (b, s') ->
  session_ok s' /\ _sendQueue s = default [] b ++ _sendQueue s' /\ _sendQueue s' = [].
Proof.
  unfold next_batch, session_ok. destruct (bool_decide_reflect (_sendQueue s = [])) as [->|]; destruct c;
    cbn; intros [= <- <-]; cbn; by rewrite ?app_nil_r.
Qed.

Lemma send_batch_app a b st : send_batch bufsz fuel (a ++ b) st =
  (stop ← send_batch bufsz fuel a; if (stop : bool) then mret true : M St bool else send_batch bufsz fuel b) st.
Proof.
  revert st. induction a as [|[[m|] f] a IH]; intros st; [done| |done].
  cbn [app send_batch]. set (one := if _opcode m =? OPCODE.PING then _ else _).
  rewrite bind_assoc. apply bind_ext. intros r s1. destruct (r <? 0); [done|apply IH].
Qed.

Lemma doSend_run connected evs : forall s st st',
  (forall st, connected st = true) -> session_ok s ->
  send_batch bufsz fuel (_sendQueue s ++ pushes evs) st = (Ok false, st') ->
  exists sent st1 s', doSend bufsz fuel connected evs s st = (Ok s', st1) /\ session_ok s' /\
    _sendQueue s ++ pushes evs = sent ++ _sendQueue s' /\
    send_batch bufsz fuel sent st = (Ok false, st1) /\ send_batch bufsz fuel (_sendQueue s') st1 = (Ok false, st') /\
    (evs = [] -> s' = s) /\ (list.last evs = Some Turn -> _sendQueue s' = []).
Proof.
  induction evs as [|[[m f]|] evs IH]; intros s st st' Hc Hs Hsend; cbn [doSend].
  - exists [], st, s. cbn [pushes mbind list_bind] in *. rewrite app_nil_r in *. by split_and!.
  - cbn [pushes mbind list_bind app] in *.
    destruct (IH (pushMessage m f s) st st') as (sent & st1 & s' & H1 & H2 & H3 & H4 & H5 & _ & H7);
      [done|done|cbn [pushMessage _sendQueue]; by rewrite <- app_assoc|].
    exists sent, st1, s'. cbn [pushMessage _sendQueue] in H3. rewrite <- app_assoc in H3.
    split_and!; try done. by destruct evs.
  - cbn [pushes mbind list_bind app] in *. destruct (asleep s) eqn:Ea.
    { destruct (IH s st st' Hc Hs Hsend) as (sent & st1 & s' & H1 & H2 & H3 & H4 & H5 & H6 & H7).
      exists sent, st1, s'. split_and!; try done. destruct evs; [|done]. rewrite H6 by done. intros _. by apply Hs. }
    rewrite (bind_ok get _ st st st eq_refl).
    destruct (next_batch (connected st) s) as [b s1] eqn:E. apply next_batch_ok in E as (Hs1 & Hq & Hq1).
    rewrite Hq1, app_nil_r in Hq. destruct b as [tmp|]; cbn [from_option id] in Hq; subst.
    + rewrite send_batch_app in Hsend. unfold mbind at 1, M_bind in Hsend.
      destruct (send_batch bufsz fuel (_sendQueue s) st) as [[[]|e| |u|] st1] eqn:E1; try done.
      rewrite (bind_ok _ _ _ _ _ E1), (bind_ok get _ st1 st1 st1 eq_refl), Hc. cbn [negb orb].
      destruct (IH s1 st1 st') as (sent & st2 & s' & H1 & H2 & H3 & H4 & H5 & H6 & H7); [done|done|by rewrite Hq1|].
      exists (_sendQueue s ++ sent), st2, s'. rewrite Hq1 in H3. cbn [app] in H3.
      split_and!; [done|done|by rewrite <- app_assoc, <- H3| |done|done|].
      * by rewrite send_batch_app, (bind_ok _ _ _ _ _ E1).
      * destruct evs; [by rewrite H6|done].
    + rewrite Hq in *. destruct (IH s1 st st') as (sent & st1 & s' & H1 & H2 & H3 & H4 & H5 & H6 & H7);
        [done|done|by rewrite Hq1|].
      rewrite Hq1 in H3. exists sent, st1, s'. split_and!; try done. destruct evs; [by rewrite H6|done].
Qed.
End sender.

(** ** The codec's pieces *)
Lemma xor_mask_length i mk bs : length (xor_mask i mk bs) = length bs.
Proof. revert i. induction bs as [|b bs IH]; intros i; [done|]. cbn. by rewrite IH. Qed.

Lemma xor_mask_twice i mk bs : xor_mask i mk (xor_mask i mk bs) = bs.
Proof.
  revert i. induction bs as [|b bs IH]; intros i; [done|]. cbn [xor_mask].
  by rewrite IH, Z.lxor_assoc, Z.lxor_nilpotent, Z.lxor_0_r.
Qed.

Lemma wshead_roundtrip h : 0 <= opcode h < 16 -> 0 <= pay h < 128 -> wshead_of (wshead_bytes h) = h.
Proof.
  destruct h as [op r3 r2 r1 f p m]. cbn [opcode pay]. intros Hop Hp.
  pose (hd := fun x y => wshead_of (wshead_bytes (mkWSFrameHead x r3 r2 r1 f y m))).
  assert (hd op p = mkWSFrameHead (opcode (hd op 0)) (rsv3 (hd op 0)) (rsv2 (hd op 0)) (rsv1 (hd op 0))
    (fin (hd op 0)) (pay (hd 0 p)) (mask (hd 0 p))) as E by done.
  change (hd op p = mkWSFrameHead op r3 r2 r1 f p m). rewrite E.
  assert (hd op 0 = mkWSFrameHead op r3 r2 r1 f 0 m) as ->.
  { pose proof (field_cases (fun x => (opcode (hd x 0) =? x) && eqb (rsv3 (hd x 0)) r3 && eqb (rsv2 (hd x 0)) r2 &&
      eqb (rsv1 (hd x 0)) r1 && eqb (fin (hd x 0)) f) 16 op) as H.
    destruct (hd op 0) as [o a b c d q e] eqn:Eh. cbv beta in H. rewrite Eh in H.
    cbn [opcode rsv3 rsv2 rsv1 fin] in H.
    rewrite !andb_true_iff, !eqb_true_iff, Z.eqb_eq in H.
    destruct H as ((((-> & ->) & ->) & ->) & ->); [|done|].
    - destruct r3, r2, r1, f, m; vm_compute; reflexivity.
    - apply (f_equal pay) in Eh as Eq. apply (f_equal mask) in Eh as Em. cbn in Eq, Em. subst q e.
      by destruct m. }
  pose proof (field_cases (fun x => (pay (hd 0 x) =? x) && eqb (mask (hd 0 x)) m) 128 p) as H.
  cbv beta in H. rewrite andb_true_iff, eqb_true_iff, Z.eqb_eq in H. destruct H as (-> & ->); [|done|done].
  destruct r3, r2, r1, f, m; vm_compute; reflexivity.
Qed.

Lemma bswap_le_roundtrip n z : in_u (8 * Z.of_nat n) z -> bswap n (le_value (le_bytes n (bswap n z))) = z.
Proof. intros Hz. rewrite le_bytes_bswap. by apply (bswap_wire_be n). Qed.

Lemma extended_ok len : 126 <= len < 65535 ->
  length (extended_length 126 len) = 2%nat /\ ntohs (le_value (extended_length 126 len)) = len.
Proof.
  intros Hl. unfold extended_length. cbn [Z.eqb Pos.eqb]. split; [apply le_bytes_length|].
  rewrite uwrap_id by (unfold in_u; lia). apply (bswap_le_roundtrip 2). unfold in_u. lia.
Qed.

(** The bytes of a frame; [client] frames are masked with [mk]. *)
Definition ws_frame (client : bool) (op : Z) (f : bool) (mk data : list Z) : list Z :=
  wshead_bytes (mkWSFrameHead op false false false f (payload_field (zlen data)) client) ++
  extended_length (payload_field (zlen data)) (zlen data) ++
  (if client then mk else []) ++ (if client then xor_mask 0 mk data else data).

Lemma andb_diag_false b : negb b && negb (negb b) = false.
Proof. by destruct b. Qed.

Lemma u32_small z : 0 <= z < 2 ^ 32 -> u32 z = z.
Proof. apply uwrap_id. Qed.

(** ** One frame through a stream *)
Section transfer.
Context {St : Type} {SS : Stream St} {Mach : Machine} {SL : StreamLaws St}.
Context (bufsz maxsz : Z) (fuel : nat) (Hbuf : 0 < bufsz).

(** The extended length is sent exactly when it is not empty. *)
Lemma extended_part len : 0 <= len ->
  let f := payload_field len in
  extended_length f len = (if (f =? 126) || (f =? 127) then extended_length f len else []) /\
  ((f =? 126) || (f =? 127) = true -> extended_length f len <> []) /\
  0 <= f < 128 /\ (length (extended_length f len) <= 8)%nat.
Proof.
  intros Hl f. unfold f, payload_field, extended_length.
  destruct (Z.ltb_spec len 126); [|destruct (Z.ltb_spec len 65535)]; cbn [Z.eqb Pos.eqb orb].
  - rewrite (proj2 (Z.eqb_neq len 126)), (proj2 (Z.eqb_neq len 127)) by lia.
    split_and!; try done; try lia. cbn. lia.
  - rewrite le_bytes_length. split_and!; try done; lia.
  - rewrite le_bytes_length. split_and!; try done; lia.
Qed.

Lemma transfers_part (c : bool) bs :
  zlen bs < 2 ^ 63 -> (length bs < fuel)%nat -> (c = true -> bs <> []) ->
  exists r, transfers (if c then WriteFixSize bufsz fuel bs else mret 1) r [] (if c then bs else []) /\
    (r <=? 0) = false.
Proof.
  intros Hl Hf Hne. destruct c.
  - exists (zlen bs). split; [by apply transfers_write|]. apply Z.leb_gt. specialize (Hne eq_refl).
    destruct bs; [done|cbn; lia].
  - exists 1. split; [apply transfers_ret|done].
Qed.

Lemma send_frame_ok msg client f rand :
  let data := close_data (_opcode msg) (_data msg) in
  0 <= _opcode msg < 16 -> data <> [] -> zlen data < 2 ^ 31 -> (length data + 8 < fuel)%nat ->
  transfers (WSSendMessage bufsz fuel msg client f rand) (s32 (zlen data + 2)) []
    (ws_frame client (_opcode msg) f (le_bytes 4 rand) data).
Proof.
  intros data Hop Hne Hlen Hf.
  destruct (extended_part (zlen data)) as (Hext & Hextne & Hfield & Hext8); [lia|].
  unfold WSSendMessage, ws_frame. fold data. rewrite swrap_id by (unfold in_s; lia).
  set (field := payload_field (zlen data)) in *. rewrite (Z.mod_small (_opcode msg)), (Z.mod_small field) by lia.
  set (body := if client then xor_mask 0 (le_bytes 4 rand) data else data).
  assert (length body = length data) as Hbody by (unfold body; destruct client; [apply xor_mask_length|done]).
  destruct (transfers_part ((field =? 126) || (field =? 127)) (extended_length field (zlen data)))
    as (r2 & T2 & Hr2); [lia|lia|done|]. rewrite <- Hext in T2.
  destruct (transfers_part client (le_bytes 4 rand)) as (r3 & T3 & Hr3); [done|cbn; lia|done|].
  eapply (transfers_bind _ _ _ _ [] []); [apply transfers_write; [done|done|cbn; lia]|]. cbn [pay].
  rewrite (eq_refl : (zlen (wshead_bytes _) <=? 0) = false).
  eapply (transfers_bind _ _ _ _ [] []); [exact T2|]. rewrite Hr2.
  eapply (transfers_bind _ _ _ _ [] []); [exact T3|]. rewrite Hr3.
  rewrite Hbody, Z.eqb_refl. cbn [negb]. eapply transfers_pure; [apply transfers_write; [done|lia|lia]|].
  intros s. rewrite (proj2 (Z.leb_gt _ _)); [done|]. destruct data; [done|]. rewrite Hbody. cbn. lia.
Qed.

Lemma control_ok op : (2 < fuel)%nat ->
  transfers (WSControl bufsz fuel op) 2 []
    (wshead_bytes (mkWSFrameHead op false false false true 0 false)).
Proof. intros Hf. eapply transfers_pure; [by apply transfers_write; [| |cbn; lia]|done]. Qed.

(** ** Receiving *)
Lemma read_length_ok len : (2 < fuel)%nat -> 0 <= len < 65535 ->
  transfers (read_length bufsz fuel (payload_field len)) (Some len)
    (extended_length (payload_field len) len) [].
Proof.
  intros Hf Hl. unfold payload_field. destruct (Z.ltb_spec len 126).
  - unfold extended_length, read_length.
    rewrite (proj2 (Z.eqb_neq len 126)), (proj2 (Z.eqb_neq len 127)) by lia. apply transfers_ret.
  - rewrite (proj2 (Z.ltb_lt _ _)) by lia. destruct (extended_ok len) as [H2 Hv]; [lia|].
    unfold read_length. cbn [Z.eqb Pos.eqb]. eapply transfers_pure; [apply transfers_read; lia|].
    intros s. cbn [Z.leb Z.compare]. by rewrite Hv.
Qed.

Lemma recv_data_ok client head cur mk bs :
  mask head = negb client -> pay head = payload_field (zlen bs) -> length mk = 4%nat ->
  0 < zlen bs < 65535 -> 0 <= cur -> cur + zlen bs < maxsz <= 2 ^ 32 -> (length bs + 8 < fuel)%nat ->
  transfers (recv_data bufsz maxsz fuel client head cur) (Some bs)
    (extended_length (payload_field (zlen bs)) (zlen bs) ++
     (if negb client then mk else []) ++ (if negb client then xor_mask 0 mk bs else bs)) [].
Proof.
  intros Hm Hp Hmk Hbs Hcur Hmax Hf. unfold recv_data. rewrite Hm, Hp, andb_diag_false.
  eapply (transfers_bind _ _ _ _ _ _ [] []); [apply read_length_ok; lia|]. cbn match.
  rewrite (u32_small (zlen bs)), u32_small by lia. rewrite (proj2 (Z.leb_gt _ _)) by lia.
  set (body := if negb client then xor_mask 0 mk bs else bs).
  assert (length body = length bs) as Hb by (unfold body; destruct (negb client); [apply xor_mask_length|done]).
  assert (exists r, transfers (if negb client then ReadFixSize bufsz fuel 4 else mret (1, [])) (r, if negb client then mk else [])
    (if negb client then mk else []) [] /\ (r <=? 0) = false) as (r & T & Hr).
  { destruct (negb client); [exists 4|exists 1]; split; try done; [apply transfers_read; lia|apply transfers_ret]. }
  eapply (transfers_bind _ _ _ _ _ _ [] []); [exact T|]. cbn beta iota. rewrite Hr.
  eapply transfers_pure; [apply transfers_read; lia|]. intros s. cbn beta iota.
  rewrite (proj2 (Z.leb_gt _ _)) by lia. unfold body. destruct (negb client); [|done].
  by rewrite xor_mask_twice.
Qed.

(** What arrives: control frames (headers only) and fragments. *)
Inductive ws_item := Heartbeat (ping : bool) | Fragment (op : Z) (f : bool) (rand : Z) (data : list Z).

Definition control_bytes (ping : bool) : list Z :=
  wshead_bytes (mkWSFrameHead (if ping then OPCODE.PING else OPCODE.PONG) false false false true 0 false).

Definition item_bytes (client : bool) (it : ws_item) : list Z :=
  match it with
  | Heartbeat ping => control_bytes ping
  | Fragment op f rand data => ws_frame client op f (le_bytes 4 rand) data
  end.

(** A ping is answered. *)
Definition item_reply (it : ws_item) : list Z :=
  match it with Heartbeat true => control_bytes false | _ => [] end.

Definition item_data (it : ws_item) : list Z :=
  match it with Fragment _ _ _ data => data | _ => [] end.

Definition next_op (op : Z) (it : ws_item) : Z :=
  match it with Fragment o _ _ _ => if (op =? 0) && negb (o =? 0) then o else op | _ => op end.

(** What a sender of this library may put into a message. *)
Definition fragment_ok (it : ws_item) : Prop :=
  match it with
  | Heartbeat _ => True
  | Fragment op _ _ data => 0 <= op < 16 /\ op <> OPCODE.PING /\ op <> OPCODE.PONG /\ op <> OPCODE.CLOSE /\
      0 < zlen data < 65535 /\ (length data + 8 < fuel)%nat
  end.

Definition is_final (it : ws_item) : bool := match it with Fragment _ f _ _ => f | _ => false end.

Lemma recv_head h n client op data r ins outs :
  (2 < fuel)%nat -> 0 <= opcode h < 16 -> 0 <= pay h < 128 ->
  transfers (recv_frame bufsz maxsz fuel client (recv_loop bufsz maxsz fuel n client) op data h) r ins outs ->
  transfers (recv_loop bufsz maxsz fuel (S n) client op data) r (wshead_bytes h ++ ins) outs.
Proof.
  intros Hf Ho Hp H. cbn [recv_loop].
  eapply (transfers_bind _ _ _ _ _ _ []); [by apply transfers_read|]. cbn beta iota.
  by rewrite wshead_roundtrip.
Qed.

Lemma recv_heartbeat ping n client op data r ins outs :
  (2 < fuel)%nat -> transfers (recv_loop bufsz maxsz fuel n client op data) r ins outs ->
  transfers (recv_loop bufsz maxsz fuel (S n) client op data) r
    (control_bytes ping ++ ins) (item_reply (Heartbeat ping) ++ outs).
Proof.
  intros Hf H. apply recv_head; [done|by destruct ping|done|]. destruct ping; unfold recv_frame; cbn [opcode].
  - eapply (transfers_bind _ _ _ _ []); [by apply control_ok|]. done.
  - done.
Qed.

Lemma recv_fragment n client op data fop f rand bs r ins outs :
  fragment_ok (Fragment fop f rand bs) -> zlen data + zlen bs < maxsz <= 2 ^ 32 ->
  (if f then r = Some (mkMessage (next_op op (Fragment fop f rand bs)) (data ++ bs)) /\ ins = [] /\ outs = []
   else transfers (recv_loop bufsz maxsz fuel n client (next_op op (Fragment fop f rand bs)) (data ++ bs)) r ins outs) ->
  transfers (recv_loop bufsz maxsz fuel (S n) client op data) r
    (item_bytes (negb client) (Fragment fop f rand bs) ++ ins) outs.
Proof.
  intros (Hop & Hping & Hpong & _ & Hbs & Hfu) Hmax H. unfold item_bytes, ws_frame.
  destruct (extended_part (zlen bs)) as (_ & _ & Hfield & _); [lia|].
  rewrite <- app_assoc. apply recv_head; [lia|done|done|]. unfold recv_frame. cbn [opcode fin].
  rewrite (proj2 (Z.eqb_neq _ _) Hping), (proj2 (Z.eqb_neq _ _) Hpong), orb_true_r.
  cbn [orb]. eapply (transfers_bind _ _ _ _ _ _ []).
  - apply recv_data_ok; try done; lia.
  - cbn beta iota. destruct f; [|exact H]. destruct H as (-> & -> & ->). apply transfers_ret.
Qed.

(** A whole message: fragments and heartbeats up to a final fragment. *)
Lemma recv_items its : forall n client op data last,
  Forall fragment_ok its -> Forall (fun it => is_final it = false) its ->
  fragment_ok last -> is_final last = true ->
  zlen data + zlen (its ≫= item_data) + zlen (item_data last) < maxsz <= 2 ^ 32 ->
  (2 < fuel)%nat -> (length its < n)%nat ->
  transfers (recv_loop bufsz maxsz fuel n client op data)
    (Some (mkMessage (next_op (foldl next_op op its) last) (data ++ (its ≫= item_data) ++ item_data last)))
    ((its ≫= item_bytes (negb client)) ++ item_bytes (negb client) last) (its ≫= item_reply).
Proof.
  induction its as [|it its IH]; intros [|n] client op data last Hok Hnf Hl Hfin Hmax Hf Hn; try lia.
  - destruct last as [ping|lop f rand bs]; [done|]. cbn in Hfin. subst f. cbn in Hmax.
    rewrite <- (app_nil_r (_ ++ item_bytes _ _)). apply recv_fragment; [done|lia|done].
  - apply Forall_cons_1 in Hok as [Hit Hok]. apply Forall_cons_1 in Hnf as [Hnfi Hnf].
    cbn [mbind list_bind foldl] in *. rewrite !length_app in Hmax. cbn [length] in Hn.
    rewrite <- (app_assoc (item_bytes _ it)), <- (app_assoc (item_data it)).
    destruct it as [ping|fop f rand bs].
    + apply recv_heartbeat; [done|]. apply (IH n client op data last); try done; cbn in Hmax; lia.
    + cbn in Hnfi. subst f. cbn [item_data] in *. apply recv_fragment; [done|lia|].
      rewrite app_assoc. apply IH; try done; [|lia]. rewrite length_app. lia.
Qed.

(** A ping with the mask bit set, as every client must send it: only its header
    is consumed, so its masking key is taken for the next header. *)
Lemma masked_ping_desync n client op data mk r ins outs :
  (2 < fuel)%nat -> transfers (recv_loop bufsz maxsz fuel n client op data) r (mk ++ ins) outs ->
  transfers (recv_loop bufsz maxsz fuel (S n) client op data) r
    (wshead_bytes (mkWSFrameHead OPCODE.PING false false false true 0 true) ++ mk ++ ins)
    (control_bytes false ++ outs).
Proof.
  intros Hf H. apply recv_head; [done..|]. unfold recv_frame. cbn [opcode].
  by eapply (transfers_bind _ _ _ _ []); [apply control_ok|].
Qed.

(** The sending side of a conversation. *)
Fixpoint send_all (client : bool) (its : list ws_item) : M St unit :=
  match its with
  | [] => mret tt
  | Heartbeat ping :: its => (if ping then WSPing bufsz fuel else WSPong bufsz fuel);; send_all client its
  | Fragment op f rand data :: its =>
    WSSendMessage bufsz fuel (mkMessage op data) client f rand;; send_all client its
  end.

Lemma send_all_ok client its : Forall fragment_ok its -> (2 < fuel)%nat ->
  transfers (send_all client its) tt [] (its ≫= item_bytes client).
Proof.
  intros Hok Hf. induction Hok as [|it its Hit _ IH]; [apply transfers_ret|].
  destruct it as [ping|op f rand data]; cbn [send_all mbind list_bind].
  - eapply (transfers_bind _ _ _ _ [] []); [|done]. by destruct ping; apply control_ok.
  - destruct Hit as (Hop & _ & _ & Hcl & Hl & Hfu).
    assert (close_data op data = data) as Hcd by (unfold close_data; by rewrite (proj2 (Z.eqb_neq _ _) Hcl)).
    eapply (transfers_bind _ _ _ _ [] []); [|done].
    pose proof (send_frame_ok (mkMessage op data) client f rand) as H. cbn [_opcode _data] in H.
    rewrite Hcd in H. apply H; [done|by destruct data; [cbn in Hl; lia|]|lia|done].
Qed.

(** ** Arbitrary input *)
Lemma read_any n s : 0 <= n < Z.of_nat fuel -> n < 2 ^ 63 ->
  exists r bs s', ReadFixSize bufsz fuel n s = (Ok (r, bs), s') /\ sspace s' = sspace s /\
    (r <= 0 \/ (r = n /\ zlen bs = n /\ zlen (sin s') = zlen (sin s) - n)) /\
    (length (sin s') <= length (sin s))%nat.
Proof.
  intros Hn Hn2. destruct (Z.le_gt_cases n (zlen (sin s))).
  - destruct (ReadFixSize_ok bufsz Hbuf fuel s (take (Z.to_nat n) (sin s)) (drop (Z.to_nat n) (sin s)))
      as (s' & E & Hi & _ & Hs); rewrite ?length_take; try lia; [by rewrite take_drop|].
    rewrite length_take, Nat.min_l, Z2Nat.id in E by lia.
    exists n, (take (Z.to_nat n) (sin s)), s'. rewrite Hi, length_drop, length_take.
    split_and!; try done; [right; split_and!; lia|lia].
  - destruct (ReadFixSize_short bufsz Hbuf fuel s n) as (r & s' & E & Hr & Hi & _ & Hs); [lia|lia|].
    exists r, (sin s), s'. rewrite Hi. cbn. split_and!; try done; [by left|lia].
Qed.

Lemma read_length_any field s : 0 <= field < 128 -> (2 < fuel)%nat ->
  exists o s', read_length bufsz fuel field s = (Ok o, s') /\ sspace s' = sspace s /\
    (length (sin s') <= length (sin s))%nat /\ forall len, o = Some len -> 0 <= len < 65536.
Proof.
  intros Hfd Hf. unfold read_length. destruct (Z.eqb_spec field 126); [|destruct (Z.eqb_spec field 127)].
  - destruct (read_any 2 s) as (r & bs & s' & E & Hs & _ & Hl); [lia|lia|].
    eexists _, s'. rewrite (bind_ok _ _ _ _ _ E). split_and!; try done.
    intros len. destruct (r <=? 0); [done|]. intros [= <-].
    pose proof (le_value_range (rev (le_bytes 2 (le_value bs))) (Forall_rev (le_bytes_range _ _))) as H.
    rewrite length_rev, le_bytes_length in H. exact H.
  - destruct (read_any 0 s) as (r & bs & s' & E & Hs & _ & Hl); [lia|lia|].
    eexists _, s'. cbn [Z.leb Z.compare]. rewrite (bind_ok _ _ _ _ _ E). split_and!; try done.
    intros len. destruct (negb _); [done|]. intros [= <-]. vm_compute. split; congruence.
  - exists (Some field), s. split_and!; try done. intros len [= <-]. lia.
Qed.

Lemma recv_data_any client head cur s :
  0 <= pay head < 128 -> 0 <= cur < maxsz -> maxsz <= 2 ^ 31 -> 65536 < Z.of_nat fuel ->
  exists o s', recv_data bufsz maxsz fuel client head cur s = (Ok o, s') /\ sspace s' = sspace s /\
    (length (sin s') <= length (sin s))%nat /\ forall bs, o = Some bs -> cur + zlen bs < maxsz.
Proof.
  intros Hp Hcur Hmax Hf. unfold recv_data. destruct (negb client && negb (mask head)); [by exists None, s|].
  destruct (read_length_any (pay head) s Hp ltac:(lia)) as (o & s1 & E1 & Hs1 & Hl1 & Ho).
  rewrite (bind_ok _ _ _ _ _ E1). destruct o as [len|]; [|by exists None, s1].
  specialize (Ho len eq_refl). rewrite (u32_small len), u32_small by lia.
  destruct (Z.leb_spec maxsz (cur + len)); [by exists None, s1|].
  assert (exists r mk s2, (if mask head then ReadFixSize bufsz fuel 4 else mret (1, [])) s1 = (Ok (r, mk), s2) /\
    sspace s2 = sspace s1 /\ (length (sin s2) <= length (sin s1))%nat) as (r & mk & s2 & E2 & Hs2 & Hl2).
  { destruct (mask head); [|by exists 1, [], s1].
    destruct (read_any 4 s1) as (r & bs & s2 & E & Hs & _ & Hl); [lia|lia|]. by exists r, bs, s2. }
  rewrite (bind_ok _ _ _ _ _ E2). cbn beta iota. destruct (r <=? 0); [exists None, s2; split_and!; [done|congruence|lia|done]|].
  destruct (read_any len s2) as (r3 & bs & s3 & E3 & Hs3 & Hc3 & Hl3); [lia|lia|].
  rewrite (bind_ok _ _ _ _ _ E3). cbn beta iota.
  destruct (Z.leb_spec r3 0); [exists None, s3; split_and!; [done|congruence|lia|done]|].
  eexists _, s3. split_and!; [done|congruence|lia|]. intros bs' [= <-].
  destruct Hc3 as [?|(_ & Hlen & _)]; [lia|]. destruct (mask head); rewrite ?xor_mask_length; lia.
Qed.

Lemma control_any op s : (2 < fuel)%nat -> 0 <= sspace s ->
  exists r s', WSControl bufsz fuel op s = (Ok r, s') /\ 0 <= sspace s' /\ (length (sin s') <= length (sin s))%nat.
Proof.
  intros Hf Hs. unfold WSControl.
  destruct (WriteFix_loop_ok bufsz Hbuf fuel 2 2 (wshead_bytes (mkWSFrameHead op false false false true 0 false)) s)
    as (r & s' & E & Ho & Hi & Hs' & Hr); [done|lia|lia|done|].
  unfold WriteFixSize. rewrite (bind_ok _ _ _ _ _ E). destruct (r <=? 0).
  - destruct (s_close_ok s') as [Hc1 Hc2]. exists (-1), (s_close s').
    split_and!; [done|lia|rewrite Hc1; cbn; lia].
  - exists 2, s'. split_and!; [done|lia|by rewrite Hi].
Qed.

(** The result of a receive on any input: a message below the limit, or the
    connection is closed. *)
Definition recv_result (o : option WSFrameMessage) (s : St) : Prop :=
  match o with Some m => zlen (_data m) < maxsz | None => sin s = [] /\ sspace s = 0 end.

Lemma recv_loop_any n : forall client op data s,
  (length (sin s) < 2 * n)%nat -> zlen data < maxsz <= 2 ^ 31 -> 65536 < Z.of_nat fuel -> 0 <= sspace s ->
  exists o s', recv_loop bufsz maxsz fuel n client op data s = (Ok o, s') /\ recv_result o s'.
Proof.
  assert (forall s, exists o s', (modify s_close;; mret (@None WSFrameMessage)) s = (Ok o, s') /\ recv_result o s') as Hclose.
  { intros s. exists None, (s_close s). split; [done|]. apply s_close_ok. }
  induction n as [|n IH]; intros client op data s Hn Hd Hf Hsp; [lia|]. cbn [recv_loop].
  destruct (read_any 2 s) as (r & hb & s1 & E & Hs1 & Hc & Hl1); [lia|lia|]. change sizeof_wshead with 2.
  rewrite (bind_ok _ _ _ _ _ E). cbn beta iota.
  destruct (Z.leb_spec r 0); [apply Hclose|]. destruct Hc as [?|(_ & _ & Hl)]; [lia|].
  unfold recv_frame. destruct (opcode (wshead_of hb) =? OPCODE.PING).
  { destruct (control_any OPCODE.PONG s1) as (r1 & s2 & E2 & Hs2 & Hl2); [lia|lia|].
    unfold WSPong. rewrite (bind_ok _ _ _ _ _ E2). destruct (r1 <=? 0); [apply Hclose|]. apply IH; done || lia. }
  destruct (opcode (wshead_of hb) =? OPCODE.PONG); [apply IH; done || lia|].
  rewrite orb_true_r. cbn [orb].
  destruct (recv_data_any client (wshead_of hb) (zlen data) s1) as (o & s2 & E2 & Hs2 & Hl2 & Ho);
    [apply Z.mod_pos_bound; lia|lia|lia|done|].
  rewrite (bind_ok _ _ _ _ _ E2). destruct o as [bs|]; [|apply Hclose]. specialize (Ho bs eq_refl).
  destruct (fin (wshead_of hb)).
  - eexists _, s2. split; [done|]. cbn. rewrite length_app. lia.
  - apply IH; rewrite ?length_app; done || lia.
Qed.
End transfer.

(** ** Properties *)
Section properties.
Context {St : Type} {SS : Stream St} {Mach : Machine} {SL : StreamLaws St}.
Context (bufsz maxsz : Z) (fuel : nat).


(** C24: whatever the peer sends, receiving terminates without undefined
    behaviour: with a message smaller than the limit, or with the connection
    closed. *)
Theorem ws_recv_total n client s :
  0 < bufsz -> 65536 < Z.of_nat fuel -> 0 < maxsz <= 2 ^ 31 -> 0 <= sspace s ->
  (length (sin s) < 2 * n)%nat ->
  exists o s', WSRecvMessage bufsz maxsz fuel n client s = (Ok o, s') /\
    match o with Some m => zlen (_data m) < maxsz | None => sin s' = [] /\ sspace s' = 0 end.
Proof. intros Hb Hf Hmax Hs Hn. by apply recv_loop_any. Qed.

(** A message of 65535 bytes or more is never received: its eight length
    bytes are not read, so the length is taken to be zero, and the empty read
    of the body closes the connection. *)
Theorem ws_large_frame_closes n client op f mk data rest s :
  0 < bufsz -> (4 < fuel)%nat -> 0 <= op < 16 -> op <> OPCODE.PING -> op <> OPCODE.PONG ->
  65535 <= zlen data < 2 ^ 63 -> 0 < maxsz ->
  sin s = ws_frame (negb client) op f mk data ++ rest ->
  exists s', WSRecvMessage bufsz maxsz fuel (S n) client s = (Ok None, s') /\ sin s' = [] /\ sspace s' = 0.
Proof.
  intros Hb Hf Hop Hping Hpong Hl Hmax Hin. unfold WSRecvMessage. cbn [recv_loop].
  assert (payload_field (zlen data) = 127) as Hpf.
  { unfold payload_field. by rewrite !(proj2 (Z.ltb_ge _ _)) by lia. }
  unfold ws_frame in Hin. rewrite Hpf, <- app_assoc in Hin.
  set (h := mkWSFrameHead op false false false f 127 (negb client)) in *.
  destruct (ReadFixSize_ok bufsz Hb fuel s (wshead_bytes h) _ ltac:(done) ltac:(cbn; lia) Hin) as (s1 & E1 & Hi1 & _).
  change (zlen (wshead_bytes h)) with 2 in E1. rewrite (bind_ok _ _ _ _ _ E1). cbn beta iota.
  change (2 <=? 0) with false. cbn match. rewrite wshead_roundtrip by done. unfold recv_frame.
  change (opcode h) with op. rewrite (proj2 (Z.eqb_neq _ _) Hping), (proj2 (Z.eqb_neq _ _) Hpong), orb_true_r.
  cbn [orb]. assert (exists s2, recv_data bufsz maxsz fuel client h 0 s1 = (Ok None, s2)) as [s2 E2].
  { unfold recv_data. change (mask h) with (negb client). change (pay h) with 127. rewrite andb_diag_false.
    destruct (ReadFixSize_ok bufsz Hb fuel s1 [] _ ltac:(done) ltac:(cbn; lia) eq_refl) as (s2 & E & Hi2 & _).
    assert (read_length bufsz fuel 127 s1 = (Ok (Some 0), s2)) as El.
    { unfold read_length. cbn [Z.eqb Pos.eqb Z.leb Z.compare]. by rewrite (bind_ok _ _ _ _ _ E). }
    rewrite (bind_ok _ _ _ _ _ El). change (u32 (0 + u32 0)) with 0. rewrite (proj2 (Z.leb_gt _ _)) by lia.
    assert (exists r bs s3, (if negb client then ReadFixSize bufsz fuel 4 else mret (1, [])) s2 = (Ok (r, bs), s3) /\
      (r <=? 0) = false) as (r & bs & s3 & E3 & Hr).
    { destruct (negb client); [|by exists 1, [], s2].
      destruct (ReadFixSize_ok bufsz Hb fuel s2 (take 4 (sin s2)) (drop 4 (sin s2))) as (s3 & E3 & _);
        rewrite ?length_take; try lia; [by rewrite take_drop|].
      rewrite length_take, Hi2, Hi1, !length_app in E3. change (length (extended_length 127 (zlen data))) with 8%nat in E3.
      rewrite Nat.min_l in E3 by lia. by eexists 4, _, s3. }
    rewrite (bind_ok _ _ _ _ _ E3). cbn beta iota. rewrite Hr.
    destruct (ReadFixSize_ok bufsz Hb fuel s3 [] _ ltac:(done) ltac:(cbn; lia) eq_refl) as (s4 & E4 & _).
    exists s4. by rewrite (bind_ok _ _ _ _ _ E4). }
  cbn [length Z.of_nat]. rewrite (bind_ok _ _ _ _ _ E2). exists (s_close s2). split; [done|apply s_close_ok].
Qed.

(** Sending an empty message closes the connection: the write of zero
    bytes returns 0, which the code takes for a failure, after the header is
    already out. *)
Theorem ws_empty_send_closes op client f rand s :
  0 < bufsz -> (4 < fuel)%nat -> op <> OPCODE.CLOSE -> 6 <= sspace s ->
  exists s', WSSendMessage bufsz fuel (mkMessage op []) client f rand s = (Ok (-1), s') /\
    sin s' = [] /\ sspace s' = 0.
Proof.
  intros Hb Hf Hop Hsp. unfold WSSendMessage. cbn [_opcode _data]. unfold close_data.
  rewrite (proj2 (Z.eqb_neq _ _) Hop). change (s32 (zlen [])) with 0. change (payload_field 0) with 0.
  set (h := wshead_bytes _).
  destruct (WriteFixSize_ok bufsz Hb fuel s h) as (s1 & E1 & _ & _ & Hs1); [done|cbn; lia|cbn; lia|].
  rewrite (bind_ok _ _ _ _ _ E1). change (zlen h <=? 0) with false. cbn [pay].
  change ((0 mod 128 =? 126) || (0 mod 128 =? 127)) with false. cbn match.
  change (zlen h) with 2 in Hs1.
  rewrite (bind_ok (mret 1) _ s1 1 s1 eq_refl). change (1 <=? 0) with false. cbn match.
  assert (exists r s2, (if client then WriteFixSize bufsz fuel (le_bytes 4 rand) else mret 1) s1 = (Ok r, s2) /\
    (r <=? 0) = false /\ 0 <= sspace s2) as (r & s2 & E2 & Hr & Hs2).
  { destruct client; [|exists 1, s1; split_and!; done || lia].
    destruct (WriteFixSize_ok bufsz Hb fuel s1 (le_bytes 4 rand)) as (s2 & E & _ & _ & Hs2); [done|cbn; lia|cbn; lia|].
    exists 4, s2. split_and!; [done|done|cbn in Hs2; lia]. }
  rewrite (bind_ok _ _ _ _ _ E2), Hr.
  destruct (WriteFixSize_ok bufsz Hb fuel s2 []) as (s3 & E3 & _); [done|cbn; lia|done|].
  exists (s_close s3). split; [|apply s_close_ok].
  destruct client; cbn [xor_mask]; change (negb (0 =? zlen (@nil Z))) with false; cbv beta iota; by rewrite (bind_ok _ _ _ _ _ E3).
Qed.
End properties.

(** ** The theorems at concrete frames *)
#[local] Existing Instance demo_machine.

(** A text message in two fragments from a client, with a ping in between. *)
Definition demo_items : list ws_item := [Fragment 1 false 305419896 [72;101;108]; Heartbeat true].


Lemma ws_recv_total_witness :
  exists o s', WSRecvMessage 16384 1000 (Z.to_nat 70000) 5 false demo_stream = (Ok o, s') /\
    match o with Some m => zlen (_data m) < 1000 | None => sin s' = [] /\ sspace s' = 0 end.
Proof. apply (ws_recv_total 16384 1000 (Z.to_nat 70000) 5 false demo_stream); [lia|lia|lia|by_computation|cbn; lia]. Defined.

(** A frame of 65535 bytes from a server. *)
Lemma ws_large_frame_closes_witness :
  exists s', WSRecvMessage 16384 1000000 5 1 true
    (open_stream true (mkPipe (ws_frame false 2 true [] (replicate (Z.to_nat 65535) 7)) [] 0)) = (Ok None, s') /\
    sin s' = [] /\ sspace s' = 0.
Proof.
  apply (ws_large_frame_closes 16384 1000000 5 0 true 2 true [] (replicate (Z.to_nat 65535) 7) []);
    try done; lia.
Defined.

Lemma ws_empty_send_closes_witness :
  exists s', WSSendMessage 16384 5 (mkMessage 1 []) false true 0 demo_stream = (Ok (-1), s') /\
    sin s' = [] /\ sspace s' = 0.
Proof. apply (ws_empty_send_closes 16384 5 1 false true 0 demo_stream); [lia|lia|done|by_computation]. Defined.

