(* ===== verification/Strings.v ===== *)
(** util.cpp: the string routines.

    A [std::string] is its list of bytes.  The loops that copy lazily or search
    by position are modelled as they are written and proved equal to the
    one-line descriptions of what they compute. *)
From Stdlib Require Import List String Ascii.
From S2P Require Import Prelude Bytes.

(** The bytes of a literal. *)
Definition lit (s : string) : list Z := map (fun c => Z.of_nat (nat_of_ascii c)) (list_ascii_of_string s).

(** ** Searching *)

(** [find]: the first index from [pos] on where the test holds. *)
Fixpoint find_at {A} (P : list A -> bool) (i : nat) (rest : list A) : option nat :=
  if P rest then Some i else
  match rest with
  | [] => None
  | _ :: rest => find_at P (S i) rest
  end.

Definition find_from {A} (P : list A -> bool) (s : list A) (pos : nat) : option nat :=
  if decide (length s < pos)%nat then None else find_at P pos (drop pos s).

(** [find(c)], [find_first_of(delims)] *)
Definition head_in (P : Z -> bool) (s : list Z) : bool := match s with c :: _ => P c | [] => false end.
Definition is_char (c : Z) : Z -> bool := fun x => x =? c.
Definition one_of (cs : list Z) : Z -> bool := fun x => bool_decide (x ∈ cs).

(** [find(str)]; the empty string is found everywhere *)
Fixpoint is_prefix (p s : list Z) : bool :=
  match p, s with
  | [], _ => true
  | x :: p, y :: s => (x =? y) && is_prefix p s
  | _ :: _, [] => false
  end.

Definition substr (s : list Z) (pos n : nat) : list Z := take n (drop pos s).

(** [rfind(c)] *)
Definition rfind (P : Z -> bool) (s : list Z) : option nat :=
  match find_from (head_in P) (rev s) 0 with
  | Some i => Some (length s - 1 - i)%nat
  | None => None
  end.

(** ** Paths *)
Definition slash : Z := 47.

Definition DirName (filename : list Z) : list Z :=
  if bool_decide (filename = []) then lit "." else
  match rfind (is_char slash) filename with
  | Some O => lit "/"
  | None => lit "."
  | Some pos => substr filename 0 pos
  end.

Definition Basename (filename : list Z) : list Z :=
  if bool_decide (filename = []) then filename else
  match rfind (is_char slash) filename with
  | None => filename
  | Some pos => drop (pos + 1) filename
  end.

(** ** URL encoding *)
(** [xdigit_chars] *)
Definition xdigit_chars : list Z :=
  [0;0;0;0;0;0;0;0;0;0;0;0;0;0;0;0;0;0;0;0;0;0;0;0;0;0;0;0;0;0;0;0;
   0;0;0;0;0;0;0;0;0;0;0;0;0;0;0;0;0;1;2;3;4;5;6;7;8;9;0;0;0;0;0;0;
   0;10;11;12;13;14;15;0;0;0;0;0;0;0;0;0;0;0;0;0;0;0;0;0;0;0;0;0;0;0;0;0;
   0;10;11;12;13;14;15;0;0;0;0;0;0;0;0;0;0;0;0;0;0;0;0;0;0;0;0;0;0;0;0;0;
   0;0;0;0;0;0;0;0;0;0;0;0;0;0;0;0;0;0;0;0;0;0;0;0;0;0;0;0;0;0;0;0;
   0;0;0;0;0;0;0;0;0;0;0;0;0;0;0;0;0;0;0;0;0;0;0;0;0;0;0;0;0;0;0;0;
   0;0;0;0;0;0;0;0;0;0;0;0;0;0;0;0;0;0;0;0;0;0;0;0;0;0;0;0;0;0;0;0;
   0;0;0;0;0;0;0;0;0;0;0;0;0;0;0;0;0;0;0;0;0;0;0;0;0;0;0;0;0;0;0;0].

(** [uri_chars] *)
Definition uri_chars : list Z :=
  [0;0;0;0;0;0;0;0;0;0;0;0;0;0;0;0;0;0;0;0;0;0;0;0;0;0;0;0;0;0;0;0;
   0;0;0;0;0;0;0;0;0;0;0;0;0;1;1;0;1;1;1;1;1;1;1;1;1;1;0;0;0;1;0;0;
   0;1;1;1;1;1;1;1;1;1;1;1;1;1;1;1;1;1;1;1;1;1;1;1;1;1;1;0;0;0;0;1;
   0;1;1;1;1;1;1;1;1;1;1;1;1;1;1;1;1;1;1;1;1;1;1;1;1;1;1;0;0;0;1;0;
   0;0;0;0;0;0;0;0;0;0;0;0;0;0;0;0;0;0;0;0;0;0;0;0;0;0;0;0;0;0;0;0;
   0;0;0;0;0;0;0;0;0;0;0;0;0;0;0;0;0;0;0;0;0;0;0;0;0;0;0;0;0;0;0;0;
   0;0;0;0;0;0;0;0;0;0;0;0;0;0;0;0;0;0;0;0;0;0;0;0;0;0;0;0;0;0;0;0;
   0;0;0;0;0;0;0;0;0;0;0;0;0;0;0;0;0;0;0;0;0;0;0;0;0;0;0;0;0;0;0;0].

Definition CHAR_IS_UNRESERVED (c : Z) : bool := negb (nth (Z.to_nat c) uri_chars 0 =? 0).

Definition hexdigits : list Z := lit "0123456789ABCDEF".
Definition isxdigit (c : Z) : bool :=
  ((48 <=? c) && (c <=? 57)) || ((65 <=? c) && (c <=? 70)) || ((97 <=? c) && (c <=? 102)).
Definition xdigit (c : Z) : Z := nth (Z.to_nat c) xdigit_chars 0.

(** What a reserved character turns into. *)
Definition escape (space_as_plus : bool) (c : Z) : list Z :=
  if (c =? 32) && space_as_plus then [43]
  else [37; nth (Z.to_nat (Z.shiftr c 4)) hexdigits 0; nth (Z.to_nat (Z.land c 15)) hexdigits 0].

(** The copy [ss] is made at the first character that changes. *)
Fixpoint UrlEncode_loop (plus : bool) (str : list Z) (i : nat) (rest : list Z) (ss : option (list Z)) : option (list Z) :=
  match rest with
  | [] => ss
  | c :: rest =>
    let ss := if negb (CHAR_IS_UNRESERVED c)
              then Some (default (take i str) ss ++ escape plus c)
              else match ss with Some s => Some (s ++ [c]) | None => None end in
    UrlEncode_loop plus str (S i) rest ss
  end.

Definition UrlEncode (str : list Z) (space_as_plus : bool) : list Z :=
  default str (UrlEncode_loop space_as_plus str 0 str None).

Fixpoint UrlDecode_loop (plus : bool) (str : list Z) (i : nat) (rest : list Z) (ss : option (list Z)) : option (list Z) :=
  match rest with
  | [] => ss
  | c :: rest1 =>
    let next := UrlDecode_loop plus str (S i) rest1
                  (match ss with Some s => Some (s ++ [c]) | None => None end) in
    if (c =? 43) && plus then UrlDecode_loop plus str (S i) rest1 (Some (default (take i str) ss ++ [32]))
    else if c =? 37 then
      match rest1 with
      | h1 :: h2 :: rest3 =>
        if isxdigit h1 && isxdigit h2
        then UrlDecode_loop plus str (S (S (S i))) rest3
               (Some (default (take i str) ss ++ [Z.lor (Z.shiftl (xdigit h1) 4) (xdigit h2)]))
        else next
      | _ => next
      end
    else next
  end.

Definition UrlDecode (str : list Z) (space_as_plus : bool) : list Z :=
  default str (UrlDecode_loop space_as_plus str 0 str None).

(** ** Trimming, case *)
Fixpoint drop_in (cs s : list Z) : list Z :=
  match s with
  | [] => []
  | c :: s' => if one_of cs c then drop_in cs s' else s
  end.

(** find_first_not_of and find_last_not_of *)
Definition find_first_not_of (cs s : list Z) : option nat := find_from (head_in (fun c => negb (one_of cs c))) s 0.
Definition find_last_not_of (cs s : list Z) : option nat := rfind (fun c => negb (one_of cs c)) s.

Definition Trim (str delimit : list Z) : list Z :=
  match find_first_not_of delimit str with
  | None => []
  | Some b => match find_last_not_of delimit str with
              | None => []
              | Some e => substr str b (e - b + 1)
              end
  end.

Definition tolower (c : Z) : Z := if (65 <=? c) && (c <=? 90) then c + 32 else c.
Definition toupper (c : Z) : Z := if (97 <=? c) && (c <=? 122) then c - 32 else c.
Definition ToLower (name : list Z) : list Z := map tolower name.
Definition ToUpper (name : list Z) : list Z := map toupper name.

(** ** Base64 *)
Definition base64 : list Z := lit "ABCDEFGHIJKLMNOPQRSTUVWXYZabcdefghijklmnopqrstuvwxyz0123456789+/".
Definition b64char (i : Z) : Z := nth (Z.to_nat i) base64 0.

(** One group of up to three bytes. *)
Definition base64_group (g : list Z) : list Z :=
  let packed := foldl (fun p b => u32 (Z.lor (u32 (Z.shiftl p 8)) b)) 0 g in
  let i := length g in
  let append := if decide (i = 1)%nat then 2%nat else if decide (i = 2)%nat then 1%nat else 0%nat in
  let packed := Nat.iter (3 - i) (fun p => u32 (Z.shiftl p 8)) packed in
  [b64char (Z.shiftr packed 18); b64char (Z.land (Z.shiftr packed 12) 63)] ++
  (if decide (append <> 2)%nat then [b64char (Z.land (Z.shiftr packed 6) 63)] else []) ++
  (if decide (append = 0)%nat then [b64char (Z.land packed 63)] else []) ++
  replicate append 61.

Fixpoint base64_loop (fuel : nat) (data : list Z) : option (list Z) :=
  match fuel with
  | O => None
  | S fuel => if bool_decide (data = []) then Some [] else
              match base64_loop fuel (drop 3 data) with
              | Some r => Some (base64_group (take 3 data) ++ r)
              | None => None
              end
  end.

Definition base64encode (data : list Z) : option (list Z) := base64_loop (S (length data)) data.

(** ** Replacing *)

(** A character by a character. *)
Fixpoint replace_cc_loop (fuel : nat) (find repl : Z) (str : list Z) (index : option nat) : option (list Z) :=
  match fuel with
  | O => None
  | S fuel => match index with
              | None => Some str
              | Some i => let str := <[i := repl]> str in
                          replace_cc_loop fuel find repl str (find_from (head_in (is_char find)) str (i + 1))
              end
  end.
Definition replace_cc (str1 : list Z) (find repl : Z) : option (list Z) :=
  replace_cc_loop (S (length str1)) find repl str1 (find_from (head_in (is_char find)) str1 0).

(** A pattern of [n] characters, found by [P], by a string. *)
Fixpoint replace_loop (fuel : nat) (P : list Z -> bool) (n : nat) (repl str : list Z) (index : option nat) : option (list Z) :=
  match fuel with
  | O => None
  | S fuel => match index with
              | None => Some str
              | Some i => let str := substr str 0 i ++ repl ++ drop (i + n) str in
                          replace_loop fuel P n repl str (find_from P str (i + length repl))
              end
  end.
Definition replace_cs (fuel : nat) (str1 : list Z) (find : Z) (repl : list Z) : option (list Z) :=
  replace_loop fuel (head_in (is_char find)) 1 repl str1 (find_from (head_in (is_char find)) str1 0).
Definition replace_ss (fuel : nat) (str1 find repl : list Z) : option (list Z) :=
  replace_loop fuel (is_prefix find) (length find) repl str1 (find_from (is_prefix find) str1 0).

(** ** Splitting *)
Fixpoint split_loop (fuel : nat) (P : Z -> bool) (str : list Z) (last : nat) (max : Z) (pos : option nat)
    (result : list (list Z)) : option (list (list Z)) :=
  match fuel with
  | O => None
  | S fuel =>
    match pos with
    | None => Some (result ++ [drop last str])
    | Some p =>
      let result := result ++ [substr str last (p - last)] in
      let last := (p + 1)%nat in
      let max := u64 (max - 1) in
      if max =? 1 then Some (result ++ [drop last str])
      else split_loop fuel P str last max (find_from (head_in P) str last) result
    end
  end.

Definition split_by (P : Z -> bool) (str : list Z) (max : Z) : option (list (list Z)) :=
  if bool_decide (str = []) then Some [] else
  split_loop (S (length str)) P str 0 max (find_from (head_in P) str 0) [].

Definition split (str : list Z) (delim : Z) (max : Z) := split_by (is_char delim) str max.
Definition split_any (str delims : list Z) (max : Z) := split_by (one_of delims) str max.

(** ** What the encoders compute *)
Definition url_enc (plus : bool) (s : list Z) : list Z :=
  s ≫= fun c => if CHAR_IS_UNRESERVED c then [c] else escape plus c.

Fixpoint url_dec (plus : bool) (s : list Z) : list Z :=
  match s with
  | [] => []
  | c :: s1 =>
    if (c =? 43) && plus then 32 :: url_dec plus s1
    else if c =? 37 then
      match s1 with
      | h1 :: h2 :: s3 =>
        if isxdigit h1 && isxdigit h2
        then Z.lor (Z.shiftl (xdigit h1) 4) (xdigit h2) :: url_dec plus s3
        else c :: url_dec plus s1
      | _ => c :: url_dec plus s1
      end
    else c :: url_dec plus s1
  end.

Lemma take_next (str rest : list Z) i c : drop i str = c :: rest -> take (S i) str = take i str ++ [c] /\ drop (S i) str = rest.
Proof.
  intros H. assert (str !! i = Some c) as Hc.
  { pose proof (lookup_drop str i 0) as E. rewrite H, Nat.add_0_r in E. done. }
  split; [by apply take_S_r|]. rewrite <- Nat.add_1_r, <- drop_drop, H. done.
Qed.

Lemma UrlEncode_loop_eq plus str rest : forall i ss,
  drop i str = rest ->
  default str (UrlEncode_loop plus str i rest ss) = default (take i str) ss ++ url_enc plus rest.
Proof.
  induction rest as [|c rest IH]; intros i ss H; cbn [UrlEncode_loop].
  - cbn. rewrite app_nil_r. destruct ss; [done|]. cbn.
    rewrite <- (take_drop i str) at 1. by rewrite H, app_nil_r.
  - destruct (take_next str rest i c H) as [Ht Hd]. rewrite IH by done.
    unfold url_enc. cbn [mbind list_bind]. destruct (CHAR_IS_UNRESERVED c); cbn [negb].
    + destruct ss as [s|]; cbn [from_option id]; rewrite ?Ht; by rewrite <- app_assoc.
    + cbn [from_option id]. by rewrite <- app_assoc.
Qed.

Lemma UrlEncode_eq s plus : UrlEncode s plus = url_enc plus s.
Proof. apply (UrlEncode_loop_eq plus s s 0 None). done. Qed.

Lemma UrlDecode_loop_eq plus str n : forall rest i ss,
  (length rest <= n)%nat -> drop i str = rest ->
  default str (UrlDecode_loop plus str i rest ss) = default (take i str) ss ++ url_dec plus rest.
Proof.
  induction n as [|n IH]; intros [|c rest] i ss Hn H; cbn in Hn; try lia.
  1,2: cbn; rewrite app_nil_r; destruct ss; [done|]; cbn;
       rewrite <- (take_drop i str) at 1; by rewrite H, app_nil_r.
  destruct (take_next str rest i c H) as [Ht Hd].
  assert (default str (UrlDecode_loop plus str (S i) rest (match ss with Some s => Some (s ++ [c]) | None => None end)) =
    default (take i str) ss ++ c :: url_dec plus rest) as Hnext.
  { rewrite IH by (done || lia). destruct ss as [s|]; cbn [from_option id]; rewrite ?Ht; by rewrite <- app_assoc. }
  cbn [UrlDecode_loop url_dec]. destruct ((c =? 43) && plus).
  { rewrite IH by (done || lia). cbn [from_option id]. by rewrite <- app_assoc. }
  destruct (c =? 37); [|done].
  destruct rest as [|h1 [|h2 rest3]]; [done|done|]. destruct (isxdigit h1 && isxdigit h2); [|done].
  destruct (take_next str _ _ _ Hd) as [Ht1 Hd1]. destruct (take_next str _ _ _ Hd1) as [Ht2 Hd2].
  rewrite IH by (done || (cbn in Hn; lia)). cbn [from_option id]. by rewrite <- app_assoc.
Qed.

Lemma UrlDecode_eq s plus : UrlDecode s plus = url_dec plus s.
Proof. by apply (UrlDecode_loop_eq plus s (length s) s 0 None). Qed.

(** Every byte survives, by computation over the two tables. *)
Lemma url_dec_enc1 p1 p2 c rest : (p1 = true -> p2 = true) -> is_byte c ->
  url_dec p2 ((if CHAR_IS_UNRESERVED c then [c] else escape p1 c) ++ rest) = c :: url_dec p2 rest.
Proof.
  intros Hp Hc.
  pose (ok := fun c => if CHAR_IS_UNRESERVED c then negb (c =? 43) && negb (c =? 37)
    else match escape false c with
         | [p; h1; h2] => (p =? 37) && isxdigit h1 && isxdigit h2 && (Z.lor (Z.shiftl (xdigit h1) 4) (xdigit h2) =? c)
         | _ => false
         end).
  assert (ok c = true) as H by (apply (field_cases ok 256); [vm_compute; reflexivity|done]).
  unfold ok in H. destruct (CHAR_IS_UNRESERVED c).
  - apply andb_true_iff in H as [H1%negb_true_iff H2%negb_true_iff]. cbn [app url_dec]. by rewrite H1, H2.
  - unfold escape in *. rewrite andb_false_r in H. destruct ((c =? 32) && p1) eqn:E.
    + apply andb_true_iff in E as [->%Z.eqb_eq ->]. by rewrite (Hp eq_refl).
    + rewrite !andb_true_iff, !Z.eqb_eq in H. destruct H as (((_ & H1) & H2) & H3).
      cbn [app url_dec Z.eqb Pos.eqb andb]. by rewrite H1, H2, H3.
Qed.

Lemma url_dec_enc p1 p2 s : (p1 = true -> p2 = true) -> Forall is_byte s -> url_dec p2 (url_enc p1 s) = s.
Proof.
  intros Hp. induction 1 as [|c s Hc _ IH]; [done|]. unfold url_enc in *. cbn [mbind list_bind].
  by rewrite url_dec_enc1, IH.
Qed.

(** ** Base64 *)
Definition b64val (c : Z) : option nat := find_from (head_in (is_char c)) base64 0.

(** A decoder in the sense of RFC 4648. *)
Fixpoint b64_decode (s : list Z) : option (list Z) :=
  match s with
  | [] => Some []
  | c1 :: c2 :: c3 :: c4 :: rest =>
    v1 ← b64val c1; v2 ← b64val c2;
    let v1 := Z.of_nat v1 in let v2 := Z.of_nat v2 in
    if c3 =? 61 then
      if (c4 =? 61) && bool_decide (rest = []) then Some [v1 * 4 + v2 / 16] else None
    else
      v3 ← b64val c3;
      let v3 := Z.of_nat v3 in
      if c4 =? 61 then
        if bool_decide (rest = []) then Some [v1 * 4 + v2 / 16; (v2 mod 16) * 16 + v3 / 4] else None
      else
        v4 ← b64val c4;
        r ← b64_decode rest;
        Some ([v1 * 4 + v2 / 16; (v2 mod 16) * 16 + v3 / 4; (v3 mod 4) * 64 + Z.of_nat v4] ++ r)
  | _ => None
  end.

Lemma b64char_ok i : 0 <= i < 64 -> b64val (b64char i) = Some (Z.to_nat i) /\ (b64char i =? 61) = false.
Proof.
  intros Hi.
  pose (ok := fun i => match b64val (b64char i) with Some n => Z.of_nat n =? i | None => false end && negb (b64char i =? 61)).
  assert (ok i = true) as H by (apply (field_cases ok 64); [vm_compute; reflexivity|done]).
  apply andb_true_iff in H as [H1 H2%negb_true_iff]. destruct (b64val (b64char i)); [|done].
  apply Z.eqb_eq in H1. subst i. by rewrite Nat2Z.id.
Qed.

(** Packing bytes is arithmetic. *)
Lemma pack_byte p b : 0 <= p < 2 ^ 16 -> is_byte b -> u32 (Z.lor (u32 (Z.shiftl p 8)) b) = p * 256 + b.
Proof.
  unfold is_byte. intros Hp Hb. assert (Z.shiftl p 8 = p * 256) as E by (rewrite Z.shiftl_mul_pow2; lia).
  assert (Z.lor (Z.shiftl p 8) b = p * 256 + b) as E2.
  { rewrite Z.lor_comm, (lor_shiftl_add b p 8) by lia. lia. }
  rewrite (uwrap_id 32 (Z.shiftl p 8)), E2, uwrap_id by (unfold in_u; lia). done.
Qed.

Lemma shift_byte p : 0 <= p < 2 ^ 24 -> u32 (Z.shiftl p 8) = p * 256.
Proof. intros Hp. rewrite Z.shiftl_mul_pow2, uwrap_id by (unfold in_u; lia). lia. Qed.

(** The six-bit fields of 24 bits. *)
Lemma sextets p : 0 <= p < 2 ^ 24 ->
  Z.shiftr p 18 = p / 262144 /\ Z.land (Z.shiftr p 12) 63 = (p / 4096) mod 64 /\
  Z.land (Z.shiftr p 6) 63 = (p / 64) mod 64 /\ Z.land p 63 = p mod 64.
Proof.
  intros Hp. rewrite !Z.shiftr_div_pow2 by lia. change 63 with (Z.ones 6). rewrite !Z.land_ones by lia. done.
Qed.

Lemma b64_step i : 0 <= i < 64 -> b64val (b64char i) = Some (Z.to_nat i).
Proof. intros. by apply b64char_ok. Qed.

Lemma b64_nopad i : 0 <= i < 64 -> (b64char i =? 61) = false.
Proof. intros. by apply b64char_ok. Qed.

(** A group is the four sextets of its 24 bits. *)
Lemma group_sextets b0 b1 b2 : is_byte b0 -> is_byte b1 -> is_byte b2 ->
  let p := (b0 * 256 + b1) * 256 + b2 in
  base64_group [b0; b1; b2] =
    [b64char (p / 262144); b64char ((p / 4096) mod 64); b64char ((p / 64) mod 64); b64char (p mod 64)].
Proof.
  intros H0 H1 H2. cbn zeta. unfold base64_group. cbn [foldl length Nat.sub]. unfold Nat.iter. cbn [nat_rect].
  unfold is_byte in *. rewrite (pack_byte 0 b0), Z.mul_0_l, Z.add_0_l, (pack_byte b0 b1), (pack_byte _ b2) by (unfold is_byte; lia).
  destruct (sextets ((b0 * 256 + b1) * 256 + b2)) as (E1 & E2 & E3 & E4); [lia|].
  rewrite E1, E2, E3, E4. done.
Qed.

Lemma group_sextets2 b0 b1 : is_byte b0 -> is_byte b1 ->
  let p := (b0 * 256 + b1) * 256 in
  base64_group [b0; b1] = [b64char (p / 262144); b64char ((p / 4096) mod 64); b64char ((p / 64) mod 64); 61].
Proof.
  intros H0 H1. cbn zeta. unfold base64_group. cbn [foldl length Nat.sub]. unfold Nat.iter. cbn [nat_rect].
  unfold is_byte in *. rewrite (pack_byte 0 b0), Z.mul_0_l, Z.add_0_l, (pack_byte b0 b1), shift_byte by (unfold is_byte; lia).
  destruct (sextets ((b0 * 256 + b1) * 256)) as (E1 & E2 & E3 & E4); [lia|]. rewrite E1, E2, E3. done.
Qed.

Lemma group_sextets1 b0 : is_byte b0 ->
  let p := b0 * 256 * 256 in
  base64_group [b0] = [b64char (p / 262144); b64char ((p / 4096) mod 64); 61; 61].
Proof.
  intros H0. cbn zeta. unfold base64_group. cbn [foldl length Nat.sub]. unfold Nat.iter. cbn [nat_rect].
  unfold is_byte in *. rewrite (pack_byte 0 b0), Z.mul_0_l, Z.add_0_l, (shift_byte b0), (shift_byte (b0 * 256)) by (unfold is_byte; lia).
  destruct (sextets (b0 * 256 * 256)) as (E1 & E2 & E3 & E4); [lia|]. rewrite E1, E2. done.
Qed.

Ltac b64_bytes := unfold is_byte in *; Z.to_euclidean_division_equations; lia.

Lemma decode_group3 b0 b1 b2 rest : is_byte b0 -> is_byte b1 -> is_byte b2 ->
  b64_decode (base64_group [b0; b1; b2] ++ rest) = r ← b64_decode rest; Some ([b0; b1; b2] ++ r).
Proof.
  intros H0 H1 H2. rewrite group_sextets by done. cbn [app b64_decode].
  rewrite !b64_step, !b64_nopad by b64_bytes. cbn [mbind option_bind].
  destruct (b64_decode rest) as [r|]; [|done]. cbn [mbind option_bind]. rewrite !Z2Nat.id by b64_bytes.
  repeat f_equal; b64_bytes.
Qed.

Lemma decode_group2 b0 b1 : is_byte b0 -> is_byte b1 -> b64_decode (base64_group [b0; b1]) = Some [b0; b1].
Proof.
  intros H0 H1. rewrite group_sextets2 by done. cbn [b64_decode].
  rewrite !b64_step, !b64_nopad by b64_bytes. cbn. rewrite !Z2Nat.id by b64_bytes. repeat f_equal; b64_bytes.
Qed.

Lemma decode_group1 b0 : is_byte b0 -> b64_decode (base64_group [b0]) = Some [b0].
Proof.
  intros H0. rewrite group_sextets1 by done. cbn [b64_decode].
  rewrite !b64_step by b64_bytes. cbn. rewrite !Z2Nat.id by b64_bytes. repeat f_equal; b64_bytes.
Qed.

Lemma base64_group_length g : (0 < length g <= 3)%nat -> length (base64_group g) = 4%nat.
Proof. destruct g as [|? [|? [|? [|? ?]]]]; cbn [length]; try lia; done. Qed.

Lemma base64_loop_run fuel : forall data, (length data < fuel)%nat -> Forall is_byte data ->
  exists e, base64_loop fuel data = Some e /\ b64_decode e = Some data /\
            length e = (4 * ((length data + 2) / 3))%nat.
Proof.
  induction fuel as [|fuel IH]; intros data Hn Hb; [lia|]. cbn [base64_loop].
  destruct data as [|b0 [|b1 [|b2 data]]]; cbn [length] in Hn.
  - by exists [].
  - rewrite bool_decide_eq_false_2 by done. cbn [take drop].
    destruct fuel as [|fuel]; [cbn in Hn; lia|]. exists (base64_group [b0]).
    inversion_clear Hb. cbn [base64_loop bool_decide]. rewrite bool_decide_eq_true_2, app_nil_r by done.
    by rewrite decode_group1, base64_group_length by (done || cbn; lia).
  - rewrite bool_decide_eq_false_2 by done. cbn [take drop].
    destruct fuel as [|fuel]; [cbn in Hn; lia|]. exists (base64_group [b0; b1]).
    inversion_clear Hb as [|? ? H0 H1]. inversion_clear H1. cbn [base64_loop].
    rewrite bool_decide_eq_true_2, app_nil_r by done.
    by rewrite decode_group2, base64_group_length by (done || cbn; lia).
  - rewrite bool_decide_eq_false_2 by done. cbn [take drop]. rewrite take_0, drop_0.
    inversion_clear Hb as [|? ? H0 H1]. inversion_clear H1 as [|? ? H1' H2]. inversion_clear H2 as [|? ? H2' H3].
    destruct (IH data) as (e & -> & Hd & Hl); [lia|done|].
    exists (base64_group [b0; b1; b2] ++ e). split_and!; [done| |].
    + rewrite decode_group3, Hd by done. done.
    + rewrite length_app, base64_group_length, Hl by (cbn; lia).
      replace (length (b0 :: b1 :: b2 :: data) + 2)%nat with ((length data + 2) + 1 * 3)%nat by (cbn; lia).
      rewrite Nat.div_add by lia. lia.
Qed.

(** ** What searching finds *)
Lemma find_at_some {A} (P : list A -> bool) rest : forall i j, find_at P i rest = Some j ->
  exists a b, rest = a ++ b /\ j = (i + length a)%nat /\ P b = true /\
    (forall a1 a2, a = a1 ++ a2 -> a2 <> [] -> P (a2 ++ b) = false).
Proof.
  induction rest as [|c rest IH]; intros i j; cbn [find_at].
  - destruct (P []) eqn:E; [|done]. intros [= <-]. exists [], []. split_and!; [done|cbn; lia|done|].
    by intros [|] [|].
  - destruct (P (c :: rest)) eqn:E.
    + intros [= <-]. exists [], (c :: rest). split_and!; [done|cbn; lia|done|]. by intros [|] [|].
    + intros (a & b & -> & -> & HP & Hno)%IH. exists (c :: a), b. split_and!; [done|cbn; lia|done|].
      intros [|x a1] a2 Ha Ha2; [cbn in Ha; by subst a2|]. injection Ha as _ Ha. by apply (Hno a1).
Qed.

Lemma find_at_none {A} (P : list A -> bool) rest i : find_at P i rest = None ->
  forall a b, rest = a ++ b -> P b = false.
Proof.
  revert i. induction rest as [|c rest IH]; intros i; cbn [find_at].
  - destruct (P []) eqn:E; [done|]. intros _ [|] [|] ?; done.
  - destruct (P (c :: rest)) eqn:E; [done|]. intros H [|x a] b Hab; [by cbn in Hab; subst b|].
    injection Hab as _ Hab. by apply (IH _ H a).
Qed.

Lemma find_from_app {A} (P : list A -> bool) a b : find_from P (a ++ b) (length a) = find_at P (length a) b.
Proof. unfold find_from. rewrite decide_False by (rewrite length_app; lia). by rewrite drop_app_length. Qed.

(** ** Replacing, from left to right *)
Section Replace.
Context (P : list Z -> bool) (n : nat) (repl : list Z).
Context (n_pos : (0 < n)%nat) (P_long : forall s, P s = true -> (n <= length s)%nat).

(** The occurrences are taken from the left and do not overlap; [skip]
    counts what is left of the current one. *)
Fixpoint replaced (skip : nat) (s : list Z) : list Z :=
  match s with
  | [] => []
  | c :: s' => match skip with
               | S k => replaced k s'
               | O => if P s then repl ++ replaced (n - 1) s' else c :: replaced 0 s'
               end
  end.

Lemma replaced_skip k s : replaced k s = replaced 0 (drop k s).
Proof. revert k. induction s as [|c s IH]; intros [|k]; try done. cbn [replaced drop]. apply IH. Qed.

Lemma replaced_clean a b : (forall a1 a2, a = a1 ++ a2 -> a2 <> [] -> P (a2 ++ b) = false) ->
  replaced 0 (a ++ b) = a ++ replaced 0 b.
Proof.
  induction a as [|c a IH]; intros H; [done|]. cbn [app replaced].
  rewrite (H [] (c :: a) eq_refl ltac:(done) : P (c :: a ++ b) = false). f_equal.
  apply IH. intros a1 a2 -> Ha2. by apply (H (c :: a1)).
Qed.

Lemma replace_loop_eq fuel : forall a b, (length b < fuel)%nat ->
  replace_loop fuel P n repl (a ++ b) (find_from P (a ++ b) (length a)) = Some (a ++ replaced 0 b).
Proof.
  induction fuel as [|fuel IH]; intros a b Hf; [lia|]. cbn [replace_loop].
  rewrite find_from_app. destruct (find_at P (length a) b) as [j|] eqn:E.
  - apply find_at_some in E as (a' & b' & -> & -> & HP & Hno). pose proof (P_long _ HP).
    rewrite replaced_clean by done. destruct b' as [|c b']; [cbn in *; lia|].
    cbn [replaced]. rewrite HP, replaced_skip. unfold substr.
    rewrite !(app_assoc a), <- length_app, drop_0, take_app_length.
    replace (length (a ++ a') + n)%nat with (length ((a ++ a') ++ [c]) + (n - 1))%nat by (rewrite !length_app; cbn; lia).
    rewrite <- drop_drop. change (c :: b') with ([c] ++ b'). rewrite (app_assoc _ [c]), drop_app_length.
    rewrite <- length_app, !(app_assoc (a ++ a')).
    apply IH. rewrite length_drop, !length_app in *. cbn in *. lia.
  - pose proof (find_at_none _ _ _ E) as Hno. f_equal. f_equal.
    pose proof (replaced_clean b [] ltac:(intros a1 a2 -> _; apply (Hno a1); by rewrite app_nil_r)) as Hr.
    by rewrite !app_nil_r in Hr.
Qed.
End Replace.

Lemma is_prefix_long p s : is_prefix p s = true -> (length p <= length s)%nat.
Proof.
  revert s. induction p as [|x p IH]; intros [|y s] H; cbn in *; try lia; try done.
  apply andb_true_iff in H as [_ H]. apply IH in H. lia.
Qed.

Lemma is_prefix_nil s : is_prefix [] s = true.
Proof. by destruct s. Qed.

Lemma find_empty s pos : (pos <= length s)%nat -> find_from (is_prefix []) s pos = Some pos.
Proof.
  intros H. unfold find_from. rewrite decide_False by lia.
  destruct (drop pos s); cbn [find_at]; by rewrite is_prefix_nil.
Qed.

Lemma replace_empty_loops fuel : forall repl str i, (i <= length str)%nat ->
  replace_loop fuel (is_prefix []) 0 repl str (Some i) = None.
Proof.
  induction fuel as [|fuel IH]; intros repl str i Hi; [done|]. cbn [replace_loop].
  rewrite find_empty; [apply IH|]; unfold substr; rewrite !length_app, length_take, !length_drop; lia.
Qed.

(** ** Splitting *)

(** Cutting at the first [k] delimiters. *)
Fixpoint pieces (P : Z -> bool) (k : nat) (cur s : list Z) : list (list Z) :=
  match s with
  | [] => [cur]
  | c :: s => match k with
              | S k' => if P c then cur :: pieces P k' [] s else pieces P k (cur ++ [c]) s
              | O => pieces P k (cur ++ [c]) s
              end
  end.

(** How many cuts [max] allows: none counts as no limit, and so does one. *)
Definition cuts (max : Z) (str : list Z) : nat :=
  if 2 <=? max then Z.to_nat (max - 1) else length str.

Lemma pieces_0 P s : forall cur, pieces P 0 cur s = [cur ++ s].
Proof. induction s as [|c s IH]; intros cur; cbn; [by rewrite app_nil_r|]. rewrite IH, <- app_assoc. done. Qed.

Lemma pieces_clean P k a b : forall cur, Forall (fun c => P c = false) a ->
  pieces P k cur (a ++ b) = pieces P k (cur ++ a) b.
Proof.
  induction a as [|c a IH]; intros cur Ha; [by rewrite app_nil_r|].
  inversion_clear Ha as [|? ? Hc Ha']. cbn [app pieces].
  destruct k; [|rewrite Hc]; rewrite IH by done; by rewrite <- app_assoc.
Qed.

Lemma find_head_some P i j rest : find_at (head_in P) i rest = Some j ->
  exists a d b, rest = a ++ d :: b /\ j = (i + length a)%nat /\ P d = true /\ Forall (fun c => P c = false) a.
Proof.
  intros (a & b & -> & -> & HP & Hno)%find_at_some. destruct b as [|d b]; [done|].
  exists a, d, b. split_and!; [done|done|done|]. apply Forall_forall. intros c Hc.
  apply list_elem_of_In, list_elem_of_split in Hc as (l1 & l2 & ->). by apply (Hno l1 (c :: l2)).
Qed.

Lemma find_head_none P i rest : find_at (head_in P) i rest = None -> Forall (fun c => P c = false) rest.
Proof.
  intros H. apply Forall_forall. intros c Hc.
  apply list_elem_of_In, list_elem_of_split in Hc as (l1 & l2 & ->). by apply (find_at_none _ _ _ H l1 (c :: l2)).
Qed.

(** What is left of [max] against the cuts that are left. *)
Definition cuts_left (max : Z) (k : nat) (rest : list Z) : Prop :=
  2 <= max < 2 ^ 64 /\ (Z.of_nat k = max - 1 \/ (zlen rest <= Z.of_nat k /\ zlen rest < max - 1)) \/
  0 <= max < 2 /\ zlen rest <= Z.of_nat k /\ zlen rest < 2 ^ 64 - 2.

Lemma cuts_left_next max k a d b : cuts_left max k (a ++ d :: b) -> (k <> 0)%nat ->
  if u64 (max - 1) =? 1 then k = 1%nat else cuts_left (u64 (max - 1)) (k - 1) b.
Proof.
  unfold cuts_left. rewrite length_app. cbn [length]. intros H Hk.
  destruct (Z.eq_dec max 0) as [->|Hm].
  - change (u64 (0 - 1)) with (2 ^ 64 - 1). change (2 ^ 64 - 1 =? 1) with false. cbn iota. lia.
  - rewrite (uwrap_id 64 (max - 1)) by (unfold in_u; lia). destruct (Z.eqb_spec (max - 1) 1); lia.
Qed.

Lemma split_loop_eq P k : forall fuel a b max result, (length b < fuel)%nat -> cuts_left max k b ->
  split_loop fuel P (a ++ b) (length a) max (find_from (head_in P) (a ++ b) (length a)) result =
  Some (result ++ pieces P k [] b).
Proof.
  induction k as [|k IH]; intros [|fuel] a b max result Hf Hk; try lia; cbn [split_loop];
    rewrite find_from_app; destruct (find_at (head_in P) (length a) b) as [j|] eqn:E.
  - apply find_head_some in E as (a' & d & b' & -> & -> & Hd & Ha').
    unfold cuts_left in Hk. rewrite length_app in Hk. cbn [length] in Hk. lia.
  - by rewrite drop_app_length, pieces_0.
  - apply find_head_some in E as (a' & d & b' & -> & -> & Hd & Ha').
    pose proof (cuts_left_next _ _ _ _ _ Hk ltac:(done)) as Hk'. rewrite pieces_clean by done.
    cbn [pieces app]. rewrite Hd. unfold substr. rewrite drop_app_length.
    replace (length a + length a' - length a)%nat with (length a') by lia. rewrite take_app_length.
    assert (length a + length a' + 1 = length (a ++ a' ++ [d]))%nat as Hl by (rewrite !length_app; cbn; lia).
    assert (a ++ a' ++ d :: b' = (a ++ a' ++ [d]) ++ b') as -> by (by rewrite <- !app_assoc).
    rewrite Hl. destruct (u64 (max - 1) =? 1).
    + injection Hk' as ->. by rewrite drop_app_length, pieces_0, <- app_assoc.
    + rewrite IH; [by rewrite <- app_assoc|rewrite length_app in Hf; cbn in Hf; lia|].
      by replace (S k - 1)%nat with k in Hk' by lia.
  - rewrite drop_app_length. apply find_head_none in E. rewrite <- (app_nil_r b) at 2.
    by rewrite pieces_clean.
Qed.

Lemma cuts_left_init max str : 0 <= max < 2 ^ 64 -> zlen str < 2 ^ 64 - 2 -> cuts_left max (cuts max str) str.
Proof. intros Hm Hl. unfold cuts_left, cuts. destruct (Z.leb_spec 2 max); lia. Qed.

Lemma split_by_eq P str max : str <> [] -> 0 <= max < 2 ^ 64 -> zlen str < 2 ^ 64 - 2 ->
  split_by P str max = Some (pieces P (cuts max str) [] str).
Proof.
  intros Hs Hm Hl. unfold split_by. rewrite bool_decide_eq_false_2 by done.
  apply (split_loop_eq P (cuts max str) (S (length str)) [] str max []); [cbn; lia|by apply cuts_left_init].
Qed.

(** The pieces put together again. *)
Fixpoint join (sep : list Z) (l : list (list Z)) : list Z :=
  match l with
  | [] => []
  | [x] => x
  | x :: l => x ++ sep ++ join sep l
  end.

Lemma pieces_nonnil P k cur s : pieces P k cur s <> [].
Proof. revert k cur. induction s as [|c s IH]; intros [|k] cur; cbn; try done. by destruct (P c). Qed.

Lemma join_pieces d s : forall k cur, join [d] (pieces (is_char d) k cur s) = cur ++ s.
Proof.
  induction s as [|c s IH]; intros k cur; [cbn; by rewrite app_nil_r|].
  destruct k as [|k]; [by rewrite pieces_0|]. cbn [pieces].
  destruct (is_char d c) eqn:E; [|by rewrite IH, <- app_assoc].
  apply Z.eqb_eq in E as ->. destruct (pieces (is_char d) k [] s) eqn:E2; [by apply pieces_nonnil in E2|].
  rewrite <- E2 in *. specialize (IH k []). rewrite E2 in *.
  change (cur ++ [d] ++ join [d] (l :: l0) = cur ++ d :: s). by rewrite IH.
Qed.

Lemma pieces_length P s : forall k cur, (length (pieces P k cur s) <= S k)%nat.
Proof.
  induction s as [|c s IH]; intros [|k] cur; cbn; try lia; [apply IH|].
  destruct (P c); cbn; [|apply IH]. specialize (IH k []). lia.
Qed.

Lemma replace_cc_eq find repl fuel : forall a b, (length b < fuel)%nat ->
  replace_cc_loop fuel find repl (a ++ b) (find_from (head_in (is_char find)) (a ++ b) (length a)) =
  Some (a ++ map (fun c => if c =? find then repl else c) b).
Proof.
  assert (forall l, Forall (fun c => is_char find c = false) l ->
    map (fun c => if c =? find then repl else c) l = l) as Hclean.
  { induction 1 as [|c l Hc _ IH]; [done|]. cbn. unfold is_char in Hc. by rewrite Hc, IH. }
  induction fuel as [|fuel IH]; intros a b Hf; [lia|]. cbn [replace_cc_loop]. rewrite find_from_app.
  destruct (find_at _ (length a) b) as [j|] eqn:E.
  - apply find_head_some in E as (a' & d & b' & -> & -> & Hd & Ha').
    apply Z.eqb_eq in Hd as ->. rewrite app_assoc, <- length_app, insert_app_r_alt, Nat.sub_diag by lia.
    cbn [insert list_insert]. rewrite map_app, Hclean by done. cbn [map]. rewrite Z.eqb_refl.
    replace (length (a ++ a') + 1)%nat with (length ((a ++ a') ++ [repl])) by (rewrite !length_app; cbn; lia).
    replace ((a ++ a') ++ repl :: b') with (((a ++ a') ++ [repl]) ++ b') by (by rewrite <- !app_assoc).
    rewrite IH by (rewrite length_app in Hf; cbn in Hf; lia). by rewrite <- !app_assoc.
  - by rewrite Hclean by (by apply find_head_none in E).
Qed.

(** ** Properties *)

(** The encoders of util.cpp that copy the string only when something
    changes compute the character-by-character encoding and decoding, and
    UrlDecode gives back what UrlEncode was given, whether or not the spaces
    travelled as [+] (as long as the decoder is told). *)
Theorem url_roundtrip (p1 p2 : bool) s : (p1 = true -> p2 = true) -> Forall is_byte s ->
  UrlEncode s p1 = url_enc p1 s /\ (forall t, UrlDecode t p2 = url_dec p2 t) /\
  UrlDecode (UrlEncode s p1) p2 = s.
Proof.
  intros Hp Hs. split_and!; [apply UrlEncode_eq|intros; apply UrlDecode_eq|].
  rewrite UrlEncode_eq, UrlDecode_eq. by apply url_dec_enc.
Qed.

Example url_roundtrip_witness :
  UrlEncode (lit "a b+c/%") true = lit "a+b%2Bc%2F%25" /\
  UrlDecode (UrlEncode (lit "a b+c/%") true) true = lit "a b+c/%".
Proof.
  split; [vm_compute; reflexivity|].
  destruct (url_roundtrip true true (lit "a b+c/%")) as (_ & _ & H); [done| |exact H]. by_computation.
Defined.

(** Base64encode terminates on every string; its result has four
    characters for every three bytes begun, and a decoder in the sense of RFC
    4648 turns it back into the string. *)
Theorem base64_roundtrip data : Forall is_byte data ->
  exists e, base64encode data = Some e /\ b64_decode e = Some data /\
            length e = (4 * ((length data + 2) / 3))%nat.
Proof. intros H. apply base64_loop_run; [lia|done]. Qed.

Example base64_roundtrip_witness :
  base64encode (lit "light w") = Some (lit "bGlnaHQgdw==") /\
  exists e, base64encode (lit "light w") = Some e /\ b64_decode e = Some (lit "light w") /\ length e = 12%nat.
Proof.
  split; [vm_compute; reflexivity|].
  destruct (base64_roundtrip (lit "light w")) as (e & H1 & H2 & H3); [by_computation|]. by exists e.
Defined.

(** Replace takes the occurrences of a pattern from the left without
    overlap, however the replacement may create new ones, and terminates in at
    most one round per character; with an empty pattern it never returns. *)
Theorem replace_exact s c r find repl fuel : (length s < fuel)%nat ->
  replace_cc s c r = Some (map (fun x => if x =? c then r else x) s) /\
  replace_cs fuel s c repl = Some (replaced (head_in (is_char c)) 1 repl 0 s) /\
  (find <> [] -> replace_ss fuel s find repl = Some (replaced (is_prefix find) (length find) repl 0 s)) /\
  (find = [] -> forall n, replace_ss n s find repl = None).
Proof.
  intros Hf. split_and!.
  - apply (replace_cc_eq c r (S (length s)) [] s). lia.
  - apply (replace_loop_eq (head_in (is_char c)) 1 repl) with (a := []); [lia| |done].
    intros [|x l]; [done|]. cbn. lia.
  - intros Hfind. apply (replace_loop_eq (is_prefix find) (length find) repl) with (a := []); [|by apply is_prefix_long|done].
    destruct find; [done|]. cbn. lia.
  - intros -> n. unfold replace_ss. rewrite find_empty by lia. apply replace_empty_loops. lia.
Qed.

Example replace_exact_witness :
  replaced (is_prefix (lit "aa")) 2 (lit "aab") 0 (lit "aaaa") = lit "aabaab" /\
  replace_ss 9 (lit "aaaa") (lit "aa") (lit "aab") = Some (lit "aabaab") /\
  (forall n, replace_ss n (lit "aaaa") [] (lit "b") = None).
Proof.
  split; [vm_compute; reflexivity|].
  destruct (replace_exact (lit "aaaa") 97 98 (lit "aa") (lit "aab") 9) as (_ & _ & H & _); [vm_compute; lia|].
  destruct (replace_exact (lit "aaaa") 97 98 [] (lit "b") 9) as (_ & _ & _ & H2); [vm_compute; lia|].
  split; [rewrite H by done; vm_compute; reflexivity|by apply H2].
Defined.

(** Split cuts a non-empty string at its first [max - 1] delimiters, or at
    all of them when [max] is 0 or 1 (one is no limit either, although it asks
    for a single piece); the pieces joined by the delimiter are the string. *)
Theorem split_exact str delim delims max :
  str <> [] -> 0 <= max < 2 ^ 64 -> zlen str < 2 ^ 64 - 2 ->
  split str delim max = Some (pieces (is_char delim) (cuts max str) [] str) /\
  split_any str delims max = Some (pieces (one_of delims) (cuts max str) [] str) /\
  join [delim] (pieces (is_char delim) (cuts max str) [] str) = str /\
  (2 <= max -> zlen (pieces (is_char delim) (cuts max str) [] str) <= max).
Proof.
  intros Hs Hm Hl. split_and!; [by apply split_by_eq|by apply split_by_eq|apply join_pieces|].
  intros H2. pose proof (pieces_length (is_char delim) str (cuts max str) []) as H.
  unfold cuts in *. destruct (Z.leb_spec 2 max); lia.
Qed.

Example split_exact_witness :
  split (lit "a,b,,c") 44 2 = Some [lit "a"; lit "b,,c"] /\
  split (lit "a,b,,c") 44 1 = Some [lit "a"; lit "b"; []; lit "c"] /\
  exists l, split (lit "a,b,,c") 44 1 = Some l /\ join [44] l = lit "a,b,,c".
Proof.
  split; [vm_compute; reflexivity|]. split; [vm_compute; reflexivity|].
  destruct (split_exact (lit "a,b,,c") 44 [] 1) as (H1 & _ & H2 & _); [done|lia|by_computation|].
  by exists (pieces (is_char 44) (cuts 1 (lit "a,b,,c")) [] (lit "a,b,,c")).
Defined.
