(* ===== verification/Fiber.v ===== *)
(** fiber.cpp: fibers, their status and the switches between them.

    A fiber is named by its address, a [std::function] by a number.  The
    objects and the two global counters are shared; every thread has its main
    fiber, its current fiber and, from scheduler.cpp, its scheduling fiber.
    The machine context itself (ucontext, fcontext or coctx) is which fiber's
    stack the thread executes. *)
From stdpp Require Import gmap.
From S2P Require Import Prelude.

Inductive Status := INIT | EXEC | HOLD | READY | TERM | EXCEPT.

#[export] Instance Status_eq_dec : EqDecision Status.
Proof. solve_decision. Defined.

Record Fiber := mkFiber {
  _fiber_id : Z; _status : Status; _stack_size : Z; _func : option nat; _user_caller : bool
}.

Definition set_status (s : Status) (f : Fiber) : Fiber :=
  mkFiber (_fiber_id f) s (_stack_size f) (_func f) (_user_caller f).
Definition set_func (g : option nat) (f : Fiber) : Fiber :=
  mkFiber (_fiber_id f) (_status f) (_stack_size f) g (_user_caller f).

Record Fibers := mkFibers { heap : gmap nat Fiber; s_total_num : Z; s_fiber_id : Z }.

(** [context]: the fiber whose stack is executed. *)
Record Thread := mkThread {
  t_main_fiber : option nat; t_cur_fiber : option nat; t_scheduler_fiber : option nat; context : option nat
}.

Section fiber.
(** [fiber.stack_size] *)
Context (g_fiber_stack_size : Z).

Definition on_heap (h : gmap nat Fiber -> gmap nat Fiber) : M (Fibers * Thread) unit :=
  modify (fun '(s, t) => (mkFibers (h (heap s)) (s_total_num s) (s_fiber_id s), t)).

(** Access through a pointer. *)
Definition at_fiber (p : option nat) : M (Fibers * Thread) (nat * Fiber) :=
  '(s, _) ← get;
  match p with
  | Some p => match heap s !! p with Some f => mret (p, f) | None => undef NullDeref end
  | None => undef NullDeref
  end.

Definition SetThis (ts : option nat) : M (Fibers * Thread) unit :=
  modify (fun '(s, t) => (s, mkThread (t_main_fiber t) ts (t_scheduler_fiber t) (context t))).

Definition GetScheduleFiber : M (Fibers * Thread) (option nat) := '(_, t) ← get; mret (t_scheduler_fiber t).

(** [swapcontext], from the running stack to that of [p]. *)
Definition switch (p : option nat) : M (Fibers * Thread) unit :=
  '(p, _) ← at_fiber p;
  modify (fun '(s, t) => (s, mkThread (t_main_fiber t) (t_cur_fiber t) (t_scheduler_fiber t) (Some p))).

Definition status_to (s : Status) (p : nat) : M (Fibers * Thread) unit := on_heap (alter (set_status s) p).

(** The constructor of a thread's main fiber, at the fresh address [p]. *)
Definition NewMainFiber (p : nat) : M (Fibers * Thread) unit :=
  on_heap <[p := mkFiber 0 EXEC 0 None false]>;;
  SetThis (Some p);;
  modify (fun '(s, t) => (mkFibers (heap s) (s_total_num s + 1) (s_fiber_id s), t)).

(** [NewFiber(stack_size, func, use_caller)] *)
Definition NewFiber (p : nat) (stack_size : Z) (func : option nat) (use_caller : bool) : M (Fibers * Thread) unit :=
  let stack_size := if stack_size =? 0 then g_fiber_stack_size else stack_size in
  modify (fun '(s, t) => (mkFibers (heap s) (s_total_num s) (s_fiber_id s + 1), t));;
  '(s, _) ← get;
  on_heap <[p := mkFiber (s_fiber_id s) INIT stack_size func use_caller]>;;
  modify (fun '(s, t) => (mkFibers (heap s) (s_total_num s + 1) (s_fiber_id s), t)).

(** The destructor, and the memory. *)
Definition FreeFiber (p : nat) : M (Fibers * Thread) unit :=
  '(_, f) ← at_fiber (Some p);
  modify (fun '(s, t) => (mkFibers (heap s) (s_total_num s - 1) (s_fiber_id s), t));;
  (if negb (_stack_size f =? 0) then
     assert (bool_decide (_status f = EXCEPT) || bool_decide (_status f = INIT) || bool_decide (_status f = TERM))
   else
     assert (bool_decide (_func f = None));;
     assert (bool_decide (_status f = EXEC));;
     '(_, t) ← get;
     if bool_decide (t_cur_fiber t = Some p) then SetThis None else mret tt);;
  on_heap (delete p).

Definition SwapIn (p : nat) : M (Fibers * Thread) unit :=
  '(_, f) ← at_fiber (Some p);
  assert (bool_decide (_status f <> EXEC));;
  SetThis (Some p);;
  status_to EXEC p;;
  sf ← GetScheduleFiber;
  _ ← at_fiber sf;
  switch (Some p).

Definition Call (p : nat) : M (Fibers * Thread) unit :=
  SetThis (Some p);;
  status_to EXEC p;;
  '(_, t) ← get;
  _ ← at_fiber (t_main_fiber t);
  switch (Some p).

Definition SwapOut : M (Fibers * Thread) unit :=
  sf ← GetScheduleFiber;
  SetThis sf;;
  switch sf.

Definition Back : M (Fibers * Thread) unit :=
  '(_, t) ← get;
  SetThis (t_main_fiber t);;
  switch (t_main_fiber t).

(** [GetThis], with the address of the main fiber it may have to create. *)
Definition GetThis (fresh : nat) : M (Fibers * Thread) nat :=
  '(_, t) ← get;
  match t_cur_fiber t with
  | Some p => mret p
  | None =>
    NewMainFiber fresh;;
    modify (fun '(s, t) => (s, mkThread (Some fresh) (t_cur_fiber t) (t_scheduler_fiber t) (context t)));;
    mret fresh
  end.

Definition YieldToHold (fresh : nat) : M (Fibers * Thread) unit :=
  p ← GetThis fresh;
  '(_, fb) ← at_fiber (Some p);
  assert (bool_decide (_status fb = EXEC));;
  SwapOut.

Definition YieldToReady (fresh : nat) : M (Fibers * Thread) unit :=
  p ← GetThis fresh;
  '(_, fb) ← at_fiber (Some p);
  assert (bool_decide (_status fb = EXEC));;
  status_to READY p;;
  SwapOut.

Definition Reset (p : nat) (func : option nat) : M (Fibers * Thread) unit :=
  '(_, f) ← at_fiber (Some p);
  assert (bool_decide (_status f = INIT) || bool_decide (_status f = EXCEPT) || bool_decide (_status f = TERM));;
  on_heap (alter (set_func func) p);;
  status_to INIT p.

Definition GetFiberId : M (Fibers * Thread) Z :=
  '(_, t) ← get;
  match t_cur_fiber t with
  | Some p => '(_, f) ← at_fiber (Some p); mret (_fiber_id f)
  | None => mret 0
  end.

(** The end of [MainFunc] and [CallerMainFunc]: the function returned or threw. *)
Definition MainFunc_end (fresh : nat) (threw : bool) : M (Fibers * Thread) unit :=
  cur ← GetThis fresh;
  '(_, f) ← at_fiber (Some cur);
  on_heap (alter (set_func None) cur);;
  status_to (if threw then EXCEPT else TERM) cur;;
  if _user_caller f then Back else SwapOut.
End fiber.

(** ** Accounting *)

(** Every object has an entry, sub-fibers have distinct positive ids below the
    counter, and the total is the number of objects. *)
Record fibers_ok (s : Fibers) : Prop := {
  fo_next : 0 <= s_fiber_id s;
  fo_total : s_total_num s = Z.of_nat (size (heap s));
  fo_ids : forall p f, heap s !! p = Some f -> 0 <= _fiber_id f <= s_fiber_id s /\
    (_stack_size f <> 0 -> 0 < _fiber_id f);
  fo_unique : forall p q f g, heap s !! p = Some f -> heap s !! q = Some g ->
    0 < _fiber_id f -> _fiber_id f = _fiber_id g -> p = q
}.

Definition Fibers_new : Fibers := mkFibers ∅ 0 0.

(** What a switch needs: the scheduling fiber is an object. *)
Definition thread_ok (s : Fibers) (t : Thread) : Prop :=
  exists sf f, t_scheduler_fiber t = Some sf /\ heap s !! sf = Some f.

Definition ids_of (f g : Fiber) : Prop := _fiber_id f = _fiber_id g /\ _stack_size f = _stack_size g.

Lemma fibers_ok_alter s h p :
  (forall f, ids_of (h f) f) -> fibers_ok s ->
  fibers_ok (mkFibers (alter h p (heap s)) (s_total_num s) (s_fiber_id s)).
Proof.
  intros Hh [Hn Ht Hi Hu].
  assert (forall q f, alter h p (heap s) !! q = Some f -> exists f0, heap s !! q = Some f0 /\ ids_of f f0) as Hold.
  { intros q f. destruct (decide (q = p)) as [->|Hq].
    - rewrite lookup_alter_eq. destruct (heap s !! p); [|done]. intros [= <-]. by eexists.
    - rewrite lookup_alter_ne by done. intros ->. by exists f. }
  split; cbn; [done|..].
  - by rewrite Ht, <- !size_dom, dom_alter_L.
  - intros q f (f0 & H0 & E1 & E2)%Hold. rewrite E1, E2. eauto.
  - intros q1 q2 f g (f0 & H0 & E1 & E2)%Hold (g0 & H1 & E3 & E4)%Hold. rewrite E1, E3. eauto.
Qed.

Lemma fibers_ok_insert s p f n :
  fibers_ok s -> heap s !! p = None -> s_fiber_id s <= n -> 0 <= _fiber_id f <= n ->
  (_stack_size f <> 0 -> s_fiber_id s < _fiber_id f) -> (0 < _fiber_id f -> s_fiber_id s < _fiber_id f) ->
  fibers_ok (mkFibers (<[p := f]> (heap s)) (s_total_num s + 1) n).
Proof.
  intros [H0 Ht Hi Hu] Hp Hn Hf Hs Hpos. split; cbn; [lia|..].
  - rewrite map_size_insert_None by done. lia.
  - intros q g. rewrite lookup_insert_Some. intros [[<- <-]|[_ Hg]]; [split; [done|lia]|].
    apply Hi in Hg. split; [lia|apply Hg].
  - intros q1 q2 g1 g2. rewrite !lookup_insert_Some.
    intros [[<- <-]|[H1 Hg1]] [[<- <-]|[H2 Hg2]] Hlt; try done.
    + apply Hi in Hg2. lia.
    + apply Hi in Hg1. lia.
    + by apply (Hu q1 q2 g1 g2).
Qed.

Lemma fibers_ok_delete s p f :
  fibers_ok s -> heap s !! p = Some f ->
  fibers_ok (mkFibers (delete p (heap s)) (s_total_num s - 1) (s_fiber_id s)).
Proof.
  intros [Hn Ht Hi Hu] Hp. split; cbn; [done|..].
  - rewrite map_size_delete_Some by (by exists f).
    pose proof (map_size_ne_0_lookup_2 (heap s) p ltac:(by exists f)). lia.
  - intros q g [_ Hg]%lookup_delete_Some. by apply Hi in Hg.
  - intros q1 q2 g1 g2 [_ H1]%lookup_delete_Some [_ H2]%lookup_delete_Some. by apply Hu.
Qed.

(** ** What the operations do *)
Section run.
Context (stack : Z) (s : Fibers) (t : Thread).

Definition with_heap h : Fibers := mkFibers h (s_total_num s) (s_fiber_id s).
Definition at_ cur ctx : Thread := mkThread (t_main_fiber t) cur (t_scheduler_fiber t) ctx.

Lemma at_fiber_ok p f : heap s !! p = Some f -> at_fiber (Some p) (s, t) = (Ok (p, f), (s, t)).
Proof. intros H. unfold at_fiber, mbind, M_bind, get. by rewrite H. Qed.
End run.

Lemma on_heap_eq h s t : on_heap h (s, t) = (Ok tt, (with_heap s (h (heap s)), t)).
Proof. done. Qed.

Lemma switch_ok s t p f :
  heap s !! p = Some f -> switch (Some p) (s, t) = (Ok tt, (s, at_ t (t_cur_fiber t) (Some p))).
Proof. intros H. unfold switch. by step (at_fiber_ok s t p f H). Qed.

Lemma assert_dec {S} (P : Prop) `{!Decision P} (s : S) : P -> assert (bool_decide P) s = (Ok tt, s).
Proof. intros. by apply assert_true, bool_decide_eq_true_2. Qed.

Lemma SwapIn_ok s t p f sf g :
  heap s !! p = Some f -> _status f <> EXEC -> t_scheduler_fiber t = Some sf -> heap s !! sf = Some g ->
  SwapIn p (s, t) = (Ok tt, (with_heap s (alter (set_status EXEC) p (heap s)), at_ t (Some p) (Some p))).
Proof.
  intros Hp Hst Hsf Hg. unfold SwapIn. step (at_fiber_ok s t p f Hp). step (assert_dec _ (s, t) Hst).
  set (s1 := with_heap s (alter (set_status EXEC) p (heap s))). set (t1 := at_ t (Some p) (context t)).
  assert (heap s1 !! p = Some (set_status EXEC f)) as Hp1 by (cbn; by rewrite lookup_alter_eq, Hp).
  assert (exists g1, heap s1 !! sf = Some g1) as [g1 Hg1].
  { apply lookup_alter_is_Some. by exists g. }
  step (eq_refl : SetThis (Some p) (s, t) = (Ok tt, (s, t1))).
  step (eq_refl : status_to EXEC p (s, t1) = (Ok tt, (s1, t1))).
  step (eq_refl : GetScheduleFiber (s1, t1) = (Ok (t_scheduler_fiber t), (s1, t1))).
  rewrite Hsf. step (at_fiber_ok s1 t1 sf g1 Hg1). by rewrite (switch_ok s1 t1 p _ Hp1).
Qed.

Lemma SwapOut_ok s t sf g :
  t_scheduler_fiber t = Some sf -> heap s !! sf = Some g ->
  SwapOut (s, t) = (Ok tt, (s, at_ t (Some sf) (Some sf))).
Proof.
  intros Hsf Hg. unfold SwapOut.
  step (eq_refl : GetScheduleFiber (s, t) = (Ok (t_scheduler_fiber t), (s, t))). rewrite Hsf.
  step (eq_refl : SetThis (Some sf) (s, t) = (Ok tt, (s, at_ t (Some sf) (context t)))).
  by rewrite (switch_ok s _ sf g Hg).
Qed.

Lemma GetThis_ok fresh s t p : t_cur_fiber t = Some p -> GetThis fresh (s, t) = (Ok p, (s, t)).
Proof. intros H. unfold GetThis, mbind, M_bind, get. by rewrite H. Qed.

Lemma YieldToHold_ok fresh s t p f sf g :
  t_cur_fiber t = Some p -> heap s !! p = Some f -> _status f = EXEC ->
  t_scheduler_fiber t = Some sf -> heap s !! sf = Some g ->
  YieldToHold fresh (s, t) = (Ok tt, (s, at_ t (Some sf) (Some sf))).
Proof.
  intros Hc Hp Hst Hsf Hg. unfold YieldToHold. step (GetThis_ok fresh s t p Hc).
  step (at_fiber_ok s t p f Hp). step (assert_dec _ (s, t) Hst).
  by apply SwapOut_ok with g.
Qed.

Lemma YieldToReady_ok fresh s t p f sf g :
  t_cur_fiber t = Some p -> heap s !! p = Some f -> _status f = EXEC ->
  t_scheduler_fiber t = Some sf -> heap s !! sf = Some g -> sf <> p ->
  YieldToReady fresh (s, t) = (Ok tt, (with_heap s (alter (set_status READY) p (heap s)), at_ t (Some sf) (Some sf))).
Proof.
  intros Hc Hp Hst Hsf Hg Hn. unfold YieldToReady. step (GetThis_ok fresh s t p Hc).
  step (at_fiber_ok s t p f Hp). step (assert_dec _ (s, t) Hst).
  step (on_heap_eq (alter (set_status READY) p) s t).
  by rewrite (SwapOut_ok _ _ sf g) by (cbn; rewrite ?lookup_alter_ne by done; done).
Qed.

Lemma MainFunc_end_ok fresh threw s t p f sf g :
  t_cur_fiber t = Some p -> heap s !! p = Some f -> _user_caller f = false ->
  t_scheduler_fiber t = Some sf -> heap s !! sf = Some g -> sf <> p ->
  MainFunc_end fresh threw (s, t) =
    (Ok tt, (with_heap s (alter (fun f => set_status (if threw then EXCEPT else TERM) (set_func None f)) p (heap s)),
             at_ t (Some sf) (Some sf))).
Proof.
  intros Hc Hp Hu Hsf Hg Hn. unfold MainFunc_end. step (GetThis_ok fresh s t p Hc).
  step (at_fiber_ok s t p f Hp). rewrite Hu.
  step (on_heap_eq (alter (set_func None) p) s t).
  step (on_heap_eq (alter (set_status (if threw then EXCEPT else TERM)) p) (with_heap s (alter (set_func None) p (heap s))) t).
  rewrite (SwapOut_ok _ _ sf g) by (cbn; rewrite ?lookup_alter_ne by done; done).
  unfold with_heap. cbn. by rewrite alter_alter_eq.
Qed.

Lemma Reset_ok p func s t f :
  heap s !! p = Some f -> _status f = INIT \/ _status f = EXCEPT \/ _status f = TERM ->
  Reset p func (s, t) = (Ok tt, (with_heap s (alter (fun f => set_status INIT (set_func func f)) p (heap s)), t)).
Proof.
  intros Hp Hst. unfold Reset. step (at_fiber_ok s t p f Hp).
  assert (bool_decide (_status f = INIT) || bool_decide (_status f = EXCEPT) || bool_decide (_status f = TERM) = true) as Hb.
  { rewrite !orb_true_iff, !bool_decide_eq_true. tauto. }
  step (assert_true _ (s, t) Hb).
  step (on_heap_eq (alter (set_func func) p) s t). unfold status_to. rewrite on_heap_eq.
  unfold with_heap. cbn. by rewrite alter_alter_eq.
Qed.

Lemma NewFiber_ok stack p size func uc s t :
  NewFiber stack p size func uc (s, t) =
    (Ok tt, (mkFibers (<[p := mkFiber (s_fiber_id s + 1) INIT (if size =? 0 then stack else size) func uc]> (heap s))
               (s_total_num s + 1) (s_fiber_id s + 1), t)).
Proof. done. Qed.

(** ** Every operation keeps the accounts *)
Inductive fiber_op :=
  | OMain (p : nat) | ONew (p : nat) (size : Z) (func : option nat) (use_caller : bool) | OFree (p : nat)
  | OSwapIn (p : nat) | OCall (p : nat) | OSwapOut | OBack | OHold (fresh : nat) | OReady (fresh : nat)
  | OReset (p : nat) (func : option nat) | OEnd (fresh : nat) (threw : bool).

Definition do_op (stack : Z) (o : fiber_op) : M (Fibers * Thread) unit :=
  match o with
  | OMain p => NewMainFiber p
  | ONew p size func uc => NewFiber stack p size func uc
  | OFree p => FreeFiber p
  | OSwapIn p => SwapIn p
  | OCall p => Call p
  | OSwapOut => SwapOut
  | OBack => Back
  | OHold fresh => YieldToHold fresh
  | OReady fresh => YieldToReady fresh
  | OReset p func => Reset p func
  | OEnd fresh threw => MainFunc_end fresh threw
  end.

(** Addresses of new objects are not in use. *)
Definition op_fresh (o : fiber_op) (s : Fibers) : Prop :=
  match o with
  | OMain p | ONew p _ _ _ | OHold p | OReady p | OEnd p _ => heap s !! p = None
  | _ => True
  end.

(** What holds of the objects after a program that succeeds. *)
Definition triple {A} (P : Fibers -> Prop) (m : M (Fibers * Thread) A) (Q : Fibers -> Prop) : Prop :=
  forall s t a s' t', m (s, t) = (Ok a, (s', t')) -> P s -> Q s'.

Lemma triple_bind {A B} P R Q (m : M (Fibers * Thread) A) (f : A -> M (Fibers * Thread) B) :
  triple P m R -> (forall a, triple R (f a) Q) -> triple P (m ≫= f) Q.
Proof. intros Hm Hf s t b s' t' (a & [s1 t1] & E1 & E2)%bind_inv Hs. eapply Hf; [exact E2|]. by eapply Hm. Qed.

Lemma triple_ret {A} I (a : A) : triple I (mret a) I.
Proof. by intros s t b s' t' [= _ <- _]. Qed.

Lemma triple_get I : triple I get I.
Proof. by intros s t b s' t' [= _ <- _]. Qed.

Lemma triple_undef {A} P Q u : triple P (undef u : M (Fibers * Thread) A) Q.
Proof. done. Qed.

Lemma triple_assert I b : triple I (assert b) I.
Proof. intros s t a s' t'. unfold assert. by destruct b; intros [= _ <- _]. Qed.

Lemma triple_thread I (g : Thread -> Thread) : triple I (modify (fun '(s, t) => (s, g t))) I.
Proof. by intros s t b s' t' [= _ <- _]. Qed.

Lemma triple_alter h p : (forall f, ids_of (h f) f) -> triple fibers_ok (on_heap (alter h p)) fibers_ok.
Proof. intros Hh s t b s' t' [= _ <- _] Hs. by apply fibers_ok_alter. Qed.

Lemma triple_at_fiber I p : triple I (at_fiber p) I.
Proof.
  eapply triple_bind; [apply triple_get|]. intros [s t]. destruct p as [p|]; [|apply triple_undef].
  destruct (heap s !! p); [apply triple_ret|apply triple_undef].
Qed.

Lemma triple_switch I p : triple I (switch p) I.
Proof. eapply triple_bind; [apply triple_at_fiber|]. intros [q f]. apply triple_thread. Qed.

Lemma triple_status v p : triple fibers_ok (status_to v p) fibers_ok.
Proof. by apply triple_alter. Qed.

Lemma triple_SetThis I p : triple I (SetThis p) I.
Proof. apply triple_thread. Qed.

Lemma triple_GetScheduleFiber I : triple I GetScheduleFiber I.
Proof. eapply triple_bind; [apply triple_get|]. intros [s t]. apply triple_ret. Qed.

Lemma triple_SwapOut I : triple I SwapOut I.
Proof.
  eapply triple_bind; [apply triple_GetScheduleFiber|]. intros sf.
  eapply triple_bind; [apply triple_SetThis|]. intros _. apply triple_switch.
Qed.

#[local] Hint Resolve triple_ret triple_get triple_undef triple_assert triple_at_fiber triple_switch triple_status
  triple_SetThis triple_GetScheduleFiber triple_SwapOut : triples.

(** A chain of operations that keep an assertion. *)
Ltac keep := repeat first
  [ progress eauto with triples
  | eapply triple_bind; [solve [eauto with triples]|]; intros []; cbn beta iota
  | eapply triple_bind; [solve [eauto with triples]|]; intros ?; cbn beta iota
  | eapply triple_bind; [apply triple_alter; done|]; intros _
  | apply triple_alter; done ].

Lemma triple_NewMainFiber p :
  triple (fun s => fibers_ok s /\ heap s !! p = None) (NewMainFiber p) fibers_ok.
Proof.
  intros s t a s' t' [= _ <- _] [Hs Hp]. pose proof (fo_next _ Hs).
  apply (fibers_ok_insert s p (mkFiber 0 EXEC 0 None false) (s_fiber_id s)); cbn; done || lia.
Qed.

Lemma triple_GetThis p : triple (fun s => fibers_ok s /\ heap s !! p = None) (GetThis p) fibers_ok.
Proof.
  eapply triple_bind; [apply triple_get|]. intros [s t]. destruct (t_cur_fiber t).
  - by intros s1 t1 a s' t' [= _ <- _] [? _].
  - eapply triple_bind; [apply triple_NewMainFiber|]. intros _.
    eapply triple_bind; [apply triple_thread|]. intros _. apply triple_ret.
Qed.

Lemma triple_FreeFiber p : triple fibers_ok (FreeFiber p) fibers_ok.
Proof.
  intros s t a s' t' ([q f] & [s1 t1] & E1 & E)%bind_inv Hs.
  unfold at_fiber, mbind, M_bind, get in E1. cbn in E1. destruct (heap s !! p) as [f0|] eqn:Hp; [|done].
  injection E1 as <- <- <- <-. apply bind_inv in E as ([] & [s2 t2] & E2 & E). injection E2 as <- <-.
  apply bind_inv in E as ([] & [s3 t3] & E3 & E).
  rewrite on_heap_eq in E.
  assert (s3 = mkFibers (heap s) (s_total_num s - 1) (s_fiber_id s)) as ->.
  { set (I := fun s' => s' = mkFibers (heap s) (s_total_num s - 1) (s_fiber_id s)).
    match type of E3 with ?m _ = _ => assert (triple I m I) as Hm; [|by eapply (Hm _ _ _ _ _ E3)] end.
    destruct (negb _); keep. destruct (bool_decide (t_cur_fiber _ = _)); keep. }
  injection E as _ <- _. by apply (fibers_ok_delete s p f0).
Qed.

Lemma do_op_keeps stack o :
  triple (fun s => fibers_ok s /\ op_fresh o s) (do_op stack o) fibers_ok.
Proof.
  assert (forall m : M (Fibers * Thread) unit, triple fibers_ok m fibers_ok ->
    triple (fun s => fibers_ok s /\ op_fresh o s) m fibers_ok) as Hdrop.
  { intros m Hm s t a s' t' E [Hs _]. by eapply Hm. }
  destruct o as [p|p size func uc|p|p|p| | |fresh|fresh|p func|fresh threw]; cbn [do_op op_fresh] in *.
  - apply triple_NewMainFiber.
  - intros s t a s' t' [= _ <- _] [Hs Hp]. pose proof (fo_next _ Hs).
    apply (fibers_ok_insert s p (mkFiber _ _ _ _ _) (s_fiber_id s + 1)); cbn; done || lia.
  - apply Hdrop, triple_FreeFiber.
  - apply Hdrop. unfold SwapIn. keep.
  - apply Hdrop. unfold Call. keep.
  - apply Hdrop. keep.
  - apply Hdrop. unfold Back. keep.
  - eapply triple_bind; [apply triple_GetThis|]. intros p. keep.
  - eapply triple_bind; [apply triple_GetThis|]. intros p. keep.
  - apply Hdrop. unfold Reset. keep.
  - eapply triple_bind; [apply triple_GetThis|]. intros p. keep. destruct (_user_caller _); unfold Back; keep.
Qed.

(** Histories of operations by any threads: each entry is an operation and the
    thread's own variables at that moment. *)
Inductive history (stack : Z) : Fibers -> Prop :=
  | hist_new : history stack Fibers_new
  | hist_step s s' t t' o : history stack s -> op_fresh o s -> do_op stack o (s, t) = (Ok tt, (s', t')) -> history stack s'.

(** ** Properties *)

(** Whatever operations threads perform on fibers, as long as none of them
    fails: the counter of fibers is the number of fiber objects, and the
    sub-fibers have distinct positive ids that were handed out. *)
Theorem fiber_accounting stack s :
  0 < stack -> history stack s ->
  s_total_num s = Z.of_nat (size (heap s)) /\
  (forall p f, heap s !! p = Some f -> _stack_size f <> 0 -> 0 < _fiber_id f <= s_fiber_id s) /\
  (forall p q f g, heap s !! p = Some f -> heap s !! q = Some g -> _stack_size f <> 0 -> _stack_size g <> 0 ->
     _fiber_id f = _fiber_id g -> p = q).
Proof.
  intros _ H. assert (fibers_ok s) as [_ Ht Hi Hu].
  { induction H as [|s s' t t' o _ IH Hf E]; [|by eapply (do_op_keeps stack o s t)].
    split; cbn; [lia|by rewrite map_size_empty|..]; intros; by rewrite lookup_empty in *. }
  split_and!; [done|..].
  - intros p f Hp Hs. apply Hi in Hp as [? ?]. lia.
  - intros p q f g Hp Hq Hf Hg E. apply (Hu p q f g Hp Hq); [|done]. apply Hi in Hp as [_ Hp]. by apply Hp.
Qed.

(** A round through a fiber: the scheduler switches in, the fiber runs on
    its own stack and yields or ends, and the scheduler runs again with its own
    fiber as the current one; the fiber is left in EXEC after YieldToHold (the
    scheduler then puts it on HOLD), in READY after YieldToReady, in TERM or
    EXCEPT at its end; entering a running fiber trips the assertion. *)
Theorem swap_round fresh s t p f sf g threw :
  heap s !! p = Some f -> t_scheduler_fiber t = Some sf -> heap s !! sf = Some g -> sf <> p ->
  _user_caller f = false ->
  (_status f = EXEC -> exists st, SwapIn p (s, t) = (AssertFail, st)) /\
  (_status f <> EXEC -> exists s1 t1,
    SwapIn p (s, t) = (Ok tt, (s1, t1)) /\ t_cur_fiber t1 = Some p /\ context t1 = Some p /\
    forall m st, (m, st) ∈ [(YieldToHold fresh, EXEC); (YieldToReady fresh, READY);
                            (MainFunc_end fresh threw, if threw then EXCEPT else TERM)] ->
      exists s2 t2 f2, m (s1, t1) = (Ok tt, (s2, t2)) /\ t_cur_fiber t2 = Some sf /\ context t2 = Some sf /\
        heap s2 !! p = Some f2 /\ _status f2 = st /\
        forall q, q <> p -> heap s2 !! q = heap s !! q).
Proof.
  intros Hp Hsf Hg Hn Hu. split; intros Hst.
  { eexists. unfold SwapIn. step (at_fiber_ok s t p f Hp). unfold assert, mbind, M_bind.
    by rewrite bool_decide_eq_false_2 by (intros H; by apply H). }
  eexists _, _. split_and!; [by apply (SwapIn_ok s t p f sf g)|done|done|].
  set (s1 := with_heap s _). set (t1 := at_ t _ _).
  assert (heap s1 !! p = Some (set_status EXEC f)) as Hp1 by (cbn; by rewrite lookup_alter_eq, Hp).
  assert (heap s1 !! sf = Some g) as Hg1 by (cbn; by rewrite lookup_alter_ne).
  intros m st. rewrite !elem_of_cons. intros [[= -> ->]|[[= -> ->]|[[= -> ->]|[]%elem_of_nil]]].
  - eexists _, _, _. split_and!; [by apply (YieldToHold_ok fresh s1 t1 p (set_status EXEC f) sf g)|done|done|exact Hp1|done|].
    intros q Hq. cbn. by rewrite lookup_alter_ne.
  - eexists _, _, _. split_and!; [by apply (YieldToReady_ok fresh s1 t1 p (set_status EXEC f) sf g)|done|done| | |].
    + cbn. by rewrite !lookup_alter_eq, Hp.
    + done.
    + intros q Hq. cbn. by rewrite !lookup_alter_ne.
  - eexists _, _, _. split_and!; [by apply (MainFunc_end_ok fresh threw s1 t1 p (set_status EXEC f) sf g)|done|done| | |].
    + cbn. by rewrite !lookup_alter_eq, Hp.
    + done.
    + intros q Hq. cbn. by rewrite !lookup_alter_ne.
Qed.

(** A scheduler's main fiber at 1 and a task at 2. *)
Definition demo_fibers : Fibers := mkFibers {[1%nat := mkFiber 0 EXEC 0 None false; 2%nat := mkFiber 1 INIT 131072 (Some 7%nat) false]} 2 1.
Definition demo_thread : Thread := mkThread (Some 1%nat) (Some 1%nat) (Some 1%nat) (Some 1%nat).

Lemma swap_round_witness :
  exists s1 t1 s2 t2 f2, SwapIn 2 (demo_fibers, demo_thread) = (Ok tt, (s1, t1)) /\ context t1 = Some 2%nat /\
    MainFunc_end 9 true (s1, t1) = (Ok tt, (s2, t2)) /\ context t2 = Some 1%nat /\
    heap s2 !! 2%nat = Some f2 /\ _status f2 = EXCEPT.
Proof.
  destruct (swap_round 9 demo_fibers demo_thread 2 (mkFiber 1 INIT 131072 (Some 7%nat) false) 1 (mkFiber 0 EXEC 0 None false) true)
    as [_ H]; [done..|].
  destruct H as (s1 & t1 & E1 & _ & Hc & H); [done|].
  destruct (H (MainFunc_end 9 true) EXCEPT) as (s2 & t2 & f2 & E2 & _ & Hc2 & Hf2 & Hst & _).
  { apply elem_of_cons. right. apply elem_of_cons. right. by apply list_elem_of_singleton. }
  by exists s1, t1, s2, t2, f2.
Defined.

Lemma fiber_accounting_witness :
  let s := mkFibers {[2%nat := mkFiber 1 INIT 131072 (Some 7%nat) false]} 1 1 in
  history 131072 s /\ s_total_num s = Z.of_nat (size (heap s)).
Proof.
  set (s := mkFibers _ _ _). cbn zeta.
  assert (history 131072 s) as H.
  { apply (hist_step 131072 Fibers_new s demo_thread demo_thread (ONew 2 0 (Some 7%nat) false)); [apply hist_new|done|].
    vm_compute. reflexivity. }
  split; [exact H|]. by destruct (fiber_accounting 131072 s ltac:(lia) H) as [E _].
Defined.
