(* ===== verification/Scheduler.v ===== *)
(** scheduler.cpp, scheduler.h: the task queue and the run loop of its threads
    (the default build, [OPTIMIZE=OFF]: one queue under one lock).

    Threads interleave between the steps of the run loop: the locked block that
    takes a task, the notification, the switch into a fiber, the return from
    it.  [Tickle] and the idle fiber are those of IOManager (iomanager.cpp):
    idle threads sleep in [epoll_wait] and a byte in a pipe wakes them. *)
From stdpp Require Import gmap functions.
From S2P Require Import Prelude Fiber.

Record FuncOrFiber := mkFcb { func : option nat; fiber : option nat; threadId : Z }.

#[export] Instance FuncOrFiber_eq_dec : EqDecision FuncOrFiber.
Proof. solve_decision. Defined.

(** [FuncOrFiber::Reset] *)
Definition fcb_Reset : FuncOrFiber := mkFcb None None (-1).

(** Where a thread is in [Run]. *)
Inductive PC :=
  | Loop                (* at the top of the loop *)
  | Picked              (* after the locked block *)
  | Dispatch            (* after the notification *)
  | InTask | OutTask    (* in the fiber of a task; back from it *)
  | InCb (tid : Z) | OutCb (tid : Z)   (* in cb_fiber; back from it *)
  | ToIdle              (* going to run the idle fiber *)
  | InIdle | OutIdle
  | Exited.

#[export] Instance PC_eq_dec : EqDecision PC.
Proof. solve_decision. Defined.

(** The local variables of [Run] and the thread's fiber variables. *)
Record Worker := mkWorker {
  tls : Thread; fcb : FuncOrFiber; tickle_me : bool; is_active : bool;
  cb_fiber : option nat; idle_fiber : nat; pc : PC
}.

Definition set_pc (p : PC) (w : Worker) : Worker :=
  mkWorker (tls w) (fcb w) (tickle_me w) (is_active w) (cb_fiber w) (idle_fiber w) p.
Definition set_fcb (e : FuncOrFiber) (w : Worker) : Worker :=
  mkWorker (tls w) e (tickle_me w) (is_active w) (cb_fiber w) (idle_fiber w) (pc w).
Definition set_cb (c : option nat) (w : Worker) : Worker :=
  mkWorker (tls w) (fcb w) (tickle_me w) (is_active w) c (idle_fiber w) (pc w).
Definition set_tls (t : Thread) (w : Worker) : Worker :=
  mkWorker t (fcb w) (tickle_me w) (is_active w) (cb_fiber w) (idle_fiber w) (pc w).

(** [pipe]: bytes in the tickle pipe; [notifying]: callers of [Schedule] between
    the locked block and their [Tickle]. *)
Record Scheduler := mkScheduler {
  fs : Fibers; _fun_fibers : list FuncOrFiber; _active_threadNum : Z; _idle_threadNum : Z;
  _stopping : bool; _auto_stopping : bool; workers : gmap Z Worker; pipe : nat; notifying : nat
}.

Definition set_fs f s : Scheduler := mkScheduler f (_fun_fibers s) (_active_threadNum s) (_idle_threadNum s)
  (_stopping s) (_auto_stopping s) (workers s) (pipe s) (notifying s).
Definition set_queue q s : Scheduler := mkScheduler (fs s) q (_active_threadNum s) (_idle_threadNum s)
  (_stopping s) (_auto_stopping s) (workers s) (pipe s) (notifying s).
Definition add_active n s : Scheduler := mkScheduler (fs s) (_fun_fibers s) (_active_threadNum s + n) (_idle_threadNum s)
  (_stopping s) (_auto_stopping s) (workers s) (pipe s) (notifying s).
Definition add_idle n s : Scheduler := mkScheduler (fs s) (_fun_fibers s) (_active_threadNum s) (_idle_threadNum s + n)
  (_stopping s) (_auto_stopping s) (workers s) (pipe s) (notifying s).
Definition set_workers ws s : Scheduler := mkScheduler (fs s) (_fun_fibers s) (_active_threadNum s) (_idle_threadNum s)
  (_stopping s) (_auto_stopping s) ws (pipe s) (notifying s).
Definition set_pipe n s : Scheduler := mkScheduler (fs s) (_fun_fibers s) (_active_threadNum s) (_idle_threadNum s)
  (_stopping s) (_auto_stopping s) (workers s) n (notifying s).
Definition set_notifying n s : Scheduler := mkScheduler (fs s) (_fun_fibers s) (_active_threadNum s) (_idle_threadNum s)
  (_stopping s) (_auto_stopping s) (workers s) (pipe s) n.

Definition Scheduler_new : Scheduler := mkScheduler Fibers_new [] 0 0 true false ∅ 0 0.

Section scheduler.
Context (g_fiber_stack_size : Z).

(** ** Notification *)
Definition HasIdleThread s : bool := 0 <? _idle_threadNum s.

Definition Tickle : M Scheduler unit :=
  s ← get;
  if negb (HasIdleThread s) then mret tt else put (set_pipe (S (pipe s)) s).

(** ** Scheduling *)

(** The locked block: whether the caller has to notify. *)
Definition enqueue (e : FuncOrFiber) : M Scheduler bool :=
  s ← get;
  assert (negb (bool_decide (fiber e = None)) || negb (bool_decide (func e = None)));;
  put (set_queue (_fun_fibers s ++ [e]) s);;
  mret (bool_decide (_fun_fibers s = [])).

Definition Schedule (e : FuncOrFiber) : M Scheduler unit :=
  tickle_me ← enqueue e;
  if (tickle_me : bool) then Tickle else mret tt.

Fixpoint enqueue_all (es : list FuncOrFiber) : M Scheduler unit :=
  match es with
  | [] => mret tt
  | e :: es =>
    assert (negb (bool_decide (fiber e = None)) || negb (bool_decide (func e = None)));;
    modify (fun s => set_queue (_fun_fibers s ++ [e]) s);;
    enqueue_all es
  end.

(** The overload for a range. *)
Definition Schedule_range (es : list FuncOrFiber) : M Scheduler unit :=
  s ← get;
  enqueue_all es;;
  if bool_decide (_fun_fibers s = []) then Tickle else mret tt.

Definition IsStopping s : bool :=
  _stopping s && _auto_stopping s && bool_decide (_fun_fibers s = []) && (_active_threadNum s =? 0).

(** ** The run loop of thread [t] *)

(** The while loop over the queue: the task taken, what is left, and whether a
    task of another thread was passed over. *)
Fixpoint scan (t : Z) (h : gmap nat Fiber) (q : list FuncOrFiber) : outcome (option FuncOrFiber * list FuncOrFiber * bool) :=
  match q with
  | [] => Ok (None, [], false)
  | e :: q =>
    let skip (tk : bool) := match scan t h q with
                            | Ok (r, q, tk') => Ok (r, e :: q, tk || tk')
                            | Throw x => Throw x | AssertFail => AssertFail | Undef u => Undef u | NoFuel => NoFuel
                            end in
    if negb (threadId e =? -1) && negb (threadId e =? t) then skip true
    else if bool_decide (fiber e = None) && bool_decide (func e = None) then AssertFail
    else match fiber e with
         | Some p => match h !! p with
                     | Some f => if bool_decide (_status f = EXEC) then skip false else Ok (Some e, q, false)
                     | None => Undef NullDeref
                     end
         | None => Ok (Some e, q, false)
         end
  end.

Definition worker (t : Z) : M Scheduler Worker :=
  s ← get;
  match workers s !! t with Some w => mret w | None => undef NullDeref end.

Definition set_worker (t : Z) (w : Worker) : M Scheduler unit := modify (fun s => set_workers (<[t := w]> (workers s)) s).

(** Fiber operations of thread [t]. *)
Definition on_fibers {A} (t : Z) (m : M (Fibers * Thread) A) : M Scheduler A := fun s =>
  match workers s !! t with
  | Some w => let '(o, (f, l)) := m (fs s, tls w) in (o, set_workers (<[t := set_tls l w]> (workers s)) (set_fs f s))
  | None => (Undef NullDeref, s)
  end.

Definition goto (t : Z) (p : PC) : M Scheduler unit := w ← worker t; set_worker t (set_pc p w).

Definition status_of (p : nat) : M Scheduler Status :=
  s ← get;
  match heap (fs s) !! p with Some f => mret (_status f) | None => undef NullDeref end.

Definition ended (st : Status) : bool := bool_decide (st = TERM) || bool_decide (st = EXCEPT).

(** A thread enters [Run]: its main fiber becomes its scheduling fiber, the
    idle fiber is created. *)
Definition Run_begin (t : Z) (main idle : nat) : M Scheduler unit :=
  set_worker t (mkWorker (mkThread None None None (Some main)) fcb_Reset false false None idle Loop);;
  p ← on_fibers t (GetThis main);
  w ← worker t;
  set_worker t (set_tls (mkThread (t_main_fiber (tls w)) (t_cur_fiber (tls w)) (Some p) (context (tls w))) w);;
  on_fibers t (NewFiber g_fiber_stack_size idle 0 (Some 0%nat) false).

(** From the top of the loop through the locked block. *)
Definition pick (t : Z) : M Scheduler unit :=
  w ← worker t;
  s ← get;
  match scan t (heap (fs s)) (_fun_fibers s) with
  | Ok (r, q, tk) =>
    modify (set_queue q);;
    let tk := tk || negb (bool_decide (q = [])) in
    (match r with
     | Some e => modify (add_active 1);; set_worker t (mkWorker (tls w) e tk true (cb_fiber w) (idle_fiber w) Picked)
     | None => set_worker t (mkWorker (tls w) fcb_Reset tk false (cb_fiber w) (idle_fiber w) Picked)
     end)
  | Throw x => throw x | AssertFail => assert false | Undef u => undef u | NoFuel => nofuel
  end.

Definition notify (t : Z) : M Scheduler unit :=
  w ← worker t;
  (if tickle_me w then Tickle else mret tt);;
  goto t Dispatch.

Definition swap_in (t : Z) (p : nat) (c : PC) : M Scheduler unit := on_fibers t (SwapIn p);; goto t c.

(** The dispatch on the kind of task; [fresh] is where a new fiber would go. *)
Definition dispatch (t : Z) (fresh : nat) : M Scheduler unit :=
  w ← worker t;
  live ← (match fiber (fcb w) with
          | Some p => st ← status_of p; mret (if ended st then None else Some p)
          | None => mret None
          end);
  match live with
  | Some p => swap_in t p InTask
  | None =>
    match func (fcb w) with
    | Some g =>
      c ← (match cb_fiber w with
           | Some c => on_fibers t (Reset c (Some g));; mret c
           | None => on_fibers t (NewFiber g_fiber_stack_size fresh 0 (Some g) false);; mret fresh
           end);
      w ← worker t;
      set_worker t (set_fcb fcb_Reset (set_cb (Some c) w));;
      swap_in t c (InCb (threadId (fcb w)))
    | None =>
      if is_active w then modify (add_active (-1));; goto t Loop else
      st ← status_of (idle_fiber w);
      if ended st then goto t Exited else goto t ToIdle
    end
  end.

Definition enter_idle (t : Z) : M Scheduler unit :=
  modify (add_idle 1);; w ← worker t; swap_in t (idle_fiber w) InIdle.

(** The running fiber gives the thread back. *)
Definition returned (p : PC) : PC :=
  match p with InTask => OutTask | InCb tid => OutCb tid | InIdle => OutIdle | p => p end.

Definition leave (t : Z) (m : M (Fibers * Thread) unit) : M Scheduler unit :=
  on_fibers t m;; w ← worker t; set_worker t (set_pc (returned (pc w)) w).

(** [fcb.fiber->_status = HOLD] unless it has ended *)
Definition hold_unless_ended (t : Z) (p : nat) : M Scheduler unit :=
  st ← status_of p; if ended st then mret tt else on_fibers t (status_to HOLD p).

(** After SwapIn of a task's fiber. *)
Definition out_task (t : Z) : M Scheduler unit :=
  modify (add_active (-1));;
  w ← worker t;
  match fiber (fcb w) with
  | None => undef NullDeref
  | Some p =>
    st ← status_of p;
    (if bool_decide (st = READY) then Schedule (mkFcb None (Some p) (threadId (fcb w))) else hold_unless_ended t p);;
    w ← worker t;
    set_worker t (set_fcb fcb_Reset (set_pc Loop w))
  end.

(** After SwapIn of cb_fiber. *)
Definition out_cb (t tid : Z) : M Scheduler unit :=
  modify (add_active (-1));;
  w ← worker t;
  match cb_fiber w with
  | None => undef NullDeref
  | Some c =>
    st ← status_of c;
    if bool_decide (st = READY) then
      Schedule (mkFcb None (Some c) tid);; w ← worker t; set_worker t (set_cb None (set_pc Loop w))
    else if ended st then
      on_fibers t (Reset c None);; goto t Loop
    else
      on_fibers t (status_to HOLD c);; w ← worker t; set_worker t (set_cb None (set_pc Loop w))
  end.

Definition out_idle (t : Z) : M Scheduler unit :=
  modify (add_idle (-1));;
  w ← worker t;
  hold_unless_ended t (idle_fiber w);;
  goto t Loop.

(** What [Run] does when it is back in its own fiber. *)
Definition back (t : Z) : M Scheduler unit :=
  w ← worker t;
  match pc w with
  | OutTask => out_task t
  | OutCb tid => out_cb t tid
  | OutIdle => out_idle t
  | _ => mret tt
  end.

(** The idle fiber wakes up, empties the pipe and gives the thread back. *)
Definition idle_out (t : Z) : M Scheduler unit := modify (set_pipe 0);; leave t SwapOut.

(** [Stop]: the flags. *)
Definition Stop_flags : M Scheduler unit :=
  modify (fun s => mkScheduler (fs s) (_fun_fibers s) (_active_threadNum s) (_idle_threadNum s) true true (workers s) (pipe s) (notifying s)).

(** ** Steps *)
Inductive action :=
  | AStart (t : Z) (main idle : nat)
  | APick (t : Z) | ANotify (t : Z) | ADispatch (t : Z) (fresh : nat) | AIdle (t : Z) | ABack (t : Z)
  | AYieldToHold (t : Z) | AYieldToReady (t : Z) | AEnd (t : Z) (threw : bool)
  | AIdleOut (t : Z) | AIdleEnd (t : Z)
  | ANewFiber (t : Z) (p : nat) (g : nat)
  | AEnqueue (e : FuncOrFiber) | ATickle | AStop.

Definition perform (a : action) : M Scheduler unit :=
  match a with
  | AStart t main idle => Run_begin t main idle
  | APick t => pick t
  | ANotify t => notify t
  | ADispatch t fresh => dispatch t fresh
  | AIdle t => enter_idle t
  | ABack t => back t
  | AYieldToHold t => leave t (YieldToHold 0)
  | AYieldToReady t => leave t (YieldToReady 0)
  | AEnd t threw => leave t (MainFunc_end 0 threw)
  | AIdleOut t => idle_out t
  | AIdleEnd t => leave t (MainFunc_end 0 false)
  | ANewFiber t p g => on_fibers t (NewFiber g_fiber_stack_size p 0 (Some g) false)
  | AEnqueue e => tk ← enqueue e; modify (fun s => set_notifying (if (tk : bool) then S (notifying s) else notifying s) s)
  | ATickle => modify (fun s => set_notifying (pred (notifying s)) s);; Tickle
  | AStop => Stop_flags
  end.
End scheduler.

(** ** What can happen next *)

(** The fiber a thread has in its hands through [fcb]. *)
Definition hand (w : Worker) : option nat :=
  match pc w with Picked | Dispatch | InTask | OutTask => fiber (fcb w) | _ => None end.

Inductive role := Hand | Running | Left | Spare | Idler | Sched.

#[export] Instance role_eq_dec : EqDecision role.
Proof. solve_decision. Defined.

Definition cb_role (p : PC) : role := match p with InCb _ => Running | OutCb _ => Left | _ => Spare end.
Definition hand_role (p : PC) : role := match p with InTask => Running | OutTask => Left | _ => Hand end.

(** What a thread uses a fiber for. *)
Definition holds (w : Worker) (p : nat) : option role :=
  if decide (p = idle_fiber w) then Some Idler
  else if decide (t_scheduler_fiber (tls w) = Some p) then Some Sched
  else if decide (cb_fiber w = Some p) then Some (cb_role (pc w))
  else if decide (hand w = Some p) then Some (hand_role (pc w))
  else None.

Definition queued (s : Scheduler) : list nat := omap fiber (_fun_fibers s).

(** The fiber that runs on thread [t]. *)
Definition current (s : Scheduler) (t : Z) : option nat := w ← workers s !! t; t_cur_fiber (tls w).

Definition pc_of (s : Scheduler) (t : Z) : option PC := pc <$> workers s !! t.

Definition in_task (p : option PC) : Prop :=
  match p with Some InTask | Some (InCb _) => True | _ => False end.

#[export] Instance in_task_dec p : Decision (in_task p).
Proof. destruct p as [[]|]; cbn; apply _. Defined.

(** What the constructors of FuncOrFiber make: a function or a fiber. *)
Definition entry_ok (e : FuncOrFiber) : Prop :=
  match fiber e, func e with Some _, None | None, Some _ => True | _, _ => False end.

#[export] Instance entry_ok_dec e : Decision (entry_ok e).
Proof. unfold entry_ok. destruct (fiber e), (func e); apply _. Defined.

(** Callers schedule entries that are not empty, and a fiber only while it is
    not scheduled already and not in the hands of a thread, unless it runs (and
    is about to yield); a fiber that was scheduled while it runs goes on to
    yield to hold, that is, it neither ends nor yields to ready first. *)
Definition enabled (a : action) (s : Scheduler) : Prop :=
  match a with
  | AStart t main idle => workers s !! t = None /\ main <> idle /\
      heap (fs s) !! main = None /\ heap (fs s) !! idle = None
  | APick t => pc_of s t = Some Loop
  | ANotify t => pc_of s t = Some Picked
  | ADispatch t fresh => pc_of s t = Some Dispatch /\ heap (fs s) !! fresh = None
  | AIdle t => pc_of s t = Some ToIdle
  | ABack t => match pc_of s t with Some OutTask | Some (OutCb _) | Some OutIdle => True | _ => False end
  | AYieldToHold t => in_task (pc_of s t)
  | AYieldToReady t | AEnd t _ => in_task (pc_of s t) /\ forall p, current s t = Some p -> p ∉ queued s
  | AIdleOut t => pc_of s t = Some InIdle
  | AIdleEnd t => pc_of s t = Some InIdle /\ IsStopping s = true
  | ANewFiber t p _ => is_Some (workers s !! t) /\ heap (fs s) !! p = None
  | AEnqueue e => entry_ok e /\
      forall p, fiber e = Some p -> is_Some (heap (fs s) !! p) /\ p ∉ queued s /\
        map_Forall (fun _ w => holds w p = None \/ holds w p = Some Running) (workers s)
  | ATickle => notifying s <> 0%nat
  | AStop => True
  end.

#[export] Instance option_forall_dec {A} (o : option A) (P : A -> Prop) `{!forall x, Decision (P x)} :
  Decision (forall x, o = Some x -> P x).
Proof.
  destruct o as [x|]; [|left; by intros].
  destruct (decide (P x)) as [Hx|Hx]; [left; by intros y [= <-]|right; intros Hn; by apply Hx, Hn].
Defined.

#[export] Instance enabled_dec a s : Decision (enabled a s).
Proof. destruct a; cbn; try apply _. destruct (pc_of s t) as [[]|]; apply _. Defined.

Fixpoint steps (stack : Z) (acts : list action) : M Scheduler unit :=
  match acts with [] => mret tt | a :: acts => perform stack a;; steps stack acts end.

Fixpoint all_enabled (stack : Z) (acts : list action) (s : Scheduler) : Prop :=
  match acts with
  | [] => True
  | a :: acts => enabled a s /\ all_enabled stack acts (snd (perform stack a s))
  end.

#[export] Instance all_enabled_dec stack acts : forall s, Decision (all_enabled stack acts s).
Proof. induction acts; intros s; cbn; apply _. Defined.

(** ** Invariant *)

(** Where a fiber is. *)
Inductive place := Outside | Queued | At (t : Z) (r : role).

#[local] Instance place_eq_dec : EqDecision place.
Proof. solve_decision. Defined.

(** The status a fiber may have there. *)
Definition status_ok (pl : place) (f : Fiber) : Prop :=
  match pl with
  | Outside | Queued | At _ Hand => _status f <> EXEC /\ _user_caller f = false
  | At _ Running => _status f = EXEC /\ _user_caller f = false
  | At _ Spare => _status f = INIT /\ _user_caller f = false
  | At _ Left | At _ Idler => _user_caller f = false
  | At _ Sched => _status f = EXEC
  end.

Definition for_thread (t tid : Z) : Prop := tid = -1 \/ tid = t.

(** The local variables of a thread at each point of the loop. *)
Definition pc_ok (t : Z) (sf : nat) (w : Worker) : Prop :=
  let runs p := t_cur_fiber (tls w) = Some p /\ context (tls w) = Some p in
  match pc w with
  | Picked | Dispatch => runs sf /\
      (if is_active w then entry_ok (fcb w) /\ for_thread t (threadId (fcb w))
       else fcb w = fcb_Reset)
  | InTask => (exists p, fiber (fcb w) = Some p /\ runs p) /\ for_thread t (threadId (fcb w))
  | OutTask => runs sf /\ fiber (fcb w) <> None /\ for_thread t (threadId (fcb w))
  | InCb tid => (exists p, cb_fiber w = Some p /\ runs p) /\ for_thread t tid
  | OutCb tid => runs sf /\ cb_fiber w <> None /\ for_thread t tid
  | InIdle => runs (idle_fiber w)
  | Loop | ToIdle | OutIdle | Exited => runs sf
  end.

(** The idle fiber can be entered, runs, or has come back. *)
Definition idle_ok (w : Worker) (f : Fiber) : Prop :=
  match pc w with
  | InIdle => _status f = EXEC
  | OutIdle => True
  | _ => _status f <> EXEC
  end.

Record worker_ok (h : gmap nat Fiber) (t : Z) (w : Worker) : Prop := {
  wk_sf : exists sf, t_scheduler_fiber (tls w) = Some sf /\ sf <> idle_fiber w /\ pc_ok t sf w /\
    cb_fiber w <> Some sf /\ hand w <> Some sf;
  wk_cb : cb_fiber w <> Some (idle_fiber w);
  wk_hand : hand w <> Some (idle_fiber w) /\ (hand w <> None -> hand w <> cb_fiber w);
  wk_idle : exists f, h !! idle_fiber w = Some f /\ idle_ok w f
}.

(** Threads that count as active, and as idle. *)
Definition is_busy (w : Worker) : bool :=
  match pc w with
  | Picked | Dispatch => is_active w
  | InTask | OutTask | InCb _ | OutCb _ => true
  | _ => false
  end.
Definition is_idle (w : Worker) : bool := match pc w with InIdle | OutIdle => true | _ => false end.

Definition count (P : Worker -> bool) (ws : gmap Z Worker) : Z :=
  Z.of_nat (size (filter (fun x => P (snd x) = true) ws)).

Definition queued_ok (pl : nat -> place) (h : gmap nat Fiber) (p : nat) : Prop :=
  exists f, h !! p = Some f /\
    (pl p = Queued \/ (exists t r, pl p = At t r /\ (r = Running \/ r = Left)) /\ _status f = EXEC).

Record placed (pl : nat -> place) (s : Scheduler) : Prop := {
  pl_at : forall p t r, pl p = At t r <-> exists w, workers s !! t = Some w /\ holds w p = Some r;
  pl_worker : forall t w, workers s !! t = Some w -> worker_ok (heap (fs s)) t w;
  pl_status : forall p f, heap (fs s) !! p = Some f -> status_ok (pl p) f;
  pl_known : forall p, pl p <> Outside -> is_Some (heap (fs s) !! p);
  pl_entry : forall e, e ∈ _fun_fibers s -> entry_ok e /\
    forall p, fiber e = Some p -> queued_ok pl (heap (fs s)) p;
  pl_nodup : NoDup (queued s);
  pl_queued : forall p, pl p = Queued -> p ∈ queued s;
  pl_active : _active_threadNum s = count is_busy (workers s);
  pl_idle : _idle_threadNum s = count is_idle (workers s)
}.

Definition sinv (s : Scheduler) : Prop := exists pl, placed pl s.

Lemma count_insert_new P ws t w :
  ws !! t = None -> count P (<[t := w]> ws) = count P ws + Z.b2z (P w).
Proof.
  intros Ht. unfold count. destruct (P w) eqn:E.
  - rewrite map_filter_insert_True by done. rewrite map_size_insert_None by (apply map_lookup_filter_None; by left).
    cbn. lia.
  - rewrite map_filter_insert_False, map_filter_delete_not by (cbn; congruence || (intros; congruence)). cbn. lia.
Qed.

Lemma count_update P ws t w w' :
  ws !! t = Some w -> count P (<[t := w']> ws) = count P ws - Z.b2z (P w) + Z.b2z (P w').
Proof.
  intros Ht. rewrite <- (insert_delete_id ws t w Ht) at 1 2. rewrite insert_insert_eq.
  rewrite !count_insert_new by apply lookup_delete_eq. lia.
Qed.

(** ** Steps of one thread *)

(** What a step of thread [t] has to respect: the fibers [l] it touches are its
    own or nobody's, before and after. *)
Lemma placed_update pl s pl' s' t w' (l : list nat) :
  placed pl s -> workers s' = <[t := w']> (workers s) ->
  (forall p, p ∉ l -> heap (fs s') !! p = heap (fs s) !! p /\ pl' p = pl p) ->
  (forall p, p ∈ l -> (forall t' r, t' <> t -> pl p <> At t' r /\ pl' p <> At t' r) /\
     exists f, heap (fs s') !! p = Some f /\ status_ok (pl' p) f) ->
  (forall p r, pl' p = At t r <-> holds w' p = Some r) ->
  worker_ok (heap (fs s')) t w' ->
  (forall e, e ∈ _fun_fibers s' -> entry_ok e /\
    forall p, fiber e = Some p -> queued_ok pl' (heap (fs s')) p) ->
  NoDup (queued s') -> (forall p, pl' p = Queued -> p ∈ queued s') ->
  _active_threadNum s' = count is_busy (<[t := w']> (workers s)) ->
  _idle_threadNum s' = count is_idle (<[t := w']> (workers s)) ->
  placed pl' s'.
Proof.
  intros Hs Hw Hout Hin Hat Hwk Hent Hnd Hq Ha Hi.
  assert (forall p t' r, t' <> t -> pl' p = At t' r <-> pl p = At t' r) as Hother.
  { intros p t' r Ht. destruct (decide (p ∈ l)) as [Hp|Hp].
    - destruct (Hin p Hp) as [H _]. destruct (H t' r Ht). tauto.
    - destruct (Hout p Hp) as [_ ->]. done. }
  split; rewrite ?Hw; try done.
  - intros p t' r. destruct (decide (t' = t)) as [->|Ht].
    + rewrite Hat. split; [intros H; exists w'; by rewrite lookup_insert_eq|].
      intros (w & H & Hh). rewrite lookup_insert_eq in H. by injection H as ->.
    + rewrite Hother, (pl_at _ _ Hs), lookup_insert_ne by done. done.
  - intros t' w. destruct (decide (t' = t)) as [->|Ht].
    + rewrite lookup_insert_eq. by intros [= <-].
    + rewrite lookup_insert_ne by done. intros H. destruct (pl_worker _ _ Hs _ _ H) as [H1 H2 H3 (f & Hf & Hi')].
      split; try done. exists f. split; [|done]. rewrite <- Hf. apply Hout. intros Hl.
      apply (proj1 (proj1 (Hin _ Hl) t' Idler Ht)). apply (pl_at _ _ Hs). exists w. split; [done|].
      unfold holds. by rewrite decide_True.
  - intros p f Hf. destruct (decide (p ∈ l)) as [Hp|Hp].
    + destruct (Hin p Hp) as (_ & f' & Hf' & Hst). congruence.
    + destruct (Hout p Hp) as [Eh ->]. rewrite Eh in Hf. by apply (pl_status _ _ Hs).
  - intros p Hp. destruct (decide (p ∈ l)) as [Hl|Hl].
    + destruct (Hin p Hl) as (_ & f' & Hf' & _). by exists f'.
    + destruct (Hout p Hl) as [-> E]. rewrite E in Hp. by apply (pl_known _ _ Hs).
Qed.

(** Entries of fibers that are not touched stay as they are. *)
Lemma queued_ok_same pl pl' h h' p : h' !! p = h !! p -> pl' p = pl p -> queued_ok pl h p -> queued_ok pl' h' p.
Proof. unfold queued_ok. by intros -> ->. Qed.

Lemma placed_holds pl s t w p r : placed pl s -> workers s !! t = Some w -> pl p = At t r <-> holds w p = Some r.
Proof.
  intros Hs Hw. rewrite (pl_at _ _ Hs). split; [|by exists w]. intros (w' & Hw' & H). congruence.
Qed.

Lemma holds_idle w : holds w (idle_fiber w) = Some Idler.
Proof. unfold holds. by rewrite decide_True. Qed.

(** ** Runs *)
Lemma worker_run t w s : workers s !! t = Some w -> worker t s = (Ok w, s).
Proof. intros H. unfold worker, mbind, M_bind, get. by rewrite H. Qed.

Lemma goto_run t p w s : workers s !! t = Some w ->
  goto t p s = (Ok tt, set_workers (<[t := set_pc p w]> (workers s)) s).
Proof. intros H. unfold goto. by step (worker_run t w s H). Qed.

Lemma on_fibers_run {A} t w s (m : M (Fibers * Thread) A) a f l :
  workers s !! t = Some w -> m (fs s, tls w) = (Ok a, (f, l)) ->
  on_fibers t m s = (Ok a, set_workers (<[t := set_tls l w]> (workers s)) (set_fs f s)).
Proof. intros H E. unfold on_fibers. by rewrite H, E. Qed.

Lemma status_of_run p f s : heap (fs s) !! p = Some f -> status_of p s = (Ok (_status f), s).
Proof. intros H. unfold status_of, mbind, M_bind, get. by rewrite H. Qed.

Lemma Tickle_run s : exists n, Tickle s = (Ok tt, set_pipe n s) /\ (pipe s <= n)%nat.
Proof.
  unfold Tickle, mbind, M_bind, get, put. cbn. destruct (HasIdleThread s); cbn.
  - exists (S (pipe s)). split; [done|lia].
  - exists (pipe s). split; [by destruct s|lia].
Qed.

Lemma enqueue_run e s : entry_ok e ->
  enqueue e s = (Ok (bool_decide (_fun_fibers s = [])), set_queue (_fun_fibers s ++ [e]) s).
Proof.
  intros He. unfold enqueue, mbind, M_bind, get, assert. cbn beta iota.
  assert (negb (bool_decide (fiber e = None)) || negb (bool_decide (func e = None)) = true) as ->; [|done].
  unfold entry_ok in He. by destruct (fiber e), (func e).
Qed.

Lemma Schedule_run e s : entry_ok e ->
  exists n, Schedule e s = (Ok tt, set_pipe n (set_queue (_fun_fibers s ++ [e]) s)) /\ (pipe s <= n)%nat.
Proof.
  intros He. unfold Schedule. step (enqueue_run e s He). case_bool_decide.
  - destruct (Tickle_run (set_queue (_fun_fibers s ++ [e]) s)) as (n & E & Hn). by exists n.
  - exists (pipe s). split; [by destruct s|lia].
Qed.

(** ** Taking a task *)

(** A thread may take an entry that is not for another thread and whose fiber
    does not run. *)
Definition takes (t : Z) (h : gmap nat Fiber) (e : FuncOrFiber) : Prop :=
  for_thread t (threadId e) /\
  forall p f, fiber e = Some p -> h !! p = Some f -> _status f <> EXEC.

Lemma scan_spec t h q :
  (forall e, e ∈ q -> entry_ok e /\ forall p, fiber e = Some p -> is_Some (h !! p)) ->
  exists r q' tk, scan t h q = Ok (r, q', tk) /\
    match r with
    | None => q' = q /\ Forall (fun e => ~ takes t h e) q
    | Some e => exists l1 l2, q = l1 ++ e :: l2 /\ q' = l1 ++ l2 /\ takes t h e /\ Forall (fun e => ~ takes t h e) l1
    end.
Proof.
  induction q as [|e q IH]; intros Hq; [by exists None, [], false|].
  destruct IH as (r & q' & tk & E & Hr); [intros e' He'; apply Hq; by right|].
  destruct (Hq e ltac:(by left)) as [He Hk].
  assert (forall tk0, ~ takes t h e -> exists tk', match scan t h q with
    | Ok (r, q, tk') => Ok (r, e :: q, tk0 || tk')
    | Throw x => Throw x | AssertFail => AssertFail | Undef u => Undef u | NoFuel => NoFuel end = Ok (r, e :: q', tk') /\
    match r with
    | None => e :: q' = e :: q /\ Forall (fun e => ~ takes t h e) (e :: q)
    | Some e' => exists l1 l2, e :: q = l1 ++ e' :: l2 /\ e :: q' = l1 ++ l2 /\ takes t h e' /\ Forall (fun e => ~ takes t h e) l1
    end) as Hskip.
  { intros tk0 Hn. rewrite E. exists (tk0 || tk). split; [done|]. destruct r as [e'|].
    - destruct Hr as (l1 & l2 & -> & -> & Ht & Hf). exists (e :: l1), l2. split_and!; try done. by constructor.
    - destruct Hr as [-> Hf]. split; [done|by constructor]. }
  cbn [scan]. destruct (negb (threadId e =? -1) && negb (threadId e =? t)) eqn:Et.
  { destruct (Hskip true) as (tk' & -> & H).
    { intros [[Hf|Hf] _]; rewrite Hf, Z.eqb_refl in Et; cbn in Et; [done|by rewrite andb_false_r in Et]. }
    by exists r, (e :: q'), tk'. }
  assert (for_thread t (threadId e)) as Hft.
  { apply andb_false_iff in Et as [H|H]; apply negb_false_iff, Z.eqb_eq in H; [by left|by right]. }
  assert (bool_decide (fiber e = None) && bool_decide (func e = None) = false) as ->.
  { unfold entry_ok in He. by destruct (fiber e), (func e). }
  destruct (fiber e) as [p|] eqn:Ef.
  - destruct (Hk p eq_refl) as [f Hf]. rewrite Hf. case_bool_decide as Hst.
    + destruct (Hskip false) as (tk' & -> & H); [|by exists r, (e :: q'), tk'].
      intros [_ Hn]. by apply (Hn p f).
    + exists (Some e), q, false. split; [done|]. exists [], q. split_and!; try done. split; [done|].
      intros p' f' Hp' Hf'. congruence.
  - exists (Some e), q, false. split; [done|]. exists [], q. split_and!; try done. split; [done|].
    intros p' f' Hp' Hf'. congruence.
Qed.

Lemma queued_elem s p : p ∈ queued s <-> exists e, e ∈ _fun_fibers s /\ fiber e = Some p.
Proof. unfold queued. rewrite list_elem_of_omap. done. Qed.

Lemma entry_known pl s e : placed pl s -> e ∈ _fun_fibers s ->
  entry_ok e /\ forall p, fiber e = Some p -> is_Some (heap (fs s) !! p).
Proof.
  intros Hs He. destruct (pl_entry _ _ Hs e He) as [Hok Hq]. split; [done|].
  intros p Hp. destruct (Hq p Hp) as (f & Hf & _). by exists f.
Qed.

(** The fiber of an entry that may be taken is in the queue and nowhere else. *)
Lemma takes_queued pl s t e p : placed pl s -> e ∈ _fun_fibers s -> takes t (heap (fs s)) e ->
  fiber e = Some p -> pl p = Queued /\ exists f, heap (fs s) !! p = Some f /\ _status f <> EXEC /\ _user_caller f = false.
Proof.
  intros Hs He [_ Ht] Hp. destruct (pl_entry _ _ Hs e He) as [_ Hq].
  destruct (Hq p Hp) as (f & Hf & [Hpl|(_ & Hst)]); [|by destruct (Ht p f Hp Hf)].
  split; [done|]. exists f. split; [done|]. pose proof (pl_status _ _ Hs p f Hf) as H. by rewrite Hpl in H.
Qed.

Lemma queued_middle (s : Scheduler) l1 e l2 :
  _fun_fibers s = l1 ++ e :: l2 -> NoDup (queued s) ->
  NoDup (omap fiber (l1 ++ l2)) /\ forall p, fiber e = Some p -> p ∉ omap fiber (l1 ++ l2).
Proof.
  intros Hq Hnd. unfold queued in Hnd. rewrite Hq, omap_app in Hnd. cbn in Hnd. rewrite omap_app.
  destruct (fiber e) as [p|] eqn:Ep; [|done].
  change (omap fiber l1 ++ p :: omap fiber l2) with (omap fiber l1 ++ [p] ++ omap fiber l2) in Hnd.
  apply list.NoDup_app in Hnd as (H1 & H2 & H3). apply list.NoDup_cons in H3 as [H3 H4]. split.
  - apply list.NoDup_app. split_and!; [done| |done]. intros x Hx Hx'. by apply (H2 x Hx), elem_of_cons; right.
  - intros p' [= ->] [Hx|Hx]%elem_of_app; [|done]. by apply (H2 p' Hx), elem_of_cons; left.
Qed.


(** A step that leaves the places of the other fibers of the thread alone. *)
Lemma holds_ext w w' q :
  idle_fiber w' = idle_fiber w -> t_scheduler_fiber (tls w') = t_scheduler_fiber (tls w) ->
  (cb_fiber w' = Some q <-> cb_fiber w = Some q) -> (hand w' = Some q <-> hand w = Some q) ->
  (cb_fiber w = Some q -> cb_role (pc w') = cb_role (pc w)) ->
  (hand w = Some q -> hand_role (pc w') = hand_role (pc w)) ->
  holds w' q = holds w q.
Proof.
  intros Hi Hs Hc Hh Hcr Hhr. unfold holds. rewrite Hi, Hs.
  repeat case_decide; try tauto; f_equal; tauto.
Qed.

Lemma holds_in_hand h t w p : worker_ok h t w -> hand w = Some p -> holds w p = Some (hand_role (pc w)).
Proof.
  intros [(sf & Hsf & _ & _ & _ & Hh) _ [Hi Hc] _] Hp. unfold holds.
  rewrite decide_False by congruence. rewrite decide_False by congruence.
  rewrite decide_False by (intros H; apply Hc; congruence). by rewrite decide_True.
Qed.

Lemma holds_cb h t w p : worker_ok h t w -> cb_fiber w = Some p -> holds w p = Some (cb_role (pc w)).
Proof.
  intros [(sf & Hsf & _ & _ & Hc & _) Hi _ _] Hp. unfold holds.
  rewrite decide_False by congruence. rewrite decide_False by congruence. by rewrite decide_True.
Qed.

Lemma holds_sched h t w sf : worker_ok h t w -> t_scheduler_fiber (tls w) = Some sf -> holds w sf = Some Sched.
Proof.
  intros [(sf' & Hsf & Hi & _) _ _ _] Hp. unfold holds. rewrite decide_False by congruence. by rewrite decide_True.
Qed.

(** The scheduling fiber of a thread is an object that counts as running. *)
Lemma sched_fiber pl s t w : placed pl s -> workers s !! t = Some w ->
  exists sf f, t_scheduler_fiber (tls w) = Some sf /\ heap (fs s) !! sf = Some f /\ pl sf = At t Sched /\ sf <> idle_fiber w /\
    pc_ok t sf w.
Proof.
  intros Hs Hw. pose proof (pl_worker _ _ Hs _ _ Hw) as Hok. pose proof Hok as [(sf & Hsf & Hi & Hpc & _) _ _ _].
  assert (pl sf = At t Sched) as Hpl by (apply (placed_holds _ _ _ _ _ _ Hs Hw); by eapply holds_sched).
  destruct (pl_known _ _ Hs sf) as [f Hf]; [congruence|]. by exists sf, f.
Qed.

(** Moving one fiber to a place at thread [t]. *)
Lemma holds_moved pl s t w w' p r :
  placed pl s -> workers s !! t = Some w -> holds w' p = Some r ->
  (forall q, q <> p -> holds w' q = holds w q) ->
  forall q r', <[p := At t r]> pl q = At t r' <-> holds w' q = Some r'.
Proof.
  intros Hs Hw Hp Hq q r'. destruct (decide (q = p)) as [->|Hn].
  - rewrite fn_lookup_insert, Hp. split; congruence.
  - rewrite fn_lookup_insert_ne, Hq by done. by apply placed_holds with s.
Qed.

(** Taking it away from the thread. *)
Lemma holds_gone pl s t w w' p v :
  placed pl s -> workers s !! t = Some w -> holds w' p = None -> v = Outside \/ v = Queued ->
  (forall q, q <> p -> holds w' q = holds w q) ->
  forall q r', <[p := v]> pl q = At t r' <-> holds w' q = Some r'.
Proof.
  intros Hs Hw Hp Hv Hq q r'. destruct (decide (q = p)) as [->|Hn].
  - rewrite fn_lookup_insert, Hp. destruct Hv as [-> | ->]; split; congruence.
  - rewrite fn_lookup_insert_ne, Hq by done. by apply placed_holds with s.
Qed.

Definition picked (t : Z) (w : Worker) (r : option FuncOrFiber) (q : list FuncOrFiber) (tk : bool) (s : Scheduler) : Scheduler :=
  let s := set_queue q s in
  match r with
  | Some e => set_workers (<[t := mkWorker (tls w) e tk true (cb_fiber w) (idle_fiber w) Picked]> (workers s)) (add_active 1 s)
  | None => set_workers (<[t := mkWorker (tls w) fcb_Reset tk false (cb_fiber w) (idle_fiber w) Picked]> (workers s)) s
  end.

Lemma pick_run t s w r q tk :
  workers s !! t = Some w -> scan t (heap (fs s)) (_fun_fibers s) = Ok (r, q, tk) ->
  pick t s = (Ok tt, picked t w r q (tk || negb (bool_decide (q = []))) s).
Proof.
  intros Hw Hsc. unfold pick. step (worker_run t w s Hw). step (eq_refl : get s = (Ok s, s)).
  rewrite Hsc. step (eq_refl : modify (set_queue q) s = (Ok tt, set_queue q s)). by destruct r.
Qed.

(** Entries that stay in the queue are not disturbed by moves of other fibers. *)
Lemma entries_keep pl s pl' h' (q : list FuncOrFiber) :
  placed pl s -> (forall e, e ∈ q -> e ∈ _fun_fibers s) ->
  (forall p, p ∈ omap fiber q -> h' !! p = heap (fs s) !! p /\ pl' p = pl p) ->
  forall e, e ∈ q -> entry_ok e /\ forall p, fiber e = Some p -> queued_ok pl' h' p.
Proof.
  intros Hs Hq Hh e He. destruct (pl_entry _ _ Hs e (Hq e He)) as [Hok Hp]. split; [done|].
  intros p Ep. destruct (Hh p) as [E1 E2]; [apply list_elem_of_omap; by exists e|].
  eapply queued_ok_same; [done|done|]. by apply Hp.
Qed.

(** The counters after a step of a thread. *)
Lemma counts_ok pl s t w w' a i :
  placed pl s -> workers s !! t = Some w ->
  a = Z.b2z (is_busy w') - Z.b2z (is_busy w) -> i = Z.b2z (is_idle w') - Z.b2z (is_idle w) ->
  _active_threadNum s + a = count is_busy (<[t := w']> (workers s)) /\
  _idle_threadNum s + i = count is_idle (<[t := w']> (workers s)).
Proof.
  intros Hs Hw -> ->. rewrite !(count_update _ _ _ w) by done. rewrite (pl_active _ _ Hs), (pl_idle _ _ Hs). lia.
Qed.

(** A step that moves no fiber and changes none. *)
Lemma placed_quiet pl s s' t w w' :
  placed pl s -> workers s !! t = Some w -> workers s' = <[t := w']> (workers s) -> fs s' = fs s ->
  (forall e, e ∈ _fun_fibers s' -> e ∈ _fun_fibers s) -> queued s' = queued s ->
  (forall q, holds w' q = holds w q) -> worker_ok (heap (fs s)) t w' ->
  _active_threadNum s' = _active_threadNum s + (Z.b2z (is_busy w') - Z.b2z (is_busy w)) ->
  _idle_threadNum s' = _idle_threadNum s + (Z.b2z (is_idle w') - Z.b2z (is_idle w)) ->
  placed pl s'.
Proof.
  intros Hs Hw Hw' Hfs Hq Hqd Hh Hok Ha Hi.
  destruct (counts_ok pl s t w w' _ _ Hs Hw eq_refl eq_refl) as [Hca Hci].
  apply (placed_update pl s pl s' t w' []); rewrite ?Hfs; try done.
  - by intros p []%elem_of_nil.
  - intros p r. rewrite Hh. by apply placed_holds with s.
  - by apply (entries_keep pl s).
  - rewrite Hqd. apply Hs.
  - rewrite Hqd. apply Hs.
  - by rewrite Ha.
  - by rewrite Hi.
Qed.

(** The thread takes the fiber [p] of the entry [e] out of the queue. *)
Lemma placed_dequeue pl s s' t w w' p f l1 e l2 :
  placed pl s -> workers s !! t = Some w -> workers s' = <[t := w']> (workers s) -> fs s' = fs s ->
  _fun_fibers s = l1 ++ e :: l2 -> _fun_fibers s' = l1 ++ l2 -> fiber e = Some p -> pl p = Queued ->
  heap (fs s) !! p = Some f -> status_ok (At t Hand) f -> holds w' p = Some Hand ->
  (forall q, q <> p -> holds w' q = holds w q) -> worker_ok (heap (fs s)) t w' ->
  _active_threadNum s' = _active_threadNum s + (Z.b2z (is_busy w') - Z.b2z (is_busy w)) ->
  _idle_threadNum s' = _idle_threadNum s + (Z.b2z (is_idle w') - Z.b2z (is_idle w)) ->
  placed (<[p := At t Hand]> pl) s'.
Proof.
  intros Hs Hw Hw' Hfs Hq Hq' Ep Hpl Hf Hst Hh Hhq Hok Ha Hi.
  destruct (counts_ok pl s t w w' _ _ Hs Hw eq_refl eq_refl) as [Hca Hci].
  destruct (queued_middle s l1 e l2 Hq (pl_nodup _ _ Hs)) as [Hnd Hout].
  apply (placed_update pl s _ s' t w' [p]); rewrite ?Hfs; try done.
  - intros q Hn. split; [done|]. rewrite fn_lookup_insert_ne; [done|]. intros ->. by apply Hn, list_elem_of_singleton.
  - intros q ->%list_elem_of_singleton. rewrite fn_lookup_insert. split; [|by exists f].
    intros t' r Ht. split; congruence.
  - by apply (holds_moved pl s t w w').
  - rewrite Hq'. apply (entries_keep pl s); [done| |].
    + intros x. rewrite Hq, !elem_of_app, elem_of_cons. tauto.
    + intros q Hn. split; [done|]. rewrite fn_lookup_insert_ne; [done|]. intros ->. by apply (Hout q).
  - unfold queued. by rewrite Hq'.
  - intros q Hqp. destruct (decide (q = p)) as [->|Hn]; [by rewrite fn_lookup_insert in Hqp|].
    rewrite fn_lookup_insert_ne in Hqp by done. apply (pl_queued _ _ Hs) in Hqp. unfold queued in *.
    rewrite Hq, omap_app in Hqp. cbn in Hqp. rewrite Ep in Hqp. rewrite Hq', omap_app. set_solver.
  - by rewrite Ha.
  - by rewrite Hi.
Qed.

(** What is known of a thread at a point of its loop. *)
Lemma at_pc pl s t p : placed pl s -> pc_of s t = Some p ->
  exists w, workers s !! t = Some w /\ pc w = p /\ worker_ok (heap (fs s)) t w.
Proof.
  intros Hs Hpc. unfold pc_of in Hpc. destruct (workers s !! t) as [w|] eqn:Hw; [|done]. injection Hpc as Hpc.
  exists w. split_and!; [done|done|]. by apply (pl_worker _ _ Hs).
Qed.

(** Closes the goals about the places of a thread's other fibers; [E] is what is
    known of its entry. *)
Ltac same_holds Hpc E :=
  apply holds_ext; cbn; unfold hand; cbn; rewrite ?Hpc; cbn; rewrite ?E; try done; try (split; congruence); try congruence.

(** Closes the bookkeeping goals of a step, with the program counter known. *)
Ltac bookkeeping Hpc := cbn; unfold is_busy, is_idle; cbn; rewrite ?Hpc; cbn; lia.

Lemma picked_ok h t w e tk a :
  worker_ok h t w -> pc w = Loop ->
  (if (a : bool) then entry_ok e /\ for_thread t (threadId e) else e = fcb_Reset) ->
  (forall p, fiber e = Some p -> holds w p = None) ->
  worker_ok h t (mkWorker (tls w) e tk a (cb_fiber w) (idle_fiber w) Picked).
Proof.
  intros [(sf & Hsf & Hsi & Hrun & Hcs & _) Hcb _ (fi & Hfi & Hidle)] Hpc Ha He.
  unfold pc_ok in Hrun. unfold idle_ok in Hidle. rewrite Hpc in Hrun, Hidle.
  assert (forall p, fiber e = Some p -> p <> idle_fiber w /\ p <> sf /\ cb_fiber w <> Some p) as Hd.
  { intros p Hp. specialize (He p Hp). unfold holds in He. repeat case_decide; try done. split_and!; congruence. }
  split; cbn.
  - destruct Hrun as [??]. exists sf. split_and!; try done. intros Hp. by destruct (Hd _ Hp) as (_ & ? & _).
  - done.
  - split; [intros Hp; by destruct (Hd _ Hp)|]. intros Hp. destruct (fiber e) as [p|]; [|done].
    destruct (Hd p eq_refl) as (_ & _ & Hc). congruence.
  - by exists fi.
Qed.

Lemma pick_ok pl s t : placed pl s -> pc_of s t = Some Loop ->
  exists s', pick t s = (Ok tt, s') /\ sinv s'.
Proof.
  intros Hs Hpc. destruct (at_pc _ _ _ _ Hs Hpc) as (w & Hw & Hp & Hok). clear Hpc.
  destruct (scan_spec t (heap (fs s)) (_fun_fibers s)) as (r & q & tk & Hsc & Hr); [intros e; by apply (entry_known pl)|].
  exists (picked t w r q (tk || negb (bool_decide (q = []))) s). split; [by apply pick_run|].
  set (tk' := tk || _).
  destruct r as [e|].
  - destruct Hr as (l1 & l2 & Hq & -> & Htk & _).
    assert (e ∈ _fun_fibers s) as He by (rewrite Hq; apply elem_of_app; right; by left).
    destruct (pl_entry _ _ Hs e He) as [Hent _].
    assert (forall p, fiber e = Some p -> holds w p = None) as Hnone.
    { intros p Ep. destruct (takes_queued _ _ _ _ _ Hs He Htk Ep) as (Hpl & _).
      destruct (holds w p) eqn:E; [|done]. apply (placed_holds _ _ _ _ _ _ Hs Hw) in E. congruence. }
    pose proof (picked_ok _ _ w e tk' true Hok Hp ltac:(split; [done|apply Htk]) Hnone) as Hok'.
    set (w' := mkWorker _ _ _ _ _ _ _) in *. destruct (fiber e) as [p|] eqn:Ep.
    + destruct (takes_queued _ _ _ _ _ Hs He Htk Ep) as (Hpl & f & Hf & Hst).
      exists (<[p := At t Hand]> pl). eapply (placed_dequeue pl s _ t w w' p f l1 e l2); try done.
      * by rewrite (holds_in_hand _ _ _ p Hok').
      * intros q Hqn. same_holds Hp Ep.
      * bookkeeping Hp.
      * bookkeeping Hp.
    + exists pl. apply (placed_quiet pl s _ t w w'); try done.
      * cbn. intros x. rewrite Hq, !elem_of_app, elem_of_cons. tauto.
      * unfold queued. cbn. rewrite Hq, !omap_app. cbn. by rewrite Ep.
      * intros q. same_holds Hp Ep.
      * bookkeeping Hp.
      * bookkeeping Hp.
  - destruct Hr as [-> _]. exists pl. apply (placed_quiet pl s _ t w (mkWorker (tls w) fcb_Reset tk' false (cb_fiber w) (idle_fiber w) Picked)); try done.
    + intros q. same_holds Hp Hp.
    + by apply picked_ok.
    + bookkeeping Hp.
    + bookkeeping Hp.
Qed.

(** A step that changes one of the thread's own fibers. *)
Lemma placed_own pl s s' t w w' p r r' f :
  placed pl s -> workers s !! t = Some w -> workers s' = <[t := w']> (workers s) ->
  _fun_fibers s' = _fun_fibers s -> pl p = At t r -> holds w' p = Some r' ->
  (forall q, q <> p -> holds w' q = holds w q) ->
  (forall q, q <> p -> heap (fs s') !! q = heap (fs s) !! q) ->
  heap (fs s') !! p = Some f -> status_ok (At t r') f ->
  (p ∈ queued s -> _status f = EXEC /\ (r' = Running \/ r' = Left)) ->
  worker_ok (heap (fs s')) t w' ->
  _active_threadNum s' = _active_threadNum s + (Z.b2z (is_busy w') - Z.b2z (is_busy w)) ->
  _idle_threadNum s' = _idle_threadNum s + (Z.b2z (is_idle w') - Z.b2z (is_idle w)) ->
  placed (<[p := At t r']> pl) s'.
Proof.
  intros Hs Hw Hw' Hq Hpl Hh Hhq Hheap Hf Hst Hqp Hok Ha Hi.
  destruct (counts_ok pl s t w w' _ _ Hs Hw eq_refl eq_refl) as [Hca Hci].
  assert (forall q, q <> p -> <[p := At t r']> pl q = pl q) as Hplq by (intros; by rewrite fn_lookup_insert_ne).
  apply (placed_update pl s _ s' t w' [p]); try done.
  - intros q Hn. assert (q <> p) by (intros ->; by apply Hn, list_elem_of_singleton). by rewrite Hheap, Hplq.
  - intros q ->%list_elem_of_singleton. rewrite fn_lookup_insert. split; [|by exists f].
    intros t' r0 Ht. rewrite Hpl. split; congruence.
  - by apply (holds_moved pl s t w w').
  - rewrite Hq. intros e He. destruct (pl_entry _ _ Hs e He) as [Hent Hqe]. split; [done|].
    intros q Eq. destruct (decide (q = p)) as [->|Hn].
    + assert (p ∈ queued s) as Hin by (apply list_elem_of_omap; by exists e).
      destruct (Hqp Hin) as [Hex Hr]. exists f. split; [done|]. right. split; [|done].
      exists t, r'. by rewrite fn_lookup_insert.
    + eapply queued_ok_same; [by apply Hheap|by apply Hplq|]. by apply Hqe.
  - unfold queued. rewrite Hq. apply Hs.
  - intros q. destruct (decide (q = p)) as [->|Hn]; [by rewrite fn_lookup_insert|]. rewrite Hplq by done.
    unfold queued. rewrite Hq. apply Hs.
  - by rewrite Ha.
  - by rewrite Hi.
Qed.

(** A step in which one of the thread's own fibers leaves it, to the queue if
    it is there now. *)
Lemma placed_drop pl s s' t w w' p r f tl :
  placed pl s -> workers s !! t = Some w -> workers s' = <[t := w']> (workers s) ->
  _fun_fibers s' = _fun_fibers s ++ tl ->
  (tl = [] \/ exists e, tl = [e] /\ entry_ok e /\ fiber e = Some p /\ p ∉ queued s) ->
  pl p = At t r -> holds w' p = None ->
  (forall q, q <> p -> holds w' q = holds w q) ->
  (forall q, q <> p -> heap (fs s') !! q = heap (fs s) !! q) ->
  heap (fs s') !! p = Some f -> status_ok Outside f ->
  worker_ok (heap (fs s')) t w' ->
  _active_threadNum s' = _active_threadNum s + (Z.b2z (is_busy w') - Z.b2z (is_busy w)) ->
  _idle_threadNum s' = _idle_threadNum s + (Z.b2z (is_idle w') - Z.b2z (is_idle w)) ->
  placed (<[p := if decide (p ∈ queued s') then Queued else Outside]> pl) s'.
Proof.
  intros Hs Hw Hw' Hq Htl Hpl Hh Hhq Hheap Hf Hst Hok Ha Hi. set (v := if decide _ then Queued else Outside).
  destruct (counts_ok pl s t w w' _ _ Hs Hw eq_refl eq_refl) as [Hca Hci].
  assert (forall q, q <> p -> <[p := v]> pl q = pl q) as Hplq by (intros; by rewrite fn_lookup_insert_ne).
  assert (queued s' = queued s ++ omap fiber tl) as Hqd by (unfold queued; by rewrite Hq, omap_app).
  assert (v = Outside \/ v = Queued) as Hv by (unfold v; case_decide; auto).
  apply (placed_update pl s _ s' t w' [p]); try done.
  - intros q Hn. assert (q <> p) by (intros ->; by apply Hn, list_elem_of_singleton). by rewrite Hheap, Hplq.
  - intros q ->%list_elem_of_singleton. rewrite fn_lookup_insert. split.
    + intros t' r0 Ht. rewrite Hpl. split; [congruence|]. destruct Hv as [-> | ->]; congruence.
    + exists f. split; [done|]. by destruct Hv as [-> | ->].
  - by apply (holds_gone pl s t w w').
  - assert (forall e q, e ∈ _fun_fibers s' -> fiber e = Some q -> queued_ok (<[p := v]> pl) (heap (fs s')) q) as Hqk.
    { intros e q He Eq. destruct (decide (q = p)) as [->|Hn].
      - exists f. split; [done|]. left. rewrite fn_lookup_insert. unfold v. rewrite decide_True; [done|].
        apply list_elem_of_omap. by exists e.
      - eapply queued_ok_same; [by apply Hheap|by apply Hplq|]. rewrite Hq in He. apply elem_of_app in He as [He|He].
        + by apply (pl_entry _ _ Hs e He).
        + destruct Htl as [-> |(e' & -> & _ & Ep & _)]; [by apply elem_of_nil in He|].
          apply list_elem_of_singleton in He as ->. congruence. }
    intros e He. split; [|by intros q; apply Hqk]. rewrite Hq in He. apply elem_of_app in He as [He|He].
    + by apply (pl_entry _ _ Hs e He).
    + destruct Htl as [-> |(e' & -> & Hent & _)]; [by apply elem_of_nil in He|]. by apply list_elem_of_singleton in He as ->.
  - rewrite Hqd. destruct Htl as [-> |(e' & -> & _ & Ep & Hp)]; [cbn; rewrite app_nil_r; apply Hs|].
    cbn. rewrite Ep. apply list.NoDup_app. split_and!; [apply Hs| |apply NoDup_singleton].
    intros x Hx ->%list_elem_of_singleton. done.
  - intros q. destruct (decide (q = p)) as [->|Hn].
    + rewrite fn_lookup_insert. unfold v. by case_decide.
    + rewrite Hplq by done. intros H%(pl_queued _ _ Hs). rewrite Hqd. apply elem_of_app. by left.
  - by rewrite Ha.
  - by rewrite Hi.
Qed.

Lemma placed_pipe pl n s : placed pl s -> placed pl (set_pipe n s).
Proof. intros []. by split. Qed.

Lemma placed_notifying pl n s : placed pl s -> placed pl (set_notifying n s).
Proof. intros []. by split. Qed.

(** ** The steps of the run loop, one by one *)
Lemma notify_ok pl s t : placed pl s -> pc_of s t = Some Picked ->
  exists s', notify t s = (Ok tt, s') /\ sinv s'.
Proof.
  intros Hs Hpc. destruct (at_pc _ _ _ _ Hs Hpc) as (w & Hw & Hp & Hok). clear Hpc.
  assert (exists n, (if tickle_me w then Tickle else mret tt) s = (Ok tt, set_pipe n s)) as [n E].
  { destruct (tickle_me w); [destruct (Tickle_run s) as (n & E & _); by exists n|].
    exists (pipe s). by destruct s. }
  unfold notify. step (worker_run t w s Hw). step E. rewrite (goto_run t Dispatch w) by done.
  eexists. split; [done|]. exists pl.
  apply (placed_quiet pl s _ t w (set_pc Dispatch w)); try done.
  - intros q. same_holds Hp Hp.
  - destruct Hok as [(sf & Hsf & Hsi & Hrun & Hcs & Hhs) Hcb Hhd (fi & Hfi & Hid)].
    unfold hand, pc_ok, idle_ok in *. rewrite Hp in *.
    split; unfold hand, pc_ok, idle_ok; cbn; try done; [by exists sf|by exists fi].
  - bookkeeping Hp.
  - bookkeeping Hp.
Qed.

Definition entered (t : Z) (w : Worker) (p : nat) (c : PC) (s : Scheduler) : Scheduler :=
  set_workers (<[t := set_pc c (set_tls (at_ (tls w) (Some p) (Some p)) w)]> (workers s))
    (set_fs (with_heap (fs s) (alter (set_status EXEC) p (heap (fs s)))) s).

Lemma swap_in_run s t w p f c sf g :
  workers s !! t = Some w -> t_scheduler_fiber (tls w) = Some sf -> heap (fs s) !! sf = Some g ->
  heap (fs s) !! p = Some f -> _status f <> EXEC ->
  swap_in t p c s = (Ok tt, entered t w p c s).
Proof.
  intros Hw Hsf Hg Hf Hst. unfold swap_in. step (on_fibers_run t w s (SwapIn p) tt _ _ Hw (SwapIn_ok _ _ p f sf g Hf Hst Hsf Hg)).
  rewrite (goto_run t c (set_tls (at_ (tls w) (Some p) (Some p)) w)) by (cbn; by rewrite lookup_insert_eq).
  unfold entered, set_workers, set_fs. cbn. by rewrite insert_insert_eq.
Qed.

Definition gave_back (t : Z) (w : Worker) (f : Fibers) (sf : nat) (s : Scheduler) : Scheduler :=
  set_workers (<[t := set_pc (returned (pc w)) (set_tls (at_ (tls w) (Some sf) (Some sf)) w)]> (workers s)) (set_fs f s).

Lemma leave_run s t w sf m f :
  workers s !! t = Some w -> m (fs s, tls w) = (Ok tt, (f, at_ (tls w) (Some sf) (Some sf))) ->
  leave t m s = (Ok tt, gave_back t w f sf s).
Proof.
  intros Hw E. unfold leave. step (on_fibers_run t w s m tt _ _ Hw E).
  match goal with |- context [_ ?s1] => step (worker_run t (set_tls (at_ (tls w) (Some sf) (Some sf)) w) s1
    (lookup_insert_eq _ _ _)) end.
  unfold set_worker, modify, gave_back, set_workers, set_fs. cbn. by rewrite insert_insert_eq.
Qed.


Lemma fresh_outside pl s p : placed pl s -> heap (fs s) !! p = None -> pl p = Outside.
Proof.
  intros Hs Hp. destruct (decide (pl p = Outside)) as [|Hn]; [done|].
  destruct (pl_known _ _ Hs p Hn) as [f Hf]. congruence.
Qed.

Lemma fresh_not_queued pl s p : placed pl s -> heap (fs s) !! p = None -> p ∉ queued s.
Proof.
  intros Hs Hp (e & He & Ep)%queued_elem. destruct (entry_known _ _ _ Hs He) as [_ Hk].
  destruct (Hk p Ep) as [f Hf]. congruence.
Qed.

(** A step that creates fibers for the thread, which may be new itself. *)
Lemma placed_new pl pl' s s' t w' (l : list nat) :
  placed pl s -> workers s' = <[t := w']> (workers s) -> _fun_fibers s' = _fun_fibers s ->
  (forall p, p ∈ l -> heap (fs s) !! p = None /\ pl' p <> Queued /\ (forall t' r, t' <> t -> pl' p <> At t' r) /\
     exists f, heap (fs s') !! p = Some f /\ status_ok (pl' p) f) ->
  (forall p, p ∉ l -> heap (fs s') !! p = heap (fs s) !! p /\ pl' p = pl p) ->
  (forall p r, pl' p = At t r <-> holds w' p = Some r) -> worker_ok (heap (fs s')) t w' ->
  _active_threadNum s' = count is_busy (<[t := w']> (workers s)) ->
  _idle_threadNum s' = count is_idle (<[t := w']> (workers s)) ->
  placed pl' s'.
Proof.
  intros Hs Hw' Hq Hl Hout Hat Hok Ha Hi.
  assert (forall p, p ∈ queued s -> p ∉ l) as Hql.
  { intros p Hp Hpl. destruct (Hl p Hpl) as [Hn _]. by apply (fresh_not_queued _ _ _ Hs Hn). }
  apply (placed_update pl s _ s' t w' l); try done.
  - intros p Hp. destruct (Hl p Hp) as (Hn & _ & Hoth & Hf). split; [|done]. intros t' r Ht. split; [|by apply Hoth].
    by rewrite (fresh_outside _ _ _ Hs Hn).
  - rewrite Hq. apply (entries_keep pl s); [done|done|]. intros p Hp. by apply Hout, Hql.
  - unfold queued. rewrite Hq. apply Hs.
  - unfold queued. rewrite Hq. intros p Hp. destruct (decide (p ∈ l)) as [Hpl|Hpl]; [by destruct (Hl p Hpl) as (_ & ? & _)|].
    apply (pl_queued _ _ Hs). by destruct (Hout p Hpl) as [_ <-].
Qed.

(** A thread that found nothing has an empty entry. *)
Lemma active_entry h t w : worker_ok h t w -> pc w = Dispatch -> fcb w <> fcb_Reset -> is_active w = true.
Proof.
  intros [(sf & _ & _ & Hrun & _) _ _ _] Hp Hn. unfold pc_ok in Hrun. rewrite Hp in Hrun.
  destruct (is_active w); [done|]. by destruct Hrun.
Qed.

(** The task's fiber is entered. *)
Lemma enter_task_ok pl s t w p f :
  placed pl s -> workers s !! t = Some w -> pc w = Dispatch -> fiber (fcb w) = Some p -> heap (fs s) !! p = Some f ->
  exists s', swap_in t p InTask s = (Ok tt, s') /\ sinv s'.
Proof.
  intros Hs Hw Hp Ep Hf. pose proof (pl_worker _ _ Hs _ _ Hw) as Hok.
  assert (hand w = Some p) as Hh by (unfold hand; by rewrite Hp).
  assert (pl p = At t Hand) as Hpl.
  { apply (placed_holds _ _ _ _ _ _ Hs Hw). by rewrite (holds_in_hand _ _ _ _ Hok Hh), Hp. }
  pose proof (pl_status _ _ Hs _ _ Hf) as Hst. rewrite Hpl in Hst. destruct Hst as [Hst Huc].
  destruct (sched_fiber _ _ _ _ Hs Hw) as (sf0 & g0 & Hsf0 & Hg0 & _).
  exists (entered t w p InTask s). split; [by apply (swap_in_run _ _ _ _ f _ sf0 g0)|].
  assert (p <> idle_fiber w) as Hpi by (intros ->; by destruct Hok as [_ _ [? _] _]).
  assert (is_active w = true) as Ha by (eapply active_entry; [done|done|intros E; by rewrite E in Ep]).
  set (w' := set_pc InTask (set_tls (at_ (tls w) (Some p) (Some p)) w)).
  assert (worker_ok (alter (set_status EXEC) p (heap (fs s))) t w') as Hok'.
  { destruct Hok as [(sf & Hsf & Hsi & Hrun & Hcs & Hhs) Hcb Hhd (fi & Hfi & Hid)].
    unfold hand, pc_ok, idle_ok in *. rewrite Hp in *. destruct Hrun as [_ Hact].
    split; unfold hand, pc_ok, idle_ok; cbn; try done.
    - exists sf. split_and!; try done; [by exists p|]. destruct (is_active w); [apply Hact|]. by rewrite Hact in Ep.
    - exists fi. by rewrite lookup_alter_ne. }
  exists (<[p := At t Running]> pl).
  apply (placed_own pl s _ t w w' p Hand Running (set_status EXEC f)); try done.
  - by rewrite (holds_in_hand _ _ _ p Hok').
  - intros q Hq. unfold w'. same_holds Hp Ep.
  - intros q Hq. cbn. by rewrite lookup_alter_ne.
  - cbn. by rewrite lookup_alter_eq, Hf.
  - by auto.
  - unfold w'. cbn. unfold is_busy. cbn. rewrite Hp, Ha. cbn. lia.
  - unfold w'. bookkeeping Hp.
Qed.

Lemma set_tls_same w : set_tls (tls w) w = w.
Proof. by destruct w. Qed.

(** The state in which cb_fiber [c] runs the task, from fibers [f0] in which it
    has been made ready. *)
Definition running_cb (t : Z) (w : Worker) (c : nat) (f0 : Fibers) (s : Scheduler) : Scheduler :=
  set_workers (<[t := set_pc (InCb (threadId (fcb w)))
      (set_tls (at_ (tls w) (Some c) (Some c)) (set_fcb fcb_Reset (set_cb (Some c) w)))]> (workers s))
    (set_fs (with_heap f0 (alter (set_status EXEC) c (heap f0))) s).

Lemma running_cb_worker h h' t w c :
  worker_ok h t w -> pc w = Dispatch -> is_active w = true -> c <> idle_fiber w -> t_scheduler_fiber (tls w) <> Some c ->
  h' !! idle_fiber w = h !! idle_fiber w ->
  worker_ok h' t (set_pc (InCb (threadId (fcb w)))
    (set_tls (at_ (tls w) (Some c) (Some c)) (set_fcb fcb_Reset (set_cb (Some c) w)))).
Proof.
  intros [(sf & Hsf & Hsi & Hrun & Hcs & Hhs) Hcb Hhd (fi & Hfi & Hid)] Hp Ha Hci Hcsf Hh.
  unfold hand, pc_ok, idle_ok in *. rewrite Hp in *. rewrite Ha in Hrun. destruct Hrun as [_ [_ Hft]].
  split; unfold hand, pc_ok, idle_ok; cbn; try done.
  - exists sf. split_and!; try done; [by exists c|congruence].
  - congruence.
  - exists fi. by rewrite Hh.
Qed.

(** Running a task's function in cb_fiber, once that is an initialised fiber. *)
Lemma run_cb_run s t w w0 c f0 f sf g :
  workers s !! t = Some w0 -> t_scheduler_fiber (tls w) = Some sf -> heap f0 !! sf = Some g -> w0 = w ->
  heap f0 !! c = Some f -> _status f <> EXEC ->
  (w ← worker t;
   set_worker t (set_fcb fcb_Reset (set_cb (Some c) w));;
   swap_in t c (InCb (threadId (fcb w)))) (set_fs f0 s) = (Ok tt, running_cb t w c f0 s).
Proof.
  intros Hw Hsf Hg -> Hf Hst. step (worker_run t w (set_fs f0 s) Hw). unfold set_worker.
  set (w1 := set_fcb fcb_Reset (set_cb (Some c) w)).
  step (eq_refl : modify (fun s => set_workers (<[t := w1]> (workers s)) s) (set_fs f0 s) =
    (Ok tt, set_workers (<[t := w1]> (workers s)) (set_fs f0 s))).
  rewrite (swap_in_run _ t w1 c f _ sf g) by (cbn; rewrite ?lookup_insert_eq; done).
  unfold entered, running_cb, set_workers, set_fs. cbn. by rewrite insert_insert_eq.
Qed.

(** cb_fiber is there and spare. *)
Lemma reuse_cb_ok stack pl s t w c g fresh :
  placed pl s -> workers s !! t = Some w -> pc w = Dispatch -> fiber (fcb w) = None -> func (fcb w) = Some g ->
  cb_fiber w = Some c -> exists s', dispatch stack t fresh s = (Ok tt, s') /\ sinv s'.
Proof.
  intros Hs Hw Hp Ef Eg Hc. pose proof (pl_worker _ _ Hs _ _ Hw) as Hok.
  destruct (sched_fiber _ _ _ _ Hs Hw) as (sf & gs & Hsf & Hg & Hpls & _).
  assert (is_active w = true) as Ha by (eapply active_entry; [done|done|intros E; by rewrite E in Eg]).
  assert (pl c = At t Spare) as Hpl.
  { apply (placed_holds _ _ _ _ _ _ Hs Hw). by rewrite (holds_cb _ _ _ _ Hok Hc), Hp. }
  destruct (pl_known _ _ Hs c) as [f Hf]; [congruence|].
  pose proof (pl_status _ _ Hs _ _ Hf) as Hst. rewrite Hpl in Hst. destruct Hst as [Hst Huc].
  assert (c <> sf) as Hcsf by congruence.
  assert (c <> idle_fiber w) as Hci by (intros ->; by destruct Hok as [_ ? _ _]).
  set (f0 := with_heap (fs s) (alter (fun f => set_status INIT (set_func (Some g) f)) c (heap (fs s)))).
  assert (heap f0 !! c = Some (set_status INIT (set_func (Some g) f))) as Hc0 by (cbn; by rewrite lookup_alter_eq, Hf).
  assert (heap f0 !! sf = Some gs) as Hg0 by (cbn; by rewrite lookup_alter_ne).
  exists (running_cb t w c f0 s). split.
  - unfold dispatch. step (worker_run t w s Hw). rewrite Ef. step (eq_refl : (mret None : M Scheduler (option nat)) s = (Ok None, s)).
    rewrite Eg, Hc.
    assert ((on_fibers t (Reset c (Some g));; mret c) s = (Ok c, set_workers (<[t := w]> (workers s)) (set_fs f0 s))) as E.
    { step (on_fibers_run t w s (Reset c (Some g)) tt f0 (tls w) Hw (Reset_ok c (Some g) _ _ f Hf (or_introl Hst))).
      by rewrite set_tls_same. }
    step E. rewrite insert_id by done.
    by apply (run_cb_run s t w w c f0 (set_status INIT (set_func (Some g) f)) sf gs).
  - set (w' := set_pc (InCb (threadId (fcb w))) (set_tls (at_ (tls w) (Some c) (Some c)) (set_fcb fcb_Reset (set_cb (Some c) w)))).
    assert (heap (fs (running_cb t w c f0 s)) !! idle_fiber w = heap (fs s) !! idle_fiber w) as Hid
      by (cbn; by rewrite !lookup_alter_ne).
    pose proof (running_cb_worker _ _ t w c Hok Hp Ha Hci ltac:(congruence) Hid) as Hok'. fold w' in Hok'.
    exists (<[c := At t Running]> pl).
    apply (placed_own pl s _ t w w' c Spare Running (set_status EXEC (set_status INIT (set_func (Some g) f)))); try done.
    + by rewrite (holds_cb _ _ _ c Hok').
    + intros q Hq. unfold w'. apply holds_ext; cbn; unfold hand; cbn; rewrite ?Hp, ?Ef, ?Hc; try done; congruence.
    + intros q Hq. cbn. by rewrite !lookup_alter_ne.
    + cbn. by rewrite !lookup_alter_eq, Hf.
    + by auto.
    + unfold w'. cbn. unfold is_busy. cbn. rewrite Hp, Ha. cbn. lia.
    + unfold w'. bookkeeping Hp.
Qed.

(** A new fiber is made for the task. *)
Lemma new_cb_ok stack pl s t w g fresh :
  placed pl s -> workers s !! t = Some w -> pc w = Dispatch -> fiber (fcb w) = None -> func (fcb w) = Some g ->
  cb_fiber w = None -> heap (fs s) !! fresh = None ->
  exists s', dispatch stack t fresh s = (Ok tt, s') /\ sinv s'.
Proof.
  intros Hs Hw Hp Ef Eg Hc Hfr. pose proof (pl_worker _ _ Hs _ _ Hw) as Hok.
  destruct (sched_fiber _ _ _ _ Hs Hw) as (sf & gs & Hsf & Hg & Hpls & _).
  assert (is_active w = true) as Ha by (eapply active_entry; [done|done|intros E; by rewrite E in Eg]).
  assert (fresh <> sf) as Hcsf by congruence.
  assert (fresh <> idle_fiber w) as Hci by (intros ->; destruct Hok as [_ _ _ (fi & Hfi & _)]; congruence).
  set (nf := mkFiber (s_fiber_id (fs s) + 1) INIT (if 0 =? 0 then stack else 0) (Some g) false).
  set (f0 := mkFibers (<[fresh := nf]> (heap (fs s))) (s_total_num (fs s) + 1) (s_fiber_id (fs s) + 1)).
  exists (running_cb t w fresh f0 s). split.
  - unfold dispatch. step (worker_run t w s Hw). rewrite Ef. step (eq_refl : (mret None : M Scheduler (option nat)) s = (Ok None, s)).
    rewrite Eg, Hc.
    assert ((on_fibers t (NewFiber stack fresh 0 (Some g) false);; mret fresh) s =
      (Ok fresh, set_workers (<[t := w]> (workers s)) (set_fs f0 s))) as E.
    { step (on_fibers_run t w s (NewFiber stack fresh 0 (Some g) false) tt f0 (tls w) Hw (NewFiber_ok stack fresh 0 (Some g) false _ _)).
      by rewrite set_tls_same. }
    step E. rewrite insert_id by done.
    apply (run_cb_run s t w w fresh f0 nf sf gs); try done; cbn; by rewrite ?lookup_insert_eq, ?lookup_insert_ne.
  - set (w' := set_pc (InCb (threadId (fcb w))) (set_tls (at_ (tls w) (Some fresh) (Some fresh)) (set_fcb fcb_Reset (set_cb (Some fresh) w)))).
    assert (heap (fs (running_cb t w fresh f0 s)) !! idle_fiber w = heap (fs s) !! idle_fiber w) as Hid
      by (cbn; by rewrite lookup_alter_ne, lookup_insert_ne).
    pose proof (running_cb_worker _ _ t w fresh Hok Hp Ha Hci ltac:(congruence) Hid) as Hok'. fold w' in Hok'.
    assert (holds w fresh = None) as Hn.
    { destruct (holds w fresh) eqn:E; [|done]. apply (placed_holds _ _ _ _ _ _ Hs Hw) in E.
      rewrite (fresh_outside _ _ _ Hs Hfr) in E. done. }
    destruct (counts_ok pl s t w w' 0 0 Hs Hw) as [Hca Hci'];
      [unfold is_busy; cbn; by rewrite Hp, Ha|unfold is_idle; cbn; by rewrite Hp|].
    exists (<[fresh := At t Running]> pl). apply (placed_new pl _ s _ t w' [fresh]); try done.
    + intros p ->%list_elem_of_singleton. rewrite fn_lookup_insert. split_and!; try done; [congruence|].
      exists (set_status EXEC nf). split; [|done]. cbn. by rewrite lookup_alter_eq, lookup_insert_eq.
    + intros p Hpn. assert (p <> fresh) by (intros ->; by apply Hpn, list_elem_of_singleton).
      rewrite fn_lookup_insert_ne by done. split; [|done]. cbn. by rewrite lookup_alter_ne, lookup_insert_ne.
    + apply (holds_moved pl s t w w'); [done|done|by rewrite (holds_cb _ _ _ fresh Hok')|].
      intros q Hq. unfold w'. apply holds_ext; cbn; unfold hand; cbn; rewrite ?Hp, ?Ef, ?Hc; try done; try congruence.
      split; congruence.
    + cbn. lia.
    + cbn. lia.
Qed.

(** A thread moves on without touching a fiber. *)
Lemma goto_ok pl s s0 t w p :
  placed pl s -> workers s !! t = Some w -> pc w = Dispatch -> (p = Loop \/ p = ToIdle \/ p = Exited) ->
  (fiber (fcb w) = None) -> s0 = s -> is_active w = false ->
  exists s', goto t p s0 = (Ok tt, s') /\ sinv s'.
Proof.
  intros Hs Hw Hp Hto Ef -> Ha. eexists. split; [by apply goto_run|]. exists pl.
  apply (placed_quiet pl s _ t w (set_pc p w)); try done.
  - intros q. apply holds_ext; cbn; unfold hand; cbn; rewrite ?Hp, ?Ef; try done;
      destruct Hto as [-> |[-> | ->]]; done.
  - destruct (pl_worker _ _ Hs _ _ Hw) as [(sf & Hsf & Hsi & Hrun & Hcs & Hhs) Hcb Hhd (fi & Hfi & Hid)].
    unfold hand, pc_ok, idle_ok in *. rewrite Hp in *. destruct Hrun as [Hrun _].
    split; unfold hand, pc_ok, idle_ok; cbn; try done.
    + exists sf. by destruct Hto as [-> |[-> | ->]].
    + by destruct Hto as [-> |[-> | ->]].
    + exists fi. by destruct Hto as [-> |[-> | ->]].
  - cbn. unfold is_busy. cbn. rewrite Hp, Ha. destruct Hto as [-> |[-> | ->]]; cbn; lia.
  - cbn. unfold is_idle. cbn. rewrite Hp. destruct Hto as [-> |[-> | ->]]; cbn; lia.
Qed.

(** The fiber of the task has ended: the thread drops it. *)
Lemma drop_task_ok pl s t w p f :
  placed pl s -> workers s !! t = Some w -> pc w = Dispatch -> fiber (fcb w) = Some p -> heap (fs s) !! p = Some f ->
  exists s', (modify (add_active (-1));; goto t Loop) s = (Ok tt, s') /\ sinv s'.
Proof.
  intros Hs Hw Hp Ep Hf. pose proof (pl_worker _ _ Hs _ _ Hw) as Hok.
  assert (hand w = Some p) as Hh by (unfold hand; by rewrite Hp).
  assert (is_active w = true) as Ha by (eapply active_entry; [done|done|intros E; by rewrite E in Ep]).
  assert (pl p = At t Hand) as Hpl.
  { apply (placed_holds _ _ _ _ _ _ Hs Hw). by rewrite (holds_in_hand _ _ _ _ Hok Hh), Hp. }
  pose proof (pl_status _ _ Hs _ _ Hf) as Hst. rewrite Hpl in Hst.
  set (s1 := add_active (-1) s). exists (set_workers (<[t := set_pc Loop w]> (workers s)) s1). split.
  { step (eq_refl : modify (add_active (-1)) s = (Ok tt, s1)). exact (goto_run t Loop w s1 Hw). }
  destruct Hok as [(sf & Hsf & Hsi & Hrun & Hcs & Hhs) Hcb Hhd (fi & Hfi & Hid)].
  unfold hand, pc_ok, idle_ok in *. rewrite Hp in *. destruct Hrun as [Hrun _]. destruct Hhd as [Hhi Hhc].
  eexists. apply (placed_drop pl s _ t w (set_pc Loop w) p Hand f []); try done.
  - cbn. by rewrite app_nil_r.
  - by left.
  - unfold holds, hand. cbn. repeat case_decide; try done; try congruence. exfalso. apply Hhc; congruence.
  - intros q Hq. same_holds Hp Ep.
  - split; unfold hand, pc_ok, idle_ok; cbn; try done; [by exists sf|by exists fi].
  - cbn. unfold is_busy. cbn. rewrite Hp, Ha. cbn. lia.
  - bookkeeping Hp.
Qed.

Lemma dispatch_ok stack pl s t fresh :
  placed pl s -> pc_of s t = Some Dispatch -> heap (fs s) !! fresh = None ->
  exists s', dispatch stack t fresh s = (Ok tt, s') /\ sinv s'.
Proof.
  intros Hs Hpc Hfr. destruct (at_pc _ _ _ _ Hs Hpc) as (w & Hw & Hp & Hok). clear Hpc.
  destruct Hok as [(sf & Hsf & Hsi & Hrun & Hcs & Hhs) Hcb Hhd (fi & Hfi & Hid)].
  unfold pc_ok in Hrun. rewrite Hp in Hrun. destruct Hrun as [_ Hact].
  destruct (fiber (fcb w)) as [p|] eqn:Ef.
  - assert (is_active w = true) as Ha by (destruct (is_active w); [done|by rewrite Hact in Ef]).
    rewrite Ha in Hact. destruct Hact as [Hent _]. unfold entry_ok in Hent. rewrite Ef in Hent.
    destruct (func (fcb w)) eqn:Eg; [done|].
    assert (holds w p = Some Hand) as Hh.
    { rewrite (holds_in_hand _ _ _ p (pl_worker _ _ Hs _ _ Hw)); [by rewrite Hp|]. unfold hand. by rewrite Hp. }
    apply (placed_holds _ _ _ _ _ _ Hs Hw) in Hh. destruct (pl_known _ _ Hs p) as [f Hf]; [congruence|].
    unfold dispatch. step (worker_run t w s Hw). rewrite Ef.
    assert ((st ← status_of p; mret (if ended st then None else Some p)) s =
      (Ok (if ended (_status f) then None else Some p), s)) as E by (by step (status_of_run p f s Hf)).
    step E. destruct (ended (_status f)).
    + rewrite Eg, Ha. by apply (drop_task_ok pl s t w p f).
    + by apply (enter_task_ok pl s t w p f).
  - destruct (func (fcb w)) as [g|] eqn:Eg.
    + destruct (cb_fiber w) as [c|] eqn:Ec; [by apply (reuse_cb_ok stack pl s t w c g)|by apply (new_cb_ok stack pl s t w g)].
    + assert (is_active w = false) as Ha.
      { destruct (is_active w); [|done]. destruct Hact as [Hent _]. unfold entry_ok in Hent. by rewrite Ef, Eg in Hent. }
      unfold dispatch. step (worker_run t w s Hw). rewrite Ef.
      step (eq_refl : (mret None : M Scheduler (option nat)) s = (Ok None, s)). rewrite Eg, Ha.
      step (status_of_run _ fi s Hfi).
      destruct (ended (_status fi)); eapply goto_ok; eauto.
Qed.

Lemma enter_idle_ok pl s t : placed pl s -> pc_of s t = Some ToIdle ->
  exists s', enter_idle t s = (Ok tt, s') /\ sinv s'.
Proof.
  intros Hs Hpc. destruct (at_pc _ _ _ _ Hs Hpc) as (w & Hw & Hp & Hok). clear Hpc.
  destruct (sched_fiber _ _ _ _ Hs Hw) as (sf0 & g0 & Hsf0 & Hg0 & _).
  destruct Hok as [(sf & Hsf & Hsi & Hrun & Hcs & Hhs) Hcb Hhd (fi & Hfi & Hid)].
  unfold hand, pc_ok, idle_ok in *. rewrite Hp in *.
  set (s1 := add_idle 1 s). set (w' := set_pc InIdle (set_tls (at_ (tls w) (Some (idle_fiber w)) (Some (idle_fiber w))) w)).
  exists (entered t w (idle_fiber w) InIdle s1). split.
  { unfold enter_idle. step (eq_refl : modify (add_idle 1) s = (Ok tt, s1)).
    rewrite (bind_ok _ _ _ _ _ (worker_run t w s1 Hw)). by apply (swap_in_run _ _ _ _ fi _ sf0 g0). }
  assert (pl (idle_fiber w) = At t Idler) as Hpl by (apply (placed_holds _ _ _ _ _ _ Hs Hw), holds_idle).
  pose proof (pl_status _ _ Hs _ _ Hfi) as Hst. rewrite Hpl in Hst.
  assert (idle_fiber w ∉ queued s) as Hnq.
  { intros (e & He & Ee)%queued_elem. destruct (pl_entry _ _ Hs e He) as [_ Hqe].
    destruct (Hqe _ Ee) as (f' & Hf' & [Hx|((t' & r & Hx & [-> | ->]) & _)]); congruence. }
  eexists. apply (placed_own pl s _ t w w' (idle_fiber w) Idler Idler (set_status EXEC fi)); try done.
  - exact (holds_idle w').
  - intros q Hq. unfold w'. same_holds Hp Hp.
  - intros q Hq. cbn. by rewrite lookup_alter_ne.
  - cbn. by rewrite lookup_alter_eq, Hfi.
  - split; unfold hand, pc_ok, idle_ok; cbn; try done; [exists sf; by split_and!|].
    exists (set_status EXEC fi). by rewrite lookup_alter_eq, Hfi.
  - unfold w'. bookkeeping Hp.
  - unfold w'. bookkeeping Hp.
Qed.

(** The fiber that runs on a thread. *)
Lemma running_fiber pl s t : placed pl s -> in_task (pc_of s t) ->
  exists w p f sf g, workers s !! t = Some w /\ (pc w = InTask \/ exists tid, pc w = InCb tid) /\
    current s t = Some p /\ t_cur_fiber (tls w) = Some p /\ holds w p = Some Running /\ pl p = At t Running /\
    heap (fs s) !! p = Some f /\ _status f = EXEC /\ _user_caller f = false /\
    t_scheduler_fiber (tls w) = Some sf /\ heap (fs s) !! sf = Some g /\ sf <> p.
Proof.
  intros Hs Hin. unfold pc_of in Hin. destruct (workers s !! t) as [w|] eqn:Hw; [|done]. cbn in Hin.
  pose proof (pl_worker _ _ Hs _ _ Hw) as Hok. destruct (sched_fiber _ _ _ _ Hs Hw) as (sf & g & Hsf & Hg & Hpls & _).
  assert (exists p, t_cur_fiber (tls w) = Some p /\ holds w p = Some Running /\ (pc w = InTask \/ exists tid, pc w = InCb tid)) as (p & Hcur & Hh & Hpc).
  { pose proof Hok as [(sf' & _ & _ & Hrun & _) _ _ _]. unfold pc_ok in Hrun. destruct (pc w) as [| | | | |tid| | | | |] eqn:Hp; try done.
    - destruct Hrun as [(p & Ep & Hc & _) _]. exists p. split_and!; [done| |by left].
      rewrite (holds_in_hand _ _ _ p Hok), Hp; [done|]. unfold hand. by rewrite Hp.
    - destruct Hrun as [(p & Ep & Hc & _) _]. exists p. split_and!; [done| |right; by exists tid].
      by rewrite (holds_cb _ _ _ p Hok Ep), Hp. }
  assert (pl p = At t Running) as Hpl by (by apply (placed_holds _ _ _ _ _ _ Hs Hw)).
  destruct (pl_known _ _ Hs p) as [f Hf]; [congruence|].
  pose proof (pl_status _ _ Hs _ _ Hf) as Hst. rewrite Hpl in Hst. destruct Hst as [Hst Huc].
  exists w, p, f, sf, g. split_and!; try done; [|congruence]. unfold current. by rewrite Hw.
Qed.

(** It gives the thread back, changed by [h]. *)
Lemma left_ok pl s t w p f sf h :
  placed pl s -> workers s !! t = Some w -> (pc w = InTask \/ exists tid, pc w = InCb tid) ->
  holds w p = Some Running -> pl p = At t Running -> heap (fs s) !! p = Some f ->
  t_scheduler_fiber (tls w) = Some sf ->
  _user_caller (h f) = false -> (p ∈ queued s -> _status (h f) = EXEC) ->
  placed (<[p := At t Left]> pl) (gave_back t w (with_heap (fs s) (alter h p (heap (fs s)))) sf s).
Proof.
  intros Hs Hw Hpc Hh Hpl Hf Hsf Huc Hq. pose proof (pl_worker _ _ Hs _ _ Hw) as Hok.
  set (w' := set_pc (returned (pc w)) (set_tls (at_ (tls w) (Some sf) (Some sf)) w)).
  destruct (pl_worker _ _ Hs _ _ Hw) as [(sf' & Hsf' & Hsi & Hrun & Hcs & Hhs) Hcb Hhd (fi & Hfi & Hid)].
  assert (sf' = sf) as -> by congruence.
  assert (p <> idle_fiber w) as Hpi by (intros ->; by rewrite holds_idle in Hh).
  assert (worker_ok (alter h p (heap (fs s))) t w') as Hok'.
  { unfold w', hand, pc_ok, idle_ok in *.
    destruct Hpc as [Hp|[tid Hp]]; rewrite Hp in *; destruct Hrun as [(q & Eq & _) Hft];
      split; unfold hand, pc_ok, idle_ok; cbn; try done; try (exists fi; by rewrite lookup_alter_ne);
      exists sf; split_and!; try done; congruence. }
  assert (holds w' p = Some Left) as Hh'.
  { unfold holds in Hh. unfold holds, w', hand in *. cbn. repeat case_decide; try done;
      destruct Hpc as [Hp|[tid Hp]]; rewrite Hp in *; cbn in *; try done; congruence. }
  apply (placed_own pl s _ t w w' p Running Left (h f)); try done.
  - intros q Hq'. unfold holds, w', hand in *. cbn.
    destruct Hpc as [Hp|[tid Hp]]; rewrite Hp in *; cbn in *; repeat case_decide; try done; congruence.
  - intros q Hq'. cbn. by rewrite lookup_alter_ne.
  - cbn. by rewrite lookup_alter_eq, Hf.
  - auto.
  - unfold w', is_busy. destruct Hpc as [Hp|[tid Hp]]; cbn; rewrite Hp; cbn; lia.
  - unfold w', is_idle. destruct Hpc as [Hp|[tid Hp]]; cbn; rewrite Hp; cbn; lia.
Qed.

Lemma with_heap_same f p : with_heap f (alter (fun x => x) p (heap f)) = f.
Proof. unfold with_heap. rewrite alter_id by done. by destruct f. Qed.

Lemma yield_hold_ok pl s t : placed pl s -> in_task (pc_of s t) ->
  exists s', leave t (YieldToHold 0) s = (Ok tt, s') /\ sinv s'.
Proof.
  intros Hs Hin. destruct (running_fiber _ _ _ Hs Hin) as
    (w & p & f & sf & g & Hw & Hpc & _ & Hcur & Hh & Hpl & Hf & Hst & Huc & Hsf & Hg & Hn).
  exists (gave_back t w (fs s) sf s). split.
  - apply leave_run; [done|]. by apply (YieldToHold_ok 0 _ _ p f sf g).
  - eexists. rewrite <- (with_heap_same (fs s) p) at 1. by eapply (left_ok pl s t w p f sf).
Qed.

Lemma yield_ready_ok pl s t : placed pl s -> in_task (pc_of s t) -> (forall p, current s t = Some p -> p ∉ queued s) ->
  exists s', leave t (YieldToReady 0) s = (Ok tt, s') /\ sinv s'.
Proof.
  intros Hs Hin Hq. destruct (running_fiber _ _ _ Hs Hin) as
    (w & p & f & sf & g & Hw & Hpc & Hc & Hcur & Hh & Hpl & Hf & Hst & Huc & Hsf & Hg & Hn).
  eexists. split.
  - apply leave_run; [done|]. by apply (YieldToReady_ok 0 _ _ p f sf g).
  - eexists. eapply (left_ok pl s t w p f sf); try done. intros H. by destruct (Hq p Hc).
Qed.

Lemma end_ok pl s t threw : placed pl s -> in_task (pc_of s t) -> (forall p, current s t = Some p -> p ∉ queued s) ->
  exists s', leave t (MainFunc_end 0 threw) s = (Ok tt, s') /\ sinv s'.
Proof.
  intros Hs Hin Hq. destruct (running_fiber _ _ _ Hs Hin) as
    (w & p & f & sf & g & Hw & Hpc & Hc & Hcur & Hh & Hpl & Hf & Hst & Huc & Hsf & Hg & Hn).
  eexists. split.
  - apply leave_run; [done|]. by apply (MainFunc_end_ok 0 threw _ _ p f sf g).
  - eexists. eapply (left_ok pl s t w p f sf); try done. intros H. by destruct (Hq p Hc).
Qed.

(** The idle fiber gives the thread back. *)
Lemma idle_left_ok pl s t w sf h f :
  placed pl s -> workers s !! t = Some w -> pc w = InIdle -> heap (fs s) !! idle_fiber w = Some f ->
  t_scheduler_fiber (tls w) = Some sf -> _user_caller (h f) = false ->
  placed (<[idle_fiber w := At t Idler]> pl)
    (gave_back t w (with_heap (fs s) (alter h (idle_fiber w) (heap (fs s)))) sf s).
Proof.
  intros Hs Hw Hp Hf Hsf Huc.
  destruct (pl_worker _ _ Hs _ _ Hw) as [(sf' & Hsf' & Hsi & Hrun & Hcs & Hhs) Hcb Hhd (fi & Hfi & Hid)].
  assert (sf' = sf) as -> by congruence.
  set (w' := set_pc (returned (pc w)) (set_tls (at_ (tls w) (Some sf) (Some sf)) w)).
  assert (pl (idle_fiber w) = At t Idler) as Hpl by (apply (placed_holds _ _ _ _ _ _ Hs Hw), holds_idle).
  unfold hand, pc_ok, idle_ok in *. rewrite Hp in *.
  apply (placed_own pl s _ t w w' (idle_fiber w) Idler Idler (h f)); try done.
  - exact (holds_idle w').
  - intros q Hq. unfold w'. same_holds Hp Hp.
  - intros q Hq. cbn. by rewrite lookup_alter_ne.
  - cbn. by rewrite lookup_alter_eq, Hf.
  - intros (e & He & Ee)%queued_elem. destruct (pl_entry _ _ Hs e He) as [_ Hqe].
    destruct (Hqe _ Ee) as (f' & Hf' & [Hx|((t' & r & Hx & [-> | ->]) & _)]); congruence.
  - unfold w'. split; unfold hand, pc_ok, idle_ok; cbn; rewrite ?Hp; cbn; try done; [exists sf; by split_and!|].
    exists (h f). by rewrite lookup_alter_eq, Hf.
  - unfold w', is_busy. cbn. rewrite ?Hp. cbn. lia.
  - unfold w', is_idle. cbn. rewrite ?Hp. cbn. lia.
Qed.

(** The idle fiber of a thread that runs it. *)
Lemma idle_running pl s t : placed pl s -> pc_of s t = Some InIdle ->
  exists w f sf g, workers s !! t = Some w /\ pc w = InIdle /\ t_cur_fiber (tls w) = Some (idle_fiber w) /\
    heap (fs s) !! idle_fiber w = Some f /\ _status f = EXEC /\ _user_caller f = false /\
    t_scheduler_fiber (tls w) = Some sf /\ heap (fs s) !! sf = Some g /\ sf <> idle_fiber w.
Proof.
  intros Hs Hpc. destruct (at_pc _ _ _ _ Hs Hpc) as (w & Hw & Hp & Hok). clear Hpc.
  destruct (sched_fiber _ _ _ _ Hs Hw) as (sf & g & Hsf & Hg & _ & Hn & Hrun).
  destruct Hok as [_ _ _ (f & Hf & Hid)]. unfold pc_ok, idle_ok in *. rewrite Hp in *. destruct Hrun as [Hc _].
  assert (pl (idle_fiber w) = At t Idler) as Hpl by (apply (placed_holds _ _ _ _ _ _ Hs Hw), holds_idle).
  pose proof (pl_status _ _ Hs _ _ Hf) as Hst. rewrite Hpl in Hst. by exists w, f, sf, g.
Qed.

Lemma idle_out_ok pl s t : placed pl s -> pc_of s t = Some InIdle ->
  exists s', idle_out t s = (Ok tt, s') /\ sinv s'.
Proof.
  intros Hs Hpc. apply (placed_pipe _ 0) in Hs. set (s1 := set_pipe 0 s) in *.
  destruct (idle_running _ s1 t Hs Hpc) as (w & f & sf & g & Hw & Hp & Hc & Hf & Hst & Huc & Hsf & Hg & Hn).
  exists (gave_back t w (fs s1) sf s1). unfold idle_out. split.
  - step (eq_refl : modify (set_pipe 0) s = (Ok tt, s1)). apply leave_run; [done|]. by apply (SwapOut_ok _ _ sf g).
  - eexists. rewrite <- (with_heap_same (fs s1) (idle_fiber w)) at 1. by apply (idle_left_ok pl s1 t w sf _ f).
Qed.

Lemma idle_end_ok pl s t : placed pl s -> pc_of s t = Some InIdle ->
  exists s', leave t (MainFunc_end 0 false) s = (Ok tt, s') /\ sinv s'.
Proof.
  intros Hs Hpc. destruct (idle_running _ s t Hs Hpc) as (w & f & sf & g & Hw & Hp & Hc & Hf & Hst & Huc & Hsf & Hg & Hn).
  eexists. split.
  - apply leave_run; [done|]. by apply (MainFunc_end_ok 0 false _ _ (idle_fiber w) f sf g).
  - eexists. by eapply (idle_left_ok pl s t w sf _ f).
Qed.

(** [status_to] on an object of the heap. *)
Lemma status_to_run s t w p v : workers s !! t = Some w ->
  on_fibers t (status_to v p) s = (Ok tt, set_fs (with_heap (fs s) (alter (set_status v) p (heap (fs s)))) s).
Proof.
  intros Hw. rewrite (on_fibers_run t w s (status_to v p) tt _ (tls w) Hw (on_heap_eq _ _ _)).
  rewrite set_tls_same, insert_id by done. by destruct s.
Qed.

Definition rested (p : nat) (f : Fiber) (s : Scheduler) : Scheduler :=
  if ended (_status f) then s else set_fs (with_heap (fs s) (alter (set_status HOLD) p (heap (fs s)))) s.

Lemma hold_run s t w p f : workers s !! t = Some w -> heap (fs s) !! p = Some f ->
  hold_unless_ended t p s = (Ok tt, rested p f s).
Proof.
  intros Hw Hf. unfold hold_unless_ended, rested. step (status_of_run p f s Hf).
  destruct (ended (_status f)); [done|]. by eapply status_to_run.
Qed.

Lemma rested_status p f s : heap (fs s) !! p = Some f -> exists f',
  heap (fs (rested p f s)) !! p = Some f' /\ _user_caller f' = _user_caller f /\
  (_status f' <> EXEC) /\ forall q, q <> p -> heap (fs (rested p f s)) !! q = heap (fs s) !! q.
Proof.
  intros Hf. unfold rested, ended. destruct (bool_decide (_status f = TERM) || bool_decide (_status f = EXCEPT)) eqn:E.
  - exists f. split_and!; try done. intros Hx. rewrite Hx in E. done.
  - exists (set_status HOLD f). cbn. rewrite lookup_alter_eq, Hf. split_and!; try done.
    intros q Hq. by rewrite lookup_alter_ne.
Qed.

(** Nobody runs the fiber any more: the thread forgets it. *)
Lemma out_idle_ok pl s t : placed pl s -> pc_of s t = Some OutIdle ->
  exists s', out_idle t s = (Ok tt, s') /\ sinv s'.
Proof.
  intros Hs Hpc. destruct (at_pc _ _ _ _ Hs Hpc) as (w & Hw & Hp & Hok). clear Hpc.
  destruct Hok as [(sf & Hsf & Hsi & Hrun & Hcs & Hhs) Hcb Hhd (f & Hf & Hid)].
  unfold hand, pc_ok, idle_ok in *. rewrite Hp in *.
  assert (pl (idle_fiber w) = At t Idler) as Hpl by (apply (placed_holds _ _ _ _ _ _ Hs Hw), holds_idle).
  pose proof (pl_status _ _ Hs _ _ Hf) as Hst. rewrite Hpl in Hst.
  set (s1 := add_idle (-1) s). set (s2 := rested (idle_fiber w) f s1).
  destruct (rested_status (idle_fiber w) f s1 Hf) as (f' & Hf' & Huc & Hne & Hoth). fold s2 in Hf', Hoth.
  assert (workers s2 = workers s) as Hw2 by (unfold s2, rested; by destruct (ended _)).
  exists (set_workers (<[t := set_pc Loop w]> (workers s2)) s2). unfold out_idle. split.
  - step (eq_refl : modify (add_idle (-1)) s = (Ok tt, s1)). rewrite (bind_ok _ _ _ _ _ (worker_run t w s1 Hw)).
    step (hold_run s1 t w (idle_fiber w) f Hw Hf). apply (goto_run t Loop w s2). by rewrite Hw2.
  - eexists. apply (placed_own pl s _ t w (set_pc Loop w) (idle_fiber w) Idler Idler f'); try done.
    + cbn. by rewrite Hw2.
    + unfold s2, rested. by destruct (ended _).
    + exact (holds_idle (set_pc Loop w)).
    + intros q Hq. same_holds Hp Hp.
    + cbn. congruence.
    + intros (e & He & Ee)%queued_elem. destruct (pl_entry _ _ Hs e He) as [_ Hqe].
      destruct (Hqe _ Ee) as (f0 & _ & [Hx|((t' & r & Hx & [-> | ->]) & _)]); congruence.
    + destruct Hrun. split; unfold hand, pc_ok, idle_ok; cbn; try done; [exists sf; by split_and!|by exists f'].
    + unfold s2, rested. destruct (ended _); bookkeeping Hp.
    + unfold s2, rested. destruct (ended _); bookkeeping Hp.
Qed.

Lemma left_not_queued pl s t p f : placed pl s -> pl p = At t Left -> heap (fs s) !! p = Some f -> _status f <> EXEC ->
  p ∉ queued s.
Proof.
  intros Hs Hpl Hf Hst (e & He & Ee)%queued_elem. destruct (pl_entry _ _ Hs e He) as [_ Hqe].
  destruct (Hqe _ Ee) as (f0 & Hf0 & [Hx|(_ & Hx)]); congruence.
Qed.

(** A thread that has come back from the fiber [p] of its task, or from
    cb_fiber, forgets the fiber. *)
Lemma forget_ok pl s s' t w w' p f tl :
  placed pl s -> workers s !! t = Some w -> workers s' = <[t := w']> (workers s) ->
  (pc w = OutTask /\ fiber (fcb w) = Some p /\ w' = set_fcb fcb_Reset (set_pc Loop w) \/
   (exists tid, pc w = OutCb tid) /\ cb_fiber w = Some p /\ w' = set_cb None (set_pc Loop w)) ->
  _fun_fibers s' = _fun_fibers s ++ tl ->
  (tl = [] \/ exists e, tl = [e] /\ entry_ok e /\ fiber e = Some p /\ p ∉ queued s) ->
  (forall q, q <> p -> heap (fs s') !! q = heap (fs s) !! q) ->
  heap (fs s') !! p = Some f -> _status f <> EXEC -> _user_caller f = false ->
  _active_threadNum s' = _active_threadNum s - 1 -> _idle_threadNum s' = _idle_threadNum s ->
  sinv s'.
Proof.
  intros Hs Hw Hw' Hcase Hq Htl Hheap Hf Hst Huc Ha Hi.
  pose proof (pl_worker _ _ Hs _ _ Hw) as Hok.
  assert (holds w p = Some Left) as Hl.
  { destruct Hcase as [(Hp & Ep & _)|([tid Hp] & Ep & _)].
    - rewrite (holds_in_hand _ _ _ p Hok), Hp; [done|]. unfold hand. by rewrite Hp.
    - by rewrite (holds_cb _ _ _ p Hok Ep), Hp. }
  assert (pl p = At t Left) as Hpl by (by apply (placed_holds _ _ _ _ _ _ Hs Hw)).
  assert (p <> idle_fiber w) as Hpi by (intros ->; by rewrite holds_idle in Hl).
  destruct Hok as [(sf & Hsf & Hsi & Hrun & Hcs & Hhs) Hcb Hhd (fi & Hfi & Hid)].
  unfold hand, pc_ok, idle_ok in *.
  eexists. apply (placed_drop pl s s' t w w' p Left f tl); try done.
  - unfold holds, hand in *. destruct Hcase as [(Hp & Ep & ->)|([tid Hp] & Ep & ->)]; rewrite Hp in *; cbn in *;
      destruct Hhd as [Hhd1 Hhd2]; repeat case_decide; try done; congruence.
  - intros q Hqp. destruct Hcase as [(Hp & Ep & ->)|([tid Hp] & Ep & ->)]; rewrite Hp in *;
      same_holds Hp Ep.
  - destruct Hcase as [(Hp & Ep & ->)|([tid Hp] & Ep & ->)]; rewrite Hp in *; destruct Hrun as [[Hr1 Hr2] Hrest];
      split; unfold hand, pc_ok, idle_ok; cbn; try done;
      try (exists fi; by rewrite Hheap); exists sf; by split_and!.
  - rewrite Ha. unfold is_busy. destruct Hcase as [(Hp & Ep & ->)|([tid Hp] & Ep & ->)]; cbn; rewrite Hp; cbn; lia.
  - rewrite Hi. unfold is_idle. destruct Hcase as [(Hp & Ep & ->)|([tid Hp] & Ep & ->)]; cbn; rewrite Hp; cbn; lia.
Qed.

Lemma rescheduled_run p tid s : exists n, Schedule (mkFcb None (Some p) tid) s =
  (Ok tt, set_pipe n (set_queue (_fun_fibers s ++ [mkFcb None (Some p) tid]) s)).
Proof. destruct (Schedule_run (mkFcb None (Some p) tid) s I) as (n & E & _). by exists n. Qed.

Lemma out_task_ok pl s t : placed pl s -> pc_of s t = Some OutTask ->
  exists s', out_task t s = (Ok tt, s') /\ sinv s'.
Proof.
  intros Hs Hpc. destruct (at_pc _ _ _ _ Hs Hpc) as (w & Hw & Hp & Hok). clear Hpc.
  assert (exists p, fiber (fcb w) = Some p) as [p Ep].
  { destruct Hok as [(sf & _ & _ & Hrun & _) _ _ _]. unfold pc_ok in Hrun. rewrite Hp in Hrun.
    destruct Hrun as (_ & Hn & _). destruct (fiber (fcb w)) as [p|]; [by exists p|done]. }
  assert (pl p = At t Left) as Hpl.
  { apply (placed_holds _ _ _ _ _ _ Hs Hw). rewrite (holds_in_hand _ _ _ p Hok), Hp; [done|]. unfold hand. by rewrite Hp. }
  destruct (pl_known _ _ Hs p) as [f Hf]; [congruence|].
  pose proof (pl_status _ _ Hs _ _ Hf) as Huc. rewrite Hpl in Huc. cbn in Huc.
  set (s1 := add_active (-1) s). unfold out_task. step (eq_refl : modify (add_active (-1)) s = (Ok tt, s1)).
  rewrite (bind_ok _ _ _ _ _ (worker_run t w s1 Hw)), Ep. step (status_of_run p f s1 Hf).
  set (w' := set_fcb fcb_Reset (set_pc Loop w)).
  destruct (decide (_status f = READY)) as [Hr|Hr].
  - rewrite bool_decide_eq_true_2 by done. destruct (rescheduled_run p (threadId (fcb w)) s1) as [n E]. step E.
    match goal with |- context [_ ?s2] => step (worker_run t w s2 Hw) end.
    eexists. split; [done|]. eapply (forget_ok pl s _ t w w' p f [mkFcb None (Some p) (threadId (fcb w))]); try done; auto.
    + right. eexists. split_and!; try done. apply (left_not_queued _ _ _ _ _ Hs Hpl Hf). congruence.
    + congruence.
  - rewrite bool_decide_eq_false_2 by done. step (hold_run s1 t w p f Hw Hf).
    destruct (rested_status p f s1 Hf) as (f' & Hf' & Huc' & Hne & Hoth).
    assert (workers (rested p f s1) = workers s) as Hw2 by (unfold rested; by destruct (ended _)).
    rewrite (bind_ok _ _ _ _ _ (worker_run t w (rested p f s1) ltac:(by rewrite Hw2))).
    eexists. split; [done|]. eapply (forget_ok pl s _ t w w' p f' []); try done; auto; cbn; rewrite ?Hw2, ?app_nil_r; try done.
    + unfold rested. by destruct (ended _).
    + congruence.
    + unfold rested. by destruct (ended _).
    + unfold rested. by destruct (ended _).
Qed.

Lemma out_cb_ok pl s t tid : placed pl s -> pc_of s t = Some (OutCb tid) ->
  exists s', out_cb t tid s = (Ok tt, s') /\ sinv s'.
Proof.
  intros Hs Hpc. destruct (at_pc _ _ _ _ Hs Hpc) as (w & Hw & Hp & Hok). clear Hpc.
  assert (exists c, cb_fiber w = Some c) as [c Ec].
  { destruct Hok as [(sf & _ & _ & Hrun & _) _ _ _]. unfold pc_ok in Hrun. rewrite Hp in Hrun.
    destruct Hrun as (_ & Hn & _). destruct (cb_fiber w) as [c|]; [by exists c|done]. }
  assert (pl c = At t Left) as Hpl.
  { apply (placed_holds _ _ _ _ _ _ Hs Hw). by rewrite (holds_cb _ _ _ c Hok Ec), Hp. }
  destruct (pl_known _ _ Hs c) as [f Hf]; [congruence|].
  pose proof (pl_status _ _ Hs _ _ Hf) as Huc. rewrite Hpl in Huc. cbn in Huc.
  set (s1 := add_active (-1) s). unfold out_cb. step (eq_refl : modify (add_active (-1)) s = (Ok tt, s1)).
  rewrite (bind_ok _ _ _ _ _ (worker_run t w s1 Hw)), Ec. step (status_of_run c f s1 Hf).
  destruct (decide (_status f = READY)) as [Hr|Hr]; [|destruct (ended (_status f)) eqn:Ee];
    rewrite ?(bool_decide_eq_true_2 (_status f = READY)), ?(bool_decide_eq_false_2 (_status f = READY)) by done.
  - destruct (rescheduled_run c tid s1) as [n E]. step E.
    match goal with |- context [_ ?s2] => step (worker_run t w s2 Hw) end.
    eexists. split; [done|]. eapply (forget_ok pl s _ t w (set_cb None (set_pc Loop w)) c f [mkFcb None (Some c) tid]); try done; auto.
    + right. split; [by exists tid|done].
    + right. eexists. split_and!; try done. apply (left_not_queued _ _ _ _ _ Hs Hpl Hf). congruence.
    + congruence.
  - assert (_status f = INIT \/ _status f = EXCEPT \/ _status f = TERM) as Hst.
    { unfold ended in Ee. apply orb_true_iff in Ee as [H|H]; apply bool_decide_eq_true in H; auto. }
    assert (_status f <> EXEC) as Hne by (destruct Hst as [-> |[-> | ->]]; done).
    step (on_fibers_run t w s1 (Reset c None) tt _ (tls w) Hw (Reset_ok c None _ _ f Hf Hst)).
    rewrite set_tls_same. eexists. split.
    { match goal with |- goto _ _ ?s2 = _ => exact (goto_run t Loop w s2 (lookup_insert_eq _ _ _)) end. }
    destruct Hok as [(sf & Hsf & Hsi & Hrun & Hcs & Hhs) Hcb Hhd (fi & Hfi & Hid)].
    unfold hand, pc_ok, idle_ok in *. rewrite Hp in *. destruct Hrun as [[Hr1 Hr2] Hrest].
    eexists. apply (placed_own pl s _ t w (set_pc Loop w) c Left Spare (set_status INIT (set_func None f))); try done.
    + cbn. by rewrite insert_insert_eq.
    + unfold holds. cbn. repeat case_decide; try done; congruence.
    + intros q Hq. apply holds_ext; cbn; unfold hand; cbn; rewrite ?Hp, ?Ec; try done; congruence.
    + intros q Hq. cbn. by rewrite lookup_alter_ne.
    + cbn. by rewrite lookup_alter_eq, Hf.
    + intros H. by destruct (left_not_queued _ _ _ _ _ Hs Hpl Hf Hne).
    + split; unfold hand, pc_ok, idle_ok; cbn; try done; [exists sf; by split_and!|].
      exists fi. rewrite lookup_alter_ne by congruence. done.
    + bookkeeping Hp.
    + bookkeeping Hp.
  - step (status_to_run s1 t w c HOLD Hw).
    match goal with |- context [_ ?s2] => step (worker_run t w s2 Hw) end.
    eexists. split; [done|].
    eapply (forget_ok pl s _ t w (set_cb None (set_pc Loop w)) c (set_status HOLD f) []); try done; auto.
    + right. split; [by exists tid|done].
    + cbn. by rewrite app_nil_r.
    + intros q Hq. cbn. by rewrite lookup_alter_ne.
    + cbn. by rewrite lookup_alter_eq, Hf.
Qed.

Lemma back_ok pl s t : placed pl s -> enabled (ABack t) s -> exists s', back t s = (Ok tt, s') /\ sinv s'.
Proof.
  intros Hs Hen. cbn in Hen. destruct (pc_of s t) as [c|] eqn:Hpc; [|done].
  destruct (at_pc _ _ _ _ Hs Hpc) as (w & Hw & Hp & _). unfold back. step (worker_run t w s Hw). rewrite Hp.
  destruct c as [| | | | | |tid| | | |]; try done; [by eapply out_task_ok|by eapply out_cb_ok|by eapply out_idle_ok].
Qed.

Lemma new_fiber_ok stack pl s t p g :
  placed pl s -> is_Some (workers s !! t) -> heap (fs s) !! p = None ->
  exists s', on_fibers t (NewFiber stack p 0 (Some g) false) s = (Ok tt, s') /\ sinv s'.
Proof.
  intros Hs [w Hw] Hp. eexists. split.
  { exact (on_fibers_run t w s (NewFiber stack p 0 (Some g) false) tt _ (tls w) Hw (NewFiber_ok _ _ _ _ _ _ _)). }
  rewrite set_tls_same. destruct (counts_ok pl s t w w 0 0 Hs Hw) as [Hca Hci]; [lia|lia|].
  set (nf := mkFiber (s_fiber_id (fs s) + 1) INIT (if 0 =? 0 then stack else 0) (Some g) false).
  exists pl. apply (placed_new pl pl s _ t w [p]); try done; cbn; try lia.
  - intros q ->%list_elem_of_singleton. rewrite (fresh_outside _ _ _ Hs Hp). split_and!; try done.
    exists nf. by rewrite lookup_insert_eq.
  - intros q Hq. rewrite lookup_insert_ne; [done|]. intros ->. by apply Hq, list_elem_of_singleton.
  - intros q r. by apply placed_holds with s.
  - destruct (pl_worker _ _ Hs _ _ Hw) as [H1 H2 H3 (fi & Hfi & Hid)]. split; try done.
    exists fi. rewrite lookup_insert_ne by congruence. done.
Qed.

Lemma enqueue_ok pl s e : placed pl s -> enabled (AEnqueue e) s ->
  sinv (set_queue (_fun_fibers s ++ [e]) s).
Proof.
  intros Hs [He Hen]. destruct (fiber e) as [p|] eqn:Ep.
  - destruct (Hen p eq_refl) as ([f Hf] & Hnq & Hw).
    assert (pl p = Outside \/ exists t, pl p = At t Running) as Hpl.
    { destruct (pl p) as [| |t r] eqn:E; [by left|by destruct Hnq; apply (pl_queued _ _ Hs)|].
      right. exists t. apply (pl_at _ _ Hs) in E as (w & Hlw & Hh). destruct (Hw t w Hlw); congruence. }
    set (pl' := if decide (pl p = Outside) then <[p := Queued]> pl else pl).
    assert (forall q, q <> p -> pl' q = pl q) as Hq by (intros; unfold pl'; case_decide; [by rewrite fn_lookup_insert_ne|done]).
    assert (forall q t r, pl' q = At t r <-> pl q = At t r) as Hat.
    { intros q t r. unfold pl'. case_decide as H; [|done]. destruct (decide (q = p)) as [->|Hn].
      - rewrite fn_lookup_insert, H. split; congruence.
      - by rewrite fn_lookup_insert_ne. }
    exists pl'. split; cbn; try apply Hs.
    + intros q t r. rewrite Hat. apply Hs.
    + intros q g Hg. destruct (decide (q = p)) as [->|Hn]; [|rewrite Hq by done; by apply (pl_status _ _ Hs)].
      pose proof (pl_status _ _ Hs p g Hg) as Hst. unfold pl'. case_decide as H; [|done].
      rewrite fn_lookup_insert. by rewrite H in Hst.
    + intros q H. destruct (decide (q = p)) as [->|Hn]; [by exists f|]. rewrite Hq in H by done. by apply (pl_known _ _ Hs).
    + assert (queued_ok pl' (heap (fs s)) p) as Hqp.
      { exists f. split; [done|]. unfold pl'. case_decide as H; [left; by rewrite fn_lookup_insert|].
        destruct Hpl as [|[t Ht]]; [done|]. right. split; [by exists t, Running; auto|].
        pose proof (pl_status _ _ Hs p f Hf) as Hst. rewrite Ht in Hst. apply Hst. }
      intros x [Hx| ->%list_elem_of_singleton]%elem_of_app.
      * destruct (pl_entry _ _ Hs x Hx) as [H1 H2]. split; [done|]. intros q Eq.
        destruct (decide (q = p)) as [->|Hn]; [done|]. eapply queued_ok_same; [done|by apply Hq|by apply H2].
      * split; [done|]. intros q Eq. by replace q with p by congruence.
    + unfold queued in *. cbn. rewrite omap_app. cbn. rewrite Ep. apply list.NoDup_app.
      split_and!; [apply Hs| |apply NoDup_singleton]. by intros x Hx ->%list_elem_of_singleton.
    + intros q Hqq. unfold queued. cbn. rewrite omap_app. cbn. rewrite Ep. apply elem_of_app.
      destruct (decide (q = p)) as [->|Hn]; [right; by left|]. left. rewrite Hq in Hqq by done. by apply (pl_queued _ _ Hs).
  - assert (queued (set_queue (_fun_fibers s ++ [e]) s) = queued s) as Hq.
    { unfold queued. cbn. rewrite omap_app. cbn. by rewrite Ep, app_nil_r. }
    exists pl. split; rewrite ?Hq; cbn; try apply Hs.
    intros x [Hx| ->%list_elem_of_singleton]%elem_of_app; [by apply (pl_entry _ _ Hs)|]. split; [done|congruence].
Qed.

(** A thread begins: its main fiber is its current one, its idle fiber is new. *)
Lemma Run_begin_run stack t main idle s :
  workers s !! t = None ->
  Run_begin stack t main idle s =
    (Ok tt, set_workers (<[t := mkWorker (mkThread (Some main) (Some main) (Some main) (Some main)) fcb_Reset false false None idle Loop]> (workers s))
       (set_fs (mkFibers (<[idle := mkFiber (s_fiber_id (fs s) + 1) INIT stack (Some 0%nat) false]>
                           (<[main := mkFiber 0 EXEC 0 None false]> (heap (fs s))))
                  (s_total_num (fs s) + 1 + 1) (s_fiber_id (fs s) + 1)) s)).
Proof.
  intros Hw. unfold Run_begin.
  set (w0 := mkWorker (mkThread None None None (Some main)) fcb_Reset false false None idle Loop).
  step (eq_refl : set_worker t w0 s = (Ok tt, set_workers (<[t := w0]> (workers s)) s)).
  set (s0 := set_workers (<[t := w0]> (workers s)) s).
  set (f1 := mkFibers (<[main := mkFiber 0 EXEC 0 None false]> (heap (fs s))) (s_total_num (fs s) + 1) (s_fiber_id (fs s))).
  set (l1 := mkThread (Some main) (Some main) None (Some main)).
  step (on_fibers_run t w0 s0 (GetThis main) main f1 l1 (lookup_insert_eq _ _ _) eq_refl).
  match goal with |- context [_ ?s1] => step (worker_run t (set_tls l1 w0) s1 (lookup_insert_eq _ _ _)) end.
  unfold set_worker. match goal with |- context [mbind _ (modify ?g) ?s1] => step (eq_refl : modify g s1 = (Ok tt, g s1)) end.
  match goal with |- on_fibers _ _ ?s1 = _ =>
    rewrite (on_fibers_run t (set_tls (mkThread (Some main) (Some main) (Some main) (Some main)) (set_tls l1 w0)) s1
      (NewFiber stack idle 0 (Some 0%nat) false) tt _ _ (lookup_insert_eq _ _ _) (NewFiber_ok _ _ _ _ _ _ _)) end.
  unfold set_workers, set_fs. cbn. by rewrite !insert_insert_eq.
Qed.

Lemma Run_begin_ok stack pl s t main idle :
  placed pl s -> enabled (AStart t main idle) s ->
  exists s', Run_begin stack t main idle s = (Ok tt, s') /\ sinv s'.
Proof.
  intros Hs (Hw & Hn & Hm & Hi). eexists. split; [by apply Run_begin_run|].
  set (w' := mkWorker _ _ _ _ _ _ _).
  exists (<[idle := At t Idler]> (<[main := At t Sched]> pl)).
  assert (forall p r, pl p <> At t r) as Hnone.
  { intros p r (w & Hlw & _)%(pl_at _ _ Hs). congruence. }
  apply (placed_new pl _ s _ t w' [main; idle]); try done.
  - intros p [-> | ->%list_elem_of_singleton]%elem_of_cons.
    + rewrite fn_lookup_insert_ne, fn_lookup_insert by done. split_and!; try done; [congruence|].
      eexists. split; [cbn; by rewrite lookup_insert_ne, lookup_insert_eq|done].
    + rewrite fn_lookup_insert. split_and!; try done; [congruence|].
      eexists. split; [cbn; by rewrite lookup_insert_eq|done].
  - intros p Hp. assert (p <> main /\ p <> idle) as [H1 H2].
    { split; intros ->; apply Hp; [by left|right; by left]. }
    rewrite !fn_lookup_insert_ne by done. cbn. by rewrite !lookup_insert_ne.
  - intros p r. unfold holds, w', hand. cbn. destruct (decide (p = idle)) as [->|H1].
    + rewrite fn_lookup_insert. split; congruence.
    + rewrite fn_lookup_insert_ne by done. case_decide as H2.
      * injection H2 as <-. rewrite fn_lookup_insert. split; congruence.
      * rewrite fn_lookup_insert_ne by congruence. split; [|done]. intros H. by apply Hnone in H.
  - split; unfold hand, pc_ok, idle_ok; cbn; try done; [exists main; by split_and!|].
    eexists. split; [by rewrite lookup_insert_eq|done].
  - cbn. rewrite count_insert_new by done. cbn. rewrite Z.add_0_r. apply Hs.
  - cbn. rewrite count_insert_new by done. cbn. rewrite Z.add_0_r. apply Hs.
Qed.

Lemma sinv_new : sinv Scheduler_new.
Proof.
  exists (fun _ => Outside). split; cbn.
  - intros p t r. split; [done|]. intros (w & H & _). by rewrite lookup_empty in H.
  - intros t w H. by rewrite lookup_empty in H.
  - intros p f H. by rewrite lookup_empty in H.
  - done.
  - by intros e []%elem_of_nil.
  - apply NoDup_nil_2.
  - done.
  - done.
  - done.
Qed.

Lemma action_ok stack a s : sinv s -> enabled a s -> exists s', perform stack a s = (Ok tt, s') /\ sinv s'.
Proof.
  intros [pl Hs] Hen. destruct a as [t m i|t|t|t fr|t|t|t|t|t threw|t|t|t p g|e| |]; cbn [perform].
  - by eapply Run_begin_ok.
  - by eapply pick_ok.
  - by eapply notify_ok.
  - destruct Hen. by eapply dispatch_ok.
  - by eapply enter_idle_ok.
  - by eapply back_ok.
  - by eapply yield_hold_ok.
  - destruct Hen. by eapply yield_ready_ok.
  - destruct Hen. by eapply end_ok.
  - by eapply idle_out_ok.
  - destruct Hen. by eapply idle_end_ok.
  - destruct Hen. by eapply new_fiber_ok.
  - destruct (enqueue_ok pl s e Hs Hen) as [pl' Hs']. destruct Hen as [He _]. step (enqueue_run e s He).
    eexists. split; [done|]. exists pl'. by apply placed_notifying.
  - match goal with |- context [modify ?g] => step (eq_refl : modify g s = (Ok tt, g s)) end.
    match goal with |- context [Tickle ?s1] => destruct (Tickle_run s1) as (n & E & _) end.
    eexists. split; [exact E|]. exists pl. by apply placed_pipe, placed_notifying.
  - eexists. split; [done|]. exists pl. destruct Hs. by split.
Qed.

Lemma actions_ok stack acts : forall s, sinv s -> all_enabled stack acts s ->
  exists s', steps stack acts s = (Ok tt, s') /\ sinv s'.
Proof.
  induction acts as [|a acts IH]; intros s Hs Hen; [by exists s|]. destruct Hen as [Ha Hen].
  destruct (action_ok stack a s Hs Ha) as (s1 & E1 & Hs1). rewrite E1 in Hen. cbn [steps]. step E1. by apply IH.
Qed.

(** ** Properties *)


(** At the top of its loop a thread takes the first entry it may take: not
    for another thread, and not a fiber that is still running; the others keep
    their order.  It goes away empty-handed only if there is no such entry, and
    it notifies another thread whenever the queue is not empty afterwards. *)
Theorem pick_exact stack acts s t :
  all_enabled stack acts Scheduler_new -> steps stack acts Scheduler_new = (Ok tt, s) -> pc_of s t = Some Loop ->
  exists s' w', pick t s = (Ok tt, s') /\ workers s' !! t = Some w' /\ pc w' = Picked /\
    ((exists l1 e l2, _fun_fibers s = l1 ++ e :: l2 /\ takes t (heap (fs s)) e /\
        Forall (fun x => ~ takes t (heap (fs s)) x) l1 /\ _fun_fibers s' = l1 ++ l2 /\
        fcb w' = e /\ is_active w' = true /\ _active_threadNum s' = _active_threadNum s + 1) \/
     (Forall (fun x => ~ takes t (heap (fs s)) x) (_fun_fibers s) /\ _fun_fibers s' = _fun_fibers s /\
        fcb w' = fcb_Reset /\ is_active w' = false)) /\
    (_fun_fibers s' <> [] -> tickle_me w' = true).
Proof.
  intros Hen E Hpc. destruct (actions_ok stack acts _ sinv_new Hen) as (s0 & E0 & pl & Hs).
  rewrite E in E0. injection E0 as <-.
  destruct (at_pc _ _ _ _ Hs Hpc) as (w & Hw & Hp & _).
  destruct (scan_spec t (heap (fs s)) (_fun_fibers s)) as (r & q & tk & Hsc & Hr); [intros e; by apply (entry_known pl)|].
  pose proof (pick_run t s w r q tk Hw Hsc) as Erun.
  destruct r as [e|]; eexists _, _; (split; [exact Erun|]); cbn; rewrite lookup_insert_eq; (split; [done|]); cbn; (split; [done|]).
  - destruct Hr as (l1 & l2 & Hq & -> & Htk & Hf). split; [left; exists l1, e, l2; by split_and!|].
    intros Hne. by rewrite bool_decide_eq_false_2, orb_true_r.
  - destruct Hr as [-> Hf]. split; [by right|]. intros Hne. by rewrite bool_decide_eq_false_2, orb_true_r.
Qed.

(** A wake-up can be lost: a task scheduled between a thread's look at the
    queue and its entry into the idle fiber notifies nobody, since no thread
    counts as idle yet; the thread then sleeps in epoll_wait (up to its time
    limit of three seconds) with the task in the queue and nothing to wake
    it. *)
Theorem wakeup_lost stack : exists acts s,
  all_enabled stack acts Scheduler_new /\ steps stack acts Scheduler_new = (Ok tt, s) /\
  _fun_fibers s <> [] /\ pipe s = 0%nat /\ notifying s = 0%nat /\
  map_Forall (fun _ w => pc w = InIdle) (workers s) /\ workers s <> ∅.
Proof.
  exists [AStart 1 10 11; APick 1; ANotify 1; ADispatch 1 12; AEnqueue (mkFcb (Some 7%nat) None (-1)); ATickle; AIdle 1].
  eexists. split; [|split; [vm_compute; reflexivity|]].
  - repeat split; try (intros ? H; vm_compute in H; discriminate H); vm_compute; try done; congruence.
  - split_and!; try done. intros t w H. vm_compute in H. destruct t as [|[]|]; try done. by injection H as <-.
Qed.

(** Two threads; a task for thread 1 is passed over by thread 2, runs in a new
    fiber on thread 1, is scheduled again while it runs and yields to hold. *)
Definition demo_acts : list action :=
  [AStart 1 10 11; AStart 2 20 21; AEnqueue (mkFcb (Some 5%nat) None 1); APick 2; ANotify 2; ATickle;
   APick 1; ANotify 1; ADispatch 1 12; AEnqueue (mkFcb None (Some 12%nat) (-1)); AYieldToHold 1].

Lemma demo_enabled : all_enabled 131072 demo_acts Scheduler_new.
Proof. by_computation. Qed.


Lemma pick_exact_witness :
  exists s s' w', steps 131072 (take 6 demo_acts) Scheduler_new = (Ok tt, s) /\
    pick 1 s = (Ok tt, s') /\ workers s' !! 1 = Some w' /\ pc w' = Picked.
Proof.
  set (r := steps 131072 (take 6 demo_acts) Scheduler_new).
  assert (r = (Ok tt, snd r)) as E.
  { rewrite (surjective_pairing r) at 1. f_equal; vm_compute; reflexivity. }
  destruct (pick_exact 131072 (take 6 demo_acts) (snd r) 1) as (s' & w' & E1 & Hw & Hp & _);
    [by_computation|exact E|vm_compute; reflexivity|].
  exists (snd r), s', w'. split_and!; [exact E|exact E1|exact Hw|exact Hp].
Defined.
