(* ===== verification/IOManager.v ===== *)
(** iomanager.cpp: events on file descriptors.

    The vector [_fdContexts] holds pointers to contexts, and epoll keeps such a
    pointer with every descriptor it watches.  epoll itself is a parameter, the
    class [Epoll], with what its manual says as laws.  Every operation holds the
    context's lock from its first look at the context to its end, so operations
    on contexts are atomic; what comes before, the search in the vector, is not,
    and is a step of its own in AddEvent. *)
From stdpp Require Import gmap.
From S2P Require Import Prelude.

(** [Event] and the epoll flags. *)
Definition NONE : Z := 0.
Definition READ : Z := 1.
Definition WRITE : Z := 4.
Definition EPOLLIN : Z := 1.
Definition EPOLLOUT : Z := 4.
Definition EPOLLERR : Z := 8.
Definition EPOLLHUP : Z := 16.
Definition EPOLLET : Z := 2 ^ 31.

Inductive EpollCtlOp := EPOLL_CTL_ADD | EPOLL_CTL_MOD | EPOLL_CTL_DEL.

(** [epoll_ctl(epfd, op, fd, {events, ptr})] *)
Class Epoll (E : Type) := { epoll_ctl : EpollCtlOp -> Z -> Z -> nat -> E -> Z * E }.

(** What is watched, and that a failing call changes nothing. *)
Class EpollLaws (E : Type) `{Epoll E} := {
  interest : E -> Z -> option (Z * nat);
  ctl_ok : forall op fd evs p e e', epoll_ctl op fd evs p e = (0, e') ->
    interest e' fd = (match op with EPOLL_CTL_DEL => None | _ => Some (evs, p) end) /\
    forall fd', fd' <> fd -> interest e' fd' = interest e fd';
  ctl_fail : forall op fd evs p e r e', epoll_ctl op fd evs p e = (r, e') -> r <> 0 ->
    forall fd', interest e' fd' = interest e fd'
}.

(** What waits for an event: a fiber or a function. *)
Inductive handler := HFiber (f : nat) | HCb (g : nat).

Record EventContext := mkEventContext { ev_scheduler : option nat; ev_fiber : option nat; ev_cb : option nat }.

Record FdContext := mkFdContext { ev_read : EventContext; ev_write : EventContext; events : Z; fd : Z }.

Definition no_event : EventContext := mkEventContext None None None.
Definition FdContext_new (i : Z) : FdContext := mkFdContext no_event no_event 0 i.

Definition set_events (e : Z) (c : FdContext) : FdContext := mkFdContext (ev_read c) (ev_write c) e (fd c).

Section iomanager.
Context {E : Type} {EP : Epoll E}.

(** [ctxs]: the contexts that were ever made; [scheduled]: what was handed to
    which scheduler, in order. *)
Record IOManager := mkIOManager {
  ep : E; _pendingEventNum : Z; _fdContexts : list nat; ctxs : gmap nat FdContext; next_ctx : nat;
  scheduled : list (nat * handler)
}.

Definition set_ep e s : IOManager := mkIOManager e (_pendingEventNum s) (_fdContexts s) (ctxs s) (next_ctx s) (scheduled s).
Definition add_pending n s : IOManager := mkIOManager (ep s) (_pendingEventNum s + n) (_fdContexts s) (ctxs s) (next_ctx s) (scheduled s).
Definition upd_ctx p (h : FdContext -> FdContext) s : IOManager :=
  mkIOManager (ep s) (_pendingEventNum s) (_fdContexts s) (alter h p (ctxs s)) (next_ctx s) (scheduled s).
Definition schedule sch h s : IOManager :=
  mkIOManager (ep s) (_pendingEventNum s) (_fdContexts s) (ctxs s) (next_ctx s) (scheduled s ++ [(sch, h)]).

Definition at_ctx (p : nat) : M IOManager FdContext :=
  s ← get; match ctxs s !! p with Some c => mret c | None => undef NullDeref end.

(** [getEvContext], as what it reads and as what it is assigned. *)
Definition getEvContext (ev : Z) (c : FdContext) : option EventContext :=
  if ev =? READ then Some (ev_read c) else if ev =? WRITE then Some (ev_write c) else None.
Definition setEvContext (ev : Z) (x : EventContext) (c : FdContext) : FdContext :=
  if ev =? READ then mkFdContext x (ev_write c) (events c) (fd c) else mkFdContext (ev_read c) x (events c) (fd c).

(** [resetEvContext] *)
Definition resetEvContext (x : EventContext) : EventContext := no_event.

Definition is_none {A} (o : option A) : bool := match o with None => true | Some _ => false end.

Definition triggerEvent (p : nat) (ev : Z) : M IOManager unit :=
  c ← at_ctx p;
  if Z.land (events c) ev =? 0 then mret tt else
  match getEvContext ev c with
  | None => assert false
  | Some evctx =>
    modify (upd_ctx p (set_events (Z.land (events c) (Z.lnot ev))));;
    match ev_scheduler evctx with
    | None => assert false
    | Some sche =>
      (match ev_cb evctx with Some g => modify (schedule sche (HCb g)) | None => mret tt end);;
      (match ev_fiber evctx with Some f => modify (schedule sche (HFiber f)) | None => mret tt end);;
      (* the moved-from callback and fiber are null *)
      modify (upd_ctx p (setEvContext ev no_event))
    end
  end.

(** [FdContextsResize] *)
Fixpoint make_ctxs (n : nat) (i : nat) (s : IOManager) : IOManager :=
  match n with
  | O => s
  | S n => make_ctxs n (S i) (mkIOManager (ep s) (_pendingEventNum s) (_fdContexts s ++ [next_ctx s])
             (<[next_ctx s := FdContext_new (Z.of_nat i)]> (ctxs s)) (S (next_ctx s)) (scheduled s))
  end.

Definition FdContextsResize (size : Z) : M IOManager unit :=
  if size <? 0 then throw LogicError else
  modify (fun s =>
    let n := Z.to_nat size in
    let k := length (_fdContexts s) in
    if decide (n <= k)%nat
    then mkIOManager (ep s) (_pendingEventNum s) (take n (_fdContexts s)) (ctxs s) (next_ctx s) (scheduled s)
    else make_ctxs (n - k) k s).

Definition size_of s : Z := zlen (_fdContexts s).

(** [_fdContexts[fd]] *)
Definition ctx_at (i : Z) : M IOManager nat :=
  s ← get; match (if i <? 0 then None else _fdContexts s !! Z.to_nat i) with Some p => mret p | None => undef OutOfBounds end.

Definition epoll (op : EpollCtlOp) (i evs : Z) (p : nat) : M IOManager Z :=
  s ← get; let '(r, e) := epoll_ctl op i evs p (ep s) in put (set_ep e s);; mret r.

(** ** AddEvent *)

(** Under the read lock: is the vector too short? *)
Definition AddEvent_check (i : Z) (s : IOManager) : bool := u64 (size_of s - 1) <? u64 i.

(** Under the write lock. *)
Definition AddEvent_grow (i : Z) : M IOManager nat :=
  if 2 ^ 31 <=? i * 2 then undef SignedOverflow else FdContextsResize (i * 2);; ctx_at i.

Definition AddEvent_find (i : Z) : M IOManager nat :=
  s ← get; if AddEvent_check i s then AddEvent_grow i else ctx_at i.

(** The locked part; [sche] and [cur] are the calling thread's scheduler and
    fiber. *)
Definition AddEvent_set (p : nat) (ev : Z) (func : option nat) (sche : option nat) (cur : nat) : M IOManager Z :=
  c ← at_ctx p;
  if negb (Z.land ev (events c) =? 0) then assert false;; mret 0 else
  let opt := if events c =? 0 then EPOLL_CTL_ADD else EPOLL_CTL_MOD in
  rt ← epoll opt (fd c) (Z.lor (Z.lor EPOLLET (events c)) ev) p;
  if negb (rt =? 0) then mret (-1) else
  modify (add_pending 1);;
  modify (upd_ctx p (set_events (Z.lor (events c) ev)));;
  match getEvContext ev c with
  | None => assert false;; mret 0
  | Some evctx =>
    assert (is_none (ev_fiber evctx) || is_none (ev_cb evctx) || is_none (ev_scheduler evctx));;
    let evctx' := match func with
                  | Some g => mkEventContext sche (ev_fiber evctx) (Some g)
                  | None => mkEventContext sche (Some cur) (ev_cb evctx)
                  end in
    modify (upd_ctx p (setEvContext ev evctx'));;
    mret 0
  end.

Definition AddEvent (i ev : Z) (func sche : option nat) (cur : nat) : M IOManager Z :=
  p ← AddEvent_find i; AddEvent_set p ev func sche cur.

(** ** DelEvent, CancelEvent, CancelAll *)
Definition DelEvent (i ev : Z) : M IOManager bool :=
  s ← get;
  if u64 (size_of s - 1) <? u64 i then mret false else
  p ← ctx_at i;
  c ← at_ctx p;
  if Z.land (events c) ev =? 0 then mret false else
  let new_events := Z.land (events c) (Z.lnot ev) in
  let opt := if new_events =? 0 then EPOLL_CTL_DEL else EPOLL_CTL_MOD in
  ret ← epoll opt (fd c) (Z.lor new_events EPOLLET) p;
  if negb (ret =? 0) then mret false else
  modify (upd_ctx p (set_events new_events));;
  match getEvContext ev c with
  | None => assert false;; mret false
  | Some evctx =>
    modify (upd_ctx p (setEvContext ev (resetEvContext evctx)));;
    modify (add_pending (-1));;
    mret true
  end.

Definition CancelEvent (i ev : Z) : M IOManager bool :=
  s ← get;
  if size_of s <=? u64 i then mret false else
  p ← ctx_at i;
  c ← at_ctx p;
  if Z.land (events c) ev =? 0 then mret false else
  let new_event := Z.land (events c) (Z.lnot ev) in
  let opt := if new_event =? 0 then EPOLL_CTL_DEL else EPOLL_CTL_MOD in
  ret ← epoll opt (fd c) (Z.lor EPOLLET new_event) p;
  if negb (ret =? 0) then mret false else
  triggerEvent p ev;;
  modify (add_pending (-1));;
  mret true.

Definition CancelAll (i : Z) : M IOManager bool :=
  s ← get;
  if size_of s <=? u64 i then mret true else
  p ← ctx_at i;
  c ← at_ctx p;
  if events c =? 0 then mret false else
  ret ← epoll EPOLL_CTL_DEL (fd c) 0 p;
  if negb (ret =? 0) then mret false else
  (if negb (Z.land (events c) READ =? 0) then triggerEvent p READ;; modify (add_pending (-1)) else mret tt);;
  c ← at_ctx p;
  (if negb (Z.land (events c) WRITE =? 0) then triggerEvent p WRITE;; modify (add_pending (-1)) else mret tt);;
  c ← at_ctx p;
  assert (events c =? 0);;
  mret true.

(** ** A ready event, as the idle fiber handles it *)

(** The events among [registered] that [evs], the flags from epoll, stand for. *)
Definition real_event (evs registered : Z) : Z :=
  let evs := if negb (Z.land evs (Z.lor EPOLLERR EPOLLHUP) =? 0)
             then Z.lor evs (Z.land (Z.lor EPOLLIN EPOLLOUT) registered) else evs in
  Z.lor (if negb (Z.land evs EPOLLIN =? 0) then READ else NONE)
        (if negb (Z.land evs EPOLLOUT =? 0) then WRITE else NONE).

Definition handle_event (p : nat) (evs : Z) : M IOManager unit :=
  c ← at_ctx p;
  let real := real_event evs (events c) in
  if Z.land real (events c) =? NONE then mret tt else
  let leave_event := Z.land (events c) (Z.lnot real) in
  let opt := if leave_event =? 0 then EPOLL_CTL_DEL else EPOLL_CTL_MOD in
  ret2 ← epoll opt (fd c) (Z.lor EPOLLET leave_event) p;
  if negb (ret2 =? 0) then mret tt else
  (if negb (Z.land real READ =? 0) then triggerEvent p READ;; modify (add_pending (-1)) else mret tt);;
  (if negb (Z.land real WRITE =? 0) then triggerEvent p WRITE;; modify (add_pending (-1)) else mret tt).

(** The time to sleep, from the time to the next timer. *)
Definition MAX_TIMEOUT : Z := 3000.
Definition next_time (timeout : Z) : Z :=
  if negb (timeout =? 2 ^ 64 - 1) then (if timeout <? MAX_TIMEOUT then timeout else MAX_TIMEOUT) else MAX_TIMEOUT.

(** [IsStopping(timeout)]; [base] is Scheduler::IsStopping(). *)
Definition IsStopping (timeout : Z) (base : bool) s : bool :=
  (timeout =? 2 ^ 64 - 1) && (_pendingEventNum s =? 0) && base.

(** The constructor. *)
Definition IOManager_new (e : E) : IOManager := snd (FdContextsResize 32 (mkIOManager e 0 [] ∅ 0 [])).
End iomanager.
Arguments IOManager E : clear implicits.

(** ** The contract: which handler waits for which event *)
Definition waiting : Type := option (nat * handler).

(** Reader and writer of every descriptor. *)
Abbreviation table := (nat -> waiting * waiting).

Definition ctx_of (x : waiting) : EventContext :=
  match x with
  | None => no_event
  | Some (sche, HFiber f) => mkEventContext (Some sche) (Some f) None
  | Some (sche, HCb g) => mkEventContext (Some sche) None (Some g)
  end.

Definition bits (x : waiting * waiting) : Z :=
  (if is_none (fst x) then 0 else READ) + (if is_none (snd x) then 0 else WRITE).

Definition nbits (x : waiting * waiting) : Z :=
  (if is_none (fst x) then 0 else 1) + (if is_none (snd x) then 0 else 1).

(** The context of descriptor [i] in which [x] waits. *)
Definition ctx_with (x : waiting * waiting) (i : nat) : FdContext :=
  mkFdContext (ctx_of (fst x)) (ctx_of (snd x)) (bits x) (Z.of_nat i).

Definition waiter (ev : Z) (x : waiting * waiting) : waiting := if ev =? READ then fst x else snd x.
Definition set_waiter (ev : Z) (v : waiting) (x : waiting * waiting) : waiting * waiting :=
  if ev =? READ then (v, snd x) else (fst x, v).

Fixpoint total (f : nat -> Z) (n : nat) : Z := match n with O => 0 | S n => total f n + f n end.

Lemma total_ext f g n : (forall k, (k < n)%nat -> f k = g k) -> total f n = total g n.
Proof. induction n as [|n IH]; intros H; [done|]. cbn. f_equal; [apply IH; intros; apply H; lia|apply H; lia]. Qed.

Lemma total_update f g n i : (i < n)%nat -> (forall k, k <> i -> g k = f k) -> total g n = total f n - f i + g i.
Proof.
  intros Hi H. induction n as [|n IH]; [lia|]. cbn. destruct (decide (i = n)) as [->|Hn].
  - rewrite (total_ext g f n); [lia|]. intros k Hk. apply H. lia.
  - rewrite IH, (H n) by lia. lia.
Qed.

Lemma total_zero f n : (forall k, (k < n)%nat -> f k = 0) -> total f n = 0.
Proof. induction n as [|n IH]; intros H; [done|]. cbn. rewrite (H n), IH; [lia| |lia]. intros; apply H; lia. Qed.

Definition move (T : table) (i : nat) (x : waiting * waiting) : table := fun k => if decide (k = i) then x else T k.

Section contract.
Context {E : Type} {EP : Epoll E} {EL : EpollLaws E}.
(** The read end of the tickle pipe, which epoll watches as well. *)
Context (tick : nat).

Definition watched (e : E) (T : table) (i p : nat) : Prop :=
  i <> tick -> interest e (Z.of_nat i) =
    if bits (T i) =? 0 then None else Some (Z.lor EPOLLET (bits (T i)), p).

(** The state implements the table [T]. *)
Record implements (T : table) (s : IOManager E) : Prop := {
  im_ctx : forall i p, _fdContexts s !! i = Some p -> ctxs s !! p = Some (ctx_with (T i) i) /\ watched (ep s) T i p;
  im_out : forall i, (length (_fdContexts s) <= i)%nat -> T i = (None, None) /\ watched (ep s) T i 0;
  im_nodup : NoDup (_fdContexts s);
  im_fresh : forall p, (next_ctx s <= p)%nat -> p ∉ _fdContexts s;
  im_pending : _pendingEventNum s = total (fun i => nbits (T i)) (length (_fdContexts s));
  im_size : (0 < length (_fdContexts s))%nat /\ zlen (_fdContexts s) < 2 ^ 32;
  im_tick : T tick = (None, None)
}.

(** The table after a change of descriptor [i]. *)
Lemma implements_move T s i p x e n l :
  implements T s -> _fdContexts s !! i = Some p -> i <> tick ->
  (forall k, k <> i -> interest e (Z.of_nat k) = interest (ep s) (Z.of_nat k)) ->
  watched e (move T i x) i p -> n = nbits x - nbits (T i) ->
  implements (move T i x)
    (mkIOManager e (_pendingEventNum s + n) (_fdContexts s) (<[p := ctx_with x i]> (ctxs s)) (next_ctx s) l).
Proof.
  intros [Hc Ho Hnd Hfr Hp Hs Ht] Hi Htk He Hw ->. pose proof (lookup_lt_Some _ _ _ Hi) as Hlt.
  assert (forall k, k <> i -> move T i x k = T k) as Hm by (intros; unfold move; by rewrite decide_False).
  assert (move T i x i = x) as Hmi by (unfold move; by rewrite decide_True).
  assert (forall k q, k <> i -> watched (ep s) T k q -> watched e (move T i x) k q) as Hwk.
  { intros k q Hk. unfold watched. rewrite Hm, He by done. done. }
  split; cbn; try done.
  - intros k q Hq. destruct (decide (k = i)) as [->|Hk].
    + rewrite Hq in Hi. injection Hi as ->. rewrite lookup_insert_eq, Hmi. done.
    + destruct (Hc k q Hq) as [H1 H2]. rewrite lookup_insert_ne, Hm, H1 by (intros ->; by apply Hk, (NoDup_lookup _ _ _ _ Hnd Hq)).
      split; [done|by apply Hwk].
  - intros k Hk. assert (k <> i) by lia. rewrite Hm by done. destruct (Ho k Hk). split; [done|by apply Hwk].
  - rewrite Hp. rewrite (total_update (fun k => nbits (T k)) (fun k => nbits (move T i x k)) _ i); [rewrite Hmi; lia|done|].
    intros k Hk. by rewrite Hm.
  - by rewrite Hm.
Qed.

Lemma implements_ep T s e :
  implements T s -> (forall k, interest e k = interest (ep s) k) -> implements T (set_ep e s).
Proof.
  intros [Hc Ho Hnd Hfr Hp Hs Ht] He. split; cbn; try done.
  - intros i p Hi. destruct (Hc i p Hi) as [H1 H2]. split; [done|]. intros Hn. rewrite He. by apply H2.
  - intros i Hi. destruct (Ho i Hi) as [H1 H2]. split; [done|]. intros Hn. rewrite He. by apply H2.
Qed.

(** Some call of [epoll_ctl] would fail now, although it adds a descriptor that
    is not watched, or changes or removes one that is. *)
Definition fails (s : IOManager E) : Prop :=
  exists op i evs p, (op = EPOLL_CTL_ADD <-> interest (ep s) i = None) /\ fst (epoll_ctl op i evs p (ep s)) <> 0.

Lemma fails_intro T s i p op evs r e :
  implements T s -> _fdContexts s !! i = Some p -> i <> tick -> (op = EPOLL_CTL_ADD <-> bits (T i) = 0) ->
  epoll_ctl op (Z.of_nat i) evs p (ep s) = (r, e) -> r <> 0 -> fails s.
Proof.
  intros Hs Hp Ht Hop H Hr. exists op, (Z.of_nat i), evs, p. rewrite H. split; [|done].
  destruct (im_ctx _ _ Hs i p Hp) as [_ Hw]. rewrite Hop, (Hw Ht). by destruct (Z.eqb_spec (bits (T i)) 0).
Qed.

(** The operations that remove an event. *)
Lemma fails_removing T s i p x evs r e :
  implements T s -> _fdContexts s !! i = Some p -> i <> tick -> bits (T i) <> 0 ->
  epoll_ctl (if bits x =? 0 then EPOLL_CTL_DEL else EPOLL_CTL_MOD) (Z.of_nat i) evs p (ep s) = (r, e) -> r <> 0 -> fails s.
Proof. intros Hs Hp Ht Hb. apply (fails_intro T); try done. by destruct (bits x =? 0). Qed.

Lemma waiter_bits ev x w : waiter ev x = Some w -> bits x <> 0.
Proof. destruct x as [[?|] [?|]]; try done. unfold waiter. by destruct (ev =? READ). Qed.

Lemma implements_eq T s s' : implements T s -> s' = s -> implements T s'.
Proof. by intros H ->. Qed.

Lemma move_same T i : forall k, move T i (T i) k = T k.
Proof. intros k. unfold move. case_decide; [by subst|done]. Qed.

(** ** Runs *)
Lemma at_ctx_run p c (s : IOManager E) : ctxs s !! p = Some c -> at_ctx p s = (Ok c, s).
Proof. intros H. unfold at_ctx, mbind, M_bind, get. by rewrite H. Qed.

Lemma epoll_run op i evs p r e (s : IOManager E) :
  epoll_ctl op i evs p (ep s) = (r, e) -> epoll op i evs p s = (Ok r, set_ep e s).
Proof. intros H. unfold epoll, mbind, M_bind, get. by rewrite H. Qed.

Lemma ctx_at_run (s : IOManager E) i p : _fdContexts s !! i = Some p -> ctx_at (Z.of_nat i) s = (Ok p, s).
Proof.
  intros H. unfold ctx_at, mbind, M_bind, get. rewrite (proj2 (Z.ltb_ge _ _)) by lia. by rewrite Nat2Z.id, H.
Qed.

Lemma upd_insert p h c (s : IOManager E) : ctxs s !! p = Some c ->
  upd_ctx p h s = mkIOManager (ep s) (_pendingEventNum s) (_fdContexts s) (<[p := h c]> (ctxs s)) (next_ctx s) (scheduled s).
Proof.
  intros H. unfold upd_ctx. f_equal. apply map_eq. intros q. destruct (decide (q = p)) as [->|Hn].
  - by rewrite lookup_alter_eq, lookup_insert_eq, H.
  - by rewrite lookup_alter_ne, lookup_insert_ne.
Qed.

(** ** Growing the vector *)
Lemma make_ctxs_ok n T : forall k (s : IOManager E), implements T s -> k = length (_fdContexts s) ->
  zlen (_fdContexts s) + Z.of_nat n < 2 ^ 32 ->
  implements T (make_ctxs n k s) /\ scheduled (make_ctxs n k s) = scheduled s /\
  ep (make_ctxs n k s) = ep s /\ length (_fdContexts (make_ctxs n k s)) = (k + n)%nat.
Proof.
  induction n as [|n IH]; intros k s Hs Hk Hn; [cbn; split_and!; try done; lia|]. cbn [make_ctxs].
  destruct (IH (S k) (mkIOManager (ep s) (_pendingEventNum s) (_fdContexts s ++ [next_ctx s])
    (<[next_ctx s := FdContext_new (Z.of_nat k)]> (ctxs s)) (S (next_ctx s)) (scheduled s))) as (H1 & H2 & H4 & H3).
  - destruct Hs as [Hc Ho Hnd Hfr Hp Hs Ht]. pose proof (Hfr (next_ctx s) ltac:(lia)) as Hnew.
    split; cbn; try done.
    + intros i p [Hi|[Hi E1]]%lookup_app_Some.
      * destruct (Hc i p Hi) as [H1 H2]. rewrite lookup_insert_ne; [done|]. intros <-. by eapply Hnew, list_elem_of_lookup_2.
      * apply list_lookup_singleton_Some in E1 as [E0 <-].
        assert (i = k) as -> by lia. destruct (Ho k ltac:(lia)) as [H1 H2]. rewrite lookup_insert_eq, H1. split; [done|].
        intros Hk'. rewrite (H2 Hk'), H1. done.
    + intros i Hi. rewrite length_app in Hi. cbn in Hi. apply Ho. lia.
    + apply list.NoDup_app. split_and!; [done| |apply NoDup_singleton]. by intros x Hx ->%list_elem_of_singleton.
    + intros p Hp' [Hx|Hx%list_elem_of_singleton]%elem_of_app; [by apply (Hfr p ltac:(lia))|lia].
    + cbn [_fdContexts]. rewrite length_app, Nat.add_1_r. cbn [total length].
      destruct (Ho (length (_fdContexts s)) ltac:(lia)) as [-> _]. change (nbits (None, None)) with 0. lia.
    + cbn [_fdContexts]. rewrite length_app. cbn [length]. lia.
  - cbn. cbn [_fdContexts]. rewrite length_app. cbn [length]. lia.
  - cbn. cbn [_fdContexts]. rewrite length_app. cbn [length]. lia.
  - split_and!; [done|by rewrite H2|by rewrite H4|rewrite H3; lia].
Qed.

Lemma make_ctxs_S n k (s : IOManager E) :
  make_ctxs (S n) k s = make_ctxs n (S k) (mkIOManager (ep s) (_pendingEventNum s) (_fdContexts s ++ [next_ctx s])
    (<[next_ctx s := FdContext_new (Z.of_nat k)]> (ctxs s)) (S (next_ctx s)) (scheduled s)).
Proof. done. Qed.

(** The search finds the context of the descriptor. *)
Lemma AddEvent_find_ok T s i : implements T s -> Z.of_nat i < 2 ^ 30 ->
  exists p s', AddEvent_find (Z.of_nat i) s = (Ok p, s') /\ implements T s' /\ scheduled s' = scheduled s /\
    ep s' = ep s /\ _fdContexts s' !! i = Some p.
Proof.
  intros Hs Hi. pose proof (im_size _ _ Hs) as [Hl Hl2]. unfold AddEvent_find.
  step (eq_refl : get s = (Ok s, s)). unfold AddEvent_check, size_of.
  rewrite !uwrap_id by (unfold in_u; lia). destruct (Z.ltb_spec (zlen (_fdContexts s) - 1) (Z.of_nat i)) as [Hlt|Hge].
  - unfold AddEvent_grow, FdContextsResize. rewrite (proj2 (Z.leb_gt (2 ^ 31) _)), (proj2 (Z.ltb_ge (Z.of_nat i * 2) 0)) by lia.
    match goal with |- context [modify ?g] => step (eq_refl : modify g s = (Ok tt, g s)) end.
    rewrite decide_False by lia.
    destruct (make_ctxs_ok (Z.to_nat (Z.of_nat i * 2) - length (_fdContexts s)) T (length (_fdContexts s)) s) as (H1 & H2 & H4 & H3);
      [done|done|lia|].
    set (s1 := make_ctxs _ _ _) in *. destruct (lookup_lt_is_Some_2 (_fdContexts s1) i) as [p Hp]; [lia|].
    exists p, s1. split_and!; try done. by apply ctx_at_run.
  - destruct (lookup_lt_is_Some_2 (_fdContexts s) i) as [p Hp]; [lia|]. exists p, s. split_and!; try done. by apply ctx_at_run.
Qed.

(** ** Effects *)
Definition is_event (ev : Z) : Prop := ev = READ \/ ev = WRITE.

Definition handler_of (func : option nat) (cur : nat) : handler := match func with Some g => HCb g | None => HFiber cur end.

Lemma set_ctx_twice p a b (s : IOManager E) :
  <[p := a]> (<[p := b]> (ctxs s)) = <[p := a]> (ctxs s).
Proof. apply insert_insert_eq. Qed.

(** epoll was told about the new set of events. *)
Lemma watched_after T s i p x op e :
  epoll_ctl op (Z.of_nat i) (Z.lor EPOLLET (bits x)) p (ep s) = (0, e) ->
  op = (if bits x =? 0 then EPOLL_CTL_DEL else EPOLL_CTL_MOD) \/ (bits x <> 0 /\ op = EPOLL_CTL_ADD) ->
  watched e (move T i x) i p /\ forall k, k <> i -> interest e (Z.of_nat k) = interest (ep s) (Z.of_nat k).
Proof.
  intros Hctl Hop. destruct (ctl_ok _ _ _ _ _ _ Hctl) as [H1 H2]. split.
  - intros _. rewrite H1. unfold move. rewrite decide_True by done.
    destruct Hop as [-> |[Hb ->]]; [by destruct (bits x =? 0)|]. by rewrite (proj2 (Z.eqb_neq _ _)).
  - intros k Hk. apply H2. lia.
Qed.

Lemma AddEvent_set_ok T s i p ev func sc cur :
  implements T s -> _fdContexts s !! i = Some p -> i <> tick -> is_event ev -> waiter ev (T i) = None ->
  exists r s' T', AddEvent_set p ev func (Some sc) cur s = (Ok r, s') /\ implements T' s' /\ scheduled s' = scheduled s /\
    (r = 0 /\ T' = move T i (set_waiter ev (Some (sc, handler_of func cur)) (T i)) \/ r = -1 /\ T' = T /\ fails s).
Proof.
  intros Hs Hi Ht Hev Hw. destruct (im_ctx _ _ Hs i p Hi) as [Hc _].
  set (x := set_waiter ev (Some (sc, handler_of func cur)) (T i)).
  assert (Z.land ev (bits (T i)) = 0 /\ Z.lor (bits (T i)) ev = bits x /\
          Z.lor (Z.lor EPOLLET (bits (T i))) ev = Z.lor EPOLLET (bits x) /\ nbits x - nbits (T i) = 1 /\ bits x <> 0) as (Hl & Hb & Hbe & Hn & Hnz).
  { unfold x, waiter, set_waiter, bits, nbits in *. destruct (T i) as [[r|] [w|]]; destruct Hev as [-> | ->]; cbn in *; done. }
  unfold AddEvent_set. step (at_ctx_run p _ s Hc). cbn [events ctx_with]. rewrite Hl. cbn [Z.eqb negb].
  set (opt := if bits (T i) =? 0 then EPOLL_CTL_ADD else EPOLL_CTL_MOD). cbn [fd ctx_with].
  destruct (epoll_ctl opt (Z.of_nat i) (Z.lor (Z.lor EPOLLET (bits (T i))) ev) p (ep s)) as [r e] eqn:Hctl.
  step (epoll_run opt _ _ p r e s Hctl). destruct (Z.eqb_spec r 0) as [->|Hr]; cbn [negb].
  2:{ exists (-1), (set_ep e s), T. split_and!; try done; [|right; split_and!; [done|done|]].
      2:{ eapply (fails_intro T); try done. unfold opt. by destruct (Z.eqb_spec (bits (T i)) 0). }
      apply implements_ep; [done|]. by eapply ctl_fail. }
  rewrite Hbe in Hctl.
  destruct (watched_after T s i p x opt e Hctl) as [Hw1 Hw2].
  { unfold opt. destruct (Z.eqb_spec (bits (T i)) 0); [by right|]. left. by rewrite (proj2 (Z.eqb_neq _ _)). }
  exists 0. eexists. exists (move T i x). split; [|split; [apply (implements_move T s i p x e 1 (scheduled s)); done|split; [done|by left]]].
  match goal with |- context [modify ?g] => step (eq_refl : modify g (set_ep e s) = (Ok tt, g (set_ep e s))) end.
  set (s1 := add_pending 1 (set_ep e s)). assert (ctxs s1 !! p = Some (ctx_with (T i) i)) as Hc1 by exact Hc.
  match goal with |- context [modify ?g] => step (eq_refl : modify g s1 = (Ok tt, g s1)) end.
  rewrite (upd_insert p _ _ s1 Hc1). set (s2 := mkIOManager _ _ _ _ _ _).
  assert (ctxs s2 !! p = Some (set_events (Z.lor (bits (T i)) ev) (ctx_with (T i) i))) as Hc2 by (cbn; by rewrite lookup_insert_eq).
  assert (exists evctx, getEvContext ev (ctx_with (T i) i) = Some evctx /\ evctx = no_event) as (evctx & Eg & ->).
  { unfold waiter, getEvContext in *. destruct (T i) as [r w]. destruct Hev as [-> | ->]; cbn in *; subst; by eexists. }
  rewrite Eg. match goal with |- context [assert ?b] => step (eq_refl : assert b s2 = (Ok tt, s2)) end.
  match goal with |- context [modify ?g] => step (eq_refl : modify g s2 = (Ok tt, g s2)) end.
  rewrite (upd_insert p _ _ s2 Hc2). unfold mret, M_ret. cbn. do 2 f_equal. rewrite insert_insert_eq. f_equal. rewrite Hb. unfold x, ctx_with, set_waiter, setEvContext, handler_of.
  destruct Hev as [-> | ->], func; cbn; done.
Qed.

Definition triggered (p i : nat) (ev : Z) (x : waiting * waiting) (w : nat * handler) (s : IOManager E) : IOManager E :=
  mkIOManager (ep s) (_pendingEventNum s) (_fdContexts s) (<[p := ctx_with (set_waiter ev None x) i]> (ctxs s))
    (next_ctx s) (scheduled s ++ [w]).

Lemma trigger_run p i ev x sc h s :
  ctxs (s : IOManager E) !! p = Some (ctx_with x i) -> is_event ev -> waiter ev x = Some (sc, h) ->
  triggerEvent p ev s = (Ok tt, triggered p i ev x (sc, h) s).
Proof.
  intros Hc Hev Hw.
  assert (Z.land (bits x) ev <> 0 /\ Z.land (bits x) (Z.lnot ev) = bits (set_waiter ev None x) /\
          getEvContext ev (ctx_with x i) = Some (ctx_of (Some (sc, h))) /\
          setEvContext ev no_event (set_events (bits (set_waiter ev None x)) (ctx_with x i)) = ctx_with (set_waiter ev None x) i)
    as (Hb & Hb' & Hg & Hset).
  { unfold waiter, set_waiter, bits, getEvContext, setEvContext, set_events, ctx_with in *.
    destruct x as [[r|] [w|]], Hev as [-> | ->]; cbn in *; (try discriminate Hw); try injection Hw as ->; done. }
  unfold triggerEvent. step (at_ctx_run p _ s Hc). cbn [events ctx_with]. rewrite (proj2 (Z.eqb_neq _ _) Hb), Hg, Hb'.
  match goal with |- context [modify ?g] => step (eq_refl : modify g s = (Ok tt, g s)) end.
  rewrite (upd_insert p _ _ s Hc). set (s1 := mkIOManager _ _ _ _ _ _).
  assert (forall l, upd_ctx p (setEvContext ev no_event) (mkIOManager (ep s1) (_pendingEventNum s1) (_fdContexts s1) (ctxs s1) (next_ctx s1) l) =
    mkIOManager (ep s) (_pendingEventNum s) (_fdContexts s) (<[p := ctx_with (set_waiter ev None x) i]> (ctxs s)) (next_ctx s) l) as Hend.
  { intros l. rewrite (upd_insert p _ (set_events (bits (set_waiter ev None x)) (ctx_with x i))) by (cbn; by rewrite lookup_insert_eq).
    cbn. by rewrite insert_insert_eq, <- Hset. }
  destruct h as [f|g]; cbn [ctx_of ev_scheduler ev_cb ev_fiber].
  - step (eq_refl : (mret tt : M (IOManager E) unit) s1 = (Ok tt, s1)).
    match goal with |- context [modify ?g] => step (eq_refl : modify g s1 = (Ok tt, g s1)) end.
    unfold modify. f_equal. apply (Hend (scheduled s ++ [(sc, HFiber f)])).
  - match goal with |- context [modify ?g] => step (eq_refl : modify g s1 = (Ok tt, g s1)) end.
    match goal with |- context [mbind _ _ ?s2] => step (eq_refl : (mret tt : M (IOManager E) unit) s2 = (Ok tt, s2)) end.
    unfold modify. f_equal. apply (Hend (scheduled s ++ [(sc, HCb g)])).
Qed.

Lemma trigger_none p i ev x s :
  ctxs (s : IOManager E) !! p = Some (ctx_with x i) -> is_event ev -> waiter ev x = None -> triggerEvent p ev s = (Ok tt, s).
Proof.
  intros Hc Hev Hw. unfold triggerEvent. step (at_ctx_run p _ s Hc). cbn [events ctx_with].
  assert (Z.land (bits x) ev = 0) as ->; [|done].
  unfold waiter, bits in *. destruct x as [[r|] [w|]], Hev as [-> | ->]; cbn in *; done.
Qed.

(** The bits of one event. *)
Lemma bits_waiter ev x : is_event ev ->
  (Z.land (bits x) ev =? 0) = is_none (waiter ev x) /\
  Z.land (bits x) (Z.lnot ev) = bits (set_waiter ev None x) /\
  nbits (set_waiter ev None x) - nbits x = (if is_none (waiter ev x) then 0 else -1).
Proof. unfold waiter, set_waiter, bits, nbits. destruct x as [[r|] [w|]]; intros [-> | ->]; cbn; done. Qed.

Lemma ctx_found T s i : implements T s -> (i < length (_fdContexts s))%nat ->
  exists p, _fdContexts s !! i = Some p /\ ctx_at (Z.of_nat i) s = (Ok p, s) /\ at_ctx p s = (Ok (ctx_with (T i) i), s) /\
    ctxs s !! p = Some (ctx_with (T i) i).
Proof.
  intros Hs Hi. destruct (lookup_lt_is_Some_2 _ _ Hi) as [p Hp]. exists p.
  destruct (im_ctx _ _ Hs i p Hp) as [Hc _]. split_and!; [done|by apply ctx_at_run|by apply at_ctx_run|done].
Qed.

Lemma outside T s i ev : implements T s -> (length (_fdContexts s) <= i)%nat -> waiter ev (T i) = None.
Proof. intros Hs Hi. destruct (im_out _ _ Hs i Hi) as [-> _]. unfold waiter. by destruct (ev =? READ). Qed.

Lemma DelEvent_ok T s i ev :
  implements T s -> i <> tick -> Z.of_nat i < 2 ^ 30 -> is_event ev ->
  exists b s' T', DelEvent (Z.of_nat i) ev s = (Ok b, s') /\ implements T' s' /\ scheduled s' = scheduled s /\
    (b = true /\ waiter ev (T i) <> None /\ T' = move T i (set_waiter ev None (T i)) \/
     b = false /\ T' = T /\ (waiter ev (T i) = None \/ fails s)).
Proof.
  intros Hs Ht Hi Hev. pose proof (im_size _ _ Hs) as [Hl Hl2]. unfold DelEvent.
  step (eq_refl : get s = (Ok s, s)). unfold size_of. rewrite !uwrap_id by (unfold in_u; lia).
  destruct (Z.ltb_spec (zlen (_fdContexts s) - 1) (Z.of_nat i)).
  { exists false, s, T. split_and!; try done. right. split_and!; try done. left. apply (outside T s i ev Hs). lia. }
  destruct (ctx_found T s i Hs) as (p & Hp & E1 & E2 & Hc); [lia|]. step E1. step E2. cbn [events ctx_with].
  destruct (bits_waiter ev (T i) Hev) as (Hb & Hb' & Hn). rewrite Hb, Hb'.
  destruct (waiter ev (T i)) as [w|] eqn:Hw; cbn [is_none] in *; [|exists false, s, T; split_and!; [done..|]; right; split_and!; try done; by left].
  set (x := set_waiter ev None (T i)) in *. set (opt := if bits x =? 0 then EPOLL_CTL_DEL else EPOLL_CTL_MOD). cbn [fd].
  destruct (epoll_ctl opt (Z.of_nat i) (Z.lor (bits x) EPOLLET) p (ep s)) as [r e] eqn:Hctl.
  step (epoll_run opt _ _ p r e s Hctl). destruct (Z.eqb_spec r 0) as [->|Hr]; cbn [negb].
  2:{ exists false, (set_ep e s), T. split_and!; [done|apply implements_ep; [done|]; by eapply ctl_fail|try done..]. right. split_and!; try done. right. by eapply (fails_removing T), Hr; [..|exact Hctl]; [..|eapply waiter_bits]. }
  rewrite Z.lor_comm in Hctl. destruct (watched_after T s i p x opt e Hctl) as [Hw1 Hw2]; [by left|].
  exists true. eexists. exists (move T i x).
  split; [|split; [apply (implements_move T s i p x e (-1) (scheduled s)); done|split; [done|left; by split_and!]]].
  set (s1 := set_ep e s). assert (ctxs s1 !! p = Some (ctx_with (T i) i)) as Hc1 by exact Hc.
  match goal with |- context [modify ?g] => step (eq_refl : modify g s1 = (Ok tt, g s1)) end.
  rewrite (upd_insert p _ _ s1 Hc1). set (s2 := mkIOManager _ _ _ _ _ _).
  assert (ctxs s2 !! p = Some (set_events (bits x) (ctx_with (T i) i))) as Hc2 by (cbn; by rewrite lookup_insert_eq).
  assert (exists evctx, getEvContext ev (ctx_with (T i) i) = Some evctx) as [evctx Eg].
  { destruct Hev as [-> | ->]; by eexists. }
  change (mkFdContext (ctx_of (T i).1) (ctx_of (T i).2) (bits (T i)) (Z.of_nat i)) with (ctx_with (T i) i).
  rewrite Eg. match goal with |- context [modify ?g] => step (eq_refl : modify g s2 = (Ok tt, g s2)) end.
  rewrite (upd_insert p _ _ s2 Hc2).
  match goal with |- context [modify ?g] => match goal with |- (_ ≫= _) ?s3 = _ => step (eq_refl : modify g s3 = (Ok tt, g s3)) end end.
  unfold mret, M_ret, add_pending. cbn. do 2 f_equal. rewrite insert_insert_eq. f_equal.
  unfold x, ctx_with, set_waiter, setEvContext, resetEvContext. destruct Hev as [-> | ->]; done.
Qed.

Lemma CancelEvent_ok T s i ev :
  implements T s -> i <> tick -> Z.of_nat i < 2 ^ 30 -> is_event ev ->
  exists b s' T', CancelEvent (Z.of_nat i) ev s = (Ok b, s') /\ implements T' s' /\
    (b = true /\ T' = move T i (set_waiter ev None (T i)) /\
       (exists w, waiter ev (T i) = Some w /\ scheduled s' = scheduled s ++ [w]) \/
     b = false /\ T' = T /\ scheduled s' = scheduled s /\ (waiter ev (T i) = None \/ fails s)).
Proof.
  intros Hs Ht Hi Hev. pose proof (im_size _ _ Hs) as [Hl Hl2]. unfold CancelEvent.
  step (eq_refl : get s = (Ok s, s)). unfold size_of. rewrite !uwrap_id by (unfold in_u; lia).
  destruct (Z.leb_spec (zlen (_fdContexts s)) (Z.of_nat i)).
  { exists false, s, T. split_and!; try done. right. split_and!; try done. left. apply (outside T s i ev Hs). lia. }
  destruct (ctx_found T s i Hs) as (p & Hp & E1 & E2 & Hc); [lia|]. step E1. step E2. cbn [events ctx_with].
  destruct (bits_waiter ev (T i) Hev) as (Hb & Hb' & Hn). rewrite Hb, Hb'.
  destruct (waiter ev (T i)) as [[sc h]|] eqn:Hw; cbn [is_none] in *; [|exists false, s, T; split_and!; [done..|]; right; split_and!; try done; by left].
  set (x := set_waiter ev None (T i)) in *. set (opt := if bits x =? 0 then EPOLL_CTL_DEL else EPOLL_CTL_MOD). cbn [fd].
  destruct (epoll_ctl opt (Z.of_nat i) (Z.lor EPOLLET (bits x)) p (ep s)) as [r e] eqn:Hctl.
  step (epoll_run opt _ _ p r e s Hctl). destruct (Z.eqb_spec r 0) as [->|Hr]; cbn [negb].
  2:{ exists false, (set_ep e s), T. split_and!; [done|apply implements_ep; [done|]; by eapply ctl_fail|try done..]. right. split_and!; try done. right. by eapply (fails_removing T), Hr; [..|exact Hctl]; [..|eapply waiter_bits]. }
  destruct (watched_after T s i p x opt e Hctl) as [Hw1 Hw2]; [by left|].
  step (trigger_run p i ev (T i) sc h (set_ep e s) Hc Hev Hw).
  exists true. eexists. exists (move T i x). split; [done|]. split.
  - apply (implements_move T s i p x e (-1) (scheduled s ++ [(sc, h)])); done.
  - left. split_and!; [done|done|]. by exists (sc, h).
Qed.

Definition those (w : waiting) : list (nat * handler) := match w with Some x => [x] | None => [] end.

(** [x] without the events of [evs], and their handlers. *)
Definition without (evs : Z) (x : waiting * waiting) : waiting * waiting :=
  (if Z.land evs READ =? 0 then fst x else None, if Z.land evs WRITE =? 0 then snd x else None).
Definition taken (evs : Z) (x : waiting * waiting) : list (nat * handler) :=
  (if Z.land evs READ =? 0 then [] else those (fst x)) ++ (if Z.land evs WRITE =? 0 then [] else those (snd x)).

(** How often the count is decremented. *)
Definition nevents (evs : Z) : Z :=
  (if Z.land evs READ =? 0 then 0 else 1) + (if Z.land evs WRITE =? 0 then 0 else 1).

Lemma trigger_any p i ev x (s : IOManager E) :
  ctxs s !! p = Some (ctx_with x i) -> is_event ev ->
  triggerEvent p ev s = (Ok tt, mkIOManager (ep s) (_pendingEventNum s) (_fdContexts s)
    (<[p := ctx_with (set_waiter ev None x) i]> (ctxs s)) (next_ctx s) (scheduled s ++ those (waiter ev x))).
Proof.
  intros Hc Hev. destruct (waiter ev x) as [[sc h]|] eqn:Hw.
  - by rewrite (trigger_run p i ev x sc h s Hc Hev Hw).
  - rewrite (trigger_none p i ev x s Hc Hev Hw). cbn [those]. rewrite app_nil_r.
    assert (set_waiter ev None x = x) as ->.
    { destruct x as [r w], Hev as [-> | ->]; cbn in *; by subst. }
    rewrite insert_id by done. by destruct s.
Qed.

(** One step of CancelAll and of the loop over the ready events. *)
Lemma trigger_if_run (b : bool) ev p i x (s : IOManager E) :
  ctxs s !! p = Some (ctx_with x i) -> is_event ev ->
  (if b then triggerEvent p ev;; modify (add_pending (-1)) else mret tt) s =
  (Ok tt, mkIOManager (ep s) (_pendingEventNum s + (if b then -1 else 0)) (_fdContexts s)
    (<[p := ctx_with (if b then set_waiter ev None x else x) i]> (ctxs s)) (next_ctx s)
    (scheduled s ++ if b then those (waiter ev x) else [])).
Proof.
  intros Hc Hev. destruct b.
  - by step (trigger_any p i ev x s Hc Hev).
  - rewrite insert_id, Z.add_0_r, app_nil_r by done. by destruct s.
Qed.

Lemma bits_none x : bits x = 0 -> x = (None, None).
Proof. by destruct x as [[?|] [?|]]. Qed.

Lemma CancelAll_ok T s i :
  implements T s -> i <> tick -> Z.of_nat i < 2 ^ 30 ->
  exists b s' T', CancelAll (Z.of_nat i) s = (Ok b, s') /\ implements T' s' /\
    (T' = move T i (None, None) /\ b = true /\ scheduled s' = scheduled s ++ those (fst (T i)) ++ those (snd (T i)) \/
     T' = T /\ scheduled s' = scheduled s /\ (T i = (None, None) \/ b = false /\ fails s)).
Proof.
  intros Hs Ht Hi. pose proof (im_size _ _ Hs) as [Hl Hl2]. unfold CancelAll.
  step (eq_refl : get s = (Ok s, s)). unfold size_of. rewrite !uwrap_id by (unfold in_u; lia).
  destruct (Z.leb_spec (zlen (_fdContexts s)) (Z.of_nat i)) as [Hge|Hlt].
  { exists true, s, T. split_and!; [done|done|right]. split_and!; [done|done|]. left. apply (im_out _ _ Hs). lia. }
  destruct (ctx_found T s i Hs) as (p & Hp & E1 & E2 & Hc); [lia|]. step E1. step E2. cbn [events ctx_with].
  destruct (Z.eqb_spec (bits (T i)) 0) as [Hz|Hz].
  { exists false, s, T. split_and!; [done|done|right]. split_and!; [done|done|]. left. by apply bits_none. }
  cbn [fd]. destruct (epoll_ctl EPOLL_CTL_DEL (Z.of_nat i) 0 p (ep s)) as [r e] eqn:Hctl.
  step (epoll_run EPOLL_CTL_DEL _ _ p r e s Hctl). destruct (Z.eqb_spec r 0) as [->|Hr]; cbn [negb].
  2:{ exists false, (set_ep e s), T. split_and!; [done|apply implements_ep; [done|]; by eapply ctl_fail|].
      right. split_and!; try done. right. split; [done|]. by apply (fails_intro T s i p EPOLL_CTL_DEL 0 r e). }
  set (s1 := set_ep e s). assert (ctxs s1 !! p = Some (ctx_with (T i) i)) as Hc1 by exact Hc.
  set (s2 := mkIOManager e (_pendingEventNum s + - nbits (T i)) (_fdContexts s) (<[p := ctx_with (None, None) i]> (ctxs s))
    (next_ctx s) (scheduled s ++ those (fst (T i)) ++ those (snd (T i)))).
  exists true, s2, (move T i (None, None)). split_and!; [|apply (implements_move T s i p (None, None) e); try done|by left; split_and!].
  - change (mkFdContext (ctx_of (T i).1) (ctx_of (T i).2) (bits (T i)) (Z.of_nat i)) with (ctx_with (T i) i).
    cbn [events ctx_with]. destruct (bits_waiter READ (T i) ltac:(by left)) as (HR & _ & _). rewrite HR.
    step (trigger_if_run (negb (is_none (waiter READ (T i)))) READ p i (T i) s1 Hc1 ltac:(by left)).
    set (x1 := if negb _ then _ else T i). set (sa := mkIOManager _ _ _ _ _ _).
    assert (ctxs sa !! p = Some (ctx_with x1 i)) as Hca by (cbn; by rewrite lookup_insert_eq).
    step (at_ctx_run p _ sa Hca). cbn [events ctx_with].
    destruct (bits_waiter WRITE x1 ltac:(by right)) as (HW & _ & _). rewrite HW.
    step (trigger_if_run (negb (is_none (waiter WRITE x1))) WRITE p i x1 sa Hca ltac:(by right)).
    set (x2 := if negb _ then _ else x1). set (sb := mkIOManager _ _ _ _ _ _).
    assert (ctxs sb !! p = Some (ctx_with x2 i)) as Hcb by (cbn; by rewrite lookup_insert_eq).
    step (at_ctx_run p _ sb Hcb). cbn [events ctx_with].
    subst x2 x1 sb sa s1 s2. cbn in *. clear -p.
    destruct (T i) as [[[sr hr]|] [[sw hw]|]]; cbn; rewrite ?insert_insert_eq, ?app_nil_r, <- ?app_assoc, <- ?Z.add_assoc; done.
  - intros k Hk. destruct (ctl_ok _ _ _ _ _ _ Hctl) as [_ H2]. apply H2. lia.
  - intros _. destruct (ctl_ok _ _ _ _ _ _ Hctl) as [H1 _]. unfold move. by rewrite decide_True, H1.
Qed.

(** How far the count goes wrong when epoll reports an event that is not
    registered any more together with one that is. *)
Definition stale (evs : Z) (x : waiting * waiting) : Z := nevents evs - (nbits x - nbits (without evs x)).

Lemma real_event_cases evs x : let r := real_event evs (bits x) in r = 0 \/ r = READ \/ r = WRITE \/ r = Z.lor READ WRITE.
Proof.
  cbv zeta. unfold real_event. set (e := if _ : bool then _ else evs).
  destruct (negb (Z.land e EPOLLIN =? 0)), (negb (Z.land e EPOLLOUT =? 0)); auto.
Qed.

Lemma bits_without evs x : let r := real_event evs (bits x) in Z.land (bits x) (Z.lnot r) = bits (without r x).
Proof.
  cbv zeta. pose proof (real_event_cases evs x) as H. cbv zeta in H.
  destruct H as [-> |[-> |[-> | ->]]], x as [[?|] [?|]]; done.
Qed.

Lemma handle_event_ok T s i p evs :
  implements T s -> i <> tick -> _fdContexts s !! i = Some p ->
  let real := real_event evs (bits (T i)) in
  exists s' T' k, handle_event p evs s = (Ok tt, s') /\ implements T' (add_pending k s') /\
    (T' = move T i (without real (T i)) /\ k = stale real (T i) /\ scheduled s' = scheduled s ++ taken real (T i) \/
     T' = T /\ k = 0 /\ scheduled s' = scheduled s /\ (Z.land real (bits (T i)) = 0 \/ fails s)).
Proof.
  intros Hs Ht Hp. destruct (im_ctx _ _ Hs i p Hp) as [Hc _]. cbv zeta. unfold handle_event.
  step (at_ctx_run p _ s Hc). cbv zeta. cbn [events ctx_with].
  assert (forall s1, implements T s1 -> implements T (add_pending 0 s1)) as H0.
  { intros [] H. unfold add_pending. cbn. by rewrite Z.add_0_r. }
  rewrite bits_without. set (real := real_event evs (bits (T i))). set (x := without real (T i)). unfold NONE.
  destruct (Z.eqb_spec (Z.land real (bits (T i))) 0) as [Hz|Hz].
  { exists s, T, 0. split_and!; [done|by apply H0|]. right. split_and!; try done. by left. }
  set (opt := if bits x =? 0 then EPOLL_CTL_DEL else EPOLL_CTL_MOD). cbn [fd].
  destruct (epoll_ctl opt (Z.of_nat i) (Z.lor EPOLLET (bits x)) p (ep s)) as [r e] eqn:Hctl.
  step (epoll_run opt _ _ p r e s Hctl). destruct (Z.eqb_spec r 0) as [->|Hr]; cbn [negb].
  2:{ exists (set_ep e s), T, 0. split_and!; [done|apply H0, implements_ep; [done|]; by eapply ctl_fail|].
      right. split_and!; try done. right. eapply (fails_removing T), Hr; [..|exact Hctl]; try done. intros Hb. by rewrite Hb, Z.land_0_r in Hz. }
  destruct (watched_after T s i p x opt e Hctl) as [Hw1 Hw2]; [by left|].
  set (s1 := set_ep e s). assert (ctxs s1 !! p = Some (ctx_with (T i) i)) as Hc1 by exact Hc.
  step (trigger_if_run (negb (Z.land real READ =? 0)) READ p i (T i) s1 Hc1 ltac:(by left)).
  set (x1 := if negb _ then _ else T i). set (sa := mkIOManager _ _ _ _ _ _).
  assert (ctxs sa !! p = Some (ctx_with x1 i)) as Hca by (cbn; by rewrite lookup_insert_eq).
  rewrite (trigger_if_run (negb (Z.land real WRITE =? 0)) WRITE p i x1 sa Hca ltac:(by right)).
  eexists. exists (move T i x), (stale real (T i)). split; [done|]. split.
  - pose proof (implements_move T s i p x e (nbits x - nbits (T i)) (scheduled s ++ taken real (T i)) Hs Hp Ht Hw2 Hw1 eq_refl) as Him.
    eapply implements_eq; [exact Him|]. subst x1 sa s1 x. unfold stale, without, taken, nevents, set_waiter.
    cbn [ep _pendingEventNum _fdContexts ctxs next_ctx scheduled set_ep add_pending].
    rewrite insert_insert_eq, <- app_assoc. clear. destruct (T i) as [r w].
    destruct (Z.land real READ =? 0), (Z.land real WRITE =? 0); cbn [negb fst snd READ WRITE Z.eqb Pos.eqb];
      rewrite ?app_nil_r; unfold add_pending; cbn; f_equal; lia.
  - left. split_and!; [done|done|]. cbn. rewrite <- app_assoc. f_equal. unfold taken.
    subst x1. destruct (T i), (Z.land real READ =? 0), (Z.land real WRITE =? 0); done.
Qed.

Lemma IOManager_new_ok (e : E) :
  (forall k, k <> tick -> interest e (Z.of_nat k) = None) -> implements (fun _ => (None, None)) (IOManager_new e).
Proof.
  intros He. set (s1 := mkIOManager e 0 [O] {[ O := FdContext_new 0 ]} 1 []).
  assert (IOManager_new e = make_ctxs 31 1 s1) as ->.
  { unfold IOManager_new, FdContextsResize, modify. change (32 <? 0) with false. cbn [snd _fdContexts length].
    rewrite decide_False by lia. change (Z.to_nat 32 - 0)%nat with (S 31). by rewrite make_ctxs_S. }
  assert (implements (fun _ => (None, None)) s1) as Hs1; [|apply (make_ctxs_ok 31 _ 1 s1 Hs1); [done|cbn; lia]].
  split; cbn; try done.
  - intros i p [-> <-]%list_lookup_singleton_Some. rewrite lookup_singleton_eq. split; [done|]. intros Hi. by apply He.
  - intros i Hi. split; [done|]. intros Hi'. by apply He.
  - apply NoDup_singleton.
  - intros p Hp ->%list_elem_of_singleton. lia.
  - lia.
Qed.

(** ** The operations, and what the table says about them *)
Inductive io_op :=
  | Add (i : nat) (ev : Z) (func : option nat) (sche : nat) (cur : nat)
  | Del (i : nat) (ev : Z)
  | Cancel (i : nat) (ev : Z)
  | Cancel_all (i : nat)
  | Ready (i : nat) (evs : Z).

Definition of_bool (b : bool) : Z := if b then 1 else 0.

Definition perform (op : io_op) : M (IOManager E) Z :=
  match op with
  | Add i ev func sche cur => AddEvent (Z.of_nat i) ev func (Some sche) cur
  | Del i ev => b ← DelEvent (Z.of_nat i) ev; mret (of_bool b)
  | Cancel i ev => b ← CancelEvent (Z.of_nat i) ev; mret (of_bool b)
  | Cancel_all i => b ← CancelAll (Z.of_nat i); mret (of_bool b)
  | Ready i evs => p ← ctx_at (Z.of_nat i); handle_event p evs;; mret 0
  end.

Definition descriptor (op : io_op) : nat :=
  match op with Add i _ _ _ _ => i | Del i _ => i | Cancel i _ => i | Cancel_all i => i | Ready i _ => i end.

(** What the callers promise: descriptors an [int] can be doubled for, one
    event at a time, no event added twice; and of epoll, that the events it
    reports are registered. *)
Definition admissible (T : table) (op : io_op) : Prop :=
  descriptor op <> tick /\ Z.of_nat (descriptor op) < 2 ^ 30 /\
  match op with
  | Add i ev _ _ _ => is_event ev /\ waiter ev (T i) = None
  | Del _ ev | Cancel _ ev => is_event ev
  | Cancel_all _ => True
  | Ready i evs => bits (T i) <> 0 /\ stale (real_event evs (bits (T i))) (T i) = 0
  end.

(** One operation on the table: its result, the table after it and the
    handlers it schedules; [F]: some call of [epoll_ctl] may fail. *)
Inductive table_step (F : Prop) (T : table) : io_op -> Z -> table -> list (nat * handler) -> Prop :=
  | t_add i ev func sc cur :
      table_step F T (Add i ev func sc cur) 0 (move T i (set_waiter ev (Some (sc, handler_of func cur)) (T i))) []
  | t_add_fails i ev func sc cur : F -> table_step F T (Add i ev func sc cur) (-1) T []
  | t_del i ev : waiter ev (T i) <> None -> table_step F T (Del i ev) 1 (move T i (set_waiter ev None (T i))) []
  | t_del_not i ev : waiter ev (T i) = None \/ F -> table_step F T (Del i ev) 0 T []
  | t_cancel i ev w : waiter ev (T i) = Some w -> table_step F T (Cancel i ev) 1 (move T i (set_waiter ev None (T i))) [w]
  | t_cancel_not i ev : waiter ev (T i) = None \/ F -> table_step F T (Cancel i ev) 0 T []
  | t_all i : table_step F T (Cancel_all i) 1 (move T i (None, None)) (those (fst (T i)) ++ those (snd (T i)))
  | t_all_none i b : T i = (None, None) -> table_step F T (Cancel_all i) b T []
  | t_all_fails i : F -> table_step F T (Cancel_all i) 0 T []
  | t_ready i evs : let real := real_event evs (bits (T i)) in
      table_step F T (Ready i evs) 0 (move T i (without real (T i))) (taken real (T i))
  | t_ready_not i evs : Z.land (real_event evs (bits (T i))) (bits (T i)) = 0 \/ F -> table_step F T (Ready i evs) 0 T [].

Lemma io_perform_ok T s op : implements T s -> admissible T op ->
  exists r s' T' l, perform op s = (Ok r, s') /\ table_step (fails s) T op r T' l /\
    implements T' s' /\ scheduled s' = scheduled s ++ l.
Proof.
  destruct op as [i ev func sc cur|i ev|i ev|i|i evs]; intros Hs (Ht & Hi & Hop); cbn [perform descriptor] in *.
  - destruct Hop as [Hev Hw]. destruct (AddEvent_find_ok T s i Hs Hi) as (p & s1 & Hf & Hs1 & Hsc1 & Hep & Hp).
    destruct (AddEvent_set_ok T s1 i p ev func sc cur Hs1 Hp Ht Hev Hw) as (r & s' & T' & Ha & Hs' & Hsc & Hr).
    exists r, s', T', []. unfold AddEvent. step Hf. rewrite app_nil_r, Hsc, Hsc1. split_and!; [done| |done|done].
    destruct Hr as [[-> ->]|(-> & -> & Hfail)]; constructor. unfold fails in *. by rewrite <- Hep.
  - destruct (DelEvent_ok T s i ev Hs Ht Hi Hop) as (b & s' & T' & Hd & Hs' & Hsc & Hr).
    exists (of_bool b), s', T', []. step Hd. rewrite app_nil_r, Hsc. split_and!; [done| |done|done].
    destruct Hr as [(-> & Hw & ->)|(-> & -> & Hw)]; by constructor.
  - destruct (CancelEvent_ok T s i ev Hs Ht Hi Hop) as (b & s' & T' & Hd & Hs' & Hr).
    destruct Hr as [(-> & -> & w & Hw & Hsc)|(-> & -> & Hsc & Hw)].
    + exists 1, s', (move T i (set_waiter ev None (T i))), [w]. step Hd. split_and!; [done|by constructor|done|done].
    + exists 0, s', T, []. step Hd. rewrite app_nil_r. split_and!; [done|by constructor|done|done].
  - destruct (CancelAll_ok T s i Hs Ht Hi) as (b & s' & T' & Hd & Hs' & Hr).
    destruct Hr as [(-> & -> & Hsc)|(-> & Hsc & Hw)]; do 2 eexists; eexists; eexists; step Hd; (split_and!; [done| |done|]).
    2: exact Hsc. 3: rewrite app_nil_r; exact Hsc.
    + constructor.
    + destruct Hw as [Hw|[-> Hf]]; [by apply t_all_none|by apply t_all_fails].
  - destruct Hop as [Hb Hst]. destruct (ctx_found T s i Hs) as (p & Hp & E1 & _ & _).
    { destruct (decide (i < length (_fdContexts s))%nat) as [|Hn]; [done|]. destruct (im_out _ _ Hs i) as [Ho _]; [lia|]. by rewrite Ho in Hb. }
    destruct (handle_event_ok T s i p evs Hs Ht Hp) as (s' & T' & k & Hh & Hs' & Hr). step E1. step Hh.
    destruct Hr as [(-> & -> & Hsc)|(-> & -> & Hsc & Hw)].
    + rewrite Hst in Hs'. eexists 0, s', _, _. split_and!; [done|by constructor| |exact Hsc].
      eapply implements_eq; [exact Hs'|]. destruct s'. unfold add_pending. cbn. by rewrite Z.add_0_r.
    + eexists 0, s', _, []. rewrite app_nil_r. split_and!; [done|by apply t_ready_not| |exact Hsc].
      eapply implements_eq; [exact Hs'|]. destruct s'. unfold add_pending. cbn. by rewrite Z.add_0_r.
Qed.

(** What a successful call did to the table. *)
Lemma perform_add T s i ev func sc cur : let op := Add i ev func sc cur in
  implements T s -> admissible T op -> fst (perform op s) = Ok 0 ->
  implements (move T i (set_waiter ev (Some (sc, handler_of func cur)) (T i))) (snd (perform op s)).
Proof.
  intros op Hs Ha H0. destruct (io_perform_ok T s op Hs Ha) as (r & s' & T' & l & Hp & Ht & Him & _).
  rewrite Hp in *. injection H0 as ->. by inversion Ht; subst.
Qed.

Lemma perform_cancel T s i ev :
  implements T s -> admissible T (Cancel i ev) -> fst (perform (Cancel i ev) s) = Ok 1 ->
  implements (move T i (set_waiter ev None (T i))) (snd (perform (Cancel i ev) s)).
Proof.
  intros Hs Ha H0. destruct (io_perform_ok T s _ Hs Ha) as (r & s' & T' & l & Hp & Ht & Him & _).
  rewrite Hp in *. injection H0 as ->. by inversion Ht; subst.
Qed.


(** When a ready descriptor reports an event that was cancelled between
    the return of epoll_wait and the lock, together with one that still waits,
    the cancelled one is subtracted from [_pendingEventNum] once more: the count
    falls below the number of waiting handlers by [stale], and IsStopping is
    wrong from then on. *)
Theorem stale_event_miscounted T s i p evs :
  implements T s -> i <> tick -> _fdContexts s !! i = Some p -> ~ fails s ->
  Z.land (real_event evs (bits (T i))) (bits (T i)) <> 0 ->
  exists s' T', handle_event p evs s = (Ok tt, s') /\ T' = move T i (without (real_event evs (bits (T i))) (T i)) /\
    _pendingEventNum s' = total (fun k => nbits (T' k)) (length (_fdContexts s')) - stale (real_event evs (bits (T i))) (T i).
Proof.
  intros Hs Ht Hp Hf Hr. destruct (handle_event_ok T s i p evs Hs Ht Hp) as (s' & T' & k & Hh & Hs' & [(HT & -> & Hsc)|(_ & _ & _ & [?|?])]); [|done..].
  exists s', T'. split_and!; [done|done|]. pose proof (im_pending _ _ Hs') as Hn. cbn in Hn. lia.
Qed.

(** Two threads that find the vector too short resize it one after the
    other, and the second one, with the smaller descriptor, shortens it again:
    the contexts past twice its descriptor are dropped with the handlers that
    wait in them, and cancelling all events of such a descriptor then reports
    success and wakes nobody. *)
Theorem resize_drops_contexts T s i j :
  implements T s -> (0 < i)%nat -> Z.of_nat j < 2 ^ 30 -> (i * 2 <= j < length (_fdContexts s))%nat ->
  exists p s', AddEvent_grow (Z.of_nat i) s = (Ok p, s') /\ length (_fdContexts s') = (i * 2)%nat /\
    CancelAll (Z.of_nat j) s' = (Ok true, s') /\ scheduled s' = scheduled s.
Proof.
  intros Hs Hi Hj Hij. unfold AddEvent_grow, FdContextsResize.
  rewrite (proj2 (Z.leb_gt (2 ^ 31) _)), (proj2 (Z.ltb_ge (Z.of_nat i * 2) 0)) by lia.
  match goal with |- context [modify ?g] => step (eq_refl : modify g s = (Ok tt, g s)) end.
  rewrite decide_True by lia. set (s1 := mkIOManager _ _ _ _ _ _).
  assert (length (_fdContexts s1) = (i * 2)%nat) as Hl by (cbn; rewrite length_take; lia).
  destruct (lookup_lt_is_Some_2 (_fdContexts s1) i) as [p Hp]; [lia|]. exists p, s1.
  split_and!; [by apply ctx_at_run|done| |done].
  unfold CancelAll. step (eq_refl : get s1 = (Ok s1, s1)). unfold size_of.
  rewrite !uwrap_id by (unfold in_u; lia). by rewrite (proj2 (Z.leb_le _ _)) by lia.
Qed.
End contract.

(** ** A concrete epoll *)
#[export] Instance map_epoll : Epoll (gmap Z (Z * nat)) := {
  epoll_ctl op i evs p e :=
    match op, e !! i with
    | EPOLL_CTL_ADD, None | EPOLL_CTL_MOD, Some _ => (0, <[i := (evs, p)]> e)
    | EPOLL_CTL_DEL, Some _ => (0, delete i e)
    | _, _ => (-1, e)
    end
}.

#[export] Instance map_epoll_laws : EpollLaws (gmap Z (Z * nat)).
Proof.
  refine {| interest := fun e i => e !! i |}.
  - intros op i evs p e e'. unfold epoll_ctl, map_epoll. destruct op, (e !! i); intros [= <-]; split;
      rewrite ?lookup_insert_eq, ?lookup_delete_eq; try done; intros k Hk; rewrite ?lookup_insert_ne, ?lookup_delete_ne; done.
  - intros op i evs p e r e'. unfold epoll_ctl, map_epoll. by destruct op, (e !! i); intros [= <- <-].
Defined.

(** The tickle pipe is descriptor 7. *)
Definition new_manager : IOManager (gmap Z (Z * nat)) := IOManager_new {[ 7 := (Z.lor EPOLLET EPOLLIN, 7%nat) ]}.

Lemma new_manager_ok : implements 7 (fun _ => (None, None)) new_manager.
Proof. apply IOManager_new_ok. intros k Hk. apply lookup_singleton_ne. lia. Qed.


Lemma map_epoll_reliable (s : IOManager (gmap Z (Z * nat))) : ~ fails s.
Proof.
  intros (op & i & evs & p & Hop & H). cbn in *.
  destruct op, (ep s !! i); cbn in H; try done; [by destruct Hop as [H1 _]; specialize (H1 eq_refl)| |];
    destruct Hop as [_ H1]; by specialize (H1 eq_refl).
Qed.

(** Reader and writer wait for descriptor 5; the reader is cancelled. *)
Definition both : IOManager (gmap Z (Z * nat)) :=
  snd (perform (Add 5 WRITE None 0 2) (snd (perform (Add 5 READ None 0 1) new_manager))).
Definition both_table : table := move (move (fun _ => (None, None)) 5 (Some (0%nat, HFiber 1), None)) 5 (Some (0%nat, HFiber 1), Some (0%nat, HFiber 2)).

Lemma both_ok : implements 7 both_table both.
Proof.
  apply (perform_add 7 (move (fun _ => (None, None)) 5 (Some (0%nat, HFiber 1), None)) _ 5 WRITE None 0 2); [|split_and!; [done|done|by right|done]|by vm_compute].
  apply (perform_add 7 (fun _ => (None, None)) _ 5 READ None 0 1); [exact new_manager_ok|split_and!; [done|done|by left|done]|by vm_compute].
Qed.

Definition one_left : IOManager (gmap Z (Z * nat)) := snd (perform (Cancel 5 READ) both).

Lemma one_left_ok : implements 7 (move both_table 5 (None, Some (0%nat, HFiber 2))) one_left.
Proof. apply (perform_cancel 7 both_table both 5 READ both_ok); [split_and!; [done|done|by left]|by vm_compute]. Qed.

(** epoll had reported both events before the cancellation: the count ends at
    -1 with nobody waiting, and the manager can never stop. *)
Lemma stale_event_miscounted_witness : exists s' T',
  handle_event 5 (Z.lor EPOLLIN EPOLLOUT) one_left = (Ok tt, s') /\
  T' = move (move both_table 5 (None, Some (0%nat, HFiber 2))) 5 (None, None) /\
  _pendingEventNum s' = total (fun k => nbits (T' k)) (length (_fdContexts s')) - 1 /\
  IsStopping (2 ^ 64 - 1) true (snd (handle_event 5 (Z.lor EPOLLIN EPOLLOUT) one_left)) = false.
Proof.
  destruct (stale_event_miscounted 7 _ one_left 5 5 (Z.lor EPOLLIN EPOLLOUT) one_left_ok) as (s' & T' & H1 & H2 & H3);
    [done|by vm_compute|apply map_epoll_reliable|by vm_compute|].
  exists s', T'. split_and!; [exact H1|exact H2|exact H3|by vm_compute].
Defined.

(** A thread that has found the vector too short for descriptor 40 shortens it
    after another one has made room for descriptor 100. *)
Definition grown : IOManager (gmap Z (Z * nat)) := snd (perform (Add 100 READ None 0 1) new_manager).

Lemma resize_drops_contexts_witness :
  AddEvent_check 40 new_manager = true /\ fst (perform (Add 100 READ None 0 1) new_manager) = Ok 0 /\
  exists p s', AddEvent_grow 40 grown = (Ok p, s') /\ length (_fdContexts s') = 80%nat /\
    CancelAll 100 s' = (Ok true, s') /\ scheduled s' = scheduled grown.
Proof.
  split; [by vm_compute|]. split; [by vm_compute|].
  apply (resize_drops_contexts 7 (move (fun _ => (None, None)) 100 (Some (0%nat, HFiber 1), None)) grown 40 100);
    [|lia|lia|change (length (_fdContexts grown)) with 200%nat; lia].
  apply (perform_add 7 (fun _ => (None, None)) _ 100 READ None 0 1); [exact new_manager_ok|split_and!; [done|done|by left|done]|by vm_compute].
Defined.
