(* ===== verification/FdManager.v ===== *)
(** fdmanager.cpp, and the calls of hook.cpp that keep its table: what the
    framework knows about every socket, and the socket calls that a program
    makes through the hooks (socket, accept, close, fcntl, ioctl, setsockopt).

    The kernel is a parameter, the class [Sys], with what the manual says about
    its calls as laws.  A hook looks its context up and uses it at once, so the
    vector holds the contexts themselves. *)
From stdpp Require Import gmap.
From S2P Require Import Prelude.

(** The [O_NONBLOCK] flag. *)
Definition O_NONBLOCK : Z := 2048.

Definition SOL_SOCKET : Z := 1.
Definition SO_RCVTIMEO : Z := 20.
Definition SO_SNDTIMEO : Z := 21.
Definition FIONBIO : Z := 21537.

(** The commands of fcntl: [F_int] and [F_ptr] take an [int] or a pointer,
    [F_none] takes nothing. *)
Inductive fcntl_cmd := F_SETFL (arg : Z) | F_GETFL | F_int (cmd arg : Z) | F_ptr (cmd : Z) (arg : nat) | F_none (cmd : Z).

(** The original calls, and fstat: [None] when it fails, else whether the
    descriptor is a socket.  [fcntl_f fd F_GETFL] does not change the kernel. *)
Class Sys (W : Type) := {
  fstat_sock : Z -> W -> option bool;
  getfl : Z -> W -> Z;
  fcntl_f : Z -> fcntl_cmd -> W -> Z * W;
  ioctl_f : Z -> Z -> option Z -> W -> Z * W;
  socket_f : Z -> Z -> Z -> W -> Z * W;
  accept_f : Z -> W -> Z * W;
  close_f : Z -> W -> Z * W;
  setsockopt_f : Z -> Z -> Z -> Z * Z -> W -> Z * W
}.

(** O_NONBLOCK of a descriptor. *)
Definition nonblocking `{Sys W} (fd : Z) (w : W) : bool := negb (Z.land (getfl fd w) O_NONBLOCK =? 0).

(** Everything the hooks look at, of every descriptor but [fd], is the same. *)
Definition same_but `{Sys W} (is_open : Z -> W -> bool) (fd : Z) (w w' : W) : Prop :=
  forall k, k <> fd -> is_open k w' = is_open k w /\ fstat_sock k w' = fstat_sock k w /\ getfl k w' = getfl k w.

Class SysLaws (W : Type) `{Sys W} := {
  is_open : Z -> W -> bool;
  fcntl_get : forall fd w, fcntl_f fd F_GETFL w = (getfl fd w, w);
  (* F_SETFL and FIONBIO concern one descriptor, and set its flag if it is open *)
  fcntl_set : forall fd a w r w', fcntl_f fd (F_SETFL a) w = (r, w') ->
    is_open fd w' = is_open fd w /\ fstat_sock fd w' = fstat_sock fd w /\ same_but is_open fd w w' /\
    (is_open fd w = true -> nonblocking fd w' = negb (Z.land a O_NONBLOCK =? 0));
  ioctl_nb : forall fd a w r w', ioctl_f fd FIONBIO (Some a) w = (r, w') ->
    is_open fd w' = is_open fd w /\ fstat_sock fd w' = fstat_sock fd w /\ same_but is_open fd w w' /\
    (is_open fd w = true -> nonblocking fd w' = negb (a =? 0));
  socket_ok : forall d t p w r w', socket_f d t p w = (r, w') ->
    if r <? 0 then w' = w else is_open r w = false /\ is_open r w' = true /\ fstat_sock r w' = Some true /\ same_but is_open r w w';
  accept_ok : forall fd w r w', accept_f fd w = (r, w') ->
    if r <? 0 then w' = w else is_open r w = false /\ is_open r w' = true /\ fstat_sock r w' = Some true /\ same_but is_open r w w';
  close_ok : forall fd w r w', close_f fd w = (r, w') -> is_open fd w' = false /\ same_but is_open fd w w';
  setsockopt_ok : forall fd l o v w r w', setsockopt_f fd l o v w = (r, w') ->
    is_open fd w' = is_open fd w /\ fstat_sock fd w' = fstat_sock fd w /\ getfl fd w' = getfl fd w /\ same_but is_open fd w w'
}.

Record FdCtx := mkFdCtx {
  _isInit : bool; _isSocket : bool; _isClose : bool; _isUserSetNoBlock : bool; _isSysSetNoBlock : bool;
  _fd : Z; _readTimeOut_ms : Z; _writeTimeOut_ms : Z
}.

#[export] Instance FdCtx_eq_dec : EqDecision FdCtx.
Proof. solve_decision. Defined.

(** (uint64_t)-1 *)
Definition no_timeout : Z := 2 ^ 64 - 1.

Definition IsSocket := _isSocket.
Definition IsInit := _isInit.
Definition IsClose := _isClose.
Definition GetUserNoBlock := _isUserSetNoBlock.
Definition SetUserNoBlock (v : bool) (c : FdCtx) : FdCtx :=
  mkFdCtx (_isInit c) (_isSocket c) (_isClose c) v (_isSysSetNoBlock c) (_fd c) (_readTimeOut_ms c) (_writeTimeOut_ms c).
Definition GetSysNoBlock := _isSysSetNoBlock.
Definition SetSysNoBlock (v : bool) (c : FdCtx) : FdCtx :=
  mkFdCtx (_isInit c) (_isSocket c) (_isClose c) (_isUserSetNoBlock c) v (_fd c) (_readTimeOut_ms c) (_writeTimeOut_ms c).

Definition SetTimeOut (type time_ms : Z) (c : FdCtx) : FdCtx :=
  if type =? SO_RCVTIMEO
  then mkFdCtx (_isInit c) (_isSocket c) (_isClose c) (_isUserSetNoBlock c) (_isSysSetNoBlock c) (_fd c) time_ms (_writeTimeOut_ms c)
  else mkFdCtx (_isInit c) (_isSocket c) (_isClose c) (_isUserSetNoBlock c) (_isSysSetNoBlock c) (_fd c) (_readTimeOut_ms c) time_ms.

Definition GetTimeOut (type : Z) (c : FdCtx) : Z := if type =? SO_RCVTIMEO then _readTimeOut_ms c else _writeTimeOut_ms c.

Section fdmanager.
Context {W : Type} {SY : Sys W}.

(** FdCtxMgr, between the kernel and the IO manager: [cancels] is what
    CancelAll was called for, in order. *)
Record FdCtxMgr := mkFdCtxMgr { sys : W; _fds : list (option FdCtx); cancels : list Z }.

Definition FdCtxMgr_new (w : W) : FdCtxMgr := mkFdCtxMgr w (replicate 64 None) [].

(** A call of the kernel. *)
Definition call {A} (f : W -> A * W) : M FdCtxMgr A :=
  m ← get; let '(a, w) := f (sys m) in put (mkFdCtxMgr w (_fds m) (cancels m));; mret a.

(** [FdCtx::init] *)
Definition init (c : FdCtx) : M FdCtxMgr (bool * FdCtx) :=
  if _isInit c then mret (true, c) else
  m ← get;
  let '(i, sock) := match fstat_sock (_fd c) (sys m) with None => (false, false) | Some b => (true, b) end in
  sysnb ← (if sock then
             flags ← call (fcntl_f (_fd c) F_GETFL);
             (if Z.land flags O_NONBLOCK =? 0
              then call (fcntl_f (_fd c) (F_SETFL (Z.lor flags O_NONBLOCK)));; mret tt else mret tt);;
             mret true
           else mret false);
  mret (i, mkFdCtx i sock false false sysnb (_fd c) no_timeout no_timeout).

Definition FdCtx_new (fd : Z) : M FdCtxMgr FdCtx :=
  r ← init (mkFdCtx false false true false false fd no_timeout no_timeout);
  mret (snd r).

(** [_fds[fd]] *)
Definition fds_at (fd : Z) : M FdCtxMgr (option FdCtx) :=
  m ← get; match (if fd <? 0 then None else _fds m !! Z.to_nat fd) with Some c => mret c | None => undef OutOfBounds end.

Definition set_fd (fd : Z) (c : option FdCtx) (m : FdCtxMgr) : FdCtxMgr := mkFdCtxMgr (sys m) (<[Z.to_nat fd := c]> (_fds m)) (cancels m).

(** [_fds.resize(fd * 1.5)]: the product is a double, cut to an integer. *)
Definition fds_resize (fd : Z) (m : FdCtxMgr) : FdCtxMgr := mkFdCtxMgr (sys m) (resize (Z.to_nat (fd * 3 / 2)) None (_fds m)) (cancels m).

Definition Get (fd : Z) (auto_create : bool) : M FdCtxMgr (option FdCtx) :=
  if fd =? -1 then mret None else
  m ← get;
  c ← (if zlen (_fds m) <=? fd then (if auto_create then mret None else mret (Some None))
       else c ← fds_at fd; mret (if bool_decide (c = None) && auto_create then None else Some c));
  match c with
  | Some c => mret c
  | None =>
    fdctx ← FdCtx_new fd;
    m ← get;
    (if zlen (_fds m) <=? fd then modify (fds_resize fd) else mret tt);;
    modify (set_fd fd (Some fdctx));;
    fds_at fd
  end.

Definition Del (fd : Z) : M FdCtxMgr unit :=
  m ← get;
  if (zlen (_fds m) <=? fd) || (fd <? 0) then mret tt else modify (set_fd fd None).

(** ** The hooks; [hook]: is_hook_enable() *)
Definition socket (hook : bool) (domain type protocol : Z) : M FdCtxMgr Z :=
  if negb hook then call (socket_f domain type protocol) else
  ret ← call (socket_f domain type protocol);
  (if 0 <=? ret then Get ret true;; mret tt else mret tt);;
  mret ret.

(** What accept does with the result of its transfer loop. *)
Definition accept_finish (ret : Z) : M FdCtxMgr Z :=
  (if 0 <=? ret then Get ret true;; mret tt else mret tt);;
  mret ret.

(** [iom]: the thread has an IO manager. *)
Definition close (hook iom : bool) (fd : Z) : M FdCtxMgr Z :=
  if negb hook then call (close_f fd) else
  fdctx ← Get fd false;
  (if bool_decide (fdctx = None) then mret tt else
     (if iom then modify (fun m => mkFdCtxMgr (sys m) (_fds m) (cancels m ++ [fd])) else mret tt);;
     Del fd);;
  call (close_f fd).

(** The context of an open socket that the framework manages. *)
Definition managed_ctx (c : option FdCtx) : option FdCtx :=
  match c with Some c => if IsClose c || negb (IsSocket c) then None else Some c | None => None end.

Definition fcntl (fd : Z) (cmd : fcntl_cmd) : M FdCtxMgr Z :=
  match cmd with
  | F_SETFL arg =>
    ctx ← Get fd false;
    match managed_ctx ctx with
    | None => call (fcntl_f fd (F_SETFL arg))
    | Some c =>
      let c := SetUserNoBlock (negb (Z.land arg O_NONBLOCK =? 0)) c in
      modify (set_fd fd (Some c));;
      let arg := if GetSysNoBlock c then Z.lor arg O_NONBLOCK else Z.land arg (Z.lnot O_NONBLOCK) in
      call (fcntl_f fd (F_SETFL arg))
    end
  | F_GETFL =>
    arg ← call (fcntl_f fd F_GETFL);
    ctx ← Get fd false;
    match managed_ctx ctx with
    | None => mret arg
    | Some c => mret (if GetUserNoBlock c then Z.lor arg O_NONBLOCK else Z.land arg (Z.lnot O_NONBLOCK))
    end
  | cmd => call (fcntl_f fd cmd)
  end.

(** [arg]: the integer that the argument points at. *)
Definition ioctl (d request : Z) (arg : option Z) : M FdCtxMgr Z :=
  (if FIONBIO =? request then
     match arg with
     | None => undef NullDeref
     | Some a =>
       ctx ← Get d false;
       match managed_ctx ctx with
       | None => mret tt
       | Some c => modify (set_fd d (Some (SetUserNoBlock (negb (a =? 0)) c)))
       end
     end
   else mret tt);;
  call (ioctl_f d request arg).

(** [optval]: the [timeval] for the two timeout options. *)
Definition setsockopt (hook : bool) (sockfd level optname : Z) (optval : Z * Z) : M FdCtxMgr Z :=
  if negb hook then call (setsockopt_f sockfd level optname optval) else
  fdctx ← (if (level =? SOL_SOCKET) && ((optname =? SO_SNDTIMEO) || (optname =? SO_RCVTIMEO)) then Get sockfd false else mret None);
  match fdctx with
  | Some c =>
    modify (set_fd sockfd (Some (SetTimeOut optname (u64 (fst optval * 1000 + snd optval ÷ 1000)) c)));;
    mret 0
  | None => call (setsockopt_f sockfd level optname optval)
  end.
End fdmanager.
Arguments FdCtxMgr W : clear implicits.

(** ** Contract *)
Section contract.
Context {W : Type} {SY : Sys W} {SL : SysLaws W}.

(** The context of a descriptor. *)
Definition fdctx_of (fd : Z) (m : FdCtxMgr W) : option FdCtx := if fd <? 0 then None else mjoin (_fds m !! Z.to_nat fd).

(** What a context says is true of its descriptor: it is open, and a socket is
    non-blocking in the kernel whatever the user asked for. *)
Record ctx_ok (fd : Z) (w : W) (c : FdCtx) : Prop := {
  co_fd : _fd c = fd;
  co_open : is_open fd w = true;
  co_close : _isClose c = false;
  co_sock : _isSocket c = bool_decide (fstat_sock fd w = Some true);
  co_sys : _isSysSetNoBlock c = _isSocket c;
  co_nb : _isSocket c = true -> nonblocking fd w = true
}.

Record mgr_ok (m : FdCtxMgr W) : Prop := {
  mo_ctx : forall fd c, fdctx_of fd m = Some c -> ctx_ok fd (sys m) c;
  mo_len : (64 <= length (_fds m))%nat
}.

Lemma ctx_ok_same k fd w w' c : ctx_ok k w c -> k <> fd -> same_but is_open fd w w' -> ctx_ok k w' c.
Proof.
  intros [H1 H2 H3 H4 H5 H6] Hn Hs. destruct (Hs k Hn) as (E1 & E2 & E3).
  split; rewrite ?E1, ?E2; try done. unfold nonblocking. by rewrite E3.
Qed.

Lemma call_run {A} (f : W -> A * W) a w (m : FdCtxMgr W) : f (sys m) = (a, w) -> call f m = (Ok a, mkFdCtxMgr w (_fds m) (cancels m)).
Proof. intros H. unfold call, mbind, M_bind, get. by rewrite H. Qed.

(** Looking a context up. *)
Lemma fds_at_run fd c (m : FdCtxMgr W) : _fds m !! Z.to_nat fd = Some c -> 0 <= fd -> fds_at fd m = (Ok c, m).
Proof. intros H Hf. unfold fds_at, mbind, M_bind, get. rewrite (proj2 (Z.ltb_ge _ _)) by lia. by rewrite H. Qed.

Lemma Get_lookup fd (m : FdCtxMgr W) : -1 <= fd -> Get fd false m = (Ok (fdctx_of fd m), m).
Proof.
  intros Hf. unfold Get, fdctx_of. destruct (Z.eqb_spec fd (-1)) as [->|Hn]; [done|].
  rewrite (proj2 (Z.ltb_ge _ _)) by lia. step (eq_refl : get m = (Ok m, m)).
  destruct (Z.leb_spec (zlen (_fds m)) fd) as [Hl|Hl].
  - rewrite (lookup_ge_None_2 (_fds m)) by lia. done.
  - destruct (lookup_lt_is_Some_2 (_fds m) (Z.to_nat fd)) as [c Hc]; [lia|].
    unfold mbind at 1, M_bind at 1. unfold mbind at 1, M_bind at 1.
    rewrite (fds_at_run fd c m Hc) by lia. rewrite andb_false_r, Hc. done.
Qed.

Lemma ctx_of_set fd k c (m : FdCtxMgr W) : 0 <= fd < zlen (_fds m) ->
  fdctx_of k (set_fd fd c m) = if decide (k = fd) then c else fdctx_of k m.
Proof.
  intros Hf. unfold fdctx_of, set_fd. cbn. case_decide as E.
  - subst. rewrite (proj2 (Z.ltb_ge _ _)) by lia. by rewrite list_lookup_insert_eq by lia.
  - destruct (Z.ltb_spec k 0); [done|]. by rewrite list_lookup_insert_ne by lia.
Qed.

Lemma ctx_of_range fd c (m : FdCtxMgr W) : fdctx_of fd m = Some c -> 0 <= fd < zlen (_fds m).
Proof.
  unfold fdctx_of. destruct (Z.ltb_spec fd 0); [done|]. intros E.
  destruct (_fds m !! Z.to_nat fd) eqn:E'; [|done]. apply lookup_lt_Some in E'. lia.
Qed.

(** ** A new context *)
Lemma nonblock_set a : (Z.land (Z.lor a O_NONBLOCK) O_NONBLOCK =? 0) = false.
Proof.
  apply Z.eqb_neq. intros H. apply (f_equal (fun z => Z.testbit z 11)) in H.
  rewrite Z.land_spec, Z.lor_spec in H. cbn in H. by rewrite orb_true_r in H.
Qed.

Lemma nonblock_cleared a : (Z.land (Z.land a (Z.lnot O_NONBLOCK)) O_NONBLOCK =? 0) = true.
Proof. rewrite <- Z.land_assoc. by rewrite Z.land_0_r. Qed.

Definition fresh_ctx (c : FdCtx) : Prop :=
  _isUserSetNoBlock c = false /\ _readTimeOut_ms c = no_timeout /\ _writeTimeOut_ms c = no_timeout.

Lemma same_but_refl fd (w : W) : same_but is_open fd w w.
Proof. done. Qed.

Lemma FdCtx_new_ok fd (m : FdCtxMgr W) : is_open fd (sys m) = true ->
  exists c w, FdCtx_new fd m = (Ok c, mkFdCtxMgr w (_fds m) (cancels m)) /\ ctx_ok fd w c /\ fresh_ctx c /\
    same_but is_open fd (sys m) w.
Proof.
  intros Ho. destruct m as [w l cs]. cbn in Ho. unfold FdCtx_new, init. cbn [_isInit _fd].
  assert (forall i sock sysnb w', is_open fd w' = true -> sysnb = sock -> sock = bool_decide (fstat_sock fd w' = Some true) ->
    (sock = true -> nonblocking fd w' = true) -> same_but is_open fd w w' ->
    let c := mkFdCtx i sock false false sysnb fd no_timeout no_timeout in
    ctx_ok fd w' c /\ fresh_ctx c /\ same_but is_open fd w w') as Hc.
  { intros. split_and!; [by split|done|done]. }
  set (m0 := mkFdCtxMgr w l cs). rewrite bind_assoc. step (eq_refl : get m0 = (Ok m0, m0)). cbn [m0 sys].
  destruct (fstat_sock fd w) as [[|]|] eqn:Hst.
  2,3: eexists _, w; (split; [done|]); apply Hc; by rewrite ?Hst.
  rewrite !bind_assoc. step (call_run (fcntl_f fd F_GETFL) (getfl fd w) w m0 (fcntl_get fd w)).
  destruct (Z.eqb_spec (Z.land (getfl fd w) O_NONBLOCK) 0) as [Hz|Hz].
  - destruct (fcntl_f fd (F_SETFL (Z.lor (getfl fd w) O_NONBLOCK)) w) as [r w'] eqn:Hset.
    destruct (fcntl_set _ _ _ _ _ Hset) as (Ho' & Hst' & Hsame & Hnb). rewrite Ho in Ho'. specialize (Hnb Ho).
    eexists _, w'. split; [rewrite !bind_assoc; by step (call_run _ _ _ m0 Hset)|].
    apply Hc; try done; [by rewrite Hst', Hst|]. intros _. by rewrite Hnb, nonblock_set.
  - eexists _, w. split; [done|].
    apply Hc; try done; [by rewrite Hst|]. intros _. unfold nonblocking. by rewrite (proj2 (Z.eqb_neq _ _) Hz).
Qed.

Lemma Get_create fd (m : FdCtxMgr W) :
  mgr_ok m -> 0 <= fd -> is_open fd (sys m) = true -> fdctx_of fd m = None ->
  exists c m', Get fd true m = (Ok (Some c), m') /\ mgr_ok m' /\ fresh_ctx c /\ cancels m' = cancels m /\
    same_but is_open fd (sys m) (sys m') /\ forall k, fdctx_of k m' = if decide (k = fd) then Some c else fdctx_of k m.
Proof.
  intros [Hc Hl] Hfd Ho Hn. destruct (FdCtx_new_ok fd m Ho) as (c & w & Hnew & Hcok & Hfr & Hs).
  set (m1 := mkFdCtxMgr w (_fds m) (cancels m)).
  set (m2 := if zlen (_fds m) <=? fd then fds_resize fd m1 else m1).
  assert (fd < zlen (_fds m2) /\ cancels m2 = cancels m /\ sys m2 = w /\ forall k, fdctx_of k m2 = fdctx_of k m) as (Hl2 & Hcs & Hw2 & Hctx).
  { unfold m2. destruct (Z.leb_spec (zlen (_fds m)) fd) as [Hle|Hlt]; [|split_and!; try done; lia].
    cbn. rewrite length_resize. assert (fd < fd * 3 / 2) as H32 by zlia. split_and!; [lia|done|done|]. intros k. unfold fdctx_of. cbn.
    destruct (Z.ltb_spec k 0); [done|]. destruct (decide (Z.to_nat k < Z.to_nat (fd * 3 / 2))%nat) as [Hk|Hk].
    - destruct (decide (Z.to_nat k < length (_fds m))%nat).
      + by rewrite lookup_resize by lia.
      + rewrite lookup_resize_new, (lookup_ge_None_2 (_fds m)) by lia. done.
    - rewrite (lookup_ge_None_2 (resize _ _ _)) by (rewrite length_resize; lia).
      rewrite (lookup_ge_None_2 (_fds m)) by lia. done. }
  exists c, (set_fd fd (Some c) m2).
  assert (forall k, fdctx_of k (set_fd fd (Some c) m2) = if decide (k = fd) then Some c else fdctx_of k m) as Hctx'.
  { intros k. rewrite ctx_of_set by lia. by rewrite Hctx. }
  split_and!; try done.
  - unfold Get. destruct (Z.eqb_spec fd (-1)); [lia|]. step (eq_refl : get m = (Ok m, m)).
    assert (forall (f : option (option FdCtx) -> M (FdCtxMgr W) (option FdCtx)),
      ((if zlen (_fds m) <=? fd then mret None else c0 ← fds_at fd; mret (if bool_decide (c0 = None) && true then None else Some c0)) ≫= f) m = f None m) as Hlook.
    { intros f. destruct (Z.leb_spec (zlen (_fds m)) fd); [done|]. unfold mbind at 1, M_bind at 1.
      destruct (lookup_lt_is_Some_2 (_fds m) (Z.to_nat fd)) as [c0 Hc0]; [lia|]. step (fds_at_run fd c0 m Hc0 ltac:(lia)).
      unfold fdctx_of in Hn. rewrite (proj2 (Z.ltb_ge _ _)), Hc0 in Hn by lia. cbn in Hn. by rewrite Hn. }
    cbn [andb]. rewrite Hlook. step Hnew. step (eq_refl : get m1 = (Ok m1, m1)).
    transitivity ((modify (set_fd fd (Some c));; fds_at fd) m2).
    { unfold m2. change (_fds m1) with (_fds m). by destruct (zlen (_fds m) <=? fd). }
    step (eq_refl : modify (set_fd fd (Some c)) m2 = (Ok tt, set_fd fd (Some c) m2)).
    apply fds_at_run; [|done]. cbn [_fds set_fd]. apply list_lookup_insert_eq. lia.
  - assert (length (_fds m2) >= 64)%nat.
    { unfold m2. destruct (Z.leb_spec (zlen (_fds m)) fd); [|done]. cbn. rewrite length_resize. zlia. }
    split; [|cbn [_fds set_fd]; rewrite length_insert; lia]. intros k c' Hk. rewrite Hctx' in Hk. cbn. rewrite Hw2.
    case_decide as Ek; [injection Hk as <-; by rewrite Ek|]. eapply ctx_ok_same; [by apply Hc|done|exact Hs].
  - cbn. by rewrite Hw2.
Qed.

(** ** Every hook keeps the contexts true *)

(** A change of one context, and then of the kernel at that descriptor. *)
Lemma mgr_ok_update fd c c' w (m : FdCtxMgr W) :
  mgr_ok m -> fdctx_of fd m = Some c -> ctx_ok fd w c' -> same_but is_open fd (sys m) w ->
  let m1 := set_fd fd (Some c') m in mgr_ok (mkFdCtxMgr w (_fds m1) (cancels m1)).
Proof.
  intros [Hc Hl] Hfd Hc' Hs. pose proof (ctx_of_range _ _ _ Hfd). split; [|cbn; by rewrite length_insert].
  intros k ck Hk. change (fdctx_of k (set_fd fd (Some c') m) = Some ck) in Hk. rewrite ctx_of_set in Hk by done. cbn.
  case_decide as Ek; [injection Hk as <-; by rewrite Ek|]. eapply ctx_ok_same; [by apply Hc|done|exact Hs].
Qed.

(** A change of the kernel only. *)
Lemma mgr_ok_sys fd w (m : FdCtxMgr W) :
  mgr_ok m -> (forall c, fdctx_of fd m = Some c -> ctx_ok fd w c) -> same_but is_open fd (sys m) w ->
  mgr_ok (mkFdCtxMgr w (_fds m) (cancels m)).
Proof.
  intros [Hc Hl] Hfd Hs. split; [|done]. intros k ck Hk. change (fdctx_of k m = Some ck) in Hk. cbn.
  destruct (decide (k = fd)) as [->|Ek]; [by apply Hfd|]. eapply ctx_ok_same; [by apply Hc|done|exact Hs].
Qed.

Lemma ctx_ok_flag fd (w : W) c v : ctx_ok fd w c -> ctx_ok fd w (SetUserNoBlock v c).
Proof. by intros []. Qed.

Lemma ctx_ok_sys fd (w w' : W) c : ctx_ok fd w c ->
  is_open fd w' = is_open fd w -> fstat_sock fd w' = fstat_sock fd w -> (_isSocket c = true -> nonblocking fd w' = true) ->
  ctx_ok fd w' c.
Proof. intros [H1 H2 H3 H4 H5 H6] E1 E2 E3. split; rewrite ?E1, ?E2; done. Qed.

Lemma managed_ctx_ok fd (m : FdCtxMgr W) c : mgr_ok m ->
  managed_ctx (fdctx_of fd m) = Some c -> fdctx_of fd m = Some c /\ _isSocket c = true.
Proof.
  intros Hm. unfold managed_ctx. destruct (fdctx_of fd m) as [c'|] eqn:E; [|done].
  unfold IsClose, IsSocket. destruct (_isClose c') eqn:E1, (_isSocket c') eqn:E2; try done. by intros [= <-].
Qed.

Lemma managed_ctx_none fd (m : FdCtxMgr W) c : mgr_ok m ->
  managed_ctx (fdctx_of fd m) = None -> fdctx_of fd m = Some c -> _isSocket c = false.
Proof.
  intros Hm H E. rewrite E in H. destruct (mo_ctx _ Hm fd c E). unfold managed_ctx, IsClose, IsSocket in H.
  rewrite co_close0 in H. by destruct (_isSocket c).
Qed.

Inductive sock_op :=
  | OSocket (domain type protocol : Z)
  | OAccept (sockfd : Z)
  | OClose (iom : bool) (fd : Z)
  | OSetfl (fd arg : Z)
  | OGetfl (fd : Z)
  | OIoctl (fd arg : Z)
  | OTimeout (sockfd optname : Z) (tv : Z * Z).

Definition sock_perform (op : sock_op) : M (FdCtxMgr W) Z :=
  match op with
  | OSocket d t p => socket true d t p
  | OAccept fd => ret ← call (accept_f fd); accept_finish ret
  | OClose iom fd => close true iom fd
  | OSetfl fd a => fcntl fd (F_SETFL a)
  | OGetfl fd => fcntl fd F_GETFL
  | OIoctl fd a => ioctl fd FIONBIO (Some a)
  | OTimeout fd o tv => setsockopt true fd SOL_SOCKET o tv
  end.

(** Descriptors are not below -1; ioctl does not clear FIONBIO of a socket. *)
Definition sock_admissible (op : sock_op) (m : FdCtxMgr W) : Prop :=
  match op with
  | OSocket _ _ _ | OAccept _ => True
  | OClose _ fd | OSetfl fd _ | OGetfl fd | OTimeout fd _ _ => -1 <= fd
  | OIoctl fd a => -1 <= fd /\ (a = 0 -> managed_ctx (fdctx_of fd m) = None)
  end.

(** A descriptor the kernel has just made gets a context. *)
Lemma created_ok (m : FdCtxMgr W) r w :
  mgr_ok m ->
  (if r <? 0 then w = sys m
   else is_open r (sys m) = false /\ is_open r w = true /\ fstat_sock r w = Some true /\ same_but is_open r (sys m) w) ->
  exists m', accept_finish r (mkFdCtxMgr w (_fds m) (cancels m)) = (Ok r, m') /\ mgr_ok m'.
Proof.
  intros Hm Hr. unfold accept_finish. destruct (Z.ltb_spec r 0) as [Hneg|Hpos].
  - subst w. rewrite (proj2 (Z.leb_gt _ _)) by lia. eexists. split; [done|]. by destruct m.
  - destruct Hr as (Hcl & Ho & Hst & Hs). rewrite (proj2 (Z.leb_le _ _)) by lia.
    assert (fdctx_of r m = None) as Hn.
    { destruct (fdctx_of r m) as [c|] eqn:E; [|done]. destruct (mo_ctx _ Hm r c E). congruence. }
    set (m1 := mkFdCtxMgr w (_fds m) (cancels m)).
    destruct (Get_create r m1) as (c & m' & E & Hm' & _); [|done|done|done|].
    { apply (mgr_ok_sys r); [done|intros c E; by rewrite E in Hn|done]. }
    exists m'. rewrite bind_assoc. step E. by split.
Qed.

Lemma same_but_sym fd (w w' : W) : same_but is_open fd w w' -> same_but is_open fd w' w.
Proof. intros H k Hk. by destruct (H k Hk) as (-> & -> & ->). Qed.

Lemma close_keeps iom fd m : mgr_ok m -> -1 <= fd -> exists r m', close true iom fd m = (Ok r, m') /\ mgr_ok m'.
Proof.
  intros Hm Hfd. unfold close. cbn [negb]. step (Get_lookup fd m Hfd).
  destruct (close_f fd (sys m)) as [r w] eqn:Hcl. destruct (close_ok _ _ _ _ Hcl) as [Hno Hs].
  destruct (fdctx_of fd m) as [c|] eqn:E.
  - rewrite bool_decide_false by done. pose proof (ctx_of_range _ _ _ E) as Hrng.
    set (m1 := if iom then mkFdCtxMgr (sys m) (_fds m) (cancels m ++ [fd]) else m).
    assert (_fds m1 = _fds m /\ sys m1 = sys m) as [Hf1 Hs1] by (unfold m1; by destruct iom).
    exists r, (mkFdCtxMgr w (_fds (set_fd fd None m1)) (cancels m1)). split.
    + rewrite bind_assoc. transitivity ((Del fd;; call (close_f fd)) m1); [unfold m1; by destruct iom|].
      unfold Del. rewrite bind_assoc. step (eq_refl : get m1 = (Ok m1, m1)). rewrite Hf1, (proj2 (Z.leb_gt _ _)), (proj2 (Z.ltb_ge _ _)) by lia.
      cbn [orb]. step (eq_refl : modify (set_fd fd None) m1 = (Ok tt, set_fd fd None m1)).
      apply (call_run (close_f fd) r w (set_fd fd None m1)). cbn. by rewrite Hs1.
    + split; [|cbn [_fds set_fd]; rewrite length_insert, Hf1; apply Hm].
      intros k ck Hk. change (fdctx_of k (set_fd fd None m1) = Some ck) in Hk. rewrite ctx_of_set in Hk by (by rewrite Hf1).
      case_decide; [done|]. eapply ctx_ok_same; [|done|exact Hs]. apply Hm. unfold fdctx_of in *. by rewrite <- Hf1.
  - rewrite bool_decide_true by done. exists r. eexists. split; [rewrite bind_ok with (a := tt) (s' := m) by done; by apply call_run|].
    apply (mgr_ok_sys fd); [done|intros c Ec; by rewrite Ec in E|done].
Qed.

(** fcntl keeps the contexts, stores the user's flag and leaves the socket
    non-blocking. *)
Lemma setfl_keeps fd a m : mgr_ok m -> -1 <= fd -> exists r m', fcntl fd (F_SETFL a) m = (Ok r, m') /\ mgr_ok m' /\
  forall c, managed_ctx (fdctx_of fd m) = Some c ->
    managed_ctx (fdctx_of fd m') = Some (SetUserNoBlock (negb (Z.land a O_NONBLOCK =? 0)) c) /\ nonblocking fd (sys m') = true.
Proof.
  intros Hm Hfd. unfold fcntl. step (Get_lookup fd m Hfd).
  destruct (managed_ctx (fdctx_of fd m)) as [c|] eqn:E.
  - destruct (managed_ctx_ok fd m c Hm E) as [Ec Hsk]. pose proof (mo_ctx _ Hm fd c Ec) as Hc.
    pose proof (ctx_of_range _ _ _ Ec) as Hrng. set (c' := SetUserNoBlock _ c).
    assert (ctx_ok fd (sys m) c') as Hc' by by apply ctx_ok_flag.
    step (eq_refl : modify (set_fd fd (Some c')) m = (Ok tt, set_fd fd (Some c') m)).
    assert (GetSysNoBlock c' = true) as Hsys by (unfold GetSysNoBlock; rewrite (co_sys _ _ _ Hc'); done).
    cbv zeta. rewrite Hsys. destruct (fcntl_f fd (F_SETFL (Z.lor a O_NONBLOCK)) (sys m)) as [r w] eqn:Hset.
    destruct (fcntl_set _ _ _ _ _ Hset) as (Ho & Hst & Hs & Hnb). rewrite nonblock_set in Hnb.
    specialize (Hnb (co_open _ _ _ Hc)).
    exists r. eexists. split; [by apply (call_run _ r w (set_fd fd (Some c') m))|]. split; [apply (mgr_ok_update fd c c'); try done; by apply (ctx_ok_sys fd (sys m))|].
    intros ? [= <-]. split; [|done]. change (managed_ctx (fdctx_of fd (set_fd fd (Some c') m)) = Some c').
    rewrite ctx_of_set, decide_True by done. unfold managed_ctx, IsClose, IsSocket. by rewrite (co_close _ _ _ Hc'), (Hsk : _isSocket c' = true).
  - destruct (fcntl_f fd (F_SETFL a) (sys m)) as [r w] eqn:Hset. destruct (fcntl_set _ _ _ _ _ Hset) as (Ho & Hst & Hs & Hnb).
    exists r. eexists. split; [by apply call_run|]. split; [|done]. apply (mgr_ok_sys fd); [done| |done].
    intros c Ec. pose proof (managed_ctx_none fd m c Hm E Ec) as Hsk. apply (ctx_ok_sys fd (sys m)); try done; [by apply Hm|]. by rewrite Hsk.
Qed.

Lemma getfl_keeps fd m : mgr_ok m -> -1 <= fd -> exists r, fcntl fd F_GETFL m = (Ok r, m) /\
  (forall c, managed_ctx (fdctx_of fd m) = Some c -> negb (Z.land r O_NONBLOCK =? 0) = GetUserNoBlock c) /\
  (managed_ctx (fdctx_of fd m) = None -> r = getfl fd (sys m)).
Proof.
  intros Hm Hfd. unfold fcntl. step (call_run _ _ _ m (fcntl_get fd (sys m))).
  assert (mkFdCtxMgr (sys m) (_fds m) (cancels m) = m) as -> by by destruct m. step (Get_lookup fd m Hfd).
  destruct (managed_ctx (fdctx_of fd m)) as [c|]; eexists; (split; [done|]); (split; [|done]); [|done].
  intros ? [= <-]. destruct (GetUserNoBlock c); [by rewrite nonblock_set|by rewrite nonblock_cleared].
Qed.

Lemma ioctl_keeps fd a m : mgr_ok m -> -1 <= fd -> (a = 0 -> managed_ctx (fdctx_of fd m) = None) ->
  exists r m', ioctl fd FIONBIO (Some a) m = (Ok r, m') /\ mgr_ok m'.
Proof.
  intros Hm Hfd Ha. unfold ioctl. rewrite Z.eqb_refl. rewrite bind_assoc. step (Get_lookup fd m Hfd).
  destruct (ioctl_f fd FIONBIO (Some a) (sys m)) as [r w] eqn:Hset. destruct (ioctl_nb _ _ _ _ _ Hset) as (Ho & Hst & Hs & Hnb).
  exists r. destruct (managed_ctx (fdctx_of fd m)) as [c|] eqn:E.
  - destruct (managed_ctx_ok fd m c Hm E) as [Ec Hsk]. pose proof (mo_ctx _ Hm fd c Ec) as Hc.
    set (c' := SetUserNoBlock _ c). assert (ctx_ok fd (sys m) c') as Hc' by by apply ctx_ok_flag.
    step (eq_refl : modify (set_fd fd (Some c')) m = (Ok tt, set_fd fd (Some c') m)).
    eexists. split; [by apply (call_run _ r w (set_fd fd (Some c') m))|]. apply (mgr_ok_update fd c c'); try done. apply (ctx_ok_sys fd (sys m)); try done.
    intros _. rewrite Hnb by apply Hc. destruct (Z.eqb_spec a 0) as [->|]; [by specialize (Ha eq_refl)|done].
  - step (eq_refl : (mret tt : M (FdCtxMgr W) unit) m = (Ok tt, m)). eexists. split; [by apply call_run|]. apply (mgr_ok_sys fd); [done| |done].
    intros c Ec. pose proof (managed_ctx_none fd m c Hm E Ec) as Hsk. apply (ctx_ok_sys fd (sys m)); try done; [by apply Hm|]. by rewrite Hsk.
Qed.

Lemma setsockopt_keeps fd o tv m : mgr_ok m -> -1 <= fd -> exists r m', setsockopt true fd SOL_SOCKET o tv m = (Ok r, m') /\ mgr_ok m'.
Proof.
  intros Hm Hfd. unfold setsockopt. cbn [negb]. set (b := _ && _).
  assert (forall (f : option FdCtx -> M (FdCtxMgr W) Z), ((if b then Get fd false else mret None) ≫= f) m = f (if b then fdctx_of fd m else None) m) as Hl.
  { intros f. destruct b; [by step (Get_lookup fd m Hfd)|done]. }
  rewrite Hl. clear Hl. destruct (if b then fdctx_of fd m else None) as [c|] eqn:E.
  - assert (fdctx_of fd m = Some c) as Ec by by destruct b. set (c' := SetTimeOut _ _ c).
    step (eq_refl : modify (set_fd fd (Some c')) m = (Ok tt, set_fd fd (Some c') m)). eexists 0, _. split; [done|].
    apply (mgr_ok_update fd c c'); try done. unfold c', SetTimeOut. destruct (mo_ctx _ Hm fd c Ec). by destruct (o =? SO_RCVTIMEO).
  - destruct (setsockopt_f fd SOL_SOCKET o tv (sys m)) as [r w] eqn:Hset. destruct (setsockopt_ok _ _ _ _ _ _ _ Hset) as (Ho & Hst & Hg & Hs).
    exists r. eexists. split; [by apply call_run|]. apply (mgr_ok_sys fd); [done| |done].
    intros c Ec. pose proof (mo_ctx _ Hm fd c Ec) as Hc. apply (ctx_ok_sys fd (sys m)); try done. unfold nonblocking. rewrite Hg. apply Hc.
Qed.

Lemma sock_perform_ok op m : mgr_ok m -> sock_admissible op m ->
  exists r m', sock_perform op m = (Ok r, m') /\ mgr_ok m'.
Proof.
  intros Hm Ha. destruct op as [d t p|fd|iom fd|fd a|fd|fd a|fd o tv]; cbn [sock_perform sock_admissible] in *.
  - unfold socket. cbn [negb]. destruct (socket_f d t p (sys m)) as [r w] eqn:E. step (call_run _ _ _ m E).
    destruct (created_ok m r w Hm) as (m' & E' & Hm'); [by apply (socket_ok d t p)|]. by exists r, m'.
  - destruct (accept_f fd (sys m)) as [r w] eqn:E. step (call_run _ _ _ m E).
    destruct (created_ok m r w Hm) as (m' & E' & Hm'); [by apply (accept_ok fd)|]. by exists r, m'.
  - by apply close_keeps.
  - destruct (setfl_keeps fd a m Hm Ha) as (r & m' & E & Hm' & _). by exists r, m'.
  - destruct (getfl_keeps fd m Hm Ha) as (r & E & _). by exists r, m.
  - destruct Ha. by apply ioctl_keeps.
  - by apply setsockopt_keeps.
Qed.

Fixpoint sock_run (ops : list sock_op) : M (FdCtxMgr W) unit :=
  match ops with [] => mret tt | op :: ops => sock_perform op;; sock_run ops end.

Fixpoint all_sock_admissible (ops : list sock_op) (m : FdCtxMgr W) : Prop :=
  match ops with [] => True | op :: ops => sock_admissible op m /\ all_sock_admissible ops (snd (sock_perform op m)) end.

Lemma sock_run_ok ops : forall m, mgr_ok m -> all_sock_admissible ops m -> exists m', sock_run ops m = (Ok tt, m') /\ mgr_ok m'.
Proof.
  induction ops as [|op ops IH]; intros m Hm Ha; [by exists m|]. destruct Ha as [Ha Hr].
  destruct (sock_perform_ok op m Hm Ha) as (r & m1 & E & Hm1). rewrite E in Hr. cbn [sock_run]. step E. by apply IH.
Qed.

Lemma mgr_new_ok (w : W) : mgr_ok (FdCtxMgr_new w).
Proof.
  split; [|cbn; lia]. intros fd c H. unfold fdctx_of in H. cbn [_fds FdCtxMgr_new] in H. destruct (fd <? 0); [done|].
  destruct (replicate 64 (None : option FdCtx) !! Z.to_nat fd) as [x|] eqn:E; [|done].
  by apply lookup_replicate in E as [-> _].
Qed.


(** Ioctl(FIONBIO, 0) on a managed socket goes to the kernel as it is:
    the socket becomes blocking although the framework still takes it for a
    non-blocking one, and the next transfer stops the thread instead of the
    fiber. *)
Theorem fionbio_blocks_socket fd (m : FdCtxMgr W) c :
  mgr_ok m -> managed_ctx (fdctx_of fd m) = Some c ->
  exists r m' c', ioctl fd FIONBIO (Some 0) m = (Ok r, m') /\
    managed_ctx (fdctx_of fd m') = Some c' /\ GetSysNoBlock c' = true /\ GetUserNoBlock c' = false /\ nonblocking fd (sys m') = false.
Proof.
  intros Hm Hc. destruct (managed_ctx_ok fd m c Hm Hc) as [Ec Hsk]. pose proof (mo_ctx _ Hm fd c Ec) as Hok.
  pose proof (ctx_of_range _ _ _ Ec) as Hrng. unfold ioctl. rewrite Z.eqb_refl, bind_assoc. step (Get_lookup fd m ltac:(lia)). rewrite Hc.
  cbn [Z.eqb negb]. set (c' := SetUserNoBlock false c). step (eq_refl : modify (set_fd fd (Some c')) m = (Ok tt, set_fd fd (Some c') m)).
  destruct (ioctl_f fd FIONBIO (Some 0) (sys m)) as [r w] eqn:Hset. destruct (ioctl_nb _ _ _ _ _ Hset) as (_ & _ & _ & Hnb).
  exists r. eexists. exists c'. split; [by apply (call_run _ r w (set_fd fd (Some c') m))|]. cbn [sys].
  split_and!; [|change (_isSysSetNoBlock c = true); by rewrite (co_sys _ _ _ Hok)|done|by apply Hnb, Hok].
  change (managed_ctx (fdctx_of fd (set_fd fd (Some c') m)) = Some c'). rewrite ctx_of_set, decide_True by done.
  unfold managed_ctx, IsClose, IsSocket. cbn. by rewrite (co_close _ _ _ Hok), Hsk.
Qed.
End contract.

(** ** A concrete kernel: the next descriptor and the open sockets, with their
    O_NONBLOCK *)
Definition kernel : Type := Z * gmap Z bool.

Definition new_socket (w : kernel) : Z * kernel :=
  match snd w !! fst w with
  | None => if 0 <=? fst w then (fst w, (fst w + 1, <[fst w := false]> (snd w))) else (-1, w)
  | Some _ => (-1, w)
  end.

Definition set_nb (fd : Z) (b : bool) (w : kernel) : Z * kernel :=
  match snd w !! fd with Some _ => (0, (fst w, <[fd := b]> (snd w))) | None => (-1, w) end.

Definition flags_of (o : option bool) : Z := match o with Some b => if b then 2 + O_NONBLOCK else 2 | None => -1 end.

#[export] Instance kernel_sys : Sys kernel := {
  fstat_sock (fd : Z) (w : kernel) := match snd w !! fd with Some _ => Some true | None => None end;
  getfl (fd : Z) (w : kernel) := flags_of (snd w !! fd);
  fcntl_f (fd : Z) (cmd : fcntl_cmd) (w : kernel) :=
    match cmd with
    | F_GETFL => (flags_of (snd w !! fd), w)
    | F_SETFL a => set_nb fd (negb (Z.land a O_NONBLOCK =? 0)) w
    | _ => (0, w)
    end;
  ioctl_f (fd req : Z) (arg : option Z) (w : kernel) := match arg with Some a => if req =? FIONBIO then set_nb fd (negb (a =? 0)) w else (0, w) | None => (-1, w) end;
  socket_f (_ _ _ : Z) (w : kernel) := new_socket w;
  accept_f (_ : Z) (w : kernel) := new_socket w;
  close_f (fd : Z) (w : kernel) := (0, (fst w, delete fd (snd w)));
  setsockopt_f (_ _ _ : Z) (_ : Z * Z) (w : kernel) := (0, w)
}.

Lemma same_but_snd fd (n n' : Z) (k k' : gmap Z bool) :
  (forall i, i <> fd -> k' !! i = k !! i) -> same_but (fun i w => bool_decide (is_Some (snd w !! i))) fd (n, k) (n', k').
Proof. intros H i Hi. cbn. by rewrite (H i Hi). Qed.

Lemma set_nb_ok fd b (w w' : kernel) r : set_nb fd b w = (r, w') ->
  bool_decide (is_Some (snd w' !! fd)) = bool_decide (is_Some (snd w !! fd)) /\ fstat_sock fd w' = fstat_sock fd w /\
  same_but (fun i w => bool_decide (is_Some (snd w !! i))) fd w w' /\
  (bool_decide (is_Some (snd w !! fd)) = true -> nonblocking fd w' = b).
Proof.
  destruct w as [n k]. unfold set_nb. cbn [fst snd]. destruct (k !! fd) eqn:E; intros [= <- <-]; cbn.
  - rewrite lookup_insert_eq. unfold nonblocking. cbn. rewrite lookup_insert_eq, E. split_and!; try done.
    + apply same_but_snd. intros i Hi. by rewrite lookup_insert_ne.
    + by destruct b.
  - rewrite E. by split_and!.
Qed.

Lemma new_socket_ok (w w' : kernel) r : new_socket w = (r, w') ->
  if r <? 0 then w' = w else
  bool_decide (is_Some (snd w !! r)) = false /\ bool_decide (is_Some (snd w' !! r)) = true /\ fstat_sock r w' = Some true /\
  same_but (fun i w => bool_decide (is_Some (snd w !! i))) r w w'.
Proof.
  destruct w as [n k]. unfold new_socket. cbn [fst snd]. destruct (k !! n) eqn:E; [by intros [= <- <-]|].
  destruct (Z.leb_spec 0 n); [|by intros [= <- <-]]. intros [= <- <-]. rewrite (proj2 (Z.ltb_ge _ _)) by lia. cbn.
  rewrite E, lookup_insert_eq. split_and!; try done. apply same_but_snd. intros i Hi. by rewrite lookup_insert_ne.
Qed.

#[export] Instance kernel_laws : SysLaws kernel.
Proof.
  refine {| is_open := fun fd (w : kernel) => bool_decide (is_Some (snd w !! fd)) |}.
  - done.
  - intros fd a w r w' H. by apply (set_nb_ok _ _ _ _ r).
  - intros fd a w r w' H. by apply (set_nb_ok _ _ _ _ r).
  - intros d t p w r w' H. by apply new_socket_ok.
  - intros fd w r w' H. by apply new_socket_ok.
  - intros fd [n k] r w' [= <- <-]. cbn. rewrite lookup_delete_eq. split; [done|].
    apply same_but_snd. intros i Hi. by rewrite lookup_delete_ne.
  - intros fd l o v w r w' [= <- <-]. done.
Defined.

(** A socket is made and the program asks for blocking calls with a timeout;
    another is accepted, closed and made again. *)
Definition demo_ops : list sock_op :=
  [OSocket 2 1 0; OSetfl 70 2; OTimeout 70 SO_RCVTIMEO (2, 500000); OAccept 70; OClose true 71; OSocket 2 1 0; OIoctl 72 1; OGetfl 70].

Lemma demo_admissible : all_sock_admissible demo_ops (FdCtxMgr_new (70, ∅)).
Proof. cbn [all_sock_admissible demo_ops sock_admissible]. split_and!; try done. Qed.


Lemma fionbio_blocks_socket_witness :
  exists r m' c', ioctl 70 FIONBIO (Some 0) (snd (sock_run demo_ops (FdCtxMgr_new (70, ∅)))) = (Ok r, m') /\
    managed_ctx (fdctx_of 70 m') = Some c' /\ GetSysNoBlock c' = true /\ GetUserNoBlock c' = false /\ nonblocking 70 (sys m') = false.
Proof.
  apply (fionbio_blocks_socket 70 _ (mkFdCtx true true false false true 70 2500 no_timeout)); [|by vm_compute].
  destruct (sock_run_ok demo_ops _ (mgr_new_ok (70, ∅)) demo_admissible) as (m & E & Hm). by rewrite E.
Defined.
