(* ===== verification/Hook.v ===== *)
(** hook.cpp: the transfer loop [do_io] behind read, recv, write, accept and
    the like, [connect_with_timeout], and the sleeping calls.

    One call of one fiber is a machine whose steps are the fiber's own (the
    system call, arming the timer, AddEvent, yielding, coming back) and those
    of other threads (the timer expires, its callback runs and cancels the
    event, any other operation on the IO manager), in any order.  The state
    contains the IO manager of IOManager.v itself. *)
From stdpp Require Import gmap.
From S2P Require Import Prelude FdManager IOManager.

Definition EINTR : Z := 4.
Definition EAGAIN : Z := 11.
Definition EINPROGRESS : Z := 115.
Definition ETIMEDOUT : Z := 110.

(** ** What do_io decides before its loop *)
Inductive entry := Direct | BadFd | Blocking (timeout : Z).

Definition do_io_entry (hook : bool) (fdctx : option FdCtx) (timeout_type : Z) : entry :=
  if negb hook then Direct else
  match fdctx with
  | None => Direct
  | Some c =>
    if IsClose c then BadFd
    else if negb (IsSocket c) || GetUserNoBlock c then Direct
    else Blocking (GetTimeOut timeout_type c)
  end.

(** connect: a missing context is an error. *)
Definition connect_entry (hook : bool) (fdctx : option FdCtx) (timeout : Z) : entry :=
  if negb hook then Direct else
  match fdctx with
  | None => BadFd
  | Some c => if IsClose c then BadFd else if negb (IsSocket c) || GetUserNoBlock c then Direct else Blocking timeout
  end.

(** The calls that go through do_io, with the event they wait for and the
    timeout that limits them. *)
Inductive transfer :=
  | T_accept | T_read | T_readv | T_recv | T_recvfrom | T_recvmsg | T_recvmmsg
  | T_write | T_writev | T_send | T_sendto | T_sendmsg.

Definition transfer_args (t : transfer) : Z * Z :=
  match t with
  | T_write | T_writev | T_send | T_sendto | T_sendmsg => (WRITE, SO_SNDTIMEO)
  | _ => (READ, SO_RCVTIMEO)
  end.

Definition transfer_entry (t : transfer) (hook : bool) (fdctx : option FdCtx) : entry :=
  do_io_entry hook fdctx (snd (transfer_args t)).

(** ** How long the sleeping calls sleep, in milliseconds *)
Definition sleep_ms (seconds : Z) : Z := u32 (seconds * 1000).
Definition usleep_ms (usec : Z) : Z := usec / 1000.
Definition nanosleep_ms (tv_sec tv_nsec : Z) : Z := u64 (s32 (tv_sec * 1000 + tv_nsec ÷ 1000 ÷ 1000)).

(** ** The loop *)
Inductive io_pc := Try | Arm | Add_event | Yield | Held | Woken | So_error | Ret (r errno : Z).

#[export] Instance io_pc_eq_dec : EqDecision io_pc.
Proof. solve_decision. Defined.

Section do_io.
Context {E : Type} {EP : Epoll E}.
(** The call: its descriptor, event, timeout, fiber and scheduler; the error
    that means to wait, and whether the call is made again afterwards (do_io:
    EAGAIN and yes, connect: EINPROGRESS and no). *)
Context (i : nat) (ev timeout : Z) (f sc : nat) (again : Z) (retry : bool).

(** [cancelled]: the timer condition, alive until the call returns; [armed]:
    its timer is in the timer set; [due]: callbacks that have expired and wait
    to run; [cancelling]: callbacks between setting the condition and
    CancelEvent; [resumes]: how often the fiber was taken from the queue. *)
Record io_call := mkCall {
  iom : IOManager E; pc : io_pc; cancelled : Z; armed : bool; due : nat; cancelling : nat; resumes : nat
}.

Definition set_pc p c : io_call := mkCall (iom c) p (cancelled c) (armed c) (due c) (cancelling c) (resumes c).
Definition set_armed a c : io_call := mkCall (iom c) (pc c) (cancelled c) a (due c) (cancelling c) (resumes c).

Definition on_iom {A} (m : M (IOManager E) A) : M io_call A := fun c =>
  let '(o, s) := m (iom c) in (o, mkCall s (pc c) (cancelled c) (armed c) (due c) (cancelling c) (resumes c)).

(** The system call answers. *)
Definition io_try (ret errno : Z) : M io_call unit :=
  if (ret =? -1) && (errno =? EINTR) then mret tt
  else if (ret =? -1) && (errno =? again) then modify (set_pc Arm)
  else modify (set_pc (Ret ret errno)).

Definition io_arm : M io_call unit :=
  (if negb (timeout =? no_timeout) then modify (set_armed true) else mret tt);; modify (set_pc Add_event).

(** [errno]: what a failing epoll_ctl leaves. *)
Definition io_add (errno : Z) : M io_call unit :=
  rt ← on_iom (AddEvent (Z.of_nat i) ev None (Some sc) f);
  if negb (rt =? 0) then modify (set_armed false);; modify (set_pc (Ret (-1) errno))
  else modify (set_pc Yield).

Definition io_yield : M io_call unit := modify (set_pc Held).

(** The scheduler takes the fiber from its queue. *)
Definition io_wake : M io_call unit :=
  modify (fun c => mkCall (iom c) Woken (cancelled c) (armed c) (due c) (cancelling c) (S (resumes c))).

Definition io_check : M io_call unit :=
  modify (set_armed false);;
  c ← get;
  if negb (cancelled c =? 0) then modify (set_pc (Ret (-1) (cancelled c)))
  else modify (set_pc (if retry then Try else So_error)).

(** connect asks for the outcome. *)
Definition io_so_error (ret2 error errno : Z) : M io_call unit :=
  if ret2 =? -1 then modify (set_pc (Ret (-1) errno))
  else if error =? 0 then modify (set_pc (Ret 0 0)) else modify (set_pc (Ret (-1) error)).

Definition io_expire : M io_call unit :=
  modify (fun c => mkCall (iom c) (pc c) (cancelled c) false (S (due c)) (cancelling c) (resumes c)).

Definition returned (c : io_call) : bool := match pc c with Ret _ _ => true | _ => false end.

(** The timer's callback: nothing if the condition is gone or set. *)
Definition io_callback : M io_call unit :=
  modify (fun c =>
    let n := pred (due c) in
    if returned c || negb (cancelled c =? 0) then mkCall (iom c) (pc c) (cancelled c) (armed c) n (cancelling c) (resumes c)
    else mkCall (iom c) (pc c) ETIMEDOUT (armed c) n (S (cancelling c)) (resumes c)).

Definition io_cancel : M io_call unit :=
  modify (fun c => mkCall (iom c) (pc c) (cancelled c) (armed c) (due c) (pred (cancelling c)) (resumes c));;
  on_iom (CancelEvent (Z.of_nat i) ev);; mret tt.

(** ** Runs *)
Inductive action :=
  | ACall (ret errno : Z) | AArm | AAdd (errno : Z) | AYield | AWake | ACheck | ASoError (ret2 error errno : Z)
  | AExpire | ACallback | ACancel | AEnv (op : io_op).

Definition io_step (a : action) : M io_call unit :=
  match a with
  | ACall ret errno => io_try ret errno
  | AArm => io_arm
  | AAdd errno => io_add errno
  | AYield => io_yield
  | AWake => io_wake
  | ACheck => io_check
  | ASoError ret2 error errno => io_so_error ret2 error errno
  | AExpire => io_expire
  | ACallback => io_callback
  | ACancel => io_cancel
  | AEnv op => on_iom (perform op);; mret tt
  end.

Fixpoint io_run (acts : list action) : M io_call unit :=
  match acts with [] => mret tt | a :: acts => io_step a;; io_run acts end.

(** How often the fiber stands in the scheduler's queue. *)
Definition is_me (x : nat * handler) : bool :=
  match x with (s, HFiber g) => Nat.eqb s sc && Nat.eqb g f | _ => false end.
Definition handed (c : io_call) : nat := length (List.filter is_me (scheduled (iom c))).
Definition in_queue (c : io_call) : nat := (handed c - resumes c)%nat.
End do_io.
Arguments io_call E : clear implicits.

(** The two loops: a transfer is tried again after EAGAIN; connect waits for
    writability once after EINPROGRESS, and asks for the outcome. *)
Definition do_io {E} `{Epoll E} (t : transfer) (fd : nat) (timeout : Z) (f sc : nat) : list action -> M (io_call E) unit :=
  io_run fd (fst (transfer_args t)) timeout f sc EAGAIN true.
Definition connect_with_timeout {E} `{Epoll E} (fd : nat) (timeout : Z) (f sc : nat) : list action -> M (io_call E) unit :=
  io_run fd WRITE timeout f sc EINPROGRESS false.

(** ** The table of waiting handlers, read off the state *)
Definition waiting_of (x : EventContext) : waiting :=
  match ev_scheduler x, ev_cb x, ev_fiber x with
  | Some s, Some g, _ => Some (s, HCb g)
  | Some s, None, Some g => Some (s, HFiber g)
  | _, _, _ => None
  end.

Definition table_of {E} (s : IOManager E) : table := fun k =>
  match _fdContexts s !! k with
  | Some p => match ctxs s !! p with Some c => (waiting_of (ev_read c), waiting_of (ev_write c)) | None => (None, None) end
  | None => (None, None)
  end.

Lemma waiting_of_ctx x : waiting_of (ctx_of x) = x.
Proof. by destruct x as [[s [g|g]]|]. Qed.

Section table.
Context {E : Type} {EP : Epoll E} {EL : EpollLaws E} (tick : nat).

Lemma table_of_ok T (s : IOManager E) k : implements tick T s -> table_of s k = T k.
Proof.
  intros Hs. unfold table_of. destruct (_fdContexts s !! k) as [p|] eqn:Hp.
  - destruct (im_ctx _ _ _ Hs k p Hp) as [-> _]. cbn. rewrite !waiting_of_ctx. by destruct (T k).
  - apply lookup_ge_None_1 in Hp. by destruct (im_out _ _ _ Hs k Hp) as [-> _].
Qed.

Lemma implements_ext T T' (s : IOManager E) : implements tick T s -> (forall k, T' k = T k) -> implements tick T' s.
Proof.
  intros [Hc Ho Hnd Hfr Hp Hsz Ht] He. split; try done.
  - intros k p Hk. unfold watched. rewrite He. by apply Hc.
  - intros k Hk. unfold watched. rewrite He. by apply Ho.
  - rewrite Hp. apply total_ext. intros k _. by rewrite He.
  - by rewrite He.
Qed.

Lemma implements_table_of T (s : IOManager E) : implements tick T s -> implements tick (table_of s) s.
Proof. intros Hs. apply (implements_ext T); [done|]. intros k. by apply table_of_ok. Qed.
End table.

(** ** One step of the table, seen from one event *)

(** Removing one event, or all of them. *)
Lemma without_one e x : is_event e -> without e x = set_waiter e None x /\ taken e x = those (waiter e x).
Proof. destruct x, 1 as [-> | ->]; cbn; unfold taken; cbn; by rewrite ?app_nil_r. Qed.

(** Every step does nothing, adds a handler, or removes handlers, which are
    scheduled unless the event is deleted. *)
Lemma table_step_shape F tick T op r T' l : table_step F T op r T' l -> admissible tick T op ->
  (T' = T /\ l = []) \/
  (exists k e func sc cur, op = Add k e func sc cur /\ l = [] /\
     T' = move T k (set_waiter e (Some (sc, handler_of func cur)) (T k))) \/
  (exists k evs, T' = move T k (without evs (T k)) /\
     (l = taken evs (T k) \/ l = [] /\ op = Del k evs)).
Proof.
  destruct 1 as [k e func sc cur|k e func sc cur H|k e H|k e H|k e w H|k e H|k|k b H|k H|k evs real|k evs H]; intros (_ & _ & Ha).
  all: try (left; done).
  - right. left. by exists k, e, func, sc, cur.
  - right. right. exists k, e. destruct (without_one e (T k) Ha) as [-> _]. split; [done|]. by right.
  - right. right. exists k, e. destruct (without_one e (T k) Ha) as [-> ->]. split; [done|]. left. by rewrite H.
  - right. right. by exists k, (Z.lor READ WRITE); auto.
  - right. right. exists k, real. by auto.
Qed.

#[export] Instance handler_eq_dec : EqDecision handler.
Proof. solve_decision. Defined.

#[export] Instance waiting_eq_dec : EqDecision waiting.
Proof. unfold waiting. solve_decision. Defined.

Section slot.
Context (i : nat) (ev : Z) (f sc : nat) (Hev : is_event ev).

(** The fiber waits for its own event only. *)
Definition only_here (T : table) : Prop :=
  forall k e s, is_event e -> waiter e (T k) = Some (s, HFiber f) -> k = i /\ e = ev.

(** What others may do: they neither add nor delete the fiber's event, and do
    not add the fiber elsewhere. *)
Definition leaves (op : io_op) : Prop :=
  match op with
  | Add k e func s g => ~ (k = i /\ e = ev) /\ handler_of func g <> HFiber f
  | Del k e => ~ (k = i /\ e = ev)
  | _ => True
  end.

Definition mine : nat * handler := (sc, HFiber f).
Definition handed_in (l : list (nat * handler)) : nat := length (List.filter (is_me f sc) l).

Lemma handed_in_app l1 l2 : handed_in (l1 ++ l2) = (handed_in l1 + handed_in l2)%nat.
Proof. unfold handed_in. by rewrite List.filter_app, length_app. Qed.

Lemma waiter_without evs e x : is_event e ->
  waiter e (without evs x) = if Z.land evs e =? 0 then waiter e x else None.
Proof. destruct x. by intros [-> | ->]. Qed.

Lemma waiter_set e e' v x : is_event e -> is_event e' -> waiter e (set_waiter e' v x) = if decide (e = e') then v else waiter e x.
Proof. destruct x. by intros [-> | ->] [-> | ->]. Qed.

Lemma is_me_true x : is_me f sc x = true -> x = mine.
Proof. destruct x as [s [g|g]]; cbn; [|done]. intros [->%Nat.eqb_eq ->%Nat.eqb_eq]%andb_true_iff. done. Qed.

Lemma handed_those w : handed_in (those w) = if decide (w = Some mine) then 1%nat else 0%nat.
Proof.
  destruct w as [x|]; [|done]. unfold handed_in, those. cbn [List.filter].
  destruct (is_me f sc x) eqn:E.
  - apply is_me_true in E as ->. by rewrite decide_True.
  - rewrite decide_False; [done|]. intros [= ->]. unfold mine, is_me in E. by rewrite !Nat.eqb_refl in E.
Qed.

(** The handlers removed from a descriptor contain the fiber iff its event was
    among them. *)
Lemma handed_taken T k evs : only_here T -> (waiter ev (T i) = None \/ waiter ev (T i) = Some mine) ->
  handed_in (taken evs (T k)) =
    if decide (k = i) then (if Z.land evs ev =? 0 then 0%nat else handed_in (those (waiter ev (T i)))) else 0%nat.
Proof.
  intros Ho Hw. unfold taken. rewrite handed_in_app.
  assert (forall e, is_event e -> ~ (k = i /\ e = ev) -> handed_in (if Z.land evs e =? 0 then [] else those (waiter e (T k))) = 0%nat) as Hother.
  { intros e He Hn. destruct (_ =? 0); [done|]. rewrite handed_those. case_decide as Hm; [|done].
    by apply (Ho k e sc) in Hm. }
  change (fst (T k)) with (waiter READ (T k)). change (snd (T k)) with (waiter WRITE (T k)).
  case_decide as Hk.
  - subst k. destruct Hev as [-> | ->].
    + rewrite (Hother WRITE) by (by right || intros [_ [=]]). by destruct (_ =? 0); rewrite ?Nat.add_0_r.
    + rewrite (Hother READ) by (by left || intros [_ [=]]). by destruct (_ =? 0); rewrite ?Nat.add_0_r.
  - rewrite (Hother READ), (Hother WRITE); [done|by right|by intros []|by left|by intros []].
Qed.

Lemma slot_step F tick T op r T' l :
  table_step F T op r T' l -> admissible tick T op -> leaves op -> only_here T ->
  (waiter ev (T i) = None \/ waiter ev (T i) = Some mine) ->
  only_here T' /\
  ((waiter ev (T' i) = waiter ev (T i) /\ handed_in l = 0%nat) \/
   (waiter ev (T i) = Some mine /\ waiter ev (T' i) = None /\ handed_in l = 1%nat)).
Proof.
  intros Hst Ha Hl Ho Hw. destruct (table_step_shape _ _ _ _ _ _ _ Hst Ha) as [[-> ->]|[(k & e & func & s & cur & -> & -> & ->)|(k & evs & -> & Hk)]].
  - split; [done|]. by left.
  - destruct Hl as [Hne Hnf], Ha as (_ & _ & He & _). split.
    + intros k' e' s' He' Hw'. unfold move in Hw'. case_decide as Ek; [|by apply (Ho k' e' s')]. subst k'.
      rewrite waiter_set in Hw' by done. case_decide; [by injection Hw' as _ Hx|by apply (Ho k e' s')].
    + left. split; [|done]. unfold move. case_decide as Ek; [|done]. subst k. rewrite waiter_set by done. rewrite decide_False; [done|].
      intros ->. by apply Hne.
  - split.
    + intros k' e' s' He' Hw'. unfold move in Hw'. case_decide as Ek; [|by apply (Ho k' e' s')]. subst k'.
      rewrite waiter_without in Hw' by done. destruct (_ =? 0); [by apply (Ho k e' s')|done].
    + assert (waiter ev (move T k (without evs (T k)) i) = if decide (k = i) then (if Z.land evs ev =? 0 then waiter ev (T i) else None) else waiter ev (T i)) as Hw'.
      { unfold move. destruct (decide (i = k)) as [->|]; [by rewrite decide_True, waiter_without by done|by rewrite decide_False by done]. }
      rewrite Hw'. destruct Hk as [-> |[-> ->]].
      * rewrite handed_taken by done. destruct (decide (k = i)); [|by left]. destruct (Z.land evs ev =? 0); [by left|].
        destruct Hw as [Hn|Hm]; rewrite ?Hn, ?Hm; [by left|]. right. rewrite handed_those, decide_True by done. done.
      * left. split; [|done]. case_decide as Ek; [|done]. subst k. destruct Ha as (_ & _ & He).
        destruct Hev as [Hv|Hv], He as [He|He]; rewrite He, ?Hv; try done; exfalso; apply Hl; by rewrite He, Hv.
Qed.
End slot.

(** ** Invariant of one call *)
Section call.
Context {E : Type} {EP : Epoll E} {EL : EpollLaws E} (tick : nat).
Context (i : nat) (ev timeout : Z) (f sc : nat) (again : Z) (retry : bool).
Context (Hev : is_event ev) (Hi : i <> tick) (Hbound : Z.of_nat i < 2 ^ 30).

Abbreviation istep := (io_step (E := E) i ev timeout f sc again retry).
Abbreviation slot s := (waiter ev (table_of s i)).
Abbreviation me := (mine f sc).

(** When a step can happen.  Others keep the promises of the IO manager and
    leave the fiber's event to the fiber, as long as the call lasts. *)
Definition enabled (a : action) (c : io_call E) : Prop :=
  match a with
  | ACall _ _ => pc c = Try
  | AArm => pc c = Arm
  | AAdd _ => pc c = Add_event
  | AYield => pc c = Yield
  | AWake => pc c = Held /\ (0 < in_queue f sc c)%nat
  | ACheck => pc c = Woken
  | ASoError _ _ _ => pc c = So_error
  | AExpire => armed c = true
  | ACallback => (0 < due c)%nat
  | ACancel => (0 < cancelling c)%nat
  | AEnv op => admissible tick (table_of (iom c)) op /\ (returned c = false -> leaves i ev f op)
  end.

Fixpoint all_enabled (acts : list action) (c : io_call E) : Prop :=
  match acts with [] => True | a :: acts => enabled a c /\ all_enabled acts (snd (istep a c)) end.

(** A call starts: the fiber runs, so it is not in the queue, and waits nowhere. *)
Definition call_start (s : IOManager E) : io_call E :=
  mkCall s Try 0 false 0 0 (handed_in f sc (scheduled s)).

(** What the call may return, given what has happened. *)
Definition may_return (hist : list action) (r errno : Z) : Prop :=
  (ACall r errno ∈ hist /\ ~ (r = -1 /\ (errno = EINTR \/ errno = again))) \/
  (r = -1 /\ errno = ETIMEDOUT /\ AExpire ∈ hist /\ timeout <> no_timeout) \/
  (r = -1 /\ AAdd errno ∈ hist) \/
  (retry = false /\ exists ret2 error err, ASoError ret2 error err ∈ hist /\
     (r, errno) = if ret2 =? -1 then (-1, err) else if error =? 0 then (0, 0) else (-1, error)).

Record inv (hist : list action) (c : io_call E) : Prop := {
  iv_im : implements tick (table_of (iom c)) (iom c);
  iv_here : returned c = false -> only_here i ev f (table_of (iom c));
  iv_slot : returned c = false -> exists q, handed f sc c = (resumes c + q)%nat /\
    match pc c with
    | Yield | Held => (slot (iom c) = Some me /\ q = 0%nat) \/ (slot (iom c) = None /\ q = 1%nat)
    | _ => slot (iom c) = None /\ q = 0%nat
    end;
  iv_cond : cancelled c = 0 \/ cancelled c = ETIMEDOUT /\ AExpire ∈ hist;
  iv_due : (0 < due c)%nat -> AExpire ∈ hist;
  iv_timed : armed c = true \/ AExpire ∈ hist -> timeout <> no_timeout;
  iv_ret : forall r errno, pc c = Ret r errno -> may_return hist r errno;
  iv_so : pc c = So_error -> retry = false;
  iv_timer : timeout <> no_timeout -> cancelled c = 0 ->
    (pc c = Add_event \/ (pc c = Yield \/ pc c = Held) /\ slot (iom c) = Some me) -> armed c = true \/ (0 < due c)%nat
}.

Lemma may_return_mono hist a r e : may_return hist r e -> may_return (hist ++ [a]) r e.
Proof.
  intros [[H1 H2]|[(H1 & H2 & H3 & H4)|[[H1 H2]|(H1 & x & y & z & H2 & H3)]]]; unfold may_return.
  - left. split; [|done]. rewrite elem_of_app. by left.
  - right. left. split_and!; try done. rewrite elem_of_app. by left.
  - right. right. left. split; [done|]. rewrite elem_of_app. by left.
  - right. right. right. split; [done|]. exists x, y, z. split; [|done]. rewrite elem_of_app. by left.
Qed.

Lemma inv_start s : implements tick (table_of s) s -> only_here i ev f (table_of s) -> slot s = None -> inv [] (call_start s).
Proof.
  intros H1 H2 H3. split; cbn; try done.
  - intros _. exists 0%nat. split; [unfold handed, handed_in; cbn; lia|done].
  - by left.
  - lia.
  - intros [|H]; [done|]. by apply elem_of_nil in H.
  - intros _ _ [|[[|] _]]; done.
Qed.

(** One operation on the IO manager. *)
Lemma op_ok op s : implements tick (table_of s) s -> admissible tick (table_of s) op ->
  exists r s' T' l, perform op s = (Ok r, s') /\ implements tick (table_of s') s' /\
    table_step (fails s) (table_of s) op r T' l /\ (forall k, table_of s' k = T' k) /\
    handed_in f sc (scheduled s') = (handed_in f sc (scheduled s) + handed_in f sc l)%nat.
Proof.
  intros Hs Ha. destruct (io_perform_ok tick _ s op Hs Ha) as (r & s' & T' & l & Hp & Ht & Him & Hsc).
  exists r, s', T', l. split_and!; [done|by eapply implements_table_of|done|intros k; by apply (table_of_ok tick)|].
  by rewrite Hsc, handed_in_app.
Qed.

(** An operation of somebody else, or the cancellation, while the call lasts. *)
Lemma others_ok op (c : io_call E) q :
  implements tick (table_of (iom c)) (iom c) -> only_here i ev f (table_of (iom c)) ->
  (slot (iom c) = None \/ slot (iom c) = Some me) -> handed f sc c = (resumes c + q)%nat ->
  admissible tick (table_of (iom c)) op -> leaves i ev f op ->
  exists r s', perform op (iom c) = (Ok r, s') /\ implements tick (table_of s') s' /\ only_here i ev f (table_of s') /\
    ((slot s' = slot (iom c) /\ handed_in f sc (scheduled s') = (resumes c + q)%nat) \/
     (slot (iom c) = Some me /\ slot s' = None /\ handed_in f sc (scheduled s') = (resumes c + S q)%nat)).
Proof.
  intros Hs Ho Hw Hq Ha Hl. destruct (op_ok op (iom c) Hs Ha) as (r & s' & T' & l & Hp & Hs' & Ht & HT & Hh).
  destruct (slot_step i ev f sc Hev _ _ _ _ _ _ _ Ht Ha Hl Ho Hw) as [Ho' Hc].
  exists r, s'. split_and!; [done|done| |].
  - intros k e s0 He Hk. rewrite HT in Hk. by apply (Ho' k e s0).
  - rewrite Hh. change (handed_in f sc (scheduled (iom c))) with (handed f sc c). rewrite Hq, HT.
    destruct Hc as [[-> ->]|(H1 & H2 & ->)]; [left; split; [done|lia]|right; split_and!; [done|done|lia]].
Qed.

Lemma inv_mono hist a c : a <> AExpire -> inv hist c -> inv (hist ++ [a]) c.
Proof.
  intros Ha [H1 H2 H3 H4 H5 H6 H7 H9 H8]. assert (AExpire ∈ hist ++ [a] <-> AExpire ∈ hist) as Hin.
  { rewrite elem_of_app, list_elem_of_singleton. split; [|by left]. intros [?|?]; [done|by subst]. }
  split; rewrite ?Hin; try done. intros r e Hr. by apply may_return_mono, H7.
Qed.

(** The fiber's own steps, without the IO manager: where it goes, and whether
    its timer stays armed. *)
Lemma inv_move hist c p (a : bool) :
  inv hist c -> returned c = false -> (a = true -> armed c = true \/ timeout <> no_timeout) ->
  match p with
  | Yield => False
  | Held => pc c = Yield /\ a = armed c
  | So_error => retry = false /\ pc c <> Yield /\ pc c <> Held
  | _ => pc c <> Yield /\ pc c <> Held
  end ->
  (p = Add_event -> timeout <> no_timeout -> cancelled c = 0 -> a = true \/ (0 < due c)%nat) ->
  (forall r e, p = Ret r e -> may_return hist r e) ->
  inv hist (set_pc p (set_armed a c)).
Proof.
  intros [H1 H2 H3 H4 H5 H6 H7 H9 H8] Hr Ha Hp Hadd Hret. specialize (H2 Hr). specialize (H3 Hr). split; cbn; try done.
  - intros Hp'. destruct H3 as (q & Hq & H3). exists q. split; [done|].
    destruct p; try done; destruct (pc c); try done; try (by destruct Hp as (? & ? & ?)); try (by destruct Hp); by unfold returned in Hr.
  - intros [->|He]; [|by apply H6; right]. destruct (Ha eq_refl); [by apply H6; left|done].
  - intros ->. by destruct Hp.
  - intros Ht Hc Hw. destruct Hw as [->|[Hw Hs]]; [by apply Hadd|].
    destruct p; try done; try (by destruct Hw). destruct Hp as [Hp ->]. apply H8; [done|done|]. right. split; [by left|done].
Qed.

(** The timer and its callback. *)
Lemma inv_cond hist c p cn a d k rs :
  inv hist c -> p = pc c -> rs = resumes c ->
  (cn = cancelled c \/ (cn = ETIMEDOUT /\ AExpire ∈ hist)) -> ((0 < d)%nat -> AExpire ∈ hist) -> (a = true -> armed c = true) ->
  (returned c = false -> cancelled c = 0 -> armed c = true \/ (0 < due c)%nat -> a = true \/ (0 < d)%nat \/ cn <> 0) ->
  inv hist (mkCall (iom c) p cn a d k rs).
Proof.
  intros [H1 H2 H3 H4 H5 H6 H7 H9 H8] -> -> Hcn Hd Ha Ht. split; cbn; try done.
  - destruct Hcn as [->|Hcn]; [done|by right].
  - intros [?|?]; apply H6; [left; by apply Ha|by right].
  - intros Hto Hz Hw. destruct Hcn as [->|[-> _]]; [|done].
    assert (returned c = false) as Hr.
    { unfold returned. by destruct Hw as [->|[[-> | ->] _]]. }
    destruct (Ht Hr Hz (H8 Hto Hz Hw)) as [|[|]]; [by left|by right|done].
Qed.

Lemma expire_ok hist c : inv hist c -> armed c = true -> exists c', istep AExpire c = (Ok tt, c') /\ inv (hist ++ [AExpire]) c'.
Proof.
  intros Hc Ha. eexists. split; [done|]. pose proof (iv_timed _ _ Hc (or_introl Ha)) as Hto.
  assert (AExpire ∈ hist ++ [AExpire]) as Hin by (rewrite elem_of_app; right; by apply list_elem_of_singleton).
  apply inv_cond; try done; [|by left|intros; right; left; lia].
  destruct Hc as [H1 H2 H3 H4 H5 H6 H7 H9 H8]. split; try done.
  - destruct H4 as [?|[? ?]]; [by left|by right].
  - intros r e Hr. by apply may_return_mono, H7.
Qed.

Lemma callback_ok hist c : inv hist c -> (0 < due c)%nat -> exists c', istep ACallback c = (Ok tt, c') /\ inv hist c'.
Proof.
  intros Hc Hd. pose proof (iv_due _ _ Hc Hd) as Hin. eexists. split; [done|].
  destruct (returned c) eqn:Hr; cbn [orb]; [|destruct (Z.eqb_spec (cancelled c) 0) as [Hz|Hz]; cbn [negb]];
    apply inv_cond; try done; try (by left); [by rewrite Hr|by right|by right; right].
Qed.

(** Operations on the IO manager while the call lasts, and after it. *)
Lemma inv_others hist (c : io_call E) op k r s' :
  inv hist c -> (returned c = false -> leaves i ev f op) -> admissible tick (table_of (iom c)) op ->
  perform op (iom c) = (Ok r, s') ->
  inv hist (mkCall s' (pc c) (cancelled c) (armed c) (due c) k (resumes c)).
Proof.
  intros [H1 H2 H3 H4 H5 H6 H7 H9 H8] Hl Ha Hp. destruct (returned c) eqn:Hr.
  - destruct (op_ok op (iom c) H1 Ha) as (r' & s1 & T' & l & Hp' & Hs' & _). rewrite Hp in Hp'. injection Hp' as <- <-.
    assert (forall s : IOManager E, returned (mkCall s (pc c) (cancelled c) (armed c) (due c) k (resumes c)) = true) as Hr' by done.
    split; cbn; try done; try (by rewrite Hr'). intros Ht Hz Hw. unfold returned in Hr. by destruct Hw as [Hw|[[Hw|Hw] _]]; rewrite Hw in Hr.
  - destruct (H3 eq_refl) as (q & Hq & Hpc). specialize (H2 eq_refl).
    assert (slot (iom c) = None \/ slot (iom c) = Some me) as Hslot.
    { destruct (pc c); try (left; by destruct Hpc); destruct Hpc as [[Hpc _]|[Hpc _]]; auto. }
    destruct (others_ok op c q H1 H2 Hslot Hq Ha (Hl eq_refl)) as (r' & s1 & Hp' & Hs' & Ho' & Hc). rewrite Hp in Hp'. injection Hp' as <- <-.
    split; cbn; try done.
    + intros _. destruct Hc as [[Hc1 Hc2]|(Hc1 & Hc2 & Hc3)]; [exists q; split; [done|]; by rewrite Hc1|]. exists (S q). split; [done|].
      rewrite Hc1 in Hpc. destruct (pc c); try (by destruct Hpc); destruct Hpc as [[_ ->]|[? _]]; try done; by right.
    + intros Ht Hz Hw. apply H8; [done|done|]. destruct Hw as [Hw|[Hw Hs]]; [by left|right]. split; [done|].
      destruct Hc as [[Hc1 _]|(_ & Hc2 & _)]; [by rewrite <- Hc1|by rewrite Hc2 in Hs].
Qed.

Lemma add_ok hist c errno : inv hist c -> pc c = Add_event -> AAdd errno ∈ hist ->
  exists c', istep (AAdd errno) c = (Ok tt, c') /\ inv hist c'.
Proof.
  intros Hc Hp Hin. assert (returned c = false) as Hr by (unfold returned; by rewrite Hp).
  destruct (iv_slot _ _ Hc Hr) as (q & Hq & Hpc). rewrite Hp in Hpc. destruct Hpc as [Hw ->].
  pose proof (iv_here _ _ Hc Hr) as Ho.
  destruct (op_ok (Add i ev None sc f) (iom c) (iv_im _ _ Hc)) as (r & s' & T' & l & Hpf & Hs' & Ht & HT & Hh); [done|].
  assert (on_iom (AddEvent (Z.of_nat i) ev None (Some sc) f) c = (Ok r, mkCall s' (pc c) (cancelled c) (armed c) (due c) (cancelling c) (resumes c))) as Hrun.
  { unfold on_iom. cbn [perform] in Hpf. by rewrite Hpf. }
  cbn [io_step]. unfold io_add. step Hrun. destruct Hc as [H1 H2 H3 H4 H5 H6 H7 H9 H8].
  inversion Ht; subst; cbn [Z.eqb negb].
  - eexists. split; [done|]. assert (slot s' = Some me) as Hslot.
    { rewrite HT. unfold move. rewrite decide_True by done. rewrite waiter_set, decide_True by done. done. }
    split; cbn; try done.
    + intros _ k e s0 He Hk. rewrite HT in Hk. unfold move in Hk. case_decide as Ek; [subst k|by apply (Ho k e s0)].
      rewrite waiter_set in Hk by done. case_decide; [done|by apply (Ho i e s0)].
    + intros _. exists 0%nat. split; [|by left]. unfold handed at 1. cbn. change (handed_in f sc (scheduled s') = (resumes c + 0)%nat).
      rewrite Hh. change (handed_in f sc (scheduled (iom c))) with (handed f sc c). rewrite Hq. cbn. lia.
    + intros Hto Hz _. apply H8; [done|done|by left].
  - eexists. split; [done|]. split; cbn; try done.
    + intros [?|?]; [done|by apply H6; right].
    + intros r e [= <- <-]. right. right. by left.
    + intros _ _ [?|[[?|?] _]]; done.
Qed.

Lemma in_hist (a : action) hist : a ∈ hist ++ [a].
Proof. rewrite elem_of_app. right. by apply list_elem_of_singleton. Qed.

Lemma try_ok hist c r e : inv hist c -> pc c = Try -> ACall r e ∈ hist -> exists c', istep (ACall r e) c = (Ok tt, c') /\ inv hist c'.
Proof.
  intros Hc Hp Hin. cbn [io_step]. unfold io_try.
  assert (forall p, match p with Arm | Ret _ _ => True | _ => False end -> (forall r e, p = Ret r e -> may_return hist r e) ->
    inv hist (set_pc p c)) as Hgo.
  { intros p Hps Hret. replace (set_pc p c) with (set_pc p (set_armed (armed c) c)) by by destruct c.
    apply inv_move; try done; [unfold returned; by rewrite Hp|by left|destruct p; try done; by rewrite Hp|by destruct p]. }
  destruct (Z.eqb_spec r (-1)) as [->|Hn]; cbn [andb].
  - destruct (Z.eqb_spec e EINTR) as [->|Hn1]; [by exists c|]. destruct (Z.eqb_spec e again) as [->|Hn2].
    + eexists. split; [done|]. by apply Hgo.
    + eexists. split; [done|]. apply Hgo; [done|]. intros ? ? [= <- <-]. left. split; [done|]. by intros [_ [?|?]].
  - eexists. split; [done|]. apply Hgo; [done|]. intros ? ? [= <- <-]. left. split; [done|]. by intros [? _].
Qed.

Lemma arm_ok hist c : inv hist c -> pc c = Arm -> exists c', istep AArm c = (Ok tt, c') /\ inv hist c'.
Proof.
  intros Hc Hp. assert (returned c = false) as Hr by (unfold returned; by rewrite Hp). cbn [io_step]. unfold io_arm.
  destruct (Z.eqb_spec timeout no_timeout) as [Ht|Ht]; cbn [negb].
  - exists (set_pc Add_event (set_armed (armed c) c)). split; [by destruct c|].
    apply inv_move; try done; [by left|by rewrite Hp].
  - eexists. split; [done|]. apply (inv_move hist c Add_event true); try done; [by right|by rewrite Hp|by left].
Qed.

Lemma check_ok hist c : inv hist c -> pc c = Woken -> exists c', istep ACheck c = (Ok tt, c') /\ inv hist c'.
Proof.
  intros Hc Hp. assert (returned c = false) as Hr by (unfold returned; by rewrite Hp). cbn [io_step]. unfold io_check.
  match goal with |- context [modify ?g] => step (eq_refl : modify g c = (Ok tt, g c)) end.
  match goal with |- context [(get ≫= _) ?s1] => step (eq_refl : get s1 = (Ok s1, s1)) end. cbn [cancelled set_armed].
  destruct (Z.eqb_spec (cancelled c) 0) as [Hz|Hz]; cbn [negb]; eexists; (split; [done|]).
  - apply inv_move; try done; [destruct retry eqn:Er; by rewrite Hp|by destruct retry|by destruct retry].
  - apply inv_move; try done; [by rewrite Hp|]. intros r e [= <- <-]. right. left.
    destruct (iv_cond _ _ Hc) as [?|[-> Hin]]; [done|]. split_and!; try done. apply (iv_timed _ _ Hc). by right.
Qed.

Lemma so_error_ok hist c ret2 error err : inv hist c -> pc c = So_error -> ASoError ret2 error err ∈ hist ->
  exists c', istep (ASoError ret2 error err) c = (Ok tt, c') /\ inv hist c'.
Proof.
  intros Hc Hp Hin. pose proof (iv_so _ _ Hc Hp) as Hre. assert (returned c = false) as Hr by (unfold returned; by rewrite Hp). cbn [io_step]. unfold io_so_error.
  assert (forall r e, (r, e) = (if ret2 =? -1 then (-1, err) else if error =? 0 then (0, 0) else (-1, error)) ->
    inv hist (set_pc (Ret r e) c)) as Hgo.
  { intros r e He. replace (set_pc (Ret r e) c) with (set_pc (Ret r e) (set_armed (armed c) c)) by by destruct c.
    apply inv_move; try done; [by left|by rewrite Hp|]. intros ? ? [= <- <-]. right. right. right. split; [done|].
    by exists ret2, error, err. }
  destruct (ret2 =? -1); [|destruct (error =? 0)]; (eexists; split; [done|]); by apply Hgo.
Qed.

Lemma hold_ok hist c : inv hist c -> pc c = Yield -> exists c', istep AYield c = (Ok tt, c') /\ inv hist c'.
Proof.
  intros Hc Hp. assert (returned c = false) as Hr by (unfold returned; by rewrite Hp).
  exists (set_pc Held (set_armed (armed c) c)). split; [by destruct c|]. apply inv_move; try done. by left.
Qed.

Lemma wake_ok hist c : inv hist c -> pc c = Held -> (0 < in_queue f sc c)%nat -> exists c', istep AWake c = (Ok tt, c') /\ inv hist c'.
Proof.
  intros [H1 H2 H3 H4 H5 H6 H7 H9 H8] Hp Hq. assert (returned c = false) as Hr by (unfold returned; by rewrite Hp).
  destruct (H3 Hr) as (q & Hh & Hs). rewrite Hp in Hs. unfold in_queue in Hq.
  destruct Hs as [[_ ->]|[Hs ->]]; [lia|]. eexists. split; [done|]. split; cbn; try done.
  - intros _. by apply H2.
  - intros _. exists 0%nat. split; [|done]. change (handed f sc c = (S (resumes c) + 0)%nat). lia.
  - intros _ _ [?|[[?|?] _]]; done.
Qed.

Lemma env_ok hist c op : inv hist c -> enabled (AEnv op) c -> exists c', istep (AEnv op) c = (Ok tt, c') /\ inv hist c'.
Proof.
  intros Hc [Ha Hl]. destruct (op_ok op (iom c) (iv_im _ _ Hc) Ha) as (r & s' & _ & _ & Hp & _).
  eexists. split; [cbn [io_step]; unfold on_iom, mbind, M_bind; by rewrite Hp|]. by eapply inv_others.
Qed.

Lemma cancel_ok hist c : inv hist c -> exists c', istep ACancel c = (Ok tt, c') /\ inv hist c'.
Proof.
  intros Hc. assert (admissible tick (table_of (iom c)) (Cancel i ev)) as Ha by done.
  destruct (op_ok _ (iom c) (iv_im _ _ Hc) Ha) as (r & s' & _ & _ & Hp & _).
  destruct (bind_inv _ _ _ _ _ Hp) as (b & s1 & Hb & [= <- ->]).
  eexists. split; [|exact (inv_others hist c (Cancel i ev) (pred (cancelling c)) _ s' Hc (fun _ => I) Ha Hp)].
  cbn [io_step]. unfold io_cancel.
  match goal with |- context [modify ?g] => step (eq_refl : modify g c = (Ok tt, g c)) end.
  unfold on_iom, mbind, M_bind. cbn [iom]. by rewrite Hb.
Qed.

Lemma io_step_ok hist c a : inv hist c -> enabled a c -> exists c', istep a c = (Ok tt, c') /\ inv (hist ++ [a]) c'.
Proof.
  intros Hc Ha. pose proof (in_hist a hist) as Hin.
  assert (a = AExpire \/ a <> AExpire) as [->|Hne] by (destruct a; (by left) || by right); [by apply expire_ok|]. apply (inv_mono _ a) in Hc; [|done].
  destruct a; cbn [enabled] in Ha; try done.
  - by apply try_ok.
  - by apply arm_ok.
  - by apply add_ok.
  - by apply hold_ok.
  - destruct Ha. by apply wake_ok.
  - by apply check_ok.
  - by apply so_error_ok.
  - by apply callback_ok.
  - by apply cancel_ok.
  - by apply env_ok.
Qed.

Lemma io_run_ok acts : forall hist c, inv hist c -> all_enabled acts c ->
  exists c', io_run i ev timeout f sc again retry acts c = (Ok tt, c') /\ inv (hist ++ acts) c'.
Proof.
  induction acts as [|a acts IH]; intros hist c Hc Hen; [exists c; by rewrite app_nil_r|]. destruct Hen as [Ha Hen].
  destruct (io_step_ok hist c a Hc Ha) as (c1 & E1 & Hc1). rewrite E1 in Hen. cbn [io_run]. step E1.
  destruct (IH (hist ++ [a]) c1 Hc1 Hen) as (c' & E2 & Hc'). exists c'. split; [done|]. by rewrite <- app_assoc in Hc'.
Qed.

End call.

(** ** Examples, with the epoll of IOManager.v: a read of fiber 3 on
    descriptor 5, which may take 100 ms *)
Abbreviation demo_run := (do_io (E := gmap Z (Z * nat)) T_read 5 100 3 0).
Abbreviation demo_enabled := (all_enabled 7 5 READ 100 3 0 EAGAIN true).
Abbreviation demo_start := (call_start 3 0 new_manager).

Lemma new_manager_empty : implements 7 (table_of new_manager) new_manager /\
  only_here 5 READ 3 (table_of new_manager) /\ waiter READ (table_of new_manager 5) = None.
Proof.
  pose proof new_manager_ok as H. split_and!; [by eapply implements_table_of| |].
  - intros k e s He. rewrite (table_of_ok 7 _ _ k H). unfold waiter. by destruct (e =? READ).
  - by rewrite (table_of_ok 7 _ _ 5 H).
Qed.

(** No data; the fiber waits; data arrive before the timer expires. *)
Definition demo_read : list action :=
  [ACall (-1) EAGAIN; AArm; AAdd 0; AYield; AEnv (Ready 5 EPOLLIN); AWake; AExpire; ACheck; ACall 10 0].

Lemma demo_read_enabled : demo_enabled demo_read demo_start.
Proof.
  unfold demo_read. cbn [all_enabled]. repeat split; try (vm_compute; reflexivity); try (vm_compute; lia); try (vm_compute; congruence).
Qed.


(** A timeout can be lost: when the timer expires between arming it and
    AddEvent, its callback finds no event to cancel.  The fiber is suspended all
    the same, its condition says that it has timed out, and neither a timer nor
    a callback nor the fiber itself can do anything: only an operation of
    somebody else can wake it. *)
Theorem timeout_lost : exists acts c,
  demo_enabled acts demo_start /\ demo_run acts demo_start = (Ok tt, c) /\
  pc c = Held /\ cancelled c = ETIMEDOUT /\ waiter READ (table_of (iom c) 5) = Some (mine 3 0) /\
  forall a, enabled 7 5 READ 3 0 a c -> exists op, a = AEnv op.
Proof.
  set (acts := [ACall (-1) EAGAIN; AArm; AExpire; ACallback; ACancel; AAdd 0; AYield]).
  set (c := snd (demo_run acts demo_start)). exists acts, c.
  assert (pc c = Held /\ cancelled c = ETIMEDOUT /\ armed c = false /\ due c = 0%nat /\ cancelling c = 0%nat /\ in_queue 3 0 c = 0%nat)
    as (Hp & Hc & Ha & Hd & Hk & Hq) by by vm_compute.
  split_and!; [| |exact Hp|exact Hc|by vm_compute|].
  - unfold acts. cbn [all_enabled]. repeat split; vm_compute; lia.
  - unfold c. rewrite (surjective_pairing (demo_run _ _)) at 1. f_equal; vm_compute; reflexivity.
  - clearbody c. intros a. destruct a; cbn [enabled]; rewrite ?Hp, ?Ha, ?Hd, ?Hk, ?Hq; try done; try lia. by eexists.
Qed.

(** A connection that is refused after it has been waited for. *)
Example connect_refused :
  pc (snd (connect_with_timeout 5 5000 3 0
    [ACall (-1) EINPROGRESS; AArm; AAdd 0; AYield; AEnv (Ready 5 (Z.lor EPOLLOUT EPOLLERR)); AWake; ACheck; ASoError 0 111 0]
    demo_start)) = Ret (-1) 111.
Proof. by vm_compute. Qed.
