(* ===== verification/AsyncStream.v ===== *)
(** streams/async_socket_stream.cpp and the asynchronous half of
    rock/rock_stream.cpp: requests that share one connection.

    A request is registered under its sequence number and queued for the writer
    fiber; the requesting fiber suspends itself and is scheduled again by
    [doRsp], which the reader fiber calls when the response arrives, the timer
    when the time is up, and [innerClose] when the connection is gone.  Every
    running piece of code is an agent, a stack of frames; a frame is the code up
    to the next point where other agents can interfere.  The tail of [doRsp]
    behind its compare-and-swap is one such piece.

    The fiber semaphore, mutex and condition are used through what their own
    files show of them. *)
From stdpp Require Import gmap.
From S2P Require Import Prelude.

(** AsyncSocketStream::ERROR, as the uint32_t that [result] is. *)
Definition OK : Z := 0.
Definition TIMEOUT : Z := 2 ^ 32 - 1.
Definition IO_ERROR : Z := 2 ^ 32 - 2.
Definition NOT_CONNECT : Z := 2 ^ 32 - 3.

(** A request's context; [rsp]: sequence number and result of its response. *)
Record Ctx := mkCtx {
  sn : Z; timed : bool; timeout : Z; fiber : nat; scheduler : option nat; result : Z; rsp : option (Z * Z)
}.

Definition set_timed b c : Ctx := mkCtx (sn c) b (timeout c) (fiber c) (scheduler c) (result c) (rsp c).
Definition set_scheduler o c : Ctx := mkCtx (sn c) (timed c) (timeout c) (fiber c) o (result c) (rsp c).
Definition set_result r c : Ctx := mkCtx (sn c) (timed c) (timeout c) (fiber c) (scheduler c) r (rsp c).
Definition set_rsp r c : Ctx := mkCtx (sn c) (timed c) (timeout c) (fiber c) (scheduler c) (result c) (Some r).

(** What is queued for the writer: a request or a message without an answer. *)
Inductive sendctx := SReq (c : nat) | SMsg (m : nat).

(** What doRecv gets from the decoder. *)
Inductive message := MRequest | MResponse (sn result : Z) | MNotify | MInvalid.

(** The code between two points of interference. *)
Inductive frame :=
  (* Request, sendMessage *)
  | FRequest (sn timeout : Z) (fiber sche : nat) | FAddCtx (c : nat) | FArm (c : nat) | FEnqueue (x : sendctx)
  | FHold (c : nat) | FBack (c : nat) | FSendMessage (m : nat)
  (* doRsp: the compare-and-swap, and the rest *)
  | FRsp (c : nat) | FFinish (c : nat)
  (* onTimer *)
  | FOnTimer (c : nat) | FTimed (c : nat)
  (* innerClose *)
  | FClose | FSwap | FClear | FEach (l : list nat)
  (* doRead *)
  | FRead | FRecv | FReadEnd
  (* doWrite *)
  | FWrite | FWait | FRegister | FSleep | FSend (l : list sendctx) | FWriteEnd
  (* Start *)
  | FStart | FStart1 | FStart2 | FConnectCb | FStartFail
  (* Close *)
  | FUserClose.

(** The connection; [restarts]: the armed reconnect timers. *)
Record link := mkLink {
  connected : bool; _autoConnect : bool; _tryConnectCount : Z; _waitFiberSem : Z; _timer : option nat;
  restarts : list (nat * Z); next_timer : nat
}.

(** The requests; [timers]: the armed request timers, by context; [scheduled]:
    the contexts whose fiber was scheduled. *)
Record requests := mkRequests {
  _sn : Z; _reqCtxs : gmap Z nat; ctxs : gmap nat Ctx; next_ctx : nat; timers : list nat; scheduled : list nat
}.

(** The writer's queue; [asleep]: the writer waits on the condition; [locked]:
    it holds the queue's mutex between looking at the queue and waiting;
    [sent]: what the decoder accepted. *)
Record outbox := mkOutbox { _sendCtxQue : list sendctx; asleep : bool; locked : bool; sent : list sendctx }.

Record AsyncSocketStream := mkStream { lk : link; rq : requests; ob : outbox }.

Definition on_link h s : AsyncSocketStream := mkStream (h (lk s)) (rq s) (ob s).
Definition on_requests h s : AsyncSocketStream := mkStream (lk s) (h (rq s)) (ob s).
Definition on_outbox h s : AsyncSocketStream := mkStream (lk s) (rq s) (h (ob s)).

Definition set_connected b l := mkLink b (_autoConnect l) (_tryConnectCount l) (_waitFiberSem l) (_timer l) (restarts l) (next_timer l).
Definition set_auto b l := mkLink (connected l) b (_tryConnectCount l) (_waitFiberSem l) (_timer l) (restarts l) (next_timer l).
Definition set_try n l := mkLink (connected l) (_autoConnect l) n (_waitFiberSem l) (_timer l) (restarts l) (next_timer l).
Definition post n l := mkLink (connected l) (_autoConnect l) (_tryConnectCount l) (_waitFiberSem l + n) (_timer l) (restarts l) (next_timer l).

(** [_ioWorker->addTimer(ms, Start)], and [_timer->cancel()] *)
Definition add_restart ms l := mkLink (connected l) (_autoConnect l) (_tryConnectCount l) (_waitFiberSem l)
  (Some (next_timer l)) (restarts l ++ [(next_timer l, ms)]) (S (next_timer l)).
Definition cancel_restart l := mkLink (connected l) (_autoConnect l) (_tryConnectCount l) (_waitFiberSem l) None
  (List.filter (fun t => negb (bool_decide (_timer l = Some (fst t)))) (restarts l)) (next_timer l).

Definition set_sn n r := mkRequests n (_reqCtxs r) (ctxs r) (next_ctx r) (timers r) (scheduled r).
Definition set_reqs m r := mkRequests (_sn r) m (ctxs r) (next_ctx r) (timers r) (scheduled r).
Definition add_ctx x r := mkRequests (_sn r) (_reqCtxs r) (<[next_ctx r := x]> (ctxs r)) (S (next_ctx r)) (timers r) (scheduled r).
Definition upd_ctx c (h : Ctx -> Ctx) r := mkRequests (_sn r) (_reqCtxs r) (alter h c (ctxs r)) (next_ctx r) (timers r) (scheduled r).
Definition set_timers l r := mkRequests (_sn r) (_reqCtxs r) (ctxs r) (next_ctx r) l (scheduled r).
Definition schedule c r := mkRequests (_sn r) (_reqCtxs r) (ctxs r) (next_ctx r) (timers r) (scheduled r ++ [c]).

Definition set_queue q o := mkOutbox q (asleep o) (locked o) (sent o).
Definition set_asleep b o := mkOutbox (_sendCtxQue o) b (locked o) (sent o).
Definition set_locked b o := mkOutbox (_sendCtxQue o) (asleep o) b (sent o).
Definition add_sent x o := mkOutbox (_sendCtxQue o) (asleep o) (locked o) (sent o ++ [x]).

(** The constructor. *)
Definition AsyncSocketStream_new (auto_connect : bool) : AsyncSocketStream :=
  mkStream (mkLink false auto_connect 0 2 None [] 0) (mkRequests 0 ∅ ∅ 0 [] []) (mkOutbox [] false false []).

Abbreviation MS := (M AsyncSocketStream).

Definition at_ctx (c : nat) : MS Ctx :=
  s ← get; match ctxs (rq s) !! c with Some x => mret x | None => undef NullDeref end.

(** ** The map of requests *)
Definition addCtx (c : nat) : MS bool :=
  x ← at_ctx c;
  modify (on_requests (fun r => set_reqs (match _reqCtxs r !! sn x with
    | Some _ => _reqCtxs r    (* insert keeps an entry that is there *)
    | None => <[sn x := c]> (_reqCtxs r) end) r));;
  mret true.

Definition getCtx (n : Z) : MS (option nat) := s ← get; mret (_reqCtxs (rq s) !! n).

Section erased.
(** getAndDelCtx reads through the iterator it has erased; [readable]: the node
    still holds the pointer. *)
Context (readable : bool).

Definition getAndDelCtx (n : Z) : MS (option nat) :=
  s ← get;
  match _reqCtxs (rq s) !! n with
  | Some c =>
    modify (on_requests (fun r => set_reqs (delete n (_reqCtxs r)) r));;
    if readable then mret (Some c) else undef UseAfterFree
  | None => mret None
  end.

(** ** The queue *)
Definition enqueue (x : sendctx) : MS bool :=
  modify (on_outbox (fun o : outbox => set_asleep false (set_queue (_sendCtxQue o ++ [x]) o)));;
  mret true.

Definition IsConnected : MS bool := s ← get; mret (connected (lk s)).

Definition innerClose : list frame := [FClose; FSwap].

(** What a frame leaves to be done: the frames its agent goes on with, and new
    agents. *)
Definition continue (l : list frame) : MS (list frame * list (list frame)) := mret (l, []).

(** *** Request and sendMessage *)
Definition Request (n timeout : Z) (fiber sche : nat) : MS (list frame * list (list frame)) :=
  b ← IsConnected;
  if negb b then continue [] (* NOT_CONNECT *) else
  (if n =? 0 then modify (on_requests (fun r => set_sn (u32 (_sn r + 1)) r)) else mret tt);;
  s ← get;
  modify (on_requests (add_ctx (mkCtx (if n =? 0 then _sn (rq s) else n) false (u32 timeout) fiber (Some sche) OK None)));;
  let c := next_ctx (rq s) in
  continue ([FAddCtx c] ++ (if 0 <? timeout then [FArm c] else []) ++ [FEnqueue (SReq c); FHold c]).

Definition arm_timer (c : nat) : MS (list frame * list (list frame)) :=
  modify (on_requests (fun r => set_timers (timers r ++ [c]) r));; continue [].

Definition sendMessage (m : nat) : MS (list frame * list (list frame)) :=
  b ← IsConnected; if negb b then continue [] else continue [FEnqueue (SMsg m)].

(** *** Ctx::doRsp *)
Definition doRsp (c : nat) : MS (list frame * list (list frame)) :=
  x ← at_ctx c;
  modify (on_requests (upd_ctx c (set_scheduler None)));;
  continue (match scheduler x with Some _ => [FFinish c] | None => [] end).

Definition doRsp_rest (c : nat) : MS (list frame * list (list frame)) :=
  x ← at_ctx c;
  modify (on_requests (fun r => set_timers (List.filter (fun t => negb (Nat.eqb t c)) (timers r)) r));;
  (if timed x then modify (on_requests (upd_ctx c (set_result TIMEOUT))) else mret tt);;
  modify (on_requests (schedule c));;
  continue [].

(** *** onTimer *)
Definition onTimer (c : nat) : MS (list frame * list (list frame)) :=
  x ← at_ctx c;
  modify (on_requests (fun r => set_reqs (delete (sn x) (_reqCtxs r)) r));;
  continue [FTimed c].

Definition onTimer_timed (c : nat) : MS (list frame * list (list frame)) :=
  modify (on_requests (upd_ctx c (set_timed true)));; continue [FRsp c].

(** *** innerClose *)
Definition innerClose_close : MS (list frame * list (list frame)) :=
  modify (on_link (set_connected false));;
  modify (on_outbox (set_asleep false));;
  continue [].

Definition innerClose_swap : MS (list frame * list (list frame)) :=
  s ← get;
  modify (on_requests (set_reqs ∅));;
  continue [FClear; FEach (snd <$> map_to_list (_reqCtxs (rq s)))].

Definition innerClose_each (l : list nat) : MS (list frame * list (list frame)) :=
  match l with
  | [] => continue []
  | c :: l => modify (on_requests (upd_ctx c (set_result IO_ERROR)));; continue [FRsp c; FEach l]
  end.

(** *** doRead, with RockStream::doRecv *)
Definition doRead : MS (list frame * list (list frame)) :=
  b ← IsConnected; if negb b then continue (innerClose ++ [FReadEnd]) else continue [FRecv].

Definition doRecv (msg : option message) : MS (list frame * list (list frame)) :=
  match msg with
  | None => continue (innerClose ++ [FRead])
  | Some (MResponse n r) =>
    o ← getAndDelCtx n;
    match o with
    | None => continue [FRead]
    | Some c =>
      modify (on_requests (upd_ctx c (fun x => set_rsp (n, r) (set_result r x))));;
      continue [FRsp c; FRead]
    end
  | Some _ => continue [FRead]
  end.

Definition doRead_end : MS (list frame * list (list frame)) :=
  modify (on_link (post 1));;
  s ← get;
  (if _autoConnect (lk s) then modify (on_link (add_restart 10)) else mret tt);;
  continue [].

(** *** doWrite *)
Definition doWrite : MS (list frame * list (list frame)) :=
  b ← IsConnected; if negb b then continue [FWriteEnd] else continue [FWait].

Definition doWrite_wait : MS (list frame * list (list frame)) :=
  s ← get;
  if bool_decide (_sendCtxQue (ob s) = []) && connected (lk s)
  then modify (on_outbox (set_locked true));; continue [FRegister]
  else modify (on_outbox (set_queue []));; continue [FSend (_sendCtxQue (ob s))].

Definition doWrite_register : MS (list frame * list (list frame)) :=
  modify (on_outbox (fun o => set_asleep true (set_locked false o)));; continue [FSleep].

(** [ok]: doSend. *)
Definition doWrite_send (l : list sendctx) (ok : bool) : MS (list frame * list (list frame)) :=
  match l with
  | [] => continue [FWrite]
  | x :: l =>
    if ok then modify (on_outbox (add_sent x));; continue [FSend l]
    else continue (innerClose ++ [FWrite])
  end.

Definition doWrite_end : MS (list frame * list (list frame)) :=
  modify (on_outbox (set_queue []));;
  modify (on_link (post 1));;
  continue [].

(** *** Start and Close *)
Definition waitFiber (next : frame) : MS (list frame * list (list frame)) :=
  modify (on_link (post (-1)));; continue [next].

(** [ok]: ReConnect. *)
Definition Start_connect (ok : bool) : MS (list frame * list (list frame)) :=
  b ← IsConnected;
  if b || ok then modify (on_link (set_connected true));; continue [FConnectCb]
  else continue (innerClose ++ [FStartFail]).

(** [ok]: the connect callback. *)
Definition Start_run (ok : bool) : MS (list frame * list (list frame)) :=
  if ok then modify (on_link (set_try 0));; mret ([], [[FRead]; [FWrite]])
  else continue (innerClose ++ [FStartFail]).

Definition Start_fail : MS (list frame * list (list frame)) :=
  modify (on_link (post 2));;
  modify (on_link (fun l => set_try (u32 (_tryConnectCount l + 1)) l));;
  s ← get;
  (if _autoConnect (lk s) then
     let tryTime := u32 (_tryConnectCount (lk s) * 2 * 50) in
     modify (on_link (fun l => add_restart (if 2000 <? tryTime then 2000 else tryTime) (cancel_restart l)))
   else mret tt);;
  continue [].

Definition Close : MS (list frame * list (list frame)) :=
  modify (on_link (set_auto false));;
  modify (on_link cancel_restart);;
  modify (on_link (set_connected false));;
  continue [].

(** [ok]: the answer of the network or of a callback, where the frame asks. *)
Definition exec (f : frame) (ok : bool) (msg : option message) : MS (list frame * list (list frame)) :=
  match f with
  | FRequest n timeout fiber sche => Request n timeout fiber sche
  | FAddCtx c => addCtx c;; continue []
  | FArm c => arm_timer c
  | FEnqueue x => enqueue x;; continue []
  | FHold c => continue [FBack c]
  | FBack c => continue []
  | FSendMessage m => sendMessage m
  | FRsp c => doRsp c
  | FFinish c => doRsp_rest c
  | FOnTimer c => onTimer c
  | FTimed c => onTimer_timed c
  | FClose => innerClose_close
  | FSwap => innerClose_swap
  | FClear => modify (on_outbox (set_queue []));; continue []
  | FEach l => innerClose_each l
  | FRead => doRead
  | FRecv => doRecv msg
  | FReadEnd => doRead_end
  | FWrite => doWrite
  | FWait => doWrite_wait
  | FRegister => doWrite_register
  | FSleep => continue [FWait]
  | FSend l => doWrite_send l ok
  | FWriteEnd => doWrite_end
  | FStart => waitFiber FStart1
  | FStart1 => waitFiber FStart2
  | FStart2 => Start_connect ok
  | FConnectCb => Start_run ok
  | FStartFail => Start_fail
  | FUserClose => Close
  end.
End erased.

(** ** The agents *)
Record system := mkSystem { st : AsyncSocketStream; agents : list (list frame) }.

(** [ASpawn]: the program calls Request, sendMessage, Start or Close. *)
Inductive action :=
  | AStep (k : nat) (ok : bool) (msg : option message)
  | AFire (c : nat) | ARestart (t : nat) | ASpawn (f : frame).

Definition spawn (l : list (list frame)) (y : system) : system := mkSystem (st y) (agents y ++ l).

Section system.
Context (readable : bool).

Definition perform (a : action) : M system unit :=
  match a with
  | AStep k ok msg => fun y =>
    match agents y !! k with
    | Some (f :: rest) =>
      match exec readable f ok msg (st y) with
      | (Ok (l, sp), s) => (Ok tt, mkSystem s (<[k := l ++ rest]> (agents y) ++ sp))
      | (Throw e, s) => (Throw e, mkSystem s (agents y))
      | (AssertFail, s) => (AssertFail, mkSystem s (agents y))
      | (Undef u, s) => (Undef u, mkSystem s (agents y))
      | (NoFuel, s) => (NoFuel, mkSystem s (agents y))
      end
    | _ => (Ok tt, y)
    end
  | AFire c => modify (fun y =>
      mkSystem (on_requests (fun r => set_timers (List.filter (fun t => negb (Nat.eqb t c)) (timers r)) r) (st y)) (agents y ++ [[FOnTimer c]]))
  | ARestart t => modify (fun y =>
      mkSystem (on_link (fun l => mkLink (connected l) (_autoConnect l) (_tryConnectCount l) (_waitFiberSem l) (_timer l)
                                   (List.filter (fun x => negb (Nat.eqb (fst x) t)) (restarts l)) (next_timer l)) (st y))
        (agents y ++ [[FStart]]))
  | ASpawn f => modify (spawn [[f]])
  end.

Fixpoint run (acts : list action) : M system unit :=
  match acts with [] => mret tt | a :: acts => perform a;; run acts end.

(** When a frame can go on: the mutex is free, the semaphore has a permit, the
    condition was signalled, the fiber was scheduled.  The connection has not
    yet counted through all sequence numbers, and requests come without one. *)
Definition ready (f : frame) (s : AsyncSocketStream) : Prop :=
  match f with
  | FBack c => c ∈ scheduled (rq s)
  | FSleep => asleep (ob s) = false /\ locked (ob s) = false
  | FStart | FStart1 => 0 < _waitFiberSem (lk s)
  | FEnqueue _ | FClear | FWriteEnd | FWait => locked (ob s) = false
  | FRequest n timeout _ _ => n = 0 /\ 0 <= timeout < 2 ^ 32 /\ _sn (rq s) < 2 ^ 32 - 1
  | _ => True
  end.

Definition by_program (f : frame) : Prop :=
  match f with FRequest _ _ _ _ | FSendMessage _ | FStart | FUserClose => True | _ => False end.

Definition enabled (a : action) (y : system) : Prop :=
  match a with
  | AStep k _ _ => match agents y !! k with Some (f :: _) => ready f (st y) | _ => False end
  | AFire c => c ∈ timers (rq (st y))
  | ARestart t => t ∈ fst <$> restarts (lk (st y))
  | ASpawn f => by_program f
  end.

#[export] Instance ready_dec f s : Decision (ready f s).
Proof. destruct f; cbn; apply _. Defined.

#[export] Instance enabled_dec a y : Decision (enabled a y).
Proof.
  destruct a as [k ok msg|c|t|f]; cbn; [|apply _..|destruct f; apply _].
  destruct (agents y !! k) as [[|f rest]|]; apply _.
Defined.

Fixpoint all_enabled (acts : list action) (y : system) : Prop :=
  match acts with [] => True | a :: acts => enabled a y /\ all_enabled acts (snd (perform a y)) end.

#[export] Instance all_enabled_dec acts : forall y, Decision (all_enabled acts y).
Proof. induction acts; intros y; cbn; apply _. Defined.
End system.

(** ** Invariant *)
Definition fin (c : nat) (f : frame) : Z := match f with FFinish c' => if Nat.eqb c' c then 1 else 0 | _ => 0 end.

(** The permits of [_waitFiberSem] that an agent holds. *)
Definition permits (f : frame) : Z :=
  match f with
  | FRead | FRecv | FReadEnd | FWrite | FWait | FRegister | FSleep | FSend _ | FWriteEnd | FStart1 => 1
  | FStart2 | FConnectCb | FStartFail => 2
  | _ => 0
  end.

(** The frame has the request in hand. *)
Definition carries (c : nat) (f : frame) : bool :=
  match f with
  | FAddCtx c' | FRsp c' | FOnTimer c' | FTimed c' => Nat.eqb c' c
  | FEach l => bool_decide (c ∈ l)
  | _ => false
  end.

(** The frame sees to the request's timeout. *)
Definition clocks (c : nat) (f : frame) : bool :=
  match f with FArm c' | FRsp c' | FOnTimer c' | FTimed c' => Nat.eqb c' c | _ => false end.

(** The frame ends the request. *)
Definition ends (c : nat) (f : frame) : bool := match f with FRsp c' | FFinish c' => Nat.eqb c' c | _ => false end.

Definition mentions (f : frame) : list nat :=
  match f with
  | FAddCtx c | FArm c | FEnqueue (SReq c) | FHold c | FBack c | FRsp c | FFinish c | FOnTimer c | FTimed c => [c]
  | FEach l => l
  | _ => []
  end.

Fixpoint tally (g : frame -> Z) (B : list frame) : Z := match B with [] => 0 | f :: B => g f + tally g B end.

(** Why a request may end, and how it has ended. *)
Definition reason (x : Ctx) : Prop := timed x = true \/ rsp x = Some (sn x, result x) \/ result x = IO_ERROR.
Definition answered (x : Ctx) : Prop := result x = TIMEOUT \/ rsp x = Some (sn x, result x) \/ result x = IO_ERROR.

Fixpoint times (c : nat) (l : list nat) : Z := match l with [] => 0 | d :: l => (if Nat.eqb d c then 1 else 0) + times c l end.

Definition open_flag (c : nat) (r : requests) : Z :=
  match ctxs r !! c with Some x => match scheduler x with Some _ => 1 | None => 0 end | None => 0 end.

Record inv (B : list frame) (s : AsyncSocketStream) : Prop := {
  i_alloc : forall c, is_Some (ctxs (rq s) !! c) <-> (c < next_ctx (rq s))%nat;
  i_map : forall n c, _reqCtxs (rq s) !! n = Some c -> exists x, ctxs (rq s) !! c = Some x /\ sn x = n;
  i_sn : 0 <= _sn (rq s) < 2 ^ 32;
  i_sn_ctx : forall c x, ctxs (rq s) !! c = Some x -> 1 <= sn x <= _sn (rq s);
  i_sn_inj : forall c x d y, ctxs (rq s) !! c = Some x -> ctxs (rq s) !! d = Some y -> sn x = sn y -> c = d;
  i_once : forall c, open_flag c (rq s) + tally (fin c) B + times c (scheduled (rq s)) = if decide (c < next_ctx (rq s))%nat then 1 else 0;
  i_frames : forall f c, f ∈ B -> c ∈ mentions f -> (c < next_ctx (rq s))%nat;
  i_timers : forall c, c ∈ timers (rq s) -> (c < next_ctx (rq s))%nat;
  i_reason : forall c x f, f ∈ B -> ends c f = true -> ctxs (rq s) !! c = Some x -> reason x;
  i_final : forall c x, c ∈ scheduled (rq s) -> ctxs (rq s) !! c = Some x -> answered x;
  i_src : forall c x, ctxs (rq s) !! c = Some x -> scheduler x <> None ->
    _reqCtxs (rq s) !! sn x = Some c \/ exists f, f ∈ B /\ carries c f = true;
  i_time : forall c x, ctxs (rq s) !! c = Some x -> scheduler x <> None -> 0 < timeout x ->
    c ∈ timers (rq s) \/ exists f, f ∈ B /\ clocks c f = true;
  i_sem : 0 <= _waitFiberSem (lk s) /\ _waitFiberSem (lk s) + tally permits B = 2
}.

Lemma tally_app g l1 l2 : tally g (l1 ++ l2) = tally g l1 + tally g l2.
Proof. induction l1 as [|f l1 IH]; cbn; [lia|]. rewrite IH. lia. Qed.

#[export] Instance tally_perm g : Proper (Permutation ==> eq) (tally g).
Proof. induction 1; cbn; lia. Qed.

Lemma tally_nonneg g l : (forall f, 0 <= g f) -> 0 <= tally g l.
Proof. intros Hg. induction l as [|f l IH]; cbn; [lia|]. specialize (Hg f). lia. Qed.

Lemma times_app c l1 l2 : times c (l1 ++ l2) = times c l1 + times c l2.
Proof. induction l1 as [|d l1 IH]; cbn; [lia|]. rewrite IH. lia. Qed.

Lemma times_nonneg c l : 0 <= times c l.
Proof. induction l as [|d l IH]; cbn; [lia|]. destruct (Nat.eqb d c); lia. Qed.

Lemma times_elem c l : c ∈ l <-> 0 < times c l.
Proof.
  induction l as [|d l IH]; [split; [by intros ?%elem_of_nil|cbn; lia]|]. rewrite elem_of_cons, IH. cbn [times].
  pose proof (times_nonneg c l). destruct (Nat.eqb_spec d c) as [->|Hn]; split; try lia.
Qed.

Lemma inv_perm B B' s : B ≡ₚ B' -> inv B s -> inv B' s.
Proof.
  intros HP [H1 H2 H3 H4 H5 H6 H7 H8 H9 H10 H11 H12 H13].
  split; try done.
  - intros c. rewrite <- HP. apply H6.
  - intros f c. rewrite <- HP. apply H7.
  - intros c x f. rewrite <- HP. apply H9.
  - intros c x Hc Hs. destruct (H11 c x Hc Hs) as [|(f & Hf & ?)]; [by left|right; exists f]. by rewrite <- HP.
  - intros c x Hc Hs Ht. destruct (H12 c x Hc Hs Ht) as [|(f & Hf & ?)]; [by left|right; exists f]. by rewrite <- HP.
  - by rewrite <- HP.
Qed.

(** [f] is replaced by [l], which does for the requests what [f] did. *)
Record succeeds (n : nat) (f : frame) (l : list frame) : Prop := {
  su_fin : forall c, tally (fin c) l = fin c f;
  su_carries : forall c, carries c f = true -> exists g, g ∈ l /\ carries c g = true;
  su_clocks : forall c, clocks c f = true -> exists g, g ∈ l /\ clocks c g = true;
  su_mentions : forall g c, g ∈ l -> c ∈ mentions g -> c ∈ mentions f \/ (c < n)%nat
}.

Lemma inv_pass f l F s s' :
  inv (f :: F) s -> rq s' = rq s -> succeeds (next_ctx (rq s)) f l ->
  (forall g c x, g ∈ l -> ends c g = true -> ctxs (rq s) !! c = Some x -> reason x) ->
  0 <= _waitFiberSem (lk s') -> _waitFiberSem (lk s') + tally permits l = _waitFiberSem (lk s) + permits f ->
  inv (l ++ F) s'.
Proof.
  intros [H1 H2 H3 H4 H5 H6 H7 H8 H9 H10 H11 H12 H13] Hr [S1 S2 S3 S5] S4 Hp0 Hp.
  split; rewrite ?Hr; try done.
  - intros c. rewrite tally_app, S1. apply H6.
  - intros g c [Hg|Hg]%elem_of_app Hc; [destruct (S5 g c Hg Hc); [by apply (H7 f c); [left|]|done]|by apply (H7 g c); [right|]].
  - intros c x g [Hg|Hg]%elem_of_app Hc; [by eapply S4|by apply (H9 c x g); [right|]].
  - intros c x Hc Hs. destruct (H11 c x Hc Hs) as [|(g & [->|Hg]%elem_of_cons & Hcar)]; [by left|right..].
    + destruct (S2 c Hcar) as (g' & Hg' & ?). exists g'. rewrite elem_of_app. by split; [left|].
    + exists g. rewrite elem_of_app. by split; [right|].
  - intros c x Hc Hs Ht. destruct (H12 c x Hc Hs Ht) as [|(g & [->|Hg]%elem_of_cons & Hcar)]; [by left|right..].
    + destruct (S3 c Hcar) as (g' & Hg' & ?). exists g'. rewrite elem_of_app. by split; [left|].
    + exists g. rewrite elem_of_app. by split; [right|].
  - destruct H13 as [_ H13]. cbn in H13. rewrite tally_app. split; [done|]. lia.
Qed.

(** A change of one context that keeps its identity. *)
Lemma inv_upd B s c h :
  inv B s ->
  (forall x, ctxs (rq s) !! c = Some x -> sn (h x) = sn x /\ timeout (h x) = timeout x /\ scheduler (h x) = scheduler x /\
     (reason x -> reason (h x)) /\ (answered x -> answered (h x))) ->
  inv B (on_requests (upd_ctx c h) s).
Proof.
  intros [H1 H2 H3 H4 H5 H6 H7 H8 H9 H10 H11 H12 H13] Hh.
  assert (forall d x, alter h c (ctxs (rq s)) !! d = Some x -> exists y, ctxs (rq s) !! d = Some y /\
    sn x = sn y /\ timeout x = timeout y /\ scheduler x = scheduler y /\ (reason y -> reason x) /\ (answered y -> answered x)) as Halt.
  { intros d x Hd. destruct (decide (d = c)) as [->|Hn].
    - rewrite lookup_alter_eq in Hd. destruct (ctxs (rq s) !! c) as [y|] eqn:E; [|done]. injection Hd as <-. exists y.
      by destruct (Hh y eq_refl) as (? & ? & ? & ? & ?).
    - rewrite lookup_alter_ne in Hd by done. by exists x. }
  split; cbn; try done.
  - intros d. destruct (decide (d = c)) as [->|Hn].
    + rewrite lookup_alter_eq. rewrite <- H1. by destruct (ctxs (rq s) !! c).
    + by rewrite lookup_alter_ne.
  - intros n d Hd. destruct (H2 n d Hd) as (y & Hy & Hsn). destruct (decide (d = c)) as [->|Hn].
    + exists (h y). rewrite lookup_alter_eq, Hy. split; [done|]. destruct (Hh y Hy) as [-> _]. done.
    + exists y. by rewrite lookup_alter_ne.
  - intros d x Hd. destruct (Halt d x Hd) as (y & Hy & -> & _). by eapply H4.
  - intros d x e z Hd He. destruct (Halt d x Hd) as (y & Hy & -> & _), (Halt e z He) as (y' & Hy' & -> & _). by eapply H5.
  - intros d. rewrite <- H6. do 2 f_equal. unfold open_flag. cbn. destruct (decide (d = c)) as [->|Hn].
    + rewrite lookup_alter_eq. destruct (ctxs (rq s) !! c) as [y|] eqn:E; [|done]. cbn. by destruct (Hh y eq_refl) as (_ & _ & -> & _).
    + by rewrite lookup_alter_ne.
  - intros d x f Hf He Hd. destruct (Halt d x Hd) as (y & Hy & _ & _ & _ & Hr & _). by eapply Hr, H9.
  - intros d x Hs Hd. destruct (Halt d x Hd) as (y & Hy & _ & _ & _ & _ & Hr). by eapply Hr, H10.
  - intros d x Hd Hs. destruct (Halt d x Hd) as (y & Hy & E1 & E2 & E3 & _). rewrite E3 in Hs. rewrite E1. by eapply H11.
  - intros d x Hd Hs Ht. destruct (Halt d x Hd) as (y & Hy & E1 & E2 & E3 & _). rewrite E3 in Hs. rewrite E2 in Ht. by eapply H12.
Qed.

(** Dropping, adding and exchanging frames. *)
Lemma inv_swap f l F s :
  inv (f :: F) s -> succeeds (next_ctx (rq s)) f l ->
  (forall g c x, g ∈ l -> ends c g = true -> ctxs (rq s) !! c = Some x -> reason x) ->
  tally permits l = permits f -> inv (l ++ F) s.
Proof. intros Hs Hsu He Hp. apply (inv_pass f l F s s Hs eq_refl Hsu He); [apply Hs|lia]. Qed.

(** A new request. *)
Lemma inv_request F s tm fib sche c x l :
  inv F s -> _sn (rq s) < 2 ^ 32 - 1 -> c = next_ctx (rq s) ->
  x = mkCtx (_sn (rq s) + 1) false tm fib (Some sche) OK None ->
  l = [FAddCtx c] ++ (if 0 <? tm then [FArm c] else []) ++ [FEnqueue (SReq c); FHold c] ->
  inv (l ++ F) (on_requests (fun r => add_ctx x (set_sn (_sn r + 1) r)) s).
Proof.
  intros [H1 H2 H3 H4 H5 H6 H7 H8 H9 H10 H11 H12 H13] Hsn Ec Ex Hl.
  assert (sn x = _sn (rq s) + 1 /\ is_Some (scheduler x) /\ tm = timeout x) as (Exs & Exo & Ext) by by subst x.
  assert (ctxs (rq s) !! c = None) as Hnone.
  { destruct (ctxs (rq s) !! c) as [y|] eqn:E; [|done]. assert (is_Some (ctxs (rq s) !! c)) as Hs by by rewrite E.
    apply H1 in Hs. lia. }
  assert (forall d y, <[c := x]> (ctxs (rq s)) !! d = Some y -> (d = c /\ y = x) \/ (d <> c /\ ctxs (rq s) !! d = Some y)) as Hins.
  { intros d y Hd. destruct (decide (d = c)) as [->|Hn]; [rewrite lookup_insert_eq in Hd; injection Hd as <-; by left|].
    rewrite lookup_insert_ne in Hd by done. by right. }
  assert (forall f, f ∈ l -> f = FAddCtx c \/ f = FArm c \/ f = FEnqueue (SReq c) \/ f = FHold c) as Hel.
  { intros f. rewrite Hl. destruct (0 <? tm); cbn; rewrite !elem_of_cons, elem_of_nil; naive_solver. }
  assert (tally permits l = 0 /\ (forall d, tally (fin d) l = 0) /\ FAddCtx c ∈ l /\ (0 < tm -> FArm c ∈ l)) as (Hpl & Hfl & Hadd & Harm).
  { rewrite Hl. destruct (Z.ltb_spec 0 tm); cbn; rewrite !elem_of_cons; split_and!; try done; try lia; by auto. }
  split; cbn; rewrite <- ?Ec; try done.
  - intros d. destruct (decide (d = c)) as [->|Hn].
    + rewrite lookup_insert_eq. split; [intros; lia|by eexists].
    + rewrite lookup_insert_ne by done. rewrite H1. lia.
  - intros n d Hd. destruct (H2 n d Hd) as (y & Hy & Hsy). exists y. rewrite lookup_insert_ne; [done|].
    intros <-. by rewrite Hnone in Hy.
  - lia.
  - intros d y Hd. apply Hins in Hd as [[-> ->]|[_ Hd]]; [lia|]. pose proof (H4 d y Hd). lia.
  - intros d y e z Hd He Hsn'. apply Hins in Hd as [[-> ->]|[_ Hd]], He as [[-> ->]|[_ He]]; [done| | |by eapply H5].
    + pose proof (H4 e z He) as Hz. lia.
    + pose proof (H4 d y Hd) as Hz. lia.
  - intros d. rewrite tally_app, Hfl. pose proof (H6 d) as Hd. unfold open_flag in *. cbn [on_requests rq ctxs add_ctx set_sn next_ctx scheduled _sn _reqCtxs] in *. rewrite <- Ec in *.
    destruct (decide (d = c)) as [->|Hn].
    + rewrite lookup_insert_eq. rewrite Hnone, decide_False in Hd by lia. rewrite decide_True by lia. destruct Exo as [? ->]. lia.
    + rewrite lookup_insert_ne by done. case_decide; case_decide; lia.
  - intros f d [Hf|Hf]%elem_of_app Hd; [|pose proof (H7 f d Hf Hd); lia].
    apply Hel in Hf as [-> |[-> |[-> | ->]]]; apply list_elem_of_singleton in Hd as ->; lia.
  - intros d Hd. pose proof (H8 d Hd). lia.
  - intros d y f [Hf|Hf]%elem_of_app Hend Hd; [by apply Hel in Hf as [-> |[-> |[-> | ->]]]|].
    apply Hins in Hd as [[-> ->]|[_ Hd]]; [|by eapply H9].
    assert (c ∈ mentions f) as Hm by (destruct f; try done; apply Nat.eqb_eq in Hend as ->; by apply list_elem_of_singleton).
    pose proof (H7 f c Hf Hm) as Hc. lia.
  - intros d y Hsd Hd. apply Hins in Hd as [[-> ->]|[_ Hd]]; [|by eapply H10].
    apply times_elem in Hsd. pose proof (H6 c) as Hc. unfold open_flag in Hc. rewrite Hnone, decide_False in Hc by lia.
    pose proof (tally_nonneg (fin c) F ltac:(intros []; cbn; try lia; destruct (Nat.eqb _ _); lia)). lia.
  - intros d y Hd Hso. apply Hins in Hd as [[-> ->]|[_ Hd]].
    + right. exists (FAddCtx c). split; [by apply elem_of_app; left|cbn; apply Nat.eqb_refl].
    + destruct (H11 d y Hd Hso) as [|(f & Hf & ?)]; [by left|right; exists f]. by rewrite elem_of_app; auto.
  - intros d y Hd Hso Ht. apply Hins in Hd as [[-> ->]|[_ Hd]].
    + right. exists (FArm c). split; [apply elem_of_app; left; apply Harm; lia|cbn; apply Nat.eqb_refl].
    + destruct (H12 d y Hd Hso Ht) as [|(f & Hf & ?)]; [by left|right; exists f]. by rewrite elem_of_app; auto.
  - rewrite tally_app, Hpl. destruct H13. split; [done|lia].
Qed.

(** Entries of the map may go when their request is in somebody's hands. *)
Lemma inv_reqs B s m :
  inv B s -> (forall n c, m !! n = Some c -> exists x, ctxs (rq s) !! c = Some x /\ sn x = n) ->
  (forall n c, _reqCtxs (rq s) !! n = Some c -> m !! n = Some c \/ exists f, f ∈ B /\ carries c f = true) ->
  inv B (on_requests (set_reqs m) s).
Proof.
  intros [H1 H2 H3 H4 H5 H6 H7 H8 H9 H10 H11 H12 H13] Hm Hd. split; cbn; try done.
  intros c x Hc Hs. destruct (H11 c x Hc Hs) as [Hn|]; [|by right]. by apply Hd.
Qed.

Lemma inv_del B s n : inv B s -> (forall c, _reqCtxs (rq s) !! n = Some c -> exists f, f ∈ B /\ carries c f = true) ->
  inv B (on_requests (fun r => set_reqs (delete n (_reqCtxs r)) r) s).
Proof.
  intros Hs Hc. apply (inv_reqs B s (delete n (_reqCtxs (rq s))) Hs).
  - intros k c Hk. apply lookup_delete_Some in Hk as [_ Hk]. by apply (i_map _ _ Hs).
  - intros k c Hk. destruct (decide (k = n)) as [->|Hn]; [right; by apply Hc|left; by rewrite lookup_delete_ne].
Qed.

(** A frame that held a request lets it go. *)
Lemma inv_drop f F s :
  inv (f :: F) s -> permits f = 0 -> (forall c, fin c f = 0) ->
  (forall c x, carries c f = true -> ctxs (rq s) !! c = Some x -> scheduler x <> None ->
     _reqCtxs (rq s) !! sn x = Some c \/ exists g, g ∈ F /\ carries c g = true) ->
  (forall c x, clocks c f = true -> ctxs (rq s) !! c = Some x -> scheduler x <> None -> 0 < timeout x ->
     c ∈ timers (rq s) \/ exists g, g ∈ F /\ clocks c g = true) ->
  inv F s.
Proof.
  intros [H1 H2 H3 H4 H5 H6 H7 H8 H9 H10 H11 H12 H13] Hp Hf Hc Ht. split; try done.
  - intros c. rewrite <- H6. cbn. rewrite Hf. lia.
  - intros g c Hg. apply H7. by right.
  - intros c x g Hg. apply H9. by right.
  - intros c x Hx Ho. destruct (H11 c x Hx Ho) as [|(g & [->|Hg]%elem_of_cons & Hcar)]; [by left|by apply (Hc c x)|right; by exists g].
  - intros c x Hx Ho Hto. destruct (H12 c x Hx Ho Hto) as [|(g & [->|Hg]%elem_of_cons & Hcar)]; [by left|by apply (Ht c x)|right; by exists g].
  - cbn in H13. rewrite Hp in H13. by rewrite Z.add_0_l in H13.
Qed.

Lemma inv_ctx B s f c : inv B s -> f ∈ B -> c ∈ mentions f -> exists x, ctxs (rq s) !! c = Some x.
Proof. intros Hs Hf Hc. apply (i_alloc _ _ Hs). by eapply i_frames. Qed.

Lemma found_ctx c x (s : AsyncSocketStream) : ctxs (rq s) !! c = Some x -> at_ctx c s = (Ok x, s).
Proof. intros H. unfold at_ctx, mbind, M_bind, get. by rewrite H. Qed.

Lemma inv_add c x F s : inv (FAddCtx c :: F) s -> ctxs (rq s) !! c = Some x ->
  inv F (on_requests (fun r => set_reqs (match _reqCtxs r !! sn x with Some _ => _reqCtxs r | None => <[sn x := c]> (_reqCtxs r) end) r) s).
Proof.
  intros Hs Hx. set (m := match _reqCtxs (rq s) !! sn x with Some _ => _reqCtxs (rq s) | None => <[sn x := c]> (_reqCtxs (rq s)) end).
  assert (m !! sn x = Some c /\ forall n d, _reqCtxs (rq s) !! n = Some d -> m !! n = Some d) as [Hm1 Hm2].
  { unfold m. destruct (_reqCtxs (rq s) !! sn x) as [d|] eqn:E.
    - destruct (i_map _ _ Hs _ _ E) as (y & Hy & Hsy). split; [|done]. rewrite E. f_equal. by apply (i_sn_inj _ _ Hs d y c x).
    - rewrite lookup_insert_eq. split; [done|]. intros n d Hd. rewrite lookup_insert_ne; [done|]. intros <-. by rewrite E in Hd. }
  apply (inv_drop (FAddCtx c)); [|done..|cbn|done].
  - apply (inv_reqs _ s m Hs); [|intros n d Hd; left; by apply Hm2].
    intros n d Hd. unfold m in Hd. destruct (_reqCtxs (rq s) !! sn x); [by apply (i_map _ _ Hs)|].
    destruct (decide (n = sn x)) as [->|Hn]; [rewrite lookup_insert_eq in Hd; injection Hd as <-; by exists x|].
    rewrite lookup_insert_ne in Hd by done. by apply (i_map _ _ Hs).
  - intros d y ->%Nat.eqb_eq Hy _. left. rewrite Hx in Hy. injection Hy as <-. exact Hm1.
Qed.

Lemma inv_arm c F s : inv (FArm c :: F) s -> inv F (on_requests (fun r => set_timers (timers r ++ [c]) r) s).
Proof.
  intros Hs. apply (inv_drop (FArm c)); [|done..|cbn].
  - pose proof (i_frames _ _ Hs (FArm c) c) as Hc. destruct Hs as [H1 H2 H3 H4 H5 H6 H7 H8 H9 H10 H11 H12 H13]. split; cbn; try done.
    + intros d [Hd| ->%list_elem_of_singleton]%elem_of_app; [by apply H8|]. apply Hc; by left.
    + intros d x Hd Ho Ht. destruct (H12 d x Hd Ho Ht) as [?|?]; [left; apply elem_of_app; by left|by right].
  - intros d y ->%Nat.eqb_eq _ _ _. left. apply elem_of_app. right. by left.
Qed.

Lemma fin_nonneg c B : 0 <= tally (fin c) B.
Proof. apply tally_nonneg. intros []; cbn; try lia. destruct (Nat.eqb _ _); lia. Qed.

Lemma fin_in c B : FFinish c ∈ B -> 1 <= tally (fin c) B.
Proof.
  induction B as [|f B IH]; [by intros ?%elem_of_nil|]. intros [<-|H]%elem_of_cons; cbn.
  - rewrite Nat.eqb_refl. pose proof (fin_nonneg c B). lia.
  - specialize (IH H). pose proof (fin_nonneg c [f]). cbn in *. lia.
Qed.

Lemma fin_other c d : c <> d -> fin d (FFinish c) = 0.
Proof. intros H. cbn. by rewrite (proj2 (Nat.eqb_neq c d)). Qed.

(** The compare-and-swap: the first to come goes on. *)
Lemma inv_rsp c x F s : inv (FRsp c :: F) s -> ctxs (rq s) !! c = Some x ->
  inv ((match scheduler x with Some _ => [FFinish c] | None => [] end) ++ F) (on_requests (upd_ctx c (set_scheduler None)) s).
Proof.
  intros Hs Hx. pose proof (i_reason _ _ Hs c x (FRsp c) ltac:(by left) (Nat.eqb_refl c) Hx) as Hre.
  destruct Hs as [H1 H2 H3 H4 H5 H6 H7 H8 H9 H10 H11 H12 H13].
  set (l := match scheduler x with Some _ => _ | None => _ end).
  assert (forall f, f ∈ l -> f = FFinish c) as Hl by (unfold l; intros f; destruct (scheduler x); [by intros ?%list_elem_of_singleton|by intros ?%elem_of_nil]).
  assert (forall d y, alter (set_scheduler None) c (ctxs (rq s)) !! d = Some y ->
    (d = c /\ y = set_scheduler None x) \/ (d <> c /\ ctxs (rq s) !! d = Some y)) as Halt.
  { intros d y Hd. destruct (decide (d = c)) as [->|Hn]; [rewrite lookup_alter_eq, Hx in Hd; injection Hd as <-; by left|].
    rewrite lookup_alter_ne in Hd by done. by right. }
  assert (forall d y, alter (set_scheduler None) c (ctxs (rq s)) !! d = Some y -> exists z, ctxs (rq s) !! d = Some z /\ sn y = sn z) as Hsn.
  { intros d y [[-> ->]|[_ Hd]]%Halt; [by exists x|by exists y]. }
  split; cbn; try done.
  - intros d. rewrite <- H1. destruct (decide (d = c)) as [->|Hn]; [by rewrite lookup_alter_eq, Hx|by rewrite lookup_alter_ne].
  - intros n d Hd. destruct (H2 n d Hd) as (y & Hy & Hyn). destruct (decide (d = c)) as [->|Hn].
    + exists (set_scheduler None y). by rewrite lookup_alter_eq, Hy.
    + exists y. by rewrite lookup_alter_ne.
  - intros d y (z & Hz & ->)%Hsn. by eapply H4.
  - intros d y e w (z & Hz & ->)%Hsn (z' & Hz' & ->)%Hsn. by eapply H5.
  - intros d. rewrite <- H6, tally_app. unfold open_flag. cbn. destruct (decide (d = c)) as [->|Hn].
    + rewrite lookup_alter_eq, Hx. cbn. unfold l. destruct (scheduler x); cbn; rewrite ?Nat.eqb_refl; lia.
    + rewrite lookup_alter_ne by done. unfold l. destruct (scheduler x); cbn [tally]; rewrite ?fin_other by done; lia.
  - intros f d [->%Hl|Hf]%elem_of_app Hd; [apply (H7 (FRsp c) d); [by left|done]|apply (H7 f d); [by right|done]].
  - intros d y f [->%Hl|Hf]%elem_of_app He Hd.
    + apply Nat.eqb_eq in He as <-. apply Halt in Hd as [[_ ->]|[? _]]; [|done]. exact Hre.
    + apply Halt in Hd as [[-> ->]|[_ Hd]]; [exact Hre|]. apply (H9 d y f); [by right|done|done].
  - intros d y Hsd [[-> ->]|[_ Hd]]%Halt; [by apply (H10 c x)|by apply (H10 d y)].
  - intros d y [[-> ->]|[Hn Hd]]%Halt Ho; [done|]. destruct (H11 d y Hd Ho) as [|(f & [->|Hf]%elem_of_cons & Hc)]; [by left|by apply Nat.eqb_eq in Hc as ->|].
    right. exists f. rewrite elem_of_app. by split; [right|].
  - intros d y [[-> ->]|[Hn Hd]]%Halt Ho Ht; [done|]. destruct (H12 d y Hd Ho Ht) as [|(f & [->|Hf]%elem_of_cons & Hc)]; [by left|by apply Nat.eqb_eq in Hc as ->|].
    right. exists f. rewrite elem_of_app. by split; [right|].
  - rewrite tally_app. cbn in H13. destruct H13. split; [done|]. unfold l. destruct (scheduler x); cbn; lia.
Qed.

(** The tail of doRsp. *)
Lemma inv_finish c x F s : inv (FFinish c :: F) s -> ctxs (rq s) !! c = Some x ->
  inv F (on_requests (schedule c) (on_requests (upd_ctx c (fun x => if timed x then set_result TIMEOUT x else x))
    (on_requests (fun r => set_timers (List.filter (fun t => negb (Nat.eqb t c)) (timers r)) r) s))).
Proof.
  intros Hs Hx. pose proof (i_reason _ _ Hs c x (FFinish c) ltac:(by left) (Nat.eqb_refl c) Hx) as Hre.
  assert (scheduler x = None) as Hnone.
  { pose proof (i_once _ _ Hs c) as H. unfold open_flag in H. rewrite Hx in H. destruct (scheduler x); [|done].
    cbn [tally fin] in H. rewrite Nat.eqb_refl in H. pose proof (fin_nonneg c F). pose proof (times_nonneg c (scheduled (rq s))). case_decide; lia. }
  set (h := fun x : Ctx => if timed x then set_result TIMEOUT x else x).
  assert (inv (FFinish c :: F) (on_requests (upd_ctx c h) s)) as Hs1.
  { apply inv_upd; [done|]. intros y Hy. rewrite Hx in Hy. injection Hy as <-. unfold h.
    destruct (timed x) eqn:E; [|done]. split_and!; try done; [intros _; by left|intros _; by left]. }
  assert (answered (h x)) as Hans.
  { unfold h, answered. destruct (timed x) eqn:E; [by left|]. destruct Hre as [Ht|[Hr|Hr]]; [by rewrite Ht in E|by right; left|by right; right]. }
  assert (ctxs (rq (on_requests (upd_ctx c h) s)) !! c = Some (h x)) as Hx1 by (cbn; by rewrite lookup_alter_eq, Hx).
  assert (scheduler (h x) = None) as Hnone1 by (unfold h; by destruct (timed x)).
  set (s1 := on_requests (upd_ctx c h) s) in *.
  change (inv F (mkStream (lk s1) (mkRequests (_sn (rq s1)) (_reqCtxs (rq s1)) (ctxs (rq s1)) (next_ctx (rq s1))
    (List.filter (fun t => negb (Nat.eqb t c)) (timers (rq s1))) (scheduled (rq s1) ++ [c])) (ob s1))).
  clearbody s1. clear Hs Hx Hre Hnone s. destruct Hs1 as [H1 H2 H3 H4 H5 H6 H7 H8 H9 H10 H11 H12 H13]. split; cbn; try done.
  - intros d. rewrite <- H6, times_app. unfold open_flag. cbn. destruct (Nat.eqb c d); lia.
  - intros f d Hf. apply H7. by right.
  - intros d [Hd _]%list_elem_of_In%List.filter_In. apply H8. by apply list_elem_of_In.
  - intros d y f Hf. apply H9. by right.
  - intros d y [Hd| ->%list_elem_of_singleton]%elem_of_app Hy; [by apply (H10 d y)|]. rewrite Hx1 in Hy. injection Hy as <-. exact Hans.
  - intros d y Hd Ho. destruct (H11 d y Hd Ho) as [|(f & [->|Hf]%elem_of_cons & Hc)]; [by left|done|right; by exists f].
  - intros d y Hd Ho Ht. assert (d <> c) as Hn by (intros ->; rewrite Hx1 in Hd; injection Hd as <-; done).
    destruct (H12 d y Hd Ho Ht) as [Hin|(f & [->|Hf]%elem_of_cons & Hc)]; [left|done|right; by exists f].
    apply list_elem_of_In, List.filter_In. split; [by apply list_elem_of_In|]. by rewrite (proj2 (Nat.eqb_neq d c)).
Qed.

(** ** Every frame *)

(** Frames that have nothing to do with a request. *)
Definition plain (f : frame) : bool :=
  match f with
  | FRead | FRecv | FReadEnd | FWrite | FWait | FRegister | FSleep | FSend _ | FWriteEnd
  | FStart | FStart1 | FStart2 | FConnectCb | FStartFail | FUserClose | FClose | FSwap | FClear
  | FSendMessage _ | FEnqueue (SMsg _) => true
  | _ => false
  end.

Lemma plain_facts g c : plain g = true -> fin c g = 0 /\ carries c g = false /\ clocks c g = false /\ ends c g = false /\ c ∉ mentions g.
Proof. destruct g; try done; try (destruct x as [?|?]; try done); intros _; split_and!; try done; apply not_elem_of_nil. Qed.

Lemma inv_plain f l F s s' :
  inv (f :: F) s -> plain f = true -> forallb plain l = true -> rq s' = rq s ->
  0 <= _waitFiberSem (lk s') -> _waitFiberSem (lk s') + tally permits l = _waitFiberSem (lk s) + permits f ->
  inv (l ++ F) s'.
Proof.
  intros Hs Hf Hl Hr Hp0 Hp. assert (forall g, g ∈ l -> plain g = true) as Hl'.
  { intros g Hg. rewrite forallb_forall in Hl. apply Hl. by apply list_elem_of_In. }
  apply (inv_pass f l F s s'); try done.
  - split.
    + intros c. destruct (plain_facts f c Hf) as (-> & _). clear -Hl'. induction l as [|g l IH]; [done|]. cbn.
      destruct (plain_facts g c (Hl' g ltac:(by left))) as (-> & _). apply IH. intros g' Hg'. apply Hl'. by right.
    + intros c. by destruct (plain_facts f c Hf) as (_ & -> & _).
    + intros c. by destruct (plain_facts f c Hf) as (_ & _ & -> & _).
    + intros g c Hg Hc. by destruct (plain_facts g c (Hl' g Hg)) as (_ & _ & _ & _ & ?).
  - intros g c x Hg He. destruct (plain_facts g c (Hl' g Hg)) as (_ & _ & _ & He' & _). by rewrite He' in He.
Qed.

(** The requester's own frames only mention their request. *)
Lemma inv_own f l F s s' c :
  inv (f :: F) s -> (f = FEnqueue (SReq c) \/ f = FHold c \/ f = FBack c) -> l = [] \/ l = [FBack c] -> rq s' = rq s -> lk s' = lk s ->
  inv (l ++ F) s'.
Proof.
  intros Hs Hf Hl Hr Hk. apply (inv_pass f l F s s'); try done.
  - split.
    + intros d. by destruct Hf as [->|[-> | ->]], Hl as [-> | ->].
    + intros d. by destruct Hf as [->|[-> | ->]].
    + intros d. by destruct Hf as [->|[-> | ->]].
    + intros g d Hg Hd. left. destruct Hl as [-> | ->]; [by apply elem_of_nil in Hg|]. apply list_elem_of_singleton in Hg as ->.
      by destruct Hf as [->|[-> | ->]].
  - intros g d x Hg He. destruct Hl as [-> | ->]; [by apply elem_of_nil in Hg|]. by apply list_elem_of_singleton in Hg as ->.
  - rewrite Hk. apply Hs.
  - rewrite Hk. by destruct Hf as [->|[-> | ->]], Hl as [-> | ->].
Qed.

Lemma upd_ctx_eq c h h' r x : ctxs r !! c = Some x -> h x = h' x -> upd_ctx c h r = upd_ctx c h' r.
Proof.
  intros Hx Hh. unfold upd_ctx. f_equal. apply map_eq. intros d. destruct (decide (d = c)) as [->|Hn].
  - rewrite !lookup_alter_eq, Hx. cbn. by rewrite Hh.
  - by rewrite !lookup_alter_ne.
Qed.

Lemma upd_ctx_id c r x h : ctxs r !! c = Some x -> h x = x -> upd_ctx c h r = r.
Proof.
  intros Hx Hh. destruct r. unfold upd_ctx. cbn in *. f_equal. apply map_eq. intros d. destruct (decide (d = c)) as [->|Hn].
  - rewrite lookup_alter_eq, Hx. cbn. by rewrite Hh.
  - by rewrite lookup_alter_ne.
Qed.

Definition exec_goal (f : frame) ok msg F s : Prop :=
  exists l sp s', exec true f ok msg s = (Ok (l, sp), s') /\ inv (l ++ concat sp ++ F) s'.

(** A frame that returns at once. *)
Lemma exec_intro f ok msg F s l s' :
  exec true f ok msg s = (Ok (l, []), s') -> inv (l ++ F) s' -> exec_goal f ok msg F s.
Proof. intros H Hi. by exists l, [], s'. Qed.

Lemma exec_request n tm fib sche ok msg F s :
  inv (FRequest n tm fib sche :: F) s -> ready (FRequest n tm fib sche) s -> exec_goal (FRequest n tm fib sche) ok msg F s.
Proof.
  intros Hs (-> & Htm & Hsn). assert (inv F s) as HF by (apply (inv_drop (FRequest 0 tm fib sche)); by cbn).
  destruct (connected (lk s)) eqn:Hc.
  - eapply exec_intro; [unfold exec, Request, IsConnected, mbind, M_bind, get; cbn; rewrite Hc; cbn; reflexivity|].
    unfold on_requests. cbn [lk rq ob]. rewrite !uwrap_id by (unfold in_u; pose proof (i_sn _ _ Hs); lia).
    exact (inv_request F s tm fib sche _ _ _ HF Hsn eq_refl eq_refl eq_refl).
  - eapply exec_intro; [unfold exec, Request, IsConnected, mbind, M_bind, get; cbn; rewrite Hc; cbn; reflexivity|done].
Qed.

Lemma exec_finish c ok msg F s : inv (FFinish c :: F) s -> exec_goal (FFinish c) ok msg F s.
Proof.
  intros Hs. destruct (inv_ctx _ _ (FFinish c) c Hs) as [x Hx]; [by left|by left|]. pose proof (inv_finish c x F s Hs Hx) as Hi.
  set (s1 := on_requests (fun r => set_timers (List.filter (fun t => negb (Nat.eqb t c)) (timers r)) r) s) in *.
  assert (ctxs (rq s1) !! c = Some x) as Hx1 by exact Hx.
  destruct (timed x) eqn:Ht.
  - eapply exec_intro; [cbn [exec]; unfold doRsp_rest; step (found_ctx c x s Hx); rewrite Ht; reflexivity|].
    unfold on_requests at 2 in Hi. rewrite (upd_ctx_eq c _ (set_result TIMEOUT) _ x) in Hi by (done || by rewrite Ht). exact Hi.
  - eapply exec_intro; [cbn [exec]; unfold doRsp_rest; step (found_ctx c x s Hx); rewrite Ht; reflexivity|].
    unfold on_requests at 2 in Hi. rewrite (upd_ctx_id c _ x) in Hi by (done || by rewrite Ht). exact Hi.
Qed.

Lemma exec_rsp c ok msg F s : inv (FRsp c :: F) s -> exec_goal (FRsp c) ok msg F s.
Proof.
  intros Hs. destruct (inv_ctx _ _ (FRsp c) c Hs) as [x Hx]; [by left|by left|]. pose proof (inv_rsp c x F s Hs Hx) as Hi.
  eapply exec_intro; [cbn [exec]; unfold doRsp; step (found_ctx c x s Hx); reflexivity|exact Hi].
Qed.

Lemma in_single {A} (P : A -> Prop) (x : A) : (forall y, y ∈ [x] -> P y) <-> P x.
Proof. split; [intros H; apply H; by left|by intros H y ->%list_elem_of_singleton]. Qed.

Lemma exec_ontimer c ok msg F s : inv (FOnTimer c :: F) s -> exec_goal (FOnTimer c) ok msg F s.
Proof.
  intros Hs. destruct (inv_ctx _ _ (FOnTimer c) c Hs) as [x Hx]; [by left|by left|].
  eapply exec_intro; [cbn [exec]; unfold onTimer; step (found_ctx c x s Hx); reflexivity|].
  apply (inv_swap (FOnTimer c)).
  - apply (inv_del _ s (sn x) Hs). intros d Hd. destruct (i_map _ _ Hs _ _ Hd) as (y & Hy & Hsy).
    exists (FOnTimer c). split; [by left|]. cbn. apply Nat.eqb_eq. by apply (i_sn_inj _ _ Hs c x d y).
  - split; cbn; [done|intros d Hd; exists (FTimed c); by split; [left|]|intros d Hd; exists (FTimed c); by split; [left|]|].
    intros g d ->%list_elem_of_singleton. by left.
  - by intros g d y ->%list_elem_of_singleton.
  - done.
Qed.

Lemma exec_timed c ok msg F s : inv (FTimed c :: F) s -> exec_goal (FTimed c) ok msg F s.
Proof.
  intros Hs. eapply exec_intro; [reflexivity|]. apply (inv_swap (FTimed c)).
  - apply inv_upd; [done|]. intros x _. split_and!; try done. intros _. by left.
  - split; cbn; [done|intros d Hd; exists (FRsp c); by split; [left|]|intros d Hd; exists (FRsp c); by split; [left|]|].
    intros g d ->%list_elem_of_singleton. by left.
  - intros g d x ->%list_elem_of_singleton Hd%Nat.eqb_eq Hx. subst d. cbn in Hx. rewrite lookup_alter_eq in Hx.
    destruct (ctxs (rq s) !! c); [|done]. injection Hx as <-. by left.
  - done.
Qed.

Lemma exec_each c l ok msg F s : inv (FEach (c :: l) :: F) s -> exec_goal (FEach (c :: l)) ok msg F s.
Proof.
  intros Hs. eapply exec_intro; [reflexivity|]. apply (inv_swap (FEach (c :: l))).
  - apply inv_upd; [done|]. intros x _. split_and!; try done; intros _; right; by right.
  - split.
    + done.
    + intros d Hd%bool_decide_eq_true. apply elem_of_cons in Hd as [->|Hd].
      * exists (FRsp c). split; [by left|apply Nat.eqb_refl].
      * exists (FEach l). split; [right; by left|by apply bool_decide_eq_true].
    + done.
    + intros g d [->|[->|Hg]%elem_of_cons]%elem_of_cons Hd; left; [|by right|by apply elem_of_nil in Hg].
      apply list_elem_of_singleton in Hd as ->. by left.
  - intros g d x [->|[->|Hg]%elem_of_cons]%elem_of_cons Hd Hx; [|done|by apply elem_of_nil in Hg].
    apply Nat.eqb_eq in Hd as ->. cbn in Hx. rewrite lookup_alter_eq in Hx.
    destruct (ctxs (rq s) !! d); [|done]. injection Hx as <-. right. by right.
  - done.
Qed.

Lemma exec_swap ok msg F s : inv (FSwap :: F) s -> exec_goal FSwap ok msg F s.
Proof.
  intros Hs. set (l := snd <$> map_to_list (_reqCtxs (rq s))).
  assert (forall d, d ∈ l <-> exists n, _reqCtxs (rq s) !! n = Some d) as Hl.
  { intros d. unfold l. rewrite list_elem_of_fmap. split.
    - intros ([n d'] & -> & Hn%elem_of_map_to_list). by exists n.
    - intros [n Hn]. exists (n, d). split; [done|by apply elem_of_map_to_list]. }
  eapply exec_intro; [reflexivity|]. fold l.
  apply (inv_reqs ([FClear; FEach l] ++ F) s ∅).
  - apply (inv_swap FSwap); [done| |by intros g d x [->|[->|Hg%elem_of_nil]%elem_of_cons]%elem_of_cons|done]. split; try done.
    intros g d [->|[->|Hg]%elem_of_cons]%elem_of_cons Hd; [by apply elem_of_nil in Hd| |by apply elem_of_nil in Hg].
    right. cbn in Hd. apply Hl in Hd as [n Hn]. destruct (i_map _ _ Hs _ _ Hn) as (x & Hx & _). apply (i_alloc _ _ Hs). by exists x.
  - intros n c Hn. by rewrite lookup_empty in Hn.
  - intros n c Hn. right. exists (FEach l). split; [right; by left|]. apply bool_decide_eq_true, Hl. by exists n.
Qed.

Lemma exec_recv ok msg F s : inv (FRecv :: F) s -> exec_goal FRecv ok msg F s.
Proof.
  intros Hs. assert (forall m, (forall n r, m <> MResponse n r) -> exec_goal FRecv ok (Some m) F s) as Hother.
  { intros m Hm. apply exec_intro with (l := [FRead]) (s' := s); [destruct m as [|n r| |]; [done|by destruct (Hm n r)|done|done]|].
    apply (inv_plain FRecv [FRead] F s s); try done; apply Hs. }
  destruct msg as [[|n r| |]|]; try (by apply Hother).
  - destruct (_reqCtxs (rq s) !! n) as [c|] eqn:En.
    + destruct (i_map _ _ Hs _ _ En) as (x & Hx & Hsn).
      eapply exec_intro; [cbn [exec]; unfold doRecv, getAndDelCtx, mbind, M_bind, get; cbn; rewrite En; cbn; reflexivity|].
      set (h := fun x => set_rsp (n, r) (set_result r x)). set (s1 := on_requests (upd_ctx c h) s).
      assert (inv ([FRsp c; FRead] ++ F) s1) as H1.
      { apply (inv_swap FRecv).
        - apply inv_upd; [done|]. intros y Hy. rewrite Hx in Hy. injection Hy as <-.
          split_and!; try done; intros _; right; left; cbn; by rewrite Hsn.
        - split; try done. intros g d [->|[->|Hg]%elem_of_cons]%elem_of_cons Hd; [|by apply elem_of_nil in Hd|by apply elem_of_nil in Hg].
          right. apply list_elem_of_singleton in Hd as ->. apply (i_alloc _ _ Hs). by exists x.
        - intros g d y [->|[->|Hg]%elem_of_cons]%elem_of_cons Hd Hy; [|done|by apply elem_of_nil in Hg].
          apply Nat.eqb_eq in Hd as ->. cbn in Hy. rewrite lookup_alter_eq, Hx in Hy. injection Hy as <-. right. left. cbn. by rewrite Hsn.
        - done. }
      apply (inv_del _ s1 n H1). intros d Hd. cbn in Hd. rewrite En in Hd. injection Hd as <-.
      exists (FRsp c). split; [by left|apply Nat.eqb_refl].
    + apply exec_intro with (l := [FRead]) (s' := s); [cbn [exec]; unfold doRecv, getAndDelCtx, mbind, M_bind, get; cbn; by rewrite En|].
      apply (inv_plain FRecv [FRead] F s s); try done; apply Hs.
  - apply exec_intro with (l := innerClose ++ [FRead]) (s' := s); [done|]. apply (inv_plain FRecv _ F s s); try done; apply Hs.
Qed.

(** Frames that only touch the connection and the queue. *)
Lemma exec_plain f ok msg F s :
  inv (f :: F) s -> ready f s -> plain f = true -> f <> FSwap -> f <> FRecv -> exec_goal f ok msg F s.
Proof.
  intros Hs Hr Hf Hn1 Hn2. destruct (i_sem _ _ Hs) as [Hp0 Hp]. cbn [tally] in Hp.
  pose proof (tally_nonneg permits F ltac:(intros []; cbn; lia)) as HF.
  assert (forall l sp s', exec true f ok msg s = (Ok (l, sp), s') -> forallb plain (l ++ concat sp) = true -> rq s' = rq s ->
    0 <= _waitFiberSem (lk s') -> _waitFiberSem (lk s') + tally permits (l ++ concat sp) = _waitFiberSem (lk s) + permits f ->
    exec_goal f ok msg F s) as Hgo.
  { intros l sp s' He Hpl Hrq Hq0 Hq. exists l, sp, s'. split; [done|]. rewrite app_assoc. by apply (inv_plain f _ F s s'). }
  assert (forall (b : bool) (A B : MS (list frame * list (list frame))), (if b then A s else B s) = (if b then A else B) s) as Hif by by intros [].
  destruct f; try done.
  - destruct x; [done|]. by eapply Hgo.
  - destruct (connected (lk s)) eqn:Hc; (eapply Hgo; [cbn; unfold sendMessage, doRead, doWrite, Start_connect, IsConnected, mbind, M_bind, get; cbn; rewrite Hc; reflexivity|done..]).
  - by eapply Hgo.
  - by eapply Hgo.
  - destruct (connected (lk s)) eqn:Hc; (eapply Hgo; [cbn; unfold sendMessage, doRead, doWrite, Start_connect, IsConnected, mbind, M_bind, get; cbn; rewrite Hc; reflexivity|done..]).
  - destruct (_autoConnect (lk s)) eqn:Ha;
      (eapply Hgo; [cbn; unfold doRead_end, Start_fail, mbind, M_bind, get, modify; cbn; rewrite Ha; reflexivity|done|done|cbn; lia|cbn; lia]).
  - destruct (connected (lk s)) eqn:Hc; (eapply Hgo; [cbn; unfold sendMessage, doRead, doWrite, Start_connect, IsConnected, mbind, M_bind, get; cbn; rewrite Hc; reflexivity|done..]).
  - destruct (bool_decide (_sendCtxQue (ob s) = []) && connected (lk s)) eqn:Hc;
      (eapply Hgo; [cbn; unfold doWrite_wait, mbind, M_bind, get; cbn; rewrite Hc; reflexivity|done..]).
  - by eapply Hgo.
  - by eapply Hgo.
  - destruct l as [|x l]; [by eapply Hgo|]. destruct ok; by eapply Hgo.
  - eapply Hgo; [done|done|done|cbn; lia|cbn; lia].
  - cbn in Hr. eapply Hgo; [done|done|done|cbn; lia|cbn; lia].
  - cbn in Hr. eapply Hgo; [done|done|done|cbn; lia|cbn; lia].
  - destruct (connected (lk s) || ok) eqn:Hc; (eapply Hgo; [cbn; unfold sendMessage, doRead, doWrite, Start_connect, IsConnected, mbind, M_bind, get; cbn; rewrite Hc; reflexivity|done..]).
  - destruct ok; by eapply Hgo.
  - destruct (_autoConnect (lk s)) eqn:Ha;
      (eapply Hgo; [cbn; unfold doRead_end, Start_fail, mbind, M_bind, get, modify; cbn; rewrite Ha; reflexivity|done|done|cbn; lia|cbn; lia]).
  - by eapply Hgo.
Qed.

Lemma exec_ok f ok msg F s : inv (f :: F) s -> ready f s -> exec_goal f ok msg F s.
Proof.
  intros Hs Hr. destruct (plain f) eqn:Hf.
  - destruct f; try (by apply exec_plain); [by apply exec_swap|by apply exec_recv].
  - destruct f; try done.
    + by apply exec_request.
    + destruct (inv_ctx _ _ (FAddCtx c) c Hs) as [x Hx]; [by left|by left|].
      eapply exec_intro; [cbn [exec]; unfold addCtx; rewrite bind_assoc; step (found_ctx c x s Hx); reflexivity|]. by apply (inv_add c x F s).
    + eapply exec_intro; [reflexivity|]. by apply inv_arm.
    + destruct x as [c|]; [|done]. eapply exec_intro; [reflexivity|]. apply (inv_own (FEnqueue (SReq c)) [] F s _ c); auto.
    + eapply exec_intro; [reflexivity|]. apply (inv_own (FHold c) [FBack c] F s _ c); auto.
    + eapply exec_intro; [reflexivity|]. apply (inv_own (FBack c) [] F s _ c); auto.
    + by apply exec_rsp.
    + by apply exec_finish.
    + by apply exec_ontimer.
    + by apply exec_timed.
    + destruct l as [|c l]; [|by apply exec_each]. eapply exec_intro; [reflexivity|]. by apply (inv_drop (FEach [])).
Qed.

(** ** The whole system *)
Definition frames (y : system) : list frame := concat (agents y).
Definition sys_inv (y : system) : Prop := inv (frames y) (st y).

Lemma frames_step (ags : list (list frame)) k f rest : ags !! k = Some (f :: rest) ->
  exists F, concat ags ≡ₚ f :: F /\ forall l sp, concat (<[k := l ++ rest]> ags ++ sp) ≡ₚ l ++ concat sp ++ F.
Proof.
  intros Hk. rewrite <- (take_drop_middle ags k _ Hk). exists (concat (take k ags) ++ rest ++ concat (drop (S k) ags)).
  assert (length (take k ags) = k) as Hl by (apply lookup_lt_Some in Hk; rewrite length_take; lia).
  split.
  - rewrite concat_app. cbn. solve_Permutation.
  - intros l sp. rewrite insert_app_r_alt by lia. rewrite Hl, Nat.sub_diag. cbn. rewrite ?concat_app. cbn. rewrite ?concat_app. solve_Permutation.
Qed.

Lemma inv_spawn f B s s' : inv B s -> by_program f -> rq s' = rq s -> _waitFiberSem (lk s') = _waitFiberSem (lk s) -> inv (f :: B) s'.
Proof.
  intros [H1 H2 H3 H4 H5 H6 H7 H8 H9 H10 H11 H12 H13] Hf Hr Hw.
  assert ((forall c, fin c f = 0) /\ (forall c, c ∉ mentions f) /\ (forall c, ends c f = false) /\ permits f = 0) as (F1 & F2 & F3 & F4).
  { destruct f; try done; split_and!; try done; intros; apply not_elem_of_nil. }
  split; rewrite ?Hr; try done.
  - intros c. cbn. rewrite F1, Z.add_0_l. apply H6.
  - intros g c [->|Hg]%elem_of_cons Hc; [by apply F2 in Hc|by apply (H7 g c)].
  - intros c x g [->|Hg]%elem_of_cons Hc; [by rewrite F3 in Hc|by apply (H9 c x g)].
  - intros c x Hc Ho. destruct (H11 c x Hc Ho) as [|(g & ? & ?)]; [by left|right; exists g; split; [by right|done]].
  - intros c x Hc Ho Ht. destruct (H12 c x Hc Ho Ht) as [|(g & ? & ?)]; [by left|right; exists g; split; [by right|done]].
  - rewrite Hw. cbn. by rewrite F4, Z.add_0_l.
Qed.

Lemma inv_fire c B s : inv B s -> c ∈ timers (rq s) ->
  inv (FOnTimer c :: B) (on_requests (fun r => set_timers (List.filter (fun t => negb (Nat.eqb t c)) (timers r)) r) s).
Proof.
  intros [H1 H2 H3 H4 H5 H6 H7 H8 H9 H10 H11 H12 H13] Hc. split; cbn; try done.
  - intros g d [->|Hg]%elem_of_cons Hd; [apply list_elem_of_singleton in Hd as ->; by apply H8|by apply (H7 g d)].
  - intros d [Hd _]%list_elem_of_In%List.filter_In. apply H8. by apply list_elem_of_In.
  - intros d x g [->|Hg]%elem_of_cons Hd; [done|by apply (H9 d x g)].
  - intros d x Hd Ho. destruct (H11 d x Hd Ho) as [|(g & ? & ?)]; [by left|right; exists g; split; [by right|done]].
  - intros d x Hd Ho Ht. destruct (decide (d = c)) as [->|Hn].
    + right. exists (FOnTimer c). split; [by left|apply Nat.eqb_refl].
    + destruct (H12 d x Hd Ho Ht) as [Hin|(g & ? & ?)]; [left|right; exists g; split; [by right|done]].
      apply list_elem_of_In, List.filter_In. split; [by apply list_elem_of_In|]. by rewrite (proj2 (Nat.eqb_neq d c)).
Qed.

Lemma frames_spawn y f : frames (spawn [[f]] y) ≡ₚ f :: frames y.
Proof. unfold frames, spawn. cbn. rewrite concat_app. cbn. solve_Permutation. Qed.

Lemma system_step_ok a y : sys_inv y -> enabled a y -> exists y', perform true a y = (Ok tt, y') /\ sys_inv y'.
Proof.
  unfold sys_inv. intros Hy Ha. destruct a as [k ok msg|c|t|f]; cbn [enabled] in Ha.
  - destruct (agents y !! k) as [[|f rest]|] eqn:Hk; [done| |done]. destruct (frames_step _ _ _ _ Hk) as (F & HF & Hnext).
    assert (inv (f :: F) (st y)) as Hi by (eapply inv_perm; [exact HF|done]).
    destruct (exec_ok f ok msg F (st y) Hi Ha) as (l & sp & s' & E & Hi').
    eexists. split; [cbn [perform]; rewrite Hk, E; reflexivity|]. cbn [st]. eapply inv_perm; [|exact Hi']. symmetry. apply Hnext.
  - eexists. split; [reflexivity|]. eapply inv_perm; [symmetry; apply (frames_spawn (mkSystem (st y) (agents y)) (FOnTimer c))|]. by apply inv_fire.
  - eexists. split; [reflexivity|]. eapply inv_perm; [symmetry; apply (frames_spawn (mkSystem (st y) (agents y)) FStart)|]. by eapply inv_spawn.
  - eexists. split; [reflexivity|]. eapply inv_perm; [symmetry; apply frames_spawn|]. by eapply inv_spawn.
Qed.

Lemma system_run_ok acts : forall y, sys_inv y -> all_enabled true acts y -> exists y', run true acts y = (Ok tt, y') /\ sys_inv y'.
Proof.
  induction acts as [|a acts IH]; intros y Hy Ha; [by exists y|]. destruct Ha as [Ha Hr].
  destruct (system_step_ok a y Hy Ha) as (y1 & E & Hy1). rewrite E in Hr. cbn [run]. step E. by apply IH.
Qed.

Definition system_new (auto_connect : bool) : system := mkSystem (AsyncSocketStream_new auto_connect) [].

Lemma system_new_ok b : sys_inv (system_new b).
Proof.
  split; cbn; try done; try lia.
  - intros c. rewrite lookup_empty. split; [by intros [? ?]|lia].
  - intros f c H. by apply elem_of_nil in H.
  - intros c H. by apply elem_of_nil in H.
Qed.

(** How many read fibers and write fibers there are. *)
Definition readers (B : list frame) : Z := tally (fun f => match f with FRead | FRecv | FReadEnd => 1 | _ => 0 end) B.
Definition writers (B : list frame) : Z :=
  tally (fun f => match f with FWrite | FWait | FRegister | FSleep | FSend _ | FWriteEnd => 1 | _ => 0 end) B.

Lemma fibers_permits B : readers B + writers B <= tally permits B /\ 0 <= readers B /\ 0 <= writers B.
Proof. unfold readers, writers. induction B as [|f B IH]; cbn; [lia|]. destruct f; cbn; lia. Qed.


(** ** Examples *)
Definition go (k : nat) : action := AStep k true None.

(** Start connects and makes the reader (agent 1) and the writer (agent 2). *)
Definition started : list action := [ASpawn FStart; go 0; go 0; go 0; go 0].

(** A request (agent 3) with a limit of a second is sent and answered. *)
Definition demo_acts : list action :=
  started ++ [ASpawn (FRequest 0 1000 7 0); go 3; go 3; go 3; go 3; go 3; go 2; go 2; go 2; go 2; go 1;
              AStep 1 true (Some (MResponse 1 0)); go 1; go 1; go 3].

Lemma demo_acts_enabled : all_enabled true demo_acts (system_new true).
Proof. by_computation. Qed.


(** A request can be lost: it has found the stream connected, the stream
    is closed and everything registered is answered, and only then is the
    request registered.  Without a time limit nothing that is left can wake its
    fiber: only new calls of the program are possible. *)
Theorem request_after_close : exists acts y,
  all_enabled true acts (system_new false) /\ run true acts (system_new false) = (Ok tt, y) /\
  FBack 0 ∈ frames y /\ 0%nat ∉ scheduled (rq (st y)) /\ connected (lk (st y)) = false /\
  forall a, enabled a y -> exists f, a = ASpawn f.
Proof.
  set (acts := started ++ [ASpawn (FRequest 0 0 7 0); go 3; go 1; go 1; go 1; go 1; go 1; go 1; go 1; go 1; go 1; go 1; go 1; go 1;
                           go 2; go 2; go 3; go 3; go 3]).
  set (y := snd (run true acts (system_new false))). exists acts, y.
  assert (agents y = [[]; []; []; [FBack 0]] /\ timers (rq (st y)) = [] /\ restarts (lk (st y)) = [] /\ scheduled (rq (st y)) = [])
    as (Hag & Ht & Hr & Hs) by by vm_compute.
  split_and!.
  - by_computation.
  - unfold y. rewrite (surjective_pairing (run _ _ _)) at 1. f_equal; vm_compute; reflexivity.
  - unfold frames. rewrite Hag. by left.
  - rewrite Hs. apply not_elem_of_nil.
  - by vm_compute.
  - clearbody y. intros [k ok msg|c|t|f]; cbn [enabled]; rewrite ?Hag, ?Ht, ?Hr; cbn; try (by intros ?%elem_of_nil); [|by eexists].
    destruct k as [|[|[|[|]]]]; cbn; try done. rewrite Hs. by intros ?%elem_of_nil.
Qed.

(** The writer can be left asleep: Close comes between its look at the
    queue and its wait, the reader ends with a single broadcast that comes
    before the wait, and no other will follow.  The fiber keeps the stream and
    a permit, so that Start waits for ever. *)
Theorem writer_left_asleep : exists acts y,
  all_enabled true acts (system_new true) /\ run true acts (system_new true) = (Ok tt, y) /\
  FSleep ∈ frames y /\ asleep (ob (st y)) = true /\ connected (lk (st y)) = false /\ FStart1 ∈ frames y /\
  readers (frames y) = 0 /\ forall a, enabled a y -> exists f, a = ASpawn f.
Proof.
  set (acts := started ++ [go 2; go 2; ASpawn FUserClose; go 3; go 1; go 1; go 1; go 2; go 1; go 1; go 1; ASpawn FStart; go 4]).
  set (y := snd (run true acts (system_new true))). exists acts, y.
  assert (agents y = [[]; []; [FSleep]; []; [FStart1]] /\ timers (rq (st y)) = [] /\ restarts (lk (st y)) = [] /\
    asleep (ob (st y)) = true /\ _waitFiberSem (lk (st y)) = 0) as (Hag & Ht & Hr & Hs & Hw) by by vm_compute.
  split_and!.
  - by_computation.
  - unfold y. rewrite (surjective_pairing (run _ _ _)) at 1. f_equal; vm_compute; reflexivity.
  - unfold frames. rewrite Hag. by left.
  - done.
  - by vm_compute.
  - unfold frames. rewrite Hag. right. by left.
  - unfold frames. by rewrite Hag.
  - clearbody y. intros [k ok msg|c|t|f]; cbn [enabled]; rewrite ?Hag, ?Ht, ?Hr; cbn; try (by intros ?%elem_of_nil); [|by eexists].
    destruct k as [|[|[|[|[|]]]]]; cbn; try done; rewrite ?Hs, ?Hw; [by intros []|lia].
Qed.

(** getAndDelCtx erases the entry of the map and then reads through the
    erased iterator: wherever freed memory is reused, every response to a
    registered request is undefined behaviour. *)
Theorem response_reads_erased n r c ok (s : AsyncSocketStream) :
  _reqCtxs (rq s) !! n = Some c -> fst (exec false FRecv ok (Some (MResponse n r)) s) = Undef UseAfterFree.
Proof. intros H. cbn [exec]. unfold doRecv, getAndDelCtx, mbind, M_bind, get. cbn. by rewrite H. Qed.

Lemma response_reads_erased_witness :
  fst (exec false FRecv true (Some (MResponse 1 0)) (st (snd (run true (take 12 demo_acts) (system_new true))))) = Undef UseAfterFree.
Proof. apply (response_reads_erased 1 0 0). by vm_compute. Defined.
