(* ===== verification/HttpMap.v ===== *)
(** http/http.h: [std::map<std::string, std::string, CaseInsensitiveLess>],
    the map of headers, parameters and cookies.

    A [std::map] is its list of entries in the order of the comparison; the
    operations search from the front and decide equality of keys by the
    comparison alone, as the library does.  They are proved to implement a
    finite map whose keys are the names in lower case up to the first NUL. *)
From Stdlib Require Import List.
From stdpp Require Import gmap sorting.
From S2P Require Import Prelude Bytes Strings.

(** ** The comparison *)
Fixpoint lex_lt (a b : list Z) : bool :=
  match a, b with
  | _, [] => false
  | [], _ :: _ => true
  | x :: a, y :: b => (x <? y) || ((x =? y) && lex_lt a b)
  end.

(** What [strcasecmp] looks at of a string given by [c_str()]. *)
Definition folded (s : list Z) : list Z := ToLower (cstr s).

(** [strcasecmp(a, b) == 0] *)
Definition strcaseeq (a b : list Z) : bool := bool_decide (folded a = folded b).

Definition CaseInsensitiveLess (lhs rhs : list Z) : bool := lex_lt (folded lhs) (folded rhs).

(** ** The map *)
Definition MapType := list (list Z * list Z).

Fixpoint map_find (key : list Z) (m : MapType) : option (list Z) :=
  match m with
  | [] => None
  | (k, v) :: m => if CaseInsensitiveLess k key then map_find key m
                   else if CaseInsensitiveLess key k then None else Some v
  end.

(** [m[key] = val]: an entry that is there keeps its key. *)
Fixpoint map_set (key val : list Z) (m : MapType) : MapType :=
  match m with
  | [] => [(key, val)]
  | (k, v) :: m' => if CaseInsensitiveLess k key then (k, v) :: map_set key val m'
                    else if CaseInsensitiveLess key k then (key, val) :: m
                    else (k, val) :: m'
  end.

(** [m.insert(std::make_pair(key, val))]: an entry that is there stays. *)
Fixpoint map_insert (key val : list Z) (m : MapType) : MapType :=
  match m with
  | [] => [(key, val)]
  | (k, v) :: m' => if CaseInsensitiveLess k key then (k, v) :: map_insert key val m'
                    else if CaseInsensitiveLess key k then (key, val) :: m
                    else m
  end.

Fixpoint map_erase (key : list Z) (m : MapType) : MapType :=
  match m with
  | [] => []
  | (k, v) :: m' => if CaseInsensitiveLess k key then (k, v) :: map_erase key m'
                    else if CaseInsensitiveLess key k then m
                    else m'
  end.

(** ** The order is a strict total order on folded names *)
Lemma lex_lt_irrefl a : lex_lt a a = false.
Proof. induction a as [|x a IH]; [done|]. cbn [lex_lt]. by rewrite Z.ltb_irrefl, Z.eqb_refl, IH. Qed.

Lemma lex_lt_cons x y a b : lex_lt (x :: a) (y :: b) = true <-> x < y \/ (x = y /\ lex_lt a b = true).
Proof. cbn [lex_lt]. by rewrite orb_true_iff, andb_true_iff, Z.ltb_lt, Z.eqb_eq. Qed.

Lemma lex_lt_trans a : forall b c, lex_lt a b = true -> lex_lt b c = true -> lex_lt a c = true.
Proof.
  induction a as [|x a IH]; intros [|y b] [|z c]; try done.
  rewrite !lex_lt_cons. intros [?|[-> ?]] [?|[-> ?]]; try (left; lia); eauto.
Qed.

Lemma lex_lt_total a : forall b, lex_lt a b = false -> lex_lt b a = false -> a = b.
Proof.
  induction a as [|x a IH]; intros [|y b]; try done. cbn [lex_lt].
  rewrite !orb_false_iff, !andb_false_iff, !Z.ltb_ge, !Z.eqb_neq. intros [? H1] [? H2].
  assert (x = y) as -> by lia. f_equal. apply IH; [destruct H1|destruct H2]; (done || lia).
Qed.

(** The three outcomes of comparing two names. *)
Inductive compared (k key : list Z) : bool -> bool -> Prop :=
  | cmp_less : CaseInsensitiveLess k key = true -> compared k key true false
  | cmp_greater : CaseInsensitiveLess key k = true -> compared k key false true
  | cmp_same : folded k = folded key -> compared k key false false.

Lemma compare_names k key : compared k key (CaseInsensitiveLess k key) (CaseInsensitiveLess key k).
Proof.
  destruct (CaseInsensitiveLess k key) eqn:H1; destruct (CaseInsensitiveLess key k) eqn:H2.
  - pose proof (lex_lt_trans _ _ _ H1 H2) as H. by rewrite lex_lt_irrefl in H.
  - by constructor.
  - by constructor.
  - constructor. by apply lex_lt_total.
Qed.

(** Case analysis on every comparison of the goal. *)
Ltac compare_cases :=
  repeat match goal with
  | |- context [CaseInsensitiveLess ?a ?b] =>
      destruct (compare_names a b)
  end.

Definition before (x y : list Z * list Z) : Prop := CaseInsensitiveLess x.1 y.1 = true.

#[export] Instance before_trans : Transitive before.
Proof. intros x y z. apply lex_lt_trans. Qed.

(** The invariant of the map. *)
Definition ordered (m : MapType) : Prop := StronglySorted before m.

Lemma less_neq k key : CaseInsensitiveLess k key = true -> folded k <> folded key.
Proof. unfold CaseInsensitiveLess. intros H E. by rewrite E, lex_lt_irrefl in H. Qed.

Lemma less_trans a b c : CaseInsensitiveLess a b = true -> CaseInsensitiveLess b c = true -> CaseInsensitiveLess a c = true.
Proof. apply lex_lt_trans. Qed.

(** Only the folded name of a key matters to the order. *)
Lemma less_folded a a' b b' : folded a = folded a' -> folded b = folded b' ->
  CaseInsensitiveLess a b = CaseInsensitiveLess a' b'.
Proof. unfold CaseInsensitiveLess. by intros -> ->. Qed.

(** ** The finite map it implements *)
Definition abs (m : MapType) : gmap (list Z) (list Z) := list_to_map (map (fun e => (folded e.1, e.2)) m).

Lemma abs_cons k v m : abs ((k, v) :: m) = <[folded k := v]> (abs m).
Proof. done. Qed.

(** Nothing below the first entry is in the map. *)
Lemma abs_above key m : Forall (fun e => CaseInsensitiveLess key e.1 = true) m -> abs m !! folded key = None.
Proof.
  induction 1 as [|[k v] m Hk _ IH]; [apply lookup_empty|]. rewrite abs_cons.
  rewrite lookup_insert_ne; [done|]. intros E. by apply less_neq in Hk.
Qed.

Lemma above_trans key k v m : CaseInsensitiveLess key k = true -> Forall (before (k, v)) m ->
  Forall (fun e => CaseInsensitiveLess key e.1 = true) m.
Proof. intros Hk. apply Forall_impl. intros [k' v'] Hb. apply (less_trans _ k _ Hk Hb). Qed.

Lemma above_same key k v m : folded k = folded key -> Forall (before (k, v)) m ->
  Forall (fun e => CaseInsensitiveLess key e.1 = true) m.
Proof.
  intros Hk. apply Forall_impl. intros [k' v'] Hb. unfold before in Hb. cbn in *.
  by rewrite (less_folded key k k' k').
Qed.

Lemma map_find_abs key m : ordered m -> map_find key m = abs m !! folded key.
Proof.
  induction m as [|[k v] m IH]; intros Hs; [symmetry; apply lookup_empty|].
  inversion Hs as [|? ? Hm Hall]; subst. cbn [map_find]. rewrite abs_cons.
  destruct (compare_names k key) as [Hl|Hl|He].
  - rewrite lookup_insert_ne by by apply less_neq. by apply IH.
  - rewrite lookup_insert_ne by (intros E; by apply less_neq in Hl).
    symmetry. apply abs_above. by eapply above_trans.
  - by rewrite He, lookup_insert_eq.
Qed.

(** A step of an operation that goes past an entry. *)
Lemma ordered_past (f : MapType -> MapType) k v key m :
  CaseInsensitiveLess k key = true -> Forall (before (k, v)) m ->
  (forall e, e ∈ f m -> e ∈ m \/ folded e.1 = folded key) ->
  ordered (f m) -> ordered ((k, v) :: f m).
Proof.
  intros Hl Hall Hin Hf. constructor; [done|]. apply list.Forall_forall. intros e [He|He]%Hin.
  - rewrite list.Forall_forall in Hall. by apply Hall.
  - unfold before. by rewrite (less_folded (k, v).1 k e.1 key).
Qed.

Lemma map_set_in key val m e : e ∈ map_set key val m -> e ∈ m \/ folded e.1 = folded key.
Proof.
  induction m as [|[k v] m IH]; cbn [map_set]; [intros ->%list_elem_of_singleton; by right|].
  destruct (compare_names k key) as [Hl|Hl|He]; rewrite !elem_of_cons.
  - intros [->|[?|?]%IH]; auto.
  - intros [->|[->|?]]; auto.
  - intros [->|?]; auto.
Qed.

Lemma map_insert_in key val m e : e ∈ map_insert key val m -> e ∈ m \/ folded e.1 = folded key.
Proof.
  induction m as [|[k v] m IH]; cbn [map_insert]; [intros ->%list_elem_of_singleton; by right|].
  destruct (compare_names k key) as [Hl|Hl|He]; rewrite !elem_of_cons.
  - intros [->|[?|?]%IH]; auto.
  - intros [->|[->|?]]; auto.
  - intros [->|?]; auto.
Qed.

Lemma map_erase_in key m e : e ∈ map_erase key m -> e ∈ m.
Proof.
  induction m as [|[k v] m IH]; cbn [map_erase]; [done|].
  destruct (compare_names k key) as [Hl|Hl|He]; rewrite ?elem_of_cons; try tauto.
Qed.

Lemma insert_past {A} (k1 k2 : list Z) (v1 v2 : A) (m : gmap (list Z) A) :
  CaseInsensitiveLess k1 k2 = true ->
  <[folded k1 := v1]> (<[folded k2 := v2]> m) = <[folded k2 := v2]> (<[folded k1 := v1]> m).
Proof. intros H. apply insert_insert_ne. by apply less_neq. Qed.

Lemma map_set_ok key val m : ordered m -> ordered (map_set key val m) /\ abs (map_set key val m) = <[folded key := val]> (abs m).
Proof.
  induction m as [|[k v] m IH]; intros Hs; [split; [repeat constructor|done]|].
  inversion Hs as [|? ? Hm Hall]; subst. destruct (IH Hm) as [IHs IHa]. cbn [map_set].
  destruct (compare_names k key) as [Hl|Hl|He].
  - split.
    + apply (ordered_past (map_set key val) k v key); [done..|apply map_set_in|done].
    + by rewrite !abs_cons, IHa, insert_past.
  - split; [|done]. constructor; [done|]. constructor; [done|]. by eapply above_trans.
  - split; [by constructor|]. by rewrite !abs_cons, He, insert_insert_eq.
Qed.

(** [insert] as a finite map operation. *)
Definition insert_new (key val : list Z) (m : gmap (list Z) (list Z)) : gmap (list Z) (list Z) :=
  match m !! key with Some _ => m | None => <[key := val]> m end.

Lemma map_insert_ok key val m : ordered m ->
  ordered (map_insert key val m) /\ abs (map_insert key val m) = insert_new (folded key) val (abs m).
Proof.
  induction m as [|[k v] m IH]; intros Hs; [split; [repeat constructor|done]|].
  inversion Hs as [|? ? Hm Hall]; subst. destruct (IH Hm) as [IHs IHa]. cbn [map_insert]. unfold insert_new in *.
  destruct (compare_names k key) as [Hl|Hl|He]; rewrite ?abs_cons.
  - split; [apply (ordered_past (map_insert key val) k v key); [done..|apply map_insert_in|done]|].
    rewrite IHa, lookup_insert_ne by by apply less_neq.
    destruct (abs m !! folded key); [done|]. by apply insert_past.
  - split; [constructor; [done|]; constructor; [done|]; by eapply above_trans|].
    rewrite lookup_insert_ne by (intros E; by apply less_neq in Hl).
    by rewrite abs_above by by eapply above_trans.
  - split; [done|]. by rewrite He, lookup_insert_eq.
Qed.

Lemma map_erase_ok key m : ordered m -> ordered (map_erase key m) /\ abs (map_erase key m) = delete (folded key) (abs m).
Proof.
  induction m as [|[k v] m IH]; intros Hs; [split; [done|symmetry; apply delete_empty]|].
  inversion Hs as [|? ? Hm Hall]; subst. destruct (IH Hm) as [IHs IHa]. cbn [map_erase].
  destruct (compare_names k key) as [Hl|Hl|He].
  - split; [apply (ordered_past (map_erase key) k v key); [done..|intros; left; by eapply map_erase_in|done]|].
    rewrite !abs_cons, IHa, delete_insert_ne; [done|]. intros E. by apply less_neq in Hl.
  - split; [done|]. rewrite delete_id; [done|]. rewrite abs_cons, lookup_insert_ne by (intros E; by apply less_neq in Hl).
    apply abs_above. by eapply above_trans.
  - split; [done|]. rewrite abs_cons, He, delete_insert_id; [done|]. apply abs_above. by eapply above_same.
Qed.

(** Finding after one operation. *)
Lemma find_set key val m k : ordered m ->
  map_find k (map_set key val m) = if decide (folded k = folded key) then Some val else map_find k m.
Proof.
  intros Hs. destruct (map_set_ok key val m Hs) as [Hs' Ha]. rewrite !map_find_abs, Ha by done.
  case_decide as E; [by rewrite E, lookup_insert_eq|]. by rewrite lookup_insert_ne.
Qed.

Lemma find_insert key val m k : ordered m ->
  map_find k (map_insert key val m) =
  if decide (folded k = folded key) then Some (default val (map_find k m)) else map_find k m.
Proof.
  intros Hs. destruct (map_insert_ok key val m Hs) as [Hs' Ha]. rewrite !map_find_abs, Ha by done.
  unfold insert_new. case_decide as E.
  - rewrite E. destruct (abs m !! folded key) eqn:L; [by rewrite L|]. by rewrite lookup_insert_eq.
  - destruct (abs m !! folded key); [done|]. by rewrite lookup_insert_ne.
Qed.

Lemma find_erase key m k : ordered m ->
  map_find k (map_erase key m) = if decide (folded k = folded key) then None else map_find k m.
Proof.
  intros Hs. destruct (map_erase_ok key m Hs) as [Hs' Ha]. rewrite !map_find_abs, Ha by done.
  case_decide as E; [by rewrite E, lookup_delete_eq|]. by rewrite lookup_delete_ne.
Qed.

Lemma ordered_nil : ordered [].
Proof. constructor. Qed.

#[export] Hint Resolve ordered_nil : xten.
#[export] Hint Extern 1 (ordered (map_set _ _ _)) => apply map_set_ok : xten.
#[export] Hint Extern 1 (ordered (map_insert _ _ _)) => apply map_insert_ok : xten.
#[export] Hint Extern 1 (ordered (map_erase _ _)) => apply map_erase_ok : xten.

(** ** Histories *)
Inductive map_op := OSet (k v : list Z) | OInsert (k v : list Z) | OErase (k : list Z).

Definition map_apply (m : MapType) (o : map_op) : MapType :=
  match o with OSet k v => map_set k v m | OInsert k v => map_insert k v m | OErase k => map_erase k m end.

Definition spec_apply (m : gmap (list Z) (list Z)) (o : map_op) : gmap (list Z) (list Z) :=
  match o with
  | OSet k v => <[folded k := v]> m
  | OInsert k v => insert_new (folded k) v m
  | OErase k => delete (folded k) m
  end.

Lemma map_apply_ok o m : ordered m -> ordered (map_apply m o) /\ abs (map_apply m o) = spec_apply (abs m) o.
Proof. destruct o; [apply map_set_ok|apply map_insert_ok|apply map_erase_ok]. Qed.

Lemma history_ok ops : forall m, ordered m ->
  ordered (foldl map_apply m ops) /\ abs (foldl map_apply m ops) = foldl spec_apply (abs m) ops.
Proof.
  induction ops as [|o ops IH]; intros m Hm; [done|]. cbn [foldl].
  destruct (map_apply_ok o m Hm) as [Ho Ha]. rewrite <- Ha. by apply IH.
Qed.

(** ** Properties *)

(** C28: The header, parameter and cookie maps implement finite maps keyed by
    the name regardless of case: after any history of assignments, insertions
    and erasures every spelling of a name finds the value the finite map has,
    and the entries stand in strictly increasing order, so that each name is
    printed once. *)
Theorem case_insensitive_map ops :
  let m := foldl map_apply [] ops in
  ordered m /\ NoDup (map (fun e => folded e.1) m) /\
  forall key, map_find key m = foldl spec_apply ∅ ops !! folded key.
Proof.
  destruct (history_ok ops [] ordered_nil) as [Hs Ha]. cbv zeta. split; [done|split].
  - clear Ha. induction Hs as [|e m _ IH Hall]; [constructor|]. cbn [map]. constructor; [|done].
    intros (e' & He & Hin)%list_elem_of_fmap. rewrite list.Forall_forall in Hall.
    specialize (Hall _ Hin). by apply less_neq in Hall.
  - intros key. rewrite map_find_abs by done. by rewrite Ha.
Qed.
