(* ===== verification/Http.v ===== *)
(** http/http.h, http/http.cpp: requests and responses, their text, and the
    parsing of query strings, forms and cookies.

    The tables of methods and status codes are those of [HTTP_METHOD_MAP] and
    [HTTP_STATUS_MAP]; the name of a method is the text the preprocessor makes
    of it, so that MSEARCH is "M - SEARCH".  [boost::lexical_cast] is a
    parameter of the accessors that use it, [Time2Str] one of [setCookie]. *)
From Stdlib Require Import List String.
From S2P Require Import Prelude Bytes Strings HttpMap.

(** ** Methods and status codes *)
Inductive HttpMethod :=
  | DELETE | GET | HEAD | POST | PUT | CONNECT | OPTIONS | TRACE | COPY | LOCK | MKCOL | MOVE | PROPFIND
  | PROPPATCH | SEARCH | UNLOCK | BIND | REBIND | UNBIND | ACL | REPORT | MKACTIVITY | CHECKOUT | MERGE
  | MSEARCH | NOTIFY | SUBSCRIBE | UNSUBSCRIBE | PATCH | PURGE | MKCALENDAR | LINK | UNLINK | SOURCE
  | INVALID_METHOD.

#[export] Instance HttpMethod_eq_dec : EqDecision HttpMethod.
Proof. solve_decision. Defined.

(** Number, method and name, in the order of the enumeration. *)
Definition HTTP_METHOD_MAP : list (Z * HttpMethod * list Z) := [
  (0, DELETE, lit "DELETE"); (1, GET, lit "GET"); (2, HEAD, lit "HEAD"); (3, POST, lit "POST");
  (4, PUT, lit "PUT"); (5, CONNECT, lit "CONNECT"); (6, OPTIONS, lit "OPTIONS"); (7, TRACE, lit "TRACE");
  (8, COPY, lit "COPY"); (9, LOCK, lit "LOCK"); (10, MKCOL, lit "MKCOL"); (11, MOVE, lit "MOVE");
  (12, PROPFIND, lit "PROPFIND"); (13, PROPPATCH, lit "PROPPATCH"); (14, SEARCH, lit "SEARCH");
  (15, UNLOCK, lit "UNLOCK"); (16, BIND, lit "BIND"); (17, REBIND, lit "REBIND"); (18, UNBIND, lit "UNBIND");
  (19, ACL, lit "ACL"); (20, REPORT, lit "REPORT"); (21, MKACTIVITY, lit "MKACTIVITY");
  (22, CHECKOUT, lit "CHECKOUT"); (23, MERGE, lit "MERGE"); (24, MSEARCH, lit "M - SEARCH");
  (25, NOTIFY, lit "NOTIFY"); (26, SUBSCRIBE, lit "SUBSCRIBE"); (27, UNSUBSCRIBE, lit "UNSUBSCRIBE");
  (28, PATCH, lit "PATCH"); (29, PURGE, lit "PURGE"); (30, MKCALENDAR, lit "MKCALENDAR");
  (31, LINK, lit "LINK"); (32, UNLINK, lit "UNLINK"); (33, SOURCE, lit "SOURCE")].

(** The enumeration may hold any integer: the parser casts to it. *)
Definition HttpStatus := Z.
Definition STATUS_OK : HttpStatus := 200.
Definition STATUS_FOUND : HttpStatus := 302.
Definition STATUS_NOT_FOUND : HttpStatus := 404.

Definition HTTP_STATUS_MAP : list (HttpStatus * list Z) := [
  (100, lit "Continue"); (101, lit "Switching Protocols"); (102, lit "Processing"); (200, lit "OK");
  (201, lit "Created"); (202, lit "Accepted"); (203, lit "Non - Authoritative Information");
  (204, lit "No Content"); (205, lit "Reset Content"); (206, lit "Partial Content");
  (207, lit "Multi - Status"); (208, lit "Already Reported"); (226, lit "IM Used");
  (300, lit "Multiple Choices"); (301, lit "Moved Permanently"); (302, lit "Found"); (303, lit "See Other");
  (304, lit "Not Modified"); (305, lit "Use Proxy"); (307, lit "Temporary Redirect");
  (308, lit "Permanent Redirect"); (400, lit "Bad Request"); (401, lit "Unauthorized");
  (402, lit "Payment Required"); (403, lit "Forbidden"); (404, lit "Not Found");
  (405, lit "Method Not Allowed"); (406, lit "Not Acceptable"); (407, lit "Proxy Authentication Required");
  (408, lit "Request Timeout"); (409, lit "Conflict"); (410, lit "Gone"); (411, lit "Length Required");
  (412, lit "Precondition Failed"); (413, lit "Payload Too Large"); (414, lit "URI Too Long");
  (415, lit "Unsupported Media Type"); (416, lit "Range Not Satisfiable"); (417, lit "Expectation Failed");
  (421, lit "Misdirected Request"); (422, lit "Unprocessable Entity"); (423, lit "Locked");
  (424, lit "Failed Dependency"); (426, lit "Upgrade Required"); (428, lit "Precondition Required");
  (429, lit "Too Many Requests"); (431, lit "Request Header Fields Too Large");
  (451, lit "Unavailable For Legal Reasons"); (500, lit "Internal Server Error");
  (501, lit "Not Implemented"); (502, lit "Bad Gateway"); (503, lit "Service Unavailable");
  (504, lit "Gateway Timeout"); (505, lit "HTTP Version Not Supported");
  (506, lit "Variant Also Negotiates"); (507, lit "Insufficient Storage"); (508, lit "Loop Detected");
  (510, lit "Not Extended"); (511, lit "Network Authentication Required")].

Definition StringToHttpMethod (m : list Z) : HttpMethod :=
  match filter (fun e => cstr m = e.2) HTTP_METHOD_MAP with
  | (_, name, _) :: _ => name
  | [] => INVALID_METHOD
  end.

(** [strncmp] against the text from [m] on: the first name that is a prefix. *)
Definition CharsToHttpMethod (m : list Z) : HttpMethod :=
  match filter (fun e => is_prefix e.2 m = true) HTTP_METHOD_MAP with
  | (_, name, _) :: _ => name
  | [] => INVALID_METHOD
  end.

(** The number of an enumerator; [INVALID_METHOD] follows the last one. *)
Definition method_number (m : HttpMethod) : Z :=
  match filter (fun e => e.1.2 = m) HTTP_METHOD_MAP with
  | (num, _, _) :: _ => num
  | [] => 34
  end.

Definition s_method_string : list (list Z) := map snd HTTP_METHOD_MAP.

Definition HttpMethodToString (m : HttpMethod) : list Z :=
  let idx := u32 (method_number m) in
  if zlen s_method_string <=? idx then lit "<unknown>" else nth (Z.to_nat idx) s_method_string [].

Definition HttpStatusToString (s : HttpStatus) : list Z :=
  match filter (fun e => e.1 = s) HTTP_STATUS_MAP with
  | (_, msg) :: _ => msg
  | [] => lit "<unknown>"
  end.

(** ** Output of unsigned integers *)
Fixpoint dec_loop (fuel : nat) (n : Z) (acc : list Z) : list Z :=
  match fuel with
  | O => acc
  | S fuel => if n <? 10 then 48 + n :: acc else dec_loop fuel (n / 10) (48 + n mod 10 :: acc)
  end.
(** 64 bits have at most 20 digits. *)
Definition dec (n : Z) : list Z := dec_loop 20 n [].

Definition crlf : list Z := [13; 10].
Definition white : list Z := [32; 9; 13; 10].

(** [strcasestr(s.c_str(), p) != nullptr] *)
Definition strcasestr (s p : list Z) : bool :=
  match find_from (is_prefix (ToLower p)) (folded s) 0 with Some _ => true | None => false end.

(** ** Requests *)
Record HttpRequest := mkRequest {
  m_method : HttpMethod; m_version : Z; m_close : bool; m_websocket : bool;
  m_parserParamFlag : Z; m_streamId : Z;
  m_path : list Z; m_query : list Z; m_fragment : list Z; m_body : list Z;
  m_headers : MapType; m_params : MapType; m_cookies : MapType
}.

Definition HttpRequest_new (version : Z) (close : bool) : HttpRequest :=
  mkRequest GET version close false 0 0 (lit "/") [] [] [] [] [] [].

Definition setMethod v '(mkRequest _ ve cl ws fl si pa qu fr bo he ps ck) := mkRequest v ve cl ws fl si pa qu fr bo he ps ck.
Definition setVersion v '(mkRequest me _ cl ws fl si pa qu fr bo he ps ck) := mkRequest me v cl ws fl si pa qu fr bo he ps ck.
Definition setClose v '(mkRequest me ve _ ws fl si pa qu fr bo he ps ck) := mkRequest me ve v ws fl si pa qu fr bo he ps ck.
Definition setWebsocket v '(mkRequest me ve cl _ fl si pa qu fr bo he ps ck) := mkRequest me ve cl v fl si pa qu fr bo he ps ck.
Definition set_flag v '(mkRequest me ve cl ws fl si pa qu fr bo he ps ck) :=
  mkRequest me ve cl ws (Z.lor fl v) si pa qu fr bo he ps ck.
Definition setPath v '(mkRequest me ve cl ws fl si _ qu fr bo he ps ck) := mkRequest me ve cl ws fl si v qu fr bo he ps ck.
Definition setQuery v '(mkRequest me ve cl ws fl si pa _ fr bo he ps ck) := mkRequest me ve cl ws fl si pa v fr bo he ps ck.
Definition setFragment v '(mkRequest me ve cl ws fl si pa qu _ bo he ps ck) := mkRequest me ve cl ws fl si pa qu v bo he ps ck.
Definition setBody v '(mkRequest me ve cl ws fl si pa qu fr _ he ps ck) := mkRequest me ve cl ws fl si pa qu fr v he ps ck.
Definition setHeaders v '(mkRequest me ve cl ws fl si pa qu fr bo _ ps ck) := mkRequest me ve cl ws fl si pa qu fr bo v ps ck.
Definition setParams v '(mkRequest me ve cl ws fl si pa qu fr bo he _ ck) := mkRequest me ve cl ws fl si pa qu fr bo he v ck.
Definition setCookies v '(mkRequest me ve cl ws fl si pa qu fr bo he ps _) := mkRequest me ve cl ws fl si pa qu fr bo he ps v.

Definition getHeader (key def : list Z) (r : HttpRequest) : list Z := default def (map_find key (m_headers r)).
Definition setHeader (key val : list Z) (r : HttpRequest) : HttpRequest := setHeaders (map_set key val (m_headers r)) r.
Definition setParam (key val : list Z) (r : HttpRequest) : HttpRequest := setParams (map_set key val (m_params r)) r.
Definition setCookie (key val : list Z) (r : HttpRequest) : HttpRequest := setCookies (map_set key val (m_cookies r)) r.
Definition delHeader (key : list Z) (r : HttpRequest) : HttpRequest := setHeaders (map_erase key (m_headers r)) r.
Definition delParam (key : list Z) (r : HttpRequest) : HttpRequest := setParams (map_erase key (m_params r)) r.
Definition delCookie (key : list Z) (r : HttpRequest) : HttpRequest := setCookies (map_erase key (m_cookies r)) r.
Definition hasHeader (key : list Z) (r : HttpRequest) : option (list Z) := map_find key (m_headers r).

(** [getAs]: a missing entry and a failed conversion give the default. *)
Definition getAs {T} (lexical_cast : list Z -> option T) (m : MapType) (key : list Z) (def : T) : T :=
  match map_find key m with
  | None => def
  | Some s => default def (lexical_cast s)
  end.

Definition checkGetAs {T} (lexical_cast : list Z -> option T) (m : MapType) (key : list Z) (def : T) : bool * T :=
  match map_find key m with
  | None => (false, def)
  | Some s => match lexical_cast s with Some v => (true, v) | None => (false, def) end
  end.

(** *** The URI *)
Definition question : Z := 63.
Definition hash : Z := 35.
Definition find_char (c : Z) (s : list Z) (pos : nat) : option nat := find_from (head_in (is_char c)) s pos.

Definition setUri (uri : list Z) (r : HttpRequest) : HttpRequest :=
  match find_char question uri 0 with
  | None =>
    match find_char hash uri 0 with
    | None => setPath uri r
    | Some pos2 => setFragment (drop (pos2 + 1) uri) (setPath (substr uri 0 pos2) r)
    end
  | Some pos =>
    let r := setPath (substr uri 0 pos) r in
    match find_char hash uri (pos + 1) with
    | None => setQuery (drop (pos + 1) uri) r
    | Some pos2 => setFragment (drop (pos2 + 1) uri) (setQuery (substr uri (pos + 1) (pos2 - pos - 1)) r)
    end
  end.

(** A part of the text that is there when [s] is not empty. *)
Definition opt_part (mark : list Z) (s : list Z) : list Z := if bool_decide (s = []) then [] else mark ++ s.

Definition getUri (r : HttpRequest) : list Z :=
  m_path r ++ opt_part [question] (m_query r) ++ opt_part [hash] (m_fragment r).

(** *** Parameters *)

(** The macro [PARSE_PARAM]: [pos] is where the next key starts. *)
Fixpoint PARSE_PARAM_loop (fuel : nat) (str : list Z) (flag : Z) (trim : list Z -> list Z) (pos : nat) (m : MapType)
    : option MapType :=
  match fuel with
  | O => None
  | S fuel =>
    let last := pos in
    match find_char 61 str pos with
    | None => Some m
    | Some key =>
      match find_char flag str key with
      | None => Some (map_insert (trim (substr str last (key - last))) (UrlDecode (drop (key + 1) str) true) m)
      | Some pos =>
        let m := map_insert (trim (substr str last (key - last)))
                            (UrlDecode (substr str (key + 1) (pos - key - 1)) true) m in
        PARSE_PARAM_loop fuel str flag trim (pos + 1) m
      end
    end
  end.

Definition PARSE_PARAM (str : list Z) (flag : Z) (trim : list Z -> list Z) (m : MapType) : option MapType :=
  PARSE_PARAM_loop (S (length str)) str flag trim 0 m.

(** A part of a request is parsed once, as its bit of the flags says. *)
Definition parsed (bit : Z) (r : HttpRequest) : bool := negb (Z.land (m_parserParamFlag r) bit =? 0).

Definition initQueryParam : M HttpRequest unit :=
  r ← get;
  if parsed 1 r then mret tt else
  match PARSE_PARAM (m_query r) 38 (fun k => k) (m_params r) with
  | None => nofuel
  | Some m => modify (fun r => set_flag 1 (setParams m r))
  end.

Definition form_type : list Z := lit "application/x-www-form-urlencoded".

Definition initBodyParam : M HttpRequest unit :=
  r ← get;
  if parsed 2 r then mret tt else
  if negb (strcasestr (getHeader (lit "content-type") [] r) form_type) then modify (set_flag 2) else
  match PARSE_PARAM (m_body r) 38 (fun k => k) (m_params r) with
  | None => nofuel
  | Some m => modify (fun r => set_flag 2 (setParams m r))
  end.

Definition initCookies : M HttpRequest unit :=
  r ← get;
  if parsed 4 r then mret tt else
  let cookie := getHeader (lit "cookie") [] r in
  if bool_decide (cookie = []) then modify (set_flag 4) else
  match PARSE_PARAM cookie 59 (fun k => Trim k white) (m_cookies r) with
  | None => nofuel
  | Some m => modify (fun r => set_flag 4 (setCookies m r))
  end.

Definition initParam : M HttpRequest unit := initQueryParam;; initBodyParam;; initCookies.

Definition getParam (key def : list Z) : M HttpRequest (list Z) :=
  initQueryParam;; initBodyParam;;
  r ← get;
  mret (default def (map_find key (m_params r))).

Definition hasParam (key : list Z) : M HttpRequest (option (list Z)) :=
  initQueryParam;; initBodyParam;;
  r ← get;
  mret (map_find key (m_params r)).

Definition getCookie (key def : list Z) : M HttpRequest (list Z) :=
  initCookies;;
  r ← get;
  mret (default def (map_find key (m_cookies r))).

Definition hasCookie (key : list Z) : M HttpRequest (option (list Z)) :=
  initCookies;;
  r ← get;
  mret (map_find key (m_cookies r)).

(** [MapJoin] with its default marks. *)
Fixpoint MapJoin (m : MapType) : list Z :=
  match m with
  | [] => []
  | [(k, v)] => k ++ [61] ++ v
  | (k, v) :: m => k ++ [61] ++ v ++ [38] ++ MapJoin m
  end.

Definition paramToQuery (r : HttpRequest) : HttpRequest := setQuery (MapJoin (m_params r)) r.

(** *** Long and short connections *)
Definition init (r : HttpRequest) : HttpRequest :=
  let conn := getHeader (lit "connection") [] r in
  if bool_decide (conn = []) then r
  else if strcaseeq conn (lit "keep-alive") then setClose false r else setClose true r.

(** *** The text of a request *)
Definition version_text (version : Z) : list Z :=
  lit "HTTP/" ++ dec (Z.shiftr version 4) ++ lit "." ++ dec (Z.land version 15).

Definition connection_line (close : bool) : list Z :=
  lit "connection: " ++ (if close then lit "close" else lit "keep-alive") ++ crlf.

Definition header_line (e : list Z * list Z) : list Z := e.1 ++ lit ": " ++ e.2 ++ crlf.

(** The headers that are written as they are. *)
Definition dumped (websocket : bool) (e : list Z * list Z) : bool :=
  negb (negb websocket && strcaseeq e.1 (lit "connection")) && negb (strcaseeq e.1 (lit "content-length")).

Definition request_dump (r : HttpRequest) : list Z :=
  HttpMethodToString (m_method r) ++ lit " " ++ m_path r ++
  opt_part [question] (m_query r) ++ opt_part [hash] (m_fragment r) ++
  lit " " ++ version_text (m_version r) ++ crlf ++
  (if m_websocket r then [] else connection_line (m_close r)) ++
  (filter (fun e => dumped (m_websocket r) e = true) (m_headers r) ≫= header_line) ++
  (if bool_decide (m_body r = []) then crlf
   else lit "content-length: " ++ dec (zlen (m_body r)) ++ crlf ++ crlf ++ m_body r).

(** ** Responses *)
Module HttpResponse.
Record HttpResponse := mkResponse {
  m_status : HttpStatus; m_version : Z; m_close : bool; m_websocket : bool;
  m_body : list Z; m_reason : list Z; m_headers : MapType; m_cookies : list (list Z)
}.

Definition HttpResponse_new (version : Z) (close : bool) : HttpResponse :=
  mkResponse STATUS_OK version close false [] [] [] [].

Definition setStatus v '(mkResponse _ ve cl ws bo re he ck) := mkResponse v ve cl ws bo re he ck.
Definition setClose v '(mkResponse st ve _ ws bo re he ck) := mkResponse st ve v ws bo re he ck.
Definition setBody v '(mkResponse st ve cl ws _ re he ck) := mkResponse st ve cl ws v re he ck.
Definition setReason v '(mkResponse st ve cl ws bo _ he ck) := mkResponse st ve cl ws bo v he ck.
Definition setHeaders v '(mkResponse st ve cl ws bo re _ ck) := mkResponse st ve cl ws bo re v ck.
Definition setCookies v '(mkResponse st ve cl ws bo re he _) := mkResponse st ve cl ws bo re he v.

Definition getHeader (key def : list Z) (r : HttpResponse) : list Z := default def (map_find key (m_headers r)).
Definition setHeader (key val : list Z) (r : HttpResponse) : HttpResponse := setHeaders (map_set key val (m_headers r)) r.
Definition delHeader (key : list Z) (r : HttpResponse) : HttpResponse := setHeaders (map_erase key (m_headers r)) r.

Definition setRedirect (uri : list Z) (r : HttpResponse) : HttpResponse :=
  setHeader (lit "Location") uri (setStatus STATUS_FOUND r).

Definition setCookie (Time2Str : Z -> list Z -> list Z) (key val : list Z) (expired : Z) (path domain : list Z)
    (secure : bool) (r : HttpResponse) : HttpResponse :=
  let ss := key ++ lit "=" ++ val ++
    (if 0 <? expired then lit ";expires=" ++ Time2Str expired (lit "%a, %d %b %Y %H:%M:%S") ++ lit " GMT" else []) ++
    opt_part (lit ";domain=") domain ++ opt_part (lit ";path=") path ++
    (if secure then lit ";secure" else []) in
  setCookies (m_cookies r ++ [ss]) r.

Definition initConnection (r : HttpResponse) : HttpResponse :=
  let conn := getHeader (lit "connection") [] r in
  if bool_decide (conn = []) then r
  else if strcaseeq conn (lit "keep-alive") then setClose false r else setClose (m_version r =? 16) r.

(** The headers of a response: unlike a request's, a content-length stays. *)
Definition dumped (websocket : bool) (e : list Z * list Z) : bool :=
  negb (negb websocket && strcaseeq e.1 (lit "connection")).

Definition response_dump (r : HttpResponse) : list Z :=
  let headers := filter (fun e => dumped (m_websocket r) e = true) (m_headers r) in
  let has_content_length := existsb (fun e => strcaseeq e.1 (lit "content-length")) headers in
  version_text (m_version r) ++ lit " " ++ dec (u32 (m_status r)) ++ lit " " ++
  (if bool_decide (m_reason r = []) then HttpStatusToString (m_status r) else m_reason r) ++ crlf ++
  (headers ≫= header_line) ++
  (m_cookies r ≫= fun c => lit "Set-Cookie: " ++ c ++ crlf) ++
  (if m_websocket r then [] else connection_line (m_close r)) ++
  (if bool_decide (m_body r = []) then crlf
   else if has_content_length then crlf ++ m_body r
   else lit "content-length: " ++ dec (zlen (m_body r)) ++ crlf ++ crlf ++ m_body r).
End HttpResponse.

Definition createResponse (r : HttpRequest) : HttpResponse.HttpResponse :=
  HttpResponse.HttpResponse_new (m_version r) (m_close r).

(** ** What the parameter parser computes *)

(** The text up to the first [c], and what follows it. *)
Fixpoint cut (c : Z) (s : list Z) : list Z * option (list Z) :=
  match s with
  | [] => ([], None)
  | x :: s => if x =? c then ([], Some s) else let '(a, b) := cut c s in (x :: a, b)
  end.

Fixpoint pairs (fuel : nat) (flag : Z) (s : list Z) : list (list Z * list Z) :=
  match fuel with
  | O => []
  | S fuel =>
    match cut 61 s with
    | (_, None) => []
    | (k, Some rest) =>
      let '(v, rest) := cut flag rest in
      (k, v) :: match rest with None => [] | Some rest => pairs fuel flag rest end
    end
  end.

(** Entering the pairs: the first value of a name stays. *)
Definition enter (trim : list Z -> list Z) (l : list (list Z * list Z)) (m : MapType) : MapType :=
  foldl (fun m e => map_insert (trim e.1) (UrlDecode e.2 true) m) m l.

(** A form: keys as they are, values encoded. *)
Fixpoint form (flag : Z) (plus : bool) (l : list (list Z * list Z)) : list Z :=
  match l with
  | [] => []
  | [(k, v)] => k ++ [61] ++ UrlEncode v plus
  | (k, v) :: l => k ++ [61] ++ UrlEncode v plus ++ [flag] ++ form flag plus l
  end.

Lemma cut_find c rest : forall i,
  match cut c rest with
  | (_, None) => find_at (head_in (is_char c)) i rest = None
  | (a, Some b) => find_at (head_in (is_char c)) i rest = Some (i + length a)%nat /\ rest = a ++ c :: b
  end.
Proof.
  induction rest as [|x rest IH]; intros i; [done|]. cbn [cut find_at head_in]. unfold is_char at 1 3.
  destruct (Z.eqb_spec x c) as [->|Hx]; [cbn; by rewrite Nat.add_0_r|].
  specialize (IH (S i)). destruct (cut c rest) as [a [b|]]; [|done]. destruct IH as [E ->].
  rewrite E. cbn [length app]. split; [f_equal; lia|done].
Qed.

Lemma cut_char c rest s pos : (pos <= length s)%nat -> drop pos s = rest ->
  match cut c rest with
  | (_, None) => find_char c s pos = None
  | (a, Some b) => find_char c s pos = Some (pos + length a)%nat /\ rest = a ++ c :: b
  end.
Proof.
  intros Hp Hd. unfold find_char, find_from. rewrite decide_False by lia. rewrite Hd. apply cut_find.
Qed.

Lemma cut_whole c s : forall a, cut c s = (a, None) -> a = s.
Proof.
  induction s as [|x s IH]; intros a; cbn [cut]; [by intros [= <-]|].
  destruct (x =? c); [done|]. destruct (cut c s) as [a' [?|]]; [done|]. intros [= <-]. by rewrite (IH a').
Qed.

(** Nothing before the cut is the character. *)
Lemma cut_app c a b : c ∉ a -> cut c (a ++ c :: b) = (a, Some b).
Proof.
  induction a as [|x a IH]; intros Ha; cbn [app cut]; [by rewrite Z.eqb_refl|].
  apply not_elem_of_cons in Ha as [Hx Ha]. rewrite (proj2 (Z.eqb_neq _ _)) by congruence. by rewrite IH.
Qed.

Lemma cut_none c a : c ∉ a -> cut c a = (a, None).
Proof.
  induction a as [|x a IH]; intros Ha; cbn [cut]; [done|].
  apply not_elem_of_cons in Ha as [Hx Ha]. rewrite (proj2 (Z.eqb_neq _ _)) by congruence. by rewrite IH.
Qed.

Lemma drop_at {A} (str a b : list A) (c : A) pos : drop pos str = a ++ c :: b ->
  drop (pos + length a + 1) str = b /\ (pos + length a < length str)%nat /\
  drop (pos + length a) str = c :: b /\ take (length a) (drop pos str) = a.
Proof.
  intros H. pose proof (f_equal length H) as Hl. rewrite length_drop, length_app in Hl. cbn [length] in Hl.
  rewrite <- !drop_drop, H. rewrite drop_app_length, take_app_length. cbn [drop]. split_and!; (done || lia).
Qed.

(** The loop that walks by positions enters the pairs. *)
Lemma PARSE_PARAM_loop_eq flag trim str : flag <> 61 -> forall fuel pos rest m,
  (pos <= length str)%nat -> drop pos str = rest -> (length rest < fuel)%nat ->
  PARSE_PARAM_loop fuel str flag trim pos m = Some (enter trim (pairs fuel flag rest) m).
Proof.
  intros Hf. induction fuel as [|fuel IH]; intros pos rest m Hp Hd Hl; [lia|]. cbn [PARSE_PARAM_loop pairs].
  pose proof (cut_char 61 rest str pos Hp Hd) as Hk. destruct (cut 61 rest) as [k [rest1|]]; [|by rewrite Hk].
  destruct Hk as [Hk ->]. destruct (drop_at _ _ _ _ _ Hd) as (Hd1 & Hlt & Hd0 & Hkey). rewrite Hk.
  rewrite length_app in Hl. cbn [length] in Hl.
  pose proof (cut_char flag (61 :: rest1) str (pos + length k) ltac:(lia) Hd0) as Hv.
  cbn [cut] in Hv. rewrite (proj2 (Z.eqb_neq 61 flag)) in Hv by congruence.
  replace (substr str pos (pos + length k - pos)) with k
    by (unfold substr; replace (pos + length k - pos)%nat with (length k) by lia; by rewrite Hkey).
  destruct (cut flag rest1) as [v [rest2|]] eqn:Ev.
  - destruct Hv as [Hv Hr]. injection Hr as ->. rewrite Hv. cbn [length] in *.
    rewrite length_app in Hl. cbn [length] in Hl.
    destruct (drop_at _ _ _ _ _ Hd1) as (Hd2 & Hlt2 & _ & Hval).
    unfold substr. replace (pos + length k + S (length v) - (pos + length k) - 1)%nat with (length v) by lia.
    rewrite Hval. unfold enter. cbn [foldl]. apply IH; [lia| |lia]. rewrite <- Hd2. f_equal. lia.
  - rewrite Hv, Hd1. unfold enter. cbn [foldl]. do 4 f_equal.
    by apply cut_whole in Ev as ->.
Qed.

Lemma PARSE_PARAM_eq flag trim str m : flag <> 61 ->
  PARSE_PARAM str flag trim m = Some (enter trim (pairs (S (length str)) flag str) m).
Proof. intros Hf. apply PARSE_PARAM_loop_eq; (done || lia). Qed.

(** *** Parsing a form gives its pairs back *)

(** An encoded value has no reserved character. *)
Lemma enc_clean plus v c : Forall is_byte v -> c ∈ [38; 59; 35; 63; 32; 13; 10] -> c ∉ UrlEncode v plus.
Proof.
  intros Hv Hc. rewrite UrlEncode_eq. unfold url_enc. intros Hin.
  apply list_elem_of_bind in Hin as (x & Hin & Hx). rewrite list.Forall_forall in Hv. specialize (Hv _ Hx).
  pose (ok := fun x => forallb (fun c => negb (bool_decide (c ∈ if CHAR_IS_UNRESERVED x then [x] else escape false x)) &&
    negb (bool_decide (c ∈ if CHAR_IS_UNRESERVED x then [x] else escape true x))) [38; 59; 35; 63; 32; 13; 10]).
  assert (ok x = true) as H by (apply (field_cases ok 256); [vm_compute; reflexivity|done]).
  unfold ok in H. rewrite forallb_forall in H. specialize (H c ltac:(by apply list_elem_of_In)).
  apply andb_true_iff in H as [H1%negb_true_iff%bool_decide_eq_false H2%negb_true_iff%bool_decide_eq_false].
  by destruct plus.
Qed.

Lemma UrlDecode_enc plus v : Forall is_byte v -> UrlDecode (UrlEncode v plus) true = v.
Proof. intros Hv. rewrite UrlDecode_eq, UrlEncode_eq. by apply url_dec_enc. Qed.

(** Keys without an equals sign, values of bytes. *)
Definition form_pair (e : list Z * list Z) : Prop := 61 ∉ e.1 /\ Forall is_byte e.2.

Lemma form_cons flag plus k v e l :
  form flag plus ((k, v) :: e :: l) = k ++ [61] ++ UrlEncode v plus ++ [flag] ++ form flag plus (e :: l).
Proof. done. Qed.

Lemma form_length flag plus l : (length l <= length (form flag plus l))%nat.
Proof.
  induction l as [|[k v] [|e l] IH]; [done|cbn [form]; rewrite length_app; cbn; lia|].
  rewrite form_cons, !length_app. cbn [length] in *. lia.
Qed.

Lemma pairs_form flag plus l : flag ∈ [38; 59] -> Forall form_pair l -> forall fuel, (length l < fuel)%nat ->
  pairs fuel flag (form flag plus l) = map (fun e => (e.1, UrlEncode e.2 plus)) l.
Proof.
  intros Hf. assert (flag ∈ [38; 59; 35; 63; 32; 13; 10]) as Hf' by (revert Hf; rewrite !elem_of_cons; tauto).
  induction 1 as [|[k v] l [Hk Hv] _ IH]; intros fuel Hl; cbn [length] in Hl; (destruct fuel as [|fuel]; [lia|]); [done|].
  cbn [fst snd] in *. assert (flag ∉ UrlEncode v plus) as Hc by by apply enc_clean.
  destruct l as [|e l].
  - cbn [form pairs map]. change ([61] ++ UrlEncode v plus) with (61 :: UrlEncode v plus). by rewrite cut_app, cut_none by done.
  - rewrite form_cons. cbn [pairs]. cbn [app].
    rewrite cut_app, cut_app by done. rewrite IH by lia. done.
Qed.

(** Entering pairs one after the other. *)
Definition enter_all (trim : list Z -> list Z) (l : list (list Z * list Z)) (m : MapType) : MapType :=
  foldl (fun m e => map_insert (trim e.1) e.2 m) m l.

Lemma PARSE_PARAM_form flag plus trim l m : flag ∈ [38; 59] -> Forall form_pair l ->
  PARSE_PARAM (form flag plus l) flag trim m = Some (enter_all trim l m).
Proof.
  intros Hf Hl. rewrite PARSE_PARAM_eq by (revert Hf; rewrite !elem_of_cons, elem_of_nil; intros [->|[->|[]]]; done).
  rewrite pairs_form by (done || (pose proof (form_length flag plus l); lia)). f_equal.
  unfold enter, enter_all. revert m. induction Hl as [|[k v] l [_ Hv] _ IH]; intros m; [done|].
  cbn [map foldl fst snd]. by rewrite UrlDecode_enc.
Qed.

Lemma enter_all_ordered trim l : forall m, ordered m -> ordered (enter_all trim l m).
Proof. induction l as [|e l IH]; intros m Hm; [done|]. apply IH. by apply map_insert_ok. Qed.

(** The first value entered under a name. *)
Fixpoint first_value (key : list Z) (l : list (list Z * list Z)) : option (list Z) :=
  match l with
  | [] => None
  | (k, v) :: l => if decide (folded key = folded k) then Some v else first_value key l
  end.

Lemma find_enter_all l key : forall m, ordered m ->
  map_find key (enter_all (fun k => k) l m) =
  match map_find key m with Some v => Some v | None => first_value key l end.
Proof.
  induction l as [|[k v] l IH]; intros m Hm; cbn [enter_all foldl first_value]; [by destruct (map_find key m)|].
  change (foldl _ ?m l) with (enter_all (fun k => k) l m). rewrite IH by by apply map_insert_ok.
  cbn [fst snd]. rewrite find_insert by done. case_decide; [|done]. by destruct (map_find key m).
Qed.

Lemma enter_all_app trim l1 l2 m : enter_all trim l2 (enter_all trim l1 m) = enter_all trim (l1 ++ l2) m.
Proof. unfold enter_all. by rewrite foldl_app. Qed.

(** ** Parsing a request's parts *)
Definition query_params (r : HttpRequest) : MapType :=
  enter (fun k => k) (pairs (S (length (m_query r))) 38 (m_query r)) (m_params r).
Definition body_params (r : HttpRequest) : MapType :=
  enter (fun k => k) (pairs (S (length (m_body r))) 38 (m_body r)) (m_params r).
Definition cookie_params (r : HttpRequest) : MapType :=
  let cookie := getHeader (lit "cookie") [] r in
  enter (fun k => Trim k white) (pairs (S (length cookie)) 59 cookie) (m_cookies r).

Definition is_form (r : HttpRequest) : bool := strcasestr (getHeader (lit "content-type") [] r) form_type.

(** What the three initialisers leave; they always return. *)
Definition query_parsed (r : HttpRequest) : HttpRequest :=
  if parsed 1 r then r else set_flag 1 (setParams (query_params r) r).
Definition body_parsed (r : HttpRequest) : HttpRequest :=
  if parsed 2 r then r else set_flag 2 (if is_form r then setParams (body_params r) r else r).
Definition cookies_parsed (r : HttpRequest) : HttpRequest :=
  if parsed 4 r then r
  else set_flag 4 (if bool_decide (getHeader (lit "cookie") [] r = []) then r else setCookies (cookie_params r) r).

Lemma initQueryParam_ok r : initQueryParam r = (Ok tt, query_parsed r).
Proof.
  unfold initQueryParam, query_parsed. step (eq_refl : get r = (Ok r, r)).
  destruct (parsed 1 r); [done|]. by rewrite PARSE_PARAM_eq.
Qed.

Lemma initBodyParam_ok r : initBodyParam r = (Ok tt, body_parsed r).
Proof.
  unfold initBodyParam, body_parsed, is_form. step (eq_refl : get r = (Ok r, r)).
  destruct (parsed 2 r); [done|]. destruct (strcasestr _ _); [|done]. cbn [negb]. by rewrite PARSE_PARAM_eq.
Qed.

Lemma initCookies_ok r : initCookies r = (Ok tt, cookies_parsed r).
Proof.
  unfold initCookies, cookies_parsed, cookie_params. step (eq_refl : get r = (Ok r, r)).
  destruct (parsed 4 r); [done|]. case_bool_decide; [done|]. by rewrite PARSE_PARAM_eq.
Qed.

Lemma initParam_ok r : initParam r = (Ok tt, cookies_parsed (body_parsed (query_parsed r))).
Proof. unfold initParam. step (initQueryParam_ok r). step (initBodyParam_ok (query_parsed r)). apply initCookies_ok. Qed.

Lemma getParam_ok key def r :
  getParam key def r = (Ok (default def (map_find key (m_params (body_parsed (query_parsed r))))), body_parsed (query_parsed r)).
Proof. unfold getParam. step (initQueryParam_ok r). step (initBodyParam_ok (query_parsed r)). done. Qed.

Lemma query_params_form plus l r : Forall form_pair l -> m_query r = form 38 plus l ->
  query_params r = enter_all (fun k => k) l (m_params r).
Proof.
  intros Hl Hq. unfold query_params. rewrite Hq.
  pose proof (PARSE_PARAM_form 38 plus (fun k => k) l (m_params r) ltac:(by left) Hl) as E.
  rewrite PARSE_PARAM_eq in E by done. congruence.
Qed.

Lemma body_params_form plus l r : Forall form_pair l -> m_body r = form 38 plus l ->
  body_params r = enter_all (fun k => k) l (m_params r).
Proof.
  intros Hl Hq. unfold body_params. rewrite Hq.
  pose proof (PARSE_PARAM_form 38 plus (fun k => k) l (m_params r) ltac:(by left) Hl) as E.
  rewrite PARSE_PARAM_eq in E by done. congruence.
Qed.

(** The bits of the flags. *)
Lemma set_flag_parsed bit r : bit ∈ [1; 2; 4] -> parsed bit (set_flag bit r) = true.
Proof.
  intros Hb. unfold parsed. destruct r as [? ? ? ? fl]. cbn [set_flag m_parserParamFlag].
  rewrite Z.land_comm, Z.land_lor_distr_r, Z.land_diag, negb_true_iff, Z.eqb_neq. intros E.
  apply Z.lor_eq_0_iff in E as [_ E]. rewrite !elem_of_cons, elem_of_nil in Hb. lia.
Qed.

Lemma parsed_keeps bit b r : 0 < bit -> parsed bit r = true -> parsed bit (set_flag b r) = true.
Proof.
  intros Hb. unfold parsed. destruct r as [? ? ? ? fl]. cbn [set_flag m_parserParamFlag].
  rewrite !negb_true_iff, !Z.eqb_neq. intros H E. apply H.
  rewrite Z.land_comm, Z.land_lor_distr_r in E. apply Z.lor_eq_0_iff in E as [E _]. by rewrite Z.land_comm.
Qed.

(** Parsing the parameters again changes nothing. *)
Lemma params_idem r : body_parsed (query_parsed (body_parsed (query_parsed r))) = body_parsed (query_parsed r).
Proof.
  assert (parsed 1 (query_parsed r) = true) as H1.
  { unfold query_parsed. destruct (parsed 1 r) eqn:E; [done|]. apply set_flag_parsed. by left. }
  set (r1 := query_parsed r) in *.
  assert (parsed 1 (body_parsed r1) = true /\ parsed 2 (body_parsed r1) = true) as [Hb1 Hb2].
  { unfold body_parsed. destruct (parsed 2 r1) eqn:E; [done|]. split.
    - apply parsed_keeps; [done|]. destruct (is_form r1); [|done]. by destruct r1.
    - apply set_flag_parsed. right. by left. }
  assert (query_parsed (body_parsed r1) = body_parsed r1) as -> by (unfold query_parsed; by rewrite Hb1).
  unfold body_parsed at 1. by rewrite Hb2.
Qed.

(** ** The parts of a URI *)
Lemma find_char_app c a b : c ∉ a -> find_char c (a ++ c :: b) 0 = Some (length a).
Proof.
  intros Ha. pose proof (cut_char c (a ++ c :: b) (a ++ c :: b) 0 ltac:(lia) eq_refl) as H.
  rewrite cut_app in H by done. by destruct H as [-> _].
Qed.

Lemma find_char_none c s pos : c ∉ s -> find_char c s pos = None.
Proof.
  intros Hs. unfold find_char, find_from. case_decide; [done|].
  pose proof (cut_find c (drop pos s) pos) as H'. rewrite cut_none in H'; [done|].
  intros Hin. apply Hs. rewrite <- (take_drop pos s). apply elem_of_app. by right.
Qed.

(** A search that starts behind a part that is skipped. *)
Lemma find_char_behind c a b pos : pos = length a ->
  find_char c (a ++ b) pos = (fun i => (length a + i)%nat) <$> find_char c b 0.
Proof.
  intros ->. unfold find_char, find_from. rewrite !decide_False by (rewrite ?length_app; lia).
  rewrite drop_app_length, drop_0. pose proof (cut_find c b (length a)) as H1. pose proof (cut_find c b 0) as H2.
  destruct (cut c b) as [x [y|]]; [|by rewrite H1, H2]. destruct H1 as [-> _], H2 as [-> _]. done.
Qed.

Lemma substr_app (a b : list Z) : substr (a ++ b) 0 (length a) = a.
Proof. unfold substr. by rewrite drop_0, take_app_length. Qed.

Lemma drop_sep (a b : list Z) c : drop (length a + 1) (a ++ c :: b) = b.
Proof. by rewrite <- drop_drop, drop_app_length. Qed.

(** Path and fragment without a query. *)
Lemma setUri_fragment p f r : question ∉ p ++ hash :: f -> hash ∉ p ->
  setUri (p ++ hash :: f) r = setFragment f (setPath p r).
Proof.
  intros Hq Hh. unfold setUri. rewrite find_char_none by done. by rewrite find_char_app, substr_app, drop_sep by done.
Qed.

Lemma setUri_path p r : question ∉ p -> hash ∉ p -> setUri p r = setPath p r.
Proof. intros Hq Hh. unfold setUri. by rewrite !find_char_none by done. Qed.

Lemma setUri_query p q r : question ∉ p -> hash ∉ q -> setUri (p ++ question :: q) r = setQuery q (setPath p r).
Proof.
  intros Hp Hq. unfold setUri. rewrite find_char_app, substr_app by done.
  rewrite (cons_middle question p q), (app_assoc p). rewrite find_char_behind by (rewrite length_app; cbn; lia).
  rewrite find_char_none by done. cbn [fmap option_fmap option_map]. rewrite <- app_assoc. cbn [app]. by rewrite drop_sep.
Qed.

Lemma setUri_all p q f r : question ∉ p -> hash ∉ q ->
  setUri (p ++ question :: q ++ hash :: f) r = setFragment f (setQuery q (setPath p r)).
Proof.
  intros Hp Hq. unfold setUri. rewrite find_char_app, substr_app by done.
  rewrite (cons_middle question p (q ++ hash :: f)), (app_assoc p).
  rewrite find_char_behind by (rewrite length_app; cbn; lia). rewrite find_char_app by done. cbn [fmap option_fmap option_map].
  rewrite !length_app. cbn [length].
  replace (length p + 1 + length q - length p - 1)%nat with (length q) by lia.
  unfold substr. rewrite <- (app_assoc p). cbn [app]. rewrite drop_sep, take_app_length. f_equal.
  by rewrite <- Nat.add_assoc, <- drop_drop, !drop_sep.
Qed.

(** ** Properties *)

(** Query strings and form bodies: a request whose query is an encoded
    list of pairs, and whose body is one if its type says so, gives every
    parameter the first value of its name in the query and then the body,
    exactly as it was before the encoding, regardless of the case of the name;
    asking again changes nothing. *)
Theorem form_parameters r plus l1 l2 :
  m_parserParamFlag r = 0 -> m_params r = [] -> Forall form_pair l1 -> Forall form_pair l2 ->
  m_query r = form 38 plus l1 -> (if is_form r then m_body r = form 38 plus l2 else l2 = []) ->
  exists r', forall key def,
    getParam key def r = (Ok (default def (first_value key (l1 ++ l2))), r') /\
    getParam key def r' = (Ok (default def (first_value key (l1 ++ l2))), r').
Proof.
  intros Hf Hp Hl1 Hl2 Hq Hb. exists (body_parsed (query_parsed r)).
  assert (m_params (body_parsed (query_parsed r)) = enter_all (fun k => k) (l1 ++ l2) []) as E.
  { rewrite <- enter_all_app, <- Hp, <- (query_params_form plus l1 r Hl1 Hq).
    set (r1 := set_flag 1 (setParams (query_params r) r)).
    replace (query_parsed r) with r1 by (unfold query_parsed, parsed; by rewrite Hf).
    assert (parsed 2 r1 = false /\ m_params r1 = query_params r /\ m_body r1 = m_body r /\ is_form r1 = is_form r)
      as (H2 & Hp1 & Hb1 & Hi1) by (destruct r; cbn in *; subst; done).
    unfold body_parsed. rewrite H2, Hi1. destruct (is_form r).
    - rewrite <- Hp1, <- (body_params_form plus l2 r1) by (done || by rewrite Hb1). by destruct r.
    - subst l2. rewrite <- Hp1. by destruct r. }
  intros key def. rewrite !getParam_ok, params_idem, E, find_enter_all by apply ordered_nil. done.
Qed.

Definition demo_form : HttpRequest :=
  setHeader (lit "Content-Type") (lit "Application/x-www-form-urlencoded; charset=utf8")
    (setBody (form 38 true [(lit "b", lit "x=y")]) (setQuery (form 38 true [(lit "a", lit "1 & 2"); (lit "A", lit "3")])
      (HttpRequest_new 17 false))).

Lemma form_parameters_witness :
  exists r', forall key def,
    getParam key def demo_form = (Ok (default def (first_value key ([(lit "a", lit "1 & 2"); (lit "A", lit "3")] ++ [(lit "b", lit "x=y")]))), r') /\
    getParam key def r' = (Ok (default def (first_value key ([(lit "a", lit "1 & 2"); (lit "A", lit "3")] ++ [(lit "b", lit "x=y")]))), r').
Proof.
  apply (form_parameters demo_form true); [done|done|by_computation|by_computation|by vm_compute|by vm_compute].
Defined.

(** The parts of a URI: a path, an optional query and an optional
    fragment that are put together are taken apart again, and a part that is
    missing leaves what an earlier URI has set; what [getUri] prints, a fresh
    request reads back.  A question mark in a fragment without a query is not
    understood: the path then ends at the question mark. *)
Theorem uri_parts r p q f :
  question ∉ p -> hash ∉ p -> hash ∉ q -> (q = [] -> question ∉ f) ->
  let r' := setUri (p ++ opt_part [question] q ++ opt_part [hash] f) r in
  m_path r' = p /\ m_query r' = (if bool_decide (q = []) then m_query r else q) /\
  m_fragment r' = (if bool_decide (f = []) then m_fragment r else f) /\
  (m_query r = [] -> m_fragment r = [] -> getUri r' = p ++ opt_part [question] q ++ opt_part [hash] f) /\
  (forall g, question ∉ g -> m_path (setUri (p ++ hash :: g ++ question :: q) r) = p ++ hash :: g).
Proof.
  intros Hp Hh Hq Hf. cbv zeta.
  assert (setUri (p ++ opt_part [question] q ++ opt_part [hash] f) r =
    (if bool_decide (f = []) then fun r => r else setFragment f)
      ((if bool_decide (q = []) then fun r => r else setQuery q) (setPath p r))) as ->.
  { unfold opt_part. do 2 case_bool_decide; subst; cbn [app].
    - rewrite app_nil_r. by apply setUri_path.
    - apply setUri_fragment; [|done]. rewrite elem_of_app, elem_of_cons. intros [?|[?|?]]; [done|done|by apply Hf].
    - rewrite app_nil_r. by apply setUri_query.
    - by apply setUri_all. }
  split_and!.
  - by destruct r; do 2 case_bool_decide.
  - by destruct r; do 2 case_bool_decide.
  - by destruct r; do 2 case_bool_decide.
  - intros Hrq Hrf. unfold getUri, opt_part. destruct r; cbn in *. subst. do 2 case_bool_decide; subst; cbn; rewrite ?bool_decide_eq_false_2 by done; done.
  - intros g Hn. unfold setUri.
    replace (p ++ hash :: g ++ question :: q) with ((p ++ hash :: g) ++ question :: q) by by rewrite <- app_assoc.
    rewrite find_char_app, substr_app.
    + destruct (find_char _ _ _); by destruct r.
    + rewrite elem_of_app, elem_of_cons. intros [?|[?|?]]; done.
Qed.

Lemma uri_parts_witness :
  let r' := setUri (lit "/a" ++ opt_part [question] (lit "x=1") ++ opt_part [hash] (lit "top")) (HttpRequest_new 17 true) in
  m_path r' = lit "/a" /\ m_query r' = lit "x=1" /\ m_fragment r' = lit "top".
Proof.
  destruct (uri_parts (HttpRequest_new 17 true) (lit "/a") (lit "x=1") (lit "top")) as (H1 & H2 & H3 & _);
    [by_computation|by_computation|by_computation|done|]. split_and!; [exact H1|exact H2|exact H3].
Defined.

(** paramToQuery writes values as they are: a value with an ampersand turns
    into a parameter of its own when the query is parsed. *)
Lemma param_injection :
  let r := paramToQuery (setParam (lit "name") (lit "x&admin=1") (HttpRequest_new 17 false)) in
  fst (getParam (lit "admin") [] (setQuery (m_query r) (HttpRequest_new 17 false))) = Ok (lit "1").
Proof. by vm_compute. Qed.
