(* ===== verification/HttpSession.v ===== *)
(** http/http_parser.cpp and http/http_session.cpp: receiving a request and
    sending a response.

    The state machine that ragel generates from http11_parser.rl is the class
    [HttpFsm]: it reports the elements it recognises by callbacks, which are
    the events here.  [HttpFsmLaws] is what the grammar says of the lines of a
    request.  [lexical_cast<size_t>] is a parameter, too. *)
From Stdlib Require Import List String.
From stdpp Require Import gmap.
From S2P Require Import Prelude Bytes Buffer ByteArray Stream Strings HttpMap Http.

(** ** The generated parser *)

(** [at_]: the text from the start of the element to the end of the buffer. *)
Inductive parse_event :=
  | EvMethod (at_ : list Z) (len : Z)
  | EvUri
  | EvPath (s : list Z)
  | EvQuery (s : list Z)
  | EvFragment (s : list Z)
  | EvVersion (at_ : list Z) (len : Z)
  | EvDone
  | EvField (field value : list Z).

Class HttpFsm (P : Type) := {
  http_parser_init : P;
  (** the events, [nread] and the new state *)
  http_parser_execute : P -> list Z -> (list parse_event * Z) * P;
  http_parser_has_error : P -> bool;
  http_parser_is_finished : P -> bool;
}.

(** [strncmp(a, b, n) == 0] for a literal [b] *)
Fixpoint strncmp_eq (a b : list Z) (n : nat) : bool :=
  match n with
  | O => true
  | S n => match a, b with
           | x :: a, y :: b => (x =? y) && ((x =? 0) || strncmp_eq a b n)
           | x :: _, [] => x =? 0
           | [], _ => false
           end
  end.

Section parser.
Context {P : Type} {Fsm : HttpFsm P}.

Record HttpRequestParser := mkParser { _parser : P; _request : HttpRequest; _errno : Z }.

Definition HttpRequestParser_new : HttpRequestParser := mkParser http_parser_init (HttpRequest_new 17 true) 0.

Definition SetErrno (e : Z) (p : HttpRequestParser) : HttpRequestParser := mkParser (_parser p) (_request p) e.
Definition on_request (f : HttpRequest -> HttpRequest) (p : HttpRequestParser) : HttpRequestParser :=
  mkParser (_parser p) (f (_request p)) (_errno p).

Definition on_request_method (at_ : list Z) (p : HttpRequestParser) : HttpRequestParser :=
  let mtd := CharsToHttpMethod at_ in
  let p := if bool_decide (mtd = INVALID_METHOD) then SetErrno 1000 p else p in
  on_request (setMethod mtd) p.

Definition on_request_path (s : list Z) (p : HttpRequestParser) : HttpRequestParser := on_request (setPath s) p.
Definition on_query_string (s : list Z) (p : HttpRequestParser) : HttpRequestParser := on_request (setQuery s) p.
Definition on_fragment (s : list Z) (p : HttpRequestParser) : HttpRequestParser := on_request (setFragment s) p.

Definition on_http_version (at_ : list Z) (len : Z) (p : HttpRequestParser) : HttpRequestParser :=
  if strncmp_eq at_ (lit "HTTP/1.1") (Z.to_nat len) then on_request (setVersion 17) p
  else if strncmp_eq at_ (lit "HTTP/1.0") (Z.to_nat len) then on_request (setVersion 16) p
  else on_request (setVersion 0) (SetErrno 1001 p).

Definition on_http_field (field value : list Z) (p : HttpRequestParser) : HttpRequestParser :=
  if bool_decide (field = []) then p else on_request (setHeader field value) p.

Definition callback (p : HttpRequestParser) (e : parse_event) : HttpRequestParser :=
  match e with
  | EvMethod a _ => on_request_method a p
  | EvPath s => on_request_path s p
  | EvQuery s => on_query_string s p
  | EvFragment s => on_fragment s p
  | EvVersion a n => on_http_version a n p
  | EvField k v => on_http_field k v p
  | EvUri | EvDone => p
  end.

(** [Execute(data, len, std_len)]: the first [std_len] bytes are parsed and
    what has been consumed is moved out of the buffer. *)
Definition Execute (data : list Z) (std_len : Z) (p : HttpRequestParser) : (Z * list Z) * HttpRequestParser :=
  let '((evs, n), fsm) := http_parser_execute (_parser p) (take (Z.to_nat std_len) data) in
  ((n, drop (Z.to_nat n) data), foldl callback (mkParser fsm (_request p) (_errno p)) evs).

Definition IsFinished (p : HttpRequestParser) : Z :=
  if http_parser_has_error (_parser p) then -1 else if http_parser_is_finished (_parser p) then 1 else 0.

Definition HasError (p : HttpRequestParser) : bool := negb (_errno p =? 0) || http_parser_has_error (_parser p).

Definition GetBodyLength (lexical_cast : list Z -> option Z) (p : HttpRequestParser) : Z :=
  getAs lexical_cast (m_headers (_request p)) (lit "content-length") 0.
End parser.
Arguments HttpRequestParser P : clear implicits.

(** The position after the last CRLF, or -1. *)
Fixpoint GetLastRN_loop (begin : list Z) (i : nat) : Z :=
  if is_prefix crlf (drop i begin) then Z.of_nat i + 2 else
  match i with O => -1 | S i => GetLastRN_loop begin i end.

Definition GetLastRN (begin : list Z) (len : Z) : Z :=
  if len <? 2 then -1 else GetLastRN_loop begin (Z.to_nat (len - 2)).

(** ** A session *)
Section session.
Context {St : Type} {SS : Stream St} {P : Type} {Fsm : HttpFsm P}.
Context (lexical_cast : list Z -> option Z).
(** the two limits of the configuration and the block size of the stream *)
Context (buffer_size max_body s_bufferSize : Z).

Definition fail {A} : M St (option A) := modify s_close;; mret None.

(** The loop over the head; [offset] bytes of the buffer hold [data]. *)
Fixpoint RecvHead (fuel : nat) (offset : Z) (data : list Z) (parser : HttpRequestParser P)
    : M St (option (HttpRequestParser P * (Z * list Z))) :=
  match fuel with
  | O => nofuel
  | S fuel =>
    '(r, bs) ← s_read (u32 (buffer_size - offset));
    let len := s32 r in
    if len <=? 0 then fail else
    let data := data ++ bs in
    let std_len := GetLastRN data (s32 (len + offset)) in
    if std_len <? 0 then RecvHead fuel (u32 (offset + len)) data parser else
    let '((nparse, data), parser) := Execute data std_len parser in
    if HasError parser then fail else
    let offset := u32 (offset + len - nparse) in
    if buffer_size <=? offset then fail else
    if IsFinished parser =? 1 then mret (Some (parser, (offset, data)))
    else RecvHead fuel offset data parser
  end.

Definition s_continue : list Z := lit "HTTP/1.1 100 Continue" ++ crlf ++ crlf.

Definition expects (r : HttpRequest) : bool := strcaseeq (getHeader (lit "Expect") [] r) (lit "100-continue").

(** The body: what the buffer still holds, then the stream. *)
Definition RecvBody (fuel : nat) (body_size offset : Z) (data : list Z) (req : HttpRequest) : M St (option HttpRequest) :=
  if 0 <? body_size then
    let copyed := if body_size <? offset then body_size else offset in
    let body := take (Z.to_nat copyed) data in
    let body_size := u32 (body_size - copyed) in
    if 0 <? body_size then
      '(ret, bs) ← ReadFixSize s_bufferSize fuel body_size;
      if ret <=? 0 then fail else mret (Some (setBody (body ++ bs) req))
    else mret (Some (setBody body req))
  else mret (Some req).

(** A method of the request, called by the session. *)
Definition on_req (m : M HttpRequest unit) (r : HttpRequest) : M St HttpRequest := fun s =>
  match m r with
  | (Ok _, r) => (Ok r, s)
  | (Throw e, _) => (Throw e, s)
  | (AssertFail, _) => (AssertFail, s)
  | (Undef u, _) => (Undef u, s)
  | (NoFuel, _) => (NoFuel, s)
  end.

(** After the head. *)
Definition RecvRest (fuel : nat) (parser : HttpRequestParser P) (offset : Z) (data : list Z) : M St (option HttpRequest) :=
  let body_size := u32 (GetBodyLength lexical_cast parser) in
  if max_body <? body_size then fail else
  let req := _request parser in
  ret ← (if expects req then WriteFixSize s_bufferSize fuel s_continue else mret 1);
  if ret <=? 0 then fail else
  let req := if expects req then delHeader (lit "Expect") req else req in
  r ← RecvBody fuel body_size offset data req;
  match r with
  | None => mret None
  | Some req => req ← on_req initParam (init req); mret (Some req)
  end.

Definition RecvRequest (fuel : nat) : M St (option HttpRequest) :=
  h ← RecvHead fuel 0 [] HttpRequestParser_new;
  match h with
  | None => mret None
  | Some (parser, (offset, data)) => RecvRest fuel parser offset data
  end.

Definition SendResponse (fuel : nat) (r : HttpResponse.HttpResponse) : M St Z :=
  ret ← WriteFixSize s_bufferSize fuel (HttpResponse.response_dump r);
  mret (s32 ret).

End session.

(** ** What the grammar says of a request *)
Definition is_upper (c : Z) : bool := (65 <=? c) && (c <=? 90).
Definition is_alpha (c : Z) : bool := is_upper c || ((97 <=? c) && (c <=? 122)).
Definition is_digit (c : Z) : bool := (48 <=? c) && (c <=? 57).

(** Method = ( upper | digit ){1,20} *)
Definition method_token (m : list Z) : bool :=
  (1 <=? zlen m) && (zlen m <=? 20) && forallb (fun c => is_upper c || is_digit c) m.

(** pchar without pct_encoded: unreserved, sub_delims, [:], [@] and what is
    not ASCII *)
Definition pchar (c : Z) : bool :=
  is_alpha c || is_digit c || ((128 <=? c) && (c <=? 255)) || one_of (lit "-._~!$&'()*+,;=:@") c.

(** ( pchar | extra )*, with percent-encoded bytes *)
Fixpoint uri_text (extra : list Z) (s : list Z) : bool :=
  match s with
  | [] => true
  | c :: s1 =>
    if c =? 37 then match s1 with h1 :: h2 :: s3 => isxdigit h1 && isxdigit h2 && uri_text extra s3 | _ => false end
    else (pchar c || one_of extra c) && uri_text extra s1
  end.

(** path_absolute *)
Definition path_absolute (p : list Z) : bool :=
  head_in (is_char 47) p && negb (head_in (is_char 47) (drop 1 p)) && uri_text [47] p.
Definition query_text (q : list Z) : bool := uri_text [47; 63] q.

Definition is_token (c : Z) : bool :=
  (33 <=? c) && (c <=? 126) && negb (one_of (lit "()<>@,;:\/[]?={}" ++ [34]) c).
Definition field_name (k : list Z) : bool := negb (bool_decide (k = [])) && forallb is_token k.

(** A value that starts with a visible character. *)
Definition is_content (c : Z) : bool := (32 <=? c) && (c <=? 255) && negb (c =? 127).
Definition field_value (v : list Z) : bool :=
  negb (bool_decide (v = [])) && negb (head_in (is_char 32) v) && forallb is_content v.

(** The request line and the events it causes, with [rest] behind it. *)
Definition request_line (m path q f : list Z) (minor : Z) : list Z :=
  m ++ lit " " ++ path ++ opt_part [question] q ++ opt_part [hash] f ++ lit " " ++ lit "HTTP/1." ++ [minor] ++ crlf.

Definition opt_event (e : list Z -> parse_event) (s : list Z) : list parse_event := if bool_decide (s = []) then [] else [e s].

Definition line_events (m path q f : list Z) (minor : Z) (rest : list Z) : list parse_event :=
  [EvMethod (request_line m path q f minor ++ rest) (zlen m); EvPath path] ++ opt_event EvQuery q ++ [EvUri] ++
  opt_event EvFragment f ++ [EvVersion (lit "HTTP/1." ++ [minor] ++ crlf ++ rest) 8].

(** Consuming [n] bytes with [evs] before a run. *)
Definition after {P} (evs : list parse_event) (n : Z) (r : (list parse_event * Z) * P) : (list parse_event * Z) * P :=
  ((evs ++ r.1.1, n + r.1.2), r.2).

Class HttpFsmLaws (P : Type) `{HttpFsm P} := {
  (** between two header lines, and behind the empty line *)
  at_header : P;
  at_end : P;
  fsm_request_line m path q f minor rest :
    method_token m = true -> path_absolute path = true -> query_text q = true -> query_text f = true -> minor ∈ [48; 49] ->
    http_parser_execute http_parser_init (request_line m path q f minor ++ rest) =
    after (line_events m path q f minor rest) (zlen (request_line m path q f minor)) (http_parser_execute at_header rest);
  fsm_header k v rest : field_name k = true -> field_value v = true ->
    http_parser_execute at_header (header_line (k, v) ++ rest) =
    after [EvField k v] (zlen (header_line (k, v))) (http_parser_execute at_header rest);
  fsm_end rest : http_parser_execute at_header (crlf ++ rest) = (([EvDone], 2), at_end);
  fsm_empty p : http_parser_execute p [] = (([], 0), p);
  fsm_nread p text : 0 <= (http_parser_execute p text).1.2 <= zlen text;
  header_flags : http_parser_has_error at_header = false /\ http_parser_is_finished at_header = false;
  end_flags : http_parser_has_error at_end = false /\ http_parser_is_finished at_end = true;
}.

(** ** Finding the last CRLF *)
Definition no_crlf (l : list Z) : Prop := forall i, is_prefix crlf (drop i l) = false.

Lemma is_prefix_crlf l : is_prefix crlf l = true <-> exists r, l = crlf ++ r.
Proof.
  split; [|intros [r ->]; done]. destruct l as [|x [|y r]]; cbn [is_prefix crlf]; try done; [by rewrite andb_false_r|].
  rewrite andb_true_r, andb_true_iff, !Z.eqb_eq. intros [<- <-]. by exists r.
Qed.

Lemma no_crlf_tail i l : no_crlf l -> no_crlf (drop i l).
Proof. intros H j. rewrite drop_drop. apply H. Qed.

Lemma no_crlf_nil : no_crlf [].
Proof. intros i. by rewrite drop_nil. Qed.

Lemma GetLastRN_loop_ok l i : (forall j, (i < j)%nat -> is_prefix crlf (drop j l) = false) ->
  (GetLastRN_loop l i = -1 /\ no_crlf l) \/
  (exists a c, l = a ++ crlf ++ c /\ GetLastRN_loop l i = zlen (a ++ crlf) /\ no_crlf c).
Proof.
  revert i. induction i as [|i IH]; intros Hj; cbn [GetLastRN_loop].
  - destruct (is_prefix crlf (drop 0 l)) eqn:E.
    + right. apply is_prefix_crlf in E as [r E]. rewrite drop_0 in E. exists [], r. split_and!; [done|done|].
      intros k. specialize (Hj (2 + k)%nat ltac:(lia)). by rewrite E in Hj.
    + left. split; [done|]. intros [|k]; [done|]. apply Hj. lia.
  - destruct (is_prefix crlf (drop (S i) l)) eqn:E.
    + right. apply is_prefix_crlf in E as [r E]. exists (take (S i) l), r.
      assert (length (take (S i) l) = S i) as Hl.
      { apply (f_equal length) in E. rewrite length_drop in E. cbn in E. rewrite length_take. lia. }
      split_and!.
      * rewrite <- E. by rewrite take_drop.
      * rewrite length_app, Hl. cbn [length crlf]. lia.
      * intros k. specialize (Hj (S i + (2 + k))%nat ltac:(lia)). by rewrite <- drop_drop, E in Hj.
    + apply IH. intros j Hij. destruct (decide (j = S i)) as [->|]; [done|]. apply Hj. lia.
Qed.

Lemma drop_prefix_short (l : list Z) i : (length l < i + 2)%nat -> is_prefix crlf (drop i l) = false.
Proof.
  intros Hl. destruct (is_prefix crlf (drop i l)) eqn:E; [|done].
  apply is_prefix_crlf in E as [r E]. apply (f_equal length) in E. rewrite length_drop in E. cbn in E. lia.
Qed.

Lemma GetLastRN_ok l :
  (GetLastRN l (zlen l) = -1 /\ no_crlf l) \/
  (exists a c, l = a ++ crlf ++ c /\ GetLastRN l (zlen l) = zlen (a ++ crlf) /\ no_crlf c).
Proof.
  unfold GetLastRN. destruct (Z.ltb_spec (zlen l) 2).
  - left. split; [done|]. intros i. apply drop_prefix_short. lia.
  - apply GetLastRN_loop_ok. intros j Hj. apply drop_prefix_short. lia.
Qed.

(** ** Lines *)
Definition proper (l : list Z) : Prop := exists b, l = b ++ crlf /\ 13 ∉ b.

Lemma proper_crlf : proper crlf.
Proof. exists []. split; [done|]. apply not_elem_of_nil. Qed.

Lemma split_cr b : forall a y z, 13 ∉ b -> a ++ 13 :: y = b ++ 13 :: z ->
  (a = b /\ y = z) \/ exists a', a = b ++ 13 :: a' /\ a' ++ 13 :: y = z.
Proof.
  induction b as [|x b IH]; intros a y z Hb E.
  - destruct a as [|c a]; injection E as; [by left|]. right. subst. by exists a.
  - apply not_elem_of_cons in Hb as [Hx Hb]. destruct a as [|c a]; cbn [app] in E; [congruence|].
    injection E as -> E. destruct (IH _ _ _ Hb E) as [[-> ->]|(a' & -> & <-)]; [by left|right]. by exists a'.
Qed.

(** A text that ends with CRLF inside the lines ends with one of them, or
    behind the empty line. *)
Lemma lines_cut L : Forall proper L -> forall a y tail, a ++ crlf ++ y = concat L ++ crlf ++ tail ->
  (exists L1 L2, L = L1 ++ L2 /\ L1 <> [] /\ a ++ crlf = concat L1) \/
  (exists x, a ++ crlf = concat L ++ crlf ++ x).
Proof.
  intros HL. induction HL as [|l L (b & -> & Hb) HL IH]; intros a y tail E; cbn [concat app crlf] in E.
  - destruct a as [|c a]; cbn [app] in E; injection E as; [right; by exists []|]. subst c.
    destruct a as [|c a]; cbn [app] in *; [done|]. injection H0 as -> _. right. exists (a ++ crlf). done.
  - rewrite <- !app_assoc in E. cbn [app] in E.
    destruct (split_cr b _ _ _ Hb E) as [[-> Ey]|(a' & -> & Ey)].
    + left. exists [b ++ crlf], L. split_and!; [done|done|]. cbn [concat]. by rewrite app_nil_r.
    + destruct a' as [|c a']; [done|]. injection Ey as -> Ey. destruct (IH a' y tail Ey) as [(L1 & L2 & -> & _ & E1)|(x & E1)].
      * left. exists ((b ++ crlf) :: L1), L2. split_and!; [done|done|]. cbn [concat]. rewrite <- E1, <- !app_assoc. done.
      * right. exists x. cbn [concat]. rewrite <- !app_assoc, <- E1. done.
Qed.

(** Text without CRLF is shorter than the first line. *)
Lemma no_crlf_short data rest b r : no_crlf data -> data ++ rest = b ++ crlf ++ r -> (length data < length b + 2)%nat.
Proof.
  intros Hn E. destruct (Nat.le_gt_cases (length b + 2) (length data)) as [Hle|]; [|done].
  specialize (Hn (length b)). apply not_true_iff_false in Hn. destruct Hn. apply is_prefix_crlf.
  apply (f_equal (drop (length b))) in E. rewrite drop_app_length, drop_app_le in E by lia.
  assert (length (drop (length b) data) >= 2)%nat by (rewrite length_drop; lia).
  destruct (drop (length b) data) as [|x [|z d]]; cbn in *; try lia. injection E as -> -> _. by exists d.
Qed.

(** ** The parser over lines *)
Section lines.
Context {P : Type} {Fsm : HttpFsm P} {FL : HttpFsmLaws P}.

(** [Execute] on the text alone. *)
Definition run_text (p : HttpRequestParser P) (text : list Z) : Z * HttpRequestParser P :=
  let '((evs, n), fsm) := http_parser_execute (_parser p) text in
  (n, foldl callback (mkParser fsm (_request p) (_errno p)) evs).

Lemma Execute_run data std_len p :
  Execute data std_len p =
  let r := run_text p (take (Z.to_nat std_len) data) in ((r.1, drop (Z.to_nat r.1) data), r.2).
Proof. unfold Execute, run_text. by destruct (http_parser_execute _ _) as [[evs n] fsm]. Qed.

Definition running (p : HttpRequestParser P) : Prop := HasError p = false /\ IsFinished p = 0.

(** [p] consumes the line and goes on as [p']. *)
Definition consumes (p : HttpRequestParser P) (line : list Z) (p' : HttpRequestParser P) : Prop :=
  forall rest, run_text p (line ++ rest) = (zlen line + (run_text p' rest).1, (run_text p' rest).2).

Inductive chain : HttpRequestParser P -> list (list Z) -> HttpRequestParser P -> Prop :=
  | chain_nil p : chain p [] p
  | chain_cons p l p1 L p2 : consumes p l p1 -> running p1 -> proper l -> chain p1 L p2 -> chain p (l :: L) p2.

Lemma chain_app p L1 : forall L2 p2, chain p (L1 ++ L2) p2 <-> exists p1, chain p L1 p1 /\ chain p1 L2 p2.
Proof.
  revert p. induction L1 as [|l L1 IH]; intros p L2 p2; cbn [app].
  - split; [intros H; exists p; split; [constructor|done]|]. by intros (p1 & H1 & H2); inversion H1; subst.
  - split.
    + intros H. inversion H as [|? ? p0 ? ? Hc Hr Hp Hch]; subst. apply IH in Hch as (p1 & H1 & H2).
      exists p1. split; [by econstructor|done].
    + intros (p1 & H1 & H2). inversion H1 as [|? ? p0 ? ? Hc Hr Hp Hch]; subst.
      econstructor; [done..|]. apply IH. by exists p1.
Qed.

Lemma chain_proper p L p' : chain p L p' -> Forall proper L.
Proof. induction 1; by constructor. Qed.

Lemma chain_running p L p' : chain p L p' -> L <> [] -> running p'.
Proof.
  induction 1 as [|p l p1 L p2 _ Hr _ Hch IH]; [done|]. intros _. destruct L; [by inversion Hch; subst|by apply IH].
Qed.

Lemma chain_run p L p' rest : chain p L p' ->
  run_text p (concat L ++ rest) = (zlen (concat L) + (run_text p' rest).1, (run_text p' rest).2).
Proof.
  induction 1 as [p|p l p1 L p2 Hc _ _ _ IH].
  - cbn [concat app]. by destruct (run_text p rest).
  - cbn [concat]. rewrite <- app_assoc, Hc, IH, length_app. cbn. f_equal. lia.
Qed.

Lemma run_nil p : run_text p [] = (0, p).
Proof. unfold run_text. rewrite fsm_empty. by destruct p. Qed.

(** The parser behind the request line and behind headers. *)
Definition parsing (r : HttpRequest) : HttpRequestParser P := mkParser at_header r 0.
Definition parsed_head (r : HttpRequest) : HttpRequestParser P := mkParser at_end r 0.

Lemma parsing_running r : running (parsing r).
Proof.
  destruct header_flags as [He Hf]. unfold running, HasError, IsFinished. cbn. by rewrite He, Hf.
Qed.

Lemma run_end r rest : run_text (parsing r) (crlf ++ rest) = (2, parsed_head r).
Proof. unfold run_text. cbn [_parser parsing]. by rewrite fsm_end. Qed.

Lemma end_state r : HasError (parsed_head r) = false /\ IsFinished (parsed_head r) = 1.
Proof. destruct end_flags as [He Hf]. unfold HasError, IsFinished. cbn. by rewrite He, Hf. Qed.

(** No control character is a CR. *)
Lemma forallb_not (f : Z -> bool) c s : f c = false -> forallb f s = true -> c ∉ s.
Proof. intros Hf Hs Hin. rewrite forallb_forall in Hs. apply list_elem_of_In, Hs in Hin. congruence. Qed.

Lemma header_proper k v : field_name k = true -> field_value v = true -> proper (header_line (k, v)).
Proof.
  unfold field_name, field_value. rewrite !andb_true_iff. intros [_ Hk] [_ Hv].
  exists (k ++ lit ": " ++ v). split; [unfold header_line; cbn; by rewrite <- !app_assoc|].
  rewrite !elem_of_app. intros [H|[H|H]].
  - revert H. apply (forallb_not is_token); [by vm_compute|done].
  - by revert H; apply (bool_decide_unpack (13 ∉ lit ": ")); vm_compute.
  - revert H. apply (forallb_not is_content); [by vm_compute|done].
Qed.

Lemma header_consumed r k v : field_name k = true -> field_value v = true ->
  consumes (parsing r) (header_line (k, v)) (parsing (setHeader k v r)).
Proof.
  intros Hk Hv rest. unfold run_text. cbn [_parser parsing _request _errno]. rewrite fsm_header by done.
  destruct (http_parser_execute at_header rest) as [[evs n] fsm]. unfold after. cbn [fst snd app foldl].
  unfold callback at 2, on_http_field. rewrite bool_decide_eq_false_2; [done|]. intros ->. done.
Qed.

(** Headers one after the other. *)
Definition with_headers (l : list (list Z * list Z)) (r : HttpRequest) : HttpRequest :=
  foldl (fun r e => setHeader e.1 e.2 r) r l.

Lemma headers_chain l : forall r, Forall (fun e => field_name e.1 = true /\ field_value e.2 = true) l ->
  chain (parsing r) (map header_line l) (parsing (with_headers l r)).
Proof.
  induction l as [|[k v] l IH]; intros r Hl; cbn [map]; [constructor|].
  inversion Hl as [|? ? [Hk Hv] Hl']; subst. econstructor; [by apply header_consumed|apply parsing_running|by apply header_proper|].
  by apply IH.
Qed.

(** *** The request line *)
Lemma uri_text_no_cr extra s : 13 ∉ extra -> uri_text extra s = true -> 13 ∉ s.
Proof.
  intros He. assert (forall n s, (length s <= n)%nat -> uri_text extra s = true -> 13 ∉ s) as H; [|by apply (H (length s))].
  clear s. induction n as [|n IH]; intros [|c s] Hl; cbn [length] in Hl; try (intros _; apply not_elem_of_nil); [lia|].
  cbn [uri_text]. rewrite not_elem_of_cons. destruct (Z.eqb_spec c 37) as [->|Hc].
  - destruct s as [|h1 [|h2 s]]; try done. rewrite !andb_true_iff. intros [[H1 H2] H]. rewrite !not_elem_of_cons.
    split_and!; [done|by intros <-|by intros <-|]. apply IH; [cbn in Hl; lia|done].
  - rewrite andb_true_iff. intros [Hp H]. split; [|apply IH; [lia|done]]. intros <-.
    apply orb_true_iff in Hp as [Hp|Hp]; [done|]. apply bool_decide_eq_true in Hp. done.
Qed.

Lemma opt_part_no_cr m s : 13 ∉ m -> 13 ∉ s -> 13 ∉ opt_part m s.
Proof. intros Hm Hs. unfold opt_part. case_bool_decide; [apply not_elem_of_nil|]. rewrite elem_of_app. tauto. Qed.

Lemma request_line_proper m path q f minor :
  method_token m = true -> path_absolute path = true -> query_text q = true -> query_text f = true -> minor ∈ [48; 49] ->
  proper (request_line m path q f minor).
Proof.
  unfold method_token, path_absolute. rewrite !andb_true_iff. intros [_ Hm] [_ Hp] Hq Hf Hmi.
  exists (m ++ lit " " ++ path ++ opt_part [question] q ++ opt_part [hash] f ++ lit " " ++ lit "HTTP/1." ++ [minor]).
  split; [unfold request_line; by rewrite <- !app_assoc|].
  assert (13 ∉ m) by by apply (forallb_not (fun c => is_upper c || is_digit c)).
  assert (13 ∉ path) by (eapply uri_text_no_cr; [|done]; by_computation).
  assert (13 ∉ opt_part [question] q) by (apply opt_part_no_cr; [by_computation|]; eapply uri_text_no_cr; [|done]; by_computation).
  assert (13 ∉ opt_part [hash] f) by (apply opt_part_no_cr; [by_computation|]; eapply uri_text_no_cr; [|done]; by_computation).
  assert (13 ∉ lit " ") by by_computation. assert (13 ∉ lit "HTTP/1.") by by_computation.
  assert (13 ∉ [minor]) by (revert Hmi; rewrite !elem_of_cons, !elem_of_nil; intros [->|[->|[]]]; by intros [|]).
  rewrite !elem_of_app. tauto.
Qed.

(** Every method but two is found again by its name. *)
Lemma method_found mtd rest : mtd <> MSEARCH -> mtd <> INVALID_METHOD ->
  method_token (HttpMethodToString mtd) = true /\ CharsToHttpMethod (HttpMethodToString mtd ++ lit " " ++ rest) = mtd.
Proof. intros H1 H2. destruct mtd; try done; split; vm_compute; reflexivity. Qed.

(** The version behind its text. *)
Definition version_of (minor : Z) : Z := if minor =? 49 then 17 else 16.

Definition head_request (mtd : HttpMethod) (minor : Z) (path q f : list Z) : HttpRequest :=
  mkRequest mtd (version_of minor) true false 0 0 path q f [] [] [] [].

Lemma request_line_consumed mtd path q f minor :
  mtd <> MSEARCH -> mtd <> INVALID_METHOD -> path_absolute path = true -> query_text q = true -> query_text f = true ->
  minor ∈ [48; 49] ->
  consumes HttpRequestParser_new (request_line (HttpMethodToString mtd) path q f minor) (parsing (head_request mtd minor path q f)).
Proof.
  intros H1 H2 Hp Hq Hf Hm rest. destruct (method_found mtd [] H1 H2) as [Ht _].
  unfold run_text. cbn [_parser HttpRequestParser_new]. rewrite fsm_request_line by done.
  destruct (http_parser_execute at_header rest) as [[evs n] fsm] eqn:E. unfold after. cbn [fst snd _parser parsing].
  rewrite E. cbn [fst snd]. rewrite foldl_app. do 2 f_equal.
  unfold line_events. rewrite !foldl_app. cbn [foldl callback].
  assert (CharsToHttpMethod (request_line (HttpMethodToString mtd) path q f minor ++ rest) = mtd) as Em.
  { unfold request_line. rewrite <- !app_assoc. apply (method_found mtd _ H1 H2). }
  unfold on_request_method. rewrite Em, bool_decide_eq_false_2 by done. unfold opt_event. clear Em.
  revert Hm. rewrite !elem_of_cons, elem_of_nil. intros [->|[->|[]]]; do 2 case_bool_decide; subst; done.
Qed.
End lines.

(** ** The loop over the head *)
Section head.
Context {St : Type} {SS : Stream St} {Mach : Machine} {SL : StreamLaws St}.
Context {P : Type} {Fsm : HttpFsm P} {FL : HttpFsmLaws P}.
Context (buffer_size : Z) (Hbuf : 0 < buffer_size < 2 ^ 31).

(** The first of the lines that are left, and what follows it. *)
Lemma first_line L tail : Forall proper L -> Forall (fun l => zlen l <= buffer_size) L -> 2 <= buffer_size ->
  exists b r, concat L ++ crlf ++ tail = b ++ crlf ++ r /\ zlen b + 2 <= buffer_size.
Proof.
  intros HL Hle H2. destruct HL as [|l L (b & -> & _) _].
  - exists [], tail. by split.
  - inversion Hle; subst. exists b, (concat L ++ crlf ++ tail). rewrite length_app in *. cbn [concat length crlf] in *.
    split; [by rewrite <- !app_assoc|lia].
Qed.

Lemma RecvHead_ok fuel : forall L p r offset data tail s,
  chain p L (parsing r) -> Forall (fun l => zlen l <= buffer_size) L -> 2 <= buffer_size ->
  data ++ sin s = concat L ++ crlf ++ tail -> no_crlf data -> offset = zlen data -> (length (sin s) < fuel)%nat ->
  exists data' s', RecvHead buffer_size fuel offset data p s = (Ok (Some (parsed_head r, (zlen data', data'))), s') /\
    data' ++ sin s' = tail /\ zlen data' < buffer_size /\ sout s' = sout s /\ sspace s' = sspace s.
Proof.
  induction fuel as [|fuel IH]; intros L p r offset data tail s Hch Hle H2 Hin Hno -> Hf; [lia|].
  pose proof (chain_proper _ _ _ Hch) as Hprop.
  destruct (first_line L tail Hprop Hle H2) as (b & rr & Eb & Hb).
  assert (zlen data < zlen b + 2) as Hd by (rewrite Eb in Hin; pose proof (no_crlf_short _ _ _ _ Hno Hin); lia).
  assert (sin s <> []) as Hne.
  { intros E. rewrite E, app_nil_r, Eb in Hin. subst data. rewrite !length_app in Hd. cbn in Hd. lia. }
  cbn [RecvHead]. rewrite (uwrap_id 32 (buffer_size - zlen data)) by (unfold in_u; lia).
  destruct (s_read_data (buffer_size - zlen data) s ltac:(lia) Hne) as (bs & s1 & Er & Hbs & Hin1 & Ho1 & Hsp1).
  step Er. rewrite swrap_id by (unfold in_s; lia). rewrite (proj2 (Z.leb_gt _ _)) by lia.
  rewrite Hin1, app_assoc in Hin. set (data1 := data ++ bs) in *.
  assert (zlen data1 = zlen data + zlen bs) as Hl1 by (unfold data1; rewrite length_app; lia).
  assert (length (sin s1) < fuel)%nat as Hf1 by (rewrite Hin1, length_app in Hf; lia).
  rewrite swrap_id by (unfold in_s; lia). replace (zlen bs + zlen data) with (zlen data1) by lia.
  destruct (GetLastRN_ok data1) as [[Eg Hno1]|(a & c & Ed & Eg & Hnoc)]; rewrite Eg.
  - rewrite (proj2 (Z.ltb_lt _ _)) by lia. rewrite uwrap_id by (unfold in_u; lia).
    destruct (IH L p r (zlen data + zlen bs) data1 tail s1) as (data' & s' & E & H); try done.
    exists data', s'. rewrite E. destruct H as (? & ? & ? & ?). split_and!; (done || congruence).
  - rewrite (proj2 (Z.ltb_ge _ _)) by lia.
    assert (zlen a + 2 + zlen c = zlen data1) as Hlen by (rewrite Ed, !length_app; cbn [length crlf]; lia).
    rewrite Execute_run. cbn [fst snd]. rewrite Ed, (app_assoc a), Nat2Z.id, take_app_length.
    rewrite Ed, <- !app_assoc in Hin. destruct (lines_cut L Hprop _ _ _ Hin) as [(L1 & L2 & -> & Hne1 & Ea)|(x & Ea)].
    + apply chain_app in Hch as (p1 & Hc1 & Hc2). apply Forall_app in Hle as [_ Hle2].
      rewrite Ea, <- (app_nil_r (concat L1)), (chain_run _ _ _ [] Hc1), run_nil. cbn [fst snd]. rewrite app_nil_r, Z.add_0_r.
      destruct (chain_running _ _ _ Hc1 Hne1) as [He Hfin]. rewrite He, Hfin.
      rewrite Nat2Z.id, drop_app_length. rewrite <- Ea.
      replace (zlen data + zlen bs - zlen (a ++ crlf)) with (zlen c) by (rewrite length_app; cbn [length crlf]; lia).
      rewrite uwrap_id by (unfold in_u; lia). rewrite (proj2 (Z.leb_gt _ _)) by lia. cbn [Z.eqb].
      rewrite concat_app, (app_assoc a), Ea, <- app_assoc in Hin. apply app_inv_head in Hin.
      destruct (IH L2 p1 r (zlen c) c tail s1) as (data' & s' & E & H); try done.
      exists data', s'. rewrite E. destruct H as (? & ? & ? & ?). split_and!; (done || congruence).
    + rewrite Ea. rewrite (chain_run _ _ _ (crlf ++ x) Hch), run_end. cbn [fst snd].
      destruct (end_state (P:=P) r) as [He Hfin]. rewrite He, Hfin.
      assert (zlen a + 2 = zlen (concat L) + 2 + zlen x) as Hlx.
      { apply (f_equal length) in Ea. rewrite !length_app in Ea. cbn [length crlf] in Ea. lia. }
      replace (drop _ _) with (x ++ c).
      2: { replace (Z.to_nat (zlen (concat L) + 2)) with (length (concat L ++ crlf)) by (rewrite length_app; cbn [length crlf]; lia).
           rewrite app_assoc, <- app_assoc. by rewrite drop_app_length. }
      replace (zlen data + zlen bs - (zlen (concat L) + 2)) with (zlen (x ++ c)) by (rewrite length_app; lia).
      rewrite uwrap_id by (unfold in_u; rewrite length_app; lia).
      rewrite (proj2 (Z.leb_gt _ _)) by (rewrite length_app; lia). cbn [Z.eqb Pos.eqb].
      exists (x ++ c), s1. split_and!; [done| |rewrite length_app; lia|done|done].
      rewrite (app_assoc a), Ea, <- !app_assoc in Hin. apply app_inv_head, app_inv_head in Hin. by rewrite <- app_assoc.
Qed.
End head.

(** ** A request on the wire *)

(** The header lines of a request's text. *)
Definition wire_headers (r : HttpRequest) : list (list Z * list Z) :=
  (if m_websocket r then [] else [(lit "connection", if m_close r then lit "close" else lit "keep-alive")]) ++
  filter (fun e => dumped (m_websocket r) e = true) (m_headers r) ++
  (if bool_decide (m_body r = []) then [] else [(lit "content-length", dec (zlen (m_body r)))]).

Definition minor_of (r : HttpRequest) : Z := if m_version r =? 17 then 49 else 48.

Definition wire_line (r : HttpRequest) : list Z :=
  request_line (HttpMethodToString (m_method r)) (m_path r) (m_query r) (m_fragment r) (minor_of r).

(** A request whose text the grammar admits, with lines that fit the buffer. *)
Record sendable (buffer_size max_body : Z) (r : HttpRequest) : Prop := {
  sd_method : m_method r <> MSEARCH /\ m_method r <> INVALID_METHOD;
  sd_version : m_version r ∈ [17; 16];
  sd_path : path_absolute (m_path r) = true;
  sd_query : query_text (m_query r) = true;
  sd_fragment : query_text (m_fragment r) = true;
  sd_ordered : ordered (m_headers r);
  sd_fields : Forall (fun e => dumped (m_websocket r) e = true -> field_name e.1 = true /\ field_value e.2 = true) (m_headers r);
  sd_lines : Forall (fun l => zlen l <= buffer_size) (wire_line r :: map header_line (wire_headers r));
  sd_body : zlen (m_body r) <= max_body;
}.

Lemma bind_concat {A} (f : A -> list Z) l : l ≫= f = concat (map f l).
Proof. induction l as [|x l IH]; [done|]. cbn [mbind list_bind map concat]. by rewrite <- IH. Qed.

Lemma dump_lines r : m_version r ∈ [17; 16] ->
  request_dump r = concat (wire_line r :: map header_line (wire_headers r)) ++ crlf ++ m_body r.
Proof.
  intros Hv. unfold request_dump.
  assert (version_text (m_version r) = lit "HTTP/1." ++ [minor_of r]) as ->.
  { unfold minor_of. revert Hv. rewrite !elem_of_cons, elem_of_nil. intros [->|[->|[]]]; by vm_compute. }
  assert ((if m_websocket r then [] else connection_line (m_close r)) = concat (map header_line
    (if m_websocket r then [] else [(lit "connection", if m_close r then lit "close" else lit "keep-alive")]))) as ->.
  { destruct (m_websocket r); [done|]. by destruct (m_close r). }
  assert ((if bool_decide (m_body r = []) then crlf
    else lit "content-length: " ++ dec (zlen (m_body r)) ++ crlf ++ crlf ++ m_body r) = concat (map header_line
    (if bool_decide (m_body r = []) then [] else [(lit "content-length", dec (zlen (m_body r)))])) ++ crlf ++ m_body r) as ->.
  { case_bool_decide as E; [by rewrite E|]. cbn [map concat]. unfold header_line. cbn [fst snd].
    by rewrite app_nil_r, <- !app_assoc. }
  rewrite bind_concat. unfold wire_line, wire_headers, request_line. cbn [concat].
  by rewrite !map_app, !concat_app, <- !app_assoc.
Qed.

(** Digits. *)
Lemma dec_loop_digits fuel : forall n acc, 0 <= n -> forallb is_digit acc = true -> (acc <> [] \/ (0 < fuel)%nat) ->
  forallb is_digit (dec_loop fuel n acc) = true /\ dec_loop fuel n acc <> [].
Proof.
  induction fuel as [|fuel IH]; intros n acc Hn Ha Hne; cbn [dec_loop]; [split; [done|destruct Hne; (done || lia)]|].
  destruct (Z.ltb_spec n 10).
  - split; [|done]. cbn [forallb]. rewrite Ha, andb_true_r. unfold is_digit. rewrite andb_true_iff, !Z.leb_le. lia.
  - apply IH; [apply Z.div_pos; lia| |by left]. cbn [forallb]. rewrite Ha, andb_true_r.
    pose proof (Z.mod_pos_bound n 10). unfold is_digit. rewrite andb_true_iff, !Z.leb_le. lia.
Qed.

Lemma digits_value s : forallb is_digit s = true -> s <> [] -> field_value s = true.
Proof.
  intros Hs Hne. unfold field_value. rewrite bool_decide_eq_false_2 by done. cbn [negb andb].
  rewrite andb_true_iff. split.
  - destruct s as [|c s]; [done|]. cbn [forallb head_in] in *. unfold is_char. apply andb_true_iff in Hs as [Hc _].
    unfold is_digit in Hc. rewrite andb_true_iff, !Z.leb_le in Hc. rewrite (proj2 (Z.eqb_neq _ _)) by lia. done.
  - rewrite forallb_forall in *. intros c Hc%Hs. unfold is_digit in Hc. unfold is_content.
    rewrite andb_true_iff, !Z.leb_le in Hc. rewrite !andb_true_iff, !Z.leb_le, negb_true_iff, Z.eqb_neq. lia.
Qed.

Lemma dec_value n : 0 <= n -> field_value (dec n) = true.
Proof. intros Hn. destruct (dec_loop_digits 20 n []) as [H1 H2]; [done|done|right; lia|]. by apply digits_value. Qed.

Lemma wire_headers_ok b x r : sendable b x r -> Forall (fun e => field_name e.1 = true /\ field_value e.2 = true) (wire_headers r).
Proof.
  intros H. unfold wire_headers. rewrite !Forall_app. split_and!.
  - destruct (m_websocket r); [constructor|]. constructor; [|constructor]. by destruct (m_close r); vm_compute.
  - pose proof (sd_fields _ _ _ H) as Hf. rewrite list.Forall_forall in Hf |- *. intros e [He Hin]%list_elem_of_filter. by apply Hf.
  - case_bool_decide; constructor; [|constructor]. split; [by vm_compute|]. apply dec_value. lia.
Qed.

(** *** The headers the server sees *)
Fixpoint last_value (key : list Z) (l : list (list Z * list Z)) : option (list Z) :=
  match l with
  | [] => None
  | (k, v) :: l => match last_value key l with
                   | Some w => Some w
                   | None => if decide (folded key = folded k) then Some v else None
                   end
  end.

Lemma last_value_app key l1 l2 :
  last_value key (l1 ++ l2) = match last_value key l2 with Some v => Some v | None => last_value key l1 end.
Proof.
  induction l1 as [|[k v] l1 IH]; cbn [app last_value]; [by destruct (last_value key l2)|].
  rewrite IH. by destruct (last_value key l2).
Qed.

Lemma with_headers_find l key : forall r, ordered (m_headers r) ->
  ordered (m_headers (with_headers l r)) /\
  map_find key (m_headers (with_headers l r)) =
  match last_value key l with Some v => Some v | None => map_find key (m_headers r) end.
Proof.
  induction l as [|[k v] l IH]; intros r Hr; [done|]. cbn [last_value].
  change (with_headers ((k, v) :: l) r) with (with_headers l (setHeader k v r)).
  assert (m_headers (setHeader k v r) = map_set k v (m_headers r)) as E by by destruct r.
  destruct (IH (setHeader k v r)) as [Ho Hf]; [rewrite E; auto with xten|]. split; [done|].
  rewrite Hf, E, find_set by done. destruct (last_value key l); [done|]. by case_decide.
Qed.

(** Headers that are not written by the dump itself. *)
Definition kept (ws : bool) (key : list Z) : bool :=
  negb (negb ws && strcaseeq key (lit "connection")) && negb (strcaseeq key (lit "content-length")).

Lemma kept_folded ws k key : folded k = folded key -> kept ws k = kept ws key.
Proof. unfold kept, strcaseeq. by intros ->. Qed.

Lemma last_value_filter ws key m : ordered m ->
  last_value key (filter (fun e => dumped ws e = true) m) = if kept ws key then map_find key m else None.
Proof.
  unfold MapType. induction m as [|[k v] m IH]; intros Hs; [by destruct (kept ws key)|].
  rewrite map_find_abs by done. inversion Hs as [|? ? Hm Hall]; subst. specialize (IH Hm).
  rewrite abs_cons, list.filter_cons. change (dumped ws (k, v)) with (kept ws k). rewrite map_find_abs in IH by done.
  destruct (decide (folded key = folded k)) as [E|E].
  - assert (abs m !! folded key = None) as Hn by (apply abs_above; by eapply above_same).
    rewrite (kept_folded ws k key) by done. rewrite <- E, lookup_insert_eq. rewrite Hn in IH.
    destruct (kept ws key).
    + rewrite decide_True by done. cbn [last_value]. by rewrite IH, decide_True.
    + rewrite decide_False by done. done.
  - rewrite lookup_insert_ne by done. case_decide; [|done]. cbn [last_value]. rewrite IH, decide_False by done.
    by destruct (kept ws key); [destruct (abs m !! folded key)|].
Qed.

(** What the server finds under a name. *)
Definition sent_header (r : HttpRequest) (key : list Z) : option (list Z) :=
  if strcaseeq key (lit "content-length")
  then (if bool_decide (m_body r = []) then None else Some (dec (zlen (m_body r))))
  else if negb (m_websocket r) && strcaseeq key (lit "connection")
  then Some (if m_close r then lit "close" else lit "keep-alive")
  else map_find key (m_headers r).

(** The request as it stands behind the head. *)
Definition head_of (r : HttpRequest) : HttpRequest :=
  with_headers (wire_headers r) (head_request (m_method r) (minor_of r) (m_path r) (m_query r) (m_fragment r)).

Lemma with_headers_frame l : forall r,
  let r' := with_headers l r in
  m_method r' = m_method r /\ m_version r' = m_version r /\ m_close r' = m_close r /\ m_path r' = m_path r /\
  m_query r' = m_query r /\ m_fragment r' = m_fragment r /\ m_body r' = m_body r /\ m_params r' = m_params r /\
  m_parserParamFlag r' = m_parserParamFlag r.
Proof.
  induction l as [|[k v] l IH]; intros r; cbv zeta; [by split_and!|].
  change (with_headers ((k, v) :: l) r) with (with_headers l (setHeader k v r)).
  destruct (IH (setHeader k v r)) as (H1 & H2 & H3 & H4 & H5 & H6 & H7 & H8 & H9).
  rewrite H1, H2, H3, H4, H5, H6, H7, H8, H9. by destruct r.
Qed.

Lemma head_of_find b x r key : sendable b x r ->
  ordered (m_headers (head_of r)) /\ map_find key (m_headers (head_of r)) = sent_header r key.
Proof.
  intros H. destruct (with_headers_find (wire_headers r) key
    (head_request (m_method r) (minor_of r) (m_path r) (m_query r) (m_fragment r)) ordered_nil) as [Ho Hf].
  split; [done|]. unfold head_of. rewrite Hf. clear Ho Hf. unfold wire_headers.
  rewrite !last_value_app, last_value_filter by apply H. unfold sent_header, kept.
  assert (last_value key (if bool_decide (m_body r = []) then [] else [(lit "content-length", dec (zlen (m_body r)))]) =
    if strcaseeq key (lit "content-length") then (if bool_decide (m_body r = []) then None else Some (dec (zlen (m_body r)))) else None) as ->.
  { unfold strcaseeq. case_bool_decide; cbn [last_value]; [by case_bool_decide|].
    destruct (decide _); [rewrite bool_decide_eq_true_2|rewrite bool_decide_eq_false_2]; done. }
  assert (last_value key (if m_websocket r then [] else [(lit "connection", if m_close r then lit "close" else lit "keep-alive")]) =
    if negb (m_websocket r) && strcaseeq key (lit "connection") then Some (if m_close r then lit "close" else lit "keep-alive") else None) as ->.
  { unfold strcaseeq. destruct (m_websocket r); [done|]. cbn [last_value negb andb].
    destruct (decide _); [rewrite bool_decide_eq_true_2|rewrite bool_decide_eq_false_2]; done. }
  assert (strcaseeq key (lit "content-length") = true -> strcaseeq key (lit "connection") = false) as Hne.
  { unfold strcaseeq. rewrite bool_decide_eq_true, bool_decide_eq_false. intros -> E. by vm_compute in E. }
  destruct (strcaseeq key (lit "content-length")).
  - rewrite Hne by done. cbn [negb]. rewrite !andb_false_r. by destruct (bool_decide (m_body r = [])).
  - rewrite andb_true_r. destruct (negb (m_websocket r) && strcaseeq key (lit "connection")); cbn [negb]; [done|].
    by destruct (map_find key (m_headers r)).
Qed.

Lemma expects_head b x r : sendable b x r -> expects (head_of r) = expects r.
Proof.
  intros H. unfold expects, getHeader. rewrite (proj2 (head_of_find b x r (lit "Expect") H)).
  unfold sent_header. change (strcaseeq (lit "Expect") (lit "content-length")) with false.
  change (strcaseeq (lit "Expect") (lit "connection")) with false. by rewrite andb_false_r.
Qed.

(** What [RecvRequest] returns for it. *)
Definition received_request (r : HttpRequest) : HttpRequest :=
  cookies_parsed (body_parsed (query_parsed (init (setBody (m_body r)
    (if expects r then delHeader (lit "Expect") (head_of r) else head_of r))))).

Lemma setBody_id r : setBody (m_body r) r = r.
Proof. by destruct r. Qed.

Lemma setBody_del key b r : setBody b (delHeader key r) = delHeader key (setBody b r).
Proof. by destruct r. Qed.

Section receive.
Context {St : Type} {SS : Stream St} {Mach : Machine} {SL : StreamLaws St}.
Context {P : Type} {Fsm : HttpFsm P} {FL : HttpFsmLaws P}.
Context (lexical_cast : list Z -> option Z) (buffer_size max_body s_bufferSize : Z).
Context (Hbuf : 2 <= buffer_size < 2 ^ 31) (Hmax : max_body < 2 ^ 32) (Hblk : 0 < s_bufferSize).

(** The body from the buffer and the stream. *)
Lemma RecvBody_ok fuel body rest data req s :
  data ++ sin s = body ++ rest -> zlen data < buffer_size -> zlen body < 2 ^ 32 -> (length (sin s) < fuel)%nat ->
  m_body req = [] ->
  exists lost s', RecvBody s_bufferSize fuel (zlen body) (zlen data) data req s = (Ok (Some (setBody body req)), s') /\
    rest = lost ++ sin s' /\ zlen lost < buffer_size /\ sout s' = sout s /\ sspace s' = sspace s.
Proof.
  intros Hin Hd Hb Hf Hreq. unfold RecvBody. destruct (Z.ltb_spec 0 (zlen body)) as [Hpos|Hpos].
  2: { destruct body; [|cbn in Hpos; lia]. exists data, s. rewrite <- Hreq, setBody_id. by split_and!. }
  destruct (Z.ltb_spec (zlen body) (zlen data)) as [Hlt|Hge].
  - rewrite Nat2Z.id, Z.sub_diag. cbn [Z.ltb Z.compare].
    assert (take (length body) data = body) as Ht.
    { apply (f_equal (take (length body))) in Hin. rewrite take_app_length, take_app_le in Hin by lia. done. }
    exists (drop (length body) data), s. rewrite Ht. split_and!; [done| |rewrite length_drop; lia|done|done].
    apply (f_equal (drop (length body))) in Hin. rewrite drop_app_length, drop_app_le in Hin by lia. done.
  - rewrite Nat2Z.id, firstn_all. rewrite uwrap_id by (unfold in_u; lia).
    assert (take (length data) body = data /\ sin s = drop (length data) body ++ rest) as [Ht Hs].
    { split.
      - apply (f_equal (take (length data))) in Hin. rewrite take_app_length, take_app_le in Hin by lia. done.
      - apply (f_equal (drop (length data))) in Hin. rewrite drop_app_length, drop_app_le in Hin by lia. done. }
    destruct (Z.ltb_spec 0 (zlen body - zlen data)) as [Hleft|Hleft].
    + assert (zlen body - zlen data = zlen (drop (length data) body)) as -> by (rewrite length_drop; lia).
      assert (0 < zlen (drop (length data) body)) by (rewrite length_drop; lia).
      destruct (ReadFixSize_ok s_bufferSize Hblk fuel s (drop (length data) body) rest ltac:(rewrite length_drop; lia)
        ltac:(rewrite Hs, length_app in Hf; lia) Hs) as (s' & E & Hi & Ho & Hsp).
      step E. rewrite (proj2 (Z.leb_gt _ _)) by lia. exists [], s'.
      assert (data ++ drop (length data) body = body) as -> by (rewrite <- (take_drop (length data) body) at 2; by rewrite Ht).
      cbn [app length]. split_and!; (done || lia).
    + exists [], s. assert (data = body) as -> by (rewrite <- Ht; apply firstn_all2; lia). rewrite drop_ge in Hs by lia. cbn [app length]. split_and!; (done || lia).
Qed.

Lemma RecvRequest_ok r rest fuel s :
  (forall n, 0 <= n < 2 ^ 64 -> lexical_cast (dec n) = Some n) -> sendable buffer_size max_body r ->
  sin s = request_dump r ++ rest -> (length (sin s) + 32 < fuel)%nat ->
  (if expects r then zlen s_continue <= sspace s else True) ->
  exists lost s', RecvRequest lexical_cast buffer_size max_body s_bufferSize fuel s = (Ok (Some (received_request r)), s') /\
    rest = lost ++ sin s' /\ zlen lost < buffer_size /\
    sout s' = sout s ++ (if expects r then s_continue else []) /\
    sspace s' = sspace s - (if expects r then zlen s_continue else 0).
Proof.
  intros Hcast Hsd Hin Hf Hsp. rewrite dump_lines, <- app_assoc in Hin by apply Hsd.
  pose proof (sd_version _ _ _ Hsd) as Hv.
  assert (minor_of r ∈ [48; 49]) as Hmi by (unfold minor_of; destruct (_ =? _); [right; by left|by left]).
  assert (chain (P:=P) HttpRequestParser_new (wire_line r :: map header_line (wire_headers r)) (parsing (head_of r))) as Hch.
  { econstructor; [apply request_line_consumed; try done; apply Hsd|apply parsing_running| |].
    - apply request_line_proper; try done; try apply Hsd. by apply (method_found _ []); apply Hsd.
    - apply headers_chain. by eapply wire_headers_ok. }
  rewrite <- !app_assoc in Hin.
  destruct (RecvHead_ok (P:=P) buffer_size ltac:(lia) fuel _ _ _ 0 [] (m_body r ++ rest) s Hch (sd_lines _ _ _ Hsd) ltac:(lia)
    Hin no_crlf_nil eq_refl ltac:(lia)) as (data & s1 & E1 & Hd1 & Hlen1 & Ho1 & Hsp1).
  unfold RecvRequest. step E1. unfold RecvRest. cbn [_request parsed_head].
  pose proof (sd_body _ _ _ Hsd) as Hb.
  assert (u32 (GetBodyLength lexical_cast (parsed_head (P:=P) (head_of r))) = zlen (m_body r)) as ->.
  { unfold GetBodyLength, getAs. cbn [_request parsed_head]. rewrite (proj2 (head_of_find _ _ r (lit "content-length") Hsd)).
    unfold sent_header. change (strcaseeq (lit "content-length") (lit "content-length")) with true.
    case_bool_decide as Eb; [by rewrite Eb|]. rewrite Hcast by lia. cbn [from_option]. apply uwrap_id. unfold in_u. lia. }
  rewrite (proj2 (Z.ltb_ge _ _)) by lia. rewrite (expects_head _ _ _ Hsd).
  assert (length (sin s1) <= length (sin s))%nat as Hle.
  { rewrite Hin. apply (f_equal length) in Hd1. rewrite !length_app in *. lia. }
  assert (exists s2, (if expects r then WriteFixSize s_bufferSize fuel s_continue else mret 1) s1 =
      (Ok (if expects r then zlen s_continue else 1), s2) /\ sin s2 = sin s1 /\
      sout s2 = sout s1 ++ (if expects r then s_continue else []) /\
      sspace s2 = sspace s1 - (if expects r then zlen s_continue else 0)) as (s2 & E2 & Hi2 & Ho2 & Hsp2).
  { destruct (expects r).
    - destruct (WriteFixSize_ok s_bufferSize Hblk fuel s1 s_continue) as (s2 & ? & ? & ? & ?);
        [by vm_compute|change (length s_continue) with 25%nat; lia|lia|]. by exists s2.
    - exists s1. rewrite app_nil_r, Z.sub_0_r. by split_and!. }
  step E2. rewrite (proj2 (Z.leb_gt _ _)) by (destruct (expects r); [by vm_compute|lia]).
  set (req := if expects r then delHeader (lit "Expect") (head_of r) else head_of r).
  assert (m_body req = []) as Hreq.
  { assert (m_body (head_of r) = []) as Hh by apply (with_headers_frame (wire_headers r) (head_request _ _ _ _ _)).
    unfold req. destruct (expects r); [|done]. destruct (head_of r). done. }
  destruct (RecvBody_ok fuel (m_body r) rest data req s2) as (lost & s3 & E3 & Hlost & Hll & Ho3 & Hsp3); try done; [by rewrite Hi2|lia|rewrite Hi2; lia|].
  step E3. exists lost, s3. unfold on_req. unfold mbind, M_bind. rewrite initParam_ok.
  split_and!; [done|done|done|by rewrite Ho3, Ho2, Ho1|by rewrite Hsp3, Hsp2, Hsp1].
Qed.
End receive.

(** *** What the server has received *)
Lemma init_frame r :
  m_method (init r) = m_method r /\ m_version (init r) = m_version r /\ m_path (init r) = m_path r /\
  m_query (init r) = m_query r /\ m_fragment (init r) = m_fragment r /\ m_body (init r) = m_body r /\
  m_headers (init r) = m_headers r /\ m_params (init r) = m_params r /\ m_parserParamFlag (init r) = m_parserParamFlag r.
Proof. unfold init. case_bool_decide; [done|]. by destruct r, (strcaseeq _ _). Qed.

Lemma init_close r : m_close (init r) =
  let conn := getHeader (lit "connection") [] r in
  if bool_decide (conn = []) then m_close r else negb (strcaseeq conn (lit "keep-alive")).
Proof. unfold init. cbv zeta. case_bool_decide; [done|]. by destruct r, (strcaseeq _ _). Qed.

Lemma parsed_frame r : let r' := cookies_parsed (body_parsed (query_parsed r)) in
  m_method r' = m_method r /\ m_version r' = m_version r /\ m_close r' = m_close r /\ m_path r' = m_path r /\
  m_query r' = m_query r /\ m_fragment r' = m_fragment r /\ m_body r' = m_body r /\ m_headers r' = m_headers r.
Proof.
  unfold cookies_parsed, body_parsed, query_parsed. destruct r.
  repeat match goal with |- context [if ?b then _ else _] => destruct b end; done.
Qed.

(** A request that has not been parsed yet. *)
Lemma parsed_params r : m_parserParamFlag r = 0 ->
  m_params (cookies_parsed (body_parsed (query_parsed r))) =
  (if is_form r then enter (fun k => k) (pairs (S (length (m_body r))) 38 (m_body r)) else fun m => m)
    (enter (fun k => k) (pairs (S (length (m_query r))) 38 (m_query r)) (m_params r)).
Proof.
  intros Hf. assert (query_parsed r = set_flag 1 (setParams (query_params r) r)) as ->
    by (unfold query_parsed, parsed; by rewrite Hf).
  set (r1 := set_flag 1 _). assert (parsed 2 r1 = false) as H2 by (destruct r; cbn in *; by subst).
  assert (is_form r1 = is_form r /\ m_params r1 = query_params r /\ m_body r1 = m_body r) as (Hi & Hp & Hb) by by destruct r.
  unfold body_parsed. rewrite H2, Hi.
  assert (forall x, m_params (cookies_parsed x) = m_params x) as Hc.
  { intros x. unfold cookies_parsed. destruct (parsed 4 x); [done|]. case_bool_decide; by destruct x. }
  rewrite Hc. clear Hc. destruct (is_form r).
  - assert (m_params (set_flag 2 (setParams (body_params r1) r1)) = body_params r1) as -> by by destruct r1.
    unfold body_params. by rewrite Hb, Hp.
  - trans (m_params r1); [by destruct r1|exact Hp].
Qed.

(** The message that arrives is the message that was sent. *)
Record same_request (r got : HttpRequest) : Prop := {
  sr_method : m_method got = m_method r;
  sr_version : m_version got = m_version r;
  sr_path : m_path got = m_path r;
  sr_query : m_query got = m_query r;
  sr_fragment : m_fragment got = m_fragment r;
  sr_body : m_body got = m_body r;
  sr_close : m_websocket r = false -> m_close got = m_close r;
  sr_headers key : map_find key (m_headers got) =
    if expects r && strcaseeq key (lit "Expect") then None else sent_header r key;
  sr_params : m_params got =
    (if is_form r then enter (fun k => k) (pairs (S (length (m_body r))) 38 (m_body r)) else fun m => m)
      (enter (fun k => k) (pairs (S (length (m_query r))) 38 (m_query r)) []);
}.

Lemma received_same b x r : sendable b x r -> same_request r (received_request r).
Proof.
  intros H. set (h := setBody (m_body r) (if expects r then delHeader (lit "Expect") (head_of r) else head_of r)).
  assert (m_method h = m_method r /\ m_version h = version_of (minor_of r) /\ m_path h = m_path r /\ m_query h = m_query r /\
    m_fragment h = m_fragment r /\ m_body h = m_body r /\ m_params h = [] /\ m_parserParamFlag h = 0 /\
    m_headers h = if expects r then map_erase (lit "Expect") (m_headers (head_of r)) else m_headers (head_of r))
    as (H1 & H2 & H3 & H4 & H5 & H6 & H7 & H8 & H9).
  { destruct (with_headers_frame (wire_headers r) (head_request (m_method r) (minor_of r) (m_path r) (m_query r) (m_fragment r)))
      as (F1 & F2 & F3 & F4 & F5 & F6 & F7 & F8 & F9). fold (head_of r) in *. unfold h.
    destruct (head_of r), (expects r); cbn in *; subst; done. }
  assert (forall key, map_find key (m_headers h) = if expects r && strcaseeq key (lit "Expect") then None else sent_header r key) as Hh.
  { intros key. destruct (head_of_find b x r key H) as [Ho Hf]. rewrite H9. destruct (expects r); cbn [andb]; [|done].
    rewrite find_erase, Hf by done. unfold strcaseeq. case_decide; [by rewrite bool_decide_eq_true_2|by rewrite bool_decide_eq_false_2]. }
  assert (forall key, strcaseeq key (lit "Expect") = false -> map_find key (m_headers h) = sent_header r key) as Hh'.
  { intros key E. rewrite Hh, E. by rewrite andb_false_r. }
  assert (is_form h = is_form r) as Hform.
  { unfold is_form, getHeader. rewrite Hh' by by vm_compute. unfold sent_header.
    change (strcaseeq (lit "content-type") (lit "content-length")) with false.
    change (strcaseeq (lit "content-type") (lit "connection")) with false. by rewrite andb_false_r. }
  change (received_request r) with (cookies_parsed (body_parsed (query_parsed (init h)))).
  clearbody h. destruct (init_frame h) as (I1 & I2 & I3 & I4 & I5 & I6 & I7 & I8 & I9).
  destruct (parsed_frame (init h)) as (Q1 & Q2 & Q3 & Q4 & Q5 & Q6 & Q7 & Q8).
  split.
  - congruence.
  - rewrite Q2, I2, H2. unfold version_of, minor_of. pose proof (sd_version _ _ _ H) as Hv.
    revert Hv. rewrite !elem_of_cons, elem_of_nil. by intros [->|[->|[]]].
  - congruence.
  - congruence.
  - congruence.
  - congruence.
  - intros Hws. rewrite Q3, init_close. unfold getHeader. rewrite Hh' by by vm_compute. unfold sent_header.
    rewrite Hws. change (strcaseeq (lit "connection") (lit "content-length")) with false.
    change (strcaseeq (lit "connection") (lit "connection")) with true. by destruct (m_close r); vm_compute.
  - intros key. by rewrite Q8, I7.
  - rewrite parsed_params by congruence. rewrite I4, I6, I8, H4, H6, H7.
    assert (is_form (init h) = is_form h) as -> by (unfold is_form, getHeader; by rewrite I7). by rewrite Hform.
Qed.

(** ** A concrete parser *)
Inductive line_fsm := AtStart | AtHeader | AtEnd | InError.

Definition cut_line (text : list Z) : option (list Z * list Z) :=
  match find_from (is_prefix crlf) text 0 with
  | Some i => Some (take i text, drop (i + 2) text)
  | None => None
  end.

Fixpoint parse_headers (fuel : nat) (text : list Z) : (list parse_event * Z) * line_fsm :=
  match fuel with
  | O => (([], 0), InError)
  | S fuel =>
    if bool_decide (text = []) then (([], 0), AtHeader) else
    match cut_line text with
    | None => (([], 0), InError)
    | Some ([], _) => (([EvDone], 2), AtEnd)
    | Some (line, rest) =>
      match cut 58 line with
      | (k, Some v) => after [EvField k (drop_in [32] v)] (zlen line + 2) (parse_headers fuel rest)
      | (_, None) => (([], 0), InError)
      end
    end
  end.

Definition opt_text (o : option (list Z)) : list Z := default [] o.

(** The events of a request line. *)
Definition parse_start (text line rest : list Z) : list parse_event :=
  let '(m, uri) := cut 32 line in
  let '(uri, version) := cut 32 (opt_text uri) in
  let '(uri, f) := cut hash uri in
  let '(path, q) := cut question uri in
  [EvMethod text (zlen m); EvPath path] ++ opt_event EvQuery (opt_text q) ++ [EvUri] ++ opt_event EvFragment (opt_text f) ++
  [EvVersion (opt_text version ++ crlf ++ rest) (zlen (opt_text version))].

Definition parse_text (p : line_fsm) (text : list Z) : (list parse_event * Z) * line_fsm :=
  if bool_decide (text = []) then (([], 0), p) else
  match p with
  | AtStart =>
    match cut_line text with
    | None => (([], 0), InError)
    | Some (line, rest) => after (parse_start text line rest) (zlen line + 2) (parse_headers (S (length rest)) rest)
    end
  | AtHeader => parse_headers (S (length text)) text
  | AtEnd | InError => (([], 0), p)
  end.

#[export] Instance line_parser : HttpFsm line_fsm := {|
  http_parser_init := AtStart;
  http_parser_execute := parse_text;
  http_parser_has_error p := match p with InError => true | _ => false end;
  http_parser_is_finished p := match p with AtEnd => true | _ => false end;
|}.

Lemma cut_line_proper b rest : 13 ∉ b -> cut_line (b ++ crlf ++ rest) = Some (b, rest).
Proof.
  intros Hb. unfold cut_line, find_from. rewrite decide_False, drop_0 by lia.
  assert (forall i, find_at (is_prefix crlf) i (b ++ crlf ++ rest) = Some (i + length b)%nat) as ->.
  { induction b as [|x b IH]; intros i; [cbn; by rewrite Nat.add_0_r|].
    apply not_elem_of_cons in Hb as [Hx Hb]. cbn [app find_at length].
    assert (is_prefix crlf (x :: b ++ crlf ++ rest) = false) as ->.
    { cbn [is_prefix crlf]. by rewrite (proj2 (Z.eqb_neq 13 x)). }
    rewrite IH by done. f_equal. lia. }
  cbn [Nat.add]. rewrite take_app_length. by rewrite <- drop_drop, drop_app_length.
Qed.

Lemma cut_line_some text line rest : cut_line text = Some (line, rest) -> zlen line + 2 + zlen rest = zlen text.
Proof.
  unfold cut_line, find_from. rewrite decide_False, drop_0 by lia.
  destruct (find_at _ 0 text) as [i|] eqn:E; [|done]. intros [= <- <-].
  apply find_at_some in E as (a & b & -> & -> & Hp & _). apply is_prefix_crlf in Hp as [r ->].
  cbn [Nat.add]. rewrite take_app_length, <- drop_drop, drop_app_length, !length_app. cbn [drop length app crlf]. rewrite drop_0. lia.
Qed.

Lemma parse_headers_fuel n : forall f1 f2 text, (length text <= n)%nat -> (length text < f1)%nat -> (length text < f2)%nat ->
  parse_headers f1 text = parse_headers f2 text.
Proof.
  induction n as [|n IH]; intros f1 f2 text Hn H1 H2; (destruct f1 as [|f1]; [lia|]); (destruct f2 as [|f2]; [lia|]); cbn [parse_headers].
  - destruct text; [done|cbn in Hn; lia].
  - case_bool_decide; [done|]. destruct (cut_line text) as [[[|c line] rest]|] eqn:E; [done| |done].
    apply cut_line_some in E. cbn [length] in E. destruct (cut 58 (c :: line)) as [k [v|]]; [|done].
    f_equal. apply IH; lia.
Qed.

Lemma parse_headers_nread fuel : forall text, 0 <= (parse_headers fuel text).1.2 <= zlen text.
Proof.
  induction fuel as [|fuel IH]; intros text; cbn [parse_headers]; [cbn; lia|]. case_bool_decide; [cbn; lia|].
  destruct (cut_line text) as [[[|c line] rest]|] eqn:E; [| |cbn; lia].
  - apply cut_line_some in E. cbn [length] in E. cbn. lia.
  - apply cut_line_some in E. destruct (cut 58 (c :: line)) as [k [v|]]; [|cbn; lia].
    specialize (IH rest). unfold after. cbn [fst snd]. lia.
Qed.

(** No character of a URI ends one of its parts. *)
Lemma uri_text_not extra c s : is_alpha c = false -> is_digit c = false -> isxdigit c = false -> c <> 37 ->
  pchar c = false -> c ∉ extra -> uri_text extra s = true -> c ∉ s.
Proof.
  intros Ha Hd Hx H37 Hp He. assert (forall n s, (length s <= n)%nat -> uri_text extra s = true -> c ∉ s) as H; [|by apply (H (length s))].
  clear s. induction n as [|n IH]; intros [|x s] Hl; cbn [length] in Hl; try (intros _; apply not_elem_of_nil); [lia|].
  cbn [uri_text]. rewrite not_elem_of_cons. destruct (Z.eqb_spec x 37) as [->|Hc].
  - destruct s as [|h1 [|h2 s]]; try done. rewrite !andb_true_iff. intros [[H1 H2] H]. rewrite !not_elem_of_cons.
    split_and!; [done|by intros <-; rewrite Hx in H1|by intros <-; rewrite Hx in H2|]. apply IH; [cbn in Hl; lia|done].
  - rewrite andb_true_iff. intros [Hq H]. split; [|apply IH; [lia|done]]. intros <-.
    rewrite Hp in Hq. cbn [orb] in Hq. by apply bool_decide_eq_true in Hq.
Qed.

Lemma cut_opt c mark s rest : mark = c -> c ∉ rest -> cut c (rest ++ opt_part [mark] s) = (rest, if bool_decide (s = []) then None else Some s).
Proof. intros -> Hr. unfold opt_part. case_bool_decide; [by rewrite app_nil_r, cut_none|]. by apply cut_app. Qed.

Lemma not_in_opt c mark s : c <> mark -> c ∉ s -> c ∉ opt_part [mark] s.
Proof.
  intros Hc Hs. unfold opt_part. case_bool_decide; [apply not_elem_of_nil|]. cbn [app]. by apply not_elem_of_cons.
Qed.

Lemma opt_text_some s : opt_text (Some s) = s.
Proof. done. Qed.

Lemma opt_text_if s : opt_text (if bool_decide (s = []) then None else Some s) = s.
Proof. by case_bool_decide. Qed.

Ltac uri_not := eapply uri_text_not; [..|eassumption]; (by vm_compute) || by_computation.

Lemma parse_header_eq text : parse_text AtHeader text = parse_headers (S (length text)) text.
Proof. unfold parse_text. case_bool_decide as E; [by rewrite E|done]. Qed.

#[export, refine] Instance line_parser_laws : HttpFsmLaws line_fsm := {| at_header := AtHeader; at_end := AtEnd |}.
Proof.
  - intros m path q f minor rest Hm Hp Hq Hf Hmi.
    pose proof (request_line_proper _ _ _ _ _ Hm Hp Hq Hf Hmi) as (b & Eb & Hb).
    cbn [http_parser_execute line_parser http_parser_init]. unfold parse_text.
    rewrite bool_decide_eq_false_2 by (rewrite Eb; by destruct b).
    rewrite Eb at 1. rewrite <- app_assoc, cut_line_proper by done.
    assert (b = m ++ 32 :: (path ++ opt_part [question] q ++ opt_part [hash] f) ++ 32 :: (lit "HTTP/1." ++ [minor])) as ->.
    { change (b = m ++ [32] ++ (path ++ opt_part [question] q ++ opt_part [hash] f) ++ [32] ++ lit "HTTP/1." ++ [minor]).
      apply (app_inv_tail crlf). rewrite <- Eb. unfold request_line. by rewrite <- !app_assoc. }
    unfold path_absolute in Hp. rewrite !andb_true_iff in Hp. destruct Hp as [_ Hp].
    unfold query_text, method_token in *. rewrite !andb_true_iff in Hm. destruct Hm as [_ Hm].
    assert (32 ∉ m) as Hm32 by (apply (forallb_not (fun c => is_upper c || is_digit c)); done).
    assert (32 ∉ path /\ hash ∉ path /\ question ∉ path) as (? & ? & ?) by (split_and!; uri_not).
    assert (32 ∉ q /\ hash ∉ q /\ 32 ∉ f) as (? & ? & ?) by (split_and!; uri_not).
    unfold parse_start. rewrite cut_app by done. rewrite opt_text_some.
    rewrite cut_app.
    2: { rewrite !elem_of_app. intros [?|[Hin|Hin]]; [done|revert Hin; by apply not_in_opt..]. }
    rewrite opt_text_some, app_assoc, (cut_opt hash);
      [|done|rewrite elem_of_app; intros [?|Hin]; [done|revert Hin; by apply not_in_opt]].
    rewrite (cut_opt question) by done. rewrite !opt_text_if. unfold after, line_events. cbn [fst snd].
    change (if bool_decide (rest = []) then (([], 0), AtHeader) else parse_headers (S (length rest)) rest)
      with (parse_text AtHeader rest). rewrite parse_header_eq.
    replace (zlen (request_line m path q f minor)) with (zlen (m ++ 32 :: ((path ++ opt_part [question] q) ++
      opt_part [hash] f) ++ 32 :: lit "HTTP/1." ++ [minor]) + 2); [reflexivity|].
    rewrite Eb, (length_app _ crlf), (app_assoc path). cbn [length crlf]. lia.
  - intros k v rest Hk Hv. pose proof (header_proper k v Hk Hv) as (b & Eb & Hb).
    assert (zlen (header_line (k, v)) = zlen b + 2) as -> by (rewrite Eb, length_app; cbn [length crlf]; lia).
    cbn [http_parser_execute line_parser]. rewrite !parse_header_eq. cbn [parse_headers].
    rewrite bool_decide_eq_false_2 by (rewrite Eb; by destruct b).
    rewrite Eb, <- app_assoc, cut_line_proper by done.
    assert (b = k ++ 58 :: 32 :: v) as -> by (apply (app_inv_tail crlf); rewrite <- Eb; unfold header_line; cbn [fst snd]; by rewrite <- !app_assoc).
    unfold field_name, field_value in *. rewrite !andb_true_iff in *. destruct Hk as [Hk Hkt], Hv as [[Hv Hv1] Hvt].
    destruct k as [|c k]; [done|]. cbn [app]. cbn [app] in *.
    change (c :: k ++ 58 :: 32 :: v) with ((c :: k) ++ 58 :: 32 :: v).
    rewrite cut_app by (apply (forallb_not is_token); [by vm_compute|done]).
    assert (drop_in [32] (32 :: v) = v) as ->.
    { destruct v as [|x v]; [done|]. cbn [drop_in]. change (one_of [32] 32) with true. cbn iota.
      assert (one_of [32] x = false) as ->; [|done]. cbn [head_in] in Hv1. unfold is_char in Hv1.
      apply negb_true_iff, Z.eqb_neq in Hv1. apply bool_decide_eq_false_2. by rewrite list_elem_of_singleton. }
    rewrite (parse_headers_fuel (length rest) _ (S (length rest)) rest); [done|lia| |lia].
    cbn [length app]. rewrite ?length_app. cbn [length]. rewrite ?length_app. cbn [length]. rewrite ?length_app. lia.
  - intros rest. cbn [http_parser_execute line_parser]. rewrite parse_header_eq. cbn [parse_headers].
    rewrite bool_decide_eq_false_2 by done. change (crlf ++ rest) with ([] ++ crlf ++ rest).
    by rewrite cut_line_proper by apply not_elem_of_nil.
  - done.
  - intros p text. cbn [http_parser_execute line_parser]. unfold parse_text. case_bool_decide; [cbn; lia|].
    destruct p; [| |cbn; lia|cbn; lia].
    + destruct (cut_line text) as [[line rest]|] eqn:E; [|cbn; lia]. apply cut_line_some in E.
      pose proof (parse_headers_nread (S (length rest)) rest). unfold after. cbn [fst snd]. lia.
    + apply parse_headers_nread.
  - done.
  - done.
Qed.

(** ** Every input *)
Section total.
Context {St : Type} {SS : Stream St} {Mach : Machine} {SL : StreamLaws St}.
Context {P : Type} {Fsm : HttpFsm P} {FL : HttpFsmLaws P}.
Context (lexical_cast : list Z -> option Z) (buffer_size max_body s_bufferSize : Z).
Context (Hbuf : 0 < buffer_size < 2 ^ 31) (Hmax : 0 <= max_body < 2 ^ 32) (Hblk : 0 < s_bufferSize).
(** recv(2) with no room in the buffer reports 0 *)
Context (read_nothing : forall s, exists r s', s_read 0 s = (Ok (r, []), s') /\ - 2 ^ 31 <= r <= 0 /\
  sin s' = sin s /\ sspace s' = sspace s).
(** a failing read reports an [int] *)
Context (read_int : forall n s r bs s', s_read n s = (Ok (r, bs), s') -> - 2 ^ 31 <= r < 2 ^ 31).

(** A stream that has been closed. *)
Definition closed (s : St) : Prop := sin s = [] /\ sspace s = 0.

Lemma fail_closes {A} (s : St) : exists s', (fail : M St (option A)) s = (Ok None, s') /\ closed s'.
Proof. exists (s_close s). split; [done|apply s_close_ok]. Qed.

(** What a part of the reception can come to. *)
Definition received_or_closed {A} (Q : A -> St -> Prop) (r : outcome (option A) * St) : Prop :=
  exists o s', r = (Ok o, s') /\ match o with Some a => Q a s' | None => closed s' end.

Lemma fail_ok {A} (Q : A -> St -> Prop) s : received_or_closed Q ((fail : M St (option A)) s).
Proof. destruct (fail_closes (A:=A) s) as (s' & E & H). exists None, s'. by rewrite E. Qed.

Lemma run_text_nread (p : HttpRequestParser P) text : 0 <= (run_text p text).1 <= zlen text.
Proof.
  unfold run_text. pose proof (fsm_nread (_parser p) text).
  by destruct (http_parser_execute (_parser p) text) as [[evs n] fsm].
Qed.

Lemma RecvHead_total fuel : forall offset data p s,
  offset = zlen data -> offset <= buffer_size -> (length (sin s) < fuel)%nat -> 0 <= sspace s ->
  received_or_closed (fun '(_, (offset, data)) s' => offset = zlen data /\ offset < buffer_size /\
    (length (sin s') <= length (sin s))%nat /\ 0 <= sspace s')
    (RecvHead (Fsm:=Fsm) buffer_size fuel offset data p s).
Proof.
  induction fuel as [|fuel IH]; intros offset data p s Ho Hle Hf Hsp; [lia|]. cbn [RecvHead].
  rewrite (uwrap_id 32 (buffer_size - offset)) by (unfold in_u; lia).
  destruct (decide (offset = buffer_size)) as [Hfull|Hroom].
  { rewrite Hfull, Z.sub_diag. destruct (read_nothing s) as (r & s1 & Er & Hr & _). step Er.
    rewrite swrap_id by (unfold in_s; lia). rewrite (proj2 (Z.leb_le _ _)) by lia. apply fail_ok. }
  destruct (decide (sin s = [])) as [Hend|Hne].
  { destruct (s_read_end (buffer_size - offset) s ltac:(lia) Hend) as (r & s1 & Er & Hr & _). step Er.
    apply read_int in Er. rewrite swrap_id by (unfold in_s; lia). rewrite (proj2 (Z.leb_le _ _)) by lia. apply fail_ok. }
  destruct (s_read_data (buffer_size - offset) s ltac:(lia) Hne) as (bs & s1 & Er & Hbs & Hin1 & Ho1 & Hsp1).
  step Er. rewrite swrap_id by (unfold in_s; lia). rewrite (proj2 (Z.leb_gt _ _)) by lia.
  set (data1 := data ++ bs). assert (zlen data1 = offset + zlen bs) as Hl1 by (unfold data1; rewrite length_app; lia).
  assert (length (sin s) = length bs + length (sin s1))%nat as Hls by (rewrite Hin1, length_app; lia).
  rewrite swrap_id by (unfold in_s; lia). destruct (Z.ltb_spec (GetLastRN data1 (zlen bs + offset)) 0).
  - rewrite uwrap_id by (unfold in_u; lia).
    destruct (IH (offset + zlen bs) data1 p s1) as (o & s' & E & H'); [lia|lia|lia|lia|].
    exists o, s'. split; [done|]. destruct o as [[p' [o' d']]|]; [|done]. destruct H' as (? & ? & ? & ?). split_and!; (done || lia).
  - rewrite Execute_run. cbn [fst snd]. set (r := run_text _ _).
    pose proof (run_text_nread p (take (Z.to_nat (GetLastRN data1 (zlen bs + offset))) data1)) as Hn. fold r in Hn.
    rewrite length_take in Hn. destruct r as [n p']. cbn [fst snd] in *.
    destruct (HasError p'); [apply fail_ok|]. rewrite uwrap_id by (unfold in_u; lia).
    destruct (Z.leb_spec buffer_size (offset + zlen bs - n)); [apply fail_ok|].
    assert (offset + zlen bs - n = zlen (drop (Z.to_nat n) data1)) as Hod by (rewrite length_drop; lia).
    destruct (IsFinished p' =? 1).
    + eexists _, s1. split; [done|]. split_and!; (done || lia).
    + destruct (IH (offset + zlen bs - n) (drop (Z.to_nat n) data1) p' s1) as (o & s' & E & H'); [done|lia|lia|lia|].
      exists o, s'. split; [done|]. destruct o as [[p'' [o' d']]|]; [|done]. destruct H' as (? & ? & ? & ?). split_and!; (done || lia).
Qed.

Lemma RecvRest_total fuel (p : HttpRequestParser P) offset data s :
  offset = zlen data -> offset < buffer_size -> Z.of_nat (length (sin s)) + max_body + 32 < Z.of_nat fuel -> 0 <= sspace s ->
  received_or_closed (fun _ _ => True) (RecvRest lexical_cast max_body s_bufferSize fuel p offset data s).
Proof.
  intros Ho Hob Hf Hsp. unfold RecvRest. set (n := u32 _). assert (0 <= n) as Hn0 by apply (uwrap_range 32 _ ltac:(lia)).
  clearbody n. destruct (Z.ltb_spec max_body n); [apply fail_ok|].
  assert (exists r s1, (if expects (_request p) then WriteFixSize s_bufferSize fuel s_continue else mret 1) s = (Ok r, s1) /\
    sin s1 = sin s) as (r & s1 & E1 & Hi1).
  { destruct (expects _); [|by exists 1, s].
    destruct (WriteFix_loop_ok s_bufferSize Hblk fuel (zlen s_continue) (zlen s_continue) s_continue s eq_refl)
      as (r & s1 & E & _ & ? & _); [by vm_compute|change (zlen s_continue) with 25; lia|done|]. by exists r, s1. }
  step E1. destruct (r <=? 0); [apply fail_ok|]. set (req := if expects _ then _ else _). clearbody req.
  assert (received_or_closed (fun _ _ => True) (RecvBody s_bufferSize fuel n offset data req s1)) as (o & s2 & E2 & H2).
  { unfold RecvBody. destruct (0 <? n); [|by eexists _, s1]. set (c := if n <? offset then n else offset).
    destruct (Z.ltb_spec 0 (u32 (n - c))); [|by eexists _, s1].
    assert (0 <= c <= n) by (unfold c; destruct (Z.ltb_spec n offset); lia).
    rewrite uwrap_id in * by (unfold in_u; lia).
    destruct (ReadFix_loop_ok s_bufferSize Hblk fuel (n - c) (n - c) [] s1) as (r2 & s2 & E & _); [lia|lia|].
    unfold ReadFixSize. step (E fuel ltac:(lia)). destruct (r2 <=? 0); [apply fail_ok|by eexists _, s2]. }
  step E2. destruct o as [req'|]; [|by exists None, s2].
  unfold on_req, mbind, M_bind. rewrite initParam_ok. by eexists _, s2.
Qed.
(** A connection that has ended. *)
Lemma RecvRequest_end fuel s : sin s = [] -> (0 < fuel)%nat ->
  exists s1, RecvRequest (Fsm:=Fsm) lexical_cast buffer_size max_body s_bufferSize fuel s = (Ok None, s_close s1) /\ sout s1 = sout s.
Proof.
  intros Hend Hf. destruct fuel as [|fuel]; [lia|]. unfold RecvRequest. cbn [RecvHead].
  rewrite Z.sub_0_r, uwrap_id by (unfold in_u; lia).
  destruct (s_read_end buffer_size s ltac:(lia) Hend) as (r & s1 & Er & Hr & _ & Hso & _).
  pose proof (read_int _ _ _ _ _ Er). exists s1. split; [|done]. unfold mbind, M_bind. rewrite Er.
  rewrite swrap_id by (unfold in_s; lia). by rewrite (proj2 (Z.leb_le _ _)) by lia.
Qed.
End total.

(** ** Properties *)
Section properties.
Context {St : Type} {SS : Stream St} {Mach : Machine} {SL : StreamLaws St}.
Context {P : Type} {Fsm : HttpFsm P} {FL : HttpFsmLaws P}.
Context (lexical_cast : list Z -> option Z) (buffer_size max_body s_bufferSize : Z).

(** C15: What [dump] writes, [RecvRequest] reads: whatever pieces the stream
    delivers and however they fall over lines and body, a request whose lines
    fit the buffer arrives with the method, version, URI, headers, body,
    parameters and persistence it was sent with; a client that expects it is
    told to continue.  Of what follows the request at most a buffer is lost. *)
Theorem request_received r rest fuel s :
  2 <= buffer_size < 2 ^ 31 -> max_body < 2 ^ 32 -> 0 < s_bufferSize ->
  (forall n, 0 <= n < 2 ^ 64 -> lexical_cast (dec n) = Some n) -> sendable buffer_size max_body r ->
  sin s = request_dump r ++ rest -> (length (sin s) + 32 < fuel)%nat ->
  (if expects r then zlen s_continue <= sspace s else True) ->
  exists got lost s', RecvRequest lexical_cast buffer_size max_body s_bufferSize fuel s = (Ok (Some got), s') /\
    same_request r got /\ rest = lost ++ sin s' /\ zlen lost < buffer_size /\
    sout s' = sout s ++ (if expects r then s_continue else []).
Proof.
  intros Hb Hm Hblk Hc Hs Hin Hf Hsp.
  destruct (RecvRequest_ok lexical_cast buffer_size max_body s_bufferSize Hb Hm Hblk r rest fuel s Hc Hs Hin Hf Hsp)
    as (lost & s' & E & Hl & Hll & Ho & _).
  exists (received_request r), lost, s'. split_and!; try done. by eapply received_same.
Qed.

(** [RecvRequest] returns on every input, whatever the parser makes of
    it: with a request, or without one and with the stream closed. *)
Theorem RecvRequest_total fuel s :
  0 < buffer_size < 2 ^ 31 -> 0 <= max_body < 2 ^ 32 -> 0 < s_bufferSize ->
  (forall s, exists r s', s_read 0 s = (Ok (r, []), s') /\ - 2 ^ 31 <= r <= 0 /\ sin s' = sin s /\ sspace s' = sspace s) ->
  (forall n s r bs s', s_read n s = (Ok (r, bs), s') -> - 2 ^ 31 <= r < 2 ^ 31) ->
  zlen (sin s) + max_body + 32 < Z.of_nat fuel -> 0 <= sspace s ->
  exists o s', RecvRequest (Fsm:=Fsm) lexical_cast buffer_size max_body s_bufferSize fuel s = (Ok o, s') /\
    (o = None -> sin s' = [] /\ sspace s' = 0).
Proof.
  intros Hb Hm Hblk H0 Hint Hf Hsp. unfold RecvRequest.
  destruct (RecvHead_total (P:=P) buffer_size Hb H0 Hint fuel 0 [] HttpRequestParser_new s) as (h & s1 & E1 & H1);
    [done|lia|lia|done|]. step E1.
  destruct h as [[p [offset data]]|]; [|exists None, s1; by split_and!]. destruct H1 as (-> & Hlt & Hs1 & Hsp1).
  destruct (RecvRest_total (P:=P) lexical_cast buffer_size max_body s_bufferSize Hm Hblk fuel p (zlen data) data s1)
    as (o & s2 & E2 & H2); [done|done|lia|done|].
  exists o, s2. split; [done|]. by intros ->.
Qed.

End properties.

(** ** A concrete conversation *)
#[local] Existing Instance demo_machine.

Definition read_digit (a c : Z) : Z := a * 10 + (c - 48).
Definition demo_cast (s : list Z) : option Z :=
  if negb (bool_decide (s = [])) && forallb is_digit s then Some (foldl read_digit 0 s) else None.

Lemma dec_loop_value fuel : forall n acc, 0 <= n < 10 ^ Z.of_nat fuel -> (0 < fuel)%nat ->
  foldl read_digit 0 (dec_loop fuel n acc) = foldl read_digit n acc.
Proof.
  induction fuel as [|fuel IH]; intros n acc Hn Hf; [lia|]. cbn [dec_loop].
  destruct (Z.ltb_spec n 10).
  - cbn [foldl]. f_equal. unfold read_digit. lia.
  - rewrite Nat2Z.inj_succ, Z.pow_succ_r in Hn by lia.
    assert (0 < fuel)%nat by (destruct fuel; [cbn in Hn; lia|lia]).
    rewrite IH by (try split; (done || (apply Z.div_pos; lia) || (apply Z.div_lt_upper_bound; lia))).
    cbn [foldl]. f_equal. unfold read_digit. pose proof (Z.div_mod n 10). lia.
Qed.

Lemma demo_cast_dec n : 0 <= n < 2 ^ 64 -> demo_cast (dec n) = Some n.
Proof.
  intros Hn. destruct (dec_loop_digits 20 n []) as [H1 H2]; [lia|done|right; lia|].
  unfold demo_cast, dec. rewrite bool_decide_eq_false_2 by done. rewrite H1. cbn [negb andb].
  by rewrite dec_loop_value by lia.
Qed.

Lemma pipe_read_nothing (s : SocketStream pipe) : exists r s', s_read 0 s = (Ok (r, []), s') /\ - 2 ^ 31 <= r <= 0 /\
  sin s' = sin s /\ sspace s' = sspace s.
Proof.
  destruct (live s) as [k|] eqn:E.
  - rewrite (live_open _ _ E). exists 0, (open_stream (_owner s) k). split_and!; try done. by destruct k.
  - exists (-1), s. split_and!; try done. by apply dead_read.
Qed.

Lemma pipe_read_int n (s : SocketStream pipe) r bs s' : s_read n s = (Ok (r, bs), s') -> - 2 ^ 31 <= r < 2 ^ 31.
Proof.
  destruct (live s) as [k|] eqn:E.
  - rewrite (live_open _ _ E). change (s_read n ?x) with (SocketStream_Read n x). rewrite open_read. cbn. intros [= <- _ _].
    rewrite length_take. lia.
  - change (s_read n s) with (SocketStream_Read n s). rewrite (dead_read n s E). intros [= <- _ _]. lia.
Qed.

Definition demo_request : HttpRequest :=
  setHeader (lit "Host") (lit "www.example.com") (setHeader (lit "expect") (lit "100-Continue")
    (setBody (lit "name=Tom") (setMethod POST (setUri (lit "/api/user?id=7%20a#info") (HttpRequest_new 17 false))))).

Lemma demo_request_sendable : sendable 64 4096 demo_request.
Proof.
  split; try by_computation.
  change (m_headers demo_request) with [(lit "expect", lit "100-Continue"); (lit "Host", lit "www.example.com")].
  repeat (constructor; [|by repeat constructor]). repeat constructor.
Qed.

Definition demo_connection (bytes : list Z) : SocketStream pipe := open_stream true (mkPipe bytes [] 1000).

Lemma request_received_witness :
  exists got lost s', RecvRequest demo_cast 64 4096 16384 1000 (demo_connection (request_dump demo_request ++ lit "GET / HTTP/1.1")) = (Ok (Some got), s') /\
    same_request demo_request got /\ lit "GET / HTTP/1.1" = lost ++ sin s' /\ zlen lost < 64 /\
    sout s' = s_continue.
Proof.
  destruct (request_received demo_cast 64 4096 16384 demo_request (lit "GET / HTTP/1.1") 1000
    (demo_connection (request_dump demo_request ++ lit "GET / HTTP/1.1"))) as (got & lost & s' & E & H1 & H2 & H3 & H4);
    [by_computation|by_computation|by_computation|exact demo_cast_dec|exact demo_request_sendable|by_computation|by_computation|by_computation|].
  exists got, lost, s'. split_and!; [exact E|exact H1|exact H2|exact H3|]. rewrite H4. vm_compute. reflexivity.
Defined.

Lemma RecvRequest_total_witness :
  exists o s', RecvRequest demo_cast 64 40 16384 200 (demo_connection (lit "no request at all")) = (Ok o, s') /\
    (o = None -> sin s' = [] /\ sspace s' = 0).
Proof.
  apply (RecvRequest_total demo_cast 64 40 16384 200 (demo_connection (lit "no request at all")));
    [by_computation|by_computation|by_computation|exact pipe_read_nothing|exact pipe_read_int|by_computation..].
Defined.

(** What the buffer holds beyond a request is dropped: of two requests that
    arrive together the second is not answered. *)
Definition demo_get : HttpRequest := setUri (lit "/") (HttpRequest_new 17 false).

Lemma pipelined_request_lost :
  let recv := RecvRequest demo_cast 64 4096 16384 1000 in
  let r := recv (demo_connection (request_dump demo_get ++ request_dump demo_get)) in
  (exists got, r.1 = Ok (Some got)) /\ (recv r.2).1 = Ok None.
Proof. split; [eexists; vm_compute; reflexivity|vm_compute; reflexivity]. Qed.

(** The length of a body is cut to 32 bits. *)
Lemma content_length_truncated :
  match (RecvRequest demo_cast 64 4096 16384 1000 (demo_connection
    (lit "POST / HTTP/1.1" ++ crlf ++ lit "Content-Length: 4294967301" ++ crlf ++ crlf ++ lit "hello world"))).1 with
  | Ok (Some got) => m_body got = lit "hello"
  | _ => False
  end.
Proof. vm_compute. reflexivity. Qed.
