(* ===== verification/Servlet.v ===== *)
(** servlet.cpp, http/servlet.h: the table that finds the handler of a
    request, and the handlers the server brings along.

    Every method holds the table's read-write lock from its first to its last
    access, so that each is one step.  fnmatch(3) is a parameter; so is the
    object a [ServletCreator<T>] makes. *)
From Stdlib Require Import List String.
From stdpp Require Import gmap sorting.
From S2P Require Import Prelude Bytes Strings HttpMap Http.
Import HttpResponse.

Section servlet.
(** The callbacks of [FunctionServlet] and other servlets. *)
Context {Callback : Type}.
Context (fnmatch : list Z -> list Z -> Z).

Inductive Servlet :=
  | FunctionServlet (m_cb : Callback)
  | NotFoundServlet (m_name : list Z).

Inductive IServletCreator :=
  | HoldServletCreator (m_servlet : Servlet)
  (** [make_shared<T>()], a new object for every request *)
  | ServletCreator (T : Servlet).

Definition creator_get (c : IServletCreator) : Servlet :=
  match c with HoldServletCreator s => s | ServletCreator T => T end.

Record ServletDispatch := mkDispatch {
  m_datas : gmap (list Z) IServletCreator;
  m_globs : list (list Z * IServletCreator);
  m_default : option Servlet;
}.

Definition ServletDispatch_new : ServletDispatch := mkDispatch ∅ [] (Some (NotFoundServlet (lit "Xten/1.0"))).

Definition setDefault (s : option Servlet) (d : ServletDispatch) : ServletDispatch := mkDispatch (m_datas d) (m_globs d) s.

Definition addServletCreator (uri : list Z) (c : IServletCreator) (d : ServletDispatch) : ServletDispatch :=
  mkDispatch (<[uri := c]> (m_datas d)) (m_globs d) (m_default d).

Definition addServlet (uri : list Z) (s : Servlet) (d : ServletDispatch) : ServletDispatch :=
  mkDispatch (<[uri := HoldServletCreator s]> (m_datas d)) (m_globs d) (m_default d).

Definition addServlet_cb (uri : list Z) (cb : Callback) (d : ServletDispatch) : ServletDispatch :=
  mkDispatch (<[uri := HoldServletCreator (FunctionServlet cb)]> (m_datas d)) (m_globs d) (m_default d).

(** The loop that erases the first entry of the pattern. *)
Fixpoint erase_glob (uri : list Z) (l : list (list Z * IServletCreator)) : list (list Z * IServletCreator) :=
  match l with
  | [] => []
  | (p, c) :: l => if bool_decide (p = uri) then l else (p, c) :: erase_glob uri l
  end.

Definition addGlobServletCreator (uri : list Z) (c : IServletCreator) (d : ServletDispatch) : ServletDispatch :=
  mkDispatch (m_datas d) (erase_glob uri (m_globs d) ++ [(uri, c)]) (m_default d).

Definition addGlobServlet (uri : list Z) (s : Servlet) (d : ServletDispatch) : ServletDispatch :=
  mkDispatch (m_datas d) (erase_glob uri (m_globs d) ++ [(uri, HoldServletCreator s)]) (m_default d).

Definition addGlobServlet_cb (uri : list Z) (cb : Callback) (d : ServletDispatch) : ServletDispatch :=
  addGlobServlet uri (FunctionServlet cb) d.

Definition delServlet (uri : list Z) (d : ServletDispatch) : ServletDispatch :=
  mkDispatch (delete uri (m_datas d)) (m_globs d) (m_default d).

Definition delGlobServlet (uri : list Z) (d : ServletDispatch) : ServletDispatch :=
  mkDispatch (m_datas d) (erase_glob uri (m_globs d)) (m_default d).

Definition getServlet (uri : list Z) (d : ServletDispatch) : option Servlet := creator_get <$> m_datas d !! uri.

Fixpoint find_glob (test : list Z -> bool) (l : list (list Z * IServletCreator)) : option Servlet :=
  match l with
  | [] => None
  | (p, c) :: l => if test p then Some (creator_get c) else find_glob test l
  end.

Definition getGlobServlet (uri : list Z) (d : ServletDispatch) : option Servlet :=
  find_glob (fun p => bool_decide (p = uri)) (m_globs d).

Definition getMatchedServlet (uri : list Z) (d : ServletDispatch) : option Servlet :=
  match m_datas d !! uri with
  | Some c => Some (creator_get c)
  | None => match find_glob (fun p => fnmatch (cstr p) (cstr uri) =? 0) (m_globs d) with
            | Some s => Some s
            | None => m_default d
            end
  end.

(** ** Handling *)
Definition not_found_page (name : list Z) : list Z :=
  lit "<html><head><title>404 Not Found" ++
  lit "</title></head><body><center><h1>404 Not Found</h1></center>" ++
  lit "<hr><center>" ++ name ++ lit "</center></body></html>".

Definition NotFoundServlet_handle (name : list Z) (rsp : HttpResponse) : Z * HttpResponse :=
  (0, setBody (not_found_page name) (setHeader (lit "Content-Type") (lit "text/html")
        (setHeader (lit "Server") (lit "Xten/1.0.0") (setStatus STATUS_NOT_FOUND rsp)))).

(** A callback works on the two messages and on the session. *)
Context {St : Type} (run_cb : Callback -> HttpRequest -> HttpResponse -> M St ((Z * HttpRequest) * HttpResponse)).

Definition servlet_handle (s : Servlet) (req : HttpRequest) (rsp : HttpResponse) : M St ((Z * HttpRequest) * HttpResponse) :=
  match s with
  | FunctionServlet cb => run_cb cb req rsp
  | NotFoundServlet name => let '(r, rsp) := NotFoundServlet_handle name rsp in mret ((r, req), rsp)
  end.

Definition dispatch_handle (d : ServletDispatch) (req : HttpRequest) (rsp : HttpResponse) : M St ((Z * HttpRequest) * HttpResponse) :=
  match getMatchedServlet (m_path req) d with
  | Some s => servlet_handle s req rsp
  | None => mret ((0, req), rsp)
  end.

(** The table a server starts with; [status] shows its state. *)
Definition server_dispatch (name : list Z) (status : Servlet) : ServletDispatch :=
  addServlet (lit "/_/status") status (setDefault (Some (NotFoundServlet name)) ServletDispatch_new).

(** ** Histories *)
Inductive dispatch_op :=
  | OAdd (uri : list Z) (c : IServletCreator)
  | ODel (uri : list Z)
  | OAddGlob (p : list Z) (c : IServletCreator)
  | ODelGlob (p : list Z)
  | ODefault (s : option Servlet).

Definition dispatch_apply (d : ServletDispatch) (o : dispatch_op) : ServletDispatch :=
  match o with
  | OAdd u c => addServletCreator u c d
  | ODel u => delServlet u d
  | OAddGlob p c => addGlobServletCreator p c d
  | ODelGlob p => delGlobServlet p d
  | ODefault s => setDefault s d
  end.

(** The history read backwards: what was last said about a URI, about a
    pattern (with the time it was said) and about the default. *)
Fixpoint last_exact (rops : list dispatch_op) (uri : list Z) : option IServletCreator :=
  match rops with
  | [] => None
  | OAdd u c :: r => if bool_decide (u = uri) then Some c else last_exact r uri
  | ODel u :: r => if bool_decide (u = uri) then None else last_exact r uri
  | _ :: r => last_exact r uri
  end.

Fixpoint last_glob (rops : list dispatch_op) (p : list Z) : option (nat * IServletCreator) :=
  match rops with
  | [] => None
  | OAddGlob q c :: r => if bool_decide (q = p) then Some (length r, c) else last_glob r p
  | ODelGlob q :: r => if bool_decide (q = p) then None else last_glob r p
  | _ :: r => last_glob r p
  end.

Fixpoint last_default (rops : list dispatch_op) : option Servlet :=
  match rops with
  | [] => m_default ServletDispatch_new
  | ODefault s :: _ => s
  | _ :: r => last_default r
  end.

Definition dispatch_after (rops : list dispatch_op) : ServletDispatch := foldr (fun o d => dispatch_apply d o) ServletDispatch_new rops.

(** The patterns with their times, in the order of the table. *)
Fixpoint timed (rops : list dispatch_op) : list (nat * (list Z * IServletCreator)) :=
  match rops with
  | [] => []
  | OAddGlob q c :: r => filter (fun e => e.2.1 <> q) (timed r) ++ [(length r, (q, c))]
  | ODelGlob q :: r => filter (fun e => e.2.1 <> q) (timed r)
  | _ :: r => timed r
  end.

Lemma timed_last rops : forall p i c, (i, (p, c)) ∈ timed rops <-> last_glob rops p = Some (i, c).
Proof.
  induction rops as [|[u d|u|q d|q|s] r IH]; intros p i c; cbn [timed last_glob]; try done.
  - split; [intros ?%elem_of_nil|]; done.
  - rewrite elem_of_app, list_elem_of_filter, list_elem_of_singleton, IH. cbn [fst snd].
    case_bool_decide; subst; split; [intros [[? ?]|?]|intros [= <- <-]; by right|intros [[? ?]|?]|intros ?; left]; naive_solver.
  - rewrite list_elem_of_filter, IH. cbn [fst snd]. case_bool_decide; subst; naive_solver.
Qed.

Lemma forall_filter {A} (R : A -> Prop) (Q : A -> Prop) `{!forall x, Decision (Q x)} (l : list A) :
  Forall R l -> Forall R (filter Q l).
Proof. rewrite !list.Forall_forall. intros HR x [_ Hx]%list_elem_of_filter. by apply HR. Qed.

Lemma timed_bound rops : Forall (fun e => e.1 < length rops)%nat (timed rops).
Proof.
  assert (forall r, Forall (fun e => e.1 < length r)%nat (timed r) -> Forall (fun e => e.1 < S (length r))%nat (timed r)) as Hw.
  { intros r. apply Forall_impl. lia. }
  induction rops as [|[u d|u|q d|q|s] r IH]; cbn [timed length]; auto.
  - apply Forall_app. split; [apply forall_filter; auto|]. constructor; [cbn; lia|constructor].
  - apply forall_filter. auto.
Qed.

Definition earlier (a b : nat * (list Z * IServletCreator)) : Prop := (a.1 < b.1)%nat.

Lemma sorted_filter {A} (R : A -> A -> Prop) (Q : A -> Prop) `{!forall x, Decision (Q x)} (l : list A) :
  StronglySorted R l -> StronglySorted R (filter Q l).
Proof.
  induction 1 as [|x l _ IH Hall]; [constructor|]. rewrite list.filter_cons. case_decide; [|done].
  constructor; [done|]. by apply forall_filter.
Qed.

Lemma sorted_snoc {A} (R : A -> A -> Prop) (l : list A) x :
  StronglySorted R l -> Forall (fun y => R y x) l -> StronglySorted R (l ++ [x]).
Proof.
  induction 1 as [|y l _ IH Hall]; cbn [app]; intros Hx; [repeat constructor|].
  inversion Hx; subst. constructor; [by apply IH|]. apply Forall_app. split; [done|]. by constructor.
Qed.

Lemma timed_sorted rops : StronglySorted earlier (timed rops).
Proof.
  induction rops as [|[u d|u|q d|q|s] r IH]; cbn [timed]; try done; [constructor| |by apply sorted_filter].
  apply sorted_snoc; [by apply sorted_filter|]. apply forall_filter. apply timed_bound.
Qed.

(** Erasing the first entry of a pattern erases all there are. *)
Lemma erase_filter q (l : list (nat * (list Z * IServletCreator))) : NoDup (map (fun e => e.2.1) l) ->
  erase_glob q (map snd l) = map snd (filter (fun e => e.2.1 <> q) l).
Proof.
  induction l as [|[i [p c]] l IH]; intros Hn; [done|]. apply list.NoDup_cons in Hn as [Hp Hn].
  cbn [map erase_glob snd]. rewrite list.filter_cons. cbn [fst snd]. case_bool_decide as E.
  - rewrite decide_False by (intros H; by apply H). subst. rewrite filter_all; [done|].
    intros e He Hq. apply Hp. apply list_elem_of_fmap. exists e. by split.
  - rewrite decide_True by done. cbn [map snd]. by rewrite IH.
Qed.

Lemma nodup_filter {A B} (f : A -> B) (Q : A -> Prop) `{!forall x, Decision (Q x)} (l : list A) :
  NoDup (map f l) -> NoDup (map f (filter Q l)).
Proof.
  induction l as [|x l IH]; intros Hn; [done|]. apply list.NoDup_cons in Hn as [Hx Hn].
  rewrite list.filter_cons. case_decide; [|by apply IH]. cbn [map]. apply list.NoDup_cons. split; [|by apply IH].
  intros (y & E & [_ Hy]%list_elem_of_filter)%list_elem_of_fmap. apply Hx. apply list_elem_of_fmap. by exists y.
Qed.

Lemma timed_nodup rops : NoDup (map (fun e => e.2.1) (timed rops)).
Proof.
  induction rops as [|[u d|u|q d|q|s] r IH]; cbn [timed]; try done; [constructor| |by apply nodup_filter].
  rewrite map_app. cbn [map fst snd]. apply nodup_snoc; [by apply nodup_filter|].
  intros (y & -> & [Hy _]%list_elem_of_filter)%list_elem_of_fmap. done.
Qed.

Lemma dispatch_after_ok rops :
  let d := dispatch_after rops in
  m_globs d = map snd (timed rops) /\ m_default d = last_default rops /\ forall u, m_datas d !! u = last_exact rops u.
Proof.
  induction rops as [|o r (Hg & Hd & He)]; cbv zeta; [split_and!; try done; intros u; apply lookup_empty|].
  change (dispatch_after (o :: r)) with (dispatch_apply (dispatch_after r) o). set (d := dispatch_after r) in *.
  destruct o as [u c|u|q c|q|s]; cbn [dispatch_apply addServletCreator delServlet addGlobServletCreator delGlobServlet setDefault
    m_globs m_default m_datas timed last_default last_exact]; split_and!; try done.
  - intros u'. case_bool_decide; subst; [by rewrite lookup_insert_eq|by rewrite lookup_insert_ne].
  - intros u'. case_bool_decide; subst; [by rewrite lookup_delete_eq|by rewrite lookup_delete_ne].
  - rewrite Hg, erase_filter by apply timed_nodup. by rewrite map_app.
  - rewrite Hg, erase_filter by apply timed_nodup. done.
Qed.

(** The first entry that passes is the earliest one that does. *)
Lemma find_glob_earliest test (l : list (nat * (list Z * IServletCreator))) i p c : StronglySorted earlier l -> (i, (p, c)) ∈ l -> test p = true ->
  (forall j q d, (j, (q, d)) ∈ l -> test q = true -> (i <= j)%nat) ->
  find_glob test (map snd l) = Some (creator_get c).
Proof.
  induction 1 as [|[j [q d]] l _ IH Hall]; intros Hin Hp Hmin; [by apply elem_of_nil in Hin|]. cbn [map snd find_glob].
  apply elem_of_cons in Hin as [[= -> -> ->]|Hin]; [by rewrite Hp|].
  destruct (test q) eqn:Hq.
  - rewrite list.Forall_forall in Hall. specialize (Hall _ Hin). unfold earlier in Hall. cbn in Hall.
    specialize (Hmin j q d ltac:(by left) Hq). lia.
  - apply IH; [done|done|]. intros j' q' d' Hin'. apply (Hmin j' q' d'). by right.
Qed.

Lemma find_glob_none test (l : list (nat * (list Z * IServletCreator))) : (forall i p c, (i, (p, c)) ∈ l -> test p = false) -> find_glob test (map snd l) = None.
Proof.
  induction l as [|[i [p c]] l IH]; intros H; [done|]. cbn [map snd find_glob].
  rewrite (H i p c) by by left. apply IH. intros i' p' c' Hin. apply (H i' p' c'). by right.
Qed.

(** ** Properties *)

End servlet.

(** A pattern is a prefix followed by a star, or the text itself. *)
Definition demo_fnmatch (p s : list Z) : Z :=
  if is_prefix (take (length p - 1) p) s && bool_decide (drop (length p - 1) p = [42]) || bool_decide (p = s) then 0 else 1.

Definition demo_cb (n : Z) (rq : HttpRequest) (rsp : HttpResponse) : M unit ((Z * HttpRequest) * HttpResponse) :=
  mret ((n, rq), setBody (m_path rq) rsp).

