(* ===== verification/HttpServer.v ===== *)
(** http/http_server.cpp: the loop of one connection, over the session and
    the dispatcher.

    The switch to the process scheduler around the handler (SwitchScheduler)
    moves the fiber between threads and does not touch the messages; what the
    scheduler promises is in Scheduler.v. *)
From Stdlib Require Import List String.
From stdpp Require Import gmap.
From S2P Require Import Prelude Bytes Buffer ByteArray Stream Strings HttpMap Http HttpSession Servlet.

Section server.
Context {St : Type} {SS : Stream St} {P : Type} {Fsm : HttpFsm P}.
Context (lexical_cast : list Z -> option Z) (buffer_size max_body s_bufferSize : Z).
Context {Callback : Type} (fnmatch : list Z -> list Z -> Z).
Context (run_cb : Callback -> HttpRequest -> HttpResponse.HttpResponse -> M St ((Z * HttpRequest) * HttpResponse.HttpResponse)).

Record HttpServer := mkServer { _dispatch : ServletDispatch (Callback:=Callback); _is_keepAlive : bool; _name : list Z }.

(** [keepalive]: the configuration's flag, when there is a configuration;
    [status]: the servlet of the status page. *)
Definition HttpServer_new (name : list Z) (keepalive : option bool) (status : Servlet) : HttpServer :=
  mkServer (server_dispatch name status) (default false keepalive) name.

(** The response a handler starts with. *)
Definition prepared (sv : HttpServer) (req : HttpRequest) : HttpResponse.HttpResponse :=
  let rsp := createResponse req in
  let rsp := HttpResponse.setClose (m_close req || negb (_is_keepAlive sv)) rsp in
  let rsp := HttpResponse.setHeader (lit "Server") (_name sv) rsp in
  HttpResponse.setHeader (lit "Content-Type") (lit "application/json;charset=utf8") rsp.

(** One request; the handler may have changed it. *)
Definition handle_one (sv : HttpServer) (fuel : nat) (req : HttpRequest) : M St (Z * HttpRequest) :=
  '((_, req), rsp) ← dispatch_handle fnmatch run_cb (_dispatch sv) req (prepared sv req);
  ret ← SendResponse s_bufferSize fuel rsp;
  mret (ret, req).

(** [n] bounds the number of requests. *)
Fixpoint handleClient (sv : HttpServer) (n fuel : nat) : M St unit :=
  match n with
  | O => nofuel
  | S n =>
    r ← RecvRequest lexical_cast buffer_size max_body s_bufferSize fuel;
    match r with
    | None => modify s_close
    | Some req =>
      '(ret, req) ← handle_one sv fuel req;
      if (ret <=? 0) || m_close req || negb (_is_keepAlive sv) then modify s_close else handleClient sv n fuel
    end
  end.
End server.

(** ** Handlers that only look at the messages *)
Section pure.
Context {St : Type} {Callback : Type} (fnmatch : list Z -> list Z -> Z).
Context (run_cb : Callback -> HttpRequest -> HttpResponse.HttpResponse -> M St ((Z * HttpRequest) * HttpResponse.HttpResponse)).
Context (answer : Callback -> HttpRequest -> HttpResponse.HttpResponse -> (Z * HttpRequest) * HttpResponse.HttpResponse).
Context (pure_cb : forall cb req rsp s, run_cb cb req rsp s = (Ok (answer cb req rsp), s)).

Definition dispatch_answer (d : ServletDispatch) (req : HttpRequest) (rsp : HttpResponse.HttpResponse)
    : (Z * HttpRequest) * HttpResponse.HttpResponse :=
  match getMatchedServlet fnmatch (m_path req) d with
  | Some (FunctionServlet cb) => answer cb req rsp
  | Some (NotFoundServlet name) => ((0, req), (NotFoundServlet_handle name rsp).2)
  | None => ((0, req), rsp)
  end.

Lemma dispatch_pure d req rsp s : dispatch_handle fnmatch run_cb d req rsp s = (Ok (dispatch_answer d req rsp), s).
Proof. unfold dispatch_handle, dispatch_answer. destruct (getMatchedServlet _ _ _) as [[cb|name]|]; [apply pure_cb|done|done]. Qed.
End pure.

(** ** Properties *)
Section properties.
Context {St : Type} {SS : Stream St} {Mach : Machine} {SL : StreamLaws St}.
Context {P : Type} {Fsm : HttpFsm P} {FL : HttpFsmLaws P}.
Context (lexical_cast : list Z -> option Z) (buffer_size max_body s_bufferSize : Z).
Context {Callback : Type} (fnmatch : list Z -> list Z -> Z).
Context (run_cb : Callback -> HttpRequest -> HttpResponse.HttpResponse -> M St ((Z * HttpRequest) * HttpResponse.HttpResponse)).
Context (answer : Callback -> HttpRequest -> HttpResponse.HttpResponse -> (Z * HttpRequest) * HttpResponse.HttpResponse).

(** C30: The server on a connection that brings one request and ends: the
    servlet the dispatcher finds for the path is called once, with the
    request as it was sent and a response that closes the connection unless
    both sides keep it open; its response is written once, whole, behind the
    permission to continue if the client asked for it, and the connection is
    closed. *)
Theorem connection_served sv r n fuel s :
  2 <= buffer_size < 2 ^ 31 -> 0 <= max_body < 2 ^ 32 -> 0 < s_bufferSize ->
  (forall s, exists r s', s_read 0 s = (Ok (r, []), s') /\ - 2 ^ 31 <= r <= 0 /\ sin s' = sin s /\ sspace s' = sspace s) ->
  (forall n s r bs s', s_read n s = (Ok (r, bs), s') -> - 2 ^ 31 <= r < 2 ^ 31) ->
  (forall n, 0 <= n < 2 ^ 64 -> lexical_cast (dec n) = Some n) -> sendable buffer_size max_body r ->
  (forall cb req rsp s, run_cb cb req rsp s = (Ok (answer cb req rsp), s)) ->
  let got := received_request r in
  let out := HttpResponse.response_dump (dispatch_answer fnmatch answer (_dispatch sv) got (prepared sv got)).2 in
  sin s = request_dump r -> zlen (sin s) + max_body + zlen out + 32 < Z.of_nat fuel -> zlen out < 2 ^ 31 ->
  zlen s_continue + zlen out <= sspace s -> (2 <= n)%nat ->
  exists s', handleClient lexical_cast buffer_size max_body s_bufferSize fnmatch run_cb sv n fuel s = (Ok tt, s') /\
    same_request r got /\ sin s' = [] /\ sspace s' = 0 /\
    exists s1, sout s1 = sout s ++ (if expects r then s_continue else []) ++ out /\
      (s' = s_close s1 \/ s' = s_close (s_close s1)).
Proof.
  intros Hb Hm Hblk H0 Hint Hc Hs Hh got out Hin Hf Hout Hsp Hn.
  pose proof (Zle_0_nat (length out)) as Hpos.
  destruct (RecvRequest_ok (P:=P) lexical_cast buffer_size max_body s_bufferSize Hb ltac:(lia) Hblk r [] fuel s Hc Hs)
    as (lost & s1 & E & Hl & Hll & Ho & Hs1); [by rewrite app_nil_r|lia|destruct (expects r); (done || lia)|].
  symmetry in Hl. apply app_eq_nil in Hl as [-> Hi1]. fold got in E.
  assert (same_request r got) as Hsame by by eapply received_same.
  assert ((0 <= if expects r then zlen s_continue else 0) /\ (if expects r then zlen s_continue else 0) <= zlen s_continue) as Hce
    by (destruct (expects r); vm_compute; split; congruence).
  destruct (WriteFixSize_ok s_bufferSize Hblk fuel s1 out) as (s2 & E2 & Ho2 & Hi2 & Hsp2); [lia|lia|lia|].
  assert (exists req', handle_one s_bufferSize fnmatch run_cb sv fuel got s1 = (Ok (s32 (zlen out), req'), s2)) as (req' & E3).
  { unfold handle_one. step (dispatch_pure fnmatch run_cb answer Hh (_dispatch sv) got (prepared sv got) s1).
    fold out. unfold out in E2. destruct (dispatch_answer _ _ _ _ _) as [[x req'] rsp]. exists req'.
    unfold SendResponse, mbind, M_bind. cbn [snd] in E2. rewrite E2. done. }
  destruct n as [|n]; [lia|]. cbn [handleClient]. step E. step E3.
  assert (sout s2 = sout s ++ (if expects r then s_continue else []) ++ out) as Ho3 by by rewrite Ho2, Ho, <- app_assoc.
  destruct (_ || _ || _).
  - exists (s_close s2). destruct (s_close_ok s2). split_and!; try done. exists s2. split; [done|by left].
  - destruct n as [|n]; [lia|]. cbn [handleClient].
    destruct (RecvRequest_end (P:=P) lexical_cast buffer_size max_body s_bufferSize ltac:(lia) Hint fuel s2)
      as (s3 & E5 & Ho5); [congruence|lia|].
    step E5. exists (s_close (s_close s3)). destruct (s_close_ok (s_close s3)). split_and!; try done. exists s3. split; [congruence|by right].
Qed.
End properties.

(** A server that answers with the path it was asked for. *)
#[local] Existing Instance demo_machine.

Definition echo_path (cb : unit) (req : HttpRequest) (rsp : HttpResponse.HttpResponse) : (Z * HttpRequest) * HttpResponse.HttpResponse :=
  ((0, req), HttpResponse.setBody (m_path req) rsp).

Definition demo_server : HttpServer (Callback:=unit) :=
  mkServer (addGlobServlet_cb (lit "/api/*") tt (server_dispatch (lit "Xten") (FunctionServlet tt))) true (lit "Xten").

Lemma connection_served_witness :
  exists s', handleClient demo_cast 64 4096 16384 demo_fnmatch (fun cb req rsp s => (Ok (echo_path cb req rsp), s)) demo_server 3 10000
      (demo_connection (request_dump demo_request)) = (Ok tt, s') /\
    same_request demo_request (received_request demo_request) /\ sin s' = [] /\ sspace s' = 0.
Proof.
  destruct (connection_served demo_cast 64 4096 16384 demo_fnmatch (fun cb req rsp s => (Ok (echo_path cb req rsp), s)) echo_path
    demo_server demo_request 3 10000 (demo_connection (request_dump demo_request))) as (s' & E & H1 & H2 & H3 & _);
    [by_computation|by_computation|by_computation|exact pipe_read_nothing|exact pipe_read_int|exact demo_cast_dec|exact demo_request_sendable|
     done|by_computation|by_computation|by_computation|by_computation|by_computation|].
  exists s'. split_and!; [exact E|exact H1|exact H2|exact H3].
Defined.
