(* ===== verification/Address.v ===== *)
(** address.cpp: socket addresses.

    An object of the class [Address] is its structure of <sys/socket.h>; what the
    system and the comparisons see is the memory image of that structure.
    getaddrinfo, getifaddrs and inet_pton are the class [NetDb]; what the
    look-ups rely on of them is stated as laws about texts in the notation of
    RFC 4291 and in dotted decimal, which are read here by definitions of
    their own ([read_v4], [read_v6]). *)
From Stdlib Require Import List String Sorted.
From S2P Require Import Prelude Bytes Strings HttpMap Http.

#[export] Instance outcome_ret : MRet outcome := fun A a => Ok a.
#[export] Instance outcome_bind : MBind outcome := fun A B f m =>
  match m with Ok a => f a | Throw e => Throw e | AssertFail => AssertFail | Undef u => Undef u | NoFuel => NoFuel end.

Lemma ok_bind {A B} (x : A) (f : A -> outcome B) : Ok x ≫= f = f x.
Proof. done. Qed.

(** ** The structures *)
Definition AF_UNSPEC : Z := 0.
Definition AF_UNIX : Z := 1.
Definition AF_INET : Z := 2.
Definition AF_INET6 : Z := 10.
Definition AI_NUMERICHOST : Z := 4.

(** Ports and addresses are in network order, as their fields hold them. *)
Record sockaddr_in := mkIn { sin_family : Z; sin_port : Z; s_addr : Z; sin_zero : list Z }.
Record sockaddr_in6 := mkIn6 { sin6_family : Z; sin6_port : Z; sin6_flowinfo : Z; s6_addr : list Z; sin6_scope_id : Z }.
Record sockaddr_un := mkUn { sun_family : Z; sun_path : list Z }.
Record sockaddr := mkSa { sa_family : Z; sa_data : list Z }.

Definition zeros (n : nat) : list Z := repeat 0 n.

Definition in_image (a : sockaddr_in) : list Z := le_bytes 2 (sin_family a) ++ le_bytes 2 (sin_port a) ++ le_bytes 4 (s_addr a) ++ sin_zero a.
Definition in6_image (a : sockaddr_in6) : list Z :=
  le_bytes 2 (sin6_family a) ++ le_bytes 2 (sin6_port a) ++ le_bytes 4 (sin6_flowinfo a) ++ s6_addr a ++ le_bytes 4 (sin6_scope_id a).
Definition un_image (a : sockaddr_un) : list Z := le_bytes 2 (sun_family a) ++ sun_path a.
Definition sa_image (a : sockaddr) : list Z := le_bytes 2 (sa_family a) ++ sa_data a.

Definition field (bs : list Z) (p n : Z) : Z := le_value (slice bs p n).
Definition in_of (bs : list Z) : sockaddr_in := mkIn (field bs 0 2) (field bs 2 2) (field bs 4 4) (slice bs 8 8).
Definition in6_of (bs : list Z) : sockaddr_in6 :=
  mkIn6 (field bs 0 2) (field bs 2 2) (field bs 4 4) (slice bs 8 16) (field bs 24 4).
Definition sa_of (bs : list Z) : sockaddr := mkSa (field bs 0 2) (slice bs 2 14).

(** Reading [n] bytes through a pointer to [bs]. *)
Definition reading {A} (n : Z) (bs : list Z) (f : list Z -> A) : outcome A :=
  if zlen bs <? n then Undef OutOfBounds else Ok (f bs).

Definition htons (z : Z) : Z := bswap 2 z.
Definition htonl (z : Z) : Z := bswap 4 z.

(** The classes; a [socklen_t] of its own only for unix addresses. *)
Inductive Address :=
  | IPv4Address (m_addr : sockaddr_in)
  | IPv6Address (m_addr : sockaddr_in6)
  | UnixAddress (m_addr : sockaddr_un) (m_length : Z)
  | UnknownAddress (m_addr : sockaddr).

Definition getAddr (a : Address) : list Z :=
  match a with
  | IPv4Address m => in_image m
  | IPv6Address m => in6_image m
  | UnixAddress m _ => un_image m
  | UnknownAddress m => sa_image m
  end.

Definition getAddrLen (a : Address) : Z :=
  match a with IPv4Address _ => 16 | IPv6Address _ => 28 | UnixAddress _ l => l | UnknownAddress _ => 16 end.

Definition getFamily (a : Address) : Z := field (getAddr a) 0 2.

Definition isIPAddress (a : Address) : bool :=
  match a with IPv4Address _ | IPv6Address _ => true | _ => false end.

(** ** Comparison *)
Fixpoint memcmp_loop (a b : list Z) : Z :=
  match a, b with
  | x :: a, y :: b => if x =? y then memcmp_loop a b else x - y
  | _, _ => 0
  end.

Definition memcmp (a b : list Z) (n : Z) : outcome Z :=
  if (zlen a <? n) || (zlen b <? n) then Undef OutOfBounds
  else Ok (memcmp_loop (take (Z.to_nat n) a) (take (Z.to_nat n) b)).

Definition operator_lt (l r : Address) : outcome bool :=
  result ← memcmp (getAddr l) (getAddr r) (Z.min (getAddrLen l) (getAddrLen r));
  mret (if result <? 0 then true else if 0 <? result then false else getAddrLen l <? getAddrLen r).

Definition operator_eq (l r : Address) : outcome bool :=
  if getAddrLen l =? getAddrLen r then
    result ← memcmp (getAddr l) (getAddr r) (getAddrLen l); mret (result =? 0)
  else Ok false.

Definition operator_ne (l r : Address) : outcome bool := b ← operator_eq l r; mret (negb b).

(** ** Construction *)
Definition IPv4Address_new (address port : Z) : Address :=
  IPv4Address (mkIn AF_INET (htons port) (htonl address) (zeros 8)).
Definition IPv6Address_new (address : list Z) (port : Z) : Address :=
  IPv6Address (mkIn6 AF_INET6 (htons port) 0 (take 16 address) 0).
Definition IPv6Address_empty : Address := IPv6Address (mkIn6 AF_INET6 0 0 (zeros 16) 0).
Definition UnknownAddress_new (family : Z) : Address := UnknownAddress (mkSa (u16 family) (zeros 14)).

Definition UNIX_PATH : Z := 108.
Definition MAX_PATH_LEN : Z := UNIX_PATH - 1.
(** [offsetof(sockaddr_un, sun_path)] *)
Definition PATH_OFFSET : Z := 2.

Definition UnixAddress_empty : Address := UnixAddress (mkUn AF_UNIX (zeros 108)) (PATH_OFFSET + MAX_PATH_LEN).

Definition abstract_path (path : list Z) : bool := head_in (is_char 0) path.

Definition UnixAddress_new (path : list Z) : outcome Address :=
  let m_length := u32 (zlen path + 1) in
  let m_length := if negb (bool_decide (path = [])) && abstract_path path then u32 (m_length - 1) else m_length in
  if UNIX_PATH <? m_length then Throw LogicError
  else Ok (UnixAddress (mkUn AF_UNIX (splice (zeros 108) 0 (take (Z.to_nat m_length) (path ++ [0])))) (u32 (m_length + PATH_OFFSET))).

Definition setAddrLen (v : Z) (a : Address) : Address :=
  match a with UnixAddress m _ => UnixAddress m v | _ => a end.

Definition getPort (a : Address) : Z :=
  match a with
  | IPv4Address m => htons (sin_port m)
  | IPv6Address m => htons (sin6_port m)
  | _ => 0
  end.

Definition setPort (v : Z) (a : Address) : Address :=
  match a with
  | IPv4Address m => IPv4Address (mkIn (sin_family m) (htons v) (s_addr m) (sin_zero m))
  | IPv6Address m => IPv6Address (mkIn6 (sin6_family m) (htons v) (sin6_flowinfo m) (s6_addr m) (sin6_scope_id m))
  | _ => a
  end.

(** [Address::Create] looks at the family and reads the structure of it. *)
Definition Address_Create (addr : option (list Z)) : outcome (option Address) :=
  match addr with
  | None => Ok None
  | Some bs =>
    family ← reading 2 bs (fun bs => field bs 0 2);
    if family =? AF_INET then m ← reading 16 bs in_of; mret (Some (IPv4Address m))
    else if family =? AF_INET6 then m ← reading 28 bs in6_of; mret (Some (IPv6Address m))
    else m ← reading 16 bs sa_of; mret (Some (UnknownAddress m))
  end.

(** ** Masks *)
(** [CreateMask<T>]: [w] is the width of [T]; the literal 1 is an [int]. *)
Definition CreateMask (w bits : Z) : outcome Z :=
  let n := u64 (w - bits) in
  if 32 <=? n then Undef ShiftWidth
  else let one := s32 (Z.shiftl 1 n) in
       if one - 1 <? - 2 ^ 31 then Undef SignedOverflow else Ok (uwrap w (one - 1)).

Fixpoint CountBytes_loop (fuel : nat) (value result : Z) : outcome Z :=
  match fuel with
  | O => NoFuel
  | S fuel => if value =? 0 then Ok result else CountBytes_loop fuel (Z.land value (value - 1)) (u32 (result + 1))
  end.
(** A word of [w] bits has at most [w] ones. *)
Definition CountBytes (w value : Z) : outcome Z := CountBytes_loop (S (Z.to_nat w)) value 0.

Definition set_s_addr (v : Z) (m : sockaddr_in) : sockaddr_in := mkIn (sin_family m) (sin_port m) v (sin_zero m).
Definition set_s6_addr (v : list Z) (m : sockaddr_in6) : sockaddr_in6 :=
  mkIn6 (sin6_family m) (sin6_port m) (sin6_flowinfo m) v (sin6_scope_id m).

Module V4.
Definition broadcastAddress (m : sockaddr_in) (prefix_len : Z) : outcome (option Address) :=
  if 32 <? prefix_len then Ok None else
  mask ← CreateMask 32 prefix_len;
  mret (Some (IPv4Address (set_s_addr (Z.lor (s_addr m) (htonl mask)) m))).

Definition networdAddress (m : sockaddr_in) (prefix_len : Z) : outcome (option Address) :=
  if 32 <? prefix_len then Ok None else
  mask ← CreateMask 32 prefix_len;
  mret (Some (IPv4Address (set_s_addr (Z.land (s_addr m) (htonl mask)) m))).

Definition subnetMask (prefix_len : Z) : outcome (option Address) :=
  mask ← CreateMask 32 prefix_len;
  mret (Some (IPv4Address (mkIn AF_INET 0 (u32 (Z.lnot (htonl mask))) (zeros 8)))).

Definition insert (m : sockaddr_in) : list Z :=
  let addr := htonl (s_addr m) in
  dec (Z.land (Z.shiftr addr 24) 255) ++ lit "." ++ dec (Z.land (Z.shiftr addr 16) 255) ++ lit "." ++
  dec (Z.land (Z.shiftr addr 8) 255) ++ lit "." ++ dec (Z.land addr 255) ++ lit ":" ++ dec (htons (sin_port m)).
End V4.

(** [addr.s6_addr[i] = v], a C array of 16 bytes *)
Definition set_byte (i v : Z) (bs : list Z) : outcome (list Z) :=
  if (0 <=? i) && (i <? zlen bs) then Ok (<[Z.to_nat i := v]> bs) else Undef OutOfBounds.
Definition get_byte (i : Z) (bs : list Z) : outcome Z :=
  if (0 <=? i) && (i <? zlen bs) then Ok (nth (Z.to_nat i) bs 0) else Undef OutOfBounds.

(** [for (int i = from; i < to; ++i) s6_addr[i] = v] *)
Fixpoint fill_loop (n : nat) (i v : Z) (bs : list Z) : outcome (list Z) :=
  match n with O => Ok bs | S n => bs ← set_byte i v bs; fill_loop n (i + 1) v bs end.
Definition fill (from to v : Z) (bs : list Z) : outcome (list Z) := fill_loop (Z.to_nat (to - from)) from v bs.

(** Lower-case hexadecimal, [std::hex]. *)
Definition hexchar (d : Z) : Z := if d <? 10 then 48 + d else 87 + d.
Fixpoint hex_loop (fuel : nat) (n : Z) (acc : list Z) : list Z :=
  match fuel with
  | O => acc
  | S fuel => if n <? 16 then hexchar n :: acc else hex_loop fuel (n / 16) (hexchar (n mod 16) :: acc)
  end.
Definition hex (n : Z) : list Z := hex_loop 8 n [].

Module V6.
Definition broadcastAddress (m : sockaddr_in6) (prefix_len : Z) : outcome (option Address) :=
  mask ← CreateMask 8 (prefix_len mod 8);
  b ← get_byte (prefix_len / 8) (s6_addr m);
  bs ← set_byte (prefix_len / 8) (Z.lor b mask) (s6_addr m);
  bs ← fill (prefix_len / 8 + 1) 16 255 bs;
  mret (Some (IPv6Address (set_s6_addr bs m))).

Definition networdAddress (m : sockaddr_in6) (prefix_len : Z) : outcome (option Address) :=
  mask ← CreateMask 8 (prefix_len mod 8);
  b ← get_byte (prefix_len / 8) (s6_addr m);
  bs ← set_byte (prefix_len / 8) (Z.land b mask) (s6_addr m);
  bs ← fill (prefix_len / 8 + 1) 16 0 bs;
  mret (Some (IPv6Address (set_s6_addr bs m))).

Definition subnetMask (prefix_len : Z) : outcome (option Address) :=
  mask ← CreateMask 8 (prefix_len mod 8);
  bs ← set_byte (prefix_len / 8) (u8 (Z.lnot mask)) (zeros 16);
  bs ← fill 0 (prefix_len / 8) 255 bs;
  mret (Some (IPv6Address (mkIn6 AF_INET6 0 0 bs 0))).

(** The eight [uint16_t] of the address, as the host reads them. *)
Definition groups (bs : list Z) : list Z := map (fun i => field bs (2 * i) 2) (seqZ 0 8).

(** The loop over the groups; [prev] is [addr[i - 1]], none when [i] is 0. *)
Fixpoint insert_loop (prev : option Z) (addr : list Z) (os : list Z) (used_zeros : bool) : list Z * bool :=
  match addr with
  | [] => (os, used_zeros)
  | g :: addr =>
    if (g =? 0) && negb used_zeros then insert_loop (Some g) addr os used_zeros
    else
      let '(os, used_zeros) := match prev with
                               | Some p => if (p =? 0) && negb used_zeros then (os ++ lit ":", true) else (os, used_zeros)
                               | None => (os, used_zeros)
                               end in
      let os := match prev with Some _ => os ++ lit ":" | None => os end in
      insert_loop (Some g) addr (os ++ hex (htons g)) used_zeros
  end.

Definition insert (m : sockaddr_in6) : list Z :=
  let addr := groups (s6_addr m) in
  let '(os, used_zeros) := insert_loop None addr (lit "[") false in
  let os := if negb used_zeros && (nth 7 addr 0 =? 0) then os ++ lit "::" else os in
  os ++ lit "]:" ++ dec (htons (sin6_port m)).
End V6.

(** The virtual functions of the class IPAddress. *)
Module IPAddress.
Definition broadcastAddress (a : Address) (prefix_len : Z) : outcome (option Address) :=
  match a with
  | IPv4Address m => V4.broadcastAddress m prefix_len
  | IPv6Address m => V6.broadcastAddress m prefix_len
  | _ => Ok None
  end.
Definition networdAddress (a : Address) (prefix_len : Z) : outcome (option Address) :=
  match a with
  | IPv4Address m => V4.networdAddress m prefix_len
  | IPv6Address m => V6.networdAddress m prefix_len
  | _ => Ok None
  end.
Definition subnetMask (a : Address) (prefix_len : Z) : outcome (option Address) :=
  match a with
  | IPv4Address m => V4.subnetMask prefix_len
  | IPv6Address m => V6.subnetMask prefix_len
  | _ => Ok None
  end.
End IPAddress.
Import IPAddress.

(** ** Text *)
(** [ss << sun_path] reads up to a NUL, inside the array or not. *)
Definition c_text (path : list Z) : outcome (list Z) :=
  if existsb (is_char 0) path then Ok (cstr path) else Undef OutOfBounds.

(** [std::string(sun_path + 1, m_length - offset - 1)] *)
Definition getPath (m : sockaddr_un) (m_length : Z) : outcome (list Z) :=
  if (PATH_OFFSET <? m_length) && abstract_path (sun_path m) then
    let n := m_length - PATH_OFFSET - 1 in
    if zlen (sun_path m) - 1 <? n then Undef OutOfBounds
    else Ok (lit "\0" ++ slice (sun_path m) 1 n)
  else c_text (sun_path m).

Definition toString (a : Address) : outcome (list Z) :=
  match a with
  | IPv4Address m => Ok (V4.insert m)
  | IPv6Address m => Ok (V6.insert m)
  | UnixAddress m l => getPath m l
  | UnknownAddress m => Ok (lit "[UnknownAddress family=" ++ dec (sa_family m) ++ lit "]")
  end.

(** ** The system's tables *)
Record addrinfo := mkHints { ai_flags : Z; ai_family : Z; ai_socktype : Z; ai_protocol : Z }.

(** An entry of getifaddrs; an address can be missing. *)
Record ifaddrs := mkIf { ifa_name : list Z; ifa_addr : option (list Z); ifa_netmask : option (list Z) }.

Class NetDb := {
  (** an error number, or the addresses of the list of results *)
  getaddrinfo : list Z -> option (list Z) -> addrinfo -> Z + list (option (list Z));
  getifaddrs : option (list ifaddrs);
  (** the return value and what is stored when it is 1 *)
  inet_pton : Z -> list Z -> Z * list Z
}.

(** ** Looking up *)
(** [memchr(s, c, n)] over a string, as an index. *)
Definition memchr (c : Z) (s : list Z) (pos : nat) : option nat := find_from (head_in (is_char c)) s pos.

(** The node and the service a host is split into: [service] points into
    [host.c_str()] and is read up to the NUL. *)
Definition split_bracket (host : list Z) : list Z * option nat :=
  if negb (bool_decide (host = [])) && head_in (is_char 91) host then
    match memchr 93 host 1 with
    | Some endipv6 => (substr host 1 (endipv6 - 1),
                       if head_in (is_char 58) (drop (endipv6 + 1) host) then Some (endipv6 + 2)%nat else None)
    | None => ([], None)
    end
  else ([], None).

Definition split_host (host : list Z) : list Z * option (list Z) :=
  let '(node, service) := split_bracket host in
  let '(node, service) :=
    if bool_decide (node = []) then
      match memchr 58 host 0 with
      | Some p => match memchr 58 host (p + 1) with
                  | Some _ => (node, Some p)
                  | None => (substr host 0 p, Some (p + 1)%nat)
                  end
      | None => (node, None)
      end
    else (node, service) in
  (if bool_decide (node = []) then host else node, option_map (fun p => cstr (drop p host)) service).

Fixpoint each {A B} (f : A -> outcome B) (l : list A) : outcome (list B) :=
  match l with [] => Ok [] | x :: l => y ← f x; ys ← each f l; mret (y :: ys) end.

(** [std::multimap<std::string, std::pair<Address::ptr, uint32_t>>] *)
Abbreviation interfaces := (list (list Z * (Address * Z))).

Section lookups.
Context {DB : NetDb}.

Definition Lookup (result : list (option Address)) (host : list Z) (family type protocol : Z) :
    outcome (bool * list (option Address)) :=
  let '(node, service) := split_host host in
  match getaddrinfo (cstr node) service (mkHints 0 family type protocol) with
  | inl error => Ok (false, result)
  | inr results =>
    found ← each Address_Create results;
    mret (negb (bool_decide (result ++ found = [])), result ++ found)
  end.

Definition LookupAny (host : list Z) (family type protocol : Z) : outcome (option Address) :=
  '(found, result) ← Lookup [] host family type protocol;
  if found : bool then match result with a :: _ => Ok a | [] => Undef OutOfBounds end else Ok None.

(** [dynamic_pointer_cast<IPAddress>] *)
Definition asIPAddress (a : option Address) : option Address :=
  match a with Some a => if isIPAddress a then Some a else None | None => None end.

Fixpoint first_ip (l : list (option Address)) : option Address :=
  match l with
  | [] => None
  | i :: l => match asIPAddress i with Some v => Some v | None => first_ip l end
  end.

Definition LookupAnyIPAddress (host : list Z) (family type protocol : Z) : outcome (option Address) :=
  '(found, result) ← Lookup [] host family type protocol;
  if found : bool then Ok (first_ip result) else Ok None.

Definition IPAddress_Create (address : list Z) (port : Z) : outcome (option Address) :=
  match getaddrinfo address None (mkHints AI_NUMERICHOST AF_UNSPEC 0 0) with
  | inl error => Ok None
  | inr [] => Undef NullDeref
  | inr (r :: _) =>
    a ← Address_Create r;
    mret (match asIPAddress a with Some v => Some (setPort port v) | None => None end)
  end.

Definition IPv4Address_Create (address : list Z) (port : Z) : option Address :=
  let '(result, bytes) := inet_pton AF_INET address in
  if result <=? 0 then None
  else match IPv4Address_new 0 port with
       | IPv4Address m => Some (IPv4Address (set_s_addr (le_value bytes) m))
       | _ => None
       end.

Definition IPv6Address_Create (address : list Z) (port : Z) : option Address :=
  let '(result, bytes) := inet_pton AF_INET6 address in
  if result <=? 0 then None
  else match setPort port IPv6Address_empty with
       | IPv6Address m => Some (IPv6Address (set_s6_addr bytes m))
       | _ => None
       end.

(** ** The interfaces *)

Fixpoint multimap_insert (k : list Z) (v : Address * Z) (m : interfaces) : interfaces :=
  match m with
  | [] => [(k, v)]
  | (k', v') :: m' => if lex_lt k k' then (k, v) :: m else (k', v') :: multimap_insert k v m'
  end.

Fixpoint equal_range (k : list Z) (m : interfaces) : interfaces :=
  match m with
  | [] => []
  | (k', v) :: m => if lex_lt k' k then equal_range k m
                    else if lex_lt k k' then [] else (k', v) :: equal_range k m
  end.

Definition deref {A} (p : option A) : outcome A := match p with Some a => Ok a | None => Undef NullDeref end.

Fixpoint count_bytes (bs : list Z) (prefix_len : Z) : outcome Z :=
  match bs with
  | [] => Ok prefix_len
  | b :: bs => n ← CountBytes 8 b; count_bytes bs (u32 (prefix_len + n))
  end.

(** The body of the loop: nothing, or an address with its prefix length. *)
Definition interface_address (next : ifaddrs) (family : Z) : outcome (option (Address * Z)) :=
  addr ← deref (ifa_addr next);
  sa_family ← reading 2 addr (fun bs => field bs 0 2);
  if negb (family =? AF_UNSPEC) && negb (family =? sa_family) then mret None
  else if sa_family =? AF_INET then
    a ← Address_Create (Some addr);
    bs ← deref (ifa_netmask next);
    netmask ← reading 16 bs in_of;
    prefix_len ← CountBytes 32 (s_addr netmask);
    mret (option_map (fun a => (a, prefix_len)) a)
  else if sa_family =? AF_INET6 then
    a ← Address_Create (Some addr);
    bs ← deref (ifa_netmask next);
    netmask ← reading 28 bs in6_of;
    prefix_len ← count_bytes (s6_addr netmask) 0;
    mret (option_map (fun a => (a, prefix_len)) a)
  else mret None.

Fixpoint interface_loop (l : list ifaddrs) (family : Z) (result : interfaces) : outcome interfaces :=
  match l with
  | [] => Ok result
  | next :: l =>
    e ← interface_address next family;
    interface_loop l family (match e with Some v => multimap_insert (cstr (ifa_name next)) v result | None => result end)
  end.

Definition GetInterfaceAddresses_all (result : interfaces) (family : Z) : outcome (bool * interfaces) :=
  match getifaddrs with
  | None => Ok (false, result)
  | Some l => result ← interface_loop l family result; mret (negb (bool_decide (result = [])), result)
  end.

Definition GetInterfaceAddresses (result : list (Address * Z)) (iface : list Z) (family : Z) :
    outcome (bool * list (Address * Z)) :=
  if bool_decide (iface = []) || bool_decide (iface = lit "*") then
    let result := if (family =? AF_INET) || (family =? AF_UNSPEC) then result ++ [(IPv4Address_new 0 0, 0)] else result in
    let result := if (family =? AF_INET6) || (family =? AF_UNSPEC) then result ++ [(IPv6Address_empty, 0)] else result in
    Ok (true, result)
  else
    '(found, results) ← GetInterfaceAddresses_all [] family;
    if found : bool then
      let result := result ++ map snd (equal_range iface results) in
      Ok (negb (bool_decide (result = [])), result)
    else Ok (false, result).
End lookups.

(** ** Masks *)
#[export] Instance exn_eq_dec : EqDecision exn.
Proof. solve_decision. Defined.
#[export] Instance undefined_eq_dec : EqDecision undefined.
Proof. solve_decision. Defined.
#[export] Instance outcome_eq_dec {A} `{!EqDecision A} : EqDecision (outcome A).
Proof. solve_decision. Defined.

(** A decidable property of a short range of numbers, by computation. *)
Lemma range_cases (P : Z -> Prop) `{!forall x, Decision (P x)} a n x :
  bool_decide (Forall P (seqZ a n)) = true -> a <= x < a + n -> P x.
Proof.
  intros HP%bool_decide_eq_true Hx. rewrite list.Forall_forall in HP. apply HP, elem_of_seqZ. lia.
Qed.

Lemma CreateMask_32 p : 2 <= p <= 32 -> CreateMask 32 p = Ok (2 ^ (32 - p) - 1).
Proof. intros. apply (range_cases (fun p => CreateMask 32 p = Ok (2 ^ (32 - p) - 1)) 2 31); [by vm_compute|lia]. Qed.

Lemma CreateMask_8 p : 0 <= p < 8 -> CreateMask 8 p = Ok (2 ^ (8 - p) - 1).
Proof. intros. apply (range_cases (fun p => CreateMask 8 p = Ok (2 ^ (8 - p) - 1)) 0 8); [by vm_compute|lia]. Qed.

Lemma CreateMask_wide p : 32 < p < 2 ^ 32 -> CreateMask 32 p = Undef ShiftWidth.
Proof.
  intros Hp. unfold CreateMask.
  replace (u64 (32 - p)) with (32 - p + 2 ^ 64)
    by (unfold uwrap; rewrite <- (Z.mod_small (32 - p + 2 ^ 64) (2 ^ 64)) by lia; by rewrite <- Z.add_mod_idemp_r, Z.mod_same, Z.add_0_r by lia).
  by rewrite (proj2 (Z.leb_le _ _)) by lia.
Qed.

(** ** Bytes of words under bit operations *)
Section bitwise.
Context (op : Z -> Z -> Z) (bop : bool -> bool -> bool).
Context (op_spec : forall a b n, Z.testbit (op a b) n = bop (Z.testbit a n) (Z.testbit b n)).
Context (bop_false : bop false false = false).

Lemma le_bytes_op n : forall a b, le_bytes n (op a b) = zip_with op (le_bytes n a) (le_bytes n b).
Proof using All.
  assert (forall a, a mod 256 = Z.land a (Z.ones 8)) as Hlow by (intros; by rewrite Z.land_ones).
  assert (forall a, a / 256 = Z.shiftr a 8) as Hhigh by (intros; by rewrite Z.shiftr_div_pow2).
  induction n as [|n IH]; intros a b; [done|]. cbn [le_bytes zip_with]. rewrite <- IH. f_equal.
  - rewrite !Hlow. apply Z.bits_inj'. intros i Hi. rewrite op_spec, !Z.land_spec, op_spec.
    destruct (Z.testbit (Z.ones 8) i); by rewrite ?andb_true_r, ?andb_false_r.
  - f_equal. rewrite !Hhigh. apply Z.bits_inj'. intros i Hi. by rewrite op_spec, !Z.shiftr_spec, op_spec by lia.
Qed.
End bitwise.

(** Bit [i] of an address, counted from the left. *)
Definition bit (bs : list Z) (i : Z) : bool := Z.testbit (nth (Z.to_nat (i / 8)) bs 0) (7 - i mod 8).

Lemma nth_zip op (a b : list Z) k : length a = length b -> op 0 0 = 0 ->
  nth k (zip_with op a b) 0 = op (nth k a 0) (nth k b 0).
Proof.
  intros Hl H0. revert k b Hl. induction a as [|x a IH]; intros k [|y b] Hl; try done.
  - by destruct k.
  - destruct k; [done|]. cbn. apply IH. cbn [length] in Hl. lia.
Qed.

Lemma bit_lor x m i : bit (le_bytes 4 (Z.lor x m)) i = bit (le_bytes 4 x) i || bit (le_bytes 4 m) i.
Proof.
  unfold bit. rewrite (le_bytes_op Z.lor orb) by (done || apply Z.lor_spec).
  rewrite nth_zip by (done || by rewrite !le_bytes_length). apply Z.lor_spec.
Qed.

Lemma bit_land x m i : bit (le_bytes 4 (Z.land x m)) i = bit (le_bytes 4 x) i && bit (le_bytes 4 m) i.
Proof.
  unfold bit. rewrite (le_bytes_op Z.land andb) by (done || apply Z.land_spec).
  rewrite nth_zip by (done || by rewrite !le_bytes_length). apply Z.land_spec.
Qed.

(** Two equations of booleans over two ranges, by computation. *)
Lemma range2_cases (f1 g1 f2 g2 : Z -> Z -> bool) a n m x y :
  forallb (fun x => forallb (fun y => eqb (f1 x y) (g1 x y) && eqb (f2 x y) (g2 x y)) (seqZ 0 m)) (seqZ a n) = true ->
  a <= x < a + n -> 0 <= y < m -> f1 x y = g1 x y /\ f2 x y = g2 x y.
Proof.
  intros HP Hx Hy. rewrite forallb_forall in HP.
  specialize (HP x ltac:(apply list_elem_of_In, elem_of_seqZ; lia)). rewrite forallb_forall in HP.
  specialize (HP y ltac:(apply list_elem_of_In, elem_of_seqZ; lia)).
  by apply andb_true_iff in HP as [->%eqb_prop ->%eqb_prop].
Qed.

Lemma bit_mask p i : 2 <= p <= 32 -> 0 <= i < 32 ->
  bit (le_bytes 4 (htonl (2 ^ (32 - p) - 1))) i = (p <=? i) /\
  bit (le_bytes 4 (u32 (Z.lnot (htonl (2 ^ (32 - p) - 1))))) i = (i <? p).
Proof.
  intros Hp Hi.
  apply (range2_cases (fun p i => bit (le_bytes 4 (htonl (2 ^ (32 - p) - 1))) i) Z.leb
    (fun p i => bit (le_bytes 4 (u32 (Z.lnot (htonl (2 ^ (32 - p) - 1))))) i) (fun p i => i <? p) 2 31 32);
    [vm_compute; reflexivity|lia|lia].
Qed.

Lemma lor_range w a b : 0 <= w -> in_u w a -> in_u w b -> in_u w (Z.lor a b).
Proof.
  intros Hw Ha Hb. replace (Z.lor a b) with (uwrap w (Z.lor a b)); [by apply uwrap_range|].
  unfold uwrap. rewrite <- Z.land_ones, Z.land_lor_distr_l, !Z.land_ones by lia.
  by rewrite (Z.mod_small a), (Z.mod_small b).
Qed.

Lemma land_range w a b : 0 <= w -> in_u w a -> in_u w (Z.land a b).
Proof.
  intros Hw Ha. replace (Z.land a b) with (uwrap w (Z.land a b)); [by apply uwrap_range|].
  unfold uwrap. rewrite <- Z.land_ones, (Z.land_comm a), <- Z.land_assoc, Z.land_ones by lia.
  by rewrite (Z.mod_small a).
Qed.

(** ** Arrays *)
(** [bs'] is [bs] but for the bytes whose index satisfies [P], which are [v]. *)
Definition overwritten (P : nat -> bool) (v : Z) (bs bs' : list Z) : Prop :=
  length bs' = length bs /\ (Forall is_byte bs -> is_byte v -> Forall is_byte bs') /\
  forall k, nth k bs' 0 = if P k then v else nth k bs 0.

Lemma nth_insert (bs : list Z) i k v : (i < length bs)%nat -> nth k (<[i:=v]> bs) 0 = if (k =? i)%nat then v else nth k bs 0.
Proof.
  revert i k. induction bs as [|x bs IH]; intros i k Hi; cbn [length] in Hi; [lia|].
  destruct i, k; cbn; try done. apply IH. lia.
Qed.

Lemma set_byte_ok i v bs : 0 <= i < zlen bs ->
  exists bs', set_byte i v bs = Ok bs' /\ overwritten (fun k => (k =? Z.to_nat i)%nat) v bs bs'.
Proof.
  intros Hi. unfold set_byte. rewrite (proj2 (Z.leb_le 0 i)), (proj2 (Z.ltb_lt i _)) by lia. eexists; split; [done|].
  split_and!; [by rewrite length_insert|intros; by apply Forall_insert|]. intros k. apply nth_insert. lia.
Qed.

Lemma fill_ok from to v bs : 0 <= from <= to -> to <= zlen bs ->
  exists bs', fill from to v bs = Ok bs' /\
    overwritten (fun k => (Z.to_nat from <=? k)%nat && (k <? Z.to_nat to)%nat) v bs bs'.
Proof.
  intros Hf Ht. unfold fill. remember (Z.to_nat (to - from)) as n eqn:Hn. revert from bs Hf Ht Hn.
  induction n as [|n IH]; intros from bs Hf Ht Hn; cbn [fill_loop].
  - exists bs. split; [done|]. split_and!; [done|done|]. intros k.
    destruct (Nat.leb_spec (Z.to_nat from) k), (Nat.ltb_spec k (Z.to_nat to)); (done || lia).
  - destruct (set_byte_ok from v bs ltac:(lia)) as (bs1 & E1 & Hl1 & Hb1 & Hk1).
    rewrite E1. rewrite ok_bind.
    destruct (IH (from + 1) bs1 ltac:(lia) ltac:(lia) ltac:(lia)) as (bs2 & E2 & Hl2 & Hb2 & Hk2).
    exists bs2. split; [done|]. split_and!; [congruence|auto|]. intros k. rewrite Hk2, Hk1.
    destruct (Nat.leb_spec (Z.to_nat (from + 1)) k), (Nat.ltb_spec k (Z.to_nat to)),
      (Nat.leb_spec (Z.to_nat from) k), (Nat.eqb_spec k (Z.to_nat from)); (done || lia).
Qed.

Lemma bit_mask8 r j : 0 <= r < 8 -> 0 <= j < 8 ->
  Z.testbit (2 ^ (8 - r) - 1) (7 - j) = (r <=? j) /\ Z.testbit (u8 (Z.lnot (2 ^ (8 - r) - 1))) (7 - j) = (j <? r).
Proof.
  intros Hr Hj.
  apply (range2_cases (fun r j => Z.testbit (2 ^ (8 - r) - 1) (7 - j)) Z.leb
    (fun r j => Z.testbit (u8 (Z.lnot (2 ^ (8 - r) - 1))) (7 - j)) (fun r j => j <? r) 0 8 8);
    [vm_compute; reflexivity|lia|lia].
Qed.

(** ** Subnets *)
(** What makes an object of the class: its family, and the widths of its fields. *)
Definition address_ok (a : Address) : Prop :=
  match a with
  | IPv4Address m => sin_family m = AF_INET /\ in_u 16 (sin_port m) /\ in_u 32 (s_addr m) /\
                     length (sin_zero m) = 8%nat /\ Forall is_byte (sin_zero m)
  | IPv6Address m => sin6_family m = AF_INET6 /\ in_u 16 (sin6_port m) /\ in_u 32 (sin6_flowinfo m) /\
                     length (s6_addr m) = 16%nat /\ Forall is_byte (s6_addr m) /\ in_u 32 (sin6_scope_id m)
  | UnixAddress m l => sun_family m = AF_UNIX /\ length (sun_path m) = 108%nat /\ Forall is_byte (sun_path m) /\
                       0 <= l <= 110 /\ 0 ∈ sun_path m
  | UnknownAddress m => in_u 16 (sa_family m) /\ length (sa_data m) = 14%nat /\ Forall is_byte (sa_data m)
  end.

(** The address proper, in network order. *)
Definition addr_bytes (a : Address) : list Z :=
  match a with IPv4Address m => le_bytes 4 (s_addr m) | IPv6Address m => s6_addr m | _ => [] end.
Definition addr_bits (a : Address) : Z := 8 * zlen (addr_bytes a).

(** The prefix lengths that are served. *)
Definition prefix_ok (a : Address) (p : Z) : Prop :=
  match a with IPv4Address _ => 2 <= p <= 32 | IPv6Address _ => 0 <= p < 128 | _ => False end.

(** Which bits [networdAddress] keeps. *)
Definition network_keeps (a : Address) (p i : Z) : bool :=
  match a with
  | IPv4Address _ => p <=? i
  | _ => (i <? 8 * (p / 8)) || (p <=? i) && (i <? 8 * (p / 8) + 8)
  end.

Definition subnets (a : Address) (p : Z) (broadcast network mask : Address) : Prop :=
  address_ok broadcast /\ address_ok network /\ address_ok mask /\
  getPort broadcast = getPort a /\ getPort network = getPort a /\ getPort mask = 0 /\
  (forall i, 0 <= i < addr_bits a ->
    bit (addr_bytes broadcast) i = (if i <? p then bit (addr_bytes a) i else true) /\
    bit (addr_bytes network) i = network_keeps a p i && bit (addr_bytes a) i /\
    bit (addr_bytes mask) i = (i <? p)).

Lemma zeros_bytes n : Forall is_byte (zeros n).
Proof. induction n; by constructor. Qed.

Lemma obind_inner {A B C} (m : outcome A) (f : A -> outcome B) (g : B -> outcome C) r :
  (m ≫= f) = Ok r -> (m ≫= fun a => f a ≫= g) = g r.
Proof. destruct m; try done. cbn. by intros ->. Qed.

Ltac ok H := rewrite H, ok_bind.

Lemma V4_subnets m p : address_ok (IPv4Address m) -> 2 <= p <= 32 ->
  exists b n s, V4.broadcastAddress m p = Ok (Some b) /\ V4.networdAddress m p = Ok (Some n) /\
    V4.subnetMask p = Ok (Some s) /\ subnets (IPv4Address m) p b n s.
Proof.
  intros (Hf & Hport & Ha & Hz & Hzb) Hp. unfold V4.broadcastAddress, V4.networdAddress, V4.subnetMask.
  rewrite (proj2 (Z.ltb_ge 32 p)) by lia. ok (CreateMask_32 p Hp).
  do 3 eexists. split_and!; [done..|].
  pose proof (bswap_range 4 (2 ^ (32 - p) - 1)) as Hm. change (8 * Z.of_nat 4) with 32 in Hm.
  unfold subnets. split_and!; cbn [address_ok set_s_addr sin_family sin_port s_addr sin_zero]; try done.
  - split_and!; try done. by apply lor_range.
  - split_and!; try done. by apply land_range.
  - split_and!; [done|done|by apply (uwrap_range 32)|done|apply zeros_bytes].
  - change (addr_bits (IPv4Address m)) with 32. intros i Hi. destruct (bit_mask p i Hp Hi) as [Hm1 Hm2].
    cbn [addr_bytes s_addr set_s_addr network_keeps]. rewrite bit_lor, bit_land, Hm1, Hm2, (andb_comm _ (p <=? i)).
    split_and!; try done. destruct (Z.ltb_spec i p), (Z.leb_spec p i); rewrite ?orb_false_r, ?orb_true_r; (done || lia).
Qed.

Lemma byte_lor a b : is_byte a -> is_byte b -> is_byte (Z.lor a b).
Proof. intros Ha Hb. apply (lor_range 8 a b); done. Qed.
Lemma byte_land a b : is_byte a -> is_byte (Z.land a b).
Proof. intros Ha. apply (land_range 8 a b); done. Qed.

Lemma mask8_byte r : 0 <= r < 8 -> is_byte (2 ^ (8 - r) - 1).
Proof. intros Hr. apply (range_cases (fun r => is_byte (2 ^ (8 - r) - 1)) 0 8); [by vm_compute|lia]. Qed.

Lemma nth_byte bs k : Forall is_byte bs -> is_byte (nth k bs 0).
Proof.
  intros H. destruct (Nat.lt_ge_cases k (length bs)); [|by rewrite nth_overflow].
  rewrite Forall_forall in H. apply H. by apply nth_In.
Qed.

(** One byte is changed by the mask and those after it are filled. *)
Lemma masked_bytes m p v fillv : address_ok (IPv6Address m) -> 0 <= p < 128 -> is_byte v -> is_byte fillv ->
  exists bs, (bs ← set_byte (p / 8) v (s6_addr m); fill (p / 8 + 1) 16 fillv bs) = Ok bs /\
    length bs = 16%nat /\ Forall is_byte bs /\
    forall k, nth k bs 0 = if (Z.to_nat (p / 8) <? k)%nat && (k <? 16)%nat then fillv
                           else if (k =? Z.to_nat (p / 8))%nat then v else nth k (s6_addr m) 0.
Proof.
  intros (Hf & Hport & Hfl & Hl & Hb & Hs) Hp Hv Hfv.
  destruct (set_byte_ok (p / 8) v (s6_addr m)) as (b1 & E1 & Hl1 & Hb1 & Hk1); [zlia|].
  destruct (fill_ok (p / 8 + 1) 16 fillv b1) as (b2 & E2 & Hl2 & Hb2 & Hk2); [zlia|lia|].
  exists b2. ok E1. split_and!; [done|congruence|auto|]. intros k. rewrite Hk2, Hk1.
  replace (Z.to_nat (p / 8 + 1)) with (S (Z.to_nat (p / 8))) by zlia. done.
Qed.

Lemma V6_mask p : 0 <= p < 128 ->
  exists bs, (bs ← set_byte (p / 8) (u8 (Z.lnot (2 ^ (8 - p mod 8) - 1))) (zeros 16); fill 0 (p / 8) 255 bs) = Ok bs /\
    length bs = 16%nat /\ Forall is_byte bs /\
    forall k, nth k bs 0 = if (k <? Z.to_nat (p / 8))%nat then 255
                           else if (k =? Z.to_nat (p / 8))%nat then u8 (Z.lnot (2 ^ (8 - p mod 8) - 1)) else 0.
Proof.
  intros Hp.
  destruct (set_byte_ok (p / 8) (u8 (Z.lnot (2 ^ (8 - p mod 8) - 1))) (zeros 16)) as (b1 & E1 & Hl1 & Hb1 & Hk1); [cbn; zlia|].
  destruct (fill_ok 0 (p / 8) 255 b1) as (b2 & E2 & Hl2 & Hb2 & Hk2); [zlia|rewrite Hl1; cbn; zlia|].
  exists b2. ok E1. split_and!; [done|by rewrite Hl2, Hl1| |].
  - apply Hb2; [|done]. apply Hb1; [apply zeros_bytes|]. by apply (uwrap_range 8).
  - intros k. rewrite Hk2, Hk1. cbn [Z.to_nat Nat.leb andb].
    destruct (k <? Z.to_nat (p / 8))%nat; [done|]. destruct (k =? Z.to_nat (p / 8))%nat; [done|].
    unfold zeros. apply nth_repeat.
Qed.

(** The bits of the three addresses, from the bytes they are made of. *)
Lemma masked_bits bytes bb bn bs p i : 0 <= p < 128 -> 0 <= i < 128 ->
  (forall k, nth k bb 0 = if (Z.to_nat (p / 8) <? k)%nat && (k <? 16)%nat then 255
     else if (k =? Z.to_nat (p / 8))%nat then Z.lor (nth (Z.to_nat (p / 8)) bytes 0) (2 ^ (8 - p mod 8) - 1) else nth k bytes 0) ->
  (forall k, nth k bn 0 = if (Z.to_nat (p / 8) <? k)%nat && (k <? 16)%nat then 0
     else if (k =? Z.to_nat (p / 8))%nat then Z.land (nth (Z.to_nat (p / 8)) bytes 0) (2 ^ (8 - p mod 8) - 1) else nth k bytes 0) ->
  (forall k, nth k bs 0 = if (k <? Z.to_nat (p / 8))%nat then 255
     else if (k =? Z.to_nat (p / 8))%nat then u8 (Z.lnot (2 ^ (8 - p mod 8) - 1)) else 0) ->
  bit bb i = (if i <? p then bit bytes i else true) /\
  bit bn i = ((i <? 8 * (p / 8)) || (p <=? i) && (i <? 8 * (p / 8) + 8)) && bit bytes i /\
  bit bs i = (i <? p).
Proof.
  intros Hp Hi Hbk Hnk Hsk. pose proof (Z.mod_pos_bound p 8 ltac:(lia)) as Hr.
  unfold bit. rewrite Hbk, Hnk, Hsk. set (q := Z.to_nat (p / 8)). set (k := Z.to_nat (i / 8)).
  destruct (bit_mask8 (p mod 8) (i mod 8) Hr ltac:(apply Z.mod_pos_bound; lia)) as [M1 M2].
  assert (forall j, 0 <= j < 8 -> Z.testbit 255 j = true) as H255.
  { intros j Hj. apply (range_cases (fun j => Z.testbit 255 j = true) 0 8); [by vm_compute|done]. }
  pose proof (Z.mod_pos_bound i 8 ltac:(lia)) as Hj.
  destruct (Nat.lt_trichotomy k q) as [Hkq|[Hkq|Hkq]].
  - assert (i < 8 * (p / 8) /\ i < p) as [H1 H2] by (subst k q; zlia).
    rewrite (proj2 (Nat.ltb_ge q k)), (proj2 (Nat.eqb_neq k q)), (proj2 (Nat.ltb_lt k q)),
      (proj2 (Z.ltb_lt i p)), (proj2 (Z.ltb_lt i (8 * (p / 8)))) by lia.
    split_and!; try done. apply H255. lia.
  - assert (i / 8 = p / 8) as Hd by (subst k q; zlia). rewrite Hkq, Nat.ltb_irrefl, Nat.eqb_refl. cbn [andb].
    assert (Hip : (i <? p) = (i mod 8 <? p mod 8)) by (apply Bool.eq_iff_eq_true; rewrite !Z.ltb_lt; zlia).
    assert (Hpi : (p <=? i) = (p mod 8 <=? i mod 8)) by (apply Bool.eq_iff_eq_true; rewrite !Z.leb_le; zlia).
    rewrite Z.lor_spec, Z.land_spec, M1, M2, Hip, Hpi, (proj2 (Z.ltb_ge i (8 * (p / 8)))), (proj2 (Z.ltb_lt i (8 * (p / 8) + 8))) by zlia.
    split_and!; [|by rewrite andb_true_r, orb_false_l, andb_comm|done].
    destruct (Z.ltb_spec (i mod 8) (p mod 8)), (Z.leb_spec (p mod 8) (i mod 8)); rewrite ?orb_true_r, ?orb_false_r; (done || lia).
  - assert ((k < 16)%nat /\ 8 * (p / 8) + 8 <= i /\ p <= i) as (H1 & H2 & H3) by (subst k q; zlia).
    rewrite (proj2 (Nat.ltb_lt q k)), (proj2 (Nat.ltb_lt k 16)), (proj2 (Nat.ltb_ge k q)), (proj2 (Nat.eqb_neq k q)),
      (proj2 (Z.ltb_ge i p)), (proj2 (Z.ltb_ge i (8 * (p / 8)))), (proj2 (Z.ltb_ge i (8 * (p / 8) + 8))) by lia.
    rewrite andb_false_r. split_and!; [apply H255; lia|apply Z.bits_0|apply Z.bits_0].
Qed.

Lemma V6_subnets m p : address_ok (IPv6Address m) -> 0 <= p < 128 ->
  exists b n s, V6.broadcastAddress m p = Ok (Some b) /\ V6.networdAddress m p = Ok (Some n) /\
    V6.subnetMask p = Ok (Some s) /\ subnets (IPv6Address m) p b n s.
Proof.
  intros Hok Hp. pose proof Hok as (Hf & Hport & Hfl & Hl & Hb & Hs).
  pose proof (Z.mod_pos_bound p 8 ltac:(lia)) as Hr. pose proof (CreateMask_8 _ Hr) as HM.
  pose proof (mask8_byte _ Hr) as Hmb. pose proof (nth_byte (s6_addr m) (Z.to_nat (p / 8)) Hb) as Hnb.
  destruct (masked_bytes m p (Z.lor (nth (Z.to_nat (p / 8)) (s6_addr m) 0) (2 ^ (8 - p mod 8) - 1)) 255 Hok Hp)
    as (bb & Eb & Hbl & Hbb & Hbk); [by apply byte_lor|done|].
  destruct (masked_bytes m p (Z.land (nth (Z.to_nat (p / 8)) (s6_addr m) 0) (2 ^ (8 - p mod 8) - 1)) 0 Hok Hp)
    as (bn & En & Hnl & Hnb' & Hnk); [by apply byte_land|done|].
  destruct (V6_mask p Hp) as (bs & Es & Hsl & Hsb & Hsk).
  assert (get_byte (p / 8) (s6_addr m) = Ok (nth (Z.to_nat (p / 8)) (s6_addr m) 0)) as Eg.
  { unfold get_byte. rewrite (proj2 (Z.leb_le 0 _)), (proj2 (Z.ltb_lt _ _)) by zlia. done. }
  exists (IPv6Address (set_s6_addr bb m)), (IPv6Address (set_s6_addr bn m)), (IPv6Address (mkIn6 AF_INET6 0 0 bs 0)).
  unfold V6.broadcastAddress, V6.networdAddress, V6.subnetMask.
  split_and!; [ok HM; ok Eg; by rewrite (obind_inner _ _ _ _ Eb)|ok HM; ok Eg; by rewrite (obind_inner _ _ _ _ En)|
    ok HM; by rewrite (obind_inner _ _ _ _ Es)|].
  unfold subnets. split_and!; cbn [address_ok set_s6_addr sin6_family sin6_port sin6_flowinfo s6_addr sin6_scope_id]; try done.
  unfold addr_bits. cbn [addr_bytes s6_addr set_s6_addr network_keeps]. rewrite Hl. intros i Hi.
  by apply masked_bits.
Qed.

(** ** Images *)
(** What comparing looks at. *)
Definition seen (a : Address) : list Z := take (Z.to_nat (getAddrLen a)) (getAddr a).

Lemma image_ok a : address_ok a -> 0 <= getAddrLen a <= zlen (getAddr a) /\ Forall is_byte (getAddr a) /\
  2 <= zlen (getAddr a).
Proof.
  destruct a as [m|m|m l|m]; cbn [address_ok getAddr getAddrLen]; unfold in_image, in6_image, un_image, sa_image.
  - intros (_ & _ & _ & Hz & Hb). rewrite !length_app, !le_bytes_length, Hz, !Forall_app. split_and!; auto with xten; cbn; lia.
  - intros (_ & _ & _ & Hz & Hb & _). rewrite !length_app, !le_bytes_length, Hz, !Forall_app. split_and!; auto with xten; cbn; lia.
  - intros (_ & Hz & Hb & Hl & _). rewrite !length_app, !le_bytes_length, Hz, !Forall_app. split_and!; auto with xten; cbn; lia.
  - intros (_ & Hz & Hb). rewrite !length_app, !le_bytes_length, Hz, !Forall_app. split_and!; auto with xten; cbn; lia.
Qed.

Lemma seen_length a : address_ok a -> zlen (seen a) = getAddrLen a.
Proof. intros (Hl & _)%image_ok. unfold seen. rewrite length_take. lia. Qed.

Lemma memcmp_loop_take n : forall a b, (n = length a `min` length b)%nat ->
  memcmp_loop (take n a) (take n b) = memcmp_loop a b.
Proof.
  induction n as [|n IH]; intros [|x a] [|y b] Hn; cbn [length Nat.min] in Hn; try done.
  cbn [take memcmp_loop]. by rewrite IH by lia.
Qed.

Lemma memcmp_lex a : forall b,
  lex_lt a b = (if memcmp_loop a b <? 0 then true else if 0 <? memcmp_loop a b then false else zlen a <? zlen b).
Proof.
  induction a as [|x a IH]; intros [|y b]; try done. cbn [lex_lt memcmp_loop length].
  destruct (Z.eqb_spec x y) as [->|Hxy].
  - rewrite IH, Z.ltb_irrefl. cbn [orb andb].
    replace (Z.of_nat (S (length a)) <? Z.of_nat (S (length b))) with (zlen a <? zlen b); [done|].
    apply Bool.eq_iff_eq_true. rewrite !Z.ltb_lt. lia.
  - destruct (Z.ltb_spec x y), (Z.ltb_spec (x - y) 0), (Z.ltb_spec 0 (x - y)); (done || lia).
Qed.

Lemma memcmp_eq a : forall b, length a = length b -> (memcmp_loop a b =? 0) = bool_decide (a = b).
Proof.
  induction a as [|x a IH]; intros [|y b] Hl; try done. cbn [memcmp_loop].
  destruct (Z.eqb_spec x y) as [->|Hxy].
  - rewrite IH by (cbn [length] in Hl; lia). apply bool_decide_ext. split; [by intros ->|by intros [= ->]].
  - rewrite bool_decide_eq_false_2 by congruence. apply Z.eqb_neq. lia.
Qed.

Lemma take_min_seen a n : 0 <= n <= getAddrLen a -> take (Z.to_nat n) (getAddr a) = take (Z.to_nat n) (seen a).
Proof. intros Hn. unfold seen. rewrite take_take. f_equal. lia. Qed.

Lemma operator_lt_exact a b : address_ok a -> address_ok b -> operator_lt a b = Ok (lex_lt (seen a) (seen b)).
Proof.
  intros Ha Hb. pose proof (seen_length a Ha) as La. pose proof (seen_length b Hb) as Lb.
  apply image_ok in Ha as (Ha & _), Hb as (Hb & _). unfold operator_lt, memcmp.
  rewrite (proj2 (Z.ltb_ge (zlen (getAddr a)) _)), (proj2 (Z.ltb_ge (zlen (getAddr b)) _)) by lia. cbn [orb]. rewrite ok_bind.
  rewrite !take_min_seen by lia. rewrite memcmp_loop_take by lia. by rewrite memcmp_lex, La, Lb.
Qed.

Lemma operator_eq_exact a b : address_ok a -> address_ok b -> operator_eq a b = Ok (bool_decide (seen a = seen b)).
Proof.
  intros Ha Hb. pose proof (seen_length a Ha) as La. pose proof (seen_length b Hb) as Lb.
  apply image_ok in Ha as (Ha & _), Hb as (Hb & _). unfold operator_eq, memcmp.
  destruct (Z.eqb_spec (getAddrLen a) (getAddrLen b)) as [E|E].
  - rewrite (proj2 (Z.ltb_ge (zlen (getAddr a)) _)), (proj2 (Z.ltb_ge (zlen (getAddr b)) _)) by lia. cbn [orb]. rewrite ok_bind.
    rewrite !take_min_seen by lia. rewrite memcmp_loop_take by lia. by rewrite memcmp_eq by lia.
  - rewrite bool_decide_eq_false_2; [done|]. intros Hs. rewrite Hs in La. lia.
Qed.

(** ** Reading an image back *)
Lemma field_head n x rest : in_u (8 * Z.of_nat n) x -> field (le_bytes n x ++ rest) 0 (Z.of_nat n) = x.
Proof.
  intros Hx. unfold field. rewrite slice_app_l by (rewrite ?le_bytes_length; lia).
  unfold slice. change (Z.to_nat 0) with O. rewrite drop_0, Nat2Z.id, take_ge by (rewrite le_bytes_length; lia). by apply le_value_bytes.
Qed.

Lemma slice_skip (pre rest : list Z) p k n : p = zlen pre + k -> 0 <= k -> slice (pre ++ rest) p n = slice rest k n.
Proof. intros -> Hk. rewrite slice_app_r by lia. f_equal. lia. Qed.

Lemma field_skip pre rest p k n : p = zlen pre + k -> 0 <= k -> field (pre ++ rest) p n = field rest k n.
Proof. intros H Hk. unfold field. by rewrite (slice_skip pre rest p k n). Qed.

Lemma slice_all (l : list Z) n : zlen l = n -> slice l 0 n = l.
Proof. intros <-. unfold slice. change (Z.to_nat 0) with O. by rewrite drop_0, Nat2Z.id, firstn_all. Qed.

Ltac skip := rewrite (field_skip (le_bytes _ _) _ _ 0) by (rewrite ?le_bytes_length; lia).

Lemma in_of_image m : address_ok (IPv4Address m) -> in_of (in_image m) = m.
Proof.
  intros (Hf & Hp & Ha & Hz & _). destruct m as [f p a z]. cbn in Hf, Hp, Ha, Hz. subst f.
  unfold in_of, in_image. cbn [sin_family sin_port s_addr sin_zero].
  rewrite (field_head 2), (field_skip (le_bytes 2 AF_INET) _ 2 0) by done.
  rewrite (field_head 2 p) by done. rewrite (field_skip (le_bytes 2 AF_INET) _ 4 2), (field_skip (le_bytes 2 p) _ 2 0) by done.
  rewrite (field_head 4 a) by done. f_equal.
  rewrite (slice_skip (le_bytes 2 AF_INET) _ 8 6), (slice_skip (le_bytes 2 p) _ 6 4), (slice_skip (le_bytes 4 a) _ 4 0) by done.
  apply slice_all. lia.
Qed.

Lemma in6_of_image m : address_ok (IPv6Address m) -> in6_of (in6_image m) = m.
Proof.
  intros (Hf & Hp & Hfl & Hl & _ & Hs). destruct m as [f p fl a s]. cbn in Hf, Hp, Hfl, Hl, Hs. subst f.
  unfold in6_of, in6_image. cbn [sin6_family sin6_port sin6_flowinfo s6_addr sin6_scope_id].
  rewrite (field_head 2), (field_skip (le_bytes 2 AF_INET6) _ 2 0) by done.
  rewrite (field_head 2 p) by done. rewrite (field_skip (le_bytes 2 AF_INET6) _ 4 2), (field_skip (le_bytes 2 p) _ 2 0) by done.
  rewrite (field_head 4 fl) by done.
  rewrite (slice_skip (le_bytes 2 AF_INET6) _ 8 6), (slice_skip (le_bytes 2 p) _ 6 4), (slice_skip (le_bytes 4 fl) _ 4 0) by done.
  rewrite (field_skip (le_bytes 2 AF_INET6) _ 24 22), (field_skip (le_bytes 2 p) _ 22 20), (field_skip (le_bytes 4 fl) _ 20 16) by done.
  rewrite (field_skip a _ 16 0) by lia. rewrite slice_app_l by lia. rewrite slice_all by lia.
  rewrite <- (app_nil_r (le_bytes 4 s)), (field_head 4 s) by done. done.
Qed.

Lemma family_image a : address_ok a ->
  getFamily a = match a with IPv4Address _ => AF_INET | IPv6Address _ => AF_INET6 | UnixAddress _ _ => AF_UNIX | UnknownAddress m => sa_family m end.
Proof.
  unfold getFamily. destruct a as [m|m|m l|m]; cbn [address_ok getAddr]; unfold in_image, in6_image, un_image, sa_image.
  - intros (-> & _). by apply (field_head 2).
  - intros (-> & _). by apply (field_head 2).
  - intros (-> & _). by apply (field_head 2).
  - intros (H & _). by apply (field_head 2).
Qed.

Lemma reading_ok {A} n bs (f : list Z -> A) : n <= zlen bs -> reading n bs f = Ok (f bs).
Proof. intros. unfold reading. by rewrite (proj2 (Z.ltb_ge _ _)) by lia. Qed.

(** Any IP address goes through the system and back. *)
Lemma Create_image a : address_ok a -> isIPAddress a = true -> Address_Create (Some (getAddr a)) = Ok (Some a).
Proof.
  intros Ha Hip. pose proof (image_ok a Ha) as (Hl & _ & H2). pose proof (family_image a Ha) as Hf.
  unfold getFamily in Hf. unfold Address_Create. rewrite (reading_ok 2) by lia. rewrite Hf. rewrite ok_bind.
  destruct a as [m|m|m l|m]; try done; cbn [getAddr getAddrLen] in *.
  - rewrite Z.eqb_refl, (reading_ok 16) by lia. rewrite ok_bind. by rewrite in_of_image.
  - change (AF_INET6 =? AF_INET) with false. rewrite Z.eqb_refl, (reading_ok 28) by lia. rewrite ok_bind. by rewrite in6_of_image.
Qed.

(** ** Unix paths *)
Definition path_fits (path : list Z) : Prop := zlen path < 108 \/ (abstract_path path = true /\ zlen path = 108).

(** What [getPath] says of an address made from [path]. *)
Definition path_text (path : list Z) : list Z :=
  match path with
  | [] => lit "\0"
  | c :: rest => if c =? 0 then lit "\0" ++ rest else cstr path
  end.

Lemma splice_front (l bs : list Z) : splice l 0 bs = bs ++ drop (length bs) l.
Proof. done. Qed.

Lemma abstract_in path rest : abstract_path path = true -> existsb (is_char 0) (path ++ rest) = true.
Proof. destruct path as [|c path]; [done|]. cbn. by intros ->. Qed.

Lemma existsb_nul (l : list Z) : existsb (is_char 0) l = true <-> 0 ∈ l.
Proof.
  rewrite existsb_exists. split.
  - intros (x & Hx & E%Z.eqb_eq). subst x. by apply list_elem_of_In.
  - intros H. exists 0. split; [by apply list_elem_of_In|done].
Qed.

Lemma cstr_app_in (s rest : list Z) : 0 ∈ s -> cstr (s ++ rest) = cstr s.
Proof.
  induction s as [|c s IH]; [by intros ?%not_elem_of_nil|]. cbn [app cstr]. destruct (Z.eqb_spec c 0); [done|].
  intros [|H]%elem_of_cons; [congruence|]. by rewrite IH.
Qed.

Lemma cstr_snoc s : cstr (s ++ [0]) = cstr s.
Proof. induction s as [|c s IH]; [done|]. cbn [app cstr]. by destruct (c =? 0); [|rewrite IH]. Qed.

(** The bytes that are copied into [sun_path], and the object they make. *)
Definition path_bytes (path : list Z) : list Z := if abstract_path path then path else path ++ [0].
Definition unix_of (content : list Z) : Address :=
  UnixAddress (mkUn AF_UNIX (splice (zeros 108) 0 content)) (PATH_OFFSET + zlen content).

Lemma path_bytes_in path : 0 ∈ path_bytes path.
Proof.
  unfold path_bytes. destruct (abstract_path path) eqn:E; [|by apply elem_snoc; right].
  destruct path as [|c path]; [done|]. cbn in E. apply Z.eqb_eq in E as ->. by left.
Qed.

Lemma path_bytes_length path : path_fits path -> 0 < zlen (path_bytes path) <= 108.
Proof.
  unfold path_fits, path_bytes. destruct (abstract_path path) eqn:E.
  - destruct path; [done|]. cbn [length]. intros [|[_ ?]]; lia.
  - intros [|[? _]]; [|done]. rewrite length_app. cbn [length]. lia.
Qed.

Lemma UnixAddress_new_ok path : path_fits path -> UnixAddress_new path = Ok (unix_of (path_bytes path)).
Proof.
  intros Hfit. pose proof (path_bytes_length path Hfit) as Hl. unfold UnixAddress_new, unix_of, path_bytes in *.
  assert (negb (bool_decide (path = [])) && abstract_path path = abstract_path path) as -> by by destruct path.
  destruct (abstract_path path).
  - rewrite !uwrap_id by (unfold in_u, PATH_OFFSET; rewrite ?uwrap_id by (unfold in_u; lia); lia).
    rewrite Z.add_simpl_r, (proj2 (Z.ltb_ge UNIX_PATH _)) by (unfold UNIX_PATH; lia).
    rewrite take_app_le, take_ge by lia. rewrite (Z.add_comm PATH_OFFSET). done.
  - rewrite length_app in *. cbn [length] in *.
    rewrite !uwrap_id by (unfold in_u, PATH_OFFSET; rewrite ?uwrap_id by (unfold in_u; lia); lia).
    rewrite (proj2 (Z.ltb_ge UNIX_PATH _)) by (unfold UNIX_PATH; lia).
    rewrite take_ge by (rewrite length_app; cbn [length]; lia). do 2 f_equal. lia.
Qed.

Lemma unix_of_ok content : Forall is_byte content -> zlen content <= 108 -> 0 ∈ content -> address_ok (unix_of content).
Proof.
  intros Hb Hl H0. unfold unix_of. cbn [address_ok sun_family sun_path]. unfold PATH_OFFSET. split_and!; try lia.
  - rewrite splice_length; [done|lia|cbn; lia].
  - rewrite splice_front. apply Forall_app; split; [done|]. apply Forall_drop, zeros_bytes.
  - rewrite splice_front. apply elem_of_app. by left.
Qed.

Lemma getPath_ok path : path_fits path ->
  getPath (mkUn AF_UNIX (splice (zeros 108) 0 (path_bytes path))) (PATH_OFFSET + zlen (path_bytes path)) = Ok (path_text path).
Proof.
  intros Hfit. pose proof (path_bytes_length path Hfit) as Hl. pose proof (path_bytes_in path) as H0.
  assert (length (splice (zeros 108) 0 (path_bytes path)) = 108%nat) as Hs by (rewrite splice_length; [done|lia|cbn; lia]).
  unfold getPath. cbn [sun_path]. rewrite (proj2 (Z.ltb_lt PATH_OFFSET _)), Hs by lia. cbn [andb].
  rewrite (proj2 (Z.ltb_ge _ _)) by (unfold PATH_OFFSET; lia). rewrite splice_front.
  replace (PATH_OFFSET + zlen (path_bytes path) - PATH_OFFSET - 1) with (zlen (path_bytes path) - 1) by lia.
  unfold path_bytes in *. destruct path as [|c path]; [done|]. cbn [abstract_path head_in path_text] in *. unfold is_char in *.
  destruct (Z.eqb_spec c 0) as [->|Hc].
  - cbn [app abstract_path head_in]. change (is_char 0 0) with true. cbn iota. do 2 f_equal.
    match goal with |- slice (0 :: ?r) 1 ?n = _ => change (slice ([0] ++ r) 1 n = path) end.
    rewrite (slice_skip [0] _ 1 0) by done. cbn [length] in *.
    rewrite slice_app_l by lia. apply slice_all. lia.
  - cbn [app abstract_path head_in]. unfold is_char. rewrite (proj2 (Z.eqb_neq c 0)) by done.
    unfold c_text. rewrite (proj2 (existsb_nul _)) by (apply (elem_of_app ((c :: path) ++ [0])); by left).
    f_equal. apply (eq_trans (cstr_app_in ((c :: path) ++ [0]) _ H0)), cstr_snoc.
Qed.

Lemma UnixAddress_new_long path : zlen path < 2 ^ 32 - 1 -> ~ path_fits path -> UnixAddress_new path = Throw LogicError.
Proof.
  unfold path_fits, UnixAddress_new. intros Hl Hfit.
  assert (negb (bool_decide (path = [])) && abstract_path path = abstract_path path) as -> by by destruct path.
  destruct (abstract_path path); rewrite !uwrap_id by (unfold in_u; rewrite ?uwrap_id by (unfold in_u; lia); lia);
    by rewrite (proj2 (Z.ltb_lt UNIX_PATH _)) by (unfold UNIX_PATH; lia).
Qed.

(** ** Numerals *)
(** Both printers are the same loop; what they print is read back here. *)
Fixpoint num_loop (base : Z) (fuel : nat) (n : Z) (acc : list Z) : list Z :=
  match fuel with
  | O => acc
  | S fuel => if n <? base then hexchar n :: acc else num_loop base fuel (n / base) (hexchar (n mod base) :: acc)
  end.

Definition digit_value (c : Z) : Z := if c <? 58 then c - 48 else c - 87.
Definition read_digits (base : Z) (s : list Z) : Z := fold_left (fun v c => v * base + digit_value c) s 0.

(** The canonical numerals: those that are printed. *)
Definition read_dec (bound : Z) (s : list Z) : option Z :=
  let v := read_digits 10 s in if bool_decide (0 <= v < bound /\ dec v = s) then Some v else None.
Definition read_hex (bound : Z) (s : list Z) : option Z :=
  let v := read_digits 16 s in if bool_decide (0 <= v < bound /\ hex v = s) then Some v else None.

Lemma hexchar_value d : 0 <= d < 16 -> digit_value (hexchar d) = d.
Proof. intros. apply (range_cases (fun d => digit_value (hexchar d) = d) 0 16); [by vm_compute|lia]. Qed.

Section numerals.
Context (base : Z) (Hbase : 2 <= base <= 16).

Lemma num_value fuel : forall n acc, 0 <= n < base ^ Z.of_nat fuel -> (0 < fuel)%nat ->
  fold_left (fun v c => v * base + digit_value c) (num_loop base fuel n acc) 0 =
  fold_left (fun v c => v * base + digit_value c) acc n.
Proof using Hbase.
  induction fuel as [|fuel IH]; intros n acc Hn Hf; [lia|]. cbn [num_loop].
  destruct (Z.ltb_spec n base).
  - cbn [fold_left]. by rewrite hexchar_value by lia.
  - rewrite Nat2Z.inj_succ, Z.pow_succ_r in Hn by lia.
    assert (0 < fuel)%nat by (destruct fuel; [cbn in Hn; lia|lia]).
    rewrite IH by (try split; (done || (apply Z.div_pos; lia) || (apply Z.div_lt_upper_bound; lia))).
    pose proof (Z.mod_pos_bound n base). cbn [fold_left]. rewrite hexchar_value by lia. f_equal.
    pose proof (Z.div_mod n base). lia.
Qed.

Lemma num_chars (P : Z -> Prop) fuel : (forall d, 0 <= d < base -> P (hexchar d)) ->
  forall n acc, 0 <= n -> Forall P acc -> Forall P (num_loop base fuel n acc).
Proof using Hbase.
  intros HP. induction fuel as [|fuel IH]; intros n acc Hn Ha; cbn [num_loop]; [done|].
  destruct (Z.ltb_spec n base); [constructor; auto with lia|].
  apply IH; [apply Z.div_pos; lia|]. constructor; [|done]. apply HP, Z.mod_pos_bound. lia.
Qed.
End numerals.

Lemma dec_loop_num fuel : forall n acc, 0 <= n -> dec_loop fuel n acc = num_loop 10 fuel n acc.
Proof.
  induction fuel as [|fuel IH]; intros n acc Hn; [done|]. cbn [dec_loop num_loop]. unfold hexchar.
  destruct (Z.ltb_spec n 10); [done|]. rewrite (proj2 (Z.ltb_lt (n mod 10) 10)) by (apply Z.mod_pos_bound; lia).
  apply IH, Z.div_pos; lia.
Qed.

Lemma hex_loop_num fuel : forall n acc, hex_loop fuel n acc = num_loop 16 fuel n acc.
Proof. induction fuel as [|fuel IH]; intros n acc; [done|]. cbn [hex_loop num_loop]. by rewrite IH. Qed.

Lemma read_dec_ok bound n : 0 <= n < bound -> bound <= 10 ^ 20 -> read_dec bound (dec n) = Some n.
Proof.
  intros Hn Hb. unfold read_dec. replace (read_digits 10 (dec n)) with n; [by rewrite bool_decide_eq_true_2|].
  unfold read_digits, dec. rewrite dec_loop_num by lia. by rewrite (num_value 10) by (cbn; lia).
Qed.

Lemma read_hex_ok bound n : 0 <= n < bound -> bound <= 16 ^ 8 -> read_hex bound (hex n) = Some n.
Proof.
  intros Hn Hb. unfold read_hex. replace (read_digits 16 (hex n)) with n; [by rewrite bool_decide_eq_true_2|].
  unfold read_digits, hex. rewrite hex_loop_num. by rewrite (num_value 16) by (cbn; lia).
Qed.

(** A numeral holds none of the marks of addresses. *)
Definition plain (c : Z) : Prop := 48 <= c < 58 \/ 97 <= c < 103.

Lemma hexchar_plain d : 0 <= d < 16 -> plain (hexchar d).
Proof. intros. unfold plain, hexchar. destruct (Z.ltb_spec d 10); lia. Qed.

Lemma dec_plain n : 0 <= n -> Forall plain (dec n).
Proof. intros Hn. unfold dec. rewrite dec_loop_num by done. apply num_chars; [lia|intros; apply hexchar_plain; lia|done|done]. Qed.

Lemma hex_plain n : 0 <= n -> Forall plain (hex n).
Proof. intros Hn. unfold hex. rewrite hex_loop_num. apply num_chars; [lia|intros; apply hexchar_plain; lia|done|done]. Qed.

Lemma num_nonnil base fuel : forall n acc, acc <> [] \/ (0 < fuel)%nat -> num_loop base fuel n acc <> [].
Proof.
  induction fuel as [|fuel IH]; intros n acc H; cbn [num_loop]; [destruct H; (done || lia)|].
  destruct (n <? base); [done|]. apply IH. by left.
Qed.

Lemma hex_nonnil n : hex n <> [].
Proof. unfold hex. rewrite hex_loop_num. apply num_nonnil. right. lia. Qed.

Lemma dec_nonnil n : 0 <= n -> dec n <> [].
Proof. intros. unfold dec. rewrite dec_loop_num by done. apply num_nonnil. right. lia. Qed.

(** ** Notations of addresses *)
Fixpoint split_on (d : Z) (s : list Z) : list (list Z) :=
  match s with
  | [] => [[]]
  | c :: s => if c =? d then [] :: split_on d s
              else match split_on d s with p :: ps => (c :: p) :: ps | [] => [[c]] end
  end.

Fixpoint sequence {A} (l : list (option A)) : option (list A) :=
  match l with [] => Some [] | x :: l => x ← x; l ← sequence l; Some (x :: l) end.

(** Dotted decimal. *)
Definition read_v4 (s : list Z) : option (list Z) :=
  match split_on 46 s with
  | [a; b; c; d] => sequence (map (read_dec 256) [a; b; c; d])
  | _ => None
  end.

(** RFC 4291, 2.2: eight groups in hexadecimal, or fewer with one "::" that
    stands for the groups of zeros that are missing. *)
Fixpoint expand (l : list Z) (ps : list (list Z)) : option (list Z) :=
  match ps with
  | [] => if (length l =? 8)%nat then Some l else None
  | [] :: ps =>
    r ← sequence (map (read_hex 65536) ps);
    if (length l + length r <? 8)%nat then Some (l ++ zeros (8 - length l - length r) ++ r) else None
  | p :: ps => g ← read_hex 65536 p; expand (l ++ [g]) ps
  end.

(** A "::" at either end leaves two empty pieces there; one alone is wrong. *)
Definition trim_first (ps : list (list Z)) : option (list (list Z)) :=
  match ps with [] :: [] :: ps => Some ([] :: ps) | [] :: _ => None | _ => Some ps end.
Definition trim_last (ps : list (list Z)) : option (list (list Z)) :=
  match rev ps with [] :: [] :: ps => Some (rev ([] :: ps)) | [] :: _ :: _ => None | _ => Some ps end.

Definition read_v6 (s : list Z) : option (list Z) :=
  ps ← trim_first (split_on 58 s); ps ← trim_last ps; expand [] ps.

Example read_v6_samples :
  map (fun s => read_v6 (lit s)) ["::"; "::1"; "fe80::"; "1:0:2::3"; "1:2:3:4:5:6:7:8"; "1:::2"; "1::2::3"; ":1"; "10000::"]%string =
  [Some [0;0;0;0;0;0;0;0]; Some [0;0;0;0;0;0;0;1]; Some [65152;0;0;0;0;0;0;0]; Some [1;0;2;0;0;0;0;3];
   Some [1;2;3;4;5;6;7;8]; None; None; None; None].
Proof. by vm_compute. Qed.

Lemma split_on_nonnil d s : split_on d s <> [].
Proof. destruct s as [|c s]; [done|]. cbn. destruct (c =? d); [done|]. by destruct (split_on d s). Qed.

Lemma split_on_app d p rest : Forall (fun c => c <> d) p ->
  split_on d (p ++ rest) = match split_on d rest with q :: ps => (p ++ q) :: ps | [] => [] end.
Proof.
  induction 1 as [|c p Hc _ IH].
  - cbn [app]. pose proof (split_on_nonnil d rest). by destruct (split_on d rest).
  - cbn [app split_on]. rewrite (proj2 (Z.eqb_neq c d)), IH by done.
    pose proof (split_on_nonnil d rest). by destruct (split_on d rest).
Qed.

Lemma split_on_plain d p : Forall (fun c => c <> d) p -> split_on d p = [p].
Proof. intros H. rewrite <- (app_nil_r p) at 1. rewrite split_on_app by done. cbn. by rewrite app_nil_r. Qed.

Lemma split_on_cut d p rest : Forall (fun c => c <> d) p -> split_on d (p ++ d :: rest) = p :: split_on d rest.
Proof. intros H. rewrite split_on_app by done. cbn [split_on]. rewrite Z.eqb_refl. by rewrite app_nil_r. Qed.

Lemma plain_not c d : plain c -> ~ plain d -> c <> d.
Proof. intros Hc Hd ->. done. Qed.

Lemma plain_neq p d : Forall plain p -> ~ plain d -> Forall (fun c => c <> d) p.
Proof. intros Hp Hd. eapply Forall_impl; [|exact Hp]. intros c Hc. by apply (plain_not c d). Qed.

(** The text of an IPv4 address without its port. *)
Definition dotted (bs : list Z) : list Z := Strings.join (lit ".") (map dec bs).

Lemma read_v4_dotted a b c d : Forall is_byte [a; b; c; d] -> read_v4 (dotted [a; b; c; d]) = Some [a; b; c; d].
Proof.
  intros (Ha & (Hb & (Hc & (Hd & _)%list.Forall_cons)%list.Forall_cons)%list.Forall_cons)%list.Forall_cons.
  unfold is_byte in *. unfold read_v4, dotted. cbn [map Strings.join]. change (lit ".") with [46]. cbn [app].
  assert (forall x, 0 <= x < 256 -> Forall (fun c => c <> 46) (dec x)) as H.
  { intros x Hx. apply plain_neq; [apply dec_plain; lia|unfold plain; lia]. }
  rewrite !split_on_cut, split_on_plain by (apply H; lia). cbn [map].
  rewrite !read_dec_ok by lia. done.
Qed.

(** ** The text of an IPv6 address *)
Definition gtext (g : Z) : list Z := hex (htons g).
(** Groups with a colon before each, and with colons between them. *)
Definition tails (gs : list Z) : list Z := concat (map (fun g => 58 :: gtext g) gs).
Definition joined (gs : list Z) : list Z := match gs with [] => [] | g :: gs => gtext g ++ tails gs end.

Lemma loop_used gs : forall p os, V6.insert_loop (Some p) gs os true = (os ++ tails gs, true).
Proof.
  induction gs as [|g gs IH]; intros p os; cbn [V6.insert_loop]; [by rewrite app_nil_r|].
  rewrite !andb_false_r. cbn iota. rewrite IH. unfold tails, gtext. cbn [map concat]. by rewrite <- !app_assoc.
Qed.

Lemma loop_zeros z : forall x r os, x <> 0 ->
  V6.insert_loop (Some 0) (repeat 0 z ++ x :: r) os false = (os ++ [58; 58] ++ joined (x :: r), true) /\
  V6.insert_loop (Some 0) (repeat 0 z) os false = (os, false).
Proof.
  induction z as [|z IH]; intros x r os Hx; cbn [repeat app V6.insert_loop].
  - split; [|done]. rewrite (proj2 (Z.eqb_neq x 0)) by done. cbn [andb negb Z.eqb]. rewrite loop_used.
    change (lit ":") with [58]. unfold joined, gtext. by rewrite <- !app_assoc.
  - cbn [andb negb Z.eqb]. by apply IH.
Qed.

Lemma loop_some l : forall p rest os, p <> 0 -> Forall (fun g => g <> 0) l ->
  exists p', p' <> 0 /\ V6.insert_loop (Some p) (l ++ rest) os false = V6.insert_loop (Some p') rest (os ++ tails l) false.
Proof.
  induction l as [|g l IH]; intros p rest os Hp Hl; [exists p; by rewrite app_nil_r|].
  inversion_clear Hl as [|? ? Hg Hl']. cbn [app V6.insert_loop].
  rewrite (proj2 (Z.eqb_neq g 0)), (proj2 (Z.eqb_neq p 0)) by done. cbn [andb].
  destruct (IH g rest ((os ++ lit ":") ++ hex (htons g)) Hg Hl') as (p' & Hp' & E). exists p'. split; [done|].
  rewrite E. unfold tails, gtext. cbn [map concat]. by rewrite <- !app_assoc.
Qed.

Lemma loop_start l rest os : Forall (fun g => g <> 0) l ->
  exists prev, (forall p, prev = Some p -> p <> 0) /\ (prev = None -> l = []) /\
    V6.insert_loop None (l ++ rest) os false = V6.insert_loop prev rest (os ++ joined l) false.
Proof.
  intros Hl. destruct Hl as [|g l Hg Hl]; [exists None; by rewrite app_nil_r|].
  cbn [app V6.insert_loop]. rewrite (proj2 (Z.eqb_neq g 0)) by done. cbn [andb].
  destruct (loop_some l g rest (os ++ hex (htons g)) Hg Hl) as (p' & Hp' & E). exists (Some p').
  split_and!; [by intros ? [= <-]|done|]. rewrite E. unfold joined, gtext. by rewrite <- app_assoc.
Qed.

(** The first run of zeros in a list of groups. *)
Lemma first_zeros gs : exists l z r, gs = l ++ repeat 0 z ++ r /\ Forall (fun g => g <> 0) l /\
  (z = O -> r = []) /\ match r with x :: _ => x <> 0 | [] => True end.
Proof.
  induction gs as [|g gs IH]; [by exists [], O, []|].
  destruct IH as (l & z & r & -> & Hl & Hz & Hr). destruct (Z.eq_dec g 0) as [->|Hg].
  - destruct l as [|x l].
    + exists [], (S z), r. by split_and!.
    + exists [], 1%nat, ((x :: l) ++ repeat 0 z ++ r). split_and!; try done. by inversion Hl.
  - exists (g :: l), z, r. split_and!; try done. by constructor.
Qed.

Definition colons (z : nat) : list Z := match z with O => [] | _ => [58; 58] end.

Lemma insert_shape m l z r : length (V6.groups (s6_addr m)) = 8%nat ->
  V6.groups (s6_addr m) = l ++ repeat 0 z ++ r -> Forall (fun g => g <> 0) l ->
  (z = O -> r = []) -> match r with x :: _ => x <> 0 | [] => True end ->
  V6.insert m = [91] ++ (joined l ++ colons z ++ joined r) ++ [93; 58] ++ dec (htons (sin6_port m)).
Proof.
  intros Hlen Hg Hl Hz Hr. unfold V6.insert. rewrite Hg in *. change (lit "]:") with [93; 58]. change (lit "[") with [91].
  destruct (loop_start l (repeat 0 z ++ r) [91] Hl) as (prev & Hp & Hn & ->).
  destruct z as [|z].
  - pose proof (Hz eq_refl) as ->. cbn [repeat app] in *. rewrite !app_nil_r in *. cbn [V6.insert_loop colons joined app].
    assert (nth 7 l 0 <> 0) as H7.
    { rewrite list.Forall_forall in Hl. apply Hl, list_elem_of_In, nth_In. lia. }
    cbn [negb andb]. rewrite (proj2 (Z.eqb_neq _ _)) by done. cbn [app]. by rewrite <- ?app_assoc.
  - cbn [repeat app]. cbn [V6.insert_loop]. cbn [Z.eqb negb andb].
    destruct r as [|x r].
    + destruct (loop_zeros z 1 [] ([91] ++ joined l) ltac:(done)) as [_ E]. cbn [app] in E. rewrite !(app_nil_r (repeat 0 z)), E.
      assert (nth 7 (l ++ 0 :: repeat 0 z) 0 = 0) as ->.
      { rewrite app_nil_r, length_app in Hlen. cbn [repeat length] in Hlen. rewrite app_nth2 by lia.
        apply (nth_repeat 0 (S z)). }
      cbn [negb andb Z.eqb joined colons]. change (lit "::") with [58; 58]. by rewrite app_nil_r, <- ?app_assoc.
    + destruct (loop_zeros z x r ([91] ++ joined l) Hr) as [E _]. cbn [app] in E. rewrite E.
      cbn [negb andb joined colons]. repeat (progress cbn [app] || rewrite <- app_assoc). done.
Qed.

Lemma gtext_plain g : Forall plain (gtext g).
Proof. apply hex_plain. apply (bswap_range 2). Qed.

Lemma gtext_colon g : Forall (fun c => c <> 58) (gtext g).
Proof. apply plain_neq; [apply gtext_plain|unfold plain; lia]. Qed.

Lemma read_gtext g : read_hex 65536 (gtext g) = Some (htons g).
Proof. apply read_hex_ok; [|lia]. apply (bswap_range 2). Qed.

Lemma split_tails gs : forall p, split_on 58 (gtext p ++ tails gs) = map gtext (p :: gs).
Proof.
  induction gs as [|g gs IH]; intros p; unfold tails in *; cbn [map concat app].
  - rewrite app_nil_r. apply split_on_plain, gtext_colon.
  - rewrite split_on_cut by apply gtext_colon. f_equal. apply IH.
Qed.

Lemma split_tails_cut gs rest : forall p, split_on 58 (gtext p ++ tails gs ++ 58 :: rest) = map gtext (p :: gs) ++ split_on 58 rest.
Proof.
  induction gs as [|g gs IH]; intros p; unfold tails in *; cbn [map concat app].
  - apply split_on_cut, gtext_colon.
  - rewrite split_on_cut by apply gtext_colon. f_equal. rewrite <- app_assoc. apply IH.
Qed.

Lemma sequence_gtext r : sequence (map (read_hex 65536) (map gtext r)) = Some (map htons r).
Proof. induction r as [|g r IH]; [done|]. cbn [map sequence]. rewrite read_gtext, IH. done. Qed.

Lemma expand_gtext l : forall acc rest, expand acc (map gtext l ++ rest) = expand (acc ++ map htons l) rest.
Proof.
  induction l as [|g l IH]; intros acc rest; cbn [map app]; [by rewrite app_nil_r|].
  cbn [expand]. pose proof (hex_nonnil (htons g)) as Hne. pose proof (read_gtext g) as E. unfold gtext in *.
  destruct (hex (htons g)) as [|c s]; [done|]. rewrite E. change (Some ?x ≫= ?f) with (f x). cbn beta.
  rewrite IH. by rewrite <- app_assoc.
Qed.

Lemma gtext_head g ps : exists c s, gtext g :: ps = (c :: s) :: ps.
Proof. pose proof (hex_nonnil (htons g)). unfold gtext. destruct (hex (htons g)) as [|c s]; [done|]. by exists c, s. Qed.

Lemma trim_last_gtext A r : r <> [] -> trim_last (A ++ map gtext r) = Some (A ++ map gtext r).
Proof.
  intros Hr. destruct (exists_last Hr) as (r0 & y & ->). unfold trim_last.
  rewrite map_app, app_assoc, rev_app_distr. cbn [map rev app].
  pose proof (hex_nonnil (htons y)) as Hne. unfold gtext in *. by destruct (hex (htons y)).
Qed.

Lemma trim_last_empty A : trim_last (A ++ [[]; []]) = Some (A ++ [[]]).
Proof. unfold trim_last. rewrite rev_app_distr. cbn [rev app]. by rewrite rev_involutive. Qed.

Lemma trim_first_gtext g ps : trim_first (gtext g :: ps) = Some (gtext g :: ps).
Proof. by destruct (gtext_head g ps) as (c & s & ->). Qed.

Lemma read_v6_text l z r : length (l ++ repeat 0 z ++ r) = 8%nat -> (z = O -> r = []) ->
  read_v6 (joined l ++ colons z ++ joined r) = Some (map htons (l ++ repeat 0 z ++ r)).
Proof.
  intros Hlen Hz. unfold read_v6. rewrite !map_app.
  assert (map htons (repeat 0 z) = zeros z) as -> by (rewrite map_repeat; done).
  destruct z as [|z].
  - pose proof (Hz eq_refl) as ->. cbn [colons joined repeat map] in *. rewrite !app_nil_r in *.
    destruct l as [|g l]; [done|]. cbn [joined]. rewrite split_tails. cbn [map]. rewrite trim_first_gtext.
    change (gtext g :: map gtext l) with ([] ++ map gtext (g :: l)).
    change (Some ?x ≫= ?f) with (f x). cbn beta. rewrite (trim_last_gtext [] (g :: l)) by done.
    change (Some ?x ≫= ?f) with (f x). cbn beta. rewrite <- (app_nil_r (map gtext (g :: l))).
    cbn [app]. rewrite expand_gtext. cbn [app expand]. rewrite length_map, Hlen. done.
  - rewrite !length_app, repeat_length in Hlen. cbn [colons app].
    (* the pieces after the first trim, whether groups come before or not *)
    assert (exists s, split_on 58 (joined r) = s /\ trim_first (split_on 58 (joined l ++ 58 :: 58 :: joined r)) =
              Some (map gtext l ++ [] :: s)) as (s & Hs & ->).
    { eexists; split; [done|]. destruct l as [|g l]; cbn [joined app map].
      - cbn [split_on]. rewrite Z.eqb_refl. done.
      - rewrite <- app_assoc, split_tails_cut. cbn [split_on map app]. rewrite Z.eqb_refl. apply trim_first_gtext. }
    change (Some ?x ≫= ?f) with (f x). cbn beta.
    assert (trim_last (map gtext l ++ [] :: s) = Some (map gtext l ++ [] :: map gtext r)) as ->.
    { subst s. destruct r as [|x r]; [apply trim_last_empty|]. cbn [joined]. rewrite split_tails.
      change ([] :: map gtext (x :: r)) with ([[]] ++ map gtext (x :: r)). rewrite app_assoc. by apply trim_last_gtext. }
    change (Some ?x ≫= ?f) with (f x). cbn beta. rewrite expand_gtext. cbn [app expand]. rewrite sequence_gtext.
    change (Some ?x ≫= ?f) with (f x). cbn beta. rewrite !length_map.
    rewrite (proj2 (Nat.ltb_lt _ 8)) by lia. do 4 f_equal. lia.
Qed.

(** ** Splitting a host *)
Lemma find_at_char c a b : forall i, Forall (fun x => x <> c) a -> find_at (head_in (is_char c)) i (a ++ c :: b) = Some (i + length a)%nat.
Proof.
  intros i Ha. revert i. induction Ha as [|x a Hx _ IH]; intros i; cbn [app find_at head_in]; unfold is_char in *.
  - rewrite Z.eqb_refl. f_equal. cbn. lia.
  - rewrite (proj2 (Z.eqb_neq x c)), IH by done. f_equal. cbn [length]. lia.
Qed.

Lemma find_at_nochar c a : forall i, Forall (fun x => x <> c) a -> find_at (head_in (is_char c)) i a = None.
Proof.
  intros i Ha. revert i. induction Ha as [|x a Hx _ IH]; intros i; cbn [find_at head_in]; [done|].
  unfold is_char in *. by rewrite (proj2 (Z.eqb_neq x c)) by done.
Qed.

Lemma memchr_found c pre a b : Forall (fun x => x <> c) a -> memchr c (pre ++ a ++ c :: b) (length pre) = Some (length pre + length a)%nat.
Proof. intros Ha. unfold memchr. rewrite find_from_app. by apply find_at_char. Qed.

Lemma memchr_none c pre a : Forall (fun x => x <> c) a -> memchr c (pre ++ a) (length pre) = None.
Proof. intros Ha. unfold memchr. rewrite find_from_app. by apply find_at_nochar. Qed.

Lemma split_bracket_plain host : head_in (is_char 91) host = false -> split_bracket host = ([], None).
Proof. intros H. unfold split_bracket. rewrite H. by rewrite andb_false_r. Qed.

Definition no_char (c : Z) (s : list Z) : Prop := Forall (fun x => x <> c) s.

(** A name, a name and a port. *)
Lemma split_name node : node <> [] -> head_in (is_char 91) node = false -> no_char 58 node -> split_host node = (node, None).
Proof.
  intros Hne Hb Hc. unfold split_host. rewrite split_bracket_plain by done. cbn iota. rewrite bool_decide_eq_true_2 by done.
  pose proof (memchr_none 58 [] node Hc) as E. cbn [app length] in E. rewrite E. cbn iota. by rewrite bool_decide_eq_true_2.
Qed.

Lemma head_app P (a b : list Z) : a <> [] -> head_in P (a ++ b) = head_in P a.
Proof. by destruct a. Qed.

Lemma split_name_port node service : node <> [] -> head_in (is_char 91) node = false -> no_char 58 node -> no_char 58 service ->
  split_host (node ++ 58 :: service) = (node, Some (cstr service)).
Proof.
  intros Hne Hb Hc Hs. unfold split_host. rewrite split_bracket_plain by by rewrite head_app.
  cbn iota. rewrite bool_decide_eq_true_2 by done.
  pose proof (memchr_found 58 [] node service Hc) as E. cbn [app length Nat.add] in E. rewrite E.
  pose proof (memchr_none 58 (node ++ [58]) service Hs) as E2. rewrite <- app_assoc, length_app in E2. cbn [app length] in E2.
  rewrite E2. unfold substr. rewrite drop_0, take_app_length. cbn iota. rewrite bool_decide_eq_false_2 by done.
  cbn [option_map]. do 3 f_equal. rewrite Nat.add_1_r. change (58 :: service) with ([58] ++ service). rewrite app_assoc.
  apply drop_app_length'. rewrite length_app. cbn. lia.
Qed.

(** More colons without brackets: the whole text is the node, and the service
    is left at the first colon. *)
Lemma split_bare node service : no_char 58 node -> head_in (is_char 91) (node ++ [58]) = false -> 58 ∈ service ->
  split_host (node ++ 58 :: service) = (node ++ 58 :: service, Some (cstr (58 :: service))).
Proof.
  intros Hc Hb Hs. unfold split_host.
  rewrite split_bracket_plain by (destruct node; exact Hb).
  cbn iota. rewrite bool_decide_eq_true_2 by done.
  pose proof (memchr_found 58 [] node service Hc) as E. cbn [app length Nat.add] in E. rewrite E.
  assert (exists a b, service = a ++ 58 :: b /\ no_char 58 a) as (a & b & -> & Ha).
  { destruct (find_at (head_in (is_char 58)) 0 service) eqn:Ef.
    - apply find_head_some in Ef as (a & d & b & -> & _ & Hd%Z.eqb_eq & Ha). subst d. exists a, b. split; [done|].
      eapply Forall_impl; [|exact Ha]. intros x Hx. by apply Z.eqb_neq in Hx.
    - apply find_head_none in Ef. rewrite Forall_forall in Ef. apply list_elem_of_In, Ef in Hs. done. }
  pose proof (memchr_found 58 (node ++ [58]) a b Ha) as E2. rewrite <- app_assoc, length_app in E2. cbn [app length] in E2.
  rewrite E2. cbn iota. rewrite bool_decide_eq_true_2 by done. cbn [option_map]. by rewrite drop_app_length.
Qed.

(** Brackets, with and without a port. *)
Lemma split_brackets node service : node <> [] -> no_char 93 node ->
  split_host (91 :: node ++ [93]) = (node, None) /\
  split_host (91 :: node ++ 93 :: 58 :: service) = (node, Some (cstr service)).
Proof.
  intros Hne Hc.
  assert (forall rest, memchr 93 (91 :: node ++ 93 :: rest) 1 = Some (S (length node))) as Hm.
  { intros rest. apply (memchr_found 93 [91] node rest Hc). }
  assert (forall rest, substr (91 :: node ++ 93 :: rest) 1 (length node) = node) as Hsub.
  { intros rest. unfold substr. cbn [drop]. change (skipn 1 (91 :: ?x)) with x. apply take_app_length. }
  assert (forall rest, drop (S (length node) + 1) (91 :: node ++ 93 :: rest) = rest) as Hd.
  { intros rest. rewrite Nat.add_1_r. change (drop (S (S (length node))) (91 :: ?x)) with (drop (S (length node)) x).
    change (93 :: rest) with ([93] ++ rest). rewrite app_assoc. apply drop_app_length'. rewrite length_app. cbn. lia. }
  split; unfold split_host, split_bracket; cbn [negb andb head_in]; rewrite bool_decide_eq_false_2 by done;
    change (is_char 91 91) with true; cbn [negb andb]; rewrite Hm, Nat.sub_succ, Nat.sub_0_r, Hsub, Hd;
    cbn [head_in]; rewrite bool_decide_eq_false_2 by done; rewrite bool_decide_eq_false_2 by done; [done|].
  change (is_char 58 58) with true. cbn [option_map]. do 3 f_equal.
  replace (S (length node) + 2)%nat with (S (S (length node) + 1)) by lia. rewrite <- Nat.add_1_l, Nat.add_comm, <- drop_drop, Hd.
  done.
Qed.

(** ** What is relied on of the system *)
Definition group_bytes (gs : list Z) : list Z := concat (map (fun g => [g / 256; g mod 256]) gs).

Definition v4_address (bs : list Z) (port : Z) : Address := IPv4Address (mkIn AF_INET (htons port) (le_value bs) (zeros 8)).
Definition v6_address (gs : list Z) (port : Z) : Address := IPv6Address (mkIn6 AF_INET6 (htons port) 0 (group_bytes gs) 0).

(** getaddrinfo(3): a numeric host and a numeric service are resolved to the
    address they denote, in one or more entries. *)
Definition resolves {DB : NetDb} (node service : list Z) (family : Z) (a : Address) : Prop :=
  forall socktype, 0 <= socktype <= 2 -> exists rs,
    getaddrinfo node (Some service) (mkHints 0 family socktype 0) = inr rs /\ rs <> [] /\
    Forall (fun r => r = Some (getAddr a)) rs.

Class NetDbLaws {DB : NetDb} := {
  numeric_v4 : forall node bs service port family, read_v4 node = Some bs -> read_dec 65536 service = Some port ->
    family = AF_UNSPEC \/ family = AF_INET -> resolves node service family (v4_address bs port);
  numeric_v6 : forall node gs service port family, read_v6 node = Some gs -> read_dec 65536 service = Some port ->
    family = AF_UNSPEC \/ family = AF_INET6 -> resolves node service family (v6_address gs port);
  pton_v4 : forall s bs, read_v4 s = Some bs -> inet_pton AF_INET s = (1, bs);
  pton_v6 : forall s gs, read_v6 s = Some gs -> inet_pton AF_INET6 s = (1, group_bytes gs)
}.
#[global] Arguments NetDbLaws : clear implicits.

(** The fields that a text does not show. *)
Definition texted (a : Address) : Prop :=
  match a with
  | IPv4Address m => sin_zero m = zeros 8
  | IPv6Address m => sin6_flowinfo m = 0 /\ sin6_scope_id m = 0
  | _ => False
  end.

Lemma htons_pair x y : is_byte x -> is_byte y -> htons (le_value [x; y]) = x * 256 + y.
Proof.
  unfold is_byte, htons, bswap. intros Hx Hy. cbn [le_bytes le_value rev app]. zlia.
Qed.

Lemma group_bytes_groups bs : length bs = 16%nat -> Forall is_byte bs -> group_bytes (map htons (V6.groups bs)) = bs.
Proof.
  intros Hl Hb. do 16 (destruct bs as [|? bs]; [done|]). destruct bs; [|done].
  rewrite !list.Forall_cons in Hb. destruct_and! Hb. unfold group_bytes, V6.groups, field, slice.
  change (seqZ 0 8) with [0; 1; 2; 3; 4; 5; 6; 7]. cbn [map concat app].
  repeat match goal with |- context[take ?n (drop ?k ?l)] =>
    let x := eval cbv in (take n (drop k l)) in change (take n (drop k l)) with x end.
  rewrite !htons_pair by done. unfold is_byte in *. repeat f_equal; zlia.
Qed.

Section printed.
Context {DB : NetDb} {DBL : NetDbLaws DB}.

Lemma dec_no_char c n : 0 <= n -> ~ plain c -> no_char c (dec n).
Proof. intros Hn Hc. apply plain_neq; [by apply dec_plain|done]. Qed.

Lemma dec_no_nul n : 0 <= n -> 0 ∉ dec n.
Proof.
  intros Hn H. pose proof (dec_plain n Hn) as Hp. rewrite list.Forall_forall in Hp. apply Hp in H. unfold plain in H. lia.
Qed.

Lemma no_char_app c a b : no_char c a -> no_char c b -> no_char c (a ++ b).
Proof. intros Ha Hb. apply Forall_app. done. Qed.

Lemma no_nul_in s : no_char 0 s -> 0 ∉ s.
Proof. unfold no_char. intros H Hin. rewrite list.Forall_forall in H. by apply H in Hin. Qed.

(** The octets that are printed are the bytes of the address. *)
Lemma V4_insert m : address_ok (IPv4Address m) ->
  V4.insert m = dotted (le_bytes 4 (s_addr m)) ++ 58 :: dec (htons (sin_port m)).
Proof.
  intros (_ & _ & Ha & _). unfold V4.insert, dotted. unfold htonl, bswap. cbn [le_bytes].
  set (x0 := s_addr m mod 256). set (x1 := s_addr m / 256 mod 256). set (x2 := s_addr m / 256 / 256 mod 256).
  set (x3 := s_addr m / 256 / 256 / 256 mod 256).
  assert (is_byte x0 /\ is_byte x1 /\ is_byte x2 /\ is_byte x3) as (H0 & H1 & H2 & H3)
    by (split_and!; apply Z.mod_pos_bound; lia).
  unfold is_byte in *. cbn [rev app le_value map Strings.join]. change 255 with (Z.ones 8).
  rewrite !Z.land_ones, !Z.shiftr_div_pow2 by lia. change (2 ^ 24) with 16777216. change (2 ^ 16) with 65536. change (2 ^ 8) with 256.
  replace ((x3 + 256 * (x2 + 256 * (x1 + 256 * (x0 + 256 * 0)))) / 16777216 mod 256) with x0 by zlia.
  replace ((x3 + 256 * (x2 + 256 * (x1 + 256 * (x0 + 256 * 0)))) / 65536 mod 256) with x1 by zlia.
  replace ((x3 + 256 * (x2 + 256 * (x1 + 256 * (x0 + 256 * 0)))) / 256 mod 256) with x2 by zlia.
  replace ((x3 + 256 * (x2 + 256 * (x1 + 256 * (x0 + 256 * 0)))) mod 256) with x3 by zlia.
  change (lit ":") with [58]. by rewrite <- !app_assoc.
Qed.

Lemma dotted_chars bs : Forall is_byte bs -> Forall (fun c => plain c \/ c = 46) (dotted bs).
Proof.
  unfold dotted. intros H. change (lit ".") with [46]. induction H as [|b bs Hb Hbs IH]; [done|].
  assert (Forall (fun c => plain c \/ c = 46) (dec b)).
  { eapply Forall_impl; [|apply dec_plain; unfold is_byte in Hb; lia]. by left. }
  destruct bs as [|b' bs]; [done|]. cbn [map Strings.join]. apply Forall_app; split; [done|].
  constructor; [by right|]. exact IH.
Qed.

Lemma chars_no_char (P : Z -> Prop) c s : Forall P s -> ~ P c -> no_char c s.
Proof. intros Hs Hc. eapply Forall_impl; [|exact Hs]. intros x Hx ->. done. Qed.

Lemma v4_of_image m : address_ok (IPv4Address m) -> texted (IPv4Address m) ->
  v4_address (le_bytes 4 (s_addr m)) (htons (sin_port m)) = IPv4Address m.
Proof.
  intros (Hf & Hp & Ha & _) Hz. cbn in Hz. unfold v4_address, htons. rewrite (bswap_bswap 2), (le_value_bytes 4) by done.
  destruct m as [f p a z]. cbn in *. by subst.
Qed.

Lemma v6_of_image m : address_ok (IPv6Address m) -> texted (IPv6Address m) ->
  v6_address (map htons (V6.groups (s6_addr m))) (htons (sin6_port m)) = IPv6Address m.
Proof.
  intros (Hf & Hp & Hfl & Hl & Hb & _) [Hz1 Hz2]. unfold v6_address. rewrite group_bytes_groups by done.
  unfold htons. rewrite (bswap_bswap 2) by done. destruct m as [f p fl a s]. cbn in *. by subst.
Qed.

Lemma tails_chars gs : Forall (fun c => plain c \/ c = 58) (tails gs).
Proof.
  unfold tails. induction gs as [|g gs IH]; [done|]. cbn [map concat app]. constructor; [by right|].
  apply Forall_app; split; [|done]. eapply Forall_impl; [|apply gtext_plain]. by left.
Qed.

Lemma joined_chars gs : Forall (fun c => plain c \/ c = 58) (joined gs).
Proof.
  destruct gs as [|g gs]; [done|]. cbn [joined]. apply Forall_app; split; [|apply tails_chars].
  eapply Forall_impl; [|apply gtext_plain]. by left.
Qed.

(** What the text of an address is split into. *)
Lemma split_toString a : address_ok a -> isIPAddress a = true -> exists s node,
  toString a = Ok s /\ split_host s = (node, Some (dec (getPort a))) /\ 0 ∉ node /\
  match a with
  | IPv4Address m => read_v4 node = Some (le_bytes 4 (s_addr m))
  | IPv6Address m => read_v6 node = Some (map htons (V6.groups (s6_addr m)))
  | _ => True
  end.
Proof.
  intros Ha Hip. destruct a as [m|m|m l|m]; try done; cbn [toString getPort].
  - pose proof (le_bytes_range 4 (s_addr m)) as Hb.
    assert (0 <= htons (sin_port m)) as Hport by apply (bswap_range 2).
    exists (V4.insert m), (dotted (le_bytes 4 (s_addr m))). split; [done|]. rewrite V4_insert by done.
    pose proof (dotted_chars _ Hb) as Hc.
    assert (dotted (le_bytes 4 (s_addr m)) <> [] /\ head_in (is_char 91) (dotted (le_bytes 4 (s_addr m))) = false) as [Hne Hh].
    { cbn [le_bytes] in *. inversion_clear Hb as [|? ? H0 _]. unfold is_byte in H0.
      pose proof (dec_nonnil _ (proj1 H0)) as Hn. pose proof (dec_plain _ (proj1 H0)) as Hp.
      unfold dotted. cbn [map Strings.join]. destruct (dec _) as [|c s]; [done|]. split; [done|].
      inversion_clear Hp as [|? ? Hc0 _]. cbn [app head_in]. apply Z.eqb_neq. unfold plain in Hc0. lia. }
    split_and!.
    + rewrite split_name_port; [by rewrite cstr_id by by apply dec_no_nul|done|done| |by apply dec_no_char; [|unfold plain; lia]].
      apply (chars_no_char _ _ _ Hc). unfold plain. lia.
    + apply no_nul_in, (chars_no_char _ _ _ Hc). unfold plain. lia.
    + cbn [le_bytes] in *. by apply read_v4_dotted.
  - pose proof Ha as (_ & _ & _ & Hl & Hb & _).
    assert (0 <= htons (sin6_port m)) as Hport by apply (bswap_range 2).
    destruct (first_zeros (V6.groups (s6_addr m))) as (l & z & r & Hg & Hl0 & Hz & Hr).
    assert (length (V6.groups (s6_addr m)) = 8%nat) as H8 by done. rewrite Hg in H8.
    pose proof (read_v6_text l z r H8 Hz) as Hread. rewrite <- Hg in Hread.
    exists (V6.insert m), (joined l ++ colons z ++ joined r). split; [done|].
    rewrite (insert_shape m l z r) by (rewrite ?Hg; done).
    assert (Forall (fun c => plain c \/ c = 58) (joined l ++ colons z ++ joined r)) as Hc.
    { rewrite !Forall_app. split_and!; [apply joined_chars| |apply joined_chars]. destruct z; [done|]. repeat constructor; by right. }
    split_and!; [|apply no_nul_in, (chars_no_char _ _ _ Hc); unfold plain; lia|done].
    change ([91] ++ ?x ++ [93; 58] ++ ?y) with (91 :: x ++ 93 :: 58 :: y).
    destruct (split_brackets (joined l ++ colons z ++ joined r) (dec (htons (sin6_port m)))) as [_ ->].
    + intros E. by rewrite E in Hread.
    + apply (chars_no_char _ _ _ Hc). unfold plain. lia.
    + by rewrite cstr_id by by apply dec_no_nul.
Qed.

Lemma each_Create a rs : address_ok a -> isIPAddress a = true -> Forall (fun r => r = Some (getAddr a)) rs ->
  each Address_Create rs = Ok (repeat (Some a) (length rs)).
Proof.
  intros Ha Hip. induction 1 as [|r rs -> _ IH]; [done|]. cbn [each length repeat]. rewrite Create_image by done.
  rewrite ok_bind. rewrite IH. done.
Qed.

Lemma Lookup_text a family socktype : address_ok a -> texted a -> isIPAddress a = true ->
  family = AF_UNSPEC \/ family = getFamily a -> 0 <= socktype <= 2 ->
  exists s n, toString a = Ok s /\ Lookup [] s family socktype 0 = Ok (true, repeat (Some a) (S n)).
Proof.
  intros Ha Ht Hip Hf Hs. destruct (split_toString a Ha Hip) as (s & node & Es & Hsp & H0 & Hread).
  rewrite (family_image a Ha) in Hf.
  assert (read_dec 65536 (dec (getPort a)) = Some (getPort a)) as Hrp.
  { apply read_dec_ok; [|lia]. destruct a; try done; apply (bswap_range 2). }
  assert (resolves node (dec (getPort a)) family a) as Hres.
  { destruct a as [m|m|m l|m]; try done.
    - rewrite <- (v4_of_image m) at 2 by done. by apply (numeric_v4 _ _ _ _ _ Hread Hrp).
    - rewrite <- (v6_of_image m) at 2 by done. by apply (numeric_v6 _ _ _ _ _ Hread Hrp). }
  destruct (Hres socktype Hs) as (rs & Eg & Hne & Hrs).
  destruct rs as [|r rs]; [done|]. exists s, (length rs). split; [done|].
  unfold Lookup. rewrite Hsp, (cstr_id node), Eg, (each_Create a) by done. done.
Qed.
End printed.

(** ** Counting bits *)
Fixpoint pos_ones (p : positive) : Z :=
  match p with xH => 1 | xO p => pos_ones p | xI p => 1 + pos_ones p end.
(** The ones in the binary numeral. *)
Definition ones (z : Z) : Z := match z with Zpos p => pos_ones p | _ => 0 end.

Lemma ones_nonneg z : 0 <= ones z.
Proof. destruct z as [|p|p]; cbn; try lia. induction p; cbn; lia. Qed.

(** [value & (value - 1)] clears one bit. *)
Lemma land_double a b x : 0 <= x <= 1 -> Z.land (2 * a) (2 * b + x) = 2 * Z.land a b.
Proof.
  intros Hx. apply Z.bits_inj'. intros n Hn. rewrite Z.land_spec. destruct (Z.eq_dec n 0) as [->|Hn0].
  - by rewrite !Z.testbit_even_0.
  - replace n with (Z.succ (n - 1)) by lia. rewrite !Z.testbit_even_succ, Z.land_spec by lia.
    assert (x = 0 \/ x = 1) as [-> | ->] by lia; [by rewrite Z.add_0_r, Z.testbit_even_succ by lia|by rewrite Z.testbit_odd_succ by lia].
Qed.

Lemma ones_double z : ones (2 * z) = ones z.
Proof. by destruct z. Qed.

Lemma ones_clear p : ones (Z.land (Zpos p) (Zpos p - 1)) = pos_ones p - 1.
Proof.
  induction p as [p IH|p IH|]; [| |done].
  - replace (Zpos p~1 - 1) with (2 * Zpos p) by lia. replace (Zpos p~1) with (2 * Zpos p + 1) by lia.
    rewrite Z.land_comm, land_double, Z.land_diag, ones_double by lia. cbn. lia.
  - replace (Zpos p~0 - 1) with (2 * (Zpos p - 1) + 1) by lia. change (Zpos p~0) with (2 * Zpos p).
    rewrite land_double, ones_double by lia. exact IH.
Qed.

Lemma CountBytes_loop_ok fuel : forall v r, 0 <= v -> (Z.to_nat (ones v) < fuel)%nat -> 0 <= r -> r + ones v < 2 ^ 32 ->
  CountBytes_loop fuel v r = Ok (r + ones v).
Proof.
  induction fuel as [|fuel IH]; intros v r Hv Hf Hr Hb; [lia|]. cbn [CountBytes_loop].
  destruct v as [|p|p]; [cbn; f_equal; lia| |lia]. cbn [Z.eqb].
  pose proof (ones_clear p) as Hc. pose proof (ones_nonneg (Z.land (Zpos p) (Zpos p - 1))) as Hn. cbn [ones] in *.
  rewrite uwrap_id by (unfold in_u; lia). rewrite IH; [rewrite Hc; f_equal; lia|apply Z.land_nonneg; left; lia|lia|lia|lia].
Qed.

Lemma ones_bound w : forall v, in_u (Z.of_nat w) v -> ones v <= Z.of_nat w.
Proof.
  induction w as [|w IH]; intros v Hv; unfold in_u in *.
  - assert (v = 0) as -> by (change (2 ^ Z.of_nat 0) with 1 in Hv; lia). done.
  - rewrite Nat2Z.inj_succ, Z.pow_succ_r in Hv by lia. destruct v as [|[p|p|]|p]; cbn [ones pos_ones]; try lia.
    + pose proof (IH (Zpos p) ltac:(lia)). cbn [ones] in *. lia.
    + pose proof (IH (Zpos p) ltac:(lia)). cbn [ones] in *. lia.
Qed.

Lemma CountBytes_ok w v : (w <= 32)%nat -> in_u (Z.of_nat w) v -> CountBytes (Z.of_nat w) v = Ok (ones v).
Proof.
  intros Hw Hv. pose proof (ones_bound w v Hv). pose proof (ones_nonneg v). unfold CountBytes.
  rewrite CountBytes_loop_ok; [done|unfold in_u in Hv; lia|lia|lia|lia].
Qed.

(** ** Masks count their prefix *)
Definition count_mask (m : Address) : outcome Z :=
  match m with IPv4Address m => CountBytes 32 (s_addr m) | IPv6Address m => count_bytes (s6_addr m) 0 | _ => Ok 0 end.

Definition counts_to (p : Z) (m : outcome (option Address)) : bool :=
  match m with Ok (Some m) => bool_decide (count_mask m = Ok p) | _ => false end.

Lemma subnets_exist a p : address_ok a -> prefix_ok a p ->
  exists b n s, broadcastAddress a p = Ok (Some b) /\ networdAddress a p = Ok (Some n) /\
    subnetMask a p = Ok (Some s) /\ subnets a p b n s.
Proof.
  destruct a as [m|m|m l|m]; intros Ha Hp; try done; [by apply V4_subnets|by apply V6_subnets].
Qed.

Lemma mask_counts a p : address_ok a -> prefix_ok a p ->
  exists m, subnetMask a p = Ok (Some m) /\ address_ok m /\ count_mask m = Ok p /\
    match a, m with IPv4Address _, IPv4Address _ | IPv6Address _, IPv6Address _ => True | _, _ => False end.
Proof.
  intros Ha Hp. destruct (subnets_exist a p Ha Hp) as (b & n & m & _ & _ & E & _ & _ & Hm & _).
  exists m. split_and!; [done|done| |].
  - destruct a as [a|a|a l|a]; cbn [prefix_ok subnetMask] in *; try done.
    + pose proof (field_cases (fun p => (p <? 2) || counts_to p (V4.subnetMask p)) 33 p ltac:(vm_compute; reflexivity) ltac:(lia)) as H.
      cbn beta in H. rewrite E, (proj2 (Z.ltb_ge p 2)) in H by lia. by apply bool_decide_eq_true in H.
    + pose proof (field_cases (fun p => counts_to p (V6.subnetMask p)) 128 p ltac:(vm_compute; reflexivity) ltac:(lia)) as H.
      cbn beta in H. rewrite E in H. by apply bool_decide_eq_true in H.
  - destruct a as [a|a|a l|a]; cbn [prefix_ok subnetMask] in *; try done.
    + unfold V4.subnetMask in E. rewrite CreateMask_32 in E by done. by injection E as <-.
    + unfold V6.subnetMask in E. rewrite CreateMask_8 in E by (apply Z.mod_pos_bound; lia).
      rewrite ok_bind in E. destruct (V6_mask p Hp) as (bs & Es & _).
      rewrite (obind_inner _ _ _ _ Es) in E. by injection E as <-.
Qed.

(** ** The table of interfaces *)
Definition later (x y : list Z * (Address * Z)) : Prop := lex_lt y.1 x.1 = false.

Lemma lex_lt_asym a b : lex_lt a b = true -> lex_lt b a = false.
Proof.
  intros H. destruct (lex_lt b a) eqn:E; [|done]. pose proof (lex_lt_trans _ _ _ H E) as Ht. by rewrite lex_lt_irrefl in Ht.
Qed.

(** Strictly before [k'], and [k'] is not after [k'']. *)
Lemma lex_lt_le k k' k'' : lex_lt k k' = true -> lex_lt k'' k' = false -> lex_lt k k'' = true.
Proof.
  intros H1 H2. destruct (lex_lt k' k'') eqn:E; [by apply (lex_lt_trans k k')|]. by rewrite (lex_lt_total k' k'' E H2) in H1.
Qed.

Lemma multimap_insert_in k v m e : e ∈ multimap_insert k v m -> e = (k, v) \/ e ∈ m.
Proof.
  induction m as [|[k' v'] m IH]; cbn [multimap_insert].
  - intros ->%list_elem_of_singleton. by left.
  - destruct (lex_lt k k'); rewrite !elem_of_cons; [tauto|]. intros [->|H%IH]; tauto.
Qed.

Lemma multimap_insert_sorted k v m : StronglySorted later m -> StronglySorted later (multimap_insert k v m).
Proof.
  induction 1 as [|[k' v'] m Hs IH Hf]; cbn [multimap_insert]; [by repeat constructor|].
  destruct (lex_lt k k') eqn:E.
  - constructor; [by constructor|]. constructor; [by apply lex_lt_asym|].
    eapply Forall_impl; [|exact Hf]. intros [k'' v''] H. cbn in *. apply lex_lt_asym. by apply (lex_lt_le k k').
  - constructor; [done|]. apply list.Forall_forall. intros e [->|He]%multimap_insert_in; [done|].
    rewrite list.Forall_forall in Hf. by apply Hf.
Qed.

Lemma named_insert k v m k0 : StronglySorted later m ->
  filter (fun e => e.1 = k0) (multimap_insert k v m) = filter (fun e => e.1 = k0) m ++ (if decide (k = k0) then [(k, v)] else []).
Proof.
  induction 1 as [|[k' v'] m Hs IH Hf]; cbn [multimap_insert]; [done|].
  destruct (lex_lt k k') eqn:E.
  - assert (k = k0 -> filter (fun e => e.1 = k0) ((k', v') :: m) = []) as Hnone.
    { intros ->. apply filter_none. intros [k'' v''] Hin H. cbn in H. subst k''. rewrite list.Forall_forall in Hf.
      apply elem_of_cons in Hin as [[= -> ->]|Hin]; [by rewrite lex_lt_irrefl in E|].
      apply Hf in Hin. cbn in Hin. pose proof (lex_lt_le _ _ _ E Hin) as H. by rewrite lex_lt_irrefl in H. }
    rewrite (list.filter_cons _ (k, v)). cbn [fst]. repeat case_decide; try done; [by rewrite Hnone|by rewrite app_nil_r].
  - rewrite !list.filter_cons, IH. cbn [fst]. repeat case_decide; done.
Qed.

Lemma equal_range_named k m : StronglySorted later m -> equal_range k m = filter (fun e => e.1 = k) m.
Proof.
  induction 1 as [|[k' v'] m Hs IH Hf]; [done|]. cbn [equal_range]. rewrite list.filter_cons. cbn [fst].
  destruct (lex_lt k' k) eqn:E1.
  - rewrite decide_False by (intros ->; by rewrite lex_lt_irrefl in E1). done.
  - destruct (lex_lt k k') eqn:E2.
    + rewrite decide_False by (intros ->; by rewrite lex_lt_irrefl in E2). symmetry. apply filter_none.
      intros [k'' v''] Hin H. cbn in H. subst k''. rewrite list.Forall_forall in Hf. apply Hf in Hin. cbn in Hin.
      pose proof (lex_lt_le _ _ _ E2 Hin) as H. by rewrite lex_lt_irrefl in H.
    + rewrite decide_True by (symmetry; by apply lex_lt_total). by rewrite IH.
Qed.

(** An interface of the kernel: its name, one address, and a prefix length. *)
Record interface := mkInterface { if_name : list Z; if_address : Address; if_prefix : Z }.

Definition wanted (family : Z) (i : interface) : Prop := family = AF_UNSPEC \/ family = getFamily (if_address i).
#[export] Instance wanted_dec family i : Decision (wanted family i).
Proof. unfold wanted. apply _. Defined.

(** The entry getifaddrs gives for it: the netmask is the one of the prefix. *)
Definition describes (i : interface) (e : ifaddrs) : Prop :=
  0 ∉ if_name i /\ ifa_name e = if_name i /\ address_ok (if_address i) /\ prefix_ok (if_address i) (if_prefix i) /\
  ifa_addr e = Some (getAddr (if_address i)) /\
  exists m, subnetMask (if_address i) (if_prefix i) = Ok (Some m) /\ ifa_netmask e = Some (getAddr m).

Lemma interface_address_ok i e family : describes i e ->
  interface_address e family = Ok (if decide (wanted family i) then Some (if_address i, if_prefix i) else None).
Proof.
  intros (_ & _ & Ha & Hp & Ea & m & Em & En). destruct (mask_counts _ _ Ha Hp) as (m' & Em' & Hm & Hc & Hk).
  rewrite Em in Em'. injection Em' as <-. pose proof (image_ok _ Ha) as (Hl & _ & H2). pose proof (image_ok _ Hm) as (Hlm & _ & _).
  assert (isIPAddress (if_address i) = true) as Hip by (clear -Hp; destruct (if_address i); (done || by destruct Hp)).
  unfold interface_address. rewrite Ea, En. cbn [deref]. rewrite ok_bind.
  rewrite (reading_ok 2) by done. rewrite ok_bind.
  change (field (getAddr (if_address i)) 0 2) with (getFamily (if_address i)).
  unfold wanted. destruct (Z.eqb_spec family AF_UNSPEC) as [Hu|Hu]; cbn [negb andb];
    [rewrite decide_True by by left|destruct (Z.eqb_spec family (getFamily (if_address i))) as [Hf|Hf]; cbn [negb];
      [rewrite decide_True by by right|by rewrite decide_False by tauto]].
  all: rewrite (family_image _ Ha), (Create_image _ Ha Hip); destruct (if_address i) as [a|a|a l|a], m as [n|n|n l'|n]; try done.
  all: cbn [getAddr getAddrLen] in *; change (AF_INET =? AF_INET) with true; change (AF_INET6 =? AF_INET) with false;
    change (AF_INET6 =? AF_INET6) with true; cbn iota; rewrite !ok_bind.
  all: first [rewrite (reading_ok 16) by lia; rewrite in_of_image by done|rewrite (reading_ok 28) by lia; rewrite in6_of_image by done].
  all: rewrite ok_bind; cbn [count_mask] in Hc; by rewrite Hc.
Qed.

Definition named (k : list Z) (m : interfaces) : interfaces := filter (fun e => e.1 = k) m.
Definition listed (k : list Z) (family : Z) (ifs : list interface) : list (Address * Z) :=
  map (fun i => (if_address i, if_prefix i)) (filter (fun i => if_name i = k /\ wanted family i) ifs).

Lemma interface_loop_ok family ifs es : Forall2 describes ifs es -> forall res, StronglySorted later res ->
  exists res', interface_loop es family res = Ok res' /\ StronglySorted later res' /\
    (forall k, map snd (named k res') = map snd (named k res) ++ listed k family ifs) /\
    (res' = [] <-> res = [] /\ Forall (fun i => ~ wanted family i) ifs).
Proof.
  induction 1 as [|i e ifs es Hd _ IH]; intros res Hs; cbn [interface_loop].
  - exists res. split_and!; try done; [intros k; by rewrite app_nil_r|by split; [|intros []]].
  - rewrite (interface_address_ok i e family Hd), ok_bind. pose proof Hd as (H0 & Hname & _). rewrite Hname, (cstr_id _ H0).
    destruct (decide (wanted family i)) as [Hw|Hw].
    + destruct (IH _ (multimap_insert_sorted (if_name i) (if_address i, if_prefix i) res Hs)) as (res' & E & Hs' & Hk & Hn).
      exists res'. split_and!; [done|done| |].
      * intros k. rewrite Hk. unfold named, listed. rewrite named_insert, map_app, <- app_assoc by done. f_equal.
        rewrite list.filter_cons. repeat case_decide; try tauto; done.
      * rewrite Hn. split; [|by intros [_ [Hf _]%list.Forall_cons]].
        intros [Hins _]. destruct res as [|[k v] res]; [done|]. cbn [multimap_insert] in Hins. by destruct (lex_lt _ _).
    + destruct (IH res Hs) as (res' & E & Hs' & Hk & Hn). exists res'. split_and!; [done|done| |].
      * intros k. rewrite Hk. unfold listed. rewrite list.filter_cons. by rewrite decide_False by tauto.
      * rewrite Hn, list.Forall_cons. tauto.
Qed.

Lemma toString_defined a : address_ok a -> exists s, toString a = Ok s.
Proof.
  destruct a as [m|m|m l|m]; cbn [toString]; [by eexists|by eexists| |by eexists].
  intros (_ & Hl & _ & Hlen & H0). unfold getPath. rewrite Hl. destruct (_ && _).
  - rewrite (proj2 (Z.ltb_ge _ _)) by (unfold PATH_OFFSET; lia). by eexists.
  - unfold c_text. rewrite (proj2 (existsb_nul _)) by done. by eexists.
Qed.

Lemma setPort_ok v a : in_u 16 v -> address_ok a -> address_ok (setPort v a) /\ (isIPAddress a = true -> getPort (setPort v a) = v).
Proof.
  intros Hv. pose proof (bswap_range 2 v) as Hr. change (8 * Z.of_nat 2) with 16 in Hr.
  destruct a as [m|m|m l|m]; cbn [address_ok setPort getPort isIPAddress sin_family sin_port s_addr sin_zero
    sin6_family sin6_port sin6_flowinfo s6_addr sin6_scope_id]; intros H; (split; [tauto|]); try done;
    intros _; by apply (bswap_bswap 2).
Qed.

(** ** Making an address from a text *)
Lemma Create_text {DB : NetDb} {DBL : NetDbLaws DB} port :
  (forall s bs, read_v4 s = Some bs -> IPv4Address_Create s port = Some (v4_address bs port)) /\
  (forall s gs, read_v6 s = Some gs -> IPv6Address_Create s port = Some (v6_address gs port)).
Proof.
  split; intros s l Hs; [unfold IPv4Address_Create; rewrite (pton_v4 s l Hs)|unfold IPv6Address_Create; rewrite (pton_v6 s l Hs)]; done.
Qed.

(** ** A system *)
(** No text is in both notations. *)
Lemma split_on_in d c s : c ∈ s -> c = d \/ exists p, p ∈ split_on d s /\ c ∈ p.
Proof.
  induction s as [|x s IH]; [by intros ?%not_elem_of_nil|]. cbn [split_on].
  intros [->|Hc]%elem_of_cons.
  - destruct (Z.eqb_spec x d) as [->|Hx]; [by left|]. right.
    destruct (split_on d s) as [|p ps]; eexists; (split; [by left|by left]).
  - destruct (IH Hc) as [->|(p & Hp & Hcp)]; [by left|]. right. destruct (x =? d); [exists p; split; [by right|done]|].
    destruct (split_on d s) as [|q ps]; [by apply not_elem_of_nil in Hp|].
    apply elem_of_cons in Hp as [->|Hp]; [exists (x :: q); split; [by left|by right]|exists p; split; [by right|done]].
Qed.

Lemma read_dec_inv bound s v : read_dec bound s = Some v -> 0 <= v < bound /\ dec v = s.
Proof. unfold read_dec. case_bool_decide as H; [|done]. by intros [= <-]. Qed.

Lemma read_v4_no_colon s bs : read_v4 s = Some bs -> 58 ∉ s.
Proof.
  unfold read_v4. intros H Hin. destruct (split_on_in 46 58 s Hin) as [|(p & Hp & Hc)]; [done|].
  assert (exists v, read_dec 256 p = Some v) as (v & [Hv Hd]%read_dec_inv).
  { destruct (split_on 46 s) as [|a [|b [|c [|d [|]]]]]; try done. cbn [map sequence] in H.
    rewrite !elem_of_cons in Hp. destruct (read_dec 256 a) eqn:E1, (read_dec 256 b) eqn:E2, (read_dec 256 c) eqn:E3,
      (read_dec 256 d) eqn:E4; try done.
    destruct Hp as [->|[->|[->|[->|Hp]]]]; [eexists; exact E1|eexists; exact E2|eexists; exact E3|eexists; exact E4|].
    by apply not_elem_of_nil in Hp. }
  pose proof (dec_plain v (proj1 Hv)) as Hpl. rewrite Hd, list.Forall_forall in Hpl. apply Hpl in Hc. unfold plain in Hc. lia.
Qed.

Lemma read_v6_colon s gs : read_v6 s = Some gs -> 58 ∈ s.
Proof.
  intros H. destruct (decide (58 ∈ s)) as [|Hno]; [done|]. exfalso. unfold read_v6 in H.
  rewrite split_on_plain in H by (apply list.Forall_forall; by intros c Hc ->).
  destruct s as [|c s]; [done|]. cbn in H. destruct (read_hex 65536 (c :: s)); done.
Qed.

Definition demo_getaddrinfo (node : list Z) (service : option (list Z)) (hints : addrinfo) : Z + list (option (list Z)) :=
  match service ≫= read_dec 65536 with
  | None => inl (-8)
  | Some port =>
    if bool_decide (58 ∈ node) then
      match read_v6 node with Some gs => inr [Some (getAddr (v6_address gs port))] | None => inl (-2) end
    else match read_v4 node with Some bs => inr [Some (getAddr (v4_address bs port))] | None => inl (-2) end
  end.

Definition mask_image (a : Address) (p : Z) : option (list Z) :=
  match subnetMask a p with Ok (Some m) => Some (getAddr m) | _ => None end.

Definition demo_interfaces : list interface :=
  [mkInterface (lit "lo") (v4_address [127; 0; 0; 1] 0) 8; mkInterface (lit "eth0") (v4_address [192; 168; 1; 10] 0) 24;
   mkInterface (lit "eth0") (v6_address [65152; 0; 0; 0; 0; 0; 0; 1] 0) 64].
Definition demo_ifaddrs (i : interface) : ifaddrs :=
  mkIf (if_name i) (Some (getAddr (if_address i))) (mask_image (if_address i) (if_prefix i)).

Definition demo_db : NetDb := {|
  getaddrinfo := demo_getaddrinfo;
  getifaddrs := Some (map demo_ifaddrs demo_interfaces);
  inet_pton := fun family s =>
    if family =? AF_INET then match read_v4 s with Some bs => (1, bs) | None => (0, []) end
    else match read_v6 s with Some gs => (1, group_bytes gs) | None => (0, []) end
|}.

Lemma demo_db_laws : NetDbLaws demo_db.
Proof.
  split.
  - intros node bs service port family Hr Hp _ socktype _. eexists. cbn. unfold demo_getaddrinfo. cbn. rewrite Hp.
    rewrite bool_decide_eq_false_2 by by eapply read_v4_no_colon. rewrite Hr. split_and!; [done|done|by repeat constructor].
  - intros node gs service port family Hr Hp _ socktype _. eexists. cbn. unfold demo_getaddrinfo. cbn. rewrite Hp.
    rewrite bool_decide_eq_true_2 by by eapply read_v6_colon. rewrite Hr. split_and!; [done|done|by repeat constructor].
  - intros s bs Hs. cbn. by rewrite Hs.
  - intros s gs Hs. cbn. by rewrite Hs.
Qed.

Lemma demo_describes : Forall2 describes demo_interfaces (map demo_ifaddrs demo_interfaces).
Proof.
  repeat constructor; try by_computation; try done; eexists; (split; [vm_compute; reflexivity|reflexivity]).
Qed.

(** ** Properties *)

(** For every prefix length that is served (2 to 32 bits of an IPv4
    address, 0 to 127 of an IPv6 address) the broadcast address keeps the
    prefix and sets the rest, the mask is the prefix of ones, and the network
    address keeps the port and exactly the bits named by [network_keeps], which
    are not those of the prefix; every other length is refused with a null
    pointer or runs into undefined behaviour, the kind of which is given. *)
Theorem subnet_addresses a p : address_ok a -> isIPAddress a = true -> in_u 32 p ->
  (prefix_ok a p -> exists b n s, broadcastAddress a p = Ok (Some b) /\ networdAddress a p = Ok (Some n) /\
     subnetMask a p = Ok (Some s) /\ subnets a p b n s) /\
  (~ prefix_ok a p ->
     match a with
     | IPv4Address _ =>
         if p <? 32 then
           let u := Undef (if p =? 0 then ShiftWidth else SignedOverflow) in
           broadcastAddress a p = u /\ networdAddress a p = u /\ subnetMask a p = u
         else broadcastAddress a p = Ok None /\ networdAddress a p = Ok None /\ subnetMask a p = Undef ShiftWidth
     | _ => broadcastAddress a p = Undef OutOfBounds /\ networdAddress a p = Undef OutOfBounds /\
            subnetMask a p = Undef OutOfBounds
     end).
Proof.
  intros Ha Hip Hp. split; [by apply subnets_exist|]. intros Hno. unfold in_u in Hp.
  destruct a as [m|m|m l|m]; try done; cbn [prefix_ok broadcastAddress networdAddress subnetMask] in *.
  - unfold V4.broadcastAddress, V4.networdAddress, V4.subnetMask. destruct (Z.ltb_spec p 32).
    + rewrite (proj2 (Z.ltb_ge 32 p)) by lia. assert (p = 0 \/ p = 1) as [-> | ->] by lia; cbn zeta; split_and!; reflexivity.
    + rewrite (proj2 (Z.ltb_lt 32 p)) by lia. by rewrite CreateMask_wide by lia.
  - unfold V6.broadcastAddress, V6.networdAddress, V6.subnetMask. rewrite CreateMask_8, !ok_bind by (apply Z.mod_pos_bound; lia).
    destruct Ha as (_ & _ & _ & Hl & _). unfold get_byte, set_byte. change (zlen (zeros 16)) with 16. rewrite Hl.
    change (Z.of_nat 16) with 16. rewrite (proj2 (Z.ltb_ge (p / 8) 16)), andb_false_r by zlia. done.
Qed.


(** The order of addresses, in which they are kept in maps and sets, is a
    strict total order that agrees with equality: it is the lexicographic order
    of what the system sees of them. *)
Theorem addresses_ordered a b c : address_ok a -> address_ok b -> address_ok c ->
  operator_lt a b = Ok (lex_lt (seen a) (seen b)) /\
  operator_lt a a = Ok false /\
  (operator_lt a b = Ok true -> operator_lt b c = Ok true -> operator_lt a c = Ok true) /\
  (operator_eq a b = Ok true <-> operator_lt a b = Ok false /\ operator_lt b a = Ok false) /\
  (operator_eq a b = Ok true <-> seen a = seen b) /\
  exists e, operator_eq a b = Ok e /\ operator_ne a b = Ok (negb e).
Proof.
  intros Ha Hb Hc. unfold operator_ne. rewrite !operator_lt_exact, !operator_eq_exact, lex_lt_irrefl, ok_bind by done.
  split_and!; try done.
  - intros [= H1] [= H2]. f_equal. by apply (lex_lt_trans (seen a) (seen b)).
  - split.
    + intros [= ->%bool_decide_eq_true]. by rewrite lex_lt_irrefl.
    + intros [[= H1] [= H2]]. f_equal. apply bool_decide_eq_true. by apply lex_lt_total.
  - split; [by intros [= H%bool_decide_eq_true]|intros ->; by rewrite bool_decide_eq_true_2].
  - by eexists.
Qed.

(** A host is split into name and port: "name", "name:port", "[name]" and
    "[name]:port". A text with more colons and no brackets, as an IPv6 address
    is, becomes the name, but with its own tail from the first colon on as the
    service. *)
Theorem host_splits node service : node <> [] -> 0 ∉ service ->
  (head_in (is_char 91) node = false -> no_char 58 node ->
     split_host node = (node, None) /\
     (no_char 58 service -> split_host (node ++ 58 :: service) = (node, Some service)) /\
     (58 ∈ service -> split_host (node ++ 58 :: service) = (node ++ 58 :: service, Some (58 :: service)))) /\
  (no_char 93 node ->
     split_host (91 :: node ++ [93]) = (node, None) /\
     split_host (91 :: node ++ 93 :: 58 :: service) = (node, Some service)).
Proof.
  intros Hne H0. split.
  - intros Hb Hc. split_and!; [by apply split_name| |].
    + intros Hs. by rewrite split_name_port, cstr_id.
    + intros Hs. rewrite split_bare by (try done; by rewrite head_app). cbn [cstr Z.eqb]. by rewrite cstr_id.
  - intros Hc. destruct (split_brackets node service Hne Hc) as [E1 E2]. by rewrite E1, E2, cstr_id.
Qed.

(** C32: the text of an address leads back to it: an IPv4 or IPv6 address that is
    printed and looked up, with any family that allows it, is found, alone or
    several times, by each of the three look-ups; the text is the dotted
    decimal or RFC 4291 form of the address with its port. *)
Theorem Lookup_toString {DB : NetDb} {DBL : NetDbLaws DB} a family socktype :
  address_ok a -> texted a -> isIPAddress a = true ->
  family = AF_UNSPEC \/ family = getFamily a -> 0 <= socktype <= 2 ->
  exists s n, toString a = Ok s /\
    Lookup [] s family socktype 0 = Ok (true, repeat (Some a) (S n)) /\
    LookupAny s family socktype 0 = Ok (Some a) /\
    LookupAnyIPAddress s family socktype 0 = Ok (Some a).
Proof.
  intros Ha Ht Hip Hf Hs. destruct (Lookup_text a family socktype Ha Ht Hip Hf Hs) as (s & n & Es & El).
  exists s, n. split_and!; [done|done| |].
  - unfold LookupAny. by rewrite El, ok_bind.
  - unfold LookupAnyIPAddress. rewrite El, ok_bind. cbn [repeat first_ip asIPAddress]. by rewrite Hip.
Qed.

(** The addresses of an interface: for every table of the kernel, those of
    the interface asked for, in the kernel's order, of the family asked for,
    each with the length of its prefix, which is what [subnetMask] made its
    mask from; false when the kernel's table has no wanted address or
    the interface has none. *)
Theorem interface_addresses {DB : NetDb} ifs es iface family :
  getifaddrs = Some es -> Forall2 describes ifs es -> iface <> [] -> iface <> lit "*" ->
  let l := listed iface family ifs in
  GetInterfaceAddresses [] iface family = Ok (negb (bool_decide (l = [])), l).
Proof.
  intros Eg Hd Hne Hstar l. unfold GetInterfaceAddresses, GetInterfaceAddresses_all. rewrite Eg.
  rewrite !bool_decide_eq_false_2 by done. cbn [orb].
  destruct (interface_loop_ok family ifs es Hd [] (SSorted_nil _)) as (res & E & Hs & Hk & Hn).
  rewrite E, ok_bind. cbn [mret outcome_ret]. rewrite ok_bind.
  specialize (Hk iface). cbn in Hk. rewrite equal_range_named by done. unfold named in Hk. cbn [app]. rewrite Hk.
  destruct (bool_decide (res = [])) eqn:Er; cbn [negb]; [|done].
  apply bool_decide_eq_true in Er. subst res. cbn in Hk. subst l. by rewrite <- Hk.
Qed.

(** ** Runs *)
Definition demo_v4 : Address := v4_address [192; 168; 1; 10] 80.
Definition demo_v6 : Address := v6_address [65152; 0; 0; 0; 0; 0; 0; 1] 443.

Lemma demo_v4_ok : address_ok demo_v4.
Proof. by_computation. Qed.
Lemma demo_v6_ok : address_ok demo_v6.
Proof. by_computation. Qed.

Definition plain_text (o : outcome (option Address)) : outcome (list Z) :=
  match o with Ok (Some a) => toString a | Ok None => Ok [] | _ => Undef NullDeref end.

(** The network of 192.168.1.10/24 should be 192.168.1.0. *)
Lemma subnet_addresses_witness :
  plain_text (broadcastAddress demo_v4 24) = Ok (lit "192.168.1.255:80") /\
  plain_text (networdAddress demo_v4 24) = Ok (lit "0.0.0.10:80") /\
  plain_text (subnetMask demo_v4 24) = Ok (lit "255.255.255.0:0") /\
  (exists b n s, broadcastAddress demo_v4 24 = Ok (Some b) /\ networdAddress demo_v4 24 = Ok (Some n) /\
     subnetMask demo_v4 24 = Ok (Some s) /\ subnets demo_v4 24 b n s) /\
  broadcastAddress demo_v6 128 = Undef OutOfBounds.
Proof.
  split_and!; [by vm_compute|by vm_compute|by vm_compute| |].
  - apply (subnet_addresses demo_v4 24 demo_v4_ok eq_refl ltac:(split; done)). split; done.
  - apply (subnet_addresses demo_v6 128 demo_v6_ok eq_refl ltac:(split; done)). intros [_ H]. done.
Defined.


Lemma addresses_ordered_witness : operator_lt demo_v4 demo_v6 = Ok true /\ operator_lt demo_v4 demo_v4 = Ok false.
Proof.
  destruct (addresses_ordered demo_v4 demo_v6 demo_v4 demo_v4_ok demo_v6_ok demo_v4_ok) as (H1 & H2 & _).
  split; [by rewrite H1; vm_compute|done].
Defined.

Lemma host_splits_witness :
  split_host (lit "www.x.org:80") = (lit "www.x.org", Some (lit "80")) /\
  split_host (lit "[::1]:80") = (lit "::1", Some (lit "80")) /\
  split_host (lit "fe80::1") = (lit "fe80::1", Some (lit "::1")).
Proof.
  destruct (host_splits (lit "www.x.org") (lit "80")) as [H1 _]; [done|by_computation|].
  destruct (host_splits (lit "::1") (lit "80")) as [_ H2]; [done|by_computation|].
  destruct (host_splits (lit "fe80") (lit ":1")) as [H3 _]; [done|by_computation|].
  split_and!; [apply H1; by_computation|apply H2; by_computation|apply H3; by_computation].
Defined.

Lemma Lookup_toString_witness : exists s n, toString demo_v6 = Ok s /\
  Lookup (DB:=demo_db) [] s AF_UNSPEC 1 0 = Ok (true, repeat (Some demo_v6) (S n)) /\
  LookupAny (DB:=demo_db) s AF_UNSPEC 1 0 = Ok (Some demo_v6) /\
  LookupAnyIPAddress (DB:=demo_db) s AF_UNSPEC 1 0 = Ok (Some demo_v6).
Proof.
  apply (Lookup_toString (DB:=demo_db) (DBL:=demo_db_laws) demo_v6 AF_UNSPEC 1);
    [exact demo_v6_ok|done|done|by left|done].
Defined.

Lemma interface_addresses_witness :
  GetInterfaceAddresses (DB:=demo_db) [] (lit "eth0") AF_UNSPEC =
    Ok (true, [(v4_address [192; 168; 1; 10] 0, 24); (v6_address [65152; 0; 0; 0; 0; 0; 0; 1] 0, 64)]).
Proof.
  rewrite (interface_addresses (DB:=demo_db) demo_interfaces (map demo_ifaddrs demo_interfaces) (lit "eth0") AF_UNSPEC
    eq_refl demo_describes ltac:(done) ltac:(done)).
  by vm_compute.
Defined.
