(* ===== verification/ObjPool.v ===== *)
(** objpool.h, objpool.cpp: the pool that fibers can be allocated from.

    Blocks of one size are cut from regions of fixed size; a block that is given
    back is linked into a list that runs through the blocks themselves.  Memory
    is a table of words with the regions that are mapped; an access outside of
    them faults.  The answer of mmap is an argument of [New].  Theorems quantify
    over every history of allocations, releases and writes of the program into
    blocks it holds. *)
From Stdlib Require Import List.
From stdpp Require Import gmap.
From S2P Require Import Prelude.

(** ** Memory *)
Definition MMAP_SIZE : Z := 132 * 1024 * 20.

Record Memory := mkMemory { words : gmap Z Z; regions : list Z }.

Definition mapped (mem : Memory) (a : Z) : bool :=
  existsb (fun r => (r <=? a) && (a + 8 <=? r + MMAP_SIZE)) (regions mem).

(** ** The pool *)
Record ObjPool := mkPool {
  _memory : Z; _freeCapacity : Z; _freeList : Z;
  s_mmap_syscall_counter : Z; s_objpool_hit_counter : Z; s_objpool_free_counter : Z
}.

Definition ObjPool_new : ObjPool := mkPool 0 0 0 0 0 0.

Definition set_memory v p := mkPool v (_freeCapacity p) (_freeList p) (s_mmap_syscall_counter p) (s_objpool_hit_counter p) (s_objpool_free_counter p).
Definition set_freeCapacity v p := mkPool (_memory p) v (_freeList p) (s_mmap_syscall_counter p) (s_objpool_hit_counter p) (s_objpool_free_counter p).
Definition set_freeList v p := mkPool (_memory p) (_freeCapacity p) v (s_mmap_syscall_counter p) (s_objpool_hit_counter p) (s_objpool_free_counter p).
Definition count_mmap p := mkPool (_memory p) (_freeCapacity p) (_freeList p) (u32 (s_mmap_syscall_counter p + 1)) (s_objpool_hit_counter p) (s_objpool_free_counter p).
Definition count_hit p := mkPool (_memory p) (_freeCapacity p) (_freeList p) (s_mmap_syscall_counter p) (u32 (s_objpool_hit_counter p + 1)) (s_objpool_free_counter p).
Definition count_free p := mkPool (_memory p) (_freeCapacity p) (_freeList p) (s_mmap_syscall_counter p) (s_objpool_hit_counter p) (u32 (s_objpool_free_counter p + 1)).

Definition pool_state := (ObjPool * Memory)%type.

Definition on_pool (f : ObjPool -> ObjPool) : M pool_state unit := modify (fun '(p, mem) => (f p, mem)).

Definition load (a : Z) : M pool_state Z := fun '(p, mem) =>
  if mapped mem a then (Ok (default 0 (words mem !! a)), (p, mem)) else (Undef OutOfBounds, (p, mem)).
Definition store (a v : Z) : M pool_state unit := fun '(p, mem) =>
  if mapped mem a then (Ok tt, (p, mkMemory (<[a := v]> (words mem)) (regions mem))) else (Undef OutOfBounds, (p, mem)).

(** mmap: a null pointer, or a new region. *)
Definition SystemCallMemory (answer : option Z) : M pool_state Z := fun '(p, mem) =>
  match answer with
  | None => (Ok 0, (p, mem))
  | Some r => (Ok r, (p, mkMemory (words mem) (r :: regions mem)))
  end.

Section ObjPool.
Context (sizeofT : Z).

Definition objSize : Z := if 8 <? sizeofT then sizeofT else 8.

Definition New (answer : option Z) : M pool_state Z :=
  '(p, _) ← get;
  if negb (_freeList p =? 0) then
    let obj := _freeList p in
    next ← load (_freeList p);
    on_pool (set_freeList next);;
    on_pool count_hit;;
    mret obj
  else
    (if _freeCapacity p <? objSize then
       on_pool (set_freeCapacity MMAP_SIZE);;
       memory ← SystemCallMemory answer;
       on_pool (set_memory memory);;
       on_pool count_mmap;;
       if memory =? 0 then throw BadAlloc else mret tt
     else mret tt);;
    '(p, _) ← get;
    let obj := _memory p in
    on_pool (set_memory (u64 (_memory p + objSize)));;
    on_pool (set_freeCapacity (u64 (_freeCapacity p - objSize)));;
    mret obj.

Definition Delete (ptr : Z) : M pool_state unit :=
  '(p, _) ← get;
  store ptr (_freeList p);;
  on_pool (set_freeList ptr);;
  on_pool count_free.
End ObjPool.

(** ** The pool of fibers *)
(** The blocks are [FiberType<128 * 1024 + 88>]; the pool is made by the first
    allocation, and the sizes that are asked for are ignored. *)
Definition FIBER_BLOCK : Z := 128 * 1024 + 88.
Definition fiber_state := (option ObjPool * Memory)%type.

Definition on_the_pool {A} (m : M pool_state A) : M fiber_state A := fun '(p, mem) =>
  match p with
  | None => (Undef NullDeref, (p, mem))
  | Some p => let '(r, (p, mem)) := m (p, mem) in (r, (Some p, mem))
  end.

Definition Alloc (answer : option Z) (size : Z) : M fiber_state Z :=
  modify (fun '(p, mem) => (match p with None => Some ObjPool_new | Some p => Some p end, mem));;
  on_the_pool (New FIBER_BLOCK answer).

Definition Dealloc (ptr size : Z) : M fiber_state unit :=
  '(p, _) ← get;
  assert (bool_decide (p <> None));;
  on_the_pool (Delete ptr).

(** [sizeof(Fiber)] depends on the context library the build chooses. *)
Definition NewFiberFromObjPool (sizeof_Fiber : Z) (answer : option Z) (stack_size : Z) : M fiber_state Z :=
  let stack_size := 128 * 1024 in
  Alloc answer (sizeof_Fiber + stack_size).

Definition FreeFiberToObjPool (sizeof_Fiber ptr stack_size : Z) : M fiber_state unit :=
  Dealloc ptr (sizeof_Fiber + stack_size).

(** ** Blocks *)
Section proofs.
Context (sizeofT : Z) (Hsize : 0 < sizeofT <= MMAP_SIZE).
Implicit Types (s : pool_state) (live free : list Z).

#[local] Abbreviation size := (objSize sizeofT).

(** How many blocks a region holds. *)
Definition per_region : Z := MMAP_SIZE / objSize sizeofT.

Definition blocks (r n : Z) : list Z := map (fun i => r + i * objSize sizeofT) (seqZ 0 n).

(** All blocks cut so far: [k] of the newest region, all of the older ones. *)
Definition cut_blocks (k : Z) (rs : list Z) : list Z :=
  match rs with [] => [] | r :: rs => blocks r k ++ concat (map (fun r => blocks r per_region) rs) end.

Definition region_ok (r : Z) : Prop := 0 < r /\ r + MMAP_SIZE < 2 ^ 64.
(** Two stretches of memory that do not overlap. *)
Definition apart (a b n : Z) : Prop := a + n <= b \/ b + n <= a.

Fixpoint regions_ok (rs : list Z) : Prop :=
  match rs with
  | [] => True
  | r :: rs => region_ok r /\ Forall (fun r' => apart r r' MMAP_SIZE) rs /\ regions_ok rs
  end.

Lemma size_bounds : 8 <= size /\ sizeofT <= size /\ size <= MMAP_SIZE.
Proof. unfold objSize. destruct (Z.ltb_spec 8 sizeofT); split_and!; try lia. unfold MMAP_SIZE. lia. Qed.

Lemma per_region_bounds : 1 <= per_region /\ per_region * size <= MMAP_SIZE < (per_region + 1) * size.
Proof.
  pose proof size_bounds. unfold per_region. split.
  - apply Z.div_le_lower_bound; lia.
  - pose proof (Z.div_mod MMAP_SIZE size ltac:(lia)). pose proof (Z.mod_pos_bound MMAP_SIZE size ltac:(lia)). lia.
Qed.

Lemma in_blocks r n b : b ∈ blocks r n <-> exists i, 0 <= i < n /\ b = r + i * size.
Proof.
  unfold blocks. rewrite list_elem_of_fmap. setoid_rewrite elem_of_seqZ. split.
  - intros (i & -> & Hi). exists i. split; [lia|done].
  - intros (i & Hi & ->). exists i. split; [done|lia].
Qed.

Lemma blocks_snoc r n : 0 <= n -> blocks r (n + 1) = blocks r n ++ [r + n * size].
Proof. intros Hn. unfold blocks. rewrite seqZ_app, map_app by lia. done. Qed.

(** A cut block lies in one of the regions, as one of its blocks. *)
Lemma in_cut k rs b : 0 <= k <= per_region -> b ∈ cut_blocks k rs ->
  exists r i, r ∈ rs /\ 0 <= i < per_region /\ b = r + i * size.
Proof.
  intros Hk. destruct rs as [|r rs]; [by intros ?%not_elem_of_nil|]. cbn [cut_blocks].
  intros [(i & Hi & ->)%in_blocks|Hb]%elem_of_app.
  - exists r, i. split_and!; [by left|lia|lia|done].
  - apply list_elem_of_In, in_concat in Hb.
    destruct Hb as (l & (r' & <- & Hr')%in_map_iff & Hb). apply list_elem_of_In, in_blocks in Hb as (i & Hi & ->).
    exists r', i. split_and!; [right; by apply list_elem_of_In|lia|lia|done].
Qed.

Lemma regions_apart rs r r' : regions_ok rs -> r ∈ rs -> r' ∈ rs -> r = r' \/ apart r r' MMAP_SIZE.
Proof.
  induction rs as [|x rs IH]; [by intros _ ?%not_elem_of_nil|]. intros (_ & Hx & Hrs).
  rewrite list.Forall_forall in Hx. rewrite !elem_of_cons. intros [->|H1] [->|H2]; [by left|right; by apply Hx| |by apply IH].
  right. destruct (Hx _ H1); [by right|by left].
Qed.

(** Distinct cut blocks do not overlap. *)
Lemma cut_apart k rs a b : 0 <= k <= per_region -> regions_ok rs -> a ∈ cut_blocks k rs -> b ∈ cut_blocks k rs ->
  a = b \/ apart a b size.
Proof.
  intros Hk Hrs (r & i & Hr & Hi & ->)%in_cut (r' & j & Hr' & Hj & ->)%in_cut; [|done|done].
  pose proof size_bounds. pose proof per_region_bounds.
  destruct (regions_apart rs r r' Hrs Hr Hr') as [->|Ha].
  - destruct (Z.lt_trichotomy i j) as [Hij|[->|Hij]]; [right; left; nia|by left|right; right; nia].
  - right. unfold apart in *. destruct Ha; [left|right]; nia.
Qed.

Lemma blocks_nodup r n : NoDup (blocks r n).
Proof.
  pose proof size_bounds. apply NoDup_fmap_2; [|apply NoDup_seqZ]. intros i j Hij. nia.
Qed.

(** Blocks of regions that are apart are different. *)
Lemma blocks_disjoint r r' n n' b : apart r r' MMAP_SIZE -> n <= per_region -> n' <= per_region -> b ∈ blocks r n -> b ∉ blocks r' n'.
Proof.
  intros Ha Hn Hn' (i & Hi & ->)%in_blocks (j & Hj & E)%in_blocks. pose proof size_bounds. pose proof per_region_bounds.
  unfold apart in Ha. nia.
Qed.

Lemma cut_nodup k rs : 0 <= k <= per_region -> regions_ok rs -> NoDup (cut_blocks k rs).
Proof.
  intros Hk Hrs. destruct rs as [|r rs]; [by constructor|]. cbn [cut_blocks]. destruct Hrs as (_ & Hr & Hrs).
  revert k Hk r Hr. induction rs as [|r' rs IH]; intros k Hk r Hr.
  { cbn [map concat]. rewrite app_nil_r. apply blocks_nodup. }
  cbn [map concat]. destruct Hrs as (_ & Hr' & Hrs). apply list.NoDup_app. split_and!.
  - apply blocks_nodup.
  - intros b Hb Hin. apply elem_of_app in Hin as [Hin|Hin].
    + revert Hin. apply (blocks_disjoint r r' k per_region); [by inversion Hr|lia|lia|done].
    + apply list_elem_of_In, in_concat in Hin as (l & (r'' & <- & Hr'')%in_map_iff & Hin). apply list_elem_of_In in Hin, Hr''.
      revert Hin. apply (blocks_disjoint r r'' k per_region); [|lia|lia|done].
      rewrite list.Forall_forall in Hr. apply Hr. by right.
  - apply (IH Hrs per_region); [pose proof per_region_bounds; lia|done].
Qed.

(** ** The invariant *)
(** The list of free blocks runs through their first words. *)
Fixpoint chain (w : gmap Z Z) (a : Z) (l : list Z) : Prop :=
  match l with
  | [] => a = 0
  | x :: l => a = x /\ x <> 0 /\ chain w (default 0 (w !! x)) l
  end.

Record pool_inv s live free (k : Z) : Prop := {
  inv_regions : regions_ok (regions s.2);
  inv_k : 0 <= k <= per_region;
  inv_used : regions s.2 <> [] -> 1 <= k;
  inv_start : regions s.2 = [] -> _memory s.1 = 0 /\ _freeCapacity s.1 = 0 /\ k = 0;
  inv_cursor : forall r rs, regions s.2 = r :: rs -> _memory s.1 = r + k * objSize sizeofT /\ _freeCapacity s.1 = MMAP_SIZE - k * objSize sizeofT;
  inv_blocks : live ++ free ≡ₚ cut_blocks k (regions s.2);
  inv_chain : chain (words s.2) (_freeList s.1) free
}.

Lemma chain_frame w a l p v : chain w a l -> p ∉ l -> chain (<[p := v]> w) a l.
Proof.
  revert a. induction l as [|x l IH]; intros a; [done|]. intros (-> & Hx & Hc) Hp. rewrite not_elem_of_cons in Hp.
  destruct Hp as [Hpx Hpl]. cbn [chain]. rewrite lookup_insert_ne by done. split_and!; [done|done|]. by apply IH.
Qed.

Lemma chain_head w a l : chain w a l -> a = 0 -> l = [].
Proof. destruct l as [|x l]; [done|]. intros (-> & Hx & _) E. done. Qed.

Lemma inv_cut s live free k b : pool_inv s live free k -> b ∈ live ++ free -> b ∈ cut_blocks k (regions s.2).
Proof. intros Hi Hb. by rewrite (inv_blocks _ _ _ _ Hi) in Hb. Qed.

Lemma cut_mapped k rs w b : 0 <= k <= per_region -> regions_ok rs -> b ∈ cut_blocks k rs -> mapped (mkMemory w rs) b = true /\ 0 < b.
Proof.
  intros Hk Hrs (r & i & Hr & Hi & ->)%in_cut; [|done]. pose proof size_bounds. pose proof per_region_bounds. split.
  - unfold mapped. cbn [regions]. apply existsb_exists. exists r. split; [by apply list_elem_of_In|].
    apply andb_true_iff. rewrite !Z.leb_le. nia.
  - assert (region_ok r) as [Hr0 _]; [|nia]. clear -Hrs Hr. induction rs as [|x rs IH]; [by apply not_elem_of_nil in Hr|].
    destruct Hrs as (Hx & _ & Hrs). apply elem_of_cons in Hr as [->|Hr]; auto.
Qed.

(** ** The operations *)
Definition exhausted s : Prop := _freeList s.1 = 0 /\ _freeCapacity s.1 < objSize sizeofT.
Definition fresh (r : Z) (rs : list Z) : Prop := region_ok r /\ Forall (fun r' => apart r r' MMAP_SIZE) rs.

Lemma load_ok a p mem : mapped mem a = true -> load a (p, mem) = (Ok (default 0 (words mem !! a)), (p, mem)).
Proof. intros H. unfold load. by rewrite H. Qed.

(** A block of the free list. *)
Lemma New_reuse s live x free k answer : pool_inv s live (x :: free) k ->
  exists s', New sizeofT answer s = (Ok x, s') /\ pool_inv s' (x :: live) free k /\ regions s'.2 = regions s.2.
Proof.
  intros Hi. destruct s as [p mem]. pose proof (inv_chain _ _ _ _ Hi) as (Hx & Hx0 & Hc). cbn [fst snd] in *.
  assert (mapped mem x = true) as Hm.
  { destruct mem as [w rs]. apply (cut_mapped k rs); [apply (inv_k _ _ _ _ Hi)|apply (inv_regions _ _ _ _ Hi)|].
    apply (inv_cut _ _ _ _ _ Hi). apply elem_of_app. right. by left. }
  unfold New. step (eq_refl : get (p, mem) = (Ok (p, mem), (p, mem))). rewrite Hx, (proj2 (Z.eqb_neq x 0)) by done. cbn [negb].
  step (load_ok x p mem Hm). eexists. split_and!; [reflexivity| |done].
  destruct Hi as [H1 H2 H2' H3 H4 H5 _]. split; try done. cbn [fst snd]. rewrite <- H5. apply Permutation_middle.
Qed.

(** The next block of the region. *)
Lemma New_cut s live k answer : pool_inv s live [] k -> objSize sizeofT <= _freeCapacity s.1 ->
  exists r rs s', regions s.2 = r :: rs /\ New sizeofT answer s = (Ok (r + k * objSize sizeofT), s') /\
    pool_inv s' (r + k * objSize sizeofT :: live) [] (k + 1) /\ regions s'.2 = regions s.2.
Proof.
  intros Hi Hcap. destruct s as [p [w rs]]. destruct Hi as [H1 H2 H2' H3 H4 H5 H6]. cbn [fst snd regions words chain] in *.
  pose proof size_bounds. pose proof per_region_bounds.
  destruct rs as [|r rs]; [destruct (H3 eq_refl) as (_ & ? & _); lia|]. destruct (H4 r rs eq_refl) as [Hm Hc].
  destruct H1 as ([Hr0 Hr1] & Hra & Hrs).
  assert (k + 1 <= per_region) as Hk by nia.
  exists r, rs. eexists. split_and!; [done| | |].
  - unfold New. step (eq_refl : get (p, mkMemory w (r :: rs)) = (Ok (p, mkMemory w (r :: rs)), (p, mkMemory w (r :: rs)))).
    rewrite H6. cbn [Z.eqb negb]. rewrite (proj2 (Z.ltb_ge _ _)) by done.
    unfold mbind, M_bind. cbn. rewrite Hm. reflexivity.
  - split; cbn [fst snd regions words set_freeCapacity set_memory _memory _freeCapacity _freeList]; try done; try lia.
    + intros r' rs' [= <- <-]. rewrite !uwrap_id by (unfold in_u; nia). split; nia.
    + cbn [cut_blocks]. rewrite blocks_snoc by lia. cbn [cut_blocks] in H5. rewrite app_nil_r in *. rewrite H5.
      rewrite <- app_assoc. cbn [app]. apply Permutation_middle.
  - done.
Qed.

(** A new region, when there is no free block and no room. *)
Lemma New_map s live k r : pool_inv s live [] k -> exhausted s -> fresh r (regions s.2) ->
  exists s', New sizeofT (Some r) s = (Ok r, s') /\ pool_inv s' (r :: live) [] 1 /\ regions s'.2 = r :: regions s.2.
Proof.
  intros Hi [_ Hcap] [Hr Hra]. destruct s as [p [w rs]]. destruct Hi as [H1 H2 H2' H3 H4 H5 H6]. cbn [fst snd regions words chain] in *.
  pose proof size_bounds. pose proof per_region_bounds. pose proof Hr as [Hr0 Hr1].
  assert (rs = [] /\ k = 0 \/ k = per_region) as Hk.
  { destruct rs as [|r0 rs]; [left; by destruct (H3 eq_refl) as (_ & _ & ->)|right].
    destruct (H4 r0 rs eq_refl) as [_ Hc]. nia. }
  eexists. split_and!.
  - unfold New. step (eq_refl : get (p, mkMemory w rs) = (Ok (p, mkMemory w rs), (p, mkMemory w rs))).
    rewrite H6. cbn [Z.eqb negb]. rewrite (proj2 (Z.ltb_lt _ _)) by done.
    unfold mbind, M_bind. cbn. rewrite (proj2 (Z.eqb_neq r 0)) by lia. cbn. reflexivity.
  - split; cbn [fst snd regions words set_freeCapacity set_memory count_mmap _memory _freeCapacity _freeList]; try done; try lia.
    + intros r' rs' [= <- <-]. rewrite !uwrap_id by (unfold in_u; lia). split; lia.
    + rewrite app_nil_r in *. rewrite H5. cbn [cut_blocks]. change (blocks r 1) with [r + 0 * size].
      rewrite Z.mul_0_l, Z.add_0_r. cbn [app]. apply Permutation_skip.
      destruct rs as [|r0 rs]; [done|]. destruct Hk as [[? _]| ->]; done.
  - done.
Qed.

(** mmap fails: the pool keeps a null pointer as its room, and the next
    allocation hands it out. *)
Lemma New_fails s live k answer : pool_inv s live [] k -> exhausted s ->
  exists s1 s2, New sizeofT None s = (Throw BadAlloc, s1) /\ New sizeofT answer s1 = (Ok 0, s2).
Proof.
  intros Hi [_ Hcap]. destruct s as [p [w rs]]. pose proof (inv_chain _ _ _ _ Hi) as H6. cbn [fst snd chain] in *.
  pose proof size_bounds. do 2 eexists. split.
  - unfold New. step (eq_refl : get (p, mkMemory w rs) = (Ok (p, mkMemory w rs), (p, mkMemory w rs))).
    rewrite H6. cbn [Z.eqb negb]. rewrite (proj2 (Z.ltb_lt _ _)) by done. unfold mbind, M_bind. cbn. reflexivity.
  - unfold New, mbind, M_bind. cbn [get set_memory set_freeCapacity count_mmap _memory _freeCapacity _freeList].
    rewrite H6. cbn [Z.eqb negb]. rewrite (proj2 (Z.ltb_ge _ _)) by lia. cbn. reflexivity.
Qed.

Lemma store_ok a v p w rs : mapped (mkMemory w rs) a = true ->
  store a v (p, mkMemory w rs) = (Ok tt, (p, mkMemory (<[a := v]> w) rs)).
Proof. intros H. unfold store. by rewrite H. Qed.

Lemma held_mapped s live free k b : pool_inv s live free k -> b ∈ live ++ free -> mapped s.2 b = true /\ 0 < b.
Proof.
  intros Hi Hb. destruct s as [p [w rs]]. cbn [snd].
  apply (cut_mapped k); [apply (inv_k _ _ _ _ Hi)|apply (inv_regions _ _ _ _ Hi)|apply (inv_cut _ _ _ _ _ Hi Hb)].
Qed.

Lemma inv_nodup s live free k : pool_inv s live free k -> NoDup (live ++ free).
Proof. intros Hi. rewrite (inv_blocks _ _ _ _ Hi). apply cut_nodup; [apply (inv_k _ _ _ _ Hi)|apply (inv_regions _ _ _ _ Hi)]. Qed.

(** Giving a block back. *)
Lemma Delete_ok s l1 b l2 free k : pool_inv s (l1 ++ b :: l2) free k ->
  exists s', Delete b s = (Ok tt, s') /\ pool_inv s' (l1 ++ l2) (b :: free) k /\ regions s'.2 = regions s.2 /\ _freeList s'.1 = b.
Proof.
  intros Hi. destruct (held_mapped _ _ _ _ b Hi) as [Hm Hb]; [apply elem_of_app; left; apply elem_of_app; right; by left|].
  pose proof (inv_nodup _ _ _ _ Hi) as Hnd. destruct s as [p [w rs]]. cbn [snd] in Hm.
  eexists. split_and!; [unfold Delete; step (eq_refl : get (p, mkMemory w rs) = (Ok (p, mkMemory w rs), (p, mkMemory w rs)));
    step (store_ok b (_freeList p) p w rs Hm); reflexivity| |done|done].
  destruct Hi as [H1 H2 H2' H3 H4 H5 H6]. split; try done; cbn [fst snd regions words count_free set_freeList _freeList] in *.
  - rewrite <- H5. rewrite <- Permutation_middle, <- app_assoc. cbn [app]. rewrite <- app_assoc. cbn [app].
    by rewrite <- !Permutation_middle.
  - cbn [chain]. rewrite lookup_insert_eq. cbn [default]. split_and!; [done|lia|]. apply chain_frame; [done|].
    intros Hin. apply list.NoDup_app in Hnd as (_ & Hnd & _). apply (Hnd b); [apply elem_of_app; right; by left|done].
Qed.

(** What the program does with a block it holds leaves the pool alone. *)
Lemma write_ok s live free k b v : pool_inv s live free k -> b ∈ live ->
  exists s', store b v s = (Ok tt, s') /\ pool_inv s' live free k /\ regions s'.2 = regions s.2.
Proof.
  intros Hi Hb. destruct (held_mapped _ _ _ _ b Hi) as [Hm _]; [apply elem_of_app; by left|].
  pose proof (inv_nodup _ _ _ _ Hi) as Hnd. destruct s as [p [w rs]]. cbn [snd] in Hm. eexists.
  split_and!; [by apply store_ok| |done]. destruct Hi as [H1 H2 H2' H3 H4 H5 H6]. split; try done.
  cbn [fst snd words] in *. apply chain_frame; [done|]. intros Hin.
  apply list.NoDup_app in Hnd as (_ & Hnd & _). by apply (Hnd b).
Qed.
End proofs.

(** ** Histories *)
(** The program allocates, gives back what it holds and writes to what it
    holds; [peak] is the most it has held at once.  mmap answers with regions
    that are new; histories go on while it answers. *)
Inductive history (sizeofT : Z) : pool_state -> list Z -> Z -> Prop :=
  | h_start w : history sizeofT (ObjPool_new, mkMemory w []) [] 0
  | h_new s live peak answer b s' :
      history sizeofT s live peak ->
      (forall r, answer = Some r -> fresh r (regions s.2)) ->
      New sizeofT answer s = (Ok b, s') -> history sizeofT s' (b :: live) (Z.max peak (zlen live + 1))
  | h_delete s l1 b l2 peak s' :
      history sizeofT s (l1 ++ b :: l2) peak -> Delete b s = (Ok tt, s') -> history sizeofT s' (l1 ++ l2) peak
  | h_write s live peak b v s' :
      history sizeofT s live peak -> b ∈ live -> store b v s = (Ok tt, s') -> history sizeofT s' live peak.

Section histories.
Context (sizeofT : Z) (Hsize : 0 < sizeofT <= MMAP_SIZE).
#[local] Abbreviation size := (objSize sizeofT).

Definition history_inv s live (peak : Z) : Prop :=
  exists free k, pool_inv sizeofT s live free k /\ zlen live + zlen free <= peak.

Lemma start_inv w : pool_inv sizeofT (ObjPool_new, mkMemory w []) [] [] 0.
Proof using Hsize.
  pose proof (per_region_bounds sizeofT Hsize). split; try done. cbn [fst snd]. lia.
Qed.

(** Every answer of [New] on a sound pool. *)
Lemma New_cases s live free k answer : pool_inv sizeofT s live free k -> (forall r, answer = Some r -> fresh r (regions s.2)) ->
  (exhausted sizeofT s /\ free = [] /\ answer = None /\ exists s', New sizeofT answer s = (Throw BadAlloc, s')) \/
  exists b s' free' k', New sizeofT answer s = (Ok b, s') /\ pool_inv sizeofT s' (b :: live) free' k' /\
    (free = b :: free' \/ free = [] /\ free' = []).
Proof using Hsize.
  intros Hi Hans. destruct free as [|x free].
  - destruct (decide (_freeCapacity s.1 < size)) as [Hc|Hc].
    + assert (exhausted sizeofT s) as Hex by (split; [apply (inv_chain _ _ _ _ _ Hi)|done]).
      destruct answer as [r|].
      * right. destruct (New_map sizeofT Hsize s live k r Hi Hex (Hans r eq_refl)) as (s' & E & Hi' & _).
        exists r, s', [], 1. split_and!; [done|done|by right].
      * left. destruct (New_fails sizeofT Hsize s live k None Hi Hex) as (s1 & _ & E & _). split_and!; eauto.
    + right. destruct (New_cut sizeofT Hsize s live k answer Hi) as (r & rs & s' & _ & E & Hi' & _); [lia|].
      exists (r + k * size), s', [], (k + 1). split_and!; [done|done|by right].
  - right. destruct (New_reuse sizeofT Hsize s live x free k answer Hi) as (s' & E & Hi' & _).
    exists x, s', free, k. split_and!; [done|done|by left].
Qed.

Lemma pool_history_ok s live peak : history sizeofT s live peak -> history_inv s live peak.
Proof using Hsize.
  induction 1 as [w|s live peak answer b s' _ (free & k & Hi & Hp) Hans E|s l1 b l2 peak s' _ (free & k & Hi & Hp) E|
                  s live peak b v s' _ (free & k & Hi & Hp) Hb E].
  - exists [], 0. split; [by apply start_inv|cbn; lia].
  - destruct (New_cases s live free k answer Hi Hans) as [(_ & _ & _ & s1 & E1)|(b' & s1 & free' & k' & E1 & Hi' & Hf)];
      rewrite E1 in E; [done|]. injection E as -> ->. exists free', k'. split; [done|]. cbn [length].
    destruct Hf as [->|[-> ->]]; cbn [length] in *; lia.
  - destruct (Delete_ok sizeofT Hsize s l1 b l2 free k Hi) as (s1 & E1 & Hi' & _). rewrite E1 in E. injection E as ->.
    exists (b :: free), k. split; [done|]. rewrite !length_app in *. cbn [length] in *. lia.
  - destruct (write_ok sizeofT Hsize s live free k b v Hi Hb) as (s1 & E1 & Hi' & _). rewrite E1 in E. injection E as ->.
    by exists free, k.
Qed.

Lemma cut_length k r rs : 0 <= k -> zlen (cut_blocks sizeofT k (r :: rs)) = k + zlen rs * per_region sizeofT.
Proof using Hsize.
  intros Hk. pose proof (per_region_bounds sizeofT Hsize). cbn [cut_blocks]. rewrite length_app. unfold blocks at 1.
  rewrite length_map, length_seqZ.
  assert (zlen (concat (map (fun r => blocks sizeofT r (per_region sizeofT)) rs)) = zlen rs * per_region sizeofT) as H1.
  { induction rs as [|r' rs IH]; [done|]. cbn [map concat length]. rewrite length_app. unfold blocks at 1.
    rewrite length_map, length_seqZ. lia. }
  lia.
Qed.

(** No more is mapped than the peak needs. *)
Lemma mapped_bound s live free k peak : pool_inv sizeofT s live free k -> zlen live + zlen free <= peak ->
  regions s.2 = [] \/ (zlen (regions s.2) - 1) * per_region sizeofT < peak.
Proof using Hsize.
  intros Hi Hp. destruct (regions s.2) as [|r rs] eqn:E; [by left|right].
  pose proof (inv_blocks _ _ _ _ _ Hi) as Hb. pose proof (inv_used _ _ _ _ _ Hi) as Hu. rewrite E in Hb, Hu.
  apply Permutation_length in Hb. pose proof (cut_length k r rs) as Hl.
  specialize (Hu ltac:(done)). rewrite length_app in Hb. cbn [length]. lia.
Qed.
End histories.

(** ** Properties *)


(** When mmap fails the pool throws, but keeps the size of the region it did
    not get: the next allocation succeeds and returns the null pointer. *)
Theorem failed_mmap_hands_out_null sizeofT s live peak answer :
  0 < sizeofT <= MMAP_SIZE -> history sizeofT s live peak -> exhausted sizeofT s ->
  exists s1 s2, New sizeofT None s = (Throw BadAlloc, s1) /\ New sizeofT answer s1 = (Ok 0, s2).
Proof.
  intros Hsize Hh Hex. destruct (pool_history_ok sizeofT Hsize s live peak Hh) as (free & k & Hi & _).
  pose proof (chain_head _ _ _ (inv_chain _ _ _ _ _ Hi) (proj1 Hex)) as ->. by apply (New_fails sizeofT Hsize s live k).
Qed.

(** ** Runs *)
Definition demo_region : Z := 16 * 2 ^ 20.
Definition demo_s0 : pool_state := (ObjPool_new, mkMemory ∅ []).
Definition demo_s1 : pool_state := snd (New FIBER_BLOCK (Some demo_region) demo_s0).
Definition demo_s2 : pool_state := snd (New FIBER_BLOCK None demo_s1).
Definition demo_s3 : pool_state := snd (Delete demo_region demo_s2).

Lemma demo_history : history FIBER_BLOCK demo_s3 [demo_region + FIBER_BLOCK] 2.
Proof.
  assert (history FIBER_BLOCK demo_s1 [demo_region] 1) as H1.
  { apply (h_new FIBER_BLOCK demo_s0 [] 0 (Some demo_region) demo_region); [apply h_start| |by vm_compute].
    intros r [= <-]. split; [split; by vm_compute|done]. }
  assert (history FIBER_BLOCK demo_s2 [demo_region + FIBER_BLOCK; demo_region] 2) as H2.
  { apply (h_new FIBER_BLOCK demo_s1 [demo_region] 1 None (demo_region + FIBER_BLOCK)); [done|done|by vm_compute]. }
  apply (h_delete FIBER_BLOCK demo_s2 [demo_region + FIBER_BLOCK] demo_region [] 2); [done|by vm_compute].
Qed.


Lemma failed_mmap_hands_out_null_witness : exists s1 s2,
  New FIBER_BLOCK None demo_s0 = (Throw BadAlloc, s1) /\ New FIBER_BLOCK None s1 = (Ok 0, s2).
Proof.
  apply (failed_mmap_hands_out_null FIBER_BLOCK demo_s0 [] 0 None); [by split; vm_compute|apply h_start|by split; vm_compute].
Defined.

(** Two fibers made one after the other overlap when a [Fiber] is larger than the
    88 bytes the block leaves for it, as it is with ucontext. *)
Lemma wide_fibers_overlap sizeof_Fiber stack_size : 88 < sizeof_Fiber ->
  exists s1 s2, NewFiberFromObjPool sizeof_Fiber (Some demo_region) stack_size (None, mkMemory ∅ []) = (Ok demo_region, s1) /\
    NewFiberFromObjPool sizeof_Fiber None stack_size s1 = (Ok (demo_region + FIBER_BLOCK), s2) /\
    ~ apart demo_region (demo_region + FIBER_BLOCK) (sizeof_Fiber + 128 * 1024).
Proof.
  intros Hs. do 2 eexists. split_and!; [vm_compute; reflexivity|vm_compute; reflexivity|].
  unfold apart, demo_region, FIBER_BLOCK. lia.
Qed.
