(* ===== verification/Worker.v ===== *)
(** worker.cpp: the groups that bound how many tasks run at once, and the
    manager of named schedulers.

    [WorkerGroup] and [TimedWorkGroup] have the same members but for the timer,
    so one record serves both.  A fiber that calls a method is a client with a
    program counter; a step is a piece of a method between two points where
    another fiber can come in: the methods of the semaphore are those of
    FiberSemphore.v, suspending included.  Tasks are numbers; the scheduler may
    start the tasks it was given in any order. *)
From Stdlib Require Import List.
From stdpp Require Import gmap functions.
From S2P Require Import Prelude FiberSched FiberSemphore.

Module Group.
(** ** The calls of a client

    [Many] and [TMany] carry the tasks that are left, [Many] also the ones it has
    a permit for ([workcbs]); [All] and [TAll] count the permits collected. *)
Inductive call :=
  | One (t : nat)                          (* WorkerGroup::Schedule(cb) *)
  | Many (todo workcbs : list nat)         (* WorkerGroup::Schedule(cbs) *)
  | All (i : nat)                          (* WorkerGroup::WaitAll *)
  | TMany (todo : list nat)                (* TimedWorkGroup::Schedule *)
  | TAll (i : nat).                        (* TimedWorkGroup::WaitAll *)

Inductive pc :=
  | Idle
  | Check (c : call)    (* about to look at [_isTimeouted] *)
  | Before (c : call)   (* about to call [_fiberSem.wait()] *)
  | In (c : call)       (* queued in [wait] *)
  | After (c : call).   (* [wait] has returned, or was not called *)

Record group := mkGroup {
  _fiberSem : FiberSemphore; _batchSize : nat; _isFinish : bool;
  _isTimeouted : bool; _timer : bool;
  clients : list pc;
  scheduled : list nat; running : list nat;
  (* what has become of the tasks: given to the group, finished, ended by an exception *)
  submitted : list nat; done : list nat; lost : list nat;
  (* the permits collected by finished calls of WaitAll *)
  consumed : nat
}.

Definition set_sem v '(mkGroup _ b fi ti tm cl sc ru su d l c) := mkGroup v b fi ti tm cl sc ru su d l c.
Definition set_isFinish v '(mkGroup s b _ ti tm cl sc ru su d l c) := mkGroup s b v ti tm cl sc ru su d l c.
Definition set_timed_out '(mkGroup s b fi _ _ cl sc ru su d l c) := mkGroup s b fi true false cl sc ru su d l c.
Definition set_timer v '(mkGroup s b fi ti _ cl sc ru su d l c) := mkGroup s b fi ti v cl sc ru su d l c.
Definition set_client (f : nat) (v : pc) '(mkGroup s b fi ti tm cl sc ru su d l c) := mkGroup s b fi ti tm (<[f := v]> cl) sc ru su d l c.
Definition set_scheduled v '(mkGroup s b fi ti tm cl _ ru su d l c) := mkGroup s b fi ti tm cl v ru su d l c.
Definition set_running v '(mkGroup s b fi ti tm cl sc _ su d l c) := mkGroup s b fi ti tm cl sc v su d l c.
Definition submit v '(mkGroup s b fi ti tm cl sc ru su d l c) := mkGroup s b fi ti tm cl sc ru (su ++ v) d l c.
Definition set_done v '(mkGroup s b fi ti tm cl sc ru su _ l c) := mkGroup s b fi ti tm cl sc ru su v l c.
Definition set_lost v '(mkGroup s b fi ti tm cl sc ru su d _ c) := mkGroup s b fi ti tm cl sc ru su d v c.
Definition consume v '(mkGroup s b fi ti tm cl sc ru su d l c) := mkGroup s b fi ti tm cl sc ru su d l (c + v).

Definition new (batchSize n : nat) (timed : bool) : group :=
  mkGroup (FiberSemphore_new (Z.of_nat batchSize)) batchSize false false timed (repeat Idle n) [] [] [] [] [] 0.

Section group.
(** [Scheduler::GetThis()] is not null. *)
Context (in_scheduler : nat -> bool).

Definition on_sem {A} (m : M FiberSemphore A) : M group A := fun g =>
  let '(r, s) := m (_fiberSem g) in (r, set_sem s g).

(** [_scheduler->Schedule]: the tasks are the scheduler's from now on. *)
Definition hand_over (ts : list nat) : M group unit := modify (fun g => set_scheduled (scheduled g ++ ts) g).
Definition goto (f : nat) (p : pc) : M group unit := modify (set_client f p).

(** ** The calls *)
(** WorkerGroup::Schedule(cb), with a callback *)
Definition Schedule (f t : nat) : M group unit := modify (submit [t]);; goto f (Before (One t)).

(** WorkerGroup::Schedule(cbs) *)
Definition Schedule_all (f : nat) (cbs : list nat) : M group unit :=
  if bool_decide (cbs = []) then mret tt
  else modify (submit cbs);; goto f (Before (Many cbs [])).

(** The head of the loop of WorkerGroup::WaitAll. *)
Definition wait_loop (f i : nat) : M group unit :=
  g ← get;
  if (i <? _batchSize g)%nat then goto f (Before (All i)) else modify (consume i);; goto f Idle.

Definition WaitAll (f : nat) : M group unit :=
  g ← get;
  if negb (_isFinish g) then modify (set_isFinish true);; wait_loop f 0 else mret tt.

(** TimedWorkGroup::Schedule, of one callback or of several in turn. *)
Definition Timed_Schedule (f : nat) (cbs : list nat) : M group unit :=
  if bool_decide (cbs = []) then mret tt
  else modify (submit cbs);; goto f (Check (TMany cbs)).

Definition Timed_WaitAll (f : nat) : M group unit :=
  g ← get;
  if negb (_isFinish g) then modify (set_isFinish true);; goto f (Check (TAll 0)) else mret tt.

(** TimedWorkGroup::OnTimer *)
Definition OnTimer : M group unit :=
  modify set_timed_out;; on_sem notifyAll.

(** ** Inside the calls *)
(** [!_isTimeouted]: to [wait], or past it. *)
Definition check (f : nat) (c : call) : M group unit :=
  g ← get;
  match c with
  | TAll i =>
    if (i <? _batchSize g)%nat && negb (_isTimeouted g) then goto f (Before c)
    else
      (if negb (_isTimeouted g) && _timer g then modify (set_timer false) else mret tt);;
      (if negb (_isTimeouted g) then modify (consume i) else mret tt);;
      goto f Idle
  | _ => if negb (_isTimeouted g) then goto f (Before c) else goto f (After c)
  end.

(** [_fiberSem.wait()] *)
Definition do_wait (f : nat) (c : call) : M group unit :=
  got ← on_sem (wait in_scheduler f);
  if got : bool then goto f (After c) else goto f (In c).

Definition do_resume (f : nat) (c : call) : M group unit := on_sem (resume f);; goto f (After c).

(** Behind [wait]. *)
Definition after (f : nat) (c : call) : M group unit :=
  match c with
  | One t => hand_over [t];; goto f Idle
  | Many (t :: todo) workcbs =>
    match todo with
    | [] => hand_over (workcbs ++ [t]);; goto f Idle
    | _ => goto f (Before (Many todo (workcbs ++ [t])))
    end
  | TMany (t :: todo) =>
    hand_over [t];;
    match todo with [] => goto f Idle | _ => goto f (Check (TMany todo)) end
  | All i => wait_loop f (S i)
  | TAll i => goto f (Check (TAll (S i)))
  | Many [] _ | TMany [] => goto f Idle
  end.

(** ** The tasks: [doWork] *)
Definition start (i : nat) : M group unit :=
  g ← get;
  match scheduled g !! i with
  | Some t => modify (set_scheduled (take i (scheduled g) ++ drop (S i) (scheduled g)));; modify (set_running (running g ++ [t]))
  | None => mret tt
  end.

(** Task [i] of the running ones ends, in fiber [w]: [cb()] has returned, and the
    permit is released; or an exception leaves [cb()], and it is not. *)
Definition end_task (i : nat) : M group (option nat) :=
  g ← get;
  modify (set_running (take i (running g) ++ drop (S i) (running g)));;
  mret (running g !! i).

Definition finish (w i : nat) : M group unit :=
  t ← end_task i;
  match t with
  | Some t => modify (fun g => set_done (done g ++ [t]) g);; on_sem (post in_scheduler w)
  | None => mret tt
  end.

Definition throws (i : nat) : M group unit :=
  t ← end_task i;
  match t with Some t => modify (fun g => set_lost (lost g ++ [t]) g) | None => mret tt end.

(** ** The machine *)
Inductive action :=
  | ASchedule (f t : nat) | ASchedule_all (f : nat) (cbs : list nat) | AWaitAll (f : nat)
  | ATimed_Schedule (f : nat) (cbs : list nat) | ATimed_WaitAll (f : nat) | AOnTimer
  | ACheck (f : nat) | AWait (f : nat) | AYield (f : nat) | AResume (f : nat) | AAfter (f : nat)
  | AStart (i : nat) | AFinish (w i : nat) | AThrows (i : nat).

Definition at_pc (f : nat) (k : pc -> M group unit) : M group unit :=
  g ← get; match clients g !! f with Some p => k p | None => mret tt end.

Definition perform (a : action) : M group unit :=
  match a with
  | ASchedule f t => Schedule f t
  | ASchedule_all f cbs => Schedule_all f cbs
  | AWaitAll f => WaitAll f
  | ATimed_Schedule f cbs => Timed_Schedule f cbs
  | ATimed_WaitAll f => Timed_WaitAll f
  | AOnTimer => OnTimer
  | ACheck f => at_pc f (fun p => match p with Check c => check f c | _ => mret tt end)
  | AWait f => at_pc f (fun p => match p with Before c => do_wait f c | _ => mret tt end)
  | AYield f => on_sem (yield f)
  | AResume f => at_pc f (fun p => match p with In c => do_resume f c | _ => mret tt end)
  | AAfter f => at_pc f (fun p => match p with After c => after f c | _ => mret tt end)
  | AStart i => start i
  | AFinish w i => finish w i
  | AThrows i => throws i
  end.

(** Which class the group is of shows in its timer. *)
Definition is_check p := match p with Check _ => True | _ => False end.
Definition is_before p := match p with Before _ => True | _ => False end.
Definition is_in p := match p with In _ => True | _ => False end.
Definition is_after p := match p with After _ => True | _ => False end.
Definition at_client (g : group) (f : nat) (P : pc -> Prop) : Prop := exists p, clients g !! f = Some p /\ P p.

Definition enabled (timed : bool) (a : action) (g : group) : Prop :=
  match a with
  | ASchedule f _ | ASchedule_all f _ | AWaitAll f => timed = false /\ at_client g f (fun p => p = Idle) /\ in_scheduler f = true
  | ATimed_Schedule f _ | ATimed_WaitAll f => timed = true /\ at_client g f (fun p => p = Idle) /\ in_scheduler f = true
  | AOnTimer => _timer g = true
  | ACheck f => at_client g f is_check
  | AWait f => at_client g f is_before /\ in_scheduler f = true
  | AYield f => at_client g f is_in /\ state_of (fibers (_fiberSem g)) f = YIELDING
  | AResume f => at_client g f is_in /\ state_of (fibers (_fiberSem g)) f = HOLD /\ f ∈ ready (_fiberSem g)
  | AAfter f => at_client g f is_after
  | AStart i => (i < length (scheduled g))%nat
  | AFinish w i => (i < length (running g))%nat /\ in_scheduler w = true /\ _concurrency (_fiberSem g) < 2 ^ 64 - 1
  | AThrows i => (i < length (running g))%nat
  end.

Fixpoint steps (acts : list action) : M group unit :=
  match acts with [] => mret tt | a :: acts => perform a;; steps acts end.

Fixpoint all_enabled (timed : bool) (acts : list action) (g : group) : Prop :=
  match acts with
  | [] => True
  | a :: acts => enabled timed a g /\ all_enabled timed acts (snd (perform a g))
  end.

(** ** The semaphore's steps *)
Definition sem_ok (s : FiberSemphore) : Prop :=
  (exists pl, placed pl s) /\ forall f n, state_of (fibers s) f <> SIGNALLING n.

Lemma runs_exec s f : sem_ok s -> ~ parked (fibers s) f -> state_of (fibers s) f = EXEC.
Proof.
  intros [_ Hn] Hp. specialize (Hn f). unfold parked in Hp. destruct (state_of (fibers s) f) as [| | |n]; naive_solver.
Qed.

Lemma no_signal st f s : (forall g n, state_of st g <> SIGNALLING n) -> (forall n, s <> SIGNALLING n) ->
  forall g n, state_of (<[f := s]> st) g <> SIGNALLING n.
Proof. intros H Hs g n. rewrite state_of_insert. case_decide; auto. Qed.

Lemma wait_cases f s : sem_ok s -> state_of (fibers s) f = EXEC -> in_scheduler f = true ->
  exists got s', wait in_scheduler f s = (Ok got, s') /\ sem_ok s' /\ ready s' = ready s /\
    _concurrency s' = _concurrency s - (if got : bool then 1 else 0) /\
    (forall g, parked (fibers s') g <-> (got = false /\ g = f) \/ parked (fibers s) g).
Proof.
  intros [Hs Hn] Hf Hsch.
  destruct (sem_perform_ok in_scheduler (FiberSemphore.AWait f) s Hs (conj Hf Hsch)) as (s' & E & Hs' & Ec & _).
  cbn [FiberSemphore.perform FiberSemphore.posted taken] in *. unfold wait, mbind, M_bind, assert, get, put in *. cbn in *.
  rewrite Hsch in *. destruct (Z.ltb_spec 0 (_concurrency s)); cbn in *; injection E as <-.
  - exists true. eexists. split_and!; [done|by split|done|lia|]. intros g. cbn. naive_solver.
  - exists false. eexists. split_and!; [done|split; [done|by apply no_signal]|done|lia|].
    intros g. cbn. rewrite parked_insert. case_decide; naive_solver.
Qed.

Lemma post_ok w s : sem_ok s -> in_scheduler w = true -> _concurrency s < 2 ^ 64 - 1 ->
  exists s', post in_scheduler w s = (Ok tt, s') /\ sem_ok s' /\
    _concurrency s' + zlen (ready s') = _concurrency s + zlen (ready s) + 1 /\ fibers s' = fibers s.
Proof.
  intros [Hs Hn] Hsch Hc.
  destruct (sem_perform_ok in_scheduler (FiberSemphore.APost w) s Hs (conj Hsch Hc)) as (s' & E & Hs' & Ec & _).
  cbn [FiberSemphore.perform FiberSemphore.posted taken] in *. exists s'. split; [done|].
  unfold post, mbind, M_bind, assert, get, put in E. cbn in E. rewrite Hsch in E.
  destruct (_waitQueue s); injection E as <-; cbn in *; [split_and!; [by split|lia|done]|].
  rewrite length_app. cbn. split_and!; [by split|lia|done].
Qed.

Lemma notifyAll_ok s : sem_ok s -> exists s', notifyAll s = (Ok tt, s') /\ sem_ok s' /\ fibers s' = fibers s.
Proof.
  intros [Hs Hn]. destruct (sem_perform_ok in_scheduler FiberSemphore.ANotifyAll s Hs I) as (s' & E & Hs' & _).
  exists s'. split; [done|]. injection E as <-. split; [by split|done].
Qed.

Lemma group_yield_ok f s : sem_ok s -> state_of (fibers s) f = YIELDING -> exists s', yield f s = (Ok tt, s') /\ sem_ok s' /\
  ready s' = ready s /\ _concurrency s' = _concurrency s /\ (forall g, parked (fibers s') g <-> parked (fibers s) g).
Proof.
  intros [Hs Hn] Hf. destruct (sem_perform_ok in_scheduler (FiberSemphore.AYield f) s Hs Hf) as (s' & E & Hs' & _).
  exists s'. split; [done|]. injection E as <-. split_and!; [split; [done|by apply no_signal]|done|done|]. intros g. cbn. unfold YieldToHold.
  rewrite parked_insert. case_decide; [subst|done]. split; [intros _; by left|intros _; by right].
Qed.

Lemma filter_remove (l : list nat) f : NoDup l -> f ∈ l -> S (length (filter (fun g => g <> f) l)) = length l.
Proof.
  induction 1 as [|x l Hx Hl IH]; [by intros ?%not_elem_of_nil|]. rewrite list.filter_cons.
  intros [->|Hin]%elem_of_cons.
  - rewrite decide_False by tauto. cbn [length]. f_equal. rewrite filter_all; [done|]. by intros y Hy ->.
  - rewrite decide_True by (by intros ->). cbn [length]. by rewrite IH.
Qed.

Lemma group_resume_ok f s : sem_ok s -> state_of (fibers s) f = HOLD -> f ∈ ready s ->
  exists s', resume f s = (Ok tt, s') /\ sem_ok s' /\ zlen (ready s) = zlen (ready s') + 1 /\ _concurrency s' = _concurrency s /\
    (forall g, parked (fibers s') g <-> g <> f /\ parked (fibers s) g).
Proof.
  intros [Hs Hn] Hf Hr. pose proof Hs as (pl & Hpl).
  destruct (sem_perform_ok in_scheduler (FiberSemphore.AResume f) s Hs (conj Hf Hr)) as (s' & E & Hs' & _).
  exists s'. split; [done|]. injection E as <-. cbn. split_and!; [split; [done|by apply no_signal]| |done|].
  - rewrite <- (filter_remove (ready s) f) by (done || apply (pl_nodup _ _ Hpl)). lia.
  - intros g. rewrite parked_insert. case_decide; subst; naive_solver.
Qed.

(** ** Permits and tasks of the clients *)
Definition permits_held (p : pc) : nat :=
  match p with
  | Idle => 0
  | Check (One _) | Before (One _) | In (One _) => 0
  | After (One _) => 1
  | Check (Many _ got) | Before (Many _ got) | In (Many _ got) => length got
  | After (Many _ got) => S (length got)
  | Check (TMany _) | Before (TMany _) | In (TMany _) => 0
  | After (TMany _) => 1
  | Check (All i | TAll i) | Before (All i | TAll i) | In (All i | TAll i) => i
  | After (All i | TAll i) => S i
  end.

Definition call_tasks (c : call) : list nat :=
  match c with One t => [t] | Many todo got => got ++ todo | TMany todo => todo | _ => [] end.
Definition pc_tasks (p : pc) : list nat :=
  match p with Idle => [] | Check c | Before c | In c | After c => call_tasks c end.

(** Program counters a client of the class can have. *)
Definition call_ok (timed : bool) (b : nat) (c : call) : Prop :=
  match c with
  | One _ => timed = false
  | Many todo _ => timed = false /\ todo <> []
  | All i => timed = false /\ (i < b)%nat
  | TMany todo => timed = true /\ todo <> []
  | TAll i => timed = true /\ (i < b)%nat
  end.
Definition pc_ok (timed : bool) (b : nat) (p : pc) : Prop :=
  match p with
  | Idle => True
  | Check (TMany todo) => timed = true /\ todo <> []
  | Check (TAll i) => timed = true /\ (i <= b)%nat
  | Check _ => False
  | Before c | In c | After c => call_ok timed b c
  end.

Definition occ (t : nat) (l : list nat) : nat := count_occ Nat.eq_dec l t.
Fixpoint total {A} (h : A -> nat) (l : list A) : nat := match l with [] => 0%nat | x :: l => (h x + total h l)%nat end.

Record group_inv (timed : bool) (g : group) : Prop := {
  gi_sem : sem_ok (_fiberSem g);
  gi_parked : forall f, parked (fibers (_fiberSem g)) f <-> at_client g f is_in;
  gi_pcs : Forall (pc_ok timed (_batchSize g)) (clients g);
  gi_timer : timed = false -> _isTimeouted g = false /\ _timer g = false;
  gi_permits : _isTimeouted g = false ->
    _concurrency (_fiberSem g) + zlen (ready (_fiberSem g)) + Z.of_nat (total permits_held (clients g)) +
    zlen (scheduled g) + zlen (running g) + zlen (lost g) + Z.of_nat (consumed g) = Z.of_nat (_batchSize g);
  gi_tasks : forall t, occ t (submitted g) =
    (total (fun p => occ t (pc_tasks p)) (clients g) + occ t (scheduled g) + occ t (running g) + occ t (done g) + occ t (lost g))%nat
}.

Lemma total_insert {A} (h : A -> nat) l f p q : l !! f = Some p -> (total h (<[f := q]> l) + h p = total h l + h q)%nat.
Proof.
  revert f. induction l as [|x l IH]; intros [|f]; try done; cbn [lookup list_lookup].
  - intros [= ->]. change (<[0%nat := q]> (p :: l)) with (q :: l). cbn [total]. lia.
  - intros H. change (<[S f := q]> (x :: l)) with (x :: <[f := q]> l). cbn [total]. specialize (IH f H). lia.
Qed.

Lemma occ_app t a b : occ t (a ++ b) = (occ t a + occ t b)%nat.
Proof. apply count_occ_app. Qed.

Lemma occ_cons t x l : occ t (x :: l) = (occ t [x] + occ t l)%nat.
Proof. apply (occ_app t [x] l). Qed.

(** ** Preservation *)
(** What the rest of the group holds besides its clients. *)
Definition rest_permits (g : group) : Z :=
  _concurrency (_fiberSem g) + zlen (ready (_fiberSem g)) + zlen (scheduled g) + zlen (running g) + zlen (lost g) + Z.of_nat (consumed g).
Definition rest_tasks (t : nat) (g : group) : nat := (occ t (scheduled g) + occ t (running g) + occ t (done g) + occ t (lost g))%nat.

(** A step that moves one client. *)
Lemma group_inv_move timed g g' f p q : group_inv timed g -> clients g !! f = Some p ->
  clients g' = <[f := q]> (clients g) -> _batchSize g' = _batchSize g -> _isTimeouted g' = _isTimeouted g ->
  (_timer g' = true -> _timer g = true) -> pc_ok timed (_batchSize g) q -> sem_ok (_fiberSem g') ->
  (forall h, parked (fibers (_fiberSem g')) h <-> (h = f /\ is_in q) \/ (h <> f /\ parked (fibers (_fiberSem g)) h)) ->
  (_isTimeouted g = false -> rest_permits g' + Z.of_nat (permits_held q) = rest_permits g + Z.of_nat (permits_held p)) ->
  (forall t, occ t (submitted g') + occ t (pc_tasks p) + rest_tasks t g = occ t (submitted g) + occ t (pc_tasks q) + rest_tasks t g')%nat ->
  group_inv timed g'.
Proof.
  intros [H1 H2 H3 H4 H5 H6] Hf Hcl Hb Ht Htm Hq Hs Hp Hpe Hta. split.
  - done.
  - intros h. rewrite Hp, H2. unfold at_client. rewrite Hcl. destruct (decide (h = f)) as [->|Hh].
    + rewrite list_lookup_insert_eq by (by eapply lookup_lt_Some). split.
      * intros [[_ Hi]|[? _]]; [by exists q|done].
      * intros (x & [= <-] & Hi). by left.
    + rewrite list_lookup_insert_ne by done. split; [intros [[? _]|[_ H]]; done|]. intros H. by right.
  - rewrite Hcl, Hb. by apply Forall_insert.
  - intros E. destruct (H4 E) as [E1 E2]. rewrite Ht. split; [done|]. destruct (_timer g'); [|done]. by rewrite Htm in E2.
  - rewrite Ht, Hb, Hcl. intros E. specialize (H5 E). specialize (Hpe E). pose proof (total_insert permits_held _ f p q Hf).
    unfold rest_permits in Hpe. lia.
  - intros t. rewrite Hcl. specialize (H6 t). specialize (Hta t).
    pose proof (total_insert (fun p => occ t (pc_tasks p)) _ f p q Hf) as Hti. cbn beta in Hti. unfold rest_tasks in Hta. lia.
Qed.

(** A step that moves none. *)
Lemma inv_stay timed g g' : group_inv timed g ->
  clients g' = clients g -> _batchSize g' = _batchSize g -> submitted g' = submitted g ->
  (timed = false -> _isTimeouted g' = _isTimeouted g /\ _timer g' = _timer g) -> sem_ok (_fiberSem g') ->
  (forall h, parked (fibers (_fiberSem g')) h <-> parked (fibers (_fiberSem g)) h) ->
  (_isTimeouted g' = false -> _isTimeouted g = false /\ rest_permits g' = rest_permits g) ->
  (forall t, rest_tasks t g' = rest_tasks t g) -> group_inv timed g'.
Proof.
  intros [H1 H2 H3 H4 H5 H6] Hcl Hb Hsub Ht Hs Hp Hpe Hta. split.
  - done.
  - intros h. rewrite Hp, H2. unfold at_client. by rewrite Hcl.
  - by rewrite Hcl, Hb.
  - intros E. destruct (Ht E) as [-> ->]. by apply H4.
  - rewrite Hb, Hcl. intros E. destruct (Hpe E) as [E1 E2]. specialize (H5 E1). unfold rest_permits in E2. lia.
  - intros t. rewrite Hcl, Hsub. specialize (H6 t). specialize (Hta t). unfold rest_tasks in Hta. lia.
Qed.

Definition step_ok (timed : bool) (m : M group unit) (g : group) : Prop := exists g', m g = (Ok tt, g') /\ group_inv timed g'.

Lemma at_pc_eq g f p k : clients g !! f = Some p -> at_pc f k g = k p g.
Proof. intros H. unfold at_pc, mbind, M_bind, get. cbn. by rewrite H. Qed.

#[local] Arguments occ : simpl never.
Lemma occ_nil t : occ t [] = 0%nat.
Proof. done. Qed.

Ltac counting := unfold rest_tasks, rest_permits; cbn; rewrite ?length_app, ?occ_app, ?occ_nil; cbn; try lia.

(** The goals of [group_inv_move], in order: what is left are the facts about the
    program counter and the semaphore. *)
Ltac mover Hi Hf q := eexists; split; [reflexivity|]; apply (group_inv_move _ _ _ _ _ q Hi Hf);
  [reflexivity|reflexivity|reflexivity|try done|cbn|try exact (gi_sem _ _ Hi)| |intros ?; counting|intros ?; counting].

Lemma not_in g f p timed : group_inv timed g -> clients g !! f = Some p -> ~ is_in p -> ~ parked (fibers (_fiberSem g)) f.
Proof. intros Hi Hf Hn. rewrite (gi_parked _ _ Hi). intros (x & Hx & Hin). congruence. Qed.

Lemma still_out g f timed p : group_inv timed g -> clients g !! f = Some p -> ~ is_in p ->
  forall q, ~ is_in q -> forall h, parked (fibers (_fiberSem g)) h <-> (h = f /\ is_in q) \/ (h <> f /\ parked (fibers (_fiberSem g)) h).
Proof.
  intros Hi Hf Hp q Hq h. pose proof (not_in g f p timed Hi Hf Hp). destruct (decide (h = f)) as [->|]; tauto.
Qed.

Lemma call_steps timed g f : group_inv timed g -> clients g !! f = Some Idle ->
  (timed = false -> (forall t, step_ok timed (Schedule f t) g) /\ (forall cbs, step_ok timed (Schedule_all f cbs) g) /\ step_ok timed (WaitAll f) g) /\
  (timed = true -> (forall cbs, step_ok timed (Timed_Schedule f cbs) g) /\ step_ok timed (Timed_WaitAll f) g).
Proof.
  intros Hi Hf. pose proof (still_out g f timed Idle Hi Hf ltac:(by intros [])) as Hout.
  destruct g as [s b fi ti tm cl sc ru su d l c]. cbn [clients _fiberSem] in *. split; intros ->; split_and!.
  - intros t. mover Hi Hf (Before (One t)); [done|apply Hout; by intros []].
  - intros cbs. unfold Schedule_all. case_bool_decide as Hc; [by eexists|]. mover Hi Hf (Before (Many cbs [])); [done|apply Hout; by intros []].
  - unfold WaitAll, step_ok, mbind, M_bind, get, wait_loop, modify. cbn. destruct fi; cbn; [by eexists|].
    destruct b as [|b]; cbn; [mover Hi Hf Idle|mover Hi Hf (Before (All 0))]; try done; [apply Hout; by intros []|lia|apply Hout; by intros []].
  - intros cbs. unfold Timed_Schedule. case_bool_decide as Hc; [by eexists|]. mover Hi Hf (Check (TMany cbs)); [done|apply Hout; by intros []].
  - unfold Timed_WaitAll, step_ok, mbind, M_bind, get, modify. cbn. destruct fi; cbn; [by eexists|].
    mover Hi Hf (Check (TAll 0)); [split; [done|lia]|apply Hout; by intros []].
Qed.

Lemma client_ok timed g f p : group_inv timed g -> clients g !! f = Some p -> pc_ok timed (_batchSize g) p.
Proof. intros Hi Hf. pose proof (gi_pcs _ _ Hi) as H. rewrite list.Forall_lookup in H. by eapply H. Qed.

Lemma check_step timed g f c : group_inv timed g -> clients g !! f = Some (Check c) -> step_ok timed (check f c) g.
Proof.
  intros Hi Hf. pose proof (client_ok _ _ _ _ Hi Hf) as Hpc. pose proof (still_out g f timed _ Hi Hf ltac:(by intros [])) as Hout.
  destruct g as [s b fi ti tm cl sc ru su d l c0]. cbn [clients _fiberSem _batchSize] in *.
  unfold check, step_ok, mbind, M_bind, get, modify. cbn [_batchSize _isTimeouted _timer].
  destruct c as [t|todo got|i|todo|i]; cbn in Hpc; try done; destruct Hpc as [-> Hpc].
  - destruct ti; cbn [negb]; [mover Hi Hf (After (TMany todo))|mover Hi Hf (Before (TMany todo))]; try done; apply Hout; by intros [].
  - destruct ti; cbn [negb].
    + rewrite andb_false_r. cbn [andb negb]. mover Hi Hf Idle; try done. apply Hout; by intros [].
    + destruct (Nat.ltb_spec i b); cbn [andb negb].
      * mover Hi Hf (Before (TAll i)); try done. apply Hout; by intros [].
      * destruct tm; cbn [andb]; mover Hi Hf Idle; try done; apply Hout; by intros [].
Qed.

Lemma wait_step timed g f c : group_inv timed g -> clients g !! f = Some (Before c) -> in_scheduler f = true ->
  step_ok timed (do_wait f c) g.
Proof.
  intros Hi Hf Hsch. pose proof (client_ok _ _ _ _ Hi Hf) as Hpc. pose proof (not_in g f _ timed Hi Hf ltac:(by intros [])) as Hnp.
  pose proof (runs_exec _ _ (gi_sem _ _ Hi) Hnp) as Hst.
  destruct (wait_cases f _ (gi_sem _ _ Hi) Hst Hsch) as (got & s' & E & Hs' & Hr & Hc & Hp).
  destruct g as [s b fi ti tm cl sc ru su d l c0]. cbn [clients _fiberSem _batchSize] in *.
  unfold step_ok, do_wait, mbind, M_bind, on_sem, goto, modify. cbn. rewrite E. destruct got; cbn.
  - mover Hi Hf (After c); [done|done| |rewrite Hr; destruct c; cbn; lia].
    cbn. intros h. rewrite Hp. destruct (decide (h = f)) as [->|]; naive_solver.
  - mover Hi Hf (In c); [done|done| |rewrite Hr; destruct c; cbn; lia].
    cbn. intros h. rewrite Hp. destruct (decide (h = f)) as [->|]; naive_solver.
Qed.

Lemma resume_step timed g f c : group_inv timed g -> clients g !! f = Some (In c) ->
  state_of (fibers (_fiberSem g)) f = HOLD -> f ∈ ready (_fiberSem g) -> step_ok timed (do_resume f c) g.
Proof.
  intros Hi Hf Hst Hr. pose proof (client_ok _ _ _ _ Hi Hf) as Hpc.
  destruct (group_resume_ok f _ (gi_sem _ _ Hi) Hst Hr) as (s' & E & Hs' & Hl & Hc & Hp).
  destruct g as [s b fi ti tm cl sc ru su d l c0]. cbn [clients _fiberSem _batchSize] in *.
  unfold step_ok, do_resume, mbind, M_bind, on_sem, goto, modify. cbn -[resume]. rewrite E. cbn.
  mover Hi Hf (After c); [done|done| |destruct c; cbn; lia].
  cbn. intros h. rewrite Hp. destruct (decide (h = f)) as [->|]; naive_solver.
Qed.

Lemma after_step timed g f c : group_inv timed g -> clients g !! f = Some (After c) -> step_ok timed (after f c) g.
Proof.
  intros Hi Hf. pose proof (client_ok _ _ _ _ Hi Hf) as Hpc. pose proof (still_out g f timed _ Hi Hf ltac:(by intros [])) as Hout.
  destruct g as [s b fi ti tm cl sc ru su d l c0]. cbn [clients _fiberSem _batchSize] in *.
  destruct c as [t|todo got|i|todo|i]; cbn in Hpc; destruct Hpc as [-> Hpc] || subst timed.
  - mover Hi Hf Idle; try done. apply Hout; by intros [].
  - destruct todo as [|t [|t' todo]]; [done| |].
    + mover Hi Hf Idle; try done. apply Hout; by intros [].
    + mover Hi Hf (Before (Many (t' :: todo) (got ++ [t]))); try done; [apply Hout; by intros []|].
      rewrite (occ_cons _ t (t' :: todo)). lia.
  - unfold after, wait_loop, step_ok, mbind, M_bind, get, modify. cbn [_batchSize].
    destruct (Nat.ltb_spec (S i) b); [mover Hi Hf (Before (All (S i)))|mover Hi Hf Idle]; try done;
      try (apply Hout; by intros []).
  - destruct todo as [|t [|t' todo]]; [done| |].
    + mover Hi Hf Idle; try done; apply Hout; by intros [].
    + mover Hi Hf (Check (TMany (t' :: todo))); try done; [apply Hout; by intros []|]. rewrite (occ_cons _ t (t' :: todo)). lia.
  - mover Hi Hf (Check (TAll (S i))); try done. apply Hout; by intros [].
Qed.

Lemma yield_step timed g f : group_inv timed g -> state_of (fibers (_fiberSem g)) f = YIELDING -> step_ok timed (on_sem (yield f)) g.
Proof.
  intros Hi Hst. destruct (group_yield_ok f _ (gi_sem _ _ Hi) Hst) as (s' & E & Hs' & Hr & Hc & Hp).
  destruct g as [s b fi ti tm cl sc ru su d l c0]. cbn [_fiberSem] in *.
  unfold step_ok, on_sem. cbn -[yield]. rewrite E. eexists; split; [reflexivity|].
  apply (inv_stay _ _ _ Hi); try done. cbn. intros ->. split; [done|]. unfold rest_permits. cbn. rewrite Hr. lia.
Qed.

Lemma OnTimer_step timed g : group_inv timed g -> _timer g = true -> step_ok timed OnTimer g.
Proof.
  intros Hi Htm. destruct (notifyAll_ok _ (gi_sem _ _ Hi)) as (s' & E & Hs' & Hfb).
  assert (timed = true) as -> by (destruct timed; [done|]; destruct (gi_timer _ _ Hi eq_refl); congruence).
  destruct g as [s b fi ti tm cl sc ru su d l c0]. cbn [_fiberSem] in *.
  unfold step_ok, OnTimer, mbind, M_bind, modify, on_sem. cbn -[notifyAll]. rewrite E. eexists; split; [reflexivity|].
  apply (inv_stay _ _ _ Hi); try done. cbn. by rewrite Hfb.
Qed.

Lemma cut_occ t (l : list nat) i x : l !! i = Some x -> (occ t (take i l ++ drop (S i) l) + occ t [x] = occ t l)%nat /\
  zlen (take i l ++ drop (S i) l) + 1 = zlen l.
Proof.
  intros H. pose proof (take_drop_middle l i x H) as E. rewrite <- E at 3 6. rewrite !length_app, !occ_app, (occ_cons _ x (drop _ _)).
  cbn [length]. lia.
Qed.

Lemma start_step timed g i : group_inv timed g -> (i < length (scheduled g))%nat -> step_ok timed (start i) g.
Proof.
  intros Hi Hl. apply lookup_lt_is_Some in Hl as [t Ht].
  destruct g as [s b fi ti tm cl sc ru su d l c0]. cbn [scheduled] in *.
  unfold step_ok, start, mbind, M_bind, get, modify. cbn. rewrite Ht. cbn. eexists; split; [reflexivity|].
  apply (inv_stay _ _ _ Hi); try done.
  - apply (gi_sem _ _ Hi).
  - cbn. intros ->. split; [done|]. unfold rest_permits. cbn. rewrite (length_app ru). cbn. destruct (cut_occ 0 sc i t Ht). lia.
  - intros x. unfold rest_tasks. cbn. rewrite (occ_app _ ru). destruct (cut_occ x sc i t Ht). lia.
Qed.

Lemma finish_step timed g w i : group_inv timed g -> (i < length (running g))%nat -> in_scheduler w = true ->
  _concurrency (_fiberSem g) < 2 ^ 64 - 1 -> step_ok timed (finish w i) g.
Proof.
  intros Hi Hl Hsch Hb. apply lookup_lt_is_Some in Hl as [t Ht].
  destruct (post_ok w _ (gi_sem _ _ Hi) Hsch Hb) as (s' & E & Hs' & Hc & Hfb).
  destruct g as [s b fi ti tm cl sc ru su d l c0]. cbn [running _fiberSem] in *.
  unfold step_ok, finish, end_task, on_sem, mbind, M_bind, get, modify. cbn -[post]. rewrite Ht. cbn -[post]. rewrite E. eexists; split; [reflexivity|].
  apply (inv_stay _ _ _ Hi); try done.
  - cbn. by rewrite Hfb.
  - cbn. intros ->. split; [done|]. unfold rest_permits. cbn. destruct (cut_occ 0 ru i t Ht). lia.
  - intros x. unfold rest_tasks. cbn. rewrite (occ_app _ d). destruct (cut_occ x ru i t Ht). lia.
Qed.

Lemma throws_step timed g i : group_inv timed g -> (i < length (running g))%nat -> step_ok timed (throws i) g.
Proof.
  intros Hi Hl. apply lookup_lt_is_Some in Hl as [t Ht].
  destruct g as [s b fi ti tm cl sc ru su d l c0]. cbn [running _fiberSem] in *.
  unfold step_ok, throws, end_task, mbind, M_bind, get, modify. cbn. rewrite Ht. cbn. eexists; split; [reflexivity|].
  apply (inv_stay _ _ _ Hi); try done.
  - apply (gi_sem _ _ Hi).
  - cbn. intros ->. split; [done|]. unfold rest_permits. cbn. rewrite (length_app l). cbn. destruct (cut_occ 0 ru i t Ht). lia.
  - intros x. unfold rest_tasks. cbn. rewrite (occ_app _ l). destruct (cut_occ x ru i t Ht). lia.
Qed.

Lemma group_perform_ok timed g a : group_inv timed g -> enabled timed a g -> step_ok timed (perform a) g.
Proof.
  intros Hi Ha. destruct a as [f t|f cbs|f|f cbs|f| |f|f|f|f|f|i|w i|i]; cbn [enabled perform] in *.
  1-5: destruct Ha as (Ht & (p & Hf & ->) & _); destruct (call_steps timed g f Hi Hf) as [H1 H2];
    (destruct (H1 Ht) as (? & ? & ?) || destruct (H2 Ht) as (? & ?)); auto.
  - by apply OnTimer_step.
  - destruct Ha as (p & Hf & Hp). destruct p as [|c|c|c|c]; try done.
    unfold step_ok. rewrite (at_pc_eq _ _ _ _ Hf). by apply check_step.
  - destruct Ha as [(p & Hf & Hp) Hsch]. destruct p as [|c|c|c|c]; try done.
    unfold step_ok. rewrite (at_pc_eq _ _ _ _ Hf). by apply wait_step.
  - destruct Ha as [_ Hst]. by apply yield_step.
  - destruct Ha as [(p & Hf & Hp) [Hst Hr]]. destruct p as [|c|c|c|c]; try done.
    unfold step_ok. rewrite (at_pc_eq _ _ _ _ Hf). by apply resume_step.
  - destruct Ha as (p & Hf & Hp). destruct p as [|c|c|c|c]; try done.
    unfold step_ok. rewrite (at_pc_eq _ _ _ _ Hf). by apply after_step.
  - by apply start_step.
  - destruct Ha as (? & ? & ?). by apply finish_step.
  - by apply throws_step.
Qed.

Lemma group_total_zero {A} (h : A -> nat) l : (forall x, x ∈ l -> h x = 0%nat) -> total h l = 0%nat.
Proof. induction l as [|x l IH]; intros H; [done|]. cbn. rewrite (H x ltac:(by left)), IH; [done|]. intros y Hy. apply H. by right. Qed.

Lemma total_member {A} (h : A -> nat) l f p : l !! f = Some p -> (h p <= total h l)%nat.
Proof. revert f. induction l as [|x l IH]; intros [|f]; try done; [intros [= ->]; cbn; lia|]. intros H%IH. cbn. lia. Qed.

Lemma idle_clients n p : p ∈ repeat Idle n -> p = Idle.
Proof. intros Hp. apply list_elem_of_In in Hp. by apply repeat_spec in Hp. Qed.

Lemma group_new_inv (b n : nat) timed : Z.of_nat b < 2 ^ 32 -> group_inv timed (new b n timed).
Proof.
  intros Hb. split.
  - split; [eexists; apply sem_new; lia|]. intros f k. done.
  - intros f. split; [by intros [|]|].
    intros (p & Hp & Hin). apply list_elem_of_lookup_2, idle_clients in Hp. by subst p.
  - apply list.Forall_forall. intros p ->%idle_clients. done.
  - intros ->. done.
  - intros _. cbn. rewrite group_total_zero; [lia|]. by intros p ->%idle_clients.
  - intros t. cbn. rewrite group_total_zero; [done|]. by intros p ->%idle_clients.
Qed.

Lemma group_steps_ok timed acts : forall g, group_inv timed g -> all_enabled timed acts g ->
  exists g', steps acts g = (Ok tt, g') /\ group_inv timed g'.
Proof.
  induction acts as [|a acts IH]; intros g Hi Hen; [by exists g|]. destruct Hen as [Ha Hen].
  destruct (group_perform_ok timed g a Hi Ha) as (g1 & E & Hi1). rewrite E in Hen. destruct (IH g1 Hi1 Hen) as (g2 & E2 & Hi2).
  exists g2. split; [|done]. cbn [steps]. by rewrite (bind_ok _ _ _ _ _ E).
Qed.

Lemma tasks_perm timed g : group_inv timed g ->
  submitted g ≡ₚ concat (map pc_tasks (clients g)) ++ scheduled g ++ running g ++ done g ++ lost g.
Proof.
  intros Hi. apply (Permutation_count_occ Nat.eq_dec). intros t. pose proof (gi_tasks _ _ Hi t) as H.
  rewrite !count_occ_app. fold (occ t (submitted g)). rewrite H. unfold occ at 1.
  assert (forall l, count_occ Nat.eq_dec (concat (map pc_tasks l)) t = total (fun p => occ t (pc_tasks p)) l) as ->.
  { induction l as [|p l IH]; [done|]. cbn [map concat total]. rewrite count_occ_app, IH. done. }
  unfold occ. lia.
Qed.

(** ** What no step changes *)
Definition keeps {A B} (proj : group -> B) (m : M group A) : Prop := forall g, proj (snd (m g)) = proj g.

Lemma keeps_bind {A A' B} (proj : group -> B) (m : M group A) (k : A -> M group A') :
  keeps proj m -> (forall a, keeps proj (k a)) -> keeps proj (m ≫= k).
Proof.
  intros Hm Hk g. specialize (Hm g). unfold mbind, M_bind. destruct (m g) as [[] g1]; try done.
  rewrite (Hk _ g1). done.
Qed.

Lemma keeps_get {A B} (proj : group -> B) (k : group -> M group A) : (forall g, keeps proj (k g)) -> keeps proj (get ≫= k).
Proof. intros H. by apply keeps_bind. Qed.

Lemma keeps_modify {B} (proj : group -> B) h : (forall g, proj (h g) = proj g) -> keeps proj (modify h).
Proof. intros H g. apply H. Qed.

Lemma keeps_sem {A B} (proj : group -> B) (m : M FiberSemphore A) : (forall s g, proj (set_sem s g) = proj g) -> keeps proj (on_sem m).
Proof. intros H g. unfold on_sem. destruct (m (_fiberSem g)). apply H. Qed.

(** The client whose program counter an action moves. *)
Definition client_of (a : action) : option nat :=
  match a with
  | ASchedule f _ | ASchedule_all f _ | AWaitAll f | ATimed_Schedule f _ | ATimed_WaitAll f
  | ACheck f | AWait f | AResume f | AAfter f => Some f
  | _ => None
  end.

Ltac keeping := intros; lazymatch goal with
  | |- keeps _ (mbind _ get) => apply keeps_get; keeping
  | |- keeps _ (mbind _ _) => apply keeps_bind; keeping
  | |- keeps _ (on_sem _) => apply keeps_sem; let x := fresh in intros ? x; by destruct x
  | |- keeps _ (modify _) => apply keeps_modify; let x := fresh in intros x; destruct x; cbn; (done || by apply list_lookup_insert_ne)
  | |- keeps _ (mret _) => intros ?; done
  | |- _ => progress case_match; keeping
  end.

Lemma perform_batch (a : action) : keeps _batchSize (perform a).
Proof.
  destruct a; cbn [perform]; unfold Schedule, Schedule_all, WaitAll, Timed_Schedule, Timed_WaitAll, OnTimer, at_pc, check,
    do_wait, do_resume, after, start, finish, throws, end_task, wait_loop, hand_over, goto; keeping.
Qed.

Lemma perform_client (a : action) f : client_of a <> Some f -> keeps (fun g => clients g !! f) (perform a).
Proof.
  intros H. destruct a as [h t|h cbs|h|h cbs|h| |h|h|h|h|h|i|w i|i]; cbn [perform client_of] in *; try (assert (h <> f) by congruence);
  unfold Schedule, Schedule_all, WaitAll, Timed_Schedule, Timed_WaitAll, OnTimer, at_pc, check,
    do_wait, do_resume, after, start, finish, throws, end_task, wait_loop, hand_over, goto; keeping.
Qed.

(** A waiter that is about to return holds every permit. *)
Lemma all_collected timed g f : group_inv timed g -> _isTimeouted g = false ->
  (exists i, S i = _batchSize g /\ clients g !! f = Some (After (All i))) \/ clients g !! f = Some (Check (TAll (_batchSize g))) ->
  scheduled g = [] /\ running g = [] /\ lost g = [].
Proof.
  intros Hi Ht Hf. pose proof (gi_permits _ _ Hi Ht) as Hp. pose proof (gi_sem _ _ Hi) as [(pl & Hpl) _].
  pose proof (pl_count _ _ Hpl) as Hc.
  assert (_batchSize g <= total permits_held (clients g))%nat as Hb.
  { destruct Hf as [(i & <- & Hf)|Hf]; by apply (total_member permits_held) in Hf. }
  split_and!; apply length_zero_iff_nil; lia.
Qed.
Lemma steps_batch (acts : list action) : keeps _batchSize (steps acts).
Proof.
  induction acts as [|a acts IH]; [by intros g|]. apply keeps_bind; [apply perform_batch|done].
Qed.

Lemma run_ok (b n : nat) timed acts : Z.of_nat b < 2 ^ 32 -> all_enabled timed acts (new b n timed) ->
  exists g, steps acts (new b n timed) = (Ok tt, g) /\ group_inv timed g /\ _batchSize g = b.
Proof.
  intros Hb Hen. destruct (group_steps_ok timed acts _ (group_new_inv b n timed Hb) Hen) as (g & E & Hi).
  exists g. split_and!; [done..|]. pose proof (steps_batch acts (new b n timed)) as H. rewrite E in H. apply H.
Qed.

Lemma all_enabled_prefix timed a1 a2 : forall g, all_enabled timed (a1 ++ a2) g -> all_enabled timed a1 g.
Proof. induction a1 as [|a a1 IH]; [done|]. intros g [Ha Hen]. split; [done|]. by apply IH. Qed.

Lemma run_app timed a1 a2 : forall g g1, steps a1 g = (Ok tt, g1) ->
  steps (a1 ++ a2) g = steps a2 g1 /\ (all_enabled timed (a1 ++ a2) g -> all_enabled timed a2 g1).
Proof.
  induction a1 as [|a a1 IH]; intros g g1; [by intros [= ->]|]. cbn [steps all_enabled app]. intros E.
  unfold mbind, M_bind in E |- *. destruct (perform a g) as [[] g2] eqn:Ep; try discriminate E. cbn [snd] in *.
  destruct (IH _ _ E) as [-> H]. split; [done|]. intros [_ ?]. by apply H.
Qed.

(** ** A bulk call that is too big *)
Definition stuck_in (cbs : list nat) (p : pc) : Prop :=
  exists todo got, got ++ todo = cbs /\ todo <> [] /\
    (p = Before (Many todo got) \/ p = In (Many todo got) \/ p = After (Many todo got)).

Lemma stuck_client cbs f g p : clients g !! f = Some p -> stuck_in cbs p -> at_client g f (stuck_in cbs).
Proof. intros. by exists p. Qed.

Lemma set_client_lookup g f p q : clients g !! f = Some p -> clients (set_client f q g) !! f = Some q.
Proof. intros H. destruct g. cbn in *. apply list_lookup_insert_eq. by eapply lookup_lt_Some. Qed.

Lemma sem_lookup s g f : clients (set_sem s g) !! f = clients g !! f.
Proof. by destruct g. Qed.

Lemma stuck_step cbs f a g : group_inv false g -> (_batchSize g < length cbs)%nat ->
  at_client g f (stuck_in cbs) -> enabled false a g -> at_client (snd (perform a g)) f (stuck_in cbs).
Proof.
  intros Hi Hb (p & Hf & Hp) Ha. destruct (decide (client_of a = Some f)) as [Hc|Hc].
  2: { exists p. by rewrite (perform_client a f Hc g). }
  destruct Hp as (todo & got & Hcbs & Hne & Hp).
  destruct a; cbn [client_of] in Hc; try discriminate Hc; injection Hc as ->; cbn [enabled] in Ha;
    try (destruct Ha as (_ & (q & Hq & Hq') & _); naive_solver); try done.
  - destruct Ha as (q & Hq & Hq'). naive_solver.
  - destruct Ha as [(q & Hq & Hq') Hsch]. assert (p = q) as <- by congruence. destruct Hp as [->|[->| ->]]; try done.
    unfold perform. rewrite (at_pc_eq _ _ _ _ Hf). unfold do_wait, mbind, M_bind, on_sem.
    pose proof (runs_exec _ _ (gi_sem _ _ Hi) (not_in g f _ false Hi Hf ltac:(by intros []))) as Hst.
    destruct (wait_cases f _ (gi_sem _ _ Hi) Hst Hsch) as (r & s' & E & _). rewrite E.
    destruct r; eapply stuck_client; try (eapply set_client_lookup; by rewrite sem_lookup); exists todo, got; tauto.
  - destruct Ha as [(q & Hq & Hq') _]. assert (p = q) as <- by congruence. destruct Hp as [->|[->| ->]]; try done.
    unfold perform. rewrite (at_pc_eq _ _ _ _ Hf). eapply stuck_client; [eapply set_client_lookup; by rewrite sem_lookup|].
    exists todo, got; tauto.
  - destruct Ha as (q & Hq & Hq'). assert (p = q) as <- by congruence. destruct Hp as [->|[->| ->]]; try done.
    unfold perform. rewrite (at_pc_eq _ _ _ _ Hf). destruct todo as [|t [|t' todo]]; [done| |].
    + exfalso. destruct (gi_timer _ _ Hi eq_refl) as [Ht _]. pose proof (gi_permits _ _ Hi Ht) as H.
      apply (total_member permits_held) in Hf. cbn in Hf. rewrite <- Hcbs, length_app in Hb. cbn in Hb.
      pose proof (gi_sem _ _ Hi) as [(pl & Hpl) _]. pose proof (pl_count _ _ Hpl). lia.
    + eapply stuck_client; [by eapply set_client_lookup|]. exists (t' :: todo), (got ++ [t]). rewrite <- app_assoc. split_and!; [done..|tauto].
Qed.

Lemma stuck_steps cbs f acts : forall g, group_inv false g -> (_batchSize g < length cbs)%nat ->
  at_client g f (stuck_in cbs) -> all_enabled false acts g -> at_client (snd (steps acts g)) f (stuck_in cbs).
Proof.
  induction acts as [|a acts IH]; intros g Hi Hb Hs Hen; [done|]. destruct Hen as [Ha Hen].
  pose proof (stuck_step _ _ _ _ Hi Hb Hs Ha) as Hs1. pose proof (perform_batch a g) as Hb1.
  destruct (group_perform_ok false g a Hi Ha) as (g1 & E & Hi1). rewrite E in Hen, Hs1, Hb1. cbn in Hen, Hs1, Hb1.
  cbn [steps]. rewrite (bind_ok _ _ _ _ _ E). apply IH; try done. by rewrite Hb1.
Qed.


(** A bulk [WorkerGroup::Schedule] of more callbacks than the group has
    permits never returns.  The permits it collects are released by tasks that it
    hands over only when it has them all, so in every run, whatever the other
    clients and the tasks do after the call, the caller is still in the loop over
    [_fiberSem.wait()], with every one of its callbacks. *)
Theorem bulk_schedule_deadlock (b n f : nat) (cbs : list nat) (before further : list action) :
  Z.of_nat b < 2 ^ 32 -> (b < length cbs)%nat ->
  all_enabled false (before ++ ASchedule_all f cbs :: further) (new b n false) ->
  exists g todo got, steps (before ++ ASchedule_all f cbs :: further) (new b n false) = (Ok tt, g) /\
    got ++ todo = cbs /\ todo <> [] /\
    (clients g !! f = Some (Before (Many todo got)) \/ clients g !! f = Some (In (Many todo got)) \/
     clients g !! f = Some (After (Many todo got))).
Proof.
  intros Hb Hl Hen. destruct (run_ok b n false before Hb (all_enabled_prefix _ _ _ _ Hen)) as (g0 & E0 & Hi0 & Hb0).
  assert (cbs <> []) as Hne by (intros ->; cbn in Hl; lia).
  destruct (run_app false before (ASchedule_all f cbs :: further) _ _ E0) as [Es Hen1]. destruct (Hen1 Hen) as [Ha Hen2].
  destruct (group_perform_ok false g0 _ Hi0 Ha) as (g1 & E1 & Hi1). pose proof (perform_batch (ASchedule_all f cbs) g0) as Hb1.
  rewrite E1 in Hen2, Hb1. cbn in Hen2, Hb1. rewrite Hb0 in Hb1.
  assert (at_client g1 f (stuck_in cbs)) as Hs.
  { destruct Ha as (_ & (p & Hp & ->) & _). cbn [perform] in E1. unfold Schedule_all in E1.
    rewrite (bool_decide_eq_false_2 _ Hne) in E1. injection E1 as <-.
    eapply stuck_client; [eapply set_client_lookup; by destruct g0|]. exists cbs, []. split_and!; [done..|tauto]. }
  destruct (stuck_steps cbs f further g1 Hi1 ltac:(by rewrite Hb1) Hs Hen2) as (p & Hp & todo & got & H1 & H2 & H3).
  destruct (group_steps_ok false further g1 Hi1 Hen2) as (g & E & _). rewrite E in Hp. cbn in Hp.
  exists g, todo, got. split_and!; [|done..|by destruct H3 as [-> | [-> | ->]]; auto].
  rewrite Es. cbn [steps]. by rewrite (bind_ok _ _ _ _ _ E1).
Qed.

(** ** The timer *)
Definition finishes (a : action) : Prop := match a with AFinish _ _ => True | _ => False end.

(** A client that waits after the timer has fired is woken by finishing tasks only. *)
Definition holds {A} (P : group -> Prop) (m : M group A) : Prop := forall g, P g -> P (snd (m g)).

Lemma holds_bind {A A'} P (m : M group A) (k : A -> M group A') : holds P m -> (forall a, holds P (k a)) -> holds P (m ≫= k).
Proof.
  intros Hm Hk g Hg. specialize (Hm g Hg). unfold mbind, M_bind. destruct (m g) as [[] g1]; try done. by apply (Hk _ g1).
Qed.

Definition unwoken (f : nat) (g : group) : Prop := _timer g = false /\ f ∉ ready (_fiberSem g).

Lemma holds_sem {A} f (m : M FiberSemphore A) : (forall s, f ∉ ready s -> f ∉ ready (snd (m s))) -> holds (unwoken f) (on_sem m).
Proof. intros H g [Ht Hr]. unfold on_sem. specialize (H _ Hr). destruct g; cbn in *. by destruct (m _). Qed.

Ltac holding := intros; lazymatch goal with
  | |- holds _ (mbind _ get) => apply holds_bind; [by intros ? ?|]; holding
  | |- holds _ (mbind _ _) => apply holds_bind; holding
  | |- holds _ (on_sem (wait _ _)) =>
    apply holds_sem; intros s ?; unfold wait, mbind, M_bind, assert, get, put; cbn; repeat (case_match; cbn); done
  | |- holds _ (on_sem (resume _)) => apply holds_sem; intros s ?; cbn; rewrite list_elem_of_filter; tauto
  | |- holds _ (on_sem (yield _)) => by apply holds_sem
  | |- holds _ (modify _) => let x := fresh in intros x; destruct x; unfold unwoken; cbn; tauto
  | |- holds _ (mret _) => by intros ? ?
  | |- _ => progress case_match; holding
  end.

Lemma unwoken_step f a : ~ finishes a -> a <> AOnTimer -> holds (unwoken f) (perform a).
Proof.
  intros Hn Ha. destruct a; cbn [perform finishes] in *; try done; clear Hn Ha;
  unfold Schedule, Schedule_all, WaitAll, Timed_Schedule, Timed_WaitAll, at_pc, check,
    do_wait, do_resume, after, start, throws, end_task, wait_loop, hand_over, goto; holding.
Qed.

Lemma unwoken_client timed f c a g : enabled timed a g -> clients g !! f = Some (In c) -> f ∉ ready (_fiberSem g) ->
  clients (snd (perform a g)) !! f = Some (In c).
Proof.
  intros Ha Hf Hr. destruct (decide (client_of a = Some f)) as [Hc|Hc]; [|by rewrite (perform_client a f Hc g)].
  destruct a; cbn [client_of] in Hc; try discriminate Hc; injection Hc as ->; cbn [enabled] in Ha; unfold at_client in Ha; exfalso;
    repeat match goal with H : _ /\ _ |- _ => destruct H | H : exists _, _ |- _ => destruct H end; simplify_eq; try done.
Qed.

Lemma unwoken_steps f c acts : forall g, unwoken f g -> clients g !! f = Some (In c) -> all_enabled true acts g ->
  Forall (fun a => ~ finishes a) acts -> group_inv true g -> clients (snd (steps acts g)) !! f = Some (In c).
Proof.
  induction acts as [|a acts IH]; intros g Hu Hf Hen Hn Hi; [done|]. destruct Hen as [Ha Hen].
  apply list.Forall_cons in Hn as [Hna Hn]. destruct (group_perform_ok true g a Hi Ha) as (g1 & E & Hi1).
  assert (a <> AOnTimer) as Hat by (intros ->; destruct Hu as [Hu _]; cbn in Ha; congruence).
  pose proof (unwoken_step f a Hna Hat g Hu) as Hu1. pose proof (unwoken_client true f c a g Ha Hf (proj2 Hu)) as Hf1.
  rewrite E in Hen, Hu1, Hf1. cbn [steps]. rewrite (bind_ok _ _ _ _ _ E). by apply IH.
Qed.

Lemma onTimer_ready g f : group_inv true g -> at_client g f is_in -> f ∈ ready (_fiberSem (snd (OnTimer g))).
Proof.
  intros Hi Hf. apply (gi_parked _ _ Hi) in Hf. pose proof (gi_sem _ _ Hi) as [(pl & Hpl) _].
  apply (pl_parked _ _ Hpl) in Hf. destruct g. cbn in *. apply elem_of_app.
  destruct (pl f) eqn:E; [by destruct Hf|right|left]; by (apply (pl_queue _ _ Hpl) || apply (pl_ready _ _ Hpl)).
Qed.

Lemma resumed_returns g f i : _isTimeouted g = true -> clients g !! f = Some (In (TAll i)) ->
  state_of (fibers (_fiberSem g)) f = HOLD -> f ∈ ready (_fiberSem g) ->
  all_enabled true [AResume f; AAfter f; ACheck f] g /\
  clients (snd (steps [AResume f; AAfter f; ACheck f] g)) !! f = Some Idle.
Proof.
  intros Ht Hf Hst Hr.
  set (g1 := set_client f (After (TAll i)) (set_sem (snd (resume f (_fiberSem g))) g)).
  assert (perform (AResume f) g = (Ok tt, g1)) as E1 by (cbn [perform]; by rewrite (at_pc_eq _ _ _ _ Hf)).
  assert (clients g1 !! f = Some (After (TAll i))) as H1 by (eapply set_client_lookup; by rewrite sem_lookup).
  set (g2 := set_client f (Check (TAll (S i))) g1).
  assert (perform (AAfter f) g1 = (Ok tt, g2)) as E2 by (cbn [perform]; by rewrite (at_pc_eq _ _ _ _ H1)).
  pose proof (set_client_lookup _ _ _ (Check (TAll (S i))) H1) as H2. fold g2 in H2.
  assert (_isTimeouted g2 = true) as Ht2 by (subst g2 g1; by destruct g).
  assert (perform (ACheck f) g2 = (Ok tt, set_client f Idle g2)) as E3.
  { cbn [perform]. rewrite (at_pc_eq _ _ _ _ H2). unfold check, mbind, M_bind, get. cbn. rewrite Ht2, andb_false_r. done. }
  split.
  - cbn [all_enabled enabled]. rewrite E1. cbn [snd]. rewrite E2. unfold at_client. naive_solver.
  - cbn [steps]. rewrite (bind_ok _ _ _ _ _ E1), (bind_ok _ _ _ _ _ E2), (bind_ok _ _ _ _ _ E3). by eapply set_client_lookup.
Qed.

(** What a timeout is for.  When the timer of a [TimedWorkGroup] fires, in
    whatever state the group has reached, every fiber that waits on the semaphore
    is made ready, and one that waits in [WaitAll] returns from it by steps of its
    own, with no task finishing. *)
Theorem timeout_releases (b n : nat) (acts : list action) :
  Z.of_nat b < 2 ^ 32 -> all_enabled true (acts ++ [AOnTimer]) (new b n true) ->
  exists g, steps (acts ++ [AOnTimer]) (new b n true) = (Ok tt, g) /\ _isTimeouted g = true /\
    (forall f, at_client g f is_in -> f ∈ ready (_fiberSem g)) /\
    forall f i, clients g !! f = Some (In (TAll i)) -> exists own, Forall (fun a => a = AYield f \/ client_of a = Some f) own /\
      all_enabled true own g /\ clients (snd (steps own g)) !! f = Some Idle.
Proof.
  intros Hb Hen. destruct (run_ok b n true acts Hb (all_enabled_prefix _ _ _ _ Hen)) as (g0 & E0 & Hi0 & _).
  destruct (run_app true acts [AOnTimer] _ _ E0) as [Es Hen1]. destruct (Hen1 Hen) as [Ha _].
  destruct (group_perform_ok true g0 AOnTimer Hi0 Ha) as (g & E & Hi). exists g.
  assert (_isTimeouted g = true) as Ht by (destruct g0; by injection E as <-).
  assert (forall f, at_client g f is_in -> f ∈ ready (_fiberSem g)) as Hr.
  { intros f (p & Hp & Hin). pose proof (perform_client AOnTimer f ltac:(done) g0) as Hcl. cbn [perform] in E, Hcl.
    pose proof (onTimer_ready g0 f Hi0) as H. rewrite E in H, Hcl. cbn [snd] in H, Hcl. apply H. exists p. by rewrite <- Hcl. }
  split_and!; [by rewrite Es; cbn [steps]; rewrite (bind_ok _ _ _ _ _ E)|done|done|].
  intros f i Hf. assert (at_client g f is_in) as Hin by (by eexists). specialize (Hr f Hin).
  apply (gi_parked _ _ Hi) in Hin as [Hst|Hst].
  - exists (AYield f :: [AResume f; AAfter f; ACheck f]). split; [repeat constructor; tauto|].
    pose proof (resumed_returns (snd (perform (AYield f) g)) f i) as H. destruct g. cbn in *.
    destruct H as [H1 H2]; try done; [by unfold YieldToHold; rewrite state_of_insert, decide_True|].
    split; [split; [by split; [eexists|]|done]|done].
  - exists [AResume f; AAfter f; ACheck f]. split; [repeat constructor; tauto|]. by apply (resumed_returns g f i).
Qed.

End group.
#[local] Abbreviation here := (fun _ : nat => true).

(** A run on concrete lists: every step is enabled. *)
Ltac enabled_run := repeat match goal with |- all_enabled _ _ (_ :: _) _ => split end; cbn [enabled];
  repeat match goal with
  | |- _ /\ _ => split
  | |- at_client _ _ _ => eexists; split; [vm_compute; reflexivity|exact I || reflexivity]
  end; first [done | by_computation].


Lemma bulk_schedule_deadlock_witness : exists g todo got,
  steps here ([] ++ ASchedule_all 0 [7; 8]%nat :: [AWait 0; AAfter 0; AWait 0; AYield 0]) (new 1 1 false) = (Ok tt, g) /\
    got ++ todo = [7; 8]%nat /\ todo <> [] /\
    (clients g !! 0%nat = Some (Before (Many todo got)) \/ clients g !! 0%nat = Some (In (Many todo got)) \/
     clients g !! 0%nat = Some (After (Many todo got))).
Proof.
  apply (bulk_schedule_deadlock here 1 1 0 [7; 8]%nat [] [AWait 0; AAfter 0; AWait 0; AYield 0]);
    [reflexivity|apply Nat.ltb_lt; reflexivity|]. cbn [app]. enabled_run.
Defined.

Lemma timeout_releases_witness : exists g,
  steps here ([ATimed_Schedule 0 [7%nat]; ACheck 0; AWait 0; AAfter 0; ATimed_WaitAll 1; ACheck 1; AWait 1] ++ [AOnTimer]) (new 1 2 true) = (Ok tt, g) /\
    _isTimeouted g = true /\
    (forall f, at_client g f is_in -> f ∈ ready (_fiberSem g)) /\
    forall f i, clients g !! f = Some (In (TAll i)) -> exists own, Forall (fun a => a = AYield f \/ client_of a = Some f) own /\
      all_enabled here true own g /\ clients (snd (steps here own g)) !! f = Some Idle.
Proof.
  apply (timeout_releases here 1 2 [ATimed_Schedule 0 [7%nat]; ACheck 0; AWait 0; AAfter 0; ATimed_WaitAll 1; ACheck 1; AWait 1]);
    [reflexivity|]. cbn [app]. enabled_run.
Defined.

(** A timeout can be missed.  [TimedWorkGroup::WaitAll] looks at
    [_isTimeouted] and then calls [wait]; when the timer fires in between,
    [notifyAll] finds nobody waiting, and the fiber that goes on to wait is not
    released until some task finishes: without that nothing the program can do
    makes [WaitAll] return, however long the timeout has passed. *)
Theorem timeout_missed : exists acts g,
  all_enabled here true acts (new 1 2 true) /\ steps here acts (new 1 2 true) = (Ok tt, g) /\
  _isTimeouted g = true /\ clients g !! 1%nat = Some (In (TAll 0)) /\
  forall further, all_enabled here true further g -> Forall (fun a => ~ finishes a) further ->
    clients (snd (steps here further g)) !! 1%nat = Some (In (TAll 0)).
Proof.
  set (acts := [ATimed_Schedule 0 [7%nat]; ACheck 0; AWait 0; AAfter 0; ATimed_WaitAll 1; ACheck 1; AOnTimer; AWait 1]).
  assert (all_enabled here true acts (new 1 2 true)) as Hen by (unfold acts; enabled_run).
  destruct (run_ok here 1 2 true acts ltac:(done) Hen) as (g & E & Hi & _).
  exists acts, g. split; [exact Hen|]. split; [exact E|].
  vm_compute in E. injection E as <-. split; [done|]. split; [done|].
  intros further Hf Hn. apply (unwoken_steps here 1 (TAll 0)); try done. split; [done|by intros ?%not_elem_of_nil].
Qed.
End Group.
