(* ===== verification/WorkerManager.v ===== *)
(** worker.cpp: the manager of named groups of schedulers.

    Schedulers are shared pointers, so they live in a store and the groups hold
    their numbers; what a scheduler does is Scheduler.v's matter, here it is made,
    given the empty task that wakes it, and stopped.  The tables are hash maps,
    whose order the program does not fix: what is enumerated comes in the order
    of [map_to_list], or of an argument. *)
From Stdlib Require Import List String.
From stdpp Require Import gmap.
From S2P Require Import Prelude Bytes Strings Http HttpSession.

Module WorkerManager.
#[local] Abbreviation str := (list Z).

Record scheduler := mkScheduler { _name : str; _threads_num : Z; given : nat; stopped : nat }.

Record manager := mkManager {
  _workers : gmap str (list nat);
  _stop : bool;
  s_count : Z;                      (* the static counter of [Get], 32 bits *)
  store : list scheduler
}.

Definition set_workers v '(mkManager _ s c t) := mkManager v s c t.
Definition set_stop v '(mkManager w _ c t) := mkManager w v c t.
Definition set_count v '(mkManager w s _ t) := mkManager w s v t.
Definition set_store v '(mkManager w s c _) := mkManager w s c v.

Definition WorkerManager_new : manager := mkManager ∅ true 0 [].

(** [_workers[name].push_back(sche)] *)
Definition Add_to (name : str) (sche : option nat) : M manager unit :=
  match sche with
  | Some s => modify (fun m => set_workers (<[name := default [] (_workers m !! name) ++ [s]]> (_workers m)) m)
  | None => mret tt
  end.

Definition Add (sche : option nat) : M manager unit :=
  match sche with
  | Some s =>
    m ← get;
    match store m !! s with Some sc => Add_to (_name sc) sche | None => undef UseAfterFree end
  | None => mret tt
  end.

(** [iter->second[i]] on a vector. *)
Definition at_index (v : list nat) (i : nat) : M manager (option nat) :=
  match v !! i with Some s => mret (Some s) | None => undef OutOfBounds end.

Definition Get (name : str) : M manager (option nat) :=
  m ← get;
  match _workers m !! name with
  | Some v =>
    if bool_decide (length v = 1%nat) then at_index v 0
    else
      modify (set_count (u32 (s_count m + 1)));;
      if bool_decide (v = []) then undef DivByZero else at_index v (Z.to_nat (s_count m mod zlen v))
  | None => mret None
  end.

(** atoi: white space, a sign, digits up to the first other character; a number
    that does not fit an int is undefined behaviour. *)
Definition is_space (c : Z) : bool := (c =? 32) || ((9 <=? c) && (c <=? 13)).
Fixpoint drop_space (s : str) : str := match s with c :: s' => if is_space c then drop_space s' else s | [] => [] end.
Fixpoint digits_value (v : Z) (s : str) : Z :=
  match s with c :: s' => if is_digit c then digits_value (v * 10 + (c - 48)) s' else v | [] => v end.
Definition atoi_value (s : str) : Z :=
  match drop_space s with
  | 45 :: s' => - digits_value 0 s'
  | 43 :: s' => digits_value 0 s'
  | s' => digits_value 0 s'
  end.
Definition atoi (s : str) : M manager Z :=
  if bool_decide (- 2 ^ 31 <= atoi_value s < 2 ^ 31) then mret (atoi_value s) else undef SignedOverflow.

(** XX(map, key, default_val) *)
Definition conf_int (map : gmap str str) (key : str) (default_val : Z) : M manager Z :=
  match map !! key with Some v => atoi v | None => mret default_val end.

(** [std::make_shared<IOManager>(thread_num, false, name)] *)
Definition new_IOManager (thread_num : Z) (name : str) : M manager nat :=
  assert (0 <? thread_num);;
  m ← get;
  modify (set_store (store m ++ [mkScheduler name thread_num 0 0]));;
  mret (length (store m)).

Definition worker_name (name : str) (i : nat) : str :=
  match i with 0%nat => name | _ => name ++ lit "-" ++ dec (Z.of_nat i) end.

(** The loop over [worker_num]. *)
Fixpoint make_workers (name : str) (thread_num : Z) (i n : nat) : M manager unit :=
  match n with
  | 0%nat => mret tt
  | S n =>
    sche ← new_IOManager thread_num (worker_name name i);
    Add_to name (Some sche);;
    make_workers name thread_num (S i) n
  end.

Fixpoint make_groups (workers : list (str * gmap str str)) : M manager unit :=
  match workers with
  | [] => mret tt
  | (name, conf) :: workers =>
    worker_num ← conf_int conf (lit "worker_num") 1;
    thread_num ← conf_int conf (lit "thread_num") 1;
    make_workers name thread_num 0 (Z.to_nat worker_num);;
    make_groups workers
  end.

Definition Init (workers : list (str * gmap str str)) : M manager bool :=
  make_groups workers;;
  modify (fun m => set_stop (bool_decide (_workers m = ∅)) m);;
  mret true.

Definition stop_one (s : scheduler) : scheduler :=
  mkScheduler (_name s) (_threads_num s) (S (given s)) (S (stopped s)).

Definition members (m : manager) : list nat := concat (map snd (map_to_list (_workers m))).

Definition Stop : M manager unit :=
  m ← get;
  if _stop m then mret tt
  else
    modify (set_store (foldl (fun t s => alter stop_one s t) (store m) (members m)));;
    modify (set_stop true);; modify (set_workers ∅).

Definition GetCount : M manager Z :=
  m ← get; mret (foldl (fun count v => u32 (count + zlen v)) 0 (map snd (map_to_list (_workers m)))).

(** ** The groups *)
Definition set_group (name : str) (v : list nat) (m : manager) : manager := set_workers (<[name := v]> (_workers m)) m.

Lemma members_push w name s : concat (map snd (map_to_list (<[name := default [] (w !! name) ++ [s]]> w))) ≡ₚ s :: concat (map snd (map_to_list (w : gmap str (list nat)))).
Proof.
  destruct (w !! name) as [v|] eqn:E; cbn.
  - rewrite <- (insert_delete_id w name v E) at 2. rewrite <- insert_delete_eq.
    rewrite !map_to_list_insert by apply lookup_delete_eq. cbn. rewrite <- app_assoc. cbn.
    symmetry. apply Permutation_middle.
  - by rewrite map_to_list_insert.
Qed.

(** Every scheduler of the store is in one group, once. *)
Definition owned (m : manager) : Prop := members m ≡ₚ seq 0 (length (store m)).

Lemma make_worker_ok m name t wn : owned m -> 0 < t ->
  (new_IOManager t wn ≫= fun sche => Add_to name (Some sche)) m =
    (Ok tt, set_group name (default [] (_workers m !! name) ++ [length (store m)]) (set_store (store m ++ [mkScheduler wn t 0 0]) m)) /\
  owned (set_group name (default [] (_workers m !! name) ++ [length (store m)]) (set_store (store m ++ [mkScheduler wn t 0 0]) m)).
Proof.
  intros Ho Ht. unfold new_IOManager, Add_to, assert, mbind, M_bind, get, modify. rewrite (proj2 (Z.ltb_lt 0 t) Ht). destruct m as [w st c sto].
  split; [done|]. unfold owned, members in *. cbn in *. rewrite members_push, Ho, length_app, seq_app. cbn.
  by rewrite Permutation_app_comm.
Qed.

Lemma foldl_stop (ids : list nat) : forall (t : list scheduler) (s : nat), NoDup ids -> foldl (fun t s => alter stop_one s t) t ids !! s = (if bool_decide (s ∈ ids) then stop_one else id) <$> t !! s.
Proof.
  induction ids as [|i ids IH]; intros t s Hn; cbn.
  - by rewrite option_fmap_id.
  - apply list.NoDup_cons in Hn as [Hi Hn]. rewrite (IH _ _ Hn). destruct (decide (s = i)) as [->|Hs].
    + rewrite list_lookup_alter_eq, bool_decide_eq_false_2, bool_decide_eq_true_2 by (done || by left). by rewrite option_fmap_id.
    + rewrite list_lookup_alter_ne by done. by rewrite (bool_decide_ext (s ∈ ids) (s ∈ i :: ids)) by set_solver.
Qed.

Lemma make_workers_ok name t n : forall i m, owned m -> 0 < t -> exists m', make_workers name t i n m = (Ok tt, m') /\ owned m' /\
  store m' = store m ++ map (fun j => mkScheduler (worker_name name j) t 0 0) (seq i n) /\
  _workers m' = (if bool_decide (n = 0%nat) then _workers m
                 else <[name := default [] (_workers m !! name) ++ seq (length (store m)) n]> (_workers m)).
Proof.
  induction n as [|n IH]; intros i m Ho Ht; [exists m; split_and!; [done..| |done]; by rewrite app_nil_r|].
  destruct (make_worker_ok m name t (worker_name name i) Ho Ht) as [E Ho1].
  destruct (IH (S i) _ Ho1 Ht) as (m' & E' & Ho' & Hst & Hw). exists m'. cbn [make_workers].
  rewrite <- bind_assoc, (bind_ok _ _ _ _ _ E). split_and!; [done|done| |]; clear -Hst Hw; destruct m as [w st c sto].
  - rewrite Hst. cbn. by rewrite <- app_assoc.
  - rewrite Hw. cbn. case_bool_decide; [by subst n|]. rewrite lookup_insert_eq, insert_insert_eq, length_app. cbn.
    by rewrite <- app_assoc, Nat.add_comm.
Qed.

(** What the configuration says of a group. *)
Definition setting (conf : gmap str str) (key : str) : Z := from_option atoi_value 1 (conf !! key).
Definition valid (conf : gmap str str) : Prop :=
  - 2 ^ 31 <= setting conf (lit "worker_num") < 2 ^ 31 /\ 0 < setting conf (lit "thread_num") < 2 ^ 31.

Definition configured (m : manager) (name : str) (conf : gmap str str) : Prop :=
  exists v, zlen v = Z.max 0 (setting conf (lit "worker_num")) /\
    _workers m !! name = (if bool_decide (v = []) then None else Some v) /\
    forall i s, v !! i = Some s -> store m !! s =
      Some (mkScheduler (match i with 0%nat => name | _ => name ++ lit "-" ++ dec (Z.of_nat i) end) (setting conf (lit "thread_num")) 0 0).

Lemma conf_int_ok conf key m : - 2 ^ 31 <= setting conf key < 2 ^ 31 -> conf_int conf key 1 m = (Ok (setting conf key), m).
Proof.
  intros H. unfold conf_int, setting in *. destruct (conf !! key); [|done]. cbn in *. unfold atoi.
  by rewrite bool_decide_eq_true_2.
Qed.

Definition untouched (sc : scheduler) : Prop := given sc = 0%nat /\ stopped sc = 0%nat.

Lemma make_groups_ok confs : forall m, owned m -> NoDup (map fst confs) -> Forall (fun c => valid (snd c)) confs ->
  (forall c, c ∈ confs -> _workers m !! fst c = None) ->
  exists m', make_groups confs m = (Ok tt, m') /\ owned m' /\
    (forall name, name ∉ map fst confs -> _workers m' !! name = _workers m !! name) /\
    (forall s sc, store m !! s = Some sc -> store m' !! s = Some sc) /\
    (Forall untouched (store m) -> Forall untouched (store m')) /\
    (forall name conf, (name, conf) ∈ confs -> configured m' name conf).
Proof.
  induction confs as [|[name conf] confs IH]; intros m Ho Hn Hv Hfresh.
  { exists m. split_and!; try done. by intros ?? ?%not_elem_of_nil. }
  cbn [map fst] in Hn. apply list.NoDup_cons in Hn as [Hni Hn]. apply list.Forall_cons in Hv as [[Hw Ht] Hv]. cbn [snd] in Hw, Ht.
  set (n := Z.to_nat (setting conf (lit "worker_num"))).
  destruct (make_workers_ok name (setting conf (lit "thread_num")) n 0 m Ho (proj1 Ht)) as (m1 & E1 & Ho1 & Hs1 & Hw1).
  destruct (IH m1 Ho1 Hn Hv) as (m' & E & Ho' & Hother & Hst & Hfo & Hconf).
  { intros c Hc. rewrite Hw1. case_bool_decide; [apply Hfresh; by right|]. rewrite lookup_insert_ne; [apply Hfresh; by right|].
    intros ->. apply Hni. apply list_elem_of_In, in_map, list_elem_of_In, Hc. }
  assert (_workers m !! name = None) as Hnone by (apply (Hfresh (name, conf)); by left).
  exists m'. cbn [make_groups].
  rewrite (bind_ok _ _ _ _ _ (conf_int_ok conf (lit "worker_num") m Hw)), (bind_ok _ _ _ _ _ (conf_int_ok conf (lit "thread_num") m ltac:(lia))), (bind_ok _ _ _ _ _ E1).
  split_and!; [done|done| | | |].
  - intros x Hx. rewrite Hother by set_solver. rewrite Hw1. case_bool_decide; [done|]. rewrite lookup_insert_ne; [done|set_solver].
  - intros s sc Hsc. apply Hst. rewrite Hs1. by apply lookup_app_l_Some.
  - intros Hf. apply Hfo. rewrite Hs1. apply Forall_app. split; [done|]. apply list.Forall_forall. intros sc (j & <- & _)%list_elem_of_In%in_map_iff. done.
  - intros x c [[= -> ->]|Hx]%elem_of_cons; [|by apply Hconf]. exists (seq (length (store m)) n).
    rewrite length_seq. split; [lia|]. split.
    + rewrite Hother by done. rewrite Hw1, Hnone. cbn. destruct n; [done|]. cbn [seq]. rewrite !bool_decide_eq_false_2 by done.
      by rewrite lookup_insert_eq.
    + intros i s Hs. apply lookup_seq in Hs as [-> Hi]. apply Hst. rewrite Hs1, lookup_app_r by lia.
      rewrite Nat.add_comm, Nat.add_sub. rewrite list_lookup_fmap, lookup_seq_lt by done. done.
Qed.

(** The life of the manager.  From a configuration that gives every name
    numbers an int can hold and at least one thread, [Init] makes for each name a
    group of [worker_num] schedulers (none for a number below one, one where the
    key is missing), named after the group and numbered from the second on, each
    with [thread_num] threads; [Stop] then gives every scheduler ever made one
    empty task and stops it, once, and leaves no group. *)
Theorem Init_Stop (confs : list (str * gmap str str)) :
  NoDup (map fst confs) -> Forall (fun c => valid (snd c)) confs ->
  exists m m', Init confs WorkerManager_new = (Ok true, m) /\
    (forall name conf, (name, conf) ∈ confs -> configured m name conf) /\
    (forall name, name ∉ map fst confs -> _workers m !! name = None) /\
    Stop m = (Ok tt, m') /\ _workers m' = ∅ /\
    length (store m') = length (store m) /\ Forall (fun sc => given sc = 1%nat /\ stopped sc = 1%nat) (store m').
Proof.
  intros Hn Hv. assert (owned WorkerManager_new) as Ho0 by (unfold owned, members; cbn; by rewrite map_to_list_empty).
  destruct (make_groups_ok confs WorkerManager_new Ho0 Hn Hv ltac:(done)) as (m & E & Ho & Hother & _ & Hf & Hc).
  specialize (Hf (Forall_nil_2 _)).
  exists (set_stop (bool_decide (_workers m = ∅)) m), (snd (Stop (set_stop (bool_decide (_workers m = ∅)) m))).
  split; [unfold Init; by rewrite (bind_ok _ _ _ _ _ E)|].
  split; [intros name conf H%Hc; by destruct m|]. split; [intros name H%Hother; by destruct m|].
  unfold owned, members in Ho. destruct m as [w st c t]. unfold Stop, mbind, M_bind, get, modify. cbn in *.
  case_bool_decide as Hw; cbn.
  - subst w. rewrite map_to_list_empty in Ho. cbn in Ho. apply Permutation_nil, (f_equal length) in Ho.
    rewrite length_seq in Ho. destruct t; [|done]. split_and!; done.
  - split_and!; [done|done| |]; unfold members; cbn.
    + generalize (concat (map snd (map_to_list w))). clear. intros ids. revert t. induction ids as [|i ids IH]; intros t; [done|].
      cbn. by rewrite IH, length_alter.
    + apply list.Forall_lookup. intros s sc Hs. rewrite foldl_stop in Hs by (rewrite Ho; apply NoDup_seq).
      destruct (t !! s) as [sc0|] eqn:Es; [|done]. rewrite bool_decide_eq_true_2 in Hs.
      * injection Hs as <-. rewrite list.Forall_lookup in Hf. destruct (Hf _ _ Es) as [H1 H2]. cbn. lia.
      * rewrite Ho. apply elem_of_seq. apply lookup_lt_Some in Es. lia.
Qed.

(** Two groups, the second of two workers with three threads each. *)
Lemma Init_Stop_witness : exists m m',
  Init [(lit "accept", ∅); (lit "io", <[lit "worker_num" := lit "2"]> {[lit "thread_num" := lit " 3x"]})] WorkerManager_new = (Ok true, m) /\
    (forall name conf, (name, conf) ∈ [(lit "accept", ∅); (lit "io", <[lit "worker_num" := lit "2"]> {[lit "thread_num" := lit " 3x"]})] ->
      configured m name conf) /\
    (forall name, name ∉ map fst [(lit "accept", ∅ : gmap str str); (lit "io", <[lit "worker_num" := lit "2"]> {[lit "thread_num" := lit " 3x"]})] ->
      _workers m !! name = None) /\
    Stop m = (Ok tt, m') /\ _workers m' = ∅ /\
    length (store m') = length (store m) /\ Forall (fun sc => given sc = 1%nat /\ stopped sc = 1%nat) (store m').
Proof.
  apply (Init_Stop [(lit "accept", ∅); (lit "io", <[lit "worker_num" := lit "2"]> {[lit "thread_num" := lit " 3x"]})]).
  - by_computation.
  - repeat constructor; vm_compute; done.
Defined.

(** ** Round robin *)
Fixpoint Gets (name : str) (n : nat) : M manager (list (option nat)) :=
  match n with 0%nat => mret [] | S n => s ← Get name; ss ← Gets name n; mret (s :: ss) end.

Lemma Get_ok name m v : _workers m !! name = Some v -> (2 <= length v)%nat -> 0 <= s_count m < 2 ^ 32 ->
  Get name m = (Ok (v !! Z.to_nat (s_count m mod zlen v)), set_count (u32 (s_count m + 1)) m).
Proof.
  intros Hv Hl Hc. unfold Get, mbind, M_bind, get. rewrite Hv, bool_decide_eq_false_2 by lia. unfold modify.
  rewrite bool_decide_eq_false_2 by (intros ->; cbn in Hl; lia). unfold at_index.
  pose proof (Z.mod_pos_bound (s_count m) (zlen v)).
  destruct (lookup_lt_is_Some_2 v (Z.to_nat (s_count m mod zlen v))) as [s ->]; [lia|done].
Qed.

Lemma Gets_ok name v n : (2 <= length v)%nat -> forall m, _workers m !! name = Some v -> 0 <= s_count m -> s_count m + Z.of_nat n < 2 ^ 32 ->
  fst (Gets name n m) = Ok (map (fun i => v !! Z.to_nat ((s_count m + Z.of_nat i) mod zlen v)) (seq 0 n)).
Proof.
  intros Hl. induction n as [|n IH]; intros m Hv Hc Hn; [done|]. cbn [Gets seq map].
  rewrite (bind_ok _ _ _ _ _ (Get_ok name m v Hv Hl ltac:(lia))).
  specialize (IH (set_count (u32 (s_count m + 1)) m)). destruct m as [w st c t]. cbn in *. unfold mbind, M_bind at 1.
  destruct (Gets name n _) as [r m'] eqn:E. cbn in IH. rewrite (uwrap_id 32) in IH by (unfold in_u; lia).
  rewrite IH by (done || lia). cbn. f_equal. rewrite <- seq_shift, map_map. f_equal; [do 3 f_equal; lia|].
  apply map_ext. intros i. do 3 f_equal. lia.
Qed.

(** [Get] spreads the work.  As many calls in a row as a group has schedulers
    hand out each of them once, from wherever the counter stands, short of its
    wrap-around. *)
Theorem Get_round_robin (name : str) (m : manager) (v : list nat) :
  _workers m !! name = Some v -> (2 <= length v)%nat -> 0 <= s_count m -> s_count m + zlen v < 2 ^ 32 ->
  exists ss, fst (Gets name (length v) m) = Ok (map Some ss) /\ ss ≡ₚ v.
Proof.
  intros Hv Hl Hc Hn. exists (rotate (Z.to_nat (s_count m)) v). rewrite (Gets_ok name v) by done. split.
  - f_equal. apply list_eq. intros i. destruct (decide (i < length v)%nat) as [Hi|Hi].
    + change map with (@fmap list _). rewrite !list_lookup_fmap, lookup_seq_lt by done. cbn. 
      rewrite lookup_rotate_r by done. unfold rotate_nat_add. rewrite Z2Nat.id by done.
      destruct (lookup_lt_is_Some_2 v (Z.to_nat ((s_count m + Z.of_nat i) mod zlen v))) as [x ->]; [|done].
      pose proof (Z.mod_pos_bound (s_count m + Z.of_nat i) (zlen v)). lia.
    + rewrite !lookup_ge_None_2; [done| |]; change map with (@fmap list _); rewrite length_fmap, ?length_rotate, ?length_seq; lia.
  - unfold rotate. rewrite Permutation_app_comm. by rewrite take_drop.
Qed.

Lemma Get_round_robin_witness :
  exists ss, fst (Gets [7] 3 (mkManager {[ [7] := [4; 5; 6]%nat ]} false 11 [])) = Ok (map Some ss) /\ ss ≡ₚ [4; 5; 6]%nat.
Proof.
  apply (Get_round_robin [7] (mkManager {[ [7] := [4; 5; 6]%nat ]} false 11 []) [4; 5; 6]%nat);
    [reflexivity|apply Nat.leb_le; reflexivity|vm_compute; discriminate|reflexivity].
Defined.

(** The calls of a program that uses two groups in turn, and what the first gives. *)
Fixpoint alternate (a b : str) (n : nat) : M manager (list (option nat)) :=
  match n with
  | 0%nat => mret []
  | S n => s ← Get a; Get b;; ss ← alternate a b n; mret (s :: ss)
  end.

(** The counter is one for all the groups, so the spread is lost when groups
    are used in turn: of two groups of two schedulers each, asked for alternately
    as often as one likes, the first always hands out the same one. *)
Theorem Get_starves (a b : str) (m : manager) (x y x' y' : nat) (n : nat) :
  _workers m !! a = Some [x; y] -> _workers m !! b = Some [x'; y'] -> 0 <= s_count m < 2 ^ 32 ->
  exists s, fst (alternate a b n m) = Ok (replicate n (Some s)) /\ (s = x \/ s = y).
Proof.
  intros Ha Hb Hc. exists (if s_count m mod 2 =? 0 then x else y). split; [|destruct (_ =? _); tauto].
  revert m Ha Hb Hc. induction n as [|n IH]; intros m Ha Hb Hc; [done|]. cbn [alternate replicate].
  rewrite (bind_ok _ _ _ _ _ (Get_ok a m _ Ha ltac:(done) Hc)).
  set (m1 := set_count (u32 (s_count m + 1)) m).
  assert (_workers m1 !! b = Some [x'; y']) as Hb1 by by destruct m.
  assert (s_count m1 = u32 (s_count m + 1)) as Ec1 by by destruct m.
  pose proof (uwrap_range 32 (s_count m + 1) ltac:(done)) as H1. unfold in_u in H1.
  rewrite (bind_ok _ _ _ _ _ (Get_ok b m1 _ Hb1 ltac:(done) ltac:(lia))).
  set (m2 := set_count (u32 (s_count m1 + 1)) m1).
  assert (s_count m2 = u32 (s_count m + 2)) as Ec2.
  { destruct m. subst m2 m1. cbn. unfold uwrap. rewrite Zplus_mod_idemp_l. f_equal. lia. }
  pose proof (uwrap_range 32 (s_count m + 2) ltac:(done)) as H2. unfold in_u in H2.
  assert (s_count m2 mod 2 = s_count m mod 2) as Eev by (rewrite Ec2; unfold uwrap; Z.div_mod_to_equations; lia).
  specialize (IH m2 ltac:(by destruct m) ltac:(by destruct m) ltac:(lia)).
  unfold mbind, M_bind at 1. destruct (alternate a b n m2) as [r m3]. cbn in IH |- *. rewrite IH, Eev. cbn. do 2 f_equal.
  change (Z.of_nat 2) with 2. pose proof (Z.mod_pos_bound (s_count m) 2 ltac:(done)) as Hm.
  destruct (Z.eqb_spec (s_count m mod 2) 0) as [->|]; [done|]. by replace (s_count m mod 2) with 1 by lia.
Qed.

Lemma Get_starves_witness : exists s,
  fst (alternate [7] [8] 5 (mkManager (<[ [8] := [6; 7]%nat ]> {[ [7] := [4; 5]%nat ]}) false 0 [])) = Ok (replicate 5 (Some s)) /\ (s = 4%nat \/ s = 5%nat).
Proof.
  apply (Get_starves [7] [8] (mkManager (<[ [8] := [6; 7]%nat ]> {[ [7] := [4; 5]%nat ]}) false 0 []) 4 5 6 7 5);
    [reflexivity|reflexivity|split; [discriminate|reflexivity]].
Defined.

(** A scheduler that was added by hand is not stopped: [_stop] starts out true and
    only [Init] clears it. *)
Example added_not_stopped :
  let m := mkManager ∅ true 0 [mkScheduler [7] 1 0 0] in
  (Add (Some 0%nat);; Stop) m = (Ok tt, mkManager {[ [7] := [0%nat] ]} true 0 [mkScheduler [7] 1 0 0]).
Proof. done. Qed.
End WorkerManager.
