(* ===== verification/Log.v ===== *)
(** log.cpp: levels, the pattern language of the formatter, loggers with their
    sinkers, and the listener that applies a configuration.

    A pattern is parsed once, by the constructor, into the items that print the
    parts of an event.  Time as text is the C library's, so [strftime] is a
    parameter: what it makes of a pattern and a time in the local zone.
    Characters are bytes, and [isalpha] is that of the C locale. *)
From Stdlib Require Import List String.
From stdpp Require Import gmap.
From S2P Require Import Prelude Bytes Strings Http.

#[local] Abbreviation str := (list Z).

(** ** Levels and events *)
Inductive Level := UNKNOW | DEBUG | INFO | WARN | ERROR | FATAL.
Definition level_value (l : Level) : Z :=
  match l with UNKNOW => 0 | DEBUG => 1 | INFO => 2 | WARN => 3 | ERROR => 4 | FATAL => 5 end.

Definition Level_ToString (l : Level) : str :=
  match l with
  | INFO => lit "INFO" | DEBUG => lit "DEBUG" | WARN => lit "WARN" | ERROR => lit "ERROR" | FATAL => lit "FATAL"
  | _ => lit "UNKNOW"
  end.

Definition level_names : list (str * Level) :=
  [(lit "info", INFO); (lit "debug", DEBUG); (lit "warn", WARN); (lit "error", ERROR); (lit "fatal", FATAL); (lit "unknow", UNKNOW);
   (lit "INFO", INFO); (lit "DEBUG", DEBUG); (lit "WARN", WARN); (lit "ERROR", ERROR); (lit "FATAL", FATAL); (lit "UNKNOW", UNKNOW)].
Definition Level_ToLevel (s : str) : Level :=
  match filter (fun e => e.1 = s) level_names with e :: _ => e.2 | [] => UNKNOW end.

(** [_logger_name] is the name of the logger the event was made for. *)
Record LogEvent := mkLogEvent {
  _logger_name : str; _level : Level; _file : str; _line : Z; _elapse : Z;
  _thread_id : Z; _fiber_id : Z; _time : Z; _thread_name : str; _ss : str
}.

(** ** The formatter *)
Inductive FormatterItem :=
  | MessageFormatterItem | LevelFormatterItem | ElapseFormatterItem | LoggerNameFormatterItem
  | ThreadIdFormatterItem | FiberIdFormatterItem | ThreadNameFormatterItem
  | DateTimeFormatterItem (_date_time_pattern : str)
  | FileNameFormatterItem | LineFormatterItem | NewLineFormatterItem
  | StringFormatterItem (_string : str)
  | TabFormatterItem.

Record Formatter := mkFormatter { _formatter_str : str; _items : list FormatterItem; _b_error : bool }.

Definition item_map : list (str * (str -> FormatterItem)) :=
  [(lit "m", fun _ => MessageFormatterItem); (lit "p", fun _ => LevelFormatterItem); (lit "r", fun _ => ElapseFormatterItem);
   (lit "c", fun _ => LoggerNameFormatterItem); (lit "t", fun _ => ThreadIdFormatterItem); (lit "n", fun _ => NewLineFormatterItem);
   (lit "d", DateTimeFormatterItem); (lit "f", fun _ => FileNameFormatterItem); (lit "l", fun _ => LineFormatterItem);
   (lit "T", fun _ => TabFormatterItem); (lit "F", fun _ => FiberIdFormatterItem); (lit "N", fun _ => ThreadNameFormatterItem)].

Definition item_find (name : str) : option (str -> FormatterItem) :=
  match filter (fun e => e.1 = name) item_map with e :: _ => Some e.2 | [] => None end.

(** *** Parsing *)
Definition isalpha (c : Z) : bool := ((65 <=? c) && (c <=? 90)) || ((97 <=? c) && (c <=? 122)).
Definition char_at (p : str) (i : nat) : Z := nth i p 0.
Definition substr (p : str) (i n : nat) : str := take n (drop i p).

Record scanned := mkScanned { sc_n : nat; fmt_status : bool; sc_str : str; sc_fmt : str }.

(** The inner loop, from the character behind the '%' at [i]. *)
Fixpoint scan_item (fuel : nat) (p : str) (i n : nat) (status : bool) (fmt_begin : nat) (s : str) : option scanned :=
  match fuel with
  | O => None
  | S fuel =>
    if (n <? length p)%nat then
      let c := char_at p n in
      let advance status :=
        let n := S n in
        scan_item fuel p i n status fmt_begin
          (if (n =? length p)%nat && bool_decide (s = []) then drop (S i) p else s) in
      if negb status && (negb (isalpha c) && negb (c =? 123) && negb (c =? 125)) then
        Some (mkScanned n status (substr p (S i) (n - i - 1)) [])
      else if negb status then
        if c =? 123 then scan_item fuel p i (S n) true n (substr p (S i) (n - i - 1)) else advance status
      else if c =? 125 then Some (mkScanned (S n) false s (substr p (S fmt_begin) (n - fmt_begin - 1)))
      else advance status
    else Some (mkScanned n status s [])
  end.

(** The tuples of [vec]: text, pattern, whether it is an item. *)
Abbreviation tuple := (str * str * bool)%type.

Definition flush (nstr : str) (vec : list tuple) : list tuple :=
  if bool_decide (nstr = []) then vec else vec ++ [(nstr, [], false)].

Fixpoint parse_loop (fuel : nat) (p : str) (i : nat) (nstr : str) (vec : list tuple) (err : bool) : option (list tuple * bool) :=
  match fuel with
  | O => None
  | S fuel =>
    if (i <? length p)%nat then
      if negb (char_at p i =? 37) then parse_loop fuel p (S i) (nstr ++ [char_at p i]) vec err
      else if (S i <? length p)%nat && (char_at p (S i) =? 37) then parse_loop fuel p (S i) (nstr ++ [37]) vec err
      else
        match scan_item (S (length p)) p i (S i) false 0 [] with
        | None => None
        | Some r =>
          if negb (fmt_status r) then
            parse_loop fuel p (S (sc_n r - 1)) [] (flush nstr vec ++ [(sc_str r, sc_fmt r, true)]) err
          else parse_loop fuel p (S i) nstr (vec ++ [(lit "<<pattern_error>>", sc_fmt r, false)]) true
        end
    else Some (flush nstr vec, err)
  end.

(** The loop over [vec]. *)
Definition make_item (t : tuple) : FormatterItem * bool :=
  let '(s, fmt, item) := t in
  if negb item then (StringFormatterItem s, false)
  else match item_find s with
    | Some mk => (mk fmt, false)
    | None => (StringFormatterItem (lit "<<error_format %" ++ s ++ lit " >>"), true)
    end.

(** Formatter::Formatter with init *)
Definition Formatter_new (fmt_str : str) : option Formatter :=
  match parse_loop (S (length fmt_str)) fmt_str 0 [] [] false with
  | Some (vec, err) =>
    let made := map make_item vec in
    Some (mkFormatter fmt_str (map fst made) (err || existsb snd made))
  | None => None
  end.

Definition default_pattern : str := lit "%d{%Y-%m-%d %H:%M:%S}%T%t%T%N%T%F%T[%p]%T[%c]%T%f:%l%T%m%n".

Section output.
Context (strftime : str -> Z -> str).

(** *** Output, onto a stream *)
Definition osm (s : str) : M str unit := modify (fun out => out ++ s).

(** The text of a time goes through a buffer of 64 bytes, which strftime leaves
    alone when the text does not fit. *)
Definition format_item (lv : Level) (ev : LogEvent) (it : FormatterItem) : M str unit :=
  match it with
  | MessageFormatterItem => osm (_ss ev)
  | LevelFormatterItem => osm (Level_ToString lv)
  | ElapseFormatterItem => osm (dec (_elapse ev))
  | LoggerNameFormatterItem => osm (_logger_name ev)
  | ThreadIdFormatterItem => osm (dec (_thread_id ev))
  | FiberIdFormatterItem => osm (dec (_fiber_id ev))
  | ThreadNameFormatterItem => osm (_thread_name ev)
  | DateTimeFormatterItem pattern =>
    let text := strftime (cstr pattern) (s64 (_time ev)) in
    if zlen text <? 64 then osm text else undef Uninit
  | FileNameFormatterItem => osm (_file ev)
  | LineFormatterItem => osm (dec (_line ev))
  | NewLineFormatterItem => osm [10]
  | StringFormatterItem s => osm s
  | TabFormatterItem => osm [9]
  end.

Fixpoint format_items (lv : Level) (ev : LogEvent) (its : list FormatterItem) : M str unit :=
  match its with [] => mret tt | it :: its => format_item lv ev it;; format_items lv ev its end.

Definition format (f : Formatter) (lv : Level) (ev : LogEvent) : M str unit := format_items lv ev (_items f).
End output.

(** ** What a pattern means *)
(** A pattern is made of plain text and items; an item has a name and may have a
    pattern of its own in braces. *)
Inductive piece := Text (s : str) | Item (name : str) (fmt : option str).

Definition render_piece (x : piece) : str :=
  match x with
  | Text s => s
  | Item name None => 37 :: name
  | Item name (Some fmt) => 37 :: name ++ 123 :: fmt ++ [125]
  end.
Definition render (ps : list piece) : str := concat (map render_piece ps).

(** What ends a name without braces. *)
Definition stops (s : str) : bool :=
  match s with [] => true | c :: _ => negb (isalpha c) && negb (c =? 123) && negb (c =? 125) end.

Fixpoint well_formed (ps : list piece) : Prop :=
  match ps with
  | [] => True
  | Text s :: ps => 37 ∉ s /\ well_formed ps
  | Item name fmt :: ps =>
    name <> [] /\ forallb isalpha name = true /\
    match fmt with Some fmt => 125 ∉ fmt | None => stops (render ps) = true end /\ well_formed ps
  end.

(** *** The parser on the rest of a pattern *)
Lemma drop_char (p : str) n c r : drop n p = c :: r ->
  char_at p n = c /\ (n <? length p)%nat = true /\ drop (S n) p = r /\ (S n =? length p)%nat = bool_decide (r = []).
Proof.
  intros H. pose proof (f_equal length H) as Hl. rewrite length_drop in Hl. cbn in Hl.
  assert (drop (S n) p = r) as Hr by (replace (S n) with (n + 1)%nat by lia; rewrite <- drop_drop, H; done).
  split_and!; [|apply Nat.ltb_lt; lia|done|].
  - unfold char_at. rewrite <- (take_drop n p), H. rewrite app_nth2; rewrite length_take; [|lia].
    replace (n - n `min` length p)%nat with 0%nat by lia. done.
  - destruct r; cbn in Hl; [rewrite bool_decide_eq_true_2 by done; apply Nat.eqb_eq; lia|].
    rewrite bool_decide_eq_false_2 by done. apply Nat.eqb_neq. lia.
Qed.

Lemma drop_none (p : str) n : drop n p = [] -> (n <? length p)%nat = false.
Proof. intros H%(f_equal length). rewrite length_drop in H. cbn in H. apply Nat.ltb_ge. lia. Qed.

Lemma isalpha_not c x : isalpha x = false -> isalpha c = true -> (c =? x) = false.
Proof. intros Hx Hc. apply Z.eqb_neq. intros ->. congruence. Qed.

Lemma substr_name (p a b : str) i n : drop (S i) p = a ++ b -> n = length a -> substr p (S i) n = a.
Proof. intros H ->. unfold substr. by rewrite H, take_app_length. Qed.

(** A letter of a name. *)
Lemma scan_letter fuel (p : str) i n c r b s : drop n p = c :: r -> isalpha c = true ->
  scan_item (S fuel) p i n false b s = scan_item fuel p i (S n) false b (if bool_decide (r = []) && bool_decide (s = []) then drop (S i) p else s).
Proof.
  intros H Hc. destruct (drop_char p n c r H) as (E1 & E2 & _ & E4). cbn [scan_item].
  rewrite E1, E2, E4, Hc, (isalpha_not c 123) by done. done.
Qed.

Lemma scan_stop (p : str) i c t name : isalpha c = false -> c <> 123 -> c <> 125 -> forall n fuel, drop n p = name ++ c :: t ->
  forallb isalpha name = true -> (length name < fuel)%nat ->
  scan_item fuel p i n false 0 [] = Some (mkScanned (n + length name) false (substr p (S i) (n + length name - i - 1)) []).
Proof.
  intros Hc H1 H2. induction name as [|x name IH]; intros n fuel Hd Ha Hf; (destruct fuel as [|fuel]; [cbn in Hf; lia|]).
  - cbn [app] in Hd. destruct (drop_char p n c t Hd) as (E1 & E2 & _). cbn [scan_item length].
    rewrite E1, E2, Hc, (proj2 (Z.eqb_neq c 123)), (proj2 (Z.eqb_neq c 125)), Nat.add_0_r by done. done.
  - cbn [forallb app length] in *. apply andb_true_iff in Ha as [Hx Ha]. destruct (drop_char p n x _ Hd) as (_ & _ & E3 & _).
    rewrite (scan_letter _ _ _ _ _ _ _ _ Hd Hx). rewrite bool_decide_eq_false_2 by (by destruct name). cbn [andb].
    rewrite (IH (S n) fuel E3 Ha ltac:(lia)). do 2 f_equal; [|f_equal]; lia.
Qed.

Lemma scan_end (p : str) i name : forall n fuel, drop n p = name -> name <> [] -> drop (S i) p <> [] ->
  forallb isalpha name = true -> (length name < fuel)%nat ->
  scan_item fuel p i n false 0 [] = Some (mkScanned (n + length name) false (drop (S i) p) []).
Proof.
  induction name as [|x name IH]; intros n fuel Hd Hne Hi Ha Hf; [done|]. destruct fuel as [|fuel]; [lia|].
  cbn [forallb length] in *. apply andb_true_iff in Ha as [Hx Ha]. destruct (drop_char p n x _ Hd) as (_ & _ & E3 & _).
  rewrite (scan_letter _ _ _ _ _ _ _ _ Hd Hx). destruct name as [|y name].
  - cbn [bool_decide andb]. destruct fuel as [|fuel]; [cbn in Hf; lia|]. cbn [scan_item]. rewrite (drop_none p (S n) E3).
    do 2 f_equal. cbn. lia.
  - rewrite bool_decide_eq_false_2 by done. cbn [andb]. rewrite (IH (S n) fuel E3 ltac:(done) Hi Ha ltac:(lia)). do 2 f_equal. cbn. lia.
Qed.

Lemma scan_format (p : str) i b s t fmt : 125 ∉ fmt -> forall n fuel, drop n p = fmt ++ 125 :: t -> (length fmt < fuel)%nat ->
  scan_item fuel p i n true b s = Some (mkScanned (S (n + length fmt)) false s (substr p (S b) (n + length fmt - b - 1))).
Proof.
  induction fmt as [|x fmt IH]; intros Hn n fuel Hd Hf; (destruct fuel as [|fuel]; [cbn in Hf; lia|]).
  - cbn [app] in Hd. destruct (drop_char p n _ _ Hd) as (E1 & E2 & _). cbn [scan_item length]. rewrite E1, E2, Nat.add_0_r. done.
  - apply not_elem_of_cons in Hn as [Hx Hn]. cbn [app length] in *. destruct (drop_char p n _ _ Hd) as (E1 & E2 & E3 & E4).
    cbn [scan_item]. rewrite E1, E2, E4, (proj2 (Z.eqb_neq x 125)) by done. rewrite bool_decide_eq_false_2 by (by destruct fmt). cbn [negb andb].
    rewrite (IH Hn (S n) fuel E3 ltac:(lia)). do 2 f_equal; [lia|f_equal; lia].
Qed.

Lemma scan_brace (p : str) i fmt t name : 125 ∉ fmt -> forall n fuel, drop n p = name ++ 123 :: fmt ++ 125 :: t ->
  forallb isalpha name = true -> (length name + S (length fmt) < fuel)%nat ->
  scan_item fuel p i n false 0 [] =
    Some (mkScanned (n + length name + length fmt + 2) false (substr p (S i) (n + length name - i - 1)) fmt).
Proof.
  intros Hn. induction name as [|x name IH]; intros n fuel Hd Ha Hf; (destruct fuel as [|fuel]; [cbn in Hf; lia|]).
  - cbn [app] in Hd. destruct (drop_char p n _ _ Hd) as (E1 & E2 & E3 & _). cbn [scan_item length]. rewrite E1, E2. cbn [negb andb].
    change (isalpha 123) with false. cbn [negb andb Z.eqb]. rewrite (scan_format p i n _ t fmt Hn (S n) fuel E3) by (cbn in Hf; lia).
    rewrite (substr_name p fmt (125 :: t) n); [|done|lia]. do 2 f_equal; [lia|f_equal; lia].
  - cbn [forallb app length] in *. apply andb_true_iff in Ha as [Hx Ha]. destruct (drop_char p n x _ Hd) as (_ & _ & E3 & _).
    rewrite (scan_letter _ _ _ _ _ _ _ _ Hd Hx). rewrite bool_decide_eq_false_2 by (by destruct name). cbn [andb].
    rewrite (IH (S n) fuel E3 Ha ltac:(lia)). do 2 f_equal; [lia|f_equal; lia].
Qed.

Lemma parse_text (p : str) s : forall i fuel nstr vec err rest, drop i p = s ++ rest -> 37 ∉ s ->
  parse_loop (length s + fuel) p i nstr vec err = parse_loop fuel p (i + length s) (nstr ++ s) vec err.
Proof.
  induction s as [|c s IH]; intros i fuel nstr vec err rest Hd Hn; cbn [length Nat.add].
  - by rewrite Nat.add_0_r, app_nil_r.
  - apply not_elem_of_cons in Hn as [Hc Hn]. cbn [app] in Hd. destruct (drop_char p i _ _ Hd) as (E1 & E2 & E3 & _).
    cbn [parse_loop]. rewrite E1, E2, (proj2 (Z.eqb_neq c 37)) by done. cbn [negb].
    rewrite (IH (S i) fuel _ _ _ rest E3 Hn), <- app_assoc. f_equal. lia.
Qed.

Definition item_ok (name : str) (fmt : option str) (rest : str) : Prop :=
  name <> [] /\ forallb isalpha name = true /\ match fmt with Some fmt => 125 ∉ fmt | None => stops rest = true end.

Lemma stops_cons c s : stops (c :: s) = true -> isalpha c = false /\ c <> 123 /\ c <> 125.
Proof. unfold stops. rewrite !andb_true_iff, !negb_true_iff, !Z.eqb_neq. tauto. Qed.

(** What the inner loop finds for an item. *)
Lemma scan_piece (p : str) i name fmt rest : drop i p = render_piece (Item name fmt) ++ rest -> item_ok name fmt rest ->
  scan_item (S (length p)) p i (S i) false 0 [] =
    Some (mkScanned (i + length (render_piece (Item name fmt))) false name (default [] fmt)).
Proof.
  intros Hd (Hne & Ha & Hf). pose proof (f_equal length Hd) as Hl. rewrite length_drop, length_app in Hl.
  destruct fmt as [fmt|]; cbn [render_piece] in *.
  - assert (drop (S i) p = name ++ 123 :: fmt ++ 125 :: rest) as Hd'.
    { cbn [app] in Hd. destruct (drop_char p i _ _ Hd) as (_ & _ & -> & _). rewrite <- app_assoc. cbn. by rewrite <- app_assoc. }
    cbn [length] in Hl |- *. rewrite length_app in Hl |- *. cbn [length] in Hl |- *. rewrite length_app in Hl |- *. cbn [length] in Hl |- *.
    rewrite (scan_brace p i fmt rest name Hf (S i) _ Hd' Ha) by lia. cbn [default from_option].
    rewrite (substr_name p name (123 :: fmt ++ 125 :: rest)) by (done || lia). do 2 f_equal. lia.
  - assert (drop (S i) p = name ++ rest) as Hd' by (cbn [app] in Hd; destruct (drop_char p i _ _ Hd) as (_ & _ & -> & _); done).
    cbn [length] in Hl |- *. destruct rest as [|c t].
    + rewrite app_nil_r in Hd'. rewrite (scan_end p i name (S i) _ Hd' Hne) by (done || lia || by rewrite Hd'). rewrite Hd'.
      do 2 f_equal. lia.
    + destruct (stops_cons c t Hf) as (Hc & H1 & H2). rewrite (scan_stop p i c t name Hc H1 H2 (S i) _ Hd' Ha) by lia.
      rewrite (substr_name p name (c :: t)) by (done || lia). do 2 f_equal. lia.
Qed.

Lemma parse_item (p : str) i fuel nstr vec err name fmt rest :
  drop i p = render_piece (Item name fmt) ++ rest -> item_ok name fmt rest ->
  parse_loop (S fuel) p i nstr vec err =
    parse_loop fuel p (i + length (render_piece (Item name fmt))) [] (flush nstr vec ++ [(name, default [] fmt, true)]) err.
Proof.
  intros Hd Hok. pose proof (scan_piece p i name fmt rest Hd Hok) as Hs. destruct Hok as (Hne & Ha & _).
  assert (exists r, drop i p = 37 :: r /\ drop (S i) p = r) as (r & E & Er).
  { destruct fmt; cbn [render_piece app] in Hd; destruct (drop_char p i _ _ Hd) as (_ & _ & E & _); eexists; by split. }
  destruct (drop_char p i _ _ E) as (E1 & E2 & _).
  assert ((S i <? length p)%nat && (char_at p (S i) =? 37) = false) as Epp.
  { destruct name as [|c name]; [done|]. cbn [forallb] in Ha. apply andb_true_iff in Ha as [Hc _].
    assert (exists r', drop (S i) p = c :: r') as (r' & E').
    { rewrite Er. destruct fmt; cbn [render_piece app] in Hd; rewrite E in Hd; injection Hd as ->; by eexists. }
    destruct (drop_char p (S i) _ _ E') as (-> & _). rewrite (isalpha_not c 37) by done. apply andb_false_r. }
  cbn [parse_loop]. rewrite E1, E2, Epp. cbn [negb Z.eqb]. change (37 =? 37) with true. cbn [negb].
  rewrite Hs. cbn [fmt_status sc_n sc_str sc_fmt negb]. f_equal. destruct fmt; cbn [render_piece length]; lia.
Qed.

(** The tuples of a pattern: runs of text, and items. *)
Fixpoint tuples (nstr : str) (ps : list piece) : list tuple :=
  match ps with
  | [] => flush nstr []
  | Text s :: ps => tuples (nstr ++ s) ps
  | Item name fmt :: ps => flush nstr [] ++ (name, default [] fmt, true) :: tuples [] ps
  end.

Lemma flush_app nstr vec : flush nstr vec = vec ++ flush nstr [].
Proof. unfold flush. case_bool_decide; [by rewrite app_nil_r|done]. Qed.

Lemma parse_pieces (p : str) ps : forall i fuel nstr vec err, drop i p = render ps -> well_formed ps -> (length (render ps) < fuel)%nat ->
  parse_loop fuel p i nstr vec err = Some (vec ++ tuples nstr ps, err).
Proof.
  induction ps as [|[s|name fmt] ps IH]; intros i fuel nstr vec err Hd Hw Hf; cbn [tuples well_formed] in *.
  - destruct fuel as [|fuel]; [cbn in Hf; lia|]. cbn [parse_loop]. rewrite (drop_none p i Hd). by rewrite flush_app.
  - unfold render in Hd, Hf. cbn [map concat render_piece] in Hd, Hf. fold (render ps) in Hd, Hf. destruct Hw as [Hn Hw].
    rewrite length_app in Hf. replace fuel with (length s + (fuel - length s))%nat by lia.
    rewrite (parse_text p s i _ _ _ _ (render ps) Hd Hn). apply IH; [|done|lia].
    rewrite <- drop_drop, Hd. apply drop_app_length.
  - unfold render in Hd, Hf. cbn [map concat] in Hd, Hf. fold (render ps) in Hd, Hf.
    assert (item_ok name fmt (render ps)) as Hok by (destruct Hw as (? & ? & ? & ?); by split_and!).
    rewrite length_app in Hf. destruct fuel as [|fuel]; [lia|].
    rewrite (parse_item p i fuel nstr vec err name fmt (render ps) Hd Hok). rewrite IH.
    + by rewrite (flush_app nstr vec), <- !app_assoc.
    + rewrite <- drop_drop, Hd. apply drop_app_length.
    + tauto.
    + assert (0 < length (render_piece (Item name fmt)))%nat by (destruct fmt; cbn; lia). lia.
Qed.

(** *** What an item prints *)
Section meaning.
Context (strftime : str -> Z -> str) (lv : Level) (ev : LogEvent).

Definition expansions (fmt : str) : list (str * str) :=
  [(lit "m", _ss ev); (lit "p", Level_ToString lv); (lit "r", dec (_elapse ev)); (lit "c", _logger_name ev);
   (lit "t", dec (_thread_id ev)); (lit "n", [10]); (lit "d", strftime (cstr fmt) (s64 (_time ev))); (lit "f", _file ev);
   (lit "l", dec (_line ev)); (lit "T", [9]); (lit "F", dec (_fiber_id ev)); (lit "N", _thread_name ev)].

Definition expand (x : piece) : str :=
  match x with
  | Text s => s
  | Item name fmt =>
    match filter (fun e => e.1 = name) (expansions (default [] fmt)) with
    | e :: _ => e.2
    | [] => lit "<<error_format %" ++ name ++ lit " >>"
    end
  end.

Definition names : list str := map fst item_map.
Definition unknown (x : piece) : bool := match x with Text _ => false | Item name _ => bool_decide (name ∉ names) end.

(** The times of a pattern fit the buffer. *)
Definition fits (x : piece) : Prop :=
  match x with Item name fmt => name = lit "d" -> zlen (strftime (cstr (default [] fmt)) (s64 (_time ev))) < 64 | Text _ => True end.

(** The table of the program and the meanings go together, name by name. *)
Lemma tables_agree name fmt out (im : list (str * (str -> FormatterItem))) (ex : list (str * str)) :
  Forall2 (fun a b => a.1 = b.1 /\ (name = a.1 -> format_item strftime lv ev (a.2 fmt) out = (Ok tt, out ++ b.2))) im ex ->
  match filter (fun e => e.1 = name) im with
  | a :: _ => name ∈ map fst im /\ exists b rest, filter (fun e => e.1 = name) ex = b :: rest /\
      format_item strftime lv ev (a.2 fmt) out = (Ok tt, out ++ b.2)
  | [] => name ∉ map fst im /\ filter (fun e => e.1 = name) ex = []
  end.
Proof.
  induction 1 as [|a b im ex [Hab Hf] _ IH]; [split; [by apply not_elem_of_nil|done]|]. rewrite !list.filter_cons, Hab.
  case_decide as Hn; cbn [map].
  - split; [rewrite <- Hn, <- Hab; by left|]. eexists _, _. split; [done|]. apply Hf. congruence.
  - destruct (filter _ im) as [|a' rest]; [|destruct IH as [Hin (b' & r' & E & Hf')]; split; [by right|by eexists _, _]].
    destruct IH as [Hnot ->]. split; [|done]. apply not_elem_of_cons. split; [congruence|done].
Qed.

Lemma format_made name fmt out : fits (Item name fmt) ->
  format_item strftime lv ev (make_item (name, default [] fmt, true)).1 out = (Ok tt, out ++ expand (Item name fmt)) /\
  (make_item (name, default [] fmt, true)).2 = unknown (Item name fmt).
Proof.
  intros Hf. cbn [make_item negb unknown expand fits] in *. unfold item_find.
  pose proof (tables_agree name (default [] fmt) out item_map (expansions (default [] fmt))) as H.
  destruct (filter _ item_map) as [|a rest].
  - destruct H as [Hn ->]; [|cbn [fst snd]; split; [done|]; by rewrite bool_decide_eq_true_2].
    repeat constructor; try (intros _; reflexivity). intros Hn. cbn [snd format_item]. by rewrite (proj2 (Z.ltb_lt _ _) (Hf Hn)).
  - destruct H as [Hin (b & r & -> & E)]; [|cbn [fst snd]; split; [done|]; by rewrite bool_decide_eq_false_2 by (intros Hn; by apply Hn)].
    repeat constructor; try (intros _; reflexivity). intros Hn. cbn [snd format_item]. by rewrite (proj2 (Z.ltb_lt _ _) (Hf Hn)).
Qed.

Lemma format_flush nstr out : format_items strftime lv ev (map fst (map make_item (flush nstr []))) out = (Ok tt, out ++ nstr) /\
  existsb snd (map make_item (flush nstr [])) = false.
Proof. unfold flush. case_bool_decide as H; [subst nstr; by rewrite app_nil_r|done]. Qed.

Lemma format_items_app a b out out1 : format_items strftime lv ev a out = (Ok tt, out1) ->
  format_items strftime lv ev (a ++ b) out = format_items strftime lv ev b out1.
Proof.
  revert out. induction a as [|it a IH]; intros out; cbn [format_items app]; [by intros [= ->]|].
  unfold mbind, M_bind. destruct (format_item strftime lv ev it out) as [[] o]; try done. apply IH.
Qed.

Lemma format_tuples ps : forall nstr out, Forall fits ps ->
  format_items strftime lv ev (map fst (map make_item (tuples nstr ps))) out = (Ok tt, out ++ nstr ++ concat (map expand ps)) /\
  existsb snd (map make_item (tuples nstr ps)) = existsb unknown ps.
Proof.
  induction ps as [|[s|name fmt] ps IH]; intros nstr out Hf; cbn [tuples map concat existsb].
  - rewrite app_nil_r. apply format_flush.
  - apply list.Forall_cons in Hf as [_ Hf]. destruct (IH (nstr ++ s) out Hf) as [-> ->]. by rewrite <- app_assoc.
  - apply list.Forall_cons in Hf as [Hd Hf]. destruct (format_flush nstr out) as [E1 E2]. rewrite !map_app, existsb_app, E2.
    rewrite (format_items_app _ _ _ _ E1). cbn [map existsb format_items orb].
    destruct (format_made name fmt (out ++ nstr) Hd) as [E3 E4]. rewrite (bind_ok _ _ _ _ _ E3), E4.
    destruct (IH [] ((out ++ nstr) ++ expand (Item name fmt)) Hf) as [-> ->]. cbn [app]. by rewrite <- !app_assoc.
Qed.
End meaning.

(** C35: The pattern language.  A pattern of plain text and items (a name of
    letters, and in braces a pattern of its own) is parsed into what it was
    composed of: printing an event replaces every item by what its name stands
    for and leaves the text alone, and the formatter counts as erroneous exactly
    when some name is none of the twelve.  Times must fit a buffer of 64 bytes. *)
Theorem pattern_formats (strftime : str -> Z -> str) (ps : list piece) (lv : Level) (ev : LogEvent) (out : str) :
  well_formed ps -> Forall (fits strftime ev) ps ->
  exists f, Formatter_new (render ps) = Some f /\ _b_error f = existsb unknown ps /\
    format strftime f lv ev out = (Ok tt, out ++ concat (map (expand strftime lv ev) ps)).
Proof.
  intros Hw Hf. unfold Formatter_new. rewrite (parse_pieces (render ps) ps 0) by (done || lia). cbn [app].
  destruct (format_tuples strftime lv ev ps [] out Hf) as [E1 E2]. cbn [app] in E1.
  eexists. split; [done|]. split; [|exact E1]. cbn [_b_error orb]. exact E2.
Qed.

(** The default pattern, on a C library that prints every time as "T". *)
Definition default_pieces : list piece :=
  [Item (lit "d") (Some (lit "%Y-%m-%d %H:%M:%S")); Item (lit "T") None; Item (lit "t") None; Item (lit "T") None; Item (lit "N") None;
   Item (lit "T") None; Item (lit "F") None; Item (lit "T") None; Text (lit "["); Item (lit "p") None; Text (lit "]"); Item (lit "T") None;
   Text (lit "["); Item (lit "c") None; Text (lit "]"); Item (lit "T") None; Item (lit "f") None; Text (lit ":"); Item (lit "l") None;
   Item (lit "T") None; Item (lit "m") None; Item (lit "n") None].
Definition demo_event : LogEvent := mkLogEvent (lit "system") INFO (lit "a.cpp") 7 0 11 2 1700000000 (lit "main") (lit "hello").
Definition demo_strftime (fmt : str) (t : Z) : str := lit "T".

(** A concrete pattern is well-formed. *)
Ltac by_pieces := repeat match goal with |- _ /\ _ => split | |- True => exact I | |- well_formed _ => cbn [well_formed] end;
  first [discriminate | vm_compute; reflexivity | by_computation].

Lemma pattern_formats_witness : render default_pieces = default_pattern /\
  exists f, Formatter_new (render default_pieces) = Some f /\ _b_error f = existsb unknown default_pieces /\
    format demo_strftime f INFO demo_event [] = (Ok tt, [] ++ concat (map (expand demo_strftime INFO demo_event) default_pieces)).
Proof.
  split; [vm_compute; reflexivity|].
  apply (pattern_formats demo_strftime default_pieces INFO demo_event []); [by_pieces|].
  repeat constructor; cbn; try exact I; intros _; reflexivity.
Defined.

(** ** Every pattern *)
Lemma scan_total p i b : forall fuel n status fb s, (length p - n < fuel)%nat -> (b <= n)%nat ->
  exists r, scan_item fuel p i n status fb s = Some r /\ (b <= sc_n r)%nat.
Proof.
  induction fuel as [|fuel IH]; intros n status fb s Hf Hb; [lia|]. cbn [scan_item].
  destruct (Nat.ltb_spec n (length p)); [|by eexists].
  assert (forall status fb s, exists r, scan_item fuel p i (S n) status fb s = Some r /\ (b <= sc_n r)%nat) as H1
    by (intros; apply IH; lia).
  repeat case_match; (apply H1 || (eexists; split; [reflexivity|cbn; lia])).
Qed.

Lemma parse_total p : forall fuel i nstr vec err, (length p - i < fuel)%nat -> exists r, parse_loop fuel p i nstr vec err = Some r.
Proof.
  induction fuel as [|fuel IH]; intros i nstr vec err Hf; [lia|]. cbn [parse_loop].
  destruct (Nat.ltb_spec i (length p)); [|by eexists].
  destruct (scan_total p i (S i) (S (length p)) (S i) false 0 [] ltac:(lia) ltac:(lia)) as (r & -> & Hr).
  repeat case_match; apply IH; lia.
Qed.

(** The constructor of the formatter returns for every string, however
    malformed, and what it makes prints one piece of text per item, in order: the
    output of an event depends on nothing but the items, and nothing already
    written is touched.  The only failure left is a time that does not fit. *)
Theorem Formatter_total (strftime : str -> Z -> str) (pattern : str) : exists f, Formatter_new pattern = Some f /\ _formatter_str f = pattern /\
  forall lv ev out,
    (exists text, format strftime f lv ev out = (Ok tt, out ++ text)) \/
    (exists fmt text, DateTimeFormatterItem fmt ∈ _items f /\ 64 <= zlen (strftime (cstr fmt) (s64 (_time ev))) /\
      format strftime f lv ev out = (Undef Uninit, out ++ text)).
Proof.
  destruct (parse_total pattern (S (length pattern)) 0 [] [] false ltac:(lia)) as ([vec err] & E).
  unfold Formatter_new. rewrite E. eexists. split; [done|]. split; [done|]. intros lv ev. unfold format. cbn [_items].
  generalize (map fst (map make_item vec)) as its. intros its. induction its as [|it its IH]; intros out.
  { left. exists []. by rewrite app_nil_r. }
  assert ((exists text, format_item strftime lv ev it out = (Ok tt, out ++ text)) \/
    (exists fmt, it = DateTimeFormatterItem fmt /\ 64 <= zlen (strftime (cstr fmt) (s64 (_time ev))) /\
      format_item strftime lv ev it out = (Undef Uninit, out))) as [(text & Et)|(fmt & -> & Hl & Et)].
  { destruct it; cbn [format_item]; try (left; by eexists). destruct (Z.ltb_spec (zlen (strftime (cstr _date_time_pattern) (s64 (_time ev)))) 64).
    - left. by eexists.
    - right. eexists. split; [done|]. split; [lia|done]. }
  - cbn [format_items]. rewrite (bind_ok _ _ _ _ _ Et). destruct (IH (out ++ text)) as [(t & ->)|(fmt & t & Hin & Hl & ->)].
    + left. exists (text ++ t). by rewrite app_assoc.
    + right. exists fmt, (text ++ t). rewrite app_assoc. split; [by right|done].
  - right. exists fmt, []. split; [by left|]. split; [done|]. cbn [format_items]. rewrite (bind_undef _ _ _ _ _ Et). by rewrite app_nil_r.
Qed.

(** "%%" is meant as a percent sign, but the loop goes on at the second one, which
    starts an item of its own. *)
Example percent_not_escaped : forall lv ev out, exists f, Formatter_new (lit "100%%n") = Some f /\
  format demo_strftime f lv ev out = (Ok tt, out ++ lit "100%" ++ [10]).
Proof. intros lv ev out. eexists. split; [vm_compute; reflexivity|]. cbn. unfold mbind, M_bind, osm, modify. cbn. by rewrite <- app_assoc. Qed.

(** At an unclosed brace the error overtakes the text before it. *)
Example unclosed_brace : exists f, Formatter_new (lit "ab%d{x") = Some f /\ _b_error f = true /\
  _items f = [StringFormatterItem (lit "<<pattern_error>>"); StringFormatterItem (lit "abd{x")].
Proof. eexists. split; [vm_compute; reflexivity|]. by vm_compute. Qed.

(** ** Loggers and sinkers

    Loggers and sinkers are shared, so they live in stores and are named by their
    numbers there.  A file is the text that went to it through its sinkers; the
    file system answers, for a name and a time, whether it can be opened. *)
Inductive SinkerKind := StdoutLogsinker | FileLogsinker (_log_filename : str).

Record Logsinker := mkLogsinker {
  _kind : SinkerKind; s_level_limit : Level; _b_has_formatter : bool; s_formatter : option Formatter;
  _last_opentime : Z; is_open : bool
}.

Record Logger := mkLogger {
  _name : str; _level_limit : Level; _sinkers : gmap str nat; _formatter : Formatter; _root_logger : option nat
}.

Record log_state := mkLogState {
  loggers : list Logger; sinkers : list Logsinker;
  _loggers_map : gmap str (option nat);     (* the manager's; a null pointer is [None] *)
  cout : str; files : gmap str str; now : Z
}.

Definition set_loggers v '(mkLogState _ s m c f n) := mkLogState v s m c f n.
Definition set_sinkers v '(mkLogState l _ m c f n) := mkLogState l v m c f n.
Definition set_loggers_map v '(mkLogState l s _ c f n) := mkLogState l s v c f n.
Definition set_cout v '(mkLogState l s m _ f n) := mkLogState l s m v f n.
Definition set_files v '(mkLogState l s m c _ n) := mkLogState l s m c v n.

Definition set_sinker (i : nat) (f : Logsinker -> Logsinker) (st : log_state) : log_state := set_sinkers (alter f i (sinkers st)) st.
Definition set_logger (i : nat) (f : Logger -> Logger) (st : log_state) : log_state := set_loggers (alter f i (loggers st)) st.

#[global] Instance SinkerKind_eq_dec : EqDecision SinkerKind.
Proof. solve_decision. Defined.

Section loggers.
Context (strftime : str -> Z -> str) (openable : str -> Z -> bool).

Definition the_logger (l : nat) : M log_state Logger := fun st =>
  match loggers st !! l with Some lg => (Ok lg, st) | None => (Undef UseAfterFree, st) end.
Definition the_sinker (s : nat) : M log_state Logsinker := fun st =>
  match sinkers st !! s with Some sk => (Ok sk, st) | None => (Undef UseAfterFree, st) end.

(** *** Logsinker *)
Definition sinker_SetFormatter (s : nat) (f : Formatter) : M log_state unit :=
  modify (set_sinker s (fun '(mkLogsinker k l _ _ t o) => mkLogsinker k l true (Some f) t o)).
Definition sinker_SetLevelLimit (s : nat) (lv : Level) : M log_state unit :=
  modify (set_sinker s (fun '(mkLogsinker k _ h f t o) => mkLogsinker k lv h f t o)).

Definition new_sinker (sk : Logsinker) : M log_state nat :=
  st ← get; modify (set_sinkers (sinkers st ++ [sk]));; mret (length (sinkers st)).
Definition StdoutLogsinker_new : M log_state nat := new_sinker (mkLogsinker StdoutLogsinker DEBUG false None 0 true).

(** FileLogsinker::reopen *)
Definition reopen (s : nat) (name : str) : M log_state bool :=
  st ← get;
  let ok := openable name (now st) in
  modify (set_sinker s (fun '(mkLogsinker k l h f t _) => mkLogsinker k l h f t ok));;
  mret ok.

Definition FileLogsinker_new (name : str) : M log_state nat :=
  st ← get;
  s ← new_sinker (mkLogsinker (FileLogsinker name) DEBUG false None (now st) false);
  reopen s name;; mret s.

(** Formatting onto a stream: standard output, or a file that is open or not. *)
Definition to_cout (m : M str unit) : M log_state unit := fun st =>
  let '(r, out) := m (cout st) in (r, set_cout out st).
Definition to_file (name : str) (opened : bool) (m : M str unit) : M log_state unit := fun st =>
  let '(r, out) := m (default [] (files st !! name)) in
  (r, if opened then set_files (<[name := out]> (files st)) st else st).

Definition open_failed : str := lit "log file open failed" ++ [10].

(** StdoutLogsinker::log and FileLogsinker::log *)
Definition sinker_log (s l : nat) (lv : Level) (ev : LogEvent) : M log_state unit :=
  sk ← the_sinker s;
  if level_value (s_level_limit sk) <=? level_value lv then
    (if _b_has_formatter sk then mret tt else lg ← the_logger l; sinker_SetFormatter s (_formatter lg));;
    match _kind sk with
    | StdoutLogsinker =>
      sk ← the_sinker s;
      match s_formatter sk with Some f => to_cout (format strftime f lv ev) | None => undef NullDeref end
    | FileLogsinker name =>
      st ← get;
      is_open_now ←
        (if 3 <? u64 (now st - _last_opentime sk) then
           ok ← reopen s name;
           modify (set_sinker s (fun '(mkLogsinker k l h f _ o) => mkLogsinker k l h f (now st) o));;
           mret ok
         else mret true);
      if is_open_now : bool then
        sk ← the_sinker s;
        match s_formatter sk with Some f => to_file name (is_open sk) (format strftime f lv ev) | None => undef NullDeref end
      else to_cout (osm open_failed)
    end
  else mret tt.

(** *** Logger *)
Fixpoint each {A} (f : A -> M log_state unit) (l : list A) : M log_state unit :=
  match l with [] => mret tt | x :: l => f x;; each f l end.

Definition Logger_new (name : str) : M log_state nat :=
  st ← get;
  match Formatter_new default_pattern with
  | Some f => modify (set_loggers (loggers st ++ [mkLogger name DEBUG ∅ f None]));; mret (length (loggers st))
  | None => nofuel
  end.

(** Logger::log.  The spin lock of a logger is held while it logs; [held] are the
    loggers further down the stack. *)
Fixpoint Logger_log (fuel : nat) (held : list nat) (l : nat) (lv : Level) (ev : LogEvent) : M log_state unit :=
  match fuel with
  | O => nofuel
  | S fuel =>
    lg ← the_logger l;
    if level_value (_level_limit lg) <=? level_value lv then
      if bool_decide (l ∈ held) then undef Relock
      else if negb (bool_decide (_sinkers lg = ∅)) then each (fun s => sinker_log s l lv ev) (map snd (map_to_list (_sinkers lg)))
      else match _root_logger lg with Some r => Logger_log fuel (l :: held) r lv ev | None => mret tt end
    else mret tt
  end.

Definition with_loggers {A} (m : nat -> M log_state A) : M log_state A := st ← get; m (S (length (loggers st))).
Definition log (l : nat) (lv : Level) (ev : LogEvent) : M log_state unit := with_loggers (fun fuel => Logger_log fuel [] l lv ev).

Definition SetLevelLimit (l : nat) (lv : Level) : M log_state unit :=
  modify (set_logger l (fun '(mkLogger n _ s f r) => mkLogger n lv s f r)).
Definition put_sinkers (l : nat) (v : gmap str nat) : M log_state unit :=
  modify (set_logger l (fun '(mkLogger n lv _ f r) => mkLogger n lv v f r)).

Definition AddSinkers (l : nat) (sink_name : str) (s : nat) : M log_state unit :=
  lg ← the_logger l; sk ← the_sinker s;
  (if negb (_b_has_formatter sk) then sinker_SetFormatter s (_formatter lg) else mret tt);;
  match _sinkers lg !! sink_name with
  | Some _ => mret tt
  | None => put_sinkers l (<[sink_name := s]> (_sinkers lg))
  end.

Definition DelSinkers (l : nat) (sink_name : str) : M log_state unit :=
  lg ← the_logger l; put_sinkers l (delete sink_name (_sinkers lg)).
Definition ClearSinkers (l : nat) : M log_state unit := put_sinkers l ∅.

Definition SetFormatter (l : nat) (f : Formatter) : M log_state unit :=
  lg ← the_logger l;
  each (fun s => sinker_SetFormatter s f) (map snd (map_to_list (_sinkers lg)));;
  modify (set_logger l (fun '(mkLogger n lv s _ r) => mkLogger n lv s f r)).
Definition SetFormatter_str (l : nat) (fmt_str : str) : M log_state unit :=
  match Formatter_new fmt_str with Some f => SetFormatter l f | None => nofuel end.
Definition SetRootLogger (l : nat) (root : option nat) : M log_state unit :=
  modify (set_logger l (fun '(mkLogger n lv s f _) => mkLogger n lv s f root)).

(** *** LoggerManager *)
Definition GetLogger (name : str) : M log_state (option nat) :=
  st ← get; mret (match _loggers_map st !! name with Some p => p | None => None end).
Definition SetLogger (name : str) (l : option nat) : M log_state bool :=
  modify (fun st => set_loggers_map (<[name := l]> (_loggers_map st)) st);; mret true.
Definition DelLogger (name : str) : M log_state unit :=
  modify (fun st => set_loggers_map (delete name (_loggers_map st)) st).
Definition ClearLogger : M log_state unit := modify (set_loggers_map ∅).

Definition GetAndSetLogger (name : str) : M log_state (option nat) :=
  st ← get;
  match _loggers_map st !! name with
  | Some p => mret p
  | None =>
    l ← Logger_new name;
    s ← StdoutLogsinker_new;
    AddSinkers l (lit "stdout") s;;
    SetLogger name (Some l);;
    mret (Some l)
  end.

(** [_loggers_map["root"]]: a missing entry is made, of a null pointer. *)
Definition GetRootLogger : M log_state (option nat) :=
  st ← get;
  match _loggers_map st !! lit "root" with
  | Some p => mret p
  | None => SetLogger (lit "root") None;; mret None
  end.

Definition LoggerManager_new : M log_state unit :=
  l ← Logger_new (lit "root");
  s ← StdoutLogsinker_new;
  AddSinkers l (lit "stdout") s;;
  SetLogger (lit "root") (Some l);;
  mret tt.

(** XTEN_LOG_LEVEL: the limit is asked for before the pointer is tested. *)
Definition XTEN_LOG_LEVEL (logger : option nat) (lv : Level) (ev : LogEvent) : M log_state unit :=
  match logger with
  | None => undef NullDeref
  | Some l => lg ← the_logger l; if level_value (_level_limit lg) <=? level_value lv then log l lv ev else mret tt
  end.

(** ** The configuration *)
Inductive SinkType := STDOUT | FILE.
Record LogSinkerDefine := mkSinkerDefine {
  sd_name : str; sd_level_limit : Level; sd_formatter : str; sd_type : SinkType; sd_file : str
}.
Record LoggerDefine := mkLoggerDefine {
  ld_name : str; ld_level_limit : Level; ld_sinkers : list LogSinkerDefine; ld_formatter : str
}.

#[global] Instance Level_eq_dec : EqDecision Level.
Proof. solve_decision. Defined.
#[global] Instance SinkType_eq_dec : EqDecision SinkType.
Proof. solve_decision. Defined.
#[global] Instance LogSinkerDefine_eq_dec : EqDecision LogSinkerDefine.
Proof. solve_decision. Defined.
#[global] Instance LoggerDefine_eq_dec : EqDecision LoggerDefine.
Proof. solve_decision. Defined.

(** The set is ordered by name: [find] looks for the name. *)
Definition find_define (name : str) (set : list LoggerDefine) : option LoggerDefine :=
  match filter (fun d => ld_name d = name) set with d :: _ => Some d | [] => None end.

Definition deref (p : option nat) : M log_state nat := match p with Some l => mret l | None => undef NullDeref end.

Definition make_sinker (daemon : bool) (l : nat) (a : LogSinkerDefine) : M log_state unit :=
  ap ←
    match sd_type a with
    | FILE => s ← FileLogsinker_new (sd_file a); mret (Some s)
    | STDOUT => if negb daemon then s ← StdoutLogsinker_new; mret (Some s) else mret None
    end;
  match ap with
  | None => mret tt
  | Some ap =>
    sinker_SetLevelLimit ap (sd_level_limit a);;
    (if bool_decide (sd_formatter a = []) then mret tt
     else match Formatter_new (sd_formatter a) with
       | Some fmt => if negb (_b_error fmt) then sinker_SetFormatter ap fmt else mret tt
       | None => nofuel
       end);;
    AddSinkers l (sd_name a) ap
  end.

Definition apply_define (daemon : bool) (d : LoggerDefine) : M log_state unit :=
  p ← GetAndSetLogger (ld_name d); l ← deref p;
  SetLevelLimit l (ld_level_limit d);;
  (if bool_decide (ld_formatter d = []) then mret tt else SetFormatter_str l (ld_formatter d));;
  ClearSinkers l;;
  each (make_sinker daemon l) (ld_sinkers d).

Definition remove_define (d : LoggerDefine) : M log_state unit :=
  p ← GetAndSetLogger (ld_name d); l ← deref p;
  SetLevelLimit l UNKNOW;; ClearSinkers l.

(** The listener of [LogIniter]; [daemon] is [Env::Has("d")]. *)
Definition on_logs_config_changed (daemon : bool) (old_value new_value : list LoggerDefine) : M log_state unit :=
  each (fun i => if bool_decide (find_define (ld_name i) old_value = Some i) then mret tt else apply_define daemon i) new_value;;
  each (fun i => match find_define (ld_name i) new_value with None => remove_define i | Some _ => mret tt end) old_value.

(** ** What a call of log delivers *)
Section delivery.
Context (lv : Level) (ev : LogEvent).

Definition line (f : Formatter) : str := snd (format strftime f lv ev []).
Definition prints (f : Formatter) : Prop :=
  forall fmt, DateTimeFormatterItem fmt ∈ _items f -> zlen (strftime (cstr fmt) (s64 (_time ev))) < 64.

Lemma format_line f out : prints f -> format strftime f lv ev out = (Ok tt, out ++ line f).
Proof.
  unfold prints, line, format. generalize (_items f) as its. clear f. intros its. revert out.
  assert (forall it (out : str), (forall fmt, it = DateTimeFormatterItem fmt -> zlen (strftime (cstr fmt) (s64 (_time ev))) < 64) ->
    exists t, forall out, format_item strftime lv ev it out = (Ok tt, out ++ t)) as Hit.
  { intros it out Hf. destruct it; try (by eexists). eexists. intros o. cbn [format_item].
    by rewrite (proj2 (Z.ltb_lt _ _) (Hf _ eq_refl)). }
  induction its as [|it its IH]; intros out Hf; [by rewrite app_nil_r|].
  destruct (Hit it out) as (t & Et); [intros fmt ->; apply Hf; by left|]. cbn [format_items].
  rewrite (bind_ok _ _ _ _ _ (Et out)), (bind_ok _ _ _ _ _ (Et [])).
  rewrite (IH (out ++ t)), (IH ([] ++ t)) by (intros fmt H; apply Hf; by right). cbn. by rewrite app_assoc.
Qed.

(** What a sinker of logger [lg] is about to do, in a state. *)
Definition accepts (sk : Logsinker) : bool := level_value (s_level_limit sk) <=? level_value lv.
Definition formatter_for (lg : Logger) (sk : Logsinker) : option Formatter :=
  if _b_has_formatter sk then s_formatter sk else Some (_formatter lg).
Definition due (st : log_state) (sk : Logsinker) : bool := 3 <? u64 (now st - _last_opentime sk).
Definition text_of (lg : Logger) (sk : Logsinker) : str := match formatter_for lg sk with Some f => line f | None => [] end.

Definition to_stdout (st : log_state) (lg : Logger) (s : nat) : str :=
  match sinkers st !! s with
  | Some sk =>
    if accepts sk then
      match _kind sk with
      | StdoutLogsinker => text_of lg sk
      | FileLogsinker name => if due st sk && negb (openable name (now st)) then open_failed else []
      end
    else []
  | None => []
  end.

Definition to_named (st : log_state) (lg : Logger) (name : str) (s : nat) : str :=
  match sinkers st !! s with
  | Some sk =>
    if accepts sk && bool_decide (_kind sk = FileLogsinker name) && (if due st sk then openable name (now st) else is_open sk)
    then text_of lg sk else []
  | None => []
  end.

Definition file_text (st : log_state) (name : str) : str := default [] (files st !! name).

Definition sinker_ready (lg : Logger) (sk : Logsinker) : Prop := exists f, formatter_for lg sk = Some f /\ prints f.

(** Everything but a sinker, and the outputs, is as it was. *)
Definition same_but (s : nat) (st st' : log_state) : Prop :=
  loggers st' = loggers st /\ _loggers_map st' = _loggers_map st /\ now st' = now st /\
  forall s', s' <> s -> sinkers st' !! s' = sinkers st !! s'.

Lemma log_same_but_refl s st : same_but s st st.
Proof. by split_and!. Qed.

Lemma set_sinker_same s h st : same_but s st (set_sinker s h st).
Proof. destruct st. split_and!; try done. intros s' Hs. cbn. by apply list_lookup_alter_ne. Qed.

Lemma set_sinker_lookup s h st sk : sinkers st !! s = Some sk -> sinkers (set_sinker s h st) !! s = Some (h sk).
Proof. intros H. destruct st. cbn in *. by rewrite list_lookup_alter_eq, H. Qed.

(** The formatter is there when the text is made. *)
Lemma ensure_formatter st s l lg sk f : loggers st !! l = Some lg -> sinkers st !! s = Some sk -> formatter_for lg sk = Some f ->
  exists st' sk', (if _b_has_formatter sk then mret tt else lg ← the_logger l; sinker_SetFormatter s (_formatter lg)) st = (Ok tt, st') /\
    same_but s st st' /\ cout st' = cout st /\ files st' = files st /\ sinkers st' !! s = Some sk' /\ s_formatter sk' = Some f /\
    _kind sk' = _kind sk /\ _last_opentime sk' = _last_opentime sk /\ is_open sk' = is_open sk.
Proof.
  intros Hl Hs Hf. unfold formatter_for in Hf. destruct (_b_has_formatter sk) eqn:Hh.
  - exists st, sk. split_and!; done.
  - injection Hf as <-. unfold the_logger, mbind, M_bind. rewrite Hl. eexists _, _. split; [reflexivity|].
    split; [apply set_sinker_same|]. split; [by destruct st|]. split; [by destruct st|].
    split; [by apply set_sinker_lookup|]. by destruct sk.
Qed.

Lemma write_named st s name sk f : sinkers st !! s = Some sk -> s_formatter sk = Some f -> prints f ->
  exists st', (the_sinker s ≫= fun sk => match s_formatter sk with Some f => to_file name (is_open sk) (format strftime f lv ev) | None => undef NullDeref end) st
      = (Ok tt, st') /\ same_but s st st' /\ cout st' = cout st /\
    forall n, file_text st' n = file_text st n ++ (if bool_decide (FileLogsinker name = FileLogsinker n) && is_open sk then line f else []).
Proof.
  intros Hs Hf Hp. unfold the_sinker, mbind, M_bind. rewrite Hs, Hf. unfold to_file. rewrite (format_line f _ Hp).
  eexists. split; [reflexivity|]. destruct (is_open sk).
  - destruct st. split; [by split_and!|]. split; [done|]. intros n. unfold file_text. cbn. rewrite andb_true_r.
    case_bool_decide as Hn; [injection Hn as <-; by rewrite lookup_insert_eq|].
    rewrite lookup_insert_ne, app_nil_r by (intros ->; by apply Hn). done.
  - split; [apply log_same_but_refl|]. split; [done|]. intros n. by rewrite andb_false_r, app_nil_r.
Qed.

Lemma same_but_trans s st1 st2 st3 : same_but s st1 st2 -> same_but s st2 st3 -> same_but s st1 st3.
Proof. intros (A1&A2&A3&A4) (B1&B2&B3&B4). split_and!; [congruence..|]. intros s' Hs. by rewrite B4, A4. Qed.

Lemma sinker_log_ok st s l lg sk : loggers st !! l = Some lg -> sinkers st !! s = Some sk -> sinker_ready lg sk ->
  exists st', sinker_log s l lv ev st = (Ok tt, st') /\ same_but s st st' /\ cout st' = cout st ++ to_stdout st lg s /\
    forall name, file_text st' name = file_text st name ++ to_named st lg name s.
Proof.
  intros Hl Hs (f & Hf & Hp). unfold sinker_log, to_stdout, to_named, text_of, accepts.
  assert (the_sinker s st = (Ok sk, st)) as E0 by (unfold the_sinker; by rewrite Hs). rewrite (bind_ok _ _ _ _ _ E0). rewrite Hs, Hf.
  destruct (Z.leb_spec (level_value (s_level_limit sk)) (level_value lv)); cbn [andb].
  2: { exists st. rewrite app_nil_r. split; [done|]. split; [apply log_same_but_refl|]. split; [done|]. intros. by rewrite app_nil_r. }
  destruct (ensure_formatter st s l lg sk f Hl Hs Hf) as (st1 & sk1 & E1 & Hsame & Hc & Hfi & Hs1 & Hf1 & Hk & Ht & Ho).
  rewrite (bind_ok _ _ _ _ _ E1). destruct Hsame as (Hl1 & Hm1 & Hn1 & Hot).
  destruct (_kind sk) as [|name] eqn:Ek.
  - unfold the_sinker, mbind, M_bind. rewrite Hs1, Hf1. unfold to_cout. rewrite (format_line f _ Hp). eexists. split; [reflexivity|].
    destruct st1; cbn in *. split_and!; [by split_and!|by rewrite Hc|].
    intros name. unfold file_text. cbn. by rewrite Hfi, app_nil_r.
  - assert (due st1 sk = due st sk) as Hd by (unfold due; by rewrite Hn1).
    set (opened := if due st sk then openable name (now st) else is_open sk).
    set (failed := due st sk && negb (openable name (now st))).
    assert (exists st2 sk2, (if 3 <? u64 (now st1 - _last_opentime sk) then
           ok ← reopen s name;
           modify (set_sinker s (fun '(mkLogsinker k l h f _ o) => mkLogsinker k l h f (now st1) o));;
           mret ok
         else mret true) st1 = (Ok (negb failed), st2) /\ same_but s st1 st2 /\ cout st2 = cout st1 /\ files st2 = files st1 /\
         sinkers st2 !! s = Some sk2 /\ s_formatter sk2 = Some f /\ is_open sk2 = opened) as (st2 & sk2 & E2 & Hsame2 & Hc2 & Hfi2 & Hs2 & Hf2 & Ho2).
    { unfold due in Hd. subst opened failed. unfold due in *. rewrite Hd. destruct (3 <? u64 (now st - _last_opentime sk)); cbn [andb negb].
      - unfold reopen, mbind, M_bind, get, modify. cbn. rewrite Hn1, negb_involutive. eexists _, _. split; [reflexivity|].
        split; [|split; [by destruct st1|split; [by destruct st1|]]].
        + destruct st1 as [a1 a2 a3 a4 a5 a6]. split_and!; try done. intros s' Hne. cbn. by rewrite !list_lookup_alter_ne.
        + split; [apply set_sinker_lookup; by apply set_sinker_lookup|]. by destruct sk1.
      - exists st1, sk1. split_and!; try done. }
    rewrite (bind_ok get _ st1 st1 st1 eq_refl), (bind_ok _ _ _ _ _ E2).
    assert (same_but s st st2) as Hsame by (by apply (same_but_trans s st st1 st2); [split_and!|]).
    assert (forall n, file_text st2 n = file_text st n) as Hft by (intros n; unfold file_text; by rewrite Hfi2, Hfi).
    destruct (write_named st2 s name sk2 f Hs2 Hf2 Hp) as (st3 & E3 & Hsame3 & Hc3 & Hft3). rewrite Ho2 in Hft3.
    pose proof (same_but_trans _ _ _ _ Hsame Hsame3) as Hsame'. clear Hsame3. subst failed opened.
    destruct (due st sk); cbn [andb negb] in *; [destruct (openable name (now st)) eqn:Eo; cbn [negb] in *|].
    + exists st3. split; [done|]. split; [done|]. rewrite Hc3, Hc2, Hc, app_nil_r. split; [done|]. intros n. rewrite Hft3, Hft.
      case_bool_decide as Hn; [injection Hn as <-; by rewrite Eo|done].
    + eexists. split; [reflexivity|]. split; [apply (same_but_trans _ _ st2); [done|by destruct st2]|].
      split; [destruct st2; cbn in *; by rewrite Hc2, Hc|]. intros n. rewrite <- Hft.
      case_bool_decide as Hn; [injection Hn as <-; rewrite Eo|]; cbn; rewrite app_nil_r; by destruct st2.
    + exists st3. split; [done|]. split; [done|]. rewrite Hc3, Hc2, Hc, app_nil_r. split; [done|]. intros n. by rewrite Hft3, Hft.
Qed.

Lemma each_sinker st0 l lg ids : loggers st0 !! l = Some lg -> NoDup ids ->
  (forall s, s ∈ ids -> exists sk, sinkers st0 !! s = Some sk /\ sinker_ready lg sk) ->
  forall st, loggers st = loggers st0 -> now st = now st0 -> (forall s, s ∈ ids -> sinkers st !! s = sinkers st0 !! s) ->
  exists st', each (fun s => sinker_log s l lv ev) ids st = (Ok tt, st') /\ loggers st' = loggers st0 /\
    cout st' = cout st ++ concat (map (to_stdout st0 lg) ids) /\
    forall name, file_text st' name = file_text st name ++ concat (map (to_named st0 lg name) ids).
Proof.
  intros Hl. induction ids as [|s ids IH]; intros Hnd Hok st Hls Hnow Hs.
  { exists st. cbn. rewrite app_nil_r. split; [done|]. split; [done|]. split; [done|]. intros. by rewrite app_nil_r. }
  apply list.NoDup_cons in Hnd as [Hni Hnd]. destruct (Hok s ltac:(by left)) as (sk & Hsk & Hr).
  destruct (sinker_log_ok st s l lg sk) as (st1 & E & (Hl1 & _ & Hn1 & Ho1) & Hc & Hf); [congruence|rewrite Hs by (by left); done|done|].
  destruct (IH Hnd ltac:(intros; apply Hok; by right) st1) as (st' & E' & Hl' & Hc' & Hf').
  - congruence.
  - congruence.
  - intros s' Hin. rewrite Ho1 by (by intros ->). apply Hs. by right.
  - exists st'. cbn [each map concat]. rewrite (bind_ok _ _ _ _ _ E). split; [done|]. split; [done|].
    assert (to_stdout st lg s = to_stdout st0 lg s) as <- by (unfold to_stdout, due; rewrite Hs, Hsk by (by left); by rewrite Hnow).
    split; [by rewrite Hc', Hc, <- app_assoc|]. intros name.
    assert (to_named st lg name s = to_named st0 lg name s) as <- by (unfold to_named, due; rewrite Hs, Hsk by (by left); by rewrite Hnow).
    by rewrite Hf', Hf, <- app_assoc.
Qed.

(** Which logger prints what is logged through one: itself, when it has sinkers,
    or else its root; nobody, when the level is too low or there is no root. *)
Inductive printed_by (st : log_state) : list nat -> nat -> option nat -> Prop :=
  | pb_quiet held l lg : loggers st !! l = Some lg -> level_value lv < level_value (_level_limit lg) -> printed_by st held l None
  | pb_here held l lg : loggers st !! l = Some lg -> level_value (_level_limit lg) <= level_value lv -> l ∉ held ->
      _sinkers lg <> ∅ -> printed_by st held l (Some l)
  | pb_nobody held l lg : loggers st !! l = Some lg -> level_value (_level_limit lg) <= level_value lv -> l ∉ held ->
      _sinkers lg = ∅ -> _root_logger lg = None -> printed_by st held l None
  | pb_root held l lg r t : loggers st !! l = Some lg -> level_value (_level_limit lg) <= level_value lv -> l ∉ held ->
      _sinkers lg = ∅ -> _root_logger lg = Some r -> printed_by st (l :: held) r t -> printed_by st held l t.

Definition sinker_ids (lg : Logger) : list nat := map snd (map_to_list (_sinkers lg)).

(** The sinkers of a logger are objects of their own that can print. *)
Definition logger_ready (st : log_state) (lg : Logger) : Prop :=
  NoDup (sinker_ids lg) /\ forall s, s ∈ sinker_ids lg -> exists sk, sinkers st !! s = Some sk /\ sinker_ready lg sk.

Lemma held_bound (held : list nat) n : NoDup held -> (forall h, h ∈ held -> (h < n)%nat) -> (length held <= n)%nat.
Proof.
  intros Hnd Hlt. assert (length held <= length (seq 0 n))%nat as H; [|by rewrite length_seq in H].
  apply NoDup_incl_length; [by apply NoDup_ListNoDup|].
  intros x Hx%list_elem_of_In. apply list_elem_of_In, elem_of_seq. apply Hlt in Hx. lia.
Qed.

Lemma the_logger_ok st l lg : loggers st !! l = Some lg -> the_logger l st = (Ok lg, st).
Proof. intros H. unfold the_logger. by rewrite H. Qed.

Definition delivered (st : log_state) (t : option nat) (st' : log_state) : Prop :=
  match t with
  | None => st' = st
  | Some p => forall lg, loggers st !! p = Some lg ->
    cout st' = cout st ++ concat (map (to_stdout st lg) (sinker_ids lg)) /\
    forall name, file_text st' name = file_text st name ++ concat (map (to_named st lg name) (sinker_ids lg))
  end.

Lemma log_ok st held l t : printed_by st held l t ->
  (forall p lg, t = Some p -> loggers st !! p = Some lg -> logger_ready st lg) ->
  forall fuel, NoDup held -> (forall h, h ∈ held -> (h < length (loggers st))%nat) -> (length (loggers st) < fuel + length held)%nat ->
  exists st', Logger_log fuel held l lv ev st = (Ok tt, st') /\ loggers st' = loggers st /\ delivered st t st'.
Proof.
  induction 1 as [held l lg Hl Hlv|held l lg Hl Hlv Hni Hs|held l lg Hl Hlv Hni Hs Hr|held l lg r t Hl Hlv Hni Hs Hr Hp IH];
    intros Hready fuel Hnd Hlt Hf; (destruct fuel as [|fuel]; [pose proof (held_bound _ _ Hnd Hlt); lia|]);
    cbn [Logger_log]; rewrite (bind_ok _ _ _ _ _ (the_logger_ok _ _ _ Hl)).
  - rewrite (proj2 (Z.leb_gt _ _) Hlv). by exists st.
  - rewrite (proj2 (Z.leb_le _ _) Hlv), (bool_decide_eq_false_2 _ Hni), (bool_decide_eq_false_2 _ Hs). cbn [negb].
    destruct (Hready l lg eq_refl Hl) as [Hnd' Hok].
    destruct (each_sinker st l lg _ Hl Hnd' Hok st) as (st' & E & Hls & Hc & Hft); [done..|].
    exists st'. split; [exact E|]. split; [done|]. intros lg' Hl'. assert (lg' = lg) as -> by congruence. by split.
  - rewrite (proj2 (Z.leb_le _ _) Hlv), (bool_decide_eq_false_2 _ Hni), (bool_decide_eq_true_2 _ Hs), Hr. cbn [negb]. by exists st.
  - rewrite (proj2 (Z.leb_le _ _) Hlv), (bool_decide_eq_false_2 _ Hni), (bool_decide_eq_true_2 _ Hs), Hr. cbn [negb].
    apply IH; [done|by apply list.NoDup_cons| |cbn; lia]. intros h [->|Hin]%elem_of_cons; [by apply lookup_lt_Some in Hl|by apply Hlt].
Qed.

(** C36: What a call of [log] delivers.  Below the limit of the logger, and of its
    root if it has no sinkers of its own, nothing happens; otherwise every sinker
    whose own limit allows it gets the event's line once, in its own format or
    else in the logger's: onto standard output, or into its file, which is opened
    anew when that was last tried more than three seconds ago; a file that cannot
    be opened is reported on standard output, and one that has stayed closed since
    gets nothing. *)
Theorem log_delivers st l t : printed_by st [] l t ->
  (forall p lg, t = Some p -> loggers st !! p = Some lg -> logger_ready st lg) ->
  exists st', log l lv ev st = (Ok tt, st') /\ loggers st' = loggers st /\ delivered st t st'.
Proof.
  intros Ht Hr. unfold log, with_loggers. rewrite (bind_ok get _ st st st eq_refl).
  apply (log_ok st [] l t Ht Hr); [constructor|by intros h ?%not_elem_of_nil|cbn; lia].
Qed.

End delivery.
(** ** What a configuration makes of the loggers *)
Lemma Formatter_exists p : exists f, Formatter_new p = Some f.
Proof.
  destruct (parse_total p (S (length p)) 0 [] [] false ltac:(lia)) as ([vec err] & E). unfold Formatter_new. rewrite E. by eexists.
Qed.

Definition parsed (p : str) : Formatter := default (mkFormatter p [] true) (Formatter_new p).
Lemma parsed_eq p : Formatter_new p = Some (parsed p).
Proof. unfold parsed. by destruct (Formatter_exists p) as [f ->]. Qed.

(** The sinkers a definition asks for, by name: the first of a name counts, and a
    daemon has no standard output. *)
Definition kind_of (a : LogSinkerDefine) : SinkerKind := match sd_type a with FILE => FileLogsinker (sd_file a) | STDOUT => StdoutLogsinker end.
Definition kept (daemon : bool) (ds : list LogSinkerDefine) : list LogSinkerDefine :=
  filter (fun a => sd_type a = FILE \/ daemon = false) ds.
Definition own_formatter (f : Formatter) (a : LogSinkerDefine) : Formatter :=
  if bool_decide (sd_formatter a = []) || _b_error (parsed (sd_formatter a)) then f else parsed (sd_formatter a).
Definition view : Type := SinkerKind * Level * option Formatter.
Definition asked (f : Formatter) (ds : list LogSinkerDefine) (nm : str) : option view :=
  match filter (fun a => sd_name a = nm) ds with
  | a :: _ => Some (kind_of a, sd_level_limit a, Some (own_formatter f a))
  | [] => None
  end.

Definition sinker_view (st : log_state) (lg : Logger) (nm : str) : option view :=
  s ← _sinkers lg !! nm; sk ← sinkers st !! s; Some (_kind sk, s_level_limit sk, s_formatter sk).

Definition with_formatter (f : Formatter) '(mkLogsinker k l _ _ t o) : Logsinker := mkLogsinker k l true (Some f) t o.

Lemma lookup_snoc {A} (l : list A) x : (l ++ [x]) !! length l = Some x.
Proof. by rewrite lookup_app_r, Nat.sub_diag. Qed.

Lemma alter_snoc {A} (h : A -> A) (l : list A) x : alter h (length l) (l ++ [x]) = l ++ [h x].
Proof. induction l as [|y l IH]; [done|]. cbn. by f_equal. Qed.

(** The sinker a definition makes, before it is added. *)
Definition made (t : Z) (o : bool) (a : LogSinkerDefine) : Logsinker :=
  let good := negb (bool_decide (sd_formatter a = [])) && negb (_b_error (parsed (sd_formatter a))) in
  mkLogsinker (kind_of a) (sd_level_limit a) good (if good then Some (parsed (sd_formatter a)) else None)
    (match sd_type a with FILE => t | STDOUT => 0 end) (match sd_type a with FILE => o | STDOUT => true end).

Lemma make_sinker_eq daemon l a st : sd_type a = FILE \/ daemon = false ->
  make_sinker daemon l a st =
    AddSinkers l (sd_name a) (length (sinkers st)) (set_sinkers (sinkers st ++ [made (now st) (openable (sd_file a) (now st)) a]) st).
Proof.
  intros Hk. destruct st as [lo si mp co fi nw]. destruct a as [nm lv fm ty fl]. unfold make_sinker, made, kind_of. cbn in *.
  unfold FileLogsinker_new, StdoutLogsinker_new, new_sinker, reopen, get, modify, sinker_SetLevelLimit, sinker_SetFormatter, mbind, M_bind.
  destruct ty; cbn.
  - destruct daemon; [by destruct Hk|]. cbn. rewrite alter_snoc. cbn. case_bool_decide; cbn; [done|]. rewrite parsed_eq.
    destruct (_b_error (parsed fm)); cbn; [done|]. by rewrite alter_snoc.
  - rewrite !alter_snoc. cbn. case_bool_decide; cbn; [done|]. rewrite parsed_eq.
    destruct (_b_error (parsed fm)); cbn; [done|]. by rewrite alter_snoc.
Qed.

Lemma make_sinker_skip l a st : sd_type a = STDOUT -> make_sinker true l a st = (Ok tt, st).
Proof. intros H. unfold make_sinker. rewrite H. done. Qed.

(** Nothing but logger [l] changes, and sinkers are only added. *)
Definition extends (l : nat) (st st' : log_state) : Prop :=
  _loggers_map st' = _loggers_map st /\ now st' = now st /\ length (loggers st') = length (loggers st) /\
  (forall l', l' <> l -> loggers st' !! l' = loggers st !! l') /\ exists ext, sinkers st' = sinkers st ++ ext.

Lemma extends_refl l st : extends l st st.
Proof. split_and!; try done. exists []. by rewrite app_nil_r. Qed.

Lemma extends_trans l st1 st2 st3 : extends l st1 st2 -> extends l st2 st3 -> extends l st1 st3.
Proof.
  intros (A1&A2&A3&A4&e1&A5) (B1&B2&B3&B4&e2&B5). split_and!; try congruence.
  - intros l' Hl'. by rewrite B4, A4.
  - exists (e1 ++ e2). by rewrite B5, A5, app_assoc.
Qed.

Definition with_sinkers (v : gmap str nat) '(mkLogger n lv _ f r) : Logger := mkLogger n lv v f r.

Lemma make_sinker_ok daemon l a st lg : sd_type a = FILE \/ daemon = false -> loggers st !! l = Some lg ->
  exists st' sk, make_sinker daemon l a st = (Ok tt, st') /\ extends l st st' /\ sinkers st' = sinkers st ++ [sk] /\
    (_kind sk, s_level_limit sk, s_formatter sk) = (kind_of a, sd_level_limit a, Some (own_formatter (_formatter lg) a)) /\
    loggers st' !! l = Some (with_sinkers (match _sinkers lg !! sd_name a with
      | Some _ => _sinkers lg | None => <[sd_name a := length (sinkers st)]> (_sinkers lg) end) lg).
Proof.
  intros Hk Hl. rewrite make_sinker_eq by done. destruct st as [lo si mp co fi nw]. cbn [set_sinkers sinkers now loggers] in *.
  set (sk := made nw (openable (sd_file a) nw) a).
  set (sk' := mkLogsinker (_kind sk) (s_level_limit sk) true (Some (own_formatter (_formatter lg) a)) (_last_opentime sk) (is_open sk)).
  assert (AddSinkers l (sd_name a) (length si) (mkLogState lo (si ++ [sk]) mp co fi nw) =
    (match _sinkers lg !! sd_name a with Some _ => mret tt | None => put_sinkers l (<[sd_name a := length si]> (_sinkers lg)) end)
      (mkLogState lo (si ++ [sk']) mp co fi nw)) as ->.
  { unfold AddSinkers. rewrite (bind_ok (the_logger l) _ _ lg _ (the_logger_ok (mkLogState lo (si ++ [sk]) mp co fi nw) l lg Hl)).
    unfold the_sinker, mbind, M_bind. cbn [sinkers]. rewrite lookup_snoc. subst sk'. unfold own_formatter.
    subst sk. unfold made. cbn [_b_has_formatter _kind s_level_limit _last_opentime is_open]. case_bool_decide; cbn [negb andb orb].
    - unfold sinker_SetFormatter, modify, set_sinker. cbn. by rewrite alter_snoc.
    - destruct (_b_error (parsed (sd_formatter a))); cbn [negb andb]; [|done].
      unfold sinker_SetFormatter, modify, set_sinker. cbn. by rewrite alter_snoc. }
  destruct (_sinkers lg !! sd_name a) eqn:Ein.
  - eexists _, sk'. split; [reflexivity|]. split; [|by destruct lg]. split_and!; try done. by eexists.
  - eexists _, sk'. split; [reflexivity|]. split; [|split; [done|split; [done|cbn; by rewrite list_lookup_alter_eq, Hl; destruct lg]]].
    split_and!; cbn; [done|done|by rewrite length_alter| |by eexists]. intros l' Hl'. by apply list_lookup_alter_ne.
Qed.

Lemma asked_snoc f ds a nm : asked f (ds ++ [a]) nm =
  match asked f ds nm with
  | Some v => Some v
  | None => if bool_decide (sd_name a = nm) then Some (kind_of a, sd_level_limit a, Some (own_formatter f a)) else None
  end.
Proof.
  unfold asked. rewrite list.filter_app. destruct (filter _ ds); cbn [app]; [|done]. rewrite list.filter_cons, list.filter_nil.
  case_decide; [by rewrite bool_decide_eq_true_2|by rewrite bool_decide_eq_false_2].
Qed.

(** The loop over the sinkers of a definition. *)
Record built (st : log_state) (l base : nat) (lg0 : Logger) (ds : list LogSinkerDefine) : Prop := {
  b_logger : exists v, loggers st !! l = Some (with_sinkers v lg0) /\
    (forall nm, sinker_view st (with_sinkers v lg0) nm = asked (_formatter lg0) ds nm) /\
    (forall nm s, v !! nm = Some s -> (base <= s < length (sinkers st))%nat)
}.

Lemma with_sinkers_proj v lg : _sinkers (with_sinkers v lg) = v /\ _formatter (with_sinkers v lg) = _formatter lg /\
  with_sinkers (_sinkers lg) lg = lg /\ forall w, with_sinkers w (with_sinkers v lg) = with_sinkers w lg.
Proof. by destruct lg. Qed.

Lemma built_step daemon l base lg0 ds a st : sd_type a = FILE \/ daemon = false -> (base <= length (sinkers st))%nat -> built st l base lg0 ds ->
  exists st', make_sinker daemon l a st = (Ok tt, st') /\ extends l st st' /\ built st' l base lg0 (ds ++ [a]).
Proof.
  intros Hk Hb [(v & Hl & Hv & Hids)]. destruct (with_sinkers_proj v lg0) as (E1 & E2 & _ & E4).
  destruct (make_sinker_ok daemon l a st _ Hk Hl) as (st' & sk & E & Hext & Hs & Hsk & Hl'). exists st'. split; [done|]. split; [done|].
  rewrite E1, E4 in Hl'. rewrite E2 in Hsk. set (v' := match v !! sd_name a with Some _ => v | None => <[sd_name a := length (sinkers st)]> v end) in *.
  assert (forall s, (s < length (sinkers st))%nat -> sinkers st' !! s = sinkers st !! s) as Hold by (intros s H; rewrite Hs; by apply lookup_app_l).
  split. exists v'. split; [done|]. split.
  - intros nm. rewrite asked_snoc, <- Hv. unfold sinker_view. destruct (with_sinkers_proj v' lg0) as (-> & _). rewrite E1.
    destruct (v !! nm) as [s|] eqn:En; cbn.
    + assert (v' !! nm = Some s) as -> by (subst v'; case_match; [done|]; by rewrite lookup_insert_ne by congruence).
      cbn. rewrite Hold by (by apply (Hids nm)). pose proof (proj2 (Hids nm s En)) as Hlt.
      destruct (lookup_lt_is_Some_2 (sinkers st) s Hlt) as [sk0 ->]. done.
    + case_bool_decide as Hn.
      * subst nm. assert (v' !! sd_name a = Some (length (sinkers st))) as -> by (subst v'; by rewrite En, lookup_insert_eq).
        cbn. rewrite Hs, lookup_snoc. cbn. by rewrite Hsk.
      * assert (v' !! nm = None) as -> by (subst v'; case_match; [done|]; by rewrite lookup_insert_ne). done.
  - intros nm s. subst v'. rewrite Hs, length_app. cbn. destruct (v !! sd_name a).
    + intros H%Hids. lia.
    + intros [[_ <-]|[_ H%Hids]]%lookup_insert_Some; lia.
Qed.

Lemma built_all daemon l base lg0 todo : forall ds st, (base <= length (sinkers st))%nat -> built st l base lg0 (kept daemon ds) ->
  exists st', each (make_sinker daemon l) todo st = (Ok tt, st') /\ extends l st st' /\ built st' l base lg0 (kept daemon (ds ++ todo)).
Proof.
  induction todo as [|a todo IH]; intros ds st Hb Hbu.
  { exists st. rewrite app_nil_r. split; [done|]. split; [apply extends_refl|done]. }
  assert (exists st1, make_sinker daemon l a st = (Ok tt, st1) /\ extends l st st1 /\ built st1 l base lg0 (kept daemon (ds ++ [a])))
    as (st1 & E1 & Hx1 & Hb1).
  { unfold kept. rewrite list.filter_app, list.filter_cons, list.filter_nil. case_decide as Hk; [by apply built_step|].
    rewrite app_nil_r. exists st. split; [|split; [apply extends_refl|done]].
    destruct daemon; [|destruct Hk; by right]. apply make_sinker_skip. destruct (sd_type a); [done|destruct Hk; by left]. }
  destruct (IH (ds ++ [a]) st1) as (st2 & E2 & Hx2 & Hb2); [destruct Hx1 as (_&_&_&_&e&->); rewrite length_app; lia|done|].
  exists st2. cbn [each]. rewrite (bind_ok _ _ _ _ _ E1). rewrite <- app_assoc in Hb2. split; [done|]. split; [|done].
  by apply (extends_trans l st st1).
Qed.

(** *** The manager between changes *)
Record manager_ok (st : log_state) : Prop := {
  mk_map : forall name p, _loggers_map st !! name = Some p -> exists l lg, p = Some l /\ loggers st !! l = Some lg /\ _name lg = name;
  mk_sinks : forall l lg s, loggers st !! l = Some lg -> s ∈ sinker_ids lg -> (s < length (sinkers st))%nat
}.

Lemma in_sinker_ids lg s : s ∈ sinker_ids lg <-> exists nm, _sinkers lg !! nm = Some s.
Proof.
  unfold sinker_ids. change (map snd) with (fmap (M := list) (@snd str nat)). rewrite list_elem_of_fmap. split.
  - intros ([nm s'] & -> & H%elem_of_map_to_list). by exists nm.
  - intros (nm & H). exists (nm, s). split; [done|by apply elem_of_map_to_list].
Qed.

(** What a change to the logger of one name leaves alone. *)
Record frame (name : str) (st st' : log_state) : Prop := {
  fr_map : forall n p, _loggers_map st !! n = Some p -> _loggers_map st' !! n = Some p;
  fr_others : forall n, n <> name -> _loggers_map st' !! n = _loggers_map st !! n;
  fr_loggers : forall n l, n <> name -> _loggers_map st !! n = Some (Some l) -> loggers st' !! l = loggers st !! l;
  fr_fresh : forall l lg, loggers st' !! l = Some lg -> loggers st !! l = Some lg \/ forall s, s ∈ sinker_ids lg -> (length (sinkers st) <= s)%nat;
  fr_sinkers : forall s, (s < length (sinkers st))%nat ->
    (forall l lg, _loggers_map st !! name = Some (Some l) -> loggers st !! l = Some lg -> s ∉ sinker_ids lg) -> sinkers st' !! s = sinkers st !! s
}.

Lemma frame_refl name st : frame name st st.
Proof. split; try done. intros l lg H. by left. Qed.

(** A logger as its definition wants it, with sinkers of its own. *)
Definition configured (daemon : bool) (d : LoggerDefine) (st : log_state) : Prop :=
  exists l lg, _loggers_map st !! ld_name d = Some (Some l) /\ loggers st !! l = Some lg /\
    _level_limit lg = ld_level_limit d /\ (ld_formatter d <> [] -> _formatter lg = parsed (ld_formatter d)) /\
    (forall nm, sinker_view st lg nm = asked (_formatter lg) (kept daemon (ld_sinkers d)) nm) /\
    forall s l' lg', s ∈ sinker_ids lg -> loggers st !! l' = Some lg' -> l' <> l -> s ∉ sinker_ids lg'.

Definition silenced (d : LoggerDefine) (st : log_state) : Prop :=
  exists l lg, _loggers_map st !! ld_name d = Some (Some l) /\ loggers st !! l = Some lg /\ _level_limit lg = UNKNOW /\ _sinkers lg = ∅.

Lemma manager_distinct st n1 n2 l : manager_ok st -> _loggers_map st !! n1 = Some (Some l) -> _loggers_map st !! n2 = Some (Some l) -> n1 = n2.
Proof.
  intros Hok H1 H2. destruct (mk_map _ Hok _ _ H1) as (l1 & lg1 & [= <-] & E1 & <-).
  destruct (mk_map _ Hok _ _ H2) as (l2 & lg2 & [= <-] & E2 & <-). congruence.
Qed.

Lemma configured_stable daemon d name st st' : manager_ok st -> frame name st st' -> name <> ld_name d ->
  configured daemon d st -> configured daemon d st'.
Proof.
  intros Hok Hfr Hn (l & lg & Hm & Hl & Hlv & Hf & Hv & Hx). exists l, lg.
  assert (forall s, s ∈ sinker_ids lg -> sinkers st' !! s = sinkers st !! s) as Hs.
  { intros s Hs. apply (fr_sinkers _ _ _ Hfr); [by eapply (mk_sinks _ Hok)|]. intros l' lg' Hm' Hl'. apply (Hx s l' lg' Hs Hl').
    intros ->. apply Hn. by eapply (manager_distinct st). }
  split; [by apply (fr_map _ _ _ Hfr)|]. split; [by rewrite (fr_loggers _ _ _ Hfr (ld_name d) l)|].
  split; [done|]. split; [done|]. split.
  - intros nm. rewrite <- Hv. unfold sinker_view. destruct (_sinkers lg !! nm) as [s|] eqn:E; [|done]. cbn.
    rewrite Hs; [done|]. apply in_sinker_ids. by exists nm.
  - intros s l' lg' Hin Hl' Hne. destruct (fr_fresh _ _ _ Hfr l' lg' Hl') as [H|H]; [by apply (Hx s l')|].
    intros Hin'. apply H in Hin'. pose proof (mk_sinks _ Hok _ _ _ Hl Hin). lia.
Qed.

Lemma silenced_stable d name st st' : frame name st st' -> name <> ld_name d -> silenced d st -> silenced d st'.
Proof.
  intros Hfr Hn (l & lg & Hm & Hl & H). exists l, lg. split; [by apply (fr_map _ _ _ Hfr)|].
  split; [|done]. by rewrite (fr_loggers _ _ _ Hfr (ld_name d) l).
Qed.

(** A loop of changes to loggers of different names. *)
Lemma each_framed {A} (f : A -> M log_state unit) (nm : A -> str) (Q : A -> log_state -> Prop) :
  (forall x st, manager_ok st -> exists st', f x st = (Ok tt, st') /\ manager_ok st' /\ frame (nm x) st st' /\ Q x st') ->
  (forall x n st st', manager_ok st -> frame n st st' -> n <> nm x -> Q x st -> Q x st') ->
  forall xs st, NoDup (map nm xs) -> manager_ok st ->
  exists st', each f xs st = (Ok tt, st') /\ manager_ok st' /\ (forall x, x ∈ xs -> Q x st') /\
    forall R : log_state -> Prop, (forall x st st', x ∈ xs -> manager_ok st -> frame (nm x) st st' -> R st -> R st') -> R st -> R st'.
Proof.
  intros Hf Hst xs. induction xs as [|x xs IH]; intros st Hnd Hok.
  { exists st. split_and!; try done. by intros x ?%not_elem_of_nil. }
  cbn [map] in Hnd. apply list.NoDup_cons in Hnd as [Hni Hnd]. destruct (Hf x st Hok) as (st1 & E1 & Hok1 & Hfr1 & Hq1).
  destruct (IH st1 Hnd Hok1) as (st2 & E2 & Hok2 & Hq2 & HR). exists st2. cbn [each]. rewrite (bind_ok _ _ _ _ _ E1).
  split; [done|]. split; [done|]. split.
  - intros y [->|Hy]%elem_of_cons; [|by apply Hq2]. apply HR; [|done]. intros z s s' Hz Hs Hfr. apply (Hst x (nm z)); [done|done|].
    intros Heq. apply Hni. rewrite <- Heq. apply list_elem_of_In, in_map, list_elem_of_In, Hz.
  - intros R HRs HR0. apply HR; [intros z s s' Hz; apply HRs; by right|]. by apply (HRs x st st1); [left|..].
Qed.

Lemma each_skip {A} (c : A -> bool) (g : A -> M log_state unit) xs st :
  each (fun x => if c x then mret tt else g x) xs st = each g (filter (fun x => c x = false) xs) st.
Proof.
  revert st. induction xs as [|x xs IH]; intros st; [done|]. cbn [each]. rewrite list.filter_cons. destruct (c x); cbn.
  - unfold mbind, M_bind, mret, M_ret. apply IH.
  - apply bind_ext. intros _ s. apply IH.
Qed.

Lemma GetAndSetLogger_ok name st : manager_ok st -> exists l st1, GetAndSetLogger name st = (Ok (Some l), st1) /\ manager_ok st1 /\
  _loggers_map st1 !! name = Some (Some l) /\ forall st2, frame name st1 st2 -> frame name st st2.
Proof.
  intros Hok. unfold GetAndSetLogger. rewrite (bind_ok get _ st st st eq_refl). destruct (_loggers_map st !! name) as [p|] eqn:Em.
  { destruct (mk_map _ Hok _ _ Em) as (l & lg & -> & _). by exists l, st. }
  destruct st as [lo si mp co fi nw]. cbn in Em.
  set (lg := mkLogger name DEBUG {[ lit "stdout" := length si ]} (parsed default_pattern) None).
  set (sk := mkLogsinker StdoutLogsinker DEBUG true (Some (parsed default_pattern)) 0 true).
  exists (length lo), (mkLogState (lo ++ [lg]) (si ++ [sk]) (<[name := Some (length lo)]> mp) co fi nw). split.
  { set (lg0 := mkLogger name DEBUG ∅ (parsed default_pattern) None). set (sk0 := mkLogsinker StdoutLogsinker DEBUG false None 0 true).
    assert (Logger_new name (mkLogState lo si mp co fi nw) = (Ok (length lo), mkLogState (lo ++ [lg0]) si mp co fi nw)) as E1
      by (unfold Logger_new; by rewrite parsed_eq).
    assert (StdoutLogsinker_new (mkLogState (lo ++ [lg0]) si mp co fi nw) = (Ok (length si), mkLogState (lo ++ [lg0]) (si ++ [sk0]) mp co fi nw)) as E2
      by done.
    assert (AddSinkers (length lo) (lit "stdout") (length si) (mkLogState (lo ++ [lg0]) (si ++ [sk0]) mp co fi nw) =
      (Ok tt, mkLogState (lo ++ [lg]) (si ++ [sk]) mp co fi nw)) as E3.
    { set (st0 := mkLogState (lo ++ [lg0]) (si ++ [sk0]) mp co fi nw).
      assert (the_sinker (length si) st0 = (Ok sk0, st0)) as E by (unfold the_sinker; cbn [sinkers st0]; by rewrite lookup_snoc).
      unfold AddSinkers. rewrite (bind_ok _ _ _ _ _ (the_logger_ok st0 (length lo) lg0 (lookup_snoc _ _))), (bind_ok _ _ _ _ _ E).
      subst st0 lg0 sk0. cbn [_b_has_formatter negb _formatter _sinkers]. rewrite lookup_empty. unfold mbind, M_bind.
      unfold sinker_SetFormatter, put_sinkers, modify, set_sinker, set_logger.
      cbn [set_sinkers sinkers loggers set_loggers]. by rewrite !alter_snoc. }
    rewrite (bind_ok _ _ _ _ _ E1), (bind_ok _ _ _ _ _ E2), (bind_ok _ _ _ _ _ E3). done. }
  assert (forall l lg', (lo ++ [lg]) !! l = Some lg' -> lo !! l = Some lg' \/ (l = length lo /\ lg' = lg)) as Hcase.
  { intros l lg'. rewrite lookup_app. destruct (lo !! l) eqn:E; [intros [= ->]; by left|]. apply lookup_ge_None in E.
    intros H. right. apply list_lookup_singleton_Some in H as [? <-]. split; [lia|done]. }
  assert (forall s, s ∈ sinker_ids lg <-> s = length si) as Hids.
  { intros s. rewrite in_sinker_ids. change (_sinkers lg) with ({[lit "stdout" := length si]} : gmap str nat).
    split; [by intros (nm & [_ <-]%lookup_singleton_Some)|intros ->; exists (lit "stdout"); apply lookup_singleton_eq]. }
  split_and!.
  - split; cbn.
    + intros n p [[<- <-]|[Hn H]]%lookup_insert_Some; [exists (length lo), lg; by rewrite lookup_snoc|].
      destruct (mk_map _ Hok n p H) as (l & lg' & -> & H1 & H2). exists l, lg'. split; [done|]. split; [|done]. by apply lookup_app_l_Some.
    + intros l lg' s H Hin. rewrite length_app. cbn. apply Hcase in H as [H|[_ ->]]; [pose proof (mk_sinks _ Hok _ _ _ H Hin); cbn in *; lia|].
      apply Hids in Hin. lia.
  - cbn. by rewrite lookup_insert_eq.
  - intros st2 Hfr. split; cbn.
    + intros n p H. apply (fr_map _ _ _ Hfr). cbn. rewrite lookup_insert_ne; [done|congruence].
    + intros n Hn. rewrite (fr_others _ _ _ Hfr n Hn). cbn. by rewrite lookup_insert_ne.
    + intros n l Hn H. rewrite (fr_loggers _ _ _ Hfr n l Hn) by (cbn; by rewrite lookup_insert_ne). cbn.
      destruct (mk_map _ Hok n _ H) as (l' & lg' & [= <-] & H1 & _). cbn in H1. rewrite H1. by apply lookup_app_l_Some.
    + intros l lg' H. destruct (fr_fresh _ _ _ Hfr l lg' H) as [[H1|[_ ->]]%Hcase|H1]; [by left| |].
      * right. intros s Hs%Hids. lia.
      * right. intros s Hs%H1. cbn in Hs. rewrite length_app in Hs. lia.
    + intros s Hs _. rewrite (fr_sinkers _ _ _ Hfr s); cbn.
      * by apply lookup_app_l.
      * rewrite length_app. lia.
      * intros l lg'. rewrite lookup_insert_eq. intros [= <-]. rewrite lookup_snoc. intros [= <-] Hin%Hids. lia.
Qed.

(** Changing the logger of a name to one without the old sinkers. *)
Lemma frame_change name l st st2 lg lg2 : manager_ok st -> _loggers_map st !! name = Some (Some l) -> loggers st !! l = Some lg ->
  _loggers_map st2 = _loggers_map st -> (forall l', l' <> l -> loggers st2 !! l' = loggers st !! l') -> loggers st2 !! l = Some lg2 ->
  _name lg2 = _name lg -> (forall s, s ∈ sinker_ids lg2 -> (length (sinkers st) <= s < length (sinkers st2))%nat) ->
  (length (sinkers st) <= length (sinkers st2))%nat ->
  (forall s, (s < length (sinkers st))%nat -> s ∉ sinker_ids lg -> sinkers st2 !! s = sinkers st !! s) ->
  frame name st st2 /\ manager_ok st2.
Proof.
  intros Hok Hm Hl Hm2 Ho Hl2 Hn Hids Hlen Hs. split; split.
  - by rewrite Hm2.
  - by rewrite Hm2.
  - intros n l' Hne Hml. apply Ho. intros ->. apply Hne. by eapply manager_distinct.
  - intros l' lg' H. destruct (decide (l' = l)) as [->|Hne]; [|left; by rewrite <- Ho].
    right. intros s Hin. assert (lg' = lg2) as -> by congruence. apply Hids in Hin. lia.
  - intros s Hlt H. apply Hs; [done|]. by apply (H l lg).
  - rewrite Hm2. intros n p H. destruct (mk_map _ Hok n p H) as (l' & lg' & -> & H1 & H2).
    destruct (decide (l' = l)) as [->|Hne]; [|exists l', lg'; split; [done|]; split; [by rewrite Ho|done]].
    exists l, lg2. split; [done|]. split; [done|]. congruence.
  - intros l' lg' s H Hin. destruct (decide (l' = l)) as [->|Hne].
    + assert (lg' = lg2) as -> by congruence. apply Hids in Hin. lia.
    + rewrite Ho in H by done. pose proof (mk_sinks _ Hok _ _ _ H Hin). lia.
Qed.

Lemma each_formatter f ids : forall st, exists t, each (fun s => sinker_SetFormatter s f) ids st = (Ok tt, set_sinkers t st) /\
  length t = length (sinkers st) /\ forall s, s ∉ ids -> t !! s = sinkers st !! s.
Proof.
  induction ids as [|i ids IH]; intros st; [exists (sinkers st); by destruct st|].
  set (st1 := set_sinker i (fun '(mkLogsinker k l _ _ t o) => mkLogsinker k l true (Some f) t o) st).
  destruct (IH st1) as (t & E & Hl & Hs). exists t. cbn [each].
  assert (sinker_SetFormatter i f st = (Ok tt, st1)) as E1 by done. rewrite (bind_ok _ _ _ _ _ E1), E.
  subst st1. destruct st. cbn in *. rewrite length_alter in Hl. split; [done|]. split; [done|].
  intros s [Hne Hni]%not_elem_of_cons. rewrite Hs by done. by apply list_lookup_alter_ne.
Qed.

Definition reset (l : nat) (lv : Level) (fm : str) : M log_state unit :=
  SetLevelLimit l lv;; (if bool_decide (fm = []) then mret tt else SetFormatter_str l fm);; ClearSinkers l.

Lemma reset_ok l lv fm st lg : loggers st !! l = Some lg -> exists st4, reset l lv fm st = (Ok tt, st4) /\
  _loggers_map st4 = _loggers_map st /\ (forall l', l' <> l -> loggers st4 !! l' = loggers st !! l') /\
  loggers st4 !! l = Some (mkLogger (_name lg) lv ∅ (if bool_decide (fm = []) then _formatter lg else parsed fm) (_root_logger lg)) /\
  length (sinkers st4) = length (sinkers st) /\ forall s, s ∉ sinker_ids lg -> sinkers st4 !! s = sinkers st !! s.
Proof.
  intros Hl. destruct st as [lo si mp co fi nw]. cbn in Hl. unfold reset.
  set (lg1 := mkLogger (_name lg) lv (_sinkers lg) (_formatter lg) (_root_logger lg)).
  set (lo1 := alter (fun '(mkLogger n _ s f r) => mkLogger n lv s f r) l lo).
  assert (SetLevelLimit l lv (mkLogState lo si mp co fi nw) = (Ok tt, mkLogState lo1 si mp co fi nw)) as E1 by done.
  assert (lo1 !! l = Some lg1) as Hl1 by (subst lo1; rewrite list_lookup_alter_eq, Hl; by destruct lg).
  rewrite (bind_ok _ _ _ _ _ E1). case_bool_decide.
  - eexists. split; [reflexivity|]. cbn. split; [done|]. split; [intros l' Hne; subst lo1; by rewrite !list_lookup_alter_ne|].
    split; [rewrite list_lookup_alter_eq, Hl1; done|done].
  - unfold SetFormatter_str. rewrite parsed_eq. unfold SetFormatter.
    destruct (each_formatter (parsed fm) (map snd (map_to_list (_sinkers lg1))) (mkLogState lo1 si mp co fi nw)) as (t & E & Hlen & Hs).
    rewrite bind_assoc, (bind_ok _ _ _ _ _ (the_logger_ok (mkLogState lo1 si mp co fi nw) l lg1 Hl1)), bind_assoc, (bind_ok _ _ _ _ _ E).
    eexists. split; [reflexivity|]. cbn. split; [done|]. split; [intros l' Hne; subst lo1; by rewrite !list_lookup_alter_ne|].
    split; [rewrite !list_lookup_alter_eq, Hl1; done|]. cbn in Hlen. by split.
Qed.

Lemma apply_define_ok daemon d st : manager_ok st -> exists st', apply_define daemon d st = (Ok tt, st') /\ manager_ok st' /\
  frame (ld_name d) st st' /\ configured daemon d st'.
Proof.
  intros Hok. destruct (GetAndSetLogger_ok (ld_name d) st Hok) as (l & st1 & E1 & Hok1 & Hm1 & Hfr1).
  destruct (mk_map _ Hok1 _ _ Hm1) as (l' & lg & [= <-] & Hl & Hn).
  destruct (reset_ok l (ld_level_limit d) (ld_formatter d) st1 lg Hl) as (st4 & E4 & Hm4 & Ho4 & Hl4 & Hlen4 & Hs4).
  set (lg4 := mkLogger (_name lg) (ld_level_limit d) ∅ (if bool_decide (ld_formatter d = []) then _formatter lg else parsed (ld_formatter d)) (_root_logger lg)) in *.
  destruct (built_all daemon l (length (sinkers st4)) lg4 (ld_sinkers d) [] st4 ltac:(lia)) as (st5 & E5 & (Hm5 & _ & _ & Ho5 & ext & Hs5) & [(v & Hl5 & Hv5 & Hids5)]).
  { split. exists ∅. split; [exact Hl4|]. split; [intros nm; unfold sinker_view; cbn; by rewrite lookup_empty|]. intros nm s. by rewrite lookup_empty. }
  exists st5. split.
  { unfold apply_define. rewrite (bind_ok _ _ _ _ _ E1). cbn [deref]. rewrite (bind_ok (mret l) _ st1 l st1 eq_refl).
    unfold reset in E4. rewrite <- E5. rewrite <- (bind_ok (SetLevelLimit l (ld_level_limit d);; (if bool_decide (ld_formatter d = []) then mret tt
      else SetFormatter_str l (ld_formatter d));; ClearSinkers l) (fun _ => each (make_sinker daemon l) (ld_sinkers d)) st1 tt st4 E4).
    rewrite bind_assoc. apply bind_ext. intros _ s. by rewrite bind_assoc. }
  destruct (with_sinkers_proj v lg4) as (Ev & Ef & _).
  assert (forall s, s ∈ sinker_ids (with_sinkers v lg4) -> (length (sinkers st1) <= s < length (sinkers st5))%nat) as Hids.
  { intros s (nm & H)%in_sinker_ids. rewrite Ev in H. apply Hids5 in H. lia. }
  assert (length (sinkers st5) = length (sinkers st4) + length ext)%nat as Hlen5 by (by rewrite Hs5, length_app).
  destruct (frame_change (ld_name d) l st1 st5 lg (with_sinkers v lg4)) as [Hfr Hok5]; try done.
  - congruence.
  - intros l' Hne. by rewrite Ho5, Ho4.
  - lia.
  - intros s Hlt Hni. rewrite Hs5, lookup_app_l by lia. by apply Hs4.
  - split; [done|]. split; [by apply Hfr1|]. exists l, (with_sinkers v lg4). split; [congruence|]. split; [done|].
    split; [done|]. split; [intros Hne; rewrite Ef; subst lg4; cbn; by rewrite bool_decide_eq_false_2|].
    split; [by rewrite Ef|]. intros s l' lg' Hin Hl' Hne Hin'. apply Hids in Hin.
    rewrite Ho5, Ho4 in Hl' by done. pose proof (mk_sinks _ Hok1 _ _ _ Hl' Hin'). lia.
Qed.

Lemma remove_define_ok d st : manager_ok st -> exists st', remove_define d st = (Ok tt, st') /\ manager_ok st' /\
  frame (ld_name d) st st' /\ silenced d st'.
Proof.
  intros Hok. destruct (GetAndSetLogger_ok (ld_name d) st Hok) as (l & st1 & E1 & Hok1 & Hm1 & Hfr1).
  destruct (mk_map _ Hok1 _ _ Hm1) as (l' & lg & [= <-] & Hl & Hn).
  destruct (reset_ok l UNKNOW [] st1 lg Hl) as (st4 & E4 & Hm4 & Ho4 & Hl4 & Hlen4 & Hs4). exists st4. split.
  { unfold remove_define. rewrite (bind_ok _ _ _ _ _ E1). cbn [deref]. rewrite (bind_ok (mret l) _ st1 l st1 eq_refl). exact E4. }
  destruct (frame_change (ld_name d) l st1 st4 lg _ Hok1 Hm1 Hl Hm4 Ho4 Hl4) as [Hfr Hok4]; [done| |lia|by intros s _ ?; apply Hs4|].
  { intros s (nm & H)%in_sinker_ids. cbn in H. by rewrite lookup_empty in H. }
  split; [done|]. split; [by apply Hfr1|]. exists l. eexists. split; [congruence|]. split; [exact Hl4|done].
Qed.

Lemma find_define_none n set : find_define n set = None <-> n ∉ map ld_name set.
Proof.
  clear strftime openable.
  unfold find_define. induction set as [|d set IH]; [split; [intros _; by apply not_elem_of_nil|done]|].
  rewrite list.filter_cons. cbn [map]. rewrite not_elem_of_cons. case_decide; [split; [done|intros [? _]; congruence]|].
  rewrite IH. split; [intros; split; [congruence|done]|tauto].
Qed.

Lemma nodup_filter_names (P : LoggerDefine -> Prop) `{!forall x, Decision (P x)} ds : NoDup (map ld_name ds) -> NoDup (map ld_name (filter P ds)).
Proof.
  induction ds as [|d ds IH]; [done|]. cbn [map]. intros [Hni Hnd]%list.NoDup_cons. rewrite list.filter_cons. case_decide; [|by apply IH].
  cbn [map]. apply list.NoDup_cons. split; [|by apply IH]. intros Hin. apply Hni.
  apply list_elem_of_In, in_map_iff in Hin as (x & <- & Hx%list_elem_of_In). apply list_elem_of_filter in Hx as [_ Hx].
  apply list_elem_of_In, in_map, list_elem_of_In, Hx.
Qed.

Lemma name_in d ds : d ∈ ds -> ld_name d ∈ map ld_name ds.
Proof. intros H. apply list_elem_of_In, in_map, list_elem_of_In, H. Qed.

Lemma each_gone (new_value old_value : list LoggerDefine) st :
  each (fun i => match find_define (ld_name i) new_value with None => remove_define i | Some _ => mret tt end) old_value st =
  each (fun i => if bool_decide (find_define (ld_name i) new_value <> None) then mret tt else remove_define i) old_value st.
Proof.
  revert st. induction old_value as [|x xs IH]; intros st; [done|]. cbn [each].
  destruct (find_define (ld_name x) new_value); [rewrite bool_decide_eq_true_2 by done|rewrite bool_decide_eq_false_2 by tauto].
  - unfold mbind, M_bind, mret, M_ret. apply IH.
  - apply bind_ext. intros _ s. apply IH.
Qed.

(** What a changed configuration makes of the loggers.  Between two sets of
    definitions with one definition a name, the listener runs to its end; a logger
    whose definition is new or different has the limit, the format and exactly the
    sinkers the definition asks for (of two with one name the first; a daemon gets
    none for standard output; a sinker's own format counts when it has one without
    an error, the logger's otherwise); one that is no longer defined prints
    nothing; and every other logger is left as it was. *)
Theorem config_applied (daemon : bool) (old_value new_value : list LoggerDefine) (st : log_state) :
  manager_ok st -> NoDup (map ld_name old_value) -> NoDup (map ld_name new_value) ->
  exists st', on_logs_config_changed daemon old_value new_value st = (Ok tt, st') /\ manager_ok st' /\
    (forall d, d ∈ new_value -> find_define (ld_name d) old_value <> Some d -> configured daemon d st') /\
    (forall d, d ∈ old_value -> ld_name d ∉ map ld_name new_value -> silenced d st') /\
    (forall n l lg, _loggers_map st !! n = Some (Some l) -> loggers st !! l = Some lg ->
       (forall d, d ∈ new_value -> ld_name d = n -> find_define n old_value = Some d) -> (n ∈ map ld_name old_value -> n ∈ map ld_name new_value) ->
       _loggers_map st' !! n = Some (Some l) /\ loggers st' !! l = Some lg).
Proof.
  intros Hok Hndo Hndn.
  set (c1 := fun i => bool_decide (find_define (ld_name i) old_value = Some i)).
  set (c2 := fun i => bool_decide (find_define (ld_name i) new_value <> None)).
  destruct (each_framed (apply_define daemon) ld_name (configured daemon) (apply_define_ok daemon)
    ltac:(intros; by eapply configured_stable) (filter (fun x => c1 x = false) new_value) st (nodup_filter_names _ _ Hndn) Hok)
    as (st1 & E1 & Hok1 & Hq1 & HR1).
  destruct (each_framed remove_define ld_name silenced remove_define_ok ltac:(intros; by eapply silenced_stable)
    (filter (fun x => c2 x = false) old_value) st1 (nodup_filter_names _ _ Hndo) Hok1) as (st2 & E2 & Hok2 & Hq2 & HR2).
  assert (forall x, x ∈ filter (fun x => c2 x = false) old_value -> ld_name x ∉ map ld_name new_value) as Hgone.
  { intros x [Hc _]%list_elem_of_filter. subst c2. cbn in Hc. apply bool_decide_eq_false_1, dec_stable in Hc. by apply find_define_none. }
  exists st2. split_and!.
  - unfold on_logs_config_changed.
    assert (each (fun i => if bool_decide (find_define (ld_name i) old_value = Some i) then mret tt else apply_define daemon i) new_value st = (Ok tt, st1)) as E
      by exact (eq_trans (each_skip c1 (apply_define daemon) new_value st) E1).
    rewrite (bind_ok _ _ _ _ _ E), <- E2, <- (each_skip c2 remove_define old_value st1). apply each_gone.
  - done.
  - intros d Hd Hne. apply HR2.
    + intros x s s' Hx Hs Hfr. apply (configured_stable daemon d (ld_name x)); [done..|]. intros E. apply (Hgone x Hx). rewrite E. by apply name_in.
    + apply Hq1, list_elem_of_filter. split; [|done]. subst c1. cbn. by apply bool_decide_eq_false_2.
  - intros d Hd Hni. apply Hq2, list_elem_of_filter. split; [|done]. subst c2. cbn. apply bool_decide_eq_false_2.
    apply find_define_none in Hni. rewrite Hni. intros H. by apply H.
  - intros n l lg Hm Hl Hsame Hkept.
    apply (HR2 (fun s => _loggers_map s !! n = Some (Some l) /\ loggers s !! l = Some lg));
      [|apply (HR1 (fun s => _loggers_map s !! n = Some (Some l) /\ loggers s !! l = Some lg)); [|done]].
    + intros x s s' Hx Hs Hfr [A1 A2]. assert (n <> ld_name x) as Hne.
      { intros ->. apply (Hgone x Hx). apply Hkept. apply list_elem_of_filter in Hx as [_ Hx]. by apply name_in. }
      split; [by apply (fr_map _ _ _ Hfr)|]. by rewrite (fr_loggers _ _ _ Hfr n l).
    + intros x s s' Hx Hs Hfr [A1 A2]. assert (n <> ld_name x) as Hne.
      { intros ->. apply list_elem_of_filter in Hx as [Hc Hx]. specialize (Hsame x Hx eq_refl). subst c1. cbn in Hc.
        apply bool_decide_eq_false_1 in Hc. tauto. }
      split; [by apply (fr_map _ _ _ Hfr)|]. by rewrite (fr_loggers _ _ _ Hfr n l).
Qed.
End loggers.

(** ** Definitions as text

    A YAML node is what its keys answer: [None] is a key that is not defined.  The
    texts go through yaml-cpp, which gives back the keys it was given. *)
Record sinker_node := mkSinkerNode { n_type : option str; n_file : option str; n_formatter : option str; n_name : option str; n_level : option str }.
Record logger_node := mkLoggerNode { ln_name : option str; ln_level : option str; ln_formatter : option str; ln_sinkers : list sinker_node }.

(** One turn of the loop of [lexicalCast<std::string, LoggerDefine>]: [None] is [continue]. *)
Definition read_sinker (a : sinker_node) : option LogSinkerDefine :=
  let level := from_option Level_ToLevel UNKNOW (n_level a) in
  let formatter := default [] (n_formatter a) in
  let name := default [] (n_name a) in
  match n_type a with
  | None => None
  | Some type =>
    if bool_decide (type = lit "FileLogAppender") then
      match n_file a with Some file => Some (mkSinkerDefine name level formatter FILE file) | None => None end
    else if bool_decide (type = lit "StdoutLogAppender") then Some (mkSinkerDefine name level formatter STDOUT [])
    else None
  end.

Definition read_define (n : logger_node) : outcome LoggerDefine :=
  match ln_name n with
  | None => Throw LogicError
  | Some name =>
    Ok (mkLoggerDefine name (Level_ToLevel (default [] (ln_level n))) (omap read_sinker (ln_sinkers n)) (default [] (ln_formatter n)))
  end.

(** A key is assigned unless the value is empty. *)
Definition assigned (s : str) : option str := if bool_decide (s = []) then None else Some s.
Definition assigned_level (l : Level) : option str := if bool_decide (l = UNKNOW) then None else Some (Level_ToString l).

(** [lexicalCast<LoggerDefine, std::string>] *)
Definition write_sinker (a : LogSinkerDefine) : sinker_node :=
  match sd_type a with
  | FILE => mkSinkerNode (Some (lit "FileLogSinker")) (Some (sd_file a)) (assigned (sd_formatter a)) (assigned (sd_name a)) (assigned_level (sd_level_limit a))
  | STDOUT => mkSinkerNode (Some (lit "StdoutLogSinker")) None (assigned (sd_formatter a)) (assigned (sd_name a)) (assigned_level (sd_level_limit a))
  end.
Definition write_define (d : LoggerDefine) : logger_node :=
  mkLoggerNode (Some (ld_name d)) (assigned_level (ld_level_limit d)) (assigned (ld_formatter d)) (map write_sinker (ld_sinkers d)).

Lemma level_roundtrip l : Level_ToLevel (Level_ToString l) = l.
Proof. by destruct l. Qed.

Lemma assigned_default s : default [] (assigned s) = s.
Proof. unfold assigned. by case_bool_decide. Qed.


(** ** Concrete runs *)
Definition empty_state : log_state := mkLogState [] [] ∅ [] ∅ 100.
Definition started : log_state := snd (LoggerManager_new empty_state).
Definition always (name : str) (t : Z) : bool := true.

Lemma started_ok : manager_ok started.
Proof.
  split.
  - intros name p H. assert (_loggers_map started = {[lit "root" := Some 0%nat]}) as E by (vm_compute; reflexivity).
    rewrite E in H. apply lookup_singleton_Some in H as [<- <-]. eexists _, _. split; [done|]. split; vm_compute; reflexivity.
  - assert (length (loggers started) = 1%nat) as Hlen by (vm_compute; reflexivity).
    assert (sinker_ids <$> loggers started !! 0%nat = Some [0%nat]) as E by (vm_compute; reflexivity).
    assert (length (sinkers started) = 1%nat) as -> by (vm_compute; reflexivity).
    intros l lg s H Hin. pose proof (lookup_lt_Some _ _ _ H) as Hl. assert (l = 0%nat) as -> by lia.
    rewrite H in E. injection E as E. rewrite E, list_elem_of_singleton in Hin. subst s. lia.
Qed.

Lemma log_delivers_witness : exists st', log demo_strftime always 0 INFO demo_event started = (Ok tt, st') /\ loggers st' = loggers started /\
  delivered demo_strftime always INFO demo_event started (Some 0%nat) st'.
Proof.
  apply (log_delivers demo_strftime always INFO demo_event started 0 (Some 0%nat)).
  - eapply pb_here; [vm_compute; reflexivity|vm_compute; discriminate|by apply not_elem_of_nil|by_computation].
  - intros p lg [= <-] H. vm_compute in H. injection H as <-. split; [vm_compute; repeat constructor; by apply not_elem_of_nil|].
    intros s Hs. assert (s = 0%nat) as -> by (vm_compute in Hs; by apply list_elem_of_singleton). eexists. split; [vm_compute; reflexivity|].
    eexists. split; [vm_compute; reflexivity|]. intros fmt Hf. vm_compute. reflexivity.
Defined.

Definition demo_define : LoggerDefine :=
  mkLoggerDefine (lit "root") INFO [mkSinkerDefine (lit "root_stdout") INFO [] STDOUT []; mkSinkerDefine (lit "f") WARN (lit "%m%n") FILE (lit "a.log")] [].

Lemma config_applied_witness : exists st', on_logs_config_changed always false [] [demo_define] started = (Ok tt, st') /\ manager_ok st' /\
    (forall d, d ∈ [demo_define] -> find_define (ld_name d) [] <> Some d -> configured false d st') /\
    (forall d, d ∈ [] -> ld_name d ∉ map ld_name [demo_define] -> silenced d st') /\
    (forall n l lg, _loggers_map started !! n = Some (Some l) -> loggers started !! l = Some lg ->
       (forall d, d ∈ [demo_define] -> ld_name d = n -> find_define n [] = Some d) -> (n ∈ map ld_name [] -> n ∈ map ld_name [demo_define]) ->
       _loggers_map st' !! n = Some (Some l) /\ loggers st' !! l = Some lg).
Proof.
  apply (config_applied always false [] [demo_define] started started_ok); [constructor|by_computation].
Defined.

(** Sinkers without a name share the empty one, and only the first is kept. *)
Example unnamed_sinker_dropped :
  let a := mkSinkerDefine [] INFO [] FILE (lit "a.log") in let b := mkSinkerDefine [] INFO [] FILE (lit "b.log") in
  let st := snd (on_logs_config_changed always false [] [mkLoggerDefine (lit "root") INFO [a; b] []] started) in
  files (snd (log demo_strftime always 0 INFO demo_event st)) !! lit "a.log" <> None /\
  files (snd (log demo_strftime always 0 INFO demo_event st)) !! lit "b.log" = None.
Proof. split; [vm_compute; discriminate|vm_compute; reflexivity]. Qed.

(** A file that could not be opened takes what is logged in the next three seconds
    without a word. *)
Example closed_file_swallows :
  let d := mkLoggerDefine (lit "root") INFO [mkSinkerDefine (lit "f") INFO [] FILE (lit "a.log")] [] in
  let st := snd (on_logs_config_changed (fun _ _ => false) false [] [d] started) in
  exists st', log demo_strftime (fun _ _ => false) 0 INFO demo_event st = (Ok tt, st') /\ files st' = ∅ /\ cout st' = cout st.
Proof. eexists. split; [vm_compute; reflexivity|]. split; vm_compute; reflexivity. Qed.

(** After [ClearLogger] the root logger is a null pointer, and logging to it reads
    through it. *)
Example cleared_root_null : forall ev,
  (ClearLogger;; r ← GetRootLogger; XTEN_LOG_LEVEL demo_strftime always r INFO ev) started =
    (Undef NullDeref, set_loggers_map {[lit "root" := None]} started).
Proof. intros ev. vm_compute. reflexivity. Qed.
