(* ===== verification/Config.v ===== *)
(** config.h, config.cpp: variables of the configuration, their listeners, the
    registry of names, and the loading of a YAML document.

    The types of the variables are numbered; what a text means as a value of a type
    is the business of [lexicalCast] over yaml-cpp and boost, a parameter here, as
    is the text of a node that is not a scalar. *)
From Stdlib Require Import List String.
From stdpp Require Import gmap.
From S2P Require Import Prelude Bytes Strings.

#[local] Abbreviation str := (list Z).

(** ** A variable and its threads

    [SetValue] compares and calls the listeners under the read lock, which any
    number of threads can hold, and stores the value under the write lock, which
    nobody else may hold: a thread is between calls, about to call the listeners
    that are left, or about to store.  A listener is known by a number; [told] is
    what the listeners have been called with: who, the old value, the new one. *)
Module ConfigVar.
Section var.
Context {T : Type} `{EqDecision T}.

Inductive pc := Idle | Calling (v : T) (todo : list nat) | Writing (v : T).

Record ConfigVar := mkVar {
  _val : T;
  _change_cbs : list (Z * nat);
  cb_count : Z;                  (* static, 64 bits; the keys of the table are int *)
  threads : list pc;
  told : list (nat * T * T)
}.

Definition set_val v '(mkVar _ c n th to) := mkVar v c n th to.
Definition set_cbs c '(mkVar v _ n th to) := mkVar v c n th to.
Definition set_count n '(mkVar v c _ th to) := mkVar v c n th to.
Definition set_thread (t : nat) (p : pc) '(mkVar v c n th to) := mkVar v c n (<[t := p]> th) to.
Definition tell e '(mkVar v c n th to) := mkVar v c n th (to ++ [e]).

Definition ConfigVar_new (val : T) (n : nat) : ConfigVar := mkVar val [] 0 (repeat Idle n) [].

Definition GetValue : M ConfigVar T := v ← get; mret (_val v).

(** SetValue, up to the first listener: nothing to do when the value is the same. *)
Definition SetValue_begin (t : nat) (val : T) : M ConfigVar unit :=
  v ← get;
  if decide (_val v = val) then mret tt else modify (set_thread t (Calling val (map snd (_change_cbs v)))).

(** [cb.second(_val, val)] for the next listener, or the end of the loop. *)
Definition SetValue_call (t : nat) : M ConfigVar unit :=
  v ← get;
  match threads v !! t with
  | Some (Calling val (cb :: todo)) => modify (tell (cb, _val v, val));; modify (set_thread t (Calling val todo))
  | Some (Calling val []) => modify (set_thread t (Writing val))
  | _ => mret tt
  end.

Definition SetValue_write (t : nat) : M ConfigVar unit :=
  v ← get;
  match threads v !! t with
  | Some (Writing val) => modify (set_val val);; modify (set_thread t Idle)
  | _ => mret tt
  end.

(** [_change_cbs[++cb_count] = cb] *)
Definition AddListener (cb : nat) : M ConfigVar Z :=
  v ← get;
  let n := u64 (cb_count v + 1) in
  modify (set_count n);;
  modify (set_cbs (filter (fun e => e.1 <> s32 n) (_change_cbs v) ++ [(s32 n, cb)]));;
  mret n.

Definition DelListener (cb_key : Z) : M ConfigVar unit :=
  modify (fun v => set_cbs (filter (fun e => e.1 <> s32 cb_key) (_change_cbs v)) v).

Definition GetListener (cb_key : Z) : M ConfigVar (option nat) :=
  v ← get; mret (match filter (fun e => e.1 = s32 cb_key) (_change_cbs v) with e :: _ => Some e.2 | [] => None end).

Definition ClearListener : M ConfigVar unit := modify (set_cbs []).

Inductive action := ABegin (t : nat) (val : T) | ACall (t : nat) | AWrite (t : nat) | AAdd (cb : nat) | ADel (k : Z) | AClear.

Definition perform (a : action) : M ConfigVar unit :=
  match a with
  | ABegin t val => SetValue_begin t val
  | ACall t => SetValue_call t
  | AWrite t => SetValue_write t
  | AAdd cb => AddListener cb;; mret tt
  | ADel k => DelListener k
  | AClear => ClearListener
  end.

Definition reading (p : pc) : bool := match p with Calling _ _ => true | _ => false end.

(** The write lock is free when no thread is in the loop over the listeners. *)
Definition free (v : ConfigVar) : Prop := forallb (fun p => negb (reading p)) (threads v) = true.

Definition enabled (a : action) (v : ConfigVar) : Prop :=
  match a with
  | ABegin t _ => threads v !! t = Some Idle
  | ACall t => exists p, threads v !! t = Some p /\ reading p = true
  | AWrite t => (exists val, threads v !! t = Some (Writing val)) /\ free v
  | AAdd _ | ADel _ | AClear => free v
  end.

Fixpoint steps (acts : list action) : M ConfigVar unit :=
  match acts with [] => mret tt | a :: acts => perform a;; steps acts end.
Fixpoint all_enabled (acts : list action) (v : ConfigVar) : Prop :=
  match acts with [] => True | a :: acts => enabled a v /\ all_enabled acts (snd (perform a v)) end.

(** A whole call of SetValue with nobody else around. *)
Definition SetValue (t : nat) (val : T) (v : ConfigVar) : list action :=
  if decide (_val v = val) then [ABegin t val] else ABegin t val :: map (fun _ => ACall t) (_change_cbs v) ++ [ACall t; AWrite t].

(** ** One call after the other *)
Fixpoint changes (v0 : T) (vals : list T) : list (T * T) :=
  match vals with
  | [] => []
  | v :: vals => if decide (v0 = v) then changes v0 vals else (v0, v) :: changes v vals
  end.

Fixpoint serial (t : nat) (vals : list T) : M ConfigVar unit :=
  match vals with [] => mret tt | val :: vals => v ← get; steps (SetValue t val v);; serial t vals end.

Definition announce (L : list nat) (c : T * T) : list (nat * T * T) := map (fun cb => (cb, c.1, c.2)) L.

Lemma steps_app a1 a2 v : steps (a1 ++ a2) v = (steps a1;; steps a2) v.
Proof.
  revert v. induction a1 as [|a a1 IH]; intros v; [done|]. cbn [app steps]. rewrite bind_assoc. apply bind_ext. intros [] v'. apply IH.
Qed.

Lemma calls_ok (L : list nat) t val : forall v, threads v !! t = Some (Calling val L) ->
  steps (map (fun _ => ACall t) L) v =
    (Ok tt, set_thread t (Calling val []) (mkVar (_val v) (_change_cbs v) (cb_count v) (threads v) (told v ++ announce L (_val v, val)))).
Proof.
  induction L as [|cb L IH]; intros v Ht.
  - cbn. destruct v. cbn in *. rewrite app_nil_r, list_insert_id by done. done.
  - cbn [map steps]. destruct v as [va c n th to]. cbn in Ht.
    assert (perform (ACall t) (mkVar va c n th to) = (Ok tt, mkVar va c n (<[t := Calling val L]> th) (to ++ [(cb, va, val)]))) as E.
    { unfold perform, SetValue_call, mbind, M_bind, get, modify. cbn. by rewrite Ht. }
    rewrite (bind_ok _ _ _ _ _ E), IH by (cbn; apply list_lookup_insert_eq; by eapply lookup_lt_Some).
    cbn. by rewrite list_insert_insert_eq, <- app_assoc.
Qed.

Lemma call_frame t val v : threads v !! t = Some Idle -> _val v <> val ->
  steps (SetValue t val v) v =
    (Ok tt, mkVar val (_change_cbs v) (cb_count v) (threads v) (told v ++ announce (map snd (_change_cbs v)) (_val v, val))).
Proof.
  intros Ht Hne. pose proof (lookup_lt_Some _ _ _ Ht) as Hl. unfold SetValue. rewrite decide_False by done. cbn [steps].
  set (L := map snd (_change_cbs v)). destruct v as [va c n th to]. cbn in Ht, Hne, Hl.
  assert (perform (ABegin t val) (mkVar va c n th to) = (Ok tt, mkVar va c n (<[t := Calling val L]> th) to)) as E
    by (unfold perform, SetValue_begin, mbind, M_bind, get; cbn; by rewrite decide_False).
  rewrite (bind_ok _ _ _ _ _ E), steps_app.
  assert (map (fun _ => ACall t) c = map (fun _ => ACall t) L) as Em by (subst L; by rewrite map_map).
  cbn [_change_cbs]. rewrite Em.
  pose proof (calls_ok L t val (mkVar va c n (<[t := Calling val L]> th) to) ltac:(by apply list_lookup_insert_eq)) as Ec.
  cbn in Ec. rewrite list_insert_insert_eq in Ec. rewrite (bind_ok _ _ _ _ _ Ec). cbn [steps].
  assert (perform (ACall t) (mkVar va c n (<[t := Calling val []]> th) (to ++ announce L (va, val))) =
    (Ok tt, mkVar va c n (<[t := Writing val]> th) (to ++ announce L (va, val)))) as E2.
  { unfold perform, SetValue_call, mbind, M_bind, get, modify. cbn. rewrite list_lookup_insert_eq by done. cbn. by rewrite list_insert_insert_eq. }
  rewrite (bind_ok _ _ _ _ _ E2). cbn [steps].
  assert (perform (AWrite t) (mkVar va c n (<[t := Writing val]> th) (to ++ announce L (va, val))) =
    (Ok tt, mkVar val c n th (to ++ announce L (va, val)))) as E3.
  { unfold perform, SetValue_write, mbind, M_bind, get, modify. cbn. rewrite list_lookup_insert_eq by done. cbn.
    by rewrite list_insert_insert_eq, list_insert_id. }
  by rewrite (bind_ok _ _ _ _ _ E3).
Qed.

(** When the calls of [SetValue] do not overlap, the listeners see a chain: a
    call with the value already stored does nothing, any other tells each listener
    once the value before and the value after, in the order of the table, and then
    stores the value. *)
Theorem SetValue_serial (t : nat) (vals : list T) (v : ConfigVar) : threads v !! t = Some Idle ->
  exists v', serial t vals v = (Ok tt, v') /\ threads v' = threads v /\ _change_cbs v' = _change_cbs v /\
    _val v' = List.last (_val v :: map snd (changes (_val v) vals)) (_val v) /\
    told v' = told v ++ concat (map (announce (map snd (_change_cbs v))) (changes (_val v) vals)).
Proof.
  revert v. induction vals as [|val vals IH]; intros v Ht.
  { exists v. cbn. by rewrite app_nil_r. }
  cbn [serial changes]. rewrite (bind_ok get _ v v v eq_refl). destruct (decide (_val v = val)) as [Heq|Hne].
  - assert (steps (SetValue t val v) v = (Ok tt, v)) as E.
    { unfold SetValue. rewrite decide_True by done. unfold steps, perform, SetValue_begin, mbind, M_bind, get. by rewrite decide_True. }
    rewrite (bind_ok _ _ _ _ _ E). by apply IH.
  - rewrite (bind_ok _ _ _ _ _ (call_frame t val v Ht Hne)).
    destruct (IH (mkVar val (_change_cbs v) (cb_count v) (threads v) (told v ++ announce (map snd (_change_cbs v)) (_val v, val))) Ht)
      as (v' & E & Hth & Hcb & Hv & Hto). cbn in *. exists v'. split; [done|]. split; [done|]. split; [done|]. split.
    + rewrite Hv. destruct (map snd (changes val vals)) as [|x l] eqn:El; [done|]. clear. revert x. induction l as [|y l IH]; intros x; [done|apply IH].
    + by rewrite Hto, <- app_assoc.
Qed.

(** ** Calls that overlap *)
Definition keeps_listeners (a : action) : Prop := match a with AAdd _ | ADel _ | AClear => False | _ => True end.

(** [L] are the listeners, [v0] the value at the start. *)
Definition pc_told (L : list nat) (v : ConfigVar) (p : pc) : Prop :=
  match p with
  | Idle => True
  | Calling val todo => val <> _val v /\ exists done_, L = done_ ++ todo /\ forall cb, cb ∈ done_ -> (cb, _val v, val) ∈ told v
  | Writing val => forall cb, cb ∈ L -> exists old, (cb, old, val) ∈ told v
  end.

Record told_inv (L : list nat) (v0 : T) (v : ConfigVar) : Prop := {
  ti_cbs : map snd (_change_cbs v) = L;
  ti_pcs : forall t p, threads v !! t = Some p -> pc_told L v p;
  ti_val : _val v = v0 \/ forall cb, cb ∈ L -> exists old, (cb, old, _val v) ∈ told v;
  ti_new : forall cb old new, (cb, old, new) ∈ told v -> cb ∈ L /\ old <> new
}.

Lemma free_lookup v t p : free v -> threads v !! t = Some p -> reading p = false.
Proof. unfold free. rewrite forallb_forall. intros H Ht. apply negb_true_iff, H, list_elem_of_In. by eapply list_elem_of_lookup_2. Qed.

Lemma pc_told_mono L v p e : pc_told L v p -> pc_told L (tell e v) p.
Proof.
  destruct v. destruct p; cbn; [done| |]; setoid_rewrite elem_snoc; [|intros H cb Hcb; destruct (H cb Hcb) as (old & ?); exists old; by left].
  intros (Hne & d & Hd & H). split; [done|]. exists d. split; [done|]. intros cb Hcb. left. by apply H.
Qed.

Lemma told_step L v0 v a : told_inv L v0 v -> enabled a v -> keeps_listeners a ->
  exists v', perform a v = (Ok tt, v') /\ told_inv L v0 v'.
Proof.
  intros [Hc Hp Hv Hn] Ha Hk. destruct v as [va c n th to]. cbn in Hc, Hp, Hv, Hn.
  destruct a as [t val|t|t|cb|k|]; try done; cbn [perform enabled] in *.
  - unfold SetValue_begin, mbind, M_bind, get. cbn. case_decide as Hd; (eexists; split; [reflexivity|]); [by split|].
    split; cbn; try done. intros t' p. destruct (decide (t' = t)) as [->|Hne].
    + intros H. apply list_lookup_insert_Some in H as [(_ & <- & _)|[]]; [|done]. cbn. rewrite Hc. split; [congruence|]. exists [].
      split; [done|]. by intros cb ?%not_elem_of_nil.
    + rewrite list_lookup_insert_ne by done. apply Hp.
  - destruct Ha as (p & Ht & Hr). destruct p as [|val todo|]; try done. cbn in Ht. pose proof (Hp t _ Ht) as (Hne & d & Hd & Hdone).
    cbn in Hne, Hdone. unfold SetValue_call, mbind, M_bind, get, modify. cbn. rewrite Ht. destruct todo as [|cb todo]; (eexists; split; [reflexivity|]).
    + split; cbn; try done. intros t' p. destruct (decide (t' = t)) as [->|Hne'].
      * intros H. apply list_lookup_insert_Some in H as [(_ & <- & _)|[]]; [|done]. cbn. intros cb Hcb. exists va. apply Hdone.
        by rewrite Hd, app_nil_r in Hcb.
      * rewrite list_lookup_insert_ne by done. apply Hp.
    + split; cbn; try done.
      * intros t' p. destruct (decide (t' = t)) as [->|Hne'].
        -- intros H. apply list_lookup_insert_Some in H as [(_ & <- & _)|[]]; [|done]. cbn. split; [done|]. exists (d ++ [cb]).
           rewrite <- app_assoc. split; [done|]. intros cb' [Hcb| ->]%elem_snoc; apply elem_snoc; [left; by apply Hdone|by right].
        -- rewrite list_lookup_insert_ne by done. intros H. apply (pc_told_mono L (mkVar va c n th to) p (cb, va, val)). by apply (Hp t').
      * destruct Hv as [Hv|Hv]; [by left|right]. intros cb' Hcb. destruct (Hv cb' Hcb) as (old & H). exists old. apply elem_snoc. by left.
      * intros cb' old new [H|[= -> -> ->]]%elem_snoc; [by apply (Hn cb' old new)|]. split; [|congruence]. rewrite Hd. apply elem_of_app. right. by left.
  - destruct Ha as [(val & Ht) Hf]. cbn in Ht. unfold SetValue_write, mbind, M_bind, get, modify. cbn. rewrite Ht. eexists. split; [reflexivity|].
    pose proof (Hp t _ Ht) as Hw. cbn in Hw. split; cbn; try done; [|by right]. intros t' p. destruct (decide (t' = t)) as [->|Hne'].
    + intros H. by apply list_lookup_insert_Some in H as [(_ & <- & _)|[]].
    + rewrite list_lookup_insert_ne by done. intros H. pose proof (free_lookup _ _ _ Hf H) as Hr. pose proof (Hp t' _ H) as Hp'. by destruct p.
Qed.

(** C38: However calls of [SetValue] overlap, no listener is left out: each call of
    a listener has two different values, and a value is stored only when every
    listener has been told of it. *)
Theorem listeners_told (val : T) (cbs : list nat) (n : nat) (acts : list action) :
  let start := mkVar val (combine (map Z.of_nat (seq 1 (length cbs))) cbs) (zlen cbs) (repeat Idle n) [] in
  Forall keeps_listeners acts -> all_enabled acts start ->
  exists v, steps acts start = (Ok tt, v) /\
    (forall cb old new, (cb, old, new) ∈ told v -> cb ∈ cbs /\ old <> new) /\
    (_val v = val \/ forall cb, cb ∈ cbs -> exists old, (cb, old, _val v) ∈ told v).
Proof.
  intros start. assert (told_inv cbs val start) as Hi.
  { split; cbn; [|intros t p H|by left|by intros ??? ?%not_elem_of_nil].
    - clear. generalize 1%nat as k. induction cbs as [|cb cbs IH]; intros k; [done|]. cbn. by rewrite IH.
    - apply list_elem_of_lookup_2, list_elem_of_In, repeat_spec in H as ->. done. }
  generalize dependent start. intros start. revert start. induction acts as [|a acts IH]; intros v Hi Hk Hen.
  - exists v. split; [done|]. destruct Hi. by split.
  - apply list.Forall_cons in Hk as [Ha Hk]. destruct Hen as [He Hen]. destruct (told_step cbs val v a Hi He Ha) as (v1 & E & Hi1).
    rewrite E in Hen. destruct (IH v1 Hi1 Hk Hen) as (v2 & E2 & H). exists v2. cbn [steps]. by rewrite (bind_ok _ _ _ _ _ E).
Qed.

End var.
Arguments ConfigVar : clear implicits.
Arguments pc : clear implicits.
Arguments action : clear implicits.

Lemma SetValue_serial_witness : exists v', serial 0 [3; 3; 5] (mkVar 1 [(1, 7%nat)] 1 [Idle] []) = (Ok tt, v') /\
  threads v' = [Idle] /\ _change_cbs v' = [(1, 7%nat)] /\
    _val v' = List.last (1 :: map snd (changes 1 [3; 3; 5])) 1 /\
    told v' = [] ++ concat (map (announce [7%nat]) (changes 1 [3; 3; 5])).
Proof. apply (SetValue_serial 0 [3; 3; 5] (mkVar 1 [(1, 7%nat)] 1 [Idle] [])). reflexivity. Defined.

(** Two threads set the variable; the second is the last to tell the listener and
    the first is the last to store. *)
Definition race : list (action Z) := [ABegin 0 1; ABegin 1 2; ACall 0; ACall 1; ACall 0; ACall 1; AWrite 1; AWrite 0].

Lemma race_enabled : all_enabled race (mkVar 0 [(1, 7%nat)] 1 [Idle; Idle] []).
Proof.
  cbn. repeat match goal with |- _ /\ _ => split | |- exists _, _ => eexists end; try (vm_compute; reflexivity); exact I.
Qed.

Lemma listeners_told_witness : exists v, steps race (mkVar 0 [(1, 7%nat)] 1 [Idle; Idle] []) = (Ok tt, v) /\
    (forall cb old new, (cb, old, new) ∈ told v -> cb ∈ [7%nat] /\ old <> new) /\
    (_val v = 0 \/ forall cb, cb ∈ [7%nat] -> exists old, (cb, old, _val v) ∈ told v).
Proof. apply (listeners_told 0 [7%nat] 2 race); [repeat constructor|exact race_enabled]. Defined.

(** The read lock does not order the calls: at the end of this run nobody is in a
    call any more, the variable holds 1, and the last thing its listener has been
    told is that it is 2. *)
Theorem listener_left_behind : exists v, all_enabled race (mkVar 0 [(1, 7%nat)] 1 [Idle; Idle] []) /\
  steps race (mkVar 0 [(1, 7%nat)] 1 [Idle; Idle] []) = (Ok tt, v) /\
  threads v = [Idle; Idle] /\ _val v = 1 /\ told v = [(7%nat, 0, 1); (7%nat, 0, 2)].
Proof. eexists. split; [exact race_enabled|]. split; [vm_compute; reflexivity|]. by vm_compute. Qed.
End ConfigVar.

(** ** The registry *)
Module Config.
(** A node of a document, as yaml-cpp shows it. *)
Inductive Node := Scalar (s : str) | Map (kvs : list (str * Node)) | Seq (items : list Node) | Null.

Section config.
Context {value : Type} `{EqDecision value}.
(** [FromStr]: the value of a type a text stands for, or an exception. *)
Context (from_string : nat -> str -> option value).
(** A node that is not a scalar, as text. *)
Context (emit : Node -> str).

Record var := mkVar { v_type : nat; v_desc : str; v_val : value }.

Record config := mkConfig { datas : gmap str var; modify_times : gmap str Z }.
Definition set_datas v '(mkConfig _ t) := mkConfig v t.
Definition set_times v '(mkConfig d _) := mkConfig d v.

Definition name_chars : str := lit "abcdefghikjlmnopqrstuvwxyz._012345678".
(** [name.find_first_not_of(...) == npos] *)
Definition name_ok (name : str) : bool := forallb (fun c => bool_decide (c ∈ name_chars)) name.

(** Config::LookUp with a value, for a type *)
Definition LookUp (type : nat) (name : str) (val : value) (desc : str) : M config (option str) :=
  c ← get;
  match datas c !! name with
  | Some v => mret (if bool_decide (v_type v = type) then Some name else None)
  | None =>
    if negb (name_ok name) then mret None
    else modify (set_datas (<[name := mkVar type desc val]> (datas c)));; mret (Some name)
  end.

(** Config::LookUp without one *)
Definition LookUp_only (type : nat) (name : str) : M config (option str) :=
  c ← get; mret (match datas c !! name with Some v => if bool_decide (v_type v = type) then Some name else None | None => None end).

Definition LookUpBase (name : str) : M config (option str) :=
  c ← get; mret (if decide (is_Some (datas c !! name)) then Some name else None).

(** ConfigVar::FromString; what [SetValue] does besides is the matter of [ConfigVar]. *)
Definition FromString (name val_str : str) : M config bool :=
  c ← get;
  match datas c !! name with
  | Some v =>
    match from_string (v_type v) val_str with
    | Some val => modify (set_datas (<[name := mkVar (v_type v) (v_desc v) val]> (datas c)));; mret true
    | None => mret false
    end
  | None => undef NullDeref
  end.

Definition child (prefix key : str) : str := if bool_decide (prefix = []) then key else prefix ++ lit "." ++ key.

Fixpoint ListAllMembers (prefix : str) (node : Node) : list (str * Node) :=
  if negb (name_ok prefix) then []
  else (prefix, node) ::
    match node with
    | Map kvs => (fix go kvs := match kvs with [] => [] | (k, n) :: kvs => ListAllMembers (child prefix k) n ++ go kvs end) kvs
    | _ => []
    end.

Definition text (n : Node) : str := match n with Scalar s => s | _ => emit n end.

Fixpoint load_nodes (all_nodes : list (str * Node)) : M config unit :=
  match all_nodes with
  | [] => mret tt
  | (key, n) :: all_nodes =>
    (if bool_decide (key = []) then mret tt
     else
       v ← LookUpBase (ToLower key);
       match v with Some name => FromString name (text n);; mret tt | None => mret tt end);;
    load_nodes all_nodes
  end.

Definition LoadFromYaml (root : Node) : M config unit := load_nodes (ListAllMembers [] root).

(** A file of the directory: its name, its time, and its document unless reading it
    throws. *)
Record file := mkFile { f_name : str; st_mtime : Z; f_root : option Node }.

Fixpoint LoadFromConFDir (files : list file) (force : bool) : M config unit :=
  match files with
  | [] => mret tt
  | i :: files =>
    c ← get;
    (if negb force && (default 0 (modify_times c !! f_name i) =? u64 (st_mtime i)) then mret tt
     else
       modify (set_times (<[f_name i := u64 (st_mtime i)]> (modify_times c)));;
       match f_root i with Some root => LoadFromYaml root | None => mret tt end);;
    LoadFromConFDir files force
  end.

(** ** What a document says *)
Inductive member : str -> Node -> str -> Node -> Prop :=
  | m_here p n : name_ok p = true -> member p n p n
  | m_in p kvs k n q n' : name_ok p = true -> (k, n) ∈ kvs -> member (child p k) n q n' -> member p (Map kvs) q n'.

Definition nodes_at (root : Node) (name : str) : list Node := map snd (filter (fun e => e.1 = name) (ListAllMembers [] root)).

Fixpoint size (n : Node) : nat :=
  match n with Map kvs => S ((fix go kvs := match kvs with [] => 0%nat | (_, n) :: kvs => (size n + go kvs)%nat end) kvs) | _ => 1%nat end.

Lemma size_in k n kvs : (k, n) ∈ kvs -> (size n < size (Map kvs))%nat.
Proof.
  cbn [size]. induction kvs as [|[k' n'] kvs IH]; [by intros ?%not_elem_of_nil|].
  intros [[= -> ->]|H]%elem_of_cons; [|specialize (IH H)]; cbn in *; lia.
Qed.

Lemma in_members k : forall n p q n', (size n <= k)%nat -> (q, n') ∈ ListAllMembers p n <-> member p n q n'.
Proof.
  induction k as [|k IH]; intros n p q n' Hs; [destruct n; cbn in Hs; lia|].
  assert (forall kvs, (size (Map kvs) <= S k)%nat -> forall l, (forall x, x ∈ l -> x ∈ kvs) ->
    (q, n') ∈ (fix go kvs := match kvs with [] => [] | (k, n) :: kvs => ListAllMembers (child p k) n ++ go kvs end) l <->
    exists key m, (key, m) ∈ l /\ member (child p key) m q n') as Hgo.
  { intros kvs Hk l Hl. induction l as [|[key m] l IHl]; [split; [by intros ?%not_elem_of_nil|by intros (?&?&?%not_elem_of_nil&_)]|].
    rewrite elem_of_app, IHl by (intros x Hx; apply Hl; by right). pose proof (size_in key m kvs (Hl _ ltac:(by left))).
    rewrite (IH m (child p key)) by lia. split.
    - intros [H1|(k1 & m1 & H1 & H2)]; [exists key, m; split; [by left|done]|exists k1, m1; split; [by right|done]].
    - intros (k1 & m1 & [[= -> ->]|H1]%elem_of_cons & H2); [by left|right; by exists k1, m1]. }
  split.
  - intros H. destruct n as [s|kvs|items|]; cbn [ListAllMembers] in H; destruct (name_ok p) eqn:Eo; cbn [negb] in H;
      try (by apply not_elem_of_nil in H); apply elem_of_cons in H as [[= -> ->]|H]; try (by constructor); try (by apply not_elem_of_nil in H).
    apply (Hgo kvs) in H as (key & m & H1 & H2); [|done|done]. by eapply m_in.
  - intros H. inversion H as [p' m Ho|p' kvs key m q' m' Ho Hin Hm]; subst.
    + destruct n'; cbn [ListAllMembers]; rewrite Ho; by left.
    + cbn [ListAllMembers]. rewrite Ho. cbn [negb]. right. apply (Hgo kvs); [done..|]. by exists key, m.
Qed.

Lemma members_ok p n q n' : (q, n') ∈ ListAllMembers p n -> name_ok q = true.
Proof. rewrite (in_members (size n)) by done. by induction 1. Qed.

Lemma ToLower_ok name : name_ok name = true -> ToLower name = name.
Proof.
  induction name as [|c name IH]; [done|]. cbn [name_ok forallb ToLower map]. rewrite andb_true_iff. intros [Hc Hn]. f_equal; [|by apply IH].
  apply bool_decide_eq_true_1 in Hc. assert (Forall (fun c => tolower c = c) name_chars) as H by by_computation.
  rewrite list.Forall_forall in H. by apply H.
Qed.

Definition assign (v : var) (n : Node) : var :=
  mkVar (v_type v) (v_desc v) (default (v_val v) (from_string (v_type v) (text n))).

Lemma assign_id (v : var) : mkVar (v_type v) (v_desc v) (v_val v) = v.
Proof. by destruct v. Qed.

(** What a list of keys and nodes does to the variable of a name. *)
Definition assigned (l : list (str * Node)) (name : str) (v : var) : var :=
  foldl assign v (map snd (filter (fun e => e.1 = name /\ e.1 <> []) l)).

Lemma load_nodes_ok l : Forall (fun e => name_ok e.1 = true) l -> forall c, exists c', load_nodes l c = (Ok tt, c') /\
  modify_times c' = modify_times c /\ forall name, datas c' !! name = assigned l name <$> datas c !! name.
Proof.
  induction 1 as [|[key n] l Hk Hl IH]; intros c; [exists c; split; [done|]; split; [done|]; intros; by destruct (_ !! name)|].
  cbn [load_nodes fst] in *.
  assert (exists c1, (if bool_decide (key = []) then mret tt
     else v ← LookUpBase (ToLower key); match v with Some name => FromString name (text n);; mret tt | None => mret tt end) c = (Ok tt, c1) /\
     modify_times c1 = modify_times c /\
     forall name, datas c1 !! name = (if bool_decide (key = name /\ key <> []) then (fun v => assign v n) else id) <$> datas c !! name)
    as (c1 & E1 & Ht1 & H1).
  { case_bool_decide as He; [exists c; split; [done|]; split; [done|]; intros; rewrite bool_decide_eq_false_2 by tauto; by rewrite option_fmap_id|].
    rewrite ToLower_ok by done. unfold LookUpBase, mbind, M_bind, get. case_decide as Hin.
    2: { exists c. split; [done|]. split; [done|]. intros name. case_bool_decide as Hd; [|by rewrite option_fmap_id]. destruct Hd as [<- _].
      by apply eq_None_not_Some in Hin as ->. }
    destruct Hin as (v & Hv). unfold FromString, mbind, M_bind, get. cbn. rewrite Hv. destruct (from_string (v_type v) (text n)) as [val|] eqn:Ef.
    - eexists. split; [reflexivity|]. destruct c as [d t]. cbn in *. split; [done|]. intros name. case_bool_decide as Hd.
      + destruct Hd as [<- _]. rewrite lookup_insert_eq, Hv. cbn. unfold assign. by rewrite Ef.
      + rewrite lookup_insert_ne by naive_solver. by rewrite option_fmap_id.
    - exists c. split; [done|]. split; [done|]. intros name. case_bool_decide as Hd; [|by rewrite option_fmap_id]. destruct Hd as [<- _]. rewrite Hv. cbn. unfold assign.
      by rewrite Ef, assign_id. }
  destruct (IH c1) as (c2 & E2 & Ht2 & H2). exists c2. rewrite (bind_ok _ _ _ _ _ E1). split; [done|]. split; [congruence|].
  intros name. rewrite H2, H1. unfold assigned. rewrite list.filter_cons. cbn [fst].
  destruct (datas c !! name) as [v|]; [|done]. cbn. case_decide as Hd; [rewrite bool_decide_eq_true_2 by done|rewrite bool_decide_eq_false_2 by done]; done.
Qed.


(** ** Files *)
Definition unmodified (c : config) (i : file) : Prop := default 0 (modify_times c !! f_name i) = u64 (st_mtime i).

Lemma load_file_ok i c : exists c', (match f_root i with Some root => LoadFromYaml root | None => mret tt end) c = (Ok tt, c') /\ modify_times c' = modify_times c.
Proof.
  destruct (f_root i) as [root|]; [|by exists c]. destruct (load_nodes_ok (ListAllMembers [] root)) with (c := c) as (c' & E & Ht & _).
  - apply list.Forall_forall. intros [q n] H. by apply (members_ok [] root q n).
  - by exists c'.
Qed.

Lemma load_files_ok files : forall force c, NoDup (map f_name files) -> exists c', LoadFromConFDir files force c = (Ok tt, c') /\
  (forall i, i ∈ files -> unmodified c' i) /\ forall name, name ∉ map f_name files -> modify_times c' !! name = modify_times c !! name.
Proof.
  induction files as [|i files IH]; intros force c Hnd; [exists c; split; [done|]; split; [by intros i ?%not_elem_of_nil|done]|].
  cbn [map] in Hnd. apply list.NoDup_cons in Hnd as [Hni Hnd]. cbn [LoadFromConFDir]. rewrite (bind_ok get _ c c c eq_refl).
  assert (exists c1, (if negb force && (default 0 (modify_times c !! f_name i) =? u64 (st_mtime i)) then mret tt
     else modify (set_times (<[f_name i := u64 (st_mtime i)]> (modify_times c)));;
       match f_root i with Some root => LoadFromYaml root | None => mret tt end) c = (Ok tt, c1) /\
     unmodified c1 i /\ forall name, name <> f_name i -> modify_times c1 !! name = modify_times c !! name) as (c1 & E1 & Hu & Ho).
  { destruct (negb force && _) eqn:Eb.
    - apply andb_true_iff in Eb as [_ Eb%Z.eqb_eq]. exists c. by split_and!.
    - destruct (load_file_ok i (set_times (<[f_name i := u64 (st_mtime i)]> (modify_times c)) c)) as (c1 & E & Ht). exists c1.
      split; [exact E|]. destruct c as [d t]. cbn in Ht. unfold unmodified. rewrite Ht. split; [by rewrite lookup_insert_eq|].
      intros name Hn. by rewrite lookup_insert_ne. }
  destruct (IH force c1 Hnd) as (c2 & E2 & Hu2 & Ho2). exists c2. rewrite (bind_ok _ _ _ _ _ E1). split; [done|]. split.
  - intros j [->|Hj]%elem_of_cons; [|by apply Hu2]. unfold unmodified. by rewrite Ho2.
  - intros name [Hn Hn']%not_elem_of_cons. by rewrite Ho2, Ho.
Qed.

Lemma skip_unmodified files c : (forall i, i ∈ files -> unmodified c i) -> LoadFromConFDir files false c = (Ok tt, c).
Proof.
  induction files as [|i files IH]; intros H; [done|]. cbn [LoadFromConFDir]. rewrite (bind_ok get _ c c c eq_refl).
  rewrite (H i) by (by left). rewrite Z.eqb_refl. cbn [negb andb]. apply IH. intros j Hj. apply H. by right.
Qed.

(** Loading the directory again without force, with no file modified since,
    changes nothing, whether its files could be read or not. *)
Theorem reload_idle (files : list file) (force : bool) (c : config) : NoDup (map f_name files) ->
  exists c', LoadFromConFDir files force c = (Ok tt, c') /\ LoadFromConFDir files false c' = (Ok tt, c').
Proof.
  intros Hnd. destruct (load_files_ok files force c Hnd) as (c' & E & Hu & _). exists c'. split; [done|]. by apply skip_unmodified.
Qed.
End config.
Arguments config : clear implicits.
Arguments var : clear implicits.
End Config.

(** A document with a list and a digit that names may not have. *)
Definition demo_root : Config.Node :=
  Config.Map [(lit "tcp", Config.Map [(lit "timeout", Config.Scalar (lit "9")); (lit "Timeout", Config.Scalar (lit "8"))]);
              (lit "port9", Config.Scalar (lit "7"))].

Example demo_members : map fst (Config.ListAllMembers [] demo_root) = [[]; lit "tcp"; lit "tcp.timeout"].
Proof. vm_compute. reflexivity. Qed.

Lemma reload_idle_witness :
  let files := [Config.mkFile (lit "a.yml") 5 (Some demo_root); Config.mkFile (lit "b.yml") 6 None] in
  exists c', Config.LoadFromConFDir (fun _ s => Some s) (fun _ => []) files true (Config.mkConfig ∅ ∅) = (Ok tt, c') /\
    Config.LoadFromConFDir (fun _ s => Some s) (fun _ => []) files false c' = (Ok tt, c').
Proof.
  intros files. apply (Config.reload_idle (fun _ s => Some s) (fun _ => []) files true (Config.mkConfig ∅ ∅)). by_computation.
Defined.
