(* ===== verification/Ikcp.v ===== *)
(** The reliable transport under a kcp session (kcp/third_part/ikcp.c, the copy
    this program is built with): segments and their encoding, fragmenting and
    merging of messages, acknowledgements, the windows, retransmission and
    congestion control.

    A queue of segments is a list, [iqueue_add_tail] an append; a segment's [len]
    is the length of its data.  The fields of [IKCPCB] are kept in groups: what is
    configured, what is being sent, what is being received, the flow control and
    the clock.  The array of acknowledgements is a list of its pairs.  The bytes of
    [buffer] up to [ptr] are a list too, but its room counts: writing past it is
    undefined.  The datagrams that [output] is called with are the result of a
    flush, in order.  Products and sums of the round-trip estimate that leave an
    int are taken to wrap.  Logging and the rdc heuristic, which nothing calls, are
    left out. *)
From S2P Require Import Prelude Bytes.

Definition IKCP_RTO_NDL : Z := 30.
Definition IKCP_RTO_MIN : Z := 100.
Definition IKCP_RTO_DEF : Z := 200.
Definition IKCP_RTO_MAX : Z := 60000.
Definition IKCP_CMD_PUSH : Z := 81.
Definition IKCP_CMD_ACK : Z := 82.
Definition IKCP_CMD_WASK : Z := 83.
Definition IKCP_CMD_WINS : Z := 84.
Definition IKCP_ASK_SEND : Z := 1.
Definition IKCP_ASK_TELL : Z := 2.
Definition IKCP_WND_SND : Z := 32.
Definition IKCP_WND_RCV : Z := 128.
Definition IKCP_MTU_DEF : Z := 1400.
Definition IKCP_INTERVAL : Z := 100.
Definition IKCP_OVERHEAD : Z := 24.
Definition IKCP_DEADLINK : Z := 20.
Definition IKCP_THRESH_INIT : Z := 2.
Definition IKCP_THRESH_MIN : Z := 2.
Definition IKCP_PROBE_INIT : Z := 7000.
Definition IKCP_PROBE_LIMIT : Z := 120000.

(** ** Bytes and times *)
Definition ikcp_decode (n : nat) (p : list Z) : Z * list Z := (le_value (take n p), drop n p).

Definition _imin_ (a b : Z) : Z := if a <=? b then a else b.
Definition _imax_ (a b : Z) : Z := if b <=? a then a else b.
Definition _ibound_ (lower middle upper : Z) : Z := _imin_ (_imax_ lower middle) upper.
Definition _itimediff (later earlier : Z) : Z := s32 (later - earlier).

(** ** Data *)
Record IKCPSEG := mkSeg {
  conv : Z; cmd : Z; frg : Z; wnd : Z; ts : Z; sn : Z; una : Z;
  resendts : Z; rto : Z; fastack : Z; xmit : Z; data : list Z
}.

Record config := mkConfig {
  k_conv : Z; mtu : Z; mss : Z; room : Z;   (* room: the size of buffer *)
  snd_wnd : Z; rcv_wnd : Z; interval : Z; rx_minrto : Z;
  nodelay : Z; fastresend : Z; nocwnd : Z; stream : Z; dead_link : Z; output : bool
}.
Record sending := mkSending { snd_una : Z; snd_nxt : Z; snd_queue : list IKCPSEG; snd_buf : list IKCPSEG; nsnd_que : Z; nsnd_buf : Z }.
Record receiving := mkReceiving { rcv_nxt : Z; rcv_queue : list IKCPSEG; rcv_buf : list IKCPSEG; nrcv_que : Z; nrcv_buf : Z; acklist : list (Z * Z) }.
Record flow := mkFlow {
  rmt_wnd : Z; cwnd : Z; incr : Z; ssthresh : Z;
  rx_rttval : Z; rx_srtt : Z; rx_rto : Z; probe : Z; ts_probe : Z; probe_wait : Z
}.
Record clock := mkClock { current : Z; ts_flush : Z; updated : bool; state : Z; snd_sum : Z; timeout_resnd_cnt : Z }.

Record IKCPCB := mkKcp { cfg : config; tx : sending; rx : receiving; flw : flow; clk : clock }.
Definition set_cfg c k := mkKcp c (tx k) (rx k) (flw k) (clk k).
Definition set_tx s k := mkKcp (cfg k) s (rx k) (flw k) (clk k).
Definition set_rx r k := mkKcp (cfg k) (tx k) r (flw k) (clk k).
Definition set_flw f k := mkKcp (cfg k) (tx k) (rx k) f (clk k).
Definition set_clk t k := mkKcp (cfg k) (tx k) (rx k) (flw k) t.
Definition set_rmt_wnd w f :=
  mkFlow w (cwnd f) (incr f) (ssthresh f) (rx_rttval f) (rx_srtt f) (rx_rto f) (probe f) (ts_probe f) (probe_wait f).
Definition set_probe p f :=
  mkFlow (rmt_wnd f) (cwnd f) (incr f) (ssthresh f) (rx_rttval f) (rx_srtt f) (rx_rto f) p (ts_probe f) (probe_wait f).
Definition set_acklist a r := mkReceiving (rcv_nxt r) (rcv_queue r) (rcv_buf r) (nrcv_que r) (nrcv_buf r) a.

Definition ikcp_create (conv : Z) : IKCPCB :=
  mkKcp
    (mkConfig conv IKCP_MTU_DEF (IKCP_MTU_DEF - IKCP_OVERHEAD) ((IKCP_MTU_DEF + IKCP_OVERHEAD) * 3)
       IKCP_WND_SND IKCP_WND_RCV IKCP_INTERVAL IKCP_RTO_MIN 0 0 0 0 IKCP_DEADLINK false)
    (mkSending 0 0 [] [] 0 0)
    (mkReceiving 0 [] [] 0 0 [])
    (mkFlow IKCP_WND_RCV 0 0 IKCP_THRESH_INIT 0 0 IKCP_RTO_DEF 0 0 0)
    (mkClock 0 IKCP_INTERVAL false 0 0 0).

(** ** Settings *)
Definition ikcp_setoutput (k : IKCPCB) : IKCPCB :=
  let '(mkConfig cv mt ms ro sw rw iv mr nd fr nc st dl _) := cfg k in
  set_cfg (mkConfig cv mt ms ro sw rw iv mr nd fr nc st dl true) k.

(** The code, and what becomes of the settings.  [mtu + IKCP_OVERHEAD] is unsigned. *)
Definition ikcp_setmtu (m : Z) (k : IKCPCB) : Z * IKCPCB :=
  if (m <? 50) || (m <? IKCP_OVERHEAD) then (-1, k)
  else
    let '(mkConfig cv _ _ _ sw rw iv mr nd fr nc st dl ou) := cfg k in
    (0, set_cfg (mkConfig cv m (u32 (m - IKCP_OVERHEAD)) (u32 ((m + IKCP_OVERHEAD) * 3)) sw rw iv mr nd fr nc st dl ou) k).

Definition bound_interval (i : Z) : Z := if 5000 <? i then 5000 else if i <? 10 then 10 else i.

Definition ikcp_interval (i : Z) (k : IKCPCB) : IKCPCB :=
  let '(mkConfig cv mt ms ro sw rw _ mr nd fr nc st dl ou) := cfg k in
  set_cfg (mkConfig cv mt ms ro sw rw (bound_interval i) mr nd fr nc st dl ou) k.

Definition ikcp_nodelay (nodelay interval resend nc : Z) (k : IKCPCB) : IKCPCB :=
  let '(mkConfig cv mt ms ro sw rw iv mr nd fr nw st dl ou) := cfg k in
  set_cfg (mkConfig cv mt ms ro sw rw
    (if 0 <=? interval then bound_interval interval else iv)
    (if 0 <=? nodelay then if nodelay =? 0 then IKCP_RTO_MIN else IKCP_RTO_NDL else mr)
    (if 0 <=? nodelay then nodelay else nd)
    (if 0 <=? resend then resend else fr)
    (if 0 <=? nc then nc else nw) st dl ou) k.

Definition ikcp_wndsize (sndwnd rcvwnd : Z) (k : IKCPCB) : IKCPCB :=
  let '(mkConfig cv mt ms ro sw rw iv mr nd fr nc st dl ou) := cfg k in
  set_cfg (mkConfig cv mt ms ro (if 0 <? sndwnd then sndwnd else sw) (if 0 <? rcvwnd then _imax_ rcvwnd IKCP_WND_RCV else rw)
    iv mr nd fr nc st dl ou) k.

Definition ikcp_waitsnd (k : IKCPCB) : Z := s32 (nsnd_buf (tx k) + nsnd_que (tx k)).

(** The first four bytes of a datagram. *)
Definition ikcp_getconv (p : list Z) : Z := fst (ikcp_decode 4 p).

(** ** Receiving a message *)
(** The loop of [ikcp_peeksize] over the queue. *)
Fixpoint peek_length (l : list IKCPSEG) (length : Z) : Z :=
  match l with
  | [] => length
  | seg :: l => let length := s32 (length + zlen (data seg)) in if frg seg =? 0 then length else peek_length l length
  end.

Definition ikcp_peeksize (r : receiving) : Z :=
  match rcv_queue r with
  | [] => -1
  | seg :: _ =>
    if frg seg =? 0 then s32 (zlen (data seg))
    else if nrcv_que r <? u32 (frg seg + 1) then -1
    else peek_length (rcv_queue r) 0
  end.

(** The loop that merges fragments: the bytes, their count, and how many segments. *)
Fixpoint merge (l : list IKCPSEG) (buffer : list Z) (len : Z) (n : nat) : list Z * Z * nat :=
  match l with
  | [] => (buffer, len, n)
  | seg :: l =>
    let buffer := buffer ++ data seg in
    let len := s32 (len + zlen (data seg)) in
    if frg seg =? 0 then (buffer, len, S n) else merge l buffer len (S n)
  end.

(** From [rcv_buf] to [rcv_queue], as long as the next segment is there and the
    window has room. *)
Fixpoint move_available (rcv_wnd : Z) (buf : list IKCPSEG) (r : receiving) : receiving :=
  match buf with
  | [] => r
  | seg :: buf =>
    if (sn seg =? rcv_nxt r) && (nrcv_que r <? rcv_wnd) then
      move_available rcv_wnd buf
        (mkReceiving (u32 (rcv_nxt r + 1)) (rcv_queue r ++ [seg]) buf (u32 (nrcv_que r + 1)) (u32 (nrcv_buf r - 1)) (acklist r))
    else r
  end.

(** [ikcp_recv]: the value returned and what is in the buffer; a negative [len]
    peeks. *)
Definition ikcp_recv (len : Z) : M IKCPCB (Z * list Z) :=
  k ← get;
  let r := rx k in
  match rcv_queue r with
  | [] => mret (-1, [])
  | _ =>
    if len =? - 2 ^ 31 then undef SignedOverflow
    else
      let ispeek := len <? 0 in
      let len := if len <? 0 then - len else len in
      let peeksize := ikcp_peeksize r in
      if peeksize <? 0 then mret (-2, [])
      else if len <? peeksize then mret (-3, [])
      else
        let recover := rcv_wnd (cfg k) <=? nrcv_que r in
        let size := len in
        let '(buffer, len, n) := merge (rcv_queue r) [] 0 0 in
        if size <? zlen buffer then undef OutOfBounds else
        let r := if ispeek then r
                 else mkReceiving (rcv_nxt r) (drop n (rcv_queue r)) (rcv_buf r) (u32 (nrcv_que r - Z.of_nat n)) (nrcv_buf r) (acklist r) in
        assert (len =? peeksize);;
        let r := move_available (rcv_wnd (cfg k)) (rcv_buf r) r in
        modify (set_rx r);;
        (if (nrcv_que r <? rcv_wnd (cfg k)) && recover then
           modify (fun k => set_flw (set_probe (Z.lor (probe (flw k)) IKCP_ASK_TELL) (flw k)) k)
         else mret tt);;
        mret (len, buffer)
  end.

(** ** Sending a message *)
(** A segment as [ikcp_segment_new] leaves it, once its length, number and data are set. *)
Definition new_seg (frg : Z) (data : list Z) : IKCPSEG := mkSeg 0 0 frg 0 0 0 0 0 0 0 0 data.

(** [count] segments, numbered downwards; in stream mode all are last ones. *)
Fixpoint fragments (mss : Z) (stream : bool) (count : nat) (buffer : list Z) : list IKCPSEG :=
  match count with
  | O => []
  | S i =>
    let size := Z.to_nat (if s32 mss <? zlen buffer then s32 mss else zlen buffer) in
    new_seg (if stream then 0 else Z.of_nat i) (take size buffer) :: fragments mss stream i (drop size buffer)
  end.

Definition fragment_count (mss len : Z) : Z := if len <=? s32 mss then 1 else s32 (u32 (u32 (len + mss) - 1) / mss).

(** In stream mode the last queued segment is filled up first. *)
Definition extend_last (mss : Z) (queue : list IKCPSEG) (buffer : list Z) : list IKCPSEG * list Z :=
  match list.last queue with
  | Some old =>
    if zlen (data old) <? mss then
      let capacity := s32 (mss - zlen (data old)) in
      let extend := Z.to_nat (if zlen buffer <? capacity then zlen buffer else capacity) in
      (take (length queue - 1) queue ++ [new_seg 0 (data old ++ take extend buffer)], drop extend buffer)
    else (queue, buffer)
  | None => (queue, buffer)
  end.

Definition ikcp_send (buffer : list Z) : M IKCPCB Z :=
  k ← get;
  let s := tx k in
  let mss := mss (cfg k) in
  assert (0 <? mss);;
  let streaming := negb (stream (cfg k) =? 0) in
  let '(queue, buffer) := if streaming then extend_last mss (snd_queue s) buffer else (snd_queue s, buffer) in
  modify (set_tx (mkSending (snd_una s) (snd_nxt s) queue (snd_buf s) (nsnd_que s) (nsnd_buf s)));;
  if streaming && (zlen buffer <=? 0) then mret 0
  else
    let count := fragment_count mss (zlen buffer) in
    if IKCP_WND_RCV <=? u32 count then mret (-2)
    else
      let count := if count =? 0 then 1 else count in
      let segs := fragments mss streaming (Z.to_nat count) buffer in
      modify (set_tx (mkSending (snd_una s) (snd_nxt s) (queue ++ segs) (snd_buf s) (u32 (nsnd_que s + zlen segs)) (nsnd_buf s)));;
      mret 0.

(** ** Acknowledgements *)
Definition ikcp_update_ack (rtt interval rx_minrto : Z) (f : flow) : flow :=
  let '(mkFlow rw cw ic ss rv sr _ pr tp pw) := f in
  let '(rv, sr) :=
    if sr =? 0 then (Z.quot rtt 2, rtt)
    else
      let delta := Z.abs (s32 (rtt - sr)) in
      let rv := s32 (Z.quot (s32 (3 * rv) + delta) 4) in
      let sr := Z.quot (s32 (s32 (7 * sr) + rtt)) 8 in
      (rv, if sr <? 1 then 1 else sr) in
  let rto := s32 (u32 (sr + _imax_ interval (u32 (s32 (4 * rv))))) in
  mkFlow rw cw ic ss rv sr (s32 (_ibound_ (u32 rx_minrto) (u32 rto) IKCP_RTO_MAX)) pr tp pw.

Definition ikcp_shrink_buf (s : sending) : sending :=
  mkSending (match snd_buf s with seg :: _ => sn seg | [] => snd_nxt s end) (snd_nxt s) (snd_queue s) (snd_buf s) (nsnd_que s) (nsnd_buf s).

(** The loop over [snd_buf]: what is left of it, and whether a segment was removed. *)
Fixpoint remove_acked (n : Z) (buf : list IKCPSEG) : list IKCPSEG * bool :=
  match buf with
  | [] => ([], false)
  | seg :: buf =>
    if n =? sn seg then (buf, true)
    else if _itimediff n (sn seg) <? 0 then (seg :: buf, false)
    else let '(buf, removed) := remove_acked n buf in (seg :: buf, removed)
  end.

Definition ikcp_parse_ack (n : Z) (s : sending) : sending :=
  if (_itimediff n (snd_una s) <? 0) || (0 <=? _itimediff n (snd_nxt s)) then s
  else let '(buf, removed) := remove_acked n (snd_buf s) in
    mkSending (snd_una s) (snd_nxt s) (snd_queue s) buf (nsnd_que s) (if removed : bool then u32 (nsnd_buf s - 1) else nsnd_buf s).

Fixpoint ikcp_parse_una_loop (u : Z) (buf : list IKCPSEG) (nbuf : Z) : list IKCPSEG * Z :=
  match buf with
  | [] => ([], nbuf)
  | seg :: buf' => if 0 <? _itimediff u (sn seg) then ikcp_parse_una_loop u buf' (u32 (nbuf - 1)) else (buf, nbuf)
  end.

Definition ikcp_parse_una (u : Z) (s : sending) : sending :=
  let '(buf, nbuf) := ikcp_parse_una_loop u (snd_buf s) (nsnd_buf s) in
  mkSending (snd_una s) (snd_nxt s) (snd_queue s) buf (nsnd_que s) nbuf.

Definition set_fastack (n : Z) g :=
  mkSeg (conv g) (cmd g) (frg g) (wnd g) (ts g) (sn g) (una g) (resendts g) (rto g) n (xmit g) (data g).

Fixpoint skip_acked (n : Z) (buf : list IKCPSEG) : list IKCPSEG :=
  match buf with
  | [] => []
  | seg :: buf' =>
    if _itimediff n (sn seg) <? 0 then buf
    else (if n =? sn seg then seg else set_fastack (u32 (fastack seg + 1)) seg) :: skip_acked n buf'
  end.

Definition ikcp_parse_fastack (n : Z) (s : sending) : sending :=
  if (_itimediff n (snd_una s) <? 0) || (0 <=? _itimediff n (snd_nxt s)) then s
  else mkSending (snd_una s) (snd_nxt s) (snd_queue s) (skip_acked n (snd_buf s)) (nsnd_que s) (nsnd_buf s).

Definition ikcp_ack_push (n t : Z) (r : receiving) : receiving :=
  set_acklist (acklist r ++ [(n, t)]) r.

(** ** Receiving a segment *)
(** The search from the back of [rcv_buf]: the list with the new segment in its
    place, or nothing if there is one of the same number.  The argument is the
    list backwards. *)
Fixpoint insert_back (newseg : IKCPSEG) (rbuf : list IKCPSEG) : option (list IKCPSEG) :=
  match rbuf with
  | [] => Some [newseg]
  | seg :: rbuf' =>
    if sn seg =? sn newseg then None
    else if 0 <? _itimediff (sn newseg) (sn seg) then Some (newseg :: rbuf)
    else rbuf'' ← insert_back newseg rbuf'; Some (seg :: rbuf'')
  end.

Definition ikcp_parse_data (rcv_wnd : Z) (newseg : IKCPSEG) (r : receiving) : receiving :=
  let n := sn newseg in
  if (0 <=? _itimediff n (u32 (rcv_nxt r + rcv_wnd))) || (_itimediff n (rcv_nxt r) <? 0) then r
  else
    let r :=
      match insert_back newseg (rev (rcv_buf r)) with
      | Some rbuf => mkReceiving (rcv_nxt r) (rcv_queue r) (rev rbuf) (nrcv_que r) (u32 (nrcv_buf r + 1)) (acklist r)
      | None => r
      end in
    move_available rcv_wnd (rcv_buf r) r.

(** ** Receiving a datagram *)
(** The header of a segment, its data, and what comes after. *)
Definition ikcp_decode_seg (p : list Z) : IKCPSEG * Z * list Z :=
  let '(cv, p) := ikcp_decode 4 p in
  let '(cm, p) := ikcp_decode 1 p in
  let '(fg, p) := ikcp_decode 1 p in
  let '(wd, p) := ikcp_decode 2 p in
  let '(t, p) := ikcp_decode 4 p in
  let '(n, p) := ikcp_decode 4 p in
  let '(u, p) := ikcp_decode 4 p in
  let '(len, p) := ikcp_decode 4 p in
  (mkSeg cv cm fg wd t n u 0 0 0 0 (take (Z.to_nat len) p), len, drop (Z.to_nat len) p).

(** Parts 1.2 and 1.3: the window and [una] of every segment. *)
Definition input_header (seg : IKCPSEG) (k : IKCPCB) : IKCPCB :=
  let k := set_flw (set_rmt_wnd (wnd seg) (flw k)) k in
  set_tx (ikcp_shrink_buf (ikcp_parse_una (una seg) (tx k))) k.

(** Part 1.4 *)
Definition input_ack (seg : IKCPSEG) (k : IKCPCB) : IKCPCB :=
  let rtt := _itimediff (current (clk k)) (ts seg) in
  let k := if 0 <=? rtt then set_flw (ikcp_update_ack rtt (interval (cfg k)) (rx_minrto (cfg k)) (flw k)) k else k in
  set_tx (ikcp_shrink_buf (ikcp_parse_ack (sn seg) (tx k))) k.

(** Part 1.5 *)
Definition input_push (seg : IKCPSEG) (k : IKCPCB) : IKCPCB :=
  if _itimediff (sn seg) (u32 (rcv_nxt (rx k) + rcv_wnd (cfg k))) <? 0 then
    let k := set_rx (ikcp_ack_push (sn seg) (ts seg) (rx k)) k in
    if 0 <=? _itimediff (sn seg) (rcv_nxt (rx k)) then set_rx (ikcp_parse_data (rcv_wnd (cfg k)) seg (rx k)) k else k
  else k.

(** Part 1.6 *)
Definition input_wask (k : IKCPCB) : IKCPCB := set_flw (set_probe (Z.lor (probe (flw k)) IKCP_ASK_TELL) (flw k)) k.

Definition known_cmd (c : Z) : bool := (c =? IKCP_CMD_PUSH) || (c =? IKCP_CMD_ACK) || (c =? IKCP_CMD_WASK) || (c =? IKCP_CMD_WINS).

Definition input_seg (seg : IKCPSEG) (k : IKCPCB) : IKCPCB :=
  let k := input_header seg k in
  if cmd seg =? IKCP_CMD_ACK then input_ack seg k
  else if cmd seg =? IKCP_CMD_PUSH then input_push seg k
  else if cmd seg =? IKCP_CMD_WASK then input_wask k
  else k.

Definition max_acked (maxack : option Z) (n : Z) : option Z :=
  match maxack with
  | None => Some n
  | Some m => if 0 <? _itimediff n m then Some n else maxack
  end.

(** Part 1: the loop over the segments.  It returns a code below zero, or the
    greatest number acknowledged ([flag] and [maxack]). *)
Fixpoint input_loop (fuel : nat) (p : list Z) (maxack : option Z) : M IKCPCB (Z * option Z) :=
  match fuel with
  | O => nofuel
  | S fuel =>
    if zlen p <? IKCP_OVERHEAD then mret (0, maxack)
    else
      k ← get;
      let '(seg, len, rest) := ikcp_decode_seg p in
      if negb (conv seg =? k_conv (cfg k)) then mret (-1, maxack)
      else if zlen p - IKCP_OVERHEAD <? len then mret (-2, maxack)
      else if negb (known_cmd (cmd seg)) then mret (-3, maxack)
      else
        modify (input_seg seg);;
        input_loop fuel rest (if cmd seg =? IKCP_CMD_ACK then max_acked maxack (sn seg) else maxack)
  end.

(** The congestion window after something was acknowledged. *)
Definition open_window (mss : Z) (f : flow) : flow :=
  let '(mkFlow rw cw ic ss rv sr ro pr tp pw) := f in
  if cw <? rw then
    let '(cw, ic) :=
      if cw <? ss then (u32 (cw + 1), u32 (ic + mss))
      else
        let ic := if ic <? mss then mss else ic in
        let ic := u32 (ic + (u32 (mss * mss) / ic + mss / 16)) in
        (if u32 (u32 (cw + 1) * mss) <=? ic then u32 (cw + 1) else cw, ic) in
    if rw <? cw then mkFlow rw rw (u32 (rw * mss)) ss rv sr ro pr tp pw
    else mkFlow rw cw ic ss rv sr ro pr tp pw
  else f.

Definition ikcp_input (p : list Z) : M IKCPCB Z :=
  k0 ← get;
  if s32 (zlen p) <? IKCP_OVERHEAD then mret (-1)
  else
    r ← input_loop (S (length p)) p None;
    let '(code, maxack) := (r : Z * option Z) in
    if code <? 0 then mret code
    else
      match maxack with Some n => modify (fun k => set_tx (ikcp_parse_fastack n (tx k)) k) | None => mret tt end;;
      k ← get;
      (if 0 <? _itimediff (snd_una (tx k)) (snd_una (tx k0)) then modify (set_flw (open_window (mss (cfg k)) (flw k))) else mret tt);;
      mret 0.

(** ** Flushing *)
Definition ikcp_encode_seg (seg : IKCPSEG) : list Z :=
  le_bytes 4 (conv seg) ++ le_bytes 1 (cmd seg) ++ le_bytes 1 (frg seg) ++ le_bytes 2 (wnd seg) ++
  le_bytes 4 (ts seg) ++ le_bytes 4 (sn seg) ++ le_bytes 4 (una seg) ++ le_bytes 4 (zlen (data seg)).

Definition ikcp_wnd_unused (rcv_wnd : Z) (r : receiving) : Z :=
  if nrcv_que r <? rcv_wnd then s32 (rcv_wnd - nrcv_que r) else 0.

(** A flush under way: the control block, the bytes in [buffer] before [ptr], the
    calls of [output] so far, and what happened to the segments. *)
Record flushing := mkFlushing { f_kcp : IKCPCB; f_buf : list Z; f_out : list (list Z); change : Z; lost : bool }.
Definition on_kcp (g : IKCPCB -> IKCPCB) : M flushing unit :=
  modify (fun f => mkFlushing (g (f_kcp f)) (f_buf f) (f_out f) (change f) (lost f)).

(** [ikcp_output] on what is in the buffer *)
Definition ikcp_output : M flushing unit :=
  f ← get;
  assert (output (cfg (f_kcp f)));;
  if zlen (f_buf f) =? 0 then mret tt
  else modify (fun f => mkFlushing (f_kcp f) (f_buf f) (f_out f ++ [f_buf f]) (change f) (lost f)).

Definition add_snd_sum (k : IKCPCB) : IKCPCB :=
  let t := clk k in set_clk (mkClock (current t) (ts_flush t) (updated t) (state t) (u32 (snd_sum t + 1)) (timeout_resnd_cnt t)) k.
Definition add_timeout (k : IKCPCB) : IKCPCB :=
  let t := clk k in set_clk (mkClock (current t) (ts_flush t) (updated t) (state t) (snd_sum t) (u32 (timeout_resnd_cnt t + 1))) k.
Definition set_dead (k : IKCPCB) : IKCPCB :=
  let t := clk k in set_clk (mkClock (current t) (ts_flush t) (updated t) (u32 (-1)) (snd_sum t) (timeout_resnd_cnt t)) k.

(** Sends what is there when [need] more bytes would pass the mtu. *)
Definition make_room (need : Z) (counted : bool) : M flushing unit :=
  f ← get;
  if s32 (mtu (cfg (f_kcp f))) <? zlen (f_buf f) + need then
    ikcp_output;;
    (if counted then on_kcp add_snd_sum else mret tt);;
    modify (fun f => mkFlushing (f_kcp f) [] (f_out f) (change f) (lost f))
  else mret tt.

(** [ptr = ikcp_encode_seg(ptr, ...)], [memcpy(ptr, ...)] *)
Definition put_bytes (bs : list Z) : M flushing unit :=
  f ← get;
  if zlen (f_buf f) + zlen bs <=? room (cfg (f_kcp f)) then modify (fun f => mkFlushing (f_kcp f) (f_buf f ++ bs) (f_out f) (change f) (lost f))
  else undef OutOfBounds.

Definition set_cmd (c : Z) g :=
  mkSeg (conv g) c (frg g) (wnd g) (ts g) (sn g) (una g) (resendts g) (rto g) (fastack g) (xmit g) (data g).
Definition set_ack (a : Z * Z) g :=
  mkSeg (conv g) (cmd g) (frg g) (wnd g) a.2 a.1 (una g) (resendts g) (rto g) (fastack g) (xmit g) (data g).

Fixpoint flush_acks (acks : list (Z * Z)) (seg : IKCPSEG) : M flushing IKCPSEG :=
  match acks with
  | [] => mret seg
  | a :: acks =>
    make_room IKCP_OVERHEAD false;;
    let seg := set_ack a seg in
    put_bytes (ikcp_encode_seg seg);;
    flush_acks acks seg
  end.

(** Whether to ask for the remote window. *)
Definition probe_window (current : Z) (f : flow) : flow :=
  let '(mkFlow rw cw ic ss rv sr ro pr tp pw) := f in
  if rw =? 0 then
    if pw =? 0 then mkFlow rw cw ic ss rv sr ro pr (u32 (current + IKCP_PROBE_INIT)) IKCP_PROBE_INIT
    else if 0 <=? _itimediff current tp then
      let pw := if pw <? IKCP_PROBE_INIT then IKCP_PROBE_INIT else pw in
      let pw := u32 (pw + pw / 2) in
      let pw := if IKCP_PROBE_LIMIT <? pw then IKCP_PROBE_LIMIT else pw in
      mkFlow rw cw ic ss rv sr ro (Z.lor pr IKCP_ASK_SEND) (u32 (current + pw)) pw
    else f
  else mkFlow rw cw ic ss rv sr ro pr 0 0.

Definition flush_probe (ask c : Z) (seg : IKCPSEG) : M flushing IKCPSEG :=
  f ← get;
  if Z.land (probe (flw (f_kcp f))) ask =? 0 then mret seg
  else
    let seg := set_cmd c seg in
    make_room IKCP_OVERHEAD false;;
    put_bytes (ikcp_encode_seg seg);;
    mret seg.

(** From [snd_queue] to [snd_buf], as far as the window goes. *)
Fixpoint flush_move (k_conv wnd una current rto cwnd : Z) (queue : list IKCPSEG) (s : sending) : sending :=
  match queue with
  | [] => s
  | newseg :: queue =>
    if _itimediff (snd_nxt s) (u32 (snd_una s + cwnd)) <? 0 then
      let newseg := mkSeg k_conv IKCP_CMD_PUSH (frg newseg) wnd current (snd_nxt s) una current rto 0 0 (data newseg) in
      flush_move k_conv wnd una current rto cwnd queue
        (mkSending (snd_una s) (u32 (snd_nxt s + 1)) queue (snd_buf s ++ [newseg]) (u32 (nsnd_que s - 1)) (u32 (nsnd_buf s + 1)))
    else s
  end.

Definition set_xmit (rs ro fa : Z) g :=
  mkSeg (conv g) (cmd g) (frg g) (wnd g) (ts g) (sn g) (una g) rs ro fa (u32 (xmit g + 1)) (data g).

(** Whether a segment goes out now, and what it becomes: for the first time, after
    its timeout, or because enough acknowledgements have passed it over. *)
Definition due (k : IKCPCB) (resent rtomin : Z) (seg : IKCPSEG) : option (IKCPSEG * bool * bool) :=
  let current := current (clk k) in
  if xmit seg =? 0 then
    let ro := u32 (rx_rto (flw k)) in
    Some (set_xmit (u32 (current + ro + rtomin)) ro (fastack seg) seg, false, false)
  else if 0 <=? _itimediff current (resendts seg) then
    let ro := u32 (rto seg + (if nodelay (cfg k) =? 0 then rx_rto (flw k) else Z.quot (rx_rto (flw k)) 2)) in
    Some (set_xmit (u32 (current + ro)) ro (fastack seg) seg, true, false)
  else if resent <=? fastack seg then
    Some (set_xmit (u32 (current + rto seg)) (rto seg) 0 seg, false, true)
  else None.

Definition stamp (wnd current una : Z) g :=
  mkSeg (conv g) (cmd g) (frg g) wnd current (sn g) una (resendts g) (rto g) (fastack g) (xmit g) (data g).

Definition note (timed_out fast : bool) : M flushing unit :=
  modify (fun f => mkFlushing (if timed_out then add_timeout (f_kcp f) else f_kcp f) (f_buf f) (f_out f)
    (if fast then change f + 1 else change f) (lost f || timed_out)).

(** The loop over [snd_buf]; [wnd] and [una] are those of this flush. *)
Fixpoint flush_data (resent rtomin wnd una : Z) (buf : list IKCPSEG) : M flushing (list IKCPSEG) :=
  match buf with
  | [] => mret []
  | seg :: buf =>
    f ← get;
    let k := f_kcp f in
    seg ← match due k resent rtomin seg with
          | None => mret seg
          | Some (seg, timed_out, fast) =>
            note timed_out fast;;
            let seg := stamp wnd (current (clk k)) una seg in
            make_room (IKCP_OVERHEAD + zlen (data seg)) true;;
            put_bytes (ikcp_encode_seg seg);;
            (if 0 <? zlen (data seg) then put_bytes (data seg) else mret tt);;
            (if dead_link (cfg k) <=? xmit seg then on_kcp set_dead else mret tt);;
            mret seg
          end;
    segs ← flush_data resent rtomin wnd una buf;
    mret (seg :: segs)
  end.

(** The congestion window after fast retransmissions, after losses, and its least value. *)
Definition flush_window (mss inflight resent window change : Z) (lost : bool) (f : flow) : flow :=
  let '(mkFlow rw cw ic ss rv sr ro pr tp pw) := f in
  let '(ss, cw, ic) :=
    if change =? 0 then (ss, cw, ic)
    else
      let ss := if inflight / 2 <? IKCP_THRESH_MIN then IKCP_THRESH_MIN else inflight / 2 in
      (ss, u32 (ss + resent), u32 (u32 (ss + resent) * mss)) in
  let '(ss, cw, ic) :=
    if lost then (if window / 2 <? IKCP_THRESH_MIN then IKCP_THRESH_MIN else window / 2, 1, mss) else (ss, cw, ic) in
  let '(cw, ic) := if cw <? 1 then (1, mss) else (cw, ic) in
  mkFlow rw cw ic ss rv sr ro pr tp pw.

(** The acknowledgements and the probes. *)
Definition flush_control (seg : IKCPSEG) : M flushing unit :=
  f ← get;
  seg ← flush_acks (acklist (rx (f_kcp f))) seg;
  on_kcp (fun k => set_rx (set_acklist [] (rx k)) k);;
  on_kcp (fun k => set_flw (probe_window (current (clk k)) (flw k)) k);;
  seg ← flush_probe IKCP_ASK_SEND IKCP_CMD_WASK seg;
  flush_probe IKCP_ASK_TELL IKCP_CMD_WINS seg;;
  on_kcp (fun k => set_flw (set_probe 0 (flw k)) k).

(** The window of this flush. *)
Definition send_window (k : IKCPCB) : Z :=
  let w := _imin_ (snd_wnd (cfg k)) (rmt_wnd (flw k)) in
  if nocwnd (cfg k) =? 0 then _imin_ (cwnd (flw k)) w else w.

Definition flush_all : M flushing unit :=
  f ← get;
  let k := f_kcp f in
  let wnd := u32 (ikcp_wnd_unused (rcv_wnd (cfg k)) (rx k)) in
  let una := rcv_nxt (rx k) in
  flush_control (mkSeg (k_conv (cfg k)) IKCP_CMD_ACK 0 wnd 0 0 una 0 0 0 0 []);;
  f ← get;
  let k := f_kcp f in
  let window := send_window k in
  on_kcp (fun k => set_tx (flush_move (k_conv (cfg k)) wnd una (current (clk k)) (u32 (rx_rto (flw k))) window (snd_queue (tx k)) (tx k)) k);;
  let resent := if 0 <? fastresend (cfg k) then fastresend (cfg k) else 2 ^ 32 - 1 in
  let rtomin := if nodelay (cfg k) =? 0 then u32 (Z.shiftr (rx_rto (flw k)) 3) else 0 in
  f ← get;
  segs ← flush_data resent rtomin wnd una (snd_buf (tx (f_kcp f)));
  on_kcp (fun k => let s := tx k in set_tx (mkSending (snd_una s) (snd_nxt s) (snd_queue s) segs (nsnd_que s) (nsnd_buf s)) k);;
  f ← get;
  (if 0 <? zlen (f_buf f) then ikcp_output;; on_kcp add_snd_sum else mret tt);;
  f ← get;
  on_kcp (fun k => set_flw (flush_window (mss (cfg k)) (u32 (snd_nxt (tx k) - snd_una (tx k))) resent window (change f) (lost f) (flw k)) k).

(** [ikcp_flush]: the datagrams it puts out. *)
Definition ikcp_flush : M IKCPCB (list (list Z)) := fun k =>
  if negb (updated (clk k)) then (Ok [], k)
  else
    let '(o, f) := flush_all (mkFlushing k [] [] 0 false) in
    (match o with Ok _ => Ok (f_out f) | Throw e => Throw e | AssertFail => AssertFail | Undef u => Undef u | NoFuel => NoFuel end, f_kcp f).

(** ** Time *)
Definition set_time (now tf : Z) (k : IKCPCB) : IKCPCB :=
  let t := clk k in set_clk (mkClock now tf true (state t) (snd_sum t) (timeout_resnd_cnt t)) k.

(** The time is a conversion to 32 bits of what the caller has. *)
Definition ikcp_update (now : Z) : M IKCPCB (list (list Z)) :=
  k ← get;
  let now := u32 now in
  let tf := if updated (clk k) then ts_flush (clk k) else now in
  let slap := _itimediff now tf in
  let '(tf, slap) := if (10000 <=? slap) || (slap <? -10000) then (now, 0) else (tf, slap) in
  if 0 <=? slap then
    let tf := u32 (tf + interval (cfg k)) in
    let tf := if 0 <=? _itimediff now tf then u32 (now + interval (cfg k)) else tf in
    modify (set_time now tf);;
    ikcp_flush
  else modify (set_time now tf);; mret [].

Fixpoint check_loop (current : Z) (buf : list IKCPSEG) (tm_packet : Z) : option Z :=
  match buf with
  | [] => Some tm_packet
  | seg :: buf =>
    let diff := _itimediff (resendts seg) current in
    if diff <=? 0 then None else check_loop current buf (if diff <? tm_packet then diff else tm_packet)
  end.

Definition ikcp_check (k : IKCPCB) (now : Z) : Z :=
  if negb (updated (clk k)) then now
  else
    let tf := ts_flush (clk k) in
    let tf := if (10000 <=? _itimediff now tf) || (_itimediff now tf <? -10000) then now else tf in
    if 0 <=? _itimediff now tf then now
    else
      match check_loop now (snd_buf (tx k)) (2 ^ 31 - 1) with
      | None => now
      | Some tm_packet =>
        let tm_flush := _itimediff tf now in
        let minimal := u32 (if tm_packet <? tm_flush then tm_packet else tm_flush) in
        u32 (now + if interval (cfg k) <=? minimal then interval (cfg k) else minimal)
      end.
