(* ===== verification/IkcpRcv.v ===== *)
(** What the parts of ikcp.c do to the queues: the receiving window, merging of
    fragments, encoding of segments, and what a flush puts out. *)
From stdpp Require Import sorting.
From S2P Require Import Prelude Bytes Ikcp.

(** ** Distances on the circle of sequence numbers *)
Definition off (nxt n : Z) : Z := u32 (n - nxt).

Lemma off_range nxt n : 0 <= off nxt n < 2 ^ 32.
Proof. apply uwrap_range. lia. Qed.

Lemma u32_diff a b c : u32 (u32 a - u32 b) = u32 (a - b) /\ u32 (a - u32 b) = u32 (a - b) /\ u32 (u32 a - b) = u32 (a - b) /\ u32 (u32 a + c) = u32 (a + c).
Proof. unfold uwrap. change (2 ^ 32) with 4294967296. split_and!; zlia. Qed.

(** The comparisons of the window: [wnd] below half the circle. *)
Lemma itimediff_off nxt n : in_u 32 n -> in_u 32 nxt -> (_itimediff n nxt <? 0) = negb (off nxt n <? 2 ^ 31).
Proof.
  unfold _itimediff, off, swrap, uwrap, in_u. change (2 ^ (32 - 1)) with 2147483648. change (2 ^ 31) with 2147483648.
  change (2 ^ 32) with 4294967296. intros. destruct (Z.ltb_spec ((n - nxt + 2147483648) `mod` 4294967296 - 2147483648) 0),
    (Z.ltb_spec ((n - nxt) `mod` 4294967296) 2147483648); cbn [negb]; try done; zlia.
Qed.

Lemma itimediff_window nxt wnd n : in_u 32 n -> in_u 32 nxt -> 0 <= wnd < 2 ^ 31 ->
  (0 <=? _itimediff n (u32 (nxt + wnd))) || (_itimediff n nxt <? 0) = negb (off nxt n <? wnd).
Proof.
  unfold _itimediff, off, swrap, uwrap, in_u. change (2 ^ (32 - 1)) with 2147483648. change (2 ^ 31) with 2147483648.
  change (2 ^ 32) with 4294967296. intros.
  destruct (Z.leb_spec 0 ((n - (nxt + wnd) `mod` 4294967296 + 2147483648) `mod` 4294967296 - 2147483648)),
    (Z.ltb_spec ((n - nxt + 2147483648) `mod` 4294967296 - 2147483648) 0),
    (Z.ltb_spec ((n - nxt) `mod` 4294967296) wnd); cbn [negb orb]; try done; zlia.
Qed.

(** Two numbers in one window compare as their distances. *)
Lemma itimediff_order nxt n m : in_u 32 n -> in_u 32 m -> off nxt n < 2 ^ 31 -> off nxt m < 2 ^ 31 ->
  (0 <? _itimediff n m) = (off nxt m <? off nxt n).
Proof.
  unfold _itimediff, off, swrap, uwrap, in_u. change (2 ^ (32 - 1)) with 2147483648. change (2 ^ 31) with 2147483648.
  change (2 ^ 32) with 4294967296. intros.
  destruct (Z.ltb_spec 0 ((n - m + 2147483648) `mod` 4294967296 - 2147483648)),
    (Z.ltb_spec ((m - nxt) `mod` 4294967296) ((n - nxt) `mod` 4294967296)); try done; zlia.
Qed.

Lemma off_inj nxt n m : in_u 32 n -> in_u 32 m -> off nxt n = off nxt m -> n = m.
Proof. unfold off, uwrap, in_u. change (2 ^ 32) with 4294967296. intros. zlia. Qed.

Lemma off_shift nxt n : in_u 32 n -> 0 < off nxt n -> off (u32 (nxt + 1)) n = off nxt n - 1.
Proof. unfold off, uwrap, in_u. change (2 ^ 32) with 4294967296. intros. zlia. Qed.

Lemma off_zero nxt n : in_u 32 nxt -> in_u 32 n -> off nxt n = 0 <-> n = nxt.
Proof. unfold off, uwrap, in_u. change (2 ^ 32) with 4294967296. intros. zlia. Qed.

(** ** The receiving window *)
Definition before (nxt : Z) (a b : IKCPSEG) : Prop := off nxt (sn a) < off nxt (sn b).

(** Between two steps of [move_available]: [rcv_buf] holds different segments of
    the window, in order, and the queue is within it. *)
Record window_ok (w : Z) (r : receiving) : Prop := {
  rcv_nxt_u32 : in_u 32 (rcv_nxt r);
  rcv_count : nrcv_que r = zlen (rcv_queue r) /\ zlen (rcv_queue r) <= w;
  rcv_buf_count : nrcv_buf r = u32 (zlen (rcv_buf r));
  rcv_sorted : StronglySorted (before (rcv_nxt r)) (rcv_buf r);
  rcv_window s : s ∈ rcv_buf r -> in_u 32 (sn s) /\ off (rcv_nxt r) (sn s) < w
}.

(** Between two calls, the next segment is not left lying in [rcv_buf] unless the
    queue is full. *)
Definition rcv_ok (w : Z) (r : receiving) : Prop :=
  window_ok w r /\ forall s, s ∈ rcv_buf r -> sn s = rcv_nxt r -> zlen (rcv_queue r) = w.

Lemma sorted_impl_in {A} (R1 R2 : A -> A -> Prop) (l : list A) :
  (forall x y, x ∈ l -> y ∈ l -> R1 x y -> R2 x y) -> StronglySorted R1 l -> StronglySorted R2 l.
Proof.
  induction l as [|x l IH]; intros H Hs; [constructor|]. apply StronglySorted_inv in Hs as [Hs Hx]. constructor.
  - apply IH; [|done]. intros y z Hy Hz. apply H; by right.
  - rewrite list.Forall_forall in Hx |- *. intros y Hy. apply H; [by left|by right|by apply Hx].
Qed.

Lemma move_available_ok w buf : 0 <= w < 2 ^ 31 -> forall r, rcv_buf r = buf -> window_ok w r ->
  exists n, (n <= length buf)%nat /\ rcv_ok w (move_available w buf r) /\
    rcv_queue (move_available w buf r) = rcv_queue r ++ take n buf /\ rcv_buf (move_available w buf r) = drop n buf /\
    rcv_nxt (move_available w buf r) = u32 (rcv_nxt r + Z.of_nat n) /\ acklist (move_available w buf r) = acklist r /\
    forall i s, take n buf !! i = Some s -> sn s = u32 (rcv_nxt r + Z.of_nat i).
Proof.
  intros Hw. induction buf as [|seg buf IH]; intros r Hb Hr.
  { exists 0%nat. cbn. rewrite app_nil_r, Hb, Z.add_0_r. split_and!; try done. 2: { symmetry. apply uwrap_id, (rcv_nxt_u32 w r Hr). }
    split; [done|]. rewrite Hb. by intros s ?%not_elem_of_nil. }
  cbn [move_available]. pose proof (rcv_nxt_u32 _ _ Hr) as Hn. destruct (rcv_count _ _ Hr) as [Hc Hle].
  destruct (rcv_window _ _ Hr seg ltac:(rewrite Hb; by left)) as [Hsn Hoff].
  pose proof (rcv_sorted _ _ Hr) as Hs. rewrite Hb in Hs. apply StronglySorted_inv in Hs as [Hs Hx]. rewrite list.Forall_forall in Hx.
  destruct ((sn seg =? rcv_nxt r) && (nrcv_que r <? w)) eqn:E.
  - apply andb_true_iff in E as [E1%Z.eqb_eq E2%Z.ltb_lt].
    assert (off (rcv_nxt r) (sn seg) = 0) as H0 by (by apply off_zero).
    destruct (IH (mkReceiving (u32 (rcv_nxt r + 1)) (rcv_queue r ++ [seg]) buf (u32 (nrcv_que r + 1)) (u32 (nrcv_buf r - 1)) (acklist r)))
      as (n & Hle' & Hok & Hq & Hbf & Hnx & Ha & Hsq); [done| |].
    + split; cbn.
      * apply uwrap_range. lia.
      * rewrite length_app. cbn. rewrite uwrap_id; [lia|]. unfold in_u. lia.
      * rewrite (rcv_buf_count _ _ Hr), Hb. cbn [length]. destruct (u32_diff (Z.of_nat (S (length buf))) 1 0) as (_ & _ & -> & _). f_equal. lia.
      * apply (sorted_impl_in (before (rcv_nxt r))); [|done]. unfold before. intros x y Hxi Hyi. specialize (Hx x Hxi) as H1. specialize (Hx y Hyi) as H2.
        unfold before in H1, H2. rewrite !off_shift; [lia|..]; try (apply (rcv_window _ _ Hr); rewrite Hb; by right); lia.
      * intros s Hin. specialize (Hx s Hin). unfold before in Hx. destruct (rcv_window _ _ Hr s ltac:(rewrite Hb; by right)) as [Hsu Hso].
        split; [done|]. rewrite off_shift by (done || lia). lia.
    + exists (S n). cbn [rcv_queue rcv_buf rcv_nxt acklist] in *. cbn [length take drop]. split; [lia|]. split; [done|]. rewrite Hq, Hbf, Hnx, Ha.
      destruct (u32_diff (rcv_nxt r + 1) 0 (Z.of_nat n)) as (_ & _ & _ & ->).
      split_and!; [by rewrite <- app_assoc|done|f_equal; lia|done|]. intros [|i] s; cbn [lookup list_lookup].
      * intros [= <-]. rewrite Z.add_0_r. by rewrite uwrap_id.
      * intros H. rewrite (Hsq i s H). destruct (u32_diff (rcv_nxt r + 1) 0 (Z.of_nat i)) as (_ & _ & _ & ->). f_equal. lia.
  - exists 0%nat. rewrite Hb. cbn. rewrite app_nil_r, Z.add_0_r. split_and!; try done; [lia| |by rewrite uwrap_id].
    split; [done|]. rewrite Hb. intros s [->|Hin]%elem_of_cons He.
    + rewrite He, Z.eqb_refl in E. cbn in E. apply Z.ltb_ge in E. lia.
    + specialize (Hx s Hin). unfold before in Hx. rewrite He in Hx. pose proof (off_range (rcv_nxt r) (sn seg)).
      assert (off (rcv_nxt r) (rcv_nxt r) = 0) by (by apply off_zero). lia.
Qed.

(** *** The place of a new segment *)
Lemma sorted_rev {A} (R : A -> A -> Prop) (l : list A) : StronglySorted R l -> StronglySorted (fun x y => R y x) (rev l).
Proof.
  induction 1 as [|x l Hs IH Hx]; [constructor|]. cbn [rev]. apply StronglySorted_app. split_and!; [|done|repeat constructor].
  intros y z Hy Hz%list_elem_of_singleton. subst z. rewrite list.Forall_forall in Hx. apply Hx.
  by apply list_elem_of_In, in_rev, list_elem_of_In.
Qed.

Lemma elem_of_rev {A} (x : A) l : x ∈ rev l <-> x ∈ l.
Proof. rewrite !list_elem_of_In. symmetry. apply in_rev. Qed.

Lemma elem_of_rev_1 {A} (x : A) l : x ∈ rev l -> x ∈ l.
Proof. apply elem_of_rev. Qed.

Lemma insert_back_ok nxt newseg rbuf : in_u 32 (sn newseg) -> off nxt (sn newseg) < 2 ^ 31 ->
  StronglySorted (fun x y => before nxt y x) rbuf -> (forall s, s ∈ rbuf -> in_u 32 (sn s) /\ off nxt (sn s) < 2 ^ 31) ->
  match insert_back newseg rbuf with
  | None => exists s, s ∈ rbuf /\ sn s = sn newseg
  | Some l => StronglySorted (fun x y => before nxt y x) l /\ (forall x, x ∈ l <-> x = newseg \/ x ∈ rbuf) /\ length l = S (length rbuf)
  end.
Proof.
  intros Hn Ho. induction rbuf as [|seg rbuf IH]; intros Hs Hw.
  { cbn. split_and!; [repeat constructor| |done]. intros x. rewrite list_elem_of_singleton, elem_of_nil. tauto. }
  cbn [insert_back]. destruct (Hw seg ltac:(by left)) as [Hsu Hso]. apply StronglySorted_inv in Hs as [Hs Hx].
  destruct (Z.eqb_spec (sn seg) (sn newseg)) as [E|E]; [exists seg; split; [by left|done]|].
  rewrite (itimediff_order nxt) by done. destruct (Z.ltb_spec (off nxt (sn seg)) (off nxt (sn newseg))) as [Hlt|Hge].
  - split_and!; [|intros x; rewrite !elem_of_cons; tauto|done]. constructor; [by constructor|]. constructor; [done|].
    rewrite list.Forall_forall in Hx |- *. unfold before in *. intros x Hin. specialize (Hx x Hin). lia.
  - assert (off nxt (sn newseg) < off nxt (sn seg)) as Hlt.
    { destruct (Z.eq_dec (off nxt (sn newseg)) (off nxt (sn seg))) as [He|]; [|lia]. apply off_inj in He; [congruence|done|done]. }
    specialize (IH Hs ltac:(intros s Hin; apply Hw; by right)). destruct (insert_back newseg rbuf) as [l|]; cbn.
    + destruct IH as (IH1 & IH2 & IH3). split_and!; [|intros x; rewrite !elem_of_cons, IH2; tauto|congruence].
      constructor; [done|]. rewrite list.Forall_forall in Hx |- *. intros x [->|Hin]%IH2; [done|by apply Hx].
    + destruct IH as (s & Hin & He). exists s. split; [by right|done].
Qed.

(** A segment in the window ends up in [rcv_buf] or the queue, unless one of its
    number is there; nothing else changes. *)
Lemma parse_data_ok w seg r : 0 <= w < 2 ^ 31 -> in_u 32 (sn seg) -> rcv_ok w r ->
  let r' := ikcp_parse_data w seg r in
  rcv_ok w r' /\ acklist r' = acklist r /\
  exists n buf, rcv_queue r' = rcv_queue r ++ take n buf /\ rcv_buf r' = drop n buf /\ (n <= length buf)%nat /\
    rcv_nxt r' = u32 (rcv_nxt r + Z.of_nat n) /\
    (forall i s, take n buf !! i = Some s -> sn s = u32 (rcv_nxt r + Z.of_nat i)) /\
    (forall x, x ∈ buf -> x ∈ rcv_buf r \/ x = seg /\ off (rcv_nxt r) (sn seg) < w) /\
    (forall x, x ∈ rcv_buf r -> x ∈ buf) /\
    (off (rcv_nxt r) (sn seg) < w -> exists x, x ∈ buf /\ sn x = sn seg).
Proof.
  intros Hw Hsn [Hr Hh]. cbn zeta. unfold ikcp_parse_data. pose proof (rcv_nxt_u32 _ _ Hr) as Hn.
  rewrite itimediff_window by done. destruct (Z.ltb_spec (off (rcv_nxt r) (sn seg)) w) as [Hin|Hout]; cbn [negb].
  2: { split; [done|]. split; [done|]. exists 0%nat, (rcv_buf r). cbn. rewrite app_nil_r, Z.add_0_r, uwrap_id by done.
       split_and!; try done; [lia|tauto|lia]. }
  assert (forall s, s ∈ rev (rcv_buf r) -> in_u 32 (sn s) /\ off (rcv_nxt r) (sn s) < 2 ^ 31) as Hw'.
  { intros s Hs%elem_of_rev_1. destruct (rcv_window _ _ Hr s Hs). split; [done|lia]. }
  pose proof (insert_back_ok (rcv_nxt r) seg (rev (rcv_buf r)) Hsn ltac:(lia) (sorted_rev _ _ (rcv_sorted _ _ Hr)) Hw') as Hi'.
  destruct (insert_back seg (rev (rcv_buf r))) as [l|].
  - destruct Hi' as (Hsl & Hel & Hlen). rewrite length_rev in Hlen.
    set (r1 := mkReceiving (rcv_nxt r) (rcv_queue r) (rev l) (nrcv_que r) (u32 (nrcv_buf r + 1)) (acklist r)).
    destruct (move_available_ok w (rev l) Hw r1 eq_refl) as (n & Hle & Hok & Hq & Hb & Hnx & Ha & Hsq).
    { split; cbn; try apply Hr.
      - rewrite (rcv_buf_count _ _ Hr), length_rev, Hlen. destruct (u32_diff (zlen (rcv_buf r)) 0 1) as (_ & _ & _ & ->). f_equal. lia.
      - apply (sorted_impl_in (fun x y => (fun a b => before (rcv_nxt r) b a) y x)); [done|]. by apply sorted_rev in Hsl.
      - intros s [->|Hs%elem_of_rev_1]%elem_of_rev_1%Hel; [by split|]. by apply (rcv_window _ _ Hr). }
    cbn [rcv_buf]. fold r1. split; [done|]. split; [done|]. exists n, (rev l). split_and!; try done.
    + intros x [->|Hx%elem_of_rev_1]%elem_of_rev_1%Hel; [by right|by left].
    + intros x Hx. apply elem_of_rev, Hel. right. by apply elem_of_rev.
    + intros _. exists seg. split; [|done]. apply elem_of_rev, Hel. by left.
  - destruct Hi' as (s0 & Hs0%elem_of_rev_1 & He).
    destruct (move_available_ok w (rcv_buf r) Hw r eq_refl Hr) as (n & Hle & Hok & Hq & Hb & Hnx & Ha & Hsq).
    split; [done|]. split; [done|]. exists n, (rcv_buf r). split_and!; try done; [tauto|]. intros _. by exists s0.
Qed.

(** ** Merging fragments *)
(** How many segments the first message of a queue takes. *)
Fixpoint msg_len (l : list IKCPSEG) : nat :=
  match l with [] => 0 | seg :: l => if (frg seg =? 0)%Z then 1 else S (msg_len l) end.

Lemma msg_len_le l : (msg_len l <= length l)%nat.
Proof. induction l as [|seg l IH]; cbn; [lia|]. case_match; lia. Qed.

Lemma merge_peek l : forall b len n,
  merge l b len n = (b ++ concat (map data (take (msg_len l) l)), peek_length l len, (n + msg_len l)%nat).
Proof.
  induction l as [|seg l IH]; intros b len n; cbn [merge msg_len peek_length take map concat].
  - by rewrite app_nil_r, Nat.add_0_r.
  - destruct (frg seg =? 0); cbn [take map concat]; [by rewrite app_nil_r, Nat.add_1_r|].
    rewrite IH, <- app_assoc. f_equal. lia.
Qed.

(** What [ikcp_recv] does once it has decided to. *)
Definition took (w : Z) (ispeek : bool) (r : receiving) : receiving :=
  move_available w (rcv_buf r)
    (if ispeek then r
     else mkReceiving (rcv_nxt r) (drop (msg_len (rcv_queue r)) (rcv_queue r)) (rcv_buf r) (u32 (nrcv_que r - Z.of_nat (msg_len (rcv_queue r)))) (nrcv_buf r) (acklist r)).

(** Segments that came in datagrams of at most 2^16 bytes, in a window of at most
    2^15: their lengths add up in an int. *)
Definition small (r : receiving) : Prop :=
  zlen (rcv_queue r) <= 2 ^ 15 /\ forall s, s ∈ rcv_queue r \/ s ∈ rcv_buf r -> zlen (data s) < 2 ^ 16.

Lemma peek_exact l : forall n, (forall s, s ∈ l -> zlen (data s) < 2 ^ 16) -> 0 <= n ->
  n + zlen (concat (map data (take (msg_len l) l))) < 2 ^ 31 -> peek_length l n = n + zlen (concat (map data (take (msg_len l) l))).
Proof.
  induction l as [|s l IH]; intros n Hs Hn Hlt; [cbn; lia|]. cbn [peek_length msg_len] in *. specialize (Hs s ltac:(by left)) as H0.
  destruct (frg s =? 0); cbn [take map concat length] in *; rewrite length_app, Nat2Z.inj_add in *; (rewrite swrap_id; [|lia|unfold in_s; lia]); [change (take 0 l) with (@nil IKCPSEG); cbn [map concat length]; lia|].
  rewrite IH; [lia|intros x Hx; apply Hs; by right|lia|lia].
Qed.

Lemma concat_small l : (forall s, s ∈ l -> zlen (data s) < 2 ^ 16) -> zlen (concat (map data l)) <= (2 ^ 16 - 1) * zlen l.
Proof.
  induction l as [|s l IH]; intros Hs; [cbn; lia|]. cbn [map concat length]. rewrite length_app. specialize (Hs s ltac:(by left)) as H0.
  specialize (IH (fun x Hx => Hs x (ltac:(by right)))). lia.
Qed.

Lemma small_peek r : small r -> peek_length (rcv_queue r) 0 = zlen (concat (map data (take (msg_len (rcv_queue r)) (rcv_queue r)))).
Proof.
  intros [Hl Hs]. rewrite peek_exact; [lia|intros s Hin; apply Hs; by left|lia|].
  assert (zlen (concat (map data (take (msg_len (rcv_queue r)) (rcv_queue r)))) <= (2 ^ 16 - 1) * zlen (take (msg_len (rcv_queue r)) (rcv_queue r))) as H.
  { apply concat_small. intros s Hin. apply Hs. left. rewrite <- (take_drop (msg_len (rcv_queue r)) (rcv_queue r)). apply elem_of_app. by left. }
  rewrite length_take in H. lia.
Qed.

Lemma peeksize_peek r : 0 <= ikcp_peeksize r -> ikcp_peeksize r = peek_length (rcv_queue r) 0.
Proof.
  unfold ikcp_peeksize. destruct (rcv_queue r) as [|seg l]; [done|]. cbn [peek_length]. destruct (frg seg =? 0) eqn:E; [done|].
  by case_match.
Qed.

Lemma ikcp_recv_ok len k : small (rx k) -> len <> - 2 ^ 31 ->
  exists code buf k', ikcp_recv len k = (Ok (code, buf), k') /\ cfg k' = cfg k /\ tx k' = tx k /\ clk k' = clk k /\
    (exists p, flw k' = set_probe p (flw k)) /\
    (code < 0 /\ k' = k /\ (ikcp_peeksize (rx k) < 0 \/ code = -3) \/
     0 <= code /\ code = ikcp_peeksize (rx k) /\ code = zlen buf /\ code <= Z.abs len /\ rcv_queue (rx k) <> [] /\
     buf = concat (map data (take (msg_len (rcv_queue (rx k))) (rcv_queue (rx k)))) /\
     rx k' = took (rcv_wnd (cfg k)) (len <? 0) (rx k)).
Proof.
  intros Hsm Hlen. unfold ikcp_recv. rewrite (bind_ok get _ k k k eq_refl).
  assert (exists p, flw k = set_probe p (flw k)) as Hp by (exists (probe (flw k)); by destruct (flw k)).
  destruct (rcv_queue (rx k)) as [|q0 q] eqn:Eq.
  { do 3 eexists. split; [done|]. split_and!; try done. left. split_and!; [done|done|]. left. unfold ikcp_peeksize. by rewrite Eq. }
  destruct (Z.eqb_spec len (- 2 ^ 31)) as [El|El]; [done|].
  destruct (Z.ltb_spec (ikcp_peeksize (rx k)) 0) as [Hpk|Hpk]; [do 3 eexists; split; [done|]; split_and!; try done; left; split_and!; [done|done|by left]|].
  destruct (Z.ltb_spec (if len <? 0 then - len else len) (ikcp_peeksize (rx k))) as [Hl|Hl];
    [do 3 eexists; split; [done|]; split_and!; try done; left; split_and!; [done|done|by right]|].
  rewrite merge_peek, <- Eq. cbn [app Nat.add]. pose proof (small_peek _ Hsm) as Hex. rewrite <- Hex. rewrite <- (peeksize_peek _ Hpk) in *.
  rewrite (proj2 (Z.ltb_ge _ _) Hl).
  rewrite (bind_ok _ _ _ _ _ (assert_true _ _ (Z.eqb_refl _))).
  set (r1 := move_available _ _ _).
  assert (r1 = took (rcv_wnd (cfg k)) (len <? 0) (rx k)) as Er by (unfold r1, took; by destruct (len <? 0)). clearbody r1. subst r1.
  rewrite (bind_ok (modify _) _ k tt (set_rx (took (rcv_wnd (cfg k)) (len <? 0) (rx k)) k) eq_refl).
  assert (code_le : ikcp_peeksize (rx k) <= Z.abs len) by (destruct (Z.ltb_spec len 0); lia).
  match goal with |- context [if ?b then modify _ else _] => destruct b end; (do 3 eexists; split; [reflexivity|]); cbn [cfg tx rx flw clk set_rx set_flw];
    (split_and!; try done; try (by eexists); right; split_and!; try done; by rewrite Eq).
Qed.

Lemma took_ok w (p : bool) r : 0 <= w < 2 ^ 31 -> rcv_ok w r ->
  let q := if p then rcv_queue r else drop (msg_len (rcv_queue r)) (rcv_queue r) in
  rcv_ok w (took w p r) /\ acklist (took w p r) = acklist r /\
  exists n, (n <= length (rcv_buf r))%nat /\ rcv_queue (took w p r) = q ++ take n (rcv_buf r) /\ rcv_buf (took w p r) = drop n (rcv_buf r) /\
    rcv_nxt (took w p r) = u32 (rcv_nxt r + Z.of_nat n) /\
    forall i s, take n (rcv_buf r) !! i = Some s -> sn s = u32 (rcv_nxt r + Z.of_nat i).
Proof.
  intros Hw [Hr Hh]. unfold took. cbn zeta.
  set (r1 := if p then r else _). assert (window_ok w r1) as Hr1.
  { destruct p; [done|]. split; try apply Hr. cbn. pose proof (msg_len_le (rcv_queue r)). destruct (rcv_count _ _ Hr) as [-> Hc].
    rewrite length_drop. rewrite uwrap_id; [lia|]. unfold in_u. lia. }
  destruct (move_available_ok w (rcv_buf r) Hw r1 ltac:(by destruct p) Hr1) as (n & Hle & Hok & Hq & Hb & Hnx & Ha & Hsq).
  split; [done|]. split; [by destruct p|]. exists n. rewrite Hq, Hb, Hnx. destruct p; by split_and!.
Qed.

(** ** Segments on the wire *)
Lemma le_value_le_bytes n z : le_value (le_bytes n z) = z mod 2 ^ (8 * Z.of_nat n).
Proof.
  revert z. induction n as [|n IH]; intros z; [cbn; by rewrite Z.mod_1_r|]. cbn [le_bytes le_value]. rewrite IH, pow256.
  pose proof (pow2_pos (8 * Z.of_nat n) ltac:(lia)) as Hp. rewrite Z.rem_mul_r by lia. lia.
Qed.

Lemma decode_bytes n z p : ikcp_decode n (le_bytes n z ++ p) = (z mod 2 ^ (8 * Z.of_nat n), p).
Proof.
  unfold ikcp_decode. rewrite <- le_value_le_bytes. by rewrite take_app_length', drop_app_length' by (by rewrite le_bytes_length).
Qed.

(** A segment as it goes over the wire: its header and its data; and as it comes off. *)
Definition enc (seg : IKCPSEG) : list Z := ikcp_encode_seg seg ++ data seg.
Definition received_seg (g : IKCPSEG) : IKCPSEG :=
  mkSeg (u32 (conv g)) (u8 (cmd g)) (u8 (frg g)) (u16 (wnd g)) (u32 (ts g)) (u32 (sn g)) (u32 (una g)) 0 0 0 0 (data g).

Lemma encode_length seg : zlen (ikcp_encode_seg seg) = IKCP_OVERHEAD.
Proof. done. Qed.

Lemma decode_enc seg rest : zlen (data seg) < 2 ^ 32 ->
  ikcp_decode_seg (enc seg ++ rest) = (received_seg seg, zlen (data seg), rest).
Proof.
  intros Hl. unfold ikcp_decode_seg, enc, ikcp_encode_seg. rewrite <- !app_assoc.
  repeat (rewrite decode_bytes; cbv beta iota). rewrite (Z.mod_small (zlen (data seg))) by (cbn; lia).
  rewrite Nat2Z.id, take_app_length, drop_app_length. done.
Qed.

Definition enc_all (segs : list IKCPSEG) : list Z := concat (map enc segs).

(** ** What a datagram is made of

    [parses G p]: every segment the loop of [ikcp_input] can find in [p] has [G]. *)
Inductive parses (G : IKCPSEG -> Prop) (p : list Z) : Prop :=
  parses_intro : (forall seg len rest, IKCP_OVERHEAD <= zlen p -> ikcp_decode_seg p = (seg, len, rest) -> len <= zlen p - IKCP_OVERHEAD ->
    G seg /\ parses G rest) -> parses G p.

Lemma decode_seg_rest p : exists seg len, ikcp_decode_seg p = (seg, len, drop (24 + Z.to_nat len) p) /\ data seg = take (Z.to_nat len) (drop 24 p).
Proof. do 2 eexists. unfold ikcp_decode_seg, ikcp_decode. cbv beta iota. rewrite !drop_drop. cbn [Nat.add data]. split; reflexivity. Qed.

Lemma parses_enc_all (G : IKCPSEG -> Prop) segs : Forall (fun s => G (received_seg s) /\ zlen (data s) < 2 ^ 16) segs -> parses G (enc_all segs).
Proof.
  induction 1 as [|s segs [Hs Hl] _ IH]; constructor; intros seg len rest; [by cbn|].
  unfold enc_all. cbn [map concat]. rewrite decode_enc by lia. intros _ [= <- <- <-] _. done.
Qed.

(** Any bytes at all. *)
Definition in_ranges (seg : IKCPSEG) : Prop :=
  in_u 32 (sn seg) /\ in_u 32 (ts seg) /\ in_u 32 (una seg) /\ in_u 8 (frg seg) /\ zlen (data seg) < 2 ^ 16.

Lemma decode_range n p : Forall is_byte p -> in_u (8 * Z.of_nat n) (le_value (take n p)).
Proof.
  intros Hp. pose proof (le_value_range (take n p) ltac:(by apply Forall_take)) as H. unfold in_u in *. rewrite length_take in H.
  assert (2 ^ (8 * Z.of_nat (n `min` length p)) <= 2 ^ (8 * Z.of_nat n)) by (apply Z.pow_le_mono_r; lia). lia.
Qed.

Lemma parses_bytes n : forall p, (length p <= n)%nat -> Forall is_byte p -> zlen p < 2 ^ 16 -> parses in_ranges p.
Proof.
  induction n as [|n IH]; intros p Hn Hp Hz; constructor; intros seg len rest H24 E Hl; unfold IKCP_OVERHEAD in H24; [lia|].
  destruct (decode_seg_rest p) as (seg' & len' & E' & Hd'). rewrite E' in E. injection E as <- <- <-. split.
  - unfold ikcp_decode_seg, ikcp_decode in E'. cbv beta iota in E'. injection E' as <- _ _. unfold in_ranges. cbn [sn ts una frg data] in *.
    split_and!; [apply (decode_range 4)|apply (decode_range 4)|apply (decode_range 4)|apply (decode_range 1)|];
      [by repeat apply Forall_drop..|]. rewrite Hd', length_take, length_drop. lia.
  - apply IH; [rewrite length_drop; lia|by apply Forall_drop|rewrite length_drop; lia].
Qed.
