(* ===== verification/IkcpSnd.v ===== *)
(** What ikcp.c does to the segments being sent: fragmenting, acknowledgements, and
    the datagrams of a flush. *)
From S2P Require Import Prelude Bytes Ikcp IkcpRcv.

(** ** Fragments *)
Lemma fragments_ok mss count : forall buffer, 0 < mss < 2 ^ 31 -> (Z.of_nat count - 1) * mss < zlen buffer \/ (count <= 1)%nat -> zlen buffer <= Z.of_nat count * mss ->
  concat (map data (fragments mss false count buffer)) = buffer /\ length (fragments mss false count buffer) = count /\
  Forall (fun s => zlen (data s) <= mss) (fragments mss false count buffer) /\
  forall i s, fragments mss false count buffer !! i = Some s -> frg s = Z.of_nat (count - S i).
Proof.
  induction count as [|count IH]; intros buffer Hm Hlo Hhi; cbn [fragments].
  { destruct buffer; [|cbn in Hhi; lia]. split_and!; done. }
  rewrite (swrap_id 32 mss) by (done || unfold in_s; lia).
  set (size := Z.to_nat (if mss <? zlen buffer then mss else zlen buffer)).
  assert ((size <= length buffer)%nat /\ Z.of_nat size <= mss /\ (mss < zlen buffer -> Z.of_nat size = mss) /\ (zlen buffer <= mss -> size = length buffer)) as (Hs1 & Hs2 & Hs3 & Hs4).
  { unfold size. destruct (Z.ltb_spec mss (zlen buffer)); split_and!; lia. }
  destruct (IH (drop size buffer)) as (H1 & H2 & H3 & H4); [done| |rewrite length_drop; nia|].
  { rewrite length_drop. destruct count as [|[|count]]; [right; lia|right; lia|left; destruct Hlo as [Hlo|]; [|lia]].
    assert (mss < zlen buffer) by nia. rewrite Nat2Z.inj_sub, (Hs3 ltac:(done)) by done. nia. }
  cbn [map concat length data]. rewrite H1, H2. split_and!; [apply take_drop|done| |].
  - constructor; [|done]. cbn. rewrite length_take. lia.
  - intros [|i] s; cbn [lookup list_lookup]; [intros [= <-]; cbn; lia|]. intros Hi. rewrite (H4 i s Hi). done.
Qed.

Lemma fragment_count_ok mss len : 26 <= mss < 2 ^ 30 -> 0 <= len < 2 ^ 31 ->
  fragment_count mss len = if len <=? mss then 1 else (len + mss - 1) / mss.
Proof.
  intros Hm Hl. unfold fragment_count. rewrite (swrap_id 32 mss) by (done || unfold in_s; lia). destruct (Z.leb_spec len mss); [done|].
  rewrite (uwrap_id 32 (len + mss)), uwrap_id by (unfold in_u; lia). replace (len + mss - 1) with (len + mss - 1) by lia.
  apply swrap_id; [done|]. unfold in_s. assert (0 <= (len + mss - 1) / mss) by (apply Z.div_pos; lia).
  assert ((len + mss - 1) / mss < 2 ^ (32 - 1)) by (apply Z.div_lt_upper_bound; [lia|nia]). lia.
Qed.

(** *** What [ikcp_send] does outside the stream mode *)
Lemma ikcp_send_ok msg k : 26 <= mss (cfg k) < 2 ^ 30 -> stream (cfg k) = 0 -> zlen msg < 2 ^ 31 ->
  exists code k', ikcp_send msg k = (Ok code, k') /\ cfg k' = cfg k /\ rx k' = rx k /\ flw k' = flw k /\ clk k' = clk k /\
    snd_una (tx k') = snd_una (tx k) /\ snd_nxt (tx k') = snd_nxt (tx k) /\ snd_buf (tx k') = snd_buf (tx k) /\
    (code = -2 /\ snd_queue (tx k') = snd_queue (tx k) \/
     code = 0 /\ exists segs, snd_queue (tx k') = snd_queue (tx k) ++ segs /\ segs <> [] /\ zlen segs < IKCP_WND_RCV /\
       concat (map data segs) = msg /\ Forall (fun s => zlen (data s) <= mss (cfg k)) segs /\
       segs = fragments (mss (cfg k)) false (length segs) msg /\
       forall i s, segs !! i = Some s -> frg s = zlen segs - 1 - Z.of_nat i).
Proof.
  intros Hm Hst Hl. unfold ikcp_send. rewrite (bind_ok get _ k k k eq_refl). cbn beta zeta iota.
  assert ((0 <? mss (cfg k)) = true) as H0 by lia. rewrite (bind_ok _ _ _ _ _ (assert_true _ _ H0)). rewrite Hst, Z.eqb_refl. cbn [negb andb].
  rewrite (bind_ok (modify _) _ k tt _ eq_refl). rewrite (fragment_count_ok _ (zlen msg) Hm) by lia.
  set (count := if zlen msg <=? mss (cfg k) then 1 else _).
  assert (1 <= count /\ count < 2 ^ 31 /\ ((count - 1) * mss (cfg k) < zlen msg \/ count <= 1) /\ zlen msg <= count * mss (cfg k)) as (Hc1 & Hc2 & Hc3 & Hc4).
  { unfold count. destruct (Z.leb_spec (zlen msg) (mss (cfg k))); [split_and!; lia|].
    set (q := (zlen msg + mss (cfg k) - 1) / mss (cfg k)). pose proof (Z.div_mod (zlen msg + mss (cfg k) - 1) (mss (cfg k)) ltac:(lia)) as H1.
    pose proof (Z.mod_pos_bound (zlen msg + mss (cfg k) - 1) (mss (cfg k)) ltac:(lia)) as H2. fold q in H1. split_and!; nia. }
  clearbody count. rewrite uwrap_id by (unfold in_u; lia).
  destruct (Z.leb_spec IKCP_WND_RCV count) as [Hw|Hw].
  { do 2 eexists. split; [reflexivity|]. cbn. split_and!; try done. by left. }
  rewrite (proj2 (Z.eqb_neq count 0)) by lia. do 2 eexists. split; [reflexivity|]. cbn [cfg rx flw clk tx set_tx snd_una snd_nxt snd_buf snd_queue].
  split_and!; try done. right. split; [done|]. eexists. split; [reflexivity|].
  destruct (fragments_ok (mss (cfg k)) (Z.to_nat count) msg) as (H1 & H2 & H3 & H4); [lia| |lia|].
  { destruct Hc3; [left|right]; lia. }
  split_and!; try done; [|lia|by rewrite H2|].
  - intros E. rewrite E in H2. cbn in H2. lia.
  - intros i s Hi. rewrite (H4 i s Hi). apply lookup_lt_Some in Hi. lia.
Qed.

(** ** Acknowledgements *)
(** The same segment, whatever its timers say. *)
Definition kin (a b : IKCPSEG) : Prop := conv a = conv b /\ cmd a = cmd b /\ frg a = frg b /\ sn a = sn b /\ data a = data b.

Lemma kin_refl a : kin a a.
Proof. done. Qed.

(** What acknowledging does to the segments in flight: none is new, and only those
    with a number in [gone] disappear. *)
Record shrinks (gone : Z -> Prop) (s s' : sending) : Prop := {
  sh_nxt : snd_nxt s' = snd_nxt s;
  sh_queue : snd_queue s' = snd_queue s;
  sh_old x : x ∈ snd_buf s' -> exists y, y ∈ snd_buf s /\ kin y x;
  sh_kept y : y ∈ snd_buf s -> (exists x, x ∈ snd_buf s' /\ kin y x) \/ gone (sn y)
}.

Lemma shrinks_refl gone s s' : snd_nxt s' = snd_nxt s -> snd_queue s' = snd_queue s -> snd_buf s' = snd_buf s -> shrinks gone s s'.
Proof. intros H1 H2 H3. split; [done|done|rewrite H3; intros x Hx; by exists x|rewrite H3; intros x Hx; left; by exists x]. Qed.

Lemma shrinks_trans g1 g2 s1 s2 s3 : shrinks g1 s1 s2 -> shrinks g2 s2 s3 -> shrinks (fun n => g1 n \/ g2 n) s1 s3.
Proof.
  intros H1 H2. split.
  - rewrite (sh_nxt _ _ _ H2). apply H1.
  - rewrite (sh_queue _ _ _ H2). apply H1.
  - intros x (y & Hy & Hk)%(sh_old _ _ _ H2). apply (sh_old _ _ _ H1) in Hy as (z & Hz & Hk'). exists z. split; [done|]. unfold kin in *. naive_solver congruence.
  - intros z [(y & Hy & Hk)|Hg]%(sh_kept _ _ _ H1); [|tauto]. apply (sh_kept _ _ _ H2) in Hy as [(x & Hx & Hk')|Hg].
    + left. exists x. split; [done|]. unfold kin in *. naive_solver congruence.
    + right. right. destruct Hk as (_ & _ & _ & -> & _). done.
Qed.

Lemma shrinks_impl (g1 g2 : Z -> Prop) s s' : (forall n, g1 n -> g2 n) -> shrinks g1 s s' -> shrinks g2 s s'.
Proof. intros Hg H. split; try apply H. intros y Hy. apply (sh_kept _ _ _ H) in Hy as [?|?]; [by left|right; by apply Hg]. Qed.

Lemma shrink_buf_ok gone s : shrinks gone s (ikcp_shrink_buf s).
Proof. by apply shrinks_refl. Qed.

Lemma parse_una_ok u s : shrinks (fun n => 0 < _itimediff u n) s (ikcp_parse_una u s).
Proof.
  unfold ikcp_parse_una. assert (forall buf n, exists i, (ikcp_parse_una_loop u buf n).1 = drop i buf /\ forall y, y ∈ take i buf -> 0 < _itimediff u (sn y)) as H.
  { induction buf as [|seg buf IH]; intros n; [exists 0%nat; split; [done|by intros y ?%not_elem_of_nil]|]. cbn [ikcp_parse_una_loop].
    destruct (Z.ltb_spec 0 (_itimediff u (sn seg))); [|exists 0%nat; split; [done|by intros y ?%not_elem_of_nil]].
    destruct (IH (u32 (n - 1))) as (i & Hi & Hg). exists (S i). split; [done|]. intros y [->|Hy]%elem_of_cons; [done|by apply Hg]. }
  destruct (H (snd_buf s) (nsnd_buf s)) as (i & Hi & Hg). destruct (ikcp_parse_una_loop u (snd_buf s) (nsnd_buf s)) as [buf n]. cbn in Hi. subst buf.
  split; [done|done| |]; cbn [snd_buf].
  - intros x Hx. exists x. split; [|done]. rewrite <- (take_drop i (snd_buf s)). apply elem_of_app. by right.
  - intros y Hy. rewrite <- (take_drop i (snd_buf s)) in Hy. apply elem_of_app in Hy as [Hy|Hy]; [right; by apply Hg|left; by exists y].
Qed.

Lemma remove_acked_ok n buf : (forall x, x ∈ (remove_acked n buf).1 -> x ∈ buf) /\ forall y, y ∈ buf -> y ∈ (remove_acked n buf).1 \/ n = sn y.
Proof.
  induction buf as [|seg buf [IH1 IH2]]; [split; [done|by intros y ?%not_elem_of_nil]|]. cbn [remove_acked]. destruct (Z.eqb_spec n (sn seg)).
  { split; [by right|]. intros y [->|Hy]%elem_of_cons; [by right|by left]. }
  destruct (_itimediff n (sn seg) <? 0); [split; [done|tauto]|]. destruct (remove_acked n buf) as [b r]. cbn in *. split.
  - intros x [->|Hx]%elem_of_cons; [by left|right; by apply IH1].
  - intros y [->|Hy]%elem_of_cons; [left; by left|]. destruct (IH2 y Hy); [left; by right|by right].
Qed.

Lemma parse_ack_ok n s : shrinks (fun m => n = m) s (ikcp_parse_ack n s).
Proof.
  unfold ikcp_parse_ack. destruct (_ || _); [by apply shrinks_refl|]. pose proof (remove_acked_ok n (snd_buf s)) as [H1 H2].
  destruct (remove_acked n (snd_buf s)) as [buf r]. cbn in H1, H2. split; [done|done| |]; cbn [snd_buf].
  - intros x Hx. exists x. split; [by apply H1|done].
  - intros y Hy. destruct (H2 y Hy); [left; by exists y|by right].
Qed.

Lemma skip_acked_ok n buf : Forall2 kin buf (skip_acked n buf).
Proof.
  induction buf as [|seg buf IH]; [constructor|]. cbn [skip_acked]. destruct (_ <? _).
  - apply Forall2_same_length_lookup. split; [done|]. intros i x y H1 H2. simplify_eq. done.
  - constructor; [by destruct (n =? sn seg)|done].
Qed.

Lemma forall2_r {A B} (R : A -> B -> Prop) l l' x : Forall2 R l l' -> x ∈ l' -> exists y, y ∈ l /\ R y x.
Proof.
  intros H [i Hi]%list_elem_of_lookup. destruct (Forall2_lookup_r _ _ _ _ _ H Hi) as (y & Hy & Hr). exists y. split; [|done].
  by apply list_elem_of_lookup_2 in Hy.
Qed.
Lemma forall2_l {A B} (R : A -> B -> Prop) l l' y : Forall2 R l l' -> y ∈ l -> exists x, x ∈ l' /\ R y x.
Proof.
  intros H [i Hi]%list_elem_of_lookup. destruct (Forall2_lookup_l _ _ _ _ _ H Hi) as (x & Hx & Hr). exists x. split; [|done].
  by apply list_elem_of_lookup_2 in Hx.
Qed.

Lemma kin_list gone s s' : snd_nxt s' = snd_nxt s -> snd_queue s' = snd_queue s -> Forall2 kin (snd_buf s) (snd_buf s') -> shrinks gone s s'.
Proof.
  intros H1 H2 H. split; [done|done| |].
  - intros x Hx. destruct (forall2_r _ _ _ _ H Hx) as (y & Hy & Hk). by exists y.
  - intros y Hy. left. destruct (forall2_l _ _ _ _ H Hy) as (x & Hx & Hk). by exists x.
Qed.

Lemma parse_fastack_ok gone n s : shrinks gone s (ikcp_parse_fastack n s).
Proof. unfold ikcp_parse_fastack. destruct (_ || _); [by apply shrinks_refl|]. apply kin_list; [done..|apply skip_acked_ok]. Qed.

(** *** What one segment of a datagram does *)
Definition acked_by (seg : IKCPSEG) (n : Z) : Prop := 0 < _itimediff (una seg) n \/ cmd seg = IKCP_CMD_ACK /\ sn seg = n.

Definition takes_push (k : IKCPCB) (seg : IKCPSEG) : bool :=
  (cmd seg =? IKCP_CMD_PUSH) && (_itimediff (sn seg) (u32 (rcv_nxt (rx k) + rcv_wnd (cfg k))) <? 0).

Lemma input_seg_ok seg k : let k' := input_seg seg k in
  cfg k' = cfg k /\ clk k' = clk k /\ shrinks (acked_by seg) (tx k) (tx k') /\
  rx k' = if takes_push k seg
          then let r := ikcp_ack_push (sn seg) (ts seg) (rx k) in
               if 0 <=? _itimediff (sn seg) (rcv_nxt (rx k)) then ikcp_parse_data (rcv_wnd (cfg k)) seg r else r
          else rx k.
Proof.
  cbn zeta. unfold input_seg, takes_push.
  assert (shrinks (acked_by seg) (tx k) (tx (input_header seg k))) as Hh.
  { unfold input_header. cbn [tx set_tx set_flw]. eapply shrinks_impl; [|eapply (shrinks_trans _ (fun _ => False)); [apply parse_una_ok|apply shrink_buf_ok]].
    unfold acked_by. tauto. }
  destruct (Z.eqb_spec (cmd seg) IKCP_CMD_ACK) as [Ec|_].
  { rewrite Ec. cbn [Z.eqb andb]. change (IKCP_CMD_ACK =? IKCP_CMD_PUSH) with false. cbn [andb]. unfold input_ack.
    set (k1 := if 0 <=? _ then _ else _). assert (tx k1 = tx (input_header seg k) /\ cfg k1 = cfg k /\ clk k1 = clk k /\ rx k1 = rx k) as (H1 & H2 & H3 & H4).
    { unfold k1. by destruct (0 <=? _). }
    clearbody k1. cbn [tx cfg clk rx set_tx]. rewrite H1. split_and!; try done.
    eapply shrinks_impl; [|eapply (shrinks_trans _ _ _ _ _ Hh), (shrinks_trans _ (fun _ => False)); [apply parse_ack_ok|apply shrink_buf_ok]].
    unfold acked_by. intros n. tauto. }
  destruct (Z.eqb_spec (cmd seg) IKCP_CMD_PUSH) as [Ep|_].
  { cbn [andb]. unfold input_push. cbn [rx cfg input_header set_tx set_flw].
    destruct (_ <? 0); [|split_and!; done]. cbn [rx set_rx ikcp_ack_push set_acklist rcv_nxt cfg].
    destruct (0 <=? _); split_and!; done. }
  cbn [andb]. destruct (cmd seg =? IKCP_CMD_WASK); split_and!; done.
Qed.

(** ** A datagram, segment by segment

    What every segment of a datagram keeps, the whole call keeps. *)
Lemma input_loop_ok (I : IKCPCB -> Prop) (G : IKCPSEG -> Prop) :
  (forall seg k, G seg -> I k -> I (input_seg seg k)) ->
  forall fuel p maxack k, (length p < fuel)%nat -> parses G p -> I k ->
  exists r k', input_loop fuel p maxack k = (Ok r, k') /\ I k' /\ cfg k' = cfg k.
Proof.
  intros Hstep. induction fuel as [|fuel IH]; intros p maxack k Hf [Hp] Hk; [lia|]. cbn [input_loop].
  destruct (Z.ltb_spec (zlen p) IKCP_OVERHEAD) as [|Hlen]; [by do 2 eexists|]. rewrite (bind_ok get _ k k k eq_refl).
  destruct (decode_seg_rest p) as (seg & len & E & _). rewrite E. cbv beta iota.
  destruct (negb (conv seg =? _)); [by do 2 eexists|]. destruct (Z.ltb_spec (zlen p - IKCP_OVERHEAD) len) as [|Hl]; [by do 2 eexists|].
  destruct (negb (known_cmd (cmd seg))); [by do 2 eexists|]. destruct (Hp seg len _ Hlen E Hl) as [HG Hrest].
  rewrite (bind_ok (modify _) _ k tt (input_seg seg k) eq_refl).
  destruct (IH (drop (24 + Z.to_nat len) p) (if cmd seg =? IKCP_CMD_ACK then max_acked maxack (sn seg) else maxack) (input_seg seg k))
    as (r & k' & E' & HI & Hc); [rewrite length_drop; unfold IKCP_OVERHEAD in Hlen; lia|done|by apply Hstep|].
  exists r, k'. split_and!; [done|done|]. rewrite Hc. apply input_seg_ok.
Qed.

Lemma ikcp_input_ok (I : IKCPCB -> Prop) (G : IKCPSEG -> Prop) p k :
  (forall seg k, G seg -> I k -> I (input_seg seg k)) ->
  (forall k n, I k -> I (set_tx (ikcp_parse_fastack n (tx k)) k)) -> (forall k f, I k -> I (set_flw f k)) ->
  parses G p -> I k -> exists code k', ikcp_input p k = (Ok code, k') /\ I k'.
Proof.
  intros H1 H2 H3 Hp Hk. unfold ikcp_input. rewrite (bind_ok get _ k k k eq_refl). destruct (s32 (zlen p) <? IKCP_OVERHEAD); [by do 2 eexists|].
  destruct (input_loop_ok I G H1 (S (length p)) p None k ltac:(lia) Hp Hk) as ([code maxack] & k1 & E & Hk1 & _). rewrite (bind_ok _ _ _ _ _ E). cbv beta iota.
  destruct (code <? 0); [by do 2 eexists|].
  assert (exists k2, match maxack with Some n => modify (fun k => set_tx (ikcp_parse_fastack n (tx k)) k) | None => mret tt end k1 = (Ok tt, k2) /\ I k2) as (k2 & E2 & Hk2).
  { destruct maxack as [n|]; eexists; (split; [reflexivity|]); [by apply H2|done]. }
  rewrite (bind_ok _ _ _ _ _ E2). rewrite (bind_ok get _ k2 k2 k2 eq_refl). destruct (0 <? _); do 2 eexists; (split; [reflexivity|]); [by apply H3|done].
Qed.
