(* ===== verification/IkcpFlush.v ===== *)
(** What a flush of ikcp.c puts out: whole segments, packed into datagrams no longer
    than the mtu, and what it does to the control block. *)
From S2P Require Import Prelude Bytes Ikcp IkcpRcv IkcpSnd.

Record cfg_ok (c : config) : Prop := {
  ok_mtu : 50 <= mtu c < 2 ^ 16;
  ok_mss : mss c = mtu c - IKCP_OVERHEAD;
  ok_room : room c = (mtu c + IKCP_OVERHEAD) * 3;
  ok_output : output c = true;
  ok_window : IKCP_WND_RCV <= rcv_wnd c <= 2 ^ 15;
  ok_stream : stream c = 0;
  ok_conv : in_u 32 (k_conv c)
}.

(** Only the statistics and the state of the link may differ. *)
Record quiet (k k' : IKCPCB) : Prop := {
  q_cfg : cfg k' = cfg k; q_tx : tx k' = tx k; q_rx : rx k' = rx k; q_flw : flw k' = flw k;
  q_time : current (clk k') = current (clk k); q_upd : updated (clk k') = updated (clk k)
}.
Lemma quiet_refl k : quiet k k.
Proof. done. Qed.
Lemma quiet_trans k1 k2 k3 : quiet k1 k2 -> quiet k2 k3 -> quiet k1 k3.
Proof. intros [] []. split; congruence. Qed.

(** ** The buffer *)
Definition packed (G : IKCPSEG -> Prop) (b : list Z) : Prop := exists segs, b = enc_all segs /\ Forall G segs.

Lemma packed_nil G : packed G [].
Proof. by exists []. Qed.

Lemma packed_snoc G b seg : packed G b -> G seg -> packed G (b ++ enc seg).
Proof.
  intros (segs & -> & H) Hs. exists (segs ++ [seg]). unfold enc_all. rewrite map_app, concat_app. cbn. rewrite app_nil_r. split; [done|].
  apply list.Forall_app. split; [done|]. by constructor.
Qed.

Record fl (G : IKCPSEG -> Prop) (c : config) (f : flushing) : Prop := {
  fl_cfg : cfg (f_kcp f) = c;
  fl_buf : packed G (f_buf f) /\ zlen (f_buf f) <= mtu c;
  fl_out d : d ∈ f_out f -> packed G d /\ 0 < zlen d <= mtu c
}.

Section flush.
Context (G : IKCPSEG -> Prop) (c : config) (Hc : cfg_ok c).

Lemma output_ok f : fl G c f -> exists o, ikcp_output f = (Ok tt, mkFlushing (f_kcp f) (f_buf f) o (change f) (lost f)) /\
  forall d, d ∈ o -> packed G d /\ 0 < zlen d <= mtu c.
Proof.
  intros Hf. unfold ikcp_output. rewrite (bind_ok get _ f f f eq_refl).
  rewrite (bind_ok (assert _) _ f tt f) by (apply assert_true; rewrite (fl_cfg _ _ _ Hf); apply Hc).
  destruct (Z.eqb_spec (zlen (f_buf f)) 0) as [E|E].
  - exists (f_out f). split; [by destruct f|]. apply Hf.
  - eexists. split; [reflexivity|]. intros d [Hd| ->]%elem_snoc; [by apply Hf|]. destruct (fl_buf _ _ _ Hf). split; [done|lia].
Qed.

Lemma make_room_ok need counted f : fl G c f -> need <= mtu c ->
  exists f', make_room need counted f = (Ok tt, f') /\ fl G c f' /\ zlen (f_buf f') + need <= mtu c /\ quiet (f_kcp f) (f_kcp f') /\
    change f' = change f /\ lost f' = lost f.
Proof.
  intros Hf Hn. unfold make_room. rewrite (bind_ok get _ f f f eq_refl). rewrite (fl_cfg _ _ _ Hf). pose proof (ok_mtu _ Hc).
  rewrite (swrap_id 32 (mtu c)) by (done || unfold in_s; lia). destruct (Z.ltb_spec (mtu c) (zlen (f_buf f) + need)).
  2: { exists f. split; [done|]. split_and!; done. }
  destruct (output_ok f Hf) as (o & E & Ho). rewrite (bind_ok _ _ _ _ _ E).
  destruct counted; (eexists; split; [reflexivity|]); cbn [f_kcp f_buf f_out change lost]; (split; [split; cbn [f_kcp f_buf f_out]|]).
  all: try apply (fl_cfg _ _ _ Hf).
  all: try (split; [apply packed_nil|cbn; lia]).
  all: try done.
Qed.

Lemma put_seg_ok seg f : fl G c f -> G seg -> zlen (f_buf f) + (IKCP_OVERHEAD + zlen (data seg)) <= mtu c ->
  exists f1 f', put_bytes (ikcp_encode_seg seg) f = (Ok tt, f1) /\ (if 0 <? zlen (data seg) then put_bytes (data seg) else mret tt) f1 = (Ok tt, f') /\
    fl G c f' /\ f_kcp f' = f_kcp f /\ change f' = change f /\ lost f' = lost f.
Proof.
  intros Hf Hg Hl. pose proof (ok_mtu _ Hc). pose proof (ok_room _ Hc). unfold IKCP_OVERHEAD in *.
  assert (forall g bs, cfg (f_kcp g) = c -> zlen (f_buf g) + zlen bs <= mtu c ->
    put_bytes bs g = (Ok tt, mkFlushing (f_kcp g) (f_buf g ++ bs) (f_out g) (change g) (lost g))) as Hput.
  { intros g bs Hg1 Hg2. unfold put_bytes. rewrite (bind_ok get _ g g g eq_refl). rewrite Hg1, (proj2 (Z.leb_le _ _)) by lia. done. }
  assert (zlen (f_buf f ++ ikcp_encode_seg seg) + zlen (data seg) <= mtu c) as Hl2 by (rewrite length_app, Nat2Z.inj_add, encode_length; unfold IKCP_OVERHEAD; lia).
  destruct (fl_buf _ _ _ Hf) as [Hp _]. pose proof (packed_snoc G _ seg Hp Hg) as Hp'. unfold enc in Hp'. rewrite app_assoc in Hp'.
  destruct (Z.ltb_spec 0 (zlen (data seg))) as [Hd|Hd]; do 2 eexists;
    (split; [apply Hput; [apply Hf|rewrite encode_length; unfold IKCP_OVERHEAD; lia]|]).
  - split; [apply Hput; [apply Hf|done]|]. cbn [f_kcp f_buf f_out change lost]. split; [|done]. split; cbn [f_kcp f_buf f_out]; [apply Hf| |apply Hf].
    split; [done|]. rewrite length_app. lia.
  - split; [reflexivity|]. split; [|done]. split; cbn [f_kcp f_buf f_out]; [apply Hf| |apply Hf].
    destruct (data seg); [|cbn in Hd; lia]. rewrite app_nil_r in Hp'. split; [done|]. cbn [length] in Hl2. lia.
Qed.

(** A segment without data. *)
Lemma put_header_ok seg f : fl G c f -> G seg -> data seg = [] ->
  exists f', (make_room IKCP_OVERHEAD false;; put_bytes (ikcp_encode_seg seg)) f = (Ok tt, f') /\ fl G c f' /\
    quiet (f_kcp f) (f_kcp f') /\ change f' = change f /\ lost f' = lost f.
Proof.
  intros Hf Hg Hd. pose proof (ok_mtu _ Hc). destruct (make_room_ok IKCP_OVERHEAD false f Hf) as (f1 & E1 & Hf1 & Hl1 & Hq1 & Hch1 & Hlo1); [unfold IKCP_OVERHEAD; lia|].
  destruct (put_seg_ok seg f1 Hf1 Hg) as (f2 & f3 & E2 & E3 & Hf3 & Hk3 & Hch3 & Hlo3); [rewrite Hd; cbn; lia|].
  rewrite Hd in E3. injection E3 as ->. exists f3. rewrite (bind_ok _ _ _ _ _ E1). split; [done|]. rewrite Hk3, Hch3, Hlo3. done.
Qed.

Lemma flush_acks_ok acks : forall seg f, fl G c f -> data seg = [] -> (forall a s, a ∈ acks -> s = set_ack a seg -> G s) ->
  exists f' a, flush_acks acks seg f = (Ok (if bool_decide (acks = []) then seg else set_ack a seg), f') /\ fl G c f' /\
    quiet (f_kcp f) (f_kcp f') /\ change f' = change f /\ lost f' = lost f.
Proof.
  induction acks as [|a acks IH]; intros seg f Hf Hd Hg; [exists f, (0, 0); split; [done|]; split; done|].
  cbn [flush_acks]. destruct (put_header_ok (set_ack a seg) f Hf) as (f1 & E1 & Hf1 & Hq1 & Hch1 & Hlo1); [by apply (Hg a); [left|]|done|].
  rewrite <- bind_assoc. rewrite (bind_ok _ _ _ _ _ E1).
  destruct (IH (set_ack a seg) f1 Hf1 Hd) as (f2 & a' & E2 & Hf2 & Hq2 & Hch2 & Hlo2).
  { intros a' s Ha' ->. apply (Hg a'); [by right|done]. }
  exists f2, (if bool_decide (acks = []) then a else a'). rewrite E2. split.
  - f_equal. f_equal. by case_bool_decide.
  - split_and!; [done|by eapply quiet_trans|congruence|congruence].
Qed.

Lemma flush_probe_ok ask cm seg f : fl G c f -> data seg = [] -> G (set_cmd cm seg) ->
  exists f' seg', flush_probe ask cm seg f = (Ok seg', f') /\ (seg' = seg \/ seg' = set_cmd cm seg) /\ fl G c f' /\
    quiet (f_kcp f) (f_kcp f') /\ change f' = change f /\ lost f' = lost f.
Proof.
  intros Hf Hd Hg. unfold flush_probe. rewrite (bind_ok get _ f f f eq_refl). destruct (_ =? 0).
  - exists f, seg. split; [done|]. split_and!; try done. by left.
  - destruct (put_header_ok (set_cmd cm seg) f Hf Hg Hd) as (f1 & E1 & H). exists f1, (set_cmd cm seg). rewrite <- bind_assoc, (bind_ok _ _ _ _ _ E1).
    split; [done|]. split; [by right|done].
Qed.

(** The loop over the segments in flight. *)
Lemma flush_data_ok resent rtomin w u buf : forall f, fl G c f ->
  (forall s s', s ∈ buf -> kin s s' -> una s' = u -> G s') -> (forall s, s ∈ buf -> zlen (data s) <= mss c) ->
  exists segs f', flush_data resent rtomin w u buf f = (Ok segs, f') /\ Forall2 kin buf segs /\ fl G c f' /\ quiet (f_kcp f) (f_kcp f').
Proof.
  induction buf as [|seg buf IH]; intros f Hf Hg Hd; [exists [], f; split; [done|]; split; [constructor|done]|].
  cbn [flush_data]. rewrite (bind_ok get _ f f f eq_refl).
  assert (exists seg' f1, (match due (f_kcp f) resent rtomin seg with
      | None => mret seg
      | Some (seg, timed_out, fast) =>
        note timed_out fast;;
        let seg := stamp w (current (clk (f_kcp f))) u seg in
        make_room (IKCP_OVERHEAD + zlen (data seg)) true;;
        put_bytes (ikcp_encode_seg seg);;
        (if 0 <? zlen (data seg) then put_bytes (data seg) else mret tt);;
        (if dead_link (cfg (f_kcp f)) <=? xmit seg then on_kcp set_dead else mret tt);;
        mret seg end) f = (Ok seg', f1) /\ kin seg seg' /\ fl G c f1 /\ quiet (f_kcp f) (f_kcp f1)) as (seg' & f1 & E1 & Hk1 & Hf1 & Hq1).
  { destruct (due (f_kcp f) resent rtomin seg) as [[[s1 timed_out] fast]|] eqn:Edue; [|exists seg, f; by split_and!].
    assert (kin seg s1) as Hk.
    { unfold due in Edue. repeat (case_match; [injection Edue as <- <- <-; done|]). done. }
    set (f2 := mkFlushing (if timed_out then add_timeout (f_kcp f) else f_kcp f) (f_buf f) (f_out f) (if fast then change f + 1 else change f) (lost f || timed_out)).
    rewrite (bind_ok (note timed_out fast) _ f tt f2 eq_refl). cbv zeta.
    assert (fl G c f2 /\ quiet (f_kcp f) (f_kcp f2)) as [Hf2 Hq2].
    { split; [split; cbn [f_kcp f_buf f_out f2]; [destruct timed_out; apply Hf|apply Hf|apply Hf]|cbn; destruct timed_out; done]. }
    clearbody f2. set (s2 := stamp w _ u s1). assert (kin seg s2 /\ data s2 = data seg /\ una s2 = u) as (Hk2 & Hd2 & Hu2).
    { unfold kin in *. cbn. naive_solver. }
    clearbody s2. specialize (Hd seg ltac:(by left)) as Hl. pose proof (ok_mss _ Hc).
    destruct (make_room_ok (IKCP_OVERHEAD + zlen (data s2)) true f2 Hf2) as (f3 & E3 & Hf3 & Hl3 & Hq3 & _); [rewrite Hd2; lia|].
    rewrite (bind_ok _ _ _ _ _ E3).
    destruct (put_seg_ok s2 f3 Hf3) as (f4 & f5 & E4 & E5 & Hf5 & Hk5 & _); [by apply (Hg seg); [left|..]|done|].
    rewrite (bind_ok _ _ _ _ _ E4), (bind_ok _ _ _ _ _ E5). rewrite <- Hk5 in Hq3.
    destruct (_ <=? xmit s2).
    - rewrite (bind_ok (on_kcp set_dead) _ f5 tt _ eq_refl). do 2 eexists. split; [reflexivity|]. split_and!; [done| |].
      + split; cbn; apply Hf5.
      + eapply quiet_trans; [exact Hq2|]. eapply quiet_trans; [exact Hq3|done].
    - exists s2, f5. split_and!; [done|done|done|]. by eapply quiet_trans. }
  rewrite (bind_ok _ _ _ _ _ E1).
  destruct (IH f1 Hf1) as (segs & f2 & E2 & Hk2 & Hf2 & Hq2); [intros s s' Hs; apply Hg; by right|intros s Hs; apply Hd; by right|].
  rewrite (bind_ok _ _ _ _ _ E2). exists (seg' :: segs), f2. split_and!; [done|by constructor|done|by eapply quiet_trans].
Qed.
End flush.

(** ** From the queue to the segments in flight *)
Lemma flush_move_ok cv w u cur ro cw queue : forall s, snd_queue s = queue -> in_u 32 (snd_nxt s) ->
  exists n news, let s' := flush_move cv w u cur ro cw queue s in
    snd_una s' = snd_una s /\ snd_nxt s' = u32 (snd_nxt s + Z.of_nat n) /\ snd_queue s' = drop n queue /\ snd_buf s' = snd_buf s ++ news /\
    (n <= length queue)%nat /\ length news = n /\
    forall i x, news !! i = Some x -> conv x = cv /\ cmd x = IKCP_CMD_PUSH /\ sn x = u32 (snd_nxt s + Z.of_nat i) /\
      exists y, queue !! i = Some y /\ frg x = frg y /\ data x = data y.
Proof.
  induction queue as [|y queue IH]; intros s Hq Hn.
  { exists 0%nat, []. cbn. rewrite app_nil_r, Z.add_0_r, uwrap_id by done. split_and!; done. }
  cbn [flush_move]. destruct (_ <? 0).
  2: { exists 0%nat, []. cbn. rewrite app_nil_r, Z.add_0_r, uwrap_id by done. split_and!; try done. lia. }
  match goal with |- context [flush_move _ _ _ _ _ _ _ ?s1] => set (s1' := s1) end.
  destruct (IH s1' eq_refl ltac:(apply uwrap_range; lia)) as (n & news & H1 & H2 & H3 & H4 & H5 & H6 & H7).
  set (x0 := mkSeg cv IKCP_CMD_PUSH (frg y) w cur (snd_nxt s) u cur ro 0 0 (data y)) in *.
  exists (S n), (x0 :: news). cbn zeta. rewrite H1, H2, H3, H4. cbn [snd_una snd_nxt snd_buf s1' length drop].
  destruct (u32_diff (snd_nxt s + 1) 0 (Z.of_nat n)) as (_ & _ & _ & ->).
  split_and!; [done|f_equal; lia|done|by rewrite <- app_assoc|lia|congruence|].
  intros [|i] x; cbn [lookup list_lookup].
  - intros [= <-]. cbn. rewrite Z.add_0_r, uwrap_id by done. split_and!; try done. by exists y.
  - intros Hi. destruct (H7 i x Hi) as (Ha & Hb & He & Hy). split_and!; try done. rewrite He. cbn [snd_nxt s1'].
    destruct (u32_diff (snd_nxt s + 1) 0 (Z.of_nat i)) as (_ & _ & _ & ->). f_equal. lia.
Qed.

(** ** The whole flush *)
Lemma on_kcp_eq g f : on_kcp g f = (Ok tt, mkFlushing (g (f_kcp f)) (f_buf f) (f_out f) (change f) (lost f)).
Proof. done. Qed.

(** The segments a flush makes itself. *)
Definition control_seg (k : IKCPCB) (seg : IKCPSEG) : Prop :=
  conv seg = k_conv (cfg k) /\ una seg = rcv_nxt (rx k) /\ data seg = [] /\ frg seg = 0 /\
  (cmd seg = IKCP_CMD_ACK /\ (exists t, (sn seg, t) ∈ acklist (rx k)) \/ cmd seg = IKCP_CMD_WASK \/ cmd seg = IKCP_CMD_WINS).

(** What a flush does to the segments to send: some of the queue joins those in
    flight, whose timers may change. *)
Definition flushed (k : IKCPCB) (s' : sending) : Prop :=
  exists w cw s1, s1 = flush_move (k_conv (cfg k)) w (rcv_nxt (rx k)) (current (clk k)) (u32 (rx_rto (flw k))) cw (snd_queue (tx k)) (tx k) /\
    snd_nxt s' = snd_nxt s1 /\ snd_queue s' = snd_queue s1 /\ Forall2 kin (snd_buf s1) (snd_buf s').

Lemma flush_control_ok (G : IKCPSEG -> Prop) c (Hc : cfg_ok c) seg f : fl G c f ->
  conv seg = k_conv c -> cmd seg = IKCP_CMD_ACK -> una seg = rcv_nxt (rx (f_kcp f)) -> data seg = [] -> frg seg = 0 ->
  (forall s, control_seg (f_kcp f) s -> G s) ->
  exists f', flush_control seg f = (Ok tt, f') /\ fl G c f' /\ tx (f_kcp f') = tx (f_kcp f) /\ rx (f_kcp f') = set_acklist [] (rx (f_kcp f)) /\
    current (clk (f_kcp f')) = current (clk (f_kcp f)) /\ updated (clk (f_kcp f')) = updated (clk (f_kcp f)) /\
    rx_rto (flw (f_kcp f')) = rx_rto (flw (f_kcp f)).
Proof.
  intros Hf Hcv Hcm Hun Hda Hfr Hg. pose proof (fl_cfg _ _ _ Hf) as Hcf. unfold flush_control. rewrite (bind_ok get _ f f f eq_refl).
  destruct (flush_acks_ok G c Hc (acklist (rx (f_kcp f))) seg f Hf Hda) as (f1 & a & E1 & Hf1 & Hq1 & _).
  { intros [n t] s Ha ->. apply Hg. unfold control_seg. cbn. rewrite Hcf. split_and!; try done. left. split; [done|by exists t]. }
  rewrite (bind_ok _ _ _ _ _ E1). set (seg1 := if bool_decide _ then seg else _).
  assert (conv seg1 = k_conv c /\ una seg1 = rcv_nxt (rx (f_kcp f)) /\ data seg1 = [] /\ frg seg1 = 0) as (Hcv1 & Hun1 & Hda1 & Hfr1) by (unfold seg1; by case_bool_decide).
  clearbody seg1.
  assert (forall x y, fl G c x -> f_buf y = f_buf x -> f_out y = f_out x -> cfg (f_kcp y) = cfg (f_kcp x) -> fl G c y) as Hkeep.
  { intros x y [? ? ?] Eb Eo Ec. split; [congruence|by rewrite Eb|by rewrite Eo]. }
  rewrite !(bind_ok _ _ _ _ _ (on_kcp_eq _ _)). match goal with |- exists f', (_ ≫= _) ?g = _ /\ _ => set (f3 := g) end.
  assert (fl G c f3) as Hf3 by (by apply (Hkeep f1)).
  assert (forall cm s, cm = IKCP_CMD_WASK \/ cm = IKCP_CMD_WINS -> s = seg1 \/ (exists cm', s = set_cmd cm' seg1) -> G (set_cmd cm s) /\ data s = []) as Hctl.
  { intros cm s Hcm' Hs. assert (conv s = k_conv c /\ una s = rcv_nxt (rx (f_kcp f)) /\ data s = [] /\ frg s = 0) as (H1 & H2 & H3 & H4) by (destruct Hs as [->|[cm' ->]]; done).
    split; [|done]. apply Hg. unfold control_seg. cbn. rewrite Hcf. split_and!; try done. by right. }
  destruct (Hctl IKCP_CMD_WASK seg1 ltac:(by left) ltac:(by left)) as [Hg1 _].
  destruct (flush_probe_ok G c Hc IKCP_ASK_SEND IKCP_CMD_WASK seg1 f3 Hf3 Hda1 Hg1) as (f4 & seg2 & E4 & Hs2 & Hf4 & Hq4 & _).
  rewrite (bind_ok _ _ _ _ _ E4).
  destruct (Hctl IKCP_CMD_WINS seg2 ltac:(by right)) as [Hg2 Hda2]; [destruct Hs2; [by left|right; by eexists]|].
  destruct (flush_probe_ok G c Hc IKCP_ASK_TELL IKCP_CMD_WINS seg2 f4 Hf4 Hda2 Hg2) as (f5 & seg3 & E5 & _ & Hf5 & Hq5 & _).
  rewrite (bind_ok _ _ _ _ _ E5), on_kcp_eq. eexists. split; [reflexivity|]. split; [by apply (Hkeep f5)|].
  cbn [f_kcp tx rx clk flw set_flw set_probe rx_rto]. destruct Hq1 as [Qc1 Qt1 Qr1 Qf1 Qi1 Qu1], Hq4 as [Qc4 Qt4 Qr4 Qf4 Qi4 Qu4], Hq5 as [Qc5 Qt5 Qr5 Qf5 Qi5 Qu5].
  rewrite Qt5, Qt4, Qr5, Qr4, Qf5, Qf4, Qi5, Qi4, Qu5, Qu4. cbn [f_kcp tx rx clk flw set_flw set_rx f3].
  rewrite Qt1, Qr1, Qi1, Qu1. split_and!; try done.
  rewrite <- Qf1. unfold probe_window. destruct (flw (f_kcp f1)). cbn. repeat case_match; done.
Qed.

Lemma flush_all_ok (G : IKCPSEG -> Prop) k : cfg_ok (cfg k) -> (forall s, control_seg k s -> G s) ->
  (forall w cw s1 x y, s1 = flush_move (k_conv (cfg k)) w (rcv_nxt (rx k)) (current (clk k)) (u32 (rx_rto (flw k))) cw (snd_queue (tx k)) (tx k) ->
    x ∈ snd_buf s1 -> zlen (data x) <= mss (cfg k) /\ (kin x y -> una y = rcv_nxt (rx k) -> G y)) ->
  exists f', flush_all (mkFlushing k [] [] 0 false) = (Ok tt, f') /\
    (forall d, d ∈ f_out f' -> packed G d /\ 0 < zlen d <= mtu (cfg k)) /\
    cfg (f_kcp f') = cfg k /\ rx (f_kcp f') = set_acklist [] (rx k) /\ current (clk (f_kcp f')) = current (clk k) /\
    updated (clk (f_kcp f')) = updated (clk k) /\ flushed k (tx (f_kcp f')).
Proof.
  intros Hc Hg1 Hg2. set (f := mkFlushing k [] [] 0 false). set (c := cfg k).
  assert (fl G c f) as Hf. { split; [done|split; [apply packed_nil|cbn; pose proof (ok_mtu _ Hc); unfold c; lia]|by intros d ?%not_elem_of_nil]. }
  unfold flush_all. rewrite (bind_ok get _ f f f eq_refl). cbv zeta. set (w := u32 (ikcp_wnd_unused _ _)). change (f_kcp f) with k. fold c.
  edestruct (flush_control_ok G c Hc) as (f1 & E1 & Hf1 & Ht1 & Hr1 & Hcu1 & Hup1 & Hro1); [exact Hf| | | | | |exact Hg1|]; [..|rewrite (bind_ok _ _ _ _ _ E1)]; try done.
  change (f_kcp f) with k in *. rewrite (bind_ok get _ f1 f1 f1 eq_refl). set (win := send_window (f_kcp f1)). set (rs := if 0 <? fastresend _ then _ else _). set (rm := if nodelay _ =? 0 then _ else _).
  rewrite (bind_ok _ _ _ _ _ (on_kcp_eq _ _)). rewrite (bind_ok get _ _ _ _ eq_refl). cbn [f_kcp tx set_tx]. rewrite Ht1, (fl_cfg _ _ _ Hf1), Hcu1, Hro1.
  set (s1 := flush_move _ _ _ _ _ _ _ _). match goal with |- exists f', (_ ≫= _) ?g = _ /\ _ => set (f2 := g) end.
  assert (fl G c f2) as Hf2 by (destruct Hf1; split; done).
  destruct (flush_data_ok G c Hc rs rm w (rcv_nxt (rx k)) (snd_buf s1) f2 Hf2) as (segs & f3 & E3 & Hk3 & Hf3 & Hq3).
  { intros x y Hx. by apply (Hg2 w win s1). } { intros x Hx. by apply (Hg2 w win s1 x x). }
  rewrite (bind_ok _ _ _ _ _ E3). rewrite (bind_ok _ _ _ _ _ (on_kcp_eq _ _)). rewrite (bind_ok get _ _ _ _ eq_refl).
  match goal with |- exists f', (_ ≫= _) ?g = _ /\ _ => set (f4 := g) end.
  assert (fl G c f4) as Hf4 by (destruct Hf3; split; done).
  assert (exists f5, (if 0 <? zlen (f_buf f4) then ikcp_output;; on_kcp add_snd_sum else mret tt) f4 = (Ok tt, f5) /\ quiet (f_kcp f4) (f_kcp f5) /\
    (forall d, d ∈ f_out f5 -> packed G d /\ 0 < zlen d <= mtu c)) as (f5 & E5 & Hq5 & Ho5).
  { destruct (0 <? zlen (f_buf f4)); [|exists f4; split_and!; try done; apply Hf4].
    destruct (output_ok G c Hc f4 Hf4) as (o & E & Ho). rewrite (bind_ok _ _ _ _ _ E). eexists. split; [reflexivity|]. done. }
  rewrite (bind_ok _ _ _ _ _ E5). rewrite (bind_ok get _ _ _ _ eq_refl), on_kcp_eq. eexists. split; [reflexivity|]. cbn [f_out f_kcp cfg rx tx clk set_flw].
  destruct Hq5 as [Qc5 Qt5 Qr5 _ Qi5 Qu5], Hq3 as [Qc3 Qt3 Qr3 _ Qi3 Qu3]. rewrite Qc5, Qt5, Qr5, Qi5, Qu5. cbn [f_kcp f4 cfg rx tx clk set_tx]. rewrite Qc3, Qr3, Qi3, Qu3, Qt3.
  cbn [f_kcp f2 cfg rx tx clk set_tx]. rewrite (fl_cfg _ _ _ Hf1), Hr1, Hcu1, Hup1. split_and!; try done.
  exists w, win, s1. split_and!; try done.
Qed.

Lemma ikcp_flush_ok (G : IKCPSEG -> Prop) k : cfg_ok (cfg k) -> (forall s, control_seg k s -> G s) ->
  (forall w cw s1 x y, s1 = flush_move (k_conv (cfg k)) w (rcv_nxt (rx k)) (current (clk k)) (u32 (rx_rto (flw k))) cw (snd_queue (tx k)) (tx k) ->
    x ∈ snd_buf s1 -> zlen (data x) <= mss (cfg k) /\ (kin x y -> una y = rcv_nxt (rx k) -> G y)) ->
  exists ds k', ikcp_flush k = (Ok ds, k') /\ (forall d, d ∈ ds -> packed G d /\ 0 < zlen d <= mtu (cfg k)) /\ cfg k' = cfg k /\
    (k' = k \/ rx k' = set_acklist [] (rx k) /\ flushed k (tx k')).
Proof.
  intros Hc Hg1 Hg2. unfold ikcp_flush. destruct (updated (clk k)); cbn [negb].
  - destruct (flush_all_ok G k Hc Hg1 Hg2) as (f & E & Ho & Hcf & Hr & _ & _ & Hf). rewrite E. do 2 eexists. split; [reflexivity|]. split_and!; try done. by right.
  - do 2 eexists. split; [reflexivity|]. split_and!; try done; [by intros d ?%not_elem_of_nil|by left].
Qed.
