(* ===== verification/IkcpSafe.v ===== *)
(** A control block of ikcp.c against whatever its user and the network do. *)
From stdpp Require Import sorting.
From S2P Require Import Prelude Bytes Ikcp IkcpRcv IkcpSnd IkcpFlush.

(** The settings of a session (KcpSession::KcpSession). *)
Record options := mkOptions { o_nodelay : Z; o_interval : Z; o_resend : Z; o_nc : Z; o_mtu : Z; o_sndwnd : Z; o_rcvwnd : Z }.

Definition start_kcp (conv : Z) (o : options) : IKCPCB :=
  ikcp_wndsize (o_sndwnd o) (o_rcvwnd o)
    (ikcp_setmtu (o_mtu o) (ikcp_nodelay (o_nodelay o) (o_interval o) (o_resend o) (o_nc o) (ikcp_setoutput (ikcp_create conv)))).2.

Definition options_ok (o : options) : Prop := 50 <= o_mtu o < 2 ^ 16 /\ o_rcvwnd o <= 2 ^ 15.

(** ** The invariant *)
Definition short (c : config) (l : list IKCPSEG) : Prop := forall s, s ∈ l -> zlen (data s) <= mss c.

Record kcp_ok (k : IKCPCB) : Prop := {
  k_cfg : cfg_ok (cfg k);
  k_rcv : rcv_ok (rcv_wnd (cfg k)) (rx k);
  k_nxt : in_u 32 (snd_nxt (tx k));
  k_queue : short (cfg k) (snd_queue (tx k));
  k_buf : short (cfg k) (snd_buf (tx k));
  k_held s : s ∈ rcv_queue (rx k) \/ s ∈ rcv_buf (rx k) -> zlen (data s) < 2 ^ 16
}.

Lemma window_range k : kcp_ok k -> 0 <= rcv_wnd (cfg k) < 2 ^ 31.
Proof. intros H. pose proof (ok_window _ (k_cfg _ H)). unfold IKCP_WND_RCV in *. lia. Qed.

Lemma start_cfg conv o : options_ok o -> let c := cfg (start_kcp conv o) in
  mtu c = o_mtu o /\ mss c = o_mtu o - IKCP_OVERHEAD /\ room c = (o_mtu o + IKCP_OVERHEAD) * 3 /\ output c = true /\
  IKCP_WND_RCV <= rcv_wnd c <= 2 ^ 15 /\ stream c = 0 /\ k_conv c = conv.
Proof.
  intros [Hm Hr]. unfold start_kcp, ikcp_setmtu. rewrite (proj2 (Z.ltb_ge (o_mtu o) 50)) by lia. rewrite (proj2 (Z.ltb_ge (o_mtu o) IKCP_OVERHEAD)) by (unfold IKCP_OVERHEAD; lia).
  cbn. rewrite !uwrap_id by (unfold in_u, IKCP_OVERHEAD; lia). split_and!; try done; unfold _imax_, IKCP_WND_RCV; repeat case_match; lia.
Qed.

Lemma start_ok conv o : in_u 32 conv -> options_ok o -> kcp_ok (start_kcp conv o).
Proof.
  intros Hcv Ho. destruct (start_cfg conv o Ho) as (H1 & H2 & H3 & H4 & H5 & H6 & H7).
  assert (rx (start_kcp conv o) = mkReceiving 0 [] [] 0 0 [] /\ tx (start_kcp conv o) = mkSending 0 0 [] [] 0 0) as [Hrx Htx].
  { unfold start_kcp, ikcp_setmtu. by destruct (_ || _). }
  split.
  - split; rewrite ?H1, ?H2, ?H3; try done; [apply Ho|by rewrite H7].
  - rewrite Hrx. split; [|by intros s ?%not_elem_of_nil]. split; cbn; try done; [split; [done|unfold IKCP_WND_RCV in *; lia]|constructor|by intros s ?%not_elem_of_nil].
  - by rewrite Htx.
  - rewrite Htx. by intros s ?%not_elem_of_nil.
  - rewrite Htx. by intros s ?%not_elem_of_nil.
  - rewrite Hrx. by intros s [?%not_elem_of_nil|?%not_elem_of_nil].
Qed.

(** ** Each call keeps it *)
Lemma send_keeps msg k : kcp_ok k -> zlen msg < 2 ^ 31 -> exists code k', ikcp_send msg k = (Ok code, k') /\ kcp_ok k' /\ cfg k' = cfg k.
Proof.
  intros Hk Hl. pose proof (k_cfg _ Hk) as Hc. pose proof (ok_mtu _ Hc). pose proof (ok_mss _ Hc). unfold IKCP_OVERHEAD in *.
  destruct (ikcp_send_ok msg k) as (code & k' & E & Ec & Er & _ & _ & _ & En & Eb & Hq); [lia|apply Hc|done|].
  exists code, k'. split; [done|]. split; [|done]. split; rewrite ?Ec, ?Er, ?En; try apply Hk.
  - destruct Hq as [[_ ->]|(_ & segs & -> & _ & _ & _ & Hs & _)]; [apply Hk|]. intros s [Hin|Hin]%elem_of_app; [by apply (k_queue _ Hk)|].
    rewrite list.Forall_forall in Hs. by apply Hs.
  - rewrite Eb. apply Hk.
Qed.

Lemma held_small k : kcp_ok k -> small (rx k).
Proof.
  intros Hk. split; [|apply Hk]. destruct (k_rcv _ Hk) as [Hr _]. pose proof (ok_window _ (k_cfg _ Hk)). pose proof (rcv_count _ _ Hr). lia.
Qed.

Lemma recv_keeps len k : kcp_ok k -> len <> - 2 ^ 31 -> exists r k', ikcp_recv len k = (Ok r, k') /\ kcp_ok k' /\ cfg k' = cfg k /\ tx k' = tx k.
Proof.
  intros Hk Hl. destruct (ikcp_recv_ok len k (held_small _ Hk) Hl) as (code & buf & k' & E & Ec & Et & _ & _ & Hr). exists (code, buf), k'. split; [done|].
  split; [|done]. split; rewrite ?Ec, ?Et; try apply Hk.
  all: destruct Hr as [(_ & -> & _)|(_ & _ & _ & _ & _ & _ & ->)]; [apply Hk|].
  all: destruct (took_ok (rcv_wnd (cfg k)) (len <? 0) (rx k) (window_range _ Hk) (k_rcv _ Hk)) as (Hok & _ & n & _ & Eq & Eb & _).
  1: exact Hok.
  intros s Hs. apply (k_held _ Hk). rewrite Eq, Eb in Hs. destruct Hs as [[Hs|Hs]%elem_of_app|Hs]; [|right; rewrite <- (take_drop n (rcv_buf (rx k))); apply elem_of_app; tauto..].
  left. destruct (len <? 0); [done|]. rewrite <- (take_drop (msg_len (rcv_queue (rx k))) (rcv_queue (rx k))). apply elem_of_app. by right.
Qed.

Lemma input_seg_keeps seg k : in_u 32 (sn seg) -> zlen (data seg) < 2 ^ 16 -> kcp_ok k -> kcp_ok (input_seg seg k).
Proof.
  intros Hsn Hd Hk. destruct (input_seg_ok seg k) as (Ec & _ & Ht & Er). pose proof (window_range _ Hk) as Hw. destruct (k_rcv _ Hk) as [Hr Hh].
  assert (rcv_ok (rcv_wnd (cfg k)) (ikcp_ack_push (sn seg) (ts seg) (rx k))) as Ha by (split; [split; apply Hr|done]).
  split; rewrite ?Ec; try apply Hk.
  - rewrite Er. destruct (takes_push k seg); [|apply Hk]. cbn zeta. destruct (0 <=? _); [|done]. by apply parse_data_ok.
  - rewrite (sh_nxt _ _ _ Ht). apply Hk.
  - rewrite (sh_queue _ _ _ Ht). apply Hk.
  - intros x (y & Hy & Hk')%(sh_old _ _ _ Ht). destruct Hk' as (_ & _ & _ & _ & <-). by apply (k_buf _ Hk).
  - rewrite Er. destruct (takes_push k seg); [|apply Hk]. cbn zeta. destruct (0 <=? _); [|apply Hk].
    destruct (parse_data_ok (rcv_wnd (cfg k)) seg _ Hw Hsn Ha) as (_ & _ & n & buf & Eq & Eb & _ & _ & _ & Hb & _).
    assert (forall s, s ∈ buf -> zlen (data s) < 2 ^ 16) as Hbuf by (intros s Hs; destruct (Hb s Hs) as [Hi|[-> _]]; [apply (k_held _ Hk); by right|done]).
    intros s [Hs|Hs]; [rewrite Eq in Hs; apply elem_of_app in Hs as [Hs|Hs]|rewrite Eb in Hs]; [apply (k_held _ Hk); by left|apply Hbuf..];
      rewrite <- (take_drop n buf); apply elem_of_app; [by left|by right].
Qed.

Lemma set_tx_keeps k s gone : shrinks gone (tx k) s -> kcp_ok k -> kcp_ok (set_tx s k).
Proof.
  intros Hs Hk. split; cbn [cfg rx tx set_tx]; try apply Hk.
  - rewrite (sh_nxt _ _ _ Hs). apply Hk.
  - rewrite (sh_queue _ _ _ Hs). apply Hk.
  - intros x (y & Hy & Hk')%(sh_old _ _ _ Hs). destruct Hk' as (_ & _ & _ & _ & <-). by apply (k_buf _ Hk).
Qed.

Lemma input_keeps p k : kcp_ok k -> Forall is_byte p -> zlen p < 2 ^ 16 -> exists code k', ikcp_input p k = (Ok code, k') /\ kcp_ok k' /\ cfg k' = cfg k.
Proof.
  intros Hk Hp Hz. apply (ikcp_input_ok (fun k' => kcp_ok k' /\ cfg k' = cfg k) in_ranges); [| | | |done].
  - intros seg k1 (Hsn & _ & _ & _ & Hd) [Hk1 Hc1]. split; [by apply input_seg_keeps|]. rewrite <- Hc1. apply input_seg_ok.
  - intros k1 n [Hk1 Hc1]. split; [|done]. by apply (set_tx_keeps _ _ (fun _ => False)); [apply parse_fastack_ok|].
  - intros k1 f [[] Hc1]. by split.
  - by apply (parses_bytes (length p)).
Qed.

Lemma flushed_keeps k s' : kcp_ok k -> flushed k s' -> in_u 32 (snd_nxt s') /\ short (cfg k) (snd_queue s') /\ short (cfg k) (snd_buf s').
Proof.
  intros Hk (w & cw & s1 & -> & Hn & Hq & Hb).
  destruct (flush_move_ok (k_conv (cfg k)) w (rcv_nxt (rx k)) (current (clk k)) (u32 (rx_rto (flw k))) cw (snd_queue (tx k)) (tx k) eq_refl (k_nxt _ Hk))
    as (n & news & _ & Hn1 & Hq1 & Hb1 & Hl & _ & Hnews).
  split_and!; [rewrite Hn, Hn1; apply uwrap_range; lia| |].
  - rewrite Hq, Hq1. intros s Hs. apply (k_queue _ Hk). rewrite <- (take_drop n (snd_queue (tx k))). apply elem_of_app. by right.
  - intros s Hs. destruct (forall2_r _ _ _ _ Hb Hs) as (y & Hy & Hk'). destruct Hk' as (_ & _ & _ & _ & <-). rewrite Hb1 in Hy.
    apply elem_of_app in Hy as [Hy|[i Hi]%list_elem_of_lookup]; [by apply (k_buf _ Hk)|]. destruct (Hnews i y Hi) as (_ & _ & _ & z & Hz & _ & ->).
    apply (k_queue _ Hk). by apply list_elem_of_lookup_2 in Hz.
Qed.

(** Whatever a flush moves is short, whatever it puts out is [G]. *)
Lemma flush_keeps (G : IKCPSEG -> Prop) k : kcp_ok k -> (forall s, control_seg k s -> G s) ->
  (forall w cw s1 x y, s1 = flush_move (k_conv (cfg k)) w (rcv_nxt (rx k)) (current (clk k)) (u32 (rx_rto (flw k))) cw (snd_queue (tx k)) (tx k) ->
    x ∈ snd_buf s1 -> kin x y -> una y = rcv_nxt (rx k) -> G y) ->
  exists ds k', ikcp_flush k = (Ok ds, k') /\ kcp_ok k' /\ cfg k' = cfg k /\ (forall d, d ∈ ds -> packed G d /\ 0 < zlen d <= mtu (cfg k)) /\
    (k' = k \/ rx k' = set_acklist [] (rx k) /\ flushed k (tx k')).
Proof.
  intros Hk H1 H2. destruct (ikcp_flush_ok G k (k_cfg _ Hk) H1) as (ds & k' & E & Ho & Ec & Hf).
  { intros w cw s1 x y -> Hx. split; [|by eapply H2].
    assert (flushed k (flush_move (k_conv (cfg k)) w (rcv_nxt (rx k)) (current (clk k)) (u32 (rx_rto (flw k))) cw (snd_queue (tx k)) (tx k))) as Hfl.
    { eexists w, cw, _. split_and!; [done..|]. apply Forall2_same_length_lookup. split; [done|]. intros i a b Ha Hb. by simplify_eq. }
    destruct (flushed_keeps k _ Hk Hfl) as (_ & _ & Hs). by apply Hs. }
  exists ds, k'. split_and!; try done. destruct Hf as [->|[Er Hf]]; [done|]. destruct (flushed_keeps k _ Hk Hf) as (Hn & Hq & Hb). split; rewrite ?Ec; try done; [apply Hk| |by rewrite Er; apply Hk].
  rewrite Er. destruct (k_rcv _ Hk) as [Hr Hh]. split; [split; apply Hr|done].
Qed.

Lemma set_time_keeps now tf k : kcp_ok k -> kcp_ok (set_time now tf k).
Proof. by intros []. Qed.

(** ** Any history *)
Inductive call := CSend (msg : list Z) | CRecv (len : Z) | CInput (p : list Z) | CUpdate (now : Z) | CFlush.

(** The datagrams a call puts out. *)
Definition issue (a : call) : M IKCPCB (list (list Z)) :=
  match a with
  | CSend msg => ikcp_send msg;; mret []
  | CRecv len => ikcp_recv len;; mret []
  | CInput p => ikcp_input p;; mret []
  | CUpdate now => ikcp_update now
  | CFlush => ikcp_flush
  end.

Fixpoint history (l : list call) : M IKCPCB (list (list Z)) :=
  match l with [] => mret [] | a :: l => ds ← issue a; ds' ← history l; mret (ds ++ ds') end.

Definition legal (a : call) : Prop :=
  match a with CSend msg => zlen msg < 2 ^ 31 | CRecv len => len <> - 2 ^ 31 | CInput p => Forall is_byte p /\ zlen p < 2 ^ 16 | _ => True end.


(** An update is a flush at the new time, or just that. *)
Lemma update_flush now k : exists tf, ikcp_update now k = ikcp_flush (set_time (u32 now) tf k) \/ ikcp_update now k = (Ok [], set_time (u32 now) tf k).
Proof.
  unfold ikcp_update. rewrite (bind_ok get _ k k k eq_refl). cbv zeta. destruct (_ || _); cbv beta iota.
  all: match goal with |- context [if ?b then _ else _] => destruct b end; eexists; [left|right]; rewrite (bind_ok (modify _) _ k tt _ eq_refl); reflexivity.
Qed.

Lemma flush_sizes k : kcp_ok k -> exists ds k', ikcp_flush k = (Ok ds, k') /\ kcp_ok k' /\ cfg k' = cfg k /\ forall d, d ∈ ds -> 0 < zlen d <= mtu (cfg k).
Proof.
  intros Hk. destruct (flush_keeps (fun _ => True) k Hk) as (ds & k' & E & Hk' & Ec & Ho & _); [done|done|]. exists ds, k'. split_and!; try done. intros d Hd. by apply Ho.
Qed.

Lemma issue_keeps a k : kcp_ok k -> legal a ->
  exists ds k', issue a k = (Ok ds, k') /\ kcp_ok k' /\ cfg k' = cfg k /\ forall d, d ∈ ds -> 0 < zlen d <= mtu (cfg k).
Proof.
  intros Hk Hl. assert (forall d : list Z, d ∈ [] -> 0 < zlen d <= mtu (cfg k)) as Hnil by (by intros d ?%not_elem_of_nil).
  destruct a as [msg|len|p|now|]; cbn [issue legal] in *.
  - destruct (send_keeps msg k Hk Hl) as (c & k' & E & H & Ec). rewrite (bind_ok _ _ _ _ _ E). by exists [], k'.
  - destruct (recv_keeps len k Hk Hl) as (c & k' & E & H & Ec & _). rewrite (bind_ok _ _ _ _ _ E). by exists [], k'.
  - destruct Hl as [Hl Hz]. destruct (input_keeps p k Hk Hl Hz) as (c & k' & E & H & Ec). rewrite (bind_ok _ _ _ _ _ E). by exists [], k'.
  - destruct (update_flush now k) as [tf [->| ->]]; [|exists [], (set_time (u32 now) tf k); split_and!; try done; by apply set_time_keeps].
    destruct (flush_sizes (set_time (u32 now) tf k) (set_time_keeps _ _ _ Hk)) as (ds & k' & E & H). by exists ds, k'.
  - by apply flush_sizes.
Qed.

Lemma sorted_length nxt w (l : list IKCPSEG) : StronglySorted (before nxt) l -> forall b, 0 <= b <= w ->
  (forall s, s ∈ l -> b <= off nxt (sn s) < w) -> zlen l <= w - b.
Proof.
  induction 1 as [|x l Hs IH Hx]; intros b Hb Hr; [cbn; lia|]. destruct (Hr x ltac:(by left)) as [H1 H2]. rewrite list.Forall_forall in Hx.
  cbn [length]. specialize (IH (b + 1) ltac:(lia)). rewrite Nat2Z.inj_succ. assert (zlen l <= w - (b + 1)); [|lia]. apply IH.
  intros s Hin. specialize (Hx s Hin). unfold before in Hx. specialize (Hr s ltac:(by right)). lia.
Qed.


(** A hostile peer: a window of zero, an acknowledgement of everything, a segment far
    ahead, one with a fragment number of 255, and half a header. *)
Definition demo_settings : options := mkOptions 1 20 2 1 50 32 32.
Definition demo_hostile : list Z :=
  enc_all [mkSeg 9 82 0 0 0 4294967295 4294967295 0 0 0 0 []; mkSeg 9 81 200 7 0 4294967295 7 0 0 0 0 [1]; mkSeg 9 81 255 7 0 0 0 0 0 0 0 [1; 2]] ++ [9; 0; 0; 0; 81].
Definition demo_history : list call := [CSend (repeat 5 60); CUpdate 4294967290; CInput demo_hostile; CRecv 1536; CUpdate 30; CFlush].


(** [ikcp_setmtu] makes the buffer anew but leaves queued segments as they are: one
    made for the old mtu runs over the end of the new buffer. *)
Example smaller_mtu_overflows :
  ((ikcp_send (repeat 5 300);; modify (fun k => (ikcp_setmtu 50 k).2);; ikcp_update 0) (ikcp_nodelay 1 20 2 1 (ikcp_setoutput (ikcp_create 9)))).1 = Undef OutOfBounds.
Proof. vm_compute. reflexivity. Qed.
