(* ===== verification/IkcpNet.v ===== *)
(** Two ends of a kcp conversation and the network between them (ikcp.c, as a
    session uses it).  The network loses, duplicates and reorders datagrams at
    will: what arrives at one end is any datagram the other end has ever put
    out. *)
From stdpp Require Import sorting sets.
From S2P Require Import Prelude Bytes Ikcp IkcpRcv IkcpSnd IkcpFlush IkcpSafe.

(** One end: its control block, the messages [ikcp_send] has accepted, the
    messages [ikcp_recv] has returned, and the datagrams it has put out. *)
Record peer := mkPeer { kcp : IKCPCB; sent : list (list Z); got : list (list Z); wire : list (list Z) }.

(** The two ends, [true] and [false]. *)
Record world := mkWorld { peer1 : peer; peer2 : peer }.
Definition the (s : bool) (w : world) : peer := if s then peer1 w else peer2 w.
Definition put_peer (s : bool) (p : peer) '(mkWorld p1 p2) : world := if s then mkWorld p p2 else mkWorld p1 p.

Inductive action :=
  | Send (msg : list Z)
  | Recv (len : Z)           (* the size of the buffer, or below zero to peek *)
  | Update (now : Z)
  | Flush
  | Arrive (i : nat).        (* the i-th datagram of the other end *)

(** A call on the control block of one end, and what it adds to the record. *)
Definition at_peer {A} (s : bool) (m : M IKCPCB A) (note : A -> peer -> peer) : M world unit := fun w =>
  let p := the s w in
  let back k := mkPeer k (sent p) (got p) (wire p) in
  match m (kcp p) with
  | (Ok a, k) => (Ok tt, put_peer s (note a (back k)) w)
  | (Throw e, k) => (Throw e, put_peer s (back k) w)
  | (AssertFail, k) => (AssertFail, put_peer s (back k) w)
  | (Undef u, k) => (Undef u, put_peer s (back k) w)
  | (NoFuel, k) => (NoFuel, put_peer s (back k) w)
  end.

Definition note_send (msg : list Z) (code : Z) p := mkPeer (kcp p) (if code =? 0 then sent p ++ [msg] else sent p) (got p) (wire p).
Definition note_recv (len : Z) (r : Z * list Z) p :=
  mkPeer (kcp p) (sent p) (if (0 <=? len) && (0 <=? r.1) then got p ++ [r.2] else got p) (wire p).
Definition note_out (ds : list (list Z)) p := mkPeer (kcp p) (sent p) (got p) (wire p ++ ds).

Definition perform (s : bool) (a : action) : M world unit :=
  match a with
  | Send msg => at_peer s (ikcp_send msg) (note_send msg)
  | Recv len => at_peer s (ikcp_recv len) (note_recv len)
  | Update now => at_peer s (ikcp_update now) note_out
  | Flush => at_peer s ikcp_flush note_out
  | Arrive i =>
    w ← get;
    match wire (the (negb s) w) !! i with
    | Some d => at_peer s (ikcp_input d) (fun _ p => p)
    | None => mret tt
    end
  end.

Fixpoint run (acts : list (bool * action)) : M world unit :=
  match acts with [] => mret tt | a :: acts => perform a.1 a.2;; run acts end.

Definition start (conv : Z) (o1 o2 : options) : world :=
  mkWorld (mkPeer (start_kcp conv o1) [] [] []) (mkPeer (start_kcp conv o2) [] [] []).

(** ** Messages as numbered fragments *)
Definition part : Type := Z * list Z.
Definition pay (s : IKCPSEG) : part := (frg s, data s).

Definition is_frags (fs : list part) (msg : list Z) : Prop :=
  fs <> [] /\ zlen fs < IKCP_WND_RCV /\ concat (map snd fs) = msg /\ forall i f, fs !! i = Some f -> f.1 = zlen fs - 1 - Z.of_nat i.

(** What a receiver has of the numbered fragments. *)
Definition has (r : receiving) (i : Z) : Prop := 0 <= i < rcv_nxt r \/ exists s, s ∈ rcv_buf r /\ sn s = i.

(** One direction: [parts] are the fragments of the messages accepted at one end,
    message by message; the sending state is that end's, the receiving state the
    other's. *)
Record link (cv : Z) (parts : list (list part)) (sent : list (list Z)) (t : sending) (got : list (list Z)) (r : receiving) : Prop := {
  l_parts : Forall2 is_frags parts sent;
  l_total : zlen (concat parts) < 2 ^ 30;
  l_nxt : 0 <= snd_nxt t <= zlen (concat parts) /\ map pay (snd_queue t) = drop (Z.to_nat (snd_nxt t)) (concat parts);
  l_buf s : s ∈ snd_buf t -> conv s = cv /\ cmd s = IKCP_CMD_PUSH /\ 0 <= sn s < snd_nxt t /\ concat parts !! Z.to_nat (sn s) = Some (pay s);
  l_rcv : 0 <= rcv_nxt r <= zlen (concat parts);
  l_rbuf s : s ∈ rcv_buf r -> 0 <= sn s < zlen (concat parts) /\ concat parts !! Z.to_nat (sn s) = Some (pay s);
  l_queue : exists j, got = take j sent /\ (j <= length sent)%nat /\
    concat (take j parts) ++ map pay (rcv_queue r) = take (Z.to_nat (rcv_nxt r)) (concat parts);
  l_kept i : 0 <= i < snd_nxt t -> (exists s, s ∈ snd_buf t /\ sn s = i) \/ has r i;
  l_ack a : a ∈ acklist r -> has r a.1
}.

(** The segments an end may have put on the wire. *)
Definition good (cv : Z) (parts : list (list part)) (r : receiving) (s : IKCPSEG) : Prop :=
  conv s = cv /\ 0 <= una s <= rcv_nxt r /\ zlen (data s) < 2 ^ 16 /\ in_u 8 (frg s) /\
  (cmd s = IKCP_CMD_PUSH /\ 0 <= sn s < zlen (concat parts) /\ concat parts !! Z.to_nat (sn s) = Some (pay s) \/
   cmd s = IKCP_CMD_ACK /\ has r (sn s) \/ cmd s = IKCP_CMD_WASK \/ cmd s = IKCP_CMD_WINS).

Definition grows (r r' : receiving) : Prop := rcv_nxt r <= rcv_nxt r' /\ forall i, has r i -> has r' i.

Section direction.
Context (cv : Z) (parts : list (list part)) (sent : list (list Z)) (t : sending) (got : list (list Z)) (r : receiving).
Hypothesis Hl : link cv parts sent t got r.

Lemma part_frg f : f ∈ concat parts -> 0 <= f.1 < IKCP_WND_RCV.
Proof.
  intros Hf. apply list_elem_of_In, in_concat in Hf as (fs & Hfs & Hf). apply list_elem_of_In in Hfs, Hf.
  destruct (forall2_l _ _ _ _ (l_parts _ _ _ _ _ _ Hl) Hfs) as (m & _ & (_ & Hlen & _ & Hn)).
  apply list_elem_of_lookup in Hf as [i Hi]. rewrite (Hn i f Hi). apply lookup_lt_Some in Hi. lia.
Qed.

Lemma seqno_small n : 0 <= n <= zlen (concat parts) -> in_u 32 n /\ u32 n = n.
Proof. intros. pose proof (l_total _ _ _ _ _ _ Hl). split; [unfold in_u; lia|apply uwrap_id; unfold in_u; lia]. Qed.

(** *** Acknowledged segments disappear *)
Lemma link_shrinks gone t' : shrinks gone t t' -> (forall n, 0 <= n < snd_nxt t -> gone n -> has r n) -> link cv parts sent t' got r.
Proof.
  intros Hs Hg. pose proof (sh_nxt _ _ _ Hs) as En. split; rewrite ?En, ?(sh_queue _ _ _ Hs); try apply Hl.
  - intros x (y & Hy & Hk)%(sh_old _ _ _ Hs). destruct (l_buf _ _ _ _ _ _ Hl y Hy) as (H1 & H2 & H3 & H4). destruct Hk as (K1 & K2 & K3 & K4 & K5).
    unfold pay in *. by rewrite <- K1, <- K2, <- K3, <- K4, <- K5.
  - intros i Hi. destruct (l_kept _ _ _ _ _ _ Hl i Hi) as [(y & Hy & <-)|]; [|by right].
    destruct (sh_kept _ _ _ Hs y Hy) as [(x & Hx & Hk)|Hgo]; [left; exists x; split; [done|]; by destruct Hk as (_ & _ & _ & <- & _)|right; by apply Hg].
Qed.

(** *** Segments from the queue join those in flight *)
Lemma link_flush k t' : tx k = t -> k_conv (cfg k) = cv -> flushed k t' ->
  link cv parts sent t' got r /\ snd_nxt t <= snd_nxt t'.
Proof.
  intros Et Ecv (w & cw & s1 & Es1 & Hn & Hq & Hk). rewrite Et in Es1. pose proof (l_nxt _ _ _ _ _ _ Hl) as [Hnx Hqu]. pose proof (l_total _ _ _ _ _ _ Hl) as Htot.
  destruct (seqno_small (snd_nxt t) Hnx) as [Hn32 _].
  destruct (flush_move_ok (k_conv (cfg k)) w (rcv_nxt (rx k)) (current (clk k)) (u32 (rx_rto (flw k))) cw (snd_queue t) t eq_refl Hn32)
    as (n & news & _ & Hn1 & Hq1 & Hb1 & Hle & Hnl & Hnews). rewrite <- Es1 in Hn1, Hq1, Hb1.
  assert (length (snd_queue t) = length (concat parts) - Z.to_nat (snd_nxt t))%nat as Hql by (rewrite <- length_drop, <- Hqu; by rewrite length_map).
  assert (Z.of_nat n <= zlen (concat parts) - snd_nxt t) as Hnle by lia.
  rewrite (proj2 (seqno_small (snd_nxt t + Z.of_nat n) ltac:(lia))) in Hn1.
  assert (forall i y, news !! i = Some y -> concat parts !! Z.to_nat (snd_nxt t + Z.of_nat i) = Some (pay y) /\ sn y = snd_nxt t + Z.of_nat i) as Hpay.
  { intros i y Hi. destruct (Hnews i y Hi) as (_ & _ & E & z & Hz & Hf & Hd). apply lookup_lt_Some in Hi. rewrite E, (proj2 (seqno_small (snd_nxt t + Z.of_nat i) ltac:(lia))). split; [|done].
    rewrite Z2Nat.inj_add, Nat2Z.id by lia. rewrite <- lookup_drop, <- Hqu, list_lookup_fmap, Hz. cbn. unfold pay. by rewrite Hf, Hd. }
  split; [|rewrite Hn, Hn1; lia].
  split; try apply Hl; rewrite ?Hn, ?Hn1, ?Hq, ?Hq1.
  - split; [lia|]. change (map pay (drop n (snd_queue t))) with (pay <$> drop n (snd_queue t)). rewrite fmap_drop.
    change (pay <$> snd_queue t) with (map pay (snd_queue t)). rewrite Hqu, drop_drop. f_equal. lia.
  - intros x Hx. destruct (forall2_r _ _ _ _ Hk Hx) as (y & Hy & K1 & K2 & K3 & K4 & K5). unfold pay. rewrite <- K1, <- K2, <- K3, <- K4, <- K5. clear Hx K1 K2 K3 K4 K5.
    rewrite Hb1 in Hy. apply elem_of_app in Hy as [Hy|[i Hi]%list_elem_of_lookup].
    + destruct (l_buf _ _ _ _ _ _ Hl y Hy) as (H1 & H2 & H3 & H4). split_and!; try done; lia.
    + destruct (Hpay i y Hi) as [H1 H2]. destruct (Hnews i y Hi) as (H3 & H4 & _). apply lookup_lt_Some in Hi. rewrite H2. split_and!; try done; try lia; congruence.
  - intros i Hi. assert (0 <= i < snd_nxt t \/ snd_nxt t <= i) as [Hi'|Hi'] by lia.
    + destruct (l_kept _ _ _ _ _ _ Hl i Hi') as [(y & Hy & <-)|]; [|by right]. left.
      destruct (forall2_l _ _ _ y Hk) as (x & Hx & K); [rewrite Hb1; apply elem_of_app; by left|]. exists x. split; [done|]. by destruct K as (_ & _ & _ & <- & _).
    + left. destruct (lookup_lt_is_Some_2 news (Z.to_nat (i - snd_nxt t)) ltac:(lia)) as [y Hy]. destruct (Hpay _ _ Hy) as [_ Hsn].
      destruct (forall2_l _ _ _ y Hk) as (x & Hx & K); [rewrite Hb1; apply elem_of_app; right; by apply list_elem_of_lookup_2 in Hy|].
      exists x. split; [done|]. destruct K as (_ & _ & _ & <- & _). rewrite Hsn. lia.
Qed.

(** *** Moving the receiving side on *)
(** Segments that follow [rcv_nxt] join the queue. *)
Lemma payloads_take n buf : (forall s, s ∈ buf -> 0 <= sn s < zlen (concat parts) /\ concat parts !! Z.to_nat (sn s) = Some (pay s)) ->
  (n <= length buf)%nat -> 0 <= rcv_nxt r <= zlen (concat parts) -> (forall i s, take n buf !! i = Some s -> sn s = u32 (rcv_nxt r + Z.of_nat i)) ->
  map pay (take n buf) = take n (drop (Z.to_nat (rcv_nxt r)) (concat parts)) /\ rcv_nxt r + Z.of_nat n <= zlen (concat parts) /\
  forall i s, take n buf !! i = Some s -> sn s = rcv_nxt r + Z.of_nat i.
Proof.
  intros Hbuf Hn Hr Hsq. pose proof (l_nxt _ _ _ _ _ _ Hl) as [Hnx _]. pose proof (l_total _ _ _ _ _ _ Hl) as Htot.
  assert (forall i, (i <= n)%nat -> rcv_nxt r + Z.of_nat i <= zlen (concat parts) /\ forall j s, (j < i)%nat -> take n buf !! j = Some s -> sn s = rcv_nxt r + Z.of_nat j) as Hall.
  { induction i as [|i IH]; intros Hi; [split; [lia|lia]|]. destruct (IH ltac:(lia)) as [H1 H2].
    destruct (lookup_lt_is_Some_2 (take n buf) i) as [s Hs]; [rewrite length_take; lia|]. pose proof (Hsq i s Hs) as E. rewrite (proj2 (seqno_small (rcv_nxt r + Z.of_nat i) ltac:(lia))) in E.
    assert (s ∈ buf) as Hin by (apply (list_elem_of_lookup_2 _ i); by apply lookup_take_Some in Hs as [? _]). destruct (Hbuf s Hin) as [Hb _].
    split; [lia|]. intros j s' Hj Hs'. destruct (decide (j = i)) as [->|]; [congruence|]. apply H2; [lia|done]. }
  destruct (Hall n ltac:(lia)) as [H1 H2]. split_and!; [|lia|intros i s Hi; apply H2; [|done]; apply lookup_lt_Some in Hi; rewrite length_take in Hi; lia].
  apply list_eq. intros i. change (map pay (take n buf)) with (pay <$> take n buf). rewrite list_lookup_fmap. destruct (decide (i < n)%nat) as [Hi|Hi].
  - destruct (lookup_lt_is_Some_2 (take n buf) i) as [s Hs]; [rewrite length_take; lia|]. rewrite Hs. cbn.
    assert (s ∈ buf) as Hin by (apply (list_elem_of_lookup_2 _ i); by apply lookup_take_Some in Hs as [? _]). destruct (Hbuf s Hin) as [_ Hp].
    rewrite (H2 i s Hi Hs) in Hp. rewrite lookup_take_lt, lookup_drop by done. rewrite <- Hp. f_equal. lia.
  - rewrite !lookup_ge_None_2; [done|rewrite length_take; lia|rewrite length_take; lia].
Qed.

(** The receiving side after segments of a list [buf], that holds [rcv_buf], have
    joined a queue that is [q] now. *)
Lemma link_moved buf q got' j n r' : (n <= length buf)%nat ->
  (forall s, s ∈ buf -> 0 <= sn s < zlen (concat parts) /\ concat parts !! Z.to_nat (sn s) = Some (pay s)) ->
  (forall s, s ∈ rcv_buf r -> s ∈ buf) ->
  (forall i s, take n buf !! i = Some s -> sn s = u32 (rcv_nxt r + Z.of_nat i)) ->
  got' = take j sent -> (j <= length sent)%nat -> concat (take j parts) ++ map pay q = take (Z.to_nat (rcv_nxt r)) (concat parts) ->
  rcv_queue r' = q ++ take n buf -> rcv_buf r' = drop n buf -> rcv_nxt r' = u32 (rcv_nxt r + Z.of_nat n) -> acklist r' = acklist r ->
  link cv parts sent t got' r' /\ grows r r' /\ forall s, s ∈ buf -> has r' (sn s).
Proof.
  intros Hn Hbuf Hsub Hsq Hg Hj Hq Eq Eb En Ea. pose proof (l_rcv _ _ _ _ _ _ Hl) as Hr. pose proof (l_nxt _ _ _ _ _ _ Hl) as [Hnx _].
  destruct (payloads_take n buf Hbuf Hn Hr Hsq) as (Hp & Hle & Hsn). rewrite (proj2 (seqno_small (rcv_nxt r + Z.of_nat n) ltac:(lia))) in En.
  assert (forall s, s ∈ buf -> has r' (sn s)) as Hb.
  { intros s Hs. rewrite <- (take_drop n buf) in Hs. apply elem_of_app in Hs as [[i Hi]%list_elem_of_lookup|Hs]; [left|right; exists s; by rewrite Eb].
    rewrite (Hsn i s Hi), En. apply lookup_lt_Some in Hi. rewrite length_take in Hi. lia. }
  assert (grows r r') as Hgr. { split; [lia|]. intros i [Hi|(s & Hs & <-)]; [left; lia|]. by apply Hb, Hsub. }
  split; [|done]. split; try apply Hl; rewrite ?En, ?Ea.
  - lia.
  - intros s Hs. apply Hbuf. rewrite Eb in Hs. rewrite <- (take_drop n buf). apply elem_of_app. by right.
  - exists j. split_and!; [done|done|]. rewrite Eq, map_app, app_assoc, Hq, Hp. rewrite Z2Nat.inj_add, Nat2Z.id by lia. symmetry. by rewrite take_take_drop.
  - intros i Hi. destruct (l_kept _ _ _ _ _ _ Hl i Hi) as [|Hh]; [by left|right; by apply Hgr].
  - intros a Ha. apply Hgr. by apply (l_ack _ _ _ _ _ _ Hl).
Qed.

(** The first message of the queue is whole when [ikcp_recv] takes it. *)
Lemma msg_len_frags : forall (fs : list part) q rest, (forall i f, fs !! i = Some f -> f.1 = zlen fs - 1 - Z.of_nat i) -> fs <> [] ->
  map pay q = fs ++ rest -> msg_len q = length fs /\ map pay (take (length fs) q) = fs.
Proof.
  clear. induction fs as [|f fs IH]; intros q rest Hf Hne Hq; [done|]. destruct q as [|s q]; [done|]. cbn [map app] in Hq. injection Hq as Hs Hq.
  cbn [msg_len length take map]. pose proof (Hf 0%nat f eq_refl) as H0. rewrite <- Hs in H0. cbn [pay fst length] in H0.
  destruct fs as [|f2 fs].
  - rewrite (proj2 (Z.eqb_eq _ _)) by (cbn in H0; lia). cbn. by rewrite Hs.
  - rewrite (proj2 (Z.eqb_neq _ _)) by (cbn [length] in H0; lia). destruct (IH q rest) as [H1 H2]; [|done|done|by rewrite H1, H2, Hs].
    intros i g Hi. specialize (Hf (S i) g Hi). cbn [length] in *. lia.
Qed.

Lemma link_recv w len : rcv_ok w r -> 0 <= w < 2 ^ 31 -> rcv_queue r <> [] -> 0 <= ikcp_peeksize r ->
  let ml := msg_len (rcv_queue r) in
  link cv parts sent t (if 0 <=? len then got ++ [concat (map data (take ml (rcv_queue r)))] else got) (took w (len <? 0) r) /\ grows r (took w (len <? 0) r).
Proof.
  intros Hr Hw Hne Hpk. cbn zeta. destruct (l_queue _ _ _ _ _ _ Hl) as (j & Hg & Hj & Hq).
  destruct (took_ok w (len <? 0) r Hw Hr) as (_ & Ea & n & Hn & Eq & Eb & En & Hsq).
  destruct (Z.ltb_spec len 0) as [Hlen|Hlen].
  { rewrite (proj2 (Z.leb_gt 0 len)) by lia. destruct (link_moved (rcv_buf r) (rcv_queue r) got j n (took w true r)) as (H1 & H2 & _); try done. apply Hl. }
  rewrite (proj2 (Z.leb_le 0 len)) by lia.
  assert (exists fs rest, drop j parts = fs :: rest) as (fs & rest & Efs).
  { destruct (drop j parts) as [|fs rest] eqn:E; [|by do 2 eexists]. exfalso.
    assert (take j parts = parts) as Et by (rewrite <- (take_drop j parts) at 2; by rewrite E, app_nil_r). rewrite Et in Hq.
    apply (f_equal length) in Hq. rewrite length_app, length_map, length_take in Hq. destruct (rcv_queue r); [done|]. cbn in Hq. lia. }
  assert (parts !! j = Some fs) as Hfs by (rewrite <- (Nat.add_0_r j), <- lookup_drop, Efs; done).
  destruct (Forall2_lookup_l _ _ _ _ _ (l_parts _ _ _ _ _ _ Hl) Hfs) as (m & Hm & Hfr). destruct Hfr as (Hfne & Hfl & Hfc & Hfn).
  assert (concat parts = concat (take j parts) ++ fs ++ concat rest) as Econ.
  { rewrite <- (take_drop j parts) at 1. rewrite concat_app, Efs. done. }
  assert (exists l, map pay (rcv_queue r) = take l (fs ++ concat rest)) as [l Hql].
  { rewrite Econ in Hq. rewrite take_app in Hq. apply app_inj_1 in Hq.
    - destruct Hq as [_ Hq]. by eexists.
    - apply (f_equal length) in Hq. rewrite !length_app, length_take, length_map in Hq. rewrite length_take.
      destruct (decide (Z.to_nat (rcv_nxt r) <= length (concat (take j parts)))%nat); [|lia].
      replace (Z.to_nat (rcv_nxt r) - length (concat (take j parts)))%nat with 0%nat in Hq by lia. rewrite take_0 in Hq. cbn in Hq. destruct (rcv_queue r); [done|]. cbn in Hq. lia. }
  assert (length fs <= length (rcv_queue r))%nat as Hlong.
  { destruct (rcv_queue r) as [|s0 q] eqn:Eqq; [done|]. destruct fs as [|f0 fs]; [done|]. destruct l as [|l]; [done|]. cbn [map app take] in Hql. injection Hql as H0 _.
    pose proof (Hfn 0%nat f0 eq_refl) as Hf0. rewrite <- H0 in Hf0. cbn [pay fst] in Hf0. unfold ikcp_peeksize in Hpk. rewrite Eqq in Hpk.
    destruct (Z.eqb_spec (frg s0) 0); [cbn [length] in *; lia|]. destruct Hr as [Hr _]. destruct (rcv_count _ _ Hr) as [Ec _]. rewrite Eqq in Ec.
    destruct (Z.ltb_spec (nrcv_que r) (u32 (frg s0 + 1))) as [|Hge]; [done|].
    rewrite uwrap_id in Hge; cbn [length] in *; unfold in_u, IKCP_WND_RCV in *; lia. }
  assert (exists rest', map pay (rcv_queue r) = fs ++ rest') as [rest' Hql'].
  { exists (take (l - length fs) (concat rest)). rewrite Hql, take_app. f_equal. apply take_ge. apply (f_equal length) in Hql. rewrite length_map, length_take, length_app in Hql. lia. }
  destruct (msg_len_frags fs (rcv_queue r) rest' Hfn Hfne Hql') as [Hml Hpl]. rewrite Hml in *.
  assert (concat (map data (take (length fs) (rcv_queue r))) = m) as Em.
  { rewrite <- Hfc. transitivity (concat (map snd (map pay (take (length fs) (rcv_queue r))))); [by rewrite map_map|by rewrite Hpl]. }
  rewrite Em. destruct (link_moved (rcv_buf r) (drop (length fs) (rcv_queue r)) (got ++ [m]) (S j) n (took w false r)) as (H1 & H2 & _); try done.
  - apply Hl.
  - rewrite Hg. symmetry. by apply take_S_r.
  - apply lookup_lt_Some in Hm. lia.
  - rewrite (take_S_r _ _ _ Hfs), concat_app. cbn [concat]. rewrite app_nil_r, <- app_assoc, <- Hq. f_equal. rewrite <- Hpl at 1. rewrite <- map_app. by rewrite take_drop.
Qed.

(** A segment with data arrives. *)
Lemma link_push w k seg : rcv_ok w r -> rx k = r -> rcv_wnd (cfg k) = w -> 0 <= w < 2 ^ 31 ->
  cmd seg = IKCP_CMD_PUSH -> 0 <= sn seg < zlen (concat parts) -> concat parts !! Z.to_nat (sn seg) = Some (pay seg) ->
  let r' := rx (input_seg seg k) in link cv parts sent t got r' /\ grows r r'.
Proof.
  intros Hr Er Ew Hw Hcm Hsn Hpay. cbn zeta. destruct (input_seg_ok seg k) as (_ & _ & _ & E). rewrite E, Er, Ew. clear E.
  assert (grows r r) as Hrefl by (split; [lia|done]). destruct (l_queue _ _ _ _ _ _ Hl) as (j & Hg & Hj & Hq). pose proof (l_nxt _ _ _ _ _ _ Hl) as [Hnx _].
  unfold takes_push. rewrite Hcm, Z.eqb_refl, Er, Ew. cbn [andb]. destruct (_itimediff (sn seg) (u32 (rcv_nxt r + w)) <? 0) eqn:Ewin; [|done].
  destruct (seqno_small (sn seg) ltac:(lia)) as [Hs32 _]. pose proof (rcv_nxt_u32 _ _ (proj1 Hr)) as Hn32.
  set (r1 := ikcp_ack_push (sn seg) (ts seg) r).
  assert (forall r', link cv parts sent t got (set_acklist (acklist r) r') -> grows r r' -> acklist r' = acklist r1 -> has r' (sn seg) -> link cv parts sent t got r' /\ grows r r') as Hack.
  { intros r' Hl' Hgr Ea Hh. split; [|done]. split; try apply Hl'. rewrite Ea. cbn. intros a [Ha| ->]%elem_snoc; [|done]. apply Hgr. by apply (l_ack _ _ _ _ _ _ Hl). }
  pose proof (l_rcv _ _ _ _ _ _ Hl) as Hrn.
  destruct (0 <=? _itimediff (sn seg) (rcv_nxt r)) eqn:Enew.
  2: { apply Hack; [by destruct r|done|done|]. left. cbn. apply Z.leb_gt in Enew. assert (_itimediff (sn seg) (rcv_nxt r) <? 0 = true) as Hlt by lia.
       rewrite itimediff_off in Hlt by done. pose proof (off_range (rcv_nxt r) (sn seg)). pose proof (l_total _ _ _ _ _ _ Hl).
       destruct (Z.ltb_spec (off (rcv_nxt r) (sn seg)) (2 ^ 31)) as [|Ho]; [done|]. unfold off, uwrap in Ho. change (2 ^ 32) with 4294967296 in Ho. change (2 ^ 31) with 2147483648 in Ho. zlia. }
  assert (off (rcv_nxt r) (sn seg) < w) as Hoff.
  { pose proof (itimediff_window (rcv_nxt r) w (sn seg) Hs32 Hn32 Hw) as H. rewrite (proj2 (Z.leb_gt 0 _)) in H by lia. cbn [orb] in H.
    rewrite (proj2 (Z.ltb_ge _ 0)) in H by lia. destruct (Z.ltb_spec (off (rcv_nxt r) (sn seg)) w); [done|discriminate]. }
  assert (rcv_ok w r1) as Hr1 by (destruct Hr as [Hr Hh]; split; [split; apply Hr|done]).
  destruct (parse_data_ok w seg r1 Hw Hs32 Hr1) as (_ & Ea & n & buf & Eq & Eb & Hn & En & Hsq & Hb1 & Hb2 & Hb3).
  destruct (Hb3 Hoff) as (x & Hx & Hxs). set (r' := ikcp_parse_data w seg r1) in *.
  destruct (link_moved buf (rcv_queue r) got j n (set_acklist (acklist r) r')) as (H1 & H2 & H3); try done.
  - intros s Hs. destruct (Hb1 s Hs) as [Hi|[-> _]]; [by apply (l_rbuf _ _ _ _ _ _ Hl)|done].
  - apply Hack; [done|done|done|]. rewrite <- Hxs. by apply H3.
Qed.
End direction.

(** *** A message is accepted *)
Lemma frags_of segs msg : segs <> [] -> zlen segs < IKCP_WND_RCV -> concat (map data segs) = msg ->
  (forall i s, segs !! i = Some s -> frg s = zlen segs - 1 - Z.of_nat i) -> is_frags (map pay segs) msg.
Proof.
  intros Hne Hl Hc Hf. split; [by destruct segs|]. rewrite length_map. split; [done|]. split; [by rewrite map_map|].
  intros i f. change (map pay segs) with (pay <$> segs). rewrite list_lookup_fmap. destruct (segs !! i) as [s|] eqn:E; [|done]. cbn. intros [= <-]. cbn. by apply Hf.
Qed.

Lemma link_send cv parts sent t got r segs msg t' : link cv parts sent t got r -> is_frags (map pay segs) msg ->
  zlen (concat parts) + zlen segs < 2 ^ 30 -> snd_nxt t' = snd_nxt t -> snd_buf t' = snd_buf t -> snd_queue t' = snd_queue t ++ segs ->
  link cv (parts ++ [map pay segs]) (sent ++ [msg]) t' got r.
Proof.
  intros Hl Hfr Htot En Eb Eq. assert (concat (parts ++ [map pay segs]) = concat parts ++ map pay segs) as Ec by (rewrite concat_app; cbn; by rewrite app_nil_r).
  pose proof (l_nxt _ _ _ _ _ _ Hl) as [Hn Hq]. pose proof (l_rcv _ _ _ _ _ _ Hl) as Hr.
  split; rewrite ?Ec, ?En, ?Eb, ?Eq; try apply Hl.
  - apply Forall2_app; [apply Hl|by constructor].
  - rewrite length_app, length_map. lia.
  - rewrite length_app. split; [lia|]. rewrite map_app, Hq. symmetry. apply drop_app_le. lia.
  - intros s Hs. destruct (l_buf _ _ _ _ _ _ Hl s Hs) as (H1 & H2 & H3 & H4). split_and!; try done; try lia. by apply lookup_app_l_Some.
  - rewrite length_app. lia.
  - intros s Hs. destruct (l_rbuf _ _ _ _ _ _ Hl s Hs) as (H3 & H4). rewrite length_app. split; [lia|]. by apply lookup_app_l_Some.
  - destruct (l_queue _ _ _ _ _ _ Hl) as (j & Hg & Hj & Hq'). pose proof (Forall2_length (l_parts _ _ _ _ _ _ Hl)) as Hlen.
    exists j. rewrite length_app. rewrite !take_app_le by lia. split_and!; [done|lia|done].
Qed.

(** *** What is on the wire stays true *)
Lemma good_mono cv parts parts' r r' s : concat parts `prefix_of` concat parts' -> grows r r' ->
  good cv parts r s -> good cv parts' r' s.
Proof.
  intros [rest Hp] [Hg1 Hg2] (H1 & H2 & H3 & H4 & H5). split; [done|]. split; [lia|]. split; [done|]. split; [done|].
  destruct H5 as [(Hc & Hs & Hl)|[[Hc Hh]|H5]]; [left|right; left|by right; right].
  - rewrite Hp, length_app. split; [done|]. split; [lia|]. by apply lookup_app_l_Some.
  - split; [done|]. by apply Hg2.
Qed.

Lemma packed_impl (G G' : IKCPSEG -> Prop) b : (forall s, G s -> G' s) -> packed G b -> packed G' b.
Proof. intros H (segs & -> & Hs). exists segs. split; [done|]. rewrite list.Forall_forall in Hs |- *. intros s Hin. by apply H, Hs. Qed.

Lemma good_received cv parts r s : in_u 32 cv -> zlen (concat parts) < 2 ^ 30 -> rcv_nxt r < 2 ^ 30 -> (forall i, has r i -> 0 <= i < 2 ^ 30) ->
  good cv parts r s -> good cv parts r (received_seg s) /\ zlen (data s) < 2 ^ 16.
Proof.
  intros Hcv Ht Hr Hh (H1 & H2 & H3 & H4 & H5). split; [|done]. unfold good, received_seg, pay. cbn [conv una data frg cmd sn].
  rewrite (uwrap_id 32 (conv s)), (uwrap_id 32 (una s)), (uwrap_id 8 (frg s)) by (unfold in_u in *; try done; lia). split; [done|]. split; [lia|]. split; [done|]. split; [done|].
  destruct H5 as [(Hc & Hs & Hl)|[[Hc Hi]|[Hc|Hc]]]; rewrite Hc; [left|right; left|right; right; by left|by right; right; right].
  - rewrite (uwrap_id 32 (sn s)) by (unfold in_u; lia). split; [done|]. split; [lia|done].
  - specialize (Hh _ Hi) as Hb. rewrite (uwrap_id 32 (sn s)) by (unfold in_u; lia). done.
Qed.

(** ** The invariant of a conversation *)
Definition side_ok (cv : Z) (parts : list (list part)) (p q : peer) : Prop :=
  link cv parts (sent p) (tx (kcp p)) (got q) (rx (kcp q)).

Definition wire_ok (cv : Z) (parts : list (list part)) (p : peer) : Prop :=
  forall d, d ∈ wire p -> packed (good cv parts (rx (kcp p))) d.

Record world_ok (cv : Z) (parts : bool -> list (list part)) (w : world) : Prop := {
  w_conv : in_u 32 cv;
  w_kcp s : kcp_ok (kcp (the s w)) /\ k_conv (cfg (kcp (the s w))) = cv;
  w_link s : side_ok cv (parts s) (the s w) (the (negb s) w);
  w_wire s : wire_ok cv (parts s) (the s w)
}.

Lemma the_put s b p w : the b (put_peer s p w) = if bool_decide (b = s) then p else the b w.
Proof. destruct w, s, b; done. Qed.

(** One end changes. *)
Lemma world_put cv parts w s p ps : world_ok cv parts w -> kcp_ok (kcp p) -> k_conv (cfg (kcp p)) = cv ->
  side_ok cv ps p (the (negb s) w) -> side_ok cv (parts (negb s)) (the (negb s) w) p -> wire_ok cv ps p ->
  world_ok cv (fun b => if bool_decide (b = s) then ps else parts b) (put_peer s p w).
Proof.
  intros Hw Hk Hc H1 H2 H3. split; [apply Hw|..]; intros b; rewrite ?the_put; destruct (bool_decide_reflect (b = s)) as [->|Hb].
  - done.
  - apply Hw.
  - rewrite bool_decide_false by (by destruct s). done.
  - assert (b = negb s) as -> by (by destruct b, s). rewrite negb_involutive, bool_decide_true by done. done.
  - done.
  - apply Hw.
Qed.

Section bounds.
Context (cv : Z) (parts : bool -> list (list part)) (w : world) (Hw : world_ok cv parts w) (s : bool).

(** The receiving state at [s] belongs to the direction from the other end. *)
Lemma has_bound : rcv_nxt (rx (kcp (the s w))) < 2 ^ 30 /\ forall i, has (rx (kcp (the s w))) i -> 0 <= i < 2 ^ 30.
Proof.
  pose proof (w_link _ _ _ Hw (negb s)) as Hl. unfold side_ok in Hl. rewrite negb_involutive in Hl. pose proof (l_rcv _ _ _ _ _ _ Hl).
  pose proof (l_total _ _ _ _ _ _ Hl). split; [lia|]. intros i [Hi|(x & Hx & <-)]; [lia|]. destruct (l_rbuf _ _ _ _ _ _ Hl x Hx) as [Hr _]. lia.
Qed.

(** What arrives is made of segments the other end has put out. *)
Lemma arrival_parses d : d ∈ wire (the s w) -> parses (good cv (parts s) (rx (kcp (the s w)))) d.
Proof.
  intros Hd. destruct (w_wire _ _ _ Hw s d Hd) as (segs & -> & Hs). apply parses_enc_all. rewrite list.Forall_forall in Hs |- *. intros x Hx.
  destruct has_bound as [Hb1 Hb2]. apply good_received; [exact (w_conv _ _ _ Hw)|exact (l_total _ _ _ _ _ _ (w_link _ _ _ Hw s))|exact Hb1|exact Hb2|by apply Hs].
Qed.
End bounds.

(** ** Each step keeps it *)
Definition is_send (s : bool) (a : bool * action) : bool := match a.2 with Send _ => Bool.eqb a.1 s | _ => false end.
Definition sends (s : bool) (acts : list (bool * action)) : Z := zlen (List.filter (is_send s) acts).

Definition legal_action (a : action) : Prop :=
  match a with Send msg => zlen msg < 2 ^ 31 | Recv len => len <> - 2 ^ 31 | _ => True end.

(** A call that returns. *)
Lemma at_peer_ok {A} s (m : M IKCPCB A) note w a k : m (kcp (the s w)) = (Ok a, k) ->
  at_peer s m note w = (Ok tt, put_peer s (note a (mkPeer k (sent (the s w)) (got (the s w)) (wire (the s w)))) w).
Proof. intros H. unfold at_peer. by rewrite H. Qed.

(** Two of the four commands. *)
Ltac other_cmd := unfold IKCP_CMD_PUSH, IKCP_CMD_ACK, IKCP_CMD_WASK, IKCP_CMD_WINS in *; congruence.

Section steps.
Context (cv : Z) (parts : bool -> list (list part)) (w : world) (Hw : world_ok cv parts w) (s : bool).
Let p := the s w.
Let q := the (negb s) w.

(** The fragments of [s] are [ps] now; those of the other end are the same. *)
Definition now (ps : list (list part)) : bool -> list (list part) := fun b => if bool_decide (b = s) then ps else parts b.

Lemma back_link : link cv (parts (negb s)) (sent q) (tx (kcp q)) (got p) (rx (kcp p)).
Proof. pose proof (w_link _ _ _ Hw (negb s)) as H. unfold side_ok in H. by rewrite negb_involutive in H. Qed.

Lemma wire_mono ps k n : concat (parts s) `prefix_of` concat ps -> grows (rx (kcp p)) (rx k) ->
  (forall d, d ∈ n -> packed (good cv ps (rx k)) d) -> forall d, d ∈ wire p ++ n -> packed (good cv ps (rx k)) d.
Proof.
  intros H1 H3 H4 d [Hd|Hd]%elem_of_app; [|by apply H4]. apply (packed_impl (good cv (parts s) (rx (kcp p)))); [|by apply (w_wire _ _ _ Hw s)].
  intros x. by apply good_mono.
Qed.

Lemma step_send msg : zlen msg < 2 ^ 31 -> zlen (concat (parts s)) + IKCP_WND_RCV < 2 ^ 30 ->
  exists w' ps, perform s (Send msg) w = (Ok tt, w') /\ world_ok cv (now ps) w' /\ zlen (concat ps) < zlen (concat (parts s)) + IKCP_WND_RCV.
Proof.
  intros Hm Htot. destruct (w_kcp _ _ _ Hw s) as [Hk Hcv]. fold p in Hk, Hcv. pose proof (k_cfg _ Hk) as Hc. pose proof (ok_mtu _ Hc). pose proof (ok_mss _ Hc) as Hms. unfold IKCP_OVERHEAD in Hms.
  destruct (send_keeps msg (kcp p) Hk Hm) as (code & k & E & Hk' & Ec). cbn [perform]. rewrite (at_peer_ok s _ _ w _ _ E). unfold note_send; cbn [kcp sent got wire].
  destruct (ikcp_send_ok msg (kcp p)) as (code' & k'' & E' & _ & Er & _ & _ & _ & En & Eb & Hq); [lia|apply Hc|done|]. rewrite E in E'. injection E' as <- <-.
  pose proof (w_link _ _ _ Hw s) as Hl. fold p q in Hl. unfold side_ok in Hl.
  destruct Hq as [[-> Hqe]|(-> & segs & Hqe & Hne & Hlen & Hcon & _ & _ & Hfr)]; cbn [Z.eqb].
  - eexists _, (parts s). split; [reflexivity|]. split; [|unfold IKCP_WND_RCV; lia]. apply (world_put cv parts w s); cbn; try done; [by rewrite Ec| | |].
    + apply (link_shrinks _ _ _ _ _ _ Hl (fun _ => False)); [by apply shrinks_refl|done].
    + unfold side_ok. cbn. rewrite Er. apply back_link.
    + intros d Hd. cbn in *. rewrite Er. apply (packed_impl (good cv (parts s) (rx (kcp p)))); [|by apply (w_wire _ _ _ Hw s)].
      intros x. apply good_mono; [done|split; [lia|done]].
  - assert (concat (parts s ++ [map pay segs]) = concat (parts s) ++ map pay segs) as Econ by (rewrite concat_app; cbn; by rewrite app_nil_r).
    eexists _, (parts s ++ [map pay segs]). split; [reflexivity|]. split; [|rewrite Econ, length_app, length_map; lia].
    apply (world_put cv parts w s); cbn; try done; [by rewrite Ec| | |].
    + unfold side_ok. cbn. apply (link_send _ _ _ (tx (kcp p)) _ _ segs); [done|by apply frags_of|unfold IKCP_WND_RCV in *; lia|done..].
    + unfold side_ok. cbn. rewrite Er. apply back_link.
    + intros d Hd. cbn in *. rewrite Er. apply (packed_impl (good cv (parts s) (rx (kcp p)))); [|by apply (w_wire _ _ _ Hw s)].
      intros x. apply good_mono; [rewrite Econ; by eexists|split; [lia|done]].
Qed.

Lemma same_parts k sent' got' wire' : kcp_ok k -> k_conv (cfg k) = cv -> sent' = sent p ->
  link cv (parts s) (sent p) (tx k) (got q) (rx (kcp q)) -> link cv (parts (negb s)) (sent q) (tx (kcp q)) got' (rx k) ->
  (forall d, d ∈ wire' -> packed (good cv (parts s) (rx k)) d) ->
  world_ok cv (now (parts s)) (put_peer s (mkPeer k sent' got' wire') w).
Proof. intros Hk Hc -> H1 H2 H3. by apply (world_put cv parts w s). Qed.

Lemma step_recv len : len <> - 2 ^ 31 -> exists w', perform s (Recv len) w = (Ok tt, w') /\ world_ok cv (now (parts s)) w'.
Proof.
  intros Hlen. destruct (w_kcp _ _ _ Hw s) as [Hk Hcv]. fold p in Hk, Hcv. pose proof (w_link _ _ _ Hw s) as Hl. fold p q in Hl. unfold side_ok in Hl.
  destruct (recv_keeps len (kcp p) Hk Hlen) as (rr & k & E & Hk' & Ec & Et). cbn [perform]. rewrite (at_peer_ok s _ _ w _ _ E). unfold note_recv; cbn [kcp sent got wire].
  destruct (ikcp_recv_ok len (kcp p) (held_small _ Hk) Hlen) as (code & buf & k'' & E' & _ & _ & _ & _ & Hr). rewrite E in E'. injection E' as -> <-. cbn [fst snd].
  eexists. split; [reflexivity|].
  assert (link cv (parts (negb s)) (sent q) (tx (kcp q)) (if (0 <=? len) && (0 <=? code) then got p ++ [buf] else got p) (rx k) /\ grows (rx (kcp p)) (rx k)) as [H1 H2].
  { destruct Hr as [(Hcode & -> & _)|(Hcode & Ecode & _ & _ & Hne & -> & ->)].
    - rewrite (proj2 (Z.leb_gt 0 code)), andb_false_r by lia. split; [apply back_link|by split].
    - rewrite (proj2 (Z.leb_le 0 code)), andb_true_r by lia. apply (link_recv cv _ _ _ _ _ back_link); [apply Hk|by apply window_range|done|lia]. }
  apply same_parts; try done; [by rewrite Ec|by rewrite Et|]. rewrite <- (app_nil_r (wire _)). apply wire_mono; [done|done|]. by intros d ?%not_elem_of_nil.
Qed.

(** A flush of a control block that differs from that of [s] in its clock only. *)
Lemma step_flush k0 : tx k0 = tx (kcp p) -> rx k0 = rx (kcp p) -> cfg k0 = cfg (kcp p) ->
  exists ds k, ikcp_flush k0 = (Ok ds, k) /\ world_ok cv (now (parts s)) (put_peer s (mkPeer k (sent p) (got p) (wire p ++ ds)) w).
Proof.
  intros Et Er Ecf. destruct (w_kcp _ _ _ Hw s) as [Hk Hcv]. fold p in Hk, Hcv. pose proof (w_link _ _ _ Hw s) as Hl. fold p q in Hl. unfold side_ok in Hl.
  assert (kcp_ok k0) as Hk0 by (split; rewrite ?Ecf, ?Et, ?Er; apply Hk). pose proof back_link as Hb.
  assert (forall k', flushed k0 (tx k') -> link cv (parts s) (sent p) (tx k') (got q) (rx (kcp q))) as Hfl.
  { intros k' Hf. apply (link_flush _ _ _ _ _ _ Hl k0); [by rewrite Et|by rewrite Ecf|done]. }
  destruct (flush_keeps (good cv (parts s) (rx (kcp p))) k0 Hk0) as (ds & k & E & Hk' & Ec & Ho & Hch).
  - intros x (H1 & H2 & H3 & H4 & H5). rewrite Ecf, Er in *. split; [congruence|]. rewrite H2, H3, H4. split; [pose proof (l_rcv _ _ _ _ _ _ Hb); lia|].
    split; [done|]. split; [done|]. right. destruct H5 as [[Hc [t Ha]]|H5]; [left|by right]. split; [done|]. by apply (l_ack _ _ _ _ _ _ Hb) in Ha.
  - intros wd cw s1 x y Es1 Hx Hkin Hun.
    assert (flushed k0 s1) as Hf by (exists wd, cw, s1; split_and!; [done..|]; apply Forall2_same_length_lookup; split; [done|]; intros i a b Ha Hb'; by simplify_eq).
    pose proof (Hfl (set_tx s1 k0) Hf) as Hl1. destruct (l_buf _ _ _ _ _ _ Hl1 x Hx) as (H1 & H2 & H3 & H4). destruct (flushed_keeps k0 s1 Hk0 Hf) as (_ & _ & Hsh).
    pose proof (Hsh x Hx) as Hd. pose proof (ok_mss _ (k_cfg _ Hk0)). pose proof (ok_mtu _ (k_cfg _ Hk0)). unfold IKCP_OVERHEAD in *.
    assert (pay x ∈ concat (parts s)) as Hin by (by apply list_elem_of_lookup_2 in H4). pose proof (part_frg _ _ _ _ _ _ Hl _ Hin) as Hfg. cbn in Hfg. unfold IKCP_WND_RCV in Hfg.
    destruct Hkin as (K1 & K2 & K3 & K4 & K5). unfold good, pay in *. rewrite Hun, <- K1, <- K2, <- K3, <- K4, <- K5, Er. pose proof (l_nxt _ _ _ _ _ _ Hl1) as [Hn _].
    split; [done|]. split; [pose proof (l_rcv _ _ _ _ _ _ Hb); lia|]. split; [lia|]. split; [unfold in_u; lia|]. left. split_and!; [done|lia|lia|done].
  - exists ds, k. split; [done|].
    assert (link cv (parts s) (sent p) (tx k) (got q) (rx (kcp q)) /\ link cv (parts (negb s)) (sent q) (tx (kcp q)) (got p) (rx k) /\
      grows (rx (kcp p)) (rx k) /\ grows (rx k) (rx (kcp p))) as (H1 & H2 & H3 & H4).
    { destruct Hch as [->|[Erx Hf]]; [rewrite Et, Er; split_and!; try done|].
      rewrite Erx, Er. split_and!; [by apply Hfl| |done|done]. split; try apply Hb. by intros a ?%not_elem_of_nil. }
    apply same_parts; try done; [by rewrite Ec, Ecf|]. apply wire_mono; [done|done|]. intros d Hd. apply (packed_impl (good cv (parts s) (rx (kcp p)))); [|by apply Ho].
    intros x. by apply good_mono.
Qed.

Lemma step_arrive i : exists w', perform s (Arrive i) w = (Ok tt, w') /\ world_ok cv (now (parts s)) w'.
Proof.
  cbn [perform]. rewrite (bind_ok get _ w w w eq_refl). destruct (w_kcp _ _ _ Hw s) as [Hk Hcv]. fold p in Hk, Hcv. pose proof (w_link _ _ _ Hw s) as Hl. fold p q in Hl. unfold side_ok in Hl.
  destruct (wire (the (negb s) w) !! i) as [d|] eqn:Ed.
  2: { exists w. split; [done|]. destruct Hw as [H1 H2 H3 H4]. split; [done|done|..]; intros b; unfold now; case_bool_decide; subst; done. }
  apply list_elem_of_lookup_2 in Ed. pose proof (arrival_parses _ _ _ Hw (negb s) d Ed) as Hp. fold q in Hp.
  set (I := fun k => kcp_ok k /\ cfg k = cfg (kcp p) /\ link cv (parts s) (sent p) (tx k) (got q) (rx (kcp q)) /\
    link cv (parts (negb s)) (sent q) (tx (kcp q)) (got p) (rx k) /\ grows (rx (kcp p)) (rx k)).
  destruct (ikcp_input_ok I (good cv (parts (negb s)) (rx (kcp q))) d (kcp p)) as (code & k & E & Hk' & Ec & H1 & H2 & H3); [| | |done| |].
  - intros seg k (G1 & G2 & G3 & G4 & G5) (H1 & H2 & H3 & H4 & H5). pose proof (l_total _ _ _ _ _ _ H3). pose proof (l_total _ _ _ _ _ _ H4).
    pose proof (l_rcv _ _ _ _ _ _ H3) as Hrq. pose proof (l_nxt _ _ _ _ _ _ H3) as [Hnp _].
    destruct (input_seg_ok seg k) as (Ec & _ & Hsh & Erx).
    assert (link cv (parts s) (sent p) (tx (input_seg seg k)) (got q) (rx (kcp q))) as Hl1.
    { apply (link_shrinks _ _ _ _ _ _ H3 _ _ Hsh). intros n Hn [Hu|[Hc <-]].
      - left. assert (n < una seg); [|lia]. revert Hu. unfold _itimediff. rewrite swrap_id by (done || unfold in_s; lia). lia.
      - destruct G5 as [(Hc' & _)|[[_ Hh]|[Hc'|Hc']]]; [other_cmd|done|other_cmd|other_cmd]. }
    assert (link cv (parts (negb s)) (sent q) (tx (kcp q)) (got p) (rx (input_seg seg k)) /\ grows (rx k) (rx (input_seg seg k))) as [Hl2 Hg2].
    { destruct G5 as [(Hc' & Hs' & Hpay)|G5].
      - apply (link_push _ _ _ _ _ _ H4 (rcv_wnd (cfg k)) k seg); [apply H1|done|done|by apply window_range|done|done|done].
      - assert (takes_push k seg = false) as Htp.
        { unfold takes_push. destruct (Z.eqb_spec (cmd seg) IKCP_CMD_PUSH) as [Hc'|]; [|done]. destruct G5 as [[Hc'' _]|[Hc''|Hc'']]; other_cmd. }
        rewrite Erx, Htp. split; [done|]. by split. }
    split; [|rewrite Ec; split_and!; try done].
    + destruct G5 as [(_ & Hs' & _)|[[_ Hh]|G5]].
      * apply input_seg_keeps; [unfold in_u; lia|done|done].
      * apply input_seg_keeps; [|done|done]. destruct Hh as [Hh|(x & Hx & <-)]; [unfold in_u; lia|]. destruct (l_rbuf _ _ _ _ _ _ H3 x Hx). unfold in_u. lia.
      * destruct (k_rcv _ H1) as [Hr Hh]. assert (rx (input_seg seg k) = rx k) as Erx'.
        { rewrite Erx. unfold takes_push. destruct (Z.eqb_spec (cmd seg) IKCP_CMD_PUSH) as [Hc'|]; [|done]. destruct G5 as [Hc''|Hc'']; other_cmd. }
        split; rewrite ?Ec, ?Erx'; try apply H1.
        -- rewrite (sh_nxt _ _ _ Hsh). apply H1.
        -- rewrite (sh_queue _ _ _ Hsh). apply H1.
        -- intros x (y & Hy & Hkin)%(sh_old _ _ _ Hsh). destruct Hkin as (_ & _ & _ & _ & <-). by apply (k_buf _ H1).
    + destruct G2 as [Ga Gb], Hg2 as [Hga Hgb]. destruct H5 as [H5a H5b]. split; [lia|]. intros j Hj. by apply Hgb, H5b.
  - intros k n (H1 & H2 & H3 & H4 & H5). split; [by apply (set_tx_keeps _ _ (fun _ => False)); [apply parse_fastack_ok|]|]. split_and!; try done.
    apply (link_shrinks _ _ _ _ _ _ H3 (fun _ => False)); [apply parse_fastack_ok|done].
  - intros k f (H1 & H2 & H3 & H4 & H5). split; [by destruct H1; split|done].
  - split_and!; try done. by apply back_link.
  - rewrite (at_peer_ok s _ _ w _ _ E). eexists. split; [reflexivity|]. apply same_parts; try done; [by rewrite Ec|].
    rewrite <- (app_nil_r (wire _)). apply wire_mono; [done|done|]. by intros x ?%not_elem_of_nil.
Qed.
End steps.

(** ** Runs *)
Lemma start_world conv o1 o2 : in_u 32 conv -> options_ok o1 -> options_ok o2 -> world_ok conv (fun _ => []) (start conv o1 o2).
Proof.
  intros Hc H1 H2. assert (forall o, rx (start_kcp conv o) = mkReceiving 0 [] [] 0 0 [] /\ tx (start_kcp conv o) = mkSending 0 0 [] [] 0 0) as Hst.
  { intros o. unfold start_kcp, ikcp_setmtu. by destruct (_ || _). }
  destruct (Hst o1) as [R1 T1], (Hst o2) as [R2 T2].
  assert (link conv [] [] (mkSending 0 0 [] [] 0 0) [] (mkReceiving 0 [] [] 0 0 [])) as Hl.
  { split; cbn; try done; try (by intros ? ?%not_elem_of_nil); [by exists 0%nat|lia]. }
  split; [done|..]; intros [|]; cbn.
  - split; [by apply start_ok|]. by apply start_cfg.
  - split; [by apply start_ok|]. by apply start_cfg.
  - unfold side_ok. cbn. by rewrite T1, R2.
  - unfold side_ok. cbn. by rewrite T2, R1.
  - by intros d ?%not_elem_of_nil.
  - by intros d ?%not_elem_of_nil.
Qed.

(** One action, whatever it is. *)
Lemma step_ok cv parts w s a : world_ok cv parts w -> legal_action a -> zlen (concat (parts s)) + IKCP_WND_RCV * sends s [(s, a)] < 2 ^ 30 ->
  exists w1 ps, perform s a w = (Ok tt, w1) /\ world_ok cv (now parts s ps) w1 /\ zlen (concat ps) <= zlen (concat (parts s)) + IKCP_WND_RCV * sends s [(s, a)].
Proof.
  intros Hw Ha Hb. unfold IKCP_WND_RCV in *. destruct a as [msg|len|now|  |i]; cbn [legal_action] in Ha.
  - assert (sends s [(s, Send msg)] = 1) as Es by (unfold sends; cbn [List.filter is_send fst snd]; by rewrite eqb_reflx).
    rewrite Es in *. destruct (step_send cv parts w Hw s msg Ha) as (w1 & ps & E & Hw1 & Hl); [unfold IKCP_WND_RCV; lia|]. exists w1, ps. unfold IKCP_WND_RCV in Hl. split_and!; [done|done|lia].
  - destruct (step_recv cv parts w Hw s len Ha) as (w1 & E & Hw1). exists w1, (parts s). split_and!; [done|done|unfold sends; cbn; lia].
  - destruct (update_flush now (kcp (the s w))) as [tf Hup]. cbn [perform].
    destruct (step_flush cv parts w Hw s (set_time (u32 now) tf (kcp (the s w)))) as (ds & k & E & Hw1); [done..|].
    destruct Hup as [Hup|Hup].
    + rewrite <- Hup in E. rewrite (at_peer_ok s _ _ w _ _ E). eexists _, (parts s). split_and!; [reflexivity|done|unfold sends; cbn; lia].
    + rewrite (at_peer_ok s _ _ w _ _ Hup). eexists _, (parts s). split_and!; [reflexivity| |unfold sends; cbn; lia]. unfold note_out; cbn [kcp sent got wire]. rewrite app_nil_r.
      apply (same_parts cv parts w Hw s); try done; [|by apply (w_kcp _ _ _ Hw)|by apply (w_link _ _ _ Hw)|by apply back_link|by apply (w_wire _ _ _ Hw)].
      apply set_time_keeps. by apply (w_kcp _ _ _ Hw).
  - cbn [perform]. destruct (step_flush cv parts w Hw s (kcp (the s w))) as (ds & k & E & Hw1); [done..|].
    rewrite (at_peer_ok s _ _ w _ _ E). eexists _, (parts s). split_and!; [reflexivity|done|unfold sends; cbn; lia].
  - destruct (step_arrive cv parts w Hw s i) as (w1 & E & Hw1). exists w1, (parts s). split_and!; [done|done|unfold sends; cbn; lia].
Qed.

Lemma sends_cons s x l : sends s (x :: l) = sends s [x] + sends s l.
Proof. unfold sends. cbn [List.filter]. case_match; cbn [length]; lia. Qed.

Lemma kcp_run_ok cv acts : Forall (fun a => legal_action a.2) acts -> forall parts w, world_ok cv parts w ->
  (forall s, zlen (concat (parts s)) + IKCP_WND_RCV * sends s acts < 2 ^ 30) -> exists w' parts', run acts w = (Ok tt, w') /\ world_ok cv parts' w'.
Proof.
  induction 1 as [|[s a] acts Ha Hacts IH]; intros parts w Hw Hb; [by exists w, parts|]. cbn [run fst snd] in *.
  assert (forall b, 0 <= sends b acts) as H0 by (intros; unfold sends; lia). assert (forall b, 0 <= sends b [(s, a)]) as H1 by (intros; unfold sends; lia).
  destruct (step_ok cv parts w s a Hw Ha) as (w1 & ps & E & Hw1 & Hps); [specialize (Hb s); rewrite sends_cons in Hb; specialize (H0 s); unfold IKCP_WND_RCV in *; lia|].
  rewrite (bind_ok _ _ _ _ _ E). apply (IH (now parts s ps)); [done|]. intros b. specialize (Hb b). specialize (H1 b). rewrite sends_cons in Hb.
  unfold now, IKCP_WND_RCV in *. case_bool_decide; subst; lia.
Qed.

(** What the invariant says of one direction. *)
Lemma direction_ok cv parts w s : world_ok cv parts w -> let p := the s w in let q := the (negb s) w in
  got q `prefix_of` sent p /\
  (forall msg, msg ∈ drop (length (got q)) (sent p) -> exists fs, is_frags fs msg /\ forall f, f ∈ fs ->
     exists x, x ∈ snd_queue (tx (kcp p)) ++ snd_buf (tx (kcp p)) ++ rcv_queue (rx (kcp q)) ++ rcv_buf (rx (kcp q)) /\ pay x = f) /\
  (snd_queue (tx (kcp p)) = [] -> snd_buf (tx (kcp p)) = [] -> rcv_queue (rx (kcp q)) = [] -> got q = sent p).
Proof.
  intros Hw p q. pose proof (w_link _ _ _ Hw s) as Hl. fold p q in Hl. unfold side_ok in Hl. destruct (l_queue _ _ _ _ _ _ Hl) as (j & Hg & Hj & Hq).
  pose proof (l_nxt _ _ _ _ _ _ Hl) as [Hn Hsq]. pose proof (l_rcv _ _ _ _ _ _ Hl) as Hr. pose proof (Forall2_length (l_parts _ _ _ _ _ _ Hl)) as Hlen.
  assert (concat (parts s) = concat (take j (parts s)) ++ concat (drop j (parts s))) as Econ by (rewrite <- concat_app; by rewrite take_drop).
  split_and!.
  - rewrite Hg. exists (drop j (sent p)). by rewrite take_drop.
  - rewrite Hg, length_take, Nat.min_l by done. intros msg [i Hi]%list_elem_of_lookup. rewrite lookup_drop in Hi.
    destruct (Forall2_lookup_r _ _ _ _ _ (l_parts _ _ _ _ _ _ Hl) Hi) as (fs & Hfs & Hfr). exists fs. split; [done|]. intros f Hf.
    assert (exists n, concat (parts s) !! n = Some f /\ (length (concat (take j (parts s))) <= n)%nat) as (n & Hnf & Hjn).
    { assert (f ∈ concat (drop j (parts s))) as [n Hn']%list_elem_of_lookup.
      { apply list_elem_of_In, in_concat. exists fs. split; apply list_elem_of_In; [|done]. apply (list_elem_of_lookup_2 _ i). by rewrite lookup_drop. }
      exists (length (concat (take j (parts s))) + n)%nat. split; [|lia]. rewrite Econ, lookup_app_r by lia. rewrite <- Hn'. f_equal. lia. }
    pose proof (lookup_lt_Some _ _ _ Hnf) as Hnl.
    assert (forall l, f ∈ map pay l -> exists x, x ∈ l /\ pay x = f) as Hmap by (intros l Hin%list_elem_of_In%in_map_iff; destruct Hin as (x & <- & Hx%list_elem_of_In); by exists x).
    destruct (decide (Z.of_nat n < snd_nxt (tx (kcp p)))) as [Hlt|Hge].
    + destruct (l_kept _ _ _ _ _ _ Hl (Z.of_nat n) ltac:(lia)) as [(x & Hx & Hs)|[Hlt'|(x & Hx & Hs)]].
      * exists x. split; [set_solver|]. destruct (l_buf _ _ _ _ _ _ Hl x Hx) as (_ & _ & _ & Hp). rewrite Hs, Nat2Z.id in Hp. congruence.
      * destruct (Hmap (rcv_queue (rx (kcp q)))) as (x & Hx & Hp); [|exists x; split; [set_solver|done]].
        assert (take (Z.to_nat (rcv_nxt (rx (kcp q)))) (concat (parts s)) !! n = Some f) as Ht by (rewrite lookup_take_lt by lia; done).
        rewrite <- Hq, lookup_app_r in Ht by done. by apply list_elem_of_lookup_2 in Ht.
      * exists x. split; [set_solver|]. destruct (l_rbuf _ _ _ _ _ _ Hl x Hx) as (_ & Hp). rewrite Hs, Nat2Z.id in Hp. congruence.
    + destruct (Hmap (snd_queue (tx (kcp p)))) as (x & Hx & Hp); [|exists x; split; [set_solver|done]]. rewrite Hsq.
      apply (list_elem_of_lookup_2 _ (n - Z.to_nat (snd_nxt (tx (kcp p))))). rewrite lookup_drop. rewrite <- Hnf. f_equal. lia.
  - intros E1 E2 E3. rewrite E1 in Hsq. symmetry in Hsq. apply (f_equal length) in Hsq. rewrite length_drop in Hsq. cbn in Hsq.
    destruct (w_kcp _ _ _ Hw (negb s)) as [Hk _]. fold q in Hk. destruct (k_rcv _ Hk) as [_ Hh]. pose proof (ok_window _ (k_cfg _ Hk)) as Hwd. unfold IKCP_WND_RCV in Hwd.
    assert (rcv_nxt (rx (kcp q)) = zlen (concat (parts s))) as Em.
    { destruct (Z.eq_dec (rcv_nxt (rx (kcp q))) (zlen (concat (parts s)))) as [|Hne]; [done|]. exfalso.
      destruct (l_kept _ _ _ _ _ _ Hl (rcv_nxt (rx (kcp q))) ltac:(lia)) as [(x & Hx & _)|[|(x & Hx & Hs)]]; [|lia|].
      - rewrite E2 in Hx. by apply not_elem_of_nil in Hx.
      - specialize (Hh x Hx Hs). rewrite E3 in Hh. cbn in Hh. lia. }
    rewrite E3, app_nil_r, Em, Nat2Z.id, firstn_all in Hq. rewrite Hg. apply take_ge. rewrite <- Hlen.
    assert (drop j (parts s) = []) as Ed; [|apply (f_equal length) in Ed; rewrite length_drop in Ed; cbn in Ed; lia].
    destruct (drop j (parts s)) as [|fs rest] eqn:Ed; [done|]. exfalso. rewrite Econ in Hq.
    apply (f_equal length) in Hq. rewrite length_app in Hq. cbn [concat] in Hq. rewrite length_app in Hq.
    assert (fs ∈ parts s) as Hin by (rewrite <- (take_drop j (parts s)), Ed; set_solver). destruct (forall2_l _ _ _ _ (l_parts _ _ _ _ _ _ Hl) Hin) as (m & _ & Hne & _).
    destruct fs; [done|]. cbn in Hq. lia.
Qed.

(** C4: A conversation over a network that loses, duplicates and reorders datagrams.
    Whatever both ends do, in whatever order, every call returns, and each end has
    received a prefix of the messages the other end's [ikcp_send] accepted, whole
    and in order; a message accepted and not received yet is held in full, each of
    its fragments in a queue of its sender or of its receiver; so once the sender
    holds nothing and the receiver has no segment queued, everything sent has been
    received.  This holds for fewer than 2^23 messages each way, which keeps the
    sequence numbers from coming round. *)
Theorem kcp_reliable (conv : Z) (o1 o2 : options) (acts : list (bool * action)) :
  in_u 32 conv -> options_ok o1 -> options_ok o2 -> Forall (fun a => legal_action a.2) acts -> (forall s, sends s acts < 2 ^ 23) ->
  exists w, run acts (start conv o1 o2) = (Ok tt, w) /\ forall s, let p := the s w in let q := the (negb s) w in
    got q `prefix_of` sent p /\
    (forall msg, msg ∈ drop (length (got q)) (sent p) -> exists fs, is_frags fs msg /\ forall f, f ∈ fs ->
       exists x, x ∈ snd_queue (tx (kcp p)) ++ snd_buf (tx (kcp p)) ++ rcv_queue (rx (kcp q)) ++ rcv_buf (rx (kcp q)) /\ pay x = f) /\
    (snd_queue (tx (kcp p)) = [] -> snd_buf (tx (kcp p)) = [] -> rcv_queue (rx (kcp q)) = [] -> got q = sent p).
Proof.
  intros Hc H1 H2 Hl Hs. destruct (kcp_run_ok conv acts Hl (fun _ => []) _ (start_world conv o1 o2 Hc H1 H2)) as (w & parts & E & Hw).
  - intros s. specialize (Hs s). cbn. unfold IKCP_WND_RCV. lia.
  - exists w. split; [done|]. intros s. by apply (direction_ok conv parts).
Qed.

(** Two messages, one in two fragments, whose datagrams arrive out of order and one
    of them twice; a datagram with the acknowledgements arrives as well. *)
Definition demo_options : options := mkOptions 1 20 2 1 50 32 32.
Definition demo_acts : list (bool * action) :=
  [(true, Send [1;2;3]); (true, Send (repeat 7 30)); (true, Update 5000); (false, Update 5000); (false, Recv 100);
   (false, Arrive 1); (false, Arrive 1); (false, Arrive 0); (false, Recv 100); (false, Arrive 2); (false, Recv 100);
   (false, Update 5020); (true, Arrive 0); (true, Arrive 1)].

Lemma kcp_reliable_witness : exists w, run demo_acts (start 9 demo_options demo_options) = (Ok tt, w) /\
  got (peer2 w) = [[1;2;3]; repeat 7 30] /\ got (peer2 w) `prefix_of` sent (peer1 w).
Proof.
  destruct (kcp_reliable 9 demo_options demo_options demo_acts) as (w & E & H).
  - by_computation.
  - by_computation.
  - by_computation.
  - unfold demo_acts. repeat constructor; cbn; lia.
  - intros [|]; by vm_compute.
  - exists w. split; [exact E|]. split; [|apply (H true)].
    assert (got (peer2 (run demo_acts (start 9 demo_options demo_options)).2) = [[1;2;3]; repeat 7 30]) as Hg by (vm_compute; reflexivity).
    by rewrite E in Hg.
Defined.
