(* ===== verification/KcpMessage.v ===== *)
(** kcp/kcp_protocol.h and kcp/kcp_util.hpp: the messages a kcp session carries
    and the two packets that open one. *)
From Stdlib Require Import String List.
From S2P Require Import Prelude Bytes Strings Http HttpSession WorkerManager.

(** ** Messages *)
(** [std::make_shared<KcpMessage>()] leaves the numbers zero; [_len] is an unsigned
    short, [_id] an unsigned int. *)
Record KcpMessage := mkKcpMessage { _len : Z; _id : Z; _body : list Z }.

Definition KcpMessage_new : KcpMessage := mkKcpMessage 0 0 [].
Definition SetMsgId (id : Z) (m : KcpMessage) : KcpMessage := mkKcpMessage (_len m) id (_body m).

(** [pb]: what SerializeToString gives. *)
Definition SetMsgBodyAsPB (pb : list Z) (m : KcpMessage) : KcpMessage := mkKcpMessage (u16 (zlen pb)) (_id m) pb.

(** [parse]: ParseFromString of the protobuf class; a null pointer for an empty body. *)
Definition GetMsgBodyAsPB {T} (parse : list Z -> T) (m : KcpMessage) : option T :=
  if bool_decide (_body m = []) then None else Some (parse (_body m)).

(** Proto::MsgId (protobuf/msg_id.proto) *)
Definition MI_NONE : Z := 0.
Definition MI_TEST : Z := 1.
(** [descriptor->FindValueByNumber(_id) != nullptr] *)
Definition MsgId_known (id : Z) : bool := (id =? MI_NONE) || (id =? MI_TEST).

Section codec.
Context {S : Type}.

(** What the first bytes of the buffer are, or None for -1. *)
Definition SerializeToBuffer (len : Z) (m : KcpMessage) : M S (option (list Z)) :=
  let rl_size := 2 + 4 + _len m in
  if len <=? rl_size then mret None
  else
    let buffer := le_bytes 2 (bswap 2 (_len m)) ++ le_bytes 4 (bswap 4 (_id m)) ++ _body m in
    if len <? zlen buffer then undef OutOfBounds
    else if zlen buffer <? rl_size then undef Uninit
    else mret (Some (take (Z.to_nat rl_size) buffer)).

(** [buf]: the bytes of the buffer that have been written. *)
Definition ParseFromBuffer (buf : list Z) : M S (bool * KcpMessage) :=
  if zlen buf <? 6 then undef Uninit
  else
    let len := bswap 2 (le_value (take 2 buf)) in
    let id := bswap 4 (le_value (take 4 (drop 2 buf))) in
    if negb (MsgId_known id) then mret (false, mkKcpMessage len id [])
    else if bool_decide (0 ∈ drop 6 buf) then mret (true, mkKcpMessage len id (cstr (drop 6 buf)))
    else undef Uninit.
End codec.

(** A message its length fits: what the setters make of a body below 2^16 bytes. *)
Definition msg_ok (m : KcpMessage) : Prop := _len m = zlen (_body m) /\ in_u 16 (_len m) /\ in_u 32 (_id m) /\ Forall is_byte (_body m).

Definition packet (m : KcpMessage) : list Z := rev (le_bytes 2 (_len m)) ++ rev (le_bytes 4 (_id m)) ++ _body m.

Lemma packet_length m : zlen (packet m) = 6 + zlen (_body m).
Proof. unfold packet. rewrite !length_app, !length_rev, !le_bytes_length. lia. Qed.

Lemma packet_bytes m : msg_ok m -> Forall is_byte (packet m).
Proof. intros (_ & _ & _ & H). unfold packet. apply Forall_app; split; [apply Forall_rev, le_bytes_range|]. apply Forall_app; split; [apply Forall_rev, le_bytes_range|done]. Qed.

Lemma SetMsgBodyAsPB_ok pb m : zlen pb < 2 ^ 16 -> Forall is_byte pb -> in_u 32 (_id m) -> msg_ok (SetMsgBodyAsPB pb m).
Proof.
  intros Hl Hb Hi. unfold SetMsgBodyAsPB. rewrite uwrap_id by (unfold in_u; lia). split_and!; cbn; try done; unfold in_u; lia.
Qed.

Lemma SerializeToBuffer_ok {S} len m (s : S) : msg_ok m ->
  SerializeToBuffer len m s = (Ok (if len <=? zlen (packet m) then None else Some (packet m)), s).
Proof.
  intros (Hl & Hu & _). unfold SerializeToBuffer. rewrite !le_bytes_bswap. fold (packet m).
  pose proof (packet_length m) as Hp. rewrite (Z.add_comm _ (_len m)). replace (_len m + (2 + 4)) with (zlen (packet m)) by lia.
  replace (2 + 4 + _len m) with (zlen (packet m)) by lia. destruct (Z.leb_spec len (zlen (packet m))); [done|].
  rewrite (proj2 (Z.ltb_ge _ _)) by lia. rewrite Z.ltb_irrefl, Nat2Z.id. by rewrite firstn_all.
Qed.

Lemma bswap_value n (bs : list Z) : Datatypes.length bs = n -> Forall is_byte bs -> bswap n (le_value bs) = le_value (rev bs).
Proof. intros <- Hb. unfold bswap. by rewrite le_bytes_value. Qed.

Lemma cstr_app_zero bs rest : cstr (bs ++ 0 :: rest) = cstr bs.
Proof. induction bs as [|b bs IH]; [done|]. cbn. by rewrite IH. Qed.

(** What a message says after its way through a buffer: the body ends at its first NUL. *)
Lemma ParseFromBuffer_packet {S} m rest (s : S) : msg_ok m ->
  ParseFromBuffer (packet m ++ 0 :: rest) s = (Ok (MsgId_known (_id m), mkKcpMessage (_len m) (_id m) (if MsgId_known (_id m) then cstr (_body m) else [])), s).
Proof.
  intros (Hl & Hu & Hi & _). unfold ParseFromBuffer. rewrite (proj2 (Z.ltb_ge _ _)) by (rewrite length_app; pose proof (packet_length m); lia).
  assert (take 2 (packet m ++ 0 :: rest) = rev (le_bytes 2 (_len m))) as H1.
  { unfold packet. rewrite <- !app_assoc, take_app_length'; [done|]. by rewrite length_rev, le_bytes_length. }
  assert (drop 2 (packet m ++ 0 :: rest) = rev (le_bytes 4 (_id m)) ++ _body m ++ 0 :: rest) as H2.
  { unfold packet. rewrite <- !app_assoc, drop_app_length'; [done|]. by rewrite length_rev, le_bytes_length. }
  assert (drop 6 (packet m ++ 0 :: rest) = _body m ++ 0 :: rest) as H3.
  { change 6%nat with (2 + 4)%nat. rewrite <- drop_drop, H2, drop_app_length'; [done|]. by rewrite length_rev, le_bytes_length. }
  rewrite H1, H2, H3, take_app_length' by (by rewrite length_rev, le_bytes_length).
  rewrite !bswap_value by (try apply Forall_rev, le_bytes_range; by rewrite length_rev, le_bytes_length). rewrite !rev_involutive, !le_value_bytes by done.
  destruct (MsgId_known (_id m)); cbn [negb]; [|done]. rewrite bool_decide_true by (apply elem_of_app; right; by left). by rewrite cstr_app_zero.
Qed.

(** ** The packets of the handshake *)
Definition XTEN_KCP_CONNECT_PACKET : list Z := lit "xten_kcp_connect_packet#get_convid".
Definition XTEN_KCP_CONNECT_BACKPACKET : list Z := lit "xten_kcp_connect_backpacket#return_convid:".

(** [memcmp(data, literal, len) == 0]: byte by byte up to the first that differs; the
    literal ends with its NUL. *)
Fixpoint memcmp_eq {S} (data literal : list Z) : M S bool :=
  match data, literal with
  | [], _ => mret true
  | _ :: _, [] => undef OutOfBounds
  | b :: data, c :: literal => if b =? c then memcmp_eq data literal else mret false
  end.

Definition is_connect_packet {S} (data : list Z) : M S bool := memcmp_eq data (XTEN_KCP_CONNECT_PACKET ++ [0]).
Definition making_connect_packet : list Z := XTEN_KCP_CONNECT_PACKET.
Definition making_connect_backpacket : list Z := XTEN_KCP_CONNECT_BACKPACKET.

(** The client's side of it; [data] goes on to its NUL. *)
Fixpoint after_colon (s : list Z) : option (list Z) :=
  match s with [] => None | c :: s => if c =? 58 then Some s else after_colon s end.
Definition get_connect_backpacket_convid {S} (data : list Z) : M S Z :=
  let tmp := cstr data in
  let v := WorkerManager.atoi_value (cstr (default tmp (after_colon tmp))) in
  if bool_decide (- 2 ^ 31 <= v < 2 ^ 31) then mret (u32 v) else undef SignedOverflow.

(** Everything that begins like the literal passes, the empty datagram too. *)
Lemma memcmp_eq_prefix {S} data : forall literal (s : S),
  memcmp_eq data literal s = (if bool_decide (data `prefix_of` literal) then Ok true else if bool_decide (literal `prefix_of` data) then Undef OutOfBounds else Ok false, s).
Proof.
  induction data as [|b data IH]; intros literal s; cbn [memcmp_eq].
  - by rewrite bool_decide_true by apply prefix_nil.
  - destruct literal as [|c literal].
    + rewrite bool_decide_false by (by intros ?%prefix_nil_inv). by rewrite bool_decide_true by apply prefix_nil.
    + destruct (Z.eqb_spec b c) as [->|Hne].
      * rewrite IH. repeat case_bool_decide; try done; exfalso;
          repeat match goal with
          | H : ~ _ `prefix_of` _ |- _ => apply H; by apply prefix_cons
          | H : (_ :: _) `prefix_of` (_ :: _) |- _ => apply prefix_cons_inv_2 in H; done
          end.
      * rewrite !bool_decide_false; [done|intros H; apply prefix_cons_inv_1 in H; congruence..].
Qed.
