(* ===== verification/KcpSession.v ===== *)
(** kcp/kcp_session.cpp and KcpServer::handleClient (kcp/kcp_server.cpp): one
    session on the server.

    Two fibers serve it: [handleClient] reads messages and answers them,
    [dopacketOutput] moves queued messages into the control block.  The fibers of
    the listener feed datagrams in and call [update], a timer ends a read that
    takes too long, and anyone may send, close or force a close.  An action of the
    machine is the part of a method between two points where another fiber can
    come in: what runs under [_kcpcb_mtx] or [_sendque_mtx] is one action, unless
    it reads an atomic flag, which others set without the lock.  The code behind a
    flag (the signals of the notify methods, the body of [Close]) is a tail, run
    one call at a time. *)
From Stdlib Require Import List.
From stdpp Require Import functions sets.
From S2P Require Import Prelude Bytes KcpMessage Ikcp IkcpSafe IkcpNet.

Inductive READ_ERRNO := SUCCESS | READ_TIMEOUT | READ_ERROR | SESSION_CLOSE.
Inductive flag := B_close | B_read_error | B_write_error | B_read_timeout.
Inductive cond := KcpcbCond | SendqueCond.
Inductive once := Fresh | Running | Finished.

#[export] Instance READ_ERRNO_eq_dec : EqDecision READ_ERRNO.
Proof. solve_decision. Defined.
#[export] Instance flag_eq_dec : EqDecision flag.
Proof. solve_decision. Defined.
#[export] Instance cond_eq_dec : EqDecision cond.
Proof. solve_decision. Defined.
#[export] Instance once_eq_dec : EqDecision once.
Proof. solve_decision. Defined.

(** What is left of a call: of [Close], of the notify methods, of [SendMessage]. *)
Inductive tail :=
  | Flush                       (* ikcp_update and ikcp_flush, under the lock *)
  | OnSessionClose              (* listener->onSessionClose *)
  | Raise (f : flag)
  | SetCode (of_read : bool) (code : Z)
  | Signal (c : cond)
  | EndOnce.                    (* [_once_close] lets others pass *)

#[export] Instance tail_eq_dec : EqDecision tail.
Proof. solve_decision. Defined.

(** Where [handleClient] is.  From [HTest] to [HRecv] it holds [_kcpcb_mtx]. *)
Inductive reader :=
  | HStart                      (* before session->Start() *)
  | HCall                       (* before ReadMessage *)
  | HLoop                       (* at the loop of ReadMessage *)
  | HWait                       (* before wait *)
  | HAsleep
  | HTimeout | HClosed | HError (* before the test of a flag *)
  | HRecv
  | HParse (ret : Z) (buf : list Z)
  | HMsg (msg : KcpMessage)
  | HRet (error : READ_ERRNO)   (* without a message *)
  | HForce                      (* behind the loop *)
  | HWaitSender
  | HClose | HClosing           (* before and in Close *)
  | HDone.

(** Where [dopacketOutput] is.  In [SWait] it holds [_sendque_mtx]. *)
Inductive writer :=
  | SNone | SSem | STest | SWait | SAsleep
  | SSend (tmp : list (option KcpMessage))
  | SLoop | SClose | SClosing | SPost | SEnd.

Record KcpSession := mkSession {
  _kcp_cb : peer;                         (* and what has gone through it *)
  flags : flag -> bool;
  _once_close : once; _once_readError : bool; _once_writeError : bool;
  _read_error_code : Z; _write_error_code : Z;
  _sendque : list (option KcpMessage);    (* None: a null pointer *)
  _sem : Z;
  armed : bool;                           (* the timer of ReadMessage *)
  erased : bool;                          (* the listener was told *)
  tails : list (list tail);
  handler : reader; sender : writer;
  (* all SendMessage was given, all ReadMessage returned *)
  accepted : list (option KcpMessage); received : list KcpMessage
}.

Definition set_kcp v '(mkSession _ f c r w rc wc q s a e t h n ac re) := mkSession v f c r w rc wc q s a e t h n ac re.
Definition set_flag (x : flag) (v : bool) '(mkSession k f c r w rc wc q s a e t h n ac re) := mkSession k (<[x := v]> f) c r w rc wc q s a e t h n ac re.
Definition set_once v '(mkSession k f _ r w rc wc q s a e t h n ac re) := mkSession k f v r w rc wc q s a e t h n ac re.
Definition set_once_error (of_read : bool) '(mkSession k f c r w rc wc q s a e t h n ac re) :=
  if of_read then mkSession k f c true w rc wc q s a e t h n ac re else mkSession k f c r true rc wc q s a e t h n ac re.
Definition set_code (of_read : bool) v '(mkSession k f c r w rc wc q s a e t h n ac re) :=
  if of_read then mkSession k f c r w v wc q s a e t h n ac re else mkSession k f c r w rc v q s a e t h n ac re.
Definition set_sendque v '(mkSession k f c r w rc wc _ s a e t h n ac re) := mkSession k f c r w rc wc v s a e t h n ac re.
Definition set_sem v '(mkSession k f c r w rc wc q _ a e t h n ac re) := mkSession k f c r w rc wc q v a e t h n ac re.
Definition set_armed v '(mkSession k f c r w rc wc q s _ e t h n ac re) := mkSession k f c r w rc wc q s v e t h n ac re.
Definition set_erased '(mkSession k f c r w rc wc q s a _ t h n ac re) := mkSession k f c r w rc wc q s a true t h n ac re.
Definition set_tails v '(mkSession k f c r w rc wc q s a e _ h n ac re) := mkSession k f c r w rc wc q s a e v h n ac re.
Definition set_handler v '(mkSession k f c r w rc wc q s a e t _ n ac re) := mkSession k f c r w rc wc q s a e t v n ac re.
Definition set_sender v '(mkSession k f c r w rc wc q s a e t h _ ac re) := mkSession k f c r w rc wc q s a e t h v ac re.
Definition push m '(mkSession k f c r w rc wc q s a e t h n ac re) := mkSession k f c r w rc wc (q ++ [m]) s a e t h n (ac ++ [m]) re.
Definition add_received m '(mkSession k f c r w rc wc q s a e t h n ac re) := mkSession k f c r w rc wc q s a e t h n ac (re ++ [m]).

(** KcpSession::KcpSession, on a control block with the settings of the server. *)
Definition KcpSession_new (convid : Z) (o : options) : KcpSession :=
  mkSession (mkPeer (start_kcp convid o) [] [] []) (fun _ => false) Fresh false false 0 0 [] 1 false false [] HStart SNone [] [].

Definition spawn (t : list tail) : M KcpSession unit := modify (fun s => set_tails (tails s ++ [t]) s).
Definition hgoto (h : reader) : M KcpSession unit := modify (set_handler h).
Definition sgoto (n : writer) : M KcpSession unit := modify (set_sender n).

(** A call on the control block. *)
Definition on_kcp {A} (m : M IKCPCB A) (note : A -> peer -> peer) : M KcpSession A := fun s =>
  let p := _kcp_cb s in
  match m (kcp p) with
  | (r, k) =>
    let p := mkPeer k (sent p) (got p) (wire p) in
    (r, set_kcp (match r with Ok a => note a p | _ => p end) s)
  end.

Definition notifyReadError (code : Z) : M KcpSession unit :=
  s ← get;
  if _once_readError s then mret tt
  else modify (set_once_error true);; spawn [SetCode true code; Raise B_read_error; Signal KcpcbCond; Signal SendqueCond].

Definition notifyWriteError (code : Z) : M KcpSession unit :=
  s ← get;
  if _once_writeError s then mret tt
  else modify (set_once_error false);; spawn [SetCode false code; Raise B_write_error; Signal KcpcbCond; Signal SendqueCond].

Definition notifyReadTimeout : M KcpSession unit := spawn [Raise B_read_timeout; Signal KcpcbCond].
Definition notifyReadEvent : M KcpSession unit := spawn [Signal KcpcbCond].

(** [kcp_output_func], for the datagrams a call puts out; [err]: the errno of a
    [SendTo] that fails, if one does. *)
Definition kcp_output_func (err : option Z) (ds : list (list Z)) : M KcpSession unit :=
  match ds, err with
  | _ :: _, Some e => notifyWriteError e
  | _, _ => mret tt
  end.

Definition update (now : Z) (err : option Z) : M KcpSession unit :=
  ds ← on_kcp (ikcp_update now) note_out;
  kcp_output_func err ds.

Definition close_tail : list tail := [Flush; OnSessionClose; Raise B_close; Signal SendqueCond; Signal KcpcbCond; EndOnce].

Definition Close : M KcpSession unit :=
  s ← get;
  match _once_close s with
  | Fresh => modify (set_once Running);; spawn close_tail
  | _ => mret tt
  end.

Definition SendMessage (msg : option KcpMessage) : M KcpSession unit := modify (push msg);; spawn [Signal SendqueCond].
Definition ForceClose : M KcpSession unit := SendMessage None.

(** A datagram of this session, from the listener. *)
Definition packetInput (data : list Z) : M KcpSession unit :=
  ret ← on_kcp (ikcp_input data) (fun _ p => p);
  if ret <? 0 then notifyReadError ret else notifyReadEvent.

Definition write (rsp : KcpMessage) : M KcpSession bool :=
  b_serialize ← SerializeToBuffer 4096 rsp;
  match b_serialize with
  | None => mret false
  | Some buffer =>
    ret ← on_kcp (ikcp_send buffer) (note_send buffer);
    if ret <? 0 then notifyWriteError ret;; mret false else mret true
  end.

(** ** The fibers *)
Section fibers.
(** [_read_timeout_ms], and what the echo of a TestMsg body is, serialized. *)
Context (read_timeout_ms : Z) (echo : list Z -> list Z).

Definition no_message (s : KcpSession) : bool :=
  (ikcp_peeksize (rx (kcp (_kcp_cb s))) <=? 0) && negb (flags s B_close) && negb (flags s B_read_error) && negb (flags s B_read_timeout).

(** ReadMessage behind the lock of the loop's tests. *)
Definition read_recv : M KcpSession unit :=
  r ← on_kcp (ikcp_recv (1024 + 512)) (note_recv (1024 + 512));
  let '(ret, buf) := r in
  if ret =? -3 then notifyReadError ret;; hgoto (HRet READ_ERROR)
  else if 0 <=? ret then hgoto (HParse ret buf)
  else mret tt.

Definition read_parse (ret : Z) (buf : list Z) : M KcpSession unit :=
  (if 1024 + 512 <=? ret then undef OutOfBounds else mret tt);;
  r ← ParseFromBuffer (buf ++ [0]);
  let '(b_parse, msg) := r in
  if b_parse : bool then modify (add_received msg);; hgoto (HMsg msg)
  else notifyReadError ret;; hgoto (HRet SUCCESS).

(** The body of the loop of [handleClient], with a message. *)
Definition handle_msg (msg : KcpMessage) : M KcpSession unit :=
  (if _id msg =? MI_TEST then
     match GetMsgBodyAsPB echo msg with
     | None => undef NullDeref
     | Some rsp => SendMessage (Some (SetMsgBodyAsPB rsp (SetMsgId MI_TEST KcpMessage_new)))
     end
   else mret tt);;
  hgoto HCall.

(** KcpServer::handleClient *)
Definition handleClient : M KcpSession unit :=
  s ← get;
  match handler s with
  | HStart => sgoto SSem;; hgoto HCall
  | HCall => (if 0 <? read_timeout_ms then modify (set_armed true) else mret tt);; hgoto HLoop
  | HLoop => if no_message s then hgoto HWait else hgoto HTimeout
  | HWait => hgoto HAsleep
  | HTimeout =>
    if flags s B_read_timeout then modify (set_flag B_read_timeout false);; hgoto (HRet READ_TIMEOUT)
    else modify (set_armed false);; hgoto HClosed
  | HClosed => if flags s B_close then hgoto (HRet SESSION_CLOSE) else hgoto HError
  | HError => if flags s B_read_error then hgoto (HRet READ_ERROR) else hgoto HRecv
  | HRecv => read_recv
  | HParse ret buf => read_parse ret buf
  | HMsg msg => handle_msg msg
  | HRet error => (if bool_decide (error = READ_TIMEOUT) then ForceClose else mret tt);; hgoto HForce
  | HForce => ForceClose;; hgoto HWaitSender
  | HWaitSender => modify (set_sem (_sem s - 1));; hgoto HClose
  | HClose => Close;; hgoto HClosing
  | HClosing => hgoto HDone
  | HAsleep | HDone => mret tt
  end.

Definition dopacketOutput : M KcpSession unit :=
  s ← get;
  match sender s with
  | SSem => modify (set_sem (_sem s - 1));; sgoto STest
  | STest =>
    if bool_decide (_sendque s = []) && negb (flags s B_close) && negb (flags s B_read_error) && negb (flags s B_write_error)
    then sgoto SWait
    else modify (set_sendque []);; sgoto (SSend (_sendque s))
  | SWait => sgoto SAsleep
  | SSend [] => sgoto SLoop
  | SSend (None :: _) => sgoto SClose
  | SSend (Some rsp :: tmp) =>
    ok ← write rsp;
    if ok : bool then sgoto (SSend tmp) else sgoto SClose
  | SLoop => if negb (flags s B_close) && negb (flags s B_read_error) && negb (flags s B_write_error) then sgoto STest else sgoto SClose
  | SClose => Close;; sgoto SClosing
  | SClosing => sgoto SPost
  | SPost => modify (set_sem (_sem s + 1));; sgoto SEnd
  | SNone | SAsleep | SEnd => mret tt
  end.

(** One call of a tail, at time [now]. *)
Definition run_tail (now : Z) (err : option Z) (t : tail) : M KcpSession unit :=
  match t with
  | Flush =>
    ds ← on_kcp (ikcp_update now) note_out;
    kcp_output_func err ds;;
    ds ← on_kcp ikcp_flush note_out;
    kcp_output_func err ds
  | OnSessionClose => modify set_erased
  | Raise f => modify (set_flag f true)
  | SetCode of_read code => modify (set_code of_read code)
  | Signal KcpcbCond => s ← get; match handler s with HAsleep => hgoto HLoop | _ => mret tt end
  | Signal SendqueCond => s ← get; match sender s with SAsleep => sgoto STest | _ => mret tt end
  | EndOnce => modify (set_once Finished)
  end.

(** ** The machine *)
Inductive event :=
  | AHandler | ASender
  | ATail (i : nat) (now : Z) (err : option Z)
  | APacket (data : list Z)
  | AUpdate (now : Z) (err : option Z)
  | ATimer
  | AReadError (code : Z)        (* the listener's socket failed *)
  | AClose
  | ASend (msg : option KcpMessage).

Definition kcp_free (s : KcpSession) : bool :=
  match handler s with HWait | HTimeout | HClosed | HError | HRecv => false | _ => true end.
Definition sendque_free (s : KcpSession) : bool := match sender s with SWait => false | _ => true end.

Definition enabled (a : event) (s : KcpSession) : bool :=
  match a with
  | AHandler =>
    match handler s with
    | HAsleep | HDone => false
    | HMsg _ | HRet READ_TIMEOUT | HForce => sendque_free s
    | HWaitSender => 0 <? _sem s
    | HClosing => bool_decide (_once_close s = Finished)
    | _ => true
    end
  | ASender =>
    match sender s with
    | SNone | SAsleep | SEnd => false
    | SSem => 0 <? _sem s
    | SSend (Some _ :: _) => kcp_free s
    | SClosing => bool_decide (_once_close s = Finished)
    | _ => true
    end
  | ATail i _ _ => match tails s !! i with Some (Flush :: _) => kcp_free s | Some (_ :: _) => true | _ => false end
  | APacket _ | AUpdate _ _ => kcp_free s
  | ATimer => armed s
  | AReadError _ | AClose => true
  | ASend _ => sendque_free s
  end.

Definition act (a : event) : M KcpSession unit :=
  match a with
  | AHandler => handleClient
  | ASender => dopacketOutput
  | ATail i now err =>
    s ← get;
    match tails s !! i with
    | Some (t :: rest) => modify (set_tails (<[i := rest]> (tails s)));; run_tail now err t
    | _ => mret tt
    end
  | APacket data => packetInput data
  | AUpdate now err => update now err
  | ATimer => modify (set_armed false);; notifyReadTimeout
  | AReadError code => notifyReadError code
  | AClose => Close
  | ASend msg => SendMessage msg
  end.

(** An event that cannot happen now is passed over. *)
Definition try_act (a : event) : M KcpSession unit := s ← get; if enabled a s then act a else mret tt.

Fixpoint session_run (l : list event) : M KcpSession unit :=
  match l with [] => mret tt | a :: l => try_act a;; session_run l end.
End fibers.

(** ** The invariant

    [I n] is what is kept of the control block, with [n] bounding how often
    [ikcp_send] was called; [G] are the datagrams that may come in. *)
Definition parsed (b : list Z) (m : KcpMessage) : Prop := ParseFromBuffer (b ++ [0]) tt = (Ok (true, m), tt).

Definition opt_ok (o : option KcpMessage) : Prop := match o with Some m => msg_ok m | None => True end.

(** What the sender has taken and not sent; None when it sends no more. *)
Definition in_hand (n : writer) : option (list (option KcpMessage)) :=
  match n with SSend tmp => Some tmp | SClose | SClosing | SPost | SEnd => None | _ => Some [] end.

Definition sent_ok (sent : list (list Z)) (accepted sendque : list (option KcpMessage)) (n : writer) : Prop :=
  exists ws rest, sent = map packet ws /\ accepted = map Some ws ++ rest /\ forall tmp, in_hand n = Some tmp -> rest = tmp ++ sendque.

(** What the reader has taken and not parsed; None when it reads no more. *)
Definition unread (h : reader) : option (list (list Z)) :=
  match h with
  | HParse _ buf => Some [buf]
  | HRet _ | HForce | HWaitSender | HClose | HClosing | HDone => None
  | _ => Some []
  end.

Definition got_ok (got : list (list Z)) (received : list KcpMessage) (h : reader) : Prop :=
  exists pre post, got = pre ++ post /\ Forall2 parsed pre received /\ forall l, unread h = Some l -> post = l.

Definition ready (message : bool) (f : flag -> bool) (received : list KcpMessage) (h : reader) : Prop :=
  match h with
  | HTimeout => message || f B_close || f B_read_error || f B_read_timeout = true
  | HClosed => message || f B_close || f B_read_error = true
  | HError => message || f B_read_error = true
  | HRecv => message = true
  | HParse ret buf => 0 < ret <= 1536 /\ ret = zlen buf
  | HMsg m => m ∈ received /\ zlen (_body m) < 1536
  | _ => True
  end.

(** The one permit of [_sem]: the sender has it, or [handleClient] took it for good. *)
Definition inside (n : writer) : Z := match n with SNone | SSem | SEnd => 0 | _ => 1 end.
Definition waited (h : reader) : Z := match h with HClose | HClosing | HDone => 1 | _ => 0 end.

Definition message_there (s : KcpSession) : bool := 0 <? ikcp_peeksize (rx (kcp (_kcp_cb s))).

(** A read that goes wrong: a message too short to have a header, one that fills
    the buffer, or a TestMsg without a body. *)
Definition fault (s : KcpSession) : Prop :=
  match handler s with
  | HParse ret buf => ret < 6 \/ ret = 1536
  | HMsg m => _id m = MI_TEST /\ _body m = []
  | _ => False
  end.

Lemma cstr_length bs : (length (cstr bs) <= length bs)%nat.
Proof. induction bs as [|b bs IH]; cbn; [lia|]. destruct (b =? 0); cbn; lia. Qed.

(** What parsing a received message gives. *)
Lemma ParseFromBuffer_cases {S} buf (s : S) :
  (exists ok m, ParseFromBuffer (buf ++ [0]) s = (Ok (ok, m), s) /\ ParseFromBuffer (buf ++ [0]) tt = (Ok (ok, m), tt) /\ zlen (_body m) <= zlen buf) \/
  ParseFromBuffer (buf ++ [0]) s = (Undef Uninit, s) /\ zlen buf < 6.
Proof.
  unfold ParseFromBuffer. rewrite length_app. cbn [length]. destruct (Z.ltb_spec (Z.of_nat (length buf + 1)) 6) as [H|H]; [right; split; [done|lia]|].
  destruct (MsgId_known _); cbn [negb]; [|left; do 2 eexists; split_and!; [done|done|cbn; lia]].
  destruct (Z.lt_ge_cases (zlen buf) 6) as [H6|H6].
  - right. rewrite bool_decide_false; [done|]. rewrite drop_ge by (rewrite length_app; cbn; lia). apply not_elem_of_nil.
  - left. rewrite bool_decide_true by (rewrite drop_app_le by lia; apply elem_of_app; right; by left).
    do 2 eexists. split_and!; [done|done|]. cbn [_body]. pose proof (cstr_length (drop 6 (buf ++ [0]))) as Hc. rewrite length_drop, length_app in Hc. cbn in Hc. lia.
Qed.

Section invariant.
Context (read_timeout_ms : Z) (echo : list Z -> list Z).
Hypothesis echo_ok : forall b, zlen b < 1536 -> zlen (echo b) < 2 ^ 16 /\ Forall is_byte (echo b).
Context (I : nat -> peer -> Prop) (G : list Z -> Prop) (N : nat).
#[local] Abbreviation back p k := (mkPeer k (sent p) (got p) (wire p)).
Hypothesis I_more : forall n p, I n p -> I (S n) p.
Hypothesis I_send : forall n p msg, I n p -> (n < N)%nat -> Forall is_byte msg -> zlen msg < 4096 ->
  exists code k, ikcp_send msg (kcp p) = (Ok code, k) /\ I (S n) (note_send msg code (back p k)) /\ code <= 0.
Hypothesis I_recv : forall n p, I n p -> 0 < ikcp_peeksize (rx (kcp p)) ->
  exists ret buf k, ikcp_recv 1536 (kcp p) = (Ok (ret, buf), k) /\
    (ret = -3 /\ k = kcp p \/ 0 < ret <= 1536 /\ ret = zlen buf /\ I n (note_recv 1536 (ret, buf) (back p k))).
Hypothesis I_input : forall n p d, I n p -> G d -> exists ret k, ikcp_input d (kcp p) = (Ok ret, k) /\ I n (back p k).
Hypothesis I_update : forall n p now, I n p -> exists ds k, ikcp_update now (kcp p) = (Ok ds, k) /\ I n (note_out ds (back p k)).
Hypothesis I_flush : forall n p, I n p -> exists ds k, ikcp_flush (kcp p) = (Ok ds, k) /\ I n (note_out ds (back p k)).

Record SI (n : nat) (s : KcpSession) : Prop := {
  si_kcp : I n (_kcp_cb s);
  si_msgs : Forall opt_ok (accepted s);
  si_sent : sent_ok (sent (_kcp_cb s)) (accepted s) (_sendque s) (sender s);
  si_got : got_ok (got (_kcp_cb s)) (received s) (handler s);
  si_ready : ready (message_there s) (flags s) (received s) (handler s);
  si_sem : 0 <= _sem s /\ _sem s + inside (sender s) + waited (handler s) = 1;
  si_start : handler s = HStart <-> sender s = SNone;
  si_tails t : t ∈ tails s -> EndOnce ∈ t -> exists k, t = drop k close_tail /\ ((2 <= k)%nat -> erased s = true) /\ ((3 <= k)%nat -> flags s B_close = true);
  si_once : _once_close s = Finished -> flags s B_close = true /\ erased s = true;
  si_end : handler s = HDone \/ sender s = SPost \/ sender s = SEnd -> _once_close s = Finished
}.

(** What moving one fiber leaves of the two conditions that link it to the other. *)
Ltac linked := try done;
  try (split; [done|]; intros Hx; match goal with H : _ <-> _ |- _ => by apply H in Hx end);
  try (split; [|done]; intros Hx; match goal with H : _ <-> _ |- _ => by apply H in Hx end);
  try (intros [Hx|Hx]; [done|]; match goal with H : _ \/ _ -> _ |- _ => apply H; by right end);
  try (intros [Hx|[Hx|Hx]]; [match goal with H : _ \/ _ -> _ |- _ => apply H; by left end|done|done]).
Ltac fields s := destruct s as [p f c r w rc wc q sm ar er ts hd n' ac re].

Lemma SI_more n s : SI n s -> SI (S n) s.
Proof. intros []. split; auto. Qed.

(** *** Small changes *)
Lemma spawn_SI n s t : SI n s -> EndOnce ∉ t -> SI n (set_tails (tails s ++ [t]) s).
Proof.
  intros Hs Ht. fields s. destruct Hs. split; try done. cbn in *. intros t' [Hin| ->]%elem_snoc; [by auto|done].
Qed.

Lemma hgoto_SI n s h : SI n s -> (forall l, unread h = Some l -> unread (handler s) = Some l) -> ready (message_there s) (flags s) (received s) h ->
  waited h = waited (handler s) -> h <> HStart -> handler s <> HStart -> h <> HDone -> SI n (set_handler h s).
Proof.
  intros Hs Hu Hr Hw H1 H2 H3. fields s. destruct Hs. cbn in *. split; cbn in *; try done.
  - destruct si_got0 as (pre & post & E & F & U). exists pre, post. split_and!; try done. intros l Hl. apply U. by apply Hu.
  - by rewrite Hw.
  - split; [done|]. by intros E1%si_start0.
  - intros [?|?]; [done|]. apply si_end0. by right.
Qed.

Lemma sgoto_SI n s x : SI n s -> (forall l, in_hand x = Some l -> in_hand (sender s) = Some l) -> inside x = inside (sender s) ->
  x <> SNone -> sender s <> SNone -> (x = SPost \/ x = SEnd -> _once_close s = Finished) -> SI n (set_sender x s).
Proof.
  intros Hs Hu Hw H1 H2 H3. fields s. destruct Hs. cbn in *. split; cbn in *; try done.
  - destruct si_sent0 as (ws & rest & E & F & U). exists ws, rest. split_and!; try done. intros l Hl. apply U. by apply Hu.
  - by rewrite Hw.
  - split; [|done]. by intros E1%si_start0.
  - intros [?|?]; [apply si_end0; by left|by apply H3].
Qed.

Lemma sem_SI n s : SI n s -> SI n (set_sem (_sem s) s).
Proof. by fields s. Qed.

Lemma set_armed_SI n s b : SI n s -> SI n (set_armed b s).
Proof. intros Hs. fields s. by destruct Hs. Qed.
Lemma set_code_SI n s b v : SI n s -> SI n (set_code b v s).
Proof. intros Hs. fields s. by destruct b, Hs. Qed.
Lemma set_once_error_SI n s b : SI n s -> SI n (set_once_error b s).
Proof. intros Hs. fields s. by destruct b, Hs. Qed.

Lemma raise_ready f x m re h : ready m f re h -> ready m (<[x := true]> f) re h.
Proof. destruct h; cbn; try done; unfold insert, fn_insert; repeat case_decide; rewrite ?orb_true_r; try done; destruct m; cbn; try done; destruct (f B_close); cbn; try done; by destruct (f B_read_error). Qed.

Lemma raise_SI n s x : SI n s -> SI n (set_flag x true s).
Proof.
  intros Hs. fields s. destruct Hs. split; cbn in *; try done.
  - by apply raise_ready.
  - intros t Ht He. destruct (si_tails0 t Ht He) as (k & -> & Ha & Hb). exists k. split_and!; try done. intros Hk. unfold insert, fn_insert. case_decide; auto.
  - intros Hf. destruct (si_once0 Hf). split; [|done]. unfold insert, fn_insert. case_decide; auto.
Qed.

Lemma session_error_ok n s code : SI n s -> exists s', notifyReadError code s = (Ok tt, s') /\ SI n s' /\
  handler s' = handler s /\ sender s' = sender s /\ _kcp_cb s' = _kcp_cb s /\ flags s' = flags s /\ received s' = received s /\ _once_close s' = _once_close s.
Proof.
  intros Hs. unfold notifyReadError. rewrite (bind_ok get _ s s s eq_refl). destruct (_once_readError s); [by exists s|].
  eexists. split; [reflexivity|]. split; [|by fields s].
  apply (spawn_SI n (set_once_error true s)); [by apply set_once_error_SI|]. set_solver.
Qed.

Lemma notifyWriteError_ok n s code : SI n s -> exists s', notifyWriteError code s = (Ok tt, s') /\ SI n s' /\
  handler s' = handler s /\ sender s' = sender s /\ _kcp_cb s' = _kcp_cb s /\ flags s' = flags s /\ received s' = received s /\ _once_close s' = _once_close s.
Proof.
  intros Hs. unfold notifyWriteError. rewrite (bind_ok get _ s s s eq_refl). destruct (_once_writeError s); [by exists s|].
  eexists. split; [reflexivity|]. split; [|by fields s].
  apply (spawn_SI n (set_once_error false s)); [by apply set_once_error_SI|]. set_solver.
Qed.

Lemma session_close_ok n s : SI n s -> exists s', Close s = (Ok tt, s') /\ SI n s' /\ handler s' = handler s /\ sender s' = sender s.
Proof.
  intros Hs. unfold Close. rewrite (bind_ok get _ s s s eq_refl). destruct (_once_close s) eqn:Eo; [|by exists s..].
  eexists. split; [reflexivity|]. split; [|by fields s]. fields s. cbn in Eo. subst c. destruct Hs. split; cbn in *; try done.
  - intros t [Hin| ->]%elem_snoc He; [by apply si_tails0|]. exists 0%nat. split; [done|]. lia.
  - intros Hx. by apply si_end0 in Hx.
Qed.

Lemma SendMessage_ok n s m : SI n s -> opt_ok m -> exists s', SendMessage m s = (Ok tt, s') /\ SI n s' /\ handler s' = handler s /\ sender s' = sender s.
Proof.
  intros Hs Hm. eexists. split; [reflexivity|]. split; [|by fields s]. apply (spawn_SI n (push m s)); [|set_solver].
  fields s. destruct Hs. split; cbn in *; try done.
  - apply Forall_app; split; [done|]. by constructor.
  - destruct si_sent0 as (ws & rest & E & F & U). exists ws, (rest ++ [m]). split_and!; [done|by rewrite F, app_assoc|].
    intros tmp Ht. rewrite (U tmp Ht). by rewrite app_assoc.
Qed.

(** *** Calls on the control block *)
Lemma on_kcp_ok {A} (m : M IKCPCB A) note s a k : m (kcp (_kcp_cb s)) = (Ok a, k) -> on_kcp m note s = (Ok a, set_kcp (note a (back (_kcp_cb s) k)) s).
Proof. intros E. unfold on_kcp. by rewrite E. Qed.

Lemma ready_free m m' f re h : match h with HWait | HTimeout | HClosed | HError | HRecv => false | _ => true end = true -> ready m f re h -> ready m' f re h.
Proof. by destruct h. Qed.

Lemma set_kcp_SI n s p' : SI n s -> I n p' -> sent p' = sent (_kcp_cb s) -> got p' = got (_kcp_cb s) -> kcp_free s = true -> SI n (set_kcp p' s).
Proof.
  intros Hs Hp E1 E2 Hf. fields s. unfold kcp_free in Hf. destruct Hs. split; cbn in *; rewrite ?E1, ?E2; try done. by apply (ready_free (message_there (mkSession p f c r w rc wc q sm ar er ts hd n' ac re))).
Qed.

Lemma out_ok n s err ds : SI n s -> exists s', kcp_output_func err ds s = (Ok tt, s') /\ SI n s' /\ handler s' = handler s /\ sender s' = sender s.
Proof.
  intros Hs. unfold kcp_output_func. destruct ds as [|d ds]; [by exists s|]. destruct err as [e|]; [|by exists s].
  destruct (notifyWriteError_ok n s e Hs) as (s' & E & H & H1 & H2 & _). by exists s'.
Qed.

(** An update or a flush, with what it puts out. *)
Lemma issue_ok (m : M IKCPCB (list (list Z))) n s err : (exists ds k, m (kcp (_kcp_cb s)) = (Ok ds, k) /\ I n (note_out ds (back (_kcp_cb s) k))) ->
  SI n s -> kcp_free s = true ->
  exists s', (ds ← on_kcp m note_out; kcp_output_func err ds) s = (Ok tt, s') /\ SI n s' /\ handler s' = handler s /\ sender s' = sender s.
Proof.
  intros (ds & k & E & Hi) Hs Hf. rewrite (bind_ok _ _ _ _ _ (on_kcp_ok _ _ _ _ _ E)).
  destruct (out_ok n (set_kcp (note_out ds (back (_kcp_cb s) k)) s) err ds) as (s' & E' & H & H1 & H2); [by apply set_kcp_SI|].
  exists s'. split; [done|]. split; [done|]. rewrite H1, H2. by fields s.
Qed.

Lemma session_input_ok n s d : SI n s -> G d -> kcp_free s = true -> exists s', packetInput d s = (Ok tt, s') /\ SI n s'.
Proof.
  intros Hs Hd Hf. destruct (I_input n (_kcp_cb s) d (si_kcp _ _ Hs) Hd) as (ret & k & E & Hi). unfold packetInput.
  rewrite (bind_ok _ _ _ _ _ (on_kcp_ok _ (fun _ p => p) _ _ _ E)). assert (SI n (set_kcp (back (_kcp_cb s) k) s)) as Hs1 by (by apply set_kcp_SI).
  destruct (ret <? 0).
  - destruct (session_error_ok n _ ret Hs1) as (s' & E' & H & _). by exists s'.
  - eexists. split; [reflexivity|]. apply (spawn_SI n _ _ Hs1). set_solver.
Qed.

(** *** Tails *)
Lemma drop_close k t rest : t :: rest = drop k close_tail -> rest = drop (S k) close_tail /\ close_tail !! k = Some t.
Proof.
  intros E. split; [by rewrite <- (Nat.add_1_r k), <- drop_drop, <- E|]. rewrite <- (Nat.add_0_r k), <- lookup_drop, <- E. done.
Qed.

(** What a call does to the flags that [Close] is about. *)
Definition tail_flags (t : tail) (s : KcpSession) : KcpSession :=
  match t with OnSessionClose => set_erased s | Raise B_close => set_flag B_close true s | _ => s end.

Lemma tail_flags_ok n s t : SI n s -> SI n (tail_flags t s) /\ tails (tail_flags t s) = tails s /\
  (erased s = true \/ t = OnSessionClose -> erased (tail_flags t s) = true) /\
  (flags s B_close = true \/ t = Raise B_close -> flags (tail_flags t s) B_close = true).
Proof.
  intros Hs. destruct t as [| |[]| | |]; cbn [tail_flags]; try (split_and!; [done|done|by intros [?|?]|by intros [?|?]]).
  - split_and!; [|by fields s|by fields s|fields s; by intros [?|?]]. fields s. destruct Hs. split; cbn in *; try done.
    + intros t' Ha Hb; destruct (si_tails0 t' Ha Hb) as (k & ? & ? & ?); by exists k.
    + intros Hf. by destruct (si_once0 Hf).
  - split_and!; [by apply raise_SI|by fields s|fields s; by intros [?|?]|by fields s].
Qed.

(** A tail one call further. *)
Lemma pop_SI n s i t rest : SI n s -> tails s !! i = Some (t :: rest) -> SI n (set_tails (<[i := rest]> (tails s)) (tail_flags t s)).
Proof.
  intros Hs Hi. destruct (tail_flags_ok n s t Hs) as (Hs' & Et & Me & Mf).
  assert (forall x, x ∈ <[i := rest]> (tails s) -> EndOnce ∈ x -> exists k, x = drop k close_tail /\
    ((2 <= k)%nat -> erased (tail_flags t s) = true) /\ ((3 <= k)%nat -> flags (tail_flags t s) B_close = true)) as Ht.
  { intros x Hx He. apply list_elem_of_lookup in Hx as [j Hj]. destruct (decide (i = j)) as [<-|Hne].
    - rewrite list_lookup_insert_eq in Hj by (by apply lookup_lt_Some in Hi). injection Hj as <-.
      destruct (si_tails _ _ Hs (t :: rest)) as (k & Ek & Ha & Hb); [by apply list_elem_of_lookup_2 in Hi|by right|].
      destruct (drop_close k t rest Ek) as [Er Ec]. exists (S k). split; [done|]. split; intros Hk.
      + apply Me. destruct (decide (k = 1)%nat) as [->|]; [right; by injection Ec|left; apply Ha; lia].
      + apply Mf. destruct (decide (k = 2)%nat) as [->|]; [right; by injection Ec|left; apply Hb; lia].
    - rewrite list_lookup_insert_ne in Hj by done. apply (si_tails _ _ Hs'); [|done]. rewrite Et. by apply list_elem_of_lookup_2 in Hj. }
  revert Hs' Ht. clear. generalize (tail_flags t s) (<[i := rest]> (tails s)). intros s' l Hs' Ht. fields s'. by destruct Hs'.
Qed.

Lemma session_tail_ok n s i now err t rest : SI n s -> tails s !! i = Some (t :: rest) -> (t = Flush -> kcp_free s = true) ->
  exists s', (modify (set_tails (<[i := rest]> (tails s)));; run_tail now err t) s = (Ok tt, s') /\ SI n s'.
Proof.
  intros Hs Hi Hf. rewrite (bind_ok (modify _) _ s tt _ eq_refl). pose proof (pop_SI n s i t rest Hs Hi) as Hpop.
  destruct t as [| |x|b v|[]|]; cbn [run_tail tail_flags] in *; try set (s1 := set_tails _ s) in *.
  - assert (kcp_free s1 = true) as Hf1 by (specialize (Hf eq_refl); by fields s).
    destruct (issue_ok (ikcp_update now) n s1 err) as (s2 & E & H2 & Hh & _); [by apply I_update, si_kcp|done|done|].
    assert (kcp_free s2 = true) as Hf2 by (unfold kcp_free in *; by rewrite Hh).
    destruct (issue_ok ikcp_flush n s2 err) as (s3 & E3 & H3 & _); [by apply I_flush, si_kcp|done|done|]. exists s3. split; [|done].
    rewrite <- E3. apply bind_inv in E as (ds & sx & Ea & Eb). by rewrite (bind_ok _ _ _ _ _ Ea), (bind_ok _ _ _ _ _ Eb).
  - eexists. split; [reflexivity|]. by fields s.
  - eexists. split; [reflexivity|]. destruct x; [by fields s|by apply raise_SI..].
  - eexists. split; [reflexivity|]. by apply set_code_SI.
  - rewrite (bind_ok get _ s1 s1 s1 eq_refl). destruct (handler s1) eqn:Eh; try by exists s1.
    eexists. split; [reflexivity|]. apply hgoto_SI; rewrite ?Eh; done.
  - rewrite (bind_ok get _ s1 s1 s1 eq_refl). destruct (sender s1) eqn:Eh; try by exists s1.
    eexists. split; [reflexivity|]. apply sgoto_SI; rewrite ?Eh; try done. by intros [?|?].
  - eexists. split; [reflexivity|].
    destruct (si_tails _ _ Hs (EndOnce :: rest)) as (k & Ek & Ha & Hb); [by apply list_elem_of_lookup_2 in Hi|by left|].
    assert (k = 5)%nat as -> by (destruct (drop_close k _ rest Ek) as [_ Ec]; do 6 (destruct k as [|k]; [done|]); done).
    clear Ek. fields s. destruct Hpop. split; cbn in *; try done. intros _. split; [apply Hb|apply Ha]; lia.
Qed.

(** *** The fibers *)
Lemma clear_timeout_SI n s : SI n s -> match handler s with HRet _ => true | _ => false end = true -> SI n (set_flag B_read_timeout false s).
Proof. intros Hs Hh. fields s. cbn in Hh. destruct hd; try done. by destruct Hs. Qed.

Lemma read_recv_ok n s : SI n s -> handler s = HRecv -> exists s', read_recv s = (Ok tt, s') /\ SI n s'.
Proof.
  intros Hs Hh. pose proof (si_ready _ _ Hs) as Hr. rewrite Hh in Hr. cbn in Hr. unfold message_there in Hr. apply Z.ltb_lt in Hr.
  destruct (I_recv n (_kcp_cb s) (si_kcp _ _ Hs) Hr) as (ret & buf & k & E & Hk). unfold read_recv. change (1024 + 512) with 1536. rewrite (bind_ok _ _ _ _ _ (on_kcp_ok _ _ _ _ _ E)).
  destruct Hk as [[-> ->]|(Hret & Hz & Hi)].
  - assert (set_kcp (note_recv 1536 (-3, buf) (back (_kcp_cb s) (kcp (_kcp_cb s)))) s = s) as -> by (fields s; by destruct p). cbv beta iota. rewrite Z.eqb_refl.
    destruct (session_error_ok n s (-3) Hs) as (s1 & E1 & H1 & Hh1 & _). rewrite (bind_ok _ _ _ _ _ E1). eexists. split; [reflexivity|].
    apply hgoto_SI; rewrite ?Hh1, ?Hh; done.
  - cbv beta iota. rewrite (proj2 (Z.eqb_neq _ _)) by lia. rewrite (proj2 (Z.leb_le _ _)) by lia. eexists. split; [reflexivity|].
    unfold note_recv in *. cbn [fst snd andb Z.leb Z.compare] in *. rewrite (proj2 (Z.leb_le _ _)) in * by lia. cbn [andb kcp sent got wire] in *.
    fields s. cbn in Hh. subst hd. destruct Hs. split; cbn in *; linked.
    destruct si_got0 as (pre & post & Eg & F & U). specialize (U [] eq_refl). subst post. rewrite app_nil_r in Eg.
    exists pre, [buf]. split_and!; [by rewrite Eg|done|]. by intros l [= <-].
Qed.

Lemma read_parse_ok n s ret buf : SI n s -> handler s = HParse ret buf ->
  (exists s', read_parse ret buf s = (Ok tt, s') /\ SI n s') \/ exists u, read_parse ret buf s = (Undef u, s) /\ fault s.
Proof.
  intros Hs Hh. pose proof (si_ready _ _ Hs) as Hr. rewrite Hh in Hr. cbn in Hr. destruct Hr as [Hr Hz]. unfold fault. rewrite Hh.
  unfold read_parse. change (1024 + 512) with 1536. destruct (Z.leb_spec 1536 ret) as [H|H]; [right; eexists; split; [reflexivity|right; lia]|].
  rewrite (bind_ok (mret tt) _ s tt s eq_refl). destruct (ParseFromBuffer_cases buf s) as [(ok & m & E & Et & Hb)|[E Hl]].
  2: { right. exists Uninit. rewrite (bind_undef _ _ _ _ _ E). split; [done|left; lia]. }
  left. rewrite (bind_ok _ _ _ _ _ E). destruct ok; cbv beta iota.
  - eexists. split; [reflexivity|]. fields s. cbn in Hh. subst hd. destruct Hs. split; cbn in *; linked.
    + destruct si_got0 as (pre & post & Eg & F & U). specialize (U _ eq_refl). subst post. exists (pre ++ [buf]), [].
      split_and!; [by rewrite app_nil_r|by apply Forall2_app; [|constructor]|]. by intros l [= <-].
    + split; [apply elem_of_app; right; by left|lia].
  - destruct (session_error_ok n s ret Hs) as (s1 & E1 & H1 & Hh1 & _). rewrite (bind_ok _ _ _ _ _ E1). eexists. split; [reflexivity|].
    apply hgoto_SI; rewrite ?Hh1, ?Hh; done.
Qed.

Lemma handle_msg_ok n s m : SI n s -> handler s = HMsg m ->
  (exists s', handle_msg echo m s = (Ok tt, s') /\ SI n s') \/ exists u, handle_msg echo m s = (Undef u, s) /\ fault s.
Proof.
  intros Hs Hh. pose proof (si_ready _ _ Hs) as Hr. rewrite Hh in Hr. cbn in Hr. destruct Hr as [_ Hr]. unfold fault. rewrite Hh. unfold handle_msg, GetMsgBodyAsPB.
  destruct (Z.eqb_spec (_id m) MI_TEST) as [Hi|Hi].
  - case_bool_decide as Hb; [right; by eexists|]. left. destruct (echo_ok _ Hr) as [He1 He2].
    destruct (SendMessage_ok n s (Some (SetMsgBodyAsPB (echo (_body m)) (SetMsgId MI_TEST KcpMessage_new)))) as (s1 & E1 & H1 & Hh1 & _);
      [done|by apply SetMsgBodyAsPB_ok|]. rewrite (bind_ok _ _ _ _ _ E1). eexists. split; [reflexivity|]. apply hgoto_SI; rewrite ?Hh1, ?Hh; done.
  - left. rewrite (bind_ok (mret tt) _ s tt s eq_refl). eexists. split; [reflexivity|]. apply hgoto_SI; rewrite ?Hh; done.
Qed.

Lemma handleClient_ok n s : SI n s -> enabled AHandler s = true ->
  (exists s', handleClient read_timeout_ms echo s = (Ok tt, s') /\ SI n s') \/ exists u, handleClient read_timeout_ms echo s = (Undef u, s) /\ fault s.
Proof.
  intros Hs He. pose proof (si_ready _ _ Hs) as Hr. unfold handleClient. rewrite (bind_ok get _ s s s eq_refl). cbn [enabled] in He.
  destruct (handler s) as [| | | | | | | | |ret buf|m|e| | | | |] eqn:Eh; cbn [ready] in Hr; try discriminate He; try (left; eexists; split; [reflexivity|]; by apply hgoto_SI; rewrite ?Eh).
  - left. eexists. split; [reflexivity|]. fields s. cbn in Eh. subst hd. destruct Hs. cbn in *. pose proof (proj1 si_start0 eq_refl) as ->. split; try done. by intros [?|[?|?]].
  - left. destruct (0 <? read_timeout_ms).
    + eexists. split; [reflexivity|]. assert (handler (set_armed true s) = HCall) as Eh' by (by fields s). apply hgoto_SI; rewrite ?Eh'; try done. by apply set_armed_SI.
    + eexists. split; [reflexivity|]. by apply hgoto_SI; rewrite ?Eh.
  - left. destruct (no_message s) eqn:En; (eexists; split; [reflexivity|]); apply hgoto_SI; rewrite ?Eh; try done. cbn [ready].
    unfold no_message, message_there in *. rewrite Z.leb_antisym in En. destruct (0 <? _); [done|]. cbn in *. destruct (flags s B_close); [done|]. destruct (flags s B_read_error); [done|]. by destruct (flags s B_read_timeout).
  - left. destruct (flags s B_read_timeout) eqn:Ef.
    + eexists. split; [reflexivity|].
      assert (SI n (set_flag B_read_timeout false (set_handler (HRet READ_TIMEOUT) s))) as H; [apply clear_timeout_SI; [apply hgoto_SI; rewrite ?Eh; done|by fields s]|by fields s].
    + eexists. split; [reflexivity|]. assert (handler (set_armed false s) = HTimeout) as Eh' by (by fields s). apply hgoto_SI; rewrite ?Eh'; try done; [by apply set_armed_SI|].
      rewrite orb_false_r in Hr. by fields s.
  - left. destruct (flags s B_close) eqn:Ef; (eexists; split; [reflexivity|]); apply hgoto_SI; rewrite ?Eh; try done. cbn [ready]. by rewrite orb_false_r in Hr.
  - left. destruct (flags s B_read_error) eqn:Ef; (eexists; split; [reflexivity|]); apply hgoto_SI; rewrite ?Eh; try done. cbn [ready]. by rewrite orb_false_r in Hr.
  - left. by apply read_recv_ok.
  - by apply read_parse_ok.
  - by apply handle_msg_ok.
  - left. case_bool_decide.
    + destruct (SendMessage_ok n s None) as (s1 & E1 & H1 & Hh1 & _); [done..|]. unfold ForceClose. rewrite (bind_ok _ _ _ _ _ E1). eexists. split; [reflexivity|]. apply hgoto_SI; rewrite ?Hh1, ?Eh; done.
    + eexists. split; [reflexivity|]. by apply hgoto_SI; rewrite ?Eh.
  - left. destruct (SendMessage_ok n s None) as (s1 & E1 & H1 & Hh1 & _); [done..|]. unfold ForceClose. rewrite (bind_ok _ _ _ _ _ E1). eexists. split; [reflexivity|]. apply hgoto_SI; rewrite ?Hh1, ?Eh; done.
  - left. eexists. split; [reflexivity|]. fields s. cbn in Eh. subst hd. destruct Hs. split; cbn in *; linked; lia.
  - left. destruct (session_close_ok n s Hs) as (s1 & E1 & H1 & Hh1 & _). rewrite (bind_ok _ _ _ _ _ E1). eexists. split; [reflexivity|]. apply hgoto_SI; rewrite ?Hh1, ?Eh; done.
  - left. apply bool_decide_eq_true in He. eexists. split; [reflexivity|]. fields s. cbn in Eh, He. subst hd c. destruct Hs. split; cbn in *; linked.
Qed.

(** A message that is sent, or not. *)
Lemma write_message_ok n s m tmp : SI n s -> sender s = SSend (Some m :: tmp) -> kcp_free s = true -> (n < N)%nat ->
  exists s', (ok ← write m; if ok : bool then sgoto (SSend tmp) else sgoto SClose) s = (Ok tt, s') /\ SI (S n) s'.
Proof.
  intros Hs Hw Hf Hn. pose proof (si_sent _ _ Hs) as (ws & rest & Esent & Eacc & Hrest). rewrite Hw in Hrest. specialize (Hrest _ eq_refl).
  assert (msg_ok m) as Hm.
  { pose proof (si_msgs _ _ Hs) as Hall. rewrite Eacc, Hrest in Hall. apply Forall_app in Hall as [_ Hall]. cbn in Hall. by apply Forall_inv in Hall. }
  assert (forall s1, SI (S n) s1 -> sender s1 = SSend (Some m :: tmp) -> SI (S n) (set_sender SClose s1)) as Hstop.
  { intros s1 H1 Hs1. apply sgoto_SI; rewrite ?Hs1; try done. by intros [?|?]. }
  pose proof (SI_more _ _ Hs) as HsS. unfold write.
  destruct (4096 <=? zlen (packet m)) eqn:El.
  { eexists. split; [|exact (Hstop s HsS Hw)]. unfold mbind, M_bind. rewrite (SerializeToBuffer_ok 4096 m s Hm), El. done. }
  destruct (I_send n (_kcp_cb s) (packet m) (si_kcp _ _ Hs) Hn (packet_bytes m Hm) ltac:(lia)) as (code & k & E & Hi & Hc).
  destruct (Z.ltb_spec code 0) as [Hneg|Hz].
  - assert (SI (S n) (set_kcp (note_send (packet m) code (back (_kcp_cb s) k)) s)) as H1.
    { apply set_kcp_SI; try done. unfold note_send. cbn. by rewrite (proj2 (Z.eqb_neq _ _)) by lia. }
    destruct (notifyWriteError_ok _ _ code H1) as (s2 & E2 & H2 & _ & Hs2 & _).
    eexists. split; [|apply (Hstop s2 H2); rewrite Hs2; by fields s].
    unfold mbind at 1, M_bind at 1. rewrite (bind_ok _ _ _ _ _ (SerializeToBuffer_ok 4096 m s Hm)), El. rewrite (bind_ok _ _ _ _ _ (on_kcp_ok _ _ _ _ _ E)).
    rewrite (proj2 (Z.ltb_lt _ _)) by lia. rewrite (bind_ok _ _ _ _ _ E2). done.
  - assert (code = 0) as -> by lia. eexists. split.
    + unfold mbind at 1, M_bind at 1. rewrite (bind_ok _ _ _ _ _ (SerializeToBuffer_ok 4096 m s Hm)), El. rewrite (bind_ok _ _ _ _ _ (on_kcp_ok _ _ _ _ _ E)).
      cbn [Z.ltb Z.compare]. reflexivity.
    + fields s. cbn in Hw. subst n'. unfold note_send in *. unfold kcp_free in Hf. cbn in *. destruct HsS. split; cbn in *; linked.
      * exists (ws ++ [m]), (tmp ++ q). split_and!; [by rewrite Esent, map_app|by rewrite Eacc, Hrest, map_app, <- app_assoc|]. by intros l [= <-].
      * by apply (ready_free (message_there (mkSession p f c r w rc wc q sm ar er ts hd (SSend (Some m :: tmp)) ac re))).
Qed.

Lemma dopacketOutput_ok n s : SI n s -> enabled ASender s = true -> (n < N)%nat -> exists s', dopacketOutput s = (Ok tt, s') /\ SI (S n) s'.
Proof.
  intros Hs He Hn. unfold dopacketOutput. rewrite (bind_ok get _ s s s eq_refl). cbn [enabled] in He. pose proof (SI_more _ _ Hs) as HsS.
  destruct (sender s) as [| | | | |[|[m|] tmp]| | | | |] eqn:Ew; try discriminate He;
    try (eexists; split; [reflexivity|]; apply sgoto_SI; rewrite ?Ew; done || by intros [?|?]).
  - eexists. split; [reflexivity|]. fields s. cbn in Ew. subst n'. destruct HsS. split; cbn in *; linked; lia.
  - case_match; (eexists; split; [reflexivity|]).
    + apply sgoto_SI; rewrite ?Ew; try done. by intros [?|?].
    + fields s. cbn in Ew. subst n'. destruct HsS. split; cbn in *; linked. destruct si_sent0 as (ws & rest & E & F & U). exists ws, rest. split_and!; [done..|].
      intros l [= <-]. rewrite (U [] eq_refl). by rewrite app_nil_r.
  - by apply (write_message_ok n s m tmp).
  - case_match; (eexists; split; [reflexivity|]); apply sgoto_SI; rewrite ?Ew; try done; by intros [?|?].
  - destruct (session_close_ok _ _ HsS) as (s1 & E1 & H1 & _ & Hs1). rewrite (bind_ok _ _ _ _ _ E1). eexists. split; [reflexivity|]. apply sgoto_SI; rewrite ?Hs1, ?Ew; try done. by intros [?|?].
  - apply bool_decide_eq_true in He. eexists. split; [reflexivity|]. by apply sgoto_SI; rewrite ?Ew.
  - eexists. split; [reflexivity|]. pose proof (si_end _ _ HsS (or_intror (or_introl Ew))). fields s. cbn in Ew. subst n'. destruct HsS. split; cbn in *; linked; lia.
Qed.

(** *** Every event *)
Definition legal_event (a : event) : Prop := match a with APacket d => G d | ASend m => opt_ok m | _ => True end.

Lemma session_act_ok n s a : SI n s -> (n < N)%nat -> legal_event a -> enabled a s = true ->
  (exists s', act read_timeout_ms echo a s = (Ok tt, s') /\ SI (S n) s') \/ exists u, act read_timeout_ms echo a s = (Undef u, s) /\ fault s.
Proof.
  intros Hs Hn Hl He. destruct a as [| |i now err|d|now err| |code| |m]; cbn [act legal_event] in *.
  - destruct (handleClient_ok n s Hs He) as [(s' & E & H)|H]; [left; exists s'; split; [done|by apply SI_more]|by right].
  - left. by apply (dopacketOutput_ok n).
  - left. cbn [enabled] in He. rewrite (bind_ok get _ s s s eq_refl). destruct (tails s !! i) as [[|t rest]|] eqn:Ei; [done| |done].
    destruct (session_tail_ok n s i now err t rest Hs Ei) as (s' & E & H); [by intros ->|]. exists s'. split; [done|by apply SI_more].
  - left. destruct (session_input_ok n s d Hs Hl He) as (s' & E & H). exists s'. split; [done|by apply SI_more].
  - left. destruct (issue_ok (ikcp_update now) n s err) as (s' & E & H & _); [by apply I_update, si_kcp|done|done|]. exists s'. split; [done|by apply SI_more].
  - left. eexists. split; [reflexivity|]. apply SI_more. apply (spawn_SI n (set_armed false s)); [by apply set_armed_SI|set_solver].
  - left. destruct (session_error_ok n s code Hs) as (s' & E & H & _). exists s'. split; [done|by apply SI_more].
  - left. destruct (session_close_ok n s Hs) as (s' & E & H & _). exists s'. split; [done|by apply SI_more].
  - left. destruct (SendMessage_ok n s m Hs Hl) as (s' & E & H & _). exists s'. split; [done|by apply SI_more].
Qed.

Lemma try_act_ok n s a : SI n s -> (n < N)%nat -> legal_event a ->
  (exists s', try_act read_timeout_ms echo a s = (Ok tt, s') /\ SI (S n) s') \/ exists u, try_act read_timeout_ms echo a s = (Undef u, s) /\ fault s.
Proof.
  intros Hs Hn Hl. unfold try_act. rewrite (bind_ok get _ s s s eq_refl). destruct (enabled a s) eqn:He; [by apply session_act_ok|].
  left. exists s. split; [done|by apply SI_more].
Qed.
End invariant.
