(* ===== verification/KcpNet.v ===== *)
(** A kcp session of the server against whatever arrives, and against a client
    that uses the same protocol over a network that loses, duplicates and reorders
    datagrams. *)
From Stdlib Require Import List.
From stdpp Require Import functions sets.
From S2P Require Import Prelude Bytes KcpMessage Ikcp IkcpRcv IkcpSnd IkcpFlush IkcpSafe IkcpNet KcpSession.

(** ** Any datagrams *)
Definition datagram (d : list Z) : Prop := Forall is_byte d /\ zlen d < 2 ^ 16.

(** A body that is not longer than a message answers with one that has a length. *)
Definition echo_law (echo : list Z -> list Z) : Prop := forall b, zlen b < 1536 -> zlen (echo b) < 2 ^ 16 /\ Forall is_byte (echo b).

(** What a read of a waiting message gives. *)
Lemma read_waiting k : kcp_ok k -> 0 < ikcp_peeksize (rx k) -> exists ret buf k', ikcp_recv 1536 k = (Ok (ret, buf), k') /\ kcp_ok k' /\
  (ret = -3 /\ k' = k \/ 0 < ret <= 1536 /\ ret = zlen buf).
Proof.
  intros Hk Hp. destruct (recv_keeps 1536 k Hk ltac:(done)) as ([ret buf] & k' & E & Hk' & _).
  destruct (ikcp_recv_ok 1536 k (held_small _ Hk) ltac:(done)) as (code & buf' & k'' & E' & _ & _ & _ & _ & Hr).
  rewrite E in E'. injection E' as <- <- <-. exists ret, buf, k'. split_and!; [done|done|].
  destruct Hr as [(Hn & -> & [Hp'|Hm3])|(H0 & Hc & Hz & Ha & _)]; [lia|by left|right; lia].
Qed.

Lemma send_waiting k msg : kcp_ok k -> zlen msg < 4096 -> exists code k', ikcp_send msg k = (Ok code, k') /\ kcp_ok k' /\ code <= 0.
Proof.
  intros Hk Hl. destruct (send_keeps msg k Hk ltac:(lia)) as (code & k' & E & Hk' & _). exists code, k'. split_and!; [done|done|].
  pose proof (k_cfg _ Hk) as Hc. pose proof (ok_mtu _ Hc). pose proof (ok_mss _ Hc) as Hms. unfold IKCP_OVERHEAD in Hms.
  destruct (ikcp_send_ok msg k) as (c' & k'' & E' & _ & _ & _ & _ & _ & _ & _ & Hq); [lia|apply Hc|lia|]. rewrite E in E'. injection E' as <- <-.
  destruct Hq as [[-> _]|[-> _]]; lia.
Qed.

Lemma update_keeps now k : kcp_ok k -> exists ds k', ikcp_update now k = (Ok ds, k') /\ kcp_ok k'.
Proof. intros Hk. destruct (issue_keeps (CUpdate now) k Hk I) as (ds & k' & E & H & _). by exists ds, k'. Qed.

Section hostile.
Context (read_timeout_ms : Z) (echo : list Z -> list Z) (Hecho : echo_law echo).

Definition hostile (n : nat) (p : peer) : Prop := kcp_ok (kcp p).

Lemma hostile_act N n s a : SI hostile n s -> (n < N)%nat -> legal_event datagram a ->
  (exists s', try_act read_timeout_ms echo a s = (Ok tt, s') /\ SI hostile (S n) s') \/ exists u, try_act read_timeout_ms echo a s = (Undef u, s) /\ fault s.
Proof.
  apply try_act_ok with (G := datagram); unfold hostile; try done.
  - intros m p msg Hp _ _ Hl. destruct (send_waiting _ _ Hp Hl) as (code & k & E & Hk & Hc). by exists code, k.
  - intros m p Hp Hpk. destruct (read_waiting _ Hp Hpk) as (ret & buf & k & E & Hk & Hr). exists ret, buf, k. split; [done|].
    destruct Hr as [[-> ->]|[H1 H2]]; [by left|right; split; [done|split; [done|exact Hk]]].
  - intros m p d Hp [Hd1 Hd2]. destruct (input_keeps d _ Hp Hd1 Hd2) as (ret & k & E & Hk & _). by exists ret, k.
  - intros m p now Hp. destruct (update_keeps now _ Hp) as (ds & k & E & Hk). by exists ds, k.
  - intros m p Hp. destruct (flush_sizes _ Hp) as (ds & k & E & Hk & _). by exists ds, k.
Qed.

Lemma hostile_run l : Forall (legal_event datagram) l -> forall n s, SI hostile n s ->
  exists r s' n', session_run read_timeout_ms echo l s = (r, s') /\ SI hostile n' s' /\ (r = Ok tt \/ (exists u, r = Undef u) /\ fault s').
Proof.
  induction 1 as [|a l Ha Hl IH]; intros n s Hs; [exists (Ok tt), s, n; split_and!; [done|done|by left]|]. cbn [session_run].
  destruct (hostile_act (S n) n s a Hs ltac:(lia) Ha) as [(s1 & E & H1)|(u & E & Hf)].
  - rewrite (bind_ok _ _ _ _ _ E). by apply (IH (S n)).
  - rewrite (bind_undef _ _ _ _ _ E). exists (Undef u), s, n. split_and!; [done|done|]. right. split; [by eexists|done].
Qed.
End hostile.

Lemma session_start (I : nat -> peer -> Prop) convid o : I 0%nat (mkPeer (start_kcp convid o) [] [] []) -> SI I 0 (KcpSession_new convid o).
Proof.
  intros Hi. split; cbn; try done.
  - exists [], []. split_and!; [done|done|by intros l [= <-]].
  - exists [], []. split_and!; [done|constructor|by intros l [= <-]].
  - by intros t ?%not_elem_of_nil.
  - by intros [?|[?|?]].
Qed.


(** ** A client behind the network *)
Record net := mkNet { session : KcpSession; client : peer }.

Inductive move :=
  | Session (a : event)
  | Client (a : action)          (* a call of the client, or a datagram of the session for it *)
  | Deliver (i : nat).           (* the i-th datagram of the client for the session *)

Section net.
Context (read_timeout_ms : Z) (echo : list Z -> list Z).

Definition on_session {A} (m : M KcpSession A) : M net A := fun n =>
  let '(r, s) := m (session n) in (r, mkNet s (client n)).

(** The network between the session's control block and the client's. *)
Definition on_client (a : action) : M net unit := fun n =>
  let '(r, w) := perform false a (mkWorld (_kcp_cb (session n)) (client n)) in (r, mkNet (session n) (peer2 w)).

Definition net_move (v : move) : M net unit :=
  match v with
  | Session a => on_session (try_act read_timeout_ms echo a)
  | Client a => on_client a
  | Deliver i =>
    n ← get;
    match wire (client n) !! i with
    | Some d => on_session (try_act read_timeout_ms echo (APacket d))
    | None => mret tt
    end
  end.

Fixpoint net_run (l : list move) : M net unit :=
  match l with [] => mret tt | v :: l => net_move v;; net_run l end.

(** Datagrams come from the client only. *)
Definition legal_move (v : move) : Prop :=
  match v with
  | Session (APacket _) => False
  | Session a => legal_event datagram a
  | Client a => legal_action a
  | Deliver _ => True
  end.
End net.

Definition net_start (convid : Z) (o1 o2 : options) : net :=
  mkNet (KcpSession_new convid o1) (mkPeer (start_kcp convid o2) [] [] []).

(** ** What the network leaves of the two ends *)
Lemma at_peer_inv {A} s (m : M IKCPCB A) note w w' : at_peer s m note w = (Ok tt, w') ->
  exists a k, m (kcp (the s w)) = (Ok a, k) /\ w' = put_peer s (note a (mkPeer k (sent (the s w)) (got (the s w)) (wire (the s w)))) w.
Proof. unfold at_peer. destruct (m (kcp (the s w))) as [[a|e| |u|] k]; intros [= <-]. by exists a, k. Qed.

Section joined.
Context (cv : Z) (c : peer).

(** The world of the session's end and the client, with a bound on the fragments. *)
Definition joined (n : nat) (p : peer) : Prop :=
  exists parts, world_ok cv parts (mkWorld p c) /\ forall s, zlen (concat (parts s)) <= IKCP_WND_RCV * Z.of_nat n.

Lemma joined_more n p : joined n p -> joined (S n) p.
Proof. intros (parts & Hw & Hb). exists parts. split; [done|]. intros s. specialize (Hb s). unfold IKCP_WND_RCV in *. lia. Qed.

Lemma joined_kcp n p : joined n p -> kcp_ok (kcp p).
Proof. intros (parts & Hw & _). apply (w_kcp _ _ _ Hw true). Qed.

Lemma joined_total n p : joined n p -> exists parts, world_ok cv parts (mkWorld p c) /\
  forall s, zlen (concat (parts s)) <= IKCP_WND_RCV * Z.of_nat n /\ zlen (concat (parts s)) < 2 ^ 30.
Proof. intros (parts & Hw & Hb). exists parts. split; [done|]. intros s. split; [done|]. apply (l_total _ _ _ _ _ _ (w_link _ _ _ Hw s)). Qed.

(** An action of either end, as the network sees it. *)
Lemma joined_perform n n' p s a : joined n p -> legal_action a -> sends s [(s, a)] = 0 \/ (n < Z.to_nat (2 ^ 22))%nat -> Z.of_nat n' = Z.of_nat n + sends s [(s, a)] ->
  exists w1 parts, perform s a (mkWorld p c) = (Ok tt, w1) /\ world_ok cv parts w1 /\ forall b, zlen (concat (parts b)) <= IKCP_WND_RCV * Z.of_nat n'.
Proof.
  intros (parts & Hw & Hb)%joined_total Ha Hn Hn'. assert (0 <= sends s [(s, a)] <= 1) as H1 by (unfold sends; cbn [List.filter]; case_match; cbn; lia).
  destruct (step_ok cv parts _ s a Hw Ha) as (w1 & ps & E & Hw1 & Hl); [specialize (Hb s); unfold IKCP_WND_RCV in *; lia|].
  exists w1, (now parts s ps). split_and!; [done|done|]. intros b. specialize (Hb b) as Hbb. specialize (Hb s). unfold now. case_bool_decide; subst; unfold IKCP_WND_RCV in *; lia.
Qed.

Lemma joined_step {A} n n' p a (m : M IKCPCB A) note : joined n p -> perform true a (mkWorld p c) = at_peer true m note (mkWorld p c) ->
  legal_action a -> sends true [(true, a)] = 0 \/ (n < Z.to_nat (2 ^ 22))%nat -> Z.of_nat n' = Z.of_nat n + sends true [(true, a)] ->
  exists x k, m (kcp p) = (Ok x, k) /\ joined n' (note x (mkPeer k (sent p) (got p) (wire p))).
Proof.
  intros Hj Ep Ha Hn Hn'. destruct (joined_perform n n' p true a Hj Ha Hn Hn') as (w1 & parts & E & Hw1 & Hb).
  rewrite Ep in E. destruct (at_peer_inv _ _ _ _ _ E) as (x & k & Ex & ->). cbn in Ex. exists x, k. split; [done|]. by exists parts.
Qed.

Section events.
Context (read_timeout_ms : Z) (echo : list Z -> list Z) (Hecho : echo_law echo).

Definition from_client (d : list Z) : Prop := d ∈ wire c.

Lemma joined_act n s a : SI joined n s -> (n < Z.to_nat (2 ^ 22))%nat -> legal_event from_client a ->
  (exists s', try_act read_timeout_ms echo a s = (Ok tt, s') /\ SI joined (S n) s') \/ exists u, try_act read_timeout_ms echo a s = (Undef u, s) /\ fault s.
Proof.
  apply try_act_ok with (G := from_client); [done|exact joined_more|..].
  - intros m p msg Hp Hm _ Hl. destruct (joined_step m (S m) p (Send msg) (ikcp_send msg) (note_send msg) Hp eq_refl) as (code & k & E & Hk); [cbn; lia|by right|unfold sends; cbn; lia|].
    destruct (send_waiting _ msg (joined_kcp _ _ Hp) Hl) as (code' & k' & E' & _ & Hc). rewrite E in E'. injection E' as <- <-. by exists code, k.
  - intros m p Hp Hpk. destruct (joined_step m m p (Recv 1536) (ikcp_recv 1536) (note_recv 1536) Hp eq_refl) as ([ret buf] & k & E & Hk); [done|by left|unfold sends; cbn; lia|].
    destruct (read_waiting _ (joined_kcp _ _ Hp) Hpk) as (ret' & buf' & k' & E' & _ & Hr). rewrite E in E'. injection E' as <- <- <-. exists ret, buf, k. split; [done|].
    destruct Hr as [[-> ->]|[H1 H2]]; [by left|right; split; [done|split; [done|exact Hk]]].
  - intros m p d Hp [i Hd]%list_elem_of_lookup. destruct (joined_step m m p (Arrive i) (ikcp_input d) (fun _ q => q) Hp) as (ret & k & E & Hk); [|done|by left|unfold sends; cbn; lia|by exists ret, k].
    cbn [perform]. rewrite (bind_ok get _ _ _ _ eq_refl). cbn [negb the peer2]. by rewrite Hd.
  - intros m p now Hp. by apply (joined_step m m p (Update now) (ikcp_update now) note_out Hp eq_refl); [|left|unfold sends; cbn; lia].
  - intros m p Hp. by apply (joined_step m m p IkcpNet.Flush ikcp_flush note_out Hp eq_refl); [|left|unfold sends; cbn; lia].
Qed.
End events.
End joined.

Lemma SI_change (I I' : nat -> peer -> Prop) n n' s : SI I n s -> I' n' (_kcp_cb s) -> SI I' n' s.
Proof. intros [] H. by split. Qed.

Lemma perform_other s a w w' : perform s a w = (Ok tt, w') -> the (negb s) w' = the (negb s) w.
Proof.
  assert (forall {A} (m : M IKCPCB A) note, at_peer s m note w = (Ok tt, w') -> the (negb s) w' = the (negb s) w) as H.
  { intros A m note (x & k & _ & ->)%at_peer_inv. rewrite the_put. by rewrite bool_decide_false by (by destruct s). }
  destruct a; cbn [perform]; try apply H. rewrite (bind_ok get _ w w w eq_refl). destruct (wire _ !! i); [apply H|]. by intros [= <-].
Qed.

Section moves.
Context (read_timeout_ms : Z) (echo : list Z -> list Z) (Hecho : echo_law echo) (cv : Z).

Definition NI (n : nat) (w : net) : Prop := SI (joined cv (client w)) n (session w).

Lemma session_move n w a : NI n w -> (n < Z.to_nat (2 ^ 22))%nat -> legal_event (from_client (client w)) a ->
  exists r w', on_session (try_act read_timeout_ms echo a) w = (r, w') /\ (r = Ok tt /\ NI (S n) w' \/ (exists u, r = Undef u) /\ fault (session w') /\ w' = w).
Proof.
  intros Hw Hn Hl. unfold on_session. destruct (joined_act cv (client w) read_timeout_ms echo Hecho n (session w) a Hw Hn Hl) as [(s' & E & H)|(u & E & H)]; rewrite E.
  - do 2 eexists. split; [done|]. left. by split.
  - do 2 eexists. split; [done|]. right. split; [by eexists|]. split; [done|]. by destruct w.
Qed.

Lemma client_move n w a : NI n w -> (n < Z.to_nat (2 ^ 22))%nat -> legal_action a -> exists w', on_client a w = (Ok tt, w') /\ NI (S n) w'.
Proof.
  intros Hw Hn Ha. assert (0 <= sends false [(false, a)] <= 1) as H1 by (unfold sends; cbn [List.filter]; case_match; cbn; lia).
  destruct (joined_perform cv (client w) n (n + Z.to_nat (sends false [(false, a)])) (_kcp_cb (session w)) false a (si_kcp _ _ _ Hw) Ha) as (w1 & parts & E & Hw1 & Hb); [by right|lia|].
  unfold on_client. rewrite E. eexists. split; [reflexivity|]. pose proof (perform_other _ _ _ _ E) as Ep. cbn in Ep. destruct w1 as [p1 p2]. cbn in Ep. subst p1.
  unfold NI. cbn [client session peer2]. apply (SI_change _ _ _ _ _ Hw). exists parts. split; [done|]. intros b. specialize (Hb b). unfold IKCP_WND_RCV in *. lia.
Qed.

Lemma net_run_ok l : Forall legal_move l -> forall n w, NI n w -> (n + length l <= Z.to_nat (2 ^ 22))%nat ->
  exists r w' n', net_run read_timeout_ms echo l w = (r, w') /\ NI n' w' /\ (r = Ok tt \/ (exists u, r = Undef u) /\ fault (session w')).
Proof.
  induction 1 as [|v l Hv Hl IH]; intros n w Hw Hn; [exists (Ok tt), w, n; split_and!; [done|done|by left]|]. cbn [net_run length] in *.
  assert (exists r w', net_move read_timeout_ms echo v w = (r, w') /\ (r = Ok tt /\ NI (S n) w' \/ (exists u, r = Undef u) /\ fault (session w') /\ w' = w)) as (r & w' & E & H).
  { destruct v as [a|a|i]; cbn [net_move legal_move] in *.
    - apply (session_move n); [done|lia|]. by destruct a.
    - destruct (client_move n w a Hw ltac:(lia) Hv) as (w' & E & H). exists (Ok tt), w'. split; [done|]. by left.
    - rewrite (bind_ok get _ w w w eq_refl). destruct (wire (client w) !! i) as [d|] eqn:Ed.
      + apply (session_move n); [done|lia|]. by apply list_elem_of_lookup_2 in Ed.
      + exists (Ok tt), w. split; [done|]. left. split; [done|]. by apply SI_more; [apply joined_more|]. }
  destruct H as [[-> H]|([u ->] & Hf & ->)].
  - rewrite (bind_ok _ _ _ _ _ E). apply (IH (S n)); [done|lia].
  - rewrite (bind_undef _ _ _ _ _ E). exists (Undef u), w, n. split_and!; [done|done|]. right. split; [by eexists|done].
Qed.
End moves.

(** A message that the server reads with undefined behaviour. *)
Definition bad_message (b : list Z) : Prop :=
  zlen b < 6 \/ zlen b = 1536 \/ exists m, parsed b m /\ _id m = MI_TEST /\ _body m = [].

(** What a faulty session has received. *)
Lemma fault_bad I n s : SI I n s -> fault s -> exists b, b ∈ got (_kcp_cb s) /\ bad_message b.
Proof.
  intros Hs Hf. destruct (si_got _ _ _ Hs) as (pre & post & Eg & F & U). pose proof (si_ready _ _ _ Hs) as Hr. unfold fault in Hf. rewrite Eg.
  destruct (handler s) as [| | | | | | | | |ret buf|m| | | | | |]; try done; cbn in *.
  - rewrite (U _ eq_refl). exists buf. split; [apply elem_of_app; right; by left|]. unfold bad_message. lia.
  - destruct Hr as [Hm _]. apply list_elem_of_lookup in Hm as [i Hi]. destruct (Forall2_lookup_r _ _ _ _ _ F Hi) as (b & Hb & Hp).
    exists b. split; [apply elem_of_app; left; by apply list_elem_of_lookup_2 in Hb|]. right. right. by exists m.
Qed.

(** A message that says the same after its way. *)
Definition plain_message (m : KcpMessage) : Prop := msg_ok m /\ MsgId_known (_id m) = true /\ 0 ∉ _body m.

Lemma parsed_plain m m' : plain_message m -> parsed (packet m) m' -> m' = m.
Proof.
  intros (Hm & Hi & Hn). unfold parsed. rewrite ParseFromBuffer_packet by done. rewrite Hi, cstr_id by done. intros [= <-]. by destruct m.
Qed.

Lemma parsed_plain_list ms : Forall plain_message ms -> forall bs rs, bs `prefix_of` map packet ms -> Forall2 parsed bs rs -> rs `prefix_of` ms.
Proof.
  induction 1 as [|m ms Hm _ IH]; intros bs rs Hp F.
  - apply prefix_nil_inv in Hp. subst. by inversion F.
  - destruct F as [|b r bs rs Hbr F]; [apply prefix_nil|]. cbn in Hp. pose proof (prefix_cons_inv_1 _ _ _ _ Hp) as ->. apply prefix_cons_inv_2 in Hp.
    apply (parsed_plain _ _ Hm) in Hbr as ->. apply prefix_cons. by apply (IH bs).
Qed.

(** C6: A session and a client of its protocol, joined by a network that loses,
    duplicates and reorders datagrams; both fibers of the session, the fibers of
    the listener, timers, other callers and the client interleave at will.  The
    session runs into undefined behaviour only if the client has sent a message it
    must not send.  [ReadMessage] returns what a prefix of the client's messages
    say, in order, and when these are well-formed messages without a NUL, exactly
    a prefix of them.  The client receives a prefix of the serialized messages
    [SendMessage] was given, in order and whole, and all that was written once
    nothing is in flight any more.  For fewer than 2^22 events. *)
Theorem session_conversation (read_timeout_ms : Z) (echo : list Z -> list Z) (convid : Z) (o1 o2 : options) (l : list move) :
  echo_law echo -> in_u 32 convid -> options_ok o1 -> options_ok o2 -> Forall legal_move l -> zlen l <= 2 ^ 22 ->
  exists r w, net_run read_timeout_ms echo l (net_start convid o1 o2) = (r, w) /\ let s := session w in let c := client w in
    (r = Ok tt \/ exists b, b ∈ sent c /\ bad_message b) /\
    (exists bs, bs `prefix_of` sent c /\ Forall2 parsed bs (received s)) /\
    (forall ms, sent c = map packet ms -> Forall plain_message ms -> received s `prefix_of` ms) /\
    (exists ms, map Some ms `prefix_of` accepted s /\ got c `prefix_of` map packet ms /\
       (snd_queue (tx (kcp (_kcp_cb s))) = [] -> snd_buf (tx (kcp (_kcp_cb s))) = [] -> rcv_queue (rx (kcp c)) = [] -> got c = map packet ms)).
Proof.
  intros He Hc H1 H2 Hl Hn. destruct (net_run_ok read_timeout_ms echo He convid l Hl 0 (net_start convid o1 o2)) as (r & w & n & E & Hw & Hr).
  { apply session_start. exists (fun _ => []). split; [by apply start_world|]. intros s. cbn. lia. }
  { lia. }
  exists r, w. split; [done|]. cbn zeta. pose proof (si_kcp _ _ _ Hw) as (parts & Hworld & _).
  pose proof (direction_ok _ _ _ true Hworld) as (D1 & _ & D2). pose proof (direction_ok _ _ _ false Hworld) as (D3 & _ & _). cbn in D1, D2, D3.
  assert (exists bs, bs `prefix_of` sent (client w) /\ Forall2 parsed bs (received (session w))) as Hgot.
  { destruct (si_got _ _ _ Hw) as (pre & post & Eg & F & _). exists pre. split; [|done]. etrans; [|exact D3]. rewrite Eg. by exists post. }
  split_and!.
  - destruct Hr as [->|[_ Hf]]; [by left|right]. destruct (fault_bad _ _ _ Hw Hf) as (b & Hb & Hbad). exists b. split; [|done]. destruct D3 as [k ->]. apply elem_of_app. by left.
  - done.
  - intros ms Es Hms. destruct Hgot as (bs & Hp & F). rewrite Es in Hp. by apply (parsed_plain_list _ Hms bs).
  - destruct (si_sent _ _ _ Hw) as (ws & rest & E1 & E2 & _). rewrite E1 in *. exists ws. split_and!; [rewrite E2; by exists rest|done|done].
Qed.

(** A TestMsg that is answered, over datagrams of which one is lost and one comes twice. *)
Definition demo_echo (b : list Z) : list Z := b ++ [95; 115].
Definition demo_message : KcpMessage := SetMsgBodyAsPB [104; 105] (SetMsgId MI_TEST KcpMessage_new).
Definition demo_moves : list move :=
  [Session AHandler; Session AHandler; Session AHandler; Session ASender; Session AHandler;   (* both wait *)
   Client (Send (packet demo_message)); Client (Update 100); Client (Update 400);             (* sent twice *)
   Deliver 1; Deliver 1; Session (ATail 0 0 None)] ++
  repeat (Session AHandler) 7 ++ repeat (Session ASender) 3 ++
  [Session (AUpdate 500 None); Client (Arrive 1); Client (Arrive 0); Client (Recv 1536)].

Lemma demo_echo_law : echo_law (fun b => map (fun x => x mod 256) (demo_echo b)).
Proof.
  intros b Hb. unfold demo_echo. rewrite length_map, length_app. cbn [length]. split; [lia|]. apply list.Forall_forall. intros x Hx.
  apply list_elem_of_In, in_map_iff in Hx as (y & <- & _). unfold is_byte. by apply Z.mod_pos_bound.
Qed.

Lemma demo_plain : plain_message demo_message.
Proof.
  split; [apply SetMsgBodyAsPB_ok; by_computation|]. split; [done|]. by_computation.
Qed.

Definition demo_server_echo (b : list Z) : list Z := map (fun x => x mod 256) (demo_echo b).

Lemma session_conversation_witness : exists w, net_run 1000 demo_server_echo demo_moves (net_start 9 demo_options demo_options) = (Ok tt, w) /\
  received (session w) = [demo_message] /\ got (client w) = [packet (mkKcpMessage 4 MI_TEST [104; 105; 95; 115])] /\ received (session w) `prefix_of` [demo_message].
Proof.
  destruct (session_conversation 1000 demo_server_echo 9 demo_options demo_options demo_moves) as (r & w & E & _ & _ & H & _).
  - apply demo_echo_law.
  - by_computation.
  - by_computation.
  - by_computation.
  - unfold demo_moves. cbn [repeat app]. repeat (apply list.Forall_cons; split); cbn; try done; lia.
  - by vm_compute.
  - assert (let n := net_run 1000 demo_server_echo demo_moves (net_start 9 demo_options demo_options) in n.1 = Ok tt /\ received (session n.2) = [demo_message] /\
      got (client n.2) = [packet (mkKcpMessage 4 MI_TEST [104; 105; 95; 115])] /\ sent (client n.2) = [packet demo_message]) as Hn by (vm_compute; repeat split; reflexivity).
    rewrite E in Hn. destruct Hn as (H0 & H1 & H2 & H3). cbn [fst snd] in *. subst r.
    exists w. split; [exact E|]. split; [exact H1|]. split; [exact H2|]. apply (H [demo_message]); [rewrite H3; reflexivity|]. apply list.Forall_singleton. exact demo_plain.
Defined.

(** A session told to close while its reader sleeps, and all of a short message that
    a stranger made up. *)
Definition demo_events : list event :=
  [AHandler; AHandler; AHandler; AHandler; ASender; ASender; ASender; AClose; APacket demo_hostile] ++
  repeat (ATail 0 100 None) 7 ++ repeat ASender 5 ++ repeat AHandler 12 ++ repeat ASender 2 ++ repeat AHandler 4.


(** ** What interleaving can do *)
(** Nothing of the session's own can happen. *)
Definition stuck (s : KcpSession) : bool :=
  negb (enabled AHandler s) && negb (enabled ASender s) && negb (armed s) && forallb (fun t => bool_decide (t = [])) (tails s).

(** [Close] raises its flag and signals when the reader has found the flag down and
    has not fallen asleep yet. *)
Definition late_reader : list event :=
  [AHandler; AHandler; AClose; ATail 0 100 None; ATail 0 100 None; AHandler] ++ repeat (ATail 0 100 None) 4 ++ [AHandler] ++ repeat ASender 9.

(** The timer expires when the reader has found its flag down and goes on to read a
    message; two messages are there. *)
Definition two_messages : list Z :=
  enc_all [mkSeg 9 81 0 7 0 0 0 0 0 0 0 (packet demo_message); mkSeg 9 81 0 7 0 1 0 0 0 0 0 (packet demo_message)].
Definition late_timer : list event :=
  [AHandler; AHandler; APacket two_messages; AHandler; ATimer; AHandler; ATail 1 0 None] ++ repeat AHandler 8.

(** The reader is through before the sender has started. *)
Definition late_sender : list event :=
  [AHandler; ASend (Some demo_message); AReadError 104] ++ repeat (ATail 1 0 None) 4 ++ repeat AHandler 9 ++
  [ATail 0 0 None; ATail 2 0 None] ++ repeat (ATail 3 0 None) 6 ++ [AHandler].

(** Three orders of events the two fibers do not survive.  A reader about to
    wait misses the signals of [Close] and sleeps on when the session is closed and
    its sender gone.  A timer that expires when its message is already there makes
    the next read end at once with READ_TIMEOUT, though a message waits.  And a
    reader that ends before the sender has started takes the permit of [_sem], so
    the sender waits for good and never sends what is queued. *)
Theorem session_races :
  (let s := (session_run 0 demo_server_echo late_reader (KcpSession_new 9 demo_settings)).2 in
     handler s = HAsleep /\ flags s B_close = true /\ erased s = true /\ sender s = SEnd /\ stuck s = true) /\
  (let s := (session_run 1000 demo_server_echo late_timer (KcpSession_new 9 demo_settings)).2 in
     handler s = HRet READ_TIMEOUT /\ message_there s = true /\ received s = [demo_message]) /\
  (let s := (session_run 0 demo_server_echo late_sender (KcpSession_new 9 demo_settings)).2 in
     handler s = HDone /\ sender s = SSem /\ _sem s = 0 /\ hd None (_sendque s) = Some demo_message /\ stuck s = true).
Proof. vm_compute. by split_and!. Qed.
