(* ===== verification/KcpListener.v ===== *)
(** kcp/kcp_listener.cpp and the accepting half of kcp/kcp_server.cpp: datagrams of
    many clients, sorted into sessions.

    Every socket has one fiber that receives and one that updates the sessions of
    the socket; one more fiber of the server accepts.  An action is a critical
    section of [_blacklist_mtx], [_session_mtx] or [_backlog_mtx], or the code
    between two of them.  A session is its number; what it does is KcpSession.v's
    matter, here it is given datagrams, updated, told to close, and takes itself
    out of the tables once.  Sockets are their descriptors, addresses the strings
    [toString] gives. *)
From Stdlib Require Import List.
From stdpp Require Import gmap sets.
From S2P Require Import Prelude Bytes Http KcpMessage Ikcp.

#[local] Abbreviation str := (list Z).

(** A session: how it was made, and what the listener has done with it. *)
Record conn := mkConn {
  c_convid : Z; c_fd : Z; c_addr : str;
  inbox : list (Z * str * list Z);     (* socket, sender and bytes *)
  updates : nat; told_close : bool; told_error : bool;
  stored : bool; gone : bool           (* put into the tables, has called onSessionClose *)
}.

(** Where [packetInput] is, for a datagram and those of the batch behind it. *)
Inductive input :=
  | PStart | PFind | PConnect | PReport | PBacklog | PLimit | PCreate | PStore (c : nat) | PPush (c : nat) | PNotify | PExist (c : nat).

Inductive receiver :=
  | RRecv
  | RInput (i : input) (data : list Z) (from : str) (rest : list (list Z * str))
  | REnd.

(** [doSendLoop], with the sessions of its snapshot. *)
Inductive updater := UTop | UEach (l : list nat) | UEnd.

(** [startAccept] and [Accept]; from [KWait] to [KPop] it holds [_backlog_mtx]. *)
Inductive acceptor := KTop | KCall | KLoop | KWait | KAsleep | KTimeout | KError | KClosed | KPop | KEnd.

Inductive rest := LTimeoutFlag | LErrorFlag | LErrorEach | LCloseFlag | LSignal.

Record KcpListener := mkListener {
  _sessions : gmap Z (gmap str nat);
  _accept_backlog : list nat;
  _blacklist : gset str;
  _convid : Z;
  _b_timeout : bool; _b_close : bool; _b_read_error : bool;
  _once_close : bool; _once_readError : bool;
  _isStop : bool; armed : bool;
  receivers : list (Z * receiver); updaters : list (Z * updater); accepting : acceptor;
  tails : list (list rest);
  (* all sessions made; the backlog's history; what [Accept] returned; what was sent back *)
  made : list conn; pushed : list nat; taken : list (option nat); answers : list (Z * str * list Z)
}.

Definition set_sessions v '(mkListener _ a b c t cl e oc oe st ar rs us k ts m p tk an) := mkListener v a b c t cl e oc oe st ar rs us k ts m p tk an.
Definition set_backlog v '(mkListener s _ b c t cl e oc oe st ar rs us k ts m p tk an) := mkListener s v b c t cl e oc oe st ar rs us k ts m p tk an.
Definition push_backlog v '(mkListener s a b c t cl e oc oe st ar rs us k ts m p tk an) := mkListener s (a ++ [v]) b c t cl e oc oe st ar rs us k ts m (p ++ [v]) tk an.
Definition set_blacklist v '(mkListener s a _ c t cl e oc oe st ar rs us k ts m p tk an) := mkListener s a v c t cl e oc oe st ar rs us k ts m p tk an.
Definition set_convid v '(mkListener s a b _ t cl e oc oe st ar rs us k ts m p tk an) := mkListener s a b v t cl e oc oe st ar rs us k ts m p tk an.
Definition set_timeout v '(mkListener s a b c _ cl e oc oe st ar rs us k ts m p tk an) := mkListener s a b c v cl e oc oe st ar rs us k ts m p tk an.
Definition set_close '(mkListener s a b c t _ e oc oe st ar rs us k ts m p tk an) := mkListener s a b c t true e oc oe st ar rs us k ts m p tk an.
Definition set_error '(mkListener s a b c t cl _ oc oe st ar rs us k ts m p tk an) := mkListener s a b c t cl true oc oe st ar rs us k ts m p tk an.
Definition set_once_close '(mkListener s a b c t cl e _ oe st ar rs us k ts m p tk an) := mkListener s a b c t cl e true oe st ar rs us k ts m p tk an.
Definition set_once_error '(mkListener s a b c t cl e oc _ st ar rs us k ts m p tk an) := mkListener s a b c t cl e oc true st ar rs us k ts m p tk an.
Definition set_stop v '(mkListener s a b c t cl e oc oe _ ar rs us k ts m p tk an) := mkListener s a b c t cl e oc oe v ar rs us k ts m p tk an.
Definition set_armed v '(mkListener s a b c t cl e oc oe st _ rs us k ts m p tk an) := mkListener s a b c t cl e oc oe st v rs us k ts m p tk an.
Definition set_receivers v '(mkListener s a b c t cl e oc oe st ar _ us k ts m p tk an) := mkListener s a b c t cl e oc oe st ar v us k ts m p tk an.
Definition set_updaters v '(mkListener s a b c t cl e oc oe st ar rs _ k ts m p tk an) := mkListener s a b c t cl e oc oe st ar rs v k ts m p tk an.
Definition set_accepting v '(mkListener s a b c t cl e oc oe st ar rs us _ ts m p tk an) := mkListener s a b c t cl e oc oe st ar rs us v ts m p tk an.
Definition set_tails v '(mkListener s a b c t cl e oc oe st ar rs us k _ m p tk an) := mkListener s a b c t cl e oc oe st ar rs us k v m p tk an.
Definition set_made v '(mkListener s a b c t cl e oc oe st ar rs us k ts _ p tk an) := mkListener s a b c t cl e oc oe st ar rs us k ts v p tk an.
Definition add_taken v '(mkListener s a b c t cl e oc oe st ar rs us k ts m p tk an) := mkListener s a b c t cl e oc oe st ar rs us k ts m p (tk ++ [v]) an.
Definition add_answer v '(mkListener s a b c t cl e oc oe st ar rs us k ts m p tk an) := mkListener s a b c t cl e oc oe st ar rs us k ts m p tk (an ++ [v]).

(** Sessions. *)
Definition conn_new (convid fd : Z) (addr : str) : conn := mkConn convid fd addr [] 0 false false false false.
Definition give fd from data '(mkConn i f a b u tc te st g) := mkConn i f a (b ++ [(fd, from, data)]) u tc te st g.
Definition tick '(mkConn i f a b u tc te st g) := mkConn i f a b (S u) tc te st g.
Definition tell_close '(mkConn i f a b u _ te st g) := mkConn i f a b u true te st g.
Definition tell_error '(mkConn i f a b u tc _ st g) := mkConn i f a b u tc true st g.
Definition mark_stored '(mkConn i f a b u tc te _ g) := mkConn i f a b u tc te true g.
Definition mark_gone '(mkConn i f a b u tc te st _) := mkConn i f a b u tc te st true.

Definition at_conn (c : nat) (f : conn -> conn) : M KcpListener unit := modify (fun l => set_made (alter f c (made l)) l).

(** KcpListener::KcpListener, [Listen] and KcpServer::Start up to the line that clears
    [_isStop]: a receiver and an updater for every socket;
    [convid]: the random start. *)
Definition KcpListener_new (convid : Z) (fds : list Z) : KcpListener :=
  mkListener ∅ [] ∅ convid false false false false false true false (map (fun fd => (fd, RRecv)) fds) (map (fun fd => (fd, UTop)) fds) KTop [] [] [] [] [].

Definition spawn (t : list rest) : M KcpListener unit := modify (fun l => set_tails (tails l ++ [t]) l).
Definition notifyTimeout : M KcpListener unit := spawn [LTimeoutFlag; LSignal].
Definition notifyAccept : M KcpListener unit := spawn [LSignal].
Definition notifyReadError : M KcpListener unit :=
  l ← get; if _once_readError l then mret tt else modify set_once_error;; spawn [LErrorFlag; LErrorEach; LSignal].
Definition Close : M KcpListener unit :=
  l ← get; if _once_close l then mret tt else modify set_once_close;; spawn [LCloseFlag; LSignal].

Definition isBlacklisted (addr : str) (l : KcpListener) : bool := bool_decide (addr ∈ _blacklist l).
Definition reportInvalidPacket (addr : str) : M KcpListener unit := modify (fun l => set_blacklist ({[addr]} ∪ _blacklist l) l).
Definition cleanupBlacklist : M KcpListener unit := modify (set_blacklist ∅).

(** [_sessions[fd]]: made if it is not there. *)
Definition of_fd (fd : Z) (l : KcpListener) : gmap str nat := default ∅ (_sessions l !! fd).
Definition touch (fd : Z) : M KcpListener unit := modify (fun l => set_sessions (<[fd := of_fd fd l]> (_sessions l)) l).

Definition count_sessions (l : KcpListener) : Z := Z.of_nat (sum_list_with (fun p => size p.2) (map_to_list (_sessions l))).

(** [onSessionClose], for the order in which the hash map lists the sockets. *)
Fixpoint onSessionClose (order : list Z) (remote_addr : str) : M KcpListener bool :=
  match order with
  | [] => mret false
  | fd :: order =>
    l ← get;
    if bool_decide (is_Some (of_fd fd l !! remote_addr)) then
      modify (fun l => set_sessions (<[fd := delete remote_addr (of_fd fd l)]> (_sessions l)) l);; mret true
    else onSessionClose order remote_addr
  end.

Section listener.
Context (_max_conn_num _backlog_size : Z) (accept_timeout_ms : Z).

Definition rgoto (i : nat) (fd : Z) (r : receiver) : M KcpListener unit := modify (fun l => set_receivers (<[i := (fd, r)]> (receivers l)) l).

(** The end of [packetInput]: the next datagram of the batch, or [RecvFromBatch]. *)
Definition next_packet (i : nat) (fd : Z) (rest : list (list Z * str)) : M KcpListener unit :=
  match rest with
  | [] => rgoto i fd RRecv
  | (data, from) :: rest => rgoto i fd (RInput PStart data from rest)
  end.

(** [packetInput] *)
Definition packetInput (i : nat) (fd : Z) (p : input) (data : list Z) (from : str) (rest : list (list Z * str)) : M KcpListener unit :=
  let goto p := rgoto i fd (RInput p data from rest) in
  l ← get;
  match p with
  | PStart => if isBlacklisted from l then next_packet i fd rest else goto PFind
  | PFind =>
    touch fd;;
    match of_fd fd l !! from with Some c => goto (PExist c) | None => goto PConnect end
  | PConnect =>
    ok ← is_connect_packet data;
    if ok : bool then goto PBacklog else goto PReport
  | PReport => reportInvalidPacket from;; next_packet i fd rest
  | PBacklog => if _backlog_size <=? zlen (_accept_backlog l) then next_packet i fd rest else goto PLimit
  | PLimit => if _max_conn_num <=? count_sessions l then next_packet i fd rest else goto PCreate
  | PCreate =>
    modify (set_convid (u32 (_convid l + 1)));;
    modify (add_answer (fd, from, making_connect_backpacket ++ dec (_convid l)));;
    modify (set_made (made l ++ [conn_new (_convid l) fd from]));;
    goto (PStore (length (made l)))
  | PStore c =>
    modify (set_sessions (<[fd := <[from := c]> (of_fd fd l)]> (_sessions l)));;
    at_conn c mark_stored;;
    goto (PPush c)
  | PPush c => modify (push_backlog c);; goto PNotify
  | PNotify => notifyAccept;; next_packet i fd rest
  | PExist c =>
    match made l !! c with
    | None => undef NullDeref
    | Some s =>
      (if (4 <=? zlen data) && (ikcp_getconv data =? c_convid s) then at_conn c (give fd from data) else at_conn c tell_close);;
      next_packet i fd rest
    end
  end.

(** [doRecvLoop] *)
Definition doRecvLoop (i : nat) (batch : list (list Z * str)) : M KcpListener unit :=
  l ← get;
  match receivers l !! i with
  | Some (fd, RRecv) => match batch with [] => notifyReadError;; rgoto i fd REnd | _ => next_packet i fd batch end
  | Some (fd, RInput p data from rest) => packetInput i fd p data from rest
  | _ => mret tt
  end.

(** [doSendLoop] *)
Definition doSendLoop (i : nat) : M KcpListener unit :=
  l ← get;
  let goto fd u := modify (fun l => set_updaters (<[i := (fd, u)]> (updaters l)) l) in
  match updaters l !! i with
  | Some (fd, UTop) =>
    if negb (_b_close l) && negb (_b_read_error l) then goto fd (UEach (map snd (map_to_list (of_fd fd l)))) else goto fd UEnd
  | Some (fd, UEach []) => goto fd UTop
  | Some (fd, UEach (c :: cs)) => at_conn c tick;; goto fd (UEach cs)
  | _ => mret tt
  end.

(** [startAccept] with [Accept] in it; a session it gets is handed to [handleClient]. *)
Definition kgoto (k : acceptor) : M KcpListener unit := modify (set_accepting k).

Definition startAccept : M KcpListener unit :=
  l ← get;
  match accepting l with
  | KTop => if _isStop l then Close;; kgoto KEnd else kgoto KCall
  | KCall => (if 0 <? accept_timeout_ms then modify (set_armed true) else mret tt);; kgoto KLoop
  | KLoop =>
    if bool_decide (_accept_backlog l = []) && negb (_b_timeout l) && negb (_b_read_error l) && negb (_b_close l)
    then kgoto KWait else kgoto KTimeout
  | KWait => kgoto KAsleep
  | KTimeout =>
    if _b_timeout l then modify (set_timeout false);; modify (add_taken None);; kgoto KTop
    else modify (set_armed false);; kgoto KError
  | KError => if _b_read_error l then modify (add_taken None);; kgoto KTop else kgoto KClosed
  | KClosed => if _b_close l then modify (add_taken None);; kgoto KTop else kgoto KPop
  | KPop =>
    match _accept_backlog l with
    | c :: q => modify (set_backlog q);; modify (add_taken (Some c));; kgoto KTop
    | [] => undef OutOfBounds
    end
  | KAsleep | KEnd => mret tt
  end.

Definition run_tail (t : rest) : M KcpListener unit :=
  match t with
  | LTimeoutFlag => modify (set_timeout true)
  | LErrorFlag => modify set_error
  | LErrorEach =>
    modify (fun l => set_made (foldr (alter tell_error) (made l) (map_to_list (_sessions l) ≫= fun p => map snd (map_to_list p.2))) l)
  | LCloseFlag => modify set_close
  | LSignal => l ← get; match accepting l with KAsleep => kgoto KLoop | _ => mret tt end
  end.

Inductive event :=
  | LRecv (i : nat) (batch : list (list Z * str))   (* what RecvFromBatch gives; none: an error *)
  | LUpdate (i : nat)
  | LAccept
  | LTail (i : nat)
  | LTimer
  | LCleanup
  | LSessionClose (c : nat) (order : list Z)
  | LStarted | LStop                                (* the end of KcpServer::Start; Stop *)
  | LClose.

Definition backlog_free (l : KcpListener) : bool :=
  match accepting l with KWait | KTimeout | KError | KClosed | KPop => false | _ => true end.

Definition enabled (a : event) (l : KcpListener) : bool :=
  match a with
  | LRecv i _ =>
    match receivers l !! i with
    | Some (_, RInput (PBacklog | PPush _) _ _ _) => backlog_free l
    | Some (_, REnd) | None => false
    | _ => true
    end
  | LUpdate i => match updaters l !! i with Some (_, UEnd) | None => false | _ => true end
  | LAccept => match accepting l with KAsleep | KEnd => false | _ => true end
  | LTail i => match tails l !! i with Some (_ :: _) => true | _ => false end
  | LTimer => armed l
  | LSessionClose c _ => match made l !! c with Some s => negb (gone s) | None => false end
  | LCleanup | LStarted | LStop | LClose => true
  end.

Definition act (a : event) : M KcpListener unit :=
  l ← get;
  match a with
  | LRecv i batch => doRecvLoop i batch
  | LUpdate i => doSendLoop i
  | LAccept => startAccept
  | LTail i =>
    match tails l !! i with
    | Some (t :: ts) => modify (set_tails (<[i := ts]> (tails l)));; run_tail t
    | _ => mret tt
    end
  | LTimer => modify (set_armed false);; notifyTimeout
  | LCleanup => cleanupBlacklist
  | LSessionClose c order =>
    match made l !! c with
    | Some s => onSessionClose order (c_addr s);; at_conn c mark_gone
    | None => mret tt
    end
  | LStarted => modify (set_stop false)
  | LStop => if _isStop l then mret tt else modify (set_stop true);; Close
  | LClose => Close
  end.

Definition try_act (a : event) : M KcpListener unit := l ← get; if enabled a l then act a else mret tt.

Fixpoint listen (l : list event) : M KcpListener unit := match l with [] => mret tt | a :: l => try_act a;; listen l end.
End listener.

(** ** Counting receivers *)
Definition at_input (P : input -> bool) (r : receiver) : nat := match r with RInput p _ _ _ => if P p then 1 else 0 | _ => 0 end.
Definition weight (P : input -> bool) (rs : list (Z * receiver)) : nat := sum_list_with (fun r => at_input P r.2) rs.

(** The session a receiver is about to store or push. *)
Definition holds (r : receiver) : list nat := match r with RInput (PStore c | PPush c) _ _ _ => [c] | _ => [] end.
Definition in_flight (rs : list (Z * receiver)) : list nat := concat (map (fun r => holds r.2) rs).

Lemma weight_insert P rs : forall i fd r r', rs !! i = Some (fd, r) -> (weight P (<[i := (fd, r')]> rs) + at_input P r = weight P rs + at_input P r')%nat.
Proof.
  unfold weight. induction rs as [|x rs IH]; intros [|i] fd r r' H; cbn in *; [done|done|injection H as ->; cbn; lia|].
  specialize (IH i fd r r' H). fold (@insert nat (Z * receiver) (list (Z * receiver)) _ i (fd, r') rs) in *. unfold insert in *. lia.
Qed.

Lemma weight_bound P rs : (weight P rs <= length rs)%nat.
Proof. unfold weight. induction rs as [|[fd [|p d f r|]] rs IH]; cbn; try lia. destruct (P p); lia. Qed.

Lemma in_flight_insert rs : forall i fd r r', rs !! i = Some (fd, r) ->
  exists l, in_flight rs ≡ₚ holds r ++ l /\ in_flight (<[i := (fd, r')]> rs) ≡ₚ holds r' ++ l.
Proof.
  unfold in_flight. induction rs as [|x rs IH]; intros [|i] fd r r' H; cbn in *; [done|done|injection H as ->; by eexists|].
  destruct (IH i fd r r' H) as (l & H1 & H2). exists (holds x.2 ++ l). rewrite H1, H2. split; solve_Permutation.
Qed.

Lemma fds_insert (rs : list (Z * receiver)) i fd r r' : rs !! i = Some (fd, r) -> map fst (<[i := (fd, r')]> rs) = map fst rs.
Proof. revert i. induction rs as [|x rs IH]; intros [|i] H; cbn in *; [done|done|by injection H as ->|by rewrite IH]. Qed.

(** ** Sums over the tables *)
Lemma sessions_insert (m : gmap Z (gmap str nat)) fd t : 
  (sum_list_with (fun p => size p.2) (map_to_list (<[fd := t]> m)) + size (default ∅ (m !! fd)) = sum_list_with (fun p => size p.2) (map_to_list m) + size t)%nat.
Proof.
  assert (forall (m' : gmap Z (gmap str nat)) t', m' !! fd = None -> sum_list_with (fun p => size p.2) (map_to_list (<[fd := t']> m')) = (size t' + sum_list_with (fun p => size p.2) (map_to_list m'))%nat) as H.
  { intros m' t' Hn. rewrite (map_to_list_insert _ _ _ Hn). done. }
  destruct (m !! fd) as [t0|] eqn:E; cbn [from_option]; unfold id.
  - pose proof (H (delete fd m) t (lookup_delete_eq _ _)) as H1. pose proof (H (delete fd m) t0 (lookup_delete_eq _ _)) as H2.
    rewrite insert_delete_eq in H1. rewrite (insert_delete_id m fd t0 E) in H2.  lia.
  - rewrite H by done.  rewrite map_size_empty. lia.
Qed.

(** ** The invariant *)
Definition creating (p : input) : bool := match p with PCreate | PStore _ => true | _ => false end.
Definition filling (p : input) : bool := match p with PLimit | PCreate | PStore _ | PPush _ => true | _ => false end.

Definition conn_le (s s' : conn) : Prop :=
  c_convid s' = c_convid s /\ c_fd s' = c_fd s /\ c_addr s' = c_addr s /\ (stored s = true -> stored s' = true).
Definition made_le (m m' : list conn) : Prop := forall c s, m !! c = Some s -> exists s', m' !! c = Some s' /\ conn_le s s'.

Definition conn_ok (convid : Z) (s : conn) : Prop :=
  c_convid s = convid /\
  forall fd from data, (fd, from, data) ∈ inbox s -> fd = c_fd s /\ from = c_addr s /\ 4 <= zlen data /\ ikcp_getconv data = c_convid s.

(** A session of this socket and address. *)
Definition owned (m : list conn) (c : nat) (fd : Z) (from : str) (st : bool) : Prop :=
  exists s, m !! c = Some s /\ c_fd s = fd /\ c_addr s = from /\ (st = true -> stored s = true).

Definition recv_ok (m : list conn) (fd : Z) (r : receiver) : Prop :=
  match r with
  | RInput (PStore c) _ from _ => owned m c fd from false
  | RInput (PPush c | PExist c) _ from _ => owned m c fd from true
  | _ => True
  end.

Lemma conn_le_refl s : conn_le s s.
Proof. by split. Qed.

Lemma made_le_refl m : made_le m m.
Proof. intros c s H. exists s. split; [done|apply conn_le_refl]. Qed.

Lemma made_le_alter m c f : (forall s, conn_le s (f s)) -> made_le m (alter f c m).
Proof.
  intros Hf c' s H. destruct (decide (c = c')) as [->|Hne].
  - exists (f s). split; [by rewrite list_lookup_alter_eq, H|done].
  - exists s. split; [by rewrite list_lookup_alter_ne|apply conn_le_refl].
Qed.

Lemma made_le_app m s : made_le m (m ++ [s]).
Proof. intros c x H. exists x. split; [by apply lookup_app_l_Some|apply conn_le_refl]. Qed.

Lemma made_le_trans m1 m2 m3 : made_le m1 m2 -> made_le m2 m3 -> made_le m1 m3.
Proof.
  intros H1 H2 c s H. destruct (H1 c s H) as (s' & H' & A1 & A2 & A3 & A4). destruct (H2 c s' H') as (s2 & H'' & B1 & B2 & B3 & B4).
  exists s2. split; [done|]. split_and!; try congruence. auto.
Qed.

Lemma owned_le m m' c fd from st : made_le m m' -> owned m c fd from st -> owned m' c fd from st.
Proof. intros H (s & Hs & H1 & H2 & H3). destruct (H c s Hs) as (s' & Hs' & _ & A2 & A3 & A4). exists s'. split_and!; [done|congruence|congruence|auto]. Qed.

Lemma recv_ok_le m m' fd r : made_le m m' -> recv_ok m fd r -> recv_ok m' fd r.
Proof. intros H. destruct r as [|[]|]; cbn; try done; by apply owned_le. Qed.

(** The comparison with the connect packet runs off its end. *)
Definition overlong (data : list Z) : Prop := (XTEN_KCP_CONNECT_PACKET ++ [0]) `prefix_of` data /\ zlen (XTEN_KCP_CONNECT_PACKET ++ [0]) < zlen data.
Definition fault (l : KcpListener) : Prop :=
  exists i fd data from rest, receivers l !! i = Some (fd, RInput PConnect data from rest) /\ overlong data.

Section invariant.
Context (_max_conn_num _backlog_size accept_timeout_ms conv0 : Z) (fds : list Z).

Definition unready (l : KcpListener) : bool :=
  match accepting l with
  | KTimeout => bool_decide (_accept_backlog l = []) && negb (_b_timeout l) && negb (_b_read_error l) && negb (_b_close l)
  | KError => bool_decide (_accept_backlog l = []) && negb (_b_read_error l) && negb (_b_close l)
  | KClosed => bool_decide (_accept_backlog l = []) && negb (_b_close l)
  | KPop => bool_decide (_accept_backlog l = [])
  | _ => false
  end.

Record base (l : KcpListener) : Prop := {
  b_convid : _convid l = u32 (conv0 + zlen (made l));
  b_made c s : made l !! c = Some s -> conn_ok (u32 (conv0 + Z.of_nat c)) s;
  b_table fd a c : of_fd fd l !! a = Some c -> owned (made l) c fd a true;
  b_pushed c : c ∈ pushed l -> exists s, made l !! c = Some s /\ stored s = true;
  b_taken : omap id (taken l) ++ _accept_backlog l = pushed l;
  b_ready : unready l = false
}.

Record recvs (l : KcpListener) : Prop := {
  r_fds : map fst (receivers l) = fds;
  r_ok i fd r : receivers l !! i = Some (fd, r) -> recv_ok (made l) fd r;
  r_once : NoDup (pushed l ++ in_flight (receivers l));
  r_limit : count_sessions l + Z.of_nat (weight creating (receivers l)) <= Z.max 0 (_max_conn_num - 1 + zlen fds);
  r_backlog : zlen (_accept_backlog l) + Z.of_nat (weight filling (receivers l)) <= Z.max 0 (_backlog_size - 1 + zlen fds)
}.

Ltac fields l := destruct l as [s_ a_ b_ c_ t_ cl_ e_ oc_ oe_ st_ ar_ rs_ us_ k_ ts_ m_ p_ tk_ an_].

Lemma base_receivers l v : base l -> base (set_receivers v l).
Proof. intros Hb. fields l. by destruct Hb. Qed.

#[local] Arguments weight : simpl never.
#[local] Arguments in_flight : simpl never.

Lemma holds_in_flight (rs : list (Z * receiver)) i fd r r' l : rs !! i = Some (fd, r) -> holds r' = [] \/ holds r' = holds r ->
  NoDup (l ++ in_flight rs) -> NoDup (l ++ in_flight (<[i := (fd, r')]> rs)).
Proof.
  intros Hi Hh Hn. destruct (in_flight_insert rs i fd r r' Hi) as (x & H1 & H2). rewrite H2. rewrite H1 in Hn. destruct Hh as [->| ->]; [|done].
  cbn. rewrite (Permutation_app_comm (holds r) x), app_assoc in Hn. by apply list.NoDup_app in Hn as [Hn _].
Qed.

(** A receiver goes on. *)
Lemma move_recvs l i fd r r' : recvs l -> receivers l !! i = Some (fd, r) -> recv_ok (made l) fd r' -> holds r' = [] \/ holds r' = holds r ->
  (at_input creating r' <= at_input creating r)%nat \/ count_sessions l < _max_conn_num ->
  (at_input filling r' <= at_input filling r)%nat \/ zlen (_accept_backlog l) < _backlog_size ->
  recvs (set_receivers (<[i := (fd, r')]> (receivers l)) l).
Proof.
  intros [] Hi Hr Hh Hc Hf. pose proof (weight_insert creating _ _ _ _ r' Hi) as W1. pose proof (weight_insert filling _ _ _ _ r' Hi) as W2.
  pose proof (weight_bound creating (<[i := (fd, r')]> (receivers l))) as B1. pose proof (weight_bound filling (<[i := (fd, r')]> (receivers l))) as B2.
  rewrite length_insert in B1, B2. assert (length (receivers l) = length fds) as Hlen by (rewrite <- r_fds0; by rewrite length_map).
  split.
  - fields l. cbn in *. by rewrite (fds_insert _ _ _ r).
  - intros j fd' x Hj. assert (receivers (set_receivers (<[i := (fd, r')]> (receivers l)) l) = <[i := (fd, r')]> (receivers l)) as E by (by fields l). rewrite E in Hj.
    assert (made (set_receivers (<[i := (fd, r')]> (receivers l)) l) = made l) as -> by (by fields l).
    destruct (decide (i = j)) as [<-|Hne].
    + rewrite list_lookup_insert_eq in Hj by (by apply lookup_lt_Some in Hi). by injection Hj as <- <-.
    + rewrite list_lookup_insert_ne in Hj by done. by apply r_ok0 in Hj.
  - assert (NoDup (pushed l ++ in_flight (<[i := (fd, r')]> (receivers l)))) as H by (by apply (holds_in_flight _ i fd r)). by fields l.
  - assert (count_sessions l + Z.of_nat (weight creating (<[i := (fd, r')]> (receivers l))) <= Z.max 0 (_max_conn_num - 1 + zlen fds)) as H by lia. by fields l.
  - assert (zlen (_accept_backlog l) + Z.of_nat (weight filling (<[i := (fd, r')]> (receivers l))) <= Z.max 0 (_backlog_size - 1 + zlen fds)) as H by lia. by fields l.
Qed.

(** Sessions are told things. *)
Lemma grow_recvs l m' : recvs l -> made_le (made l) m' -> recvs (set_made m' l).
Proof. intros [] Hm. fields l. split; cbn in *; try done. intros i fd r Hi. by apply (recv_ok_le m_), (r_ok0 i). Qed.

Lemma grow_base l m' : base l -> made_le (made l) m' -> length m' = length (made l) ->
  (forall c s, m' !! c = Some s -> conn_ok (u32 (conv0 + Z.of_nat c)) s) -> base (set_made m' l).
Proof.
  intros [] Hm Hl Ho. fields l. split; cbn in *; try done.
  - by rewrite Hl.
  - intros fd x y H. apply (owned_le m_); [done|]. by apply b_table0.
  - intros x Hx. destruct (b_pushed0 x Hx) as (y & Hy & Hst). destruct (Hm x y Hy) as (y' & Hy' & _ & _ & _ & Hst'). exists y'. split; [done|]. by apply Hst'.
Qed.

Definition LI (l : KcpListener) : Prop := base l /\ recvs l.

(** One session is told something that leaves it as it should be. *)
Lemma tell_LI l c f : LI l -> (forall s, conn_le s (f s)) -> (forall s, made l !! c = Some s -> inbox (f s) = inbox s \/ exists fd from data,
    inbox (f s) = inbox s ++ [(fd, from, data)] /\ fd = c_fd s /\ from = c_addr s /\ 4 <= zlen data /\ ikcp_getconv data = c_convid s) ->
  LI (set_made (alter f c (made l)) l).
Proof.
  intros [Hb Hr] Hf Hin. pose proof (made_le_alter (made l) c f Hf) as Hm. split; [|by apply grow_recvs].
  apply grow_base; [done|done|by rewrite length_alter|]. intros c' s Hs. destruct (decide (c = c')) as [<-|Hne].
  - rewrite list_lookup_alter_eq in Hs. destruct (made l !! c) as [s0|] eqn:E; [|done]. injection Hs as <-. destruct (b_made _ Hb c s0 E) as [H1 H2].
    destruct (Hf s0) as (A1 & A2 & A3 & _). split; [congruence|]. rewrite A1, A2, A3. destruct (Hin s0 eq_refl) as [->|(fd & from & data & -> & ? & ? & ? & ?)]; [done|].
    intros fd' from' data' [Hx|Hx]%elem_snoc; [by apply H2|]. by injection Hx as -> -> ->.
  - rewrite list_lookup_alter_ne in Hs by done. by apply (b_made _ Hb).
Qed.

(** Changes that touch neither tables, sessions, backlog nor receivers. *)
Definition same_core (l l' : KcpListener) : Prop :=
  _sessions l' = _sessions l /\ _accept_backlog l' = _accept_backlog l /\ _convid l' = _convid l /\ made l' = made l /\ pushed l' = pushed l /\
  omap id (taken l') = omap id (taken l) /\ receivers l' = receivers l.

Lemma same_core_LI l l' : LI l -> same_core l l' -> unready l' = false -> LI l'.
Proof.
  intros [Hb Hr] (E1 & E2 & E3 & E4 & E5 & E6 & E7) Hu. destruct Hb, Hr. split; split; unfold of_fd, count_sessions in *; rewrite ?E1, ?E2, ?E3, ?E4, ?E5, ?E6, ?E7; done.
Qed.

(** *** The tables *)
Lemma set_sessions_LI l v : LI l -> (forall fd a c, default ∅ (v !! fd) !! a = Some c -> owned (made l) c fd a true) ->
  count_sessions (set_sessions v l) <= count_sessions l -> LI (set_sessions v l).
Proof.
  intros [[] []] Hv Hc. fields l. split; split; unfold of_fd, count_sessions in *; cbn in *; try done. lia.
Qed.

Lemma of_fd_insert (v : gmap Z (gmap str nat)) (fd : Z) t fd' : default ∅ (<[fd := t]> v !! fd') = if decide (fd = fd') then t else default (∅ : gmap str nat) (v !! fd').
Proof. case_decide; [subst; by rewrite lookup_insert_eq|by rewrite lookup_insert_ne]. Qed.

(** A socket's table becomes a part of itself. *)
Lemma shrink_LI l fd t : LI l -> t ⊆ of_fd fd l -> LI (set_sessions (<[fd := t]> (_sessions l)) l).
Proof.
  intros Hl Ht. apply set_sessions_LI; [done| |].
  - intros fd' a c. rewrite of_fd_insert. case_decide; [subst; intros H; apply (b_table _ (proj1 Hl)); by apply (lookup_weaken t)|apply (b_table _ (proj1 Hl))].
  - assert (_sessions (set_sessions (<[fd:=t]> (_sessions l)) l) = <[fd:=t]> (_sessions l)) as E by (by fields l). unfold count_sessions. rewrite E.
    pose proof (sessions_insert (_sessions l) fd t) as H. pose proof (map_subseteq_size _ _ Ht) as Hs. unfold of_fd in Hs. lia.
Qed.

Lemma touch_ok l fd : LI l -> exists l', touch fd l = (Ok tt, l') /\ LI l' /\ receivers l' = receivers l /\ (forall fd', of_fd fd' l' = of_fd fd' l) /\ made l' = made l.
Proof.
  intros Hl. eexists. split; [reflexivity|]. split; [by apply shrink_LI|]. split_and!; [by fields l| |by fields l].
  intros fd'. unfold of_fd at 1. assert (_sessions (set_sessions (<[fd:=of_fd fd l]> (_sessions l)) l) = <[fd:=of_fd fd l]> (_sessions l)) as -> by (by fields l).
  rewrite of_fd_insert. case_decide; by subst.
Qed.

Lemma onSessionClose_ok order a : forall l, LI l -> exists b l', onSessionClose order a l = (Ok b, l') /\ LI l' /\ made l' = made l.
Proof.
  induction order as [|fd order IH]; intros l Hl; [by exists false, l|]. cbn [onSessionClose]. rewrite (bind_ok get _ l l l eq_refl). case_bool_decide; [|by apply IH].
  exists true. eexists. split; [reflexivity|]. split; [|by fields l]. apply shrink_LI; [done|apply delete_subseteq].
Qed.

(** *** Receivers *)
Definition after_packet (rest : list (list Z * str)) : receiver :=
  match rest with [] => RRecv | (data, from) :: rest => RInput PStart data from rest end.

Lemma next_packet_eq i fd rest l : next_packet i fd rest l = (Ok tt, set_receivers (<[i := (fd, after_packet rest)]> (receivers l)) l).
Proof. by destruct rest as [|[] rest]. Qed.

Lemma after_packet_still rest : holds (after_packet rest) = [] /\ (forall m fd, recv_ok m fd (after_packet rest)) /\
  at_input creating (after_packet rest) = 0%nat /\ at_input filling (after_packet rest) = 0%nat.
Proof. by destruct rest as [|[] rest]. Qed.

Lemma move_LI l i fd r r' : LI l -> receivers l !! i = Some (fd, r) -> recv_ok (made l) fd r' -> holds r' = [] \/ holds r' = holds r ->
  (at_input creating r' <= at_input creating r)%nat \/ count_sessions l < _max_conn_num ->
  (at_input filling r' <= at_input filling r)%nat \/ zlen (_accept_backlog l) < _backlog_size ->
  LI (set_receivers (<[i := (fd, r')]> (receivers l)) l).
Proof. intros [Hb Hr] H1 H2 H3 H4 H5. split; [by apply base_receivers|by apply (move_recvs l i fd r)]. Qed.

Lemma next_packet_ok l i fd r rest : LI l -> receivers l !! i = Some (fd, r) -> exists l', next_packet i fd rest l = (Ok tt, l') /\ LI l'.
Proof.
  intros Hl Hi. rewrite next_packet_eq. eexists. split; [reflexivity|]. destruct (after_packet_still rest) as (H1 & H2 & H3 & H4).
  apply (move_LI l i fd r); [done|done|apply H2|by left|left; lia|left; lia].
Qed.

(** Any other step of [packetInput] that changes its place only. *)
Lemma rgoto_ok l i fd r r' : LI l -> receivers l !! i = Some (fd, r) -> recv_ok (made l) fd r' -> holds r' = [] \/ holds r' = holds r ->
  (at_input creating r' <= at_input creating r)%nat \/ count_sessions l < _max_conn_num ->
  (at_input filling r' <= at_input filling r)%nat \/ zlen (_accept_backlog l) < _backlog_size ->
  exists l', rgoto i fd r' l = (Ok tt, l') /\ LI l'.
Proof. intros. eexists. split; [reflexivity|]. by apply (move_LI l i fd r). Qed.

(** [PCreate]: a session is made. *)
Lemma create_LI l i fd data from rest : LI l -> receivers l !! i = Some (fd, RInput PCreate data from rest) ->
  LI (set_receivers (<[i := (fd, RInput (PStore (length (made l))) data from rest)]> (receivers l))
       (set_made (made l ++ [conn_new (_convid l) fd from])
         (add_answer (fd, from, making_connect_backpacket ++ dec (_convid l)) (set_convid (u32 (_convid l + 1)) l)))).
Proof.
  intros [Hb Hr] Hi. pose proof (made_le_app (made l) (conn_new (_convid l) fd from)) as Hm.
  assert (forall c, c ∈ pushed l ++ in_flight (receivers l) -> is_Some (made l !! c)) as Hold.
  { intros c [Hc|Hc]%elem_of_app; [destruct (b_pushed _ Hb c Hc) as (s & Hs & _); by eexists|].
    unfold in_flight in Hc. apply list_elem_of_In, in_concat in Hc as (x & Hx & Hc). apply in_map_iff in Hx as ([fd' r] & <- & Hx). apply list_elem_of_In, list_elem_of_lookup in Hx as [j Hj].
    pose proof (r_ok _ Hr j fd' r Hj) as Hk. apply list_elem_of_In in Hc. cbn in Hc. destruct r as [|[] d f re|]; cbn in *; try (by apply not_elem_of_nil in Hc);
      apply list_elem_of_singleton in Hc; subst; destruct Hk as (s & Hs & _); by eexists. }
  pose proof (weight_insert creating _ _ _ _ (RInput (PStore (length (made l))) data from rest) Hi) as W1.
  pose proof (weight_insert filling _ _ _ _ (RInput (PStore (length (made l))) data from rest) Hi) as W2.
  destruct (in_flight_insert _ _ _ _ (RInput (PStore (length (made l))) data from rest) Hi) as (x & F1 & F2).
  destruct Hb, Hr. fields l. split; split; unfold of_fd, count_sessions in *; cbn in *; try done.
  - rewrite length_app, b_convid0. cbn [length]. unfold uwrap. rewrite Zplus_mod_idemp_l. f_equal. lia.
  - intros c s [[_ Hs]|[-> <-]]%lookup_snoc_Some; [by apply b_made0|]. split; [done|]. by intros ? ? ? ?%not_elem_of_nil.
  - intros fd' a c H. by apply (owned_le m_), b_table0.
  - intros c Hc. destruct (b_pushed0 c Hc) as (s & Hs & Hst). exists s. split; [by apply lookup_app_l_Some|done].
  - by rewrite (fds_insert _ _ _ (RInput PCreate data from rest)).
  - intros j fd' r Hj. destruct (decide (i = j)) as [<-|Hne].
    + rewrite list_lookup_insert_eq in Hj by (by apply lookup_lt_Some in Hi). injection Hj as <- <-. eexists. split; [by apply list_lookup_middle|done].
    + rewrite list_lookup_insert_ne in Hj by done. apply (recv_ok_le m_); [done|]. by apply (r_ok0 j).
  - rewrite F2. rewrite F1 in r_once0. cbn in r_once0. cbn. rewrite Permutation_app_comm. cbn. rewrite Permutation_app_comm. apply list.NoDup_cons. split; [|done].
    intros Hin. assert (is_Some (m_ !! length m_)) as [y Hy]; [|apply lookup_lt_Some in Hy; lia]. apply Hold. rewrite F1. cbn. set_solver.
  - lia.
  - lia.
Qed.

(** [PStore]: it goes into the table of its socket. *)
Lemma store_LI l i fd c data from rest : LI l -> receivers l !! i = Some (fd, RInput (PStore c) data from rest) ->
  LI (set_receivers (<[i := (fd, RInput (PPush c) data from rest)]> (receivers l))
       (set_made (alter mark_stored c (made l)) (set_sessions (<[fd := <[from := c]> (of_fd fd l)]> (_sessions l)) l))).
Proof.
  intros Hl Hi. assert (forall s, conn_le s (mark_stored s)) as Hmark by (intros []; by split).
  pose proof (tell_LI l c mark_stored Hl Hmark ltac:(intros [] _; by left)) as Hl1. pose proof (r_ok _ (proj2 Hl) _ _ _ Hi) as (s & Hs & Hs1 & Hs2 & _).
  assert (owned (alter mark_stored c (made l)) c fd from true) as Hown.
  { exists (mark_stored s). split; [by rewrite list_lookup_alter_eq, Hs|]. by destruct s. }
  pose proof (weight_insert creating _ _ _ _ (RInput (PPush c) data from rest) Hi) as W1. pose proof (weight_insert filling _ _ _ _ (RInput (PPush c) data from rest) Hi) as W2.
  pose proof (sessions_insert (_sessions l) fd (<[from := c]> (of_fd fd l))) as Hc.
  assert (size (<[from := c]> (of_fd fd l)) <= S (size (of_fd fd l)))%nat as Hsz by (rewrite map_size_insert; case_match; unfold id; lia).
  unfold of_fd in Hsz, Hc. destruct Hl1 as [[] []]. fields l. split; split; unfold of_fd, count_sessions in *; cbn in *; try done.
  - intros fd' a c'. rewrite of_fd_insert. case_decide; [subst fd'|apply b_table0]. intros [[<- <-]|[Hne H]]%lookup_insert_Some; [done|by apply b_table0].
  - by rewrite (fds_insert _ _ _ (RInput (PStore c) data from rest)).
  - intros j fd' r Hj. destruct (decide (i = j)) as [<-|Hne].
    + rewrite list_lookup_insert_eq in Hj by (by apply lookup_lt_Some in Hi). by injection Hj as <- <-.
    + rewrite list_lookup_insert_ne in Hj by done. by apply (r_ok0 j).
  - apply (holds_in_flight _ _ _ (RInput (PStore c) data from rest)); [done|by right|done].
  - lia.
  - lia.
Qed.

(** [PPush]: it waits for [Accept]. *)
Lemma push_LI l i fd c data from rest : LI l -> receivers l !! i = Some (fd, RInput (PPush c) data from rest) ->
  LI (set_receivers (<[i := (fd, RInput PNotify data from rest)]> (receivers l)) (push_backlog c l)).
Proof.
  intros [Hb Hr] Hi. pose proof (r_ok _ Hr _ _ _ Hi) as (s & Hs & Hs1 & Hs2 & Hst).
  pose proof (weight_insert creating _ _ _ _ (RInput PNotify data from rest) Hi) as W1. pose proof (weight_insert filling _ _ _ _ (RInput PNotify data from rest) Hi) as W2.
  destruct (in_flight_insert _ _ _ _ (RInput PNotify data from rest) Hi) as (x & F1 & F2).
  destruct Hb, Hr. fields l. split; split; unfold of_fd, count_sessions, unready in *; cbn in *; try done.
  - intros c' [Hc| ->]%elem_snoc; [by apply b_pushed0|]. exists s. split; [done|]. by apply Hst.
  - by rewrite app_assoc, b_taken0.
  - assert (forall (x : nat) q, bool_decide (q ++ [x] = []) = false) as H by (intros y q; apply bool_decide_eq_false; by destruct q). rewrite !H. by destruct k_.
  - by rewrite (fds_insert _ _ _ (RInput (PPush c) data from rest)).
  - intros j fd' r Hj. destruct (decide (i = j)) as [<-|Hne].
    + rewrite list_lookup_insert_eq in Hj by (by apply lookup_lt_Some in Hi). by injection Hj as <- <-.
    + rewrite list_lookup_insert_ne in Hj by done. by apply (r_ok0 j).
  - rewrite F2. rewrite F1 in r_once0. cbn in *. by rewrite <- app_assoc.
  - lia.
  - rewrite length_app. cbn. lia.
Qed.

(** *** Every step of the fibers *)
Lemma is_connect_packet_cases {S} data (s : S) : (exists b, is_connect_packet data s = (Ok b, s)) \/ is_connect_packet data s = (Undef OutOfBounds, s) /\ overlong data.
Proof.
  unfold is_connect_packet, overlong. rewrite memcmp_eq_prefix. set (L := XTEN_KCP_CONNECT_PACKET ++ [0]). case_bool_decide as H1; [left; by eexists|].
  case_bool_decide as H2; [|left; by eexists]. right. split; [done|]. split; [done|]. destruct H2 as [[|x k] Hk].
  - exfalso. apply H1. rewrite app_nil_r in Hk. by rewrite Hk.
  - rewrite Hk, length_app. cbn [length]. lia.
Qed.

#[local] Abbreviation packetInput := (packetInput _max_conn_num _backlog_size).

Lemma datagram_ok l i fd p data from rest : LI l -> receivers l !! i = Some (fd, RInput p data from rest) ->
  (exists l', packetInput i fd p data from rest l = (Ok tt, l') /\ LI l') \/ exists u, packetInput i fd p data from rest l = (Undef u, l) /\ fault l.
Proof.
  intros Hl Hi. unfold packetInput. rewrite (bind_ok get _ l l l eq_refl).
  assert (forall r', holds r' = [] -> recv_ok (made l) fd r' -> at_input creating r' = 0%nat -> at_input filling r' = 0%nat -> exists l', rgoto i fd r' l = (Ok tt, l') /\ LI l') as Hgo.
  { intros r' H1 H2 H3 H4. apply (rgoto_ok _ _ _ (RInput p data from rest)); [done|done|done|by left|left; lia|left; lia]. }
  destruct p as [| | | | | | |c|c| |c].
  - left. destruct (isBlacklisted from l); [by apply (next_packet_ok _ _ _ (RInput PStart data from rest))|by apply Hgo].
  - left. destruct (touch_ok l fd Hl) as (l1 & E1 & H1 & Er & Et & Em). rewrite (bind_ok _ _ _ _ _ E1). destruct (of_fd fd l !! from) as [c|] eqn:Ec.
    + apply (rgoto_ok _ _ _ (RInput PFind data from rest)); [done|by rewrite Er| |by left|by left|by left]. rewrite Em. by apply (b_table _ (proj1 Hl)).
    + apply (rgoto_ok _ _ _ (RInput PFind data from rest)); [done|by rewrite Er|done|by left|by left|by left].
  - destruct (is_connect_packet_cases data l) as [[b E]|[E Ho]].
    + left. rewrite (bind_ok _ _ _ _ _ E). destruct b; by apply Hgo.
    + right. exists OutOfBounds. rewrite (bind_undef _ _ _ _ _ E). split; [done|]. by exists i, fd, data, from, rest.
  - left. set (l1 := set_blacklist ({[from]} ∪ _blacklist l) l). assert (LI l1) as H1.
    { apply (same_core_LI l); [done|by fields l|]. pose proof (b_ready _ (proj1 Hl)). by fields l. }
    destruct (next_packet_ok l1 i fd (RInput PReport data from rest) rest H1) as (l' & E & H'); [by fields l|]. exists l'. split; [|done]. by rewrite <- E.
  - left. destruct (Z.leb_spec _backlog_size (zlen (_accept_backlog l))) as [Hb|Hb]; [by apply (next_packet_ok _ _ _ (RInput PBacklog data from rest))|].
    apply (rgoto_ok _ _ _ (RInput PBacklog data from rest)); [done|done|done|by left|by left|by right].
  - left. destruct (Z.leb_spec _max_conn_num (count_sessions l)) as [Hb|Hb]; [by apply (next_packet_ok _ _ _ (RInput PLimit data from rest))|].
    apply (rgoto_ok _ _ _ (RInput PLimit data from rest)); [done|done|done|by left|by right|by left].
  - left. eexists. split; [reflexivity|]. pose proof (create_LI l i fd data from rest Hl Hi) as H. by fields l.
  - left. eexists. split; [reflexivity|]. pose proof (store_LI l i fd c data from rest Hl Hi) as H. by fields l.
  - left. eexists. split; [reflexivity|]. pose proof (push_LI l i fd c data from rest Hl Hi) as H. by fields l.
  - left. set (l1 := set_tails (tails l ++ [[LSignal]]) l). assert (LI l1) as H1.
    { apply (same_core_LI l); [done|by fields l|]. pose proof (b_ready _ (proj1 Hl)). by fields l. }
    destruct (next_packet_ok l1 i fd (RInput PNotify data from rest) rest H1) as (l' & E & H'); [by fields l|]. exists l'. split; [|done]. by rewrite <- E.
  - pose proof (r_ok _ (proj2 Hl) _ _ _ Hi) as (s & Hs & Hs1 & Hs2 & _). rewrite Hs. left.
    set (b := (4 <=? zlen data) && (ikcp_getconv data =? c_convid s)). set (f := if b then give fd from data else tell_close).
    assert (LI (set_made (alter f c (made l)) l)) as H1.
    { apply tell_LI; [done| |].
      - intros []. unfold f. by destruct b.
      - intros s' E. rewrite Hs in E. injection E as <-. unfold f. destruct b eqn:Eb; [right|left; by destruct s]. unfold b in Eb. exists fd, from, data.
        split; [by destruct s|]. lia || (apply andb_true_iff in Eb as [? ?]; split_and!; [done|done|lia|lia]). }
    destruct (next_packet_ok (set_made (alter f c (made l)) l) i fd (RInput (PExist c) data from rest) rest H1) as (l' & E & H'); [by fields l|]. exists l'. split; [|done]. rewrite <- E. unfold f. by destruct b.
Qed.

(** A step that leaves the tables, sessions, backlog and receivers alone. *)
Lemma quiet (m : M KcpListener unit) l l' : m l = (Ok tt, l') -> LI l -> same_core l l' -> unready l' = false -> exists l'', m l = (Ok tt, l'') /\ LI l''.
Proof. intros E Hl Hc Hu. exists l'. split; [done|]. by apply (same_core_LI l). Qed.

Ltac quietly Hl l := eapply quiet; [reflexivity|exact Hl|by fields l|]; try (pose proof (b_ready _ (proj1 Hl)) as Hready; fields l; cbn in *; try done; by subst).

Lemma listener_error_ok l : LI l -> exists l', notifyReadError l = (Ok tt, l') /\ LI l' /\ receivers l' = receivers l.
Proof.
  intros Hl. unfold notifyReadError. rewrite (bind_ok get _ l l l eq_refl). destruct (_once_readError l); [by exists l|].
  eexists. split; [reflexivity|]. split; [|by fields l]. apply (same_core_LI l); [done|by fields l|]. pose proof (b_ready _ (proj1 Hl)). by fields l.
Qed.

Lemma listener_close_ok l : LI l -> exists l', Close l = (Ok tt, l') /\ LI l' /\ accepting l' = accepting l.
Proof.
  intros Hl. unfold Close. rewrite (bind_ok get _ l l l eq_refl). destruct (_once_close l); [by exists l|].
  eexists. split; [reflexivity|]. split; [|by fields l]. apply (same_core_LI l); [done|by fields l|]. pose proof (b_ready _ (proj1 Hl)). by fields l.
Qed.

Lemma doRecvLoop_ok l i batch : LI l -> (exists l', doRecvLoop _max_conn_num _backlog_size i batch l = (Ok tt, l') /\ LI l') \/
  exists u, doRecvLoop _max_conn_num _backlog_size i batch l = (Undef u, l) /\ fault l.
Proof.
  intros Hl. unfold doRecvLoop. rewrite (bind_ok get _ l l l eq_refl). destruct (receivers l !! i) as [[fd [|p data from rest|]]|] eqn:Ei; [|by apply datagram_ok|left; by exists l|left; by exists l].
  left. destruct batch as [|b batch]; [|by apply (next_packet_ok _ _ _ RRecv)].
  destruct (listener_error_ok l Hl) as (l1 & E1 & H1 & Er). rewrite (bind_ok _ _ _ _ _ E1). apply (rgoto_ok _ _ _ RRecv); [done|by rewrite Er|done|by left|left; cbn; lia|left; cbn; lia].
Qed.

Lemma doSendLoop_ok l i : LI l -> exists l', doSendLoop i l = (Ok tt, l') /\ LI l'.
Proof.
  intros Hl. unfold doSendLoop. rewrite (bind_ok get _ l l l eq_refl). destruct (updaters l !! i) as [[fd [|[|c cs]|]]|]; try by exists l.
  - destruct (negb _ && _); quietly Hl l.
  - quietly Hl l.
  - assert (LI (set_made (alter tick c (made l)) l)) as H1 by (apply tell_LI; [done|by intros []|intros [] _; by left]).
    eexists. split; [reflexivity|]. apply (same_core_LI _ _ H1); [by fields l|]. pose proof (b_ready _ (proj1 H1)). by fields l.
Qed.

Lemma startAccept_ok l : LI l -> exists l', startAccept accept_timeout_ms l = (Ok tt, l') /\ LI l'.
Proof.
  intros Hl. unfold startAccept. rewrite (bind_ok get _ l l l eq_refl). pose proof (b_ready _ (proj1 Hl)) as Hr. unfold unready in Hr.
  destruct (accepting l) eqn:Ek; try by exists l.
  - destruct (_isStop l).
    + destruct (listener_close_ok l Hl) as (l1 & E1 & H1 & Ek1). rewrite (bind_ok _ _ _ _ _ E1). quietly H1 l1.
    + quietly Hl l.
  - destruct (0 <? accept_timeout_ms); quietly Hl l.
  - destruct (bool_decide _ && _ && _ && _) eqn:Eb; [quietly Hl l|]. eapply quiet; [reflexivity|exact Hl|by fields l|]. by fields l.
  - quietly Hl l.
  - destruct (_b_timeout l) eqn:Et; [|eapply quiet; [reflexivity|exact Hl|by fields l|]; fields l; cbn in *; subst; cbn in *; rewrite andb_true_r in Hr; exact Hr].
    eapply quiet; [reflexivity|exact Hl| |by fields l]. fields l. unfold same_core. cbn. by rewrite omap_app, app_nil_r.
  - destruct (_b_read_error l) eqn:Et; [|eapply quiet; [reflexivity|exact Hl|by fields l|]; fields l; cbn in *; subst; cbn in *; rewrite andb_true_r in Hr; exact Hr].
    eapply quiet; [reflexivity|exact Hl| |by fields l]. fields l. unfold same_core. cbn. by rewrite omap_app, app_nil_r.
  - destruct (_b_close l) eqn:Et; [|eapply quiet; [reflexivity|exact Hl|by fields l|]; fields l; cbn in *; subst; cbn in *; rewrite andb_true_r in Hr; exact Hr].
    eapply quiet; [reflexivity|exact Hl| |by fields l]. fields l. unfold same_core. cbn. by rewrite omap_app, app_nil_r.
  - apply bool_decide_eq_false in Hr. destruct (_accept_backlog l) as [|c q] eqn:Eq; [done|]. eexists. split; [reflexivity|]. destruct Hl as [[] []]. fields l. cbn in *. subst a_.
    split; split; unfold of_fd, count_sessions in *; cbn in *; try done; [|lia]. rewrite <- b_taken0, omap_app. cbn. by rewrite <- app_assoc.
Qed.

Lemma raise_LI l l' : LI l -> same_core l l' -> accepting l' = accepting l -> (_b_timeout l = true -> _b_timeout l' = true) ->
  (_b_close l = true -> _b_close l' = true) -> (_b_read_error l = true -> _b_read_error l' = true) -> LI l'.
Proof.
  intros Hl Hc Hk H1 H2 H3. apply (same_core_LI l); [done|done|]. destruct Hc as (_ & Eb & _). pose proof (b_ready _ (proj1 Hl)) as Hr. unfold unready in *. rewrite Hk, Eb.
  destruct (accepting l); try done; destruct (bool_decide _); cbn in *; try done; destruct (_b_timeout l), (_b_close l), (_b_read_error l); cbn in *; try done;
    rewrite ?(H1 eq_refl), ?(H2 eq_refl), ?(H3 eq_refl); cbn; rewrite ?andb_false_r; done.
Qed.

(** Only a TestMsg-like mark on sessions: all the sessions of the tables learn of an error. *)
Lemma tell_each_LI cs : forall l, LI l -> LI (set_made (foldr (alter tell_error) (made l) cs) l).
Proof.
  induction cs as [|c cs IH]; intros l Hl; [by fields l|]. cbn [foldr]. specialize (IH l Hl).
  pose proof (tell_LI _ c tell_error IH ltac:(by intros []) ltac:(intros [] _; by left)) as H. by fields l.
Qed.

Lemma listener_tail_ok l t : LI l -> exists l', run_tail t l = (Ok tt, l') /\ LI l'.
Proof.
  intros Hl. destruct t; cbn [run_tail].
  - eexists. split; [reflexivity|]. apply (raise_LI l); [done|by fields l..].
  - eexists. split; [reflexivity|]. apply (raise_LI l); [done|by fields l..].
  - eexists. split; [reflexivity|]. by apply tell_each_LI.
  - eexists. split; [reflexivity|]. apply (raise_LI l); [done|by fields l..].
  - rewrite (bind_ok get _ l l l eq_refl). destruct (accepting l); try by exists l. quietly Hl l.
Qed.

Lemma listener_act_ok l a : LI l -> (exists l', act _max_conn_num _backlog_size accept_timeout_ms a l = (Ok tt, l') /\ LI l') \/
  exists u, act _max_conn_num _backlog_size accept_timeout_ms a l = (Undef u, l) /\ fault l.
Proof.
  intros Hl. unfold act. rewrite (bind_ok get _ l l l eq_refl). destruct a as [i batch|i| |i| | |c order| | |].
  - by apply doRecvLoop_ok.
  - left. by apply doSendLoop_ok.
  - left. by apply startAccept_ok.
  - left. destruct (tails l !! i) as [[|t ts]|]; try by exists l. rewrite (bind_ok (modify _) _ l tt _ eq_refl). apply listener_tail_ok.
    apply (raise_LI l); [done|by fields l..].
  - left. eexists. split; [reflexivity|]. apply (raise_LI l); [done|by fields l..].
  - left. eexists. split; [reflexivity|]. apply (raise_LI l); [done|by fields l..].
  - left. destruct (made l !! c) as [s|] eqn:Es; [|by exists l]. destruct (onSessionClose_ok order (c_addr s) l Hl) as (b & l1 & E1 & H1 & Em).
    rewrite (bind_ok _ _ _ _ _ E1). eexists. split; [reflexivity|]. apply tell_LI; [done|by intros []|intros [] _; by left].
  - left. eexists. split; [reflexivity|]. apply (raise_LI l); [done|by fields l..].
  - left. destruct (_isStop l); [by exists l|]. rewrite (bind_ok (modify _) _ l tt _ eq_refl).
    destruct (listener_close_ok (set_stop true l)) as (l1 & E1 & H1 & _); [apply (raise_LI l); [done|by fields l..]|]. by exists l1.
  - left. destruct (listener_close_ok l Hl) as (l1 & E1 & H1 & _). by exists l1.
Qed.

Lemma listen_ok acts : forall l, LI l -> exists r l', listen _max_conn_num _backlog_size accept_timeout_ms acts l = (r, l') /\ LI l' /\
  (r = Ok tt \/ (exists u, r = Undef u) /\ fault l').
Proof.
  induction acts as [|a acts IH]; intros l Hl; [exists (Ok tt), l; split_and!; [done|done|by left]|]. cbn [listen]. unfold try_act.
  assert ((exists l', try_act _max_conn_num _backlog_size accept_timeout_ms a l = (Ok tt, l') /\ LI l') \/ exists u, try_act _max_conn_num _backlog_size accept_timeout_ms a l = (Undef u, l) /\ fault l) as H.
  { unfold try_act. rewrite (bind_ok get _ l l l eq_refl). destruct (enabled a l); [by apply listener_act_ok|left; by exists l]. }
  unfold try_act in H. destruct H as [(l1 & E & H1)|(u & E & Hf)].
  - rewrite (bind_ok _ _ _ _ _ E). by apply IH.
  - rewrite (bind_undef _ _ _ _ _ E). exists (Undef u), l. split_and!; [done|done|]. right. split; [by eexists|done].
Qed.

Lemma new_LI : in_u 32 conv0 -> LI (KcpListener_new conv0 fds).
Proof.
  intros Hc. assert (forall P, weight P (map (fun fd => (fd, RRecv)) fds) = 0%nat) as Hw by (intros P; unfold weight; induction fds; cbn; auto).
  assert (in_flight (map (fun fd => (fd, RRecv)) fds) = []) as Hf by (unfold in_flight; induction fds; cbn; auto).
  split; split; unfold of_fd; cbn; try done.
  - rewrite Z.add_0_r, uwrap_id; done.
  - by intros c ?%not_elem_of_nil.
  - rewrite map_map. cbn. apply map_id.
  - intros i fd r Hi. change (map (fun fd => (fd, RRecv)) fds) with ((fun fd : Z => (fd, RRecv)) <$> fds) in Hi. rewrite list_lookup_fmap in Hi. destruct (fds !! i); [|done]. by injection Hi as <- <-.
  - rewrite Hf. constructor.
  - rewrite Hw. change (count_sessions (KcpListener_new conv0 fds)) with 0. lia.
  - rewrite Hw. lia.
Qed.
End invariant.

Lemma u32_shift_inj a i j : 0 <= i < 2 ^ 32 -> 0 <= j < 2 ^ 32 -> u32 (a + i) = u32 (a + j) -> i = j.
Proof. unfold uwrap. change (2 ^ 32) with 4294967296. intros. zlia. Qed.


(** Two clients connect, one of them twice; one sends a datagram of its own and one
    with the number of the other. *)
Definition addr_a : str := [97].
Definition addr_b : str := [98].
Definition demo_acts : list event :=
  [LStarted; LRecv 0 [(making_connect_packet, addr_a); (making_connect_packet, addr_b)]] ++ repeat (LRecv 0 []) 18 ++
  repeat LAccept 7 ++ [LRecv 0 [([17; 39; 0; 0; 5], addr_b); ([17; 39; 0; 0; 6], addr_a)]] ++ repeat (LRecv 0 []) 6.


(** The limit of one connection, checked by two fibers before either stores its session. *)
Example limit_overrun :
  let l := (listen 1 128 0 ([LRecv 0 [([], addr_a)]; LRecv 1 [([], addr_b)]] ++ concat (repeat [LRecv 0 []; LRecv 1 []] 7)) (KcpListener_new 10000 [3; 4])).2 in
  count_sessions l = 2.
Proof. vm_compute. reflexivity. Qed.

(** The accepting fiber runs before [Start] clears [_isStop]: the listener is closed. *)
Example start_race :
  let l := (listen 10 128 0 [LAccept; LAccept; LStarted; LTail 0; LTail 0] (KcpListener_new 10000 [3])).2 in
  accepting l = KEnd /\ _b_close l = true /\ _isStop l = false.
Proof. vm_compute. by split_and!. Qed.

(** After one failed receive [Accept] returns without waiting, for good. *)
Example accept_spins :
  let l := (listen 10 128 0 ([LStarted; LRecv 0 []; LTail 0; LTail 0; LTail 0] ++ repeat LAccept 15) (KcpListener_new 10000 [3])).2 in
  taken l = [None; None; None] /\ accepting l = KTop.
Proof. vm_compute. by split_and!. Qed.

(** A session that closes takes another one of the same address, on the other socket, out of the tables. *)
Example close_erases_other :
  let l := (listen 10 128 0 ([LRecv 0 [(making_connect_packet, addr_a)]] ++ repeat (LRecv 0 []) 9 ++ [LRecv 1 [(making_connect_packet, addr_a)]] ++ repeat (LRecv 1 []) 9 ++
             [LSessionClose 0 [4; 3]]) (KcpListener_new 10000 [3; 4])).2 in
  of_fd 3 l !! addr_a = Some 0%nat /\ map gone (made l) = [true; false] /\ of_fd 4 l !! addr_a = None.
Proof. vm_compute. by split_and!. Qed.
