(* ===== verification/KcpServer.v ===== *)
(** kcp/kcp_server.h and kcp_server.cpp: the names and the table of the connected
    sessions, and the messages for one or all of them. *)
From Stdlib Require Import List String.
From stdpp Require Import gmap.
From S2P Require Import Prelude Bytes Strings Http Address KcpMessage.

#[local] Abbreviation str := (list Z).

(** [snprintf(buffer, 63, "%s-%s#%ld", ...)]: at most 62 characters. *)
Definition session_name (name addr : str) (sn : Z) : str := name ++ lit "-" ++ addr ++ lit "#" ++ dec sn.
Definition formSessionId (name addr : str) (sn : Z) : str := take 62 (session_name name addr sn).

(** [_sn]: 64 bits; [ids]: what [_in_server_container_id] of a session is. *)
Record KcpServer := mkKcpServer { _connsMap : gmap str nat; _sn : Z; ids : gmap nat str; outbox : list (nat * KcpMessage) }.

Definition KcpServer_new : KcpServer := mkKcpServer ∅ 0 ∅ [].

(** kcp_sessions_container *)
Definition add (key : str) (session : nat) : M KcpServer unit := modify (fun s => mkKcpServer (<[key := session]> (_connsMap s)) (_sn s) (ids s) (outbox s)).
Definition remove (key : str) : M KcpServer bool := fun s =>
  match _connsMap s !! key with
  | Some _ => (Ok true, mkKcpServer (delete key (_connsMap s)) (_sn s) (ids s) (outbox s))
  | None => (Ok false, s)
  end.
Definition get_session (key : str) : M KcpServer (option nat) := fun s => (Ok (_connsMap s !! key), s).
Definition send_to (session : nat) (msg : KcpMessage) : M KcpServer unit := modify (fun s => mkKcpServer (_connsMap s) (_sn s) (ids s) (outbox s ++ [(session, msg)])).
Definition sendmsg (key : str) (msg : KcpMessage) : M KcpServer unit :=
  s ← get;
  match _connsMap s !! key with Some session => send_to session msg | None => mret tt end.
(** In the order the hash map lists its sessions. *)
Definition broadcastmsg (order : list nat) (msg : KcpMessage) : M KcpServer unit :=
  fold_right (fun c m => send_to c msg;; m) (mret tt) order.

(** How [handleClient] enters a session, and takes it out. *)
Definition enter (name addr : str) (session : nat) : M KcpServer unit :=
  s ← get;
  let id := formSessionId name addr (_sn s) in
  put (mkKcpServer (_connsMap s) (u64 (_sn s + 1)) (<[session := id]> (ids s)) (outbox s));;
  add id session.
Definition leave (session : nat) : M KcpServer bool := s ← get; remove (default [] (ids s !! session)).

(** ** Names *)
Lemma dec_loop_length fuel : forall n acc, (List.length (dec_loop fuel n acc) <= fuel + List.length acc)%nat.
Proof.
  induction fuel as [|fuel IH]; intros n acc; [done|]. change (dec_loop (S fuel) n acc) with (if n <? 10 then 48 + n :: acc else dec_loop fuel (n / 10) (48 + n mod 10 :: acc)).
  destruct (n <? 10); [rewrite length_cons; lia|]. rewrite IH, length_cons. lia.
Qed.

Lemma session_name_short name addr sn : zlen name + zlen addr <= 40 -> formSessionId name addr sn = session_name name addr sn.
Proof.
  intros H. unfold formSessionId. apply take_ge. unfold session_name. rewrite !List.length_app. pose proof (dec_loop_length 20 sn []) as Hd. fold (dec sn) in Hd. cbn [List.length] in *.
  change (List.length (lit "-")) with 1%nat. change (List.length (lit "#")) with 1%nat. lia.
Qed.

Lemma session_name_inj name addr n m : 0 <= n < 2 ^ 64 -> 0 <= m < 2 ^ 64 -> session_name name addr n = session_name name addr m -> n = m.
Proof.
  intros Hn Hm H. unfold session_name in H. do 4 apply app_inv_head in H. pose proof (read_dec_ok (2 ^ 64) n Hn ltac:(lia)) as H1. pose proof (read_dec_ok (2 ^ 64) m Hm ltac:(lia)) as H2. congruence.
Qed.

(** ** The table *)
(** Sessions that come and go, each once. *)
Inductive visit := Enter (session : nat) | Leave (session : nat).

Section server.
Context (name addr : str).

Definition visit_step (v : visit) : M KcpServer unit :=
  match v with Enter c => enter name addr c | Leave c => leave c;; mret tt end.
Fixpoint visits (l : list visit) : M KcpServer unit := match l with [] => mret tt | v :: l => visit_step v;; visits l end.

(** Who is there after the visits. *)
Fixpoint present (l : list visit) (here : gset nat) : gset nat :=
  match l with [] => here | Enter c :: l => present l ({[c]} ∪ here) | Leave c :: l => present l (here ∖ {[c]}) end.

(** A session enters once. *)
Definition entering (l : list visit) : list nat := omap (fun v => match v with Enter c => Some c | Leave _ => None end) l.

Record table_ok (s : KcpServer) (here : gset nat) : Prop := {
  t_ids c id : ids s !! c = Some id -> exists n, 0 <= n < _sn s /\ id = formSessionId name addr n;
  t_inj c1 c2 id : ids s !! c1 = Some id -> ids s !! c2 = Some id -> c1 = c2;
  t_map id c : _connsMap s !! id = Some c <-> c ∈ here /\ ids s !! c = Some id
}.

Hypothesis short : zlen name + zlen addr <= 40.

Lemma id_inj n m : 0 <= n < 2 ^ 64 -> 0 <= m < 2 ^ 64 -> formSessionId name addr n = formSessionId name addr m -> n = m.
Proof. rewrite !session_name_short by done. apply session_name_inj. Qed.

Lemma enter_ok s here c : table_ok s here -> ids s !! c = None -> 0 <= _sn s < 2 ^ 64 - 1 ->
  exists s', enter name addr c s = (Ok tt, s') /\ table_ok s' ({[c]} ∪ here) /\ _sn s' = _sn s + 1 /\ ids s' = <[c := formSessionId name addr (_sn s)]> (ids s).
Proof.
  intros [] Hc Hs. assert (u64 (_sn s + 1) = _sn s + 1) as Eu by (apply uwrap_id; unfold in_u; lia). set (id := formSessionId name addr (_sn s)).
  assert (forall c', ids s !! c' <> Some id) as Hnew.
  { intros c' H. destruct (t_ids0 c' id H) as (n & Hn & E). apply id_inj in E; [lia|lia|lia]. }
  unfold enter. rewrite (bind_ok get _ s s s eq_refl). cbv zeta. fold id. rewrite (bind_ok (put _) _ s tt _ eq_refl).
  eexists. split; [reflexivity|]. cbn [_sn ids]. split; [|done]. split; cbn [_sn ids _connsMap]; rewrite ?Eu.
  - intros c' id'. rewrite lookup_insert_Some. intros [[<- <-]|[_ H]]; [exists (_sn s); split; [lia|done]|]. destruct (t_ids0 c' id' H) as (n & Hn & ->). exists n. split; [lia|done].
  - intros c1 c2 id'. rewrite !lookup_insert_Some. intros [[<- <-]|[_ H1]] [[<- E]|[_ H2]]; try done; [by apply Hnew in H2|subst id'; by apply Hnew in H1|by apply (t_inj0 c1 c2 id')].
  - intros id' c'. rewrite elem_of_union, elem_of_singleton, !lookup_insert_Some. fold id. split.
    + intros [[<- <-]|[Hne H]]; [split; [by left|by left]|]. apply t_map0 in H as [H1 H2]. split; [by right|]. right. split; [|done]. intros <-. congruence.
    + intros [Hin [[<- <-]|[Hne H]]]; [by left|]. right. split; [intros <-; by apply Hnew in H|]. apply t_map0. split; [|done]. by destruct Hin as [->|].
Qed.

Lemma leave_ok s here c : table_ok s here -> is_Some (ids s !! c) -> exists b s', leave c s = (Ok b, s') /\ table_ok s' (here ∖ {[c]}) /\ _sn s' = _sn s /\ ids s' = ids s.
Proof.
  intros [] [key Hid]. unfold leave. rewrite (bind_ok get _ s s s eq_refl). rewrite Hid. change (default [] (Some key)) with key. unfold remove.
  destruct (_connsMap s !! key) as [c'|] eqn:Em.
  - assert (c' = c) as -> by (apply t_map0 in Em as [_ Em]; by apply (t_inj0 c' c key)).
    do 2 eexists. split; [reflexivity|]. split; [|done]. split; cbn [_sn ids _connsMap]; try done. intros id' c'. rewrite lookup_delete_Some, t_map0, elem_of_difference, elem_of_singleton. split.
    + intros (Hne & Hin & H). split; [|done]. split; [done|]. intros ->. congruence.
    + intros [[Hin Hne] H]. split_and!; [|done|done]. intros <-. apply Hne. by apply (t_inj0 c' c key).
  - do 2 eexists. split; [reflexivity|]. split; [|done]. split; try done. intros id' c'. rewrite t_map0, elem_of_difference, elem_of_singleton. split; [|tauto].
    intros [Hin H]. split; [|done]. split; [done|]. intros ->. rewrite Hid in H. injection H as <-. assert (_connsMap s !! key = Some c) by (by apply t_map0). congruence.
Qed.

Lemma visits_ok l : forall s here, table_ok s here -> NoDup (entering l) -> (forall c, c ∈ entering l -> ids s !! c = None) ->
  (forall c, Leave c ∈ l -> is_Some (ids s !! c) \/ c ∈ entering l) -> 0 <= _sn s -> _sn s + zlen l < 2 ^ 64 - 1 ->
  (forall l1 c l2, l = l1 ++ Leave c :: l2 -> is_Some (ids s !! c) \/ c ∈ entering l1) ->
  exists s', visits l s = (Ok tt, s') /\ table_ok s' (present l here).
Proof.
  induction l as [|v l IH]; intros s here Ht Hn Hc Hl H0 Hs Hord; [by exists s|]. cbn [visits present length] in *. destruct v as [c|c]; cbn [visit_step].
  - cbn in Hn, Hc. apply list.NoDup_cons in Hn as [Hnc Hn]. destruct (enter_ok s here c Ht) as (s1 & E & H1 & Hs1 & Hi1); [apply Hc; by left|lia|].
    rewrite (bind_ok _ _ _ _ _ E). apply IH; [done|done| | |lia|lia|].
    + intros c' Hin. rewrite Hi1, lookup_insert_ne by (intros <-; done). apply Hc. by right.
    + intros c' Hin. rewrite Hi1. destruct (Hl c' ltac:(by right)) as [Hx|Hx]; [left|]; [destruct (decide (c = c')) as [->|]; [rewrite lookup_insert_eq; by eexists|by rewrite lookup_insert_ne]|].
      cbn in Hx. apply elem_of_cons in Hx as [->|Hx]; [left; rewrite lookup_insert_eq; by eexists|by right].
    + intros l1 c' l2 ->. rewrite Hi1. destruct (Hord (Enter c :: l1) c' l2 eq_refl) as [Hx|Hx]; [left; destruct (decide (c = c')) as [->|]; [rewrite lookup_insert_eq; by eexists|by rewrite lookup_insert_ne]|].
      cbn in Hx. apply elem_of_cons in Hx as [->|Hx]; [left; rewrite lookup_insert_eq; by eexists|by right].
  - destruct (Hord [] c l eq_refl) as [Hx|Hx]; [|by apply not_elem_of_nil in Hx]. destruct (leave_ok s here c Ht Hx) as (b & s1 & E & H1 & Hs1 & Hi1).
    rewrite (bind_ok _ _ _ tt s1); [|by rewrite (bind_ok _ _ _ _ _ E)]. apply IH; [done|done|by rewrite Hi1| |lia|lia|].
    + intros c' Hin. rewrite Hi1. apply Hl. by right.
    + intros l1 c' l2 ->. rewrite Hi1. by apply (Hord (Leave c :: l1) c' l2).
Qed.
End server.

(** While name and address are short, the table holds exactly the sessions that
    are there, each under its own name. *)
Theorem connections_found (name addr : str) (l : list visit) : zlen name + zlen addr <= 40 -> zlen l < 2 ^ 63 -> NoDup (entering l) ->
  (forall l1 c l2, l = l1 ++ Leave c :: l2 -> c ∈ entering l1) ->
  exists s, visits name addr l KcpServer_new = (Ok tt, s) /\ (forall c1 c2 key, ids s !! c1 = Some key -> ids s !! c2 = Some key -> c1 = c2) /\
    forall key c, _connsMap s !! key = Some c <-> c ∈ present l ∅ /\ ids s !! c = Some key.
Proof.
  intros Hs Hl Hn Ho. destruct (visits_ok name addr Hs l KcpServer_new ∅) as (s & E & H).
  - split; cbn; try done. intros key c. rewrite !lookup_empty. split; [done|]. by intros [?%not_elem_of_empty _].
  - done.
  - done.
  - intros c [i Hi]%list_elem_of_lookup. right. apply take_drop_middle in Hi. pose proof (Ho _ _ _ (eq_sym Hi)) as Hx. rewrite <- Hi. unfold entering. rewrite omap_app. apply elem_of_app. by left.
  - done.
  - cbn. lia.
  - intros l1 c l2 E. right. by apply (Ho l1 c l2).
  - exists s. split; [done|]. by split; apply H.
Qed.

(** A long name or address leaves no room for the number: the second session takes the place
    of the first, and when the first leaves, neither is found. *)
Example names_collide :
  let s := (visits (lit "Xten/kcp/1.0 game") (lit "[2001:0db8:85a3:0000:0000:8a2e:0370:7334]:65535") [Enter 0; Enter 1; Leave 0] KcpServer_new).2 in
  ids s !! 0%nat = ids s !! 1%nat /\ _connsMap s = ∅ /\ present [Enter 0; Enter 1; Leave 0] ∅ = {[1%nat]}.
Proof. vm_compute. by split_and!. Qed.
