(* ===== verification/FoxThread.v ===== *)
(** db/fox_thread.cpp: threads that run tasks out of a queue, woken through a socket
    pair by their event loop, pools of such threads, and the table of both.

    What a thread or a client has still to do is a list of actions; an action is a
    critical section of [FoxThread::m_mutex] or [FoxThreadPool::m_mutex], or the code
    between two of them.  In the advanced mode a pool gives a task only to an idle
    thread: it binds the task to a [shared_ptr] of the thread whose deleter returns
    the thread to the list of free ones; [handles] are those pointers with their use
    counts.

    A task is its number: what it does is its own matter, an exception out of it is
    caught, and a task that calls the pool is one more client.  A single [FoxThread] is a
    pool of one thread whose tasks are given to it by [on_thread].  A pool has at least
    one thread; what [dispatch] returns, thread names, the initial callback and the data
    a thread keeps for others are left out.

    Of libevent and the kernel: [read_cb] is called while the descriptor is readable;
    [event_base_loopbreak] ends the loop after the callback that called it; a byte is
    refused when the socket pair is full; a descriptor that is closed is never readable
    again. *)
From Stdlib Require Import List.
From stdpp Require Import gmap sets.
From S2P Require Import Prelude.

(** [std::function<void()>], null for a task that ends the thread.  [Wrap h k] is
    [wrapcb] bound to the handle [h] and the task [k]. *)
Inductive callback := Plain (k : nat) | Wrap (h k : nat).
Abbreviation task := (option callback).

#[global] Instance callback_eq_dec : EqDecision callback.
Proof. solve_decision. Defined.

Record FoxThread := mkThread {
  m_callbacks : list task;
  pipe : Z;                (* bytes in the socket pair *)
  m_thread : bool;         (* there is a thread *)
  m_working : bool; m_start : bool; m_total : Z;
  opened : bool;           (* the two descriptors *)
  loopbreak : bool;        (* the mark event_base_loopbreak leaves *)
  (* all tasks ever queued, those the loop of [read_cb] came to, whether [start] was called *)
  given : list task; ran : list task; begun : bool
}.

Definition FoxThread_new : FoxThread := mkThread [] 0 false false false 0 true false [] [] false.

Definition enqueue (l : list task) '(mkThread q p th w st tl o br g r b) : FoxThread := mkThread (q ++ l) p th w st tl o br (g ++ l) r b.
Definition set_queue q '(mkThread _ p th w st tl o br g r b) : FoxThread := mkThread q p th w st tl o br g r b.
Definition set_pipe p '(mkThread q _ th w st tl o br g r b) : FoxThread := mkThread q p th w st tl o br g r b.
Definition set_thread th '(mkThread q p _ w st tl o br g r b) : FoxThread := mkThread q p th w st tl o br g r b.
Definition set_working w '(mkThread q p th _ st tl o br g r b) : FoxThread := mkThread q p th w st tl o br g r b.
Definition set_start st '(mkThread q p th w _ tl o br g r b) : FoxThread := mkThread q p th w st tl o br g r b.
Definition add_total n '(mkThread q p th w st tl o br g r b) : FoxThread := mkThread q p th w st (u64 (tl + n)) o br g r b.
Definition set_opened o '(mkThread q p th w st tl _ br g r b) : FoxThread := mkThread q p th w st tl o br g r b.
Definition set_break br '(mkThread q p th w st tl o _ g r b) : FoxThread := mkThread q p th w st tl o br g r b.
Definition add_ran c '(mkThread q p th w st tl o br g r b) : FoxThread := mkThread q p th w st tl o br g (r ++ [c]) b.
Definition set_begun '(mkThread q p th w st tl o br g r _) : FoxThread := mkThread q p th w st tl o br g r true.

(** What is left to do of a call. *)
Inductive instr :=
  (* FoxThread::dispatch, batchDispatch: the queue, then the byte *)
  | Post (t : nat) (l : list task) | Send (t : nat)
  | StopThread (t : nat) | JoinThread (t : nat) | CloseFds (t : nat) | Delete (t : nat)
  (* FoxThreadPool::start and FoxThread::start for one thread after the other *)
  | StartThread (t : nat) | MarkStart (t : nat) | Free (t : nat) | Started | Stopped
  (* FoxThreadPool::dispatch *)
  | Dispatch (ks : list nat) | DispatchId (id : Z) (k : nat)
  (* check, releaseFoxThread and the end of a handle *)
  | Check_ | CheckLock | Hand (h k : nat) | PutBack (k : nat) | Drop_ (h : nat) | Release (t : nat)
  (* the thread: event_base_loop, read_cb and the end of its local list *)
  | Loop_ (t : nat) | Swap (t : nat) | Run (t : nat) (rest all : list task) | Finish (t : nat) (all : list task)
  | Destroy (l : list task).

Record Pool := mkPool {
  threads : list FoxThread;          (* m_threads *)
  m_cur : Z; m_advance : bool; p_start : bool; p_total : Z;
  p_callbacks : list nat;            (* m_callbacks *)
  m_freeFoxThreads : list nat;
  handles : list (nat * nat);        (* thread and use count *)
  procs : list (list instr);         (* the threads of the pool first, then the clients *)
  accepted : list nat; handed : list nat
}.

Definition set_threads v '(mkPool _ c a st tl q f h p ac ha) : Pool := mkPool v c a st tl q f h p ac ha.
Definition set_cur v '(mkPool t _ a st tl q f h p ac ha) : Pool := mkPool t v a st tl q f h p ac ha.
Definition set_pstart v '(mkPool t c a _ tl q f h p ac ha) : Pool := mkPool t c a v tl q f h p ac ha.
Definition count_total n '(mkPool t c a st tl q f h p ac ha) : Pool := mkPool t c a st (u64 (tl + n)) q f h p ac ha.
Definition set_pcallbacks v '(mkPool t c a st tl _ f h p ac ha) : Pool := mkPool t c a st tl v f h p ac ha.
Definition set_free v '(mkPool t c a st tl q _ h p ac ha) : Pool := mkPool t c a st tl q v h p ac ha.
Definition set_handles v '(mkPool t c a st tl q f _ p ac ha) : Pool := mkPool t c a st tl q f v p ac ha.
Definition set_procs v '(mkPool t c a st tl q f h _ ac ha) : Pool := mkPool t c a st tl q f h v ac ha.
Definition accept l '(mkPool t c a st tl q f h p ac ha) : Pool := mkPool t c a st tl (q ++ l) f h p (ac ++ l) ha.
Definition hand k '(mkPool t c a st tl q f h p ac ha) : Pool := mkPool t c a st tl q f h p ac (ha ++ [k]).

Definition on_thread_state (t : nat) (f : FoxThread -> FoxThread) (s : Pool) : Pool := set_threads (alter f t (threads s)) s.
Definition size (s : Pool) : nat := length (threads s).

(** FoxThreadPool::FoxThreadPool *)
Definition FoxThreadPool_new (n : nat) (advance : bool) : Pool :=
  mkPool (replicate n FoxThread_new) 0 advance false 0 [] [] [] (replicate n []) [] [].

(** [m_threads[m_cur++ % m_size]] *)
Definition next_thread (s : Pool) : nat * Pool :=
  (Z.to_nat (m_cur s mod Z.of_nat (size s)), set_cur (u32 (m_cur s + 1)) s).

(** One task for each thread in turn. *)
Fixpoint deal (ks : list nat) (s : Pool) : list instr * Pool :=
  match ks with
  | [] => ([], s)
  | k :: ks => let '(t, s) := next_thread s in let '(l, s) := deal ks s in (Post t [Some (Plain k)] :: l, s)
  end.

Section machine.
(** The bytes the socket pair holds. *)
Context (room : Z).

Definition send_byte (th : FoxThread) : FoxThread :=
  if opened th && (pipe th <? room) then set_pipe (pipe th + 1) th else th.

(** What an action leads to: [None] if it has to wait, [Some (None, _)] if it throws. *)
Abbreviation effect := (option (option (list instr) * Pool)).
Definition then_ (l : list instr) (s : Pool) : effect := Some (Some l, s).

(** *** FoxThread *)
(** [dispatch] and [batchDispatch]: under the lock, then the byte. *)
Definition FoxThread_dispatch (t : nat) (l : list task) (s : Pool) : effect := then_ [Send t] (on_thread_state t (enqueue l) s).
Definition FoxThread_send (t : nat) (s : Pool) : effect := then_ [] (on_thread_state t send_byte s).

Definition FoxThread_start (t : nat) (s : Pool) : effect :=
  th ← threads s !! t;
  if m_thread th then Some (None, s)
  else then_ [MarkStart t]
    (set_procs (<[t := [Loop_ t]]> (procs s)) (on_thread_state t (fun th => set_begun (set_break false (set_thread true th))) s)).

(** The lock is held while the byte is sent. *)
Definition FoxThread_stop (t : nat) (s : Pool) : effect :=
  then_ [] (on_thread_state t (fun th => let th := enqueue [None] th in if m_thread th then send_byte th else th) s).

Definition FoxThread_join (t : nat) (s : Pool) : effect :=
  th ← threads s !! t;
  if m_thread th then
    p ← procs s !! t;
    match p with [] => then_ [] (on_thread_state t (set_thread false) s) | _ => None end
  else then_ [] s.

(** [~FoxThread]: the descriptors, [stop], [join], and the members. *)
Definition delete_thread (t : nat) : list instr := [CloseFds t; StopThread t; JoinThread t; Delete t].
Definition delete_members (t : nat) (s : Pool) : effect :=
  th ← threads s !! t; then_ [Destroy (m_callbacks th)] (on_thread_state t (set_queue []) s).

(** [event_base_loop] of [thread_cb]: until [read_cb] has broken it. *)
Definition event_loop (t : nat) (s : Pool) : effect :=
  th ← threads s !! t;
  if loopbreak th then then_ [] s
  else if opened th && (0 <? pipe th) then
    then_ [Swap t; Loop_ t] (on_thread_state t (fun th => set_pipe (pipe th - Z.min 4096 (pipe th)) th) s)
  else None.

(** [read_cb]: the queue, one task after the other, and the end. *)
Definition read_cb_swap (t : nat) (s : Pool) : effect :=
  th ← threads s !! t;
  then_ [Run t (m_callbacks th) (m_callbacks th)] (on_thread_state t (fun th => set_working true (set_queue [] th)) s).
Definition read_cb (t : nat) (rest all : list task) (s : Pool) : effect :=
  match rest with
  | [] => then_ [Finish t all] s
  | Some c :: rest => then_ [Run t rest all] (on_thread_state t (add_ran (Some c)) s)
  | None :: rest => then_ [Finish t all] (on_thread_state t (fun th => set_start false (set_break true (add_ran None th))) s)
  end.
Definition read_cb_end (t : nat) (all : list task) (s : Pool) : effect :=
  then_ [Destroy all] (on_thread_state t (fun th => set_working false (add_total (zlen all) th)) s).

(** *** FoxThreadPool *)
(** [dispatch] and [batchDispatch] *)
Definition FoxThreadPool_dispatch (ks : list nat) (s : Pool) : effect :=
  let s := count_total (zlen ks) s in
  if m_advance s then then_ [Check_] (accept ks s)
  else let '(l, s) := deal ks s in then_ l s.

Definition FoxThreadPool_dispatch_id (id : Z) (k : nat) (s : Pool) : effect :=
  then_ [Post (Z.to_nat (id mod Z.of_nat (size s))) [Some (Plain k)]] (count_total 1 s).

(** The loop of [start], from the thread after [t]. *)
Definition FoxThreadPool_start (t : nat) (s : Pool) : effect :=
  then_ [if (S t <? size s)%nat then StartThread (S t) else Started] (set_free (m_freeFoxThreads s ++ [t]) s).

Definition releaseFoxThread (t : nat) (s : Pool) : effect := then_ [Check_] (set_free (m_freeFoxThreads s ++ [t]) s).

(** [check]: the critical section of a round, and what follows it.  The task is bound to a copy
    of the handle; the next round begins when the handle of this one has been dropped. *)
Definition check_ (s : Pool) : effect := then_ (if p_start s then [CheckLock] else []) s.
Definition check_lock (s : Pool) : effect :=
  match m_freeFoxThreads s, p_callbacks s with
  | t :: free, k :: ks =>
    then_ [Hand (length (handles s)) k]
      (hand k (set_handles (handles s ++ [(t, 1%nat)]) (set_pcallbacks ks (set_free free s))))
  | _, _ => then_ [] s
  end.
Definition check_hand (h k : nat) (s : Pool) : effect :=
  '(t, n) ← handles s !! h;
  th ← threads s !! t;
  if m_start th then then_ [Post t [Some (Wrap h k)]; Drop_ h; Check_] (set_handles (<[h := (t, S n)]> (handles s)) s)
  else then_ [PutBack k; Drop_ h; Check_] s.
Definition put_back (k : nat) (s : Pool) : effect := then_ [] (set_pcallbacks (k :: p_callbacks s) s).

(** One reference less; the last one runs the deleter. *)
Definition drop_handle (h : nat) (s : Pool) : effect :=
  '(t, n) ← handles s !! h;
  then_ (if (n =? 1)%nat then [Release t] else []) (set_handles (<[h := (t, pred n)]> (handles s)) s).

(** A list of tasks goes, from the front. *)
Definition destroy_tasks (l : list task) (s : Pool) : effect :=
  match l with
  | [] => then_ [] s
  | Some (Wrap h _) :: l => then_ [Drop_ h; Destroy l] s
  | _ :: l => then_ [Destroy l] s
  end.

(** One action. *)
Definition exec (i : instr) : Pool -> effect :=
  match i with
  | Post t l => FoxThread_dispatch t l
  | Send t => FoxThread_send t
  | StopThread t => FoxThread_stop t
  | JoinThread t => FoxThread_join t
  | CloseFds t => fun s => then_ [] (on_thread_state t (set_opened false) s)
  | Delete t => delete_members t
  | StartThread t => FoxThread_start t
  | MarkStart t => fun s => then_ [Free t] (on_thread_state t (set_start true) s)
  | Free t => FoxThreadPool_start t
  | Started => fun s => then_ [Check_] (set_pstart true s)
  | Stopped => fun s => then_ [] (set_pstart false s)
  | Dispatch ks => FoxThreadPool_dispatch ks
  | DispatchId id k => FoxThreadPool_dispatch_id id k
  | Check_ => check_
  | CheckLock => check_lock
  | Hand h k => check_hand h k
  | PutBack k => put_back k
  | Drop_ h => drop_handle h
  | Release t => releaseFoxThread t
  | Loop_ t => event_loop t
  | Swap t => read_cb_swap t
  | Run t rest all => read_cb t rest all
  | Finish t all => read_cb_end t all
  | Destroy l => destroy_tasks l
  end.

(** The calls of a client. *)
Inductive call :=
  | dispatch (k : nat) | dispatch_id (id : Z) (k : nat) | batchDispatch (ks : list nat) | broadcast (k : nat)
  | on_thread (t : nat) (ks : list nat)
  | start | stop | join | destroy.

Definition code (c : call) (n : nat) : list instr :=
  match c with
  | dispatch k => [Dispatch [k]]
  | dispatch_id id k => [DispatchId id k]
  | batchDispatch ks => [Dispatch ks]
  | broadcast k => map (fun t => Post t [Some (Plain k)]) (seq 0 n)
  | on_thread t ks => [Post t (map (fun k => Some (Plain k)) ks)]
  | start => [if (0 <? n)%nat then StartThread 0 else Started]
  | stop => map StopThread (seq 0 n) ++ [Stopped]
  | join => map JoinThread (seq 0 n)
  | destroy => seq 0 n ≫= delete_thread
  end.

Inductive event := Call (c : call) | Move (i : nat).

Definition step (e : event) (s : Pool) : option Pool :=
  match e with
  | Call c => Some (set_procs (procs s ++ [code c (size s)]) s)
  | Move i =>
    match procs s !! i with
    | Some (ins :: rest) =>
      '(l, s') ← exec ins s;
      Some (set_procs (<[i := match l with Some l => l ++ rest | None => [] end]> (procs s')) s')
    | _ => None
    end
  end.

Fixpoint run (evs : list event) (s : Pool) : option Pool :=
  match evs with [] => Some s | e :: evs => s ← step e s; run evs s end.
End machine.

(** ** The order of a thread's tasks *)
Definition is_inner (i : instr) : bool :=
  match i with Loop_ _ | Swap _ | Run _ _ _ | Finish _ _ | Delete _ => true | _ => false end.
Abbreviation outer := (Forall (fun i => is_inner i = false)).

(** Where a thread of the pool can be. *)
Inductive at_work (t : nat) : list instr -> Prop :=
  | at_none : at_work t []
  | at_swap : at_work t [Swap t; Loop_ t]
  | at_run rest all : at_work t [Run t rest all; Loop_ t]
  | at_finish all : at_work t [Finish t all; Loop_ t]
  | at_tail l : outer l -> at_work t (l ++ [Loop_ t]).

(** Taken out of the queue and not yet run. *)
Definition pending (p : list instr) : list task := match p with Run _ rest _ :: _ => rest | _ => [] end.
Definition resting (p : list instr) : Prop := match p with Run _ _ _ :: _ | Swap _ :: _ => False | _ => True end.

Definition in_order (th : FoxThread) (p : list instr) : Prop :=
  (None ∉ ran th /\ loopbreak th = false /\ given th = ran th ++ pending p ++ m_callbacks th) \/
  (exists l l', ran th = l ++ [None] /\ None ∉ l /\ given th = l ++ None :: l' /\
    loopbreak th = true /\ begun th = true /\ resting p).

(** Starts of a thread that are to come. *)
Definition will_start (t : nat) (i : instr) : nat :=
  match i with StartThread u => if (u <=? t)%nat then 1 else 0 | MarkStart u | Free u => if (u <? t)%nat then 1 else 0 | _ => 0 end.

Definition total (f : instr -> nat) (s : Pool) : nat := sum_list_with (sum_list_with f) (procs s).

Record thread_ok (c t : nat) (s : Pool) (th : FoxThread) (p : list instr) : Prop := {
  to_work : at_work t p;
  to_order : in_order th p;
  to_begun : m_thread th = true -> begun th = true;
  to_new : begun th = false -> p = [];
  to_start : (total (will_start t) s + Nat.b2n (begun th) = c)%nat
}.

Record ordered (n c : nat) (s : Pool) : Prop := {
  od_size : size s = n;
  od_procs : (n <= length (procs s))%nat;
  od_thread t th p : threads s !! t = Some th -> procs s !! t = Some p -> thread_ok c t s th p;
  od_client i p : (n <= i)%nat -> procs s !! i = Some p -> outer p
}.

(** What an action of another thread may do to a thread. *)
Record touched (th th' : FoxThread) : Prop := {
  td_ran : ran th' = ran th;
  td_break : loopbreak th' = loopbreak th;
  td_begun : begun th' = begun th;
  td_thread : m_thread th' = true -> m_thread th = true;
  td_queue : exists x, given th' = given th ++ x /\ m_callbacks th' = m_callbacks th ++ x
}.

Lemma touched_refl th : touched th th.
Proof. split; try done. exists []. by rewrite !app_nil_r. Qed.

Lemma in_order_touched th th' p : touched th th' -> in_order th p -> in_order th' p.
Proof.
  intros [Hr Hb Hg _ (x & Hx & Hq)] [(H1 & H2 & H3)|(l & l' & H1 & H2 & H3 & H4 & H5 & H6)]; [left|right].
  - rewrite Hr, Hb, Hx, Hq, H3. split_and!; [done..|]. by rewrite <- !app_assoc.
  - exists l, (l' ++ x). rewrite Hr, Hb, Hg, Hx, H3. split_and!; try done. by rewrite <- app_assoc.
Qed.

Lemma touched_enqueue l th : touched th (enqueue l th).
Proof. destruct th. split; try done. by exists l. Qed.
Lemma touched_send room th : touched th (send_byte room th).
Proof. unfold send_byte. destruct th. case_match; [split; try done; exists []; by rewrite !app_nil_r|apply touched_refl]. Qed.
Lemma touched_trans a b c : touched a b -> touched b c -> touched a c.
Proof.
  intros [H1 H2 H3 H4 (x & H5 & H6)] [G1 G2 G3 G4 (y & G5 & G6)]. split; try congruence; [auto|].
  exists (x ++ y). rewrite G5, G6, H5, H6, <- !app_assoc. done.
Qed.

(** Sums over the actions of all threads. *)
Lemma sum_insert {A} (f : A -> nat) l i x y : l !! i = Some x ->
  (sum_list_with f (<[i:=y]> l) + f x = sum_list_with f l + f y)%nat.
Proof.
  intros H. rewrite <- (take_drop_middle l i x H) at 2. rewrite insert_take_drop by (by eapply lookup_lt_Some).
  rewrite !sum_list_with_app. cbn. lia.
Qed.
Lemma alter_insert {A} (g : A -> A) (l : list A) (i : nat) x : l !! i = Some x -> alter g i l = <[i:=g x]> l.
Proof. revert i. induction l as [|z l IH]; intros [|i] [=]; [by subst|]. cbn. f_equal. by apply IH. Qed.
Lemma sum_alter {A} (f : A -> nat) (g : A -> A) l i x : l !! i = Some x ->
  (sum_list_with f (alter g i l) + f x = sum_list_with f l + f (g x))%nat.
Proof. intros H. rewrite (alter_insert g l i x H). by apply sum_insert. Qed.

Lemma deal_state ks : forall s, let '(l, s') := deal ks s in
  threads s' = threads s /\ procs s' = procs s /\ outer l /\ forall t, sum_list_with (will_start t) l = 0%nat.
Proof.
  induction ks as [|k ks IH]; intros s; cbn; [by repeat constructor|]. specialize (IH (set_cur (u32 (m_cur s + 1)) s)).
  destruct (deal ks _) as [l s']. destruct IH as (-> & -> & H & H2). destruct s. split_and!; try done. by constructor.
Qed.

(** What an action does, unfolded. *)
Ltac unexec E := cbn [exec] in E;
  cbv delta [FoxThread_dispatch FoxThread_send FoxThread_start FoxThread_stop FoxThread_join delete_members event_loop read_cb_swap read_cb read_cb_end
    FoxThreadPool_dispatch FoxThreadPool_dispatch_id FoxThreadPool_start releaseFoxThread check_ check_lock check_hand put_back drop_handle destroy_tasks then_] in E; cbv beta zeta in E; cbn match in E.

(** The fields an action leaves alone. *)
Ltac fields := match goal with s : Pool |- _ => by destruct s end.

Section order.
Context (room : Z).

Lemma on_thread_touched t f s u th' : (forall th, touched th (f th)) ->
  threads (on_thread_state t f s) !! u = Some th' -> exists th, threads s !! u = Some th /\ touched th th'.
Proof.
  intros Hf. destruct s. unfold on_thread_state. cbn. rewrite list_lookup_alter. case_decide as E.
  - subst u. destruct (_ !! t) as [th|]; [|done]. intros [= <-]. exists th. by split.
  - intros H. exists th'. split; [done|apply touched_refl].
Qed.

Definition start_ind (i : instr) : Prop := match i with StartThread _ => True | _ => False end.

Record outer_step (ins : instr) (s : Pool) (l : list instr) (s' : Pool) : Prop := {
  os_outer : outer l;
  os_procs : procs s' = procs s;
  os_size : size s' = size s;
  os_thread u th' : threads s' !! u = Some th' -> exists th, threads s !! u = Some th /\ touched th th';
  os_start t : (t < size s)%nat -> sum_list_with (will_start t) l = will_start t ins
}.

Lemma os_same ins s l s' : outer l -> procs s' = procs s -> threads s' = threads s ->
  (forall t, (t < size s)%nat -> sum_list_with (will_start t) l = will_start t ins) -> outer_step ins s l s'.
Proof.
  intros Ho Hp Ht Hw. split; try done; [unfold size; by rewrite Ht|].
  intros u th. rewrite Ht. intros H. exists th. split; [done|apply touched_refl].
Qed.

Lemma os_on ins s l t f s' : outer l -> (forall th, touched th (f th)) ->
  procs s' = procs s -> threads s' = threads (on_thread_state t f s) ->
  (forall t, (t < size s)%nat -> sum_list_with (will_start t) l = will_start t ins) -> outer_step ins s l s'.
Proof.
  intros Ho Hf Hp Ht Hw. split; try done.
  - unfold size. rewrite Ht. destruct s. cbn. apply length_alter.
  - intros u th'. rewrite Ht. by apply on_thread_touched.
Qed.

Lemma touched_field th th' : ran th' = ran th -> loopbreak th' = loopbreak th -> begun th' = begun th ->
  (m_thread th' = true -> m_thread th = true) -> given th' = given th -> m_callbacks th' = m_callbacks th -> touched th th'.
Proof. intros ???? H1 H2. split; try done. exists []. by rewrite H1, H2, !app_nil_r. Qed.

(** The actions that leave the threads alone, and those that work on one. *)
Ltac outer_same := eexists; split; [done|]; apply os_same; [repeat case_match; by repeat constructor|fields..|].
Ltac outer_on t f := eexists; split; [done|]; apply (os_on _ _ _ t f); [by repeat constructor| |fields..|].

Lemma exec_outer ins s l s' : is_inner ins = false -> ~ start_ind ins ->
  exec room ins s = Some (l, s') -> exists l', l = Some l' /\ outer_step ins s l' s'.
Proof.
  intros Hin Hst E.
  destruct ins as [t ts|t|t|t|t|t|t|t|t| | |ks|id k| | |h k|k|h|t|t|t|t r a|t a|ts]; try done; unexec E.
  - injection E as <- <-. outer_on t (enqueue ts); [apply touched_enqueue|done].
  - injection E as <- <-. outer_on t (send_byte room); [apply touched_send|done].
  - injection E as <- <-.
    outer_on t (fun th => let th := enqueue [None] th in if m_thread th then send_byte room th else th); [|done].
    intros th. cbn beta zeta. case_match; [|apply touched_enqueue].
    eapply touched_trans; [apply touched_enqueue|apply touched_send].
  - apply bind_Some in E as (th & _ & E). destruct (m_thread th); [|injection E as <- <-; by outer_same].
    apply bind_Some in E as ([|? ?] & _ & E); [|done]. injection E as <- <-.
    outer_on t (set_thread false); [|done]. intros []. by apply touched_field.
  - injection E as <- <-. outer_on t (set_opened false); [|done]. intros []. by apply touched_field.
  - injection E as <- <-. outer_on t (set_start true); [|intros; cbn; lia]. intros []. by apply touched_field.
  - injection E as <- <-. outer_same.
    intros u Hu. destruct (Nat.ltb_spec (S t) (size s)); cbn;
      change (match u with 0%nat => false | S m' => (t <=? m')%nat end) with (S t <=? u)%nat;
      destruct (Nat.leb_spec (S t) u), (Nat.ltb_spec t u); lia.
  - injection E as <- <-. by outer_same.
  - injection E as <- <-. by outer_same.
  - destruct (m_advance _); [injection E as <- <-; by outer_same|].
    pose proof (deal_state ks (count_total (zlen ks) s)) as H. destruct (deal ks _) as [l' s1].
    injection E as <- <-. destruct H as (H1 & H2 & H3 & H4). eexists. split; [done|].
    apply os_same; [done|by rewrite H2; destruct s|by rewrite H1; destruct s|done].
  - injection E as <- <-. by outer_same.
  - injection E as <- <-. outer_same. intros. by case_match.
  - destruct (m_freeFoxThreads s), (p_callbacks s); injection E as <- <-; by outer_same.
  - apply bind_Some in E as ([t m] & _ & E). apply bind_Some in E as (th & _ & E).
    destruct (m_start th); injection E as <- <-; by outer_same.
  - injection E as <- <-. by outer_same.
  - apply bind_Some in E as ([u m] & _ & E). injection E as <- <-. outer_same. intros. by case_match.
  - injection E as <- <-. by outer_same.
  - destruct ts as [|[[k|h k]|] ts]; injection E as <- <-; by outer_same.
Qed.

Lemma total_move f s s1 i ins rest l : procs s !! i = Some (ins :: rest) -> procs s1 = procs s ->
  (total f (set_procs (<[i:=l ++ rest]> (procs s1)) s1) + f ins = total f s + sum_list_with f l)%nat.
Proof.
  intros Hi Hp. unfold total. pose proof (sum_insert (sum_list_with f) _ _ _ (l ++ rest) Hi) as H.
  rewrite sum_list_with_app in H. cbn in H. destruct s1. cbn in *. subst. lia.
Qed.

Lemma total_ge f s i p : procs s !! i = Some p -> (sum_list_with f p <= total f s)%nat.
Proof. intros Hi. apply (sum_list_with_in p (sum_list_with f)). by eapply list_elem_of_lookup_2. Qed.

Lemma at_work_outer t ins p : is_inner ins = false -> at_work t (ins :: p) ->
  exists l, p = l ++ [Loop_ t] /\ outer l.
Proof.
  intros Hi H. remember (ins :: p) as q eqn:Eq. revert Eq.
  destruct H as [| | | |[|x l] Hl]; cbn; intros Eq; try done; injection Eq as <- <-; try done.
  exists l. split; [done|by inversion Hl].
Qed.

Lemma pending_outer l t : outer l -> pending (l ++ [Loop_ t]) = [] /\ resting (l ++ [Loop_ t]).
Proof. by destruct l as [|[] l]; inversion 1. Qed.

Lemma in_order_pending th p p' : pending p = pending p' -> resting p' -> in_order th p -> in_order th p'.
Proof.
  intros E Hr [(H1 & H2 & H3)|(l & l' & H1 & H2 & H3 & H4 & H5 & H6)]; [left|right; exists l, l'; by split_and!].
  by rewrite <- E.
Qed.

Lemma thread_same c t s s' th p : total (will_start t) s' = total (will_start t) s -> thread_ok c t s th p -> thread_ok c t s' th p.
Proof. intros E []. split; try done. by rewrite E. Qed.

Lemma thread_touched c t s th th' p : touched th th' -> thread_ok c t s th p -> thread_ok c t s th' p.
Proof.
  intros Ht [H1 H2 H3 H4 H5]. pose proof Ht as [Hr Hb Hg Hth _].
  split; [done|by eapply in_order_touched|..]; rewrite Hg; auto.
Qed.

(** An action that is not the work of a thread on its queue. *)
Lemma ordered_outer n c s i ins rest l s1 : procs s !! i = Some (ins :: rest) -> outer_step ins s l s1 ->
  is_inner ins = false -> ordered n c s -> ordered n c (set_procs (<[i:=l ++ rest]> (procs s1)) s1).
Proof.
  intros Hi [Ho Hp Hs Ht Hw] Hin [H1 H2 H3 H4].
  assert (forall t, (t < n)%nat -> total (will_start t) (set_procs (<[i:=l ++ rest]> (procs s1)) s1) = total (will_start t) s) as Htot.
  { intros t Hlt. pose proof (total_move (will_start t) s s1 i ins rest l Hi Hp) as E. rewrite Hw in E by (by rewrite H1). lia. }
  split.
  - destruct s1. cbn in *. unfold size in *. cbn in *. congruence.
  - destruct s1. cbn in *. subst. by rewrite length_insert.
  - intros t th' p Hth Hpt. assert (threads s1 !! t = Some th') as Hth1 by (by destruct s1).
    destruct (Ht t th' Hth1) as (th & Hth0 & Htd).
    assert ((t < n)%nat) as Hlt by (rewrite <- H1; by eapply lookup_lt_Some).
    apply (thread_same c t s); [by apply Htot|]. apply (thread_touched c t s th); [done|].
    assert (<[i:=l ++ rest]> (procs s) !! t = Some p) as Hpt0 by (destruct s1; cbn in *; by subst).
    rewrite list_lookup_insert in Hpt0. case_decide as E; [|by apply H3]. destruct E as [<- _].
    injection Hpt0 as <-. destruct (H3 i th _ Hth0 Hi) as [W O B N S].
    destruct (at_work_outer i ins rest Hin W) as (l' & -> & Hl'). rewrite (app_assoc l).
    assert (outer (l ++ l')) as Hll by (by apply Forall_app). destruct (pending_outer _ i Hll) as [Hpe Hre].
    split; try done; [by apply at_tail|..].
    + eapply in_order_pending; [|done..]. rewrite Hpe. by destruct ins.
    + intros Hb. by specialize (N Hb).
  - intros j p Hj Hpj. assert (<[i:=l ++ rest]> (procs s) !! j = Some p) as Hpj0 by (destruct s1; cbn in *; by subst).
    rewrite list_lookup_insert in Hpj0. case_decide as E; [|by eapply H4]. destruct E as [<- _].
    injection Hpj0 as <-. specialize (H4 i _ Hj Hi). apply Forall_app. split; [done|by inversion H4].
Qed.

(** The work of a thread on its queue. *)
Lemma ordered_worker n c s i ins rest l s1 th th' : procs s !! i = Some (ins :: rest) -> (i < n)%nat ->
  threads s !! i = Some th -> procs s1 = procs s -> threads s1 = <[i:=th']> (threads s) ->
  (forall t, sum_list_with (will_start t) l = will_start t ins) ->
  begun th' = begun th -> m_thread th' = m_thread th ->
  (thread_ok c i s th (ins :: rest) -> at_work i (l ++ rest) /\ in_order th' (l ++ rest)) ->
  ordered n c s -> ordered n c (set_procs (<[i:=l ++ rest]> (procs s1)) s1).
Proof.
  intros Hi Hlt Hth Hp Ht Hw Hb Hm Hok [H1 H2 H3 H4].
  assert (forall t, total (will_start t) (set_procs (<[i:=l ++ rest]> (procs s1)) s1) = total (will_start t) s) as Htot.
  { intros t. pose proof (total_move (will_start t) s s1 i ins rest l Hi Hp) as E. rewrite Hw in E. lia. }
  destruct (Hok (H3 _ _ _ Hth Hi)) as [Hwk Hor]. destruct s1. cbn in Hp, Ht. subst.
  split.
  - unfold size in *. cbn. by rewrite length_insert.
  - cbn. by rewrite length_insert.
  - intros t th1 p. cbn [threads procs set_procs]. destruct (decide (i = t)) as [<-|Hne].
    + rewrite !list_lookup_insert_eq by (by eapply lookup_lt_Some).
      intros [= <-] [= <-]. apply (thread_same c i s); [apply Htot|].
      destruct (H3 _ _ _ Hth Hi) as [W O B N S]. split; rewrite ?Hb, ?Hm; [done..| |done]. intros Hf. by specialize (N Hf).
    + rewrite !list_lookup_insert_ne by done. intros Ht1 Hpt. apply (thread_same c t s); [apply Htot|]. by apply H3.
  - intros j p Hj. cbn. rewrite list_lookup_insert_ne by lia. by apply H4.
Qed.

Lemma on_thread_insert t f s th : threads s !! t = Some th -> threads (on_thread_state t f s) = <[t:=f th]> (threads s).
Proof. intros H. destruct s. by apply alter_insert. Qed.

Lemma ordered_inner n c s i ins rest l s1 : is_inner ins = true -> procs s !! i = Some (ins :: rest) ->
  exec room ins s = Some (l, s1) -> ordered n c s ->
  exists l', l = Some l' /\ ordered n c (set_procs (<[i:=l' ++ rest]> (procs s1)) s1).
Proof.
  intros Hin Hi E Hord. pose proof Hord as [H1 H2 H3 H4].
  destruct (Nat.lt_ge_cases i n) as [Hlt|Hge]; [|by specialize (H4 i _ Hge Hi); inversion H4; subst; congruence].
  destruct (lookup_lt_is_Some_2 (threads s) i) as [th Hth]; [by unfold size in H1; rewrite H1|].
  pose proof (H3 _ _ _ Hth Hi) as Hok. pose proof (to_work _ _ _ _ _ Hok) as W.
  assert (match ins with Loop_ t | Swap t | Run t _ _ | Finish t _ => t = i | _ => False end /\
    match ins with Loop_ _ => rest = [] | _ => rest = [Loop_ i] end) as [Hti Hrest].
  { remember (ins :: rest) as q eqn:Eq. revert Eq. clear -Hin W.
    destruct W as [| | | |[|x l] Hl]; cbn; intros Eq; try done; injection Eq as <- <-; try done. inversion Hl. congruence. }
  destruct ins as [| | | | | | | | | | | | | | | | | | |t|t|t rs all|t all|]; try done; subst t; subst rest; unexec E.
  - rewrite Hth in E. cbn in E. destruct (loopbreak th) eqn:Hbr.
    + injection E as <- <-. eexists. split; [done|].
      apply (ordered_worker n c s i (Loop_ i) [] [] s th th Hi Hlt Hth); try done; [by rewrite list_insert_id|].
      intros [_ O _ _ _]. split; [constructor|]. by destruct O as [(? & ? & ?)|O]; [congruence|right].
    + destruct (opened th && (0 <? pipe th)); [|done]. injection E as <- <-. eexists. split; [done|].
      eapply (ordered_worker n c s i (Loop_ i) [] [Swap i; Loop_ i] _ th _ Hi Hlt Hth); [by destruct s|by apply on_thread_insert|done|by destruct th..| |done].
      intros [_ O _ _ _]. split; [constructor|].
      destruct O as [O|(x & y & ? & ? & ? & ? & ? & ?)]; [left; by destruct th|congruence].
  - rewrite Hth in E. cbn in E. injection E as <- <-. eexists. split; [done|].
    eapply (ordered_worker n c s i (Swap i) _ [_] _ th _ Hi Hlt Hth); [by destruct s|by apply on_thread_insert|done|by destruct th..| |done].
    intros [_ O _ _ _]. split; [constructor|]. destruct O as [(? & ? & Hg)|(x & y & ? & ? & ? & ? & ? & Hr)]; [|by destruct Hr].
    left. destruct th. cbn in *. split_and!; try done. by rewrite app_nil_r.
  - destruct rs as [|[cb|] rs]; injection E as <- <-; (eexists; split; [done|]).
    + apply (ordered_worker n c s i (Run i [] all) _ [_] s th th Hi Hlt Hth); try done; [by rewrite list_insert_id|].
      intros [_ O _ _ _]. split; [constructor|]. by apply (in_order_pending th [Run i [] all; Loop_ i]).
    + eapply (ordered_worker n c s i (Run i _ all) _ [_] _ th _ Hi Hlt Hth); [by destruct s|by apply on_thread_insert|done|by destruct th..| |done].
      intros [_ O _ _ _]. split; [constructor|]. destruct O as [(Hn & ? & Hg)|(x & y & ? & ? & ? & ? & ? & Hr)]; [|by destruct Hr].
      left. destruct th. cbn in *. split_and!; try done; [|by rewrite Hg, <- app_assoc].
      rewrite elem_of_app. intros [?|Hs]; [done|]. by apply list_elem_of_singleton in Hs.
    + eapply (ordered_worker n c s i (Run i _ all) _ [_] _ th _ Hi Hlt Hth); [by destruct s|by apply on_thread_insert|done|by destruct th..| |done].
      intros [_ O B N _]. split; [constructor|]. destruct O as [(Hn & ? & Hg)|(x & y & ? & ? & ? & ? & ? & Hr)]; [|by destruct Hr].
      right. exists (ran th), (rs ++ m_callbacks th). assert (begun th = true) as Hbg.
      { destruct (begun th) eqn:Ebg; [done|]. by specialize (N eq_refl). }
      destruct th. cbn in *. by split_and!.
  - injection E as <- <-. eexists. split; [done|].
    eapply (ordered_worker n c s i (Finish i all) _ [_] _ th _ Hi Hlt Hth); [by destruct s|by apply on_thread_insert|done|by destruct th..| |done].
    intros [_ O _ _ _]. split; [apply (at_tail i [Destroy all]); by constructor|].
    apply (in_order_pending _ [Finish i all; Loop_ i]); [done..|]. destruct O as [O|O]; [left|right]; by destruct th.
Qed.

(** The start of a thread: it is started once, so it is not the one that starts it. *)
Lemma ordered_start n c s i u rest l s1 : (c <= 1)%nat -> procs s !! i = Some (StartThread u :: rest) ->
  exec room (StartThread u) s = Some (l, s1) -> ordered n c s ->
  exists l', l = Some l' /\ ordered n c (set_procs (<[i:=l' ++ rest]> (procs s1)) s1).
Proof.
  intros Hc Hi E [H1 H2 H3 H4]. unexec E. apply bind_Some in E as (th & Hth & E).
  assert ((u < n)%nat) as Hlt by (rewrite <- H1; by eapply lookup_lt_Some).
  destruct (lookup_lt_is_Some_2 (procs s) u) as [pu Hpu]; [lia|].
  assert (forall t th p, threads s !! t = Some th -> procs s !! t = Some p -> (u <= t)%nat -> begun th = false) as Hnb.
  { intros t th' p' Ht Hp Hle. destruct (H3 _ _ _ Ht Hp) as [_ _ _ _ S].
    pose proof (total_ge (will_start t) s i _ Hi) as Hge. cbn in Hge. rewrite (proj2 (Nat.leb_le _ _) Hle) in Hge.
    destruct (begun th'); [cbn in S; lia|done]. }
  assert (begun th = false) as Hbf by (by eapply (Hnb u)).
  destruct (H3 _ _ _ Hth Hpu) as [W O B N S]. specialize (N Hbf). subst pu.
  assert (m_thread th = false) as Hmf by (destruct (m_thread th); [by rewrite B in Hbf|done]).
  assert (i <> u) as Hne by congruence.
  rewrite Hmf in E. injection E as <- <-. exists [MarkStart u]. split; [done|].
  set (s1 := on_thread_state u _ s). set (s2 := set_procs _ s1).
  assert (threads s2 = <[u:=set_begun (set_break false (set_thread true th))]> (threads s)) as Ht2.
  { transitivity (threads s1); [by destruct s|].
    exact (on_thread_insert u (fun th => set_begun (set_break false (set_thread true th))) s th Hth). }
  assert (procs s2 = <[u:=[Loop_ u]]> (procs s)) as Hp2 by (by destruct s).
  assert (forall t, (total (will_start t) (set_procs (<[i:=[MarkStart u] ++ rest]> (procs s2)) s2) +
    (if (u =? t)%nat then 1 else 0) = total (will_start t) s)%nat) as Htot.
  { intros t. assert (procs s2 !! i = Some (StartThread u :: rest)) as Hi2 by (by rewrite Hp2, list_lookup_insert_ne).
    pose proof (total_move (will_start t) s2 s2 i _ rest [MarkStart u] Hi2 eq_refl) as E. cbn [sum_list_with] in E.
    assert (total (will_start t) s2 = total (will_start t) s) as E2.
    { unfold total. rewrite Hp2. pose proof (sum_insert (sum_list_with (will_start t)) _ _ _ [Loop_ u] Hpu) as E2. cbn in E2. lia. }
    rewrite E2 in E. cbn [will_start] in E. revert E.
    destruct (Nat.leb_spec u t), (Nat.ltb_spec u t), (Nat.eqb_spec u t); lia. }
  set (s3 := set_procs _ s2) in *. assert (threads s3 = threads s2) as Ht3 by (by destruct s).
  assert (procs s3 = <[i:=[MarkStart u] ++ rest]> (procs s2)) as Hp3 by (by destruct s).
  split.
  - unfold size. by rewrite Ht3, Ht2, length_insert.
  - by rewrite Hp3, Hp2, !length_insert.
  - intros t th1 p. rewrite Ht3, Ht2, Hp3, Hp2. intros Ht Hp. specialize (Htot t).
    destruct (decide (u = t)) as [<-|Hut].
    + rewrite list_lookup_insert_eq in Ht by (by eapply lookup_lt_Some). injection Ht as <-.
      rewrite list_lookup_insert_ne, list_lookup_insert_eq in Hp by (done || by eapply lookup_lt_Some). injection Hp as <-.
      rewrite Nat.eqb_refl in Htot. destruct th. cbn in *. subst. split; try done; [by apply (at_tail u [])| |cbn; lia].
      destruct O as [(? & ? & ?)|(? & ? & ? & ? & ? & ? & ? & ?)]; [by left|done].
    + rewrite list_lookup_insert_ne in Ht by done. rewrite (proj2 (Nat.eqb_neq u t) Hut), Nat.add_0_r in Htot.
      apply (thread_same c t s); [done|].
      destruct (decide (i = t)) as [<-|Hit]; [|rewrite !list_lookup_insert_ne in Hp by done; by apply H3].
      rewrite list_lookup_insert_eq in Hp by (rewrite length_insert; by eapply lookup_lt_Some). injection Hp as <-.
      destruct (H3 _ _ _ Ht Hi) as [W' O' B' N' S']. destruct (at_work_outer i (StartThread u) rest eq_refl W') as (l' & -> & Hl').
      split; try done; [apply (at_tail i (_ :: l')); by constructor|].
      intros Hb. by specialize (N' Hb).
  - intros j p Hj. rewrite Hp3, Hp2. intros Hp. destruct (decide (i = j)) as [<-|Hij].
    + rewrite list_lookup_insert_eq in Hp by (rewrite length_insert; by eapply lookup_lt_Some). injection Hp as <-.
      specialize (H4 _ _ Hj Hi). constructor; [done|by inversion H4].
    + rewrite !list_lookup_insert_ne in Hp by (done || lia). by eapply H4.
Qed.

(** No call deletes the threads. *)
Definition keeps (e : event) : Prop := match e with Call destroy => False | _ => True end.
Definition starts (evs : list event) : nat := sum_list_with (fun e => match e with Call start => 1%nat | _ => 0%nat end) evs.

Lemma code_outer c n : c <> destroy -> outer (code c n) /\
  forall t, (t < n)%nat -> sum_list_with (will_start t) (code c n) = match c with start => 1%nat | _ => 0%nat end.
Proof.
  intros Hd. assert (forall (f : nat -> instr) k m, (forall t, is_inner (f t) = false /\ forall u, will_start u (f t) = 0%nat) ->
    outer (map f (seq k m)) /\ forall t, sum_list_with (will_start t) (map f (seq k m)) = 0%nat) as Hmap.
  { intros f k m Hf. revert k. induction m as [|m IH]; intros k; cbn; [by repeat constructor|]. destruct (IH (S k)) as [Ha Hb].
    split; [by constructor; [apply Hf|]|]. intros t. by rewrite Hb, (proj2 (Hf k)). }
  destruct c; cbn; try (split; [by repeat constructor|done]); try done.
  - split; [by apply Hmap|intros; by apply Hmap].
  - split; [constructor; [by case_match|done]|]. intros t Ht. destruct n as [|n]; [lia|done].
  - destruct (Hmap StopThread 0%nat n) as [Ha Hb]; [done|]. split; [apply Forall_app; split; [done|by repeat constructor]|].
    intros t _. by rewrite sum_list_with_app, Hb.
  - split; [by apply Hmap|intros; by apply Hmap].
Qed.

Lemma ordered_call n c s k : k <> destroy -> ordered n c s ->
  ordered n (c + match k with start => 1 | _ => 0 end) (set_procs (procs s ++ [code k (size s)]) s).
Proof.
  intros Hk [H1 H2 H3 H4]. destruct (code_outer k (size s) Hk) as [Hout Hsum].
  assert (forall t, (t < n)%nat -> total (will_start t) (set_procs (procs s ++ [code k (size s)]) s) =
    (total (will_start t) s + match k with start => 1 | _ => 0 end)%nat) as Htot.
  { intros t Ht. unfold total. destruct s. cbn [procs set_procs]. rewrite sum_list_with_app. cbn [sum_list_with].
    rewrite Hsum by (by rewrite H1). lia. }
  split.
  - by destruct s.
  - destruct s. cbn in *. rewrite length_app. lia.
  - intros t th p Ht Hp. assert (threads s !! t = Some th) as Ht0 by (by destruct s).
    assert ((t < n)%nat) as Hlt by (rewrite <- H1; by eapply lookup_lt_Some).
    assert (procs s !! t = Some p) as Hp0.
    { destruct s. cbn in *. rewrite lookup_app_l in Hp by lia. done. }
    destruct (H3 _ _ _ Ht0 Hp0) as [W O B N S]. split; try done. rewrite Htot by done. lia.
  - intros i p Hi Hp. assert ((procs s ++ [code k (size s)]) !! i = Some p) as Hp0 by (by destruct s).
    apply lookup_app_Some in Hp0 as [Hp0|[_ Hp0]]; [by eapply H4|]. apply list_lookup_singleton_Some in Hp0 as [_ <-]. done.
Qed.

Lemma ordered_new n a : ordered n 0 (FoxThreadPool_new n a).
Proof.
  assert (forall f m, sum_list_with (sum_list_with f) (replicate m ([] : list instr)) = 0%nat) as Hz by (induction m; done).
  split; cbn; unfold size; cbn; rewrite ?length_replicate; try done.
  - intros t th p Ht Hp. apply lookup_replicate in Ht as [-> _]. apply lookup_replicate in Hp as [-> _].
    split; try done; [constructor|left; split_and!; try done; by intros ?%not_elem_of_nil|]. unfold total. cbn. by rewrite Hz.
  - intros i p Hi Hp. apply lookup_replicate in Hp as [-> _]. constructor.
Qed.

Lemma ordered_step n c e s s' : keeps e -> (c + starts [e] <= 1)%nat -> ordered n c s -> step room e s = Some s' ->
  ordered n (c + starts [e]) s'.
Proof.
  intros He Hc Ho E. destruct e as [k|i]; cbn in E.
  - injection E as <-. cbn in *. rewrite Nat.add_0_r. apply ordered_call; [by intros ->|done].
  - cbn in *. rewrite Nat.add_0_r in *. destruct (procs s !! i) as [[|ins rest]|] eqn:Hi; try done.
    apply bind_Some in E as ([l s1] & E & [= <-]).
    destruct (is_inner ins) eqn:Hin.
    + edestruct ordered_inner as (l' & -> & H); eauto.
    + assert ((exists t, ins = StartThread t) \/ ~ start_ind ins) as [[t ->]|Hns] by (destruct ins; eauto).
      * destruct (ordered_start n c s i t rest l s1 Hc Hi E Ho) as (l' & -> & H). exact H.
      * destruct (exec_outer ins s l s1 Hin Hns E) as (l' & -> & H). by eapply ordered_outer.
Qed.

Lemma ordered_run n evs : forall c s s', Forall keeps evs -> (c + starts evs <= 1)%nat -> ordered n c s ->
  run room evs s = Some s' -> ordered n (c + starts evs) s'.
Proof.
  induction evs as [|e evs IH]; intros c s s' He Hc Ho E; cbn in E.
  - injection E as <-. unfold starts. cbn. by rewrite Nat.add_0_r.
  - apply bind_Some in E as (s1 & E1 & E). assert (starts (e :: evs) = starts [e] + starts evs)%nat as Es by (unfold starts; cbn; lia).
    rewrite Es in *. rewrite Nat.add_assoc. inversion He; subst.
    apply (IH _ s1); [done|lia| |done]. apply (ordered_step n c e s s1); [done|lia|done..].
Qed.

End order.

(** ** A pool that is started once and not stopped *)
Definition ind (b : bool) : nat := if b then 1 else 0.
Definition live_task (c : task) : Prop := c <> None.

(** What the threads and the clients of such a pool have to do. *)
Definition calm_instr (n : nat) (i : instr) : Prop :=
  match i with
  | Post t l => (t < n)%nat /\ Forall live_task l
  | Send t | StartThread t | MarkStart t | Free t | Release t | Loop_ t | Swap t => (t < n)%nat
  | Run t rest all => (t < n)%nat /\ Forall live_task rest /\ Forall live_task all
  | Finish t all => (t < n)%nat /\ Forall live_task all
  | Destroy l => Forall live_task l
  | StopThread _ | JoinThread _ | CloseFds _ | Delete _ | Stopped | PutBack _ => False
  | _ => True
  end.

(** The handle [h] in a task, and the references to it that an action holds. *)
Definition copies (h : nat) (c : task) : nat := match c with Some (Wrap h' _) => ind (h' =? h)%nat | _ => 0 end.
Definition refs (h : nat) (i : instr) : nat :=
  match i with
  | Hand h' _ | Drop_ h' => ind (h' =? h)%nat
  | Post _ l | Run _ _ l | Finish _ l | Destroy l => sum_list_with (copies h) l
  | _ => 0
  end.
Definition use_count (h : nat) (s : Pool) : nat := match handles s !! h with Some (_, m) => m | None => 0 end.
Definition queued (g : task -> nat) (s : Pool) : nat := sum_list_with (fun th => sum_list_with g (m_callbacks th)) (threads s).

(** The thread [t] is one token: free, in a handle that is in use, on its way back, or
    still to be started. *)
Definition occ (t : nat) (l : list nat) : nat := sum_list_with (fun u => ind (u =? t)%nat) l.
Definition in_use (t : nat) (h : nat * nat) : nat := ind ((h.1 =? t)%nat && negb (h.2 =? 0)%nat).
Definition token (t : nat) (i : instr) : nat :=
  match i with Release u => ind (u =? t)%nat | StartThread u | MarkStart u | Free u => ind (u <=? t)%nat | _ => 0 end.
Definition unmarked (t : nat) (i : instr) : nat :=
  match i with StartThread u | MarkStart u => ind (u <=? t)%nat | Free u => ind (u <? t)%nat | _ => 0 end.
Definition starting (i : instr) : nat := match i with StartThread _ | MarkStart _ | Free _ | Started => 1 | _ => 0 end.

(** The task [k] of the pool. *)
Definition wraps (k : nat) (c : task) : nat := match c with Some (Wrap _ k') => ind (k' =? k)%nat | _ => 0 end.
Definition carried (k : nat) (i : instr) : nat :=
  match i with Hand _ k' => ind (k' =? k)%nat | Post _ l | Run _ l _ => sum_list_with (wraps k) l | _ => 0 end.
Definition executed (k : nat) (s : Pool) : nat := sum_list_with (fun th => sum_list_with (wraps k) (ran th)) (threads s).

Definition checking (i : instr) : nat := match i with Check_ | CheckLock | Hand _ _ => 1 | _ => 0 end.
Definition waking (t : nat) (i : instr) : nat := match i with Send u | Swap u => ind (u =? t)%nat | _ => 0 end.

Record thread_calm (c t : nat) (s : Pool) (th : FoxThread) : Prop := {
  tc_open : opened th = true /\ loopbreak th = false /\ 0 <= pipe th;
  tc_queue : Forall live_task (m_callbacks th);
  tc_wake : m_callbacks th = [] \/ 0 < pipe th \/ (0 < total (waking t) s)%nat;
  tc_thread : m_thread th = begun th;
  tc_start : (ind (m_start th) + total (unmarked t) s)%nat = c;
  tc_token : (occ t (m_freeFoxThreads s) + sum_list_with (in_use t) (handles s) + total (token t) s)%nat = c
}.

Record calm (n c : nat) (s : Pool) : Prop := {
  ca_order : ordered n c s;
  ca_instr : Forall (Forall (calm_instr n)) (procs s);
  ca_free : Forall (fun t => (t < n)%nat) (m_freeFoxThreads s) /\ Forall (fun h : nat * nat => (h.1 < n)%nat) (handles s);
  ca_thread t th : threads s !! t = Some th -> thread_calm c t s th;
  ca_alive t th : threads s !! t = Some th -> begun th = true -> procs s !! t <> Some [];
  ca_refs h : use_count h s = (total (refs h) s + queued (copies h) s)%nat;
  ca_pstart : (ind (p_start s) + total starting s)%nat = c;
  ca_check : p_start s = true -> m_freeFoxThreads s = [] \/ p_callbacks s = [] \/ (0 < total checking s)%nat;
  ca_accepted : accepted s = handed s ++ p_callbacks s;
  ca_handed k : occ k (handed s) = (total (carried k) s + queued (wraps k) s + executed k s)%nat
}.

#[local] Arguments Nat.ltb : simpl never.
#[local] Arguments Nat.leb : simpl never.
#[local] Arguments Nat.mul : simpl never.

(** Comparisons of numbers, decided. *)
Ltac nats := unfold ind; repeat match goal with
  | |- context [(?a <=? ?b)%nat] => destruct (Nat.leb_spec a b)
  | |- context [(?a <? ?b)%nat] => destruct (Nat.ltb_spec a b)
  | |- context [(?a =? ?b)%nat] => destruct (Nat.eqb_spec a b) end; cbn; try lia.

Section calm.
Context (room : Z) (Hroom : 0 < room).

Lemma queued_on g t f s th : threads s !! t = Some th ->
  (queued g (on_thread_state t f s) + sum_list_with g (m_callbacks th) = queued g s + sum_list_with g (m_callbacks (f th)))%nat.
Proof. intros H. destruct s. unfold queued, on_thread_state. cbn in *. exact (sum_alter (fun th => sum_list_with g (m_callbacks th)) f _ _ _ H). Qed.

Lemma executed_on k t f s th : threads s !! t = Some th ->
  (executed k (on_thread_state t f s) + sum_list_with (wraps k) (ran th) = executed k s + sum_list_with (wraps k) (ran (f th)))%nat.
Proof. intros H. destruct s. unfold executed, on_thread_state. cbn in *. exact (sum_alter (fun th => sum_list_with (wraps k) (ran th)) f _ _ _ H). Qed.

(** What can be added to the sum of all actions by an action of [i]. *)
Lemma total_step f s i ins rest l s1 : f (Loop_ (match ins with StartThread u => u | _ => 0%nat end)) = 0%nat ->
  (match ins with StartThread u => procs s !! u = Some [] | _ => True end) ->
  (match ins with Delete _ | StopThread _ | JoinThread _ => False | _ => True end) ->
  procs s !! i = Some (ins :: rest) -> exec room ins s = Some (Some l, s1) ->
  (total f (set_procs (<[i:=l ++ rest]> (procs s1)) s1) + f ins = total f s + sum_list_with f l)%nat.
Proof.
  intros Hf Hu Hn Hi E.
  assert ((exists t, ins = StartThread t) \/ ~ start_ind ins) as [[u ->]|Hns] by (destruct ins; eauto).
  - unexec E. apply bind_Some in E as (th & _ & E). destruct (m_thread th); [done|]. injection E as <- <-.
    unfold total. destruct s. cbn in *. assert (i <> u) as Hne by congruence.
    assert (<[u:=[Loop_ u]]> procs0 !! i = Some (StartThread u :: rest)) as Hi' by (by rewrite list_lookup_insert_ne).
    pose proof (sum_insert (sum_list_with f) _ _ _ (MarkStart u :: rest) Hi') as H1.
    pose proof (sum_insert (sum_list_with f) _ _ _ [Loop_ u] Hu) as H2. cbn in H1, H2. rewrite Hf in H2. lia.
  - apply total_move; [done|]. destruct (is_inner ins) eqn:Hin.
    + destruct ins as [| | | | | | | | | | | | | | | | | | |t|t|t [|[?|] ?] ?|t ?|]; try done; unexec E;
        try (apply bind_Some in E as (th & _ & E)); try (destruct (loopbreak th); [|destruct (_ && _)]); try done; injection E as <- <-; fields.
    + destruct (exec_outer room ins s _ s1 Hin Hns E) as (l' & _ & H). by destruct H.
Qed.
(** An action with its condition, as the code has it. *)
Ltac on_exec E := unexec E; repeat match type of E with
  | (_ ≫= _) = Some _ => let x := fresh "x" in apply bind_Some in E as (x & ? & E);
    match type of x with (_ * _)%type => destruct x | _ => idtac end
  | (if ?b then _ else _) = Some _ => destruct b eqn:?; try discriminate E
  | Some (if ?b then _ else _) = Some _ => destruct b eqn:?; try discriminate E
  | match ?l with [] => _ | _ => _ end = Some _ => destruct l eqn:?; try discriminate E
  end; try discriminate E; try (injection E as <- <-).

Definition calm_call (n : nat) (k : call) : Prop :=
  match k with stop | join | destroy => False | on_thread t _ => (t < n)%nat | _ => True end.

(** How much there is left to do *)
Definition held (c : task) : nat := match c with Some (Wrap _ _) => 5 | _ => 1 end.
Definition weight (n : nat) (i : instr) : nat :=
  match i with
  | Post _ l => 8 + sum_list_with (fun c => S (held c)) l
  | Send _ => 7
  | StartThread u => 3 * (n - u) + 3 | MarkStart u => 3 * (n - u) + 2 | Free u => 3 * (n - u) + 1 | Started => 3
  | Dispatch ks => 3 + 21 * length ks | DispatchId _ _ => 11
  | Check_ => 2 | CheckLock => 1 | Hand _ _ => 21 | Drop_ _ => 4 | Release _ => 3
  | Swap _ => 4
  | Run _ rest all => 3 + length rest + sum_list_with held all
  | Finish _ all => 2 + sum_list_with held all
  | Destroy l => 1 + sum_list_with held l
  | _ => 0
  end.
Definition load (th : FoxThread) : nat := (6 * Z.to_nat (pipe th) + sum_list_with (fun c => S (held c)) (m_callbacks th))%nat.
Definition store (s : Pool) : nat := (21 * length (p_callbacks s) + sum_list_with load (threads s))%nat.
Definition work (n : nat) (s : Pool) : nat := (store s + total (weight n) s)%nat.

Lemma deal_calm n ks : forall s, (0 < n)%nat -> size s = n -> let '(l, s') := deal ks s in
  Forall (calm_instr n) l /\ (forall h, sum_list_with (refs h) l = 0%nat) /\ (forall k, sum_list_with (carried k) l = 0%nat) /\
  (forall t, sum_list_with (waking t) l = 0%nat /\ sum_list_with (token t) l = 0%nat /\ sum_list_with (unmarked t) l = 0%nat) /\
  sum_list_with starting l = 0%nat /\ (forall m, sum_list_with (weight m) l = (10 * length ks)%nat) /\
  exists m, s' = set_cur m s.
Proof.
  induction ks as [|k ks IH]; intros s Hn Hs; cbn; [split_and!; try (by constructor); exists (m_cur s); by destruct s|].
 
  specialize (IH (set_cur (u32 (m_cur s + 1)) s) Hn ltac:(by destruct s)). destruct (deal ks _) as [l s'].
  destruct IH as (H1 & H2 & H3 & H4 & H5 & H6 & m & ->). split_and!; try done; [|intros; cbn; rewrite H6; lia|exists m; by destruct s].
  constructor; [|done]. split; [|by constructor]. rewrite <- Hs.
  pose proof (Z.mod_pos_bound (m_cur s) (Z.of_nat (size s)) ltac:(lia)). lia.
Qed.

Lemma sum_le {A} (f g : A -> nat) l : (forall x, (f x <= g x)%nat) -> (sum_list_with f l <= sum_list_with g l)%nat.
Proof. intros H. induction l as [|x l IH]; cbn; [lia|]. specialize (H x). lia. Qed.

Lemma total_le f g x : (forall j, (f j <= g j)%nat) -> (total f x <= total g x)%nat.
Proof. intros H. apply sum_le. intros. by apply sum_le. Qed.

Lemma unmarked_token t j : (unmarked t j <= token t j)%nat.
Proof. destruct j as [| | | | | | | |u| | | | | | | | | | | | | | |]; cbn [unmarked token]; try lia. destruct (Nat.ltb_spec u t), (Nat.leb_spec u t); cbn; lia. Qed.

(** What happens to a thread. *)
Record thread_step (s : Pool) (ins : instr) (t : nat) (th th' : FoxThread) (l' : list instr) : Prop := {
  ts_open : opened th' = true /\ loopbreak th' = false /\ 0 <= pipe th';
  ts_queue : Forall live_task (m_callbacks th');
  ts_wake : m_callbacks th' = [] \/ 0 < pipe th' \/ (waking t ins < total (waking t) s + sum_list_with (waking t) l')%nat;
  ts_thread : m_thread th' = begun th';
  ts_start : (ind (m_start th') + sum_list_with (unmarked t) l' = ind (m_start th) + unmarked t ins)%nat;
  ts_begun : begun th' = true -> begun th = true \/ ins = StartThread t
}.


Section one.
Context (n c : nat) (s : Pool) (i : nat) (ins : instr) (rest : list instr).
Context (Hn : (0 < n)%nat) (Hc : (c <= 1)%nat) (Hca : calm n c s) (Hi : procs s !! i = Some (ins :: rest)).

Lemma head_calm : calm_instr n ins.
Proof.
  pose proof (Forall_lookup_1 _ _ _ _ (ca_instr _ _ _ Hca) Hi) as H. by inversion H.
Qed.

Lemma head_total f : (f ins <= total f s)%nat.
Proof. pose proof (total_ge f s i _ Hi) as H. cbn in H. lia. Qed.

Lemma thread_of t : (t < n)%nat -> exists th, threads s !! t = Some th.
Proof. intros Ht. apply lookup_lt_is_Some_2. pose proof (od_size _ _ _ (ca_order _ _ _ Hca)) as H. unfold size in H. by rewrite H. Qed.

Lemma handle_used h : (0 < refs h ins)%nat -> exists t m, handles s !! h = Some (t, S m) /\ (t < n)%nat.
Proof.
  intros Hr. pose proof (ca_refs _ _ _ Hca h) as E. pose proof (head_total (refs h)). unfold use_count in E.
  destruct (handles s !! h) as [[t [|m]]|] eqn:Eh; [lia| |lia]. exists t, m. split; [done|].
  by apply (Forall_lookup_1 _ _ _ _ (proj2 (ca_free _ _ _ Hca)) Eh).
Qed.

(** A start that is to come has not happened. *)
Lemma start_fresh u : ins = StartThread u -> procs s !! u = Some [] /\ exists th, threads s !! u = Some th /\ m_thread th = false /\ begun th = false.
Proof.
  intros Ei. pose proof head_calm as Hu. rewrite Ei in Hu. cbn in Hu. destruct (thread_of u Hu) as [th Hth].
  destruct (lookup_lt_is_Some_2 (procs s) u) as [p Hp]; [pose proof (od_procs _ _ _ (ca_order _ _ _ Hca)); lia|].
  destruct (od_thread _ _ _ (ca_order _ _ _ Hca) u th p Hth Hp) as [_ _ _ N S].
  pose proof (head_total (will_start u)) as H. rewrite Ei in H. cbn in H. rewrite Nat.leb_refl in H.
  assert (begun th = false) as Hb by (destruct (begun th); [cbn in S; lia|done]).
  rewrite (N Hb) in Hp. split; [done|]. exists th. split_and!; try done. by rewrite (tc_thread _ _ _ _ (ca_thread _ _ _ Hca u th Hth)).
Qed.

(** Only a thread in its event loop waits. *)
Lemma exec_enabled : (forall u, ins <> Loop_ u) -> exists r, exec room ins s = Some r.
Proof.
  intros Hnl. pose proof head_calm as Hcalm. pose proof handle_used as Hh. pose proof thread_of as Hth. clear Hi.
  destruct ins as [u ts|u|u|u|u|u|u|u|u| | |ks|id q| | |g q|q|g|u|u|u|u [|[cb|] rs] al|u al|[|[[q|g q]|] ts]]; cbn in Hcalm; try done; cbn [exec];
    cbv delta [FoxThread_dispatch FoxThread_send FoxThread_start FoxThread_stop FoxThread_join delete_members event_loop read_cb_swap read_cb read_cb_end
    FoxThreadPool_dispatch FoxThreadPool_dispatch_id FoxThreadPool_start releaseFoxThread check_ check_lock check_hand put_back drop_handle destroy_tasks then_]; cbv beta zeta; eauto.
  - destruct (Hth u Hcalm) as [th ->]. cbn. case_match; eauto.
  - case_match; eauto. destruct (deal _ _). eauto.
  - repeat case_match; eauto.
  - destruct (Hh g) as (t & m & -> & Ht); [cbn; rewrite Nat.eqb_refl; cbn; lia|]. cbn. destruct (Hth t Ht) as [th ->]. cbn. case_match; eauto.
  - destruct (Hh g) as (t & m & -> & Ht); [cbn; rewrite Nat.eqb_refl; cbn; lia|]. cbn. eauto.
  - by destruct (Hnl u).
  - destruct (Hth u Hcalm) as [th ->]. cbn. eauto.
Qed.

Context (l : option (list instr)) (s1 : Pool) (E : exec room ins s = Some (l, s1)).

Lemma exec_total f l' : (forall u, f (Loop_ u) = 0%nat) -> l = Some l' ->
  (total f (set_procs (<[i:=l' ++ rest]> (procs s1)) s1) + f ins = total f s + sum_list_with f l')%nat.
Proof.
  intros Hf El. apply (total_step f s i); try done; [| |by rewrite <- El].
  - pose proof start_fresh as H. clear - H. destruct ins; try done. by apply (H t).
  - pose proof head_calm as H. clear - H. by destruct ins.
Qed.
(** The thread of a handle runs. *)
Lemma handle_started g t m th : (0 < refs g ins)%nat -> handles s !! g = Some (t, m) -> threads s !! t = Some th -> m_start th = true.
Proof.
  intros Hg Eh Eth. destruct (handle_used g Hg) as (t' & m' & Eg & Ht'). rewrite Eg in Eh. injection Eh as -> <-.
  destruct (ca_thread _ _ _ Hca t th Eth) as [_ _ _ _ Hs Htk].
  assert (1 <= sum_list_with (in_use t) (handles s))%nat as H1.
  { etransitivity; [|by apply (sum_list_with_in (t, S m')), list_elem_of_lookup_2 with g]. unfold in_use. cbn. by rewrite Nat.eqb_refl. }
  pose proof (total_le _ _ s (unmarked_token t)). destruct (m_start th); [done|]. cbn in Hs. lia.
Qed.

(** The actions such a pool can take, with what they need. *)
Ltac each := pose proof head_calm as Hcalm; pose proof handle_used as Hh; pose proof handle_started as Hhs; pose proof thread_of as Hth; pose proof start_fresh as Hsf;
  clear Hi; revert E Hcalm Hh Hhs Hsf; generalize ins as j; intros j E Hcalm Hh Hhs Hsf;
  destruct j as [u ts|u|u|u|u|u|u|u|u| | |ks|id q| | |g q|q|g|u|u|u|u [|[cb|] rs] al|u al|[|[[q|g q]|] ts]]; cbn in Hcalm; try done;
  try (exfalso; destruct Hcalm as (_ & Hcalm & _); by inversion Hcalm); on_exec E;
  try match goal with Ems : m_start ?th = false |- _ => exfalso;
    assert (m_start th = true); [eapply Hhs; [|eassumption..]; cbn; rewrite Nat.eqb_refl; cbn; lia|congruence] end;
  try match type of E with context [deal ?k ?s0] =>
    let H := fresh "Hdeal" in let Hs := fresh "Hs" in
    assert (size s0 = n) as Hs by (rewrite <- (od_size _ _ _ (ca_order _ _ _ Hca)); fields);
    pose proof (deal_calm n k s0 Hn Hs) as H; destruct (deal k s0) as [? ?]; injection E as <- <-;
    destruct H as (? & ? & ? & ? & ? & ? & ? & ->) end.

Lemma use_count_insert h h' t m m' : handles s !! h' = Some (t, m') ->
  use_count h (set_handles (<[h':=(t, m)]> (handles s)) s) = if (h' =? h)%nat then m else use_count h s.
Proof.
  intros Hh. unfold use_count. destruct s as [? ? ? ? ? ? ? hs ? ? ?]. cbn in *. destruct (Nat.eqb_spec h' h) as [->|Hne].
  - by rewrite list_lookup_insert_eq by (by eapply lookup_lt_Some).
  - by rewrite list_lookup_insert_ne.
Qed.

(** The thread an action works on, and what the action does to the queues. *)
Ltac on_thread g := try match goal with Hth : (forall t, (t < n)%nat -> _) |- context [on_thread_state ?u ?f s] =>
  let th := fresh "th" in destruct (Hth u) as [th ?]; [tauto|];
  match goal with Eth : threads s !! u = Some th |- _ =>
    pose proof (queued_on g u f s th Eth); repeat match goal with H : threads s !! u = Some ?x, H' : threads s !! u = Some th |- _ =>
      assert (x = th) by congruence; subst x; clear H end
  end end.
Lemma send_byte_keeps th : m_callbacks (send_byte room th) = m_callbacks th /\ ran (send_byte room th) = ran th.
Proof. unfold send_byte. destruct th. by case_match. Qed.

Ltac settle El := try discriminate El; try (injection El as <-);
  rewrite ?(fun th => proj1 (send_byte_keeps th)), ?(fun th => proj2 (send_byte_keeps th)) in *;
  repeat match goal with th : FoxThread |- _ => destruct th end; destruct s; unfold use_count, queued, executed in *; cbn in *;
  rewrite ?sum_list_with_app in *; cbn in *; repeat match goal with H : ?x = _ |- _ => is_var x; subst x end; cbn in *.

Ltac on_executed k := try match goal with H : threads s !! ?u = Some ?th |- context [on_thread_state ?u ?f s] => pose proof (executed_on k u f s th H) end.

Lemma exec_refs h l' : l = Some l' ->
  (use_count h s1 + refs h ins + queued (copies h) s = use_count h s + sum_list_with (refs h) l' + queued (copies h) s1)%nat.
Proof.
  intros El. each; on_thread (copies h); settle El; try lia; try (repeat case_match; cbn; lia).
  - match goal with H : forall h, sum_list_with (refs h) _ = _ |- _ => rewrite H end. lia.
  - destruct (Nat.eqb_spec (length handles0) h) as [<-|Hne].
    + rewrite (lookup_ge_None_2 handles0), list_lookup_middle by done. cbn. lia.
    + destruct (Nat.lt_ge_cases h (length handles0)); [rewrite lookup_app_l by done; cbn; lia|].
      rewrite !(proj2 (lookup_ge_None _ h)) by (rewrite ?length_app; cbn; lia). cbn. lia.
  - destruct (Nat.eqb_spec g h) as [<-|Hne]; cbn; [|rewrite list_lookup_insert_ne by done; lia].
    rewrite list_lookup_insert_eq by (by eapply lookup_lt_Some).
    match goal with H : handles0 !! g = _ |- _ => rewrite H end. lia.
  - destruct (Hh g) as (t & m & E & _); [rewrite Nat.eqb_refl; cbn; lia|].
    match goal with H : handles0 !! g = _ |- _ => rewrite E in H; injection H as -> <- end.
    assert (sum_list_with (refs h) (if (S m =? 1)%nat then [Release n0] else []) = 0%nat) as -> by (by case_match).
    destruct (Nat.eqb_spec g h) as [<-|Hne]; cbn; [|rewrite list_lookup_insert_ne by done; lia].
    rewrite list_lookup_insert_eq, E by (by eapply lookup_lt_Some). lia.
Qed.

Lemma exec_handed k l' : l = Some l' ->
  (occ k (handed s1) + carried k ins + queued (wraps k) s + executed k s =
   occ k (handed s) + sum_list_with (carried k) l' + queued (wraps k) s1 + executed k s1)%nat.
Proof.
  intros El. each; on_thread (wraps k); on_executed k; settle El; try lia; try (repeat case_match; cbn; lia).
  match goal with H : forall k, sum_list_with (carried k) _ = _ |- _ => rewrite H end. lia.
Qed.

Lemma in_use_insert t g u m m' hs : hs !! g = Some (u, m) ->
  (sum_list_with (in_use t) (<[g:=(u, m')]> hs) + in_use t (u, m) = sum_list_with (in_use t) hs + in_use t (u, m'))%nat.
Proof. intros H. by apply sum_insert. Qed.

Lemma exec_token t l' : (t < n)%nat -> l = Some l' ->
  (occ t (m_freeFoxThreads s1) + sum_list_with (in_use t) (handles s1) + sum_list_with (token t) l' =
   occ t (m_freeFoxThreads s) + sum_list_with (in_use t) (handles s) + token t ins)%nat.
Proof.
  intros Ht El. pose proof (od_size _ _ _ (ca_order _ _ _ Hca)) as Hsz. unfold size in Hsz.
  each; settle El; try lia; try (repeat case_match; cbn; lia).
  - destruct (Nat.ltb_spec (S u) (length threads0)); cbn; nats.
  - match goal with H : forall t, _ /\ sum_list_with (token t) _ = _ /\ _ |- _ => rewrite (proj1 (proj2 (H t))) end. lia.
  - unfold in_use. cbn. rewrite andb_true_r. lia.
  - destruct (Hh g) as (u & m & Eg & _); [rewrite Nat.eqb_refl; cbn; lia|].
    match goal with H : handles0 !! g = _ |- _ => rewrite Eg in H; injection H as -> <- end.
    pose proof (in_use_insert t g _ _ (S (S m)) _ Eg) as Hin. unfold in_use in *. cbn in *. lia.
  - destruct (Hh g) as (u & m & Eg & _); [rewrite Nat.eqb_refl; cbn; lia|].
    match goal with H : handles0 !! g = _ |- _ => rewrite Eg in H; injection H as -> <- end.
    pose proof (in_use_insert t g _ _ m _ Eg) as Hin.
    destruct m; unfold in_use in *; cbn in *; rewrite ?andb_true_r, ?andb_false_r in *; cbn in *; lia.
Qed.

Lemma exec_starting l' : l = Some l' ->
  (ind (p_start s1) + sum_list_with starting l' = ind (p_start s) + starting ins)%nat.
Proof.
  intros El. pose proof (head_total starting) as Hst. pose proof (ca_pstart _ _ _ Hca) as Hps. revert Hst.
  each; intros Hst; settle El; try lia; try (repeat case_match; cbn; lia).
Qed.

(** What is checked for: nobody waits for a thread while one is free. *)
Lemma exec_check l' : l = Some l' -> p_start s1 = true ->
  m_freeFoxThreads s1 = [] \/ p_callbacks s1 = [] \/ (0 < sum_list_with checking l')%nat \/
  (checking ins = 0%nat /\ p_start s = true /\ m_freeFoxThreads s1 = m_freeFoxThreads s /\ p_callbacks s1 = p_callbacks s).
Proof.
  intros El. pose proof (head_total starting) as Hst. pose proof (ca_pstart _ _ _ Hca) as Hps. revert Hst.
  each; intros Hst; settle El; intros Hp; try (subst p_start0); try (right; right; left; lia); try (by right; right; right); auto.
  cbn in *. lia.
Qed.

Lemma exec_accepted l' : l = Some l' -> accepted s1 = handed s1 ++ p_callbacks s1.
Proof.
  intros El. pose proof (ca_accepted _ _ _ Hca) as Ha. each; settle El; try done; by rewrite <- app_assoc.
Qed.

Lemma exec_instr l' : l = Some l' -> Forall (calm_instr n) l' /\
  Forall (fun t => (t < n)%nat) (m_freeFoxThreads s1) /\ Forall (fun h : nat * nat => (h.1 < n)%nat) (handles s1).
Proof.
  intros El. pose proof (ca_free _ _ _ Hca) as [Hf Hs]. pose proof (od_size _ _ _ (ca_order _ _ _ Hca)) as Hsz. unfold size in Hsz.
  assert (forall g u m, handles s !! g = Some (u, m) -> (u < n)%nat) as Hsg.
  { intros g u m Eg. exact (Forall_lookup_1 _ _ _ _ Hs Eg). }
  assert (forall u th, threads s !! u = Some th -> Forall live_task (m_callbacks th)) as Hq.
  { intros u th Eu. apply (ca_thread _ _ _ Hca u th Eu). }
  each; settle El; try (by repeat constructor); try specialize (Hsg _ _ _ ltac:(eassumption)); try specialize (Hq _ _ ltac:(eassumption));
    repeat match goal with H : _ /\ _ |- _ => destruct H | H : Forall _ (_ :: _) |- _ => apply Forall_cons_1 in H end;
    split_and!; try done; repeat first [apply Forall_cons_2 | apply Forall_app_2 | apply Forall_insert | apply Forall_nil_2]; cbn; try done.
  - destruct (Nat.ltb_spec (S u) (length threads0)); cbn; [lia|done].
  - split; [|by constructor]. pose proof (Z.mod_pos_bound id (zlen threads0)). lia.
  - case_match; by repeat constructor.
  - split; [done|by constructor].
  - case_match; by repeat constructor.
Qed.

Lemma exec_thread_same t th l' : thread_calm c t s th -> (sum_list_with (unmarked t) l' = unmarked t ins) ->
  (waking t ins = 0 \/ 0 < sum_list_with (waking t) l')%nat -> thread_step s ins t th th l'.
Proof.
  intros [H1 H2 H3 H4 H5 H6] Hu Hw. split; try done; [|lia|by left].
  pose proof (head_total (waking t)) as Hin. destruct H3 as [?|[?|?]]; [by left|by right; left|right; right]. lia.
Qed.
Lemma on_thread_lookup u f x t th' : threads (on_thread_state u f x) !! t = Some th' ->
  exists th, threads x !! t = Some th /\ (t = u /\ th' = f th \/ t <> u /\ th' = th).
Proof.
  intros H. destruct x. unfold on_thread_state in H. cbn in *. rewrite list_lookup_alter in H. case_decide as Etu.
  - subst u. destruct (_ !! t) as [th|]; [|done]. injection H as <-. exists th. auto.
  - exists th'. auto.
Qed.

Lemma exec_thread t th' l' : (t < n)%nat -> threads s1 !! t = Some th' -> l = Some l' ->
  exists th, threads s !! t = Some th /\ thread_step s ins t th th' l'.
Proof.
  intros Ht Hth' El.
  pose proof exec_thread_same as Hsame. pose proof (ca_thread _ _ _ Hca) as Htc. pose proof (head_total (unmarked t)) as Hum.
  pose proof (od_size _ _ _ (ca_order _ _ _ Hca)) as Hsz. revert Hsame Hum.
  each; intros Hsame Hum; try discriminate El; injection El as <-;
  try match type of Hth' with threads (set_procs _ (on_thread_state ?u ?f s)) !! _ = _ =>
    assert (threads (on_thread_state u f s) !! t = Some th') as Hth2 by (clear - Hth'; destruct s; exact Hth'); clear Hth'; rename Hth2 into Hth' end;
  match type of Hth' with
  | threads (on_thread_state _ _ _) !! _ = _ =>
    destruct (on_thread_lookup _ _ _ _ _ Hth') as (th1 & Eth & [[-> ->]|[Hne ->]]); exists th1; (split; [done|])
  | _ => assert (threads s !! t = Some th') as Eth by (clear - Hth'; destruct s; exact Hth'); exists th'; split; [done|]
  end; try (apply Hsame; [by apply Htc|cbn; nats|cbn; nats]).
  all: try (destruct (Htc _ _ Eth) as [(Ho & Hb & Hp) Hq Hw Hm Hs Htk]).
  - destruct th1. cbn in *. split; cbn; rewrite ?Nat.eqb_refl; cbn; auto; [|right; right; lia]. apply Forall_app. tauto.
  - unfold send_byte. rewrite Ho. destruct th1. cbn in *.
    destruct (Z.ltb_spec pipe0 room); split; cbn; try (split_and!; [done..|lia]); auto; right; left; lia.
  - destruct th1. cbn in *. split; cbn; auto; rewrite ?Nat.leb_refl; cbn; try done. destruct Hw as [?|[?|?]]; auto. right. right. lia.
  - destruct th1 as [? ? ? ? st]. cbn in *. split; cbn; auto.
    + destruct Hw as [?|[?|?]]; auto. right. right. lia.
    + rewrite Nat.leb_refl in *. cbn in *. destruct st; cbn in *; nats.
  - nats.
  - nats.
  - match goal with H : forall t, _ /\ _ /\ sum_list_with (unmarked t) _ = _ |- _ => apply (H t) end.
  - by case_match.
  - destruct th1. cbn in *. split; cbn; rewrite ?Nat.eqb_refl; cbn; auto; [split_and!; [done..|lia]|]. right; right. lia.
  - destruct th1. cbn in *. split; cbn; rewrite ?Nat.eqb_refl; cbn; auto.
  - destruct th1. cbn in *. split; cbn; auto. destruct Hw as [?|[?|?]]; auto. right. right. lia.
  - destruct th1. cbn in *. split; cbn; auto. destruct Hw as [?|[?|?]]; auto. right. right. lia.
Qed.
Lemma exec_some : exists l', l = Some l' /\ ordered n c (set_procs (<[i:=l' ++ rest]> (procs s1)) s1).
Proof.
  pose proof (ca_order _ _ _ Hca) as Ho. destruct (is_inner ins) eqn:Hin; [by eapply ordered_inner|].
  assert ((exists t, ins = StartThread t) \/ ~ start_ind ins) as [[t Et]|Hns] by (clear; destruct ins; eauto).
  - rewrite Et in *. by eapply ordered_start.
  - destruct (exec_outer room ins s l s1 Hin Hns E) as (l' & El & H). exists l'. split; [done|]. by eapply ordered_outer.
Qed.

Lemma exec_procs l' : l = Some l' ->
  procs s1 = match ins with StartThread u => <[u:=[Loop_ u]]> (procs s) | _ => procs s end.
Proof. intros El. each; settle El; done. Qed.

Lemma exec_loop l' u : ins = Loop_ u -> l = Some l' -> l' <> [].
Proof.
  intros Ei El. pose proof (ca_thread _ _ _ Hca) as Htc. pose proof E as E'. rewrite Ei in E'. unexec E'.
  apply bind_Some in E' as (th & Eth & E'). rewrite (proj1 (proj2 (tc_open _ _ _ _ (Htc u th Eth)))) in E'.
  destruct (_ && _); [|done]. injection E' as E1 _. rewrite <- E1 in El. by injection El as <-.
Qed.

Lemma exec_alive l' t th' : l = Some l' -> threads s1 !! t = Some th' -> begun th' = true ->
  <[i:=l' ++ rest]> (procs s1) !! t <> Some [].
Proof.
  intros El Eth' Hb. pose proof (od_size _ _ _ (ca_order _ _ _ Hca)) as Hsz.
  destruct exec_some as (l1 & El1 & Ho). rewrite El in El1. injection El1 as <-.
  assert ((t < n)%nat) as Hlt.
  { rewrite <- (od_size _ _ _ Ho). destruct s1. by eapply lookup_lt_Some. }
  destruct (exec_thread t th' l' Hlt Eth' El) as (th & Eth & [_ _ _ _ _ Hbg]). specialize (Hbg Hb).
  rewrite (exec_procs l' El). intros Hnil.
  apply list_lookup_insert_Some in Hnil as [(Hit & Hnil & _)|(Hne & Hnil)].
  - apply app_nil in Hnil as [Hl Hr]. pose proof Hi as Hi'. rewrite Hr, Hit in Hi'.
    destruct (od_thread _ _ _ (ca_order _ _ _ Hca) t th _ Eth Hi') as [W _ _ _ _].
    apply (exec_loop l' t); [|done..]. remember [ins] as q eqn:Eq. revert W Eq. clear. intros W.
    destruct W as [| | | |[|x [|]]]; cbn; congruence.
  - assert (procs s !! t = Some [] -> False) as Hold.
    { intros Hp. destruct Hbg as [Hbg|Hbg]; [by apply (ca_alive _ _ _ Hca t th Eth Hbg)|]. rewrite Hbg in Hnil.
      rewrite list_lookup_insert_eq in Hnil; [done|]. by eapply lookup_lt_Some. }
    revert Hnil Hold. clear. destruct ins; auto. intros H Hold. apply list_lookup_insert_Some in H as [(_ & ? & _)|(_ & ?)]; auto.
    congruence.
Qed.
Lemma calm_exec : exists l', l = Some l' /\ calm n c (set_procs (<[i:=l' ++ rest]> (procs s1)) s1).
Proof.
  destruct exec_some as (l' & El & Ho). exists l'. split; [done|].
  set (s2 := set_procs _ s1).
  assert (threads s2 = threads s1 /\ handles s2 = handles s1 /\ m_freeFoxThreads s2 = m_freeFoxThreads s1 /\ p_start s2 = p_start s1 /\
    p_callbacks s2 = p_callbacks s1 /\ accepted s2 = accepted s1 /\ handed s2 = handed s1 /\ procs s2 = <[i:=l' ++ rest]> (procs s1))
    as (Et & Eh & Ef & Ep & Eq & Ea & Ed & Epr) by (unfold s2; by destruct s1).
  assert (forall g, queued g s2 = queued g s1) as Hqu by (intros; unfold queued; by rewrite Et).
  assert (forall h, use_count h s2 = use_count h s1) as Huc by (intros; unfold use_count; by rewrite Eh).
  assert (forall k, executed k s2 = executed k s1) as Hex by (intros; unfold executed; by rewrite Et).
  assert (forall f, (forall u, f (Loop_ u) = 0%nat) -> (total f s2 + f ins = total f s + sum_list_with f l')%nat) as Htot.
  { intros f Hf. by apply exec_total. }
  assert (forall t th', threads s2 !! t = Some th' -> (t < n)%nat) as Hlt.
  { intros t th' Hth. rewrite <- (od_size _ _ _ Ho). by eapply lookup_lt_Some. }
  destruct (exec_instr l' El) as (Hi1 & Hi2 & Hi3).
  split; rewrite ?Ef, ?Eh, ?Ep, ?Eq, ?Ea, ?Ed; [done| |done|..].
  - rewrite Epr, (exec_procs l' El). apply Forall_insert; [|apply Forall_app; split; [done|]].
    + pose proof (ca_instr _ _ _ Hca) as Hall. pose proof head_calm as Hh. destruct ins; try done.
      apply Forall_insert; [done|]. by repeat constructor.
    + pose proof (Forall_lookup_1 _ _ _ _ (ca_instr _ _ _ Hca) Hi) as Hh. by apply Forall_cons_1 in Hh as [_ Hh].
  - intros t th' Hth. specialize (Hlt t th' Hth). rewrite Et in Hth. destruct (exec_thread t th' l' Hlt Hth El) as (th & Eth & [H1 H2 H3 H4 H5 H6]).
    destruct (ca_thread _ _ _ Hca t th Eth) as [_ _ _ _ G5 G6].
    pose proof (Htot (waking t) (fun _ => eq_refl)). pose proof (Htot (unmarked t) (fun _ => eq_refl)). pose proof (Htot (token t) (fun _ => eq_refl)).
    pose proof (exec_token t l' Hlt El). split; rewrite ?Ef, ?Eh; try done; [|lia|lia].
    destruct H3 as [?|[?|?]]; [by left|right; by left|right; right; lia].
  - intros t th' Hth Hb. rewrite Epr. rewrite Et in Hth. by apply exec_alive with th'.
  - intros h. pose proof (Htot (refs h) (fun _ => eq_refl)). pose proof (exec_refs h l' El). pose proof (ca_refs _ _ _ Hca h).
    pose proof (head_total (refs h)). rewrite Huc, Hqu. lia.
  - pose proof (Htot starting (fun _ => eq_refl)). pose proof (exec_starting l' El). pose proof (ca_pstart _ _ _ Hca).
    pose proof (head_total starting). lia.
  - intros Hp. pose proof (Htot checking (fun _ => eq_refl)). pose proof (head_total checking).
    destruct (exec_check l' El Hp) as [?|[?|[?|(? & Hp' & -> & ->)]]]; [by left|by right; left|right; right; lia|].
    destruct (ca_check _ _ _ Hca Hp') as [?|[?|?]]; [by left|by right; left|right; right; lia].
  - by apply (exec_accepted l').
  - intros k. pose proof (Htot (carried k) (fun _ => eq_refl)). pose proof (exec_handed k l' El). pose proof (ca_handed _ _ _ Hca k).
    pose proof (head_total (carried k)). rewrite Hqu, Hex. lia.
Qed.
Lemma store_on u f th : threads s !! u = Some th -> (store (on_thread_state u f s) + load th = store s + load (f th))%nat.
Proof. intros H. unfold store. destruct s. cbn in *. pose proof (sum_alter load f _ _ _ H). lia. Qed.

Lemma sum_succ {A} (f : A -> nat) xs : sum_list_with (fun x => S (f x)) xs = (length xs + sum_list_with f xs)%nat.
Proof. induction xs as [|x xs IH]; cbn; [done|]. rewrite IH. lia. Qed.

Lemma exec_store l' : l = Some l' -> (store s1 + sum_list_with (weight n) l' < store s + weight n ins)%nat.
Proof.
  intros El. pose proof (od_size _ _ _ (ca_order _ _ _ Hca)) as Hsz. pose proof (ca_thread _ _ _ Hca) as Htc.
  pose proof store_on as Hon. revert Hon.
  each; intros Hon; try discriminate El; injection El as <-;
  try match goal with |- context [on_thread_state ?u ?f s] =>
    let th := fresh "th" in destruct (Hth u) as [th Eth]; [tauto|]; specialize (Hon u f th Eth); specialize (Htc u th Eth);
    destruct Htc as [(Ho & Hb & Hp) _ _ _ _ _];
    repeat match goal with H : threads s !! u = Some ?x, H' : threads s !! u = Some th |- _ =>
      assert (x = th) by congruence; subst x; clear H end; unfold load in Hon; destruct th; cbn in Ho, Hb, Hp end;
  cbn [sum_list_with weight];
  try match goal with |- context [store (set_procs ?p ?x)] => assert (store (set_procs p x) = store x) as -> by (clear; destruct s; done) end;
  try (unfold send_byte in Hon; cbn in Hon |- *; lia);
  try (destruct s; unfold store; cbn; rewrite ?length_app; cbn; lia); try lia.
  - cbn in Hon. rewrite sum_list_with_app in Hon. lia.
  - unfold send_byte in Hon |- *. cbn in Hon. rewrite Ho in Hon. destruct (pipe0 <? room); cbn in Hon; lia.
  - assert (store (set_free (m_freeFoxThreads s ++ [u]) s) = store s) as -> by (clear; by destruct s).
    destruct (Nat.ltb_spec (S u) (size s)); cbn [weight]; lia.
  - match goal with H : forall m, sum_list_with (weight m) _ = _ |- _ => rewrite H end. destruct s. unfold store. cbn. lia.
  - case_match; cbn; lia.
  - destruct s. unfold store. cbn in *. subst. cbn. lia.
  - destruct s. unfold store. cbn. case_match; cbn; lia.
  - exfalso. match goal with H : threads s !! u = Some ?x |- _ => pose proof (proj1 (proj2 (tc_open _ _ _ _ (Htc u x H)))) end. congruence.
  - cbn in Hon. match goal with H : _ && (0 <? _) = true |- _ => apply andb_true_iff in H as [_ H]; cbn in H; apply Z.ltb_lt in H end. lia.
  - cbn in Hon |- *. rewrite sum_succ in Hon. lia.
Qed.

End one.
Lemma calm_move n c s i s' : (0 < n)%nat -> (c <= 1)%nat -> calm n c s -> step room (Move i) s = Some s' -> calm n c s'.
Proof.
  intros Hn Hc Hca E. cbn in E. destruct (procs s !! i) as [[|ins rest]|] eqn:Hi; try done.
  apply bind_Some in E as ([l s1] & E & [= <-]). destruct (calm_exec n c s i ins rest Hn Hc Hca Hi l s1 E) as (l' & -> & H). done.
Qed.

Lemma sum_zero {A} (f : A -> nat) l : (forall x, f x = 0%nat) -> sum_list_with f l = 0%nat.
Proof. intros H. induction l as [|x l IH]; cbn; [done|]. by rewrite H, IH. Qed.

Lemma sum_map_zero {A B} (f : A -> nat) (g : B -> A) l : (forall x, f (g x) = 0%nat) -> sum_list_with f (map g l) = 0%nat.
Proof. intros H. induction l as [|x l IH]; cbn; [done|]. by rewrite H, IH. Qed.

Definition is_start (k : call) : nat := match k with start => 1 | _ => 0 end.

Lemma code_calm n k : (0 < n)%nat -> calm_call n k -> Forall (calm_instr n) (code k n) /\
  (forall h, sum_list_with (refs h) (code k n) = 0%nat) /\ (forall q, sum_list_with (carried q) (code k n) = 0%nat) /\
  (forall t, sum_list_with (token t) (code k n) = is_start k /\ sum_list_with (unmarked t) (code k n) = is_start k) /\
  sum_list_with starting (code k n) = is_start k.
Proof.
  intros Hn Hk. destruct k as [q|id q|ks|q|t ks| | | |]; cbn in Hk |- *; try done; try (split_and!; try done; by repeat constructor).
  - split_and!; intros; try split; try (by apply sum_map_zero). apply Forall_map, Forall_forall. intros t Ht%in_seq.
    split; [lia|by constructor].
  - split_and!; intros; try split; try done; try (by rewrite sum_map_zero). constructor; [|done]. split; [done|]. apply Forall_map, Forall_true. done.
  - rewrite (proj2 (Nat.ltb_lt 0 n) Hn). split_and!; try done. by constructor.
Qed.

Lemma calm_calls n c s k : (0 < n)%nat -> (c + is_start k <= 1)%nat -> calm_call n k -> calm n c s ->
  calm n (c + is_start k) (set_procs (procs s ++ [code k (size s)]) s).
Proof.
  intros Hn Hc Hk [Ho Hi [Hf Hh] Ht Ha Hr Hp Hck Hac Hhd]. pose proof (od_size _ _ _ Ho) as Hsz. rewrite Hsz.
  destruct (code_calm n k Hn Hk) as (H1 & H2 & H3 & H4 & H5).
  set (s' := set_procs _ s).
  assert (forall f, total f s' = total f s + sum_list_with f (code k n))%nat as Htot.
  { intros f. unfold total, s'. destruct s. cbn. rewrite sum_list_with_app. cbn. lia. }
  assert (threads s' = threads s /\ handles s' = handles s /\ m_freeFoxThreads s' = m_freeFoxThreads s /\ p_start s' = p_start s /\
    p_callbacks s' = p_callbacks s /\ accepted s' = accepted s /\ handed s' = handed s /\ procs s' = procs s ++ [code k n])
    as (Et & Eh & Ef & Ep & Eq & Ea & Ed & Epr) by (unfold s'; by destruct s).
  split; rewrite ?Ef, ?Eh, ?Ep, ?Eq, ?Ea, ?Ed, ?Epr; try done.
  - unfold s'. rewrite <- Hsz. pose proof (ordered_call n c s k) as H. unfold is_start.
    rewrite Hsz in H |- *. apply H; [|done]. by intros ->.
  - apply Forall_app. split; [done|by constructor].
  - intros t th Hth. rewrite Et in Hth. destruct (Ht t th Hth) as [G1 G2 G3 G4 G5 G6]. destruct (H4 t) as [H6 H7].
    split; rewrite ?Ef, ?Eh, ?Htot; try done; [|lia|lia]. destruct G3 as [?|[?|?]]; [by left|by right; left|right; right; lia].
  - intros t th Hth Hb. rewrite Et in Hth. specialize (Ha t th Hth Hb).
    pose proof (lookup_lt_Some _ _ _ Hth). pose proof (od_procs _ _ _ Ho). unfold size in Hsz. by rewrite lookup_app_l by lia.
  - intros h. unfold use_count, queued. rewrite Eh, Et, Htot, H2, Nat.add_0_r. apply Hr.
  - rewrite Htot, H5. lia.
  - intros Hps. rewrite Htot. destruct (Hck Hps) as [?|[?|?]]; [by left|by right; left|right; right; lia].
  - intros q. unfold queued, executed. rewrite Et, Htot, H3, Nat.add_0_r. apply Hhd.
Qed.

Lemma calm_new n a : calm n 0 (FoxThreadPool_new n a).
Proof.
  assert (forall f, total f (FoxThreadPool_new n a) = 0%nat) as Htot.
  { intros f. unfold total. cbn. induction n; cbn; done. }
  assert (forall g, (g FoxThread_new = 0%nat) -> sum_list_with g (replicate n FoxThread_new) = 0%nat) as Hz.
  { intros g Hg. induction n as [|m IH]; cbn; [done|]. by rewrite Hg, IH. }
  split; rewrite ?Htot; try done; [apply ordered_new| | | | |].
  - apply Forall_replicate. constructor.
  - intros t th Hth. apply lookup_replicate in Hth as [-> _]. split; rewrite ?Htot; try done. by left.
  - intros t th Hth. by apply lookup_replicate in Hth as [-> _].
  - intros h. rewrite Htot. unfold queued. cbn. by rewrite Hz.
  - intros k. rewrite Htot. unfold queued, executed. cbn. by rewrite !Hz.
Qed.

Definition calm_event (n : nat) (e : event) : Prop := match e with Call k => calm_call n k | Move _ => True end.

Lemma calm_run n evs : forall c s s', (0 < n)%nat -> Forall (calm_event n) evs -> (c + starts evs <= 1)%nat -> calm n c s ->
  run room evs s = Some s' -> calm n (c + starts evs) s'.
Proof.
  induction evs as [|e evs IH]; intros c s s' Hn He Hc Hca E; cbn in E.
  - injection E as <-. unfold starts. cbn. by rewrite Nat.add_0_r.
  - apply bind_Some in E as (s1 & E1 & E). apply Forall_cons_1 in He as [He Hes].
    destruct e as [k|i]; cbn [calm_event] in He.
    + assert (starts (Call k :: evs) = is_start k + starts evs)%nat as Es by (by destruct k). rewrite Es in *.
      rewrite Nat.add_assoc. cbn in E1. injection E1 as <-. eapply IH; [done|done|lia| |exact E]. apply calm_calls; [done|lia|done..].
    + assert (starts (Move i :: evs) = starts evs) as Es by done. rewrite Es in *. apply (IH c s1 s'); try done.
      apply (calm_move n c s i); done || lia.
Qed.
(** Every action leaves less to do. *)
Lemma work_move n c s i s' : (0 < n)%nat -> (c <= 1)%nat -> calm n c s -> step room (Move i) s = Some s' ->
  calm n c s' /\ (work n s' < work n s)%nat.
Proof.
  intros Hn Hc Hca E. split; [by eapply calm_move|]. cbn in E. destruct (procs s !! i) as [[|ins rest]|] eqn:Hi; try done.
  apply bind_Some in E as ([l s1] & E & [= <-]).
  destruct (calm_exec n c s i ins rest Hn Hc Hca Hi l s1 E) as (l' & -> & _).
  pose proof (exec_store n c s i ins rest Hn Hc Hca Hi _ s1 E l' eq_refl).
  pose proof (exec_total n c s i ins rest Hn Hc Hca Hi _ s1 E (weight n) l' (fun _ => eq_refl) eq_refl) as Ht.
  pose proof (total_ge (weight n) s i _ Hi) as Hge. cbn in Hge. unfold work.
  assert (forall p, store (set_procs p s1) = store s1) as -> by (intros; by destruct s1). lia.
Qed.

Lemma moves_bound n c l : forall s s', (0 < n)%nat -> (c <= 1)%nat -> calm n c s -> run room (map Move l) s = Some s' ->
  (length l <= work n s)%nat.
Proof.
  induction l as [|i l IH]; intros s s' Hn Hc Hca E; cbn [map run] in E; [cbn; lia|].
  apply bind_Some in E as (s1 & E1 & E). destruct (work_move n c s i s1 Hn Hc Hca E1) as [Hca1 Hw].
  specialize (IH s1 s' Hn Hc Hca1 E). cbn. lia.
Qed.

(** Where everybody is when nobody can move. *)
Lemma at_rest n c s : (0 < n)%nat -> (c <= 1)%nat -> calm n c s -> (forall i, step room (Move i) s = None) ->
  forall i p, procs s !! i = Some p -> p = [] \/ (i < n)%nat /\ p = [Loop_ i].
Proof.
  intros Hn Hc Hca Hq i p Hi. destruct p as [|ins rest]; [by left|right]. specialize (Hq i). cbn in Hq. rewrite Hi in Hq.
  assert (exists u, ins = Loop_ u) as [u ->].
  { assert ((exists u, ins = Loop_ u) \/ forall u, ins <> Loop_ u) as [?|Hnl] by (clear; destruct ins; eauto); [done|].
    destruct (exec_enabled n c s i ins rest Hn Hc Hca Hi Hnl) as [[l s1] E]. by rewrite E in Hq. }
  destruct (Nat.lt_ge_cases i n) as [Hlt|Hge].
  - split; [done|]. destruct (thread_of n c s Hca i Hlt) as [th Hth].
    destruct (od_thread _ _ _ (ca_order _ _ _ Hca) i th _ Hth Hi) as [W _ _ _ _].
    remember (Loop_ u :: rest) as q eqn:Eq. revert W Eq. clear. intros W.
    destruct W as [| | | |[|x xs] Ho]; cbn; intros Eq; try done. injection Eq as -> ->. inversion Ho. done.
  - pose proof (od_client _ _ _ (ca_order _ _ _ Hca) i _ Hge Hi) as Ho. by inversion Ho.
Qed.

Lemma quiet_total n c s f : (0 < n)%nat -> (c <= 1)%nat -> calm n c s -> (forall i, step room (Move i) s = None) ->
  (forall u, f (Loop_ u) = 0%nat) -> total f s = 0%nat.
Proof.
  intros Hn Hc Hca Hq Hf. pose proof (at_rest n c s Hn Hc Hca Hq) as Hp. unfold total.
  assert (forall ps, (forall p, In p ps -> p = [] \/ exists i, p = [Loop_ i]) -> sum_list_with (sum_list_with f) ps = 0%nat) as H.
  { induction ps as [|p ps IH]; intros Hps; cbn; [done|]. rewrite IH by (intros; apply Hps; by right).
    destruct (Hps p) as [->|[i ->]]; [by left|done|cbn; by rewrite Hf]. }
  apply H. intros p [i Hi]%list_elem_of_In%list_elem_of_lookup_1. destruct (Hp i p Hi) as [->|[_ ->]]; eauto.
Qed.

(** Nothing is left over. *)
Lemma quiet_done n s : (0 < n)%nat -> calm n 1 s -> (forall i, step room (Move i) s = None) ->
  (forall t th, threads s !! t = Some th -> m_callbacks th = [] /\ given th = ran th) /\
  (forall t, (t < n)%nat -> occ t (m_freeFoxThreads s) = 1%nat) /\
  p_callbacks s = [] /\ forall k, occ k (accepted s) = executed k s.
Proof.
  intros Hn Hca Hq. pose proof (fun f => quiet_total n 1 s f Hn (le_n 1) Hca Hq) as Htot.
  assert (forall t th, threads s !! t = Some th -> m_callbacks th = []) as Hempty.
  { intros t th Hth. destruct (ca_thread _ _ _ Hca t th Hth) as [[Ho [Hb Hp]] _ [?|[Hpos|Hw]] Hm Hs _]; [done| |rewrite Htot in Hw; [lia|done]].
    exfalso. rewrite Htot in Hs by done. assert (m_start th = true) as Hms by (destruct (m_start th); [done|cbn in Hs; lia]).
    assert ((t < n)%nat) as Hlt by (rewrite <- (od_size _ _ _ (ca_order _ _ _ Hca)); by eapply lookup_lt_Some).
    destruct (lookup_lt_is_Some_2 (procs s) t) as [p Hpt]; [pose proof (od_procs _ _ _ (ca_order _ _ _ Hca)); lia|].
    destruct (od_thread _ _ _ (ca_order _ _ _ Hca) t th p Hth Hpt) as [_ _ _ _ Sb]. rewrite Htot in Sb by done.
    assert (begun th = true) as Hbg by (destruct (begun th); [done|cbn in Sb; lia]).
    destruct (at_rest n 1 s Hn (le_n 1) Hca Hq t p Hpt) as [->|[_ ->]]; [by apply (ca_alive _ _ _ Hca t th Hth Hbg)|].
    specialize (Hq t). cbn in Hq. rewrite Hpt in Hq. cbn in Hq. unfold event_loop in Hq. rewrite Hth in Hq. cbn in Hq. rewrite Hb, Ho in Hq. cbn in Hq.
    rewrite (proj2 (Z.ltb_lt 0 (pipe th)) Hpos) in Hq. done. }
  assert (forall g, queued g s = 0%nat) as Hqu.
  { intros g. unfold queued. assert (forall ths, (forall th, In th ths -> m_callbacks th = []) ->
      sum_list_with (fun th => sum_list_with g (m_callbacks th)) ths = 0%nat) as H.
    { induction ths as [|th ths IH]; intros H; cbn; [done|]. rewrite H by (by left). cbn. apply IH. intros. apply H. by right. }
    apply H. intros th [t Hth]%list_elem_of_In%list_elem_of_lookup_1. by eapply Hempty. }
  assert (forall t, (t < n)%nat -> occ t (m_freeFoxThreads s) = 1%nat) as Hfree.
  { intros t Hlt. destruct (thread_of n 1 s Hca t Hlt) as [th Hth]. pose proof (tc_token _ _ _ _ (ca_thread _ _ _ Hca t th Hth)) as Htk.
    rewrite Htot in Htk by done. assert (sum_list_with (in_use t) (handles s) = 0%nat) as Hz; [|lia].
    assert (forall hs, (forall h, In h hs -> h.2 = 0%nat) -> sum_list_with (in_use t) hs = 0%nat) as H.
    { induction hs as [|h hs IH]; intros H; cbn; [done|]. unfold in_use at 1. rewrite H by (by left). cbn.
      rewrite andb_false_r. cbn. apply IH. intros. apply H. by right. }
    apply H. intros h [j Hj]%list_elem_of_In%list_elem_of_lookup_1. pose proof (ca_refs _ _ _ Hca j) as Hr.
    unfold use_count in Hr. rewrite Hj, Htot, Hqu in Hr by done. by destruct h. }
  assert (p_callbacks s = []) as Hpc.
  { destruct (ca_check _ _ _ Hca) as [Hf|[Hf|Hf]]; [| |done|].
    - pose proof (ca_pstart _ _ _ Hca) as Hp. rewrite Htot in Hp by done. destruct (p_start s); [done|cbn in Hp; lia].
    - specialize (Hfree 0%nat Hn). rewrite Hf in Hfree. done.
    - rewrite Htot in Hf by done. lia. }
  split_and!; try done.
  - intros t th Hth. split; [by eapply Hempty|].
    assert ((t < n)%nat) as Hlt by (rewrite <- (od_size _ _ _ (ca_order _ _ _ Hca)); by eapply lookup_lt_Some).
    destruct (lookup_lt_is_Some_2 (procs s) t) as [p Hpt]; [pose proof (od_procs _ _ _ (ca_order _ _ _ Hca)); lia|].
    destruct (od_thread _ _ _ (ca_order _ _ _ Hca) t th p Hth Hpt) as [_ Or _ _ _].
    destruct (ca_thread _ _ _ Hca t th Hth) as [[_ [Hb _]] _ _ _ _ _].
    destruct Or as [(_ & _ & Hg)|(? & ? & _ & _ & _ & Hb' & _)]; [|congruence].
    rewrite (Hempty t th Hth) in Hg. destruct (at_rest n 1 s Hn (le_n 1) Hca Hq t p Hpt) as [->|[_ ->]]; cbn in Hg; by rewrite app_nil_r in Hg.
  - intros k. rewrite (ca_accepted _ _ _ Hca), Hpc, app_nil_r, (ca_handed _ _ _ Hca k), Htot, Hqu by done. done.
Qed.
End calm.

(** ** FoxThreadManager: threads and pools by name *)
Section manager.
#[local] Abbreviation str := (list Z).

(** [boost::lexical_cast<int>], which throws on other strings, and the room of a socket pair. *)
Context (lexical_cast : str -> option Z) (room : Z).

(** A thread, or a pool; both are machines as above. *)
Inductive IFoxThread := OneThread (p : Pool) | ThreadPool (p : Pool).

Definition GetParamValue (m : gmap str str) (k : str) (def : Z) : Z :=
  match m !! k with Some v => default def (lexical_cast v) | None => def end.

Definition init_one (num_key advance_key : str) (conf : gmap str str) : option IFoxThread :=
  let num := GetParamValue conf num_key 0 in
  let advance := GetParamValue conf advance_key 0 in
  if num <=? 0 then None
  else if num =? 1 then Some (OneThread (FoxThreadPool_new 1 false))
  else Some (ThreadPool (FoxThreadPool_new (Z.to_nat num) (negb (advance =? 0)))).

Definition init (num_key advance_key : str) (conf : gmap str (gmap str str)) (m : gmap str IFoxThread) : gmap str IFoxThread :=
  omap (init_one num_key advance_key) conf ∪ m.

Definition add (name : str) (t : IFoxThread) (m : gmap str IFoxThread) : gmap str IFoxThread := <[name := t]> m.

(** The virtual methods: a thread has one queue for all of them. *)
Definition calling (k : call) (t : IFoxThread) : IFoxThread :=
  let go k p := set_procs (procs p ++ [code k (size p)]) p in
  match t with
  | ThreadPool p => ThreadPool (go k p)
  | OneThread p =>
    OneThread (go (match k with
      | dispatch q | dispatch_id _ q | broadcast q => on_thread 0 [q]
      | batchDispatch ks => on_thread 0 ks
      | k => k end) p)
  end.

(** [dispatch], [batchDispatch] and [broadcast] of the manager. *)
Definition manager_call (name : str) (k : call) : M (gmap str IFoxThread) unit := fun m =>
  match m !! name with
  | None => (AssertFail, m)
  | Some t => (Ok tt, <[name := calling k t]> m)
  end.

Definition manager_start (m : gmap str IFoxThread) : gmap str IFoxThread := calling start <$> m.
Definition manager_stop (m : gmap str IFoxThread) : gmap str IFoxThread := (fun t => calling join (calling stop t)) <$> m.

Lemma init_lookup num_key advance_key conf m name :
  init num_key advance_key conf m !! name = match conf !! name ≫= init_one num_key advance_key with Some t => Some t | None => m !! name end.
Proof. unfold init. rewrite lookup_union, lookup_omap. destruct (conf !! name ≫= _); [by rewrite union_Some_l|by rewrite (left_id None _)]. Qed.
End manager.

(** ** Properties *)
Section properties.
Context (room : Z).

(** C40: the tasks of one thread run in the order in which they were given to it, each
    once: what it has run, what it has taken out of its queue and the queue are
    what it was given.  A thread that was told to stop runs what was given before
    that, and nothing after it.  This holds for pools of any kind, used by any
    number of clients at once, that are started at most once and not deleted. *)
Theorem tasks_in_order n a evs s t th p :
  Forall keeps evs -> (starts evs <= 1)%nat -> run room evs (FoxThreadPool_new n a) = Some s ->
  threads s !! t = Some th -> procs s !! t = Some p ->
  (None ∉ ran th -> given th = ran th ++ pending p ++ m_callbacks th) /\
  (None ∈ ran th -> exists l l', ran th = l ++ [None] /\ None ∉ l /\ given th = l ++ None :: l' /\ resting p).
Proof.
  intros He Hs E Ht Hp. pose proof (ordered_run room n evs 0 _ s He Hs (ordered_new n a) E) as Ho.
  destruct (to_order _ _ _ _ _ (od_thread _ _ _ Ho t th p Ht Hp)) as [(H1 & _ & H3)|(l & l' & H1 & H2 & H3 & _ & _ & H6)].
  - by split.
  - split; [rewrite H1; intros []; apply elem_of_app; right; by left|]. intros _. by exists l, l'.
Qed.


(** C9: nothing is forgotten and nothing goes on for ever: without further calls the
    threads of a started pool and its clients can only take so many steps, and when
    none of them can take one, every thread has run all it was given, every task
    of the pool has been run as often as it was dispatched, every thread is free and
    every client has returned. *)
Theorem thread_pool_runs_everything n a evs s :
  0 < room -> (0 < n)%nat -> Forall (calm_event n) evs -> starts evs = 1%nat ->
  run room evs (FoxThreadPool_new n a) = Some s ->
  (forall l s', run room (map Move l) s = Some s' -> (length l <= work n s)%nat) /\
  ((forall i, step room (Move i) s = None) ->
    (forall t th, threads s !! t = Some th -> m_callbacks th = [] /\ given th = ran th) /\
    (forall t, (t < n)%nat -> occ t (m_freeFoxThreads s) = 1%nat) /\
    (p_callbacks s = [] /\ forall k, occ k (accepted s) = executed k s) /\
    (forall i p, (n <= i)%nat -> procs s !! i = Some p -> p = [])).
Proof.
  intros Hr Hn He Hs E. pose proof (calm_run room Hr n evs 0 _ s Hn He ltac:(lia) (calm_new n a) E) as Hca. rewrite Hs in Hca. split.
  - intros l s' El. by apply (moves_bound room Hr n 1 l s s' Hn (le_n 1)).
  - intros Hq. destruct (quiet_done room n s Hn Hca Hq) as (H1 & H2 & H3). split_and!; try done; [apply H3|apply H3|].
    intros i p Hi Hp. destruct (at_rest room n 1 s Hn (le_n 1) Hca Hq i p Hp) as [?|[? _]]; [done|lia].
Qed.
End properties.

(** ** Runs at concrete pools *)
Definition moves (l : list nat) : list event := map Move l.
Definition ran_by (s : Pool) : list (list task) := map ran (threads s).

(** Two threads, started, and two tasks for the first that is idle. *)
Definition demo_start : list event := Call start :: moves (replicate 9 2%nat).
Example two_tasks : exists s,
  run 10 (demo_start ++ [Call (dispatch 7); Call (dispatch 8)] ++ moves (replicate 7 3%nat ++ replicate 7 4%nat) ++
          moves (replicate 6 0%nat ++ replicate 6 1%nat)) (FoxThreadPool_new 2 true) = Some s /\
  ran_by s = [[Some (Wrap 0 7)]; [Some (Wrap 1 8)]].
Proof. eexists. split; [vm_compute; reflexivity|]. vm_compute. reflexivity. Qed.

Definition two_events : list event :=
  demo_start ++ [Call (dispatch 7); Call (dispatch 8)] ++ moves (replicate 7 3%nat ++ replicate 7 4%nat) ++
  moves (replicate 6 0%nat ++ replicate 6 1%nat).
Definition two_done : Pool := default (FoxThreadPool_new 2 true) (run 10 two_events (FoxThreadPool_new 2 true)).


(** The end of the calls, and the threads back in the list. *)
Definition all_events : list event := two_events ++ moves (replicate 5 0%nat ++ replicate 5 1%nat ++ [3; 3; 4; 4]%nat).
Definition all_done : Pool := default (FoxThreadPool_new 2 true) (run 10 all_events (FoxThreadPool_new 2 true)).

Lemma nobody_moves i : step 10 (Move i) all_done = None.
Proof. do 5 (destruct i as [|i]; [vm_compute; reflexivity|]). vm_compute. reflexivity. Qed.

Lemma thread_pool_runs_everything_witness :
  run 10 all_events (FoxThreadPool_new 2 true) = Some all_done /\ ran_by all_done = [[Some (Wrap 0 7)]; [Some (Wrap 1 8)]] /\
  m_freeFoxThreads all_done = [0%nat; 1%nat] /\ (forall k, occ k (accepted all_done) = executed k all_done).
Proof.
  assert (run 10 all_events (FoxThreadPool_new 2 true) = Some all_done) as E by (vm_compute; reflexivity).
  destruct (thread_pool_runs_everything 10 2 true all_events all_done) as [_ H]; [lia|lia|by repeat constructor|vm_compute; reflexivity|exact E|].
  destruct (H nobody_moves) as (_ & _ & (_ & Hk) & _).
  split_and!; [exact E|vm_compute; reflexivity..|exact Hk].
Defined.

(** A thread told to stop behind one task and before another. *)
Definition stop_events : list event :=
  Call start :: moves (replicate 5 1%nat) ++ [Call (on_thread 0 [7%nat]); Call stop; Call (on_thread 0 [8%nat])] ++ moves [2; 3; 4]%nat ++
  moves (replicate 1 2%nat ++ replicate 4 0%nat).
Definition stopped : Pool := default (FoxThreadPool_new 1 false) (run 10 stop_events (FoxThreadPool_new 1 false)).

Lemma tasks_in_order_witness : exists th p, threads stopped !! 0%nat = Some th /\ procs stopped !! 0%nat = Some p /\
  given th = [Some (Plain 7); None; Some (Plain 8)] /\ ran th = [Some (Plain 7); None] /\ resting p.
Proof.
  assert (run 10 stop_events (FoxThreadPool_new 1 false) = Some stopped) as E by (vm_compute; reflexivity).
  eexists _, _. split; [vm_compute; reflexivity|]. split; [vm_compute; reflexivity|].
  edestruct (tasks_in_order 10 1 false stop_events stopped 0) as [_ H];
    [by repeat constructor|vm_compute; lia|exact E|vm_compute; reflexivity|vm_compute; reflexivity|].
  destruct H as (l & l' & H1 & _ & _ & Hr); [right; left|].
  split_and!; [reflexivity|reflexivity|exact Hr].
Defined.

(** The task behind the null one is taken out of the queue, counted and not run. *)
Example stop_drops : exists s,
  run 10 (stop_events ++ moves (replicate 1 0%nat)) (FoxThreadPool_new 1 false) = Some s /\
  map m_callbacks (threads s) = [[]] /\ ran_by s = [[Some (Plain 7); None]] /\ map m_total (threads s) = [3].
Proof. eexists. split; [vm_compute; reflexivity|]. vm_compute. auto. Qed.

(** Told to stop before it is started, a thread ends when the first task wakes it. *)
Example stop_before_start : exists s,
  run 10 ([Call stop; Call start] ++ moves (replicate 2 1%nat ++ replicate 5 2%nat) ++ [Call (on_thread 0 [7%nat])] ++
    moves [3; 3]%nat ++ moves (replicate 6 0%nat)) (FoxThreadPool_new 1 false) = Some s /\
  ran_by s = [[None]] /\ map m_callbacks (threads s) = [[]].
Proof. eexists. split; [vm_compute; reflexivity|]. vm_compute. auto. Qed.

(** Deleting a running pool: the descriptors are closed before the threads are told, so
    the first thread is never woken and is waited for without end. *)
Example delete_hangs : exists s,
  run 10 (demo_start ++ [Call destroy] ++ moves [3; 3]%nat) (FoxThreadPool_new 2 true) = Some s /\
  (exists rest, procs s !! 3%nat = Some (JoinThread 0 :: rest)) /\ forall i, step 10 (Move i) s = None.
Proof.
  eexists. split; [vm_compute; reflexivity|]. split; [by eexists|].
  intros i. do 4 (destruct i as [|i]; [vm_compute; reflexivity|]). vm_compute. reflexivity.
Qed.

(** While [stop] has told all threads and not yet marked the pool, a task makes [check] and the
    deleter of its handle call each other: the calls pile up on the stack. *)
Example stop_recursion : exists s,
  run 10 (demo_start ++ [Call stop] ++ moves [3; 3]%nat ++ moves (replicate 7 0%nat ++ replicate 7 1%nat) ++ [Call (dispatch 7)] ++
    moves (replicate 601 4%nat)) (FoxThreadPool_new 2 true) = Some s /\
  procs s !! 4%nat = Some (replicate 101 Check_) /\ p_callbacks s = [7%nat].
Proof. eexists. split; [vm_compute; reflexivity|]. vm_compute. auto. Qed.

(** Stopped and started again, every thread is in the list of free ones twice. *)
Example restart_doubles : exists s,
  run 10 (demo_start ++ [Call stop; Call join] ++ moves [3; 3; 3]%nat ++ moves (replicate 7 0%nat ++ replicate 7 1%nat) ++
    moves [4; 4]%nat ++ [Call start] ++ moves (replicate 9 5%nat)) (FoxThreadPool_new 2 true) = Some s /\
  m_freeFoxThreads s = [0%nat; 1%nat; 0%nat; 1%nat].
Proof. eexists. split; [vm_compute; reflexivity|]. vm_compute. reflexivity. Qed.

(** A full socket pair: the call fails and the task runs all the same. *)
Example full_pipe : exists s,
  run 1 (Call start :: moves (replicate 5 1%nat) ++ [Call (on_thread 0 [7%nat]); Call (on_thread 0 [8%nat])] ++ moves [2; 3; 2; 3]%nat ++
    moves (replicate 5 0%nat)) (FoxThreadPool_new 1 false) = Some s /\
  ran_by s = [[Some (Plain 7); Some (Plain 8)]].
Proof. eexists. split; [vm_compute; reflexivity|]. vm_compute. reflexivity. Qed.
